(* ===== verification/_CoqProject ===== *)
-Q . S2P
Prelude.v
CString.v
Layout.v
Sleeplock.v
Ring.v
Bio.v
Log.v
BlockLayer.v
LogTxn.v
TxnLayer.v
Fs.v
FsBlock.v
FsFile.v
FsRW.v
FsDir.v
Spinlock.v
Kalloc.v
Vm.v
VmRep.v
VmUser.v
VmCopy.v
VmOut.v
VmSpace.v
VmDemo.v
Ulib.v
Grep.v
Sh.v
ShParse.v
ShRun.v
Umalloc.v
Pipe.v
File.v
Proc.v
LockRep.v
ProcOps.v
ProcEff.v
ProcSafe.v
ProcStep.v
ProcThms.v
Seg.v
Syscall.v
FsTree.v
SysFile.v
FsRest.v
FileIO.v
FsDemo.v
ProcMem.v
Exec.v
ExecMem.v
ProcSpace.v
ProcFork.v
ProcLife.v
ExecCommit.v
ProcSteps.v
ExecLoad.v
ExecRun.v
ProcIso.v
ExecInv.v
ProcBoot.v
Isolation.v
ForkThms.v
ExecThm.v
OsDemo.v
Mkfs.v
MkfsThms.v
MkfsBuild.v
Ports.v
Console.v
ConsoleOut.v
ConsoleDev.v
Kbd.v
Ide.v
Mp.v
Trap.v
Apic.v
