(* ===== verification/Prelude.v ===== *)
(** * xv6 on x86: a verification development

    The program is the xv6 teaching operating system: a kernel (processes,
    virtual memory, a logging file system, drivers), the tool that makes its
    disk image, and user programs.  The routines of the sources are translated
    to functions and step relations, and the theorems are about these.  This
    file is the prelude: record update, machine integers, the kernel monad with
    its rules of total correctness, and lemmas on lists that the others share.

    ** How code is modelled

    A routine that changes state is a function [M S A]: from a state it returns
    a value and a state ([Ok]), calls [panic] ([Panic]), or waits for an event
    that its own thread cannot cause ([Blocked]); a [panic] of the source, a
    null pointer and a processor fault are [Panic].  [wp m s Q] says that [m]
    returns and that [Q] holds then, so a theorem stated with it is total
    correctness.  A structure is a record, a pointer to a table entry its
    index, a pointer to memory an address of the flat memory of [CString.v]
    when the code computes with it.  A [uint] is the integer it denotes and
    wraps by [u32]; signed values are read back by [s32].  Concurrent code is
    an inductive step relation whose steps are the sections between the points
    where another CPU or thread can be seen: memory accesses in [Spinlock.v],
    critical sections elsewhere.

    Code that is not in the sources is a parameter with named laws: the ports
    and devices ([PortOps] with the laws [ConsolePorts], [IdePorts],
    [DriveLayer], [PicLayer] and [RtcLayer]; [LapicLayer], [IoapicLayer]), the
    addresses the linker chooses, the vectors of vectors.S.  The devices may
    fail where real ones do: the drive may report an error for any command,
    the serial port loses what is written while it is busy, and the registers
    of the clock are undefined while it is updated.
    Where components meet, the client is written against a class, and the
    implementation is an instance: [BlockOps] and [BlockLayer] (the disk with
    its log, for the file system), [TxnOps] and [TxnLayer] (transactions, for
    the system calls), [PageOps] and [PageLayer] (physical pages, for virtual
    memory and processes).

    ** The parts

    Disk and file system.  [Layout.v] has the on-disk formats (fs.h, param.h).
    [Sleeplock.v] is sleeplock.c; [Ring.v] and [Bio.v] the buffer cache and the
    memory disk (bio.c, memide.c); [Log.v] the log (log.c), with crashes as
    prefixes of the sequence of block writes; [BlockLayer.v], [LogTxn.v] and
    [TxnLayer.v] the interfaces above it and their instances.  [Fs.v] is fs.c;
    [FsBlock.v] (allocation), [FsFile.v], [FsRW.v] (contents), [FsDir.v]
    (directories), [FsTree.v] (paths and reference counts) and [FsRest.v] (the
    file system between transactions) are its proofs, [FsDemo.v] a concrete
    disk.  [Pipe.v] is pipe.c, [File.v] the file and descriptor tables (file.c,
    sysfile.c), [SysFile.v] the file system calls, [FileIO.v] reading and
    writing through them.  [Mkfs.v], [MkfsThms.v] and [MkfsBuild.v] are mkfs.c.
    [Ide.v] is the IDE driver (ide.c).

    Memory.  [CString.v] is string.c, [Kalloc.v] kalloc.c, [Vm.v] vm.c, with
    the proofs [VmRep.v], [VmUser.v], [VmCopy.v], [VmOut.v], [VmSpace.v] and a
    concrete address space in [VmDemo.v].  [Seg.v] has the descriptor tables
    (mmu.h, the segment routines of vm.c, tvinit and idtinit).

    Processes.  [Spinlock.v] is spinlock.c and [LockRep.v] its locks at the
    granularity of calls.  [Proc.v] is the process table, scheduling, sleep and
    wakeup of proc.c; [ProcOps.v], [ProcEff.v], [ProcSafe.v], [ProcStep.v] and
    [ProcThms.v] are the proofs about all interleavings.  [ProcMem.v] has the
    whole functions fork, exit, wait, growproc and userinit over the state [os],
    which joins the process table, memory, CPUs and files; [Exec.v] is exec.c.
    [ProcSpace.v], [ProcFork.v], [ProcLife.v], [ProcSteps.v], [ProcIso.v],
    [ProcBoot.v], [Isolation.v], [ForkThms.v] and, for exec, [ExecMem.v],
    [ExecLoad.v], [ExecCommit.v], [ExecRun.v], [ExecInv.v], [ExecThm.v] are the
    proofs, [OsDemo.v] a concrete machine.  [Syscall.v] is argument fetching
    and dispatch (syscall.c), [Trap.v] trap.c and the clock calls of sysproc.c.

    Hardware.  [Ports.v], [Console.v] with [ConsoleOut.v] and [ConsoleDev.v]
    (console.c, uart.c), [Kbd.v] (kbd.c, kbd.h), [Mp.v] (mp.c), [Apic.v]
    (lapic.c, ioapic.c, picirq.c).

    User programs.  [Ulib.v] (ulib.c, printf.c), [Umalloc.v] (umalloc.c),
    [Grep.v] (grep.c), [Sh.v], [ShParse.v] and [ShRun.v] (sh.c).

    ** What is shown

    - Isolation ([Isolation.v]): from the first process on, whatever sequence of
      fork, exec, sbrk, wait, exit, scheduling and user stores runs on any
      number of CPUs, no byte is shared between processes, with the kernel or
      with free memory, and others cannot change what a process sees; at most
      one page is lost per failed fork.
    - fork, exec, growproc and userinit as user code sees them ([ForkThms.v],
      [ExecThm.v], [Isolation.v]).
    - Crash safety ([LogTxn.v]): end_op is atomic under crashes at every block
      write and during recovery; on the log mkfs makes, concurrent calls of
      fewer than MAXOPBLOCKS blocks never overflow it ([log_admission]).
    - The file system as byte sequences and trees ([FsRW.v], [FileIO.v],
      [FsTree.v]), and the image of mkfs ([MkfsBuild.v]).
    - Locks, scheduling and sleeping on every interleaving ([Spinlock.v],
      [Sleeplock.v], [ProcThms.v], [Pipe.v]): mutual exclusion, no panic, no
      lost wakeup, zombies are reaped, fairness; pipes are queues.
    - Kernel entry: every descriptor stays the one its slot is for, and user code
      gets in only through system calls ([Seg.v]); arguments stay inside the process
      ([Syscall.v]); killed processes do not return to user mode and every
      interrupt that is raised has a handler, but the APIC error ([Trap.v],
      [Apic.v]).
    - Devices as refinements of simple machines ([ConsoleDev.v], [Ide.v],
      [Kbd.v]), the processors and the date ([Mp.v], [Apic.v]).
    - User programs against specifications: the shell's parser, and what it runs
      for any input when its forks succeed; grep's matcher, malloc
      ([ShParse.v], [ShRun.v], [Grep.v], [Umalloc.v]).

    Theorems that show a defect say so in their comments: [log_overcommit],
    [dirlink_self_deadlock], [copyuvm_leak], [grep_short_read],
    [nunits_wraps], [pipe_killed_writer_strands_reader],
    [ideintr_ignores_errors], [ide_refines_fifo], [uartputc_loses],
    [mpinit_unknown_entry].

    ** Bounds and fuel

    Loops that do not follow the structure of their data take fuel.  Where the
    loop is finite the bound is given at the definition and the theorems show
    it is enough: the pages of an address space, the bytes of a buffer, the
    length of a command line, 8192 entries of a multiprocessor table, as many
    readings of the clock as an update cycle has room for.  Where a loop waits for a device or another CPU
    running out of fuel is [Blocked], and the laws of the device bound the
    wait.  The arguments of exec are at most 32 MB in [exec_correct] and in the
    traces of [Isolation.v]; beyond that the code misbehaves.

    ** What is not modelled

    The boot loader and main (bootmain.c, main.c), whose initialisation calls
    are definitions of their components; the assembly files, which switch
    processor modes and save registers; the wrappers of sysproc.c around
    routines of proc.c; procdump; the small user programs; usertests.c, which
    is a test suite; headers of declarations.  Caches and the order in which
    other CPUs see stores are not modelled: memory is sequentially consistent.
    Stack overflow in the kernel and the time code takes are not modelled. *)

From stdpp Require Export base list gmap strings numbers relations.
From Stdlib Require Export ZArith Lia.

#[global] Open Scope Z_scope.

(** * Record update

    [r <| f := v |>] is the record [r] with field [f] replaced, the form in
    which the C assignments [r->f = v] are written.  A record opts in by an
    instance of [Settable] that spells out its constructor and fields. *)

Class Settable (R : Type) := eta_record : R -> R.
Class Setter {R T : Type} (f : R -> T) := set_field : (T -> T) -> R -> R.

#[global] Typeclasses Opaque Settable Setter.

Ltac derive_setter :=
  match goal with
  | |- @Setter ?R ?T ?f =>
      let e := constr:(_ : Settable R) in
      let e := eval red in e in
      let p := eval pattern f in e in
      match p with
      | ?k _ => exact (fun (g : T -> T) (r : R) => k (fun x => g (f x)) r)
      end
  end.

#[export] Hint Extern 1 (Setter _) => derive_setter : typeclass_instances.

Declare Scope xv6_scope.
Delimit Scope xv6_scope with xv6.

Notation "r <| f := v |>" := (set_field (f := f) (fun _ => v) r)
  (at level 1, left associativity, format "r <| f  :=  v |>") : xv6_scope.
#[global] Open Scope xv6_scope.

(** * Machine integers

    A C value of a [w]-bit type is the integer it denotes; [uint] arithmetic
    reduces modulo [2^w] and signed types are read back in two's complement. *)

Definition u8 (x : Z) : Z := x mod 2 ^ 8.
Definition u16 (x : Z) : Z := x mod 2 ^ 16.
Definition u32 (x : Z) : Z := x mod 2 ^ 32.

Definition signed (w x : Z) : Z :=
  let y := x mod 2 ^ w in
  if y <? 2 ^ (w - 1) then y else y - 2 ^ w.

Definition s16 (x : Z) : Z := signed 16 x.
Definition s32 (x : Z) : Z := signed 32 x.

Lemma u32_small x : 0 <= x < 2 ^ 32 -> u32 x = x.
Proof. apply Z.mod_small. Qed.

Lemma u8_small x : 0 <= x < 256 -> u8 x = x.
Proof. intros. unfold u8. apply Z.mod_small. lia. Qed.

Lemma u32_range x : 0 <= u32 x < 2 ^ 32.
Proof. apply Z.mod_pos_bound. lia. Qed.

Lemma u32_idem x : u32 (u32 x) = u32 x.
Proof. apply u32_small, u32_range. Qed.

Lemma u32_add_l x y : u32 (u32 x + y) = u32 (x + y).
Proof. unfold u32. by rewrite Zplus_mod_idemp_l. Qed.

Lemma u32_add_r x y : u32 (x + u32 y) = u32 (x + y).
Proof. unfold u32. by rewrite Zplus_mod_idemp_r. Qed.

Lemma u32_sub_l x y : u32 (u32 x - y) = u32 (x - y).
Proof. unfold u32. by rewrite Zminus_mod_idemp_l. Qed.

Lemma u32_sub_r x y : u32 (x - u32 y) = u32 (x - y).
Proof. unfold u32. by rewrite Zminus_mod_idemp_r. Qed.

(** Counters whose distance is below 2^32 agree only when it is 0. *)
Lemma u32_inj_near a x y : 0 <= x < 2 ^ 32 -> 0 <= y < 2 ^ 32 -> u32 (a + x) = u32 (a + y) -> x = y.
Proof.
  intros Hx Hy E. unfold u32 in E.
  pose proof (Z.div_mod (a + x) (2 ^ 32) ltac:(lia)) as H1. pose proof (Z.div_mod (a + y) (2 ^ 32) ltac:(lia)) as H2.
  rewrite E in H1. nia.
Qed.

Lemma signed_small w x :
  1 <= w -> - 2 ^ (w - 1) <= x < 2 ^ (w - 1) -> signed w x = x.
Proof.
  intros Hw Hx. unfold signed.
  assert (Hp : 2 ^ w = 2 * 2 ^ (w - 1))
    by (rewrite <- Z.pow_succ_r by lia; f_equal; lia).
  assert (0 < 2 ^ (w - 1)) by (apply Z.pow_pos_nonneg; lia).
  destruct (Z.ltb_spec (x mod 2 ^ w) (2 ^ (w - 1))) as [Hlt|Hge].
  - destruct (Z_lt_le_dec x 0).
    + exfalso. rewrite <- (Z.mod_add x 1 (2 ^ w)) in Hlt by lia.
      rewrite Z.mod_small in Hlt by lia. lia.
    + apply Z.mod_small; lia.
  - destruct (Z_lt_le_dec x 0).
    + rewrite <- (Z.mod_add x 1 (2 ^ w)) by lia.
      rewrite Z.mod_small by lia. lia.
    + rewrite Z.mod_small in Hge by lia. lia.
Qed.

Create HintDb xv6_int discriminated.
Create Rewrite HintDb xv6_int.
#[export] Hint Rewrite u32_idem u32_add_l u32_add_r u32_sub_l u32_sub_r : xv6_int.
#[export] Hint Resolve u32_range : xv6_int.

(** * The kernel monad

    A kernel routine maps a state to an [outcome]: it returns, it calls
    [panic] (which never returns), or it goes to sleep and is not resumed by
    the thread's own actions ([Blocked]). *)

Inductive outcome (S A : Type) : Type :=
| Ok (a : A) (s : S)
| Panic (msg : string)
| Blocked (s : S).
Arguments Ok {S A} _ _.
Arguments Panic {S A} _.
Arguments Blocked {S A} _.

Definition M (S A : Type) : Type := S -> outcome S A.

#[export] Instance M_ret (S : Type) : MRet (M S) := fun A a s => Ok a s.
#[export] Instance M_bind (S : Type) : MBind (M S) := fun A B k m s =>
  match m s with
  | Ok a s' => k a s'
  | Panic e => Panic e
  | Blocked s' => Blocked s'
  end.

Definition panic {S A : Type} (msg : string) : M S A := fun _ => Panic msg.
Definition gets {S A : Type} (f : S -> A) : M S A := fun s => Ok (f s) s.
Definition modify {S : Type} (f : S -> S) : M S () := fun s => Ok () (f s).
Definition block {S A : Type} : M S A := fun s => Blocked s.
Definition when {S : Type} (b : bool) (m : M S ()) : M S () := if b then m else mret ().

(** Run a routine of an embedded component. *)
Definition zoom {S T A : Type} (get : S -> T) (put : T -> S -> S) (m : M T A) : M S A :=
  fun s =>
    match m (get s) with
    | Ok a t => Ok a (put t s)
    | Panic e => Panic e
    | Blocked t => Blocked (put t s)
    end.

Lemma bind_ok {S A B : Type} (m : M S A) (k : A -> M S B) s a s' :
  m s = Ok a s' -> (m ≫= k) s = k a s'.
Proof. intros H. unfold mbind, M_bind. by rewrite H. Qed.

Lemma bind_panic {S A B : Type} (m : M S A) (k : A -> M S B) s e :
  m s = Panic e -> (m ≫= k) s = Panic e.
Proof. intros H. unfold mbind, M_bind. by rewrite H. Qed.

Lemma zoom_ok {S T A : Type} (get : S -> T) put (m : M T A) s a t :
  m (get s) = Ok a t -> zoom get put m s = Ok a (put t s).
Proof. intros H. unfold zoom. by rewrite H. Qed.

(** Total correctness: [wp m s Q] says that [m], started in [s], returns,
    and that its result and final state satisfy [Q]. *)
Definition wp {S A : Type} (m : M S A) (s : S) (Q : A -> S -> Prop) : Prop :=
  match m s with
  | Ok a s' => Q a s'
  | Panic _ => False
  | Blocked _ => False
  end.

Section wp_rules.
Context {S T A B : Type}.

Lemma wp_run (m : M S A) s Q :
    wp m s Q <-> exists a s', m s = Ok a s' /\ Q a s'.
Proof. unfold wp. destruct (m s); naive_solver. Qed.

Lemma wp_elim (m : M S A) s Q :
  wp m s Q -> exists a s', m s = Ok a s' /\ Q a s'.
Proof. apply wp_run. Qed.

(** Any property of the outcome, after steps that return. *)
Lemma run_after (m : M S A) (k : A -> M S B) s (P : outcome S B -> Prop) :
  wp m s (fun a s' => P (k a s')) -> P ((m ≫= k) s).
Proof. unfold wp, mbind, M_bind. by destruct (m s). Qed.

Lemma panic_after (m : M S A) (k : A -> M S B) s e :
  wp m s (fun a s' => k a s' = Panic e) -> (m ≫= k) s = Panic e.
Proof. apply (run_after m k s (fun o => o = Panic e)). Qed.

Lemma wp_intro (m : M S A) s a s' (Q : A -> S -> Prop) : m s = Ok a s' -> Q a s' -> wp m s Q.
Proof. intros H HQ. unfold wp. by rewrite H. Qed.

Lemma wp_ret (a : A) s (Q : A -> S -> Prop) : Q a s -> wp (mret a) s Q.
Proof. done. Qed.

Lemma wp_bind (m : M S A) (k : A -> M S B) s Q :
    wp m s (fun a s' => wp (k a) s' Q) -> wp (m ≫= k) s Q.
Proof. unfold wp, mbind, M_bind. destruct (m s); done. Qed.

Lemma wp_bind_inv (m : M S A) (k : A -> M S B) s Q :
  wp (m ≫= k) s Q -> wp m s (fun a s' => wp (k a) s' Q).
Proof. unfold wp, mbind, M_bind. destruct (m s); done. Qed.

Lemma wp_gets (f : S -> A) s (Q : A -> S -> Prop) : Q (f s) s -> wp (gets f) s Q.
Proof. done. Qed.

Lemma wp_modify (f : S -> S) s (Q : () -> S -> Prop) : Q () (f s) -> wp (modify f) s Q.
Proof. done. Qed.

Lemma wp_conseq (m : M S A) s (Q Q' : A -> S -> Prop) :
    wp m s Q -> (forall a s', Q a s' -> Q' a s') -> wp m s Q'.
Proof. unfold wp. destruct (m s); naive_solver. Qed.

Lemma wp_zoom (get : S -> T) put (m : M T A) s (Q : A -> S -> Prop) :
    wp m (get s) (fun a t => Q a (put t s)) -> wp (zoom get put m) s Q.
Proof. unfold wp, zoom. destruct (m (get s)); done. Qed.
End wp_rules.

(** One symbolic step through a routine. *)
Ltac wp_step :=
  match goal with
  | |- wp (mbind _ _) _ _ => apply wp_bind
  | |- wp (mret _) _ _ => apply wp_ret
  | |- wp (gets _) _ _ => apply wp_gets
  | |- wp (modify _) _ _ => apply wp_modify
  | |- wp (zoom _ _ _) _ _ => apply wp_zoom
  end; cbv beta.
Ltac wp_steps := repeat wp_step.

(** Evaluate the comparisons of the goal that the context decides. *)
Ltac decide_cmp :=
  repeat match goal with
  | |- context [?a <=? ?b] => first [rewrite (proj2 (Z.leb_le a b)) by lia | rewrite (proj2 (Z.leb_gt a b)) by lia]
  | |- context [?a <? ?b] => first [rewrite (proj2 (Z.ltb_lt a b)) by lia | rewrite (proj2 (Z.ltb_ge a b)) by lia]
  | |- context [?a =? ?b] => first [rewrite (proj2 (Z.eqb_eq a b)) by lia | rewrite (proj2 (Z.eqb_neq a b)) by lia]
  end.

(** * Functions as total maps *)

Definition upd {V : Type} (f : Z -> V) (k : Z) (v : V) : Z -> V :=
  fun k' => if k' =? k then v else f k'.

Lemma upd_eq {V} (f : Z -> V) k v : upd f k v k = v.
Proof. unfold upd. by rewrite Z.eqb_refl. Qed.

Lemma upd_ne {V} (f : Z -> V) k v k' : k' <> k -> upd f k v k' = f k'.
Proof. intros H. unfold upd. by rewrite (proj2 (Z.eqb_neq _ _) H). Qed.

(** * Table scans

    [find_idx f l] is the index the C loop
    [for(p = tab; p < &tab[N]; p++) if(f(p)) ...] stops at. *)

Fixpoint find_idx {A : Type} (f : A -> bool) (l : list A) : option nat :=
  match l with
  | [] => None
  | x :: l' => if f x then Some O else S <$> find_idx f l'
  end.

Lemma find_idx_Some {A} (f : A -> bool) l i :
  find_idx f l = Some i <->
  (exists x, l !! i = Some x /\ f x = true) /\
  (forall j y, (j < i)%nat -> l !! j = Some y -> f y = false).
Proof.
  revert i. induction l as [|x l IH]; intros i; simpl.
  { split; [done|]. intros [(? & ? & ?) _]. done. }
  destruct (f x) eqn:Hx.
  - split.
    + intros [= <-]. split; [by exists x|]. intros; lia.
    + intros [Hi Hj]. destruct i as [|i]; [done|].
      specialize (Hj O x ltac:(lia) eq_refl). congruence.
  - rewrite fmap_Some. split.
    + intros (k & [Hk Hlt]%IH & ->). split; [done|].
      intros [|j] y Hj; simpl; [by intros [= <-]|]. apply Hlt. lia.
    + intros [(y & Hy & Hfy) Hj]. destruct i as [|i]; simpl in *; [congruence|].
      exists i. split; [|done]. apply IH. split; [by exists y|].
      intros j z Hji Hz. apply (Hj (S j)); [lia|done].
Qed.

Lemma find_idx_None {A} (f : A -> bool) l :
  find_idx f l = None <-> (forall i x, l !! i = Some x -> f x = false).
Proof.
  induction l as [|x l IH]; simpl; [by split|].
  destruct (f x) eqn:Hx.
  - split; [done|]. intros H. specialize (H O x eq_refl). congruence.
  - rewrite fmap_None, IH. split.
    + intros H [|i] y; simpl; [by intros [= <-]|apply H].
    + intros H i y Hy. by apply (H (S i)).
Qed.

Lemma find_idx_lt {A} (f : A -> bool) l i :
  find_idx f l = Some i -> (i < length l)%nat.
Proof. intros [(x & Hx & _) _]%find_idx_Some. by apply lookup_lt_Some in Hx. Qed.

(** * Splicing bytes into a buffer

    [splice l off xs] is the array [l] after [memmove(l + off, xs, |xs|)]. *)

Definition splice {A : Type} (l : list A) (off : nat) (xs : list A) : list A :=
  take off l ++ xs ++ drop (off + length xs) l.

Section splice.
Context {A : Type}.
Implicit Types l xs : list A.

Lemma splice_length l off xs :
    (off + length xs <= length l)%nat -> length (splice l off xs) = length l.
Proof. intros. unfold splice. rewrite !length_app, length_take, length_drop. lia. Qed.

Lemma splice_lookup_in l off xs i :
    (off + length xs <= length l)%nat -> (off <= i < off + length xs)%nat ->
    splice l off xs !! i = xs !! (i - off)%nat.
Proof.
    intros Hl Hi. unfold splice.
    rewrite lookup_app_r; rewrite length_take; [|lia].
    rewrite lookup_app_l; [|lia]. f_equal. lia.
Qed.

Lemma splice_lookup_out l off xs i :
    (off + length xs <= length l)%nat -> ~ (off <= i < off + length xs)%nat ->
    splice l off xs !! i = l !! i.
Proof.
    intros Hl Hi. unfold splice. destruct (decide (i < off)%nat).
    - rewrite lookup_app_l by (rewrite length_take; lia). by rewrite lookup_take_lt.
    - rewrite lookup_app_r; rewrite length_take; [|lia].
      rewrite lookup_app_r; [|lia]. rewrite lookup_drop. f_equal. lia.
Qed.

Lemma splice_read l off xs :
    (off + length xs <= length l)%nat -> take (length xs) (drop off (splice l off xs)) = xs.
Proof.
    intros Hl. unfold splice.
    rewrite drop_app_ge by (rewrite length_take; lia).
    rewrite length_take, Nat.min_l, Nat.sub_diag, drop_0 by lia.
    by rewrite take_app_length.
Qed.

Lemma splice_read_other l off xs off' n :
    (off + length xs <= length l)%nat ->
    (off' + n <= off \/ off + length xs <= off')%nat ->
    take n (drop off' (splice l off xs)) = take n (drop off' l).
Proof.
    intros Hl Hd. apply list_eq. intros i. destruct (decide (i < n)%nat).
    - rewrite !lookup_take_lt, !lookup_drop by lia.
      apply splice_lookup_out; lia.
    - rewrite !lookup_take_ge by lia. done.
Qed.

(** One write after another at the place where it stopped. *)
Lemma splice_app l off xs ys :
    (off <= length l)%nat -> splice (splice l off xs) (off + length xs) ys = splice l off (xs ++ ys).
Proof.
    intros Hl. unfold splice. rewrite (assoc_L (++) (take off l) xs).
    rewrite take_app_length' by (rewrite length_app, length_take; lia).
    rewrite drop_app_ge by (rewrite length_app, length_take; lia).
    rewrite drop_drop, !length_app, length_take, Nat.min_l by lia.
    rewrite <- !(assoc_L (++)). do 4 f_equal. lia.
Qed.

Lemma splice_nil l off : splice l off [] = l.
Proof. unfold splice. simpl. rewrite Nat.add_0_r. apply take_drop. Qed.
End splice.

(** * Step relations *)

Lemma rtc_invariant {A : Type} (R : relation A) (I : A -> Prop) x y :
  I x -> (forall a b, I a -> R a b -> I b) -> rtc R x y -> I y.
Proof. intros Hx Hs H. induction H; eauto. Qed.

(** * Counted loops *)

Fixpoint forM {S A : Type} (l : list A) (f : A -> M S ()) : M S () :=
  match l with
  | [] => mret ()
  | x :: l' => f x;; forM l' f
  end.

(** A loop invariant indexed by the iterations already done. *)
Lemma wp_forM {S A : Type} (I : list A -> S -> Prop) (l : list A) (f : A -> M S ()) s Q :
  I [] s ->
  (forall pre x post s, l = pre ++ x :: post -> I pre s -> wp (f x) s (fun _ s' => I (pre ++ [x]) s')) ->
  (forall s', I l s' -> Q () s') ->
  wp (forM l f) s Q.
Proof.
  intros H0 Hstep HQ.
  assert (Hgen : forall post pre s, l = pre ++ post -> I pre s -> wp (forM post f) s Q).
  { induction post as [|x post IH]; intros pre s' Hl HI; simpl.
    - apply wp_ret, HQ. by rewrite Hl, app_nil_r.
    - apply wp_bind. eapply wp_conseq; [by eapply Hstep|]. intros [] s'' HI'.
      eapply IH; [|exact HI']. by rewrite <- app_assoc. }
  by eapply (Hgen l []).
Qed.
