(* ===== verification/CString.v ===== *)
(** The kernel's memory and string routines ([string.c]).

    Memory is the flat 32-bit address space, a total map from addresses to
    byte values; a [const char *] that is only read is the view of memory from
    that pointer on (offset to byte).  Pointer arithmetic wraps at 32 bits. *)

From S2P Require Import Prelude.

Definition mem : Type := Z -> Z.
Definition view : Type := Z -> Z.

Definition load (m : mem) (a : Z) : Z := m (u32 a).
Definition store (m : mem) (a v : Z) : mem := upd m (u32 a) (u8 v).
Definition view_at (m : mem) (a : Z) : view := fun i => load m (a + i).
Definition advance (p : view) (k : Z) : view := fun i => p (k + i).

(** The view of an array held as a list; the bytes after it read as 0. *)
Definition view_of (l : list Z) : view := fun i => nth (Z.to_nat i) l 0.

(** [rep stosb] and [rep stosl] of x86.h: [cnt] bytes or little-endian words. *)
Fixpoint stosb (m : mem) (addr data : Z) (cnt : nat) : mem :=
  match cnt with
  | O => m
  | S k => stosb (store m addr data) (addr + 1) data k
  end.

Definition store32 (m : mem) (addr data : Z) : mem :=
  store (store (store (store m addr data)
    (addr + 1) (Z.shiftr data 8)) (addr + 2) (Z.shiftr data 16)) (addr + 3) (Z.shiftr data 24).

(** A little-endian word of memory. *)
Definition load32 (m : mem) (a : Z) : Z :=
  load m a + 2 ^ 8 * load m (a + 1) + 2 ^ 16 * load m (a + 2) + 2 ^ 24 * load m (a + 3).

Fixpoint stosl (m : mem) (addr data : Z) (cnt : nat) : mem :=
  match cnt with
  | O => m
  | S k => stosl (store32 m addr data) (addr + 4) data k
  end.

Definition memset (m : mem) (dst c n : Z) : mem :=
  if (Z.rem (s32 dst) 4 =? 0) && (n mod 4 =? 0) then
    let c := Z.land c 255 in
    stosl m dst
      (u32 (Z.lor (Z.lor (Z.lor (Z.shiftl c 24) (Z.shiftl c 16)) (Z.shiftl c 8)) c))
      (Z.to_nat (n / 4))
  else stosb m dst c (Z.to_nat n).

Fixpoint memcmp (s1 s2 : view) (n : nat) : Z :=
  match n with
  | O => 0
  | S k =>
      if negb (s1 0 =? s2 0) then s1 0 - s2 0
      else memcmp (advance s1 1) (advance s2 1) k
  end.

(** The descending copy loop: pre-decrement both pointers, copy a byte. *)
Fixpoint copy_down (m : mem) (d s : Z) (n : nat) : mem :=
  match n with
  | O => m
  | S k =>
      let d := u32 (d - 1) in
      let s := u32 (s - 1) in
      copy_down (store m d (load m s)) d s k
  end.

(** The ascending copy loop. *)
Fixpoint copy_up (m : mem) (d s : Z) (n : nat) : mem :=
  match n with
  | O => m
  | S k => copy_up (store m d (load m s)) (u32 (d + 1)) (u32 (s + 1)) k
  end.

Definition memmove (m : mem) (dst src n : Z) : mem :=
  if (src <? dst) && (u32 (src + n) >? dst)
  then copy_down m (u32 (dst + n)) (u32 (src + n)) (Z.to_nat n)
  else copy_up m dst src (Z.to_nat n).

(** [memcpy] is [memmove]. *)
Definition memcpy (m : mem) (dst src n : Z) : mem := memmove m dst src n.

Fixpoint strncmp (p q : view) (n : nat) : Z :=
  match n with
  | O => 0
  | S k =>
      if negb (p 0 =? 0) && (p 0 =? q 0)
      then strncmp (advance p 1) (advance q 1) k
      else u8 (p 0) - u8 (q 0)
  end.

(** The first loop of [strncpy]: copy until the count is used up or a NUL has
    been copied; returns the advanced destination and the count that is left. *)
Fixpoint strncpy_copy (m : mem) (s t : Z) (n : nat) : mem * Z * nat :=
  match n with
  | O => (m, s, O)
  | S k =>
      let c := load m t in
      let m := store m s c in
      if c =? 0 then (m, s + 1, k) else strncpy_copy m (s + 1) (t + 1) k
  end.

(** The second loop of [strncpy]: zero the rest of the field. *)
Fixpoint zero_fill (m : mem) (s : Z) (n : nat) : mem :=
  match n with
  | O => m
  | S k => zero_fill (store m s 0) (s + 1) k
  end.

Definition strncpy (m : mem) (s t n : Z) : mem :=
  let '(m, s, k) := strncpy_copy m s t (Z.to_nat n) in zero_fill m s k.

(** The loop of [safestrcpy] and the final NUL store; [n] is the count before
    the pre-decrement of the loop test. *)
Fixpoint safestrcpy_loop (m : mem) (s t : Z) (n : nat) : mem :=
  match n with
  | O => m
  | S O => store m s 0
  | S k =>
      let c := load m t in
      let m := store m s c in
      if c =? 0 then store m (s + 1) 0 else safestrcpy_loop m (s + 1) (t + 1) k
  end.

Definition safestrcpy (m : mem) (s t n : Z) : mem :=
  if n <=? 0 then m else safestrcpy_loop m s t (Z.to_nat n).

(** [for(n = 0; s[n]; n++);], at most [fuel] bytes. *)
Fixpoint strlen_from (s : view) (n : Z) (fuel : nat) : option Z :=
  match fuel with
  | O => None
  | S f => if s n =? 0 then Some n else strlen_from s (n + 1) f
  end.

Definition strlen (s : view) (fuel : nat) : option Z := strlen_from s 0 fuel.

(** ** Reference notions *)

(** The C string at [p], cut at [n] bytes: the bytes before the first NUL. *)
Fixpoint cstr (p : view) (n : nat) : list Z :=
  match n with
  | O => []
  | S k => if p 0 =? 0 then [] else p 0 :: cstr (advance p 1) k
  end.

(** A fixed-size name field of [n] bytes holding the C string [l]. *)
Definition cpad (n : nat) (l : list Z) : list Z := l ++ replicate (n - length l) 0.

Definition bytes_ok (p : view) : Prop := forall i, 0 <= p i < 256.

(** ** Lemmas on loads and stores *)

Lemma store_eq m a v : load (store m a v) a = u8 v.
Proof. unfold load, store. apply upd_eq. Qed.

Lemma store_ne m a v b : u32 a <> u32 b -> load (store m a v) b = load m b.
Proof. intros H. unfold load, store. apply upd_ne. congruence. Qed.

Lemma store_at m a v b :
  0 <= a < 2 ^ 32 -> store m a v b = if b =? a then u8 v else m b.
Proof. intros H. unfold store, upd. by rewrite u32_small. Qed.

(** Split a comparison of addresses in the goal. *)
Ltac addr_cases :=
  repeat match goal with
  | |- context [Z.eqb ?a ?b] => destruct (Z.eqb_spec a b); subst; cbn [andb]
  | |- context [Z.leb ?a ?b] => destruct (Z.leb_spec a b); cbn [andb]
  | |- context [Z.ltb ?a ?b] => destruct (Z.ltb_spec a b); cbn [andb]
  end; try lia; try done.

Definition in_range (a base n : Z) : bool := (base <=? a) && (a <? base + n).

Lemma stosb_spec m addr data cnt a :
  0 <= addr -> addr + Z.of_nat cnt <= 2 ^ 32 ->
  stosb m addr data cnt a = if in_range a addr (Z.of_nat cnt) then u8 data else m a.
Proof.
  unfold in_range. revert m addr. induction cnt as [|k IH]; intros m addr H0 H1; simpl stosb.
  - addr_cases.
  - rewrite IH, store_at by lia. addr_cases.
Qed.

Lemma store32_at m addr data a :
  0 <= addr -> addr + 4 <= 2 ^ 32 ->
  store32 m addr data a =
    if in_range a addr 4 then u8 (Z.shiftr data (8 * (a - addr))) else m a.
Proof.
  intros H0 H1. unfold store32, in_range. rewrite !store_at by lia.
  addr_cases; f_equal;
    try (replace (8 * _) with 24 by lia; done);
    try (replace (8 * _) with 16 by lia; done);
    try (replace (8 * _) with 8 by lia; done).
  rewrite Z.sub_diag. done.
Qed.

Lemma stosl_spec m addr data cnt a c :
  (forall i, 0 <= i < 4 -> u8 (Z.shiftr data (8 * i)) = c) ->
  0 <= addr -> addr + 4 * Z.of_nat cnt <= 2 ^ 32 ->
  stosl m addr data cnt a = if in_range a addr (4 * Z.of_nat cnt) then c else m a.
Proof.
  intros Hc. unfold in_range. revert m addr.
  induction cnt as [|k IH]; intros m addr H0 H1; simpl stosl.
  - addr_cases.
  - rewrite IH, store32_at by lia. unfold in_range.
    addr_cases. apply Hc. lia.
Qed.

(** The word [memset] stores repeats the fill byte four times. *)
Lemma memset_word c i :
  0 <= i < 4 ->
  let c := Z.land c 255 in
  u8 (Z.shiftr
        (u32 (Z.lor (Z.lor (Z.lor (Z.shiftl c 24) (Z.shiftl c 16)) (Z.shiftl c 8)) c))
        (8 * i)) = c.
Proof.
  intros Hi. cbv zeta. replace 255 with (Z.ones 8) by done. rewrite Z.land_ones by lia.
  assert (0 <= c mod 2 ^ 8 < 2 ^ 8) as Hc by (apply Z.mod_pos_bound; lia).
  set (b := c mod 2 ^ 8) in *. unfold u8, u32.
  assert (Hhi : forall n, 8 <= n -> Z.testbit b n = false).
  { intros n Hn. rewrite <- (Z.mod_small b (2 ^ 8)) by done. apply Z.mod_pow2_bits_high. lia. }
  apply Z.bits_inj'. intros n Hn.
  rewrite Z.testbit_mod_pow2 by lia. destruct (Z.ltb_spec n 8); simpl; [|by rewrite Hhi].
  rewrite Z.shiftr_spec, Z.testbit_mod_pow2, !Z.lor_spec, !Z.shiftl_spec by lia.
  destruct (Z.ltb_spec (n + 8 * i) 32); [|lia]. simpl.
  assert (i = 0 \/ i = 1 \/ i = 2 \/ i = 3) as [-> | [-> | [-> | ->]]] by lia;
  repeat match goal with
  | |- context [Z.testbit b ?k] =>
      tryif (let _ := constr:(eq_refl : k = n) in idtac) then fail else
      first [ rewrite (Z.testbit_neg_r b k) by lia
            | rewrite (Hhi k) by lia
            | progress (replace k with n by lia) ]
  end; by rewrite ?orb_false_r, ?orb_false_l.
Qed.

Lemma copy_up_spec m d s n a :
  0 <= d -> 0 <= s -> d + Z.of_nat n < 2 ^ 32 -> s + Z.of_nat n < 2 ^ 32 ->
  (forall i, 0 <= m i < 256) ->
  d <= s \/ s + Z.of_nat n <= d ->
  copy_up m d s n a =
    if in_range a d (Z.of_nat n) then m (s + (a - d)) else m a.
Proof.
  unfold in_range. revert m d s. induction n as [|k IH]; intros m d s H0 H1 H2 H3 Hb Ho; simpl copy_up.
  - addr_cases.
  - rewrite !(u32_small (_ + 1)) by lia. rewrite IH; try lia.
    + unfold load. rewrite (u32_small s), !store_at, (u8_small (m s)) by (auto; lia).
      addr_cases; try (f_equal; lia).
    + intros i. rewrite store_at by lia. addr_cases. apply Z.mod_pos_bound. lia.
Qed.

Lemma copy_down_spec m d s n a :
  0 <= d - Z.of_nat n -> 0 <= s - Z.of_nat n -> d < 2 ^ 32 -> s < 2 ^ 32 ->
  (forall i, 0 <= m i < 256) ->
  s <= d ->
  copy_down m d s n a =
    if in_range a (d - Z.of_nat n) (Z.of_nat n) then m (s + (a - d)) else m a.
Proof.
  unfold in_range. revert m d s. induction n as [|k IH]; intros m d s H0 H1 H2 H3 Hb Ho; simpl copy_down.
  - addr_cases.
  - rewrite !(u32_small (_ - 1)) by lia. rewrite IH; try lia.
    + unfold load. rewrite (u32_small (s - 1)), !store_at, (u8_small (m (s - 1))) by (auto; lia).
      addr_cases; try (f_equal; lia).
    + intros i. rewrite store_at by lia. addr_cases. apply Z.mod_pos_bound. lia.
Qed.

Lemma memmove_spec m dst src n a :
  (forall i, 0 <= m i < 256) ->
  0 <= dst -> 0 <= src -> 0 <= n -> dst + n < 2 ^ 32 -> src + n < 2 ^ 32 ->
  memmove m dst src n a =
    if in_range a dst n then m (src + (a - dst)) else m a.
Proof.
  intros Hb Hd Hs Hn Hdn Hsn. unfold memmove. rewrite !(u32_small (_ + n)) by lia.
  destruct (Z.ltb_spec src dst); destruct (Z.gtb_spec (src + n) dst); simpl.
  - rewrite copy_down_spec by (auto; lia). unfold in_range. rewrite Z2Nat.id by lia.
    replace (dst + n - n) with dst by lia.
    addr_cases. f_equal; lia.
  - rewrite copy_up_spec by (auto; lia). unfold in_range. by rewrite Z2Nat.id by lia.
  - rewrite copy_up_spec by (auto; lia). unfold in_range. by rewrite Z2Nat.id by lia.
  - rewrite copy_up_spec by (auto; lia). unfold in_range. by rewrite Z2Nat.id by lia.
Qed.

(** [memmove] copies [n] bytes as if through a temporary buffer, whatever
    the overlap of source and destination, and changes no other byte. *)
Theorem memmove_correct m dst src n a :
  (forall i, 0 <= m i < 256) ->
  0 <= dst -> 0 <= src -> 0 <= n -> dst + n < 2 ^ 32 -> src + n < 2 ^ 32 ->
  memmove m dst src n a =
    if in_range a dst n then m (src + (a - dst)) else m a.
Proof. apply memmove_spec. Qed.

Definition demo_mem : mem := fun a => Z.land a 255.

(** The overlapping move of [usertests]-like in-place shifts, both ways. *)
Lemma memmove_correct_witness :
  memmove demo_mem 4 2 6 5 = 3 /\ memmove demo_mem 2 4 6 5 = 7.
Proof.
  assert (Hb : forall i, 0 <= demo_mem i < 256).
  { intros i. unfold demo_mem. replace 255 with (Z.ones 8) by done.
    rewrite Z.land_ones by lia. apply Z.mod_pos_bound. lia. }
  split.
  - rewrite (memmove_correct demo_mem 4 2 6 5 Hb); [reflexivity|lia..].
  - rewrite (memmove_correct demo_mem 2 4 6 5 Hb); [reflexivity|lia..].
Defined.

Lemma memset_spec m dst c n a :
  0 <= dst -> 0 <= n -> dst + n <= 2 ^ 32 ->
  memset m dst c n a = if in_range a dst n then u8 c else m a.
Proof.
  intros Hd Hn Hdn. unfold memset.
  destruct ((Z.rem (s32 dst) 4 =? 0) && (n mod 4 =? 0)) eqn:E.
  - apply andb_true_iff in E as [_ E]. apply Z.eqb_eq in E.
    pose proof (Z.div_mod n 4 ltac:(lia)).
    rewrite (stosl_spec _ _ _ _ _ (u8 c)).
    + rewrite Z2Nat.id by (apply Z.div_pos; lia). unfold in_range.
      replace (4 * (n / 4)) with n by lia. done.
    + intros i Hi. rewrite memset_word by lia.
      replace 255 with (Z.ones 8) by done. by rewrite Z.land_ones by lia.
    + lia.
    + rewrite Z2Nat.id by (apply Z.div_pos; lia). lia.
  - rewrite stosb_spec by lia. by rewrite Z2Nat.id by lia.
Qed.

Lemma memcmp_zero s1 s2 n :
  memcmp s1 s2 n = 0 <-> forall i, 0 <= i < Z.of_nat n -> s1 i = s2 i.
Proof.
  revert s1 s2. induction n as [|k IH]; intros s1 s2; simpl memcmp; [split; [lia|done]|].
  destruct (Z.eqb_spec (s1 0) (s2 0)) as [E|E]; simpl.
  - rewrite IH. unfold advance. split; intros H i Hi.
    + destruct (decide (i = 0)) as [->|]; [done|].
      specialize (H (i - 1) ltac:(lia)). by replace (1 + (i - 1)) with i in H by lia.
    + apply H. lia.
  - split; [lia|]. intros H. specialize (H 0 ltac:(lia)). done.
Qed.

Lemma advance_bytes p k : bytes_ok p -> bytes_ok (advance p k).
Proof. intros H i. apply H. Qed.

Lemma strncmp_zero p q n :
  bytes_ok p -> bytes_ok q ->
  strncmp p q n = 0 <-> cstr p n = cstr q n.
Proof.
  revert p q. induction n as [|k IH]; intros p q Hp Hq; simpl; [done|].
  pose proof (Hp 0). pose proof (Hq 0).
  destruct (Z.eqb_spec (p 0) 0) as [Ep|Ep]; simpl.
  - rewrite !u8_small by done. destruct (Z.eqb_spec (q 0) 0); split; try lia; try done; intros; lia.
  - destruct (Z.eqb_spec (p 0) (q 0)) as [E|E].
    + rewrite IH by (by apply advance_bytes). rewrite <- E.
      destruct (Z.eqb_spec (p 0) 0); [done|]. split; congruence.
    + rewrite !u8_small by done. destruct (Z.eqb_spec (q 0) 0); split; intros; try lia; congruence.
Qed.

Lemma cstr_length p n : (length (cstr p n) <= n)%nat.
Proof.
  revert p. induction n as [|k IH]; intros p; simpl; [lia|].
  destruct (p 0 =? 0); simpl; [lia|]. specialize (IH (advance p 1)). lia.
Qed.

Lemma cstr_ext p q n :
  (forall i, 0 <= i < Z.of_nat n -> p i = q i) -> cstr p n = cstr q n.
Proof.
  revert p q. induction n as [|k IH]; intros p q H; simpl; [done|].
  rewrite (H 0) by lia. destruct (q 0 =? 0); [done|]. f_equal.
  apply IH. intros i Hi. apply H. lia.
Qed.

Lemma zero_fill_spec m s n a :
  0 <= s -> s + Z.of_nat n <= 2 ^ 32 ->
  zero_fill m s n a = if in_range a s (Z.of_nat n) then 0 else m a.
Proof.
  unfold in_range. revert m s. induction n as [|k IH]; intros m s H0 H1; simpl zero_fill.
  - addr_cases.
  - rewrite IH, store_at by lia. addr_cases.
Qed.

(** Two buffers of [n] bytes at [s] and [t] do not overlap and do not wrap. *)
Definition disjoint_bufs (s t n : Z) : Prop :=
  0 <= s /\ 0 <= t /\ s + n < 2 ^ 32 /\ t + n < 2 ^ 32 /\ (s + n <= t \/ t + n <= s).

Definition mem_bytes (m : mem) : Prop := forall i, 0 <= m i < 256.

Lemma store_mem_bytes m a v : mem_bytes m -> mem_bytes (store m a v).
Proof.
  intros H i. unfold store, upd. destruct (i =? u32 a); [apply Z.mod_pos_bound; lia|apply H].
Qed.

Lemma cstr_store_other m t s v n :
  0 <= s -> 0 <= t -> s < 2 ^ 32 -> t + Z.of_nat n < 2 ^ 32 ->
  s < t \/ t + Z.of_nat n <= s ->
  cstr (view_at (store m s v) t) n = cstr (view_at m t) n.
Proof.
  intros H0 H1 H2 H3 Ho. apply cstr_ext. intros i Hi. unfold view_at, load.
  rewrite store_at by lia. rewrite (u32_small (t + i)) by lia.
  destruct (Z.eqb_spec (t + i) s); [lia|done].
Qed.

Lemma nth_cpad_cons n c l i :
  0 < i -> nth (Z.to_nat i) (cpad (S n) (c :: l)) 0 = nth (Z.to_nat (i - 1)) (cpad n l) 0.
Proof.
  intros Hi. unfold cpad. simpl.
  replace (Z.to_nat i) with (S (Z.to_nat (i - 1))) by lia. done.
Qed.

Lemma nth_cpad_nil n i : nth i (cpad n []) 0 = 0.
Proof. unfold cpad. simpl. rewrite Nat.sub_0_r. revert i. by induction n; intros [|i]; simpl. Qed.

Lemma view_at_next m t : 0 <= t -> forall i, view_at m (t + 1) i = advance (view_at m t) 1 i.
Proof. intros. unfold view_at, advance. f_equal. lia. Qed.

Lemma strncpy_spec_nat n m s t a :
  mem_bytes m -> disjoint_bufs s t (Z.of_nat n) ->
  (let '(m', s', k) := strncpy_copy m s t n in zero_fill m' s' k) a =
    if in_range a s (Z.of_nat n)
    then nth (Z.to_nat (a - s)) (cpad n (cstr (view_at m t) n)) 0 else m a.
Proof.
  revert m s t. induction n as [|k IH]; intros m s t Hb (H0 & H1 & H2 & H3 & Ho); cbn [strncpy_copy].
  { simpl. unfold in_range. addr_cases. }
  unfold load. rewrite (u32_small t) by lia. simpl cstr.
  assert (Ev : view_at m t 0 = m t).
  { unfold view_at, load. rewrite Z.add_0_r, u32_small by lia. done. }
  rewrite Ev. destruct (Z.eqb_spec (m t) 0) as [Ez|Ez].
  - rewrite zero_fill_spec, store_at by lia. rewrite nth_cpad_nil. unfold in_range.
    addr_cases. by rewrite Ez.
  - rewrite IH.
    + rewrite cstr_store_other by lia.
      rewrite (cstr_ext _ (advance (view_at m t) 1)) by (intros; apply view_at_next; lia).
      rewrite store_at by lia. unfold in_range.
      addr_cases.
      * rewrite Z.sub_diag. simpl. apply u8_small, Hb.
      * rewrite nth_cpad_cons by lia. f_equal. f_equal. lia.
    + by apply store_mem_bytes.
    + unfold disjoint_bufs. lia.
Qed.

(** [strncpy(s, t, n)] fills exactly the [n] bytes at [s] with the C string
    at [t] cut at [n] bytes, zero padded: the fixed-size name field of a
    directory entry. *)
Theorem strncpy_correct m s t n a :
  mem_bytes m -> 0 <= n -> disjoint_bufs s t n ->
  strncpy m s t n a =
    if in_range a s n
    then nth (Z.to_nat (a - s)) (cpad (Z.to_nat n) (cstr (view_at m t) (Z.to_nat n))) 0
    else m a.
Proof.
  intros Hb Hn Hd. unfold strncpy.
  rewrite strncpy_spec_nat; rewrite ?Z2Nat.id by lia; done.
Qed.

Lemma strncpy_correct_witness :
  strncpy (fun a => if a =? 100 then 65 else if a =? 101 then 66 else 0) 10 100 14 11 = 66.
Proof.
  rewrite strncpy_correct; [reflexivity| |lia|unfold disjoint_bufs; lia].
  intros i. addr_cases.
Defined.

(** A view that holds the non-NUL bytes [c] and then a NUL is the C string [c]. *)
Lemma cstr_intro p c n :
  Forall (fun b => b <> 0) c ->
  (forall i, (i < length c)%nat -> p (Z.of_nat i) = nth i c 0) ->
  p (Z.of_nat (length c)) = 0 -> (length c < n)%nat -> cstr p n = c.
Proof.
  revert p n. induction c as [|b c IH]; intros p n Hnz Hp Hz Hn; destruct n as [|n]; simpl in *; try lia.
  { change (Z.of_nat 0) with 0 in Hz. by rewrite Hz. }
  apply Forall_cons_1 in Hnz as [Hb Hnz].
  pose proof (Hp O ltac:(lia)) as H0. change (Z.of_nat 0) with 0 in H0. simpl in H0. rewrite H0.
  destruct (Z.eqb_spec b 0); [done|]. f_equal. apply IH; [done| | |lia]; unfold advance.
  - intros i Hi. rewrite <- (Hp (S i)) by lia. f_equal. lia.
  - rewrite <- Hz. f_equal. lia.
Qed.

Lemma cstr_nonzero p n : Forall (fun b => b <> 0) (cstr p n).
Proof.
  revert p. induction n as [|n IH]; intros p; simpl; [constructor|].
  destruct (Z.eqb_spec (p 0) 0); constructor; [done|apply IH].
Qed.

Lemma safestrcpy_loop_spec k m s t :
  mem_bytes m -> disjoint_bufs s t (Z.of_nat (S k)) ->
  let m' := safestrcpy_loop m s t (S k) in
  let c := cstr (view_at m t) k in
  (forall i, (i < length c)%nat -> m' (s + Z.of_nat i) = nth i c 0) /\
  m' (s + Z.of_nat (length c)) = 0 /\
  (forall a, in_range a s (Z.of_nat (S k)) = false -> m' a = m a).
Proof.
  unfold in_range. cbv zeta.
  revert m s t. induction k as [|k IH]; intros m s t Hb (H0 & H1 & H2 & H3 & Ho).
  { simpl. repeat split; [lia| |intros a]; rewrite store_at by lia; addr_cases. }
  change (safestrcpy_loop m s t (S (S k))) with
    (if load m t =? 0 then store (store m s (load m t)) (s + 1) 0
     else safestrcpy_loop (store m s (load m t)) (s + 1) (t + 1) (S k)).
  assert (Ev : view_at m t 0 = load m t) by (unfold view_at; by rewrite Z.add_0_r).
  cbn [cstr]. rewrite Ev. assert (0 <= load m t < 256) by apply Hb.
  destruct (Z.eqb_spec (load m t) 0) as [Ez|Ez].
  { cbn [length]. repeat split; [lia| |intros a]; rewrite !store_at by lia; rewrite ?Ez; addr_cases. }
  destruct (IH (store m s (load m t)) (s + 1) (t + 1)) as (I1 & I2 & I3).
  { by apply store_mem_bytes. } { unfold disjoint_bufs. lia. }
  rewrite cstr_store_other in I1, I2 by lia.
  rewrite (cstr_ext (view_at m (t + 1)) (advance (view_at m t) 1)) in I1, I2
    by (intros; apply view_at_next; lia).
  cbn [length]. repeat split.
  - intros [|i] Hi; cbn [nth].
    + rewrite Z.add_0_r, I3, store_at by (try lia; addr_cases). addr_cases. by apply u8_small.
    + rewrite <- I1 by lia. f_equal. lia.
  - rewrite <- I2. f_equal. lia.
  - intros a Ha. rewrite I3, store_at by (try lia; revert Ha; addr_cases).
    revert Ha. addr_cases.
Qed.

(** [safestrcpy(s, t, n)] with [n > 0] leaves at [s] the C string at [t]
    cut at [n - 1] bytes and always NUL-terminated inside its [n] bytes, and
    writes nothing outside them. *)
Theorem safestrcpy_correct n m s t :
  mem_bytes m -> 0 < n -> disjoint_bufs s t n ->
  let m' := safestrcpy m s t n in
  let c := cstr (view_at m t) (Z.to_nat (n - 1)) in
  cstr (view_at m' s) (Z.to_nat n) = c /\
  m' (s + Z.of_nat (length c)) = 0 /\ Z.of_nat (length c) < n /\
  (forall a, in_range a s n = false -> m' a = m a).
Proof.
  intros Hb Hn Hd. unfold safestrcpy. destruct (Z.leb_spec n 0); [lia|]. cbv zeta.
  assert (exists k, n = Z.of_nat (S k)) as [k ->] by (exists (Z.to_nat (n - 1)); lia).
  replace (Z.to_nat (Z.of_nat (S k) - 1)) with k by lia. rewrite Nat2Z.id.
  destruct (safestrcpy_loop_spec k m s t Hb Hd) as (H1 & H2 & H3).
  pose proof (cstr_length (view_at m t) k) as Hl. destruct Hd as (? & ? & ? & ? & _).
  repeat split; [|done|lia|done].
  apply cstr_intro; [apply cstr_nonzero| | |lia].
  - intros i Hi. rewrite <- H1 by done. unfold view_at, load. by rewrite u32_small by lia.
  - rewrite <- H2. unfold view_at at 1, load. by rewrite u32_small by lia.
Qed.

Lemma safestrcpy_correct_witness :
  cstr (view_at (safestrcpy (fun a => if in_range a 100 30 then 65 else 0) 10 100 16) 10) 16
  = replicate 15 65.
Proof.
  destruct (safestrcpy_correct 16 (fun a => if in_range a 100 30 then 65 else 0) 10 100)
    as (H & _).
  - intros i. unfold in_range. addr_cases.
  - lia.
  - unfold disjoint_bufs. lia.
  - exact H.
Defined.

Lemma strlen_from_spec s n k fuel :
  (forall i, n <= i < n + Z.of_nat k -> s i <> 0) -> s (n + Z.of_nat k) = 0 ->
  (k < fuel)%nat -> strlen_from s n fuel = Some (n + Z.of_nat k).
Proof.
  revert n fuel. induction k as [|k IH]; intros n fuel Hnz Hz Hf; destruct fuel as [|f]; try lia; simpl.
  - rewrite Z.add_0_r in *. by rewrite Hz.
  - destruct (Z.eqb_spec (s n) 0) as [E|E]; [by destruct (Hnz n ltac:(lia))|].
    rewrite (IH (n + 1)); [f_equal; lia| | |lia].
    + intros i Hi. apply Hnz. lia.
    + rewrite <- Hz. f_equal. lia.
Qed.

(** ** Words of memory *)

Lemma load_small m a : 0 <= a < 2 ^ 32 -> load m a = m a.
Proof. intros H. unfold load. by rewrite u32_small. Qed.

Lemma load32_ext m m' a :
  0 <= a -> a + 4 <= 2 ^ 32 -> (forall i, a <= i < a + 4 -> m' i = m i) -> load32 m' a = load32 m a.
Proof. intros H0 H1 H. unfold load32. rewrite !load_small by lia. rewrite !H by lia. done. Qed.

Lemma load32_range m a : mem_bytes m -> 0 <= load32 m a < 2 ^ 32.
Proof.
  intros H. unfold load32, load.
  pose proof (H (u32 a)). pose proof (H (u32 (a + 1))). pose proof (H (u32 (a + 2))). pose proof (H (u32 (a + 3))). lia.
Qed.

Lemma bytes_of_word x :
  0 <= x < 2 ^ 32 -> u8 x + 2 ^ 8 * u8 (Z.shiftr x 8) + 2 ^ 16 * u8 (Z.shiftr x 16) + 2 ^ 24 * u8 (Z.shiftr x 24) = x.
Proof.
  intros Hx. unfold u8. rewrite !Z.shiftr_div_pow2 by lia.
  pose proof (Z.div_mod x 256). pose proof (Z.div_mod (x / 256) 256). pose proof (Z.div_mod (x / 256 / 256) 256).
  change (2 ^ 16) with (256 * 256). change (2 ^ 24) with (256 * 256 * 256). change (2 ^ 8) with 256 in *.
  rewrite <- !Z.div_div by lia. rewrite (Z.mod_small (x / 256 / 256 / 256)).
  - lia.
  - split; [repeat apply Z.div_pos; lia|]. apply Z.div_lt_upper_bound; [lia|]. apply Z.div_lt_upper_bound; [lia|].
    apply Z.div_lt_upper_bound; lia.
Qed.

Lemma load32_store32 m a x : 0 <= a -> a + 4 <= 2 ^ 32 -> 0 <= x < 2 ^ 32 -> load32 (store32 m a x) a = x.
Proof.
  intros H0 H1 Hx. unfold load32. rewrite !load_small by lia. rewrite !store32_at by lia.
  unfold in_range. repeat (rewrite (proj2 (Z.leb_le _ _)) by lia; rewrite (proj2 (Z.ltb_lt _ _)) by lia).
  simpl andb. cbv iota. rewrite <- (bytes_of_word x) at 5 by done.
  replace (8 * (a - a)) with 0 by lia. replace (8 * (a + 1 - a)) with 8 by lia.
  replace (8 * (a + 2 - a)) with 16 by lia. replace (8 * (a + 3 - a)) with 24 by lia. by rewrite Z.shiftr_0_r.
Qed.

Lemma store32_other m a x i : 0 <= a -> a + 4 <= 2 ^ 32 -> i < a \/ a + 4 <= i -> store32 m a x i = m i.
Proof.
  intros H0 H1 Hi. rewrite store32_at by lia. unfold in_range.
  destruct (Z.leb_spec a i), (Z.ltb_spec i (a + 4)); simpl; try done; lia.
Qed.

Lemma load32_store32_other m a x b :
  0 <= a -> a + 4 <= 2 ^ 32 -> 0 <= b -> b + 4 <= 2 ^ 32 -> b + 4 <= a \/ a + 4 <= b ->
  load32 (store32 m a x) b = load32 m b.
Proof. intros. apply load32_ext; try lia. intros i Hi. apply store32_other; lia. Qed.

Lemma store32_bytes m a x : mem_bytes m -> mem_bytes (store32 m a x).
Proof. intros H. unfold store32. by repeat apply store_mem_bytes. Qed.
