(* ===== verification/Layout.v ===== *)
(** On-disk formats and configuration constants ([param.h], [fs.h], [stat.h]).

    A disk block is the list of its [BSIZE] bytes; the C casts of a block to
    [struct dinode *], [uint *] and [struct dirent] are little-endian decodings
    of slices of that list. *)

From S2P Require Import Prelude.

(** ** param.h *)
Definition NPROC : Z := 64.
Definition KSTACKSIZE : Z := 4096.
Definition NCPU : Z := 8.
Definition NOFILE : Z := 16.
Definition NFILE : Z := 100.
Definition NINODE : Z := 50.
Definition NDEV : Z := 10.
Definition ROOTDEV : Z := 1.
Definition MAXARG : Z := 32.
Definition MAXOPBLOCKS : Z := 10.
Definition LOGSIZE : Z := MAXOPBLOCKS * 3.
Definition NBUF : Z := MAXOPBLOCKS * 3.
Definition FSSIZE : Z := 1000.

(** ** fs.h and stat.h *)
Definition ROOTINO : Z := 1.
Definition BSIZE : Z := 512.
Definition NDIRECT : Z := 12.
Definition NINDIRECT : Z := BSIZE / 4.
Definition MAXFILE : Z := NDIRECT + NINDIRECT.
Definition DIRSIZ : Z := 14.
Definition T_DIR : Z := 1.
Definition T_FILE : Z := 2.
Definition T_DEV : Z := 3.
Definition BPB : Z := BSIZE * 8.

Record superblock := mk_superblock {
  sb_size : Z; sb_nblocks : Z; sb_ninodes : Z; sb_nlog : Z;
  sb_logstart : Z; sb_inodestart : Z; sb_bmapstart : Z
}.

Record dinode := mk_dinode {
  di_type : Z; di_major : Z; di_minor : Z; di_nlink : Z;
  di_size : Z; di_addrs : list Z
}.
#[export] Instance eta_dinode : Settable dinode := fun d =>
  mk_dinode (di_type d) (di_major d) (di_minor d) (di_nlink d) (di_size d) (di_addrs d).

Record dirent := mk_dirent { de_inum : Z; de_name : list Z }.

(** [sizeof(struct dinode)], [sizeof(struct dirent)]. *)
Definition DINODE_SZ : Z := 64.
Definition DIRENT_SZ : Z := 16.

Definition IPB : Z := BSIZE / DINODE_SZ.
Definition IBLOCK (i : Z) (sb : superblock) : Z := u32 (i / IPB + sb_inodestart sb).
Definition BBLOCK (b : Z) (sb : superblock) : Z := u32 (b / BPB + sb_bmapstart sb).

(** ** Little-endian integers *)

Definition byte_ok (b : Z) : Prop := 0 <= b < 256.

Fixpoint le_dec (l : list Z) : Z :=
  match l with
  | [] => 0
  | b :: l' => b + 256 * le_dec l'
  end.

Fixpoint le_enc (n : nat) (x : Z) : list Z :=
  match n with
  | O => []
  | S k => x mod 256 :: le_enc k (x / 256)
  end.

(** The bytes [off .. off+n) of a buffer. *)
Definition slice (b : list Z) (off n : nat) : list Z := take n (drop off b).

Definition get16 (b : list Z) (off : nat) : Z := le_dec (slice b off 2).
Definition get32 (b : list Z) (off : nat) : Z := le_dec (slice b off 4).
Definition put32 (b : list Z) (off : nat) (x : Z) : list Z := splice b off (le_enc 4 x).

(** [((uint* )b)[j]] *)
Definition word_at (b : list Z) (j : Z) : Z := get32 b (4 * Z.to_nat j).
Definition set_word (b : list Z) (j x : Z) : list Z := put32 b (4 * Z.to_nat j) x.

(** ** Structures in a block *)

Definition superblock_decode (b : list Z) : superblock :=
  mk_superblock (word_at b 0) (word_at b 1) (word_at b 2) (word_at b 3)
                (word_at b 4) (word_at b 5) (word_at b 6).

Definition words_decode (n : nat) (b : list Z) : list Z :=
  (fun j => get32 b (4 * j)) <$> seq 0 n.
Definition words_encode (l : list Z) : list Z := concat (le_enc 4 <$> l).

Definition superblock_encode (sb : superblock) : list Z :=
  words_encode [sb_size sb; sb_nblocks sb; sb_ninodes sb; sb_nlog sb; sb_logstart sb;
                sb_inodestart sb; sb_bmapstart sb].

Definition dinode_decode (b : list Z) : dinode :=
  mk_dinode (s16 (get16 b 0)) (s16 (get16 b 2)) (s16 (get16 b 4)) (s16 (get16 b 6))
            (get32 b 8) (words_decode 13 (drop 12 b)).

Definition dinode_encode (d : dinode) : list Z :=
  le_enc 2 (di_type d) ++ le_enc 2 (di_major d) ++ le_enc 2 (di_minor d) ++
  le_enc 2 (di_nlink d) ++ le_enc 4 (di_size d) ++ words_encode (di_addrs d).

Definition dirent_decode (b : list Z) : dirent := mk_dirent (get16 b 0) (slice b 2 14).
Definition dirent_encode (d : dirent) : list Z := le_enc 2 (de_inum d) ++ de_name d.

(** [(struct dinode* )bp->data + inum%IPB] *)
Definition dip_off (inum : Z) : nat := Z.to_nat (DINODE_SZ * (inum mod IPB)).
Definition get_dinode (b : list Z) (inum : Z) : dinode :=
  dinode_decode (slice b (dip_off inum) 64).
Definition set_dinode (b : list Z) (inum : Z) (d : dinode) : list Z :=
  splice b (dip_off inum) (dinode_encode d).

(** ** Well-formed values *)

Definition block_ok (b : list Z) : Prop := length b = 512%nat /\ Forall byte_ok b.
#[export] Instance byte_ok_dec b : Decision (byte_ok b).
Proof. unfold byte_ok. apply _. Defined.
#[export] Instance block_ok_dec b : Decision (block_ok b).
Proof. unfold block_ok. apply _. Defined.
Definition short_ok (x : Z) : Prop := - 2 ^ 15 <= x < 2 ^ 15.
Definition uint_ok (x : Z) : Prop := 0 <= x < 2 ^ 32.

Definition dinode_ok (d : dinode) : Prop :=
  short_ok (di_type d) /\ short_ok (di_major d) /\ short_ok (di_minor d) /\
  short_ok (di_nlink d) /\ uint_ok (di_size d) /\
  length (di_addrs d) = 13%nat /\ Forall uint_ok (di_addrs d).

Definition dirent_ok (d : dirent) : Prop :=
  0 <= de_inum d < 2 ^ 16 /\ length (de_name d) = 14%nat /\ Forall byte_ok (de_name d).

Definition zero_block : list Z := replicate 512 0.

(** Replace the configuration constants by their values. *)
Ltac consts :=
  change NINDIRECT with 128 in *; change MAXFILE with 140 in *; change NDIRECT with 12 in *;
  change IPB with 8 in *; change BPB with 4096 in *; change BSIZE with 512 in *;
  change DINODE_SZ with 64 in *; change DIRENT_SZ with 16 in *; change DIRSIZ with 14 in *;
  change LOGSIZE with 30 in *; change NBUF with 30 in *; change MAXOPBLOCKS with 10 in *;
  change NINODE with 50 in *; change FSSIZE with 1000 in *; change NPROC with 64 in *;
  change NFILE with 100 in *; change NOFILE with 16 in *.

(** ** Round trips *)

Lemma le_enc_length n x : length (le_enc n x) = n.
Proof. revert x. induction n; intros; simpl; auto. Qed.

Lemma le_enc_bytes n x : Forall byte_ok (le_enc n x).
Proof.
  revert x. induction n as [|n IH]; intros x; simpl; constructor; [|apply IH].
  apply Z.mod_pos_bound. lia.
Qed.

Lemma le_dec_enc n x : le_dec (le_enc n x) = x mod 2 ^ (8 * Z.of_nat n).
Proof.
  revert x. induction n as [|n IH]; intros x; simpl le_dec; [by rewrite Z.mod_1_r|].
  rewrite IH. replace (8 * Z.of_nat (S n)) with (8 + 8 * Z.of_nat n) by lia.
  rewrite Z.pow_add_r by lia. rewrite Z.rem_mul_r by lia. done.
Qed.

Lemma le_enc_dec l : Forall byte_ok l -> le_enc (length l) (le_dec l) = l.
Proof.
  induction 1 as [|b l Hb Hl IH]; simpl; [done|].
  unfold byte_ok in Hb. f_equal.
  - rewrite Z.mul_comm, Z.mod_add by lia. by apply Z.mod_small.
  - rewrite Z.mul_comm, Z.div_add by lia. by rewrite Z.div_small, Z.add_0_l by lia.
Qed.

Lemma le_dec_range l : Forall byte_ok l -> 0 <= le_dec l < 2 ^ (8 * Z.of_nat (length l)).
Proof.
  induction 1 as [|b l Hb Hl IH]; simpl le_dec; [simpl; lia|]. unfold byte_ok in Hb.
  cbn [length]. replace (8 * Z.of_nat (S (length l))) with (8 + 8 * Z.of_nat (length l)) by lia.
  rewrite Z.pow_add_r by lia. lia.
Qed.

Lemma slice_length b off n : (off + n <= length b)%nat -> length (slice b off n) = n.
Proof. intros. unfold slice. rewrite length_take, length_drop. lia. Qed.

Lemma slice_bytes b off n : Forall byte_ok b -> Forall byte_ok (slice b off n).
Proof. intros. unfold slice. by apply Forall_take, Forall_drop. Qed.

Lemma slice_app_l (a b : list Z) off n :
  (off + n <= length a)%nat -> slice (a ++ b) off n = slice a off n.
Proof.
  intros. unfold slice. rewrite drop_app_le by lia.
  rewrite take_app_le; [done|]. rewrite length_drop. lia.
Qed.

Lemma slice_app_r (a b : list Z) off n :
  (length a <= off)%nat -> slice (a ++ b) off n = slice b (off - length a) n.
Proof. intros. unfold slice. by rewrite drop_app_ge by lia. Qed.

Lemma slice_whole b : slice b 0 (length b) = b.
Proof. unfold slice. by rewrite drop_0, firstn_all. Qed.

Lemma splice_bytes b off xs :
  Forall byte_ok b -> Forall byte_ok xs -> Forall byte_ok (splice b off xs).
Proof.
  intros Hb Hx. unfold splice.
  apply Forall_app; split; [by apply Forall_take|].
  apply Forall_app; split; [done|by apply Forall_drop].
Qed.

Lemma splice_block b off xs :
  block_ok b -> Forall byte_ok xs -> (off + length xs <= 512)%nat -> block_ok (splice b off xs).
Proof.
  intros [Hl Hb] Hx Hle. split; [|by apply splice_bytes]. rewrite splice_length; lia.
Qed.

Lemma zero_block_ok : block_ok zero_block.
Proof.
  split; [done|]. apply Forall_replicate. unfold byte_ok. lia.
Qed.

Lemma get32_put32 b off x :
  (off + 4 <= length b)%nat -> get32 (put32 b off x) off = u32 x.
Proof.
  intros H. unfold get32, put32, slice. pose proof (le_enc_length 4 x) as Hl.
  rewrite <- Hl at 1. rewrite splice_read by lia. apply le_dec_enc.
Qed.

Lemma get32_put32_other b off off' x :
  (off + 4 <= length b)%nat -> (off' + 4 <= off \/ off + 4 <= off')%nat ->
  get32 (put32 b off x) off' = get32 b off'.
Proof.
  intros H Hd. unfold get32, put32, slice.
  rewrite splice_read_other; rewrite ?le_enc_length; auto.
Qed.

Lemma get32_range b off : Forall byte_ok b -> (off + 4 <= length b)%nat -> uint_ok (get32 b off).
Proof.
  intros Hb Hl. unfold get32. pose proof (le_dec_range _ (slice_bytes b off 4 Hb)) as H.
  by rewrite slice_length in H.
Qed.

Lemma word_at_set b j x :
  length b = 512%nat -> 0 <= j < NINDIRECT -> uint_ok x -> word_at (set_word b j x) j = x.
Proof.
  intros Hl Hj Hx. unfold word_at, set_word. consts.
  rewrite get32_put32; [by apply u32_small|]. lia.
Qed.

Lemma word_at_set_other b j k x :
  length b = 512%nat -> 0 <= j < NINDIRECT -> 0 <= k -> k <> j ->
  word_at (set_word b j x) k = word_at b k.
Proof.
  intros Hl Hj Hk Hne. unfold word_at, set_word. consts.
  apply get32_put32_other; lia.
Qed.

Lemma set_word_ok b j x : block_ok b -> 0 <= j < NINDIRECT -> block_ok (set_word b j x).
Proof.
  intros Hb Hj. consts. apply splice_block; [done|apply le_enc_bytes|].
  rewrite le_enc_length. lia.
Qed.

Lemma word_at_zero j : word_at zero_block j = 0.
Proof.
  unfold word_at, get32, slice, zero_block. rewrite drop_replicate, take_replicate.
  generalize (4 `min` (512 - 4 * Z.to_nat j))%nat as n. induction n as [|n IH]; simpl; [done|].
  by rewrite IH.
Qed.

(** ** Structures *)

Lemma words_encode_length l : length (words_encode l) = (4 * length l)%nat.
Proof.
  induction l as [|x l IH]; [done|].
  change (words_encode (x :: l)) with (le_enc 4 x ++ words_encode l).
  rewrite length_app, le_enc_length, IH. simpl. lia.
Qed.

Lemma words_encode_bytes l : Forall byte_ok (words_encode l).
Proof.
  induction l as [|x l IH]; [constructor|].
  change (words_encode (x :: l)) with (le_enc 4 x ++ words_encode l).
  apply Forall_app; split; [apply le_enc_bytes|done].
Qed.

Lemma words_encode_get l j x :
  l !! j = Some x -> uint_ok x -> get32 (words_encode l) (4 * j) = x.
Proof.
  revert j. induction l as [|y l IH]; intros j; [done|].
  change (words_encode (y :: l)) with (le_enc 4 y ++ words_encode l). unfold get32.
  destruct j as [|j]; cbn [lookup list_lookup].
  - intros [= ->] Hx. rewrite slice_app_l by (rewrite le_enc_length; lia).
    rewrite <- (le_enc_length 4 x) at 1. rewrite slice_whole, le_dec_enc. by apply u32_small.
  - intros Hj Hx. rewrite slice_app_r by (rewrite le_enc_length; lia).
    rewrite le_enc_length. replace (4 * S j - 4)%nat with (4 * j)%nat by lia. by apply IH.
Qed.

Lemma words_decode_encode l :
  Forall uint_ok l -> words_decode (length l) (words_encode l) = l.
Proof.
  intros Hl. apply list_eq. intros j. unfold words_decode. rewrite list_lookup_fmap.
  destruct (l !! j) as [x|] eqn:Hj.
  - pose proof (lookup_lt_Some _ _ _ Hj). rewrite lookup_seq_lt by lia. simpl. f_equal.
    apply words_encode_get; [done|]. by eapply Forall_lookup in Hl.
  - apply lookup_ge_None in Hj. rewrite lookup_seq_ge by lia. done.
Qed.

Lemma le_enc_get_s16 x : short_ok x -> s16 (le_dec (le_enc 2 x)) = x.
Proof.
  intros Hx. rewrite le_dec_enc. change (2 ^ (8 * Z.of_nat 2)) with (2 ^ 16).
  unfold s16. transitivity (signed 16 x); [|apply signed_small; [lia|done]].
  unfold signed. by rewrite Z.mod_mod by lia.
Qed.

(** Slices of a concatenation of fields of known lengths. *)
Ltac field_slice :=
  repeat first
    [ rewrite slice_app_l by (rewrite ?length_app, ?le_enc_length; lia)
    | rewrite slice_app_r by (rewrite ?length_app, ?le_enc_length; lia);
      rewrite ?le_enc_length; simpl Nat.sub ].

Lemma slice_le_enc n x : slice (le_enc n x) 0 n = le_enc n x.
Proof. rewrite <- (le_enc_length n x) at 2. apply slice_whole. Qed.

Lemma dinode_encode_length d :
  length (di_addrs d) = 13%nat -> length (dinode_encode d) = 64%nat.
Proof.
  intros H. unfold dinode_encode.
  rewrite !length_app, !le_enc_length, words_encode_length, H. done.
Qed.

Lemma dinode_encode_bytes d : Forall byte_ok (dinode_encode d).
Proof.
  unfold dinode_encode.
  repeat (apply Forall_app; split; [apply le_enc_bytes|]). apply words_encode_bytes.
Qed.

Lemma dinode_decode_encode d : dinode_ok d -> dinode_decode (dinode_encode d) = d.
Proof.
  destruct d as [ty ma mi nl sz ad].
  intros (H1 & H2 & H3 & H4 & H5 & H6 & H7); simpl in *.
  unfold dinode_decode, dinode_encode, get16, get32; simpl di_type; simpl di_major;
    simpl di_minor; simpl di_nlink; simpl di_size; simpl di_addrs.
  field_slice. rewrite !slice_le_enc, !le_enc_get_s16 by done. f_equal.
  - rewrite le_dec_enc. by apply u32_small.
  - rewrite !app_assoc. rewrite drop_app_ge by (rewrite !length_app, !le_enc_length; lia).
    rewrite !length_app, !le_enc_length. rewrite drop_0, <- H6. by apply words_decode_encode.
Qed.

Lemma dip_off_le inum : (dip_off inum + 64 <= 512)%nat.
Proof.
  unfold dip_off. consts. pose proof (Z.mod_pos_bound inum 8). lia.
Qed.

Lemma dip_off_other i j :
  i mod IPB <> j mod IPB -> (dip_off i + 64 <= dip_off j \/ dip_off j + 64 <= dip_off i)%nat.
Proof.
  unfold dip_off. consts. pose proof (Z.mod_pos_bound i 8). pose proof (Z.mod_pos_bound j 8). lia.
Qed.

Lemma set_dinode_ok b inum d :
  block_ok b -> length (di_addrs d) = 13%nat -> block_ok (set_dinode b inum d).
Proof.
  intros Hb Hd. apply splice_block; [done|apply dinode_encode_bytes|].
  rewrite dinode_encode_length by done. apply dip_off_le.
Qed.

Lemma get_set_dinode b inum d :
  length b = 512%nat -> dinode_ok d -> get_dinode (set_dinode b inum d) inum = d.
Proof.
  intros Hb Hd. unfold get_dinode, set_dinode, slice.
  assert (Hl : length (dinode_encode d) = 64%nat) by (apply dinode_encode_length, Hd).
  rewrite <- Hl. pose proof (dip_off_le inum).
  rewrite splice_read by lia. by apply dinode_decode_encode.
Qed.

Lemma get_set_dinode_other b i j d :
  length b = 512%nat -> length (di_addrs d) = 13%nat -> i mod IPB <> j mod IPB ->
  get_dinode (set_dinode b i d) j = get_dinode b j.
Proof.
  intros Hb Hd Hij. unfold get_dinode, set_dinode, slice.
  assert (Hl : length (dinode_encode d) = 64%nat) by by apply dinode_encode_length.
  pose proof (dip_off_le i). pose proof (dip_off_other i j Hij).
  rewrite splice_read_other; [done|lia|lia].
Qed.

Lemma dirent_encode_length d : length (de_name d) = 14%nat -> length (dirent_encode d) = 16%nat.
Proof. intros H. unfold dirent_encode. by rewrite length_app, le_enc_length, H. Qed.

Lemma dirent_decode_encode d : dirent_ok d -> dirent_decode (dirent_encode d) = d.
Proof.
  destruct d as [i n]. intros (Hi & Hn & _). simpl in *.
  unfold dirent_decode, dirent_encode, get16; simpl de_inum; simpl de_name.
  field_slice. rewrite slice_le_enc, le_dec_enc. f_equal.
  - by apply Z.mod_small.
  - rewrite <- Hn. apply slice_whole.
Qed.

Lemma dirent_encode_decode b :
  length b = 16%nat -> Forall byte_ok b -> dirent_encode (dirent_decode b) = b.
Proof.
  intros Hl Hb. unfold dirent_encode, dirent_decode, get16. cbn [de_inum de_name].
  pose proof (le_enc_dec _ (slice_bytes b 0 2 Hb)) as E.
  rewrite slice_length in E by lia. rewrite E. unfold slice. rewrite drop_0. rewrite (take_ge (drop 2 b)) by (rewrite length_drop; lia).
  apply take_drop.
Qed.

Lemma superblock_decode_encode sb :
  Forall uint_ok [sb_size sb; sb_nblocks sb; sb_ninodes sb; sb_nlog sb; sb_logstart sb;
                  sb_inodestart sb; sb_bmapstart sb] ->
  superblock_decode (superblock_encode sb) = sb.
Proof.
  intros H. set (l := [_; _; _; _; _; _; _]) in H.
  assert (Hg : forall j x, l !! j = Some x -> get32 (words_encode l) (4 * j) = x).
  { intros j x Hj. apply words_encode_get; [done|]. by eapply Forall_lookup in H. }
  unfold superblock_decode, superblock_encode, word_at. fold l.
  destruct sb; f_equal;
    match goal with |- get32 _ (4 * Z.to_nat ?j) = _ =>
      rewrite (Hg (Z.to_nat j) _ eq_refl); reflexivity end.
Qed.
