(* ===== verification/Sleeplock.v ===== *)
(** Sleep locks ([sleeplock.c]).

    The sections between [acquire(&lk->lk)] and its [release] or [sleep] are
    the atomic steps of a sleep lock; the spin lock that makes them atomic is
    the subject of [Spinlock].  [acquiresleep], [releasesleep] and
    [holdingsleep] are the routines as one thread runs them; [sl_step] is the
    protocol of many processes around one lock. *)

From S2P Require Import Prelude.

Record sleeplock := mk_sleeplock { sl_locked : bool; sl_pid : Z }.
#[export] Instance eta_sleeplock : Settable sleeplock := fun l =>
  mk_sleeplock (sl_locked l) (sl_pid l).

Definition initsleeplock : sleeplock := mk_sleeplock false 0.

(** The loop [while (lk->locked) sleep(lk, &lk->lk)] leaves the caller asleep
    when the lock is taken. *)
Definition acquiresleep (pid : Z) : M sleeplock () :=
  locked ← gets sl_locked;
  if locked : bool then block
  else modify (fun lk => lk <| sl_locked := true |> <| sl_pid := pid |>).

Definition releasesleep : M sleeplock () :=
  modify (fun lk => lk <| sl_locked := false |> <| sl_pid := 0 |>).

Definition holdingsleep : M sleeplock bool := gets sl_locked.

(** ** Many processes on one lock *)

(** What a process is doing with the lock: nothing, about to run the test of
    the acquire loop, asleep on the lock's channel, or inside the section the
    lock protects. *)
Inductive slpc := SLIdle | SLTry | SLAsleep | SLHold.

Record slsys := mk_slsys { ss_lock : sleeplock; ss_pc : Z -> slpc }.

(** [wakeup(lk)]: every sleeper becomes runnable, at the loop test. *)
Definition wake_all (pc : Z -> slpc) : Z -> slpc :=
  fun p => match pc p with SLAsleep => SLTry | x => x end.

Inductive sl_step : slsys -> slsys -> Prop :=
| sl_call s p :
    ss_pc s p = SLIdle ->
    sl_step s (mk_slsys (ss_lock s) (upd (ss_pc s) p SLTry))
| sl_acquired s p lk :
    ss_pc s p = SLTry -> acquiresleep p (ss_lock s) = Ok () lk ->
    sl_step s (mk_slsys lk (upd (ss_pc s) p SLHold))
| sl_sleeps s p lk :
    ss_pc s p = SLTry -> acquiresleep p (ss_lock s) = Blocked lk ->
    sl_step s (mk_slsys lk (upd (ss_pc s) p SLAsleep))
| sl_release s p lk :
    ss_pc s p = SLHold -> releasesleep (ss_lock s) = Ok () lk ->
    sl_step s (mk_slsys lk (wake_all (upd (ss_pc s) p SLIdle))).

Definition sl_init : slsys := mk_slsys initsleeplock (fun _ => SLIdle).

(** A process holds the lock exactly when the lock is marked with its pid, and
    nobody sleeps on a free lock. *)
Definition sl_inv (s : slsys) : Prop :=
  (forall p, ss_pc s p = SLHold <-> sl_locked (ss_lock s) = true /\ sl_pid (ss_lock s) = p) /\
  (sl_locked (ss_lock s) = false -> forall p, ss_pc s p <> SLAsleep).

Lemma acquiresleep_free pid lk :
  sl_locked lk = false -> acquiresleep pid lk = Ok () (mk_sleeplock true pid).
Proof. intros H. unfold acquiresleep, mbind, M_bind, gets. simpl. by rewrite H. Qed.

Lemma acquiresleep_taken pid lk :
  sl_locked lk = true -> acquiresleep pid lk = Blocked lk.
Proof. intros H. unfold acquiresleep, mbind, M_bind, gets. simpl. by rewrite H. Qed.

Lemma wake_all_hold pc p : wake_all pc p = SLHold <-> pc p = SLHold.
Proof. unfold wake_all. destruct (pc p); naive_solver. Qed.

Lemma wake_all_asleep pc p : wake_all pc p <> SLAsleep.
Proof. unfold wake_all. by destruct (pc p). Qed.

Lemma upd_hold pc p x q :
  x <> SLHold -> pc p <> SLHold -> upd pc p x q = SLHold <-> pc q = SLHold.
Proof.
  intros Hx Hp. destruct (decide (q = p)) as [->|]; [by rewrite upd_eq|].
  by rewrite upd_ne.
Qed.

Lemma sl_inv_step s s' : sl_inv s -> sl_step s s' -> sl_inv s'.
Proof.
  intros [Hh Hs] Hst. destruct Hst as [s p Hp|s p lk Hp Ha|s p lk Hp Ha|s p lk Hp Ha]; unfold sl_inv; simpl.
  - split.
    + intros q. rewrite upd_hold by congruence. apply Hh.
    + intros Hf q. destruct (decide (q = p)) as [->|]; [by rewrite upd_eq|].
      rewrite upd_ne by done. by apply Hs.
  - destruct (sl_locked (ss_lock s)) eqn:E.
    { by rewrite acquiresleep_taken in Ha. }
    rewrite acquiresleep_free in Ha by done. injection Ha as <-. simpl. split; [|done].
    intros q. destruct (decide (q = p)) as [->|Hne]; [by rewrite upd_eq|].
    rewrite upd_ne by done. rewrite Hh. split; [by intros [? _]|intros [_ ?]; congruence].
  - destruct (sl_locked (ss_lock s)) eqn:E; [|by rewrite acquiresleep_free in Ha].
    rewrite acquiresleep_taken in Ha by done. injection Ha as <-. rewrite E. split; [|done].
    intros q. rewrite upd_hold by congruence. apply Hh.
  - injection Ha as <-. simpl. split; [|intros _; apply wake_all_asleep].
    intros q. rewrite wake_all_hold. split; [|by intros [? _]].
    destruct (decide (q = p)) as [->|Hne]; [by rewrite upd_eq|]. rewrite upd_ne by done.
    intros Hq. apply Hh in Hp as [_ Hp]. apply Hh in Hq as [_ Hq]. congruence.
Qed.

Lemma sl_inv_init : sl_inv sl_init.
Proof. split; simpl; [|done]. intros p. split; [done|]. by intros [? _]. Qed.

Lemma sl_inv_reachable s : rtc sl_step sl_init s -> sl_inv s.
Proof.
  apply rtc_invariant; [apply sl_inv_init|]. intros a b. apply sl_inv_step.
Qed.

(** C13: around one sleep lock no two processes are ever inside the section it
    protects, and a process asleep on the lock's channel implies that the lock
    is held: its release will wake the sleeper, so no wakeup is lost. *)
Theorem sleeplock_safe s :
  rtc sl_step sl_init s ->
  (forall p q, ss_pc s p = SLHold -> ss_pc s q = SLHold -> p = q) /\
  (forall p, ss_pc s p = SLAsleep ->
     exists q, ss_pc s q = SLHold /\ sl_pid (ss_lock s) = q).
Proof.
  intros [Hh Hs]%sl_inv_reachable. split.
  - intros p q [_ Hp]%Hh [_ Hq]%Hh. congruence.
  - intros p Hp. destruct (sl_locked (ss_lock s)) eqn:E.
    + exists (sl_pid (ss_lock s)). split; [|done]. by apply Hh.
    + by destruct (Hs eq_refl p).
Qed.

(** Process 7 holds the lock while process 8 sleeps on it. *)
Definition sl_demo : slsys :=
  mk_slsys (mk_sleeplock true 7)
    (upd (upd (upd (upd (fun _ => SLIdle) 7 SLTry) 7 SLHold) 8 SLTry) 8 SLAsleep).

Lemma sleeplock_safe_witness :
  exists q, ss_pc sl_demo q = SLHold /\ sl_pid (ss_lock sl_demo) = q.
Proof.
  apply (sleeplock_safe sl_demo) with (p := 8); [|reflexivity].
  eapply rtc_l; [apply (sl_call _ 7); reflexivity|].
  eapply rtc_l; [apply (sl_acquired _ 7 (mk_sleeplock true 7)); reflexivity|].
  eapply rtc_l; [apply (sl_call _ 8); reflexivity|].
  eapply rtc_l; [apply (sl_sleeps _ 8 (mk_sleeplock true 7)); reflexivity|].
  apply rtc_refl.
Defined.
