(* ===== verification/Ring.v ===== *)
(** Circular doubly linked lists through [next]/[prev] arrays: the LRU list of
    the buffer cache ([bio.c]).

    A node is an index; [nx] and [pv] give its two links.  [ring nx pv h l]
    says that following [next] from the head [h] visits exactly the nodes [l]
    and comes back to [h], and that [prev] is its inverse. *)

From S2P Require Import Prelude.

(** The path of links from [x] through the nodes [l] to [z]. *)
Fixpoint seg (nx pv : list nat) (x : nat) (l : list nat) (z : nat) : Prop :=
  match l with
  | [] => nx !! x = Some z /\ pv !! z = Some x
  | y :: l' => nx !! x = Some y /\ pv !! y = Some x /\ seg nx pv y l' z
  end.

Definition ring (nx pv : list nat) (h : nat) (l : list nat) : Prop :=
  seg nx pv h l h /\ NoDup (h :: l).

(** [for(b = start; b != head; b = b->link) if(f(b)) return b;]: the node found,
    [Some None] when the loop reaches the head, [None] when out of fuel. *)
Fixpoint walk (link : list nat) (h : nat) (f : nat -> bool) (cur fuel : nat) : option (option nat) :=
  match fuel with
  | O => None
  | S k =>
      if (cur =? h)%nat then Some None
      else if f cur then Some (Some cur)
      else walk link h f (link !!! cur) k
  end.

(** [b->next->prev = b->prev; b->prev->next = b->next;] *)
Definition unlink (nx pv : list nat) (b : nat) : list nat * list nat :=
  let pv' := <[nx !!! b := pv !!! b]> pv in
  let nx' := <[pv' !!! b := nx !!! b]> nx in
  (nx', pv').

(** [b->next = h.next; b->prev = &h; h.next->prev = b; h.next = b;] *)
Definition push_front (nx pv : list nat) (h b : nat) : list nat * list nat :=
  let nx := <[b := nx !!! h]> nx in
  let pv := <[b := h]> pv in
  let pv := <[nx !!! h := b]> pv in
  let nx := <[h := b]> nx in
  (nx, pv).

(** ** Segments *)

Lemma seg_app nx pv x l1 y l2 z :
  seg nx pv x (l1 ++ y :: l2) z <-> seg nx pv x l1 y /\ seg nx pv y l2 z.
Proof.
  revert x. induction l1 as [|a l1 IH]; intros x; simpl; [tauto|]. rewrite IH. tauto.
Qed.

Lemma seg_frame nx pv x l z k v k' v' :
  k ∉ x :: l -> k' ∉ l ++ [z] ->
  seg nx pv x l z -> seg (<[k := v]> nx) (<[k' := v']> pv) x l z.
Proof.
  revert x. induction l as [|y l IH]; intros x Hk Hk'; simpl.
  - intros [H1 H2]. rewrite !list_lookup_insert_ne by set_solver. done.
  - intros (H1 & H2 & H3). rewrite !list_lookup_insert_ne by set_solver.
    split; [done|]. split; [done|]. apply IH; [set_solver..|done].
Qed.

Lemma seg_prev_mem nx pv x l z p :
  seg nx pv x l z -> pv !! z = Some p -> p ∈ x :: l /\ (l <> [] -> p ∈ l).
Proof.
  revert x. induction l as [|y l IH]; intros x; simpl.
  - intros [_ H] Hp. simplify_eq. set_solver.
  - intros (_ & _ & H) Hp. destruct (IH y H Hp) as [H1 _]. set_solver.
Qed.

Lemma seg_bounds nx pv x l z :
  seg nx pv x l z -> (forall y, y ∈ x :: l -> (y < length nx)%nat) /\
                     (forall y, y ∈ l ++ [z] -> (y < length pv)%nat).
Proof.
  revert x. induction l as [|y l IH]; intros x; simpl.
  - intros [H1%lookup_lt_Some H2%lookup_lt_Some]. set_solver.
  - intros (H1%lookup_lt_Some & H2%lookup_lt_Some & [H3 H4]%IH). set_solver.
Qed.

(** Redirect the last link of a segment from [b] to [n]. *)
Lemma seg_retarget nx pv x l b p n :
  seg nx pv x l b -> pv !! b = Some p -> NoDup (x :: l) -> n ∉ l ->
  (n < length pv)%nat ->
  seg (<[p := n]> nx) (<[n := p]> pv) x l n.
Proof.
  revert x. induction l as [|y l IH]; intros x; simpl.
  - intros [H1 H2] Hp _ _ Hn. simplify_eq.
    apply lookup_lt_Some in H1. by rewrite !list_lookup_insert_eq.
  - intros (H1 & H2 & H3) Hp Hnd Hn Hlt.
    destruct (seg_prev_mem _ _ _ _ _ _ H3 Hp) as [Hpm _].
    apply NoDup_cons in Hnd as [Hx Hnd].
    rewrite !list_lookup_insert_ne by set_solver.
    split; [done|]. split; [done|]. apply IH; auto. set_solver.
Qed.

(** Move the first link of a segment from [b] to [p]. *)
Lemma seg_resource nx pv b l z p n :
  seg nx pv b l z -> nx !! b = Some n -> NoDup l -> z ∉ l -> p ∉ l -> (p < length nx)%nat ->
  seg (<[p := n]> nx) (<[n := p]> pv) p l z.
Proof.
  intros Hs Hn Hnd Hz Hp Hlt. destruct l as [|y l]; simpl in *.
  - destruct Hs as [H1 H2]. simplify_eq. apply lookup_lt_Some in H2.
    by rewrite !list_lookup_insert_eq.
  - destruct Hs as (H1 & H2 & H3). simplify_eq. apply lookup_lt_Some in H2.
    rewrite !list_lookup_insert_eq by done. split; [done|]. split; [done|].
    apply NoDup_cons in Hnd as [Hy Hnd]. apply seg_frame; [set_solver..|done].
Qed.

Lemma ring_unlink nx pv h l1 b l2 :
  ring nx pv h (l1 ++ b :: l2) ->
  let '(nx', pv') := unlink nx pv b in ring nx' pv' h (l1 ++ l2).
Proof.
  intros [Hs Hnd]. apply seg_app in Hs as [Hs1 Hs2].
  assert (Hnd' : NoDup (h :: l1 ++ l2)).
  { eapply sublist_NoDup; [exact Hnd|].
    apply sublist_skip, sublist_app; [done|]. by apply sublist_cons. }
  assert (Hmem : h ∉ l1 ++ l2 /\ b ∉ h :: l1 ++ l2 /\ NoDup l1 /\ NoDup l2 /\
                 (forall x, x ∈ l1 -> x ∉ l2)).
  { apply NoDup_cons in Hnd as [Hh Hnd]. apply NoDup_app in Hnd as (H1 & H2 & H3).
    apply NoDup_cons in H3 as [H3 H4]. repeat split; set_solver. }
  destruct Hmem as (Hh & Hb & Hn1 & Hn2 & Hd).
  assert (exists p, pv !! b = Some p /\ p ∈ h :: l1) as (p & Hp & Hpm).
  { destruct (seg_bounds _ _ _ _ _ Hs1) as [_ Hlt]. destruct (lookup_lt_is_Some_2 pv b) as [p Hp].
    { apply Hlt. set_solver. } exists p. split; [done|]. apply (seg_prev_mem _ _ _ _ _ _ Hs1 Hp). }
  assert (exists n, nx !! b = Some n /\ n ∈ l2 ++ [h]) as (n & Hn & Hnm).
  { destruct l2; simpl in Hs2; destruct Hs2 as [H _]; eexists; split; try exact H; set_solver. }
  destruct (seg_bounds _ _ _ _ _ Hs1) as [Hb1 _]. destruct (seg_bounds _ _ _ _ _ Hs2) as [_ Hb2].
  unfold unlink. rewrite (list_lookup_total_correct _ _ _ Hn), (list_lookup_total_correct _ _ _ Hp).
  assert (n <> b) by set_solver.
  rewrite list_lookup_total_insert_ne, (list_lookup_total_correct _ _ _ Hp) by done.
  split; [|done].
  pose proof (seg_retarget nx pv h l1 b p n Hs1 Hp) as R1.
  pose proof (seg_resource nx pv b l2 h p n Hs2 Hn) as R2.
  destruct l2 as [|y l2].
  - simpl in Hs2. destruct Hs2 as [? _]. simplify_eq. rewrite app_nil_r.
    apply R1; [by rewrite app_nil_r in Hnd'|set_solver|apply Hb2; set_solver].
  - simpl in Hs2. destruct Hs2 as [? _]. simplify_eq. apply seg_app. split.
    + apply R1; [|set_solver|apply Hb2; set_solver].
      apply NoDup_cons; split; [set_solver|done].
    + apply R2; [done|set_solver|set_solver|apply Hb1; set_solver].
Qed.

Lemma ring_push_front nx pv h l b :
  ring nx pv h l -> b ∉ h :: l -> (b < length nx)%nat -> (b < length pv)%nat ->
  let '(nx', pv') := push_front nx pv h b in ring nx' pv' h (b :: l).
Proof.
  intros [Hs Hnd] Hb Hbn Hbp. unfold push_front.
  assert (exists n, nx !! h = Some n /\ n ∈ l ++ [h]) as (n & Hn & Hnm).
  { destruct l; simpl in Hs; destruct Hs as [H _]; eexists; split; try exact H; set_solver. }
  destruct (seg_bounds _ _ _ _ _ Hs) as [Hlx Hlp].
  assert (b <> h) by set_solver.
  rewrite list_lookup_total_insert_ne by done. rewrite (list_lookup_total_correct _ _ _ Hn).
  apply NoDup_cons in Hnd as [Hh Hnd].
  split; [|apply NoDup_cons; split; [set_solver|]; apply NoDup_cons; split; [set_solver|done]].
  assert (n <> b) by set_solver.
  assert (h < length nx)%nat by (apply Hlx; set_solver).
  assert (n < length pv)%nat by (apply Hlp; set_solver).
  simpl. split; [by rewrite list_lookup_insert_eq; [|rewrite length_insert]|].
  split; [by rewrite list_lookup_insert_ne, list_lookup_insert_eq|].
  destruct l as [|y l]; simpl in Hs |- *.
  - destruct Hs as [G1 G2]. simplify_eq.
    rewrite list_lookup_insert_ne, list_lookup_insert_eq by (done || set_solver).
    rewrite list_lookup_insert_eq by (by rewrite length_insert). done.
  - destruct Hs as (G1 & G2 & G3). simplify_eq. apply NoDup_cons in Hnd as [Hy Hnd].
    rewrite list_lookup_insert_ne, list_lookup_insert_eq by (done || set_solver).
    rewrite list_lookup_insert_eq by (by rewrite length_insert).
    split; [done|]. split; [done|].
    apply seg_frame; [set_solver..|]. apply seg_frame; [set_solver..|done].
Qed.

Lemma seg_rev nx pv x l z : seg nx pv x l z -> seg pv nx z (reverse l) x.
Proof.
  revert x. induction l as [|y l IH]; intros x; [simpl; tauto|].
  intros (H1 & H2 & H3%IH). rewrite reverse_cons. apply seg_app. simpl. tauto.
Qed.

Lemma ring_rev nx pv h l : ring nx pv h l -> ring pv nx h (reverse l).
Proof.
  intros [Hs Hnd]. split; [by apply seg_rev|].
  apply NoDup_cons in Hnd as [Hh Hnd]. apply NoDup_cons.
  split; [by rewrite elem_of_reverse|by rewrite reverse_Permutation].
Qed.

Lemma walk_seg nx pv x l h f fuel :
  seg nx pv x l h -> h ∉ l -> (length l < fuel)%nat ->
  walk nx h f (nx !!! x) fuel = Some (find f l).
Proof.
  revert x fuel. induction l as [|y l IH]; intros x fuel Hs Hh Hf; destruct fuel as [|fuel];
    simpl in *; try lia.
  - destruct Hs as [H _]. rewrite (list_lookup_total_correct _ _ _ H). by rewrite Nat.eqb_refl.
  - destruct Hs as (H & _ & Hs). rewrite (list_lookup_total_correct _ _ _ H).
    destruct (Nat.eqb_spec y h); [set_solver|].
    destruct (f y); [done|]. apply IH; [done|set_solver|lia].
Qed.

(** The forward loop over a ring finds the first node in list order. *)
Lemma walk_ring nx pv h l f fuel :
  ring nx pv h l -> (length l < fuel)%nat -> walk nx h f (nx !!! h) fuel = Some (find f l).
Proof.
  intros [Hs Hnd] Hf. apply NoDup_cons in Hnd as [Hh _]. by eapply walk_seg.
Qed.

(** The backward loop finds the last one. *)
Lemma walk_ring_back nx pv h l f fuel :
  ring nx pv h l -> (length l < fuel)%nat -> walk pv h f (pv !!! h) fuel = Some (find f (reverse l)).
Proof.
  intros H%ring_rev Hf. eapply walk_ring; [exact H|by rewrite length_reverse].
Qed.
