(* ===== verification/Bio.v ===== *)
(** The buffer cache ([bio.c]) over the in-memory disk driver ([memide.c]).

    [struct buf]'s [prev]/[next] links are kept in two arrays beside the
    buffers; index [HEAD] is [bcache.head].  The disk carries, besides its
    blocks, the sequence of block writes it has performed ([d_trace], newest
    first), which is what a crash can cut short.

    The second half relates the cache to an abstract one: the map of the
    blocks that are locked or dirty, every other block being what the disk
    says.  The five operations a client uses have a one-line effect on it. *)

From S2P Require Import Prelude Layout Sleeplock Ring.

Definition B_VALID : Z := 2.
Definition B_DIRTY : Z := 4.

Record buf := mk_buf {
  b_flags : Z; b_dev : Z; b_blockno : Z; b_lock : sleeplock; b_refcnt : Z; b_data : list Z
}.
#[export] Instance eta_buf : Settable buf := fun b =>
  mk_buf (b_flags b) (b_dev b) (b_blockno b) (b_lock b) (b_refcnt b) (b_data b).
#[export] Instance buf_inhabited : Inhabited buf :=
  populate (mk_buf 0 0 0 initsleeplock 0 zero_block).

Record bcache := mk_bcache { bc_bufs : list buf; bc_next : list nat; bc_prev : list nat }.
#[export] Instance eta_bcache : Settable bcache := fun c =>
  mk_bcache (bc_bufs c) (bc_next c) (bc_prev c).

Record memdisk := mk_memdisk {
  d_size : Z; d_data : Z -> list Z; d_trace : list (Z * list Z)
}.

(** The cache, the disk and the pid of the process that runs ([myproc()->pid]). *)
Record bio := mk_bio { bio_cache : bcache; bio_disk : memdisk; bio_pid : Z }.
#[export] Instance eta_bio : Settable bio := fun s =>
  mk_bio (bio_cache s) (bio_disk s) (bio_pid s).

Definition HEAD : nat := Z.to_nat NBUF.

Definition bufs (s : bio) : list buf := bc_bufs (bio_cache s).
Definition bufget (i : nat) : M bio buf := gets (fun s => bufs s !!! i).
Definition with_buf (i : nat) (b : buf) (s : bio) : bio :=
  s <| bio_cache := (bio_cache s) <| bc_bufs := <[i := b]> (bufs s) |> |>.
Definition upd_buf (i : nat) (f : buf -> buf) (s : bio) : bio := with_buf i (f (bufs s !!! i)) s.
Definition bufmod (i : nat) (f : buf -> buf) : M bio () := modify (upd_buf i f).

(** Run a sleep-lock routine on [b->lock]. *)
Definition on_lock {A : Type} (i : nat) (m : M sleeplock A) : M bio A :=
  zoom (fun s => b_lock (bufs s !!! i)) (fun lk => upd_buf i (fun b => b <| b_lock := lk |>)) m.

Definition disk_write (d : memdisk) (b : Z) (data : list Z) : memdisk :=
  mk_memdisk (d_size d) (upd (d_data d) b data) ((b, data) :: d_trace d).

(** ** memide.c *)

Definition iderw (i : nat) : M bio () :=
  held ← on_lock i holdingsleep;
  if negb held then panic "iderw: buf not locked" else
  b ← bufget i;
  if Z.land (b_flags b) (Z.lor B_VALID B_DIRTY) =? B_VALID then panic "iderw: nothing to do" else
  if negb (b_dev b =? 1) then panic "iderw: request not for disk 1" else
  size ← gets (fun s => d_size (bio_disk s));
  if size <=? b_blockno b then panic "iderw: block out of range" else
  (if negb (Z.land (b_flags b) B_DIRTY =? 0) then
     bufmod i (fun b => b <| b_flags := Z.land (b_flags b) (Z.lnot B_DIRTY) |>);;
     modify (fun s => s <| bio_disk := disk_write (bio_disk s) (b_blockno b) (b_data b) |>)
   else
     p ← gets (fun s => d_data (bio_disk s) (b_blockno b));
     bufmod i (fun b => b <| b_data := p |>));;
  bufmod i (fun b => b <| b_flags := Z.lor (b_flags b) B_VALID |>).

(** ** bio.c *)

Definition binit_step (c : bcache) (i : nat) : bcache :=
  let c := c <| bc_bufs := alter (fun b => b <| b_lock := initsleeplock |>) i (bc_bufs c) |> in
  let '(nx, pv) := push_front (bc_next c) (bc_prev c) HEAD i in
  c <| bc_next := nx |> <| bc_prev := pv |>.

Definition binit (c : bcache) : bcache :=
  let c := c <| bc_prev := <[HEAD := HEAD]> (bc_prev c) |>
             <| bc_next := <[HEAD := HEAD]> (bc_next c) |> in
  foldl binit_step c (seq 0 HEAD).

Definition bget (dev blockno : Z) : M bio nat :=
  hit ← gets (fun s => let c := bio_cache s in
    walk (bc_next c) HEAD
      (fun i => let b := bc_bufs c !!! i in (b_dev b =? dev) && (b_blockno b =? blockno))
      (bc_next c !!! HEAD) (S HEAD));
  pid ← gets bio_pid;
  match hit with
  | Some (Some i) =>
      bufmod i (fun b => b <| b_refcnt := u32 (b_refcnt b + 1) |>);;
      on_lock i (acquiresleep pid);;
      mret i
  | _ =>
      free ← gets (fun s => let c := bio_cache s in
        walk (bc_prev c) HEAD
          (fun i => let b := bc_bufs c !!! i in
             (b_refcnt b =? 0) && (Z.land (b_flags b) B_DIRTY =? 0))
          (bc_prev c !!! HEAD) (S HEAD));
      match free with
      | Some (Some i) =>
          bufmod i (fun b => b <| b_dev := dev |> <| b_blockno := blockno |>
                               <| b_flags := 0 |> <| b_refcnt := 1 |>);;
          on_lock i (acquiresleep pid);;
          mret i
      | _ => panic "bget: no buffers"
      end
  end.

Definition bread (dev blockno : Z) : M bio nat :=
  i ← bget dev blockno;
  b ← bufget i;
  when (Z.land (b_flags b) B_VALID =? 0) (iderw i);;
  mret i.

Definition bwrite (i : nat) : M bio () :=
  held ← on_lock i holdingsleep;
  if negb held then panic "bwrite" else
  bufmod i (fun b => b <| b_flags := Z.lor (b_flags b) B_DIRTY |>);;
  iderw i.

Definition move_front (i : nat) (c : bcache) : bcache :=
  let '(nx, pv) := unlink (bc_next c) (bc_prev c) i in
  let '(nx, pv) := push_front nx pv HEAD i in
  c <| bc_next := nx |> <| bc_prev := pv |>.

Definition brelse (i : nat) : M bio () :=
  held ← on_lock i holdingsleep;
  if negb held then panic "brelse" else
  on_lock i releasesleep;;
  bufmod i (fun b => b <| b_refcnt := u32 (b_refcnt b - 1) |>);;
  b ← bufget i;
  when (b_refcnt b =? 0) (modify (fun s => s <| bio_cache := move_front i (bio_cache s) |>)).

(** The client's own stores into [b->data] and [b->flags]. *)
Definition bdata (i : nat) : M bio (list Z) := b ← bufget i; mret (b_data b).
Definition set_data (i : nat) (d : list Z) : M bio () := bufmod i (fun b => b <| b_data := d |>).
Definition set_dirty (i : nat) : M bio () :=
  bufmod i (fun b => b <| b_flags := Z.lor (b_flags b) B_DIRTY |>).

(** ** The abstract cache *)

Record centry := mk_centry {
  ce_idx : nat; ce_held : bool; ce_dirty : bool; ce_data : list Z
}.
#[export] Instance eta_centry : Settable centry := fun e =>
  mk_centry (ce_idx e) (ce_held e) (ce_dirty e) (ce_data e).

Definition is_dirty (b : buf) : bool := negb (Z.land (b_flags b) B_DIRTY =? 0).
Definition is_held (b : buf) : bool := sl_locked (b_lock b).
Definition is_pinned (b : buf) : bool := is_held b || is_dirty b.
Definition entry_of (i : nat) (b : buf) : centry :=
  mk_centry i (is_held b) (is_dirty b) (b_data b).

Definition pins (l : list buf) (P : gmap Z centry) : Prop :=
  forall b e, P !! b = Some e <->
    exists bf, l !! ce_idx e = Some bf /\ b_dev bf = ROOTDEV /\ b_blockno bf = b /\
               is_pinned bf = true /\ e = entry_of (ce_idx e) bf.

Definition uniq (l : list buf) : Prop :=
  forall i j bi bj, l !! i = Some bi -> l !! j = Some bj ->
    b_dev bi = ROOTDEV -> b_dev bj = ROOTDEV -> b_blockno bi = b_blockno bj -> i = j.

(** A buffer at rest: unused since boot, or holding a block of the root
    device, referenced exactly while it is locked. *)
Definition buf_ok (d : memdisk) (b : buf) : Prop :=
  block_ok (b_data b) /\
  ((b_dev b = 0 /\ b_flags b = 0 /\ b_refcnt b = 0 /\ is_held b = false) \/
   (b_dev b = ROOTDEV /\ 0 <= b_blockno b < d_size d /\
    (b_flags b = B_VALID \/ b_flags b = Z.lor B_VALID B_DIRTY) /\
    b_refcnt b = (if is_held b then 1 else 0) /\
    (is_pinned b = false -> b_data b = d_data d (b_blockno b)))).

Definition ring_ok (c : bcache) : Prop :=
  length (bc_next c) = S HEAD /\ length (bc_prev c) = S HEAD /\
  exists l, ring (bc_next c) (bc_prev c) HEAD l /\ l ≡ₚ seq 0 HEAD.

Definition disk_ok (d : memdisk) : Prop :=
  0 <= d_size d < 2 ^ 32 /\ forall b, 0 <= b < d_size d -> block_ok (d_data d b).

Record bio_rep (s : bio) (P : gmap Z centry) : Prop := {
  rep_len : length (bufs s) = HEAD;
  rep_ring : ring_ok (bio_cache s);
  rep_uniq : uniq (bufs s);
  rep_bufs : Forall (buf_ok (bio_disk s)) (bufs s);
  rep_pins : pins (bufs s) P;
  rep_disk : disk_ok (bio_disk s)
}.

(** What a client sees of block [b]. *)
Definition aview (d : memdisk) (P : gmap Z centry) (b : Z) : list Z :=
  match P !! b with Some e => ce_data e | None => d_data d b end.

(** ** Single-buffer updates *)

Lemma bufs_with_buf i b s : bufs (with_buf i b s) = <[i := b]> (bufs s).
Proof. done. Qed.

Lemma with_buf_twice i b b' s : with_buf i b' (with_buf i b s) = with_buf i b' s.
Proof. unfold with_buf, bufs. simpl. by rewrite list_insert_insert_eq. Qed.

Lemma lookup_with_buf i b b0 s : bufs s !! i = Some b0 -> bufs (with_buf i b s) !! i = Some b.
Proof. intros H. apply list_lookup_insert_eq. by apply lookup_lt_Some in H. Qed.

Lemma upd_buf_at i b f s : bufs s !! i = Some b -> upd_buf i f s = with_buf i (f b) s.
Proof. intros H. unfold upd_buf. by rewrite (list_lookup_total_correct _ _ _ H). Qed.

Lemma wp_bufget i b s Q : bufs s !! i = Some b -> Q b s -> wp (bufget i) s Q.
Proof. intros H HQ. apply wp_gets. by rewrite (list_lookup_total_correct _ _ _ H). Qed.

Lemma wp_bufmod i b f s Q : bufs s !! i = Some b -> Q () (with_buf i (f b) s) -> wp (bufmod i f) s Q.
Proof. intros H HQ. apply wp_modify. by rewrite (upd_buf_at _ _ _ _ H). Qed.

Lemma wp_on_lock {A} i b (m : M sleeplock A) s Q :
  bufs s !! i = Some b ->
  wp m (b_lock b) (fun a lk => Q a (with_buf i (b <| b_lock := lk |>) s)) ->
  wp (on_lock i m) s Q.
Proof.
  intros H Hm. apply wp_zoom. rewrite (list_lookup_total_correct _ _ _ H).
  eapply wp_conseq; [exact Hm|]. intros a lk HQ. simpl. by rewrite (upd_buf_at _ _ _ _ H).
Qed.

Lemma with_buf_same i b s : bufs s !! i = Some b -> with_buf i b s = s.
Proof.
  intros H. unfold with_buf. rewrite list_insert_id by done.
  destruct s as [[] ? ?]. reflexivity.
Qed.

(** [holdingsleep(&b->lock)] only reads. *)
Lemma wp_holding i b s Q :
  bufs s !! i = Some b -> Q (is_held b) s -> wp (on_lock i holdingsleep) s Q.
Proof.
  intros H HQ. eapply wp_on_lock; [exact H|]. apply wp_gets.
  replace (b <| b_lock := b_lock b |>) with b by (by destruct b). by rewrite with_buf_same.
Qed.

(** ** Representation updates *)

Definition no_other (l : list buf) (i : nat) (blk : Z) : Prop :=
  forall j bj, j <> i -> l !! j = Some bj -> b_dev bj = ROOTDEV -> b_blockno bj <> blk.

Lemma uniq_no_other l i b : uniq l -> l !! i = Some b -> b_dev b = ROOTDEV -> no_other l i (b_blockno b).
Proof. intros Hu Hi Hd j bj Hj Hl Hr He. apply Hj. by eapply Hu. Qed.

Lemma uniq_insert l i b' :
  uniq l -> no_other l i (b_blockno b') -> uniq (<[i := b']> l).
Proof.
  intros Hu Hno j k bj bk Hj Hk Hdj Hdk He.
  apply list_lookup_insert_Some in Hj as [(<- & <- & Hlt)|[Hne Hj]];
  apply list_lookup_insert_Some in Hk as [(<- & <- & Hlt')|[Hne' Hk]]; auto.
  - by destruct (Hno k bk).
  - by destruct (Hno j bj).
  - by eapply Hu.
Qed.

Definition pins_upd (P : gmap Z centry) (i : nat) (b' : buf) : gmap Z centry :=
  if is_pinned b' then <[b_blockno b' := entry_of i b']> P else delete (b_blockno b') P.

Lemma pins_insert l P i b b' :
  pins l P -> l !! i = Some b -> b_dev b' = ROOTDEV -> no_other l i (b_blockno b') ->
  (is_pinned b = true -> b_dev b = ROOTDEV -> b_blockno b = b_blockno b') ->
  pins (<[i := b']> l) (pins_upd P i b').
Proof.
  intros Hp Hi Hd Hno Hold blk e.
  assert (Hlt : (i < length l)%nat) by by apply lookup_lt_Some in Hi.
  assert (Hne : blk <> b_blockno b' ->
    (P !! blk = Some e <-> exists bf, <[i := b']> l !! ce_idx e = Some bf /\ b_dev bf = ROOTDEV /\
      b_blockno bf = blk /\ is_pinned bf = true /\ e = entry_of (ce_idx e) bf)).
  { intros Hb. rewrite (Hp blk e). split; intros (bf & H1 & H2 & H3 & H4 & H5); exists bf.
    - rewrite list_lookup_insert_ne; [by repeat split|]. intros ->. simplify_eq. auto.
    - apply list_lookup_insert_Some in H1 as [(-> & -> & _)|[_ H1]]; [congruence|by repeat split]. }
  assert (Heq : is_pinned b' = false -> forall bf, <[i := b']> l !! ce_idx e = Some bf ->
    b_dev bf = ROOTDEV -> b_blockno bf = b_blockno b' -> is_pinned bf = true -> False).
  { intros Hn bf H1 H2 H3 H4.
    apply list_lookup_insert_Some in H1 as [(_ & <- & _)|[H0 H1]]; [congruence|]. by eapply Hno. }
  unfold pins_upd. destruct (is_pinned b') eqn:Hpin; destruct (decide (blk = b_blockno b')) as [->|Hb].
  - rewrite lookup_insert_eq. split.
    + intros [= <-]. exists b'. simpl. rewrite list_lookup_insert_eq by done. by repeat split.
    + intros (bf & H1 & H2 & H3 & H4 & H5). f_equal.
      apply list_lookup_insert_Some in H1 as [(Hi' & <- & _)|[H0 H1]]; [congruence|].
      exfalso. by eapply Hno.
  - rewrite lookup_insert_ne by done. by apply Hne.
  - rewrite lookup_delete_eq. split; [done|]. intros (bf & H1 & H2 & H3 & H4 & H5).
    exfalso. by eapply Heq.
  - rewrite lookup_delete_ne by done. by apply Hne.
Qed.

Lemma buf_ok_disk d d' b :
  buf_ok d b -> d_size d' = d_size d ->
  (b_dev b = ROOTDEV -> d_data d' (b_blockno b) = d_data d (b_blockno b)) -> buf_ok d' b.
Proof.
  intros [Hb H] Hs He. split; [done|]. destruct H as [H|(H1 & H2 & H3 & H4 & H5)]; [by left|right].
  rewrite Hs, He by done. auto 10.
Qed.

(** Replace buffer [i] by [b'], possibly with a new content of its disk block. *)
Lemma rep_update s P i b b' d' :
  bio_rep s P -> bufs s !! i = Some b -> buf_ok d' b' -> b_dev b' = ROOTDEV ->
  no_other (bufs s) i (b_blockno b') ->
  (is_pinned b = true -> b_dev b = ROOTDEV -> b_blockno b = b_blockno b') ->
  d_size d' = d_size (bio_disk s) -> disk_ok d' ->
  (forall k, k <> b_blockno b' -> d_data d' k = d_data (bio_disk s) k) ->
  bio_rep (with_buf i b' (s <| bio_disk := d' |>)) (pins_upd P i b').
Proof.
  intros [Hl Hr Hu Hb Hp Hd] Hi Hok Hdev Hno Hold Hsz Hdk Hsame.
  split; simpl; try done.
  - rewrite bufs_with_buf, length_insert. done.
  - by apply uniq_insert.
  - apply Forall_lookup. intros j bj Hj.
    apply list_lookup_insert_Some in Hj as [(<- & <- & _)|[Hne Hj]]; [done|].
    eapply Forall_lookup in Hb as Hbj; [|exact Hj].
    eapply buf_ok_disk; [exact Hbj|done|]. intros Hroot. apply Hsame. by eapply Hno.
  - by eapply pins_insert.
Qed.

Lemma rep_update_same s P i b b' :
  bio_rep s P -> bufs s !! i = Some b -> b_dev b = ROOTDEV ->
  buf_ok (bio_disk s) b' -> b_dev b' = b_dev b -> b_blockno b' = b_blockno b ->
  bio_rep (with_buf i b' s) (pins_upd P i b').
Proof.
  intros Hr Hi Hd Hok Hd' Hb'.
  pose proof (rep_update s P i b b' (bio_disk s) Hr Hi Hok) as H.
  replace (s <| bio_disk := bio_disk s |>) with s in H by (by destruct s).
  apply H; try done; try congruence; [|apply Hr].
  rewrite Hb'. by apply uniq_no_other; [apply Hr|..].
Qed.

(** The buffer behind a pinned block. *)
Lemma rep_lookup s P blk e :
  bio_rep s P -> P !! blk = Some e ->
  exists b, bufs s !! ce_idx e = Some b /\ b_dev b = ROOTDEV /\ b_blockno b = blk /\
    buf_ok (bio_disk s) b /\ ce_held e = is_held b /\ ce_dirty e = is_dirty b /\ ce_data e = b_data b /\
    0 <= blk < d_size (bio_disk s).
Proof.
  intros Hr HP. apply (rep_pins _ _ Hr) in HP as (b & H1 & H2 & H3 & H4 & H5).
  pose proof (rep_bufs _ _ Hr) as Hb. eapply Forall_lookup in Hb; [|exact H1].
  exists b. rewrite H5. simpl. do 3 (split; [done|]). split; [done|]. do 3 (split; [done|]).
  destruct Hb as [_ [(? & _)|(_ & ? & _)]]; [|by subst]. unfold ROOTDEV in H2. congruence.
Qed.

Lemma rep_pinned s P blk e :
  bio_rep s P -> P !! blk = Some e -> ce_held e || ce_dirty e = true.
Proof. intros Hr HP. apply (rep_pins _ _ Hr) in HP as (b & _ & _ & _ & H & ->). exact H. Qed.

(** A held buffer of the root device, opened up. *)
Lemma held_ok d b :
  buf_ok d b -> b_dev b = ROOTDEV -> is_held b = true ->
  block_ok (b_data b) /\ 0 <= b_blockno b < d_size d /\ b_refcnt b = 1 /\
  (b_flags b = B_VALID \/ b_flags b = Z.lor B_VALID B_DIRTY).
Proof.
  intros [Hd [(H & _)|(_ & H2 & H3 & H4 & _)]] Hr Hh; [unfold ROOTDEV in Hr; congruence|].
  rewrite Hh in H4. auto.
Qed.

Lemma held_intro d b :
  b_dev b = ROOTDEV -> is_held b = true -> block_ok (b_data b) -> 0 <= b_blockno b < d_size d ->
  b_refcnt b = 1 -> (b_flags b = B_VALID \/ b_flags b = Z.lor B_VALID B_DIRTY) -> buf_ok d b.
Proof.
  intros Hr Hh Hd Hs Hc Hf. split; [done|]. right. unfold is_pinned. rewrite Hh, Hc.
  do 4 (split; [done|]). done.
Qed.

Lemma pins_upd_held P i b e :
  is_held b = true -> entry_of i b = e -> pins_upd P i b = <[b_blockno b := e]> P.
Proof. intros Hh <-. unfold pins_upd, is_pinned. by rewrite Hh. Qed.

Definition same_disk (s s' : bio) : Prop := bio_disk s' = bio_disk s /\ bio_pid s' = bio_pid s.

Lemma wp_bdata s P blk e i Q :
  bio_rep s P -> P !! blk = Some e -> ce_idx e = i -> Q (ce_data e) s -> wp (bdata i) s Q.
Proof.
  intros Hr HP <- HQ. destruct (rep_lookup _ _ _ _ Hr HP) as (b & Hi & _ & _ & _ & _ & _ & He & _).
  unfold bdata. wp_step. eapply wp_bufget; [exact Hi|]. wp_step. by rewrite <- He.
Qed.

Lemma wp_set_data s P blk e i d Q :
  bio_rep s P -> P !! blk = Some e -> ce_idx e = i -> ce_held e = true -> block_ok d ->
  (forall s', bio_rep s' (<[blk := e <| ce_data := d |>]> P) -> same_disk s s' -> Q () s') ->
  wp (set_data i d) s Q.
Proof.
  intros Hr HP <- Hh Hd HQ. destruct (rep_lookup _ _ _ _ Hr HP) as (b & Hi & Hdv & Hb & Hok & H1 & H2 & H3 & _).
  rewrite H1 in Hh. destruct (held_ok _ _ Hok Hdv Hh) as (_ & K2 & K3 & K4).
  eapply wp_bufmod; [exact Hi|]. apply HQ; [|done].
  assert (Hok' : buf_ok (bio_disk s) (b <| b_data := d |>)) by by apply held_intro.
  pose proof (rep_update_same s P (ce_idx e) b _ Hr Hi Hdv Hok' eq_refl eq_refl) as H.
  rewrite (pins_upd_held _ _ _ (e <| ce_data := d |>)) in H.
  - simpl in H. by rewrite Hb in H.
  - done.
  - unfold entry_of. destruct e; simpl in *. by subst.
Qed.

Lemma wp_set_dirty s P blk e i Q :
  bio_rep s P -> P !! blk = Some e -> ce_idx e = i -> ce_held e = true ->
  (forall s', bio_rep s' (<[blk := e <| ce_dirty := true |>]> P) -> same_disk s s' -> Q () s') ->
  wp (set_dirty i) s Q.
Proof.
  intros Hr HP <- Hh HQ. destruct (rep_lookup _ _ _ _ Hr HP) as (b & Hi & Hdv & Hb & Hok & H1 & H2 & H3 & _).
  rewrite H1 in Hh. destruct (held_ok _ _ Hok Hdv Hh) as (K1 & K2 & K3 & K4).
  eapply wp_bufmod; [exact Hi|]. apply HQ; [|done].
  assert (Hf : Z.lor (b_flags b) B_DIRTY = Z.lor B_VALID B_DIRTY) by (by destruct K4 as [-> | ->]).
  rewrite Hf. set (b' := b <| b_flags := _ |>).
  assert (Hok' : buf_ok (bio_disk s) b') by (apply held_intro; auto).
  pose proof (rep_update_same s P (ce_idx e) b _ Hr Hi Hdv Hok' eq_refl eq_refl) as H.
  rewrite (pins_upd_held _ _ _ (e <| ce_dirty := true |>)) in H.
  - simpl in H. by rewrite Hb in H.
  - done.
  - unfold entry_of. destruct e; simpl in *. by subst.
Qed.

(** [iderw] on a locked buffer that is dirty writes it to the disk. *)
Lemma wp_iderw_write s i b Q :
  bufs s !! i = Some b -> is_held b = true -> b_dev b = ROOTDEV ->
  b_flags b = Z.lor B_VALID B_DIRTY -> 0 <= b_blockno b < d_size (bio_disk s) ->
  Q () (with_buf i (b <| b_flags := B_VALID |>)
          (s <| bio_disk := disk_write (bio_disk s) (b_blockno b) (b_data b) |>)) ->
  wp (iderw i) s Q.
Proof.
  intros Hi Hh Hd Hf Hs HQ. unfold iderw. wp_step. eapply wp_holding; [exact Hi|].
  rewrite Hh. simpl negb. cbv iota. wp_step. eapply wp_bufget; [exact Hi|].
  rewrite Hf, Hd. simpl. wp_steps. destruct (Z.leb_spec (d_size (bio_disk s)) (b_blockno b)); [lia|].
  wp_step. wp_step. eapply wp_bufmod; [exact Hi|]. wp_step.
  eapply wp_bufmod; [by apply (lookup_with_buf _ _ b)|].
  match goal with |- Q _ ?x => match goal with H : Q _ ?y |- _ => replace x with y; [done|] end end.
  rewrite Hf. unfold with_buf, bufs. simpl. by rewrite list_insert_insert_eq.
Qed.

(** [iderw] on a locked buffer with no flags reads the disk block into it. *)
Lemma wp_iderw_read s i b Q :
  bufs s !! i = Some b -> is_held b = true -> b_dev b = ROOTDEV ->
  b_flags b = 0 -> 0 <= b_blockno b < d_size (bio_disk s) ->
  Q () (with_buf i (b <| b_data := d_data (bio_disk s) (b_blockno b) |> <| b_flags := B_VALID |>) s) ->
  wp (iderw i) s Q.
Proof.
  intros Hi Hh Hd Hf Hs HQ. unfold iderw. wp_step. eapply wp_holding; [exact Hi|].
  rewrite Hh. simpl negb. cbv iota. wp_step. eapply wp_bufget; [exact Hi|].
  rewrite Hf, Hd. simpl. wp_steps. destruct (Z.leb_spec (d_size (bio_disk s)) (b_blockno b)); [lia|].
  wp_step. wp_step. wp_step. eapply wp_bufmod; [exact Hi|].
  eapply wp_bufmod; [by apply (lookup_with_buf _ _ b)|].
  rewrite with_buf_twice. simpl. by rewrite Hf.
Qed.

Lemma disk_write_ok d b data :
  disk_ok d -> 0 <= b < d_size d -> block_ok data -> disk_ok (disk_write d b data).
Proof.
  intros [Hs Hd] Hb Hk. split; [done|]. simpl. intros k Hk'. unfold upd.
  destruct (k =? b); auto.
Qed.

Lemma wp_bwrite s P blk e i Q :
  bio_rep s P -> P !! blk = Some e -> ce_idx e = i -> ce_held e = true ->
  (forall s', bio_rep s' (<[blk := e <| ce_dirty := false |>]> P) ->
     bio_disk s' = disk_write (bio_disk s) blk (ce_data e) -> bio_pid s' = bio_pid s -> Q () s') ->
  wp (bwrite i) s Q.
Proof.
  intros Hr HP <- Hh HQ. destruct (rep_lookup _ _ _ _ Hr HP) as (b & Hi & Hdv & Hb & Hok & H1 & H2 & H3 & Hsz).
  rewrite H1 in Hh. destruct (held_ok _ _ Hok Hdv Hh) as (K1 & K2 & K3 & K4).
  unfold bwrite. wp_step. eapply wp_holding; [exact Hi|]. rewrite Hh. simpl negb. cbv iota.
  wp_step. eapply wp_bufmod; [exact Hi|].
  assert (Hf : Z.lor (b_flags b) B_DIRTY = Z.lor B_VALID B_DIRTY) by (by destruct K4 as [-> | ->]).
  eapply wp_iderw_write; [by eapply lookup_with_buf|done|done|done|done|].
  set (d' := disk_write _ _ _).
  apply HQ; [|by subst d'; simpl; rewrite Hb, H3|done].
  match goal with |- bio_rep ?x _ => replace x with (with_buf (ce_idx e) (b <| b_flags := B_VALID |>) (s <| bio_disk := d' |>)) end.
  2: { unfold with_buf, bufs. simpl. by rewrite list_insert_insert_eq. }
  assert (Hok' : buf_ok d' (b <| b_flags := B_VALID |>)) by (apply held_intro; auto).
  pose proof (rep_update s P (ce_idx e) b _ d' Hr Hi Hok' Hdv) as H.
  rewrite (pins_upd_held _ _ _ (e <| ce_dirty := false |>)) in H.
  - simpl in H. rewrite Hb in H. apply H; try done.
    + rewrite <- Hb. by apply uniq_no_other; [apply Hr|..].
    + simpl. by apply disk_write_ok; [apply Hr|..].
    + intros k Hk. simpl. rewrite upd_ne; congruence.
  - done.
  - unfold entry_of. destruct e; simpl in *. by subst.
Qed.

(** Reordering the LRU list does not touch the buffers. *)
Lemma rep_reorder s P c :
  bio_rep s P -> bc_bufs c = bufs s -> ring_ok c -> bio_rep (s <| bio_cache := c |>) P.
Proof.
  intros [Hl Hr Hu Hb Hp Hd] Hc Hring. split; unfold bufs in *; simpl; rewrite ?Hc; done.
Qed.

Lemma move_front_ok c i : ring_ok c -> (i < HEAD)%nat -> ring_ok (move_front i c) /\ bc_bufs (move_front i c) = bc_bufs c.
Proof.
  intros (Hn & Hp & l & Hring & Hperm) Hi. unfold move_front.
  assert (Hin : i ∈ l) by (rewrite Hperm; apply elem_of_seq; lia).
  apply list_elem_of_split in Hin as (l1 & l2 & ->).
  pose proof (ring_unlink _ _ _ _ _ _ Hring) as Hun.
  destruct (unlink (bc_next c) (bc_prev c) i) as [nx pv] eqn:E.
  assert (length nx = S HEAD /\ length pv = S HEAD) as [Hnx Hpv].
  { unfold unlink in E. simplify_eq. by rewrite !length_insert. }
  assert (Hni : i ∉ HEAD :: l1 ++ l2).
  { destruct Hring as [_ Hnd]. rewrite <- Permutation_middle, Permutation_swap in Hnd.
    by apply NoDup_cons in Hnd as [? _]. }
  pose proof (ring_push_front nx pv HEAD (l1 ++ l2) i Hun Hni ltac:(lia) ltac:(lia)) as Hpu.
  destruct (push_front nx pv HEAD i) as [nx' pv'] eqn:E'.
  split; [|done]. unfold push_front in E'. simplify_eq. unfold ring_ok. simpl. rewrite !length_insert.
  split; [done|]. split; [done|]. exists (i :: l1 ++ l2). split; [done|].
  by rewrite <- Hperm, Permutation_middle.
Qed.

Lemma wp_brelse s P blk e i Q :
  bio_rep s P -> P !! blk = Some e -> ce_idx e = i -> ce_held e = true ->
  (ce_dirty e = false -> ce_data e = d_data (bio_disk s) blk) ->
  (forall s', bio_rep s' (if ce_dirty e then <[blk := e <| ce_held := false |>]> P else delete blk P) ->
     same_disk s s' -> Q () s') ->
  wp (brelse i) s Q.
Proof.
  intros Hr HP <- Hh Hcl HQ. destruct (rep_lookup _ _ _ _ Hr HP) as (b & Hi & Hdv & Hb & Hok & H1 & H2 & H3 & Hsz).
  rewrite H1 in Hh. destruct (held_ok _ _ Hok Hdv Hh) as (K1 & K2 & K3 & K4).
  unfold brelse. wp_step. eapply wp_holding; [exact Hi|]. rewrite Hh. simpl negb. cbv iota.
  wp_step. eapply wp_on_lock; [exact Hi|]. apply wp_modify.
  wp_step. eapply wp_bufmod; [by eapply lookup_with_buf|]. rewrite with_buf_twice.
  wp_step. eapply wp_bufget; [by eapply lookup_with_buf|]. simpl. rewrite K3. simpl.
  set (b' := set_field _ _). apply wp_modify.
  assert (Hok' : buf_ok (bio_disk s) b').
  { split; [done|]. right. split; [done|]. split; [done|]. split; [done|]. split; [done|].
    unfold is_pinned. simpl. rewrite <- H3, Hb. intros Hd. apply Hcl. by rewrite H2. }
  pose proof (rep_update_same s P (ce_idx e) b b' Hr Hi Hdv Hok' eq_refl eq_refl) as Hr'.
  destruct (move_front_ok (bio_cache (with_buf (ce_idx e) b' s)) (ce_idx e)) as [Hm1 Hm2].
  { apply Hr'. } { rewrite <- (rep_len _ _ Hr). by apply lookup_lt_Some in Hi. }
  apply HQ; [|done]. apply rep_reorder; [|done|done].
  assert (Hpu : pins_upd P (ce_idx e) b' =
    if ce_dirty e then <[blk := e <| ce_held := false |>]> P else delete blk P); [|by rewrite <- Hpu].
  unfold pins_upd, is_pinned. change (is_held b') with false. change (is_dirty b') with (is_dirty b).
  change (b_blockno b') with (b_blockno b). rewrite <- H2, Hb. simpl.
  destruct (ce_dirty e) eqn:He; [|done]. f_equal. unfold entry_of.
  change (is_dirty b') with (is_dirty b). rewrite <- H2. destruct e; simpl in *. by subst.
Qed.

(** ** Reading a block *)

Lemma find_Some_elem (f : nat -> bool) l i : find f l = Some i -> i ∈ l /\ f i = true.
Proof. intros [H1 H2]%find_some. by rewrite list_elem_of_In. Qed.

Lemma find_None_elem (f : nat -> bool) l i : find f l = None -> i ∈ l -> f i = false.
Proof. intros H Hi. eapply find_none; [exact H|]. by apply list_elem_of_In. Qed.

Lemma rep_index s P i : bio_rep s P -> (i < HEAD)%nat -> exists b, bufs s !! i = Some b /\ bufs s !!! i = b /\ buf_ok (bio_disk s) b.
Proof.
  intros Hr Hi. rewrite <- (rep_len _ _ Hr) in Hi. destruct (lookup_lt_is_Some_2 _ _ Hi) as [b Hb].
  exists b. split; [done|]. split; [by apply list_lookup_total_correct|].
  pose proof (rep_bufs _ _ Hr) as H. by eapply Forall_lookup in H.
Qed.

(** An unpinned buffer of the root device shows that its block is not pinned. *)
Lemma pins_None s P i b :
  bio_rep s P -> bufs s !! i = Some b -> b_dev b = ROOTDEV -> is_pinned b = false ->
  P !! b_blockno b = None.
Proof.
  intros Hr Hi Hd Hn. destruct (P !! b_blockno b) as [e|] eqn:HP; [|done].
  apply (rep_pins _ _ Hr) in HP as (b2 & H1 & H2 & H3 & H4 & _).
  assert (ce_idx e = i) by (by eapply (rep_uniq _ _ Hr)). subst. congruence.
Qed.

Lemma pins_Some s P i b :
  bio_rep s P -> bufs s !! i = Some b -> b_dev b = ROOTDEV -> is_pinned b = true ->
  P !! b_blockno b = Some (entry_of i b).
Proof. intros Hr Hi Hd Hn. apply (rep_pins _ _ Hr). exists b. by repeat split. Qed.

(** Fewer than [NBUF] pinned blocks leave a buffer to recycle. *)
Lemma free_buffer s P :
  bio_rep s P -> (size P < HEAD)%nat ->
  exists i b, bufs s !! i = Some b /\ b_refcnt b = 0 /\ is_dirty b = false.
Proof.
  intros Hr Hsz.
  destruct (decide (Exists (fun b => b_refcnt b = 0 /\ is_dirty b = false) (bufs s))) as [Hex|Hno].
  { apply Exists_exists in Hex as (b & Hin & H1 & H2).
    apply list_elem_of_lookup in Hin as [i Hi]. by exists i, b. }
  exfalso. set (l := ce_idx <$> (map_to_list P).*2).
  assert (Hsub : seq 0 HEAD ⊆+ l).
  { apply NoDup_submseteq; [apply NoDup_seq|]. intros i Hi. apply elem_of_seq in Hi.
    destruct (rep_index s P i Hr ltac:(lia)) as (b & Hb & _ & Hok).
    assert (is_pinned b = true /\ b_dev b = ROOTDEV) as [Hpin Hd].
    { assert (~ (b_refcnt b = 0 /\ is_dirty b = false)).
      { intros H. apply Hno, Exists_exists. exists b. split; [|done]. by apply list_elem_of_lookup_2 in Hb. }
      destruct Hok as [_ [(H1 & H2 & H3 & H4)|(H1 & _ & _ & H4 & _)]].
      - exfalso. apply H. split; [done|]. unfold is_dirty. by rewrite H2.
      - split; [|done]. unfold is_pinned. destruct (is_held b); [done|].
        destruct (is_dirty b) eqn:E; [done|]. exfalso. by apply H. }
    pose proof (pins_Some s P i b Hr Hb Hd Hpin) as HP.
    apply list_elem_of_fmap. exists (entry_of i b). split; [done|].
    apply list_elem_of_fmap. exists (b_blockno b, entry_of i b). split; [done|].
    by apply elem_of_map_to_list. }
  apply submseteq_length in Hsub. subst l. rewrite !length_fmap, length_seq in Hsub.
  rewrite length_map_to_list in Hsub. lia.
Qed.

Definition bread_entry (d : memdisk) (P : gmap Z centry) (blk : Z) (i : nat) : centry :=
  mk_centry i true (match P !! blk with Some e => ce_dirty e | None => false end) (aview d P blk).

Lemma wp_bget_hit s P blk i b Q :
  bio_rep s P -> bufs s !! i = Some b -> b_dev b = ROOTDEV -> b_blockno b = blk -> is_held b = false ->
  (forall s', bio_rep s' (<[blk := bread_entry (bio_disk s) P blk i]> P) -> same_disk s s' ->
     bufs s' !! i = Some (b <| b_refcnt := 1 |> <| b_lock := mk_sleeplock true (bio_pid s) |>) -> Q i s') ->
  wp (bufmod i (fun b => b <| b_refcnt := u32 (b_refcnt b + 1) |>);;
      on_lock i (acquiresleep (bio_pid s));; mret i) s Q.
Proof.
  intros Hr Hi Hd Hb Hh HQ. destruct (rep_index s P i Hr) as (b2 & Hb2 & _ & Hok).
  { rewrite <- (rep_len _ _ Hr). by apply lookup_lt_Some in Hi. }
  simplify_eq. destruct Hok as [Hk [(H0 & _)|(_ & K2 & K3 & K4 & K5)]]; [unfold ROOTDEV in Hd; congruence|].
  rewrite Hh in K4. wp_step. eapply wp_bufmod; [exact Hi|]. rewrite K4. change (u32 (0 + 1)) with 1.
  wp_step. eapply wp_on_lock; [by eapply lookup_with_buf|].
  eapply wp_intro; [by apply acquiresleep_free|]. rewrite with_buf_twice. wp_step.
  set (b' := set_field _ _). apply HQ; [|done|by eapply lookup_with_buf].
  assert (Hok' : buf_ok (bio_disk s) b') by by apply held_intro.
  pose proof (rep_update_same s P i b b' Hr Hi Hd Hok' eq_refl eq_refl) as H.
  rewrite (pins_upd_held _ _ _ (bread_entry (bio_disk s) P (b_blockno b) i)) in H; [done|done|].
  unfold bread_entry, aview, entry_of. change (is_dirty b') with (is_dirty b). simpl.
  destruct (is_dirty b) eqn:E.
  - rewrite (pins_Some s P i b); unfold is_pinned; rewrite ?Hh, ?E; try done.
    simpl. by rewrite E.
  - rewrite (pins_None s P i b); unfold is_pinned; rewrite ?Hh, ?E; try done.
    f_equal. apply K5. unfold is_pinned. by rewrite Hh, E.
Qed.

(** Recycling buffer [i] for block [blk] and filling it from the disk. *)
Lemma wp_bread_recycle s P blk i b Q :
  bio_rep s P -> bufs s !! i = Some b -> b_refcnt b = 0 -> is_dirty b = false ->
  0 <= blk < d_size (bio_disk s) ->
  (forall j bj, bufs s !! j = Some bj -> b_dev bj = ROOTDEV -> b_blockno bj <> blk) ->
  P !! blk = None ->
  (forall s', bio_rep s' (<[blk := bread_entry (bio_disk s) P blk i]> P) -> same_disk s s' -> Q i s') ->
  wp ((bufmod i (fun b => b <| b_dev := ROOTDEV |> <| b_blockno := blk |>
                           <| b_flags := 0 |> <| b_refcnt := 1 |>);;
       on_lock i (acquiresleep (bio_pid s));; mret i) ≫= fun i =>
      b ← bufget i; when (Z.land (b_flags b) B_VALID =? 0) (iderw i);; mret i) s Q.
Proof.
  intros Hr Hi Hc Hdy Hblk Hno HP HQ.
  destruct (rep_index s P i Hr) as (b2 & Hb2 & _ & Hok).
  { rewrite <- (rep_len _ _ Hr). by apply lookup_lt_Some in Hi. }
  simplify_eq.
  assert (Hh : is_held b = false).
  { destruct Hok as [_ [(_ & _ & _ & ?)|(_ & _ & _ & H & _)]]; [done|].
    destruct (is_held b); [lia|done]. }
  wp_step. wp_step. eapply wp_bufmod; [exact Hi|]. wp_step.
  eapply wp_on_lock; [by eapply lookup_with_buf|].
  eapply wp_intro; [by apply acquiresleep_free|]. rewrite with_buf_twice. wp_step. wp_step.
  eapply wp_bufget; [by eapply lookup_with_buf|]. simpl. wp_step.
  eapply wp_iderw_read; [by eapply lookup_with_buf|done|done|done|done|].
  rewrite with_buf_twice. wp_step. set (b' := set_field _ _).
  apply HQ; [|done].
  assert (Hok' : buf_ok (bio_disk s) b').
  { apply held_intro; try done; [|by left]. by apply (rep_disk _ _ Hr). }
  pose proof (rep_update s P i b b' (bio_disk s) Hr Hi Hok' eq_refl) as H.
  replace (s <| bio_disk := bio_disk s |>) with s in H by (by destruct s).
  rewrite (pins_upd_held _ _ _ (bread_entry (bio_disk s) P blk i)) in H.
  - apply H; try done; [|unfold is_pinned; rewrite Hh, Hdy; done|apply Hr].
    intros j bj _ Hj Hd. by eapply Hno.
  - done.
  - unfold bread_entry, aview. rewrite HP. done.
Qed.

(** The two scans of [bget], as searches over the buffers themselves. *)
Lemma lru_scan s P (back : bool) (g : buf -> bool) :
  bio_rep s P ->
  let c := bio_cache s in
  let link := if back then bc_prev c else bc_next c in
  let r := walk link HEAD (fun i => g (bc_bufs c !!! i)) (link !!! HEAD) (S HEAD) in
  (exists i b, r = Some (Some i) /\ bufs s !! i = Some b /\ g b = true) \/
  (r = Some None /\ forall i b, bufs s !! i = Some b -> g b = false).
Proof.
  intros Hr. destruct (rep_ring _ _ Hr) as (_ & _ & l & Hring & Hperm). cbv zeta.
  assert (Hlen : length l = HEAD) by (by rewrite Hperm, length_seq).
  set (f := fun i : nat => g (bc_bufs (bio_cache s) !!! i)). set (l' := if back then reverse l else l).
  assert (Hin : forall j, j ∈ l' <-> (j < HEAD)%nat).
  { intros j. subst l'. destruct back; rewrite ?elem_of_reverse, Hperm, elem_of_seq; lia. }
  assert (Hw : walk (if back then bc_prev (bio_cache s) else bc_next (bio_cache s)) HEAD f
    ((if back then bc_prev (bio_cache s) else bc_next (bio_cache s)) !!! HEAD) (S HEAD) = Some (find f l')).
  { subst l'. destruct back; [eapply walk_ring_back|eapply walk_ring]; try exact Hring; lia. }
  rewrite Hw. destruct (find f l') as [i|] eqn:Hf.
  - left. apply find_Some_elem in Hf as [Hil Hfi]. apply Hin in Hil.
    destruct (rep_index s P i Hr Hil) as (b & Hb & Hbt & _). exists i, b.
    split; [done|]. split; [done|]. rewrite <- Hbt. exact Hfi.
  - right. split; [done|]. intros i b Hi.
    rewrite <- (list_lookup_total_correct _ _ _ Hi). apply (find_None_elem f l' i Hf).
    apply Hin. rewrite <- (rep_len _ _ Hr). by apply lookup_lt_Some in Hi.
Qed.

Lemma wp_bread s P blk Q :
  bio_rep s P -> 0 <= blk < d_size (bio_disk s) ->
  (forall e, P !! blk = Some e -> ce_held e = false) ->
  (is_Some (P !! blk) \/ (size P < HEAD)%nat) ->
  (forall i s', bio_rep s' (<[blk := bread_entry (bio_disk s) P blk i]> P) -> same_disk s s' -> Q i s') ->
  wp (bread ROOTDEV blk) s Q.
Proof.
  intros Hr Hblk Hnh Hroom HQ. unfold bread, bget. apply wp_bind.
  apply wp_bind, wp_gets, wp_bind, wp_gets.
  destruct (lru_scan s P false (fun b => (b_dev b =? ROOTDEV) && (b_blockno b =? blk)) Hr)
    as [(i & b & Hw & Hb & Hg)|[Hw Hno]]; cbv beta iota zeta in Hw |- *; rewrite Hw.
  - apply andb_true_iff in Hg as [Hd%Z.eqb_eq Hbk%Z.eqb_eq].
    assert (Hh : is_held b = false).
    { destruct (is_held b) eqn:E; [|done]. rewrite <- Hbk in Hnh.
      rewrite (pins_Some s P i b) in Hnh; try done; [|unfold is_pinned; by rewrite E].
      specialize (Hnh _ eq_refl). simpl in Hnh. congruence. }
    eapply wp_bget_hit; try done. intros s' Hr' Hsd Hi'.
    wp_step. eapply wp_bufget; [exact Hi'|]. simpl.
    pose proof (rep_bufs _ _ Hr) as Hok. eapply Forall_lookup in Hok; [|exact Hb].
    destruct Hok as [_ [(H0 & _)|(_ & _ & K3 & _)]]; [unfold ROOTDEV in Hd; congruence|].
    replace (Z.land (b_flags b) B_VALID =? 0) with false by (by destruct K3 as [-> | ->]).
    wp_step. apply wp_ret. wp_step. by apply HQ.
  - assert (Hno' : forall j bj, bufs s !! j = Some bj -> b_dev bj = ROOTDEV -> b_blockno bj <> blk).
    { intros j bj Hj Hd Hbk. specialize (Hno j bj Hj). by rewrite Hd, Hbk, !Z.eqb_refl in Hno. }
    assert (HP : P !! blk = None).
    { destruct (P !! blk) as [e|] eqn:E; [|done].
      destruct (rep_lookup _ _ _ _ Hr E) as (b & H1 & H2 & H3 & _). by destruct (Hno' _ _ H1 H2). }
    rewrite HP in Hroom. destruct Hroom as [[? ?]|Hroom]; [done|]. apply wp_bind, wp_gets.
    destruct (lru_scan s P true (fun b => (b_refcnt b =? 0) && (Z.land (b_flags b) B_DIRTY =? 0)) Hr)
      as [(i & b & Hw' & Hb & Hg)|[_ Hall]]; cbv beta iota zeta in *.
    + rewrite Hw'. apply andb_true_iff in Hg as [Hc%Z.eqb_eq Hdy].
      assert (is_dirty b = false) by (unfold is_dirty; by rewrite Hdy).
      apply wp_bind_inv, (wp_bread_recycle s P blk i b Q); auto.
    + exfalso. destruct (free_buffer s P Hr Hroom) as (i & b & Hi & Hc & Hdy).
      specialize (Hall i b Hi). rewrite Hc in Hall. unfold is_dirty in Hdy.
      by destruct (Z.land (b_flags b) B_DIRTY =? 0).
Qed.

(** ** Boot *)

(** The zero-initialised [bcache] of the kernel image. *)
Definition bss_cache : bcache :=
  mk_bcache (replicate HEAD inhabitant) (replicate (S HEAD) 0%nat) (replicate (S HEAD) 0%nat).

Definition boot_bio (d : memdisk) (pid : Z) : bio := mk_bio (binit bss_cache) d pid.

Lemma binit_bufs : bc_bufs (binit bss_cache) = replicate HEAD inhabitant.
Proof. vm_compute. reflexivity. Qed.

Lemma binit_ring :
  ring (bc_next (binit bss_cache)) (bc_prev (binit bss_cache)) HEAD (reverse (seq 0 HEAD)).
Proof.
  split; [vm_compute; repeat split|].
  apply NoDup_cons. rewrite elem_of_reverse, elem_of_seq. split; [lia|].
  rewrite reverse_Permutation. apply NoDup_seq.
Qed.

Lemma boot_bufs d pid : bufs (boot_bio d pid) = replicate HEAD inhabitant.
Proof. apply binit_bufs. Qed.

Lemma boot_rep d pid : disk_ok d -> bio_rep (boot_bio d pid) ∅.
Proof.
  intros Hd. split; rewrite ?boot_bufs; try done.
  - split; [by vm_compute|]. split; [by vm_compute|].
    exists (reverse (seq 0 HEAD)). split; [apply binit_ring|apply reverse_Permutation].
  - intros i j bi bj [-> _]%lookup_replicate _ Hd1. done.
  - apply Forall_replicate. split; [apply zero_block_ok|by left].
  - intros b e. rewrite lookup_empty. split; [done|].
    intros (bf & [-> _]%lookup_replicate & H & _). done.
Qed.

(** ** What the cache promises *)

(** [bread] of a block that is not locked, while fewer than [NBUF] blocks
    are pinned (locked or dirty), returns a locked, valid buffer whose data are
    the current contents of the block - the cached copy if the block is pinned,
    the disk's otherwise - without touching the disk, any pinned block or the
    consistency of the cache. *)
Theorem bread_correct s P blk :
  bio_rep s P -> 0 <= blk < d_size (bio_disk s) ->
  (forall e, P !! blk = Some e -> ce_held e = false) ->
  (is_Some (P !! blk) \/ (size P < HEAD)%nat) ->
  exists i s' b, bread ROOTDEV blk s = Ok i s' /\
    bufs s' !! i = Some b /\ b_dev b = ROOTDEV /\ b_blockno b = blk /\
    is_held b = true /\ negb (Z.land (b_flags b) B_VALID =? 0) = true /\
    b_data b = aview (bio_disk s) P blk /\
    bio_disk s' = bio_disk s /\
    bio_rep s' (<[blk := bread_entry (bio_disk s) P blk i]> P).
Proof.
  intros Hr Hb Hh Hroom.
  assert (H : wp (bread ROOTDEV blk) s (fun i s' =>
    bio_rep s' (<[blk := bread_entry (bio_disk s) P blk i]> P) /\ same_disk s s')).
  { eapply wp_bread; eauto. }
  apply wp_run in H as (i & s' & Hrun & Hr' & Hsd & _).
  destruct (rep_lookup s' _ blk (bread_entry (bio_disk s) P blk i) Hr') as
    (b & H1 & H2 & H3 & H4 & H5 & H6 & H7 & _).
  { apply lookup_insert_eq. }
  exists i, s', b. simpl in *.
  destruct (held_ok _ _ H4 H2 (eq_sym H5)) as (_ & _ & _ & Hf).
  split_and!; try done. by destruct Hf as [-> | ->].
Qed.

Definition demo_disk : memdisk := mk_memdisk 1000 (fun b => replicate 512 (b mod 256)) [].

Lemma demo_disk_ok : disk_ok demo_disk.
Proof.
  split; [simpl; lia|]. intros b Hb. cbn [d_data demo_disk].
  split; [apply length_replicate|]. apply Forall_replicate. apply Z.mod_pos_bound. lia.
Qed.

Lemma bread_correct_witness :
  exists i s' b, bread ROOTDEV 7 (boot_bio demo_disk 1) = Ok i s' /\
    bufs s' !! i = Some b /\ b_data b = replicate 512 7.
Proof.
  destruct (bread_correct (boot_bio demo_disk 1) ∅ 7) as (i & s' & b & H1 & H2 & _ & _ & _ & _ & H3 & _).
  - apply boot_rep, demo_disk_ok.
  - cbn [boot_bio bio_disk demo_disk d_size]. lia.
  - intros e He. by rewrite lookup_empty in He.
  - right. rewrite map_size_empty. vm_compute. lia.
  - exists i, s', b. split; [exact H1|]. split; [exact H2|exact H3].
Defined.

(** Read a block, change it, write it through and release it. *)
Definition write_block (blk : Z) (data : list Z) : M bio () :=
  i ← bread ROOTDEV blk;
  set_data i data;;
  bwrite i;;
  brelse i.

Lemma wp_write_block s P blk data Q :
  bio_rep s P -> 0 <= blk < d_size (bio_disk s) -> block_ok data ->
  P !! blk = None -> (size P < HEAD)%nat ->
  (forall s', bio_rep s' P -> bio_disk s' = disk_write (bio_disk s) blk data -> Q () s') ->
  wp (write_block blk data) s Q.
Proof.
  intros Hr Hb Hd HP Hsz HQ. unfold write_block. wp_step.
  eapply (wp_bread _ P); eauto; [congruence|]. intros i s1 Hr1 [Hd1 _].
  set (e := bread_entry _ _ _ _) in Hr1. wp_step.
  eapply (wp_set_data s1 _ blk e); [done|apply lookup_insert_eq|done|done|done|].
  intros s2 Hr2 [Hd2 _]. rewrite insert_insert_eq in Hr2. set (e2 := e <| ce_data := data |>) in Hr2.
  wp_step. eapply (wp_bwrite s2 _ blk e2); [done|apply lookup_insert_eq|done|done|].
  intros s3 Hr3 Hd3 _. rewrite insert_insert_eq in Hr3.
  eapply (wp_brelse s3 _ blk (e2 <| ce_dirty := false |>)); [done|apply lookup_insert_eq|done|done| |].
  - intros _. rewrite Hd3. simpl. by rewrite upd_eq.
  - intros s4 Hr4 [Hd4 _]. simpl in Hr4. rewrite delete_insert_id in Hr4 by done.
    apply HQ; [done|]. rewrite Hd4, Hd3, Hd2, Hd1. done.
Qed.

(** a block changed through [bread]/[bwrite]/[brelse] is durable: the
    disk performs exactly that one block write, every other block and every
    pinned block keeps its contents, and the cache stays consistent. *)
Theorem bwrite_durable s P blk data :
  bio_rep s P -> 0 <= blk < d_size (bio_disk s) -> block_ok data ->
  P !! blk = None -> (size P < HEAD)%nat ->
  exists s', write_block blk data s = Ok () s' /\ bio_rep s' P /\
    d_trace (bio_disk s') = (blk, data) :: d_trace (bio_disk s) /\
    aview (bio_disk s') P blk = data /\
    forall k, k <> blk -> aview (bio_disk s') P k = aview (bio_disk s) P k.
Proof.
  intros Hr Hb Hd HP Hsz.
  assert (H : wp (write_block blk data) s (fun _ s' => bio_rep s' P /\
    bio_disk s' = disk_write (bio_disk s) blk data)) by (eapply wp_write_block; eauto).
  apply wp_run in H as ([] & s' & Hrun & Hr' & Hd'). exists s'. rewrite Hd'. unfold aview. simpl.
  rewrite HP, upd_eq. split_and!; try done. intros k Hk. by rewrite upd_ne.
Qed.

Lemma bwrite_durable_witness :
  exists s', write_block 9 zero_block (boot_bio demo_disk 1) = Ok () s' /\
    d_trace (bio_disk s') = [(9, zero_block)].
Proof.
  destruct (bwrite_durable (boot_bio demo_disk 1) ∅ 9 zero_block) as (s' & H1 & _ & H2 & _).
  - apply boot_rep, demo_disk_ok.
  - cbn [boot_bio bio_disk demo_disk d_size]. lia.
  - apply zero_block_ok.
  - apply lookup_empty.
  - rewrite map_size_empty. vm_compute. lia.
  - exists s'. split; [exact H1|exact H2].
Defined.

(** The least recently used buffer that may be recycled: the last one in list
    order with no references and not dirty. *)
Definition evictable (s : bio) (i : nat) : bool :=
  (b_refcnt (bufs s !!! i) =? 0) && (Z.land (b_flags (bufs s !!! i)) B_DIRTY =? 0).

(** on a miss, [bget] recycles the least recently used buffer that has no
    reference and is not dirty (a block of an uncommitted transaction is never
    evicted) and leaves it locked for the new block with no flags set; it
    panics exactly when there is no such buffer. *)
Theorem bget_miss s P l blk :
  bio_rep s P -> ring (bc_next (bio_cache s)) (bc_prev (bio_cache s)) HEAD l -> length l = HEAD ->
  (forall i b, bufs s !! i = Some b -> b_dev b = ROOTDEV -> b_blockno b <> blk) ->
  bget ROOTDEV blk s =
    match find (evictable s) (reverse l) with
    | Some i => Ok i (with_buf i ((bufs s !!! i) <| b_dev := ROOTDEV |> <| b_blockno := blk |>
                  <| b_flags := 0 |> <| b_refcnt := 1 |> <| b_lock := mk_sleeplock true (bio_pid s) |>) s)
    | None => Panic "bget: no buffers"
    end.
Proof.
  intros Hr Hring Hlen Hno. unfold bget, gets, mbind, M_bind.
  destruct (lru_scan s P false (fun b => (b_dev b =? ROOTDEV) && (b_blockno b =? blk)) Hr)
    as [(i & b & Hw & Hb & Hg)|[Hw _]]; cbv beta iota zeta in Hw |- *; rewrite Hw.
  { apply andb_true_iff in Hg as [Hd%Z.eqb_eq Hbk%Z.eqb_eq]. by destruct (Hno i b). }
  rewrite (walk_ring_back _ _ _ _ _ _ Hring) by lia.
  change (fun i : nat => _ && _) with (evictable s).
  destruct (find (evictable s) (reverse l)) as [i|] eqn:Hf; [|done].
  apply find_Some_elem in Hf as [Hin He]. unfold evictable in He.
  apply andb_true_iff in He as [Hc%Z.eqb_eq _].
  assert (exists b, bufs s !! i = Some b) as [b Hb].
  { apply lookup_lt_is_Some_2. rewrite (rep_len _ _ Hr). rewrite elem_of_reverse in Hin.
    destruct Hring as [Hs Hnd]. destruct (seg_bounds _ _ _ _ _ Hs) as [Hlt _].
    specialize (Hlt i ltac:(set_solver)). destruct (rep_ring _ _ Hr) as (Hl & _). rewrite Hl in Hlt.
    apply NoDup_cons in Hnd as [Hh _]. assert (i <> HEAD) by (intros ->; done). lia. }
  assert (Hfree : sl_locked (b_lock b) = false).
  { pose proof (rep_bufs _ _ Hr) as Hok. eapply Forall_lookup in Hok; [|exact Hb].
    rewrite (list_lookup_total_correct _ _ _ Hb) in Hc.
    destruct Hok as [_ [(_ & _ & _ & ?)|(_ & _ & _ & H & _)]]; [done|].
    unfold is_held in H. destruct (sl_locked (b_lock b)); [lia|done]. }
  rewrite (list_lookup_total_correct _ _ _ Hb).
  unfold bufmod, modify. rewrite (upd_buf_at _ _ _ _ Hb).
  set (b1 := set_field _ _). pose proof (lookup_with_buf i b1 b s Hb) as Hb1.
  unfold on_lock, zoom. rewrite (list_lookup_total_correct _ _ _ Hb1).
  rewrite acquiresleep_free by done. rewrite (upd_buf_at _ _ _ _ Hb1), with_buf_twice. done.
Qed.

Lemma bget_miss_witness :
  exists s', bget ROOTDEV 7 (boot_bio demo_disk 1) = Ok 0%nat s'.
Proof.
  eexists. rewrite (bget_miss (boot_bio demo_disk 1) ∅ (reverse (seq 0 HEAD))).
  - rewrite reverse_involutive. vm_compute find. reflexivity.
  - apply boot_rep, demo_disk_ok.
  - apply binit_ring.
  - vm_compute. reflexivity.
  - intros i b. rewrite boot_bufs. intros [-> _]%lookup_replicate Hd. done.
Defined.
