(* ===== verification/Log.v ===== *)
(** The write-ahead log ([log.c]).

    A transaction's blocks are pinned in the buffer cache until [commit]
    copies them to the log, writes the log header (the commit point), installs
    them at their home locations and erases the header.  A crash leaves the
    disk with a prefix of the block writes; [initlog] at the next boot runs
    the recovery on it.  Spin-lock sections are atomic; [begin_op] that has to
    wait is [Blocked]. *)

From S2P Require Import Prelude Layout Sleeplock Ring Bio.

Record logheader := mk_logheader { lh_n : Z; lh_block : list Z }.
#[export] Instance eta_logheader : Settable logheader := fun h =>
  mk_logheader (lh_n h) (lh_block h).

Record log := mk_log {
  log_start : Z; log_size : Z; log_outstanding : Z; log_committing : bool; log_dev : Z;
  log_lh : logheader
}.
#[export] Instance eta_log : Settable log := fun l =>
  mk_log (log_start l) (log_size l) (log_outstanding l) (log_committing l) (log_dev l) (log_lh l).

Record logst := mk_logst { l_bio : bio; l_log : log }.
#[export] Instance eta_logst : Settable logst := fun s => mk_logst (l_bio s) (l_log s).

Definition on_bio {A : Type} (m : M bio A) : M logst A :=
  zoom l_bio (fun t s => s <| l_bio := t |>) m.
Definition getlog {A : Type} (f : log -> A) : M logst A := gets (fun s => f (l_log s)).
Definition modlog (f : log -> log) : M logst () := modify (fun s => s <| l_log := f (l_log s) |>).

(** [sizeof(struct logheader)] *)
Definition LOGHEADER_SZ : Z := 4 + 4 * LOGSIZE.

(** fs.c: read the super block. *)
Definition readsb (dev : Z) : M bio superblock :=
  bp ← bread dev 1;
  data ← bdata bp;
  brelse bp;;
  mret (superblock_decode data).

Definition tails (n : Z) : list nat := seq 0 (Z.to_nat n).

Definition install_trans : M logst () :=
  n ← getlog (fun l => lh_n (log_lh l));
  forM (tails n) (fun tail =>
    dev ← getlog log_dev;
    start ← getlog log_start;
    blk ← getlog (fun l => lh_block (log_lh l) !!! tail);
    lbuf ← on_bio (bread dev (start + Z.of_nat tail + 1));
    dbuf ← on_bio (bread dev blk);
    data ← on_bio (bdata lbuf);
    on_bio (set_data dbuf data);;
    on_bio (bwrite dbuf);;
    on_bio (brelse lbuf);;
    on_bio (brelse dbuf)).

(** The two header loops: copy [block[]] out of, or into, the header block,
    whose word 0 is [n] and whose word [1 + i] is [block[i]]. *)
Fixpoint get_blocks (data : list Z) (i : Z) (k : nat) : list Z :=
  match k with
  | O => []
  | S k' => s32 (word_at data i) :: get_blocks data (i + 1) k'
  end.

Fixpoint put_blocks (data : list Z) (i : Z) (bs : list Z) : list Z :=
  match bs with
  | [] => data
  | b :: bs' => put_blocks (set_word data i b) (i + 1) bs'
  end.

Definition read_head : M logst () :=
  dev ← getlog log_dev;
  start ← getlog log_start;
  buf ← on_bio (bread dev start);
  data ← on_bio (bdata buf);
  modlog (fun l => l <| log_lh := (log_lh l) <| lh_n := s32 (word_at data 0) |> |>);;
  n ← getlog (fun l => lh_n (log_lh l));
  modlog (fun l => let h := log_lh l in
    l <| log_lh := h <| lh_block := splice (lh_block h) 0 (get_blocks data 1 (Z.to_nat n)) |> |>);;
  on_bio (brelse buf).

Definition write_head : M logst () :=
  dev ← getlog log_dev;
  start ← getlog log_start;
  buf ← on_bio (bread dev start);
  data ← on_bio (bdata buf);
  n ← getlog (fun l => lh_n (log_lh l));
  blocks ← getlog (fun l => take (Z.to_nat n) (lh_block (log_lh l)));
  on_bio (set_data buf (put_blocks (set_word data 0 n) 1 blocks));;
  on_bio (bwrite buf);;
  on_bio (brelse buf).

Definition set_n (n : Z) : M logst () :=
  modlog (fun l => l <| log_lh := (log_lh l) <| lh_n := n |> |>).

Definition recover_from_log : M logst () :=
  read_head;;
  install_trans;;
  set_n 0;;
  write_head.

Definition initlog (dev : Z) : M logst () :=
  if BSIZE <=? LOGHEADER_SZ then panic "initlog: too big logheader" else
  sb ← on_bio (readsb dev);
  modlog (fun l => l <| log_start := sb_logstart sb |> <| log_size := sb_nlog sb |>
                     <| log_dev := dev |>);;
  recover_from_log.

Definition begin_op : M logst () :=
  lg ← gets l_log;
  if log_committing lg then block
  else if lh_n (log_lh lg) + (log_outstanding lg + 1) * MAXOPBLOCKS >? LOGSIZE then block
  else modlog (fun l => l <| log_outstanding := log_outstanding l + 1 |>).

Definition write_log : M logst () :=
  n ← getlog (fun l => lh_n (log_lh l));
  forM (tails n) (fun tail =>
    dev ← getlog log_dev;
    start ← getlog log_start;
    blk ← getlog (fun l => lh_block (log_lh l) !!! tail);
    to ← on_bio (bread dev (start + Z.of_nat tail + 1));
    from ← on_bio (bread dev blk);
    data ← on_bio (bdata from);
    on_bio (set_data to data);;
    on_bio (bwrite to);;
    on_bio (brelse from);;
    on_bio (brelse to)).

Definition commit : M logst () :=
  n ← getlog (fun l => lh_n (log_lh l));
  when (n >? 0) (
    write_log;;
    write_head;;
    install_trans;;
    set_n 0;;
    write_head).

Definition end_op : M logst () :=
  modlog (fun l => l <| log_outstanding := log_outstanding l - 1 |>);;
  lg ← gets l_log;
  if log_committing lg then panic "log.committing" else
  when (log_outstanding lg =? 0) (
    modlog (fun l => l <| log_committing := true |>);;
    commit;;
    modlog (fun l => l <| log_committing := false |>)).

(** The search loop of [log_write]: the first [i < n] with [block[i] == b],
    or [n]. *)
Definition absorb_index (lh : logheader) (b : Z) : nat :=
  match find_idx (fun x => x =? b) (take (Z.to_nat (lh_n lh)) (lh_block lh)) with
  | Some i => i
  | None => Z.to_nat (lh_n lh)
  end.

Definition log_write (i : nat) : M logst () :=
  lg ← gets l_log;
  let n := lh_n (log_lh lg) in
  if (LOGSIZE <=? n) || (log_size lg - 1 <=? n) then panic "too big a transaction" else
  if log_outstanding lg <? 1 then panic "log_write outside of trans" else
  b ← on_bio (bufget i);
  let k := absorb_index (log_lh lg) (b_blockno b) in
  modlog (fun l => l <| log_lh := (log_lh l) <| lh_block := <[k := b_blockno b]> (lh_block (log_lh l)) |> |>);;
  when (Z.of_nat k =? n) (set_n (n + 1));;
  on_bio (set_dirty i).

(** ** Sequences of disk writes *)

Definition apply_writes (d : memdisk) (ws : list (Z * list Z)) : memdisk :=
  foldl (fun d w => disk_write d (fst w) (snd w)) d ws.

Lemma apply_writes_app d ws1 ws2 :
  apply_writes d (ws1 ++ ws2) = apply_writes (apply_writes d ws1) ws2.
Proof. apply foldl_app. Qed.

Lemma apply_writes_trace d ws : d_trace (apply_writes d ws) = reverse ws ++ d_trace d.
Proof.
  revert d. induction ws as [|[b x] ws IH]; intros d; simpl; [done|].
  rewrite IH, reverse_cons. simpl. by rewrite <- app_assoc.
Qed.

Lemma apply_writes_size d ws : d_size (apply_writes d ws) = d_size d.
Proof. revert d. induction ws as [|[b x] ws IH]; intros d; simpl; [done|]. by rewrite IH. Qed.

(** A block no write goes to keeps its contents. *)
Lemma apply_writes_other d ws b : b ∉ ws.*1 -> d_data (apply_writes d ws) b = d_data d b.
Proof.
  revert d. induction ws as [|[k x] ws IH]; intros d Hb; simpl in *; [done|].
  rewrite IH by set_solver. simpl. apply upd_ne. set_solver.
Qed.

(** When every write to [b] carries [x], and there is one, [b] ends up as [x]. *)
Lemma apply_writes_at d ws b x :
  b ∈ ws.*1 -> (forall y, (b, y) ∈ ws -> y = x) -> d_data (apply_writes d ws) b = x.
Proof.
  revert d. induction ws as [|[k y] ws IH]; intros d Hb Hx; [set_solver|]. simpl.
  destruct (decide (b ∈ ws.*1)) as [Hin|Hin]; [apply IH; set_solver|].
  rewrite apply_writes_other by done. simpl in *.
  assert (b = k) as -> by set_solver. rewrite upd_eq. apply Hx. set_solver.
Qed.

(** ** Stepping under a known log *)

Lemma wp_on_bio {A} (m : M bio A) b l Q :
  wp m b (fun a b' => Q a (mk_logst b' l)) -> wp (on_bio m) (mk_logst b l) Q.
Proof. intros H. apply wp_zoom. exact H. Qed.

Lemma wp_getlog {A} (f : log -> A) b l (Q : A -> logst -> Prop) :
  Q (f l) (mk_logst b l) -> wp (getlog f) (mk_logst b l) Q.
Proof. done. Qed.

Lemma wp_modlog f b l (Q : () -> logst -> Prop) :
  Q () (mk_logst b (f l)) -> wp (modlog f) (mk_logst b l) Q.
Proof. done. Qed.

Ltac log_step :=
  first [ wp_step
        | match goal with
          | |- wp (getlog _) (mk_logst _ _) _ => apply wp_getlog
          | |- wp (modlog _) (mk_logst _ _) _ => apply wp_modlog
          | |- wp (on_bio _) (mk_logst _ _) _ => apply wp_on_bio
          end; cbv beta ].

(** Run a group of buffer-cache steps by the rule [H] for the whole group. *)
Ltac regroup H :=
  first [ exact H
        | apply wp_on_bio; exact H
        | apply wp_bind, wp_on_bio; apply wp_bind_inv in H; eapply wp_conseq; [exact H|];
          clear H; cbv beta; intros ? ? H; regroup H ].
Ltac on_bio_group m :=
  match goal with
  | |- wp _ (mk_logst ?b ?l) ?Q =>
      let H := fresh "H" in
      assert (H : wp m b (fun a b' => Q a (mk_logst b' l))); [|regroup H]
  end.

(** Extensionality of cache maps, on the keys that matter. *)
Ltac map_cases k1 k2 :=
  let k := fresh "k" in
  apply map_eq; intros k; destruct (decide (k = k1)); [subst k|destruct (decide (k = k2)); [subst k|]];
  simplify_map_eq; try done.

(** ** Copying a block *)

Lemma bread_entry_None d P blk i :
  P !! blk = None -> bread_entry d P blk i = mk_centry i true false (d_data d blk).
Proof. intros H. unfold bread_entry, aview. by rewrite H. Qed.

Lemma bread_entry_Some d P blk i e :
  P !! blk = Some e -> bread_entry d P blk i = mk_centry i true (ce_dirty e) (ce_data e).
Proof. intros H. unfold bread_entry, aview. by rewrite H. Qed.

Definition install_one (src dst : Z) : M bio () :=
  lbuf ← bread ROOTDEV src; dbuf ← bread ROOTDEV dst; data ← bdata lbuf;
  set_data dbuf data;; bwrite dbuf;; brelse lbuf;; brelse dbuf.

Definition log_one (src dst : Z) : M bio () :=
  to ← bread ROOTDEV dst; from ← bread ROOTDEV src; data ← bdata from;
  set_data to data;; bwrite to;; brelse from;; brelse to.

(** The body of [install_trans]: log block [src] goes to its home [dst]. *)
Lemma wp_install_one s P src dst Q :
  bio_rep s P -> src <> dst -> P !! src = None ->
  (forall e, P !! dst = Some e -> ce_held e = false) ->
  (is_Some (P !! dst) /\ (size P < HEAD)%nat \/ (S (size P) < HEAD)%nat) ->
  0 <= src < d_size (bio_disk s) -> 0 <= dst < d_size (bio_disk s) ->
  (forall s', bio_rep s' (delete dst P) ->
     bio_disk s' = disk_write (bio_disk s) dst (d_data (bio_disk s) src) -> Q () s') ->
  wp (install_one src dst) s Q.
Proof.
  intros Hr Hne Hsrc Hdst Hroom Hs Hd HQ. unfold install_one. wp_step.
  apply (wp_bread _ P); [done|done|congruence|right; lia|]. intros i s1 Hr1 [D1 _].
  rewrite bread_entry_None in Hr1 by done. set (el := mk_centry i true false _) in Hr1.
  wp_step. apply (wp_bread _ _ dst _ Hr1); [by rewrite D1| | |].
  { intros e. rewrite lookup_insert_ne by done. apply Hdst. }
  { rewrite lookup_insert_ne, map_size_insert_None by done. destruct Hroom as [[? _]|?]; auto with lia. }
  intros j s2 Hr2 [D2 _]. set (ed := bread_entry _ _ _ _) in Hr2.
  wp_step. apply (wp_bdata s2 _ src el i _ Hr2); [by simplify_map_eq|done|].
  wp_step. eapply (wp_set_data s2 _ dst ed j); [exact Hr2|by simplify_map_eq|done|done| |].
  { apply (rep_disk _ _ Hr). lia. }
  intros s3 Hr3 [D3 _]. rewrite insert_insert_eq in Hr3.
  wp_step. eapply (wp_bwrite s3 _ dst _ j _ Hr3); [by simplify_map_eq|done|done|].
  intros s4 Hr4 D4 _. rewrite insert_insert_eq in Hr4. simpl in D4.
  wp_step. eapply (wp_brelse s4 _ src el i _ Hr4); [by simplify_map_eq|done|done| |].
  { intros _. rewrite D4, D3, D2, D1. simpl. by rewrite upd_ne. }
  intros s5 Hr5 [D5 _]. simpl in Hr5.
  eapply (wp_brelse s5 _ dst _ j _ Hr5); [by simplify_map_eq|done|done| |].
  { intros _. rewrite D5, D4. simpl. by rewrite upd_eq. }
  intros s6 Hr6 [D6 _]. simpl in Hr6. apply HQ.
  - rewrite delete_delete, delete_insert_eq, delete_delete, delete_insert_eq, delete_delete in Hr6.
    by rewrite delete_id in Hr6 by (by rewrite lookup_delete_ne).
  - by rewrite D6, D5, D4, D3, D2, D1.
Qed.

(** The body of [write_log]: the pinned block [src] goes to log block [dst]. *)
Lemma wp_log_one s P src dst e Q :
  bio_rep s P -> src <> dst -> P !! dst = None ->
  P !! src = Some e -> ce_held e = false -> ce_dirty e = true -> (size P < HEAD)%nat ->
  0 <= dst < d_size (bio_disk s) ->
  (forall i s', bio_rep s' (<[src := mk_centry i false true (ce_data e)]> P) ->
     bio_disk s' = disk_write (bio_disk s) dst (ce_data e) -> Q () s') ->
  wp (log_one src dst) s Q.
Proof.
  intros Hr Hne Hdst Hsrc Hh Hdy Hroom Hd HQ. unfold log_one. wp_step.
  destruct (rep_lookup _ _ _ _ Hr Hsrc) as (bs & _ & _ & _ & [Hbs _] & _ & _ & Hdata & Hsz).
  apply (wp_bread _ P); [done|done|congruence|right; lia|]. intros i s1 Hr1 [D1 _].
  rewrite bread_entry_None in Hr1 by done. set (el := mk_centry i true false _) in Hr1.
  assert (Hs1 : (<[dst := el]> P : gmap Z centry) !! src = Some e) by by rewrite lookup_insert_ne.
  wp_step. apply (wp_bread _ _ src _ Hr1); [by rewrite D1|congruence|by left; rewrite Hs1|].
  intros j s2 Hr2 [D2 _]. rewrite (bread_entry_Some _ _ _ _ _ Hs1) in Hr2.
  set (es := mk_centry j true _ _) in Hr2.
  wp_step. apply (wp_bdata s2 _ src es j _ Hr2); [by simplify_map_eq|done|].
  wp_step. eapply (wp_set_data s2 _ dst el i); [exact Hr2|by simplify_map_eq|done|done| |].
  { simpl. by rewrite Hdata. }
  intros s3 Hr3 [D3 _].
  wp_step. eapply (wp_bwrite s3 _ dst _ i _ Hr3); [by simplify_map_eq|done|done|].
  intros s4 Hr4 D4 _. rewrite insert_insert_eq in Hr4. simpl in D4.
  wp_step. eapply (wp_brelse s4 _ src es j _ Hr4); [by simplify_map_eq|done|done| |].
  { simpl. congruence. }
  intros s5 Hr5 [D5 _]. simpl in Hr5. rewrite Hdy in Hr5.
  eapply (wp_brelse s5 _ dst _ i _ Hr5); [by simplify_map_eq|done|done| |].
  { intros _. rewrite D5, D4. simpl. by rewrite upd_eq. }
  intros s6 Hr6 [D6 _]. simpl in Hr6. apply (HQ j).
  - match type of Hr6 with bio_rep _ ?m =>
      replace (<[src := mk_centry j false true (ce_data e)]> P) with m; [done|] end.
    map_cases dst src. unfold es, set_field. simpl. by rewrite Hdy.
  - by rewrite D6, D5, D4, D3, D2, D1.
Qed.

(** ** The log of a transaction *)

(** [l] describes a log with the logged blocks [bs] on disk [d]; the blocks
    all lie after the log area. *)
Record log_ok (l : log) (d : memdisk) (bs : list Z) : Prop := {
  lo_dev : log_dev l = ROOTDEV;
  lo_start : 2 <= log_start l;
  lo_end : log_start l + log_size l <= d_size d;
  lo_n : lh_n (log_lh l) = Z.of_nat (length bs);
  lo_len : length (lh_block (log_lh l)) = Z.to_nat LOGSIZE;
  lo_blocks : take (length bs) (lh_block (log_lh l)) = bs;
  lo_max : (length bs <= Z.to_nat LOGSIZE)%nat;
  lo_room : Z.of_nat (length bs) < log_size l;
  lo_nodup : NoDup bs;
  lo_home : Forall (fun b => log_start l + log_size l <= b < d_size d) bs
}.

Lemma lo_lookup l d bs i b :
  log_ok l d bs -> bs !! i = Some b -> lh_block (log_lh l) !!! i = b.
Proof.
  intros H Hi. apply list_lookup_total_correct.
  rewrite <- (lo_blocks _ _ _ H) in Hi. by apply lookup_take_Some in Hi as [? _].
Qed.

Lemma log_ok_disk l d d' bs : log_ok l d bs -> d_size d' = d_size d -> log_ok l d' bs.
Proof. intros [] Hs. split; rewrite ?Hs; done. Qed.

Definition erase (e : centry) : centry := e <| ce_idx := 0%nat |>.

(** The writes of [write_log], of [install_trans], and their order in a commit. *)
Definition log_writes (v : Z -> list Z) (start : Z) (bs : list Z) : list (Z * list Z) :=
  imap (fun i b => (start + Z.of_nat i + 1, v b)) bs.
Definition install_writes (v : Z -> list Z) (start : Z) (bs : list Z) : list (Z * list Z) :=
  imap (fun i b => (b, v (start + Z.of_nat i + 1))) bs.

Lemma log_writes_snoc v start bs b :
  log_writes v start (bs ++ [b]) =
  log_writes v start bs ++ [(start + Z.of_nat (length bs) + 1, v b)].
Proof. unfold log_writes. rewrite imap_app. simpl. by rewrite Nat.add_0_r. Qed.

Lemma install_writes_snoc v start bs b :
  install_writes v start (bs ++ [b]) =
  install_writes v start bs ++ [(b, v (start + Z.of_nat (length bs) + 1))].
Proof. unfold install_writes. rewrite imap_app. simpl. by rewrite Nat.add_0_r. Qed.

Lemma install_writes_fst v start bs : (install_writes v start bs).*1 = bs.
Proof.
  unfold install_writes. apply list_eq. intros i. rewrite list_lookup_fmap, list_lookup_imap.
  by destruct (bs !! i).
Qed.

Lemma log_writes_fst v start bs k :
  k ∈ (log_writes v start bs).*1 -> start < k <= start + Z.of_nat (length bs).
Proof.
  unfold log_writes. intros ([b x] & Hk & Hin)%list_elem_of_fmap. simpl in Hk. subst.
  apply elem_of_lookup_imap in Hin as (i & y & [= -> _] & Hy%lookup_lt_Some). lia.
Qed.

(** The iterations of a [tails] loop and the blocks they handle. *)
Lemma tails_split (bs : list Z) pre tail post :
  tails (Z.of_nat (length bs)) = pre ++ tail :: post ->
  exists b, tail = length pre /\ bs !! tail = Some b /\ take (S tail) bs = take (length pre) bs ++ [b].
Proof.
  unfold tails. rewrite Nat2Z.id. intros H.
  assert (Ht : seq 0 (length bs) !! length pre = Some tail).
  { rewrite H, lookup_app_r, Nat.sub_diag by lia. done. }
  apply lookup_seq in Ht as [Ht Hlt]. simpl in Ht. subst tail.
  destruct (lookup_lt_is_Some_2 bs _ Hlt) as [b Hb]. exists b. split; [done|]. split; [done|].
  by apply take_S_r.
Qed.

(** Writes at the home blocks leave the log area alone, and conversely. *)
Lemma install_keeps l d bs v v' k :
  log_ok l d bs -> k < log_start l + log_size l ->
  d_data (apply_writes d (install_writes v (log_start l) (take v' bs))) k = d_data d k.
Proof.
  intros H Hk. apply apply_writes_other. rewrite install_writes_fst. intros Hin.
  apply elem_of_take in Hin as (i & Hi & _). apply list_elem_of_lookup_2 in Hi.
  pose proof (proj1 (Forall_forall _ _) (lo_home _ _ _ H) _ Hi). simpl in *. lia.
Qed.

Lemma take_lookup_notin (bs : list Z) i b :
  NoDup bs -> bs !! i = Some b -> b ∉ take i bs.
Proof.
  intros Hnd Hi (j & Hj & Hlt)%elem_of_take.
  pose proof (NoDup_lookup _ _ _ _ Hnd Hi Hj). lia.
Qed.

Definition without (P : gmap Z centry) (bs : list Z) : gmap Z centry :=
  filter (fun kv => fst kv ∉ bs) P.

Lemma without_lookup P bs k :
  without P bs !! k = if decide (k ∈ bs) then None else P !! k.
Proof.
  unfold without. rewrite map_lookup_filter. destruct (P !! k); simpl; repeat case_guard; repeat case_decide; done.
Qed.

Lemma without_snoc P bs b : without P (bs ++ [b]) = delete b (without P bs).
Proof.
  apply map_eq. intros k. rewrite without_lookup. destruct (decide (k = b)) as [->|Hne].
  - rewrite lookup_delete_eq. case_decide; [done|]. set_solver.
  - rewrite lookup_delete_ne, without_lookup by done. repeat case_decide; set_solver.
Qed.

Lemma without_size P bs : (size (without P bs) <= size P)%nat.
Proof. apply map_subseteq_size, map_filter_subseteq. Qed.

Lemma without_all P bs :
  (forall k e, P !! k = Some e -> k ∈ bs) -> without P bs = ∅.
Proof.
  intros H. apply map_eq. intros k. rewrite without_lookup, lookup_empty.
  case_decide; [done|]. destruct (P !! k) eqn:E; [|done]. apply H in E. done.
Qed.

(** [install_trans] copies log block [i + 1] to [block[i]], in order, and
    unpins the blocks. *)
Lemma wp_install_trans b l P bs Q :
  bio_rep b P -> log_ok l (bio_disk b) bs ->
  (forall k e, P !! k = Some e -> k ∈ bs /\ ce_held e = false) ->
  (size P < HEAD)%nat -> (P = ∅ \/ forall k, k ∈ bs -> is_Some (P !! k)) ->
  (forall b', bio_rep b' ∅ ->
     bio_disk b' = apply_writes (bio_disk b)
       (install_writes (d_data (bio_disk b)) (log_start l) bs) -> Q () (mk_logst b' l)) ->
  wp install_trans (mk_logst b l) Q.
Proof.
  intros Hr Hl HP Hsz Hcov HQ. unfold install_trans. log_step. log_step.
  rewrite (lo_n _ _ _ Hl).
  apply wp_forM with (I := fun pre s => exists b', s = mk_logst b' l /\
    bio_rep b' (without P (take (length pre) bs)) /\
    bio_disk b' = apply_writes (bio_disk b)
      (install_writes (d_data (bio_disk b)) (log_start l) (take (length pre) bs))).
  - exists b. split; [done|]. split; [|done].
    replace (without P _) with P; [done|]. apply map_eq. intros k. rewrite without_lookup.
    case_decide; [set_solver|done].
  - intros pre tail post s Hsplit (b1 & -> & Hr1 & D1).
    apply tails_split in Hsplit as (blk & -> & Hblk & Htake).
    do 6 log_step. rewrite (lo_dev _ _ _ Hl), (lo_lookup _ _ _ _ _ Hl Hblk).
    assert (Hlt := lookup_lt_Some _ _ _ Hblk). pose proof (lo_room _ _ _ Hl).
    pose proof (lo_end _ _ _ Hl). pose proof (lo_start _ _ _ Hl).
    assert (Hin := list_elem_of_lookup_2 _ _ _ Hblk).
    pose proof (proj1 (Forall_forall _ _) (lo_home _ _ _ Hl) _ Hin) as Hhome. simpl in Hhome.
    assert (Hs1 : d_size (bio_disk b1) = d_size (bio_disk b)) by (rewrite D1; apply apply_writes_size).
    pose proof (without_size P (take (length pre) bs)).
    pose proof (take_lookup_notin _ _ _ (lo_nodup _ _ _ Hl) Hblk) as Hnin.
    on_bio_group (install_one (log_start l + Z.of_nat (length pre) + 1) blk).
    apply (wp_install_one _ _ _ _ _ Hr1); [lia| | | |lia|lia|].
    + rewrite without_lookup. case_decide; [done|].
      destruct (P !! _) eqn:E; [|done]. apply HP in E as [E _].
      pose proof (proj1 (Forall_forall _ _) (lo_home _ _ _ Hl) _ E). simpl in *. lia.
    + intros e. rewrite without_lookup. case_decide; [done|]. apply HP.
    + destruct Hcov as [->|Hcov]; [right|left].
      * rewrite without_all; [rewrite map_size_empty; apply Nat.ltb_lt; reflexivity|].
        intros k e. by rewrite lookup_empty.
      * rewrite without_lookup, decide_False by done. split; [by apply Hcov|lia].
    + intros b2 Hr2 D2. exists b2. split; [done|].
      rewrite length_app, Nat.add_1_r, Htake, without_snoc. split; [done|].
      rewrite install_writes_snoc, apply_writes_app, D2, D1, length_take_le by lia. simpl.
      by rewrite (install_keeps l (bio_disk b)) by (done || lia).
  - intros s' (b' & -> & Hr' & D'). unfold tails in *. rewrite length_seq, Nat2Z.id, firstn_all in *.
    apply HQ; [|done]. rewrite without_all in Hr'; [done|]. intros k e He. by apply HP in He as [? _].
Qed.

(** ** [write_log] *)

(** The pins of a transaction at rest: exactly the blocks [bs], each dirty,
    unlocked and holding [v]. *)
Definition txn_pins (P : gmap Z centry) (bs : list Z) (v : Z -> list Z) : Prop :=
  forall k, erase <$> P !! k = if decide (k ∈ bs) then Some (mk_centry 0 false true (v k)) else None.

Lemma txn_in P bs v k :
  txn_pins P bs v -> k ∈ bs ->
  exists e, P !! k = Some e /\ ce_held e = false /\ ce_dirty e = true /\ ce_data e = v k.
Proof.
  intros H Hk. specialize (H k). rewrite decide_True in H by done.
  apply fmap_Some in H as ([i h d x] & He & [= <- <- <-]). eauto.
Qed.

Lemma txn_Some P bs v k e :
  txn_pins P bs v -> P !! k = Some e -> k ∈ bs /\ ce_held e = false.
Proof.
  intros H He. specialize (H k). rewrite He in H. case_decide; [|done].
  split; [done|]. destruct e. by injection H.
Qed.

Lemma txn_size P bs v : txn_pins P bs v -> NoDup bs -> size P = length bs.
Proof.
  intros H Hnd. rewrite <- size_dom.
  replace (dom P) with (list_to_set bs : gset Z); [by apply size_list_to_set|].
  apply set_eq. intros k. rewrite elem_of_list_to_set, elem_of_dom. split.
  - intros Hk. destruct (txn_in _ _ _ _ H Hk) as (e & -> & _). eauto.
  - intros [e He]. by destruct (txn_Some _ _ _ _ _ H He).
Qed.

Lemma txn_None P bs v k : txn_pins P bs v -> k ∉ bs -> P !! k = None.
Proof. intros H Hk. destruct (P !! k) eqn:E; [|done]. by apply (txn_Some _ _ _ _ _ H) in E as [? _]. Qed.

Lemma txn_reindex P bs v k e i :
  txn_pins P bs v -> P !! k = Some e -> txn_pins (<[k := mk_centry i false true (ce_data e)]> P) bs v.
Proof.
  intros H He j. destruct (decide (j = k)) as [->|Hne].
  - rewrite lookup_insert_eq. destruct (txn_Some _ _ _ _ _ H He) as [Hin _].
    rewrite decide_True by done. destruct (txn_in _ _ _ _ H Hin) as (e' & He' & _ & _ & <-).
    replace e' with e by congruence. done.
  - rewrite lookup_insert_ne by done. apply H.
Qed.

Lemma lo_home_at l d bs k :
  log_ok l d bs -> k ∈ bs -> log_start l + log_size l <= k < d_size d.
Proof. intros H Hk. exact (proj1 (Forall_forall _ _) (lo_home _ _ _ H) _ Hk). Qed.

(** [write_log] copies pinned block [block[i]] to log block [i + 1], in order. *)
Lemma wp_write_log b l P bs v Q :
  bio_rep b P -> log_ok l (bio_disk b) bs -> txn_pins P bs v -> (length bs < HEAD)%nat ->
  (forall b' P', bio_rep b' P' -> txn_pins P' bs v ->
     bio_disk b' = apply_writes (bio_disk b) (log_writes v (log_start l) bs) -> Q () (mk_logst b' l)) ->
  wp write_log (mk_logst b l) Q.
Proof.
  intros Hr Hl HP Hlen HQ. unfold write_log. do 2 log_step. rewrite (lo_n _ _ _ Hl).
  apply wp_forM with (I := fun pre s => exists b' P', s = mk_logst b' l /\ bio_rep b' P' /\ txn_pins P' bs v /\
    bio_disk b' = apply_writes (bio_disk b) (log_writes v (log_start l) (take (length pre) bs))).
  - exists b, P. done.
  - intros pre tail post s Hsplit (b1 & P1 & -> & Hr1 & HP1 & D1).
    apply tails_split in Hsplit as (blk & -> & Hblk & Htake).
    do 6 log_step. rewrite (lo_dev _ _ _ Hl), (lo_lookup _ _ _ _ _ Hl Hblk).
    assert (Hlt := lookup_lt_Some _ _ _ Hblk). pose proof (lo_room _ _ _ Hl).
    pose proof (lo_end _ _ _ Hl). pose proof (lo_start _ _ _ Hl).
    assert (Hin := list_elem_of_lookup_2 _ _ _ Hblk). pose proof (lo_home_at _ _ _ _ Hl Hin).
    assert (d_size (bio_disk b1) = d_size (bio_disk b)) by (rewrite D1; apply apply_writes_size).
    destruct (txn_in _ _ _ _ HP1 Hin) as (e & He & Hh & Hd & Hv).
    on_bio_group (log_one blk (log_start l + Z.of_nat (length pre) + 1)).
    apply (wp_log_one _ P1 _ _ e _ Hr1); [lia| |done|done|done| |lia|].
    + apply (txn_None _ bs v); [done|]. intros Hk. pose proof (lo_home_at _ _ _ _ Hl Hk). lia.
    + by rewrite (txn_size _ bs v) by (done || apply (lo_nodup _ _ _ Hl)).
    + intros i b2 Hr2 D2. eexists b2, _. split; [done|]. split; [done|]. split; [by apply txn_reindex|].
      rewrite length_app, Nat.add_1_r, Htake, log_writes_snoc, apply_writes_app, D2, D1, length_take_le by lia.
      by rewrite Hv.
  - intros s' (b' & P' & -> & Hr' & HP' & D'). unfold tails in *.
    rewrite length_seq, Nat2Z.id, firstn_all in *. by eapply HQ.
Qed.

(** ** The header block *)

Definition header (old : list Z) (bs : list Z) : list Z :=
  put_blocks (set_word old 0 (Z.of_nat (length bs))) 1 bs.

Lemma set_word_length data j x :
  length data = 512%nat -> 0 <= j < NINDIRECT -> length (set_word data j x) = 512%nat.
Proof.
  intros Hd Hj. unfold set_word, put32. consts. rewrite splice_length; [done|].
  rewrite le_enc_length. lia.
Qed.

Lemma put_blocks_ok data i bs :
  block_ok data -> 0 <= i -> i + Z.of_nat (length bs) <= NINDIRECT -> block_ok (put_blocks data i bs).
Proof.
  revert data i. induction bs as [|b bs IH]; intros data i Hd Hi Hl; simpl in *; [done|].
  apply IH; [apply set_word_ok; [done|lia]|lia|lia].
Qed.

Lemma put_blocks_before data i bs j :
  length data = 512%nat -> 0 <= i -> i + Z.of_nat (length bs) <= NINDIRECT -> 0 <= j < i ->
  word_at (put_blocks data i bs) j = word_at data j.
Proof.
  revert data i. induction bs as [|b bs IH]; intros data i Hd Hi Hl Hj; simpl in *; [done|].
  rewrite IH by (try apply set_word_length; lia). apply word_at_set_other; lia.
Qed.

(** A block number: a non-negative C [int]. *)
Definition int_nonneg (x : Z) : Prop := 0 <= x < 2 ^ 31.

Lemma s32_nonneg x : int_nonneg x -> s32 x = x.
Proof. unfold int_nonneg. intros H. apply signed_small; lia. Qed.

Lemma get_put_blocks data i bs :
  length data = 512%nat -> 0 <= i -> i + Z.of_nat (length bs) <= NINDIRECT -> Forall int_nonneg bs ->
  get_blocks (put_blocks data i bs) i (length bs) = bs.
Proof.
  revert data i. induction bs as [|b bs IH]; intros data i Hd Hi Hl Hbs; simpl in *; [done|].
  apply Forall_cons_1 in Hbs as [Hb Hbs].
  rewrite put_blocks_before, word_at_set, s32_nonneg
    by (first [done | apply set_word_length; lia | lia | unfold int_nonneg, uint_ok in *; lia]).
  f_equal. apply IH; [apply set_word_length| | |]; lia || done.
Qed.

Lemma header_ok old bs :
  block_ok old -> (length bs <= Z.to_nat LOGSIZE)%nat -> block_ok (header old bs).
Proof.
  intros H Hl. unfold header. consts. apply put_blocks_ok; [apply set_word_ok; [done|]|..]; consts; lia.
Qed.

Lemma header_n old bs :
  length old = 512%nat -> (length bs <= Z.to_nat LOGSIZE)%nat ->
  s32 (word_at (header old bs) 0) = Z.of_nat (length bs).
Proof.
  intros H Hl. unfold header. consts.
  rewrite put_blocks_before, word_at_set by
    (first [done | apply set_word_length; consts; lia | consts; unfold uint_ok; lia]).
  apply s32_nonneg. unfold int_nonneg. lia.
Qed.

Lemma header_blocks old bs :
  length old = 512%nat -> (length bs <= Z.to_nat LOGSIZE)%nat -> Forall int_nonneg bs ->
  get_blocks (header old bs) 1 (length bs) = bs.
Proof.
  intros H Hl Hbs. unfold header. consts.
  apply get_put_blocks; [apply set_word_length; consts; lia|lia|consts; lia|done].
Qed.

(** Read a block, apply [f] to its contents, write it through. *)
Definition rewrite_block (blk : Z) (f : list Z -> list Z) : M bio () :=
  buf ← bread ROOTDEV blk; data ← bdata buf; set_data buf (f data);; bwrite buf;; brelse buf.

Lemma wp_rewrite_block s P blk f Q :
  bio_rep s P -> 0 <= blk < d_size (bio_disk s) ->
  (forall x, block_ok x -> block_ok (f x)) -> P !! blk = None -> (size P < HEAD)%nat ->
  (forall s', bio_rep s' P ->
     bio_disk s' = disk_write (bio_disk s) blk (f (d_data (bio_disk s) blk)) -> Q () s') ->
  wp (rewrite_block blk f) s Q.
Proof.
  intros Hr Hb Hf HP Hsz HQ. unfold rewrite_block. wp_step.
  apply (wp_bread _ P _ _ Hr); [done|congruence|by right|]. intros i s1 Hr1 [D1 _].
  rewrite bread_entry_None in Hr1 by done. set (e := mk_centry i true false _) in Hr1.
  wp_step. apply (wp_bdata s1 _ blk e i _ Hr1); [by simplify_map_eq|done|].
  wp_step. eapply (wp_set_data s1 _ blk e i _ _ Hr1); [by simplify_map_eq|done|done| |].
  { apply Hf, (rep_disk _ _ Hr). lia. }
  intros s2 Hr2 [D2 _]. rewrite insert_insert_eq in Hr2.
  wp_step. eapply (wp_bwrite s2 _ blk _ i _ Hr2); [by simplify_map_eq|done|done|].
  intros s3 Hr3 D3 _. rewrite insert_insert_eq in Hr3. simpl in D3.
  eapply (wp_brelse s3 _ blk _ i _ Hr3); [by simplify_map_eq|done|done| |].
  { intros _. rewrite D3. simpl. by rewrite upd_eq. }
  intros s4 Hr4 [D4 _]. simpl in Hr4. rewrite delete_insert_id in Hr4 by done.
  apply HQ; [done|]. by rewrite D4, D3, D2, D1.
Qed.

Lemma wp_write_head b l P bs Q :
  bio_rep b P -> log_ok l (bio_disk b) bs -> P !! log_start l = None -> (size P < HEAD)%nat ->
  (forall b', bio_rep b' P ->
     bio_disk b' = disk_write (bio_disk b) (log_start l) (header (d_data (bio_disk b) (log_start l)) bs) ->
     Q () (mk_logst b' l)) ->
  wp write_head (mk_logst b l) Q.
Proof.
  intros Hr Hl HP Hsz HQ. unfold write_head. do 4 log_step. rewrite (lo_dev _ _ _ Hl).
  assert (H : wp (rewrite_block (log_start l) (fun x => header x bs)) b (fun a b' => Q a (mk_logst b' l))).
  { pose proof (lo_start _ _ _ Hl). pose proof (lo_end _ _ _ Hl). pose proof (lo_room _ _ _ Hl).
    apply (wp_rewrite_block _ P _ _ _ Hr); [lia| |done|done|done].
    intros x Hx. apply header_ok; [done|]. apply (lo_max _ _ _ Hl). }
  unfold rewrite_block, header in H.
  do 2 (log_step; apply wp_on_bio; apply wp_bind_inv in H; eapply wp_conseq; [exact H|];
        clear H; intros ? ? H).
  do 4 log_step. rewrite (lo_n _ _ _ Hl), Nat2Z.id, (lo_blocks _ _ _ Hl). regroup H.
Qed.

(** ** Commit *)

(** The block writes of a commit of [bs] with contents [v], in disk order:
    the log blocks, the header (the commit point), the home blocks, and the
    header again with [n = 0]. *)
Definition home_writes (v : Z -> list Z) (bs : list Z) : list (Z * list Z) := (fun b => (b, v b)) <$> bs.
Definition commit_writes (d : memdisk) (start : Z) (bs : list Z) (v : Z -> list Z) : list (Z * list Z) :=
  let h := header (d_data d start) bs in
  log_writes v start bs ++ [(start, h)] ++ home_writes v bs ++ [(start, header h [])].

(** The writes of a recovery. *)
Definition recover_writes (d : memdisk) (start : Z) (bs : list Z) : list (Z * list Z) :=
  install_writes (d_data d) start bs ++ [(start, header (d_data d start) [])].

Definition emptied (l : log) : log := l <| log_lh := (log_lh l) <| lh_n := 0 |> |>.

Lemma log_ok_emptied l d bs : log_ok l d bs -> log_ok (emptied l) d [].
Proof. intros [Hd ?? ?? ? ? ? ? ?]. split; simpl; try done; try lia; try constructor. Qed.

Lemma log_write_at d v start bs i b :
  bs !! i = Some b -> d_data (apply_writes d (log_writes v start bs)) (start + Z.of_nat i + 1) = v b.
Proof.
  intros Hi. apply apply_writes_at.
  - apply list_elem_of_fmap. exists (start + Z.of_nat i + 1, v b). split; [done|].
    apply elem_of_lookup_imap. eauto.
  - intros y Hy. apply elem_of_lookup_imap in Hy as (j & b' & [= Ej ->] & Hj).
    assert (i = j) as -> by lia. congruence.
Qed.

(** Once the log holds [v], installing from the log writes [v] home. *)
Lemma install_home v v' start bs :
  (forall i b, bs !! i = Some b -> v' (start + Z.of_nat i + 1) = v b) ->
  install_writes v' start bs = home_writes v bs.
Proof.
  intros H. apply list_eq. intros i. unfold install_writes, home_writes.
  rewrite list_lookup_imap, list_lookup_fmap. destruct (bs !! i) eqn:E; [|done].
  simpl. by rewrite (H _ _ E).
Qed.

Lemma wp_commit b l P bs v Q :
  bio_rep b P -> log_ok l (bio_disk b) bs -> txn_pins P bs v -> (length bs < HEAD)%nat -> bs <> [] ->
  (forall b', bio_rep b' ∅ ->
     bio_disk b' = apply_writes (bio_disk b) (commit_writes (bio_disk b) (log_start l) bs v) ->
     Q () (mk_logst b' (emptied l))) ->
  wp commit (mk_logst b l) Q.
Proof.
  intros Hr Hl HP Hlen Hne HQ. unfold commit. do 2 log_step. rewrite (lo_n _ _ _ Hl).
  destruct (Z.gtb_spec (Z.of_nat (length bs)) 0) as [_|?]; [|destruct bs; simpl in *; [done|lia]].
  pose proof (lo_start _ _ _ Hl). pose proof (lo_room _ _ _ Hl). pose proof (lo_nodup _ _ _ Hl) as Hnd.
  unfold when. log_step. apply (wp_write_log _ _ P bs v); try done. intros b1 P1 Hr1 HP1 D1.
  assert (Hl1 : log_ok l (bio_disk b1) bs) by (eapply log_ok_disk; [done|rewrite D1; apply apply_writes_size]).
  pose proof (txn_size _ _ _ HP1 Hnd) as Hsz1.
  log_step. apply (wp_write_head _ _ P1 bs); [done|done| |lia|].
  { apply (txn_None _ bs v); [done|]. intros Hk. pose proof (lo_home_at _ _ _ _ Hl Hk). lia. }
  intros b2 Hr2 D2.
  assert (Hl2 : log_ok l (bio_disk b2) bs) by (eapply log_ok_disk; [done|by rewrite D2]).
  log_step. apply (wp_install_trans _ _ P1 bs); [done|done| |lia| |].
  { intros k e. apply (txn_Some _ _ _ _ _ HP1). }
  { right. intros k Hk. destruct (txn_in _ _ _ _ HP1 Hk) as (e & -> & _). eauto. }
  intros b3 Hr3 D3. unfold set_n. do 2 log_step. fold (emptied l).
  assert (Hl3 : log_ok (emptied l) (bio_disk b3) []).
  { apply (log_ok_emptied _ _ bs). eapply log_ok_disk; [exact Hl2|]. rewrite D3. apply apply_writes_size. }
  apply (wp_write_head _ _ ∅ []); [done|done|done|rewrite map_size_empty; lia|].
  intros b4 Hr4 D4. apply HQ; [done|]. rewrite D4. unfold commit_writes.
  rewrite !apply_writes_app, <- D1.
  assert (D2h : d_data (bio_disk b1) (log_start l) = d_data (bio_disk b) (log_start l)).
  { rewrite D1. apply apply_writes_other. intros Hx%log_writes_fst. lia. }
  rewrite D2h in D2.
  assert (Hinst : install_writes (d_data (bio_disk b2)) (log_start l) bs = home_writes v bs).
  { apply install_home. intros i k Hi. rewrite D2. simpl. rewrite upd_ne, D1 by lia. by apply log_write_at. }
  rewrite Hinst in D3. change (apply_writes (bio_disk b1) [_]) with
    (disk_write (bio_disk b1) (log_start l) (header (d_data (bio_disk b) (log_start l)) bs)).
  rewrite <- D2, <- D3. simpl. f_equal. f_equal. rewrite D3, apply_writes_other.
  - rewrite D2. simpl. by rewrite upd_eq.
  - unfold home_writes. rewrite <- list_fmap_compose. simpl. rewrite list_fmap_id.
    intros Hk. pose proof (lo_home_at _ _ _ _ Hl Hk). lia.
Qed.

(** ** Recovery *)

(** Disk [d] has a log at [start] of [sz] blocks whose header lists [bs], and
    recovering it yields the contents [g] outside the log area. *)
Record log_holds (d : memdisk) (start sz : Z) (bs : list Z) (g : Z -> list Z) : Prop := {
  lg_disk : disk_ok d;
  lg_start : 2 <= start;
  lg_end : start + sz <= d_size d;
  lg_max : (length bs <= Z.to_nat LOGSIZE)%nat;
  lg_room : Z.of_nat (length bs) < sz;
  lg_nodup : NoDup bs;
  lg_home : Forall (fun b => start + sz <= b < d_size d /\ int_nonneg b) bs;
  lg_n : s32 (word_at (d_data d start) 0) = Z.of_nat (length bs);
  lg_blocks : get_blocks (d_data d start) 1 (length bs) = bs;
  lg_log : forall i b, bs !! i = Some b -> d_data d (start + Z.of_nat i + 1) = g b;
  lg_data : forall b, b < start \/ start + sz <= b -> b ∉ bs -> d_data d b = g b
}.

(** The super block of [g] describes that log. *)
Definition sb_describes (g : Z -> list Z) (start sz : Z) : Prop :=
  sb_logstart (superblock_decode (g 1)) = start /\ sb_nlog (superblock_decode (g 1)) = sz.

Lemma disk_ok_writes d ws :
  disk_ok d -> Forall (fun w => 0 <= fst w < d_size d /\ block_ok (snd w)) ws ->
  disk_ok (apply_writes d ws).
Proof.
  revert d. induction ws as [|[b x] ws IH]; intros d Hd Hws; [done|].
  apply Forall_cons_1 in Hws as [[Hb Hx] Hws]. apply IH; [by apply disk_write_ok|done].
Qed.

Lemma lg_home_at d start sz bs g b :
  log_holds d start sz bs g -> b ∈ bs -> start + sz <= b < d_size d.
Proof. intros H Hb. by destruct (proj1 (Forall_forall _ _) (lg_home _ _ _ _ _ H) _ Hb). Qed.

Lemma lg_hdr_ok d start sz bs g : log_holds d start sz bs g -> block_ok (d_data d start).
Proof. intros []. apply lg_disk0. lia. Qed.

(** Writing the home blocks with the contents the log has for them changes
    nothing about what recovery yields. *)
Lemma log_holds_home d start sz bs g ws :
  log_holds d start sz bs g -> (forall b x, (b, x) ∈ ws -> b ∈ bs /\ x = g b) ->
  log_holds (apply_writes d ws) start sz bs g.
Proof.
  intros H Hws.
  assert (Hother : forall b, b ∉ bs -> d_data (apply_writes d ws) b = d_data d b).
  { intros b Hb. apply apply_writes_other. intros ([b' x] & -> & Hin)%list_elem_of_fmap.
    by apply Hws in Hin as [? _]. }
  assert (Hlog : forall b, b < start + sz -> d_data (apply_writes d ws) b = d_data d b).
  { intros b Hb. apply Hother. intros Hin. pose proof (lg_home_at _ _ _ _ _ _ H Hin). lia. }
  assert (Hok : disk_ok (apply_writes d ws)).
  { apply disk_ok_writes; [apply (lg_disk _ _ _ _ _ H)|]. apply Forall_forall. intros [b x] Hin.
    destruct (Hws _ _ Hin) as [Hb ->]. simpl. pose proof (lg_home_at _ _ _ _ _ _ H Hb) as Hr.
    pose proof (lg_start _ _ _ _ _ H). pose proof (lg_room _ _ _ _ _ H).
    split; [lia|]. apply list_elem_of_lookup in Hb as [i Hi].
    rewrite <- (lg_log _ _ _ _ _ H _ _ Hi). apply (lg_disk _ _ _ _ _ H).
    pose proof (lookup_lt_Some _ _ _ Hi). pose proof (lg_end _ _ _ _ _ H). lia. }
  destruct H as [? ? He ? Hroom ? Hh ? ? Hl ?]. split; rewrite ?apply_writes_size; try done.
  - rewrite Hlog by lia. done.
  - rewrite Hlog by lia. done.
  - intros i b Hi. pose proof (lookup_lt_Some _ _ _ Hi). rewrite Hlog by lia. auto.
  - intros b Hb Hin. rewrite Hother by done. auto.
Qed.

(** Erasing the header once every home block is installed. *)
Lemma log_holds_clear d start sz bs g :
  log_holds d start sz bs g -> (forall b, b ∈ bs -> d_data d b = g b) ->
  log_holds (disk_write d start (header (d_data d start) [])) start sz [] g.
Proof.
  intros H Hin. pose proof (lg_hdr_ok _ _ _ _ _ H) as Hh.
  assert (Hok : block_ok (header (d_data d start) [])) by (apply header_ok; [done|simpl; lia]).
  destruct H as [? ? He ? Hroom ? ? ? ? Hl Hd]. split; try done; simpl; try lia.
  - apply disk_write_ok; [done|lia|done].
  - constructor.
  - rewrite upd_eq. apply header_n; [apply Hh|simpl; lia].
  - intros b Hb _. rewrite upd_ne by lia. destruct (decide (b ∈ bs)); auto.
Qed.

Lemma recover_elem d start sz bs g b x :
  log_holds d start sz bs g -> (b, x) ∈ install_writes (d_data d) start bs -> b ∈ bs /\ x = g b.
Proof.
  intros H Hin. apply elem_of_lookup_imap in Hin as (i & b' & [= -> ->] & Hi).
  split; [by eapply list_elem_of_lookup_2|]. by apply (lg_log _ _ _ _ _ H).
Qed.

Lemma install_all d start sz bs g b :
  log_holds d start sz bs g -> b ∈ bs ->
  d_data (apply_writes d (install_writes (d_data d) start bs)) b = g b.
Proof.
  intros H Hb. apply apply_writes_at; [by rewrite install_writes_fst|].
  intros y Hy. by apply (recover_elem _ _ _ _ _ _ _ H) in Hy as [_ ?].
Qed.

Lemma take_app_cases {A} (l1 l2 : list A) k :
  (exists k', take k (l1 ++ l2) = take k' l1) \/ (exists k', take k (l1 ++ l2) = l1 ++ take k' l2).
Proof.
  rewrite take_app. destruct (decide (k <= length l1)%nat).
  - left. exists k. replace (k - length l1)%nat with 0%nat by lia. by rewrite app_nil_r.
  - right. exists (k - length l1)%nat. by rewrite firstn_all2 by lia.
Qed.

Lemma elem_of_take_weak {A} (l : list A) k x : x ∈ take k l -> x ∈ l.
Proof. intros (i & Hi & _)%elem_of_take. by eapply list_elem_of_lookup_2. Qed.

Lemma recover_full d start sz bs g :
  log_holds d start sz bs g ->
  log_holds (apply_writes d (recover_writes d start bs)) start sz [] g.
Proof.
  intros H. unfold recover_writes. rewrite apply_writes_app. simpl.
  assert (H1 : log_holds (apply_writes d (install_writes (d_data d) start bs)) start sz bs g).
  { apply log_holds_home; [done|]. intros b x. by apply recover_elem with (sz := sz). }
  assert (Hs : d_data (apply_writes d (install_writes (d_data d) start bs)) start = d_data d start).
  { apply apply_writes_other. rewrite install_writes_fst. intros Hin.
    pose proof (lg_home_at _ _ _ _ _ _ H Hin). pose proof (lg_room _ _ _ _ _ H). lia. }
  rewrite <- Hs. apply (log_holds_clear _ _ _ bs); [done|]. intros b. by apply install_all with (sz := sz).
Qed.

(** A recovery interrupted after any number of block writes leaves a disk
    that recovers to the same contents. *)
Lemma recover_prefix d start sz bs g j :
  log_holds d start sz bs g ->
  exists bs', log_holds (apply_writes d (take j (recover_writes d start bs))) start sz bs' g.
Proof.
  intros H. unfold recover_writes.
  destruct (take_app_cases (install_writes (d_data d) start bs)
    [(start, header (d_data d start) [])] j) as [[k ->]|[[|k] ->]].
  - exists bs. apply log_holds_home; [done|].
    intros b x Hin%elem_of_take_weak. by apply recover_elem with (2 := Hin) in H.
  - exists bs. rewrite app_nil_r. apply log_holds_home; [done|]. intros b x. by apply recover_elem with (sz := sz).
  - exists []. simpl. rewrite take_nil. by apply recover_full.
Qed.

(** [initlog] on the boot state of a disk performs exactly those writes. *)
Lemma wp_read_head b l bs start sz g Q :
  bio_rep b ∅ -> log_holds (bio_disk b) start sz bs g ->
  log_dev l = ROOTDEV -> log_start l = start -> log_size l = sz ->
  length (lh_block (log_lh l)) = Z.to_nat LOGSIZE ->
  (forall b' l', bio_rep b' ∅ -> bio_disk b' = bio_disk b -> log_ok l' (bio_disk b) bs ->
     log_start l' = start -> log_outstanding l' = log_outstanding l ->
     log_committing l' = log_committing l -> log_size l' = sz -> Q () (mk_logst b' l')) ->
  wp read_head (mk_logst b l) Q.
Proof.
  intros Hr H Hdev Hst Hsz Hlen HQ. unfold read_head. do 4 log_step. rewrite Hdev, Hst.
  pose proof (lg_start _ _ _ _ _ H). pose proof (lg_room _ _ _ _ _ H). pose proof (lg_end _ _ _ _ _ H).
  pose proof (lg_max _ _ _ _ _ H).
  do 2 log_step. apply (wp_bread _ ∅ _ _ Hr); [lia|by intros e; rewrite lookup_empty| |].
  { right. rewrite map_size_empty. apply Nat.ltb_lt. reflexivity. }
  intros i b1 Hr1 [D1 _]. rewrite bread_entry_None in Hr1 by apply lookup_empty.
  set (e := mk_centry i true false _) in Hr1.
  do 2 log_step. apply (wp_bdata b1 _ start e i _ Hr1); [by simplify_map_eq|done|].
  do 6 log_step. log_step.
  apply (wp_brelse b1 _ start e i _ Hr1); [by simplify_map_eq|done|done|by intros _; rewrite D1|].
  intros b2 Hr2 [D2 _]. simpl in Hr2. rewrite delete_insert_id in Hr2 by apply lookup_empty.
  simpl. rewrite (lg_n _ _ _ _ _ H), Nat2Z.id, (lg_blocks _ _ _ _ _ H).
  apply HQ; try done; [by rewrite D2, D1|].
  split; simpl; rewrite ?Hst, ?Hsz; try done.
  - rewrite splice_length; [done|]. simpl. lia.
  - unfold splice. simpl. by rewrite take_app_length.
  - apply (lg_nodup _ _ _ _ _ H).
  - eapply Forall_impl; [apply (lg_home _ _ _ _ _ H)|]. by intros x [? _].
Qed.

Lemma wp_readsb s Q :
  bio_rep s ∅ -> 1 < d_size (bio_disk s) ->
  (forall s', bio_rep s' ∅ -> bio_disk s' = bio_disk s ->
     Q (superblock_decode (d_data (bio_disk s) 1)) s') ->
  wp (readsb ROOTDEV) s Q.
Proof.
  intros Hr Hsz HQ. unfold readsb. wp_step.
  apply (wp_bread _ ∅ _ _ Hr); [lia|by intros e; rewrite lookup_empty| |].
  { right. rewrite map_size_empty. apply Nat.ltb_lt. reflexivity. }
  intros i s1 Hr1 [D1 _]. rewrite bread_entry_None in Hr1 by apply lookup_empty.
  set (e := mk_centry i true false _) in Hr1.
  wp_step. apply (wp_bdata s1 _ 1 e i _ Hr1); [by simplify_map_eq|done|].
  wp_step. apply (wp_brelse s1 _ 1 e i _ Hr1); [by simplify_map_eq|done|done|by intros _; rewrite D1|].
  intros s2 Hr2 [D2 _]. simpl in Hr2. rewrite delete_insert_id in Hr2 by apply lookup_empty.
  apply wp_ret, HQ; [done|congruence].
Qed.

Lemma lg_sb d start sz bs g : log_holds d start sz bs g -> d_data d 1 = g 1.
Proof.
  intros H. pose proof (lg_start _ _ _ _ _ H). apply (lg_data _ _ _ _ _ H); [lia|].
  intros Hin. pose proof (lg_home_at _ _ _ _ _ _ H Hin). pose proof (lg_room _ _ _ _ _ H). lia.
Qed.

Lemma wp_initlog b l bs start sz g Q :
  bio_rep b ∅ -> log_holds (bio_disk b) start sz bs g -> sb_describes g start sz ->
  length (lh_block (log_lh l)) = Z.to_nat LOGSIZE ->
  (forall b' l', bio_rep b' ∅ ->
     bio_disk b' = apply_writes (bio_disk b) (recover_writes (bio_disk b) start bs) ->
     log_ok l' (bio_disk b') [] -> log_start l' = start -> log_size l' = sz ->
     log_outstanding l' = log_outstanding l -> log_committing l' = log_committing l ->
     Q () (mk_logst b' l')) ->
  wp (initlog ROOTDEV) (mk_logst b l) Q.
Proof.
  intros Hr H [Hs1 Hs2] Hlen HQ. unfold initlog. change (BSIZE <=? LOGHEADER_SZ) with false. cbv iota.
  pose proof (lg_start _ _ _ _ _ H). pose proof (lg_room _ _ _ _ _ H). pose proof (lg_end _ _ _ _ _ H).
  do 2 log_step. apply wp_readsb; [done|lia|]. intros b1 Hr1 D1.
  rewrite (lg_sb _ _ _ _ _ H), Hs1, Hs2. do 2 log_step. unfold recover_from_log. log_step.
  apply (wp_read_head b1 _ bs start sz g); try done; [by rewrite D1|].
  intros b2 l2 Hr2 D2 Hl2 E1 E2 E3 E4. log_step. rewrite D1 in *.
  apply (wp_install_trans _ _ ∅ bs _ Hr2); [by rewrite D2|by intros k e; rewrite lookup_empty| |by left|].
  { rewrite map_size_empty. apply Nat.ltb_lt. reflexivity. }
  rewrite E1, D2. intros b3 Hr3 D3. unfold set_n. do 2 log_step. fold (emptied l2).
  assert (Hl3 : log_ok (emptied l2) (bio_disk b3) []).
  { apply (log_ok_emptied _ _ bs). eapply log_ok_disk; [done|]. rewrite D3. apply apply_writes_size. }
  apply (wp_write_head _ _ ∅ [] _ Hr3); [done|done|rewrite map_size_empty; apply Nat.ltb_lt; reflexivity|].
  simpl. rewrite E1. intros b4 Hr4 D4. apply HQ; try done.
  - rewrite D4. unfold recover_writes. rewrite apply_writes_app, <- D3. simpl. do 2 f_equal.
    rewrite D3. apply apply_writes_other. rewrite install_writes_fst. intros Hin.
    pose proof (lg_home_at _ _ _ _ _ _ H Hin). lia.
  - eapply log_ok_disk; [done|]. by rewrite D4.
Qed.

(** ** Crashes *)

(** The contents a disk has after recovery, outside the log area. *)
Definition recovers_to (d : memdisk) (start sz : Z) (g : Z -> list Z) : Prop :=
  exists bs, log_holds d start sz bs g.

(** The log structure at boot ([.bss]). *)
Definition bss_log : log :=
  mk_log 0 0 0 false 0 (mk_logheader 0 (replicate (Z.to_nat LOGSIZE) 0)).
Definition boot_log (d : memdisk) (pid : Z) : logst := mk_logst (boot_bio d pid) bss_log.

(** The writes of a run are the newest entries of the disk's write trace. *)
Definition writes_between (d d' : memdisk) : list (Z * list Z) :=
  reverse (take (length (d_trace d') - length (d_trace d)) (d_trace d')).

Lemma writes_between_apply d ws : writes_between d (apply_writes d ws) = ws.
Proof.
  unfold writes_between. rewrite apply_writes_trace, length_app, Nat.add_sub, take_app_length.
  apply reverse_involutive.
Qed.

(** A boot that crashes after [j] of the writes of its recovery. *)
Inductive crashed_boot : memdisk -> memdisk -> Prop :=
| crashed_boot_intro d pid s j :
    initlog ROOTDEV (boot_log d pid) = Ok () s ->
    crashed_boot d (apply_writes d (take j (writes_between d (bio_disk (l_bio s))))).

Lemma initlog_boot d pid start sz bs g :
  log_holds d start sz bs g -> sb_describes g start sz ->
  exists s, initlog ROOTDEV (boot_log d pid) = Ok () s /\ bio_rep (l_bio s) ∅ /\
    bio_disk (l_bio s) = apply_writes d (recover_writes d start bs) /\
    log_ok (l_log s) (bio_disk (l_bio s)) [] /\ log_outstanding (l_log s) = 0 /\
    log_committing (l_log s) = false /\ log_start (l_log s) = start /\ log_size (l_log s) = sz.
Proof.
  intros H Hsb.
  assert (Hw : wp (initlog ROOTDEV) (boot_log d pid) (fun _ s => bio_rep (l_bio s) ∅ /\
    bio_disk (l_bio s) = apply_writes d (recover_writes d start bs) /\
    log_ok (l_log s) (bio_disk (l_bio s)) [] /\ log_outstanding (l_log s) = 0 /\
    log_committing (l_log s) = false /\ log_start (l_log s) = start /\ log_size (l_log s) = sz)).
  { apply (wp_initlog _ _ bs start sz g); try done.
    apply boot_rep. apply (lg_disk _ _ _ _ _ H). }
  apply wp_elim in Hw as ([] & s & Hrun & Hs). exists s. split; [exact Hrun|exact Hs].
Qed.

Lemma crashed_boot_recovers d d' start sz g :
  sb_describes g start sz -> recovers_to d start sz g -> crashed_boot d d' -> recovers_to d' start sz g.
Proof.
  intros Hsb [bs H] Hc. destruct Hc as [d pid s j Hrun].
  destruct (initlog_boot d pid start sz bs g H Hsb) as (s' & Hrun' & _ & D & _).
  rewrite Hrun in Hrun'. injection Hrun' as <-. rewrite D, writes_between_apply. by apply (recover_prefix _ _ sz).
Qed.

(** The disk contents [f] with the transaction [bs], [v] applied. *)
Definition overlay (f : Z -> list Z) (bs : list Z) (v : Z -> list Z) (b : Z) : list Z :=
  if decide (b ∈ bs) then v b else f b.

(** The blocks a transaction may log on [d]. *)
Record txn_ok (d : memdisk) (start sz : Z) (bs : list Z) (v : Z -> list Z) : Prop := {
  tx_max : (length bs <= Z.to_nat LOGSIZE)%nat;
  tx_room : Z.of_nat (length bs) < sz;
  tx_nodup : NoDup bs;
  tx_home : Forall (fun b => (start + sz <= b < d_size d /\ int_nonneg b) /\ block_ok (v b)) bs
}.

(** Writes inside the log area past the header of an empty log are invisible. *)
Lemma log_holds_area d start sz f ws :
  log_holds d start sz [] f ->
  Forall (fun w => start < fst w < start + sz /\ block_ok (snd w)) ws ->
  log_holds (apply_writes d ws) start sz [] f.
Proof.
  intros H Hws.
  assert (Hother : forall b, b <= start \/ start + sz <= b -> d_data (apply_writes d ws) b = d_data d b).
  { intros b Hb. apply apply_writes_other. intros (w & -> & Hin)%list_elem_of_fmap.
    apply (proj1 (Forall_forall _ _) Hws) in Hin. lia. }
  destruct H as [? ? He ? Hroom ? Hh Hn ? Hl Hd]. split; rewrite ?apply_writes_size; try done.
  - apply disk_ok_writes; [done|]. eapply Forall_impl; [exact Hws|]. intros w [? ?]. split; [lia|done].
  - by rewrite Hother by lia.
  - intros b Hb Hin. rewrite Hother by lia. auto.
Qed.

Lemma log_writes_area d start sz bs v :
  txn_ok d start sz bs v ->
  Forall (fun w => start < fst w < start + sz /\ block_ok (snd w)) (log_writes v start bs).
Proof.
  intros [Hmax Hroom Hnd Hh]. apply Forall_forall. intros w (i & b & -> & Hi)%elem_of_lookup_imap.
  simpl. pose proof (lookup_lt_Some _ _ _ Hi). split; [lia|].
  by apply (proj1 (Forall_lookup _ _) Hh _ _ Hi).
Qed.

(** The commit point: with the log blocks in place, writing the header turns
    the recovered contents from [f] into [overlay f bs v]. *)
Lemma log_holds_commit d start sz bs v f :
  log_holds d start sz [] f -> txn_ok d start sz bs v ->
  (forall i b, bs !! i = Some b -> d_data d (start + Z.of_nat i + 1) = v b) ->
  log_holds (disk_write d start (header (d_data d start) bs)) start sz bs (overlay f bs v).
Proof.
  intros H [Hmax Hroom Hnd Hh] Hlog. pose proof (lg_hdr_ok _ _ _ _ _ H) as Hok.
  assert (Hint : Forall int_nonneg bs) by (eapply Forall_impl; [exact Hh|]; intros x [[_ ?] _]; done).
  destruct H as [? ? He _ _ _ _ _ _ _ Hd]. split; try done; simpl.
  - apply disk_write_ok; [done|lia|by apply header_ok].
  - eapply Forall_impl; [exact Hh|]. by intros x [? _].
  - rewrite upd_eq. by apply header_n; [apply Hok|].
  - rewrite upd_eq. by apply header_blocks; [apply Hok| |].
  - intros i b Hi. rewrite upd_ne by lia. unfold overlay.
    rewrite decide_True by (by eapply list_elem_of_lookup_2). auto.
  - intros b Hb Hin. rewrite upd_ne by lia. unfold overlay. rewrite decide_False by done.
    apply Hd; [done|]. apply not_elem_of_nil.
Qed.

Lemma home_writes_elem v bs b x f : (b, x) ∈ home_writes v bs -> b ∈ bs /\ x = overlay f bs v b.
Proof.
  intros (b' & [= -> ->] & Hin)%list_elem_of_fmap. split; [done|]. unfold overlay.
  by rewrite decide_True.
Qed.

Lemma commit_before d start sz bs v f k :
  log_holds d start sz [] f -> txn_ok d start sz bs v -> (k <= length bs)%nat ->
  log_holds (apply_writes d (take k (commit_writes d start bs v))) start sz [] f.
Proof.
  intros H Htx Hk. unfold commit_writes.
  rewrite take_app_le by (unfold log_writes; by rewrite length_imap).
  apply log_holds_area; [done|]. apply Forall_take. by eapply log_writes_area.
Qed.

Lemma commit_after d start sz bs v f k :
  log_holds d start sz [] f -> txn_ok d start sz bs v -> (length bs < k)%nat ->
  exists bs', (bs' = [] \/ bs' = bs) /\
    log_holds (apply_writes d (take k (commit_writes d start bs v))) start sz bs' (overlay f bs v) /\
    ((length (commit_writes d start bs v) <= k)%nat -> bs' = []).
Proof.
  intros H Htx Hk. unfold commit_writes. set (h := header _ bs).
  rewrite take_app_ge by (unfold log_writes; rewrite length_imap; lia).
  destruct (k - length (log_writes v start bs))%nat as [|k'] eqn:Ek.
  { unfold log_writes in Ek. rewrite length_imap in Ek. lia. }
  rewrite apply_writes_app. simpl. set (d1 := apply_writes d (log_writes v start bs)).
  assert (Hs1 : d_data d1 start = d_data d start).
  { apply apply_writes_other. intros Hx%log_writes_fst. lia. }
  assert (H2 : log_holds (disk_write d1 start h) start sz bs (overlay f bs v)).
  { unfold h. rewrite <- Hs1. apply log_holds_commit.
    - apply log_holds_area; [done|]. by eapply log_writes_area.
    - destruct Htx. split; try done. unfold d1. by rewrite apply_writes_size.
    - intros i b Hi. by apply log_write_at. }
  assert (Hhome : forall k, log_holds (apply_writes (disk_write d1 start h) (take k (home_writes v bs)))
    start sz bs (overlay f bs v)).
  { intros j. apply log_holds_home; [done|]. intros b x Hin%elem_of_take_weak. by apply home_writes_elem. }
  assert (Hlen : length (home_writes v bs) = length bs) by apply length_fmap.
  destruct (decide (k' <= length bs)%nat) as [Hle|Hgt].
  - exists bs. rewrite take_app_le by lia. split_and!; [by right|apply Hhome|].
    rewrite length_app. simpl. rewrite length_app, Hlen. simpl.
    unfold log_writes in *. rewrite length_imap in *. lia.
  - exists []. rewrite take_app_ge, apply_writes_app by lia.
    destruct (k' - _)%nat as [|k''] eqn:Ek'; [lia|]. simpl. rewrite take_nil. simpl.
    split_and!; [by left| |done]. specialize (Hhome (length bs)).
    rewrite <- Hlen, firstn_all in Hhome.
    assert (Hh : d_data (apply_writes (disk_write d1 start h) (home_writes v bs)) start = h).
    { rewrite apply_writes_other; [simpl; apply upd_eq|]. intros ([b x] & -> & Hin)%list_elem_of_fmap.
      apply (home_writes_elem _ _ _ _ f) in Hin as [Hin _]. pose proof (lg_home_at _ _ _ _ _ _ H2 Hin).
      pose proof (lg_room _ _ _ _ _ H2). simpl in *. lia. }
    rewrite <- Hh at 2. apply (log_holds_clear _ _ _ bs); [done|]. intros b Hb.
    apply apply_writes_at.
    + apply list_elem_of_fmap. exists (b, v b). split; [done|]. apply list_elem_of_fmap. eauto.
    + intros y Hy. by apply (home_writes_elem _ _ _ _ f) in Hy as [_ ?].
Qed.

(** What a crash at any point of [commit] leaves behind. *)
Lemma commit_crash b l P bs v f :
  bio_rep b P -> log_ok l (bio_disk b) bs -> txn_pins P bs v -> (length bs < HEAD)%nat -> bs <> [] ->
  Forall int_nonneg bs -> log_holds (bio_disk b) (log_start l) (log_size l) [] f ->
  wp commit (mk_logst b l) (fun _ s' =>
    let d := bio_disk b in let d' := bio_disk (l_bio s') in
    bio_rep (l_bio s') ∅ /\ l_log s' = emptied l /\
    log_holds d' (log_start l) (log_size l) [] (overlay f bs v) /\
    d' = apply_writes d (writes_between d d') /\
    forall k, recovers_to (apply_writes d (take k (writes_between d d'))) (log_start l) (log_size l)
                (if decide (k <= length bs)%nat then f else overlay f bs v)).
Proof.
  intros Hr Hl HP Hlen Hne Hint Hg.
  assert (Htx : txn_ok (bio_disk b) (log_start l) (log_size l) bs v).
  { destruct Hl as [? ? ? ? ? ? ? ? ? Hh]. split; try done. apply Forall_forall. intros k Hk.
    pose proof (proj1 (Forall_forall _ _) Hh _ Hk). pose proof (proj1 (Forall_forall _ _) Hint _ Hk).
    split; [done|]. destruct (txn_in _ _ _ _ HP Hk) as (e & He & _ & _ & <-).
    destruct (rep_lookup _ _ _ _ Hr He) as (bf & _ & _ & _ & [Hbf _] & _ & _ & Hd & _).
    by rewrite Hd. }
  apply (wp_commit _ _ P bs v); try done. intros b' Hr' D'. cbn [l_bio l_log]. rewrite D', writes_between_apply.
  split_and!; try done.
  - destruct (commit_after _ _ _ _ _ _ (length (commit_writes (bio_disk b) (log_start l) bs v)) Hg Htx)
      as (bs' & _ & Hh & Hbs); [|rewrite Hbs, firstn_all in Hh by lia; done].
    unfold commit_writes. rewrite !length_app. unfold log_writes. rewrite length_imap. simpl. lia.
  - intros k. case_decide; [exists []; by apply commit_before|].
    destruct (commit_after _ _ _ _ _ _ k Hg Htx) as (bs' & _ & Hh & _); [lia|]. by exists bs'.
Qed.

(** Boots that crash in their recovery do not change what the next complete
    recovery yields. *)
Lemma recovery_contents d d' pid start sz g :
  sb_describes g start sz -> recovers_to d start sz g -> rtc crashed_boot d d' ->
  exists s, initlog ROOTDEV (boot_log d' pid) = Ok () s /\ lh_n (log_lh (l_log s)) = 0 /\
    log_holds (bio_disk (l_bio s)) start sz [] g.
Proof.
  intros Hsb H Hc.
  assert (recovers_to d' start sz g) as [bs H'].
  { apply (rtc_invariant crashed_boot (fun d => recovers_to d start sz g) d d'); [done| |done].
    intros d1 d2 H1 H2. by apply crashed_boot_recovers with d1. }
  destruct (initlog_boot d' pid start sz bs g H' Hsb) as (s & Hrun & _ & D & Hl & _).
  exists s. split_and!; [done|apply (lo_n _ _ _ Hl)|]. rewrite D. by apply recover_full.
Qed.

(** recovery is correct and idempotent.  Let disk [d] recover to the
    contents [g].  After any number of boots that crash at an arbitrary block
    write of their recovery, the next boot's [initlog] returns, the log is
    empty and every block outside the log area has its contents in [g]. *)
Theorem recovery_correct d d' pid start sz g :
  sb_describes g start sz -> recovers_to d start sz g -> rtc crashed_boot d d' ->
  exists s, initlog ROOTDEV (boot_log d' pid) = Ok () s /\
    lh_n (log_lh (l_log s)) = 0 /\ s32 (word_at (d_data (bio_disk (l_bio s)) start) 0) = 0 /\
    forall b, b < start \/ start + sz <= b -> d_data (bio_disk (l_bio s)) b = g b.
Proof.
  intros Hsb H Hc. destruct (recovery_contents d d' pid start sz g Hsb H Hc) as (s & Hrun & Hn & Hg).
  exists s. split_and!; [done|done|apply (lg_n _ _ _ _ _ Hg)|].
  intros b Hb. apply (lg_data _ _ _ _ _ Hg); [done|apply not_elem_of_nil].
Qed.

(** A disk of 1000 blocks laid out by mkfs with nothing but its super block,
    and the same disk with a committed, not yet installed transaction on
    blocks 40 and 41. *)
Definition demo_sb : superblock := mk_superblock 1000 941 200 30 2 32 58.
Definition demo_fs : memdisk :=
  mk_memdisk 1000 (fun b => if b =? 1 then splice zero_block 0 (superblock_encode demo_sb) else zero_block) [].
Definition demo_committed : memdisk :=
  apply_writes demo_fs [(3, replicate 512 7); (4, replicate 512 9); (2, header zero_block [40; 41])].
Definition demo_contents (b : Z) : list Z :=
  if b =? 40 then replicate 512 7 else if b =? 41 then replicate 512 9 else d_data demo_fs b.

Lemma demo_committed_holds : log_holds demo_committed 2 30 [40; 41] demo_contents.
Proof.
  assert (Hblk : forall b, block_ok (d_data demo_fs b)).
  { intros b. simpl. destruct (b =? 1); [|apply zero_block_ok].
    apply (bool_decide_unpack (block_ok _)). vm_compute. exact I. }
  split; try done.
  - apply disk_ok_writes; [split; [simpl; lia|by intros b _]|].
    repeat (apply Forall_cons_2; [split; [simpl; lia|];
      apply (bool_decide_unpack (block_ok _)); vm_compute; exact I|]). constructor.
  - vm_compute. lia.
  - apply (bool_decide_unpack (NoDup _)). vm_compute. exact I.
  - repeat constructor; unfold int_nonneg; simpl; lia.
  - intros [|[|i]] b; simpl; intros [= <-]; reflexivity.
  - intros b Hb Hin. rewrite 2!elem_of_cons in Hin.
    unfold demo_contents. rewrite (proj2 (Z.eqb_neq b 40)), (proj2 (Z.eqb_neq b 41)) by lia.
    apply apply_writes_other. simpl. rewrite !elem_of_cons.
    intros [?|[?|[?|?%not_elem_of_nil]]]; [lia..|done].
Qed.

Lemma recovery_correct_witness :
  exists s, initlog ROOTDEV (boot_log (apply_writes demo_committed [(40, replicate 512 7)]) 1) = Ok () s /\
    d_data (bio_disk (l_bio s)) 41 = replicate 512 9.
Proof.
  destruct (recovery_correct demo_committed (apply_writes demo_committed [(40, replicate 512 7)]) 1 2 30 demo_contents)
    as (s & H1 & _ & _ & H2).
  - split; vm_compute; reflexivity.
  - exists [40; 41]. exact demo_committed_holds.
  - destruct (initlog_boot demo_committed 1 2 30 [40; 41] demo_contents demo_committed_holds)
      as (s & Hs & _ & D & _); [split; vm_compute; reflexivity|].
    apply rtc_once. pose proof (crashed_boot_intro demo_committed 1 s 1 Hs) as Hc.
    rewrite D, writes_between_apply in Hc. exact Hc.
  - exists s. split; [exact H1|]. rewrite H2 by lia. reflexivity.
Defined.
