(* ===== verification/BlockLayer.v ===== *)
(** The block interface of the file system.

    [fs.c] reaches the disk only through [bread], [log_write] and [brelse] and
    the data of the buffers it has locked.  [BlockOps] is that set of
    operations and [BlockLayer] what the file system may rely on inside a
    transaction, stated on an abstract transaction [txn]: the current contents
    of every block, the buffers the caller holds, the blocks logged so far and
    how many the transaction may log. *)

From S2P Require Import Prelude Layout.

(** The number of buffers one caller may hold at a time. *)
Definition MAXHELD : nat := 4.

Record txn := mk_txn {
  t_base : Z -> list Z;             (* contents of every block before the transaction *)
  t_view : Z -> list Z;             (* contents of every block *)
  t_held : gmap Z (nat * bool);     (* locked blocks: buffer, changed since last logged *)
  t_logged : gset Z;                (* blocks logged so far *)
  t_cap : nat;                      (* how many blocks may be logged *)
  t_lo : Z; t_hi : Z                (* the loggable blocks are [t_lo, t_hi) *)
}.
#[export] Instance eta_txn : Settable txn := fun t =>
  mk_txn (t_base t) (t_view t) (t_held t) (t_logged t) (t_cap t) (t_lo t) (t_hi t).

(** Two transactions are equivalent when they differ at most in the
    representation of the contents. *)
#[export] Instance txn_equiv : Equiv txn := fun t t' =>
  (forall k, t_view t k = t_view t' k) /\ t_base t = t_base t' /\ t_held t = t_held t' /\ t_logged t = t_logged t' /\ t_cap t = t_cap t' /\
  t_lo t = t_lo t' /\ t_hi t = t_hi t'.

#[export] Instance txn_equivalence : Equivalence (≡@{txn}).
Proof.
  split.
  - intros t. repeat split.
  - intros t t' (H & ? & ? & ? & ? & ? & ?). by repeat split.
  - intros t1 t2 t3 (H & ? & ? & ? & ? & ? & ?) (H' & ? & ? & ? & ? & ? & ?).
    repeat split; congruence.
Qed.

Definition hold (blk : Z) (i : nat) (m : bool) (t : txn) : txn :=
  t <| t_held := <[blk := (i, m)]> (t_held t) |>.
Definition drop_hold (blk : Z) (t : txn) : txn := t <| t_held := delete blk (t_held t) |>.
Definition put_view (blk : Z) (d : list Z) (t : txn) : txn := t <| t_view := upd (t_view t) blk d |>.
Definition log_mark (blk : Z) (t : txn) : txn := t <| t_logged := {[blk]} ∪ t_logged t |>.

(** Block [blk] is logged already or there is room for one more. *)
Definition loggable (blk : Z) (t : txn) : Prop := (size ({[blk]} ∪ t_logged t) <= t_cap t)%nat.

Class BlockOps (S : Type) := {
  bl_bread : Z -> Z -> M S nat;
  bl_data : nat -> M S (list Z);
  bl_set : nat -> list Z -> M S ();
  bl_log_write : nat -> M S ();
  bl_brelse : nat -> M S ()
}.

Class BlockLayer (S : Type) `{BlockOps S} := {
  bl_rep : S -> txn -> Prop;
  bl_rep_proper :: Proper (eq ==> (≡) ==> iff) bl_rep;
  bl_bound s t : bl_rep s t -> 2 <= t_lo t <= t_hi t /\ t_hi t < 2 ^ 31;
  bl_ok s t k : bl_rep s t -> 0 <= k < t_hi t -> block_ok (t_view t k);
  bl_bread_spec s t blk :
    bl_rep s t -> 0 <= blk < t_hi t -> t_held t !! blk = None -> (size (t_held t) < MAXHELD)%nat ->
    wp (bl_bread ROOTDEV blk) s (fun i s' => bl_rep s' (hold blk i false t));
  bl_data_spec s t blk i m :
    bl_rep s t -> t_held t !! blk = Some (i, m) ->
    wp (bl_data i) s (fun d s' => d = t_view t blk /\ s' = s);
  bl_set_spec s t blk i m d :
    bl_rep s t -> t_held t !! blk = Some (i, m) -> t_lo t <= blk < t_hi t -> block_ok d ->
    wp (bl_set i d) s (fun _ s' => bl_rep s' (put_view blk d (hold blk i true t)));
  bl_log_write_spec s t blk i m :
    bl_rep s t -> t_held t !! blk = Some (i, m) -> t_lo t <= blk < t_hi t -> loggable blk t ->
    wp (bl_log_write i) s (fun _ s' => bl_rep s' (log_mark blk (hold blk i false t)));
  bl_brelse_spec s t blk i :
    bl_rep s t -> t_held t !! blk = Some (i, false) ->
    wp (bl_brelse i) s (fun _ s' => bl_rep s' (drop_hold blk t))
}.
