(* ===== verification/LogTxn.v ===== *)
(** Transactions on the log: [log.c] and [bio.c] implement the block interface
    of the file system, and [end_op] makes a transaction atomic across
    crashes.  The last part is the admission of concurrent system calls to the
    log. *)

From S2P Require Import Prelude Layout Sleeplock Ring Bio Log BlockLayer.

#[export] Instance logst_ops : BlockOps logst := {|
  bl_bread := fun dev blk => on_bio (bread dev blk);
  bl_data := fun i => on_bio (bdata i);
  bl_set := fun i d => on_bio (set_data i d);
  bl_log_write := log_write;
  bl_brelse := fun i => on_bio (brelse i)
|}.

(** State [s] is inside a transaction [t] whose logged blocks are [bs]; [P] is
    the cache's pinned part. *)
Record txn_inv (s : logst) (t : txn) (P : gmap Z centry) (bs : list Z) : Prop := {
  ti_bio : bio_rep (l_bio s) P;
  ti_log : log_ok (l_log s) (bio_disk (l_bio s)) bs;
  ti_clean : log_holds (bio_disk (l_bio s)) (log_start (l_log s)) (log_size (l_log s)) []
               (d_data (bio_disk (l_bio s)));
  ti_lo : t_lo t = log_start (l_log s) + log_size (l_log s);
  ti_hi : t_hi t = d_size (bio_disk (l_bio s));
  ti_hi_int : t_hi t < 2 ^ 31;
  ti_base : t_base t = d_data (bio_disk (l_bio s));
  ti_sb : sb_describes (t_base t) (log_start (l_log s)) (log_size (l_log s));
  ti_size : MAXOPBLOCKS + 1 < log_size (l_log s);
  ti_com : log_committing (l_log s) = false;
  ti_out : log_outstanding (l_log s) = if (t_cap t =? 0)%nat then 0 else 1;
  ti_logged : forall k, k ∈ bs <-> k ∈ t_logged t;
  ti_count : (size (t_logged t) <= t_cap t)%nat;
  ti_room : Z.of_nat (t_cap t) + 1 < log_size (l_log s);
  ti_bufs : (t_cap t + MAXHELD <= HEAD)%nat;
  ti_held : (size (t_held t) <= MAXHELD)%nat;
  ti_pin : forall k e, P !! k = Some e ->
    ce_data e = t_view t k /\ ce_dirty e = bool_decide (k ∈ bs) /\
    fst <$> t_held t !! k = if ce_held e then Some (ce_idx e) else None;
  ti_none : forall k, P !! k = None ->
    k ∉ bs /\ t_held t !! k = None /\ t_view t k = d_data (bio_disk (l_bio s)) k;
  ti_unmod : forall k i, t_held t !! k = Some (i, false) -> k ∉ bs ->
    t_view t k = d_data (bio_disk (l_bio s)) k
}.

Definition txn_rep (s : logst) (t : txn) : Prop := exists P bs, txn_inv s t P bs.

(** A held block is a pinned, locked entry. *)
Lemma txn_held s t P bs blk i m :
  txn_inv s t P bs -> t_held t !! blk = Some (i, m) ->
  exists e, P !! blk = Some e /\ ce_idx e = i /\ ce_held e = true /\
    ce_data e = t_view t blk /\ ce_dirty e = bool_decide (blk ∈ bs).
Proof.
  intros H Hh. destruct (P !! blk) as [e|] eqn:E.
  - destruct (ti_pin _ _ _ _ H _ _ E) as (Hd & Hdy & Hf). rewrite Hh in Hf. simpl in Hf.
    exists e. destruct (ce_held e) eqn:Eh; [|done]. by injection Hf as <-.
  - apply (ti_none _ _ _ _ H) in E as (_ & E & _). congruence.
Qed.

Lemma txn_logged_length s t P bs : txn_inv s t P bs -> length bs = size (t_logged t).
Proof.
  intros H. rewrite <- (size_list_to_set (C := gset Z) bs) by apply (lo_nodup _ _ _ (ti_log _ _ _ _ H)).
  f_equal. apply set_eq. intros k. rewrite elem_of_list_to_set. apply (ti_logged _ _ _ _ H).
Qed.

Lemma txn_pinned_size s t P bs :
  txn_inv s t P bs -> (size P <= length bs + size (t_held t))%nat.
Proof.
  intros H. rewrite <- !size_dom.
  transitivity (size (list_to_set bs ∪ dom (t_held t) : gset Z)).
  - apply subseteq_size. intros k [e He]%elem_of_dom.
    destruct (ti_pin _ _ _ _ H _ _ He) as (_ & Hdy & Hf).
    pose proof (rep_pinned _ _ _ _ (ti_bio _ _ _ _ H) He) as Hp.
    rewrite elem_of_union, elem_of_list_to_set, elem_of_dom.
    apply orb_true_iff in Hp as [Hp|Hp]; rewrite Hp in *.
    + right. destruct (t_held t !! k); [done|discriminate].
    + left. symmetry in Hdy. by apply bool_decide_eq_true in Hdy.
  - rewrite size_union_alt. rewrite size_list_to_set by apply (lo_nodup _ _ _ (ti_log _ _ _ _ H)).
    pose proof (subseteq_size (dom (t_held t) ∖ list_to_set bs) (dom (t_held t)) ltac:(set_solver)). lia.
Qed.

Lemma txn_rep_bound s t : txn_rep s t -> 2 <= t_lo t <= t_hi t /\ t_hi t < 2 ^ 31.
Proof.
  intros (P & bs & H). pose proof (ti_lo _ _ _ _ H). pose proof (ti_hi _ _ _ _ H).
  pose proof (lo_start _ _ _ (ti_log _ _ _ _ H)). pose proof (lo_end _ _ _ (ti_log _ _ _ _ H)).
  pose proof (ti_hi_int _ _ _ _ H). pose proof (ti_room _ _ _ _ H). lia.
Qed.

Lemma txn_rep_block s t k : txn_rep s t -> 0 <= k < t_hi t -> block_ok (t_view t k).
Proof.
  intros (P & bs & H) Hk. rewrite (ti_hi _ _ _ _ H) in Hk. destruct (P !! k) as [e|] eqn:E.
  - destruct (ti_pin _ _ _ _ H _ _ E) as (<- & _).
    destruct (rep_lookup _ _ _ _ (ti_bio _ _ _ _ H) E) as (b & _ & _ & _ & [Hb _] & _ & _ & -> & _). done.
  - destruct (ti_none _ _ _ _ H _ E) as (_ & _ & ->). by apply (rep_disk _ _ (ti_bio _ _ _ _ H)).
Qed.


Lemma txn_bread s t blk :
  txn_rep s t -> 0 <= blk < t_hi t -> t_held t !! blk = None -> (size (t_held t) < MAXHELD)%nat ->
  wp (bl_bread ROOTDEV blk) s (fun i s' => txn_rep s' (hold blk i false t)).
Proof.
  intros (P & bs & H) Hk Hh Hsz. destruct s as [b l]. apply wp_on_bio.
  pose proof (txn_pinned_size _ _ _ _ H) as HszP. rewrite (txn_logged_length _ _ _ _ H) in HszP.
  destruct H as [Hr Hl Hc Hlo Hhi Hint Hbase Hsb Hsize Hcom Hout Hlg Hcnt Hroom Hbufs Hheld Hpin Hnone Hun]. simpl in *.
  apply (wp_bread _ P _ _ Hr); [lia| |right; lia|].
  { intros e He. apply Hpin in He as (_ & _ & He). rewrite Hh in He. by destruct (ce_held e). }
  intros i b' Hr' [D _].
  assert (Hent : bread_entry (bio_disk b) P blk i = mk_centry i true (bool_decide (blk ∈ bs)) (t_view t blk)).
  { destruct (P !! blk) as [e|] eqn:E.
    - rewrite (bread_entry_Some _ _ _ _ _ E). by destruct (Hpin _ _ E) as (-> & -> & _).
    - rewrite (bread_entry_None _ _ _ _ E). destruct (Hnone _ E) as (Hn & _ & ->).
      by rewrite bool_decide_false. }
  rewrite Hent in Hr'. exists (<[blk := mk_centry i true (bool_decide (blk ∈ bs)) (t_view t blk)]> P), bs.
  split; simpl; rewrite ?D; try done.
  - rewrite map_size_insert_None by done. lia.
  - intros k e. destruct (decide (k = blk)) as [->|Hne].
    + rewrite !lookup_insert_eq. by intros [= <-].
    + rewrite !lookup_insert_ne by done. apply Hpin.
  - intros k. destruct (decide (k = blk)) as [->|Hne]; [by rewrite lookup_insert_eq|].
    rewrite !lookup_insert_ne by done. apply Hnone.
  - intros k j. destruct (decide (k = blk)) as [->|Hne].
    + rewrite lookup_insert_eq. intros [= <-] Hin. destruct (P !! blk) as [e|] eqn:E.
      * pose proof (rep_pinned _ _ _ _ Hr E) as Hp. destruct (Hpin _ _ E) as (_ & Hdy & Hf).
        rewrite Hh in Hf. destruct (ce_held e); [done|]. rewrite Hdy, bool_decide_false in Hp by done. done.
      * by destruct (Hnone _ E) as (_ & _ & ?).
    + rewrite !lookup_insert_ne by done. apply Hun.
Qed.

Lemma txn_data s t blk i m :
  txn_rep s t -> t_held t !! blk = Some (i, m) ->
  wp (bl_data i) s (fun d s' => d = t_view t blk /\ s' = s).
Proof.
  intros (P & bs & H) Hh. destruct s as [b l]. apply wp_on_bio.
  destruct (txn_held _ _ _ _ _ _ _ H Hh) as (e & He & Hi & Hhe & Hd & _).
  by apply (wp_bdata _ P blk e i _ (ti_bio _ _ _ _ H)).
Qed.

Lemma held_size_insert (h : gmap Z (nat * bool)) blk x y :
  h !! blk = Some x -> size (<[blk := y]> h) = size h.
Proof. intros H. by rewrite map_size_insert_Some. Qed.

Lemma txn_set s t blk i m d :
  txn_rep s t -> t_held t !! blk = Some (i, m) -> t_lo t <= blk < t_hi t -> block_ok d ->
  wp (bl_set i d) s (fun _ s' => txn_rep s' (put_view blk d (hold blk i true t))).
Proof.
  intros (P & bs & H) Hh Hrange Hd. destruct s as [b l]. apply wp_on_bio.
  destruct (txn_held _ _ _ _ _ _ _ H Hh) as (e & He & Hi & Hhe & Hde & Hdy).
  apply (wp_set_data _ P blk e i d _ (ti_bio _ _ _ _ H)); try done. intros b' Hr' [D _].
  destruct H as [Hr Hl Hc Hlo Hhi Hint Hbase Hsb Hsize Hcom Hout Hlg Hcnt Hroom Hbufs Hheld Hpin Hnone Hun]. simpl in *.
  eexists _, bs. split; simpl; rewrite ?D; try done.
  - by erewrite held_size_insert.
  - intros k e'. destruct (decide (k = blk)) as [->|Hne].
    + rewrite !lookup_insert_eq, upd_eq. intros [= <-]. simpl. rewrite Hhe. by subst i.
    + rewrite !lookup_insert_ne, upd_ne by done. apply Hpin.
  - intros k. destruct (decide (k = blk)) as [->|Hne]; [by rewrite lookup_insert_eq|].
    rewrite !lookup_insert_ne, upd_ne by done. apply Hnone.
  - intros k j. destruct (decide (k = blk)) as [->|Hne]; [by rewrite lookup_insert_eq|].
    rewrite !lookup_insert_ne, upd_ne by done. apply Hun.
Qed.

Lemma txn_brelse s t blk i :
  txn_rep s t -> t_held t !! blk = Some (i, false) ->
  wp (bl_brelse i) s (fun _ s' => txn_rep s' (drop_hold blk t)).
Proof.
  intros (P & bs & H) Hh. destruct s as [b l]. apply wp_on_bio.
  destruct (txn_held _ _ _ _ _ _ _ H Hh) as (e & He & Hi & Hhe & Hde & Hdy).
  pose proof (ti_unmod _ _ _ _ H _ _ Hh) as Hunmod. simpl in Hunmod.
  apply (wp_brelse _ P blk e i _ (ti_bio _ _ _ _ H)); try done.
  { rewrite Hdy, Hde. intros Hn%bool_decide_eq_false. by apply Hunmod. }
  intros b' Hr' [D _].
  destruct H as [Hr Hl Hc Hlo Hhi Hint Hbase Hsb Hsize Hcom Hout Hlg Hcnt Hroom Hbufs Hheld Hpin Hnone Hun]. simpl in *.
  eexists _, bs. split; simpl; rewrite ?D; try done.
  - rewrite map_size_delete_Some by (by rewrite Hh). lia.
  - intros k e'. destruct (decide (k = blk)) as [->|Hne].
    + rewrite lookup_delete_eq. rewrite Hdy. case_bool_decide.
      * rewrite lookup_insert_eq. intros [= <-]. simpl. done.
      * by rewrite lookup_delete_eq.
    + rewrite lookup_delete_ne by done. destruct (ce_dirty e);
        [rewrite lookup_insert_ne by done|rewrite lookup_delete_ne by done]; apply Hpin.
  - intros k. destruct (decide (k = blk)) as [->|Hne].
    + rewrite !lookup_delete_eq. rewrite Hdy. case_bool_decide; [by rewrite lookup_insert_eq|].
      intros _. split_and!; try done. by apply Hunmod.
    + rewrite (lookup_delete_ne (t_held t)) by done. destruct (ce_dirty e);
        [rewrite lookup_insert_ne by done|rewrite lookup_delete_ne by done]; apply Hnone.
  - intros k j. destruct (decide (k = blk)) as [->|Hne]; [by rewrite lookup_delete_eq|].
    rewrite lookup_delete_ne by done. apply Hun.
Qed.

(** ** [log_write] and absorption *)

Definition log_add (bs : list Z) (blk : Z) : list Z := if decide (blk ∈ bs) then bs else bs ++ [blk].

Lemma log_add_elem bs blk k : k ∈ log_add bs blk <-> k ∈ bs \/ k = blk.
Proof. unfold log_add. case_decide; set_solver. Qed.

Lemma log_add_length bs blk : (length (log_add bs blk) <= S (length bs))%nat.
Proof. unfold log_add. case_decide; rewrite ?length_app; simpl; lia. Qed.

(** The search loop of [log_write] finds the block's slot, or the first free one. *)
Lemma absorb_index_spec l d bs blk :
  log_ok l d bs ->
  let k := absorb_index (log_lh l) blk in
  (blk ∈ bs -> bs !! k = Some blk) /\ (blk ∉ bs -> k = length bs).
Proof.
  intros Hl. unfold absorb_index. rewrite (lo_n _ _ _ Hl), Nat2Z.id, (lo_blocks _ _ _ Hl).
  destruct (find_idx _ bs) as [i|] eqn:E.
  - apply find_idx_Some in E as [(x & Hx & Hxb%Z.eqb_eq) _]. subst x. split; [done|].
    intros Hn. destruct (Hn (list_elem_of_lookup_2 _ _ _ Hx)).
  - split; [|done]. intros [i Hi]%list_elem_of_lookup.
    apply (proj1 (find_idx_None _ _) E) in Hi. by rewrite Z.eqb_refl in Hi.
Qed.

(** The log header after [log_write] of block [blk]. *)
Definition logged (l : log) (blk : Z) : log :=
  let lh := log_lh l in
  let k := absorb_index lh blk in
  l <| log_lh := mk_logheader (if Z.of_nat k =? lh_n lh then lh_n lh + 1 else lh_n lh)
                              (<[k := blk]> (lh_block lh)) |>.

Lemma logged_ok l d bs blk :
  log_ok l d bs -> log_start l + log_size l <= blk < d_size d ->
  (length bs < Z.to_nat LOGSIZE)%nat -> Z.of_nat (length bs) + 1 < log_size l ->
  log_ok (logged l blk) d (log_add bs blk).
Proof.
  intros Hl Hblk Hmax Hroom. destruct (absorb_index_spec l d bs blk Hl) as [Hin Hnin].
  pose proof (log_add_length bs blk) as Hlen.
  assert (Hnd : NoDup (log_add bs blk)).
  { unfold log_add. case_decide; [apply (lo_nodup _ _ _ Hl)|]. apply NoDup_app. split_and!.
    - apply (lo_nodup _ _ _ Hl).
    - set_solver.
    - apply NoDup_singleton. }
  assert (Hhome : Forall (fun b => log_start l + log_size l <= b < d_size d) (log_add bs blk)).
  { apply Forall_forall. intros k [Hk| ->]%log_add_elem; [|done]. by apply (lo_home_at _ _ _ _ Hl). }
  destruct Hl as [? ? ? Hn Hlb Hb ? ? ? ?]. unfold logged, log_add in *.
  split; simpl; try done; rewrite ?length_insert; try done; try lia; case_decide as Hc.
  - specialize (Hin Hc). apply lookup_lt_Some in Hin. rewrite Hn.
    destruct (Z.eqb_spec (Z.of_nat (absorb_index (log_lh l) blk)) (Z.of_nat (length bs))); [lia|done].
  - rewrite (Hnin Hc), Hn, Z.eqb_refl, length_app. simpl. lia.
  - specialize (Hin Hc). rewrite list_insert_id; [done|]. rewrite <- Hb in Hin. by apply lookup_take_Some in Hin as [? _].
  - rewrite (Hnin Hc), length_app. simpl. rewrite Nat.add_1_r.
    rewrite (take_S_r _ _ blk) by (apply list_lookup_insert_eq; lia).
    by rewrite take_insert_ge, Hb by lia.
Qed.

Lemma wp_log_write b l P bs blk e i Q :
  bio_rep b P -> log_ok l (bio_disk b) bs -> P !! blk = Some e -> ce_idx e = i -> ce_held e = true ->
  (length bs < Z.to_nat LOGSIZE)%nat -> Z.of_nat (length bs) + 1 < log_size l -> 1 <= log_outstanding l ->
  (forall b', bio_rep b' (<[blk := e <| ce_dirty := true |>]> P) -> bio_disk b' = bio_disk b ->
     Q () (mk_logst b' (logged l blk))) ->
  wp (log_write i) (mk_logst b l) Q.
Proof.
  intros Hr Hl He <- Hh Hmax Hroom Hout HQ. unfold log_write. log_step. apply wp_gets. cbn [l_log].
  pose proof (lo_n _ _ _ Hl) as Hn. consts.
  rewrite (proj2 (Z.leb_gt _ _)), (proj2 (Z.leb_gt _ _)) by (rewrite Hn; lia).
  rewrite (proj2 (Z.ltb_ge _ _)) by lia. cbn [orb].
  destruct (rep_lookup _ _ _ _ Hr He) as (bf & Hbf & _ & Hno & _).
  log_step. apply wp_on_bio. eapply wp_bufget; [exact Hbf|]. rewrite Hno.
  do 2 log_step. log_step.
  apply wp_conseq with (Q := fun _ s => s = mk_logst b (logged l blk)).
  { unfold when, set_n, logged. cbn [log_lh]. destruct (Z.of_nat _ =? _); apply wp_run; eexists _, _; done. }
  intros [] s ->. apply wp_on_bio. apply (wp_set_dirty _ P blk e _ _ Hr); try done.
  intros b' Hr' [D _]. by apply HQ.
Qed.

Lemma txn_log_write s t blk i m :
  txn_rep s t -> t_held t !! blk = Some (i, m) -> t_lo t <= blk < t_hi t -> loggable blk t ->
  wp (bl_log_write i) s (fun _ s' => txn_rep s' (log_mark blk (hold blk i false t))).
Proof.
  intros (P & bs & H) Hh Hrange Hbud. destruct s as [b l]. simpl.
  destruct (txn_held _ _ _ _ _ _ _ H Hh) as (e & He & Hi & Hhe & Hde & Hdy).
  pose proof (txn_logged_length _ _ _ _ H) as Hlbs. unfold loggable in Hbud.
  destruct H as [Hr Hl Hc Hlo Hhi Hint Hbase Hsb Hsize Hcom Hout Hlg Hcnt Hroom Hbufs Hheld Hpin Hnone Hun]. simpl in *.
  pose proof (log_add_length bs blk) as Hlen. unfold MAXHELD, HEAD in *. consts.
  apply (wp_log_write _ _ P bs blk e i _ Hr Hl He Hi Hhe); consts; [lia|lia| |].
  { rewrite Hout. pose proof (size_union_alt {[blk]} (t_logged t)). rewrite size_singleton in *. destruct (Nat.eqb_spec (t_cap t) 0); lia. }
  intros b' Hr' D.
  eexists _, (log_add bs blk). split; simpl; rewrite ?D; try done.
  - apply logged_ok; [done|lia|consts; lia|lia].
  - intros k. rewrite log_add_elem, Hlg. set_solver.
  - by erewrite held_size_insert.
  - intros k e'. rewrite (bool_decide_ext _ _ (log_add_elem bs blk k)).
    destruct (decide (k = blk)) as [->|Hne].
    + rewrite !lookup_insert_eq. intros [= <-]. simpl. rewrite Hhe, bool_decide_true by auto. by subst i.
    + rewrite !lookup_insert_ne by done. intros He'. destruct (Hpin _ _ He') as (? & -> & ?).
      split_and!; try done. apply bool_decide_ext. naive_solver.
  - intros k. rewrite log_add_elem. destruct (decide (k = blk)) as [->|Hne]; [by rewrite lookup_insert_eq|].
    rewrite !lookup_insert_ne by done. intros Hk%Hnone. naive_solver.
  - intros k j. rewrite log_add_elem. destruct (decide (k = blk)) as [->|Hne]; [naive_solver|].
    rewrite !lookup_insert_ne by done. intros Hk Hn. eapply Hun; [exact Hk|]. naive_solver.
Qed.

Lemma txn_rep_equiv s t t' : t ≡ t' -> txn_rep s t -> txn_rep s t'.
Proof.
  intros (Hv & Hba & Hh & Hb & Hcap & Hlo & Hhi) (P & bs & []). exists P, bs.
  split; rewrite <- ?Hba, <- ?Hb, <- ?Hcap, <- ?Hlo, <- ?Hhi, <- ?Hh; try done.
  - intros k e. rewrite <- Hv. auto.
  - intros k. rewrite <- Hv. auto.
  - intros k i. rewrite <- Hv. eauto.
Qed.

#[export] Instance txn_rep_proper : Proper (eq ==> (≡) ==> iff) txn_rep.
Proof. intros s ? <- t t' Ht. split; by apply txn_rep_equiv. Qed.

#[export] Instance logst_layer : BlockLayer logst := {|
  bl_rep := txn_rep;
  bl_rep_proper := txn_rep_proper;
  bl_bound := txn_rep_bound;
  bl_ok := txn_rep_block;
  bl_bread_spec := txn_bread;
  bl_data_spec := txn_data;
  bl_set_spec := txn_set;
  bl_log_write_spec := txn_log_write;
  bl_brelse_spec := txn_brelse
|}.

(** ** Transactions *)

(** The log at rest between transactions. *)
Record idle (s : logst) : Prop := {
  id_bio : bio_rep (l_bio s) ∅;
  id_log : log_ok (l_log s) (bio_disk (l_bio s)) [];
  id_clean : log_holds (bio_disk (l_bio s)) (log_start (l_log s)) (log_size (l_log s)) []
               (d_data (bio_disk (l_bio s)));
  id_sb : sb_describes (d_data (bio_disk (l_bio s))) (log_start (l_log s)) (log_size (l_log s));
  id_hi : d_size (bio_disk (l_bio s)) < 2 ^ 31;
  id_size : MAXOPBLOCKS + 1 < log_size (l_log s);
  id_out : log_outstanding (l_log s) = 0;
  id_com : log_committing (l_log s) = false
}.

Definition data_block (l : log) (b : Z) : Prop := b < log_start l \/ log_start l + log_size l <= b.

Definition fresh_txn (s : logst) : txn :=
  mk_txn (d_data (bio_disk (l_bio s))) (d_data (bio_disk (l_bio s))) ∅ ∅ (Z.to_nat MAXOPBLOCKS)
         (log_start (l_log s) + log_size (l_log s)) (d_size (bio_disk (l_bio s))).

(** Outside a transaction blocks can be read. *)
Definition read_txn (s : logst) : txn :=
  mk_txn (d_data (bio_disk (l_bio s))) (d_data (bio_disk (l_bio s))) ∅ ∅ 0
         (log_start (l_log s) + log_size (l_log s)) (d_size (bio_disk (l_bio s))).

Lemma idle_read s : idle s -> txn_rep s (read_txn s).
Proof.
  intros []. exists ∅, []. consts. split; simpl; try done.
  - set_solver.
  - lia.
  - apply Nat.leb_le. reflexivity.
  - rewrite map_size_empty. lia.
  - intros k _. split_and!; [apply not_elem_of_nil|apply lookup_empty|done].
Qed.

(** A system call's [begin_op] on an idle log opens a transaction that may log
    [MAXOPBLOCKS] blocks. *)
Lemma wp_begin_op s Q :
  idle s ->
  (forall s', txn_rep s' (fresh_txn s) -> bio_disk (l_bio s') = bio_disk (l_bio s) ->
     l_log s' = (l_log s) <| log_outstanding := 1 |> -> Q () s') ->
  wp begin_op s Q.
Proof.
  intros [] HQ. destruct s as [b l]. simpl in *. unfold begin_op. log_step. apply wp_gets. cbn [l_log].
  rewrite id_com0, id_out0, (lo_n _ _ _ id_log0). cbv iota.
  change (Z.of_nat (length []) + (0 + 1) * MAXOPBLOCKS >? LOGSIZE) with false. cbv iota.
  log_step. apply HQ; simpl; [|done|by rewrite id_out0]. exists ∅, []. consts. split; simpl; try done.
  - by destruct id_log0; split.
  - rewrite id_out0. lia.
  - set_solver.
  - apply Nat.leb_le. reflexivity.
  - unfold MAXHELD, HEAD. consts. lia.
  - rewrite map_size_empty. lia.
  - intros k _. split_and!; [apply not_elem_of_nil|apply lookup_empty|done].
Qed.

(** When no buffer is held the pins are those of a transaction at rest. *)
Lemma txn_inv_pins s t P bs : txn_inv s t P bs -> t_held t = ∅ -> txn_pins P bs (t_view t).
Proof.
  intros H Hh k. destruct (P !! k) as [[i h d x]|] eqn:E.
  - destruct (ti_pin _ _ _ _ H _ _ E) as (Hd & Hdy & Hf). rewrite Hh, lookup_empty in Hf. simpl in *.
    pose proof (rep_pinned _ _ _ _ (ti_bio _ _ _ _ H) E) as Hp. destruct h; [done|]. simpl in Hp. rewrite Hp in *.
    symmetry in Hdy. apply bool_decide_eq_true in Hdy. rewrite decide_True by done. by subst x.
  - destruct (ti_none _ _ _ _ H _ E) as (Hn & _). by rewrite decide_False.
Qed.

Lemma txn_inv_overlay s t P bs k :
  txn_inv s t P bs -> t_held t = ∅ -> overlay (d_data (bio_disk (l_bio s))) bs (t_view t) k = t_view t k.
Proof.
  intros H Hh. unfold overlay. case_decide as Hk; [done|]. symmetry.
  destruct (P !! k) as [e|] eqn:E; [|by destruct (ti_none _ _ _ _ H _ E) as (_ & _ & ?)].
  pose proof (txn_Some _ _ _ _ _ (txn_inv_pins _ _ _ _ H Hh) E) as [? _]. done.
Qed.

Lemma log_holds_ext d start sz bs g g' :
  (forall k, g k = g' k) -> log_holds d start sz bs g -> log_holds d start sz bs g'.
Proof. intros He []. split; try done; intros; rewrite <- He; eauto. Qed.

Lemma log_holds_self d start sz g :
  log_holds d start sz [] g -> log_holds d start sz [] (d_data d).
Proof. intros []. split; try done. Qed.

(** The effect of [end_op] by the last outstanding system call, with every
    intermediate disk state it goes through. *)
Definition atomic_end (s : logst) (t : txn) (s' : logst) : Prop :=
  let d := bio_disk (l_bio s) in let d' := bio_disk (l_bio s') in let l := l_log s in
  idle s' /\ (forall b, data_block l b -> d_data d' b = t_view t b) /\
  log_start (l_log s') = log_start l /\ log_size (l_log s') = log_size l /\
  d' = apply_writes d (writes_between d d') /\
  forall k, exists g, recovers_to (apply_writes d (take k (writes_between d d'))) (log_start l) (log_size l) g /\
    sb_describes g (log_start l) (log_size l) /\ (g = t_base t \/ g = t_view t).

Lemma sb_view s t P bs start sz :
  txn_inv s t P bs -> t_held t = ∅ -> sb_describes (d_data (bio_disk (l_bio s))) start sz ->
  sb_describes (t_view t) start sz.
Proof.
  intros H Hh Hsb. unfold sb_describes in *. rewrite <- (txn_inv_overlay _ _ _ _ 1 H Hh).
  unfold overlay. rewrite decide_False; [done|]. intros Hin.
  pose proof (lo_home_at _ _ _ _ (ti_log _ _ _ _ H) Hin). pose proof (lo_start _ _ _ (ti_log _ _ _ _ H)).
  pose proof (ti_room _ _ _ _ H). lia.
Qed.

Lemma data_block_notin d start sz g b :
  log_holds d start sz [] g -> b < start \/ start + sz <= b -> d_data d b = g b.
Proof. intros H Hb. apply (lg_data _ _ _ _ _ H); [done|]. apply not_elem_of_nil. Qed.

Lemma writes_between_self d : writes_between d d = [].
Proof. exact (writes_between_apply d []). Qed.

(** An idle log again, once the committed log is emptied. *)
Lemma idle_intro b l (c : bool) d0 g bs :
  bio_rep b ∅ -> log_ok l d0 bs -> d_size (bio_disk b) = d_size d0 ->
  log_holds (bio_disk b) (log_start l) (log_size l) [] g -> sb_describes g (log_start l) (log_size l) ->
  d_size d0 < 2 ^ 31 -> MAXOPBLOCKS + 1 < log_size l -> log_outstanding l = 0 ->
  idle (mk_logst b ((emptied l) <| log_committing := false |>)).
Proof.
  intros Hr Hl Hsz Hg Hsb Hhi Hsize Hout. split; simpl; try done.
  - apply (log_ok_disk _ d0); [|done]. destruct (log_ok_emptied _ _ _ Hl). split; try done.
  - eapply log_holds_self, Hg.
  - unfold sb_describes in *. by rewrite (lg_sb _ _ _ _ _ Hg).
  - lia.
Qed.

Lemma wp_end_op s t :
  txn_rep s t -> t_held t = ∅ -> (0 < t_cap t)%nat ->
  wp end_op s (fun _ s' => atomic_end s t s').
Proof.
  intros (P & bs & H) Hh Hcap. destruct s as [b l]. simpl in *.
  pose proof (ti_sb _ _ _ _ H) as Hsb. rewrite (ti_base _ _ _ _ H) in Hsb.
  pose proof (txn_logged_length _ _ _ _ H) as Hlbs.
  pose proof (txn_inv_pins _ _ _ _ H Hh) as HP. pose proof (sb_view _ _ _ _ _ _ H Hh Hsb) as Hsbv.
  pose proof (fun k => txn_inv_overlay _ _ _ _ k H Hh) as Hov. simpl in Hov.
  destruct H as [Hr Hl Hc _ Hhi Hint Hba _ Hsize Hcom Hout Hlg Hcnt Hroom Hbufs _ _ _ _]. simpl in *. rewrite Hhi in Hint.
  rewrite (proj2 (Nat.eqb_neq (t_cap t) 0)) in Hout by lia.
  unfold end_op. do 3 log_step. apply wp_gets. simpl. rewrite Hcom, Hout. simpl. unfold when. do 3 log_step.
  set (l1 := l <| log_outstanding := _ |> <| log_committing := true |>).
  assert (Hl1 : log_ok l1 (bio_disk b) bs) by (destruct Hl; by split).
  assert (Hout1 : log_outstanding l1 = 0) by (unfold l1, set_field; simpl; lia).
  destruct (decide (bs = [])) as [->|Hne].
  - assert (P = ∅) as ->.
    { apply map_eq. intros k. rewrite lookup_empty. apply (txn_None _ _ _ _ HP), not_elem_of_nil. }
    unfold commit. do 2 log_step. rewrite (lo_n _ _ _ Hl1). simpl. unfold when. do 2 log_step.
    unfold atomic_end. simpl. rewrite writes_between_self.
    split_and!; try done.
    + destruct Hl1. split; simpl; done.
    + intros k _. rewrite <- Hov. unfold overlay. by rewrite decide_False by apply not_elem_of_nil.
    + intros k. rewrite take_nil. exists (d_data (bio_disk b)). split_and!; [by exists []|done|by left].
  - eapply wp_conseq; [apply (commit_crash _ _ P bs (t_view t) (d_data (bio_disk b))); try done|].
    + unfold MAXHELD in *. lia.
    + apply Forall_forall. intros k Hk. pose proof (lo_home_at _ _ _ _ Hl Hk).
        pose proof (lo_start _ _ _ Hl). unfold int_nonneg. lia.
    + intros [] [b' l'] (Hr' & El & Hg' & D' & Hk). cbn [l_bio l_log] in *. subst l'. log_step.
        apply (log_holds_ext _ _ _ _ _ _ Hov) in Hg'. unfold atomic_end. cbn [l_bio l_log].
        split_and!; try done.
      * apply (idle_intro _ _ true (bio_disk b) (t_view t) bs); try done.
           rewrite D'. apply apply_writes_size.
      * intros k Hk'. by apply (data_block_notin _ _ _ _ _ Hg').
      * intros k. specialize (Hk k). case_decide.
        -- exists (d_data (bio_disk b)). split_and!; [done|done|by left].
        -- exists (t_view t). split_and!; [|done|by right].
              destruct Hk as [bs' Hk]. exists bs'. by apply (log_holds_ext _ _ _ _ _ _ Hov).
Qed.

(** C5: transactions are atomic across crashes.  Let the last outstanding
    system call leave a transaction whose contents are [t_view t].  Its
    [end_op] returns with every block past the log at those contents on disk; and if the
    machine stops after any number [k] of the block writes [end_op] does, and
    then again during any number of recoveries, the next boot's recovery
    returns and finds either all blocks as before the transaction or all
    blocks as the transaction left them. *)
Theorem transaction_atomic s t :
  txn_rep s t -> t_held t = ∅ -> (0 < t_cap t)%nat ->
  exists s', end_op s = Ok () s' /\
    (forall b, t_lo t <= b -> d_data (bio_disk (l_bio s')) b = t_view t b) /\
    forall k dc pid,
      rtc crashed_boot (apply_writes (bio_disk (l_bio s))
        (take k (writes_between (bio_disk (l_bio s)) (bio_disk (l_bio s'))))) dc ->
      exists s2, initlog ROOTDEV (boot_log dc pid) = Ok () s2 /\
        ((forall b, t_lo t <= b -> d_data (bio_disk (l_bio s2)) b = t_base t b) \/
         (forall b, t_lo t <= b -> d_data (bio_disk (l_bio s2)) b = t_view t b)).
Proof.
  intros Ht Hh Hcap.
  destruct (wp_elim _ _ _ (wp_end_op s t Ht Hh Hcap)) as ([] & s' & Hrun & Hend).
  assert (Hlo : forall b, t_lo t <= b -> data_block (l_log s) b).
  { destruct Ht as (P & bs & Ht). rewrite (ti_lo _ _ _ _ Ht). by right. }
  exists s'. destruct Hend as (_ & Hnew & _ & _ & _ & Hcrash). split; [exact Hrun|]. split; [auto|].
  intros k dc pid Hc. destruct (Hcrash k) as (g & Hg & Hsbg & Hcase).
  destruct (recovery_contents _ _ pid _ _ g Hsbg Hg Hc) as (s2 & Hrun2 & _ & Hg2).
  exists s2. split; [exact Hrun2|]. destruct Hcase as [->| ->]; [left|right];
    intros b Hb%Hlo; by apply (data_block_notin _ _ _ _ _ Hg2).
Qed.

Lemma initlog_idle d pid start sz bs g Q :
  log_holds d start sz bs g -> sb_describes g start sz -> d_size d < 2 ^ 31 -> MAXOPBLOCKS + 1 < sz ->
  (forall s, idle s -> log_start (l_log s) = start -> log_size (l_log s) = sz ->
     d_size (bio_disk (l_bio s)) = d_size d ->
     (forall b, b < start \/ start + sz <= b -> d_data (bio_disk (l_bio s)) b = g b) -> Q () s) ->
  wp (initlog ROOTDEV) (boot_log d pid) Q.
Proof.
  intros H Hsb Hhi Hsz HQ.
  destruct (initlog_boot d pid start sz bs g H Hsb) as (s & Hrun & Hr & D & Hl & Ho & Hc & Es & Ez).
  pose proof (recover_full _ _ _ _ _ H) as Hfin. rewrite <- D in Hfin.
  refine (wp_intro (initlog ROOTDEV) (boot_log d pid) () s Q Hrun _). clear Hrun. apply HQ; try done.
  - split; rewrite ?Es, ?Ez; try done.
    + eapply log_holds_self, Hfin.
    + unfold sb_describes in *. by rewrite (lg_sb _ _ _ _ _ Hfin).
    + by rewrite D, apply_writes_size.
  - by rewrite D, apply_writes_size.
  - intros b Hb. by apply (data_block_notin _ _ _ _ _ Hfin).
Qed.

(** Boot on a freshly made file system and change block 40 in a transaction. *)
Definition demo_txn : M logst () :=
  initlog ROOTDEV;; begin_op;;
  i ← bl_bread ROOTDEV 40; bl_set i (replicate 512 7);; bl_log_write i;; bl_brelse i.

Lemma demo_fs_holds : log_holds demo_fs 2 30 [] (d_data demo_fs).
Proof.
  split; try done; [|vm_compute; lia|constructor].
  split; [simpl; lia|]. intros b _. simpl. destruct (b =? 1); [|apply zero_block_ok].
  apply (bool_decide_unpack (block_ok _)). vm_compute. exact I.
Qed.

Lemma demo_txn_runs :
  wp demo_txn (boot_log demo_fs 1) (fun _ s =>
    exists t, txn_rep s t /\ t_held t = ∅ /\ t_cap t = 10%nat /\ t_lo t = 32 /\ t_view t 40 = replicate 512 7).
Proof.
  unfold demo_txn. wp_step. eapply initlog_idle; [exact demo_fs_holds|split; vm_compute; reflexivity|done|done|].
  intros s1 Hi Es Ez Hsz _. wp_step. apply wp_begin_op; [done|]. intros s2 Ht D El.
  unfold fresh_txn in Ht. rewrite Es, Ez, Hsz in Ht. simpl in Ht.
  assert (Hok : block_ok (replicate 512 7)) by (apply (bool_decide_unpack _); vm_compute; exact I).
  wp_step. eapply wp_conseq; [apply (txn_bread _ _ 40 Ht); [simpl; lia|apply lookup_empty|simpl; rewrite map_size_empty; unfold MAXHELD; lia]|]. intros i s3 H3. simpl in H3.
  wp_step. eapply wp_conseq; [apply (txn_set _ _ 40 i false _ H3); [apply lookup_insert_eq|simpl; lia|done]|]. intros [] s4 H4. simpl in H4.
  wp_step. eapply wp_conseq; [apply (txn_log_write _ _ 40 i true H4); [apply lookup_insert_eq|simpl; lia|apply Nat.leb_le; reflexivity]|]. intros [] s5 H5. simpl in H5.
  eapply wp_conseq; [apply (txn_brelse _ _ 40 i H5); apply lookup_insert_eq|]. intros [] s6 H6.
  eexists. split; [exact H6|]. simpl. rewrite !insert_insert_eq, delete_insert_id, upd_eq by apply lookup_empty. done.
Qed.

Lemma transaction_atomic_witness :
  exists s s', demo_txn (boot_log demo_fs 1) = Ok () s /\ end_op s = Ok () s' /\
    d_data (bio_disk (l_bio s')) 40 = replicate 512 7.
Proof.
  destruct (wp_elim _ _ _ demo_txn_runs) as ([] & s & Hrun & t & Ht & Hh & Hcap & Hlo & Hv).
  destruct (transaction_atomic s t Ht Hh ltac:(rewrite Hcap; lia)) as (s' & Hend & Hnew & _).
  exists s, s'. split; [exact Hrun|]. split; [exact Hend|]. rewrite Hnew by lia. exact Hv.
Defined.

(** ** Admission of concurrent system calls *)

(** The log shared by several system calls: the state of the log and the
    buffer cache and, for each call between [begin_op] and [end_op], the set
    of the blocks it has logged. *)
Record ops := mk_ops { op_st : logst; op_calls : list (gset Z) }.

(** A step of one of the calls, where a call logs at most [cap] distinct
    blocks: [begin_op], [log_write] of a buffer, [end_op] (with the commit, if
    the call is the last one out: [log.committing] keeps the others out of the
    log meanwhile), or any use of the buffer cache. *)
Inductive op_step (cap : nat) : ops -> ops -> Prop :=
| op_begin s s' cs :
    begin_op s = Ok () s' -> op_step cap (mk_ops s cs) (mk_ops s' (∅ :: cs))
| op_log_write s s' cs1 B cs2 i bf :
    bufget i (l_bio s) = Ok bf (l_bio s) -> (size ({[b_blockno bf]} ∪ B) <= cap)%nat ->
    log_write i s = Ok () s' ->
    op_step cap (mk_ops s (cs1 ++ B :: cs2)) (mk_ops s' (cs1 ++ ({[b_blockno bf]} ∪ B) :: cs2))
| op_end s s' cs1 B cs2 :
    end_op s = Ok () s' -> op_step cap (mk_ops s (cs1 ++ B :: cs2)) (mk_ops s' (cs1 ++ cs2))
| op_cache A (m : M bio A) a s s' cs :
    on_bio m s = Ok a s' -> op_step cap (mk_ops s cs) (mk_ops s' cs).

(** How many blocks the calls may still log. *)
Definition op_left (cap : nat) (cs : list (gset Z)) : nat := sum_list_with (fun B => cap - size B)%nat cs.

(** The blocks in the log header. *)
Definition lh_set (lh : logheader) : gset Z := list_to_set (take (Z.to_nat (lh_n lh)) (lh_block lh)).

(** Every outstanding call has the blocks it may still log reserved, with a
    block to spare: [log_write] makes its test of the size even when the block
    is in the log already. *)
Record reserved (cap : nat) (l : log) (cs : list (gset Z)) : Prop := mk_reserved {
  rs_size : log_size l = LOGSIZE;
  rs_len : length (lh_block (log_lh l)) = Z.to_nat LOGSIZE;
  rs_idle : log_committing l = false;
  rs_out : log_outstanding l = Z.of_nat (length cs);
  rs_n : 0 <= lh_n (log_lh l);
  rs_left : lh_n (log_lh l) + Z.of_nat (op_left cap cs) < LOGSIZE - 1;
  rs_empty : cs = [] -> lh_n (log_lh l) = 0;
  rs_in : Forall (fun B => B ⊆ lh_set (log_lh l)) cs
}.

(** Computations that leave the log's own state alone. *)
Definition keeps_log {A : Type} (m : M logst A) : Prop :=
  forall s a s', m s = Ok a s' -> l_log s' = l_log s.

Lemma keeps_on_bio {A} (m : M bio A) : keeps_log (on_bio m).
Proof. intros s a s'. unfold on_bio, zoom. destruct (m (l_bio s)); intros [= <- <-]; done. Qed.

Lemma keeps_getlog {A} (f : log -> A) : keeps_log (getlog f).
Proof. intros s a s' [= <- <-]. done. Qed.

Lemma keeps_bind {A B} (m : M logst A) (f : A -> M logst B) :
  keeps_log m -> (forall a, keeps_log (f a)) -> keeps_log (m ≫= f).
Proof.
  intros Hm Hf s b s'. unfold mbind, M_bind. destruct (m s) as [a s1| |] eqn:E; try done.
  intros H. rewrite (Hf _ _ _ _ H). by apply (Hm _ _ _ E).
Qed.

Lemma keeps_forM {A} (xs : list A) (f : A -> M logst ()) : (forall x, keeps_log (f x)) -> keeps_log (forM xs f).
Proof.
  intros Hf. induction xs as [|x xs IH]; [intros s [] s' [= <-]; done|]. simpl. by apply keeps_bind.
Qed.

Ltac keeps := repeat (intros; first [apply keeps_on_bio | apply keeps_getlog | apply keeps_bind | apply keeps_forM]).

Lemma keeps_write_log : keeps_log write_log.
Proof. unfold write_log. keeps. Qed.

Lemma keeps_write_head : keeps_log write_head.
Proof. unfold write_head. keeps. Qed.

Lemma keeps_install_trans : keeps_log install_trans.
Proof. unfold install_trans. keeps. Qed.

Lemma commit_log s s' : 0 <= lh_n (log_lh (l_log s)) -> commit s = Ok () s' -> l_log s' = emptied (l_log s).
Proof.
  intros Hn. unfold commit, mbind at 1, M_bind at 1, getlog, gets, when.
  destruct (Z.gtb_spec (lh_n (log_lh (l_log s))) 0).
  - unfold mbind, M_bind. destruct (write_log s) as [[] s1| |] eqn:E1; try done.
    destruct (write_head s1) as [[] s2| |] eqn:E2; try done.
    destruct (install_trans s2) as [[] s3| |] eqn:E3; try done. simpl.
    intros E4%keeps_write_head. rewrite E4. simpl.
    by rewrite (keeps_install_trans _ _ _ E3), (keeps_write_head _ _ _ E2), (keeps_write_log _ _ _ E1).
  - intros [= <-]. unfold emptied. destruct s as [b [? ? ? ? ? [n bl]]]; simpl in *.
    by replace n with 0 by lia.
Qed.

(** What the operations do to the log's own state. *)
Lemma begin_op_log s s' :
  begin_op s = Ok () s' ->
  lh_n (log_lh (l_log s)) + (log_outstanding (l_log s) + 1) * MAXOPBLOCKS <= LOGSIZE /\
  l_log s' = (l_log s) <| log_outstanding := log_outstanding (l_log s) + 1 |>.
Proof.
  unfold begin_op, mbind, M_bind, gets, block, modlog, modify. simpl. destruct (log_committing _); [done|].
  destruct (Z.gtb_spec (lh_n (log_lh (l_log s)) + (log_outstanding (l_log s) + 1) * MAXOPBLOCKS) LOGSIZE); [done|].
  intros [= <-]. by split.
Qed.

Lemma log_write_log i s s' bf :
  bufget i (l_bio s) = Ok bf (l_bio s) -> log_write i s = Ok () s' -> l_log s' = logged (l_log s) (b_blockno bf).
Proof.
  intros [= Hbf]. unfold log_write, mbind, M_bind, gets. destruct (_ || _); [done|]. destruct (_ <? 1); [done|].
  unfold on_bio, zoom, bufget, gets, modlog, modify, when, set_n, set_dirty, bufmod, logged. rewrite Hbf. simpl.
  destruct (_ =? _); intros [= <-]; done.
Qed.

Lemma end_op_log s s' :
  0 <= lh_n (log_lh (l_log s)) -> end_op s = Ok () s' ->
  let l := (l_log s) <| log_outstanding := log_outstanding (l_log s) - 1 |> in
  l_log s' = if log_outstanding l =? 0 then (emptied l) <| log_committing := false |> else l.
Proof.
  intros Hn. unfold end_op, mbind, M_bind, gets, modlog, modify. simpl. destruct (log_committing _); [done|].
  unfold when. destruct (_ =? 0); [|by intros [= <-]]. simpl.
  destruct (commit _) as [[] s1| |] eqn:E; try done. intros [= <-]. simpl.
  apply commit_log in E as ->; done.
Qed.

Lemma logged_set l blk :
  0 <= lh_n (log_lh l) < Z.of_nat (length (lh_block (log_lh l))) ->
  lh_set (log_lh (logged l blk)) = {[blk]} ∪ lh_set (log_lh l) /\
  lh_n (log_lh (logged l blk)) = lh_n (log_lh l) + (if decide (blk ∈ lh_set (log_lh l)) then 0 else 1).
Proof.
  intros Hn. unfold lh_set, logged. cbn [log_lh lh_n lh_block]. set (n := lh_n (log_lh l)) in *.
  set (bl := lh_block (log_lh l)) in *. unfold absorb_index. fold n bl.
  destruct (find_idx _ (take (Z.to_nat n) bl)) as [k|] eqn:E.
  - apply find_idx_Some in E as [(x & Hx & Hxb%Z.eqb_eq) _]. subst x.
    pose proof Hx as [Hb Hk]%lookup_take_Some.
    rewrite (proj2 (Z.eqb_neq _ _)), list_insert_id by (done || lia).
    apply list_elem_of_lookup_2 in Hx. rewrite decide_True by (by apply elem_of_list_to_set).
    split; simpl; [set_solver|lia].
  - assert (Hnot : blk ∉ take (Z.to_nat n) bl).
    { intros [i Hi]%list_elem_of_lookup. apply (proj1 (find_idx_None _ _) E) in Hi. by rewrite Z.eqb_refl in Hi. }
    rewrite (proj2 (Z.eqb_eq _ _)), decide_False by (rewrite ?elem_of_list_to_set; done || lia). split; simpl; [|done].
    rewrite Z2Nat.inj_add by lia. rewrite Nat.add_1_r, (take_S_r _ _ blk) by (apply list_lookup_insert_eq; lia).
    rewrite take_insert_ge by lia. set_solver.
Qed.

Lemma op_left_mid cap cs1 B cs2 :
  op_left cap (cs1 ++ B :: cs2) = (cap - size B + op_left cap (cs1 ++ cs2))%nat.
Proof. unfold op_left. rewrite !sum_list_with_app. simpl. lia. Qed.

Lemma op_left_le cap cs : (op_left cap cs <= cap * length cs)%nat.
Proof. unfold op_left. induction cs; simpl; lia. Qed.

Lemma reserved_begin cap s s' cs :
  Z.of_nat cap < MAXOPBLOCKS -> reserved cap (l_log s) cs -> begin_op s = Ok () s' -> reserved cap (l_log s') (∅ :: cs).
Proof.
  intros Hcap [? ? ? ? ? ? He ?] [Hle ->]%begin_op_log. pose proof (op_left_le cap cs). pose proof (size_empty (C := gset Z)) as H0.
  split; simpl; try done; [lia| |constructor; [set_solver|done]].
  unfold op_left in *. simpl. rewrite ?H0. consts. destruct cs; simpl in *; [rewrite He by done; lia|nia].
Qed.

Lemma reserved_write cap s s' cs1 B cs2 i bf :
  reserved cap (l_log s) (cs1 ++ B :: cs2) -> bufget i (l_bio s) = Ok bf (l_bio s) ->
  (size ({[b_blockno bf]} ∪ B) <= cap)%nat -> log_write i s = Ok () s' ->
  reserved cap (l_log s') (cs1 ++ ({[b_blockno bf]} ∪ B) :: cs2).
Proof.
  intros [Hz Hlen Hc Ho Hn Hl He0 Hin] Hbf Hcap Hw. rewrite (log_write_log _ _ _ _ Hbf Hw).
  destruct (logged_set (l_log s) (b_blockno bf)) as [Hset Hn']; [rewrite Hlen; consts; lia|].
  apply Forall_app in Hin as [Hin1 [HB Hin2]%Forall_cons_1].
  assert (Hsub : forall X, X ⊆ lh_set (log_lh (l_log s)) -> X ⊆ lh_set (log_lh (logged (l_log s) (b_blockno bf))))
    by (intros; rewrite Hset; set_solver).
  rewrite op_left_mid in Hl. pose proof (size_union_alt {[b_blockno bf]} B) as Hsz.
  rewrite length_app in *. split; rewrite ?Hn', ?op_left_mid, ?length_app.
  - done.
  - simpl. by rewrite length_insert.
  - done.
  - exact Ho.
  - case_decide; lia.
  - case_decide as Hd; [|assert (b_blockno bf ∉ B) by set_solver;
      assert (size ({[b_blockno bf]} ∪ B) = S (size B)) by (rewrite size_union, size_singleton by set_solver; lia)]; [|lia].
    assert (size B <= size ({[b_blockno bf]} ∪ B))%nat by (apply subseteq_size; set_solver). lia.
  - by destruct cs1.
  - apply Forall_app; split; [eapply Forall_impl; [exact Hin1|exact Hsub]|].
    constructor; [rewrite Hset; set_solver|eapply Forall_impl; [exact Hin2|exact Hsub]].
Qed.

Lemma reserved_end cap s s' cs1 B cs2 :
  reserved cap (l_log s) (cs1 ++ B :: cs2) -> end_op s = Ok () s' -> reserved cap (l_log s') (cs1 ++ cs2).
Proof.
  intros [Hz Hlen Hc Ho Hn Hl He0 Hin] He%end_op_log; [|done]. cbn zeta in He. rewrite op_left_mid, length_app in *. simpl in *.
  apply Forall_app in Hin as [Hin1 [HB Hin2]%Forall_cons_1]. rewrite He.
  destruct (Z.eqb_spec (log_outstanding (l_log s) - 1) 0) as [E|E]; split; simpl; rewrite ?length_app; try done; try lia.
  - assert (cs1 = [] /\ cs2 = []) as [-> ->] by (destruct cs1, cs2; simpl in *; try done; lia). constructor.
  - intros [-> ->]%app_nil. simpl in *. lia.
  - by apply Forall_app.
Qed.

Definition reserved_in (cap : nat) (o : ops) : Prop := reserved cap (l_log (op_st o)) (op_calls o).

Lemma reserved_step cap o o' :
  Z.of_nat cap < MAXOPBLOCKS -> op_step cap o o' -> reserved_in cap o -> reserved_in cap o'.
Proof.
  unfold reserved_in.
  intros Hcap [s s' cs Hb|s s' cs1 B cs2 i bf Hbf Hle Hw|s s' cs1 B cs2 He|A m a s s' cs Hm] H; cbn [op_st op_calls] in *.
  - by apply (reserved_begin _ s).
  - by eapply reserved_write.
  - by eapply reserved_end.
  - by rewrite (keeps_on_bio _ _ _ _ Hm).
Qed.

Lemma reserved_idle cap s : idle s -> log_size (l_log s) = LOGSIZE -> reserved cap (l_log s) [].
Proof.
  intros [Hb Hl ? ? ? ? Ho Hc] Hz. pose proof (lo_n _ _ _ Hl) as Hn. simpl in Hn.
  split; try done; [apply (lo_len _ _ _ Hl)|lia|rewrite Hn; unfold op_left; simpl; consts; lia].
Qed.

(** C12: admission to the log is sound for calls of at most [MAXOPBLOCKS - 1]
    distinct blocks.  From an idle log of [LOGSIZE] blocks, header included,
    which is what mkfs makes, run [begin_op], [log_write], [end_op] with its
    commits, and uses of the buffer cache, of any number of concurrent system
    calls, interleaved in any way, each call within [cap < MAXOPBLOCKS]
    distinct blocks.  Then [log_write] of a buffer by an outstanding call
    returns, with the block in the log header: it panics neither with "too big
    a transaction" nor with "log_write outside of trans", and no commit is
    under way.  With
    [MAXOPBLOCKS] blocks per call the admission test is not enough:
    [log_overcommit]. *)
Theorem log_admission cap s0 s cs1 B cs2 i bf :
  idle s0 -> log_size (l_log s0) = LOGSIZE -> Z.of_nat cap < MAXOPBLOCKS ->
  rtc (op_step cap) (mk_ops s0 []) (mk_ops s (cs1 ++ B :: cs2)) ->
  bufget i (l_bio s) = Ok bf (l_bio s) ->
  log_committing (l_log s) = false /\
  exists s', log_write i s = Ok () s' /\ l_log s' = logged (l_log s) (b_blockno bf).
Proof.
  intros Hidle Hz Hcap Hsteps Hbf.
  assert (reserved cap (l_log s) (cs1 ++ B :: cs2)) as [Hsz Hlen Hc Ho Hn Hl He0 Hin].
  { change (reserved_in cap (mk_ops s (cs1 ++ B :: cs2))).
    eapply (rtc_invariant (op_step cap)); [|intros o o' H S; exact (reserved_step cap o o' Hcap S H)|exact Hsteps].
    by apply reserved_idle. }
  split; [done|]. rewrite length_app in Ho. simpl in Ho.
  enough (exists s', log_write i s = Ok () s') as [s' Hs'] by (exists s'; eauto using log_write_log).
  unfold log_write, mbind, M_bind, gets. rewrite Hsz, (proj2 (Z.leb_gt _ _)), (proj2 (Z.leb_gt _ _)) by lia.
  rewrite (proj2 (Z.ltb_ge _ _)) by lia. simpl. unfold when. destruct (_ =? _); eexists; reflexivity.
Qed.

(** Boot on the demonstration disk, admit a call, and log a buffer in it. *)
Lemma log_admission_witness :
  exists s0 s s', initlog ROOTDEV (boot_log demo_fs 1) = Ok () s0 /\ begin_op s0 = Ok () s /\ log_write 0 s = Ok () s'.
Proof.
  assert (Hboot : wp (initlog ROOTDEV) (boot_log demo_fs 1) (fun _ s => idle s /\ log_size (l_log s) = LOGSIZE)).
  { eapply initlog_idle; [exact demo_fs_holds|split; vm_compute; reflexivity|done|done|]. intros s Hi _ Hz _ _. exact (conj Hi Hz). }
  destruct (wp_elim _ _ _ Hboot) as ([] & s0 & Hrun & Hidle & Hz).
  destruct (wp_elim _ _ _ (wp_begin_op s0 (fun _ _ => True) Hidle (fun _ _ _ _ => Logic.I))) as ([] & s & Hbegin & _).
  destruct (log_admission 9 s0 s [] ∅ [] 0 (bufs (l_bio s) !!! 0%nat) Hidle Hz) as (_ & s' & Hw & _);
    [apply Z.ltb_lt; vm_compute; reflexivity|exact (rtc_once _ _ (op_begin 9 s0 s [] Hbegin))|unfold bufget, gets; reflexivity|].
  exists s0, s, s'. split; [exact Hrun|split; [exact Hbegin|exact Hw]].
Defined.

(** the file system made by mkfs has a log of [nlog = LOGSIZE] blocks, one
    of which is the header, so that the last reserved block does not fit:
    three system calls are admitted, each logs [MAXOPBLOCKS] distinct blocks,
    and the thirtieth [log_write] panics. *)
Theorem log_overcommit :
  (initlog ROOTDEV;; begin_op;; begin_op;; begin_op;;
   forM (seqZ 100 30) (fun b => i ← on_bio (bread ROOTDEV b); log_write i;; on_bio (brelse i)))
    (boot_log demo_fs 1) = Panic "too big a transaction" /\
  sb_nlog demo_sb = LOGSIZE /\ 3 * MAXOPBLOCKS = 30.
Proof. split; [vm_compute; reflexivity|]. split; reflexivity. Qed.
