(* ===== verification/TxnLayer.v ===== *)
(** The transaction interface: [begin_op] and [end_op] around the block
    interface.

    Between system calls the disk is at rest with contents [v].  [begin_op]
    opens a transaction on those contents that may log [MAXOPBLOCKS] blocks,
    [end_op] makes its contents those of the disk at rest, and blocks may be
    read without a transaction.  The instance is the log of [log.c]. *)

From S2P Require Import Prelude Layout Sleeplock Ring Bio Log BlockLayer LogTxn.

Class TxnOps (S : Type) := {
  tx_begin : M S ();
  tx_end : M S ()
}.

(** A transaction in which nothing is held or logged yet. *)
Record fresh (cap : nat) (v : Z -> list Z) (lo hi : Z) (t : txn) : Prop := {
  fr_view : forall k, t_view t k = v k;
  fr_held : t_held t = ∅;
  fr_logged : t_logged t = ∅;
  fr_cap : t_cap t = cap;
  fr_lo : t_lo t = lo;
  fr_hi : t_hi t = hi
}.

(** The blocks a transaction leaves to the file system: the super block and
    those after the log. *)
Definition fs_block (lo b : Z) : Prop := b = 1 \/ lo <= b.

Class TxnLayer (S : Type) `{!BlockOps S} `{!BlockLayer S} `{!TxnOps S} := {
  tx_rest : S -> (Z -> list Z) -> Z -> Z -> Prop;
  tx_begin_spec s v lo hi : tx_rest s v lo hi ->
    wp tx_begin s (fun _ s' => exists t, bl_rep s' t /\ fresh (Z.to_nat MAXOPBLOCKS) v lo hi t);
  tx_end_spec s t : bl_rep s t -> t_held t = ∅ -> (0 < t_cap t)%nat ->
    wp tx_end s (fun _ s' => exists v, tx_rest s' v (t_lo t) (t_hi t) /\ forall b, fs_block (t_lo t) b -> v b = t_view t b);
  tx_read_spec s v lo hi : tx_rest s v lo hi -> exists t, bl_rep s t /\ fresh 0 v lo hi t;
  tx_unread_spec s v lo hi t : bl_rep s t -> fresh 0 v lo hi t -> tx_rest s v lo hi
}.

(** ** The log as a transaction layer *)

#[export] Instance logst_txn_ops : TxnOps logst := {| tx_begin := begin_op; tx_end := end_op |}.

Definition log_rest (s : logst) (v : Z -> list Z) (lo hi : Z) : Prop :=
  idle s /\ (forall k, v k = d_data (bio_disk (l_bio s)) k)
  /\ lo = log_start (l_log s) + log_size (l_log s) /\ hi = d_size (bio_disk (l_bio s)).

Lemma log_begin s v lo hi : log_rest s v lo hi ->
  wp begin_op s (fun _ s' => exists t, txn_rep s' t /\ fresh (Z.to_nat MAXOPBLOCKS) v lo hi t).
Proof.
  intros (Hi & Hv & -> & ->). apply wp_begin_op; [done|]. intros s' Ht _ _. exists (fresh_txn s). split; [done|]. by split.
Qed.

Lemma log_end s t : txn_rep s t -> t_held t = ∅ -> (0 < t_cap t)%nat ->
  wp end_op s (fun _ s' => exists v, log_rest s' v (t_lo t) (t_hi t) /\ forall b, fs_block (t_lo t) b -> v b = t_view t b).
Proof.
  intros Ht Hh Hc. eapply wp_conseq; [by apply wp_end_op|]. intros [] s' (Hi & Hd & Hs & Hz & Happ & _).
  destruct Ht as (P & bs & Ht). exists (d_data (bio_disk (l_bio s'))). split.
  - split; [done|]. split; [done|]. rewrite Hs, Hz, Happ, apply_writes_size. split; [apply (ti_lo _ _ _ _ Ht)|apply (ti_hi _ _ _ _ Ht)].
  - intros b Hb. apply Hd. unfold data_block. rewrite (ti_lo _ _ _ _ Ht) in Hb.
    pose proof (lo_start _ _ _ (ti_log _ _ _ _ Ht)). destruct Hb as [->|]; lia.
Qed.

Lemma log_read s v lo hi : log_rest s v lo hi -> exists t, txn_rep s t /\ fresh 0 v lo hi t.
Proof. intros (Hi & Hv & -> & ->). exists (read_txn s). split; [by apply idle_read|]. by split. Qed.

Lemma log_unread s v lo hi t : txn_rep s t -> fresh 0 v lo hi t -> log_rest s v lo hi.
Proof.
  intros (P & bs & H) [Hv Hh Hl Hc Hlo Hhi]. pose proof (txn_logged_length _ _ _ _ H) as Hbs.
  rewrite Hl, size_empty in Hbs. apply nil_length_inv in Hbs as ->.
  pose proof (txn_inv_pins _ _ _ _ H Hh) as HP.
  assert (P = ∅) as ->.
  { apply map_eq. intros k. rewrite lookup_empty. apply (txn_None _ _ _ _ HP), not_elem_of_nil. }
  destruct H as [Hr Hlg Hcl Elo Ehi Hint Hba Hsb Hsize Hcom Hout _ _ _ _ _ _ Hnone _]. rewrite Hc in Hout. simpl in Hout.
  split; [|split; [|split; [congruence|congruence]]].
  - split; try done; [by rewrite <- Hba|by rewrite <- Ehi].
  - intros k. rewrite <- Hv. by apply Hnone.
Qed.

#[export] Instance logst_txn_layer : TxnLayer logst := {|
  tx_rest := log_rest;
  tx_begin_spec := log_begin;
  tx_end_spec := log_end;
  tx_read_spec := log_read;
  tx_unread_spec := log_unread
|}.
