(* ===== verification/Fs.v ===== *)
(** The file system ([fs.c]): block allocator, inodes, file contents,
    directories and path names, on top of the block interface.

    A [struct inode *] is the index of an [icache] slot; the in-memory inode
    table and the cached super block are the state, next to the state [S] of
    the block layer.  [icache.lock] sections are atomic; the inodes' sleep
    locks are explicit.  The device switch is a parameter ([DevOps]). *)

From S2P Require Import Prelude CString Layout Sleeplock BlockLayer.

Record inode := mk_inode {
  i_dev : Z; i_inum : Z; i_ref : Z; i_lock : sleeplock; i_valid : bool;
  i_type : Z; i_major : Z; i_minor : Z; i_nlink : Z; i_size : Z; i_addrs : list Z
}.
#[export] Instance eta_inode : Settable inode := fun i =>
  mk_inode (i_dev i) (i_inum i) (i_ref i) (i_lock i) (i_valid i)
           (i_type i) (i_major i) (i_minor i) (i_nlink i) (i_size i) (i_addrs i).
#[export] Instance inode_inhabited : Inhabited inode :=
  populate (mk_inode 0 0 0 initsleeplock false 0 0 0 0 0 (replicate 13 0)).

Record fsst (S : Type) := mk_fsst {
  fs_blk : S; fs_sb : superblock; fs_icache : list inode; fs_pid : Z; fs_cwd : nat
}.
Arguments mk_fsst {S} _ _ _ _ _.
Arguments fs_blk {S} _.
Arguments fs_sb {S} _.
Arguments fs_icache {S} _.
Arguments fs_pid {S} _.
Arguments fs_cwd {S} _.
#[export] Instance eta_fsst (S : Type) : Settable (fsst S) := fun s =>
  mk_fsst (fs_blk s) (fs_sb s) (fs_icache s) (fs_pid s) (fs_cwd s).

(** [devsw[major].read(ip, dst, n)] and [.write(ip, src, n)]: [None] is a null
    entry. *)
Class DevOps (S : Type) := {
  dev_read : Z -> option (nat -> Z -> M (fsst S) (Z * list Z));
  dev_write : Z -> option (nat -> list Z -> Z -> M (fsst S) Z)
}.

Record stat := mk_stat { st_type : Z; st_dev : Z; st_ino : Z; st_nlink : Z; st_size : Z }.

Definition NDEV : Z := 10.

Section fs.
Context {S : Type} `{!BlockOps S} `{!DevOps S}.

Definition on_blk {A : Type} (m : M S A) : M (fsst S) A :=
  zoom fs_blk (fun t s => s <| fs_blk := t |>) m.
Definition fbread (dev b : Z) : M (fsst S) nat := on_blk (bl_bread dev b).
Definition fdata (bp : nat) : M (fsst S) (list Z) := on_blk (bl_data bp).
Definition fset (bp : nat) (d : list Z) : M (fsst S) () := on_blk (bl_set bp d).
Definition flog_write (bp : nat) : M (fsst S) () := on_blk (bl_log_write bp).
Definition fbrelse (bp : nat) : M (fsst S) () := on_blk (bl_brelse bp).

Definition getsb {A : Type} (f : superblock -> A) : M (fsst S) A := gets (fun s => f (fs_sb s)).
Definition getip {A : Type} (ip : nat) (f : inode -> A) : M (fsst S) A :=
  gets (fun s => f (fs_icache s !!! ip)).
Definition with_ip (ip : nat) (f : inode -> inode) (s : fsst S) : fsst S :=
  s <| fs_icache := <[ip := f (fs_icache s !!! ip)]> (fs_icache s) |>.
Definition modip (ip : nat) (f : inode -> inode) : M (fsst S) () := modify (with_ip ip f).
Definition on_ilock {A : Type} (ip : nat) (m : M sleeplock A) : M (fsst S) A :=
  zoom (fun s => i_lock (fs_icache s !!! ip)) (fun l => with_ip ip (fun i => i <| i_lock := l |>)) m.

(** The super block, read again into the global [sb]. *)
Definition fs_readsb (dev : Z) : M (fsst S) () :=
  bp ← fbread dev 1;
  data ← fdata bp;
  modify (fun s => s <| fs_sb := superblock_decode data |>);;
  fbrelse bp.

Definition bzero (dev bno : Z) : M (fsst S) () :=
  bp ← fbread dev bno;
  fset bp zero_block;;
  flog_write bp;;
  fbrelse bp.

(** Bit [bi] of a bitmap block: [data[bi/8] & (1 << (bi % 8))]. *)
Definition bit_mask (bi : Z) : Z := Z.shiftl 1 (bi mod 8).
Definition bit_byte (data : list Z) (bi : Z) : Z := data !!! Z.to_nat (bi / 8).
Definition bit_set (data : list Z) (bi : Z) : bool := negb (Z.land (bit_byte data bi) (bit_mask bi) =? 0).
Definition mark_used (data : list Z) (bi : Z) : list Z :=
  <[Z.to_nat (bi / 8) := Z.lor (bit_byte data bi) (bit_mask bi)]> data.
Definition mark_free (data : list Z) (bi : Z) : list Z :=
  <[Z.to_nat (bi / 8) := Z.land (bit_byte data bi) (Z.lnot (bit_mask bi))]> data.

(** The inner loop of [balloc]: the first clear bit below [BPB] and below
    [size - b]. *)
Definition first_free (data : list Z) (b size : Z) : option nat :=
  find_idx (fun bi => negb (bit_set data bi)) (seqZ 0 (Z.min BPB (size - b))).

Fixpoint balloc_from (dev : Z) (bs : list Z) : M (fsst S) Z :=
  match bs with
  | [] => panic "balloc: out of blocks"
  | b :: bs' =>
      sb ← getsb (fun sb => sb);
      bp ← fbread dev (BBLOCK b sb);
      data ← fdata bp;
      match first_free data b (sb_size sb) with
      | Some i =>
          let bi := Z.of_nat i in
          fset bp (mark_used data bi);;
          flog_write bp;;
          fbrelse bp;;
          bzero dev (b + bi);;
          mret (b + bi)
      | None => fbrelse bp;; balloc_from dev bs'
      end
  end.

(** [for(b = 0; b < sb.size; b += BPB)] *)
Definition bmap_starts (size : Z) : list Z := (fun i => i * BPB) <$> seqZ 0 ((size + BPB - 1) / BPB).

Definition balloc (dev : Z) : M (fsst S) Z :=
  sb ← getsb (fun sb => sb);
  balloc_from dev (bmap_starts (sb_size sb)).

Definition bfree (dev b : Z) : M (fsst S) () :=
  fs_readsb dev;;
  sb ← getsb (fun sb => sb);
  bp ← fbread dev (BBLOCK b sb);
  let bi := b mod BPB in
  data ← fdata bp;
  if negb (bit_set data bi) then panic "freeing free block" else
  fset bp (mark_free data bi);;
  flog_write bp;;
  fbrelse bp.

(** ** Inodes *)

Definition iinit (dev : Z) : M (fsst S) () :=
  modify (fun s => s <| fs_icache := (fun i => i <| i_lock := initsleeplock |>) <$> fs_icache s |>);;
  fs_readsb dev.

Definition iget (dev inum : Z) : M (fsst S) nat :=
  ic ← gets fs_icache;
  match find_idx (fun i => (i_ref i >? 0) && (i_dev i =? dev) && (i_inum i =? inum)) ic with
  | Some ip => modip ip (fun i => i <| i_ref := i_ref i + 1 |>);; mret ip
  | None =>
      match find_idx (fun i => i_ref i =? 0) ic with
      | None => panic "iget: no inodes"
      | Some ip =>
          modip ip (fun i => i <| i_dev := dev |> <| i_inum := inum |> <| i_ref := 1 |> <| i_valid := false |>);;
          mret ip
      end
  end.

Definition fresh_dinode (type : Z) : dinode := mk_dinode type 0 0 0 0 (replicate 13 0).

Fixpoint ialloc_from (dev type : Z) (inums : list Z) : M (fsst S) nat :=
  match inums with
  | [] => panic "ialloc: no inodes"
  | inum :: rest =>
      sb ← getsb (fun sb => sb);
      bp ← fbread dev (IBLOCK inum sb);
      data ← fdata bp;
      if di_type (get_dinode data inum) =? 0 then
        fset bp (set_dinode data inum (fresh_dinode type));;
        flog_write bp;;
        fbrelse bp;;
        iget dev inum
      else fbrelse bp;; ialloc_from dev type rest
  end.

Definition ialloc (dev type : Z) : M (fsst S) nat :=
  sb ← getsb (fun sb => sb);
  ialloc_from dev type (seqZ 1 (sb_ninodes sb - 1)).

Definition dinode_of (i : inode) : dinode :=
  mk_dinode (i_type i) (i_major i) (i_minor i) (i_nlink i) (i_size i) (i_addrs i).

Definition iupdate (ip : nat) : M (fsst S) () :=
  i ← getip ip (fun i => i);
  sb ← getsb (fun sb => sb);
  bp ← fbread (i_dev i) (IBLOCK (i_inum i) sb);
  data ← fdata bp;
  fset bp (set_dinode data (i_inum i) (dinode_of i));;
  flog_write bp;;
  fbrelse bp.

Definition idup (ip : nat) : M (fsst S) nat :=
  modip ip (fun i => i <| i_ref := i_ref i + 1 |>);;
  mret ip.

Definition load_dinode (d : dinode) (i : inode) : inode :=
  i <| i_type := di_type d |> <| i_major := di_major d |> <| i_minor := di_minor d |>
    <| i_nlink := di_nlink d |> <| i_size := di_size d |> <| i_addrs := di_addrs d |>.

Definition ilock (ip : nat) : M (fsst S) () :=
  ref ← getip ip i_ref;
  if ref <? 1 then panic "ilock" else
  pid ← gets fs_pid;
  on_ilock ip (acquiresleep pid);;
  i ← getip ip (fun i => i);
  if i_valid i then mret () else
  sb ← getsb (fun sb => sb);
  bp ← fbread (i_dev i) (IBLOCK (i_inum i) sb);
  data ← fdata bp;
  modip ip (load_dinode (get_dinode data (i_inum i)));;
  fbrelse bp;;
  modip ip (fun i => i <| i_valid := true |>);;
  type ← getip ip i_type;
  if type =? 0 then panic "ilock: no type" else mret ().

Definition iunlock (ip : nat) : M (fsst S) () :=
  held ← on_ilock ip holdingsleep;
  ref ← getip ip i_ref;
  if negb held || (ref <? 1) then panic "iunlock" else
  on_ilock ip releasesleep.

(** ** File contents *)

Definition set_addr (ip : nat) (k : Z) (a : Z) : M (fsst S) () :=
  modip ip (fun i => i <| i_addrs := <[Z.to_nat k := a]> (i_addrs i) |>).
Definition get_addr (ip : nat) (k : Z) : M (fsst S) Z := getip ip (fun i => i_addrs i !!! Z.to_nat k).

Definition bmap (ip : nat) (bn : Z) : M (fsst S) Z :=
  dev ← getip ip i_dev;
  if bn <? NDIRECT then
    addr ← get_addr ip bn;
    if addr =? 0 then
      addr ← balloc dev;
      set_addr ip bn addr;;
      mret addr
    else mret addr
  else
  let bn := bn - NDIRECT in
  if bn <? NINDIRECT then
    addr ← get_addr ip NDIRECT;
    addr ← (if addr =? 0 then
              addr ← balloc dev;
              set_addr ip NDIRECT addr;;
              mret addr
            else mret addr);
    bp ← fbread dev addr;
    a ← fdata bp;
    if word_at a bn =? 0 then
      addr ← balloc dev;
      a ← fdata bp;
      fset bp (set_word a bn addr);;
      flog_write bp;;
      fbrelse bp;;
      mret addr
    else
      fbrelse bp;;
      mret (word_at a bn)
  else panic "bmap: out of range".

Definition itrunc (ip : nat) : M (fsst S) () :=
  dev ← getip ip i_dev;
  forM (seqZ 0 NDIRECT) (fun k =>
    addr ← get_addr ip k;
    when (negb (addr =? 0)) (
      bfree dev addr;;
      set_addr ip k 0));;
  ind ← get_addr ip NDIRECT;
  when (negb (ind =? 0)) (
    bp ← fbread dev ind;
    forM (seqZ 0 NINDIRECT) (fun j =>
      a ← fdata bp;
      when (negb (word_at a j =? 0)) (bfree dev (word_at a j)));;
    fbrelse bp;;
    ind ← get_addr ip NDIRECT;
    bfree dev ind;;
    set_addr ip NDIRECT 0);;
  modip ip (fun i => i <| i_size := 0 |>);;
  iupdate ip.

Definition iput (ip : nat) : M (fsst S) () :=
  pid ← gets fs_pid;
  on_ilock ip (acquiresleep pid);;
  i ← getip ip (fun i => i);
  when (i_valid i && (i_nlink i =? 0)) (
    r ← getip ip i_ref;
    when (r =? 1) (
      itrunc ip;;
      modip ip (fun i => i <| i_type := 0 |>);;
      iupdate ip;;
      modip ip (fun i => i <| i_valid := false |>)));;
  on_ilock ip releasesleep;;
  modip ip (fun i => i <| i_ref := i_ref i - 1 |>).

Definition iunlockput (ip : nat) : M (fsst S) () := iunlock ip;; iput ip.

Definition stati (ip : nat) : M (fsst S) stat :=
  getip ip (fun i => mk_stat (i_type i) (i_dev i) (i_inum i) (i_nlink i) (i_size i)).

(** The copy loop of [readi]; every iteration moves at least one byte, so the
    number of bytes is fuel enough. *)
Fixpoint readi_loop (fuel : nat) (ip : nat) (off n tot : Z) : M (fsst S) (list Z) :=
  if negb (tot <? n) then mret [] else
  match fuel with
  | O => panic "readi: fuel"
  | Datatypes.S fuel' =>
      dev ← getip ip i_dev;
      addr ← bmap ip (off / BSIZE);
      bp ← fbread dev addr;
      let m := Z.min (n - tot) (BSIZE - off mod BSIZE) in
      data ← fdata bp;
      let chunk := slice data (Z.to_nat (off mod BSIZE)) (Z.to_nat m) in
      fbrelse bp;;
      rest ← readi_loop fuel' ip (u32 (off + m)) n (tot + m);
      mret (chunk ++ rest)
  end.

Definition readi (ip : nat) (off n : Z) : M (fsst S) (Z * list Z) :=
  i ← getip ip (fun i => i);
  if i_type i =? T_DEV then
    if (i_major i <? 0) || (NDEV <=? i_major i) then mret (-1, []) else
    match dev_read (i_major i) with
    | None => mret (-1, [])
    | Some f => f ip n
    end
  else
  if (off >? i_size i) || (u32 (off + n) <? off) then mret (-1, []) else
  let n := if u32 (off + n) >? i_size i then i_size i - off else n in
  bytes ← readi_loop (Z.to_nat n) ip off n 0;
  mret (n, bytes).

Fixpoint writei_loop (fuel : nat) (ip : nat) (src : list Z) (off n tot : Z) : M (fsst S) Z :=
  if negb (tot <? n) then mret off else
  match fuel with
  | O => panic "writei: fuel"
  | Datatypes.S fuel' =>
      dev ← getip ip i_dev;
      addr ← bmap ip (off / BSIZE);
      bp ← fbread dev addr;
      let m := Z.min (n - tot) (BSIZE - off mod BSIZE) in
      data ← fdata bp;
      fset bp (splice data (Z.to_nat (off mod BSIZE)) (take (Z.to_nat m) src));;
      flog_write bp;;
      fbrelse bp;;
      writei_loop fuel' ip (drop (Z.to_nat m) src) (u32 (off + m)) n (tot + m)
  end.

Definition writei (ip : nat) (src : list Z) (off n : Z) : M (fsst S) Z :=
  i ← getip ip (fun i => i);
  if i_type i =? T_DEV then
    if (i_major i <? 0) || (NDEV <=? i_major i) then mret (-1) else
    match dev_write (i_major i) with
    | None => mret (-1)
    | Some f => f ip src n
    end
  else
  if (off >? i_size i) || (u32 (off + n) <? off) then mret (-1) else
  if u32 (off + n) >? MAXFILE * BSIZE then mret (-1) else
  off ← writei_loop (Z.to_nat n) ip src off n 0;
  size ← getip ip i_size;
  when ((n >? 0) && (off >? size)) (
    modip ip (fun i => i <| i_size := off |>);;
    iupdate ip);;
  mret n.

(** ** Directories *)

Definition namecmp (s t : list Z) : Z := strncmp (view_of s) (view_of t) (Z.to_nat DIRSIZ).

(** Read the directory entry at [off]; [None] when [readi] falls short. *)
Definition read_dirent (dp : nat) (off : Z) : M (fsst S) (option dirent) :=
  r ← readi dp off DIRENT_SZ;
  mret (if fst r =? DIRENT_SZ then Some (dirent_decode (snd r)) else None).

(** The loop of [dirlookup]; the directory's size is fuel enough. *)
Fixpoint dirlookup_loop (fuel : nat) (dp : nat) (name : list Z) (off : Z) : M (fsst S) (option (nat * Z)) :=
  size ← getip dp i_size;
  if negb (off <? size) then mret None else
  match fuel with
  | O => panic "dirlookup: fuel"
  | Datatypes.S fuel' =>
      de ← read_dirent dp off;
      match de with
      | None => panic "dirlookup read"
      | Some de =>
          if de_inum de =? 0 then dirlookup_loop fuel' dp name (u32 (off + DIRENT_SZ))
          else if namecmp name (de_name de) =? 0 then
            dev ← getip dp i_dev;
            ip ← iget dev (de_inum de);
            mret (Some (ip, off))
          else dirlookup_loop fuel' dp name (u32 (off + DIRENT_SZ))
      end
  end.

Definition dirlookup (dp : nat) (name : list Z) : M (fsst S) (option (nat * Z)) :=
  i ← getip dp (fun i => i);
  if negb (i_type i =? T_DIR) then panic "dirlookup not DIR" else
  dirlookup_loop (Z.to_nat (i_size i)) dp name 0.

(** The search loop of [dirlink]: the offset of the first empty entry, or the
    end of the directory. *)
Fixpoint dirlink_slot (fuel : nat) (dp : nat) (off : Z) : M (fsst S) Z :=
  size ← getip dp i_size;
  if negb (off <? size) then mret off else
  match fuel with
  | O => panic "dirlink: fuel"
  | Datatypes.S fuel' =>
      de ← read_dirent dp off;
      match de with
      | None => panic "dirlink read"
      | Some de => if de_inum de =? 0 then mret off else dirlink_slot fuel' dp (off + DIRENT_SZ)
      end
  end.

(** [strncpy(de.name, name, DIRSIZ)] on a name held as a byte list; see
    [strncpy_correct]. *)
Definition dirent_name (name : list Z) : list Z :=
  cpad (Z.to_nat DIRSIZ) (cstr (view_of name) (Z.to_nat DIRSIZ)).

Definition dirlink (dp : nat) (name : list Z) (inum : Z) : M (fsst S) Z :=
  found ← dirlookup dp name;
  match found with
  | Some (ip, _) => iput ip;; mret (-1)
  | None =>
      size ← getip dp i_size;
      off ← dirlink_slot (Z.to_nat size) dp 0;
      r ← writei dp (dirent_encode (mk_dirent (u16 inum) (dirent_name name))) off DIRENT_SZ;
      if negb (r =? DIRENT_SZ) then panic "dirlink" else mret 0
  end.
End fs.

(** ** Path names *)

Definition SLASH : Z := 47.

Fixpoint skip_slashes (path : list Z) : list Z :=
  match path with
  | c :: path' => if c =? SLASH then skip_slashes path' else path
  | [] => []
  end.

(** The element up to the next slash or the end, and the rest. *)
Fixpoint split_elem (path : list Z) : list Z * list Z :=
  match path with
  | c :: path' =>
      if c =? SLASH then ([], path)
      else let '(e, rest) := split_elem path' in (c :: e, rest)
  | [] => ([], [])
  end.

(** A path is the list of the bytes before its NUL; [name] is the caller's
    buffer of [DIRSIZ] bytes. *)
Definition skipelem (path name : list Z) : option (list Z * list Z) :=
  match skip_slashes path with
  | [] => None
  | s =>
      let '(e, rest) := split_elem s in
      let name' := if DIRSIZ <=? Z.of_nat (length e) then splice name 0 (take (Z.to_nat DIRSIZ) e)
                   else splice name 0 (e ++ [0]) in
      Some (skip_slashes rest, name')
  end.

Section namex.
Context {S : Type} `{!BlockOps S} `{!DevOps S}.

(** The loop of [namex]; a path element consumes at least one byte.  The
    result is the inode and the final contents of [name]. *)
Fixpoint namex_loop (fuel : nat) (ip : nat) (path : list Z) (nameiparent : bool) (name : list Z)
    : M (fsst S) (option nat * list Z) :=
  match skipelem path name with
  | None => if nameiparent then iput ip;; mret (None, name) else mret (Some ip, name)
  | Some (path, name) =>
      match fuel with
      | O => panic "namex: fuel"
      | Datatypes.S fuel' =>
          ilock ip;;
          type ← getip ip i_type;
          if negb (type =? T_DIR) then iunlockput ip;; mret (None, name) else
          if nameiparent && bool_decide (path = []) then iunlock ip;; mret (Some ip, name) else
          next ← dirlookup ip name;
          match next with
          | None => iunlockput ip;; mret (None, name)
          | Some (next, _) => iunlockput ip;; namex_loop fuel' next path nameiparent name
          end
      end
  end.

Definition namex (path : list Z) (nameiparent : bool) (name : list Z) : M (fsst S) (option nat * list Z) :=
  ip ← (match path with
        | c :: _ => if c =? SLASH then iget ROOTDEV ROOTINO else cwd ← gets fs_cwd; idup cwd
        | [] => cwd ← gets fs_cwd; idup cwd
        end);
  namex_loop (length path) ip path nameiparent name.

Definition namei (path : list Z) : M (fsst S) (option nat) :=
  r ← namex path false (replicate (Z.to_nat DIRSIZ) 0);
  mret (fst r).

Definition nameiparent (path name : list Z) : M (fsst S) (option nat * list Z) := namex path true name.
End namex.
