(* ===== verification/FsBlock.v ===== *)
(** The block allocator of [fs.c]: [balloc], [bfree] and [bzero] against the
    free bitmap, and the symbolic-execution rules for the file system code. *)

From S2P Require Import Prelude CString Layout Sleeplock BlockLayer Fs.

(** ** Bits of a bitmap block *)

Lemma land_bit x k : 0 <= k -> negb (Z.land x (Z.shiftl 1 k) =? 0) = Z.testbit x k.
Proof.
  intros Hk. rewrite Z.shiftl_1_l. destruct (Z.testbit x k) eqn:Hb.
  - destruct (Z.eqb_spec (Z.land x (2 ^ k)) 0) as [H|H]; [|done].
    assert (Hf : Z.testbit (Z.land x (2 ^ k)) k = false) by (rewrite H; apply Z.bits_0).
    rewrite Z.land_spec, Hb, Z.pow2_bits_true in Hf by lia. done.
  - assert (Z.land x (2 ^ k) = 0) as ->; [|done].
    apply Z.bits_inj'. intros n Hn. rewrite Z.land_spec, Z.bits_0.
    destruct (decide (n = k)) as [->|]; [by rewrite Hb|]. by rewrite Z.pow2_bits_false, andb_false_r by lia.
Qed.

Lemma bit_set_testbit data bi : bit_set data bi = Z.testbit (bit_byte data bi) (bi mod 8).
Proof. apply land_bit. apply Z.mod_pos_bound. lia. Qed.

Lemma bit_index bi : 0 <= bi < BPB -> (Z.to_nat (bi / 8) < 512)%nat.
Proof. intros H. consts. assert (bi / 8 < 512) by (apply Z.div_lt_upper_bound; lia). lia. Qed.

Lemma bit_byte_insert data bi bj x :
  length data = 512%nat -> 0 <= bi < BPB -> 0 <= bj < BPB ->
  bit_byte (<[Z.to_nat (bi / 8) := x]> data) bj = if bj / 8 =? bi / 8 then x else bit_byte data bj.
Proof.
  intros Hl Hi Hj. unfold bit_byte. pose proof (bit_index _ Hi).
  destruct (Z.eqb_spec (bj / 8) (bi / 8)) as [->|Hne].
  - apply list_lookup_total_insert_eq. lia.
  - apply list_lookup_total_insert_ne. intros E. apply Z2Nat.inj in E; [congruence|..]; apply Z.div_pos; lia.
Qed.

Lemma bit_split bi bj : bi / 8 = bj / 8 -> bi mod 8 = bj mod 8 -> bi = bj.
Proof. intros H1 H2. rewrite (Z.div_mod bi 8), (Z.div_mod bj 8) by lia. congruence. Qed.

Lemma bit_set_used data bi bj :
  length data = 512%nat -> 0 <= bi < BPB -> 0 <= bj < BPB ->
  bit_set (mark_used data bi) bj = (bj =? bi) || bit_set data bj.
Proof.
  intros Hl Hi Hj. rewrite !bit_set_testbit. unfold mark_used. rewrite bit_byte_insert by done.
  destruct (Z.eqb_spec (bj / 8) (bi / 8)) as [He|Hne].
  - unfold bit_byte at 1. rewrite <- He. fold (bit_byte data bj). unfold bit_mask.
    pose proof (Z.mod_pos_bound bi 8). pose proof (Z.mod_pos_bound bj 8).
    rewrite Z.lor_spec, Z.shiftl_1_l. destruct (Z.eqb_spec bj bi) as [->|Hne].
    + by rewrite Z.pow2_bits_true, orb_true_r by lia.
    + rewrite Z.pow2_bits_false, orb_false_r; [done|]. intros E. apply Hne. by apply bit_split.
  - destruct (Z.eqb_spec bj bi) as [->|]; [done|]. done.
Qed.

Lemma bit_set_free data bi bj :
  length data = 512%nat -> 0 <= bi < BPB -> 0 <= bj < BPB ->
  bit_set (mark_free data bi) bj = negb (bj =? bi) && bit_set data bj.
Proof.
  intros Hl Hi Hj. rewrite !bit_set_testbit. unfold mark_free. rewrite bit_byte_insert by done.
  destruct (Z.eqb_spec (bj / 8) (bi / 8)) as [He|Hne].
  - unfold bit_byte at 1. rewrite <- He. fold (bit_byte data bj). unfold bit_mask.
    pose proof (Z.mod_pos_bound bi 8). pose proof (Z.mod_pos_bound bj 8).
    rewrite Z.land_spec, Z.lnot_spec, Z.shiftl_1_l by lia. destruct (Z.eqb_spec bj bi) as [->|Hne].
    + by rewrite Z.pow2_bits_true, andb_false_r by lia.
    + rewrite Z.pow2_bits_false, andb_true_r; [done|]. intros E. apply Hne. by apply bit_split.
  - destruct (Z.eqb_spec bj bi) as [->|]; [done|]. done.
Qed.

Lemma byte_ok_land x : byte_ok x <-> Z.land x (Z.ones 8) = x.
Proof.
  rewrite Z.land_ones by lia. unfold byte_ok. split; [intros; apply Z.mod_small; lia|].
  intros <-. apply Z.mod_pos_bound. lia.
Qed.

Lemma byte_lor x y : byte_ok x -> byte_ok y -> byte_ok (Z.lor x y).
Proof. rewrite !byte_ok_land. intros H1 H2. by rewrite Z.land_lor_distr_l, H1, H2. Qed.

Lemma byte_land x y : byte_ok x -> byte_ok (Z.land x y).
Proof.
  rewrite !byte_ok_land. intros H. by rewrite (Z.land_comm x y), <- Z.land_assoc, H.
Qed.

Lemma bit_byte_ok data bi : block_ok data -> 0 <= bi < BPB -> byte_ok (bit_byte data bi).
Proof.
  intros [Hl Hb] Hi. pose proof (bit_index _ Hi). unfold bit_byte.
  destruct (lookup_lt_is_Some_2 data (Z.to_nat (bi / 8))) as [x Hx]; [lia|].
  rewrite (list_lookup_total_correct _ _ _ Hx). by apply (proj1 (Forall_lookup _ _) Hb _ _ Hx).
Qed.

Lemma bit_mask_ok bi : byte_ok (bit_mask bi).
Proof.
  unfold bit_mask, byte_ok. rewrite Z.shiftl_1_l. pose proof (Z.mod_pos_bound bi 8 ltac:(lia)).
  change 256 with (2 ^ 8). split; [lia|]. apply Z.pow_lt_mono_r; lia.
Qed.

Lemma mark_used_ok data bi : block_ok data -> 0 <= bi < BPB -> block_ok (mark_used data bi).
Proof.
  intros Hd Hi. split; [unfold mark_used; rewrite length_insert; apply Hd|].
  apply Forall_insert; [apply Hd|]. apply byte_lor; [by apply bit_byte_ok|apply bit_mask_ok].
Qed.

Lemma mark_free_ok data bi : block_ok data -> 0 <= bi < BPB -> block_ok (mark_free data bi).
Proof.
  intros Hd Hi. split; [unfold mark_free; rewrite length_insert; apply Hd|].
  apply Forall_insert; [apply Hd|]. by apply byte_land, bit_byte_ok.
Qed.

(** ** Symbolic execution *)

Section rules.
Context {S : Type} `{!BlockOps S} `{!BlockLayer S} `{!DevOps S}.
Implicit Types (b : S) (t : txn) (sb : superblock) (ic : list inode).

Lemma wp_on_blk {A} (m : M S A) b sb ic pid cwd Q :
  wp m b (fun a b' => Q a (mk_fsst b' sb ic pid cwd)) -> wp (on_blk m) (mk_fsst b sb ic pid cwd) Q.
Proof. intros H. apply wp_zoom. exact H. Qed.

Lemma wp_getsb {A} (f : superblock -> A) b sb ic pid cwd (Q : A -> fsst S -> Prop) :
  Q (f sb) (mk_fsst b sb ic pid cwd) -> wp (getsb f) (mk_fsst b sb ic pid cwd) Q.
Proof. done. Qed.

Lemma wp_getip {A} ip (f : inode -> A) b sb ic pid cwd (Q : A -> fsst S -> Prop) :
  Q (f (ic !!! ip)) (mk_fsst b sb ic pid cwd) -> wp (getip ip f) (mk_fsst b sb ic pid cwd) Q.
Proof. done. Qed.

Lemma wp_modip ip f b sb ic pid cwd (Q : () -> fsst S -> Prop) :
  Q () (mk_fsst b sb (<[ip := f (ic !!! ip)]> ic) pid cwd) ->
  wp (modip ip f) (mk_fsst b sb ic pid cwd) Q.
Proof. done. Qed.

Lemma wp_fbread b t sb ic pid cwd blk Q :
  bl_rep b t -> 0 <= blk < t_hi t -> t_held t !! blk = None -> (size (t_held t) < MAXHELD)%nat ->
  (forall i b', bl_rep b' (hold blk i false t) -> Q i (mk_fsst b' sb ic pid cwd)) ->
  wp (fbread ROOTDEV blk) (mk_fsst b sb ic pid cwd) Q.
Proof.
  intros Hr Hb Hh Hs HQ. apply wp_on_blk. eapply wp_conseq; [by eapply bl_bread_spec|]. exact HQ.
Qed.

Lemma wp_fdata b t sb ic pid cwd blk i m Q :
  bl_rep b t -> t_held t !! blk = Some (i, m) ->
  Q (t_view t blk) (mk_fsst b sb ic pid cwd) -> wp (fdata i) (mk_fsst b sb ic pid cwd) Q.
Proof.
  intros Hr Hh HQ. apply wp_on_blk. eapply wp_conseq; [by eapply bl_data_spec|]. by intros ? ? [-> ->].
Qed.

Lemma wp_fset b t sb ic pid cwd blk i m d Q :
  bl_rep b t -> t_held t !! blk = Some (i, m) -> t_lo t <= blk < t_hi t -> block_ok d ->
  (forall b', bl_rep b' (put_view blk d (hold blk i true t)) -> Q () (mk_fsst b' sb ic pid cwd)) ->
  wp (fset i d) (mk_fsst b sb ic pid cwd) Q.
Proof.
  intros Hr Hh Hb Hd HQ. apply wp_on_blk. eapply wp_conseq; [by eapply bl_set_spec|]. intros [] ?. apply HQ.
Qed.

Lemma wp_flog_write b t sb ic pid cwd blk i m Q :
  bl_rep b t -> t_held t !! blk = Some (i, m) -> t_lo t <= blk < t_hi t -> loggable blk t ->
  (forall b', bl_rep b' (log_mark blk (hold blk i false t)) -> Q () (mk_fsst b' sb ic pid cwd)) ->
  wp (flog_write i) (mk_fsst b sb ic pid cwd) Q.
Proof.
  intros Hr Hh Hb Hd HQ. apply wp_on_blk. eapply wp_conseq; [by eapply bl_log_write_spec|].
  intros [] ?. apply HQ.
Qed.

Lemma wp_fbrelse b t sb ic pid cwd blk i Q :
  bl_rep b t -> t_held t !! blk = Some (i, false) ->
  (forall b', bl_rep b' (drop_hold blk t) -> Q () (mk_fsst b' sb ic pid cwd)) ->
  wp (fbrelse i) (mk_fsst b sb ic pid cwd) Q.
Proof.
  intros Hr Hh HQ. apply wp_on_blk. eapply wp_conseq; [by eapply bl_brelse_spec|]. intros [] ?. apply HQ.
Qed.

(** Releasing an unchanged block, or one that was changed and logged, leaves
    the buffers held as they were. *)
Lemma release_read blk i t : t_held t !! blk = None -> drop_hold blk (hold blk i false t) = t.
Proof.
  intros H. destruct t as [ba v h lg c lo hi]. unfold drop_hold, hold, set_field. simpl in *.
  by rewrite delete_insert_id.
Qed.

Lemma release_write blk i d t :
  t_held t !! blk = None ->
  drop_hold blk (log_mark blk (hold blk i false (put_view blk d (hold blk i true (hold blk i false t))))) =
  log_mark blk (put_view blk d t).
Proof.
  intros H. destruct t as [ba v h lg c lo hi]. unfold drop_hold, log_mark, hold, put_view, set_field. simpl in *.
  by rewrite !insert_insert_eq, delete_insert_id.
Qed.
End rules.

(** One step of the file system code. *)
Ltac fs_step :=
  first [ wp_step
        | match goal with
          | |- wp (getsb _) (mk_fsst _ _ _ _ _) _ => apply wp_getsb
          | |- wp (getip _ _) (mk_fsst _ _ _ _ _) _ => apply wp_getip
          | |- wp (get_addr _ _) (mk_fsst _ _ _ _ _) _ => apply wp_getip
          | |- wp (modip _ _) (mk_fsst _ _ _ _ _) _ => apply wp_modip
          | |- wp (set_addr _ _ _) (mk_fsst _ _ _ _ _) _ => apply wp_modip
          end; cbv beta ].

(** Side conditions on the buffers held. *)
Ltac held_tac := simpl; rewrite ?lookup_insert_eq; first [done | by simplify_map_eq | lia].

(** ** The allocator *)

Definition put_log (blk : Z) (d : list Z) (t : txn) : txn := log_mark blk (put_view blk d t).

(** The number of bitmap blocks, and the first data block. *)
Definition nbitmap (sb : superblock) : Z := sb_size sb / BPB + 1.
Definition data_start (sb : superblock) : Z := sb_bmapstart sb + nbitmap sb.
Definition bmap_set (sb : superblock) : gset Z := list_to_set (seqZ (sb_bmapstart sb) (nbitmap sb)).

(** Block [b] is marked in use. *)
Definition used (sb : superblock) (t : txn) (b : Z) : bool :=
  bit_set (t_view t (BBLOCK b sb)) (b mod BPB).

(** The layout mkfs computes: log, inode blocks, bitmap, data; everything
    before the data blocks is marked in use. *)
Record fs_geom (sb : superblock) (t : txn) : Prop := {
  ge_size : 0 < sb_size sb <= t_hi t;
  ge_ino : t_lo t <= sb_inodestart sb;
  ge_nino : 0 <= sb_ninodes sb;
  ge_ino_end : sb_inodestart sb + sb_ninodes sb / IPB + 1 <= sb_bmapstart sb;
  ge_end : data_start sb <= sb_size sb;
  ge_sb : superblock_decode (t_view t 1) = sb;
  ge_meta : forall b, 0 <= b < data_start sb -> used sb t b = true
}.

Definition is_data (sb : superblock) (b : Z) : Prop := data_start sb <= b < sb_size sb.

Lemma bblock_range sb t b :
  fs_geom sb t -> t_hi t < 2 ^ 31 -> 2 <= t_lo t -> 0 <= b < sb_size sb ->
  BBLOCK b sb = b / BPB + sb_bmapstart sb /\ sb_bmapstart sb <= BBLOCK b sb < data_start sb.
Proof.
  intros [] Hhi Hlo Hb. unfold BBLOCK, data_start, nbitmap in *. consts.
  assert (0 <= b / 4096 <= sb_size sb / 4096) by (split; [apply Z.div_pos; lia|apply Z.div_le_mono; lia]).
  assert (0 <= sb_ninodes sb / 8) by (apply Z.div_pos; lia).
  rewrite u32_small by lia. lia.
Qed.

Lemma bblock_bmap_set sb t b :
  fs_geom sb t -> t_hi t < 2 ^ 31 -> 2 <= t_lo t -> 0 <= b < sb_size sb -> BBLOCK b sb ∈ bmap_set sb.
Proof.
  intros Hg Hhi Hlo Hb. destruct (bblock_range _ _ _ Hg Hhi Hlo Hb) as [_ H].
  unfold bmap_set. rewrite elem_of_list_to_set, elem_of_seqZ. unfold data_start in H. lia.
Qed.

(** A transaction after [balloc] returned [b]. *)
Definition alloc_txn (sb : superblock) (b : Z) (t : txn) : txn :=
  put_log b zero_block (put_log (BBLOCK b sb) (mark_used (t_view t (BBLOCK b sb)) (b mod BPB)) t).

(** A transaction after [bfree] of [b]. *)
Definition free_txn (sb : superblock) (b : Z) (t : txn) : txn :=
  put_log (BBLOCK b sb) (mark_free (t_view t (BBLOCK b sb)) (b mod BPB)) t.

(** Room in the log for the bitmap blocks and [n] more. *)
Definition log_room (sb : superblock) (n : nat) (t : txn) : Prop :=
  (size (bmap_set sb ∪ t_logged t) + n <= t_cap t)%nat.

Lemma loggable_bmap sb n t blk : log_room sb n t -> blk ∈ bmap_set sb -> loggable blk t.
Proof.
  unfold log_room, loggable. intros H Hb.
  assert (size ({[blk]} ∪ t_logged t) <= size (bmap_set sb ∪ t_logged t))%nat by (apply subseteq_size; set_solver).
  lia.
Qed.

Lemma loggable_room sb n t blk : log_room sb (Datatypes.S n) t -> loggable blk t.
Proof.
  unfold log_room, loggable. intros H.
  pose proof (size_union_alt {[blk]} (t_logged t)) as Hu.
  assert (size (t_logged t ∖ {[blk]}) <= size (bmap_set sb ∪ t_logged t))%nat by (apply subseteq_size; set_solver).
  rewrite size_singleton in Hu. lia.
Qed.

Lemma log_room_bmap sb n t blk d : log_room sb n t -> blk ∈ bmap_set sb -> log_room sb n (put_log blk d t).
Proof.
  unfold log_room. simpl. intros H Hb.
  replace (bmap_set sb ∪ ({[blk]} ∪ t_logged t)) with (bmap_set sb ∪ t_logged t); [done|].
  apply set_eq. intros k. set_solver.
Qed.

Lemma log_room_spend sb n t blk d : log_room sb (Datatypes.S n) t -> log_room sb n (put_log blk d t).
Proof.
  unfold log_room. simpl. intros H.
  replace (bmap_set sb ∪ ({[blk]} ∪ t_logged t)) with ({[blk]} ∪ (bmap_set sb ∪ t_logged t)) by set_solver.
  pose proof (size_union_alt {[blk]} (bmap_set sb ∪ t_logged t)) as Hu.
  assert (size ((bmap_set sb ∪ t_logged t) ∖ {[blk]}) <= size (bmap_set sb ∪ t_logged t))%nat
    by (apply subseteq_size; set_solver).
  rewrite size_singleton in Hu. lia.
Qed.

Lemma log_room_logged sb n t blk d : log_room sb n t -> blk ∈ t_logged t -> log_room sb n (put_log blk d t).
Proof.
  unfold log_room. simpl. intros H Hb. replace ({[blk]} ∪ t_logged t) with (t_logged t); [done|].
  apply set_eq. set_solver.
Qed.

Lemma log_room_weaken sb n m t : log_room sb n t -> (m <= n)%nat -> log_room sb m t.
Proof. unfold log_room. lia. Qed.

Section alloc.
Context {S : Type} `{!BlockOps S} `{!BlockLayer S} `{!DevOps S}.
Implicit Types (b : S) (t : txn) (sb : superblock) (ic : list inode).

Lemma wp_bzero b t sb ic pid cwd blk Q :
  bl_rep b t -> t_lo t <= blk < t_hi t -> t_held t !! blk = None -> (size (t_held t) < MAXHELD)%nat ->
  loggable blk t ->
  (forall b', bl_rep b' (put_log blk zero_block t) -> Q () (mk_fsst b' sb ic pid cwd)) ->
  wp (bzero ROOTDEV blk) (mk_fsst b sb ic pid cwd) Q.
Proof.
  intros Hr Hb Hh Hs Hlg HQ. pose proof (bl_bound _ _ Hr). unfold bzero.
  fs_step. apply (wp_fbread _ t); try done; [lia|]. intros i b1 H1.
  fs_step. eapply (wp_fset _ _ _ _ _ _ blk i false _ _ H1); [held_tac|done|apply zero_block_ok|]. intros b2 H2.
  fs_step. eapply (wp_flog_write _ _ _ _ _ _ blk i true _ H2); [held_tac|done|done|]. intros b3 H3.
  eapply (wp_fbrelse _ _ _ _ _ _ blk i _ H3); [held_tac|]. intros b4 H4. rewrite release_write in H4 by done.
  by apply HQ.
Qed.

Lemma wp_fs_readsb b t sb ic pid cwd Q :
  bl_rep b t -> t_held t !! 1 = None -> (size (t_held t) < MAXHELD)%nat ->
  (forall b', bl_rep b' t -> Q () (mk_fsst b' (superblock_decode (t_view t 1)) ic pid cwd)) ->
  wp (fs_readsb ROOTDEV) (mk_fsst b sb ic pid cwd) Q.
Proof.
  intros Hr Hh Hs HQ. pose proof (bl_bound _ _ Hr). unfold fs_readsb.
  fs_step. apply (wp_fbread _ t); try done; [lia|]. intros i b1 H1.
  fs_step. eapply (wp_fdata _ _ _ _ _ _ 1 i false _ H1); [held_tac|].
  fs_step. fs_step. eapply (wp_fbrelse _ _ _ _ _ _ 1 i _ H1); [held_tac|]. intros b2 H2.
  rewrite release_read in H2 by done. by apply HQ.
Qed.

Lemma first_free_Some data base size i :
  first_free data base size = Some i ->
  0 <= Z.of_nat i < Z.min BPB (size - base) /\ bit_set data (Z.of_nat i) = false /\
  forall j, 0 <= j < Z.of_nat i -> bit_set data j = true.
Proof.
  unfold first_free. intros [(x & Hx & Hf) Hlt]%find_idx_Some.
  apply lookup_seqZ in Hx as [-> Hi]. rewrite Z.add_0_l in Hf. apply negb_true_iff in Hf.
  split; [lia|]. split; [done|]. intros j Hj. apply negb_false_iff.
  apply (Hlt (Z.to_nat j)); [lia|]. apply lookup_seqZ. lia.
Qed.

Lemma first_free_None data base size j :
  first_free data base size = None -> 0 <= j < Z.min BPB (size - base) -> bit_set data j = true.
Proof.
  unfold first_free. intros H Hj. apply negb_false_iff.
  apply (proj1 (find_idx_None _ _) H (Z.to_nat j)). apply lookup_seqZ. lia.
Qed.

(** Blocks of the [j]-th bitmap block. *)
Lemma bblock_at sb j k :
  0 <= k < BPB -> BBLOCK (j * BPB + k) sb = BBLOCK (j * BPB) sb /\ (j * BPB + k) mod BPB = k.
Proof.
  intros Hk. unfold BBLOCK. consts. rewrite Z.div_add_l by lia. rewrite Z.div_small by lia.
  rewrite Z.add_0_r, Z.div_mul by lia. split; [done|].
  rewrite Z.add_comm, Z.mod_add by lia. apply Z.mod_small. lia.
Qed.

Definition first_unused sb t (blk : Z) : Prop :=
  0 <= blk < sb_size sb /\ used sb t blk = false /\ forall k, 0 <= k < blk -> used sb t k = true.

(** What an allocating caller must have: no bitmap or free block held, a
    spare buffer, and log space. *)
Record can_alloc sb t : Prop := {
  ca_geom : fs_geom sb t;
  ca_bmap : forall blk, blk ∈ bmap_set sb -> t_held t !! blk = None;
  ca_free : forall blk, 0 <= blk < sb_size sb -> used sb t blk = false -> t_held t !! blk = None;
  ca_held : (size (t_held t) < MAXHELD)%nat;
  ca_room : log_room sb 1 t
}.

Lemma unused_data sb t blk :
  fs_geom sb t -> 0 <= blk < sb_size sb -> used sb t blk = false -> is_data sb blk.
Proof.
  intros Hg Hb Hu. split; [|lia]. destruct (decide (data_start sb <= blk)); [done|].
  rewrite (ge_meta _ _ Hg) in Hu by lia. done.
Qed.

Lemma wp_balloc_here b t sb ic pid cwd blk i j bp Q :
  bl_rep b (hold (BBLOCK (j * BPB) sb) bp false t) -> can_alloc sb t -> 0 <= j ->
  first_free (t_view t (BBLOCK (j * BPB) sb)) (j * BPB) (sb_size sb) = Some i ->
  blk = j * BPB + Z.of_nat i ->
  (forall b', bl_rep b' (alloc_txn sb blk t) -> Q blk (mk_fsst b' sb ic pid cwd)) ->
  wp (fset bp (mark_used (t_view t (BBLOCK (j * BPB) sb)) (Z.of_nat i));;
      flog_write bp;; fbrelse bp;; bzero ROOTDEV (j * BPB + Z.of_nat i);; mret (j * BPB + Z.of_nat i))
     (mk_fsst b sb ic pid cwd) Q.
Proof.
  intros Hr [Hg Hbm Hfree Hheld Hroom] Hj Hf -> HQ.
  destruct (bl_bound _ _ Hr) as [[Hlo Hlh] Hhi]. cbn in Hlo, Hlh, Hhi.
  apply first_free_Some in Hf as (Hi & Hbit & _). set (k := Z.of_nat i) in *.
  assert (0 <= j * BPB) by (apply Z.mul_nonneg_nonneg; [lia|done]).
  assert (Hblk : 0 <= j * BPB + k < sb_size sb) by lia.
  destruct (bblock_at sb j k) as [Hbb Hmod]; [lia|].
  assert (Hu : used sb t (j * BPB + k) = false) by (unfold used; by rewrite Hbb, Hmod).
  pose proof (unused_data _ _ _ Hg Hblk Hu) as [Hd1 Hd2].
  destruct (bblock_range sb t _ Hg Hhi Hlo Hblk) as [_ Hbr]. rewrite Hbb in Hbr.
  assert (Hin : BBLOCK (j * BPB) sb ∈ bmap_set sb) by (rewrite <- Hbb; by apply (bblock_bmap_set sb t)).
  set (bb := BBLOCK (j * BPB) sb) in *.
  assert (Hbb0 : t_held t !! bb = None) by auto.
  pose proof (ge_ino _ _ Hg). pose proof (ge_ino_end _ _ Hg). pose proof (ge_end _ _ Hg). pose proof (ge_size _ _ Hg).
  pose proof (ge_nino _ _ Hg). assert (0 <= sb_ninodes sb / IPB) by (apply Z.div_pos; [lia|done]).
  assert (Hok : block_ok (mark_used (t_view t bb) k)).
  { apply mark_used_ok; [|lia]. apply (bl_ok _ _ bb Hr). simpl. lia. }
  fs_step. eapply (wp_fset _ _ _ _ _ _ bb bp false _ _ Hr); [held_tac|simpl; lia|done|]. intros b2 R2.
  fs_step. eapply (wp_flog_write _ _ _ _ _ _ bb bp true _ R2); [held_tac|simpl; lia|by apply (loggable_bmap sb 1 t)|].
  intros b3 R3.
  fs_step. eapply (wp_fbrelse _ _ _ _ _ _ bb bp _ R3); [held_tac|]. intros b4 R4. rewrite release_write in R4 by done.
  fold (put_log bb (mark_used (t_view t bb) k) t) in R4.
  fs_step. eapply (wp_bzero _ _ _ _ _ _ _ _ R4); [simpl; lia|by apply Hfree|done| |].
  { apply (loggable_room sb 0). by apply log_room_bmap. }
  intros b5 R5. apply wp_ret, HQ. unfold alloc_txn. by rewrite Hbb, Hmod.
Qed.

Lemma wp_balloc_from b t sb ic pid cwd j n Q :
  bl_rep b t -> can_alloc sb t -> 0 <= j ->
  j + Z.of_nat n = (sb_size sb + BPB - 1) / BPB ->
  (forall k, 0 <= k < j * BPB -> k < sb_size sb -> used sb t k = true) ->
  (exists blk, 0 <= blk < sb_size sb /\ used sb t blk = false) ->
  (forall blk b', first_unused sb t blk -> bl_rep b' (alloc_txn sb blk t) -> Q blk (mk_fsst b' sb ic pid cwd)) ->
  wp (balloc_from ROOTDEV ((fun i => i * BPB) <$> seqZ j (Z.of_nat n))) (mk_fsst b sb ic pid cwd) Q.
Proof.
  revert b j. induction n as [|n IH]; intros b j Hr Hca Hj Hn Hbelow Hex HQ.
  { exfalso. destruct Hex as (blk & Hb & Hu). rewrite Hbelow in Hu; [done| |lia].
    split; [lia|]. replace j with ((sb_size sb + BPB - 1) / BPB) by lia.
    consts. pose proof (Z.div_mod (sb_size sb + 4096 - 1) 4096).
    pose proof (Z.mod_pos_bound (sb_size sb + 4096 - 1) 4096). lia. }
  rewrite seqZ_cons by lia. replace (Z.pred (Z.of_nat (Datatypes.S n))) with (Z.of_nat n) by lia.
  simpl fmap. cbn [balloc_from]. do 2 fs_step.
  pose proof Hca as [Hg Hbm Hfree Hheld Hroom]. destruct (bl_bound _ _ Hr) as [[Hlo Hlh] Hhi].
  assert (Hjs : 0 <= j * BPB < sb_size sb).
  { split; [apply Z.mul_nonneg_nonneg; [lia|done]|]. consts.
    pose proof (Z.div_mod (sb_size sb + 4096 - 1) 4096).
    pose proof (Z.mod_pos_bound (sb_size sb + 4096 - 1) 4096). lia. }
  destruct (bblock_range sb t _ Hg Hhi Hlo Hjs) as [_ Hbr].
  pose proof (bblock_bmap_set sb t _ Hg Hhi Hlo Hjs) as Hin.
  pose proof (ge_end _ _ Hg). pose proof (ge_size _ _ Hg). pose proof (ge_ino _ _ Hg).
  pose proof (ge_ino_end _ _ Hg). pose proof (ge_nino _ _ Hg).
  assert (0 <= sb_ninodes sb / IPB) by (apply Z.div_pos; [lia|done]).
  fs_step. apply (wp_fbread _ t); [done|lia|auto|done|]. intros bp b1 R1.
  fs_step. eapply (wp_fdata _ _ _ _ _ _ _ bp false _ R1); [held_tac|]. cbn [t_view hold set_field].
  change (t_view (hold _ _ _ t)) with (t_view t).
  destruct (first_free _ _ _) as [i|] eqn:Hff.
  - eapply (wp_balloc_here _ _ _ _ _ _ _ _ _ _ _ R1 Hca Hj Hff eq_refl). intros b' R'. apply HQ; [|done].
    apply first_free_Some in Hff as (Hi & Hbit & Hall).
    destruct (bblock_at sb j (Z.of_nat i)) as [Hbb Hmod]; [lia|].
    split; [lia|]. split; [unfold used; by rewrite Hbb, Hmod|]. intros k Hk.
    destruct (decide (k < j * BPB)); [apply Hbelow; lia|].
    destruct (bblock_at sb j (k - j * BPB)) as [Hbb' Hmod']; [lia|].
    replace (j * BPB + (k - j * BPB)) with k in * by lia.
    unfold used. rewrite Hbb', Hmod'. apply Hall. lia.
  - fs_step. eapply (wp_fbrelse _ _ _ _ _ _ _ bp _ R1); [held_tac|]. intros b2 R2.
    rewrite release_read in R2 by auto. change (Z.succ j) with (j + 1).
    apply (IH b2 (j + 1) R2); [done|lia|lia| |done|done]. intros k Hk Hks.
    destruct (decide (k < j * BPB)); [apply Hbelow; lia|].
    assert (0 <= k - j * BPB < BPB) by lia.
    destruct (bblock_at sb j (k - j * BPB)) as [Hbb' Hmod']; [lia|].
    replace (j * BPB + (k - j * BPB)) with k in * by lia.
    unfold used. rewrite Hbb', Hmod'. apply (first_free_None _ _ _ _ Hff). lia.
Qed.

Lemma wp_balloc b t sb ic pid cwd Q :
  bl_rep b t -> can_alloc sb t -> (exists blk, 0 <= blk < sb_size sb /\ used sb t blk = false) ->
  (forall blk b', first_unused sb t blk -> bl_rep b' (alloc_txn sb blk t) -> Q blk (mk_fsst b' sb ic pid cwd)) ->
  wp (balloc ROOTDEV) (mk_fsst b sb ic pid cwd) Q.
Proof.
  intros Hr Hca Hex HQ. unfold balloc, bmap_starts. do 2 fs_step.
  pose proof (ge_size _ _ (ca_geom _ _ Hca)).
  assert (0 <= (sb_size sb + BPB - 1) / BPB) by (apply Z.div_pos; consts; lia).
  rewrite <- (Z2Nat.id ((sb_size sb + BPB - 1) / BPB)) by done.
  apply (wp_balloc_from _ t); try done; [lia|]. intros k Hk. lia.
Qed.

Lemma wp_bfree b t sb ic pid cwd blk Q :
  bl_rep b t -> fs_geom sb t -> 0 <= blk < sb_size sb -> used sb t blk = true ->
  t_held t !! 1 = None -> t_held t !! BBLOCK blk sb = None -> (size (t_held t) < MAXHELD)%nat ->
  loggable (BBLOCK blk sb) t ->
  (forall b', bl_rep b' (free_txn sb blk t) -> Q () (mk_fsst b' sb ic pid cwd)) ->
  wp (bfree ROOTDEV blk) (mk_fsst b sb ic pid cwd) Q.
Proof.
  intros Hr Hg Hblk Hu H1 Hh Hs Hlog HQ. destruct (bl_bound _ _ Hr) as [[Hlo Hlh] Hhi].
  destruct (bblock_range sb t _ Hg Hhi Hlo Hblk) as [_ Hbr].
  pose proof (ge_end _ _ Hg). pose proof (ge_size _ _ Hg). pose proof (ge_ino _ _ Hg).
  pose proof (ge_ino_end _ _ Hg). pose proof (ge_nino _ _ Hg).
  assert (0 <= sb_ninodes sb / IPB) by (apply Z.div_pos; [lia|done]).
  unfold bfree. fs_step. apply (wp_fs_readsb _ t); try done. intros b1 R1. rewrite (ge_sb _ _ Hg).
  do 2 fs_step. fs_step. apply (wp_fbread _ t); [done|lia|done|done|]. intros bp b2 R2.
  fs_step. eapply (wp_fdata _ _ _ _ _ _ _ bp false _ R2); [held_tac|].
  change (t_view (hold _ _ _ t)) with (t_view t).
  fold (used sb t blk). rewrite Hu. cbn [negb].
  assert (Hok : block_ok (mark_free (t_view t (BBLOCK blk sb)) (blk mod BPB))).
  { apply mark_free_ok; [|apply Z.mod_pos_bound; done]. apply (bl_ok _ _ _ Hr). lia. }
  fs_step. eapply (wp_fset _ _ _ _ _ _ _ bp false _ _ R2); [held_tac|simpl; lia|done|]. intros b3 R3.
  fs_step. eapply (wp_flog_write _ _ _ _ _ _ _ bp true _ R3); [held_tac|simpl; lia|done|]. intros b4 R4.
  eapply (wp_fbrelse _ _ _ _ _ _ _ bp _ R4); [held_tac|]. intros b5 R5. rewrite release_write in R5 by done.
  by apply HQ.
Qed.
End alloc.

(** ** Effects on the bitmap *)

Section bitmap.
Context (sb : superblock) (t : txn).
Context (Hg : fs_geom sb t) (Hlo : 2 <= t_lo t) (Hhi : t_hi t < 2 ^ 31).
Context (Hok : forall k, 0 <= k < t_hi t -> block_ok (t_view t k)).

Lemma meta_bounds : t_lo t <= sb_bmapstart sb /\ data_start sb <= t_hi t /\ sb_bmapstart sb < data_start sb.
Proof.
  pose proof (ge_ino _ _ Hg). pose proof (ge_ino_end _ _ Hg). pose proof (ge_nino _ _ Hg).
  pose proof (ge_end _ _ Hg). pose proof (ge_size _ _ Hg).
  assert (0 <= sb_ninodes sb / IPB) by (apply Z.div_pos; [lia|done]).
  assert (0 <= sb_size sb / BPB) by (apply Z.div_pos; [lia|done]).
  unfold data_start, nbitmap in *. lia.
Qed.

Lemma bblock_eq b k :
  0 <= b < sb_size sb -> 0 <= k < sb_size sb ->
  BBLOCK b sb = BBLOCK k sb -> b mod BPB = k mod BPB -> b = k.
Proof.
  intros Hb Hk He Hm. destruct (bblock_range sb t b) as [E1 _]; try done.
  destruct (bblock_range sb t k) as [E2 _]; try done.
  rewrite (Z.div_mod b BPB), (Z.div_mod k BPB) by done. rewrite Hm. f_equal. f_equal. lia.
Qed.

Lemma bb_ok b : 0 <= b < sb_size sb -> block_ok (t_view t (BBLOCK b sb)).
Proof.
  intros Hb. destruct (bblock_range sb t b) as [_ ?]; try done. pose proof meta_bounds. apply Hok. lia.
Qed.

Lemma used_mark f b k :
  0 <= b < sb_size sb -> 0 <= k < sb_size sb ->
  used sb (put_log (BBLOCK b sb) (f (t_view t (BBLOCK b sb))) t) k =
  if BBLOCK k sb =? BBLOCK b sb then bit_set (f (t_view t (BBLOCK k sb))) (k mod BPB) else used sb t k.
Proof.
  intros Hb Hk. unfold used. simpl. unfold upd.
  destruct (Z.eqb_spec (BBLOCK k sb) (BBLOCK b sb)) as [->|]; done.
Qed.

Lemma mod_BPB k : 0 <= k mod BPB < BPB.
Proof. apply Z.mod_pos_bound. done. Qed.

(** [balloc] sets the bit of the block it returns, and no other. *)
Lemma used_alloc b k :
  is_data sb b -> 0 <= k < sb_size sb -> used sb (alloc_txn sb b t) k = (k =? b) || used sb t k.
Proof.
  intros [Hb1 Hb2] Hk. pose proof meta_bounds. assert (Hb : 0 <= b < sb_size sb) by lia.
  destruct (bblock_range sb t k) as [_ ?]; try done. destruct (bb_ok _ Hk) as [Hl _].
  transitivity (used sb (put_log (BBLOCK b sb) (mark_used (t_view t (BBLOCK b sb)) (b mod BPB)) t) k).
  { unfold used, alloc_txn. simpl. rewrite upd_ne by lia. done. }
  rewrite (used_mark (fun d => mark_used d (b mod BPB))) by done.
  destruct (Z.eqb_spec (BBLOCK k sb) (BBLOCK b sb)) as [He|Hne].
  - rewrite bit_set_used by (done || apply mod_BPB). unfold used. f_equal.
    destruct (Z.eqb_spec k b) as [->|Hkb]; [by rewrite Z.eqb_refl|].
    apply Z.eqb_neq. intros Hm. by apply Hkb, bblock_eq.
  - destruct (Z.eqb_spec k b) as [->|]; [done|]. done.
Qed.

(** [bfree] clears the bit of its block, and no other. *)
Lemma used_freed b k :
  0 <= b < sb_size sb -> 0 <= k < sb_size sb ->
  used sb (free_txn sb b t) k = negb (k =? b) && used sb t k.
Proof.
  intros Hb Hk. destruct (bb_ok _ Hk) as [Hl _]. unfold free_txn.
  rewrite (used_mark (fun d => mark_free d (b mod BPB))) by done.
  destruct (Z.eqb_spec (BBLOCK k sb) (BBLOCK b sb)) as [He|Hne].
  - rewrite bit_set_free by (done || apply mod_BPB). unfold used. f_equal. f_equal.
    destruct (Z.eqb_spec k b) as [->|Hkb]; [by rewrite Z.eqb_refl|].
    apply Z.eqb_neq. intros Hm. by apply Hkb, bblock_eq.
  - destruct (Z.eqb_spec k b) as [->|]; [done|]. done.
Qed.

Lemma alloc_view b k :
  k <> b -> k <> BBLOCK b sb -> t_view (alloc_txn sb b t) k = t_view t k.
Proof. intros H1 H2. unfold alloc_txn. simpl. by rewrite !upd_ne. Qed.

Lemma alloc_zero b : t_view (alloc_txn sb b t) b = zero_block.
Proof. apply upd_eq. Qed.

Lemma free_view b k : k <> BBLOCK b sb -> t_view (free_txn sb b t) k = t_view t k.
Proof. intros H. unfold free_txn. simpl. by rewrite upd_ne. Qed.

Lemma geom_alloc b : is_data sb b -> fs_geom sb (alloc_txn sb b t).
Proof.
  intros Hb. pose proof meta_bounds. destruct (bblock_range sb t b) as [_ ?]; try done; [unfold is_data in Hb; lia|].
  pose proof Hg as []. split; try done.
  - rewrite alloc_view; [done|..]; unfold is_data in Hb; lia.
  - intros k Hk. rewrite used_alloc by (done || lia). rewrite ge_meta0 by done. apply orb_true_r.
Qed.

Lemma geom_free b : is_data sb b -> fs_geom sb (free_txn sb b t).
Proof.
  intros Hb. pose proof meta_bounds. unfold is_data in Hb.
  destruct (bblock_range sb t b) as [_ ?]; try done; [lia|].
  pose proof Hg as []. split; try done.
  - rewrite free_view; [done|lia].
  - intros k Hk. rewrite used_freed by lia. rewrite ge_meta0, andb_true_r by done.
    apply negb_true_iff, Z.eqb_neq. lia.
Qed.
End bitmap.

Section alloc_properties.
Context {S : Type} `{!BlockOps S} `{!BlockLayer S} `{!DevOps S}.
Implicit Types (b : S) (t : txn) (sb : superblock) (ic : list inode).

(** With every block in use the scan of the bitmap ends in a panic. *)
Lemma balloc_from_full b t sb ic pid cwd j n :
  bl_rep b t -> can_alloc sb t -> 0 <= j ->
  j + Z.of_nat n = (sb_size sb + BPB - 1) / BPB ->
  (forall k, 0 <= k < sb_size sb -> used sb t k = true) ->
  balloc_from ROOTDEV ((fun i => i * BPB) <$> seqZ j (Z.of_nat n)) (mk_fsst b sb ic pid cwd) =
  Panic "balloc: out of blocks".
Proof.
  revert b j. induction n as [|n IH]; intros b j Hr Hca Hj Hn Hall; [done|].
  rewrite seqZ_cons by lia. replace (Z.pred (Z.of_nat (Datatypes.S n))) with (Z.of_nat n) by lia.
  simpl fmap. cbn [balloc_from].
  pose proof Hca as [Hg Hbm Hfree Hheld Hroom]. destruct (bl_bound _ _ Hr) as [[Hlo Hlh] Hhi].
  assert (Hjs : 0 <= j * BPB < sb_size sb).
  { split; [apply Z.mul_nonneg_nonneg; [lia|done]|]. consts.
    pose proof (Z.div_mod (sb_size sb + 4096 - 1) 4096).
    pose proof (Z.mod_pos_bound (sb_size sb + 4096 - 1) 4096). lia. }
  destruct (bblock_range sb t _ Hg Hhi Hlo Hjs) as [_ Hbr].
  pose proof (bblock_bmap_set sb t _ Hg Hhi Hlo Hjs) as Hin.
  pose proof (meta_bounds _ _ Hg) as (? & ? & ?).
  apply panic_after, wp_getsb, panic_after. apply (wp_fbread _ t); [done|lia|auto|done|]. intros bp b1 R1.
  apply panic_after. eapply (wp_fdata _ _ _ _ _ _ _ bp false _ R1); [held_tac|].
  change (t_view (hold _ _ _ t)) with (t_view t).
  destruct (first_free _ _ _) as [i|] eqn:Hff.
  - exfalso. apply first_free_Some in Hff as (Hi & Hbit & _).
    destruct (bblock_at sb j (Z.of_nat i)) as [Hbb Hmod]; [lia|].
    specialize (Hall (j * BPB + Z.of_nat i) ltac:(lia)). unfold used in Hall. by rewrite Hbb, Hmod, Hbit in Hall.
  - apply panic_after. eapply (wp_fbrelse _ _ _ _ _ _ _ bp _ R1); [held_tac|]. intros b2 R2.
    rewrite release_read in R2 by auto. change (Z.succ j) with (j + 1). by apply IH; try done; lia.
Qed.

(** [balloc] returns the first block the bitmap has free, zeroed and marked
    in use, and changes nothing else: no other bit of the bitmap, and no block
    but the new one and its bitmap block.  It panics exactly when no block is
    free. *)
Theorem balloc_correct b t sb ic pid cwd :
  bl_rep b t -> can_alloc sb t ->
  (exists blk b' t', balloc ROOTDEV (mk_fsst b sb ic pid cwd) = Ok blk (mk_fsst b' sb ic pid cwd) /\
     first_unused sb t blk /\ bl_rep b' t' /\ t_view t' blk = zero_block /\
     (forall k, 0 <= k < sb_size sb -> used sb t' k = (k =? blk) || used sb t k) /\
     (forall k, k <> blk -> k <> BBLOCK blk sb -> t_view t' k = t_view t k)) \/
  ((forall k, 0 <= k < sb_size sb -> used sb t k = true) /\
   balloc ROOTDEV (mk_fsst b sb ic pid cwd) = Panic "balloc: out of blocks").
Proof.
  intros Hr Hca. destruct (bl_bound _ _ Hr) as [[Hlo Hlh] Hhi].
  destruct (decide (Exists (fun k => used sb t k = false) (seqZ 0 (sb_size sb)))) as [Hex|Hno].
  - left. apply Exists_exists in Hex as (k & Hk%elem_of_seqZ & Hu).
    assert (Hw : wp (balloc ROOTDEV) (mk_fsst b sb ic pid cwd) (fun blk s' => first_unused sb t blk /\
      exists b', s' = mk_fsst b' sb ic pid cwd /\ bl_rep b' (alloc_txn sb blk t))).
    { apply (wp_balloc _ t); [done|done|exists k; split; [lia|done]|]. eauto. }
    apply wp_elim in Hw as (blk & s' & Hrun & Hfu & b' & -> & Hr').
    exists blk, b', (alloc_txn sb blk t). pose proof Hfu as (Hb & Hub & _).
    assert (is_data sb blk) by (by apply (unused_data sb t); [apply Hca| |]).
    split_and!; try done; [apply alloc_zero| |by intros; apply alloc_view].
    intros k' Hk'. apply used_alloc; try done; [apply Hca|]. intros j Hj. by apply (bl_ok _ _ _ Hr).
  - right. assert (Hall : forall k, 0 <= k < sb_size sb -> used sb t k = true).
    { intros k Hk. destruct (used sb t k) eqn:E; [done|]. destruct Hno. apply Exists_exists.
      exists k. split; [apply elem_of_seqZ; lia|done]. }
    split; [exact Hall|]. unfold balloc, bmap_starts. apply panic_after, wp_getsb.
    pose proof (ge_size _ _ (ca_geom _ _ Hca)).
    assert (0 <= (sb_size sb + BPB - 1) / BPB) by (apply Z.div_pos; consts; lia).
    rewrite <- (Z2Nat.id ((sb_size sb + BPB - 1) / BPB)) by done.
    apply (balloc_from_full _ t); try done; lia.
Qed.

(** [bfree] clears exactly the bit of its block, and detects a double free:
    a block that is already free makes it panic. *)
Theorem bfree_correct b t sb ic pid cwd blk :
  bl_rep b t -> can_alloc sb t -> t_held t !! 1 = None -> is_data sb blk ->
  if used sb t blk then
    exists b' t', bfree ROOTDEV blk (mk_fsst b sb ic pid cwd) = Ok () (mk_fsst b' sb ic pid cwd) /\
      bl_rep b' t' /\ fs_geom sb t' /\
      (forall k, 0 <= k < sb_size sb -> used sb t' k = negb (k =? blk) && used sb t k) /\
      (forall k, k <> BBLOCK blk sb -> t_view t' k = t_view t k)
  else bfree ROOTDEV blk (mk_fsst b sb ic pid cwd) = Panic "freeing free block".
Proof.
  intros Hr Hca H1 Hd. pose proof (ca_geom _ _ Hca) as Hg. destruct (bl_bound _ _ Hr) as [[Hlo Hlh] Hhi].
  pose proof (meta_bounds _ _ Hg) as (? & ? & ?). assert (Hb : 0 <= blk < sb_size sb) by (unfold is_data in Hd; lia).
  pose proof (bblock_bmap_set sb t _ Hg Hhi Hlo Hb) as Hin.
  assert (Hok : forall k, 0 <= k < t_hi t -> block_ok (t_view t k)) by (intros; by apply (bl_ok _ _ _ Hr)).
  destruct (used sb t blk) eqn:Hu.
  - assert (Hw : wp (bfree ROOTDEV blk) (mk_fsst b sb ic pid cwd) (fun _ s' =>
      exists b', s' = mk_fsst b' sb ic pid cwd /\ bl_rep b' (free_txn sb blk t))).
    { apply (wp_bfree _ t); try done; [by apply (ca_bmap _ _ Hca)|apply (ca_held _ _ Hca)| |eauto].
      apply (loggable_bmap sb 1); [apply (ca_room _ _ Hca)|done]. }
    apply wp_elim in Hw as ([] & s' & Hrun & b' & -> & Hr'). exists b', (free_txn sb blk t).
    split_and!; try done; [by apply geom_free|by intros; apply used_freed|by intros; apply free_view].
  - unfold bfree. apply panic_after, (wp_fs_readsb _ t); try done; [apply (ca_held _ _ Hca)|]. intros b1 R1.
    rewrite (ge_sb _ _ Hg). apply panic_after, wp_getsb, panic_after.
    destruct (bblock_range sb t _ Hg Hhi Hlo Hb) as [_ Hbr].
    apply (wp_fbread _ t); [done|lia|by apply (ca_bmap _ _ Hca)|apply (ca_held _ _ Hca)|]. intros bp b2 R2.
    apply panic_after. eapply (wp_fdata _ _ _ _ _ _ _ bp false _ R2); [held_tac|].
    change (t_view (hold _ _ _ t)) with (t_view t). fold (used sb t blk). by rewrite Hu.
Qed.
End alloc_properties.
