(* ===== verification/FsFile.v ===== *)
(** File contents ([bmap], [readi], [writei] of [fs.c]): the block map of an
    inode as a function from block numbers to disk blocks, its growth, and
    files as byte sequences. *)

From S2P Require Import Prelude CString Layout Sleeplock BlockLayer Fs FsBlock.

(** ** The block map of an inode *)

Definition ind_of (addrs : list Z) : Z := addrs !!! 12%nat.

(** The disk block of the [bn]-th block of a file; 0 when there is none. *)
Definition block_of (v : Z -> list Z) (addrs : list Z) (bn : Z) : Z :=
  if bn <? NDIRECT then addrs !!! Z.to_nat bn
  else if ind_of addrs =? 0 then 0
  else word_at (v (ind_of addrs)) (bn - NDIRECT).

(** The blocks of a file are data blocks in use, pairwise distinct and
    distinct from the indirect block. *)
Record file_ok (sb : superblock) (t : txn) (addrs : list Z) : Prop := {
  fo_len : length addrs = 13%nat;
  fo_block : forall bn, 0 <= bn < MAXFILE -> block_of (t_view t) addrs bn <> 0 ->
    is_data sb (block_of (t_view t) addrs bn) /\ used sb t (block_of (t_view t) addrs bn) = true;
  fo_ind : ind_of addrs <> 0 -> is_data sb (ind_of addrs) /\ used sb t (ind_of addrs) = true;
  fo_inj : forall m n, 0 <= m < MAXFILE -> 0 <= n < MAXFILE -> block_of (t_view t) addrs m <> 0 ->
    block_of (t_view t) addrs m = block_of (t_view t) addrs n -> m = n;
  fo_ind_ne : forall bn, 0 <= bn < MAXFILE -> ind_of addrs <> 0 ->
    block_of (t_view t) addrs bn <> ind_of addrs
}.

(** Block [k] belongs to the file. *)
Definition own (t : txn) (addrs : list Z) (k : Z) : Prop :=
  k <> 0 /\ (k = ind_of addrs \/ exists bn, 0 <= bn < MAXFILE /\ block_of (t_view t) addrs bn = k).

Definition free_set (sb : superblock) (t : txn) : gset Z :=
  list_to_set (filter (fun k => used sb t k = false) (seqZ 0 (sb_size sb))).

(** How many more blocks are needed in the log for the indirect block. *)
Definition ind_cost (t : txn) (addrs : list Z) : nat :=
  if decide (ind_of addrs <> 0 /\ ind_of addrs ∈ t_logged t) then 0 else 1.

Lemma data_pos sb t k : fs_geom sb t -> 2 <= t_lo t -> is_data sb k -> 0 < k < sb_size sb.
Proof. intros Hg Hlo [? ?]. pose proof (meta_bounds _ _ Hg). lia. Qed.

Definition lset (sb : superblock) (t : txn) : gset Z := bmap_set sb ∪ t_logged t.

Definition same_frame (t t' : txn) : Prop :=
  t_held t' = t_held t /\ t_cap t' = t_cap t /\ t_base t' = t_base t /\ t_lo t' = t_lo t /\ t_hi t' = t_hi t.

(** The file grew from [addrs] to [addrs'] without touching any block in use
    but its own indirect block. *)
Record grow (sb : superblock) (t : txn) (addrs : list Z) (t' : txn) (addrs' : list Z) : Prop := {
  gr_ok : file_ok sb t' addrs';
  gr_geom : fs_geom sb t';
  gr_same : same_frame t t';
  gr_view : forall k, 0 <= k < sb_size sb -> used sb t k = true -> k ∉ bmap_set sb -> k <> ind_of addrs ->
    t_view t' k = t_view t k;
  gr_used : forall k, 0 <= k < sb_size sb -> used sb t k = true -> used sb t' k = true;
  gr_own : forall k, 0 <= k < sb_size sb -> used sb t k = false -> used sb t' k = true -> own t' addrs' k;
  gr_keep : forall k, own t addrs k -> own t' addrs' k;
  gr_new : forall k, own t' addrs' k -> own t addrs k \/ used sb t k = false;
  gr_ind : ind_of addrs' = ind_of addrs \/ (ind_of addrs = 0 /\ used sb t (ind_of addrs') = false)
}.

Lemma own_data sb t addrs k : file_ok sb t addrs -> own t addrs k -> is_data sb k.
Proof. intros Hf [Hk [->|(bn & Hbn & <-)]]; [by apply (fo_ind _ _ _ Hf)|by apply (fo_block _ _ _ Hf)]. Qed.

Lemma ind_of_insert addrs n a : (n < 12)%nat -> ind_of (<[n := a]> addrs) = ind_of addrs.
Proof. intros H. unfold ind_of. apply list_lookup_total_insert_ne. lia. Qed.

Lemma ind_of_set addrs a : length addrs = 13%nat -> ind_of (<[12%nat := a]> addrs) = a.
Proof. intros H. unfold ind_of. apply list_lookup_total_insert_eq. lia. Qed.

Lemma free_set_elem sb t k : k ∈ free_set sb t <-> 0 <= k < sb_size sb /\ used sb t k = false.
Proof.
  unfold free_set. rewrite elem_of_list_to_set, list_elem_of_filter, elem_of_seqZ. split; intros []; split; try done; lia.
Qed.

Lemma data_not_bmap sb k : is_data sb k -> k ∉ bmap_set sb.
Proof. unfold is_data, bmap_set, data_start. rewrite elem_of_list_to_set, elem_of_seqZ. lia. Qed.

Section grow.
Context (sb : superblock) (t : txn) (addrs : list Z).
Context (Hg : fs_geom sb t) (Hlo : 2 <= t_lo t) (Hhi : t_hi t < 2 ^ 31).
Context (Hok : forall k, 0 <= k < t_hi t -> block_ok (t_view t k)).
Context (Hf : file_ok sb t addrs).

Lemma bb_bmap k : 0 <= k < sb_size sb -> BBLOCK k sb ∈ bmap_set sb.
Proof. by apply (bblock_bmap_set sb t). Qed.

(** The new block of an allocation is not one of the file's. *)
Lemma alloc_fresh a k : used sb t a = false -> own t addrs k -> k <> a.
Proof.
  intros Hu [Hk [->|(bn & Hbn & <-)]] <-.
  - destruct (fo_ind _ _ _ Hf Hk). congruence.
  - destruct (fo_block _ _ _ Hf _ Hbn Hk). congruence.
Qed.

Lemma alloc_free_set a :
  is_data sb a -> used sb t a = false -> free_set sb (alloc_txn sb a t) = free_set sb t ∖ {[a]}.
Proof.
  intros Ha Hu. apply set_eq. intros k. rewrite elem_of_difference, !free_set_elem, elem_of_singleton.
  split.
  - intros [Hk Hn]. rewrite (used_alloc sb t) in Hn by done. apply orb_false_iff in Hn as [Hn%Z.eqb_neq ?]. done.
  - intros [[Hk Hn] Hne]. rewrite (used_alloc sb t) by done. rewrite Hn, orb_false_r.
    split; [done|]. by apply Z.eqb_neq.
Qed.

Lemma alloc_size a :
  is_data sb a -> used sb t a = false -> size (free_set sb t) = Datatypes.S (size (free_set sb (alloc_txn sb a t))).
Proof.
  intros Ha Hu. pose proof (data_pos _ _ _ Hg Hlo Ha).
  assert (Hin : {[a]} ⊆ free_set sb t) by (apply singleton_subseteq_l, free_set_elem; split; [lia|done]).
  rewrite (alloc_free_set a Ha Hu), size_difference, size_singleton by done.
  apply subseteq_size in Hin. rewrite size_singleton in Hin. lia.
Qed.

(** A block in use and outside the bitmap keeps its contents. *)
Lemma alloc_keep a k :
  is_data sb a -> used sb t a = false -> used sb t k = true -> k ∉ bmap_set sb ->
  t_view (alloc_txn sb a t) k = t_view t k.
Proof.
  intros Ha Hu Hk Hb. apply alloc_view; [congruence|]. intros ->. apply Hb, bb_bmap.
  pose proof (data_pos _ _ _ Hg Hlo Ha). lia.
Qed.

Lemma alloc_used a k : is_data sb a -> 0 <= k < sb_size sb -> used sb t k = true -> used sb (alloc_txn sb a t) k = true.
Proof. intros Ha Hk Hu. rewrite (used_alloc sb t) by done. rewrite Hu. apply orb_true_r. Qed.

Lemma ind_view a :
  is_data sb a -> used sb t a = false -> ind_of addrs <> 0 ->
  t_view (alloc_txn sb a t) (ind_of addrs) = t_view t (ind_of addrs).
Proof.
  intros Ha Hu Hi. destruct (fo_ind _ _ _ Hf Hi) as [Hd Hui]. apply alloc_keep; try done. by apply data_not_bmap.
Qed.

(** One new entry [a] at [bn] in the block map. *)
Lemma grow_entry t' addrs' bn a :
  is_data sb a -> used sb t a = false -> 0 <= bn < MAXFILE -> block_of (t_view t) addrs bn = 0 ->
  length addrs' = 13%nat -> ind_of addrs' = ind_of addrs ->
  (forall k, 0 <= k < MAXFILE ->
     block_of (t_view t') addrs' k = if k =? bn then a else block_of (t_view t) addrs k) ->
  (forall k, 0 <= k < sb_size sb -> used sb t' k = (k =? a) || used sb t k) ->
  (forall k, 0 <= k < sb_size sb -> used sb t k = true -> k ∉ bmap_set sb -> k <> ind_of addrs ->
     t_view t' k = t_view t k) ->
  fs_geom sb t' -> same_frame t t' -> grow sb t addrs t' addrs'.
Proof.
  intros Ha Hu Hbn H0 Hlen Hind Hbo Hus Hv Hg' Hs. pose proof (data_pos _ _ _ Hg Hlo Ha) as Hpos.
  assert (Hua : used sb t' a = true) by (rewrite Hus by lia; by rewrite Z.eqb_refl).
  assert (Hold : forall k, own t addrs k -> own t' addrs' k).
  { intros k [Hk [->|(m & Hm & <-)]]; split; try done; [left; congruence|right]. exists m. split; [done|].
    rewrite Hbo by done. destruct (Z.eqb_spec m bn) as [->|]; [congruence|done]. }
  split; try done.
  - split; [done| | | |].
    + intros k Hk. rewrite Hbo by done. destruct (Z.eqb_spec k bn); [done|]. intros Hn.
      destruct (fo_block _ _ _ Hf _ Hk Hn) as [Hd Hu']. split; [done|].
      pose proof (data_pos _ _ _ Hg Hlo Hd). rewrite Hus by lia. rewrite Hu'. apply orb_true_r.
    + rewrite Hind. intros Hn. destruct (fo_ind _ _ _ Hf Hn) as [Hd Hu']. split; [done|].
      pose proof (data_pos _ _ _ Hg Hlo Hd). rewrite Hus by lia. rewrite Hu'. apply orb_true_r.
    + intros m n Hm Hn. rewrite !Hbo by done.
      destruct (Z.eqb_spec m bn) as [->|Hmb], (Z.eqb_spec n bn) as [->|Hnb]; intros Hnz E; try done.
      * exfalso. apply (alloc_fresh a (block_of (t_view t) addrs n) Hu); [|done].
        split; [congruence|]. right. eauto.
      * exfalso. apply (alloc_fresh a (block_of (t_view t) addrs m) Hu); [|done]. split; [done|]. right. eauto.
      * by apply (fo_inj _ _ _ Hf).
    + intros k Hk. rewrite Hind, Hbo by done. intros Hn. destruct (Z.eqb_spec k bn); [|by apply (fo_ind_ne _ _ _ Hf)].
      destruct (fo_ind _ _ _ Hf Hn). congruence.
  - intros k Hk Huk. rewrite Hus by done. rewrite Huk. apply orb_true_r.
  - intros k Hk Huk. rewrite Hus by done. rewrite Huk, orb_false_r. intros ->%Z.eqb_eq.
    split; [lia|]. right. exists bn. split; [done|]. rewrite Hbo by done. by rewrite Z.eqb_refl.
  - intros k [Hk [->|(m & Hm & <-)]].
    + left. split; [done|]. by left.
    + rewrite Hbo in Hk |- * by done. destruct (m =? bn); [by right|]. left. split; [done|]. right. eauto.
  - by left.
Qed.

(** A direct block. *)
Lemma grow_direct bn a :
  is_data sb a -> used sb t a = false -> 0 <= bn < NDIRECT -> addrs !!! Z.to_nat bn = 0 ->
  let addrs' := <[Z.to_nat bn := a]> addrs in
  grow sb t addrs (alloc_txn sb a t) addrs' /\
  forall k, 0 <= k < MAXFILE ->
    block_of (t_view (alloc_txn sb a t)) addrs' k = if k =? bn then a else block_of (t_view t) addrs k.
Proof.
  intros Ha Hu Hbn H0 addrs'. pose proof (fo_len _ _ _ Hf) as Hlen. consts.
  assert (Hind : ind_of addrs' = ind_of addrs) by (apply ind_of_insert; lia).
  assert (Hbo : forall k, 0 <= k < MAXFILE ->
    block_of (t_view (alloc_txn sb a t)) addrs' k = if k =? bn then a else block_of (t_view t) addrs k).
  { intros k Hk. unfold block_of. rewrite Hind. consts. destruct (Z.ltb_spec k 12) as [Hlt|Hge].
    - destruct (Z.eqb_spec k bn) as [->|Hne]; unfold addrs'.
      + apply list_lookup_total_insert_eq. lia.
      + apply list_lookup_total_insert_ne. lia.
    - destruct (Z.eqb_spec k bn); [lia|]. destruct (Z.eqb_spec (ind_of addrs) 0) as [|Hi]; [done|].
      by rewrite ind_view. }
  split; [|exact Hbo]. apply (grow_entry _ _ bn a); try done.
  - consts; lia.
  - unfold block_of. consts. by rewrite (proj2 (Z.ltb_lt _ _)) by lia.
  - unfold addrs'. by rewrite length_insert.
  - intros k Hk. by apply used_alloc.
  - intros k Hk Huk Hb _. by apply alloc_keep.
  - by apply geom_alloc.
Qed.

(** A new, empty indirect block. *)
Lemma grow_ind a :
  is_data sb a -> used sb t a = false -> ind_of addrs = 0 ->
  let addrs' := <[12%nat := a]> addrs in
  grow sb t addrs (alloc_txn sb a t) addrs' /\
  forall k, 0 <= k < MAXFILE -> block_of (t_view (alloc_txn sb a t)) addrs' k = block_of (t_view t) addrs k.
Proof.
  intros Ha Hu Hi addrs'. pose proof (fo_len _ _ _ Hf) as Hlen. pose proof (data_pos _ _ _ Hg Hlo Ha) as Hpos.
  assert (Hind : ind_of addrs' = a) by by apply ind_of_set.
  assert (Hbo : forall k, 0 <= k < MAXFILE ->
    block_of (t_view (alloc_txn sb a t)) addrs' k = block_of (t_view t) addrs k).
  { intros k Hk. unfold block_of. rewrite Hind, Hi. consts. destruct (Z.ltb_spec k 12) as [Hlt|Hge].
    - apply list_lookup_total_insert_ne. lia.
    - rewrite (proj2 (Z.eqb_neq a 0)) by lia. rewrite alloc_zero. apply word_at_zero. }
  split; [|exact Hbo]. split.
  - split.
    + unfold addrs'. by rewrite length_insert.
    + intros k Hk. rewrite Hbo by done. intros Hn. destruct (fo_block _ _ _ Hf _ Hk Hn) as [Hd ?].
      split; [done|]. apply alloc_used; try done. pose proof (data_pos _ _ _ Hg Hlo Hd). lia.
    + rewrite Hind. intros _. split; [done|]. rewrite (used_alloc sb t) by (done || lia). by rewrite Z.eqb_refl.
    + intros m n Hm Hn. rewrite !Hbo by done. by apply (fo_inj _ _ _ Hf).
    + intros k Hk _. rewrite Hbo, Hind by done. intros E. destruct (decide (block_of (t_view t) addrs k = 0)); [lia|].
      destruct (fo_block _ _ _ Hf _ Hk) as [_ ?]; [done|]. congruence.
  - by apply geom_alloc.
  - done.
  - intros k Hk Huk Hb _. by apply alloc_keep.
  - intros k Hk Huk. by apply alloc_used.
  - intros k Hk Huk. rewrite (used_alloc sb t) by done. rewrite Huk, orb_false_r. intros ->%Z.eqb_eq.
    split; [lia|]. left. done.
  - intros k [Hk [->|(m & Hm & <-)]]; [done|]. split; [done|]. right. exists m. split; [done|]. by rewrite Hbo.
  - intros k [Hk [->|(m & Hm & <-)]]; [right; by rewrite Hind|]. rewrite Hbo in Hk |- * by done.
    left. split; [done|]. right. eauto.
  - right. by rewrite Hind.
Qed.
End grow.

(** ** Writing a data block *)

Section put.
Context (sb : superblock) (t : txn).
Context (Hg : fs_geom sb t) (Hlo : 2 <= t_lo t) (Hhi : t_hi t < 2 ^ 31).

Lemma used_put blk d k :
  is_data sb blk -> 0 <= k < sb_size sb -> used sb (put_log blk d t) k = used sb t k.
Proof.
  intros [Hb _] Hk. unfold used. simpl. rewrite upd_ne; [done|].
  destruct (bblock_range sb t k) as [_ ?]; try done. lia.
Qed.

Lemma geom_put blk d : is_data sb blk -> fs_geom sb (put_log blk d t).
Proof.
  intros Hb. pose proof (meta_bounds _ _ Hg). pose proof (ge_end _ _ Hg). pose proof Hg as []. split; try done.
  - simpl. rewrite upd_ne; [done|]. destruct Hb. lia.
  - intros k Hk. rewrite used_put by (done || lia). auto.
Qed.

Lemma put_view_ne blk d k : k <> blk -> t_view (put_log blk d t) k = t_view t k.
Proof. intros H. simpl. by rewrite upd_ne. Qed.

(** Writing to a block that is not the file's indirect block keeps the file's
    block map. *)
Lemma file_put addrs blk d :
  file_ok sb t addrs -> is_data sb blk -> blk <> ind_of addrs ->
  file_ok sb (put_log blk d t) addrs /\
  forall k, block_of (t_view (put_log blk d t)) addrs k = block_of (t_view t) addrs k.
Proof.
  intros Hf Hb Hne.
  assert (Hbo : forall k, block_of (t_view (put_log blk d t)) addrs k = block_of (t_view t) addrs k).
  { intros k. unfold block_of. simpl. by rewrite upd_ne. }
  split; [|exact Hbo]. pose proof (meta_bounds _ _ Hg). destruct Hf. split; try done.
  - intros k Hk. rewrite Hbo. intros Hn. destruct (fo_block0 _ Hk Hn) as [Hd ?]. split; [done|].
    rewrite used_put; [done|done|]. destruct Hd. lia.
  - intros Hn. destruct (fo_ind0 Hn) as [Hd ?]. split; [done|]. rewrite used_put; [done|done|]. destruct Hd. lia.
  - intros m n Hm Hn. rewrite !Hbo. by apply fo_inj0.
  - intros k Hk. rewrite Hbo. by apply fo_ind_ne0.
Qed.
End put.

Lemma same_frame_trans t1 t2 t3 : same_frame t1 t2 -> same_frame t2 t3 -> same_frame t1 t3.
Proof. unfold same_frame. intuition congruence. Qed.

Section grow_indirect.
Context (sb : superblock) (t : txn) (addrs : list Z).
Context (Hg : fs_geom sb t) (Hlo : 2 <= t_lo t) (Hhi : t_hi t < 2 ^ 31).
Context (Hok : forall k, 0 <= k < t_hi t -> block_ok (t_view t k)).
Context (Hf : file_ok sb t addrs).

(** A new entry of the indirect block. *)
Lemma grow_indirect bn a :
  is_data sb a -> used sb t a = false -> NDIRECT <= bn < MAXFILE -> ind_of addrs <> 0 ->
  block_of (t_view t) addrs bn = 0 ->
  let t1 := alloc_txn sb a t in
  let t2 := put_log (ind_of addrs) (set_word (t_view t (ind_of addrs)) (bn - NDIRECT) a) t1 in
  grow sb t addrs t2 addrs /\
  forall k, 0 <= k < MAXFILE ->
    block_of (t_view t2) addrs k = if k =? bn then a else block_of (t_view t) addrs k.
Proof.
  intros Ha Hu Hbn Hi H0 t1 t2. destruct (fo_ind _ _ _ Hf Hi) as [Hdi Hui].
  pose proof (data_pos _ _ _ Hg Hlo Hdi) as Hpi. pose proof (data_pos _ _ _ Hg Hlo Ha) as Hpa.
  pose proof (ge_size _ _ Hg). destruct (Hok (ind_of addrs)) as [Hlen _]; [lia|].
  assert (Hg1 : fs_geom sb t1) by by apply geom_alloc.
  assert (Hbo : forall k, 0 <= k < MAXFILE ->
    block_of (t_view t2) addrs k = if k =? bn then a else block_of (t_view t) addrs k).
  { intros k Hk. unfold block_of. simpl. rewrite upd_eq. consts. destruct (Z.ltb_spec k 12) as [Hlt|Hge].
    { destruct (Z.eqb_spec k bn); [lia|done]. }
    rewrite (proj2 (Z.eqb_neq _ _) Hi). destruct (Z.eqb_spec k bn) as [->|Hne].
    - apply word_at_set; [done|consts; lia|unfold uint_ok; lia].
    - rewrite word_at_set_other; [done|done|consts; lia|lia|lia]. }
  split; [|exact Hbo]. apply (grow_entry sb t addrs Hg Hlo Hf _ _ bn a); try done.
  - consts. lia.
  - apply (fo_len _ _ _ Hf).
  - intros k Hk. unfold t2. rewrite used_put by done. by apply used_alloc.
  - intros k Hk Huk Hb Hki. unfold t2. rewrite put_view_ne by done. by apply alloc_keep.
  - by apply geom_put.
Qed.
End grow_indirect.

(** Growth composes. *)
Lemma grow_trans sb t addrs t1 addrs1 t2 addrs2 :
  fs_geom sb t -> 2 <= t_lo t -> grow sb t addrs t1 addrs1 -> grow sb t1 addrs1 t2 addrs2 -> grow sb t addrs t2 addrs2.
Proof.
  intros Hg Hlo G1 G2. destruct G1 as [Hok1 Hg1 Hs1 Hv1 Hu1 Ho1 Hk1 Hn1 Hi1], G2 as [Hok2 Hg2 Hs2 Hv2 Hu2 Ho2 Hk2 Hn2 Hi2].
  split; try done.
  - by eapply same_frame_trans.
  - intros k Hk Hu Hb Hi. rewrite Hv2; [by apply Hv1|done|by apply Hu1|done|].
    destruct Hi1 as [->|[_ Hn]]; [done|]. congruence.
  - intros k Hk Hu. by apply Hu2, Hu1.
  - intros k Hk Hu Hu'. destruct (used sb t1 k) eqn:E; [by apply Hk2, Ho1|by apply Ho2].
  - intros k Hk. by apply Hk2, Hk1.
  - intros k Hk. pose proof (own_data _ _ _ _ Hok2 Hk) as Hd. pose proof (data_pos _ _ _ Hg Hlo Hd).
    destruct (Hn2 _ Hk) as [Ho|Hu]; [by apply Hn1|]. right. destruct (used sb t k) eqn:E; [|done].
    rewrite Hu1 in Hu by (done || lia). done.
  - destruct Hi1 as [E1|[E1 N1]], Hi2 as [E2|[E2 N2]].
    + left. congruence.
    + destruct (decide (ind_of addrs2 = 0)) as [E0|Hnz]; [left; congruence|].
      right. split; [congruence|]. destruct (fo_ind _ _ _ Hok2 Hnz) as [Hd _].
      destruct (used sb t (ind_of addrs2)) eqn:E; [|done].
      rewrite Hu1 in N2; [done| |done]. pose proof (data_pos _ _ _ Hg Hlo Hd). lia.
    + right. by rewrite E2.
    + exfalso. destruct (decide (ind_of addrs1 = 0)) as [E0|Hnz]; [|congruence].
      rewrite E0 in N1. pose proof (meta_bounds _ _ Hg). pose proof (ge_size _ _ Hg).
      rewrite (ge_meta _ _ Hg 0) in N1 by lia. done.
Qed.

Lemma grow_refl sb t addrs : file_ok sb t addrs -> fs_geom sb t -> grow sb t addrs t addrs.
Proof. intros Hf Hg. split; try done; [by intros; congruence|by left|by left]. Qed.

(** ** [bmap] *)

(** Blocks needed on disk for the indirect block. *)
Definition ind_need (addrs : list Z) : nat := if decide (ind_of addrs = 0) then 1 else 0.

Record bmap_post (sb : superblock) (t : txn) (addrs : list Z) (bn addr : Z) (t' : txn) (addrs' : list Z) : Prop := {
  bp_grow : grow sb t addrs t' addrs';
  bp_nz : addr <> 0;
  bp_map : forall k, 0 <= k < MAXFILE ->
    block_of (t_view t') addrs' k = if k =? bn then addr else block_of (t_view t) addrs k;
  bp_old : block_of (t_view t) addrs bn <> 0 -> addr = block_of (t_view t) addrs bn /\ t' = t /\ addrs' = addrs;
  bp_new : block_of (t_view t) addrs bn = 0 -> used sb t addr = false /\ t_view t' addr = zero_block;
  bp_log : (size ({[addr]} ∪ lset sb t') + ind_cost t' addrs' <= size (lset sb t) + ind_cost t addrs + 1)%nat;
  bp_free : (size (free_set sb t) + ind_need addrs' <= size (free_set sb t') + ind_need addrs + 1)%nat
}.

Lemma lset_alloc sb t a :
  BBLOCK a sb ∈ bmap_set sb -> lset sb (alloc_txn sb a t) = {[a]} ∪ lset sb t.
Proof. intros H. unfold lset, alloc_txn. simpl. apply set_eq. set_solver. Qed.

Lemma lset_put sb t blk d : lset sb (put_log blk d t) = {[blk]} ∪ lset sb t.
Proof. unfold lset. simpl. apply set_eq. set_solver. Qed.

Lemma size_add (X : gset Z) a : (size ({[a]} ∪ X) <= Datatypes.S (size X))%nat.
Proof.
  rewrite size_union_alt, size_singleton. assert (size (X ∖ {[a]}) <= size X)%nat by (apply subseteq_size; set_solver). lia.
Qed.

Lemma size_add_in (X : gset Z) a : a ∈ X -> size ({[a]} ∪ X) = size X.
Proof. intros H. f_equal. apply set_eq. set_solver. Qed.

(** A buffer is held and the caller allocates. *)
Lemma can_alloc_hold sb t k i :
  fs_geom sb t -> t_held t = ∅ -> is_data sb k -> used sb t k = true ->
  (size (lset sb t) + 1 <= t_cap t)%nat -> can_alloc sb (hold k i false t).
Proof.
  intros Hg Hh Hd Hu Hr. pose proof (data_not_bmap _ _ Hd) as Hnb. split.
  - destruct Hg. by split.
  - intros blk Hb. simpl. rewrite Hh. rewrite lookup_insert_ne by (intros ->; done). apply lookup_empty.
  - intros blk Hb Hub. simpl. rewrite Hh. rewrite lookup_insert_ne; [apply lookup_empty|].
    intros <-. change (used sb t k = false) in Hub. congruence.
  - simpl. rewrite Hh, map_size_insert_None, map_size_empty by apply lookup_empty. unfold MAXHELD. lia.
  - exact Hr.
Qed.

Lemma can_alloc_empty sb t :
  fs_geom sb t -> t_held t = ∅ -> (size (lset sb t) + 1 <= t_cap t)%nat -> can_alloc sb t.
Proof.
  intros Hg Hh Hr. split; try done; rewrite Hh; try (intros; apply lookup_empty).
  rewrite map_size_empty. unfold MAXHELD. lia.
Qed.

Lemma free_exists sb t : (1 <= size (free_set sb t))%nat -> exists blk, 0 <= blk < sb_size sb /\ used sb t blk = false.
Proof.
  intros H. destruct (decide (free_set sb t = ∅)) as [E|[k Hk]%set_choose_L].
  - rewrite E, size_empty in H. lia.
  - exists k. by apply free_set_elem.
Qed.

Definition set_addrs (ip : nat) (i : inode) (addrs : list Z) (ic : list inode) : list inode :=
  <[ip := i <| i_addrs := addrs |>]> ic.

Lemma set_addrs_same ip i ic : ic !! ip = Some i -> set_addrs ip i (i_addrs i) ic = ic.
Proof. intros H. unfold set_addrs. apply list_insert_id. rewrite H. by destruct i. Qed.

Section bmap.
Context {S : Type} `{!BlockOps S} `{!BlockLayer S} `{!DevOps S}.
Implicit Types (b : S) (t : txn) (sb : superblock) (ic : list inode).

(** Allocation with no buffer held, as the file code needs it. *)
Lemma wp_balloc_empty b t sb ic pid cwd Q :
  bl_rep b t -> fs_geom sb t -> t_held t = ∅ -> (size (lset sb t) + 1 <= t_cap t)%nat ->
  (1 <= size (free_set sb t))%nat ->
  (forall a b', is_data sb a -> used sb t a = false -> bl_rep b' (alloc_txn sb a t) ->
     Q a (mk_fsst b' sb ic pid cwd)) ->
  wp (balloc ROOTDEV) (mk_fsst b sb ic pid cwd) Q.
Proof.
  intros Hr Hg Hh Hroom Hfree HQ. apply (wp_balloc _ t); [done|by apply can_alloc_empty|by apply free_exists|].
  intros a b' (Ha & Hu & _) Hr'. apply HQ; [|done|done]. by apply (unused_data sb t).
Qed.

(** The block exists: [bmap] only reads. *)
Lemma wp_bmap_hit b t sb ic pid cwd ip i bn Q :
  bl_rep b t -> t_held t = ∅ -> fs_geom sb t -> ic !! ip = Some i -> i_dev i = ROOTDEV ->
  file_ok sb t (i_addrs i) -> 0 <= bn < MAXFILE -> block_of (t_view t) (i_addrs i) bn <> 0 ->
  (forall b', bl_rep b' t -> Q (block_of (t_view t) (i_addrs i) bn) (mk_fsst b' sb ic pid cwd)) ->
  wp (bmap ip bn) (mk_fsst b sb ic pid cwd) Q.
Proof.
  intros Hr Hh Hg Hi Hdev Hf Hbn Hnz HQ. unfold bmap. do 2 fs_step.
  rewrite (list_lookup_total_correct _ _ _ Hi), Hdev. destruct (bl_bound _ _ Hr) as [[Hlo _] Hhi].
  unfold block_of in Hnz, HQ. change (ind_of (i_addrs i)) with (i_addrs i !!! Z.to_nat NDIRECT) in *.
  destruct (bn <? NDIRECT) eqn:Hlt.
  - do 2 fs_step. rewrite (list_lookup_total_correct _ _ _ Hi), (proj2 (Z.eqb_neq _ _) Hnz). apply wp_ret. by apply HQ.
  - destruct (i_addrs i !!! Z.to_nat NDIRECT =? 0) eqn:Hind; [done|].
    rewrite (proj2 (Z.ltb_lt (bn - NDIRECT) NINDIRECT)) by (consts; lia).
    do 2 fs_step. rewrite (list_lookup_total_correct _ _ _ Hi), Hind. do 2 fs_step.
    apply Z.eqb_neq in Hind. destruct (fo_ind _ _ _ Hf Hind) as [Hd Hu].
    pose proof (data_pos _ _ _ Hg Hlo Hd). pose proof (ge_size _ _ Hg).
    set (ind := i_addrs i !!! Z.to_nat NDIRECT) in *. change (ind_of (i_addrs i)) with ind in *.
    fs_step. apply (wp_fbread _ t); [done|lia|by rewrite Hh|rewrite Hh, map_size_empty; unfold MAXHELD; lia|].
    intros bp b1 R1. fs_step. eapply (wp_fdata _ _ _ _ _ _ ind bp false _ R1); [held_tac|].
    change (t_view (hold _ _ _ t)) with (t_view t). rewrite (proj2 (Z.eqb_neq _ _) Hnz).
    fs_step. eapply (wp_fbrelse _ _ _ _ _ _ ind bp _ R1); [held_tac|]. intros b2 R2.
    rewrite release_read in R2 by (by rewrite Hh). apply wp_ret. by apply HQ.
Qed.
End bmap.

(** A block the file has. *)
Lemma post_hit sb t addrs bn : fs_geom sb t -> file_ok sb t addrs -> block_of (t_view t) addrs bn <> 0 ->
  bmap_post sb t addrs bn (block_of (t_view t) addrs bn) t addrs.
Proof.
  intros Hg Hf Hnz. split; try done; [by apply grow_refl| | |lia].
  - intros k Hk. by destruct (Z.eqb_spec k bn) as [->|].
  - pose proof (size_add (lset sb t) (block_of (t_view t) addrs bn)). lia.
Qed.

Section bmap_post.
Context (sb : superblock) (t : txn) (addrs : list Z).
Context (Hg : fs_geom sb t) (Hlo : 2 <= t_lo t) (Hhi : t_hi t < 2 ^ 31).
Context (Hok : forall k, 0 <= k < t_hi t -> block_ok (t_view t k)).
Context (Hf : file_ok sb t addrs).

Lemma post_direct bn a :
  is_data sb a -> used sb t a = false -> 0 <= bn < NDIRECT -> block_of (t_view t) addrs bn = 0 ->
  bmap_post sb t addrs bn a (alloc_txn sb a t) (<[Z.to_nat bn := a]> addrs).
Proof.
  intros Ha Hu Hbn H0. pose proof (data_pos _ _ _ Hg Hlo Ha) as Hpos.
  assert (H0' : addrs !!! Z.to_nat bn = 0).
  { unfold block_of in H0. by rewrite (proj2 (Z.ltb_lt bn NDIRECT)) in H0 by lia. }
  destruct (grow_direct sb t addrs Hg Hlo Hhi Hok Hf bn a Ha Hu Hbn H0') as [Hgr Hmap].
  assert (Hind : ind_of (<[Z.to_nat bn := a]> addrs) = ind_of addrs) by (apply ind_of_insert; consts; lia).
  split; try done; [lia|intros _; split; [done|apply alloc_zero]| |].
  - rewrite lset_alloc by (apply (bblock_bmap_set sb t); try done; lia).
    rewrite size_add_in by set_solver. pose proof (size_add (lset sb t) a).
    unfold ind_cost. rewrite Hind. simpl. repeat case_decide; try lia. set_solver.
  - rewrite (alloc_size sb t Hg Hlo Hhi Hok a Ha Hu). unfold ind_need. rewrite Hind. lia.
Qed.

Lemma post_indirect bn a :
  is_data sb a -> used sb t a = false -> NDIRECT <= bn < MAXFILE -> ind_of addrs <> 0 ->
  block_of (t_view t) addrs bn = 0 ->
  bmap_post sb t addrs bn a
    (put_log (ind_of addrs) (set_word (t_view t (ind_of addrs)) (bn - NDIRECT) a) (alloc_txn sb a t)) addrs.
Proof.
  intros Ha Hu Hbn Hi H0. pose proof (data_pos _ _ _ Hg Hlo Ha) as Hpos.
  destruct (grow_indirect sb t addrs Hg Hlo Hhi Hok Hf bn a Ha Hu Hbn Hi H0) as [Hgr Hmap].
  destruct (fo_ind _ _ _ Hf Hi) as [Hdi Hui].
  split; try done; [lia| | |].
  - intros _. split; [done|]. rewrite put_view_ne by congruence. apply alloc_zero.
  - rewrite lset_put, lset_alloc by (apply (bblock_bmap_set sb t); try done; lia).
    rewrite (size_add_in _ a) by set_solver. unfold ind_cost. rewrite decide_True by (simpl; set_solver).
    pose proof (size_add (lset sb t) a). pose proof (size_add ({[a]} ∪ lset sb t) (ind_of addrs)).
    case_decide as Hc; [|lia]. rewrite size_add_in; [lia|]. unfold lset. set_solver.
  - rewrite (alloc_size sb t Hg Hlo Hhi Hok a Ha Hu).
    assert (free_set sb (put_log (ind_of addrs) (set_word (t_view t (ind_of addrs)) (bn - NDIRECT) a)
      (alloc_txn sb a t)) = free_set sb (alloc_txn sb a t)) as ->; [|lia].
    apply set_eq. intros k. rewrite !free_set_elem. split; intros [Hk Hn]; (split; [done|]);
      rewrite used_put in *; try done; by apply geom_alloc.
Qed.

(** A fresh indirect block first. *)
Lemma post_ind_first bn x a t' addrs' :
  is_data sb x -> used sb t x = false -> ind_of addrs = 0 -> 0 <= bn < MAXFILE ->
  block_of (t_view t) addrs bn = 0 ->
  bmap_post sb (alloc_txn sb x t) (<[12%nat := x]> addrs) bn a t' addrs' ->
  bmap_post sb t addrs bn a t' addrs'.
Proof.
  intros Hx Hu Hi Hbn H0 [Pg Pn Pm Po Pz Pl Pf]. pose proof (data_pos _ _ _ Hg Hlo Hx) as Hpos.
  destruct (grow_ind sb t addrs Hg Hlo Hhi Hok Hf x Hx Hu Hi) as [Hgr Hmap].
  assert (Hind : ind_of (<[12%nat := x]> addrs) = x) by (apply ind_of_set, (fo_len _ _ _ Hf)).
  rewrite Hmap in Po, Pz by done. split; try done.
  - by eapply grow_trans.
  - intros k Hk. rewrite Pm by done. destruct (k =? bn); [done|]. by apply Hmap.
  - intros _. destruct (Pz H0) as [Ha Hz]. split; [|done]. destruct (used sb t a) eqn:E; [|done].
    assert (Hown : own t' addrs' a).
    { split; [done|]. right. exists bn. split; [done|]. rewrite Pm by done. by rewrite Z.eqb_refl. }
    pose proof (own_data _ _ _ _ (gr_ok _ _ _ _ _ Pg) Hown) as Hd. pose proof (data_pos _ _ _ Hg Hlo Hd).
    rewrite (alloc_used sb t) in Ha by (done || lia). done.
  - unfold ind_cost in Pl at 2. rewrite Hind in Pl. rewrite decide_True in Pl by (simpl; split; [lia|set_solver]).
    rewrite lset_alloc in Pl by (apply (bblock_bmap_set sb t); try done; lia).
    pose proof (size_add (lset sb t) x). unfold ind_cost at 2. rewrite decide_False by (intros [? _]; done). lia.
  - unfold ind_need in Pf at 2. rewrite Hind, decide_False in Pf by lia.
    rewrite (alloc_size sb t Hg Hlo Hhi Hok x Hx Hu). unfold ind_need at 2. rewrite decide_True by done. lia.
Qed.
End bmap_post.

Section bmap_wp.
Context {S : Type} `{!BlockOps S} `{!BlockLayer S} `{!DevOps S}.
Implicit Types (b : S) (t : txn) (sb : superblock) (ic : list inode).

(** The indirect part of [bmap], from the point where the indirect block is
    known. *)
Definition bmap_indirect (ind bn : Z) : M (fsst S) Z :=
  bp ← fbread ROOTDEV ind;
  a ← fdata bp;
  if word_at a bn =? 0 then
    addr ← balloc ROOTDEV;
    a ← fdata bp;
    fset bp (set_word a bn addr);;
    flog_write bp;;
    fbrelse bp;;
    mret addr
  else
    fbrelse bp;;
    mret (word_at a bn).

Lemma wp_bmap_indirect b t sb ic pid cwd addrs bn Q :
  bl_rep b t -> t_held t = ∅ -> fs_geom sb t -> file_ok sb t addrs ->
  NDIRECT <= bn < MAXFILE -> ind_of addrs <> 0 -> block_of (t_view t) addrs bn = 0 ->
  (size (lset sb t) + ind_cost t addrs + 1 <= t_cap t)%nat -> (1 <= size (free_set sb t))%nat ->
  (forall a t' b', bmap_post sb t addrs bn a t' addrs -> bl_rep b' t' -> Q a (mk_fsst b' sb ic pid cwd)) ->
  wp (bmap_indirect (ind_of addrs) (bn - NDIRECT)) (mk_fsst b sb ic pid cwd) Q.
Proof.
  intros Hr Hh Hg Hf Hbn Hi H0 Hroom Hfree HQ. unfold bmap_indirect.
  destruct (bl_bound _ _ Hr) as [[Hlo Hlh] Hhi].
  assert (Hok : forall k, 0 <= k < t_hi t -> block_ok (t_view t k)) by (intros; by apply (bl_ok _ _ _ Hr)).
  destruct (fo_ind _ _ _ Hf Hi) as [Hd Hu]. pose proof (data_pos _ _ _ Hg Hlo Hd). pose proof (ge_size _ _ Hg).
  set (ind := ind_of addrs) in *.
  assert (Hw : word_at (t_view t ind) (bn - NDIRECT) = 0).
  { unfold block_of in H0. fold ind in H0. rewrite (proj2 (Z.ltb_ge bn NDIRECT)) in H0 by lia.
    by rewrite (proj2 (Z.eqb_neq _ _) Hi) in H0. }
  fs_step. apply (wp_fbread _ t); [done|lia|by rewrite Hh|rewrite Hh, map_size_empty; unfold MAXHELD; lia|].
  intros bp b1 R1. fs_step. eapply (wp_fdata _ _ _ _ _ _ ind bp false _ R1); [held_tac|].
  change (t_view (hold _ _ _ t)) with (t_view t). rewrite Hw. cbn [Z.eqb].
  fs_step. apply (wp_balloc _ _ _ _ _ _ _ R1); [apply can_alloc_hold; try done; lia|by apply (free_exists sb t)|].
  intros a b2 (Ha & Hua & _) R2. change (used sb t a = false) in Hua.
  assert (Hda : is_data sb a) by (by apply (unused_data sb t)).
  change (alloc_txn sb a (hold ind bp false t)) with (hold ind bp false (alloc_txn sb a t)) in R2.
  assert (Hv : t_view (alloc_txn sb a t) ind = t_view t ind) by (by apply (ind_view sb t addrs)).
  fs_step. eapply (wp_fdata _ _ _ _ _ _ ind bp false _ R2); [held_tac|].
  change (t_view (hold _ _ _ (alloc_txn sb a t))) with (t_view (alloc_txn sb a t)). rewrite Hv.
  assert (t_lo t <= ind < t_hi t) by (pose proof (meta_bounds _ _ Hg); destruct Hd; lia).
  fs_step. eapply (wp_fset _ _ _ _ _ _ ind bp false _ _ R2); [held_tac|done| |].
  { apply set_word_ok; [apply Hok; lia|]. consts. lia. }
  intros b3 R3.
  fs_step. eapply (wp_flog_write _ _ _ _ _ _ ind bp true _ R3); [held_tac|done| |].
  { unfold loggable. simpl. unfold ind_cost in Hroom.
    pose proof (bblock_bmap_set sb t a Hg Hhi Hlo Ha). pose proof (size_add ({[a]} ∪ lset sb t) ind).
    pose proof (size_add (lset sb t) a). fold ind in Hroom.
    transitivity (size ({[ind]} ∪ ({[a]} ∪ lset sb t))); [apply subseteq_size; unfold lset; set_solver|].
    case_decide as Hc; [|lia]. rewrite size_add_in; [lia|]. unfold lset. set_solver. }
  intros b4 R4. fs_step. eapply (wp_fbrelse _ _ _ _ _ _ ind bp _ R4); [held_tac|]. intros b5 R5.
  rewrite release_write in R5 by (simpl; by rewrite Hh). apply wp_ret. eapply HQ; [|exact R5].
  by apply post_indirect.
Qed.

(** [bmap] on any block number of a file, with the log space and the free
    blocks it may need. *)
Lemma wp_bmap b t sb ic pid cwd ip i bn Q :
  bl_rep b t -> t_held t = ∅ -> fs_geom sb t -> ic !! ip = Some i -> i_dev i = ROOTDEV ->
  file_ok sb t (i_addrs i) -> 0 <= bn < MAXFILE ->
  (size (lset sb t) + ind_cost t (i_addrs i) + 1 <= t_cap t)%nat ->
  (ind_need (i_addrs i) + 1 <= size (free_set sb t))%nat ->
  (forall a t' addrs' b', bmap_post sb t (i_addrs i) bn a t' addrs' -> bl_rep b' t' ->
     Q a (mk_fsst b' sb (set_addrs ip i addrs' ic) pid cwd)) ->
  wp (bmap ip bn) (mk_fsst b sb ic pid cwd) Q.
Proof.
  intros Hr Hh Hg Hi Hdev Hf Hbn Hroom Hfree HQ. destruct (bl_bound _ _ Hr) as [[Hlo Hlh] Hhi].
  assert (Hok : forall k, 0 <= k < t_hi t -> block_ok (t_view t k)) by (intros; by apply (bl_ok _ _ _ Hr)).
  destruct (decide (block_of (t_view t) (i_addrs i) bn = 0)) as [H0|Hnz].
  2: { apply (wp_bmap_hit _ t _ _ _ _ ip i); try done. intros b' R'.
    rewrite <- (set_addrs_same ip i ic Hi) by done. apply (HQ _ t (i_addrs i)); [by apply post_hit|done]. }
  unfold bmap. do 2 fs_step. rewrite (list_lookup_total_correct _ _ _ Hi), Hdev.
  destruct (Z.ltb_spec bn NDIRECT) as [Hlt|Hge].
  - do 2 fs_step. rewrite (list_lookup_total_correct _ _ _ Hi).
    assert (H0' : i_addrs i !!! Z.to_nat bn = 0).
    { unfold block_of in H0. by rewrite (proj2 (Z.ltb_lt bn NDIRECT)) in H0 by lia. }
    rewrite H0'. cbn [Z.eqb]. fs_step. apply (wp_balloc_empty _ t); try done; try lia.
    intros a b1 Ha Hu R1. do 2 fs_step. apply wp_ret. rewrite (list_lookup_total_correct _ _ _ Hi).
    eapply HQ; [|exact R1]. apply post_direct; try done. lia.
  - rewrite (proj2 (Z.ltb_lt (bn - NDIRECT) NINDIRECT)) by (consts; lia).
    do 2 fs_step. rewrite (list_lookup_total_correct _ _ _ Hi).
    change (i_addrs i !!! Z.to_nat NDIRECT) with (ind_of (i_addrs i)).
    destruct (Z.eqb_spec (ind_of (i_addrs i)) 0) as [E0|Hind].
    + assert (Hc : ind_cost t (i_addrs i) = 1%nat) by (unfold ind_cost; by rewrite decide_False by (intros [? _]; done)).
      assert (Hn : ind_need (i_addrs i) = 1%nat) by (unfold ind_need; by rewrite decide_True).
      rewrite Hc in Hroom. rewrite Hn in Hfree.
      fs_step. fs_step. apply (wp_balloc_empty _ t); try done; try lia. intros x b1 Hx Hu R1.
      do 2 fs_step. apply wp_ret. rewrite (list_lookup_total_correct _ _ _ Hi).
      pose proof (data_pos _ _ _ Hg Hlo Hx) as Hpx.
      destruct (grow_ind sb t (i_addrs i) Hg Hlo Hhi Hok Hf x Hx Hu E0) as [Hgr Hmap].
      assert (Hind : ind_of (<[12%nat := x]> (i_addrs i)) = x) by (apply ind_of_set, (fo_len _ _ _ Hf)).
      change (Z.to_nat NDIRECT) with 12%nat. rewrite <- Hind at 1. fold (bmap_indirect (ind_of (<[12%nat := x]> (i_addrs i))) (bn - NDIRECT)).
      apply (wp_bmap_indirect _ (alloc_txn sb x t)); try done.
      * apply (gr_geom _ _ _ _ _ Hgr).
      * apply (gr_ok _ _ _ _ _ Hgr).
      * lia.
      * lia.
      * rewrite Hmap by done. done.
      * unfold ind_cost. rewrite Hind, decide_True by (simpl; split; [lia|set_solver]).
        rewrite lset_alloc by (apply (bblock_bmap_set sb t); try done; lia).
        pose proof (size_add (lset sb t) x). simpl. lia.
      * pose proof (alloc_size sb t Hg Hlo Hhi Hok x Hx Hu). lia.
      * intros a t' b' Hp R'. eapply (HQ a t' (<[12%nat := x]> (i_addrs i))); [|exact R']. by apply (post_ind_first sb t _ Hg Hlo Hhi Hok Hf _ x).
    + fs_step. apply wp_ret. fold (bmap_indirect (ind_of (i_addrs i)) (bn - NDIRECT)).
      apply (wp_bmap_indirect _ t); try done; [lia|lia|].
      intros a t' b' Hp R'. rewrite <- (set_addrs_same ip i ic Hi) by done. by eapply HQ.
Qed.
End bmap_wp.
