(* ===== verification/FsRW.v ===== *)
(** Reading and writing files ([readi], [writei] and [iupdate] of [fs.c]) as
    operations on byte sequences. *)

From S2P Require Import Prelude CString Layout Sleeplock BlockLayer Fs FsBlock FsFile.

(** Byte [off] of a file. *)
Definition file_byte (v : Z -> list Z) (addrs : list Z) (off : Z) : Z :=
  v (block_of v addrs (off / BSIZE)) !!! Z.to_nat (off mod BSIZE).

(** The [n] bytes from [off] on. *)
Definition file_bytes (v : Z -> list Z) (addrs : list Z) (off n : Z) : list Z :=
  (fun i => file_byte v addrs (off + i)) <$> seqZ 0 n.

(** Every block below [size] is allocated. *)
Definition no_holes (v : Z -> list Z) (addrs : list Z) (size : Z) : Prop :=
  forall bn, 0 <= bn -> bn * BSIZE < size -> block_of v addrs bn <> 0.

Lemma file_bytes_length v addrs off n : length (file_bytes v addrs off n) = Z.to_nat n.
Proof. unfold file_bytes. by rewrite length_fmap, length_seqZ. Qed.

Lemma file_bytes_app v addrs off a b :
  0 <= a -> 0 <= b -> file_bytes v addrs off (a + b) = file_bytes v addrs off a ++ file_bytes v addrs (off + a) b.
Proof.
  intros Ha Hb. unfold file_bytes. rewrite seqZ_app, fmap_app by done. f_equal.
  apply list_eq. intros i. rewrite !list_lookup_fmap.
  destruct (decide (Z.of_nat i < b)) as [Hi|Hi].
  - rewrite !lookup_seqZ_lt by lia. simpl. do 2 f_equal. lia.
  - rewrite !lookup_seqZ_ge by lia. done.
Qed.

Lemma file_bytes_lookup v addrs off n i :
  0 <= i < n -> file_bytes v addrs off n !!! Z.to_nat i = file_byte v addrs (off + i).
Proof.
  intros Hi. apply list_lookup_total_correct. unfold file_bytes.
  rewrite list_lookup_fmap, lookup_seqZ_lt by lia. simpl. do 2 f_equal. lia.
Qed.

(** A piece of one block. *)
Lemma slice_file_bytes v addrs off m :
  0 <= off -> 0 <= m <= BSIZE - off mod BSIZE -> length (v (block_of v addrs (off / BSIZE))) = 512%nat ->
  slice (v (block_of v addrs (off / BSIZE))) (Z.to_nat (off mod BSIZE)) (Z.to_nat m) = file_bytes v addrs off m.
Proof.
  intros Hoff Hm Hlen. pose proof (Z.mod_pos_bound off BSIZE ltac:(done)) as Hmod.
  change BSIZE with 512 in *.
  apply list_eq. intros i. unfold slice, file_bytes. rewrite list_lookup_fmap.
  destruct (decide (Z.of_nat i < m)) as [Hi|Hi].
  - rewrite lookup_take_lt, lookup_drop, lookup_seqZ_lt by lia. simpl. unfold file_byte.
    change BSIZE with 512.
    pose proof (Z.div_mod off 512).
    assert (E1 : (off + Z.of_nat i) / 512 = off / 512)
      by (symmetry; apply (Z.div_unique _ _ _ (off mod 512 + Z.of_nat i)); lia).
    assert (E2 : (off + Z.of_nat i) mod 512 = off mod 512 + Z.of_nat i)
      by (symmetry; apply (Z.mod_unique _ _ (off / 512)); lia).
    rewrite Z.add_0_l, E1, E2.
    destruct (lookup_lt_is_Some_2 (v (block_of v addrs (off / 512))) (Z.to_nat (off mod 512) + i)) as [x Hx]; [lia|].
    rewrite Hx. f_equal. symmetry. apply list_lookup_total_correct. rewrite <- Hx. f_equal. lia.
  - rewrite lookup_take_ge, lookup_seqZ_ge by lia. done.
Qed.

Section readi.
Context {S : Type} `{!BlockOps S} `{!BlockLayer S} `{!DevOps S}.
Implicit Types (b : S) (t : txn) (sb : superblock) (ic : list inode).

Lemma wp_readi_loop fuel b t sb ic pid cwd ip i off n tot Q :
  bl_rep b t -> t_held t = ∅ -> fs_geom sb t -> ic !! ip = Some i -> i_dev i = ROOTDEV ->
  file_ok sb t (i_addrs i) -> no_holes (t_view t) (i_addrs i) (off + (n - tot)) ->
  0 <= off -> 0 <= tot <= n -> off + (n - tot) <= MAXFILE * BSIZE -> (Z.to_nat (n - tot) <= fuel)%nat ->
  (forall b', bl_rep b' t -> Q (file_bytes (t_view t) (i_addrs i) off (n - tot)) (mk_fsst b' sb ic pid cwd)) ->
  wp (readi_loop fuel ip off n tot) (mk_fsst b sb ic pid cwd) Q.
Proof.
  intros Hr Hh Hg Hi Hdev Hf. revert b off tot Q Hr.
  induction fuel as [|fuel IH]; intros b off tot Q Hr Hnh Hoff Htot Hmax Hfuel HQ; cbn [readi_loop].
  { rewrite (proj2 (Z.ltb_ge tot n)) by lia. apply wp_ret. replace (n - tot) with 0 in HQ by lia. by apply HQ. }
  destruct (Z.ltb_spec tot n) as [Hlt|Hge]; cbn [negb].
  2: { apply wp_ret. replace (n - tot) with 0 in HQ by lia. by apply HQ. }
  destruct (bl_bound _ _ Hr) as [[Hlo Hlh] Hhi]. pose proof (Z.mod_pos_bound off BSIZE ltac:(done)) as Hmod.
  set (m := Z.min (n - tot) (BSIZE - off mod BSIZE)). pose proof (Z.div_mod off BSIZE ltac:(done)) as Hdm.
  assert (Hm : 0 < m <= n - tot /\ m <= BSIZE - off mod BSIZE) by lia.
  assert (Hbn : 0 <= off / BSIZE < MAXFILE).
  { split; [apply Z.div_pos; [lia|done]|]. apply Z.div_lt_upper_bound; [done|]. lia. }
  assert (Hnz : block_of (t_view t) (i_addrs i) (off / BSIZE) <> 0) by (apply Hnh; lia).
  destruct (fo_block _ _ _ Hf _ Hbn Hnz) as [Hd Hu]. pose proof (data_pos _ _ _ Hg Hlo Hd) as Hpos.
  pose proof (ge_size _ _ Hg).
  do 2 fs_step. rewrite (list_lookup_total_correct _ _ _ Hi), Hdev.
  fs_step. apply (wp_bmap_hit _ t _ _ _ _ ip i); try done. intros b1 R1.
  set (blk := block_of (t_view t) (i_addrs i) (off / BSIZE)) in *.
  fs_step. apply (wp_fbread _ t); [done|lia|by rewrite Hh|rewrite Hh, map_size_empty; unfold MAXHELD; lia|].
  intros bp b2 R2. fs_step. eapply (wp_fdata _ _ _ _ _ _ blk bp false _ R2); [held_tac|].
  change (t_view (hold _ _ _ t)) with (t_view t).
  fs_step. eapply (wp_fbrelse _ _ _ _ _ _ blk bp _ R2); [held_tac|]. intros b3 R3.
  rewrite release_read in R3 by (by rewrite Hh).
  assert (Hu32 : u32 (off + m) = off + m) by (apply u32_small; change MAXFILE with 140 in *; change BSIZE with 512 in *; lia).
  fs_step. rewrite Hu32. apply (IH _ (off + m) (tot + m)); try done; try lia.
  - intros bn Hb1 Hb2. apply Hnh; lia.
  - intros b4 R4. apply wp_ret. destruct (bl_ok _ _ blk Hr) as [Hlen _]; [lia|]. fold m.
    unfold blk. rewrite (slice_file_bytes (t_view t) (i_addrs i) off m) by (done || lia).
    replace (n - (tot + m)) with (n - tot - m) by lia.
    rewrite <- file_bytes_app by lia. replace (m + (n - tot - m)) with (n - tot) by lia. by apply HQ.
Qed.

(** What [readi] returns for an ordinary file. *)
Definition readi_result (v : Z -> list Z) (i : inode) (off n : Z) : Z * list Z :=
  if (off >? i_size i) || (u32 (off + n) <? off) then (-1, [])
  else let k := Z.min n (i_size i - off) in (k, file_bytes v (i_addrs i) off k).

(** A file the kernel may read: size within bounds, no holes. *)
Record inode_ok sb t (i : inode) : Prop := {
  io_dev : i_dev i = ROOTDEV;
  io_file : file_ok sb t (i_addrs i);
  io_size : 0 <= i_size i <= MAXFILE * BSIZE;
  io_holes : no_holes (t_view t) (i_addrs i) (i_size i)
}.

Lemma wp_readi b t sb ic pid cwd ip i off n Q :
  bl_rep b t -> t_held t = ∅ -> fs_geom sb t -> ic !! ip = Some i -> inode_ok sb t i ->
  i_type i <> T_DEV -> 0 <= off < 2 ^ 32 -> 0 <= n < 2 ^ 32 ->
  (forall b', bl_rep b' t -> Q (readi_result (t_view t) i off n) (mk_fsst b' sb ic pid cwd)) ->
  wp (readi ip off n) (mk_fsst b sb ic pid cwd) Q.
Proof.
  intros Hr Hh Hg Hi [Hdev Hf Hsz Hnh] Hty Hoff Hn HQ. unfold readi, readi_result in *.
  do 2 fs_step. rewrite (list_lookup_total_correct _ _ _ Hi), (proj2 (Z.eqb_neq _ _) Hty).
  destruct (Z.gtb_spec off (i_size i)) as [|Hle]; cbn [orb] in *; [apply wp_ret; by apply HQ|].
  destruct (Z.ltb_spec (u32 (off + n)) off) as [|Hov]; [apply wp_ret; by apply HQ|].
  assert (Hu : u32 (off + n) = off + n).
  { apply u32_small. destruct (decide (off + n < 2 ^ 32)); [lia|]. exfalso.
    assert (u32 (off + n) = off + n - 2 ^ 32); [|lia].
    unfold u32. symmetry. apply (Z.mod_unique _ _ 1); lia. }
  rewrite Hu. set (k := if off + n >? i_size i then i_size i - off else n).
  assert (Hk : k = Z.min n (i_size i - off)) by (unfold k; destruct (Z.gtb_spec (off + n) (i_size i)); lia).
  rewrite <- Hk in HQ. fs_step. apply (wp_readi_loop _ _ t _ _ _ _ ip i); try done; try lia.
  - intros bn Hb1 Hb2. apply Hnh; lia.
  - intros b1 R1. apply wp_ret. replace (k - 0) with k by lia. by apply HQ.
Qed.
End readi.

(** ** Writing *)

(** How many blocks the bytes [off, off + n) touch. *)
Definition nblocks (off n : Z) : nat :=
  if n <=? 0 then 0 else Z.to_nat ((off + n - 1) / BSIZE - off / BSIZE + 1).

(** The transaction and block map after [src] was written at [off]. *)
Record wrote (sb : superblock) (t : txn) (addrs : list Z) (off : Z) (src : list Z)
    (t' : txn) (addrs' : list Z) : Prop := {
  wr_ok : file_ok sb t' addrs';
  wr_geom : fs_geom sb t';
  wr_same : same_frame t t';
  wr_view : forall k, 0 < k < sb_size sb -> used sb t k = true -> k ∉ bmap_set sb -> ~ own t addrs k ->
    t_view t' k = t_view t k;
  wr_used : forall k, 0 <= k < sb_size sb -> used sb t k = true -> used sb t' k = true;
  wr_own : forall k, 0 <= k < sb_size sb -> used sb t k = false -> used sb t' k = true -> own t' addrs' k;
  wr_keep : forall k, own t addrs k -> own t' addrs' k;
  wr_new : forall k, own t' addrs' k -> own t addrs k \/ used sb t k = false;
  wr_map : forall bn, 0 <= bn < MAXFILE -> block_of (t_view t) addrs bn <> 0 ->
    block_of (t_view t') addrs' bn = block_of (t_view t) addrs bn;
  wr_stable : (forall p, off <= p < off + Z.of_nat (length src) -> block_of (t_view t) addrs (p / BSIZE) <> 0) ->
    addrs' = addrs;
  wr_alloc : forall p, off <= p < off + Z.of_nat (length src) -> block_of (t_view t') addrs' (p / BSIZE) <> 0;
  wr_bytes : forall p, 0 <= p < MAXFILE * BSIZE -> block_of (t_view t') addrs' (p / BSIZE) <> 0 ->
    file_byte (t_view t') addrs' p =
      if (off <=? p) && (p <? off + Z.of_nat (length src)) then src !!! Z.to_nat (p - off)
      else if block_of (t_view t) addrs (p / BSIZE) =? 0 then 0
      else file_byte (t_view t) addrs p;
  wr_log : (size (lset sb t') + ind_cost t' addrs' <=
            size (lset sb t) + ind_cost t addrs + nblocks off (Z.of_nat (length src)))%nat;
  wr_free : (size (free_set sb t) + ind_need addrs' <=
             size (free_set sb t') + ind_need addrs + nblocks off (Z.of_nat (length src)))%nat
}.

Lemma div_bound p : 0 <= p < MAXFILE * BSIZE -> 0 <= p / BSIZE < MAXFILE.
Proof.
  intros H. split; [apply Z.div_pos; [lia|done]|]. apply Z.div_lt_upper_bound; [done|]. lia.
Qed.

Lemma wrote_nil sb t addrs off : file_ok sb t addrs -> fs_geom sb t -> wrote sb t addrs off [] t addrs.
Proof.
  intros Hf Hg. split; try done; simpl; try lia.
  - by intros; congruence.
  - by left.
  - intros p Hp Hn. rewrite (proj2 (Z.eqb_neq _ _) Hn).
    destruct (Z.leb_spec off p), (Z.ltb_spec p (off + Z.of_nat 0)); try done. lia.
Qed.

Lemma nblocks_split off m n :
  0 <= off -> 0 < m -> 0 <= n -> m <= BSIZE - off mod BSIZE -> (0 < n -> m = BSIZE - off mod BSIZE) ->
  nblocks off (m + n) = Datatypes.S (nblocks (off + m) n).
Proof.
  intros Hoff Hm Hn Hle Hfull. unfold nblocks. rewrite (proj2 (Z.leb_gt (m + n) 0)) by lia.
  pose proof (Z.div_mod off BSIZE ltac:(done)) as Hdm. pose proof (Z.mod_pos_bound off BSIZE ltac:(done)) as Hmod.
  change BSIZE with 512 in *. destruct (Z.leb_spec n 0) as [|Hpos].
  - replace n with 0 by lia. rewrite Z.add_0_r.
    assert ((off + m - 1) / 512 = off / 512) as ->; [|lia].
    symmetry. apply (Z.div_unique _ _ _ (off mod 512 + m - 1)); lia.
  - specialize (Hfull Hpos).
    assert ((off + m) / 512 = off / 512 + 1) as -> by (symmetry; apply (Z.div_unique _ _ _ 0); lia).
    replace (off + (m + n) - 1) with (off + m + n - 1) by lia.
    assert (off / 512 + 1 <= (off + m + n - 1) / 512) by (apply Z.div_le_lower_bound; lia). lia.
Qed.

(** Writes compose. *)
Lemma wrote_trans sb t addrs off s1 t1 addrs1 s2 t2 addrs2 :
  fs_geom sb t -> 2 <= t_lo t ->
  0 <= off -> off + Z.of_nat (length s1) + Z.of_nat (length s2) <= MAXFILE * BSIZE ->
  nblocks off (Z.of_nat (length (s1 ++ s2))) =
    (nblocks off (Z.of_nat (length s1)) + nblocks (off + Z.of_nat (length s1)) (Z.of_nat (length s2)))%nat ->
  wrote sb t addrs off s1 t1 addrs1 -> wrote sb t1 addrs1 (off + Z.of_nat (length s1)) s2 t2 addrs2 ->
  wrote sb t addrs off (s1 ++ s2) t2 addrs2.
Proof.
  intros Hg Hlo Hoff Hmax Hnb W1 W2.
  destruct W1 as [Hf1 Hg1 Hs1 Hv1 Hu1 Ho1 Hk1 Hn1 Hm1 Hst1 Ha1 Hb1 Hl1 Hfr1].
  destruct W2 as [Hf2 Hg2 Hs2 Hv2 Hu2 Ho2 Hk2 Hn2 Hm2 Hst2 Ha2 Hb2 Hl2 Hfr2].
  assert (Hmono : forall bn, 0 <= bn < MAXFILE -> block_of (t_view t) addrs bn <> 0 ->
    block_of (t_view t1) addrs1 bn <> 0) by (intros bn Hbn Hn; by rewrite Hm1).
  split; try done.
  - by eapply same_frame_trans.
  - intros k Hk Hu Hb Hno. rewrite Hv2; [by apply Hv1|done|apply Hu1; [lia|done]|done|].
    intros [?|?]%Hn1; [done|congruence].
  - intros k Hk Hu. by apply Hu2, Hu1.
  - intros k Hk Hu Hu'. destruct (used sb t1 k) eqn:E; [by apply Hk2, Ho1|by apply Ho2].
  - intros k Hk. by apply Hk2, Hk1.
  - intros k Hk. pose proof (data_pos _ _ _ Hg Hlo (own_data _ _ _ _ Hf2 Hk)).
    destruct (Hn2 _ Hk) as [Ho|Hu]; [by apply Hn1|]. right. destruct (used sb t k) eqn:E; [|done].
    rewrite Hu1 in Hu by (done || lia). done.
  - intros bn Hbn Hn. rewrite Hm2; [by apply Hm1|done|by apply Hmono].
  - intros Hall. rewrite length_app in Hall.
    rewrite Hst2, Hst1; [done|intros p Hp; apply Hall; lia|]. intros p Hp.
    assert (0 <= p < MAXFILE * BSIZE) as Hr by lia. apply Hmono; [by apply div_bound|apply Hall; lia].
  - intros p Hp. rewrite length_app in Hp. assert (0 <= p < MAXFILE * BSIZE) as Hr by lia.
    destruct (decide (p < off + Z.of_nat (length s1))); [|apply Ha2; lia].
    rewrite Hm2; [apply Ha1; lia|by apply div_bound|apply Ha1; lia].
  - intros p Hp Hn. rewrite Hb2 by done. rewrite length_app. pose proof (div_bound _ Hp) as Hdb.
    destruct (Z.leb_spec (off + Z.of_nat (length s1)) p) as [H1|H1];
    destruct (Z.ltb_spec p (off + Z.of_nat (length s1) + Z.of_nat (length s2))) as [H2|H2]; cbn [andb]; try lia.
    + rewrite (proj2 (Z.leb_le off p)), (proj2 (Z.ltb_lt p _)) by lia. cbn [andb].
      rewrite lookup_total_app_r by lia. f_equal. lia.
    + rewrite (proj2 (Z.leb_le off p)), (proj2 (Z.ltb_ge p _)) by lia. cbn [andb].
      destruct (Z.eqb_spec (block_of (t_view t1) addrs1 (p / BSIZE)) 0) as [E0|Hnz].
      * destruct (Z.eqb_spec (block_of (t_view t) addrs (p / BSIZE)) 0) as [|Hx]; [done|]. by apply Hmono in Hx.
      * rewrite Hb1 by done. by rewrite (proj2 (Z.leb_le off p)), (proj2 (Z.ltb_ge p _)) by lia.
    + destruct (Z.eqb_spec (block_of (t_view t1) addrs1 (p / BSIZE)) 0) as [E0|Hnz].
      * destruct (Z.leb_spec off p); [destruct (Ha1 p); [lia|done]|]. cbn [andb].
        destruct (Z.eqb_spec (block_of (t_view t) addrs (p / BSIZE)) 0) as [|Hx]; [done|]. by apply Hmono in Hx.
      * rewrite Hb1 by done. destruct (Z.leb_spec off p); cbn [andb]; [|done].
        rewrite (proj2 (Z.ltb_lt p (off + Z.of_nat (length s1)))), (proj2 (Z.ltb_lt p _)) by lia.
        rewrite lookup_total_app_l by lia. done.
  - lia.
  - lia.
Qed.

Lemma put_log_at blk d t : t_view (put_log blk d t) blk = d.
Proof. apply upd_eq. Qed.

(** The bytes of a block after a splice. *)
Lemma splice_byte (d : list Z) o c j :
  length d = 512%nat -> 0 <= o -> o + Z.of_nat (length c) <= 512 -> 0 <= j < 512 ->
  splice d (Z.to_nat o) c !!! Z.to_nat j =
    if (o <=? j) && (j <? o + Z.of_nat (length c)) then c !!! Z.to_nat (j - o) else d !!! Z.to_nat j.
Proof.
  intros Hd Ho Hc Hj. rewrite !list_lookup_total_alt.
  destruct (Z.leb_spec o j), (Z.ltb_spec j (o + Z.of_nat (length c))); cbn [andb].
  - rewrite splice_lookup_in by lia. do 2 f_equal. lia.
  - by rewrite splice_lookup_out by lia.
  - by rewrite splice_lookup_out by lia.
  - by rewrite splice_lookup_out by lia.
Qed.

Lemma off_split off : 0 <= off -> off = BSIZE * (off / BSIZE) + off mod BSIZE /\ 0 <= off mod BSIZE < BSIZE.
Proof. intros. split; [apply Z.div_mod; done|apply Z.mod_pos_bound; done]. Qed.

(** The bytes of a file after a chunk is spliced into block [a] at [bn]. *)
Lemma chunk_bytes sb t addrs off c a t1 addrs1 p :
  file_ok sb t1 addrs1 -> length (t_view t1 a) = 512%nat -> a <> ind_of addrs1 ->
  (forall k, 0 <= k < MAXFILE -> block_of (t_view t1) addrs1 k = if k =? off / BSIZE then a else block_of (t_view t) addrs k) ->
  (block_of (t_view t) addrs (off / BSIZE) <> 0 -> a = block_of (t_view t) addrs (off / BSIZE) /\ t1 = t /\ addrs1 = addrs) ->
  (block_of (t_view t) addrs (off / BSIZE) = 0 -> t_view t1 a = zero_block) ->
  (forall k, own t addrs k -> k <> ind_of addrs -> t_view t1 k = t_view t k) -> file_ok sb t addrs -> a <> 0 ->
  0 <= off < MAXFILE * BSIZE -> 0 < Z.of_nat (length c) <= BSIZE - off mod BSIZE ->
  let t2 := put_log a (splice (t_view t1 a) (Z.to_nat (off mod BSIZE)) c) t1 in
  (forall k, block_of (t_view t2) addrs1 k = block_of (t_view t1) addrs1 k) ->
  0 <= p < MAXFILE * BSIZE -> block_of (t_view t2) addrs1 (p / BSIZE) <> 0 ->
  file_byte (t_view t2) addrs1 p =
      if (off <=? p) && (p <? off + Z.of_nat (length c)) then c !!! Z.to_nat (p - off)
      else if block_of (t_view t) addrs (p / BSIZE) =? 0 then 0
      else file_byte (t_view t) addrs p.
Proof.
  intros Hf1 Hlen Hai Hmap Hold Hnew Hkeep Hf Hnz Hoff Hc t2 Hbo2 Hp Hbp. unfold file_byte.
  pose proof (div_bound _ Hoff) as Hbn. pose proof (div_bound _ Hp) as Hbq.
  destruct (off_split off) as [Eo Mo]; [lia|]. destruct (off_split p) as [Ep Mp]; [lia|].
  rewrite Hbo2 in Hbp |- *. rewrite Hmap in Hbp |- * by done. change BSIZE with 512 in *.
  destruct (Z.eqb_spec (p / 512) (off / 512)) as [Eb|Nb].
  - unfold t2. rewrite put_log_at, splice_byte by lia. rewrite Eb.
    replace (off <=? p) with (off mod 512 <=? p mod 512)
      by (destruct (Z.leb_spec (off mod 512) (p mod 512)); symmetry; [apply Z.leb_le|apply Z.leb_gt]; lia).
    replace (p <? off + Z.of_nat (length c)) with (p mod 512 <? off mod 512 + Z.of_nat (length c))
      by (destruct (Z.ltb_spec (p mod 512) (off mod 512 + Z.of_nat (length c)));
          symmetry; [apply Z.ltb_lt|apply Z.ltb_ge]; lia).
    destruct (_ && _); [do 2 f_equal; lia|].
    destruct (Z.eqb_spec (block_of (t_view t) addrs (off / 512)) 0) as [E0|N0].
    + rewrite Hnew by done. apply list_lookup_total_correct. unfold zero_block. apply lookup_replicate. lia.
    + by destruct (Hold N0) as (-> & -> & _).
  - rewrite (proj2 (Z.eqb_neq _ _) Hbp).
    assert (E : (off <=? p) && (p <? off + Z.of_nat (length c)) = false).
    { apply andb_false_iff. destruct (Z.leb_spec off p); [right|by left]. apply Z.ltb_ge. lia. }
    rewrite E. f_equal. unfold t2. rewrite put_view_ne.
    + apply Hkeep; [split; [done|right; eauto]|].
      intros Ei. apply (fo_ind_ne _ _ _ Hf (p / 512)); [done| |done]. congruence.
    + intros Ea. apply Nb, (fo_inj _ _ _ Hf1); try done; rewrite Hmap by done.
      * by rewrite (proj2 (Z.eqb_neq _ _) Nb).
      * rewrite (proj2 (Z.eqb_neq _ _) Nb), Ea, Hmap by done. by rewrite Z.eqb_refl.
Qed.

Lemma ind_cost_put t addrs a d : (ind_cost (put_log a d t) addrs <= ind_cost t addrs)%nat.
Proof.
  unfold ind_cost. destruct (decide (ind_of addrs <> 0 /\ ind_of addrs ∈ t_logged t)) as [[H1 H2]|].
  - rewrite decide_True; [done|]. split; [done|]. simpl. by apply elem_of_union_r.
  - case_decide; lia.
Qed.

Lemma wrote_chunk sb t addrs off c a t1 addrs1 :
  fs_geom sb t -> 2 <= t_lo t -> t_hi t < 2 ^ 31 -> (forall k, 0 <= k < t_hi t1 -> block_ok (t_view t1 k)) ->
  file_ok sb t addrs -> 0 <= off < MAXFILE * BSIZE -> 0 < Z.of_nat (length c) <= BSIZE - off mod BSIZE ->
  bmap_post sb t addrs (off / BSIZE) a t1 addrs1 ->
  wrote sb t addrs off c (put_log a (splice (t_view t1 a) (Z.to_nat (off mod BSIZE)) c) t1) addrs1.
Proof.
  intros Hg Hlo Hhi Hok Hf Hoff Hc [[Hf1 Hg1 Hs1 Hv1 Hu1 Ho1 Hk1 Hn1 Hi1] Hnz Hmap Hold Hnew Hlog Hfree].
  pose proof (div_bound _ Hoff) as Hbn. set (bn := off / BSIZE) in *.
  assert (Ea : block_of (t_view t1) addrs1 bn = a) by (rewrite Hmap by done; by rewrite Z.eqb_refl).
  destruct (fo_block _ _ _ Hf1 bn Hbn) as [Hda Hua]; [by rewrite Ea|]. rewrite Ea in Hda, Hua.
  pose proof Hs1 as (_ & _ & _ & Elo & Ehi). pose proof (data_pos _ _ _ Hg Hlo Hda) as Hpa.
  assert (Hai : a <> ind_of addrs1).
  { intros E. apply (fo_ind_ne _ _ _ Hf1 bn Hbn); congruence. }
  destruct (file_put sb t1 Hg1 ltac:(lia) ltac:(lia) addrs1 a
    (splice (t_view t1 a) (Z.to_nat (off mod BSIZE)) c) Hf1 Hda Hai) as [Hf2 Hbo2].
  pose proof (ge_size _ _ Hg). destruct (off_split off) as [Eo Mo]; [lia|].
  assert (Hus : forall d k, 0 <= k < sb_size sb -> used sb (put_log a d t1) k = used sb t1 k)
    by (intros; apply used_put; (done || lia)).
  assert (Hown : forall k, own (put_log a (splice (t_view t1 a) (Z.to_nat (off mod BSIZE)) c) t1) addrs1 k <-> own t1 addrs1 k).
  { intros k. unfold own. split; intros [Hk [?|(m & Hm & Hb)]]; (split; [done|]); auto;
      right; exists m; rewrite Hbo2 in *; done. }
  assert (Haown : own t addrs a \/ used sb t a = false) by (apply Hn1; split; [done|]; right; eauto).
  assert (Hnb : nblocks off (Z.of_nat (length c)) = 1%nat).
  { replace (Z.of_nat (length c)) with (Z.of_nat (length c) + 0) by lia. rewrite nblocks_split; try done; lia. }
  assert (Hkeep : forall k, own t addrs k -> k <> ind_of addrs -> t_view t1 k = t_view t k).
  { intros k Hk Hki. pose proof (own_data _ _ _ _ Hf Hk) as Hdk. pose proof (data_pos _ _ _ Hg Hlo Hdk).
    apply Hv1; [lia| |by apply data_not_bmap|done].
    destruct Hk as [Hk0 [->|(m & Hm & <-)]]; [done|]. by apply (fo_block _ _ _ Hf). }
  set (t2 := put_log a _ t1) in *. split; try done.
  - apply geom_put; (done || lia).
  - intros k Hk Hu Hb Hno. unfold t2. rewrite put_view_ne by (intros ->; destruct Haown; [done|congruence]).
    apply Hv1; [lia|done|done|]. intros ->. apply Hno. split; [lia|]. by left.
  - intros k Hk Hu. unfold t2. rewrite Hus by done. auto.
  - intros k Hk Hu. unfold t2. rewrite Hus by done. intros Hu'. apply Hown. auto.
  - intros k Hk. apply Hown. auto.
  - intros k Hk%Hown. auto.
  - intros k Hk Hn. rewrite Hbo2, Hmap by done. destruct (Z.eqb_spec k bn) as [->|]; [|done]. by destruct (Hold Hn).
  - intros Hall. destruct (Hold (Hall off ltac:(lia))) as (_ & _ & ?). done.
  - intros p Hp. rewrite Hbo2. assert (p / BSIZE = bn) as ->; [|by rewrite Ea].
    fold bn in Eo. change BSIZE with 512 in *. symmetry. apply (Z.div_unique _ _ _ (p - 512 * bn)); lia.
  - intros p Hp Hn. destruct (Hok a) as [Hla _]; [lia|]. apply (chunk_bytes sb t addrs off c a t1 addrs1 p); try done.
    intros E. by apply Hnew.
  - rewrite Hnb. unfold t2. rewrite lset_put.
    pose proof (ind_cost_put t1 addrs1 a (splice (t_view t1 a) (Z.to_nat (off mod BSIZE)) c)). lia.
  - rewrite Hnb. replace (free_set sb t2) with (free_set sb t1); [lia|]. apply set_eq. intros k.
    rewrite !free_set_elem. split; intros [Hk Hn]; (split; [done|]); unfold t2 in *; rewrite Hus in *; done.
Qed.

Lemma set_addrs_lookup ip i addrs ic :
  ic !! ip = Some i -> set_addrs ip i addrs ic !! ip = Some (i <| i_addrs := addrs |>).
Proof. intros H. apply list_lookup_insert_eq. by apply lookup_lt_Some in H. Qed.

Lemma set_addrs_twice ip i a1 a2 ic :
  set_addrs ip (i <| i_addrs := a1 |>) a2 (set_addrs ip i a1 ic) = set_addrs ip i a2 ic.
Proof. unfold set_addrs. by rewrite list_insert_insert_eq. Qed.

Section writei.
Context {S : Type} `{!BlockOps S} `{!BlockLayer S} `{!DevOps S}.
Implicit Types (b : S) (t : txn) (sb : superblock) (ic : list inode).

(** One iteration of [writei]. *)
Definition writei_chunk (ip : nat) (chunk : list Z) (off : Z) : M (fsst S) () :=
  dev ← getip ip i_dev;
  addr ← bmap ip (off / BSIZE);
  bp ← fbread dev addr;
  data ← fdata bp;
  fset bp (splice data (Z.to_nat (off mod BSIZE)) chunk);;
  flog_write bp;;
  fbrelse bp.

Lemma wp_writei_chunk b t sb ic pid cwd ip i off c Q :
  bl_rep b t -> t_held t = ∅ -> fs_geom sb t -> ic !! ip = Some i -> i_dev i = ROOTDEV ->
  file_ok sb t (i_addrs i) -> 0 <= off < MAXFILE * BSIZE -> Forall byte_ok c ->
  0 < Z.of_nat (length c) <= BSIZE - off mod BSIZE ->
  (size (lset sb t) + ind_cost t (i_addrs i) + 1 <= t_cap t)%nat ->
  (ind_need (i_addrs i) + 1 <= size (free_set sb t))%nat ->
  (forall b' t' addrs', wrote sb t (i_addrs i) off c t' addrs' -> bl_rep b' t' ->
     Q () (mk_fsst b' sb (set_addrs ip i addrs' ic) pid cwd)) ->
  wp (writei_chunk ip c off) (mk_fsst b sb ic pid cwd) Q.
Proof.
  intros Hr Hh Hg Hi Hdev Hf Hoff Hby Hc Hroom Hfree HQ. unfold writei_chunk.
  destruct (bl_bound _ _ Hr) as [[Hlo Hlh] Hhi]. pose proof (div_bound _ Hoff) as Hbn.
  do 2 fs_step. rewrite (list_lookup_total_correct _ _ _ Hi), Hdev.
  fs_step. apply (wp_bmap _ t _ _ _ _ ip i); try done. intros a t1 addrs1 b1 Hp R1.
  pose proof Hp as [[Hf1 Hg1 Hs1 _ _ _ _ _ _] Hnz Hmap _ _ Hlog _].
  pose proof Hs1 as (Eh & Ecap & _ & Elo & Ehi).
  assert (Ea : block_of (t_view t1) addrs1 (off / BSIZE) = a) by (rewrite Hmap by done; by rewrite Z.eqb_refl).
  destruct (fo_block _ _ _ Hf1 _ Hbn) as [Hda Hua]; [by rewrite Ea|]. rewrite Ea in Hda.
  pose proof (data_pos _ _ _ Hg Hlo Hda) as Hpa. pose proof (ge_size _ _ Hg). pose proof (meta_bounds _ _ Hg).
  assert (Hh1 : t_held t1 = ∅) by congruence. unfold is_data in Hda. destruct (off_split off) as [Eo Mo]; [lia|].
  fs_step. apply (wp_fbread _ t1); [done|lia|by rewrite Hh1|rewrite Hh1, map_size_empty; unfold MAXHELD; lia|].
  intros bp b2 R2. fs_step. eapply (wp_fdata _ _ _ _ _ _ a bp false _ R2); [held_tac|].
  change (t_view (hold _ _ _ t1)) with (t_view t1).
  fs_step. eapply (wp_fset _ _ _ _ _ _ a bp false _ _ R2); [held_tac|simpl; lia| |].
  { apply splice_block; [apply (bl_ok _ _ _ R1); lia|done|]. change BSIZE with 512 in *. lia. }
  intros b3 R3. fs_step. eapply (wp_flog_write _ _ _ _ _ _ a bp true _ R3); [held_tac|simpl; lia| |].
  { unfold loggable. simpl. transitivity (size ({[a]} ∪ lset sb t1)); [apply subseteq_size; unfold lset; set_solver|]. lia. }
  intros b4 R4. eapply (wp_fbrelse _ _ _ _ _ _ a bp _ R4); [held_tac|]. intros b5 R5.
  rewrite release_write in R5 by (by rewrite Hh1). eapply HQ; [|exact R5].
  apply wrote_chunk; try done. intros k Hk. by apply (bl_ok _ _ _ R1).
Qed.

Lemma wp_writei_loop fuel b t sb ic pid cwd ip i src off n tot Q :
  bl_rep b t -> t_held t = ∅ -> fs_geom sb t -> ic !! ip = Some i -> i_dev i = ROOTDEV ->
  file_ok sb t (i_addrs i) -> Forall byte_ok src -> Z.of_nat (length src) = n - tot ->
  0 <= off -> 0 <= tot <= n -> off + (n - tot) <= MAXFILE * BSIZE -> (Z.to_nat (n - tot) <= fuel)%nat ->
  (size (lset sb t) + ind_cost t (i_addrs i) + nblocks off (n - tot) <= t_cap t)%nat ->
  (ind_need (i_addrs i) + nblocks off (n - tot) <= size (free_set sb t))%nat ->
  (forall b' t' addrs', wrote sb t (i_addrs i) off src t' addrs' -> bl_rep b' t' ->
     Q (off + (n - tot)) (mk_fsst b' sb (set_addrs ip i addrs' ic) pid cwd)) ->
  wp (writei_loop fuel ip src off n tot) (mk_fsst b sb ic pid cwd) Q.
Proof.
  revert b t ic i src off tot Q.
  induction fuel as [|fuel IH]; intros b t ic i src off tot Q Hr Hh Hg Hi Hdev Hf Hby Hsrc Hoff Htot Hmax Hfuel Hroom Hfree HQ;
    cbn [writei_loop].
  { rewrite (proj2 (Z.ltb_ge tot n)) by lia. apply wp_ret. destruct src; [|simpl in *; lia].
    replace off with (off + (n - tot)) at 1 by lia. rewrite <- (set_addrs_same ip i ic Hi).
    apply (HQ b t); [by apply wrote_nil|done]. }
  destruct (Z.ltb_spec tot n) as [Hlt|Hge]; cbn [negb].
  2: { apply wp_ret. destruct src; [|simpl in *; lia].
    replace off with (off + (n - tot)) at 1 by lia. rewrite <- (set_addrs_same ip i ic Hi).
    apply (HQ b t); [by apply wrote_nil|done]. }
  destruct (bl_bound _ _ Hr) as [[Hlo Hlh] Hhi]. destruct (off_split off) as [Eo Mo]; [lia|].
  set (m := Z.min (n - tot) (BSIZE - off mod BSIZE)).
  assert (Hm : 0 < m <= n - tot /\ m <= BSIZE - off mod BSIZE) by lia.
  set (c := take (Z.to_nat m) src). set (rest := drop (Z.to_nat m) src).
  assert (Hc : Z.of_nat (length c) = m) by (unfold c; rewrite length_take; lia).
  assert (Hrest : Z.of_nat (length rest) = n - (tot + m)) by (unfold rest; rewrite length_drop; lia).
  assert (Hnb : nblocks off (n - tot) = Datatypes.S (nblocks (off + m) (n - (tot + m)))).
  { replace (n - tot) with (m + (n - (tot + m))) by lia. apply nblocks_split; lia. }
  assert (Hu32 : u32 (off + m) = off + m) by (apply u32_small; change MAXFILE with 140 in *; change BSIZE with 512 in *; lia).
  rewrite Hu32.
  assert (Hw : wp (writei_chunk ip c off) (mk_fsst b sb ic pid cwd)
    (fun _ s => wp (writei_loop fuel ip rest (off + m) n (tot + m)) s Q)).
  { apply (wp_writei_chunk _ t _ _ _ _ ip i); try done; [lia|by apply Forall_take|lia|lia|lia|].
    intros b1 t1 addrs1 W1 R1. pose proof (wr_same _ _ _ _ _ _ _ W1) as (Eh & Ecap & _ & Elo & Ehi).
    pose proof (wr_log _ _ _ _ _ _ _ W1) as Hlog. pose proof (wr_free _ _ _ _ _ _ _ W1) as Hfr.
    assert (Hn1 : nblocks off (Z.of_nat (length c)) = 1%nat).
    { rewrite Hc. replace m with (m + 0) by lia. rewrite nblocks_split; try done; lia. }
    eapply (IH _ t1 _ (i <| i_addrs := addrs1 |>)); try done; try lia.
    - congruence.
    - apply (wr_geom _ _ _ _ _ _ _ W1).
    - by apply set_addrs_lookup.
    - apply (wr_ok _ _ _ _ _ _ _ W1).
    - by apply Forall_drop.
    - simpl. lia.
    - simpl. lia.
    - intros b2 t2 addrs2 W2 R2. rewrite set_addrs_twice.
      replace (off + m + (n - (tot + m))) with (off + (n - tot)) by lia. apply (HQ b2 t2); [|done].
      rewrite <- (take_drop (Z.to_nat m) src). fold c rest. rewrite <- Hc in W2.
      eapply wrote_trans; try done; [lia|]. rewrite length_app. rewrite Hn1, Hc, Hrest.
      replace (Z.of_nat (length c + length rest)) with (n - tot) by lia. by rewrite Hnb. }
  unfold writei_chunk in Hw.
  repeat (fs_step; apply wp_bind_inv in Hw; eapply wp_conseq; [exact Hw|]; clear Hw; intros ? ? Hw).
  fs_step. exact Hw.
Qed.
End writei.

(** ** On-disk inodes *)

Definition disk_inode (sb : superblock) (t : txn) (inum : Z) : dinode :=
  get_dinode (t_view t (IBLOCK inum sb)) inum.

Lemma iblock_range sb t inum :
  fs_geom sb t -> 2 <= t_lo t -> t_hi t < 2 ^ 31 -> 0 <= inum < sb_ninodes sb ->
  IBLOCK inum sb = inum / IPB + sb_inodestart sb /\ sb_inodestart sb <= IBLOCK inum sb < sb_bmapstart sb.
Proof.
  intros Hg Hlo Hhi Hi. pose proof (meta_bounds _ _ Hg). pose proof (ge_ino_end _ _ Hg). pose proof (ge_ino _ _ Hg).
  unfold IBLOCK. consts.
  assert (0 <= inum / 8 <= sb_ninodes sb / 8) by (split; [apply Z.div_pos; lia|apply Z.div_le_mono; lia]).
  rewrite u32_small by lia. lia.
Qed.

Lemma iblock_other sb t i j :
  fs_geom sb t -> 2 <= t_lo t -> t_hi t < 2 ^ 31 -> 0 <= i < sb_ninodes sb -> 0 <= j < sb_ninodes sb ->
  i <> j -> IBLOCK i sb = IBLOCK j sb -> i mod IPB <> j mod IPB.
Proof.
  intros Hg Hlo Hhi Hi Hj Hne He Hm. destruct (iblock_range sb t i) as [E1 _]; try done.
  destruct (iblock_range sb t j) as [E2 _]; try done. apply Hne.
  rewrite (Z.div_mod i IPB), (Z.div_mod j IPB) by done. rewrite Hm. do 2 f_equal. lia.
Qed.

(** Writing a block before the bitmap. *)
Section put_meta.
Context (sb : superblock) (t : txn).
Context (Hg : fs_geom sb t) (Hlo : 2 <= t_lo t) (Hhi : t_hi t < 2 ^ 31).
Context (blk : Z) (d : list Z) (Hb : t_lo t <= blk < sb_bmapstart sb).

Lemma used_meta k : 0 <= k < sb_size sb -> used sb (put_log blk d t) k = used sb t k.
Proof.
  intros Hk. unfold used. simpl. rewrite upd_ne; [done|].
  destruct (bblock_range sb t k) as [_ ?]; try done. lia.
Qed.

Lemma geom_meta : fs_geom sb (put_log blk d t).
Proof.
  pose proof (meta_bounds _ _ Hg). pose proof (ge_end _ _ Hg). pose proof Hg as []. split; try done.
  - simpl. rewrite upd_ne; [done|]. lia.
  - intros k Hk. rewrite used_meta by lia. auto.
Qed.

Lemma view_meta k : is_data sb k -> t_view (put_log blk d t) k = t_view t k.
Proof. intros [Hk _]. apply put_view_ne. pose proof (meta_bounds _ _ Hg). lia. Qed.

Lemma file_meta addrs :
  file_ok sb t addrs ->
  file_ok sb (put_log blk d t) addrs /\
  forall k, block_of (t_view (put_log blk d t)) addrs k = block_of (t_view t) addrs k.
Proof.
  intros Hf.
  assert (Hbo : forall k, block_of (t_view (put_log blk d t)) addrs k = block_of (t_view t) addrs k).
  { intros k. unfold block_of. destruct (Z.eqb_spec (ind_of addrs) 0) as [|Hi]; [done|].
    rewrite view_meta; [done|]. by apply (fo_ind _ _ _ Hf). }
  split; [|exact Hbo]. destruct Hf as [? F1 F2 F3 F4]. split; try done.
  - intros k Hk. rewrite Hbo. intros Hn. destruct (F1 _ Hk Hn) as [Hd ?]. split; [done|].
    pose proof (data_pos _ _ _ Hg Hlo Hd). rewrite used_meta; [done|lia].
  - intros Hn. destruct (F2 Hn) as [Hd ?]. split; [done|].
    pose proof (data_pos _ _ _ Hg Hlo Hd). rewrite used_meta; [done|lia].
  - intros m n Hm Hn. rewrite !Hbo. by apply F3.
  - intros k Hk. rewrite Hbo. by apply F4.
Qed.
End put_meta.

Lemma file_addrs_ok sb t addrs :
  fs_geom sb t -> 2 <= t_lo t -> t_hi t < 2 ^ 31 -> file_ok sb t addrs -> Forall uint_ok addrs.
Proof.
  intros Hg Hlo Hhi Hf. pose proof (ge_size _ _ Hg). apply Forall_lookup. intros n a Ha.
  pose proof (lookup_lt_Some _ _ _ Ha) as Hn. rewrite (fo_len _ _ _ Hf) in Hn.
  destruct (decide (a = 0)) as [->|Ha0]; [done|].
  assert (is_data sb a) as Hd; [|pose proof (data_pos _ _ _ Hg Hlo Hd); unfold uint_ok; lia].
  destruct (decide (n = 12%nat)) as [->|].
  - assert (ind_of addrs = a) as <- by by apply list_lookup_total_correct. by apply (fo_ind _ _ _ Hf).
  - assert (block_of (t_view t) addrs (Z.of_nat n) = a) as <-.
    { unfold block_of. rewrite (proj2 (Z.ltb_lt _ _)) by (consts; lia). rewrite Nat2Z.id. by apply list_lookup_total_correct. }
    apply (fo_block _ _ _ Hf); [consts; lia|done].
Qed.

(** The transaction after [iupdate] of inode [i]. *)
Definition iupdate_txn (sb : superblock) (i : inode) (t : txn) : txn :=
  put_log (IBLOCK (i_inum i) sb) (set_dinode (t_view t (IBLOCK (i_inum i) sb)) (i_inum i) (dinode_of i)) t.

Lemma iupdate_disk sb t i j :
  fs_geom sb t -> 2 <= t_lo t -> t_hi t < 2 ^ 31 -> (forall k, 0 <= k < t_hi t -> block_ok (t_view t k)) ->
  dinode_ok (dinode_of i) -> 0 <= i_inum i < sb_ninodes sb -> 0 <= j < sb_ninodes sb ->
  disk_inode sb (iupdate_txn sb i t) j = if j =? i_inum i then dinode_of i else disk_inode sb t j.
Proof.
  intros Hg Hlo Hhi Hok Hdi Hi Hj. unfold disk_inode, iupdate_txn. pose proof (meta_bounds _ _ Hg).
  destruct (iblock_range sb t (i_inum i)) as [_ Hr]; try done. pose proof (ge_ino _ _ Hg).
  destruct (Hok (IBLOCK (i_inum i) sb)) as [Hl _]; [lia|].
  destruct (Z.eqb_spec j (i_inum i)) as [->|Hne].
  - rewrite put_log_at. by apply get_set_dinode.
  - destruct (decide (IBLOCK j sb = IBLOCK (i_inum i) sb)) as [E|E].
    + rewrite E, put_log_at. apply get_set_dinode_other; [done|apply Hdi|].
      by apply (iblock_other sb t); try done; congruence.
    + by rewrite put_view_ne.
Qed.

Section iupdate.
Context {S : Type} `{!BlockOps S} `{!BlockLayer S} `{!DevOps S}.
Implicit Types (b : S) (t : txn) (sb : superblock) (ic : list inode).

Lemma wp_iupdate b t sb ic pid cwd ip i Q :
  bl_rep b t -> t_held t !! IBLOCK (i_inum i) sb = None -> (size (t_held t) < MAXHELD)%nat ->
  fs_geom sb t -> ic !! ip = Some i -> i_dev i = ROOTDEV ->
  0 <= i_inum i < sb_ninodes sb -> length (i_addrs i) = 13%nat -> loggable (IBLOCK (i_inum i) sb) t ->
  (forall b', bl_rep b' (iupdate_txn sb i t) -> Q () (mk_fsst b' sb ic pid cwd)) ->
  wp (iupdate ip) (mk_fsst b sb ic pid cwd) Q.
Proof.
  intros Hr Hh Hsz Hg Hi Hdev Hin Hlen Hlog HQ. unfold iupdate. do 4 fs_step.
  rewrite (list_lookup_total_correct _ _ _ Hi), Hdev. destruct (bl_bound _ _ Hr) as [[Hlo Hlh] Hhi].
  destruct (iblock_range sb t (i_inum i)) as [_ Hb]; try done. set (blk := IBLOCK (i_inum i) sb) in *.
  pose proof (meta_bounds _ _ Hg). pose proof (ge_ino _ _ Hg).
  fs_step. apply (wp_fbread _ t); [done|lia|done|done|].
  intros bp b2 R2. fs_step. eapply (wp_fdata _ _ _ _ _ _ blk bp false _ R2); [held_tac|].
  change (t_view (hold _ _ _ t)) with (t_view t).
  fs_step. eapply (wp_fset _ _ _ _ _ _ blk bp false _ _ R2); [held_tac|simpl; lia| |].
  { apply set_dinode_ok; [apply (bl_ok _ _ _ Hr); lia|done]. }
  intros b3 R3. fs_step. eapply (wp_flog_write _ _ _ _ _ _ blk bp true _ R3); [held_tac|simpl; lia|done|].
  intros b4 R4. eapply (wp_fbrelse _ _ _ _ _ _ blk bp _ R4); [held_tac|]. intros b5 R5.
  rewrite release_write in R5 by done. by apply HQ.
Qed.
End iupdate.

(** ** [writei] *)

Definition new_size (i : inode) (off n : Z) : Z :=
  if (n >? 0) && (off + n >? i_size i) then off + n else i_size i.

(** The inode after [n] bytes were written at [off]. *)
Definition written (i : inode) (off n : Z) (addrs : list Z) : inode :=
  i <| i_addrs := addrs |> <| i_size := new_size i off n |>.

(** What [writei] of [src] at [off] does to the transaction [t]. *)
Record writei_post (sb : superblock) (t : txn) (i : inode) (off : Z) (src : list Z)
    (t' : txn) (i' : inode) : Prop := {
  wp_inode : exists addrs, i' = written i off (Z.of_nat (length src)) addrs;
  wp_ok : inode_ok sb t' i';
  wp_geom : fs_geom sb t';
  wp_same : same_frame t t';
  wp_bytes : forall p, 0 <= p < i_size i' ->
    file_byte (t_view t') (i_addrs i') p =
      if (off <=? p) && (p <? off + Z.of_nat (length src)) then src !!! Z.to_nat (p - off)
      else file_byte (t_view t) (i_addrs i) p;
  wp_frame : forall k, 0 < k < sb_size sb -> used sb t k = true -> k ∉ bmap_set sb ->
    ~ own t (i_addrs i) k -> k <> IBLOCK (i_inum i) sb -> t_view t' k = t_view t k;
  wp_used : forall k, 0 <= k < sb_size sb -> used sb t k = true -> used sb t' k = true;
  wp_new : forall k, own t' (i_addrs i') k -> own t (i_addrs i) k \/ used sb t k = false;
  wp_disk : disk_inode sb t (i_inum i) = dinode_of i -> disk_inode sb t' (i_inum i) = dinode_of i';
  wp_others : forall j, 0 <= j < sb_ninodes sb -> j <> i_inum i -> disk_inode sb t' j = disk_inode sb t j;
  wp_free : (size (free_set sb t) + ind_need (i_addrs i') <=
             size (free_set sb t') + ind_need (i_addrs i) + nblocks off (Z.of_nat (length src)))%nat
}.

(** Inode and bitmap blocks are nobody's file blocks. *)
Lemma meta_not_own sb t addrs k : fs_geom sb t -> file_ok sb t addrs -> k < data_start sb -> ~ own t addrs k.
Proof. intros Hg Hf Hk Ho. destruct (own_data _ _ _ _ Hf Ho). lia. Qed.

Lemma wrote_disk sb t addrs off src t' addrs' j :
  fs_geom sb t -> 2 <= t_lo t -> t_hi t < 2 ^ 31 -> file_ok sb t addrs ->
  wrote sb t addrs off src t' addrs' -> 0 <= j < sb_ninodes sb -> disk_inode sb t' j = disk_inode sb t j.
Proof.
  intros Hg Hlo Hhi Hf W Hj. unfold disk_inode. f_equal.
  destruct (iblock_range sb t j) as [_ Hr]; try done. pose proof (meta_bounds _ _ Hg). pose proof (ge_ino _ _ Hg).
  pose proof (ge_end _ _ Hg). apply (wr_view _ _ _ _ _ _ _ W); [lia|apply (ge_meta _ _ Hg); lia| |].
  - unfold bmap_set. rewrite elem_of_list_to_set, elem_of_seqZ. lia.
  - apply (meta_not_own sb); [done|done|lia].
Qed.

Section written.
Context (sb : superblock) (t : txn) (i : inode) (off : Z) (src : list Z) (t1 : txn) (addrs : list Z).
Context (Hg : fs_geom sb t) (Hlo : 2 <= t_lo t) (Hhi : t_hi t < 2 ^ 31).
Context (Hi : inode_ok sb t i) (W : wrote sb t (i_addrs i) off src t1 addrs).
Context (Hoff : 0 <= off <= i_size i) (Hmax : off + Z.of_nat (length src) <= MAXFILE * BSIZE).

Let n := Z.of_nat (length src).
Let i' := written i off n addrs.

Lemma written_size : i_size i' = Z.max (i_size i) (off + n) \/ n = 0.
Proof.
  unfold i', written, new_size. simpl. destruct (Z.gtb_spec n 0), (Z.gtb_spec (off + n) (i_size i)); cbn [andb]; lia.
Qed.

Lemma written_size_bound : i_size i <= i_size i' <= Z.max (i_size i) (off + n).
Proof.
  unfold i', written, new_size. simpl. destruct (Z.gtb_spec n 0), (Z.gtb_spec (off + n) (i_size i)); cbn [andb]; lia.
Qed.

Lemma written_holes : no_holes (t_view t1) addrs (i_size i').
Proof.
  intros bn Hbn Hlt. pose proof (io_size _ _ _ Hi). pose proof written_size_bound.
  assert (Hr : 0 <= bn < MAXFILE) by (change BSIZE with 512 in *; change MAXFILE with 140 in *; lia).
  destruct (decide (bn * BSIZE < i_size i)) as [Hold|Hnew].
  - pose proof (io_holes _ _ _ Hi bn Hbn Hold) as Hnz. by rewrite (wr_map _ _ _ _ _ _ _ W).
  - pose proof (wr_alloc _ _ _ _ _ _ _ W (bn * BSIZE)) as Ha. rewrite Z.div_mul in Ha by done. apply Ha.
    fold n. lia.
Qed.

Lemma written_bytes p :
  0 <= p < i_size i' ->
  file_byte (t_view t1) addrs p =
    if (off <=? p) && (p <? off + n) then src !!! Z.to_nat (p - off) else file_byte (t_view t) (i_addrs i) p.
Proof.
  intros Hp. pose proof (io_size _ _ _ Hi). pose proof written_size_bound.
  assert (Hr : 0 <= p < MAXFILE * BSIZE) by (unfold n in *; lia).
  destruct (off_split p) as [Ep Mp]; [lia|]. change BSIZE with 512 in *.
  rewrite (wr_bytes _ _ _ _ _ _ _ W) by (first [done | apply written_holes; change BSIZE with 512; lia]).
  fold n. change BSIZE with 512.
  destruct ((off <=? p) && (p <? off + n)) eqn:E; [done|].
  destruct (Z.eqb_spec (block_of (t_view t) (i_addrs i) (p / 512)) 0) as [E0|]; [|done].
  exfalso. apply (io_holes _ _ _ Hi (p / 512)); [apply Z.div_pos; lia| |done]. change BSIZE with 512.
  apply andb_false_iff in E as [E%Z.leb_gt|E%Z.ltb_ge]; lia.
Qed.

(** The block map changes only if the file grows. *)
Lemma written_stable : new_size i off n = i_size i -> addrs = i_addrs i.
Proof.
  intros Hs. apply (wr_stable _ _ _ _ _ _ _ W). fold n. intros p Hp.
  destruct (off_split p) as [Ep Mp]; [lia|].
  apply (io_holes _ _ _ Hi); [apply Z.div_pos; [lia|done]|].
  assert (p < i_size i); [|change BSIZE with 512 in *; lia].
  unfold new_size in Hs. destruct (Z.gtb_spec n 0), (Z.gtb_spec (off + n) (i_size i)); cbn [andb] in *; lia.
Qed.

Lemma written_same : new_size i off n = i_size i -> i' = i.
Proof.
  intros Hs. unfold i', written. rewrite Hs, (written_stable Hs). by destruct i.
Qed.

Lemma written_ok : inode_ok sb t1 i'.
Proof.
  pose proof (io_size _ _ _ Hi). pose proof written_size_bound.
  split; [apply (io_dev _ _ _ Hi)|apply (wr_ok _ _ _ _ _ _ _ W)|unfold n in *; lia|apply written_holes].
Qed.

Context (Hin : 0 <= i_inum i < sb_ninodes sb) (Hdi : dinode_ok (dinode_of i)).

(** The file did not grow: nothing but its data changed. *)
Lemma post_in_place : new_size i off n = i_size i -> writei_post sb t i off src t1 i'.
Proof.
  intros Hs. pose proof (io_file _ _ _ Hi) as Hf. split; try apply W.
  - by exists addrs.
  - apply written_ok.
  - intros p Hp. by apply written_bytes.
  - intros k Hk Hu Hb Ho _. by apply (wr_view _ _ _ _ _ _ _ W).
  - rewrite (written_same Hs). intros <-. by apply (wrote_disk sb t (i_addrs i) off src t1 addrs).
  - intros j Hj _. by apply (wrote_disk sb t (i_addrs i) off src t1 addrs).
Qed.

Lemma written_dinode_ok : dinode_ok (dinode_of i').
Proof.
  pose proof (wr_same _ _ _ _ _ _ _ W) as (_ & _ & _ & Elo & Ehi). pose proof written_ok as [_ Hf Hsz _].
  destruct Hdi as (? & ? & ? & ? & _). unfold dinode_ok. simpl. split_and!; try done.
  - unfold uint_ok. simpl in Hsz. change (MAXFILE * BSIZE) with 71680 in Hsz. lia.
  - apply (fo_len _ _ _ Hf).
  - apply (file_addrs_ok sb t1); try done; [apply (wr_geom _ _ _ _ _ _ _ W)|lia|lia].
Qed.

(** The file grew and its inode was written back. *)
Lemma post_grown :
  (forall k, 0 <= k < t_hi t1 -> block_ok (t_view t1 k)) -> writei_post sb t i off src (iupdate_txn sb i' t1) i'.
Proof.
  intros Hok. pose proof (wr_same _ _ _ _ _ _ _ W) as (E1 & E2 & E3 & Elo & Ehi).
  pose proof (wr_geom _ _ _ _ _ _ _ W) as Hg1. pose proof written_ok as [_ Hf1 Hsz1 Hh1].
  destruct (iblock_range sb t (i_inum i) Hg Hlo Hhi Hin) as [_ Hr]. pose proof (meta_bounds _ _ Hg).
  pose proof (ge_ino _ _ Hg). pose proof (ge_end _ _ Hg). pose proof (ge_size _ _ Hg).
  set (d := set_dinode (t_view t1 (IBLOCK (i_inum i') sb)) (i_inum i') (dinode_of i')).
  change (iupdate_txn sb i' t1) with (put_log (IBLOCK (i_inum i) sb) d t1).
  assert (Hb : t_lo t1 <= IBLOCK (i_inum i) sb < sb_bmapstart sb) by lia.
  destruct (file_meta sb t1 Hg1 ltac:(lia) ltac:(lia) _ d Hb _ Hf1) as [Hf2 Hbo].
  assert (Hov : forall k, is_data sb k -> t_view (put_log (IBLOCK (i_inum i) sb) d t1) k = t_view t1 k)
    by (intros; by apply (view_meta sb t1 Hg1)).
  assert (Hown : forall k, own (put_log (IBLOCK (i_inum i) sb) d t1) addrs k <-> own t1 addrs k).
  { intros k. unfold own. split; intros [Hk [?|(m & Hm & Hmb)]]; (split; [done|]); auto;
      right; exists m; (split; [done|]); rewrite <- Hmb; [symmetry|]; apply Hbo. }
  assert (Hdisk : forall j, 0 <= j < sb_ninodes sb ->
    disk_inode sb (put_log (IBLOCK (i_inum i) sb) d t1) j = if j =? i_inum i then dinode_of i' else disk_inode sb t1 j).
  { intros j Hj. apply (iupdate_disk sb t1 i' j); try done; [lia|lia|apply written_dinode_ok]. }
  split.
  - by exists addrs.
  - split; [apply (io_dev _ _ _ Hi)|done|done|]. intros bn Hbn Hlt. rewrite Hbo. by apply Hh1.
  - apply geom_meta; (done || lia).
  - done.
  - intros p Hp. rewrite <- written_bytes by done. unfold file_byte. f_equal. rewrite Hbo. apply Hov.
    destruct (off_split p) as [Ep Mp]; [lia|].
    assert (0 <= p / BSIZE) by (apply Z.div_pos; [lia|done]).
    assert (block_of (t_view t1) addrs (p / BSIZE) <> 0) by (apply Hh1; lia).
    apply (fo_block _ _ _ Hf1); [|done]. split; [done|]. apply Z.div_lt_upper_bound; [done|]. lia.
  - intros k Hk Hu Hbm Ho Hne. rewrite put_view_ne by done. by apply (wr_view _ _ _ _ _ _ _ W).
  - intros k Hk Hu. rewrite (used_meta sb t1 Hg1) by (done || lia). by apply (wr_used _ _ _ _ _ _ _ W).
  - intros k Hk%Hown. by apply (wr_new _ _ _ _ _ _ _ W).
  - intros _. rewrite Hdisk by done. by rewrite Z.eqb_refl.
  - intros j Hj Hne. rewrite Hdisk, (proj2 (Z.eqb_neq _ _) Hne) by done.
    apply (wrote_disk sb t (i_addrs i) off src t1 addrs); try done. apply (io_file _ _ _ Hi).
  - assert (free_set sb (put_log (IBLOCK (i_inum i) sb) d t1) = free_set sb t1) as ->; [|apply (wr_free _ _ _ _ _ _ _ W)].
    apply set_eq. intros k. rewrite !free_set_elem. split; intros [Hk Hn]; (split; [done|]);
      rewrite (used_meta sb t1 Hg1) in * by (done || lia); done.
Qed.
End written.

(** Log and disk space for writing [n] bytes at [off] to a file. *)
Definition write_room (sb : superblock) (t : txn) (addrs : list Z) (off n : Z) : Prop :=
  (size (lset sb t) + ind_cost t addrs + nblocks off n + 1 <= t_cap t)%nat /\
  (ind_need addrs + nblocks off n <= size (free_set sb t))%nat.

Section writei_wp.
Context {S : Type} `{!BlockOps S} `{!BlockLayer S} `{!DevOps S}.
Implicit Types (b : S) (t : txn) (sb : superblock) (ic : list inode).

Lemma wp_writei b t sb ic pid cwd ip i src off n Q :
  bl_rep b t -> t_held t = ∅ -> fs_geom sb t -> ic !! ip = Some i -> inode_ok sb t i ->
  i_type i <> T_DEV -> 0 <= i_inum i < sb_ninodes sb -> dinode_ok (dinode_of i) ->
  Forall byte_ok src -> Z.of_nat (length src) = n -> 0 <= off <= i_size i -> off + n <= MAXFILE * BSIZE ->
  write_room sb t (i_addrs i) off n ->
  (forall b' t' i', writei_post sb t i off src t' i' -> bl_rep b' t' ->
     Q n (mk_fsst b' sb (<[ip := i']> ic) pid cwd)) ->
  wp (writei ip src off n) (mk_fsst b sb ic pid cwd) Q.
Proof.
  intros Hr Hh Hg Hi Hio Hty Hin Hdi Hby <- Hoff Hmax [Hroom Hfree] HQ. unfold writei.
  set (n := Z.of_nat (length src)) in *.
  destruct (bl_bound _ _ Hr) as [[Hlo Hlh] Hhi]. pose proof Hio as [Hdev Hf Hsz Hnh].
  do 2 fs_step. rewrite (list_lookup_total_correct _ _ _ Hi), (proj2 (Z.eqb_neq _ _) Hty).
  assert (Hu : u32 (off + n) = off + n) by (apply u32_small; change MAXFILE with 140 in *; change BSIZE with 512 in *; lia).
  rewrite Hu, Z.gtb_ltb, (proj2 (Z.ltb_ge (i_size i) off)), (proj2 (Z.ltb_ge (off + n) off)) by lia. cbn [orb].
  rewrite Z.gtb_ltb, (proj2 (Z.ltb_ge (MAXFILE * BSIZE) (off + n))) by lia.
  fs_step. apply (wp_writei_loop _ _ t _ _ _ _ ip i); rewrite ?Z.sub_0_r; try done; try lia.
  intros b1 t1 addrs W R1. do 2 fs_step.
  pose proof (set_addrs_lookup ip i addrs ic Hi) as Hi1. rewrite (list_lookup_total_correct _ _ _ Hi1).
  change (i_size (i <| i_addrs := addrs |>)) with (i_size i).
  pose proof (wr_same _ _ _ _ _ _ _ W) as (E1 & E2 & _ & Elo & Ehi).
  assert (Hw : <[ip := written i off n addrs]> ic = <[ip := written i off n addrs]> (set_addrs ip i addrs ic)).
  { unfold set_addrs. by rewrite list_insert_insert_eq. }
  destruct ((n >? 0) && (off + n >? i_size i)) eqn:Hgrow; unfold when.
  - assert (Hns : new_size i off n = off + n) by (unfold new_size; by rewrite Hgrow).
    fs_step. do 2 fs_step. rewrite (list_lookup_total_correct _ _ _ Hi1).
    assert (Hw2 : <[ip := i <| i_addrs := addrs |> <| i_size := off + n |>]> (set_addrs ip i addrs ic)
      = <[ip := written i off n addrs]> ic).
    { rewrite Hw. f_equal. unfold written. by rewrite Hns. }
    rewrite Hw2. apply (wp_iupdate _ t1 _ _ _ _ ip (written i off n addrs)); try done.
    + by rewrite E1, Hh.
    + rewrite E1, Hh, map_size_empty. unfold MAXHELD. lia.
    + apply (wr_geom _ _ _ _ _ _ _ W).
    + apply list_lookup_insert_eq. by apply lookup_lt_Some in Hi.
    + apply (fo_len _ _ _ (wr_ok _ _ _ _ _ _ _ W)).
    + unfold loggable. pose proof (wr_log _ _ _ _ _ _ _ W) as Hlog. fold n in Hlog.
      transitivity (size ({[IBLOCK (i_inum i) sb]} ∪ lset sb t1)); [apply subseteq_size; unfold lset; set_solver|].
      pose proof (size_add (lset sb t1) (IBLOCK (i_inum i) sb)). lia.
    + intros b2 R2. apply wp_ret. eapply HQ; [|exact R2].
      apply post_grown; try done. intros k Hk. by apply (bl_ok _ _ _ R1).
  - fs_step. do 2 apply wp_ret.
    assert (Hns : new_size i off n = i_size i) by (unfold new_size; by rewrite Hgrow).
    assert (Hw2 : set_addrs ip i addrs ic = <[ip := written i off n addrs]> ic).
    { unfold set_addrs. f_equal. unfold written. rewrite Hns. by destruct i. }
    rewrite Hw2. eapply HQ; [|exact R1]. by apply post_in_place.
Qed.
End writei_wp.

Lemma list_eq_total (l l' : list Z) :
  length l = length l' -> (forall k, (k < length l)%nat -> l !!! k = l' !!! k) -> l = l'.
Proof.
  intros Hl H. apply list_eq_same_length with (length l); try done. intros k x y Hk Hx Hy.
  specialize (H k Hk). by rewrite (list_lookup_total_correct _ _ _ Hx), (list_lookup_total_correct _ _ _ Hy) in H.
Qed.

(** The whole contents after [writei], as a byte list. *)
Lemma writei_post_bytes sb t i off src t' i' :
  writei_post sb t i off src t' i' -> inode_ok sb t i -> 0 <= off <= i_size i ->
  file_bytes (t_view t') (i_addrs i') 0 (i_size i') =
  splice (file_bytes (t_view t) (i_addrs i) 0 (i_size i)) (Z.to_nat off) src.
Proof.
  intros [[addrs Ei] Hok' _ _ Hb _ _ _ _ _ _] Hio Hoff. pose proof (io_size _ _ _ Hio).
  assert (Hsz : i_size i' = Z.max (i_size i) (off + Z.of_nat (length src)) \/ length src = 0%nat /\ i_size i' = i_size i).
  { rewrite Ei. unfold written, new_size. simpl.
    destruct (Z.gtb_spec (Z.of_nat (length src)) 0), (Z.gtb_spec (off + Z.of_nat (length src)) (i_size i)); cbn [andb]; lia. }
  assert (Hls : length (splice (file_bytes (t_view t) (i_addrs i) 0 (i_size i)) (Z.to_nat off) src) = Z.to_nat (i_size i')).
  { unfold splice. rewrite !length_app, length_take, length_drop, file_bytes_length. lia. }
  apply list_eq_total; rewrite file_bytes_length; [by rewrite Hls|]. intros k Hk.
  assert (Hkz : 0 <= Z.of_nat k < i_size i') by lia.
  rewrite <- (Nat2Z.id k), file_bytes_lookup, Z.add_0_l, Hb, Nat2Z.id by lia. unfold splice.
  destruct (Z.leb_spec off (Z.of_nat k)) as [H1|H1]; cbn [andb].
  - rewrite lookup_total_app_r by (rewrite length_take, file_bytes_length; lia).
    rewrite length_take, file_bytes_length, Nat.min_l by lia.
    destruct (Z.ltb_spec (Z.of_nat k) (off + Z.of_nat (length src))) as [H2|H2].
    + rewrite lookup_total_app_l by lia. f_equal. lia.
    + rewrite lookup_total_app_r, lookup_total_drop by lia.
      rewrite <- (Z.add_0_l (Z.of_nat k)), <- (file_bytes_lookup _ _ _ (i_size i)) by lia. f_equal. lia.
  - rewrite lookup_total_app_l by (rewrite length_take, file_bytes_length; lia).
    rewrite lookup_total_take_lt by lia. rewrite <- (Z.add_0_l (Z.of_nat k)), <- (file_bytes_lookup _ _ _ (i_size i)) by lia.
    f_equal. lia.
Qed.

Section properties.
Context {S : Type} `{!BlockOps S} `{!BlockLayer S} `{!DevOps S}.
Implicit Types (b : S) (t : txn) (sb : superblock) (ic : list inode).

(** [bmap] returns the disk block of block [bn] of a file, allocating it
    (and the indirect block) when it is missing.  An existing block is found
    without any change; a new one is a zeroed block that was free.  The block
    map changes at [bn] only, and no block in use changes except the bitmap
    and the file's own indirect block. *)
Theorem bmap_correct b t sb ic pid cwd ip i bn :
  bl_rep b t -> t_held t = ∅ -> fs_geom sb t -> ic !! ip = Some i -> i_dev i = ROOTDEV ->
  file_ok sb t (i_addrs i) -> 0 <= bn < MAXFILE ->
  (size (lset sb t) + ind_cost t (i_addrs i) + 1 <= t_cap t)%nat ->
  (ind_need (i_addrs i) + 1 <= size (free_set sb t))%nat ->
  exists a b' t' addrs', bmap ip bn (mk_fsst b sb ic pid cwd) = Ok a (mk_fsst b' sb (set_addrs ip i addrs' ic) pid cwd) /\
    bl_rep b' t' /\ file_ok sb t' addrs' /\ fs_geom sb t' /\ a <> 0 /\
    (forall k, 0 <= k < MAXFILE ->
       block_of (t_view t') addrs' k = if k =? bn then a else block_of (t_view t) (i_addrs i) k) /\
    (if block_of (t_view t) (i_addrs i) bn =? 0 then used sb t a = false /\ t_view t' a = zero_block
     else a = block_of (t_view t) (i_addrs i) bn /\ t' = t) /\
    (forall k, 0 <= k < sb_size sb -> used sb t k = true -> k ∉ bmap_set sb -> k <> ind_of (i_addrs i) ->
       t_view t' k = t_view t k).
Proof.
  intros Hr Hh Hg Hi Hdev Hf Hbn Hroom Hfree.
  assert (H : wp (bmap ip bn) (mk_fsst b sb ic pid cwd) (fun a s => exists b' t' addrs',
    s = mk_fsst b' sb (set_addrs ip i addrs' ic) pid cwd /\ bl_rep b' t' /\ bmap_post sb t (i_addrs i) bn a t' addrs')).
  { apply (wp_bmap _ t _ _ _ _ ip i); try done. intros. eauto 10. }
  apply wp_elim in H as (a & s & Hrun & b' & t' & addrs' & -> & Hr' & [Hgr Hnz Hmap Hold Hnew _ _]).
  exists a, b', t', addrs'. destruct Hgr as [Hok' Hg' _ Hv _ _ _ Hn _].
  split; [exact Hrun|]. clear Hrun. split_and!; try done.
  destruct (Z.eqb_spec (block_of (t_view t) (i_addrs i) bn) 0) as [E0|Hne].
  - by apply Hnew.
  - by destruct (Hold Hne) as (-> & -> & _).
Qed.

(** [readi] of an ordinary file returns -1 for an offset past the end or an
    [off + n] that wraps around, and otherwise exactly the bytes of the file
    from [off] on, up to [n] of them or the end of the file; it changes
    nothing. *)
Theorem readi_correct b t sb ic pid cwd ip i off n :
  bl_rep b t -> t_held t = ∅ -> fs_geom sb t -> ic !! ip = Some i -> inode_ok sb t i ->
  i_type i <> T_DEV -> 0 <= off < 2 ^ 32 -> 0 <= n < 2 ^ 32 ->
  exists b', bl_rep b' t /\
    readi ip off n (mk_fsst b sb ic pid cwd) =
      Ok (if (off >? i_size i) || (2 ^ 32 <=? off + n) then (-1, [])
          else let k := Z.min n (i_size i - off) in (k, file_bytes (t_view t) (i_addrs i) off k))
         (mk_fsst b' sb ic pid cwd).
Proof.
  intros Hr Hh Hg Hi Hio Hty Hoff Hn.
  assert (H : wp (readi ip off n) (mk_fsst b sb ic pid cwd) (fun r s => exists b',
    r = readi_result (t_view t) i off n /\ s = mk_fsst b' sb ic pid cwd /\ bl_rep b' t)).
  { apply (wp_readi _ t _ _ _ _ ip i); try done. eauto. }
  apply wp_elim in H as (r & s & Hrun & b' & -> & -> & Hr'). exists b'. split; [exact Hr'|]. rewrite Hrun.
  unfold readi_result. clear Hrun. replace (u32 (off + n) <? off) with (2 ^ 32 <=? off + n); [done|].
  destruct (Z.leb_spec (2 ^ 32) (off + n)) as [Hov|Hno]; symmetry.
  - apply Z.ltb_lt. unfold u32. replace ((off + n) mod 2 ^ 32) with (off + n - 2 ^ 32); [lia|].
    apply (Z.mod_unique _ _ 1); lia.
  - apply Z.ltb_ge. rewrite u32_small by lia. lia.
Qed.

(** C6: [writei] writes all its bytes: the file then reads as its old contents
    with [src] at [off], its size grown when it must, its on-disk inode equal
    to the one in memory; other files' inodes, and every block in use that is
    neither the file's nor the bitmap's nor the inode block, keep their
    contents, and the blocks the file gained were free. *)
Theorem writei_correct b t sb ic pid cwd ip i src off n :
  bl_rep b t -> t_held t = ∅ -> fs_geom sb t -> ic !! ip = Some i -> inode_ok sb t i ->
  i_type i <> T_DEV -> 0 <= i_inum i < sb_ninodes sb -> dinode_ok (dinode_of i) ->
  disk_inode sb t (i_inum i) = dinode_of i ->
  Forall byte_ok src -> Z.of_nat (length src) = n -> 0 <= off <= i_size i -> off + n <= MAXFILE * BSIZE ->
  write_room sb t (i_addrs i) off n ->
  exists b' t' i', writei ip src off n (mk_fsst b sb ic pid cwd) = Ok n (mk_fsst b' sb (<[ip := i']> ic) pid cwd) /\
    bl_rep b' t' /\ inode_ok sb t' i' /\ fs_geom sb t' /\
    i_size i' = Z.max (i_size i) (if n =? 0 then 0 else off + n) /\
    file_bytes (t_view t') (i_addrs i') 0 (i_size i') =
      splice (file_bytes (t_view t) (i_addrs i) 0 (i_size i)) (Z.to_nat off) src /\
    disk_inode sb t' (i_inum i) = dinode_of i' /\
    (forall j, 0 <= j < sb_ninodes sb -> j <> i_inum i -> disk_inode sb t' j = disk_inode sb t j) /\
    (forall k, 0 < k < sb_size sb -> used sb t k = true -> k ∉ bmap_set sb ->
       ~ own t (i_addrs i) k -> k <> IBLOCK (i_inum i) sb -> t_view t' k = t_view t k) /\
    (forall k, own t' (i_addrs i') k -> own t (i_addrs i) k \/ used sb t k = false).
Proof.
  intros Hr Hh Hg Hi Hio Hty Hin Hdi Hdisk Hby Hlen Hoff Hmax Hroom.
  assert (H : wp (writei ip src off n) (mk_fsst b sb ic pid cwd) (fun r s => exists b' t' i',
    r = n /\ s = mk_fsst b' sb (<[ip := i']> ic) pid cwd /\ bl_rep b' t' /\ writei_post sb t i off src t' i')).
  { apply (wp_writei _ t _ _ _ _ ip i); try done. eauto 10. }
  apply wp_elim in H as (r & s & Hrun & b' & t' & i' & -> & -> & Hr' & Hp).
  exists b', t', i'. split; [exact Hrun|]. clear Hrun. pose proof Hp as [[addrs Ei] Hok' Hg' _ Hb Hfr _ Hnew Hd Hoth _].
  split_and!; try done; [| |by apply Hd].
  - rewrite Ei, Hlen. unfold written, new_size. simpl. pose proof (io_size _ _ _ Hio).
    destruct (Z.gtb_spec n 0), (Z.gtb_spec (off + n) (i_size i)), (Z.eqb_spec n 0); cbn [andb]; lia.
  - by apply writei_post_bytes with sb.
Qed.
End properties.
