(* ===== verification/FsDir.v ===== *)
(** Directories and path names ([iget], [dirlookup], [dirlink], [skipelem] of
    [fs.c]): a directory is a list of entries.  Then path names as lists
    of elements, and the lock of an inode whose contents are in memory. *)

From S2P Require Import Prelude CString Layout Sleeplock BlockLayer Fs FsBlock FsFile FsRW.

(** ** The inode cache *)

(** At most one slot in use per inode, and no negative count. *)
Record icache_ok (ic : list inode) : Prop := {
  ic_refs : forall p i, ic !! p = Some i -> 0 <= i_ref i;
  ic_uniq : forall p q i j, ic !! p = Some i -> ic !! q = Some j -> 0 < i_ref i -> 0 < i_ref j ->
     i_dev i = i_dev j -> i_inum i = i_inum j -> p = q
}.

Definition caches (dev inum : Z) (i : inode) : bool := (i_ref i >? 0) && (i_dev i =? dev) && (i_inum i =? inum).

Lemma caches_true dev inum i : caches dev inum i = true <-> 0 < i_ref i /\ i_dev i = dev /\ i_inum i = inum.
Proof.
  unfold caches. rewrite !andb_true_iff, !Z.eqb_eq, Z.gtb_lt. tauto.
Qed.

(** The table after [iget]: the slot found, or a free slot set up, or none. *)
Definition iget_slot (dev inum : Z) (ic : list inode) : option (nat * inode) :=
  match find_idx (caches dev inum) ic with
  | Some p => let i := ic !!! p in Some (p, i <| i_ref := i_ref i + 1 |>)
  | None =>
      match find_idx (fun i => i_ref i =? 0) ic with
      | Some p => Some (p, (ic !!! p) <| i_dev := dev |> <| i_inum := inum |> <| i_ref := 1 |> <| i_valid := false |>)
      | None => None
      end
  end.

Lemma find_idx_total (f : inode -> bool) ic p :
  find_idx f ic = Some p -> ic !! p = Some (ic !!! p) /\ f (ic !!! p) = true.
Proof.
  intros [(x & Hx & Hf) _]%find_idx_Some. rewrite (list_lookup_total_correct _ _ _ Hx). done.
Qed.

(** [iget] keeps the cache consistent: the inode it returns is the only slot in
    use for that inode number, with one more reference. *)
Lemma iget_slot_ok dev inum ic p i :
  icache_ok ic -> iget_slot dev inum ic = Some (p, i) ->
  icache_ok (<[p := i]> ic) /\ (p < length ic)%nat /\ i_dev i = dev /\ i_inum i = inum /\ 0 < i_ref i /\
  forall q j, q <> p -> ic !! q = Some j -> 0 < i_ref j -> ~ (i_dev j = dev /\ i_inum j = inum).
Proof.
  intros [Hnn Hu] H. unfold iget_slot in H.
  destruct (find_idx (caches dev inum) ic) as [q|] eqn:Hf.
  - injection H as -> <-. apply find_idx_total in Hf as [Hp (Hr & Hd & Hn)%caches_true].
    set (i0 := ic !!! p) in *. assert (Hlt := lookup_lt_Some _ _ _ Hp).
    assert (Hother : forall q j, q <> p -> ic !! q = Some j -> 0 < i_ref j -> ~ (i_dev j = dev /\ i_inum j = inum)).
    { intros q j Hne Hq Hrj [E1 E2]. apply Hne, (Hu q p j i0); try done; congruence. }
    split_and!; simpl; try done; try lia. split.
    + intros q j. rewrite list_lookup_insert. case_decide as E; [intros [= <-]; simpl; lia|apply Hnn].
    + intros q r jq jr. rewrite !list_lookup_insert. case_decide as E1; case_decide as E2; try (intuition congruence).
      * destruct E1 as [<- _]. intros [= <-] Hjr _ Hr' Ed En. simpl in *. exfalso.
        apply (Hother r jr); try done; [intros ->; tauto|]. split; congruence.
      * destruct E2 as [<- _]. intros Hjq [= <-] Hr' _ Ed En. simpl in *. exfalso.
        apply (Hother q jq); try done; [intros ->; tauto|]. split; congruence.
      * apply Hu.
  - destruct (find_idx (fun i => i_ref i =? 0) ic) as [q|] eqn:He; [|done]. injection H as -> <-.
    apply find_idx_total in He as [Hp _]. assert (Hlt := lookup_lt_Some _ _ _ Hp).
    assert (Hother : forall q j, ic !! q = Some j -> 0 < i_ref j -> ~ (i_dev j = dev /\ i_inum j = inum)).
    { intros q j Hq Hrj [E1 E2]. pose proof (proj1 (find_idx_None _ _) Hf _ _ Hq) as Hc.
      by rewrite (proj2 (caches_true dev inum j)) in Hc by done. }
    split_and!; simpl; try done; try lia; [|by intros q j _; apply Hother]. split.
    + intros q j. rewrite list_lookup_insert. case_decide as E; [intros [= <-]; simpl; lia|apply Hnn].
    + intros q r jq jr. rewrite !list_lookup_insert. case_decide as E1; case_decide as E2; try (intuition congruence).
      * destruct E1 as [<- _]. intros [= <-] Hjr _ Hr' Ed En. simpl in *. exfalso. by apply (Hother r jr).
      * destruct E2 as [<- _]. intros Hjq [= <-] Hr' _ Ed En. simpl in *. exfalso. by apply (Hother q jq).
      * apply Hu.
Qed.

Section iget.
Context {S : Type} `{!BlockOps S} `{!BlockLayer S} `{!DevOps S}.
Implicit Types (b : S) (t : txn) (sb : superblock) (ic : list inode).

Lemma iget_run b sb ic pid cwd dev inum :
  iget dev inum (mk_fsst b sb ic pid cwd) =
  match iget_slot dev inum ic with
  | Some (p, i) => Ok p (mk_fsst b sb (<[p := i]> ic) pid cwd)
  | None => Panic "iget: no inodes"
  end.
Proof.
  unfold iget, iget_slot, mbind, M_bind, gets. simpl. fold (caches dev inum).
  destruct (find_idx (caches dev inum) ic); [done|]. by destruct (find_idx _ ic).
Qed.
End iget.

Section ilocks.
Context {S : Type} `{!BlockOps S} `{!BlockLayer S} `{!DevOps S}.
Implicit Types (b : S) (sb : superblock) (ic : list inode).

Lemma wp_ilock_acquire b sb ic pid cwd ip i p (Q : () -> fsst S -> Prop) :
  ic !! ip = Some i -> sl_locked (i_lock i) = false ->
  Q () (mk_fsst b sb (<[ip := i <| i_lock := mk_sleeplock true p |>]> ic) pid cwd) ->
  wp (on_ilock ip (acquiresleep p)) (mk_fsst b sb ic pid cwd) Q.
Proof.
  intros Hi Hl HQ. apply wp_zoom. cbn [fs_icache]. rewrite (list_lookup_total_correct _ _ _ Hi).
  destruct (i_lock i) as [lk lp] eqn:El. simpl in Hl. subst lk. apply wp_run. eexists _, _. split; [reflexivity|].
  unfold with_ip, set_field. cbn. rewrite (list_lookup_total_correct _ _ _ Hi). exact HQ.
Qed.

Lemma wp_ilock_release b sb ic pid cwd ip i (Q : () -> fsst S -> Prop) :
  ic !! ip = Some i ->
  Q () (mk_fsst b sb (<[ip := i <| i_lock := mk_sleeplock false 0 |>]> ic) pid cwd) ->
  wp (on_ilock ip releasesleep) (mk_fsst b sb ic pid cwd) Q.
Proof.
  intros Hi HQ. apply wp_zoom. cbn [fs_icache]. rewrite (list_lookup_total_correct _ _ _ Hi).
  apply wp_run. eexists _, _. split; [reflexivity|].
  unfold with_ip, set_field. cbn. rewrite (list_lookup_total_correct _ _ _ Hi). exact HQ.
Qed.
End ilocks.

(** ** Directories *)

(** Entry [j] of a directory, and all of them. *)
Definition dir_entry (v : Z -> list Z) (i : inode) (j : Z) : dirent :=
  dirent_decode (file_bytes v (i_addrs i) (DIRENT_SZ * j) DIRENT_SZ).
Definition dir_entries (v : Z -> list Z) (i : inode) : list dirent :=
  dir_entry v i <$> seqZ 0 (i_size i / DIRENT_SZ).

Definition names (name : list Z) (de : dirent) : bool :=
  negb (de_inum de =? 0) && (namecmp name (de_name de) =? 0).

(** The index of the entry [dirlookup] stops at. *)
Definition dir_find (name : list Z) (es : list dirent) : option nat := find_idx (names name) es.

Record dir_ok (sb : superblock) (t : txn) (i : inode) : Prop := {
  do_inode : inode_ok sb t i;
  do_type : i_type i = T_DIR;
  do_size : i_size i mod DIRENT_SZ = 0
}.

Lemma dir_size sb t i : dir_ok sb t i -> i_size i = DIRENT_SZ * (i_size i / DIRENT_SZ) /\ 0 <= i_size i / DIRENT_SZ.
Proof.
  intros [[_ _ Hs _] _ Hm]. split; [|apply Z.div_pos; [lia|done]].
  pose proof (Z.div_mod (i_size i) DIRENT_SZ ltac:(done)). lia.
Qed.

Lemma dir_entries_length v i : length (dir_entries v i) = Z.to_nat (i_size i / DIRENT_SZ).
Proof. unfold dir_entries. by rewrite length_fmap, length_seqZ. Qed.

Lemma dir_entries_lookup v i (j : nat) :
  Z.of_nat j < i_size i / DIRENT_SZ -> dir_entries v i !! j = Some (dir_entry v i (Z.of_nat j)).
Proof. intros H. unfold dir_entries. rewrite list_lookup_fmap, lookup_seqZ_lt by lia. done. Qed.

Section dirlookup.
Context {S : Type} `{!BlockOps S} `{!BlockLayer S} `{!DevOps S}.
Implicit Types (b : S) (t : txn) (sb : superblock) (ic : list inode).

Lemma wp_read_dirent b t sb ic pid cwd dp i j Q :
  bl_rep b t -> t_held t = ∅ -> fs_geom sb t -> ic !! dp = Some i -> dir_ok sb t i ->
  0 <= j < i_size i / DIRENT_SZ ->
  (forall b', bl_rep b' t -> Q (Some (dir_entry (t_view t) i j)) (mk_fsst b' sb ic pid cwd)) ->
  wp (read_dirent dp (DIRENT_SZ * j)) (mk_fsst b sb ic pid cwd) Q.
Proof.
  intros Hr Hh Hg Hi Hd Hj HQ. destruct (dir_size _ _ _ Hd) as [Es _]. pose proof Hd as [Hio Hty _].
  pose proof (io_size _ _ _ Hio). change (MAXFILE * BSIZE) with 71680 in *.
  unfold read_dirent. fs_step. change DIRENT_SZ with 16 in *.
  apply (wp_readi _ t _ _ _ _ dp i); try done; [by rewrite Hty|lia|].
  intros b' R'. apply wp_ret. unfold readi_result.
  rewrite Z.gtb_ltb, (proj2 (Z.ltb_ge (i_size i) (16 * j))) by lia.
  rewrite u32_small, (proj2 (Z.ltb_ge _ (16 * j))) by lia. cbn [orb fst snd].
  replace (Z.min 16 (i_size i - 16 * j)) with 16 by lia. cbn [fst snd Z.eqb Pos.eqb]. by apply HQ.
Qed.

(** What [dirlookup] goes on with once entry [n] matches. *)
Definition found_at t (i : inode) (n : nat) : M (fsst S) (option (nat * Z)) :=
  ip ← iget ROOTDEV (de_inum (dir_entry (t_view t) i (Z.of_nat n)));
  mret (Some (ip, DIRENT_SZ * Z.of_nat n)).

Lemma run_dirlookup_loop fuel b t sb ic pid cwd dp i name j (P : outcome (fsst S) (option (nat * Z)) -> Prop) :
  bl_rep b t -> t_held t = ∅ -> fs_geom sb t -> ic !! dp = Some i -> dir_ok sb t i ->
  0 <= j <= i_size i / DIRENT_SZ -> (Z.to_nat (i_size i / DIRENT_SZ - j) <= fuel)%nat ->
  (forall b', bl_rep b' t ->
     match find_idx (names name) (drop (Z.to_nat j) (dir_entries (t_view t) i)) with
     | None => P (Ok None (mk_fsst b' sb ic pid cwd))
     | Some k => P (found_at t i (Z.to_nat j + k) (mk_fsst b' sb ic pid cwd))
     end) ->
  P (dirlookup_loop fuel dp name (DIRENT_SZ * j) (mk_fsst b sb ic pid cwd)).
Proof.
  intros Hr Hh Hg Hi Hd. pose proof (dir_size _ _ _ Hd) as [Es _]. revert b j Hr.
  assert (Hnil : forall j, i_size i / DIRENT_SZ <= j -> drop (Z.to_nat j) (dir_entries (t_view t) i) = []).
  { intros j Hj. apply drop_ge. rewrite dir_entries_length. lia. }
  induction fuel as [|fuel IH]; intros b j Hr Hj Hfuel HQ; cbn [dirlookup_loop]; apply run_after, wp_getip;
    rewrite (list_lookup_total_correct _ _ _ Hi).
  { rewrite (proj2 (Z.ltb_ge _ (i_size i))) by (change DIRENT_SZ with 16 in *; lia). cbn [negb].
    specialize (HQ b Hr). rewrite Hnil in HQ by lia. exact HQ. }
  destruct (Z.ltb_spec (DIRENT_SZ * j) (i_size i)) as [Hlt|Hge]; cbn [negb].
  2: { specialize (HQ b Hr). rewrite Hnil in HQ by (change DIRENT_SZ with 16 in *; lia). exact HQ. }
  assert (Hjs : 0 <= j < i_size i / DIRENT_SZ) by (change DIRENT_SZ with 16 in *; lia).
  pose proof (io_size _ _ _ (do_inode _ _ _ Hd)) as Hsz. change (MAXFILE * BSIZE) with 71680 in Hsz.
  apply run_after. apply (wp_read_dirent _ t _ _ _ _ dp i); try done. intros b1 R1.
  assert (Hdrop : drop (Z.to_nat j) (dir_entries (t_view t) i) =
    dir_entry (t_view t) i j :: drop (Z.to_nat (j + 1)) (dir_entries (t_view t) i)).
  { replace (Z.to_nat (j + 1)) with (Datatypes.S (Z.to_nat j)) by lia. apply drop_S.
    rewrite dir_entries_lookup by lia. do 2 f_equal. lia. }
  assert (Hu : u32 (DIRENT_SZ * j + DIRENT_SZ) = DIRENT_SZ * (j + 1)).
  { rewrite u32_small; change DIRENT_SZ with 16 in *; lia. }
  rewrite Hdrop in HQ. set (de := dir_entry (t_view t) i j) in *.
  assert (Hgo : names name de = false ->
    P (dirlookup_loop fuel dp name (u32 (DIRENT_SZ * j + DIRENT_SZ)) (mk_fsst b1 sb ic pid cwd))).
  { intros Hno. rewrite Hu. apply IH; [done|lia|lia|]. intros b2 R2. specialize (HQ b2 R2). simpl in HQ.
    rewrite Hno in HQ. destruct (find_idx _ _) as [k|]; [|done]. simpl in HQ.
    replace (Z.to_nat (j + 1) + k)%nat with (Z.to_nat j + Datatypes.S k)%nat by lia. exact HQ. }
  unfold names in Hgo. destruct (de_inum de =? 0) eqn:Hin; [by apply Hgo|].
  destruct (namecmp name (de_name de) =? 0) eqn:Hnm; [|by apply Hgo].
  specialize (HQ b1 R1). cbn [find_idx] in HQ. unfold names in HQ at 1. rewrite Hin, Hnm in HQ. cbn [negb andb] in HQ.
  unfold found_at in HQ. rewrite Nat.add_0_r, Z2Nat.id in HQ by lia.
  apply run_after, wp_getip. rewrite (list_lookup_total_correct _ _ _ Hi), (io_dev _ _ _ (do_inode _ _ _ Hd)). exact HQ.
Qed.

Lemma run_dirlookup b t sb ic pid cwd dp i name (P : outcome (fsst S) (option (nat * Z)) -> Prop) :
  bl_rep b t -> t_held t = ∅ -> fs_geom sb t -> ic !! dp = Some i -> dir_ok sb t i ->
  (forall b', bl_rep b' t ->
     match dir_find name (dir_entries (t_view t) i) with
     | None => P (Ok None (mk_fsst b' sb ic pid cwd))
     | Some k => P (found_at t i k (mk_fsst b' sb ic pid cwd))
     end) ->
  P (dirlookup dp name (mk_fsst b sb ic pid cwd)).
Proof.
  intros Hr Hh Hg Hi Hd HQ. unfold dirlookup. apply run_after, wp_getip. rewrite (list_lookup_total_correct _ _ _ Hi).
  rewrite (do_type _ _ _ Hd). change (T_DIR =? T_DIR) with true. cbn [negb].
  destruct (dir_size _ _ _ Hd) as [Es Ez].
  pose proof (run_dirlookup_loop (Z.to_nat (i_size i)) b t sb ic pid cwd dp i name 0 P Hr Hh Hg Hi Hd) as Hl.
  rewrite Z.mul_0_r in Hl. apply Hl; [lia|change DIRENT_SZ with 16 in *; lia|].
  intros b' R'. specialize (HQ b' R'). unfold dir_find in HQ. rewrite drop_0. by destruct (find_idx _ _).
Qed.

Lemma wp_dirlookup_none b t sb ic pid cwd dp i name Q :
  bl_rep b t -> t_held t = ∅ -> fs_geom sb t -> ic !! dp = Some i -> dir_ok sb t i ->
  dir_find name (dir_entries (t_view t) i) = None ->
  (forall b', bl_rep b' t -> Q None (mk_fsst b' sb ic pid cwd)) ->
  wp (dirlookup dp name) (mk_fsst b sb ic pid cwd) Q.
Proof.
  intros Hr Hh Hg Hi Hd Hf HQ. unfold wp. apply (run_dirlookup _ t _ _ _ _ dp i); try done.
  intros b' R'. rewrite Hf. by apply HQ.
Qed.
End dirlookup.

(** ** Adding an entry *)

(** The index [dirlink] writes to: the first free entry, or the end. *)
Definition dir_slot (es : list dirent) : nat :=
  match find_idx (fun de => de_inum de =? 0) es with Some k => k | None => length es end.

Definition dir_put (es : list dirent) (de : dirent) : list dirent :=
  if decide (dir_slot es < length es)%nat then <[dir_slot es := de]> es else es ++ [de].

Lemma dir_slot_le es : (dir_slot es <= length es)%nat.
Proof.
  unfold dir_slot. destruct (find_idx _ es) as [k|] eqn:E; [|done]. apply find_idx_lt in E. lia.
Qed.

Section dirlink_slot.
Context {S : Type} `{!BlockOps S} `{!BlockLayer S} `{!DevOps S}.
Implicit Types (b : S) (t : txn) (sb : superblock) (ic : list inode).

Lemma wp_dirlink_slot fuel b t sb ic pid cwd dp i j Q :
  bl_rep b t -> t_held t = ∅ -> fs_geom sb t -> ic !! dp = Some i -> dir_ok sb t i ->
  0 <= j <= i_size i / DIRENT_SZ -> (Z.to_nat (i_size i / DIRENT_SZ - j) <= fuel)%nat ->
  (forall b', bl_rep b' t ->
     Q (DIRENT_SZ * (j + Z.of_nat (dir_slot (drop (Z.to_nat j) (dir_entries (t_view t) i))))) (mk_fsst b' sb ic pid cwd)) ->
  wp (dirlink_slot fuel dp (DIRENT_SZ * j)) (mk_fsst b sb ic pid cwd) Q.
Proof.
  intros Hr Hh Hg Hi Hd. pose proof (dir_size _ _ _ Hd) as [Es _]. revert b j Hr.
  assert (Hnil : forall j, i_size i / DIRENT_SZ <= j -> dir_slot (drop (Z.to_nat j) (dir_entries (t_view t) i)) = 0%nat).
  { intros j Hj. rewrite drop_ge; [done|]. rewrite dir_entries_length. lia. }
  induction fuel as [|fuel IH]; intros b j Hr Hj Hfuel HQ; cbn [dirlink_slot]; do 2 fs_step;
    rewrite (list_lookup_total_correct _ _ _ Hi).
  { rewrite (proj2 (Z.ltb_ge _ (i_size i))) by (change DIRENT_SZ with 16 in *; lia). cbn [negb]. apply wp_ret.
    specialize (HQ b Hr). rewrite Hnil in HQ by lia. by rewrite Z.add_0_r in HQ. }
  destruct (Z.ltb_spec (DIRENT_SZ * j) (i_size i)) as [Hlt|Hge]; cbn [negb].
  2: { apply wp_ret. specialize (HQ b Hr). rewrite Hnil in HQ by (change DIRENT_SZ with 16 in *; lia).
    by rewrite Z.add_0_r in HQ. }
  assert (Hjs : 0 <= j < i_size i / DIRENT_SZ) by (change DIRENT_SZ with 16 in *; lia).
  fs_step. apply (wp_read_dirent _ t _ _ _ _ dp i); try done. intros b1 R1.
  assert (Hdrop : drop (Z.to_nat j) (dir_entries (t_view t) i) =
    dir_entry (t_view t) i j :: drop (Z.to_nat (j + 1)) (dir_entries (t_view t) i)).
  { replace (Z.to_nat (j + 1)) with (Datatypes.S (Z.to_nat j)) by lia. apply drop_S.
    rewrite dir_entries_lookup by lia. do 2 f_equal. lia. }
  rewrite Hdrop in HQ. unfold dir_slot in HQ. cbn [find_idx] in HQ.
  destruct (de_inum (dir_entry (t_view t) i j) =? 0).
  - apply wp_ret. specialize (HQ b1 R1). by rewrite Z.add_0_r in HQ.
  - replace (DIRENT_SZ * j + DIRENT_SZ) with (DIRENT_SZ * (j + 1)) by (change DIRENT_SZ with 16; lia).
    apply IH; [done|lia|lia|]. intros b2 R2. specialize (HQ b2 R2). unfold dir_slot.
    destruct (find_idx _ _) as [k|]; cbn [fmap option_fmap option_map length] in HQ;
      [replace (j + 1 + Z.of_nat k) with (j + Z.of_nat (Datatypes.S k)) by lia
      |replace (j + 1 + Z.of_nat (length (drop (Z.to_nat (j + 1)) (dir_entries (t_view t) i)))) with
        (j + Z.of_nat (Datatypes.S (length (drop (Z.to_nat (j + 1)) (dir_entries (t_view t) i))))) by lia]; exact HQ.
Qed.
End dirlink_slot.

(** [file_bytes] in terms of the whole contents. *)
Lemma file_bytes_ext v v' a a' off n :
  (forall p, off <= p < off + n -> file_byte v a p = file_byte v' a' p) -> file_bytes v a off n = file_bytes v' a' off n.
Proof.
  intros H. unfold file_bytes. apply list_fmap_ext. intros k x Hx%lookup_seqZ. apply H. lia.
Qed.

Lemma file_bytes_src v a off src :
  (forall p, off <= p < off + Z.of_nat (length src) -> file_byte v a p = src !!! Z.to_nat (p - off)) ->
  file_bytes v a off (Z.of_nat (length src)) = src.
Proof.
  intros H. apply list_eq_total; rewrite file_bytes_length, ?Nat2Z.id; [done|]. intros k Hk.
  rewrite <- (Nat2Z.id k) at 1. rewrite file_bytes_lookup, H by lia. f_equal. lia.
Qed.

(** The entries of a directory after one entry was written at its slot. *)
Lemma dir_put_entries sb t i de t' i' :
  dir_ok sb t i -> dirent_ok de ->
  writei_post sb t i (DIRENT_SZ * Z.of_nat (dir_slot (dir_entries (t_view t) i))) (dirent_encode de) t' i' ->
  dir_entries (t_view t') i' = dir_put (dir_entries (t_view t) i) de /\ dir_ok sb t' i'.
Proof.
  intros Hd Hde Hp. set (es := dir_entries (t_view t) i) in *. set (k := dir_slot es) in *.
  destruct (dir_size _ _ _ Hd) as [Es Ez]. pose proof (dir_slot_le es) as Hk. fold k in Hk.
  assert (Hlen : length (dirent_encode de) = 16%nat) by (apply dirent_encode_length, Hde).
  assert (Hes : length es = Z.to_nat (i_size i / DIRENT_SZ)) by apply dir_entries_length.
  pose proof Hp as [[addrs Ei] Hok' _ _ Hb _ _ _ _ _].
  change DIRENT_SZ with 16 in *.
  assert (Hsz : i_size i' = Z.max (i_size i) (16 * Z.of_nat k + 16)).
  { rewrite Ei.
    change (new_size i (16 * Z.of_nat k) (Z.of_nat (length (dirent_encode de))) = Z.max (i_size i) (16 * Z.of_nat k + 16)).
    unfold new_size. rewrite Hlen.
    change (Z.of_nat 16 >? 0) with true. cbn [andb]. destruct (Z.gtb_spec (16 * Z.of_nat k + Z.of_nat 16) (i_size i)); lia. }
  assert (Hn : i_size i' = 16 * Z.max (i_size i / 16) (Z.of_nat k + 1)) by lia.
  assert (Hdiv : i_size i' / 16 = Z.max (i_size i / 16) (Z.of_nat k + 1)) by (rewrite Hn, Z.mul_comm; by apply Z.div_mul).
  rewrite Hlen in Hb.
  assert (Hent : forall j, 0 <= j < i_size i' / 16 -> dir_entry (t_view t') i' j =
    if j =? Z.of_nat k then de else dir_entry (t_view t) i j).
  { intros j Hj. unfold dir_entry. change DIRENT_SZ with 16. destruct (Z.eqb_spec j (Z.of_nat k)) as [->|Hne].
    - assert (E : file_bytes (t_view t') (i_addrs i') (16 * Z.of_nat k) 16 = dirent_encode de).
      { pose proof (file_bytes_src (t_view t') (i_addrs i') (16 * Z.of_nat k) (dirent_encode de)) as Hs.
        rewrite Hlen in Hs. apply Hs. intros p Hpp. rewrite Hb by lia.
        by rewrite (proj2 (Z.leb_le _ _)), (proj2 (Z.ltb_lt _ _)) by lia. }
      rewrite E. by apply dirent_decode_encode.
    - f_equal. apply file_bytes_ext. intros p Hpp. rewrite Hb by lia.
      replace ((16 * Z.of_nat k <=? p) && (p <? 16 * Z.of_nat k + Z.of_nat 16)) with false; [done|].
      symmetry. apply andb_false_iff. destruct (Z.leb_spec (16 * Z.of_nat k) p); [right; apply Z.ltb_ge; lia|by left]. }
  split.
  - apply list_eq. intros j. unfold dir_put. fold k.
    destruct (decide (Z.of_nat j < i_size i' / 16)) as [Hj|Hj].
    + rewrite dir_entries_lookup by (change DIRENT_SZ with 16; lia). rewrite Hent by lia.
      case_decide as Hc.
      * rewrite list_lookup_insert. destruct (Z.eqb_spec (Z.of_nat j) (Z.of_nat k)) as [E|E].
        -- by rewrite decide_True by lia.
        -- rewrite decide_False by lia. unfold es. rewrite dir_entries_lookup by (change DIRENT_SZ with 16; lia). done.
      * destruct (Z.eqb_spec (Z.of_nat j) (Z.of_nat k)) as [E|E].
        -- rewrite lookup_app_r by lia. by replace (j - length es)%nat with 0%nat by lia.
        -- rewrite lookup_app_l by lia. unfold es. rewrite dir_entries_lookup by (change DIRENT_SZ with 16; lia). done.
    + rewrite lookup_ge_None_2 by (rewrite dir_entries_length; change DIRENT_SZ with 16; lia). symmetry.
      apply lookup_ge_None_2. case_decide; rewrite ?length_insert, ?length_app; simpl; lia.
  - split; [done|rewrite Ei; apply (do_type _ _ _ Hd)|]. change DIRENT_SZ with 16.
    rewrite Hn, Z.mul_comm. by apply Z.mod_mul.
Qed.

(** ** Names *)

(** A name as [namecmp] sees it: up to the first NUL or [DIRSIZ] bytes. *)
Definition cname (l : list Z) : list Z := cstr (view_of l) (Z.to_nat DIRSIZ).

Lemma view_of_bytes l : Forall byte_ok l -> bytes_ok (view_of l).
Proof.
  intros H i. unfold view_of. destruct (nth_in_or_default (Z.to_nat i) l 0) as [Hin|E]; [|rewrite E; lia].
  apply list_elem_of_In in Hin. apply (proj1 (Forall_forall _ _) H) in Hin. exact Hin.
Qed.

Lemma namecmp_eq a b : Forall byte_ok a -> Forall byte_ok b -> namecmp a b = 0 <-> cname a = cname b.
Proof. intros Ha Hb. apply strncmp_zero; by apply view_of_bytes. Qed.

Lemma cstr_padded n l :
  Forall (fun c => c <> 0) l -> (length l <= n)%nat -> cstr (view_of (l ++ replicate (n - length l) 0)) n = l.
Proof.
  revert l. induction n as [|n IH]; intros l Hl Hn; [by destruct l; [|simpl in *; lia]|].
  destruct l as [|c l]; [done|]. apply Forall_cons_1 in Hl as [Hc Hl]. cbn [cstr].
  change (view_of ((c :: l) ++ replicate (Datatypes.S n - length (c :: l)) 0) 0) with c.
  rewrite (proj2 (Z.eqb_neq c 0) Hc). f_equal. etransitivity; [|apply (IH l Hl); simpl in Hn; lia].
  apply cstr_ext. intros i Hi. unfold advance, view_of. simpl length. rewrite Nat.sub_succ.
  replace (Z.to_nat (1 + i)) with (Datatypes.S (Z.to_nat i)) by lia. done.
Qed.

Lemma cname_dirent name : cname (dirent_name name) = cname name.
Proof. apply cstr_padded; [apply cstr_nonzero|apply cstr_length]. Qed.

Lemma cstr_bytes p n : bytes_ok p -> Forall byte_ok (cstr p n).
Proof.
  revert p. induction n as [|n IH]; intros p Hp; simpl; [constructor|].
  destruct (p 0 =? 0); constructor; [apply Hp|]. apply IH. by apply advance_bytes.
Qed.

Lemma dirent_name_ok inum name :
  Forall byte_ok name -> 0 <= inum < 2 ^ 16 -> dirent_ok (mk_dirent inum (dirent_name name)).
Proof.
  intros Hn Hi. split; [done|]. unfold dirent_name, cpad. cbn [de_name]. split.
  - pose proof (cstr_length (view_of name) (Z.to_nat DIRSIZ)) as Hc. rewrite length_app, length_replicate.
    rewrite Nat.add_sub_assoc by done. rewrite Nat.add_comm, Nat.add_sub. done.
  - apply Forall_app. split; [by apply cstr_bytes, view_of_bytes|]. apply Forall_replicate. unfold byte_ok. lia.
Qed.

(** The inode number a directory has for a name. *)
Definition dir_lookup (name : list Z) (es : list dirent) : option Z :=
  k ← dir_find name es; de ← es !! k; mret (de_inum de).

Definition es_ok (es : list dirent) : Prop := Forall (fun de => Forall byte_ok (de_name de)) es.

Lemma names_ext a b de :
  Forall byte_ok a -> Forall byte_ok b -> Forall byte_ok (de_name de) -> cname a = cname b -> names a de = names b de.
Proof.
  intros Ha Hb Hd E. unfold names. f_equal.
  destruct (Z.eqb_spec (namecmp a (de_name de)) 0) as [H1|H1], (Z.eqb_spec (namecmp b (de_name de)) 0) as [H2|H2]; try done.
  - exfalso. apply H2. apply namecmp_eq; try done. apply namecmp_eq in H1; try done. congruence.
  - exfalso. apply H1. apply namecmp_eq; try done. apply namecmp_eq in H2; try done. congruence.
Qed.

(** A table scan after an element that did not match was replaced. *)
Lemma find_idx_replace {A} (f : A -> bool) l k x y :
  l !! k = Some y -> f y = false ->
  find_idx f (<[k := x]> l) =
    if f x then match find_idx f l with Some j => if decide (j < k)%nat then Some j else Some k | None => Some k end
    else find_idx f l.
Proof.
  revert k. induction l as [|z l IH]; intros [|k] Hk Hy; simpl in *; try done.
  - injection Hk as ->. rewrite Hy. destruct (f x); [|done]. by destruct (find_idx f l).
  - destruct (f z) eqn:Hz; [by destruct (f x)|]. rewrite (IH k Hk Hy).
    destruct (f x); [|done]. destruct (find_idx f l) as [j|]; simpl; [|done]. repeat case_decide; try lia; done.
Qed.

Lemma find_idx_app {A} (f : A -> bool) l x :
  find_idx f (l ++ [x]) = match find_idx f l with Some j => Some j | None => if f x then Some (length l) else None end.
Proof.
  induction l as [|z l IH]; simpl; [by destruct (f x)|]. destruct (f z); [done|]. rewrite IH.
  destruct (find_idx f l); simpl; [done|]. by destruct (f x).
Qed.

Lemma names_free name de : de_inum de = 0 -> names name de = false.
Proof. intros H. unfold names. by rewrite H. Qed.

(** Adding an entry under a name the directory does not have binds that name
    and leaves every other binding. *)
Lemma dir_put_lookup es name inum name' :
  es_ok es -> Forall byte_ok name -> Forall byte_ok name' -> 0 < inum < 2 ^ 16 ->
  dir_find name es = None ->
  dir_lookup name' (dir_put es (mk_dirent inum (dirent_name name))) =
    if decide (cname name' = cname name) then Some inum else dir_lookup name' es.
Proof.
  intros Hes Hn Hn' Hin Hno. set (de := mk_dirent inum (dirent_name name)).
  destruct (dirent_name_ok inum name Hn ltac:(lia)) as (_ & _ & Hnb). cbn [de_name] in Hnb.
  assert (Hde : names name' de = bool_decide (cname name' = cname name)).
  { unfold names, de. cbn [de_inum de_name]. rewrite (proj2 (Z.eqb_neq inum 0)) by lia. cbn [negb andb].
    destruct (Z.eqb_spec (namecmp name' (dirent_name name)) 0) as [E|E].
    - apply namecmp_eq in E; try done. rewrite cname_dirent in E. by rewrite bool_decide_true.
    - rewrite bool_decide_false; [done|]. intros E'. apply E, namecmp_eq; try done. by rewrite cname_dirent. }
  assert (Hno' : cname name' = cname name -> find_idx (names name') es = None).
  { intros E. apply find_idx_None. intros k x Hx. rewrite (names_ext name' name); try done.
    - by apply (proj1 (find_idx_None _ _) Hno k).
    - by apply (proj1 (Forall_lookup _ _) Hes k). }
  unfold dir_lookup, dir_find, dir_put. pose proof (dir_slot_le es) as Hle.
  destruct (decide (dir_slot es < length es)%nat) as [Hs|Hs].
  - assert (exists y, es !! dir_slot es = Some y /\ de_inum y = 0) as (y & Hy & Hy0).
    { unfold dir_slot in *. destruct (find_idx (fun de => de_inum de =? 0) es) as [k|] eqn:E; [|lia].
      apply find_idx_Some in E as [(x & Hx & Hx0%Z.eqb_eq) _]. by exists x. }
    rewrite (find_idx_replace _ _ _ _ y Hy) by by apply names_free. rewrite Hde.
    case_bool_decide as E.
    + rewrite (Hno' E), decide_True by done. simpl. by rewrite list_lookup_insert_eq.
    + rewrite decide_False by done. destruct (find_idx (names name') es) as [k|] eqn:Ek; [|done]. simpl.
      rewrite list_lookup_insert_ne; [done|]. intros <-.
      apply find_idx_Some in Ek as [(x & Hx & Hxn) _]. rewrite Hy in Hx. injection Hx as <-.
      by rewrite names_free in Hxn.
  - rewrite find_idx_app, Hde. case_bool_decide as E.
    + rewrite (Hno' E), decide_True by done. simpl. by rewrite lookup_app_r, Nat.sub_diag by lia.
    + rewrite decide_False by done. destruct (find_idx (names name') es) as [k|] eqn:Ek; [|done]. simpl.
      apply find_idx_lt in Ek. by rewrite lookup_app_l.
Qed.

(** The names in a directory are bytes. *)
Lemma entries_bytes sb t i :
  fs_geom sb t -> 2 <= t_lo t -> dir_ok sb t i -> (forall k, 0 <= k < t_hi t -> block_ok (t_view t k)) ->
  es_ok (dir_entries (t_view t) i).
Proof.
  intros Hg Hlo Hd Hok. destruct (dir_size _ _ _ Hd) as [Es Ez]. pose proof (do_inode _ _ _ Hd) as Hio.
  apply Forall_lookup. intros k de Hk. pose proof (lookup_lt_Some _ _ _ Hk) as Hlt. rewrite dir_entries_length in Hlt.
  rewrite dir_entries_lookup in Hk by lia. injection Hk as <-. unfold dir_entry, dirent_decode. cbn [de_name].
  apply Forall_take, Forall_drop. unfold file_bytes. apply Forall_fmap, Forall_forall. intros x Hx%elem_of_seqZ. simpl.
  change DIRENT_SZ with 16 in *. set (p := 16 * Z.of_nat k + x). assert (Hp : 0 <= p < i_size i) by lia.
  pose proof (io_size _ _ _ Hio). destruct (off_split p) as [Ep Mp]; [lia|].
  assert (Hbn : 0 <= p / BSIZE < MAXFILE) by (apply div_bound; lia).
  assert (Hnz : block_of (t_view t) (i_addrs i) (p / BSIZE) <> 0) by (apply (io_holes _ _ _ Hio); lia).
  destruct (fo_block _ _ _ (io_file _ _ _ Hio) _ Hbn Hnz) as [Hd2 _]. pose proof (data_pos _ _ _ Hg Hlo Hd2).
  pose proof (ge_size _ _ Hg). unfold file_byte.
  destruct (Hok (block_of (t_view t) (i_addrs i) (p / BSIZE))) as [Hl Hb]; [lia|].
  destruct (lookup_lt_is_Some_2 (t_view t (block_of (t_view t) (i_addrs i) (p / BSIZE))) (Z.to_nat (p mod BSIZE))) as [y Hy];
    [change BSIZE with 512 in *; lia|].
  rewrite (list_lookup_total_correct _ _ _ Hy). by apply (proj1 (Forall_lookup _ _) Hb _ _ Hy).
Qed.

Section dirlink.
Context {S : Type} `{!BlockOps S} `{!BlockLayer S} `{!DevOps S}.
Implicit Types (b : S) (t : txn) (sb : superblock) (ic : list inode).

(** A directory that may take one more entry. *)
Record can_link sb t (i : inode) : Prop := {
  cl_dir : dir_ok sb t i;
  cl_inum : 0 <= i_inum i < sb_ninodes sb;
  cl_dinode : dinode_ok (dinode_of i);
  cl_size : i_size i + DIRENT_SZ <= MAXFILE * BSIZE;
  cl_room : write_room sb t (i_addrs i) (DIRENT_SZ * Z.of_nat (dir_slot (dir_entries (t_view t) i))) DIRENT_SZ
}.

Lemma wp_dirlink b t sb ic pid cwd dp i name inum Q :
  bl_rep b t -> t_held t = ∅ -> fs_geom sb t -> ic !! dp = Some i -> can_link sb t i ->
  Forall byte_ok name -> dir_find name (dir_entries (t_view t) i) = None ->
  (forall b' t' i', bl_rep b' t' -> dir_ok sb t' i' ->
     dir_entries (t_view t') i' = dir_put (dir_entries (t_view t) i) (mk_dirent (u16 inum) (dirent_name name)) ->
     writei_post sb t i (DIRENT_SZ * Z.of_nat (dir_slot (dir_entries (t_view t) i)))
       (dirent_encode (mk_dirent (u16 inum) (dirent_name name))) t' i' ->
     Q 0 (mk_fsst b' sb (<[dp := i']> ic) pid cwd)) ->
  wp (dirlink dp name inum) (mk_fsst b sb ic pid cwd) Q.
Proof.
  intros Hr Hh Hg Hi [Hd Hin Hdi Hmax Hroom] Hn Hno HQ. unfold dirlink.
  fs_step. apply (wp_dirlookup_none _ t _ _ _ _ dp i); try done. intros b1 R1.
  do 2 fs_step. rewrite (list_lookup_total_correct _ _ _ Hi). destruct (dir_size _ _ _ Hd) as [Es Ez].
  fs_step. pose proof (wp_dirlink_slot (S := S) (Z.to_nat (i_size i)) b1 t sb ic pid cwd dp i 0) as Hl.
  rewrite Z.mul_0_r in Hl. apply Hl; try done; [change DIRENT_SZ with 16 in *; lia|]. clear Hl. intros b2 R2.
  rewrite drop_0, Z.add_0_l. set (es := dir_entries (t_view t) i) in *.
  assert (Hu : 0 <= u16 inum < 2 ^ 16) by (apply Z.mod_pos_bound; done).
  pose proof (dirent_name_ok _ _ Hn Hu) as Hde. set (de := mk_dirent (u16 inum) (dirent_name name)) in *.
  pose proof (dirent_encode_length de (proj1 (proj2 Hde))) as Hlen. pose proof (dir_slot_le es) as Hle.
  assert (Hes : length es = Z.to_nat (i_size i / DIRENT_SZ)) by apply dir_entries_length.
  fs_step. apply (wp_writei _ t _ _ _ _ dp i); try done.
  - apply (do_inode _ _ _ Hd).
  - by rewrite (do_type _ _ _ Hd).
  - apply Forall_app. split; [apply le_enc_bytes|apply Hde].
  - by rewrite Hlen.
  - change DIRENT_SZ with 16 in *. lia.
  - change DIRENT_SZ with 16 in *. lia.
  - intros b3 t' i' Hp R3. change (DIRENT_SZ =? DIRENT_SZ) with true. cbn [negb]. apply wp_ret.
    destruct (dir_put_entries _ _ _ _ _ _ Hd Hde Hp) as [He Hd']. by eapply HQ.
Qed.

(** [dirlookup] finds the first entry in use with the given name: it returns
    a referenced inode for the entry's inode number and the entry's offset, or
    nothing when no entry matches; the directory is not changed. *)
Theorem dirlookup_correct b t sb ic pid cwd dp i name :
  bl_rep b t -> t_held t = ∅ -> fs_geom sb t -> ic !! dp = Some i -> dir_ok sb t i ->
  exists b', bl_rep b' t /\
    dirlookup dp name (mk_fsst b sb ic pid cwd) =
    match dir_find name (dir_entries (t_view t) i) with
    | None => Ok None (mk_fsst b' sb ic pid cwd)
    | Some k =>
        match iget_slot ROOTDEV (de_inum (dir_entry (t_view t) i (Z.of_nat k))) ic with
        | Some (ip, j) => Ok (Some (ip, DIRENT_SZ * Z.of_nat k)) (mk_fsst b' sb (<[ip := j]> ic) pid cwd)
        | None => Panic "iget: no inodes"
        end
    end.
Proof.
  intros Hr Hh Hg Hi Hd.
  apply (run_dirlookup b t sb ic pid cwd dp i name (fun o => exists b', bl_rep b' t /\ o = _)); try done.
  intros b' R'. destruct (dir_find _ _) as [k|]; exists b'; (split; [done|]); [|done].
  unfold found_at, mbind, M_bind. rewrite iget_run. by destruct (iget_slot _ _ _) as [[ip j]|].
Qed.

(** [dirlink] of a name the directory does not have returns 0 and adds
    exactly that binding: looking the name up then gives its inode number, and
    every other name is bound as before. *)
Theorem dirlink_correct b t sb ic pid cwd dp i name inum :
  bl_rep b t -> t_held t = ∅ -> fs_geom sb t -> ic !! dp = Some i -> can_link sb t i ->
  Forall byte_ok name -> 0 < inum < 2 ^ 16 -> dir_find name (dir_entries (t_view t) i) = None ->
  exists b' t' i', dirlink dp name inum (mk_fsst b sb ic pid cwd) = Ok 0 (mk_fsst b' sb (<[dp := i']> ic) pid cwd) /\
    bl_rep b' t' /\ dir_ok sb t' i' /\
    forall name', Forall byte_ok name' ->
      dir_lookup name' (dir_entries (t_view t') i') =
        if decide (cname name' = cname name) then Some inum else dir_lookup name' (dir_entries (t_view t) i).
Proof.
  intros Hr Hh Hg Hi Hcl Hn Hin Hno. destruct (bl_bound _ _ Hr) as [[Hlo _] Hhi].
  assert (H : wp (dirlink dp name inum) (mk_fsst b sb ic pid cwd) (fun r s => exists b' t' i',
    r = 0 /\ s = mk_fsst b' sb (<[dp := i']> ic) pid cwd /\ bl_rep b' t' /\ dir_ok sb t' i' /\
    dir_entries (t_view t') i' = dir_put (dir_entries (t_view t) i) (mk_dirent inum (dirent_name name)))).
  { apply (wp_dirlink _ t _ _ _ _ dp i); try done. intros b' t' i' R' Hd' He _.
    replace (u16 inum) with inum in He by (symmetry; apply Z.mod_small; lia). eauto 10. }
  apply wp_elim in H as (r & s & Hrun & b' & t' & i' & -> & -> & R' & Hd' & He).
  exists b', t', i'. split; [exact Hrun|]. clear Hrun. split; [done|]. split; [done|]. intros name' Hn'.
  rewrite He. apply dir_put_lookup; try done.
  apply (entries_bytes sb); try done; [apply (cl_dir _ _ _ Hcl)|]. intros k Hk. by apply (bl_ok _ _ _ Hr).
Qed.

(** [iput] of an inode that is not to be freed drops one reference. *)
Lemma wp_iput_simple b sb ic pid cwd ip i (Q : () -> fsst S -> Prop) :
  ic !! ip = Some i -> sl_locked (i_lock i) = false ->
  (i_valid i && (i_nlink i =? 0) && (i_ref i =? 1)) = false ->
  Q () (mk_fsst b sb (<[ip := i <| i_lock := mk_sleeplock false 0 |> <| i_ref := i_ref i - 1 |>]> ic) pid cwd) ->
  wp (iput ip) (mk_fsst b sb ic pid cwd) Q.
Proof.
  intros Hi Hl Hc HQ. unfold iput. do 2 fs_step. cbn [fs_pid].
  fs_step. eapply wp_ilock_acquire; [done|done|]. set (i1 := i <| i_lock := mk_sleeplock true pid |>).
  assert (Hi1 : <[ip := i1]> ic !! ip = Some i1) by (apply list_lookup_insert_eq; by apply lookup_lt_Some in Hi).
  assert (Hrest : wp (on_ilock ip releasesleep;; modip ip (fun i => i <| i_ref := i_ref i - 1 |>))
    (mk_fsst b sb (<[ip := i1]> ic) pid cwd) Q).
  { fs_step. eapply wp_ilock_release; [done|]. fs_step.
    rewrite !list_insert_insert_eq, list_lookup_total_insert_eq
      by (rewrite ?length_insert; by apply lookup_lt_Some in Hi). exact HQ. }
  do 2 fs_step. rewrite (list_lookup_total_correct _ _ _ Hi1).
  change (i_valid i1) with (i_valid i). change (i_nlink i1) with (i_nlink i). unfold when.
  destruct (i_valid i && (i_nlink i =? 0)); [|fs_step; apply wp_ret; exact Hrest].
  do 3 fs_step. rewrite (list_lookup_total_correct _ _ _ Hi1). change (i_ref i1) with (i_ref i).
  cbn [andb] in Hc. rewrite Hc. apply wp_ret. exact Hrest.
Qed.

(** C11: linking under a name that denotes the directory itself hangs.  When the
    name [dirlink] is given is bound in [dp] to [dp]'s own inode number, as "."
    is, [dirlookup] returns a second reference to [dp], and the [iput] that
    drops it waits for the sleep lock of [dp], which the caller of [dirlink]
    holds. *)
Theorem dirlink_self_deadlock b t sb ic pid cwd dp i name inum k :
  bl_rep b t -> t_held t = ∅ -> fs_geom sb t -> ic !! dp = Some i -> dir_ok sb t i -> icache_ok ic ->
  0 < i_ref i -> sl_locked (i_lock i) = true ->
  dir_find name (dir_entries (t_view t) i) = Some k ->
  de_inum (dir_entry (t_view t) i (Z.of_nat k)) = i_inum i ->
  exists s', dirlink dp name inum (mk_fsst b sb ic pid cwd) = Blocked s'.
Proof.
  intros Hr Hh Hg Hi Hd Hic Href Hlk Hf Hn.
  pose proof (lookup_lt_Some _ _ _ Hi) as Hlt. pose proof (io_dev _ _ _ (do_inode _ _ _ Hd)) as Hdev.
  assert (Hs : iget_slot ROOTDEV (i_inum i) ic = Some (dp, i <| i_ref := i_ref i + 1 |>)).
  { unfold iget_slot. destruct (find_idx (caches ROOTDEV (i_inum i)) ic) as [p|] eqn:Ep.
    - apply find_idx_total in Ep as [Hp (Hrp & Hdp & Hnp)%caches_true].
      assert (p = dp) as -> by (apply (ic_uniq _ Hic p dp (ic !!! p) i); try done; congruence).
      by rewrite (list_lookup_total_correct _ _ _ Hi).
    - exfalso. pose proof (proj1 (find_idx_None _ _) Ep _ _ Hi) as Hc.
      by rewrite (proj2 (caches_true ROOTDEV (i_inum i) i)) in Hc by done. }
  unfold dirlink, mbind, M_bind.
  apply (run_dirlookup b t sb ic pid cwd dp i name (fun o => exists s', match o with Ok a s => _ | Panic e => _ | Blocked s => _ end = Blocked s')); try done.
  intros b' R'. rewrite Hf. unfold found_at, mbind, M_bind. rewrite Hn, iget_run, Hs. cbn.
  unfold iput, on_ilock, zoom, acquiresleep, mbind, M_bind, gets. cbn.
  rewrite (list_lookup_total_insert_eq ic) by done. cbn. rewrite Hlk. cbn. eexists. reflexivity.
Qed.
End dirlink.

(** * Path names ([skipelem] of [fs.c]) against the elements of a path: the
    non-empty pieces between slashes. *)

(** The pieces of a list between occurrences of [c]. *)
Fixpoint split_on (c : Z) (l : list Z) : list (list Z) :=
  match l with
  | [] => [[]]
  | x :: l' =>
      if x =? c then [] :: split_on c l'
      else match split_on c l' with h :: r => (x :: h) :: r | [] => [[x]] end
  end.

Definition elems (path : list Z) : list (list Z) := filter (fun e => e <> []) (split_on SLASH path).

Lemma split_on_nonempty c l : split_on c l <> [].
Proof. destruct l as [|x l]; simpl; [done|]. destruct (x =? c); [done|]. by destruct (split_on c l). Qed.

Lemma elems_skip path : elems (skip_slashes path) = elems path.
Proof.
  induction path as [|c path IH]; simpl; [done|]. destruct (c =? SLASH) eqn:E; [|done].
  rewrite IH. unfold elems. cbn [split_on]. by rewrite E.
Qed.

Lemma skip_head path : match skip_slashes path with c :: _ => c <> SLASH | [] => True end.
Proof.
  induction path as [|c path IH]; simpl; [done|]. destruct (Z.eqb_spec c SLASH); [done|done].
Qed.

Lemma skip_length path : (length (skip_slashes path) <= length path)%nat.
Proof. induction path as [|c path IH]; simpl; [done|]. destruct (c =? SLASH); simpl; lia. Qed.

(** [split_elem] cuts at the first slash. *)
Lemma split_elem_spec path e rest :
  split_elem path = (e, rest) ->
  path = e ++ rest /\ Forall (fun c => c <> SLASH) e /\
  split_on SLASH path = e :: match rest with [] => [] | _ :: r => split_on SLASH r end.
Proof.
  revert e rest. induction path as [|c path IH]; intros e rest; simpl; [by intros [= <- <-]|].
  destruct (Z.eqb_spec c SLASH) as [->|Hne]; [by intros [= <- <-]|].
  destruct (split_elem path) as [e' r'] eqn:Es. intros [= <- <-].
  destruct (IH _ _ eq_refl) as (-> & Hf & Hs). split; [done|]. split; [by constructor|]. by rewrite Hs.
Qed.

Lemma split_elem_rest path e rest : split_elem path = (e, rest) -> match rest with [] => True | c :: _ => c = SLASH end.
Proof.
  revert e rest. induction path as [|c path IH]; intros e rest; simpl; [by intros [= <- <-]|].
  destruct (Z.eqb_spec c SLASH) as [->|Hne]; [by intros [= <- <-]|].
  destruct (split_elem path) as [e' r'] eqn:Es. intros [= <- <-]. by eapply IH.
Qed.

(** The name buffer holds the element, cut to [DIRSIZ] bytes. *)
Lemma name_buffer name e :
  length name = 14%nat -> Forall (fun c => c <> 0) e ->
  let nm := if DIRSIZ <=? Z.of_nat (length e) then splice name 0 (take (Z.to_nat DIRSIZ) e) else splice name 0 (e ++ [0]) in
  length nm = 14%nat /\ cname nm = take (Z.to_nat DIRSIZ) e.
Proof.
  intros Hn He. change (Z.to_nat DIRSIZ) with 14%nat. unfold cname. change (Z.to_nat DIRSIZ) with 14%nat.
  destruct (Z.leb_spec DIRSIZ (Z.of_nat (length e))) as [Hle|Hlt]; consts; cbn zeta.
  - assert (Hl : length (take 14 e) = 14%nat) by (rewrite length_take; lia).
    split; [rewrite splice_length; lia|]. unfold splice. rewrite take_0, Hl, drop_ge, app_nil_r by lia. simpl app.
    pose proof (cstr_padded 14 (take 14 e)) as Hp. rewrite Hl, Nat.sub_diag in Hp. simpl replicate in Hp.
    rewrite app_nil_r in Hp. apply Hp; [by apply Forall_take|done].
  - assert (Hl : length (e ++ [0]) = S (length e)) by (rewrite length_app; simpl; lia).
    split; [rewrite splice_length; lia|]. rewrite (firstn_all2 e) by lia.
    apply cstr_intro; [done| | |lia]; intros; unfold view_of, splice; rewrite take_0, <- app_assoc; simpl app;
      rewrite ?Nat2Z.id.
    + by rewrite app_nth1.
    + by rewrite app_nth2, Nat.sub_diag by lia.
Qed.

(** [skipelem] takes the first element off a path: it returns 0 exactly when
    the path has no element; otherwise the buffer holds the first element, cut
    to [DIRSIZ] bytes, and the path returned has the remaining elements, no
    leading slash, and is shorter. *)
Theorem skipelem_correct path name :
  length name = 14%nat -> Forall (fun c => c <> 0) path ->
  match skipelem path name with
  | None => elems path = []
  | Some (rest, nm) =>
      exists e, elems path = e :: elems rest /\ e <> [] /\ Forall (fun c => c <> SLASH) e /\
        cname nm = take (Z.to_nat DIRSIZ) e /\ length nm = 14%nat /\
        match rest with c :: _ => c <> SLASH | [] => True end /\ (length rest < length path)%nat
  end.
Proof.
  intros Hn Hp. unfold skipelem. rewrite <- elems_skip. pose proof (skip_length path) as Hlen.
  pose proof (skip_head path) as Hh.
  assert (Hp' : Forall (fun c => c <> 0) (skip_slashes path)).
  { clear Hlen Hh. induction Hp as [|c path Hc Hp IH]; simpl; [constructor|]. destruct (c =? SLASH); [done|]. by constructor. }
  destruct (skip_slashes path) as [|c s]; [done|].
  destruct (split_elem (c :: s)) as [e rest] eqn:Es.
  pose proof (split_elem_rest _ _ _ Es) as Hr. apply split_elem_spec in Es as (Es & Hsl & Hspl).
  assert (He : e <> []). { intros ->. simpl in Es. subst rest. simpl in Hh. done. }
  assert (He0 : Forall (fun c => c <> 0) e) by (rewrite Es in Hp'; by apply Forall_app in Hp' as [? _]).
  destruct (name_buffer name e Hn He0) as [Hl1 Hl2]. exists e. split_and!; try done.
  - unfold elems at 1. rewrite Hspl, filter_cons_True by done. f_equal. rewrite elems_skip. unfold elems.
    destruct rest as [|x r]; [done|]. subst x. done.
  - apply skip_head.
  - pose proof (skip_length rest). apply (f_equal length) in Es. rewrite length_app in Es. simpl in *.
    destruct e; [done|]. simpl in *. lia.
Qed.

Lemma skipelem_correct_witness :
  skipelem [47; 47; 47; 97; 47; 47; 98; 98] (replicate 14 0) = Some ([98; 98], 97 :: replicate 13 0) /\
  elems [47; 47; 47; 97; 47; 47; 98; 98] = [[97]; [98; 98]].
Proof.
  pose proof (skipelem_correct [47; 47; 47; 97; 47; 47; 98; 98] (replicate 14 0) eq_refl
    ltac:(repeat constructor; discriminate)) as H.
  destruct (skipelem [47; 47; 47; 97; 47; 47; 98; 98] (replicate 14 0)) as [[rest nm]|] eqn:E; [|discriminate H].
  split; [rewrite <- E; vm_compute; reflexivity|]. vm_compute. reflexivity.
Defined.

(** * Locking an inode whose contents are in memory: [ilock] and [iunlock] as
    their callers outside [fs.c] use them. *)

Section locks.
Context {S : Type}.
Implicit Types (b : S) (sb : superblock) (ic : list inode).

Lemma inode_same_lock (i : inode) : i <| i_lock := i_lock i |> = i.
Proof. by destruct i. Qed.

Lemma wp_holdingsleep b sb ic pid cwd ip i (Q : bool -> fsst S -> Prop) :
  ic !! ip = Some i -> Q (sl_locked (i_lock i)) (mk_fsst b sb ic pid cwd) ->
  wp (on_ilock ip holdingsleep) (mk_fsst b sb ic pid cwd) Q.
Proof.
  intros Hi HQ. apply wp_zoom. cbn [fs_icache]. rewrite (list_lookup_total_correct _ _ _ Hi). apply wp_gets.
  unfold with_ip. change (fs_icache (mk_fsst b sb ic pid cwd)) with ic.
  rewrite (list_lookup_total_correct _ _ _ Hi), inode_same_lock.
  by rewrite (list_insert_id ic ip i Hi).
Qed.

Lemma wp_iunlock b sb ic pid cwd ip i (Q : () -> fsst S -> Prop) :
  ic !! ip = Some i -> sl_locked (i_lock i) = true -> 1 <= i_ref i ->
  Q () (mk_fsst b sb (<[ip := i <| i_lock := mk_sleeplock false 0 |>]> ic) pid cwd) ->
  wp (iunlock ip) (mk_fsst b sb ic pid cwd) Q.
Proof.
  intros Hi Hl Hr HQ. unfold iunlock, getip. apply wp_bind. eapply wp_holdingsleep; [done|]. wp_steps.
  cbn [fs_icache]. rewrite (list_lookup_total_correct _ _ _ Hi), Hl. decide_cmp. cbn. by eapply wp_ilock_release.
Qed.

Lemma wp_ilock_valid `{!BlockOps S} b sb ic pid cwd ip i (Q : () -> fsst S -> Prop) :
  ic !! ip = Some i -> sl_locked (i_lock i) = false -> 1 <= i_ref i -> i_valid i = true ->
  Q () (mk_fsst b sb (<[ip := i <| i_lock := mk_sleeplock true pid |>]> ic) pid cwd) ->
  wp (ilock ip) (mk_fsst b sb ic pid cwd) Q.
Proof.
  intros Hi Hl Hr Hv HQ. unfold ilock, getip. wp_steps. cbn [fs_icache fs_pid]. rewrite (list_lookup_total_correct _ _ _ Hi).
  decide_cmp. wp_steps. eapply wp_ilock_acquire; [done|done|]. wp_steps. cbn [fs_icache].
  rewrite list_lookup_total_insert_eq by (by eapply lookup_lt_Some). cbn. rewrite Hv. by apply wp_ret.
Qed.
End locks.
