(* ===== verification/Spinlock.v ===== *)
(** Spin locks ([spinlock.c]) on a multiprocessor.

    A CPU is named by its local APIC id, which is what the hardware gives
    [mycpu]; a [struct cpu *] is its index in [cpus].  The routines are written
    as one CPU runs them.  [sp_step] interleaves the CPUs at the granularity of
    the memory accesses the routines make, with interrupts arriving wherever
    they are enabled, on any number of locks. *)

From S2P Require Import Prelude CString.

Record spinlock := mk_spinlock { lk_locked : Z; lk_cpu : option nat; lk_pcs : list Z }.
#[export] Instance eta_spinlock : Settable spinlock := fun l =>
  mk_spinlock (lk_locked l) (lk_cpu l) (lk_pcs l).

(** The fields of [struct cpu] the locks use. *)
Record cpu := mk_cpu { c_apicid : Z; c_ncli : Z; c_intena : bool }.
#[export] Instance eta_cpu : Settable cpu := fun c => mk_cpu (c_apicid c) (c_ncli c) (c_intena c).
#[export] Instance inhabited_cpu : Inhabited cpu := populate (mk_cpu 0 0 false).

(** [m_if] is the interrupt flag of each CPU's eflags register. *)
Record mach := mk_mach { m_locks : Z -> spinlock; m_cpus : list cpu; m_if : Z -> bool }.
#[export] Instance eta_mach : Settable mach := fun m => mk_mach (m_locks m) (m_cpus m) (m_if m).

Definition initlock : spinlock := mk_spinlock 0 None [].

Definition readeflags (id : Z) : M mach bool := gets (fun m => m_if m id).
Definition cli (id : Z) : M mach () := modify (fun m => m <| m_if := upd (m_if m) id false |>).
Definition sti (id : Z) : M mach () := modify (fun m => m <| m_if := upd (m_if m) id true |>).

Definition mycpu (id : Z) : M mach nat :=
  fl ← readeflags id;
  if fl : bool then panic "mycpu called with interrupts enabled\n" else
  cpus ← gets m_cpus;
  match find_idx (fun c => c_apicid c =? id) cpus with
  | Some i => mret i
  | None => panic "unknown apicid\n"
  end.

Definition getcpu {A} (i : nat) (f : cpu -> A) : M mach A := gets (fun m => f (m_cpus m !!! i)).
Definition setcpu (i : nat) (f : cpu -> cpu) : M mach () := 
  modify (fun m => m <| m_cpus := <[i := f (m_cpus m !!! i)]> (m_cpus m) |>).
Definition setlock (l : Z) (f : spinlock -> spinlock) : M mach () :=
  modify (fun m => m <| m_locks := upd (m_locks m) l (f (m_locks m l)) |>).

(** The part of [pushcli] after [cli()]. *)
Definition pushcli_count (id : Z) (eflags : bool) : M mach () :=
  c ← mycpu id;
  ncli ← getcpu c c_ncli;
  when (ncli =? 0) (setcpu c (fun x => x <| c_intena := eflags |>));;
  setcpu c (fun x => x <| c_ncli := c_ncli x + 1 |>).

Definition pushcli (id : Z) : M mach () :=
  eflags ← readeflags id;
  cli id;;
  pushcli_count id eflags.

Definition popcli (id : Z) : M mach () :=
  fl ← readeflags id;
  if fl : bool then panic "popcli - interruptible" else
  c ← mycpu id;
  setcpu c (fun x => x <| c_ncli := c_ncli x - 1 |>);;
  ncli ← getcpu c c_ncli;
  if ncli <? 0 then panic "popcli" else
  intena ← getcpu c c_intena;
  when ((ncli =? 0) && intena) (sti id).

Definition holding (id l : Z) : M mach bool :=
  lock ← gets (fun m => m_locks m l);
  if lk_locked lock =? 0 then mret false else
  c ← mycpu id;
  mret (bool_decide (lk_cpu lock = Some c)).

Definition xchg (l newval : Z) : M mach Z :=
  result ← gets (fun m => lk_locked (m_locks m l));
  setlock l (fun k => k <| lk_locked := newval |>);;
  mret result.

(** The loop of [getcallerpcs]: at most [n] return addresses up the chain of
    saved frame pointers, then zeroes. *)
Fixpoint callerpcs (m : mem) (n : nat) (ebp : Z) : list Z :=
  match n with
  | O => []
  | S k =>
      if (ebp =? 0) || (ebp <? 2147483648) || (ebp =? 4294967295) then replicate n 0
      else load32 m (ebp + 4) :: callerpcs m k (load32 m ebp)
  end.

(** [v] is the address of the first argument of the caller: the saved frame
    pointer is two words below. *)
Definition getcallerpcs (m : mem) (v : Z) : list Z := callerpcs m 10 (u32 (v - 8)).

(** [acquire] of a lock another CPU holds spins. *)
Definition acquire (id l : Z) (pcs : list Z) : M mach () :=
  pushcli id;;
  h ← holding id l;
  if h : bool then panic "acquire" else
  old ← xchg l 1;
  if negb (old =? 0) then block else
  c ← mycpu id;
  setlock l (fun k => k <| lk_cpu := Some c |>);;
  setlock l (fun k => k <| lk_pcs := pcs |>).

Definition release (id l : Z) : M mach () :=
  h ← holding id l;
  if negb h then panic "release" else
  setlock l (fun k => k <| lk_pcs := <[0%nat := 0]> (lk_pcs k) |>);;
  setlock l (fun k => k <| lk_cpu := None |>);;
  setlock l (fun k => k <| lk_locked := 0 |>);;
  popcli id.

(** ** Interleaving

    A thread of control on a CPU: the locks it holds and where it is inside
    [acquire] or [release].  An interrupt pushes a new one. *)

Inductive pc :=
| POut                        (* not in a lock routine *)
| PRead (l : Z) (e : bool)    (* pushcli has read eflags *)
| PCli (l : Z) (e : bool)     (* pushcli has run cli *)
| PHolding (l : Z)            (* pushcli done, before the test of holding *)
| PSpin (l : Z)               (* in the xchg loop *)
| PGot (l : Z)                (* xchg returned 0, lk->cpu not yet set *)
| PRel (l : Z)                (* release has tested holding *)
| PUnset (l : Z)              (* lk->cpu cleared, lk->locked not yet *)
| PPop (l : Z).               (* lk->locked cleared, before popcli *)

Record frame := mk_frame { f_held : list Z; f_pc : pc }.
#[export] Instance inhabited_frame : Inhabited frame := populate (mk_frame [] POut).

(** [p_top c] is the thread running on CPU [c]; [p_under c] the threads it
    interrupted, innermost first. *)
Record spsys := mk_spsys { p_mach : mach; p_top : nat -> frame; p_under : nat -> list frame }.

Definition updn {V : Type} (f : nat -> V) (k : nat) (v : V) : nat -> V :=
  fun k' => if decide (k' = k) then v else f k'.

(** The thread on CPU [c] moves on to [f]; the machine becomes [m]. *)
Definition goto (s : spsys) (c : nat) (f : frame) (m : mach) : spsys :=
  mk_spsys m (updn (p_top s) c f) (p_under s).

Section steps.
(** The APIC ids of the CPUs, in the order of [cpus]. *)
Variable ids : list Z.

Inductive sp_step : spsys -> spsys -> Prop :=
| sp_call s c id held l e m :
    ids !! c = Some id -> p_top s c = mk_frame held POut -> l ∉ held ->
    readeflags id (p_mach s) = Ok e m ->
    sp_step s (goto s c (mk_frame held (PRead l e)) m)
| sp_cli s c id held l e m :
    ids !! c = Some id -> p_top s c = mk_frame held (PRead l e) -> cli id (p_mach s) = Ok () m ->
    sp_step s (goto s c (mk_frame held (PCli l e)) m)
| sp_count s c id held l e m :
    ids !! c = Some id -> p_top s c = mk_frame held (PCli l e) -> pushcli_count id e (p_mach s) = Ok () m ->
    sp_step s (goto s c (mk_frame held (PHolding l)) m)
| sp_not_holding s c id held l m :
    ids !! c = Some id -> p_top s c = mk_frame held (PHolding l) -> holding id l (p_mach s) = Ok false m ->
    sp_step s (goto s c (mk_frame held (PSpin l)) m)
| sp_xchg s c id held l old m :
    ids !! c = Some id -> p_top s c = mk_frame held (PSpin l) -> xchg l 1 (p_mach s) = Ok old m ->
    sp_step s (goto s c (mk_frame held (if old =? 0 then PGot l else PSpin l)) m)
| sp_owner s c id held l pcs i m m' :
    ids !! c = Some id -> p_top s c = mk_frame held (PGot l) -> mycpu id (p_mach s) = Ok i m ->
    (setlock l (fun k => k <| lk_cpu := Some i |>);; setlock l (fun k => k <| lk_pcs := pcs |>)) m = Ok () m' ->
    sp_step s (goto s c (mk_frame (l :: held) POut) m')
| sp_release s c id held l m :
    ids !! c = Some id -> p_top s c = mk_frame held POut -> l ∈ held -> holding id l (p_mach s) = Ok true m ->
    sp_step s (goto s c (mk_frame (filter (.≠ l) held) (PRel l)) m)
| sp_unset s c held l m :
    p_top s c = mk_frame held (PRel l) -> (c < length ids)%nat ->
    (setlock l (fun k => k <| lk_pcs := <[0%nat := 0]> (lk_pcs k) |>);; setlock l (fun k => k <| lk_cpu := None |>)) (p_mach s) = Ok () m ->
    sp_step s (goto s c (mk_frame held (PUnset l)) m)
| sp_unlock s c held l m :
    p_top s c = mk_frame held (PUnset l) -> (c < length ids)%nat ->
    setlock l (fun k => k <| lk_locked := 0 |>) (p_mach s) = Ok () m ->
    sp_step s (goto s c (mk_frame held (PPop l)) m)
| sp_popcli s c id held l m :
    ids !! c = Some id -> p_top s c = mk_frame held (PPop l) -> popcli id (p_mach s) = Ok () m ->
    sp_step s (goto s c (mk_frame held POut) m)
| sp_interrupt s c id m :
    ids !! c = Some id -> m_if (p_mach s) id = true -> cli id (p_mach s) = Ok () m ->
    sp_step s (mk_spsys m (updn (p_top s) c (mk_frame [] POut)) (updn (p_under s) c (p_top s c :: p_under s c)))
| sp_iret s c id f fs m :
    ids !! c = Some id -> p_top s c = mk_frame [] POut -> p_under s c = f :: fs -> sti id (p_mach s) = Ok () m ->
    sp_step s (mk_spsys m (updn (p_top s) c f) (updn (p_under s) c fs)).
End steps.

(** All locks free, interrupts on. *)
Definition sp_init (ids : list Z) : spsys :=
  mk_spsys (mk_mach (fun _ => initlock) ((fun id => mk_cpu id 0 false) <$> ids) (fun _ => true))
    (fun _ => mk_frame [] POut) (fun _ => []).

(** What a routine call would do in a state: panic or not. *)
Definition panics {S A} (m : M S A) (s : S) : Prop := exists e, m s = Panic e.

(** ** The invariant *)

Definition pc_lock (p : pc) : option Z :=
  match p with
  | POut => None
  | PRead l _ | PCli l _ | PHolding l | PSpin l | PGot l | PRel l | PUnset l | PPop l => Some l
  end.

(** Between [pushcli] and [popcli]. *)
Definition pushed (p : pc) : Z :=
  match p with POut | PRead _ _ | PCli _ _ => 0 | _ => 1 end.
Definition saved_flag (p : pc) : option bool :=
  match p with PRead _ e | PCli _ e => Some e | _ => None end.
Definition in_cli (p : pc) : bool := match p with PCli _ _ => true | _ => false end.

(** The lock's [locked] word is this thread's doing; its [cpu] field names
    this thread's CPU. *)
Definition owns (f : frame) (l : Z) : Prop :=
  l ∈ f_held f \/ f_pc f = PGot l \/ f_pc f = PRel l \/ f_pc f = PUnset l.
Definition marks (f : frame) (l : Z) : Prop := l ∈ f_held f \/ f_pc f = PRel l.

Definition interruptible (f : frame) : Prop :=
  f_held f = [] /\ (f_pc f = POut \/ exists l, f_pc f = PRead l true).

(** One CPU: [ncli] counts the locks held or being acquired or released,
    interrupts are off while it is positive and in interrupt handlers, and
    [intena] remembers whether to turn them on again. *)
Record cpu_inv (m : mach) (c : nat) (id : Z) (f : frame) (under : list frame) : Prop := {
  ci_cpu : exists x, m_cpus m !! c = Some x /\ c_apicid x = id /\
    c_ncli x = Z.of_nat (length (f_held f)) + pushed (f_pc f) /\
    (0 < c_ncli x -> c_intena x = bool_decide (under = []));
  ci_if : m_if m id = bool_decide (under = []) && (Z.of_nat (length (f_held f)) + pushed (f_pc f) =? 0) && negb (in_cli (f_pc f));
  ci_flag : forall e, saved_flag (f_pc f) = Some e ->
    e = bool_decide (under = []) && (Z.of_nat (length (f_held f)) =? 0);
  ci_nodup : NoDup (f_held f);
  ci_fresh : forall l, pc_lock (f_pc f) = Some l -> l ∉ f_held f;
  ci_under : Forall interruptible under;
  ci_depth : (length under <= 1)%nat
}.

(** One lock: it is locked exactly when some thread owns it, only one does,
    and its [cpu] field is right. *)
Record lock_inv (n : nat) (k : spinlock) (top : nat -> frame) (l : Z) : Prop := {
  li_own : forall c, (c < n)%nat -> owns (top c) l -> lk_locked k <> 0;
  li_excl : forall c c', (c < n)%nat -> (c' < n)%nat -> owns (top c) l -> owns (top c') l -> c = c';
  li_held : lk_locked k <> 0 -> exists c, (c < n)%nat /\ owns (top c) l;
  li_mark : forall c, lk_cpu k = Some c <-> (c < n)%nat /\ marks (top c) l
}.

Record sp_inv (ids : list Z) (s : spsys) : Prop := {
  si_cpu : forall c id, ids !! c = Some id -> cpu_inv (p_mach s) c id (p_top s c) (p_under s c);
  si_len : length (m_cpus (p_mach s)) = length ids;
  si_lock : forall l, lock_inv (length ids) (m_locks (p_mach s) l) (p_top s) l
}.

Lemma updn_eq {V} (f : nat -> V) k v : updn f k v k = v.
Proof. unfold updn. by rewrite decide_True. Qed.

Lemma updn_ne {V} (f : nat -> V) k v k' : k' <> k -> updn f k v k' = f k'.
Proof. intros H. unfold updn. by rewrite decide_False. Qed.

Lemma marks_owns f l : marks f l -> owns f l.
Proof. unfold marks, owns. tauto. Qed.

Section invariant.
Variable ids : list Z.
Hypothesis ids_nodup : NoDup ids.

(** [mycpu] finds the CPU it runs on. *)
Lemma find_cpu (m : mach) s c id :
  sp_inv ids s -> p_mach s = m -> ids !! c = Some id ->
  find_idx (fun x => c_apicid x =? id) (m_cpus m) = Some c.
Proof.
  intros Hs <- Hc. apply find_idx_Some. split.
  - destruct (ci_cpu _ _ _ _ _ (si_cpu _ _ Hs c id Hc)) as (x & Hx & Ha & _). exists x. split; [done|]. by apply Z.eqb_eq.
  - intros j y Hj Hy. pose proof (lookup_lt_Some _ _ _ Hy) as Hlt. rewrite (si_len _ _ Hs) in Hlt.
    apply lookup_lt_is_Some in Hlt as [idj Hidj].
    destruct (ci_cpu _ _ _ _ _ (si_cpu _ _ Hs j idj Hidj)) as (x & Hx & Ha & _).
    assert (x = y) as -> by congruence. apply Z.eqb_neq. rewrite Ha. intros ->.
    pose proof (NoDup_lookup ids j c id ids_nodup Hidj Hc). lia.
Qed.

Lemma mycpu_ok s c id :
  sp_inv ids s -> ids !! c = Some id -> m_if (p_mach s) id = false -> mycpu id (p_mach s) = Ok c (p_mach s).
Proof.
  intros Hs Hc Hif. unfold mycpu, mbind, M_bind, readeflags, gets. rewrite Hif. by rewrite (find_cpu _ s c).
Qed.

Lemma ids_other c c' id id' : ids !! c = Some id -> ids !! c' = Some id' -> c' <> c -> id' <> id.
Proof. intros H H' Hne ->. by pose proof (NoDup_lookup ids c' c id ids_nodup H' H). Qed.

(** A step of the thread on CPU [c] leaves the other CPUs alone. *)
Lemma cpu_inv_step s c id f under m :
  sp_inv ids s -> ids !! c = Some id ->
  (forall c', c' <> c -> m_cpus m !! c' = m_cpus (p_mach s) !! c') ->
  (forall id', id' <> id -> m_if m id' = m_if (p_mach s) id') ->
  cpu_inv m c id f under ->
  forall c' id', ids !! c' = Some id' -> cpu_inv m c' id' (updn (p_top s) c f c') (updn (p_under s) c under c').
Proof.
  intros Hs Hc Hcpu Hif Hnew c' id' Hc'. destruct (decide (c' = c)) as [->|Hne].
  - assert (id' = id) as -> by congruence. by rewrite !updn_eq.
  - rewrite !updn_ne by done. pose proof (ids_other _ _ _ _ Hc Hc' Hne) as Hid.
    destruct (si_cpu _ _ Hs c' id' Hc') as [Hx H1 H2 H3 H4 H5 H6]. split; try done.
    + by rewrite Hcpu.
    + by rewrite Hif.
Qed.

(** A lock whose owner and mark the step does not change. *)
Lemma lock_inv_frame n k k' top c f l :
  lock_inv n k top l -> lk_locked k' = lk_locked k -> lk_cpu k' = lk_cpu k ->
  (owns f l <-> owns (top c) l) -> (marks f l <-> marks (top c) l) ->
  lock_inv n k' (updn top c f) l.
Proof.
  intros [Ho He Hh Hm] El Ec Ho' Hm'.
  assert (Eo : forall d, owns (updn top c f d) l <-> owns (top d) l).
  { intros d. destruct (decide (d = c)) as [->|]; [by rewrite updn_eq|by rewrite updn_ne]. }
  assert (Em : forall d, marks (updn top c f d) l <-> marks (top d) l).
  { intros d. destruct (decide (d = c)) as [->|]; [by rewrite updn_eq|by rewrite updn_ne]. }
  split.
  - intros d Hd. rewrite Eo, El. by apply Ho.
  - intros d d' Hd Hd'. rewrite !Eo. by apply He.
  - rewrite El. intros H. destruct (Hh H) as (d & ? & ?). exists d. by rewrite Eo.
  - intros d. rewrite Ec, Em. apply Hm.
Qed.

(** A thread takes a free lock. *)
Lemma lock_inv_take n k k' top c f l :
  lock_inv n k top l -> (c < n)%nat -> lk_locked k = 0 -> lk_locked k' <> 0 -> lk_cpu k' = lk_cpu k ->
  owns f l -> ~ marks f l -> lock_inv n k' (updn top c f) l.
Proof.
  intros [Ho He Hh Hm] Hc El El' Ec Hof Hmf.
  assert (Hno : forall d, (d < n)%nat -> ~ owns (top d) l) by (intros d Hd Hw; by apply (Ho d)).
  assert (Hd : forall d, (d < n)%nat -> owns (updn top c f d) l -> d = c).
  { intros d Hd. destruct (decide (d = c)); [done|]. rewrite updn_ne by done. intros Hw. by destruct (Hno d). }
  split.
  - done.
  - intros d d' Hd1 Hd2 H1 H2. by rewrite (Hd d), (Hd d').
  - intros _. exists c. split; [done|]. by rewrite updn_eq.
  - intros d. rewrite Ec, Hm. split.
    + intros [Hdn Hdm]. by destruct (Hno d Hdn (marks_owns _ _ Hdm)).
    + intros [Hdn Hdm]. pose proof (Hd d Hdn (marks_owns _ _ Hdm)) as ->. by rewrite updn_eq in Hdm.
Qed.

(** The owner of a lock sets or clears its [cpu] field. *)
Lemma lock_inv_mark n k k' top c f l :
  lock_inv n k top l -> (c < n)%nat -> owns (top c) l -> owns f l -> lk_locked k' = lk_locked k ->
  (lk_cpu k' = Some c /\ marks f l \/ lk_cpu k' = None /\ ~ marks f l) ->
  lock_inv n k' (updn top c f) l.
Proof.
  intros [Ho He Hh Hm] Hc Hoc Hof El Hcpu.
  assert (Eo : forall d, owns (updn top c f d) l <-> owns (top d) l).
  { intros d. destruct (decide (d = c)) as [->|]; [by rewrite updn_eq|by rewrite updn_ne]. }
  assert (Honly : forall d, (d < n)%nat -> marks (updn top c f d) l -> d = c).
  { intros d Hd Hw. apply He; [done|done| |done]. by apply Eo, marks_owns. }
  split.
  - intros d Hd. rewrite Eo, El. by apply Ho.
  - intros d d' Hd Hd'. rewrite !Eo. by apply He.
  - rewrite El. intros H. destruct (Hh H) as (d & ? & ?). exists d. by rewrite Eo.
  - intros d. destruct Hcpu as [[-> Hmf]|[-> Hmf]]; split; try done.
    + intros [= <-]. by rewrite updn_eq.
    + intros [Hd Hw]. by rewrite (Honly d).
    + intros [Hd Hw]. pose proof (Honly d Hd Hw) as ->. by rewrite updn_eq in Hw.
Qed.

(** The owner frees the lock. *)
Lemma lock_inv_drop n k k' top c f l :
  lock_inv n k top l -> (c < n)%nat -> owns (top c) l -> ~ marks (top c) l -> ~ owns f l ->
  lk_locked k' = 0 -> lk_cpu k' = lk_cpu k -> lock_inv n k' (updn top c f) l.
Proof.
  intros [Ho He Hh Hm] Hc Hoc Hmc Hof El Ec.
  assert (Hno : forall d, (d < n)%nat -> ~ owns (updn top c f d) l).
  { intros d Hd. destruct (decide (d = c)) as [->|Hne]; [by rewrite updn_eq|]. rewrite updn_ne by done.
    intros Hw. by apply Hne, He. }
  split.
  - intros d Hd Hw. by destruct (Hno d).
  - intros d d' Hd _ Hw. by destruct (Hno d).
  - done.
  - intros d. rewrite Ec, Hm. split.
    + intros [Hd Hw]. assert (d = c) as ->; [|done]. apply He; [done|done|by apply marks_owns|done].
    + intros [Hd Hw%marks_owns]. by destruct (Hno d).
Qed.

Lemma goto_inv s c id f m :
  sp_inv ids s -> ids !! c = Some id ->
  (forall c', c' <> c -> m_cpus m !! c' = m_cpus (p_mach s) !! c') ->
  length (m_cpus m) = length (m_cpus (p_mach s)) ->
  (forall id', id' <> id -> m_if m id' = m_if (p_mach s) id') ->
  cpu_inv m c id f (p_under s c) ->
  (forall l, lock_inv (length ids) (m_locks m l) (updn (p_top s) c f) l) ->
  sp_inv ids (goto s c f m).
Proof.
  intros Hs Hc H1 Hl H2 H3 H4. split; simpl.
  - intros c' id' Hc'. pose proof (cpu_inv_step s c id f _ m Hs Hc H1 H2 H3 c' id' Hc') as H.
    destruct (decide (c' = c)) as [->|]; [by rewrite !updn_eq in *|]. by rewrite !updn_ne in * by done.
  - rewrite Hl. apply (si_len _ _ Hs).
  - done.
Qed.

(** A step that changes no lock. *)
Lemma goto_inv_quiet s c id f m :
  sp_inv ids s -> ids !! c = Some id ->
  (forall c', c' <> c -> m_cpus m !! c' = m_cpus (p_mach s) !! c') ->
  length (m_cpus m) = length (m_cpus (p_mach s)) ->
  (forall id', id' <> id -> m_if m id' = m_if (p_mach s) id') ->
  cpu_inv m c id f (p_under s c) -> m_locks m = m_locks (p_mach s) ->
  (forall l, owns f l <-> owns (p_top s c) l) -> (forall l, marks f l <-> marks (p_top s c) l) ->
  sp_inv ids (goto s c f m).
Proof.
  intros Hs Hc H1 Hl H2 H3 H4 Ho Hm. eapply goto_inv; try done. intros l. rewrite H4.
  by apply (lock_inv_frame _ (m_locks (p_mach s) l)); [apply (si_lock _ _ Hs)|..].
Qed.

(** A step that changes one lock only. *)
Lemma goto_inv_lock s c id f m l :
  sp_inv ids s -> ids !! c = Some id -> m_cpus m = m_cpus (p_mach s) -> m_if m = m_if (p_mach s) ->
  cpu_inv (p_mach s) c id f (p_under s c) ->
  lock_inv (length ids) (m_locks m l) (updn (p_top s) c f) l ->
  (forall l', l' <> l -> m_locks m l' = m_locks (p_mach s) l' /\
     (owns f l' <-> owns (p_top s c) l') /\ (marks f l' <-> marks (p_top s c) l')) ->
  sp_inv ids (goto s c f m).
Proof.
  intros Hs Hc Ecpu Eif H1 H2 Ho. eapply goto_inv; try done; rewrite ?Ecpu, ?Eif; try done.
  - destruct H1. split; by rewrite ?Ecpu, ?Eif.
  - intros l'. destruct (decide (l' = l)) as [->|Hne]; [done|]. destruct (Ho l' Hne) as (-> & Hw & Hm).
    by apply (lock_inv_frame _ (m_locks (p_mach s) l')); [apply (si_lock _ _ Hs)|..].
Qed.

Lemma setlock_twice l f g m :
  exists m', (setlock l f;; setlock l g) m = Ok () m' /\ m_cpus m' = m_cpus m /\ m_if m' = m_if m /\
    m_locks m' l = g (f (m_locks m l)) /\ forall l', l' <> l -> m_locks m' l' = m_locks m l'.
Proof.
  eexists. split; [reflexivity|]. simpl. rewrite !upd_eq. split_and!; try done.
  intros l' H. by rewrite !upd_ne.
Qed.

(** The interrupt flag and the counter of a CPU, from its thread's state. *)
Lemma inv_if_off s c id held p :
  sp_inv ids s -> ids !! c = Some id -> p_top s c = mk_frame held p ->
  (0 < Z.of_nat (length held) + pushed p \/ in_cli p = true) -> m_if (p_mach s) id = false.
Proof.
  intros Hs Hc Ht Hp. rewrite (ci_if _ _ _ _ _ (si_cpu _ _ Hs c id Hc)), Ht. simpl.
  destruct Hp as [Hp|Hp]; [|by rewrite Hp, andb_false_r].
  replace (Z.of_nat (length held) + pushed p =? 0) with false by (symmetry; apply Z.eqb_neq; lia).
  by rewrite andb_false_r.
Qed.

Lemma holding_ok s c id l :
  sp_inv ids s -> ids !! c = Some id -> m_if (p_mach s) id = false ->
  holding id l (p_mach s) =
    Ok (negb (lk_locked (m_locks (p_mach s) l) =? 0) && bool_decide (lk_cpu (m_locks (p_mach s) l) = Some c)) (p_mach s).
Proof.
  intros Hs Hc Hif. unfold holding, mbind, M_bind, gets. destruct (lk_locked _ =? 0); [done|].
  by rewrite (mycpu_ok s c).
Qed.

Lemma pushcli_count_ok s c id e x :
  sp_inv ids s -> ids !! c = Some id -> m_if (p_mach s) id = false -> m_cpus (p_mach s) !! c = Some x ->
  pushcli_count id e (p_mach s) =
    Ok () ((p_mach s) <| m_cpus := <[c := mk_cpu (c_apicid x) (c_ncli x + 1) (if c_ncli x =? 0 then e else c_intena x)]> (m_cpus (p_mach s)) |>).
Proof.
  intros Hs Hc Hif Hx. unfold pushcli_count, mbind, M_bind. rewrite (mycpu_ok s c) by done.
  unfold getcpu, setcpu, gets, when, modify. rewrite (list_lookup_total_correct _ _ _ Hx).
  pose proof (lookup_lt_Some _ _ _ Hx) as Hlt.
  destruct (c_ncli x =? 0); cbn; rewrite ?list_lookup_total_insert_eq, ?list_insert_insert_eq,
    (list_lookup_total_correct _ _ _ Hx) by done; reflexivity.
Qed.

Lemma popcli_ok s c id x :
  sp_inv ids s -> ids !! c = Some id -> m_if (p_mach s) id = false -> m_cpus (p_mach s) !! c = Some x -> 0 < c_ncli x ->
  popcli id (p_mach s) =
    Ok () ((p_mach s) <| m_cpus := <[c := mk_cpu (c_apicid x) (c_ncli x - 1) (c_intena x)]> (m_cpus (p_mach s)) |>
      <| m_if := if (c_ncli x - 1 =? 0) && c_intena x then upd (m_if (p_mach s)) id true else m_if (p_mach s) |>).
Proof.
  intros Hs Hc Hif Hx Hn. unfold popcli, mbind, M_bind, readeflags, gets. rewrite Hif, (mycpu_ok s c) by done.
  unfold getcpu, setcpu, gets, when, modify. simpl. pose proof (lookup_lt_Some _ _ _ Hx) as Hlt.
  rewrite (list_lookup_total_correct _ _ _ Hx). cbn. rewrite !list_lookup_total_insert_eq by done. cbn.
  rewrite (proj2 (Z.ltb_ge _ _)) by lia. cbn. rewrite list_lookup_total_insert_eq by done. cbn.
  destruct ((c_ncli x - 1 =? 0) && c_intena x); reflexivity.
Qed.

(** The steps that only concern the thread's own CPU. *)
Lemma cpu_inv_pc s c id held p p' :
  sp_inv ids s -> ids !! c = Some id -> p_top s c = mk_frame held p ->
  pushed p' = pushed p -> in_cli p' = in_cli p ->
  (forall e, saved_flag p' = Some e -> e = m_if (p_mach s) id /\ in_cli p = false /\ pushed p = 0) ->
  (forall l, pc_lock p' = Some l -> l ∉ held) ->
  cpu_inv (p_mach s) c id (mk_frame held p') (p_under s c).
Proof.
  intros Hs Hc Ht Hp Hi He Hl. destruct (si_cpu _ _ Hs c id Hc) as [Hx Hif Hf Hn Hfr Hu Hd]. rewrite Ht in *. simpl in *.
  split; simpl; rewrite ?Hp, ?Hi; try done.
  intros e (-> & Hi' & Hp')%He. rewrite Hif, Hi', Hp', Z.add_0_r. by rewrite andb_true_r.
Qed.

Lemma call_inv s c id held l :
  sp_inv ids s -> ids !! c = Some id -> p_top s c = mk_frame held POut -> l ∉ held ->
  sp_inv ids (goto s c (mk_frame held (PRead l (m_if (p_mach s) id))) (p_mach s)).
Proof.
  intros Hs Hc Ht Hl. eapply (goto_inv_quiet s c id); try done.
  - eapply cpu_inv_pc; try done; simpl; naive_solver.
  - rewrite Ht. unfold owns. simpl. naive_solver.
  - rewrite Ht. unfold marks. simpl. naive_solver.
Qed.

Lemma cli_inv s c id held l e :
  sp_inv ids s -> ids !! c = Some id -> p_top s c = mk_frame held (PRead l e) ->
  sp_inv ids (goto s c (mk_frame held (PCli l e)) ((p_mach s) <| m_if := upd (m_if (p_mach s)) id false |>)).
Proof.
  intros Hs Hc Ht. eapply (goto_inv_quiet s c id); try done.
  - intros id' Hid. simpl. by rewrite upd_ne.
  - destruct (si_cpu _ _ Hs c id Hc) as [Hx Hif Hf Hn Hfr Hu Hd]. rewrite Ht in *.
    split; simpl in *; try done. by rewrite upd_eq, andb_false_r.
  - rewrite Ht. unfold owns. simpl. naive_solver.
  - rewrite Ht. unfold marks. simpl. naive_solver.
Qed.

Lemma count_inv s c id held l e m :
  sp_inv ids s -> ids !! c = Some id -> p_top s c = mk_frame held (PCli l e) ->
  pushcli_count id e (p_mach s) = Ok () m -> sp_inv ids (goto s c (mk_frame held (PHolding l)) m).
Proof.
  intros Hs Hc Ht Hrun. assert (Hoff : m_if (p_mach s) id = false) by (by eapply inv_if_off; eauto).
  destruct (si_cpu _ _ Hs c id Hc) as [(x & Hx & Ha & Hnc & Hia) Hif Hf Hn Hfr Hu Hd]. rewrite Ht in *. simpl in *.
  rewrite (pushcli_count_ok s c id e x) in Hrun by done. injection Hrun as <-.
  pose proof (lookup_lt_Some _ _ _ Hx) as Hlt.
  eapply (goto_inv_quiet s c id); try done; simpl.
  - intros c' Hne. by rewrite list_lookup_insert_ne.
  - by rewrite length_insert.
  - split; simpl; try done.
    + eexists. split; [by rewrite list_lookup_insert_eq|]. simpl. split_and!; [done|lia|]. intros _.
      destruct (Z.eqb_spec (c_ncli x) 0) as [E|E].
      * rewrite (Hf e eq_refl). replace (Z.of_nat (length held) =? 0) with true; [by rewrite andb_true_r|].
        symmetry. apply Z.eqb_eq. lia.
      * apply Hia. lia.
    + rewrite Hoff. symmetry. apply andb_false_iff. left. apply andb_false_iff. right. apply Z.eqb_neq. lia.
  - rewrite Ht. unfold owns. simpl. naive_solver.
  - rewrite Ht. unfold marks. simpl. naive_solver.
Qed.

Lemma xchg_inv s c id held l old m :
  sp_inv ids s -> ids !! c = Some id -> p_top s c = mk_frame held (PSpin l) -> xchg l 1 (p_mach s) = Ok old m ->
  sp_inv ids (goto s c (mk_frame held (if old =? 0 then PGot l else PSpin l)) m).
Proof.
  intros Hs Hc Ht [= <- <-]. pose proof (lookup_lt_Some _ _ _ Hc) as Hlt.
  pose proof (ci_fresh _ _ _ _ _ (si_cpu _ _ Hs c id Hc)) as Hfr. rewrite Ht in Hfr. simpl in Hfr. specialize (Hfr l eq_refl).
  destruct (Z.eqb_spec (lk_locked (m_locks (p_mach s) l)) 0) as [E|E].
  - eapply (goto_inv_lock s c id _ _ l); try done; cbn; rewrite ?upd_eq.
    + eapply cpu_inv_pc; try done; simpl; naive_solver.
    + eapply lock_inv_take; [apply (si_lock _ _ Hs)|..]; try done; unfold owns, marks; simpl; naive_solver.
    + intros l' Hne. rewrite upd_ne by done. rewrite Ht. unfold owns, marks. simpl. naive_solver.
  - eapply (goto_inv_lock s c id _ _ l); try done; cbn; rewrite ?upd_eq.
    + eapply cpu_inv_pc; try done; simpl; naive_solver.
    + destruct (si_lock _ _ Hs l) as [Ho He Hh Hm].
      assert (Eq : forall d, updn (p_top s) c (mk_frame held (PSpin l)) d = p_top s d).
      { intros d. destruct (decide (d = c)) as [->|]; [by rewrite updn_eq|by rewrite updn_ne]. }
      split; simpl; intros *; rewrite ?Eq; eauto. intros _. destruct (Hh E) as (d & ? & ?). exists d. by rewrite Eq.
    + intros l' Hne. rewrite upd_ne by done. rewrite Ht. unfold owns, marks. simpl. naive_solver.
Qed.

Lemma fresh_lock s c id held p l :
  sp_inv ids s -> ids !! c = Some id -> p_top s c = mk_frame held p -> pc_lock p = Some l -> l ∉ held.
Proof.
  intros Hs Hc Ht Hp. pose proof (ci_fresh _ _ _ _ _ (si_cpu _ _ Hs c id Hc)) as Hfr. rewrite Ht in Hfr. by apply Hfr.
Qed.

Lemma owner_inv s c id held l pcs i m m' :
  sp_inv ids s -> ids !! c = Some id -> p_top s c = mk_frame held (PGot l) -> mycpu id (p_mach s) = Ok i m ->
  (setlock l (fun k => k <| lk_cpu := Some i |>);; setlock l (fun k => k <| lk_pcs := pcs |>)) m = Ok () m' ->
  sp_inv ids (goto s c (mk_frame (l :: held) POut) m').
Proof.
  intros Hs Hc Ht Hcpu Hset. pose proof (lookup_lt_Some _ _ _ Hc) as Hlt. pose proof (fresh_lock _ _ _ _ _ _ Hs Hc Ht eq_refl) as Hl.
  assert (Hoff : m_if (p_mach s) id = false) by (eapply inv_if_off; eauto; left; simpl; lia).
  rewrite (mycpu_ok s c id Hs Hc Hoff) in Hcpu. injection Hcpu as <- <-.
  destruct (setlock_twice l (fun k => k <| lk_cpu := Some c |>) (fun k => k <| lk_pcs := pcs |>) (p_mach s))
    as (m2 & Hrun & Ec & Ei & El & Eo). rewrite Hrun in Hset. injection Hset as <-. clear Hrun.
  eapply (goto_inv_lock s c id _ _ l); try done.
  - destruct (si_cpu _ _ Hs c id Hc) as [(x & Hx & Ha & Hnc & Hia) Hif Hf Hn Hfr Hu Hd]. rewrite Ht in *. simpl in *.
    split; simpl; try done.
    + exists x. split_and!; try done. lia.
    + rewrite Hif. do 2 f_equal. f_equal. lia.
    + by constructor.
  - rewrite El. eapply (lock_inv_mark _ (m_locks (p_mach s) l)); [apply (si_lock _ _ Hs)|done|..]; try done.
    + rewrite Ht. unfold owns. simpl. naive_solver.
    + unfold owns. simpl. set_solver.
    + left. split; [done|]. unfold marks. simpl. set_solver.
  - intros l' Hne. split; [by apply Eo|]. rewrite Ht. unfold owns, marks. simpl. set_solver.
Qed.

Lemma filter_held (held : list Z) l :
  NoDup held -> l ∈ held -> length held = S (length (filter (.≠ l) held)).
Proof.
  intros Hn. induction Hn as [|x held Hx Hn IH]; [set_solver|]. intros Hl.
  destruct (decide (x = l)) as [->|Hne].
  - rewrite filter_cons_False by naive_solver. simpl. f_equal.
    assert (filter (.≠ l) held = held) as ->; [|done].
    clear IH Hl Hn. induction held as [|y held IH]; [done|]. rewrite filter_cons_True by set_solver. f_equal. apply IH. set_solver.
  - rewrite filter_cons_True by done. simpl. f_equal. apply IH. set_solver.
Qed.

Lemma release_inv s c id held l :
  sp_inv ids s -> ids !! c = Some id -> p_top s c = mk_frame held POut -> l ∈ held ->
  sp_inv ids (goto s c (mk_frame (filter (.≠ l) held) (PRel l)) (p_mach s)).
Proof.
  intros Hs Hc Ht Hl. eapply (goto_inv_quiet s c id); try done.
  - destruct (si_cpu _ _ Hs c id Hc) as [(x & Hx & Ha & Hnc & Hia) Hif Hf Hn Hfr Hu Hd]. rewrite Ht in *. simpl in *.
    pose proof (filter_held held l Hn Hl) as Hlen. split; simpl; try done.
    + exists x. split_and!; try done. lia.
    + rewrite Hif. do 2 f_equal. f_equal. lia.
    + by apply NoDup_filter.
    + intros l' [= <-] [? _]%list_elem_of_filter. done.
  - intros l'. rewrite Ht. unfold owns. simpl. rewrite list_elem_of_filter.
    destruct (decide (l' = l)) as [->|]; naive_solver.
  - intros l'. rewrite Ht. unfold marks. simpl. rewrite list_elem_of_filter.
    destruct (decide (l' = l)) as [->|]; naive_solver.
Qed.

Lemma unset_inv s c id held l m :
  sp_inv ids s -> ids !! c = Some id -> p_top s c = mk_frame held (PRel l) ->
  (setlock l (fun k => k <| lk_pcs := <[0%nat := 0]> (lk_pcs k) |>);; setlock l (fun k => k <| lk_cpu := None |>)) (p_mach s) = Ok () m ->
  sp_inv ids (goto s c (mk_frame held (PUnset l)) m).
Proof.
  intros Hs Hc Ht Hset. pose proof (lookup_lt_Some _ _ _ Hc) as Hlt. pose proof (fresh_lock _ _ _ _ _ _ Hs Hc Ht eq_refl) as Hl.
  destruct (setlock_twice l (fun k => k <| lk_pcs := <[0%nat := 0]> (lk_pcs k) |>) (fun k => k <| lk_cpu := None |>) (p_mach s))
    as (m2 & Hrun & Ec & Ei & El & Eo). pose proof (eq_trans (eq_sym Hrun) Hset) as [= <-]. clear Hrun Hset.
  eapply (goto_inv_lock s c id _ _ l); try done.
  - eapply cpu_inv_pc; try done; simpl; naive_solver.
  - rewrite El. eapply (lock_inv_mark _ (m_locks (p_mach s) l)); [apply (si_lock _ _ Hs)|done|..]; try done.
    + rewrite Ht. unfold owns. simpl. naive_solver.
    + unfold owns. simpl. naive_solver.
    + right. split; [done|]. unfold marks. simpl. naive_solver.
  - intros l' Hne. split; [by apply Eo|]. rewrite Ht. unfold owns, marks. simpl. naive_solver.
Qed.

Lemma unlock_inv s c id held l :
  sp_inv ids s -> ids !! c = Some id -> p_top s c = mk_frame held (PUnset l) ->
  sp_inv ids (goto s c (mk_frame held (PPop l)) ((p_mach s) <| m_locks :=
    upd (m_locks (p_mach s)) l ((m_locks (p_mach s) l) <| lk_locked := 0 |>) |>)).
Proof.
  intros Hs Hc Ht. pose proof (lookup_lt_Some _ _ _ Hc) as Hlt. pose proof (fresh_lock _ _ _ _ _ _ Hs Hc Ht eq_refl) as Hl.
  eapply (goto_inv_lock s c id _ _ l); try done; simpl; rewrite ?upd_eq.
  - eapply cpu_inv_pc; try done; simpl; naive_solver.
  - eapply (lock_inv_drop _ (m_locks (p_mach s) l)); [apply (si_lock _ _ Hs)|done|..]; try done; rewrite ?Ht;
      unfold owns, marks; simpl; naive_solver.
  - intros l' Hne. rewrite upd_ne by done. split; [done|]. rewrite Ht. unfold owns, marks. simpl. naive_solver.
Qed.

Lemma popcli_inv s c id held l m :
  sp_inv ids s -> ids !! c = Some id -> p_top s c = mk_frame held (PPop l) -> popcli id (p_mach s) = Ok () m ->
  sp_inv ids (goto s c (mk_frame held POut) m).
Proof.
  intros Hs Hc Ht Hrun. assert (Hoff : m_if (p_mach s) id = false) by (eapply inv_if_off; eauto; left; simpl; lia).
  destruct (si_cpu _ _ Hs c id Hc) as [(x & Hx & Ha & Hnc & Hia) Hif Hf Hn Hfr Hu Hd]. rewrite Ht in *. simpl in *.
  rewrite (popcli_ok s c id x) in Hrun by (done || lia). injection Hrun as <-.
  pose proof (lookup_lt_Some _ _ _ Hx) as Hlt. assert (Hin : c_intena x = bool_decide (p_under s c = [])) by (apply Hia; lia).
  eapply (goto_inv_quiet s c id); try done; simpl.
  - intros c' Hne. by rewrite list_lookup_insert_ne.
  - by rewrite length_insert.
  - intros id' Hid. destruct ((c_ncli x - 1 =? 0) && c_intena x); cbn; [by rewrite upd_ne|done].
  - split; simpl; try done.
    + eexists. split; [by rewrite list_lookup_insert_eq|]. simpl. split_and!; [done|lia|done].
    + rewrite Hin, Z.add_0_r, andb_true_r. replace (c_ncli x - 1) with (Z.of_nat (length held)) by lia.
      destruct (Z.of_nat (length held) =? 0) eqn:E, (bool_decide (p_under s c = [])) eqn:Eb; cbn; rewrite ?upd_eq; done.
  - rewrite Ht. unfold owns. simpl. naive_solver.
  - rewrite Ht. unfold marks. simpl. naive_solver.
Qed.

Lemma interrupt_inv s c id :
  sp_inv ids s -> ids !! c = Some id -> m_if (p_mach s) id = true ->
  sp_inv ids (mk_spsys ((p_mach s) <| m_if := upd (m_if (p_mach s)) id false |>)
    (updn (p_top s) c (mk_frame [] POut)) (updn (p_under s) c (p_top s c :: p_under s c))).
Proof.
  intros Hs Hc Hon. destruct (si_cpu _ _ Hs c id Hc) as [(x & Hx & Ha & Hnc & Hia) Hif Hf Hn Hfr Hu Hd].
  rewrite Hon in Hif. symmetry in Hif. apply andb_true_iff in Hif as [[Hb%bool_decide_eq_true Hz%Z.eqb_eq]%andb_true_iff Hcli].
  assert (Hheld : f_held (p_top s c) = []).
  { destruct (f_held (p_top s c)); [done|]. simpl in Hz. destruct (f_pc (p_top s c)); simpl in Hz; lia. }
  assert (Hint : interruptible (p_top s c)).
  { split; [done|]. rewrite Hheld, Hb in Hf. rewrite Hheld in Hz.
    destruct (f_pc (p_top s c)) as [|l e|l e|l|l|l|l|l|l]; simpl in *; try lia; [by left|right].
    exists l. f_equal. by apply Hf. }
  assert (Hp : pushed (f_pc (p_top s c)) = 0) by (rewrite Hheld in Hz; exact Hz).
  split; simpl; [|apply (si_len _ _ Hs)|].
  - apply (cpu_inv_step s c id); try done.
    + intros id' Hid. simpl. by rewrite upd_ne.
    + split; simpl; try done.
      * exists x. split_and!; try done; [rewrite Hnc, Hheld, Hp; done|]. rewrite Hnc, Hheld, Hp. simpl. lia.
      * by rewrite upd_eq.
      * by constructor.
      * constructor; [done|]. by rewrite Hb.
      * rewrite Hb. simpl. lia.
  - intros l. eapply lock_inv_frame; [apply (si_lock _ _ Hs)|done|done|..]; unfold owns, marks; rewrite Hheld; simpl;
      destruct Hint as [_ [->|[? ->]]]; naive_solver.
Qed.

Lemma iret_inv s c id f fs :
  sp_inv ids s -> ids !! c = Some id -> p_top s c = mk_frame [] POut -> p_under s c = f :: fs ->
  sp_inv ids (mk_spsys ((p_mach s) <| m_if := upd (m_if (p_mach s)) id true |>) (updn (p_top s) c f) (updn (p_under s) c fs)).
Proof.
  intros Hs Hc Ht Hun. destruct (si_cpu _ _ Hs c id Hc) as [(x & Hx & Ha & Hnc & Hia) Hif Hf Hn Hfr Hu Hd].
  rewrite Hun in *. rewrite Ht in *. simpl in *. apply Forall_cons in Hu as [[Hh Hp] _].
  assert (fs = []) as -> by (destruct fs; simpl in *; [done|lia]).
  split; simpl; [|apply (si_len _ _ Hs)|].
  - apply (cpu_inv_step s c id); try done.
    + intros id' Hid. simpl. by rewrite upd_ne.
    + split; simpl; rewrite ?Hh; try done; try (by constructor); try lia.
      * exists x. rewrite Hnc. split_and!; try done. destruct Hp as [->|[? ->]]; done.
      * rewrite upd_eq. by destruct Hp as [->|[? ->]].
      * intros e. by destruct Hp as [->|[? ->]]; simpl; [|intros [= <-]].
      * intros l _ ?. set_solver.
  - intros l. eapply lock_inv_frame; [apply (si_lock _ _ Hs)|done|done|..]; rewrite Ht; unfold owns, marks; rewrite Hh; simpl;
      destruct Hp as [->|[? ->]]; naive_solver.
Qed.

Lemma sp_inv_step s s' : sp_inv ids s -> sp_step ids s s' -> sp_inv ids s'.
Proof.
  intros Hs Hst. destruct Hst as
    [s c id held l e m Hc Ht Hl [= <- <-]|s c id held l e m Hc Ht [= <-]|s c id held l e m Hc Ht Hr
    |s c id held l m Hc Ht Hr|s c id held l old m Hc Ht Hr|s c id held l pcs i m m' Hc Ht Hr Hr'
    |s c id held l m Hc Ht Hl Hr|s c held l m Ht Hlt Hr|s c held l m Ht Hlt [= <-]|s c id held l m Hc Ht Hr
    |s c id m Hc Hon [= <-]|s c id f fs m Hc Ht Hu [= <-]].
  - by apply call_inv.
  - by apply cli_inv.
  - by eapply count_inv.
  - rewrite (holding_ok s c id l Hs Hc) in Hr by (eapply inv_if_off; eauto; left; simpl; lia). injection Hr as _ <-.
    eapply (goto_inv_quiet s c id); try done; [|rewrite Ht; unfold owns; simpl; naive_solver|rewrite Ht; unfold marks; simpl; naive_solver].
    eapply cpu_inv_pc; try done. intros l' [= <-]. by eapply fresh_lock.
  - by eapply xchg_inv.
  - by eapply owner_inv.
  - rewrite (holding_ok s c id l Hs Hc) in Hr.
    + injection Hr as _ <-. by eapply release_inv.
    + eapply inv_if_off; eauto. left. destruct held; [set_solver|simpl; lia].
  - apply lookup_lt_is_Some in Hlt as [id Hc]. by eapply unset_inv.
  - apply lookup_lt_is_Some in Hlt as [id Hc]. by eapply unlock_inv.
  - by eapply popcli_inv.
  - by apply interrupt_inv.
  - by eapply iret_inv.
Qed.

Lemma sp_inv_init : sp_inv ids (sp_init ids).
Proof.
  split; simpl.
  - intros c id Hc. split; simpl; try done; [|constructor|lia].
    exists (mk_cpu id 0 false). rewrite list_lookup_fmap, Hc. done.
  - by rewrite length_fmap.
  - intros l. split; simpl; unfold owns, marks; simpl; try done; intros; set_solver.
Qed.

Lemma sp_inv_reachable s : rtc (sp_step ids) (sp_init ids) s -> sp_inv ids s.
Proof. apply rtc_invariant; [apply sp_inv_init|apply sp_inv_step]. Qed.
End invariant.

(** ** One CPU on its own *)

(** The CPU with APIC id [id] is [cpus[c]]. *)
Definition cpu_is (m : mach) (id : Z) (c : nat) (x : cpu) : Prop :=
  find_idx (fun y => c_apicid y =? id) (m_cpus m) = Some c /\ m_cpus m !! c = Some x.

Lemma cpu_is_insert m m' id c x y :
  cpu_is m id c x -> c_apicid y = c_apicid x -> m_cpus m' = <[c := y]> (m_cpus m) -> cpu_is m' id c y.
Proof.
  intros [Hf Hx] Hy Em. unfold cpu_is. rewrite Em. clear Em. pose proof (lookup_lt_Some _ _ _ Hx) as Hlt. split; cbn; [|by rewrite list_lookup_insert_eq].
  apply find_idx_Some in Hf as [(z & Hz & Ez) Hb]. apply find_idx_Some. split.
  - exists y. rewrite list_lookup_insert_eq by done. split; [done|]. congruence.
  - intros j w Hj. rewrite list_lookup_insert_ne by lia. by apply Hb.
Qed.

Lemma mycpu_at m id c x : cpu_is m id c x -> m_if m id = false -> mycpu id m = Ok c m.
Proof. intros [Hf _] Hif. unfold mycpu, mbind, M_bind, readeflags, gets. by rewrite Hif, Hf. Qed.

Lemma pushcli_at m id c x :
  cpu_is m id c x ->
  pushcli id m = Ok () (m <| m_if := upd (m_if m) id false |>
    <| m_cpus := <[c := mk_cpu (c_apicid x) (c_ncli x + 1) (if c_ncli x =? 0 then m_if m id else c_intena x)]> (m_cpus m) |>).
Proof.
  intros Hc. unfold pushcli, cli, readeflags, gets, modify, mbind, M_bind, pushcli_count. cbn beta iota.
  unfold mbind, M_bind. rewrite (mycpu_at _ id c x) by (done || apply upd_eq). destruct Hc as [_ Hx]. pose proof (lookup_lt_Some _ _ _ Hx) as Hlt.
  unfold getcpu, setcpu, gets, when, modify. cbn. rewrite (list_lookup_total_correct _ _ _ Hx).
  destruct (c_ncli x =? 0); cbn; rewrite ?list_lookup_total_insert_eq, ?list_insert_insert_eq,
    ?(list_lookup_total_correct _ _ _ Hx) by done; reflexivity.
Qed.

Lemma popcli_at m id c x :
  cpu_is m id c x -> m_if m id = false -> 0 < c_ncli x ->
  popcli id m = Ok () (m <| m_cpus := <[c := mk_cpu (c_apicid x) (c_ncli x - 1) (c_intena x)]> (m_cpus m) |>
      <| m_if := if (c_ncli x - 1 =? 0) && c_intena x then upd (m_if m) id true else m_if m |>).
Proof.
  intros Hc Hif Hn. unfold popcli, mbind, M_bind, readeflags, gets. rewrite Hif, (mycpu_at _ id c x) by done.
  destruct Hc as [_ Hx]. pose proof (lookup_lt_Some _ _ _ Hx) as Hlt. unfold getcpu, setcpu, gets, when, modify. simpl.
  rewrite (list_lookup_total_correct _ _ _ Hx). cbn. rewrite !list_lookup_total_insert_eq by done. cbn.
  rewrite (proj2 (Z.ltb_ge _ _)) by lia. cbn. rewrite list_lookup_total_insert_eq by done. cbn.
  destruct ((c_ncli x - 1 =? 0) && c_intena x); reflexivity.
Qed.

Lemma holding_at m id c x l :
  cpu_is m id c x -> m_if m id = false ->
  holding id l m = Ok (negb (lk_locked (m_locks m l) =? 0) && bool_decide (lk_cpu (m_locks m l) = Some c)) m.
Proof.
  intros Hc Hif. unfold holding, mbind, M_bind, gets. destruct (lk_locked _ =? 0); [done|].
  by rewrite (mycpu_at m id c x).
Qed.

(** [acquire] of a free lock. *)
Lemma acquire_at m id c x l pcs :
  cpu_is m id c x -> lk_locked (m_locks m l) = 0 ->
  exists m1, acquire id l pcs m = Ok () m1 /\
    cpu_is m1 id c (mk_cpu (c_apicid x) (c_ncli x + 1) (if c_ncli x =? 0 then m_if m id else c_intena x)) /\
    m_if m1 = upd (m_if m) id false /\ m_locks m1 l = mk_spinlock 1 (Some c) pcs /\
    (forall l', l' <> l -> m_locks m1 l' = m_locks m l').
Proof.
  intros Hc Hl. unfold acquire, mbind, M_bind. rewrite (pushcli_at m id c x Hc).
  match goal with |- context [holding id l ?m0] => set (mp := m0) end.
  assert (Hcp : cpu_is mp id c (mk_cpu (c_apicid x) (c_ncli x + 1) (if c_ncli x =? 0 then m_if m id else c_intena x)))
    by (apply (cpu_is_insert m mp id c x); done).
  assert (Hoff : m_if mp id = false) by apply upd_eq.
  rewrite (holding_at mp id c _ l Hcp Hoff). change (m_locks mp l) with (m_locks m l). rewrite Hl.
  change (negb (0 =? 0)) with false. cbn [andb]. unfold xchg, mbind, M_bind, gets, setlock, modify, mret, M_ret.
  cbn beta iota. change (m_locks mp l) with (m_locks m l). rewrite Hl. change (negb (0 =? 0)) with false. cbn beta iota.
  match goal with |- context [mycpu id ?m0] => set (mx := m0) end.
  rewrite (mycpu_at mx id c _ Hcp Hoff). eexists. split; [reflexivity|]. cbn. rewrite !upd_eq.
  split; [done|]. split; [done|]. split; [done|]. intros l' Hne. by rewrite !upd_ne.
Qed.

Lemma release_at m id c x l :
  cpu_is m id c x -> m_if m id = false -> 0 < c_ncli x -> lk_locked (m_locks m l) <> 0 -> lk_cpu (m_locks m l) = Some c ->
  exists m1, release id l m = Ok () m1 /\
    cpu_is m1 id c (mk_cpu (c_apicid x) (c_ncli x - 1) (c_intena x)) /\
    m_if m1 = (if (c_ncli x - 1 =? 0) && c_intena x then upd (m_if m) id true else m_if m) /\
    lk_locked (m_locks m1 l) = 0 /\ lk_cpu (m_locks m1 l) = None /\
    (forall l', l' <> l -> m_locks m1 l' = m_locks m l').
Proof.
  intros Hc Hoff Hn Hl Hk. unfold release, mbind, M_bind. rewrite (holding_at m id c x l Hc Hoff), Hk.
  rewrite (proj2 (Z.eqb_neq _ _) Hl), bool_decide_true by done.
  change (negb (negb false && true)) with false. unfold setlock, modify. cbn beta iota.
  match goal with |- context [popcli id ?m0] => set (mp := m0) end.
  rewrite (popcli_at mp id c x Hc Hoff Hn). eexists. split; [reflexivity|]. cbn. rewrite !upd_eq.
  split; [by apply (cpu_is_insert m _ id c x)|]. split_and!; try done. intros l' Hne. by rewrite !upd_ne.
Qed.

(** on a CPU whose interrupt state is consistent, [acquire] of a free lock
    returns with the lock held and interrupts off; acquiring it again panics;
    [release] restores the interrupt flag and the nesting count to what they
    were before [acquire], frees the lock and leaves every other lock alone;
    releasing it again panics. *)
Theorem acquire_release m id c x l pcs :
  cpu_is m id c x -> 0 <= c_ncli x -> (0 < c_ncli x -> m_if m id = false) -> lk_locked (m_locks m l) = 0 ->
  exists m1 m2, acquire id l pcs m = Ok () m1 /\ m_if m1 id = false /\ holding id l m1 = Ok true m1 /\
    acquire id l pcs m1 = Panic "acquire" /\
    release id l m1 = Ok () m2 /\ m_if m2 id = m_if m id /\ lk_locked (m_locks m2 l) = 0 /\
    (exists y, cpu_is m2 id c y /\ c_ncli y = c_ncli x) /\ (forall l', l' <> l -> m_locks m2 l' = m_locks m l') /\
    (m_if m id = false -> release id l m2 = Panic "release").
Proof.
  intros Hc Hn Hif Hl. destruct (acquire_at m id c x l pcs Hc Hl) as (m1 & Ha & Hc1 & Hi1 & Hl1 & Ho1).
  assert (Hoff : m_if m1 id = false) by (rewrite Hi1; apply upd_eq).
  destruct (release_at m1 id c _ l Hc1 Hoff) as (m2 & Hr & Hc2 & Hi2 & Hl2 & Hk2 & Ho2); [simpl; lia|by rewrite Hl1..|].
  assert (Hfl : m_if m2 id = m_if m id).
  { rewrite Hi2. simpl. replace (c_ncli x + 1 - 1) with (c_ncli x) by lia.
    destruct (Z.eqb_spec (c_ncli x) 0) as [E|E]; simpl.
    - destruct (m_if m id); [apply upd_eq|done].
    - rewrite Hoff, Hif by lia. done. }
  exists m1, m2. split_and!; try done.
  - rewrite (holding_at m1 id c _ l Hc1 Hoff), Hl1. simpl. by rewrite bool_decide_true.
  - unfold acquire, mbind, M_bind. rewrite (pushcli_at m1 id c _ Hc1).
    erewrite holding_at; [|eapply (cpu_is_insert m1 _ id c _ _ Hc1); [|reflexivity]; reflexivity|apply upd_eq].
    cbn. rewrite Hl1. cbn. by rewrite bool_decide_true.
  - eexists. split; [exact Hc2|]. simpl. lia.
  - intros l' Hne. rewrite Ho2, Ho1; done.
  - intros Hm. unfold release, mbind, M_bind. rewrite (holding_at m2 id c _ l Hc2) by congruence. by rewrite Hl2.
Qed.

Lemma acquire_release_witness :
  exists m1 m2, acquire 5 7 [] (p_mach (sp_init [3; 5])) = Ok () m1 /\ release 5 7 m1 = Ok () m2 /\ m_if m2 5 = true.
Proof.
  destruct (acquire_release (p_mach (sp_init [3; 5])) 5 1%nat (mk_cpu 5 0 false) 7 [])
    as (m1 & m2 & Ha & _ & _ & _ & Hr & Hi & _).
  - split; reflexivity.
  - discriminate.
  - discriminate.
  - reflexivity.
  - exists m1, m2. split; [exact Ha|]. split; [exact Hr|exact Hi].
Defined.

(** What a client of the locks needs of its CPU. *)
Definition cli_ok (id : Z) (m : mach) : Prop :=
  exists c x, cpu_is m id c x /\ 0 <= c_ncli x /\ (0 < c_ncli x -> m_if m id = false).
Definition held_by (id l : Z) (m : mach) : Prop :=
  exists c x, cpu_is m id c x /\ 0 < c_ncli x /\ m_if m id = false /\
    lk_locked (m_locks m l) <> 0 /\ lk_cpu (m_locks m l) = Some c.

Lemma wp_acquire id l pcs m (Q : () -> mach -> Prop) :
  cli_ok id m -> lk_locked (m_locks m l) = 0 ->
  (forall m1, held_by id l m1 -> (forall l', l' <> l -> m_locks m1 l' = m_locks m l') -> Q () m1) ->
  wp (acquire id l pcs) m Q.
Proof.
  intros (c & x & Hc & Hn & Hif) Hl HQ. destruct (acquire_at m id c x l pcs Hc Hl) as (m1 & Ha & Hc1 & Hi1 & Hl1 & Ho).
  eapply wp_intro; [exact Ha|]. apply HQ; [|exact Ho]. exists c. eexists. split; [exact Hc1|]. simpl.
  rewrite Hi1, upd_eq, Hl1. split_and!; done || lia.
Qed.

Lemma wp_release id l m (Q : () -> mach -> Prop) :
  held_by id l m ->
  (forall m1, cli_ok id m1 -> lk_locked (m_locks m1 l) = 0 -> (forall l', l' <> l -> m_locks m1 l' = m_locks m l') -> Q () m1) ->
  wp (release id l) m Q.
Proof.
  intros (c & x & Hc & Hn & Hif & Hl & Hk) HQ.
  destruct (release_at m id c x l Hc Hif Hn Hl Hk) as (m1 & Hr & Hc1 & Hi1 & Hl1 & _ & Ho).
  eapply wp_intro; [exact Hr|]. apply HQ; [|exact Hl1|exact Ho]. exists c. eexists. split; [exact Hc1|]. simpl.
  split; [lia|]. intros Hp. rewrite Hi1. rewrite (proj2 (Z.eqb_neq _ _)) by lia. done.
Qed.

(** The call the thread is about to make does not panic. *)
Definition no_panic (id : Z) (f : frame) (m : mach) : Prop :=
  match f_pc f with
  | POut => forall l, l ∈ f_held f -> holding id l m = Ok true m
  | PCli _ e => exists m', pushcli_count id e m = Ok () m'
  | PHolding l => holding id l m = Ok false m
  | PGot _ => exists i, mycpu id m = Ok i m
  | PPop _ => exists m', popcli id m = Ok () m'
  | _ => True
  end.

(** C14: however the CPUs and their interrupts interleave inside [acquire] and
    [release], two CPUs never hold the same lock, the code an interrupt
    handler interrupted holds none, interrupts are off on a CPU that holds a
    lock, and they are on again on a CPU that runs outside lock routines and
    interrupt handlers and holds none. *)
Theorem spinlock_mutex ids s :
  NoDup ids -> rtc (sp_step ids) (sp_init ids) s ->
  forall c id, ids !! c = Some id ->
    (forall l d, l ∈ f_held (p_top s c) -> (d < length ids)%nat -> l ∈ f_held (p_top s d) -> c = d) /\
    Forall (fun f => f_held f = []) (p_under s c) /\
    (f_held (p_top s c) <> [] -> m_if (p_mach s) id = false) /\
    (f_held (p_top s c) = [] -> f_pc (p_top s c) = POut -> p_under s c = [] -> m_if (p_mach s) id = true).
Proof.
  intros Hn Hr c id Hc. pose proof (sp_inv_reachable ids Hn s Hr) as Hs.
  pose proof (si_cpu _ _ Hs c id Hc) as [_ Hif _ _ _ Hu _]. split_and!.
  - intros l d Hl Hd Hl'. apply (li_excl _ _ _ _ (si_lock _ _ Hs l)); [by eapply lookup_lt_Some|done|by left|by left].
  - eapply Forall_impl; [exact Hu|]. by intros f [? _].
  - intros Hne. destruct (p_top s c) as [held p] eqn:Ht. eapply (inv_if_off ids s c id held p); try done.
    left. simpl in Hne. destruct held; [done|]. destruct p; simpl; lia.
  - intros H1 H2 H3. by rewrite Hif, H1, H2, H3.
Qed.

(** no interleaving makes [pushcli], [popcli], [mycpu], [acquire] or
    [release] panic when each thread releases only locks it holds and acquires
    only locks it does not hold: the test of [holding] is exact even while
    other CPUs are half way through [acquire] or [release] of the same lock. *)
Theorem spinlock_no_panic ids s :
  NoDup ids -> rtc (sp_step ids) (sp_init ids) s ->
  forall c id, ids !! c = Some id -> no_panic id (p_top s c) (p_mach s).
Proof.
  intros Hn Hr c id Hc. pose proof (sp_inv_reachable ids Hn s Hr) as Hs. unfold no_panic.
  destruct (p_top s c) as [held p] eqn:Ht. simpl. pose proof (lookup_lt_Some _ _ _ Hc) as Hlt.
  pose proof (si_cpu _ _ Hs c id Hc) as [(x & Hx & _ & Hnc & _) _ _ _ _ _ _]. rewrite Ht in Hnc. simpl in Hnc.
  destruct p as [|l e|l e|l|l|l|l|l|l]; try done.
  - intros l Hl. assert (Hoff : m_if (p_mach s) id = false).
    { eapply inv_if_off; eauto. left. destruct held; [set_solver|simpl; lia]. }
    rewrite (holding_ok ids Hn s c) by done.
    pose proof (si_lock _ _ Hs l) as [Ho _ _ Hm]. f_equal.
    rewrite (proj2 (Z.eqb_neq _ _)) by (apply (Ho c); [done|]; rewrite Ht; by left). simpl.
    apply bool_decide_eq_true, Hm. split; [done|]. rewrite Ht. by left.
  - eexists. by apply (pushcli_count_ok ids Hn s c id e x); try done; eapply inv_if_off; eauto.
  - assert (Hoff : m_if (p_mach s) id = false) by (eapply inv_if_off; eauto; left; simpl; lia).
    rewrite (holding_ok ids Hn s c) by done. f_equal. apply andb_false_iff. right. apply bool_decide_eq_false. intros Hk.
    apply (li_mark _ _ _ _ (si_lock _ _ Hs l)) in Hk as [_ Hk]. rewrite Ht in Hk. destruct Hk as [Hk|Hk]; [|done].
    by eapply fresh_lock.
  - exists c. apply (mycpu_ok ids Hn s c); try done. eapply inv_if_off; eauto. left. simpl. lia.
  - eexists. apply (popcli_ok ids Hn s c id x); try done; [eapply inv_if_off; eauto; left|]; simpl in *; lia.
Qed.

(** CPU 0 is inside the section lock 7 protects. *)
Lemma sp_demo_runs :
  exists s, rtc (sp_step [0; 1]) (sp_init [0; 1]) s /\ p_top s 0%nat = mk_frame [7] POut /\ p_under s 0%nat = [].
Proof.
  eexists. split; [|split].
  - eapply rtc_l; [apply (sp_call [0; 1] _ 0 0 [] 7 true); [reflexivity|reflexivity|apply not_elem_of_nil|reflexivity]|].
    eapply rtc_l; [apply (sp_cli [0; 1] _ 0 0 [] 7 true); reflexivity|].
    eapply rtc_l; [apply (sp_count [0; 1] _ 0 0 [] 7 true); reflexivity|].
    eapply rtc_l; [apply (sp_not_holding [0; 1] _ 0 0 [] 7); reflexivity|].
    eapply rtc_l; [apply (sp_xchg [0; 1] _ 0 0 [] 7 0); reflexivity|].
    eapply rtc_l; [eapply (sp_owner [0; 1] _ 0 0 [] 7 (replicate 10 0) 0%nat); reflexivity|].
    apply rtc_refl.
  - reflexivity.
  - reflexivity.
Qed.

Lemma spinlock_mutex_witness :
  exists s, rtc (sp_step [0; 1]) (sp_init [0; 1]) s /\ f_held (p_top s 0%nat) = [7] /\ m_if (p_mach s) 0 = false.
Proof.
  destruct sp_demo_runs as (s & Hr & Ht & Hu). exists s. rewrite Ht. split; [exact Hr|]. split; [reflexivity|].
  destruct (spinlock_mutex [0; 1] s ltac:(apply (bool_decide_unpack _); vm_compute; exact I) Hr 0%nat 0 eq_refl) as (_ & _ & H & _).
  apply H. rewrite Ht. discriminate.
Defined.

Lemma spinlock_no_panic_witness :
  exists s, rtc (sp_step [0; 1]) (sp_init [0; 1]) s /\ holding 0 7 (p_mach s) = Ok true (p_mach s).
Proof.
  destruct sp_demo_runs as (s & Hr & Ht & Hu). exists s. split; [exact Hr|].
  pose proof (spinlock_no_panic [0; 1] s ltac:(apply (bool_decide_unpack _); vm_compute; exact I) Hr 0%nat 0 eq_refl) as H.
  rewrite Ht in H. apply (H 7). apply list_elem_of_here.
Defined.
