(* ===== verification/Kalloc.v ===== *)
(** The physical page allocator ([kalloc.c]).

    The free list is threaded through the free pages themselves, in the flat
    memory of [CString]; [kmem.lock] is lock [KMEM] of the machine of
    [Spinlock].  [PageOps] and [PageLayer] state what the allocator promises
    to its clients. *)

From S2P Require Import Prelude CString Spinlock.

Definition KERNBASE : Z := 2147483648.
Definition PHYSTOP : Z := 234881024.
Definition EXTMEM : Z := 1048576.
Definition PGSIZE : Z := 4096.

Definition V2P (a : Z) : Z := u32 (a - KERNBASE).
Definition P2V (a : Z) : Z := u32 (a + KERNBASE).
Definition PGROUNDUP (sz : Z) : Z := Z.land (u32 (sz + PGSIZE - 1)) (Z.lnot (PGSIZE - 1)).
Definition PGROUNDDOWN (a : Z) : Z := Z.land a (Z.lnot (PGSIZE - 1)).

(** The lock's index among the machine's locks. *)
Definition KMEM : Z := 0.

Record kst := mk_kst { k_mach : mach; k_use_lock : bool; k_freelist : Z; k_mem : mem }.
#[export] Instance eta_kst : Settable kst := fun s => mk_kst (k_mach s) (k_use_lock s) (k_freelist s) (k_mem s).

Definition on_mach {A} (m : M mach A) : M kst A := zoom k_mach (fun m s => s <| k_mach := m |>) m.

Section kalloc.
(** [id] is the CPU that runs the routine, [pcs] the call stack [acquire]
    records and [kend] the linker's symbol [end]. *)
Context (id : Z) (pcs : list Z) (kend : Z).

Definition lock_kmem : M kst () :=
  use ← gets k_use_lock;
  when use (on_mach (acquire id KMEM pcs)).

Definition unlock_kmem : M kst () :=
  use ← gets k_use_lock;
  when use (on_mach (release id KMEM)).

Definition kfree (v : Z) : M kst () :=
  if negb (v mod PGSIZE =? 0) || (v <? kend) || (PHYSTOP <=? V2P v) then panic "kfree" else
  modify (fun s => s <| k_mem := memset (k_mem s) v 1 PGSIZE |>);;
  lock_kmem;;
  freelist ← gets k_freelist;
  modify (fun s => s <| k_mem := store32 (k_mem s) v freelist |>);;
  modify (fun s => s <| k_freelist := v |>);;
  unlock_kmem.

Definition kalloc : M kst Z :=
  lock_kmem;;
  r ← gets k_freelist;
  when (negb (r =? 0)) (modify (fun s => s <| k_freelist := load32 (k_mem s) r |>));;
  unlock_kmem;;
  mret r.

(** The loop of [freerange]; [fuel] bounds the number of pages. *)
Fixpoint freerange_loop (fuel : nat) (p vend : Z) : M kst () :=
  match fuel with
  | O => mret ()
  | S fuel =>
      if u32 (p + PGSIZE) <=? vend
      then kfree p;; freerange_loop fuel (u32 (p + PGSIZE)) vend
      else mret ()
  end.

Definition freerange (vstart vend : Z) : M kst () :=
  freerange_loop (Z.to_nat (vend / PGSIZE) + 1) (PGROUNDUP vstart) vend.

Definition kinit1 (vstart vend : Z) : M kst () :=
  modify (fun s => s <| k_mach := (k_mach s) <| m_locks := upd (m_locks (k_mach s)) KMEM initlock |> |>);;
  modify (fun s => s <| k_use_lock := false |>);;
  freerange vstart vend.

Definition kinit2 (vstart vend : Z) : M kst () :=
  freerange vstart vend;;
  modify (fun s => s <| k_use_lock := true |>).
End kalloc.

(** * The interface *)

Definition in_page (p a : Z) : Prop := p <= a < p + PGSIZE.

Class PageOps (S : Type) := {
  pg_kalloc : M S Z;
  pg_kfree : Z -> M S ();
  pg_mem : S -> mem;
  pg_setmem : mem -> S -> S
}.

(** A page the allocator may own. *)
Definition page_ok (kend v : Z) : Prop := v mod PGSIZE = 0 /\ kend <= v /\ V2P v < PHYSTOP /\ 0 <= v < 2 ^ 32.

(** [pg_rep s F]: the pages in [F] are free. *)
Class PageLayer (S : Type) `{!PageOps S} := {
  pg_end : Z;
  pg_end_ok : KERNBASE <= pg_end < KERNBASE + PHYSTOP;
  pg_end_pos : KERNBASE < pg_end;
  pg_rep : S -> gset Z -> Prop;
  pg_valid s F p : pg_rep s F -> p ∈ F -> page_ok pg_end p;
  pg_bytes s F : pg_rep s F -> mem_bytes (pg_mem s);
  pg_kalloc_spec s F (Q : Z -> S -> Prop) :
    pg_rep s F ->
    (F = ∅ -> forall s', pg_rep s' F -> pg_mem s' = pg_mem s -> Q 0 s') ->
    (forall r s', r ∈ F -> pg_rep s' (F ∖ {[r]}) -> pg_mem s' = pg_mem s -> Q r s') ->
    wp pg_kalloc s Q;
  pg_kfree_spec s F v (Q : () -> S -> Prop) :
    pg_rep s F -> page_ok pg_end v -> v ∉ F ->
    (forall s', pg_rep s' ({[v]} ∪ F) -> (forall a, ~ in_page v a -> pg_mem s' a = pg_mem s a) -> Q () s') ->
    wp (pg_kfree v) s Q;
  pg_kfree_panic s F v : pg_rep s F -> 0 <= v < 2 ^ 32 -> ~ page_ok pg_end v -> pg_kfree v s = Panic "kfree";
  pg_mem_set m s : pg_mem (pg_setmem m s) = m;
  pg_setmem_spec s F m :
    pg_rep s F -> mem_bytes m -> (forall p a, p ∈ F -> in_page p a -> m a = pg_mem s a) -> pg_rep (pg_setmem m s) F
}.

Definition kst_ops (id : Z) (pcs : list Z) (kend : Z) : PageOps kst := {|
  pg_kalloc := kalloc id pcs;
  pg_kfree := kfree id pcs kend;
  pg_mem := k_mem;
  pg_setmem m s := s <| k_mem := m |>
|}.

(** * The free list *)

(** The pages on the list that starts at [p]. *)
Fixpoint chain (m : mem) (p : Z) (pages : list Z) : Prop :=
  match pages with
  | [] => p = 0
  | q :: ps => p = q /\ chain m (load32 m q) ps
  end.

Record kst_rep (id kend : Z) (s : kst) (F : gset Z) : Prop := {
  kr_chain : exists pages, chain (k_mem s) (k_freelist s) pages /\ NoDup pages /\ F = list_to_set pages;
  kr_pages : forall p, p ∈ F -> page_ok kend p;
  kr_bytes : mem_bytes (k_mem s);
  kr_lock : cli_ok id (k_mach s) /\ lk_locked (m_locks (k_mach s) KMEM) = 0
}.

Lemma page_range kend v : KERNBASE <= kend -> page_ok kend v -> KERNBASE <= v /\ v + PGSIZE <= KERNBASE + PHYSTOP.
Proof.
  unfold page_ok, V2P, KERNBASE, PHYSTOP, PGSIZE. intros Hk (Hm & He & Hp & Hr).
  rewrite u32_small in Hp by lia. pose proof (Z.div_mod v 4096 ltac:(lia)). lia.
Qed.

Lemma pages_apart p q a : p mod PGSIZE = 0 -> q mod PGSIZE = 0 -> p <> q -> in_page p a -> ~ in_page q a.
Proof.
  unfold in_page, PGSIZE. intros Hp Hq Hne Ha Hb. pose proof (Z.div_mod p 4096 ltac:(lia)). pose proof (Z.div_mod q 4096 ltac:(lia)). lia.
Qed.

Lemma chain_ext m m' p pages :
  (forall q a, q ∈ pages -> in_page q a -> m' a = m a) -> (forall q, q ∈ pages -> 0 <= q /\ q + PGSIZE <= 2 ^ 32) ->
  chain m p pages -> chain m' p pages.
Proof.
  revert p. induction pages as [|q pages IH]; intros p Hm Hr; simpl; [done|]. intros [-> Hc]. split; [done|].
  destruct (Hr q) as [Hq Hq2]; [set_solver|]. unfold PGSIZE in Hq2.
  assert (load32 m' q = load32 m q) as ->.
  { apply load32_ext; [lia..|]. intros i Hi. apply (Hm q); [set_solver|]. unfold in_page, PGSIZE. lia. }
  apply IH; [|intros; apply Hr; set_solver|done]. intros q' a Hq'. apply Hm. set_solver.
Qed.

Section impl.
Context (id : Z) (pcs : list Z) (kend : Z).
Hypothesis kend_ok : KERNBASE <= kend < KERNBASE + PHYSTOP.

Lemma rep_range s F p : kst_rep id kend s F -> p ∈ F -> KERNBASE <= p /\ p + PGSIZE <= KERNBASE + PHYSTOP.
Proof. intros Hs Hp. apply (page_range kend); [lia|]. by apply (kr_pages _ _ _ _ Hs). Qed.

(** Writes outside the free pages keep the free list. *)
Lemma rep_mem s F m :
  kst_rep id kend s F -> mem_bytes m -> (forall p a, p ∈ F -> in_page p a -> m a = k_mem s a) ->
  kst_rep id kend (s <| k_mem := m |>) F.
Proof.
  intros Hs Hb Hm. destruct (kr_chain _ _ _ _ Hs) as (pages & Hc & Hn & ->).
  split; [|apply (kr_pages _ _ _ _ Hs)|done|apply (kr_lock _ _ _ _ Hs)].
  exists pages. split_and!; try done. eapply chain_ext; [| |exact Hc].
  - intros q a Hq. apply Hm. by apply elem_of_list_to_set.
  - intros q Hq. pose proof (rep_range s _ q Hs ltac:(by apply elem_of_list_to_set)). unfold KERNBASE, PHYSTOP in *. lia.
Qed.

(** A section under [kmem.lock], when the lock is in use. *)
Definition unlocked_ok (s : kst) : Prop := cli_ok id (k_mach s) /\ lk_locked (m_locks (k_mach s) KMEM) = 0.
Definition locked_ok (s : kst) : Prop := if k_use_lock s then held_by id KMEM (k_mach s) else unlocked_ok s.

Lemma wp_lock_kmem s (Q : () -> kst -> Prop) :
  unlocked_ok s -> (forall m, locked_ok (s <| k_mach := m |>) -> Q () (s <| k_mach := m |>)) -> wp (lock_kmem id pcs) s Q.
Proof.
  intros Hs HQ. unfold lock_kmem. do 2 wp_step. unfold when, locked_ok in HQ |- *. cbn in HQ. destruct (k_use_lock s) eqn:E.
  - unfold on_mach. wp_step. destruct Hs as [H1 H2]. apply wp_acquire; [done|done|]. intros m1 Hm1 _. by apply HQ.
  - wp_step. destruct s. by apply (HQ k_mach0).
Qed.

Lemma wp_unlock_kmem s (Q : () -> kst -> Prop) :
  locked_ok s -> (forall m, unlocked_ok (s <| k_mach := m |>) -> Q () (s <| k_mach := m |>)) -> wp (unlock_kmem id) s Q.
Proof.
  intros Hs HQ. unfold unlock_kmem. do 2 wp_step. unfold when, locked_ok in *. destruct (k_use_lock s) eqn:E.
  - unfold on_mach. wp_step. apply wp_release; [done|]. intros m1 H1 H2 _. by apply HQ.
  - wp_step. destruct s. by apply (HQ k_mach0).
Qed.

Lemma wp_kalloc s F (Q : Z -> kst -> Prop) :
  kst_rep id kend s F ->
  (F = ∅ -> forall s', kst_rep id kend s' F -> k_mem s' = k_mem s -> Q 0 s') ->
  (forall r s', r ∈ F -> kst_rep id kend s' (F ∖ {[r]}) -> k_mem s' = k_mem s -> Q r s') ->
  wp (kalloc id pcs) s Q.
Proof.
  intros Hs H0 H1. unfold kalloc. wp_step. apply wp_lock_kmem; [exact (kr_lock _ _ _ _ Hs)|]. intros m Hm.
  do 2 wp_step. change (k_freelist (s <| k_mach := m |>)) with (k_freelist s). destruct (kr_chain _ _ _ _ Hs) as (pages & Hc & Hn & EF). destruct pages as [|r pages]; simpl in Hc.
  - rewrite Hc. change (negb (0 =? 0)) with false. unfold when. do 3 wp_step. apply wp_unlock_kmem; [done|]. intros m' Hm'. wp_step.
    apply H0; [done| |done]. split; cbn; [|apply (kr_pages _ _ _ _ Hs)|apply (kr_bytes _ _ _ _ Hs)|done].
    exists []. rewrite Hc. by split_and!; [|constructor|].
  - destruct Hc as [-> Hc]. apply NoDup_cons in Hn as [Hr Hn]. assert (HrF : r ∈ F) by set_solver.
    pose proof (rep_range s F r Hs HrF) as Hrr. rewrite (proj2 (Z.eqb_neq r 0)) by (unfold KERNBASE in *; lia).
    cbn [negb]. unfold when. do 3 wp_step. apply wp_unlock_kmem; [exact Hm|]. intros m' Hm'. wp_step.
    apply H1; [done| |done]. split; cbn; [|intros p Hp; apply (kr_pages _ _ _ _ Hs); set_solver|apply (kr_bytes _ _ _ _ Hs)|done].
    exists pages. split_and!; try done. set_solver.
Qed.

Lemma kfree_guard v :
  0 <= v < 2 ^ 32 -> negb (v mod PGSIZE =? 0) || (v <? kend) || (PHYSTOP <=? V2P v) = false <-> page_ok kend v.
Proof.
  intros Hv. rewrite !orb_false_iff, negb_false_iff, Z.eqb_eq, Z.ltb_ge, Z.leb_gt. unfold page_ok. tauto.
Qed.

Lemma wp_kfree s F v (Q : () -> kst -> Prop) :
  kst_rep id kend s F -> page_ok kend v -> v ∉ F ->
  (forall s', kst_rep id kend s' ({[v]} ∪ F) -> (forall a, ~ in_page v a -> k_mem s' a = k_mem s a) ->
     (forall a, v + 4 <= a < v + PGSIZE -> k_mem s' a = 1) -> k_use_lock s' = k_use_lock s -> Q () s') ->
  wp (kfree id pcs kend v) s Q.
Proof.
  intros Hs Hv HvF HQ. pose proof (page_range kend v ltac:(lia) Hv) as Hvr. unfold KERNBASE, PHYSTOP, PGSIZE in Hvr.
  unfold kfree. rewrite (proj2 (kfree_guard v ltac:(lia)) Hv). do 3 wp_step.
  apply wp_lock_kmem; [exact (kr_lock _ _ _ _ Hs)|]. intros m Hm. do 6 wp_step.
  apply wp_unlock_kmem; [exact Hm|]. intros m' Hm'.
  assert (Hout : forall a, ~ in_page v a -> store32 (memset (k_mem s) v 1 PGSIZE) v (k_freelist s) a = k_mem s a).
  { intros a Ha. unfold in_page, PGSIZE in *. rewrite store32_other by lia. rewrite memset_spec by lia.
    unfold in_range. destruct (Z.leb_spec v a), (Z.ltb_spec a (v + 4096)); simpl; try done; lia. }
  assert (Hb : mem_bytes (store32 (memset (k_mem s) v 1 PGSIZE) v (k_freelist s))).
  { apply store32_bytes. intros i. rewrite memset_spec by (unfold PGSIZE; lia). destruct (in_range _ _ _).
    - unfold u8. change (1 mod 2 ^ 8) with 1. lia.
    - apply (kr_bytes _ _ _ _ Hs). }
  destruct (kr_chain _ _ _ _ Hs) as (pages & Hc & Hn & EF).
  apply HQ; [|exact Hout| |reflexivity].
  - split; [|intros p [->%elem_of_singleton|Hp]%elem_of_union; [done|by apply (kr_pages _ _ _ _ Hs)]|done|exact Hm'].
    exists (v :: pages). split_and!; [|constructor; [set_solver|done]|set_solver].
    cbn [k_mem k_freelist chain]. split; [reflexivity|].
    assert (Hfl : 0 <= k_freelist s < 2 ^ 32).
    { destruct pages as [|q pages]; [by rewrite Hc|]. destruct Hc as [-> _].
      pose proof (rep_range s F q Hs ltac:(set_solver)) as Hq. unfold KERNBASE, PHYSTOP, PGSIZE in Hq. lia. }
    change (chain (store32 (memset (k_mem s) v 1 PGSIZE) v (k_freelist s))
      (load32 (store32 (memset (k_mem s) v 1 PGSIZE) v (k_freelist s)) v) pages).
    rewrite load32_store32 by lia. eapply chain_ext; [| |exact Hc].
    + intros q a Hq Ha. apply Hout. assert (HqF : q ∈ F) by set_solver. eapply pages_apart; [| | |exact Ha].
      * apply (kr_pages _ _ _ _ Hs q HqF).
      * apply Hv.
      * intros ->. done.
    + intros q Hq. pose proof (rep_range s F q Hs ltac:(set_solver)) as Hqr. unfold KERNBASE, PHYSTOP, PGSIZE in *. lia.
  - intros a Ha. change (store32 (memset (k_mem s) v 1 PGSIZE) v (k_freelist s) a = 1).
    unfold PGSIZE in *. rewrite store32_other by lia. rewrite memset_spec by lia. unfold in_range.
    by rewrite (proj2 (Z.leb_le _ _)), (proj2 (Z.ltb_lt _ _)) by lia.
Qed.

(** The pages of a range, from the page-aligned [p] on. *)
Definition range_pages (p : Z) (n : nat) : gset Z := list_to_set ((fun i => p + PGSIZE * Z.of_nat i) <$> seq 0 n).

Lemma range_pages_S p n : range_pages p (S n) = {[p]} ∪ range_pages (p + PGSIZE) n.
Proof.
  unfold range_pages. simpl. rewrite Z.mul_0_r, Z.add_0_r. f_equal. rewrite <- fmap_S_seq, <- list_fmap_compose.
  f_equal. apply list_fmap_ext. intros i x _. simpl. rewrite Nat2Z.inj_succ. lia.
Qed.

Lemma elem_range_pages p n q : q ∈ range_pages p n <-> exists i, (i < n)%nat /\ q = p + PGSIZE * Z.of_nat i.
Proof.
  unfold range_pages. rewrite elem_of_list_to_set, list_elem_of_fmap. split.
  - intros (i & -> & Hi%elem_of_seq). exists i. split; [lia|done].
  - intros (i & Hi & ->). exists i. split; [done|]. apply elem_of_seq. lia.
Qed.

Lemma range_pages_app p n k : range_pages p (n + k) = range_pages p n ∪ range_pages (p + PGSIZE * Z.of_nat n) k.
Proof.
  revert p. induction n as [|n IH]; intros p.
  - replace (p + PGSIZE * Z.of_nat 0) with p by lia. change (range_pages p 0) with (∅ : gset Z). by rewrite (left_id_L ∅ (∪)).
  - simpl plus. rewrite !range_pages_S, IH, (assoc_L (∪)). do 2 f_equal. rewrite Nat2Z.inj_succ. lia.
Qed.

Lemma wp_freerange_loop n : forall fuel p vend s F (Q : () -> kst -> Prop),
  kst_rep id kend s F -> p mod PGSIZE = 0 -> kend <= p -> p + PGSIZE * Z.of_nat n <= vend < p + PGSIZE * (Z.of_nat n + 1) ->
  vend <= KERNBASE + PHYSTOP -> (n < fuel)%nat -> range_pages p n ## F ->
  (forall s', kst_rep id kend s' (range_pages p n ∪ F) -> k_use_lock s' = k_use_lock s -> Q () s') ->
  wp (freerange_loop id pcs kend fuel p vend) s Q.
Proof.
  induction n as [|n IH]; intros fuel p vend s F Q Hs Hp Hk Hv Hmax Hfu Hd HQ; destruct fuel as [|fuel]; try lia; simpl;
    unfold KERNBASE, PHYSTOP, PGSIZE in *.
  - rewrite u32_small by lia. rewrite (proj2 (Z.leb_gt _ _)) by lia. wp_step. apply HQ; [|done].
    by replace (range_pages p 0 ∪ F) with F by set_solver.
  - rewrite u32_small by lia. rewrite (proj2 (Z.leb_le _ _)) by lia. wp_step. rewrite range_pages_S in *.
    assert (Hpo : page_ok kend p).
    { split; [done|]. unfold V2P, KERNBASE, PHYSTOP. rewrite u32_small by lia. lia. }
    apply (wp_kfree s F p); [done|done|set_solver|]. intros s' Hs' _ _ Hu.
    apply (IH fuel (p + 4096) vend s' ({[p]} ∪ F)); try done; try lia.
    + rewrite Z.add_mod, Hp by lia. done.
    + apply disjoint_union_r. split; [|set_solver]. apply disjoint_singleton_r. intros (i & _ & E)%elem_range_pages.
      unfold PGSIZE in E. lia.
    + intros s2 Hs2 Hu2. apply HQ; [|congruence].
      by replace ({[p]} ∪ range_pages (p + 4096) n ∪ F) with (range_pages (p + 4096) n ∪ ({[p]} ∪ F)) by set_solver.
Qed.

Lemma round_down a : PGROUNDDOWN a = a - a mod PGSIZE.
Proof.
  unfold PGROUNDDOWN, PGSIZE. rewrite <- Z.ldiff_land. change (4096 - 1) with (Z.ones 12). rewrite Z.ldiff_ones_r by lia.
  rewrite Z.shiftl_mul_pow2, Z.shiftr_div_pow2 by lia. change (2 ^ 12) with 4096. pose proof (Z.div_mod a 4096 ltac:(lia)). lia.
Qed.

Lemma round_up a : 0 <= a -> a + PGSIZE <= 2 ^ 32 ->
  PGROUNDUP a mod PGSIZE = 0 /\ a <= PGROUNDUP a < a + PGSIZE.
Proof.
  intros H0 H1. unfold PGROUNDUP. change (Z.land ?x _) with (PGROUNDDOWN x). rewrite round_down.
  rewrite u32_small by (unfold PGSIZE in *; lia). unfold PGSIZE in *.
  set (x := a + 4096 - 1). pose proof (Z.div_mod x 4096 ltac:(lia)). pose proof (Z.mod_pos_bound x 4096 ltac:(lia)).
  split; [|unfold x in *; lia]. replace (x - x mod 4096) with (4096 * (x / 4096)) by lia. rewrite Z.mul_comm. apply Z.mod_mul. lia.
Qed.

(** All whole pages of [[vstart, vend)]. *)
Definition pages_between (vstart vend : Z) : gset Z :=
  range_pages (PGROUNDUP vstart) (Z.to_nat ((vend - PGROUNDUP vstart) / PGSIZE)).

Lemma wp_freerange vstart vend s F (Q : () -> kst -> Prop) :
  kst_rep id kend s F -> kend <= vstart <= vend -> PGROUNDUP vstart <= vend <= KERNBASE + PHYSTOP ->
  pages_between vstart vend ## F ->
  (forall s', kst_rep id kend s' (pages_between vstart vend ∪ F) -> k_use_lock s' = k_use_lock s -> Q () s') ->
  wp (freerange id pcs kend vstart vend) s Q.
Proof.
  intros Hs Hk Hv Hd HQ. unfold freerange. pose proof kend_ok.
  assert (Hr : PGROUNDUP vstart mod PGSIZE = 0 /\ vstart <= PGROUNDUP vstart < vstart + PGSIZE).
  { apply round_up; unfold KERNBASE, PHYSTOP, PGSIZE in *; lia. }
  pose proof (Z.div_mod (vend - PGROUNDUP vstart) PGSIZE ltac:(done)).
  pose proof (Z.mod_pos_bound (vend - PGROUNDUP vstart) PGSIZE ltac:(done)).
  assert (0 <= (vend - PGROUNDUP vstart) / PGSIZE <= vend / PGSIZE).
  { split; [apply Z.div_pos; [lia|done]|]. apply Z.div_le_mono; [done|]. unfold KERNBASE in *. lia. }
  eapply wp_freerange_loop; [exact Hs|apply Hr| | | | |exact Hd|exact HQ]. all: try lia. rewrite Z2Nat.id by lia.
  unfold PGSIZE in *. lia.
Qed.
End impl.


(** The allocator keeps its promises to its clients. *)
#[refine] Definition kst_layer (id : Z) (pcs : list Z) (kend : Z) (Hk : KERNBASE <= kend < KERNBASE + PHYSTOP) (Hp : KERNBASE < kend) :
    @PageLayer kst (kst_ops id pcs kend) :=
  @Build_PageLayer kst (kst_ops id pcs kend) kend Hk Hp (kst_rep id kend) _ _ _ _ _ _ _.
Proof.
  - intros s F p Hs. apply (kr_pages _ _ _ _ Hs).
  - intros s F Hs. apply (kr_bytes _ _ _ _ Hs).
  - intros s F Q. by apply wp_kalloc.
  - intros s F v Q Hs Hv Hn HQ. apply (wp_kfree id pcs kend Hk s F); try done. intros s' H1 H2 _ _. by apply HQ.
  - intros s F v Hs Hr Hv. cbn. unfold kfree. destruct (_ || _) eqn:E; [done|]. by apply kfree_guard in E.
  - done.
  - intros s F m. by apply rep_mem.
Defined.

(** [kalloc] returns a page of the free list, which is then no longer free,
    or 0 exactly when no page is free; it changes no byte of memory. *)
Theorem kalloc_correct id pcs kend s F :
  KERNBASE <= kend < KERNBASE + PHYSTOP -> kst_rep id kend s F ->
  exists r s', kalloc id pcs s = Ok r s' /\ k_mem s' = k_mem s /\
    (r = 0 /\ F = ∅ /\ kst_rep id kend s' ∅ \/ r ∈ F /\ page_ok kend r /\ kst_rep id kend s' (F ∖ {[r]})).
Proof.
  intros Hk Hs. apply (wp_elim (kalloc id pcs) s (fun r s' => k_mem s' = k_mem s /\
    (r = 0 /\ F = ∅ /\ kst_rep id kend s' ∅ \/ r ∈ F /\ page_ok kend r /\ kst_rep id kend s' (F ∖ {[r]})))).
  apply (wp_kalloc id pcs kend Hk s F _ Hs).
  - intros -> s' Hs' Hm. split; [done|]. left. done.
  - intros r s' Hr Hs' Hm. split; [done|]. right. split_and!; try done. by apply (kr_pages _ _ _ _ Hs).
Qed.

(** [kfree] of a page that is not free puts it on the free list, fills it
    with junk behind the link and touches no other byte; of an address that is
    not a page of physical memory above the kernel it panics. *)
Theorem kfree_correct id pcs kend s F v :
  KERNBASE <= kend < KERNBASE + PHYSTOP -> kst_rep id kend s F -> 0 <= v < 2 ^ 32 -> v ∉ F ->
  if decide (page_ok kend v) then
    exists s', kfree id pcs kend v s = Ok () s' /\ kst_rep id kend s' ({[v]} ∪ F) /\
      (forall a, ~ in_page v a -> k_mem s' a = k_mem s a) /\ (forall a, v + 4 <= a < v + PGSIZE -> k_mem s' a = 1)
  else kfree id pcs kend v s = Panic "kfree".
Proof.
  intros Hk Hs Hv Hn. destruct (decide (page_ok kend v)) as [Hp|Hp].
  - assert (H : wp (kfree id pcs kend v) s (fun _ s' => kst_rep id kend s' ({[v]} ∪ F) /\
      (forall a, ~ in_page v a -> k_mem s' a = k_mem s a) /\ (forall a, v + 4 <= a < v + PGSIZE -> k_mem s' a = 1)))
      by (apply (wp_kfree id pcs kend Hk s F); eauto).
    apply wp_elim in H as ([] & s' & Hrun & H). by exists s'.
  - unfold kfree. destruct (_ || _) eqn:E; [done|]. by apply kfree_guard in E.
Qed.

Definition boot_kst (ids : list Z) : kst := mk_kst (p_mach (sp_init ids)) true 0 (fun _ => 0).

Lemma boot_cli ids id : NoDup ids -> id ∈ ids -> cli_ok id (p_mach (sp_init ids)).
Proof.
  intros Hn [c Hc]%list_elem_of_lookup. exists c, (mk_cpu id 0 false). split_and!; [|done|done].
  split; [|simpl; by rewrite list_lookup_fmap, Hc]. apply find_idx_Some. split.
  - exists (mk_cpu id 0 false). simpl. rewrite list_lookup_fmap, Hc. split; [done|]. apply Z.eqb_refl.
  - intros j y Hj. simpl. rewrite list_lookup_fmap. intros (k & Hk & ->)%fmap_Some. apply Z.eqb_neq. simpl.
    intros ->. pose proof (NoDup_lookup ids j c id Hn Hk Hc). lia.
Qed.

Lemma split_pages lo mid top :
  PGROUNDUP lo mod PGSIZE = 0 -> mid mod PGSIZE = 0 -> PGROUNDUP mid = mid -> PGROUNDUP lo <= mid <= top ->
  pages_between lo top = pages_between lo mid ∪ pages_between mid top /\ pages_between lo mid ## pages_between mid top.
Proof.
  intros Hlo Hm Em Hr. unfold pages_between. rewrite Em. unfold PGSIZE in *.
  pose proof (Z.div_mod (PGROUNDUP lo) 4096 ltac:(lia)). pose proof (Z.div_mod mid 4096 ltac:(lia)).
  set (a := PGROUNDUP lo / 4096) in *. set (b := mid / 4096) in *.
  assert (E1 : (mid - PGROUNDUP lo) / 4096 = b - a).
  { replace (mid - PGROUNDUP lo) with ((b - a) * 4096) by lia. apply Z.div_mul. lia. }
  assert (E2 : (top - PGROUNDUP lo) / 4096 = (b - a) + (top - mid) / 4096).
  { replace (top - PGROUNDUP lo) with ((b - a) * 4096 + (top - mid)) by lia. rewrite Z.div_add_l by lia. done. }
  assert (0 <= (top - mid) / 4096) by (apply Z.div_pos; lia).
  rewrite E1, E2, Z2Nat.inj_add by lia. split.
  - rewrite range_pages_app. do 2 f_equal. unfold PGSIZE. lia.
  - intros q (i & Hi & Ei)%elem_range_pages (j & Hj & Ej)%elem_range_pages. unfold PGSIZE in *. lia.
Qed.

(** the two phases of the allocator's initialisation return and leave
    exactly the whole pages between the end of the kernel and the top of
    physical memory on the free list, with the lock in use. *)
Theorem kinit_correct ids id pcs kend mid m :
  NoDup ids -> id ∈ ids -> KERNBASE <= kend < KERNBASE + PHYSTOP -> mem_bytes m ->
  mid mod PGSIZE = 0 -> PGROUNDUP kend <= mid <= KERNBASE + PHYSTOP ->
  exists s', (kinit1 id pcs kend kend mid;; kinit2 id pcs kend mid (KERNBASE + PHYSTOP))
      (mk_kst (p_mach (sp_init ids)) false 0 m) = Ok () s' /\
    kst_rep id kend s' (pages_between kend (KERNBASE + PHYSTOP)) /\ k_use_lock s' = true.
Proof.
  intros Hnd Hid Hk Hb Hmm Hm. set (top := KERNBASE + PHYSTOP) in *.
  assert (Hr : PGROUNDUP kend mod PGSIZE = 0 /\ kend <= PGROUNDUP kend < kend + PGSIZE).
  { apply round_up; unfold top, KERNBASE, PHYSTOP, PGSIZE in *; lia. }
  assert (Em : PGROUNDUP mid = mid).
  { destruct (round_up mid) as [H1 H2]; [unfold top, KERNBASE, PHYSTOP, PGSIZE in *; lia..|]. unfold PGSIZE in *.
    pose proof (Z.div_mod mid 4096 ltac:(lia)). pose proof (Z.div_mod (PGROUNDUP mid) 4096 ltac:(lia)). lia. }
  destruct (split_pages kend mid top) as [Hu Hd]; try done; [lia|].
  assert (H : wp (kinit1 id pcs kend kend mid;; kinit2 id pcs kend mid top)
      (mk_kst (p_mach (sp_init ids)) false 0 m) (fun _ s' => kst_rep id kend s' (pages_between kend top) /\ k_use_lock s' = true)).
  { unfold kinit1, kinit2. do 5 wp_step. apply (wp_freerange id pcs kend Hk _ _ _ ∅); try (unfold top in *; lia); [|set_solver|].
    - split; cbn; [|set_solver|done|].
      + exists []. split_and!; [done|constructor|done].
      + split; [|done]. by apply boot_cli.
    - intros s1 Hs1 _. wp_step. apply (wp_freerange id pcs kend Hk _ _ _ _ _ Hs1); try (unfold top in *; lia); [set_solver|].
      intros s2 Hs2 _. wp_step. split; [|done]. rewrite Hu.
      replace (pages_between kend mid ∪ pages_between mid top) with (pages_between mid top ∪ (pages_between kend mid ∪ ∅)) by set_solver.
      destruct Hs2. by split. }
  apply wp_elim in H as ([] & s' & Hrun & H). by exists s'.
Qed.

(** Witnesses: a machine with two CPUs and one free page. *)
Definition demo_kend : Z := KERNBASE + EXTMEM + 70000.
Definition demo_page : Z := KERNBASE + 4194304.
Definition demo_kst : kst := mk_kst (p_mach (sp_init [0; 1])) true demo_page (fun _ => 0).

Lemma demo_kst_rep : kst_rep 1 demo_kend demo_kst {[demo_page]}.
Proof.
  split.
  - exists [demo_page]. split_and!; [split; reflexivity|apply NoDup_singleton|set_solver].
  - intros p ->%elem_of_singleton. vm_compute. intuition congruence.
  - intros i. simpl. lia.
  - split; [|reflexivity]. apply boot_cli; [apply (bool_decide_unpack _); vm_compute; exact I|set_solver].
Qed.

Lemma demo_kend_ok : KERNBASE <= demo_kend < KERNBASE + PHYSTOP.
Proof. vm_compute. intuition congruence. Qed.

Lemma kalloc_correct_witness :
  exists s', kalloc 1 [] demo_kst = Ok demo_page s' /\ kst_rep 1 demo_kend s' ∅.
Proof.
  destruct (kalloc_correct 1 [] demo_kend demo_kst {[demo_page]} demo_kend_ok demo_kst_rep)
    as (r & s' & Hrun & _ & [(_ & HF & _)|(Hr & _ & Hs')]); [set_solver|].
  apply elem_of_singleton in Hr as ->. exists s'. split; [exact Hrun|].
  replace (∅ : gset Z) with ({[demo_page]} ∖ {[demo_page]} : gset Z) by set_solver. exact Hs'.
Defined.

Lemma kfree_correct_witness :
  (exists s', kfree 1 [] demo_kend (demo_page + PGSIZE) demo_kst = Ok () s' /\
     kst_rep 1 demo_kend s' ({[demo_page + PGSIZE]} ∪ {[demo_page]})) /\
  kfree 1 [] demo_kend (demo_page + 1) demo_kst = Panic "kfree".
Proof.
  split.
  - pose proof (kfree_correct 1 [] demo_kend demo_kst {[demo_page]} (demo_page + PGSIZE) demo_kend_ok demo_kst_rep) as H.
    rewrite decide_True in H by (vm_compute; intuition congruence).
    destruct H as (s' & Hrun & Hs' & _); [vm_compute; intuition congruence| |].
    + intros E%elem_of_singleton. discriminate E.
    + exists s'. split; [exact Hrun|exact Hs'].
  - pose proof (kfree_correct 1 [] demo_kend demo_kst {[demo_page]} (demo_page + 1) demo_kend_ok demo_kst_rep) as H.
    rewrite decide_False in H by (intros [E _]; vm_compute in E; discriminate E).
    apply H; [vm_compute; intuition congruence|]. intros E%elem_of_singleton. discriminate E.
Defined.

Lemma kinit_correct_witness :
  exists s', (kinit1 1 [] demo_kend demo_kend (P2V 4194304);; kinit2 1 [] demo_kend (P2V 4194304) (KERNBASE + PHYSTOP))
      (mk_kst (p_mach (sp_init [0; 1])) false 0 (fun _ => 0)) = Ok () s' /\ k_use_lock s' = true.
Proof.
  destruct (kinit_correct [0; 1] 1 [] demo_kend (P2V 4194304) (fun _ => 0)) as (s' & Hrun & _ & Hu).
  - apply (bool_decide_unpack _). vm_compute. exact I.
  - set_solver.
  - exact demo_kend_ok.
  - intros i. lia.
  - reflexivity.
  - vm_compute. intuition congruence.
  - exists s'. split; [exact Hrun|exact Hu].
Defined.
