(* ===== verification/Vm.v ===== *)
(** Page tables and user memory ([vm.c], [mmu.h]).

    Page tables are pages of the flat memory, obtained from the page allocator
    through its interface [PageOps]; a page table entry is a 32-bit word.  A
    [pte_t *] is an address, 0 when there is none. *)

From S2P Require Import Prelude CString Spinlock Kalloc.

Definition PDX (va : Z) : Z := Z.land (Z.shiftr va 22) 1023.
Definition PTX (va : Z) : Z := Z.land (Z.shiftr va 12) 1023.
Definition PGADDR (d t o : Z) : Z := u32 (Z.lor (Z.lor (Z.shiftl d 22) (Z.shiftl t 12)) o).

Definition PTE_P : Z := 1.
Definition PTE_W : Z := 2.
Definition PTE_U : Z := 4.
Definition PTE_ADDR (pte : Z) : Z := Z.land pte (Z.lnot 4095).
Definition PTE_FLAGS (pte : Z) : Z := Z.land pte 4095.
Definition NPDENTRIES : Z := 1024.

Definition KERNLINK : Z := KERNBASE + EXTMEM.
Definition DEVSPACE : Z := 4261412864.

(** [pte & PTE_P], as a condition. *)
Definition present (pte : Z) : bool := negb (Z.land pte PTE_P =? 0).

Section vm.
Context {S : Type} `{!PageOps S}.

Definition rd (a : Z) : M S Z := gets (fun s => load32 (pg_mem s) a).
Definition wr (a v : Z) : M S () := modify (fun s => pg_setmem (store32 (pg_mem s) a v) s).
Definition vm_memset (dst c n : Z) : M S () := modify (fun s => pg_setmem (memset (pg_mem s) dst c n) s).
Definition vm_memmove (dst src n : Z) : M S () := modify (fun s => pg_setmem (memmove (pg_mem s) dst src n) s).

Definition walkpgdir (pgdir va : Z) (alloc : bool) : M S Z :=
  let pde := u32 (pgdir + 4 * PDX va) in
  e ← rd pde;
  if present e then mret (u32 (P2V (PTE_ADDR e) + 4 * PTX va))
  else if negb alloc then mret 0
  else
    pgtab ← pg_kalloc;
    if pgtab =? 0 then mret 0
    else
      vm_memset pgtab 0 PGSIZE;;
      wr pde (Z.lor (Z.lor (Z.lor (V2P pgtab) PTE_P) PTE_W) PTE_U);;
      mret (u32 (pgtab + 4 * PTX va)).

(** The [for(;;)] of [mappages]; it leaves when [a == last], so it runs
    [(last - a) / PGSIZE + 1] times. *)
Fixpoint mappages_loop (fuel : nat) (pgdir a last pa perm : Z) : M S Z :=
  match fuel with
  | O => mret 0
  | Datatypes.S fuel =>
      pte ← walkpgdir pgdir a true;
      if pte =? 0 then mret (-1) else
      e ← rd pte;
      if present e then panic "remap" else
      wr pte (Z.lor (Z.lor pa perm) PTE_P);;
      if a =? last then mret 0
      else mappages_loop fuel pgdir (u32 (a + PGSIZE)) last (u32 (pa + PGSIZE)) perm
  end.

Definition mappages (pgdir va size pa perm : Z) : M S Z :=
  let a := PGROUNDDOWN va in
  let last := PGROUNDDOWN (u32 (va + size - 1)) in
  mappages_loop (Z.to_nat (u32 (last - a) / PGSIZE) + 1) pgdir a last pa perm.

(** The [for] of [deallocuvm]; [a] grows by at least a page each time round. *)
Fixpoint deallocuvm_loop (fuel : nat) (pgdir a oldsz : Z) : M S () :=
  match fuel with
  | O => mret ()
  | Datatypes.S fuel =>
      if a <? oldsz then
        pte ← walkpgdir pgdir a false;
        if pte =? 0 then
          deallocuvm_loop fuel pgdir (u32 (u32 (PGADDR (PDX a + 1) 0 0 - PGSIZE) + PGSIZE)) oldsz
        else
          e ← rd pte;
          (if present e then
             let pa := PTE_ADDR e in
             if pa =? 0 then panic "kfree" else
             pg_kfree (P2V pa);;
             wr pte 0
           else mret ());;
          deallocuvm_loop fuel pgdir (u32 (a + PGSIZE)) oldsz
      else mret ()
  end.

Definition deallocuvm (pgdir oldsz newsz : Z) : M S Z :=
  if oldsz <=? newsz then mret oldsz else
  let a := PGROUNDUP newsz in
  deallocuvm_loop (Z.to_nat (oldsz / PGSIZE) + 1) pgdir a oldsz;;
  mret newsz.

(** The [for] of [allocuvm] with its error paths; it returns what [allocuvm]
    returns. *)
Fixpoint allocuvm_loop (fuel : nat) (pgdir a oldsz newsz : Z) : M S Z :=
  match fuel with
  | O => mret newsz
  | Datatypes.S fuel =>
      if a <? newsz then
        mem ← pg_kalloc;
        if mem =? 0 then
          deallocuvm pgdir newsz oldsz;;
          mret 0
        else
          vm_memset mem 0 PGSIZE;;
          r ← mappages pgdir a PGSIZE (V2P mem) (Z.lor PTE_W PTE_U);
          if r <? 0 then
            deallocuvm pgdir newsz oldsz;;
            pg_kfree mem;;
            mret 0
          else allocuvm_loop fuel pgdir (u32 (a + PGSIZE)) oldsz newsz
      else mret newsz
  end.

Definition allocuvm (pgdir oldsz newsz : Z) : M S Z :=
  if KERNBASE <=? newsz then mret 0 else
  if newsz <? oldsz then mret oldsz else
  let a := PGROUNDUP oldsz in
  allocuvm_loop (Z.to_nat (newsz / PGSIZE) + 1) pgdir a oldsz newsz.

Definition freevm (pgdir : Z) : M S () :=
  if pgdir =? 0 then panic "freevm: no pgdir" else
  deallocuvm pgdir KERNBASE 0;;
  forM (seqZ 0 NPDENTRIES) (fun i =>
    e ← rd (u32 (pgdir + 4 * i));
    when (present e) (pg_kfree (P2V (PTE_ADDR e))));;
  pg_kfree pgdir.

Record kmap := mk_kmap { km_virt : Z; km_phys_start : Z; km_phys_end : Z; km_perm : Z }.

(** The table [kmap], with the linker's symbol [data]. *)
Definition kmaps (data : Z) : list kmap :=
  [mk_kmap KERNBASE 0 EXTMEM PTE_W;
   mk_kmap KERNLINK (V2P KERNLINK) (V2P data) 0;
   mk_kmap data (V2P data) PHYSTOP PTE_W;
   mk_kmap DEVSPACE DEVSPACE 0 PTE_W].

Fixpoint map_kernel (pgdir : Z) (ks : list kmap) : M S bool :=
  match ks with
  | [] => mret true
  | k :: ks =>
      r ← mappages pgdir (km_virt k) (u32 (km_phys_end k - km_phys_start k)) (km_phys_start k) (km_perm k);
      if r <? 0 then mret false else map_kernel pgdir ks
  end.

Definition setupkvm (data : Z) : M S Z :=
  pgdir ← pg_kalloc;
  if pgdir =? 0 then mret 0 else
  vm_memset pgdir 0 PGSIZE;;
  if P2V PHYSTOP >? DEVSPACE then panic "PHYSTOP too high" else
  ok ← map_kernel pgdir (kmaps data);
  if ok : bool then mret pgdir
  else freevm pgdir;; mret 0.

(** [init] is the kernel address of the initcode. *)
Definition inituvm (pgdir init sz : Z) : M S () :=
  if PGSIZE <=? sz then panic "inituvm: more than a page" else
  mem ← pg_kalloc;
  vm_memset mem 0 PGSIZE;;
  mappages pgdir 0 PGSIZE (V2P mem) (Z.lor PTE_W PTE_U);;
  vm_memmove mem init sz.

Definition clearpteu (pgdir uva : Z) : M S () :=
  pte ← walkpgdir pgdir uva false;
  if pte =? 0 then panic "clearpteu" else
  e ← rd pte;
  wr pte (Z.land e (Z.lnot PTE_U)).

(** The [for] of [copyuvm]; [false] when it leaves through [bad]. *)
Fixpoint copyuvm_loop (fuel : nat) (pgdir d i sz : Z) : M S bool :=
  match fuel with
  | O => mret true
  | Datatypes.S fuel =>
      if i <? sz then
        pte ← walkpgdir pgdir i false;
        if pte =? 0 then panic "copyuvm: pte should exist" else
        e ← rd pte;
        if negb (present e) then panic "copyuvm: page not present" else
        let pa := PTE_ADDR e in
        let flags := PTE_FLAGS e in
        mem ← pg_kalloc;
        if mem =? 0 then mret false else
        vm_memmove mem (P2V pa) PGSIZE;;
        r ← mappages d i PGSIZE (V2P mem) flags;
        if r <? 0 then mret false
        else copyuvm_loop fuel pgdir d (u32 (i + PGSIZE)) sz
      else mret true
  end.

Definition copyuvm (data pgdir sz : Z) : M S Z :=
  d ← setupkvm data;
  if d =? 0 then mret 0 else
  ok ← copyuvm_loop (Z.to_nat (sz / PGSIZE) + 1) pgdir d 0 sz;
  if ok : bool then mret d
  else freevm d;; mret 0.

(** [*pte] is read also when [walkpgdir] returned the null pointer. *)
Definition uva2ka (pgdir uva : Z) : M S Z :=
  pte ← walkpgdir pgdir uva false;
  e ← rd pte;
  if negb (present e) then mret 0 else
  if Z.land e PTE_U =? 0 then mret 0 else
  mret (P2V (PTE_ADDR e)).

(** [buf] is the kernel address to copy from.  Each turn copies at least a
    byte and, after the first, whole pages. *)
Fixpoint copyout_loop (fuel : nat) (pgdir va buf len : Z) : M S Z :=
  match fuel with
  | O => mret 0
  | Datatypes.S fuel =>
      if len >? 0 then
        let va0 := PGROUNDDOWN va in
        pa0 ← uva2ka pgdir va0;
        if pa0 =? 0 then mret (-1) else
        let n := u32 (PGSIZE - (va - va0)) in
        let n := if n >? len then len else n in
        vm_memmove (u32 (pa0 + (va - va0))) buf n;;
        copyout_loop fuel pgdir (u32 (va0 + PGSIZE)) (u32 (buf + n)) (len - n)
      else mret 0
  end.

Definition copyout (pgdir va p len : Z) : M S Z :=
  copyout_loop (Z.to_nat (len / PGSIZE) + 2) pgdir va p len.

(** The [for] of [loaduvm]; [readi off n] is [readi] of the inode, which
    returns the count and the bytes. *)
Fixpoint loaduvm_loop (readi : Z -> Z -> M S (Z * list Z)) (fuel : nat) (pgdir addr offset i sz : Z) : M S Z :=
  match fuel with
  | O => mret 0
  | Datatypes.S fuel =>
      if i <? sz then
        pte ← walkpgdir pgdir (u32 (addr + i)) false;
        if pte =? 0 then panic "loaduvm: address should exist" else
        e ← rd pte;
        let pa := PTE_ADDR e in
        let n := if u32 (sz - i) <? PGSIZE then u32 (sz - i) else PGSIZE in
        '(r, bytes) ← readi (u32 (offset + i)) n;
        modify (fun s => pg_setmem (fun a => if in_range a (P2V pa) (Z.of_nat (length bytes))
                                             then u8 (bytes !!! Z.to_nat (a - P2V pa)) else pg_mem s a) s);;
        if negb (r =? n) then mret (-1)
        else loaduvm_loop readi fuel pgdir addr offset (u32 (i + PGSIZE)) sz
      else mret 0
  end.

Definition loaduvm (readi : Z -> Z -> M S (Z * list Z)) (pgdir addr offset sz : Z) : M S Z :=
  if negb (addr mod PGSIZE =? 0) then panic "loaduvm: addr must be page aligned" else
  loaduvm_loop readi (Z.to_nat (sz / PGSIZE) + 1) pgdir addr offset 0 sz.
End vm.
