(* ===== verification/VmRep.v ===== *)
(** Page tables as maps: the words of a two-level page table in memory
    represent a function from virtual page numbers to entries.  The rules for
    [walkpgdir] and for writing an entry are stated on that function.  [mappages] is an update of
    that function. *)

From S2P Require Import Prelude CString Spinlock Kalloc Vm.

(** The page table at [pgdir]: [T] gives the table page of each directory
    index in use, [e] the entry of each virtual page number. *)
Record pt_rep (m : mem) (pgdir : Z) (T : gmap Z Z) (e : Z -> Z) : Prop := {
  pr_dir : forall d, 0 <= d < 1024 ->
    load32 m (pgdir + 4 * d) = match T !! d with Some p => V2P p + 7 | None => 0 end;
  pr_tab : forall d p k, T !! d = Some p -> 0 <= k < 1024 -> load32 m (p + 4 * k) = e (d * 1024 + k);
  pr_none : forall d k, 0 <= d < 1024 -> T !! d = None -> 0 <= k < 1024 -> e (d * 1024 + k) = 0
}.

Definition tabs (T : gmap Z Z) : gset Z := map_img T.

Lemma elem_tabs T p : p ∈ tabs T <-> exists d, T !! d = Some p.
Proof. apply elem_of_map_img. Qed.

(** The pages of the table are apart from each other and from the free ones. *)
Record pt_sep (kend : Z) (F : gset Z) (pgdir : Z) (T : gmap Z Z) : Prop := {
  ps_dir : page_ok kend pgdir /\ pgdir ∉ F /\ pgdir ∉ tabs T;
  ps_tab : forall d p, T !! d = Some p -> 0 <= d < 1024 /\ page_ok kend p /\ p ∉ F;
  ps_inj : forall d d' p, T !! d = Some p -> T !! d' = Some p -> d = d'
}.

(** Memory differs at most inside the pages [Y]. *)
Definition same_except (Y : gset Z) (m m' : mem) : Prop :=
  forall p a, p mod PGSIZE = 0 -> p ∉ Y -> in_page p a -> m' a = m a.

Lemma same_except_refl Y m : same_except Y m m.
Proof. intros p a _ _ _. done. Qed.

Lemma same_except_trans Y Y' m1 m2 m3 :
  same_except Y m1 m2 -> same_except Y' m2 m3 -> same_except (Y ∪ Y') m1 m3.
Proof. intros H1 H2 p a Hp Hn Ha. rewrite (H2 p), (H1 p); set_solver. Qed.

Lemma same_except_weaken Y Y' m m' : Y ⊆ Y' -> same_except Y m m' -> same_except Y' m m'.
Proof. intros HY H p a Hp Hn. apply H; set_solver. Qed.

Lemma in_own_page a : in_page (a - a mod PGSIZE) a /\ (a - a mod PGSIZE) mod PGSIZE = 0.
Proof.
  unfold in_page, PGSIZE. pose proof (Z.div_mod a 4096 ltac:(lia)). pose proof (Z.mod_pos_bound a 4096 ltac:(lia)).
  split; [lia|]. replace (a - a mod 4096) with (a / 4096 * 4096) by lia. apply Z.mod_mul. lia.
Qed.

(** ** Address arithmetic *)

Lemma PDX_div va : 0 <= va < 2 ^ 32 -> PDX va = va / 2 ^ 22 /\ 0 <= PDX va < 1024.
Proof.
  intros H. unfold PDX. change 1023 with (Z.ones 10). rewrite Z.land_ones, Z.shiftr_div_pow2 by lia.
  assert (0 <= va / 2 ^ 22 < 1024) by (split; [apply Z.div_pos; lia|apply Z.div_lt_upper_bound; lia]).
  rewrite Z.mod_small by lia. lia.
Qed.

Lemma PTX_div va : 0 <= va -> PTX va = (va / 4096) mod 1024 /\ 0 <= PTX va < 1024.
Proof.
  intros H. unfold PTX. change 1023 with (Z.ones 10). rewrite Z.land_ones, Z.shiftr_div_pow2 by lia.
  split; [done|]. apply Z.mod_pos_bound. lia.
Qed.

Lemma vpn_split va : 0 <= va < 2 ^ 32 -> PDX va * 1024 + PTX va = va / 4096.
Proof.
  intros H. destruct (PDX_div va H) as [-> _]. destruct (PTX_div va ltac:(lia)) as [-> _].
  change (2 ^ 22) with (4096 * 1024). rewrite <- Z.div_div by lia. pose proof (Z.div_mod (va / 4096) 1024 ltac:(lia)). lia.
Qed.

Lemma land_low x y k : 0 <= k -> 0 <= y < 2 ^ k -> x mod 2 ^ k = 0 -> Z.land x y = 0.
Proof.
  intros Hk Hy Hx. apply Z.bits_inj'. intros n Hn. rewrite Z.land_spec, Z.bits_0. destruct (decide (n < k)) as [Hlt|Hge].
  - rewrite <- (Z.mod_pow2_bits_low x k n) by lia. by rewrite Hx, Z.bits_0.
  - rewrite <- (Z.mod_small y (2 ^ k)) by lia. rewrite Z.mod_pow2_bits_high by lia. by rewrite andb_false_r.
Qed.

Lemma lor_low x y k : 0 <= k -> 0 <= y < 2 ^ k -> x mod 2 ^ k = 0 -> Z.lor x y = x + y.
Proof. intros Hk Hy Hx. pose proof (land_low x y k Hk Hy Hx) as H. by rewrite Z.add_nocarry_lxor, Z.lxor_lor. Qed.

(** An entry: a page-aligned physical address and flags below 4096. *)
Lemma pte_parts pa fl : 0 <= fl < 4096 -> pa mod 4096 = 0 -> PTE_ADDR (pa + fl) = pa /\ PTE_FLAGS (pa + fl) = fl.
Proof.
  intros Hf Hp. unfold PTE_ADDR, PTE_FLAGS. change (Z.lnot 4095) with (Z.lnot (PGSIZE - 1)).
  change (Z.land ?x (Z.lnot (PGSIZE - 1))) with (PGROUNDDOWN x). rewrite round_down. unfold PGSIZE.
  assert (E : (pa + fl) mod 4096 = fl) by (rewrite Z.add_mod, Hp, Z.add_0_l, Z.mod_mod, Z.mod_small by lia; done).
  change 4095 with (Z.ones 12). rewrite Z.land_ones by lia. change (2 ^ 12) with 4096. rewrite E. lia.
Qed.

Lemma present_odd e : present e = Z.odd e.
Proof.
  unfold present, PTE_P. change 1 with (Z.ones 1) at 1. rewrite Z.land_ones by lia. change (2 ^ 1) with 2.
  rewrite Zmod_odd. by destruct (Z.odd e).
Qed.

Section sep.
Context (kend : Z) (Hk : KERNBASE <= kend < KERNBASE + PHYSTOP).

Lemma V2P_page p : page_ok kend p -> V2P p mod 4096 = 0 /\ P2V (V2P p) = p /\ 0 <= V2P p /\ V2P p + 4096 <= PHYSTOP.
Proof.
  intros Hp. pose proof (page_range kend p ltac:(lia) Hp) as Hr. destruct Hp as (Hm & _ & _ & _).
  unfold V2P, P2V, KERNBASE, PHYSTOP, PGSIZE in *. rewrite (u32_small (p - _)) by lia. split_and!; try lia.
  - rewrite Zminus_mod, Hm. reflexivity.
  - rewrite u32_small by lia. lia.
Qed.

Lemma page_bounds p : page_ok kend p -> 0 <= p /\ p + 4096 <= 2 ^ 32 /\ p mod PGSIZE = 0.
Proof.
  intros Hp. pose proof (page_range kend p ltac:(lia) Hp) as Hr. destruct Hp as (Hm & _).
  unfold KERNBASE, PHYSTOP, PGSIZE in *. lia.
Qed.

(** The directory entry of a table page. *)
Lemma pde_of p : page_ok kend p ->
  Z.lor (Z.lor (Z.lor (V2P p) PTE_P) PTE_W) PTE_U = V2P p + 7 /\ present (V2P p + 7) = true /\ P2V (PTE_ADDR (V2P p + 7)) = p.
Proof.
  intros Hp. destruct (V2P_page p Hp) as (H1 & H2 & H3 & H4).
  rewrite <- !Z.lor_assoc. change (Z.lor PTE_P (Z.lor PTE_W PTE_U)) with 7.
  rewrite (lor_low _ 7 12) by (done || lia). split; [done|]. destruct (pte_parts (V2P p) 7 ltac:(lia) H1) as [-> _].
  split; [|done]. rewrite present_odd, Z.odd_add. change (Z.odd 7) with true.
  rewrite (Z.div_mod (V2P p) 4096), H1, Z.add_0_r, Z.odd_mul by lia. done.
Qed.

Lemma word_in_page p k : page_ok kend p -> 0 <= k < 1024 -> 0 <= p + 4 * k /\ p + 4 * k + 4 <= 2 ^ 32 /\
  forall i, p + 4 * k <= i < p + 4 * k + 4 -> in_page p i.
Proof. intros Hp Hkk. destruct (page_bounds p Hp) as (? & ? & ?). unfold in_page, PGSIZE. split_and!; try lia. Qed.

Lemma tab_page F pgdir T d p : pt_sep kend F pgdir T -> T !! d = Some p -> page_ok kend p /\ p <> pgdir /\ p ∉ F.
Proof.
  intros [[_ [_ Hn]] Ht _] Hd. destruct (Ht d p Hd) as (_ & Hp & HF). split_and!; try done.
  intros ->. apply Hn, elem_tabs. eauto.
Qed.

(** Changes outside the table's pages keep the table. *)
Lemma pt_rep_frame F pgdir T e Y m m' :
  pt_sep kend F pgdir T -> pt_rep m pgdir T e -> same_except Y m m' -> pgdir ∉ Y -> tabs T ## Y -> pt_rep m' pgdir T e.
Proof.
  intros Hsep [Hd Ht Hn] Hsame Hp HT. destruct Hsep as [[Hpg _] Htab _]. split; [| |done].
  - intros d Hd0. rewrite <- Hd by done. destruct (word_in_page pgdir d Hpg Hd0) as (? & ? & Hin).
    apply load32_ext; try done. intros i Hi. apply (Hsame pgdir); [apply Hpg|done|by apply Hin].
  - intros d p k Hdp Hkk. rewrite <- (Ht d p k) by done. destruct (Htab d p Hdp) as (_ & Hpo & _).
    destruct (word_in_page p k Hpo Hkk) as (? & ? & Hin).
    apply load32_ext; try done. intros i Hi. apply (Hsame p); [apply Hpo| |by apply Hin].
    intros HY. apply (HT p); [|done]. apply elem_tabs. eauto.
Qed.

Lemma pt_rep_ext m pgdir T e e' :
  pt_rep m pgdir T e -> (forall v, 0 <= v < 1048576 -> e' v = e v) -> (forall d p, T !! d = Some p -> 0 <= d < 1024) ->
  pt_rep m pgdir T e'.
Proof.
  intros [Hd Ht Hn] He HT. split; [done| |].
  - intros d p k Hdp Hkk. specialize (HT d p Hdp). rewrite He by lia. by apply Ht.
  - intros d k Hd0 Hdn Hkk. rewrite He by lia. by apply Hn.
Qed.

Lemma pt_sep_mono F F' pgdir T : pt_sep kend F pgdir T -> F' ⊆ F -> pt_sep kend F' pgdir T.
Proof.
  intros [(H1 & H2 & H3) H4 H5] HF. split; [split_and!; try done; set_solver| |done].
  intros d p Hd. destruct (H4 d p Hd) as (? & ? & ?). do 2 (split; [done|]). set_solver.
Qed.

(** Writing one entry. *)
Lemma pt_rep_store F pgdir T e m d p k v :
  pt_sep kend F pgdir T -> pt_rep m pgdir T e -> T !! d = Some p -> 0 <= k < 1024 -> 0 <= v < 2 ^ 32 ->
  pt_rep (store32 m (p + 4 * k) v) pgdir T (upd e (d * 1024 + k) v).
Proof.
  intros Hsep [Hd Ht Hn] Hdp Hkk Hv. destruct (tab_page _ _ _ _ _ Hsep Hdp) as (Hpo & Hne & _).
  destruct (ps_tab _ _ _ _ Hsep d p Hdp) as (Hd0 & _ & _). destruct (ps_dir _ _ _ _ Hsep) as (Hpg & _ & _).
  destruct (word_in_page p k Hpo Hkk) as (? & ? & Hin). destruct (page_bounds p Hpo) as (? & ? & Hmp).
  destruct (page_bounds pgdir Hpg) as (? & ? & Hmpg). split.
  - intros d' Hd'. rewrite <- Hd by done. apply load32_ext; try lia. intros i Hi. apply store32_other; try lia.
    assert (~ in_page p i) by (eapply (pages_apart pgdir p); try done; unfold in_page, PGSIZE; lia). unfold in_page, PGSIZE in *. lia.
  - intros d' p' k' Hdp' Hk'. destruct (tab_page _ _ _ _ _ Hsep Hdp') as (Hpo' & _ & _).
    destruct (page_bounds p' Hpo') as (? & ? & Hmp'). destruct (decide (p' = p)) as [->|Hne'].
    + assert (d' = d) as -> by (eapply (ps_inj _ _ _ _ Hsep); done). destruct (decide (k' = k)) as [->|Hnk].
      * rewrite upd_eq. by apply load32_store32.
      * rewrite upd_ne by lia. rewrite load32_store32_other by lia. by apply Ht.
    + assert (d' <> d) by (intros ->; congruence). rewrite upd_ne by lia. rewrite <- (Ht d' p' k') by done.
      apply load32_ext; try lia. intros i Hi. apply store32_other; try lia.
      assert (~ in_page p i) by (eapply (pages_apart p' p); try done; unfold in_page, PGSIZE; lia). unfold in_page, PGSIZE in *. lia.
  - intros d' k' Hd' Hdn Hk'. assert (d' <> d) by (intros ->; congruence). rewrite upd_ne by lia. by apply Hn.
Qed.
End sep.

(** ** The rules *)

Section vm_rules.
Context {S : Type} `{!PageOps S} `{!PageLayer S}.
Implicit Types (s : S) (F : gset Z) (T : gmap Z Z) (e : Z -> Z).

(** The page table at [pgdir], with [F] the free pages. *)
Record vmr s F (pgdir : Z) T e : Prop := {
  vm_pg : pg_rep s F;
  vm_sep : pt_sep pg_end F pgdir T;
  vm_pt : pt_rep (pg_mem s) pgdir T e
}.

Lemma vmr_ext s F pgdir T e e' :
  vmr s F pgdir T e -> (forall v, 0 <= v < 1048576 -> e' v = e v) -> vmr s F pgdir T e'.
Proof.
  intros [H1 H2 H3] He. split; [done..|]. eapply pt_rep_ext; try done. intros d p Hd. by apply (ps_tab _ _ _ _ H2 d p).
Qed.

(** The state may change outside the table's pages. *)
Lemma vmr_frame s s' F F' pgdir T e Y :
  vmr s F pgdir T e -> pg_rep s' F' -> same_except Y (pg_mem s) (pg_mem s') ->
  pgdir ∉ Y ∪ F' -> tabs T ## Y ∪ F' -> vmr s' F' pgdir T e.
Proof.
  intros [H1 H2 H3] Hs' Hsame Hp HT. split; [done| |].
  - destruct H2 as [(P1 & P2 & P3) P4 P5]. split; [split_and!; try done; set_solver| |done].
    intros d p Hd. destruct (P4 d p Hd) as (? & ? & ?). do 2 (split; [done|]). intros HF. apply (HT p); [|set_solver].
    apply elem_tabs. eauto.
  - eapply (pt_rep_frame pg_end pg_end_ok F); try done; set_solver.
Qed.

Lemma vmr_pages s F pgdir T e d p : vmr s F pgdir T e -> T !! d = Some p -> 0 <= d < 1024 /\ page_ok pg_end p /\ p <> pgdir /\ p ∉ F.
Proof.
  intros H Hd. destruct (tab_page _ _ _ _ _ _ (vm_sep _ _ _ _ _ H) Hd) as (? & ? & ?).
  destruct (ps_tab _ _ _ _ (vm_sep _ _ _ _ _ H) d p Hd) as (? & _). done.
Qed.

Lemma vmr_word s F pgdir T e d p va :
  vmr s F pgdir T e -> T !! d = Some p -> 0 <= va < 2 ^ 32 -> u32 (p + 4 * PTX va) = p + 4 * PTX va /\ p + 4 * PTX va <> 0.
Proof.
  intros H Hd Hva. destruct (vmr_pages _ _ _ _ _ _ _ H Hd) as (_ & Hp & _). destruct (PTX_div va ltac:(lia)) as [_ Hx].
  pose proof pg_end_ok as Hk. pose proof (page_range pg_end p (proj1 Hk) Hp) as Hr. unfold KERNBASE, PHYSTOP, PGSIZE in Hr.
  rewrite u32_small by lia. lia.
Qed.

(** [walkpgdir] without allocation finds the table or nothing. *)
Lemma wp_walk s F pgdir T e va (Q : Z -> S -> Prop) :
  vmr s F pgdir T e -> 0 <= va < 2 ^ 32 ->
  Q (match T !! PDX va with Some p => p + 4 * PTX va | None => 0 end) s ->
  wp (walkpgdir pgdir va false) s Q.
Proof.
  intros H Hva HQ. pose proof pg_end_ok as Hk. destruct (PDX_div va Hva) as [_ Hd]. unfold walkpgdir, rd. cbv zeta.
  destruct (ps_dir _ _ _ _ (vm_sep _ _ _ _ _ H)) as (Hpg & _ & _). destruct (word_in_page pg_end Hk pgdir _ Hpg Hd) as (? & ? & _).
  do 2 wp_step. rewrite u32_small by lia. rewrite (pr_dir _ _ _ _ (vm_pt _ _ _ _ _ H)) by done.
  destruct (T !! PDX va) as [p|] eqn:Ep.
  - destruct (vmr_pages _ _ _ _ _ _ _ H Ep) as (_ & Hp & _). destruct (pde_of pg_end Hk p Hp) as (_ & -> & ->).
    wp_step. destruct (vmr_word _ _ _ _ _ _ _ va H Ep Hva) as [-> _]. done.
  - change (present 0) with false. simpl. by wp_step.
Qed.

(** Reading and writing an entry. *)
Lemma wp_rd_pte s F pgdir T e va p (Q : Z -> S -> Prop) :
  vmr s F pgdir T e -> 0 <= va < 2 ^ 32 -> T !! PDX va = Some p -> Q (e (va / 4096)) s ->
  wp (rd (p + 4 * PTX va)) s Q.
Proof.
  intros H Hva Ep HQ. destruct (PTX_div va ltac:(lia)) as [_ Hx]. unfold rd. wp_step.
  rewrite (pr_tab _ _ _ _ (vm_pt _ _ _ _ _ H) _ _ _ Ep Hx), (vpn_split va Hva). done.
Qed.

Lemma vmr_store s F pgdir T e va p v :
  vmr s F pgdir T e -> 0 <= va < 2 ^ 32 -> T !! PDX va = Some p -> 0 <= v < 2 ^ 32 ->
  vmr (pg_setmem (store32 (pg_mem s) (p + 4 * PTX va) v) s) F pgdir T (upd e (va / 4096) v) /\
  same_except (tabs T) (pg_mem s) (store32 (pg_mem s) (p + 4 * PTX va) v).
Proof.
  intros H Hva Ep Hv. pose proof pg_end_ok as Hk. destruct (PTX_div va ltac:(lia)) as [_ Hx].
  destruct (vmr_pages _ _ _ _ _ _ _ H Ep) as (_ & Hp & _ & HpF). destruct (word_in_page pg_end Hk p _ Hp Hx) as (Hw0 & Hw1 & Hw2).
  assert (Hout : forall q a, q mod PGSIZE = 0 -> q <> p -> in_page q a -> store32 (pg_mem s) (p + 4 * PTX va) v a = pg_mem s a).
  { intros q a Hq Hqp Ha. apply store32_other; try lia.
    destruct (decide (p + 4 * PTX va <= a < p + 4 * PTX va + 4)) as [Hin|]; [|lia].
    exfalso. apply (pages_apart q p a); try done; [apply Hp|by apply Hw2]. }
  split; [split|].
  - apply pg_setmem_spec; [apply (vm_pg _ _ _ _ _ H)| |].
    + apply store32_bytes, (pg_bytes _ _ (vm_pg _ _ _ _ _ H)).
    + intros q a Hq Ha. apply (Hout q); [|by intros ->|done]. apply (pg_valid _ _ _ (vm_pg _ _ _ _ _ H) Hq).
  - apply (vm_sep _ _ _ _ _ H).
  - rewrite pg_mem_set, <- (vpn_split va Hva). eapply (pt_rep_store pg_end Hk F); try done; apply H.
  - intros q a Hq Hn. apply Hout; [done|]. intros ->. apply Hn, elem_tabs. eauto.
Qed.

Lemma wp_wr_pte s F pgdir T e va p v (Q : () -> S -> Prop) :
  vmr s F pgdir T e -> 0 <= va < 2 ^ 32 -> T !! PDX va = Some p -> 0 <= v < 2 ^ 32 ->
  (forall s', vmr s' F pgdir T (upd e (va / 4096) v) -> same_except (tabs T) (pg_mem s) (pg_mem s') -> Q () s') ->
  wp (wr (p + 4 * PTX va) v) s Q.
Proof.
  intros H Hva Ep Hv HQ. destruct (vmr_store _ _ _ _ _ va p v H Hva Ep Hv) as [H1 H2].
  unfold wr. wp_step. apply HQ; [done|]. by rewrite pg_mem_set.
Qed.

(** Zeroing a page that is neither free nor the table's. *)
Lemma memset_page m p c a : page_ok pg_end p -> memset m p c PGSIZE a = if in_range a p PGSIZE then u8 c else m a.
Proof.
  intros Hp. destruct (page_bounds pg_end pg_end_ok p Hp) as (? & ? & _). apply memset_spec; unfold PGSIZE; lia.
Qed.

Lemma memset_same m p c : page_ok pg_end p -> same_except {[p]} m (memset m p c PGSIZE).
Proof.
  intros Hp q a Hq Hn Ha. rewrite memset_page by done. unfold in_range.
  assert (Hnp : ~ in_page p a) by (eapply (pages_apart q p); try done; [apply Hp|set_solver]). unfold in_page in Hnp.
  destruct (Z.leb_spec p a), (Z.ltb_spec a (p + PGSIZE)); simpl; try done; lia.
Qed.

Lemma memset_bytes m p c : mem_bytes m -> page_ok pg_end p -> mem_bytes (memset m p c PGSIZE).
Proof.
  intros Hm Hp i. rewrite memset_page by done. destruct (in_range _ _ _); [apply Z.mod_pos_bound; lia|apply Hm].
Qed.

Lemma pg_rep_set s F Y m :
  pg_rep s F -> mem_bytes m -> same_except Y (pg_mem s) m -> Y ## F -> pg_rep (pg_setmem m s) F.
Proof.
  intros Hs Hm Hsame HY. apply pg_setmem_spec; try done. intros p a Hp Ha. apply (Hsame p); [|set_solver|done].
  apply (pg_valid _ _ _ Hs Hp).
Qed.

(** A word written into one page changes that page only. *)
Lemma store_same m p k v : page_ok pg_end p -> 0 <= k < 1024 -> same_except {[p]} m (store32 m (p + 4 * k) v).
Proof.
  intros Hp Hkk q a Hq Hn Ha. destruct (word_in_page pg_end pg_end_ok p k Hp Hkk) as (? & ? & Hin).
  apply store32_other; try done. destruct (decide (p + 4 * k <= a < p + 4 * k + 4)) as [Hi|]; [|lia].
  exfalso. apply (pages_apart q p a); try done; [apply Hp|set_solver|by apply Hin].
Qed.

Lemma load32_same Y m m' p k :
  same_except Y m m' -> p ∉ Y -> page_ok pg_end p -> 0 <= k < 1024 -> load32 m' (p + 4 * k) = load32 m (p + 4 * k).
Proof.
  intros Hs Hn Hp Hkk. destruct (word_in_page pg_end pg_end_ok p k Hp Hkk) as (? & ? & Hin).
  apply load32_ext; try done. intros i Hi. apply (Hs p); [apply Hp|done|by apply Hin].
Qed.

(** A zeroed page becomes the table of directory index [d]. *)
Lemma pt_grow m F pgdir T e d r :
  pt_sep pg_end F pgdir T -> pt_rep m pgdir T e -> 0 <= d < 1024 -> T !! d = None -> r ∈ F -> page_ok pg_end r ->
  let m' := store32 (memset m r 0 PGSIZE) (pgdir + 4 * d) (V2P r + 7) in
  pt_sep pg_end (F ∖ {[r]}) pgdir (<[d := r]> T) /\ pt_rep m' pgdir (<[d := r]> T) e /\ same_except ({[pgdir]} ∪ {[r]}) m m'.
Proof.
  intros Hsep Hpt Hd Hdn HrF Hr m'. pose proof pg_end_ok as Hk. destruct (ps_dir _ _ _ _ Hsep) as (Hpg & HpF & HpT).
  assert (Hrp : r <> pgdir) by (intros ->; done).
  assert (HrT : r ∉ tabs T). { intros [d' Hd']%elem_tabs. destruct (ps_tab _ _ _ _ Hsep d' r Hd') as (_ & _ & ?). done. }
  assert (S1 : same_except {[r]} m (memset m r 0 PGSIZE)) by (by apply memset_same).
  assert (S2 : same_except {[pgdir]} (memset m r 0 PGSIZE) m') by (by apply store_same).
  destruct (V2P_page pg_end Hk r Hr) as (_ & _ & Hv0 & Hv1). unfold PHYSTOP in Hv1.
  split_and!.
  - split.
    + split_and!; [done|set_solver|]. intros [d' Hd']%elem_tabs. apply lookup_insert_Some in Hd' as [[_ ->]|[_ Hd']]; [done|].
      apply HpT, elem_tabs. eauto.
    + intros d' p [[<- <-]|[_ Hd']]%lookup_insert_Some; [split; [done|]; split; [done|set_solver]|].
      destruct (ps_tab _ _ _ _ Hsep d' p Hd') as (? & ? & ?). do 2 (split; [done|]). set_solver.
    + intros d1 d2 p [[<- <-]|[_ H1]]%lookup_insert_Some [[<- E]|[_ H2]]%lookup_insert_Some; try done.
      * exfalso. apply HrT, elem_tabs. eauto.
      * exfalso. subst. apply HrT, elem_tabs. eauto.
      * by eapply (ps_inj _ _ _ _ Hsep).
  - destruct Hpt as [P1 P2 P3]. split.
    + intros d' Hd'. destruct (decide (d' = d)) as [->|Hne].
      * rewrite lookup_insert_eq. destruct (word_in_page pg_end Hk pgdir d Hpg Hd) as (? & ? & _).
        apply load32_store32; lia.
      * rewrite lookup_insert_ne by done. rewrite <- P1 by done. destruct (word_in_page pg_end Hk pgdir d Hpg Hd) as (? & ? & _).
        destruct (word_in_page pg_end Hk pgdir d' Hpg Hd') as (? & ? & _). unfold m'. rewrite load32_store32_other by lia.
        apply (load32_same {[r]}); try done; set_solver.
    + intros d' p k [[<- <-]|[Hne Hd']]%lookup_insert_Some Hkk.
      * rewrite P3 by done. rewrite (load32_same _ _ _ _ _ S2) by (done || set_solver).
        destruct (word_in_page pg_end Hk r k Hr Hkk) as (? & ? & Hin). unfold load32. rewrite !load_small by lia.
        rewrite !memset_page by done. unfold in_range.
        rewrite !(proj2 (Z.leb_le _ _)), !(proj2 (Z.ltb_lt _ _)) by (unfold PGSIZE; lia). reflexivity.
      * destruct (tab_page _ _ _ _ _ _ Hsep Hd') as (Hpo & Hpp & _). rewrite <- (P2 d' p k) by done.
        rewrite (load32_same _ _ _ _ _ S2) by (done || set_solver). apply (load32_same {[r]}); try done.
        intros ->%elem_of_singleton. apply HrT, elem_tabs. eauto.
    + intros d' k Hd' [Hdn' _]%lookup_insert_None Hkk. by apply P3.
  - eapply same_except_weaken; [|eapply same_except_trans; [exact S1|exact S2]]. set_solver.
Qed.

Lemma wp_walk_alloc s F pgdir T e va (Q : Z -> S -> Prop) :
  vmr s F pgdir T e -> 0 <= va < 2 ^ 32 ->
  (T !! PDX va = None -> F = ∅ -> forall s', vmr s' F pgdir T e -> pg_mem s' = pg_mem s -> Q 0 s') ->
  (forall p s' F' T', T' !! PDX va = Some p -> T ⊆ T' -> F' ⊆ F -> F' ∪ tabs T' = F ∪ tabs T ->
     (F' = F \/ F' = F ∖ {[p]}) -> vmr s' F' pgdir T' e ->
     same_except ({[pgdir]} ∪ F) (pg_mem s) (pg_mem s') -> Q (p + 4 * PTX va) s') ->
  wp (walkpgdir pgdir va true) s Q.
Proof.
  intros H Hva H0 H1. pose proof pg_end_ok as Hk. destruct (PDX_div va Hva) as [_ Hd]. unfold walkpgdir, rd. cbv zeta.
  destruct (ps_dir _ _ _ _ (vm_sep _ _ _ _ _ H)) as (Hpg & _ & _). destruct (word_in_page pg_end Hk pgdir _ Hpg Hd) as (? & ? & _).
  do 2 wp_step. rewrite u32_small by lia. rewrite (pr_dir _ _ _ _ (vm_pt _ _ _ _ _ H)) by done.
  destruct (T !! PDX va) as [p|] eqn:Ep.
  { destruct (vmr_pages _ _ _ _ _ _ _ H Ep) as (_ & Hp & _). destruct (pde_of pg_end Hk p Hp) as (_ & -> & ->).
    wp_step. destruct (vmr_word _ _ _ _ _ _ _ va H Ep Hva) as [-> _].
    apply (H1 p s F T); try done. by left. }
  change (present 0) with false. cbn [negb]. wp_step. eapply (pg_kalloc_spec _ _ _ (vm_pg _ _ _ _ _ H)).
  - intros HF s' Hs' Em. change (0 =? 0) with true. cbv iota. wp_step. apply H0; try done. destruct H as [_ ? ?]. split; [done..|by rewrite Em].
  - intros r s' Hr Hs' Em. pose proof (pg_valid _ _ _ (vm_pg _ _ _ _ _ H) Hr) as Hrp.
    pose proof (page_range pg_end r (proj1 Hk) Hrp) as Hrr. unfold KERNBASE, PHYSTOP, PGSIZE in Hrr.
    rewrite (proj2 (Z.eqb_neq r 0)) by lia. unfold vm_memset, wr. do 4 wp_step. rewrite pg_mem_set, Em.
    destruct (pde_of pg_end Hk r Hrp) as (-> & _ & _).
    destruct (pt_grow (pg_mem s) F pgdir T e (PDX va) r) as (G1 & G2 & G3); try done; [apply H..|].
    wp_step. destruct (PTX_div va ltac:(lia)) as [_ Hx]. rewrite u32_small by lia.
    apply (H1 r _ (F ∖ {[r]}) (<[PDX va := r]> T)).
    + apply lookup_insert_eq.
    + by apply insert_subseteq.
    + clear. set_solver.
    + unfold tabs. rewrite map_img_insert_notin_L by done. rewrite (union_difference_singleton_L r F) at 2 by done. clear. set_solver.
    + by right.
    + split; [|done|by rewrite pg_mem_set].
      eapply (pg_rep_set _ _ ({[pgdir]} ∪ {[r]})); [eapply (pg_rep_set s' _ {[r]}); [exact Hs'| | |clear; set_solver]|..].
      * apply memset_bytes; [|done]. apply (pg_bytes _ _ (vm_pg _ _ _ _ _ H)).
      * rewrite Em. by apply memset_same.
      * apply store32_bytes, memset_bytes; [|done]. apply (pg_bytes _ _ (vm_pg _ _ _ _ _ H)).
      * rewrite pg_mem_set. eapply same_except_weaken; [|by apply store_same]. clear. set_solver.
      * destruct (ps_dir _ _ _ _ G1) as (_ & G4 & _). clear -G4. set_solver.
    + rewrite pg_mem_set. eapply same_except_weaken; [|exact G3]. clear -Hr. set_solver.
Qed.
End vm_rules.

(** * [mappages] as an update of the entry function, and its panic on a page
    that is already mapped. *)

(** The entry [mappages] writes. *)
Definition mkpte (pa perm : Z) : Z := Z.lor (Z.lor pa perm) PTE_P.

(** The entries after [n] pages from page number [v] on were mapped to [pa]
    on. *)
Definition map_range (e : Z -> Z) (v n pa perm : Z) : Z -> Z :=
  fun x => if (v <=? x) && (x <? v + n) then mkpte (pa + 4096 * (x - v)) perm else e x.

Lemma lor_bound a b k : 0 <= k -> 0 <= a < 2 ^ k -> 0 <= b < 2 ^ k -> 0 <= Z.lor a b < 2 ^ k.
Proof.
  intros Hk Ha Hb. assert (H0 : 0 <= Z.lor a b) by (apply Z.lor_nonneg; lia). split; [done|].
  destruct (decide (Z.lor a b = 0)) as [->|Hz]; [lia|]. apply Z.log2_lt_pow2; [lia|]. rewrite Z.log2_lor by lia.
  assert (Hl : forall x, 0 <= x < 2 ^ k -> x <> 0 -> Z.log2 x < k) by (intros x ? ?; apply Z.log2_lt_pow2; lia).
  destruct (decide (a = 0)) as [->|]; [|destruct (decide (b = 0)) as [->|]].
  - rewrite Z.lor_0_l in Hz. change (Z.log2 0) with 0. rewrite Z.max_r by apply Z.log2_nonneg. by apply Hl.
  - change (Z.log2 0) with 0. rewrite Z.max_l by apply Z.log2_nonneg. by apply Hl.
  - apply Z.max_lub_lt; by apply Hl.
Qed.

Lemma mkpte_range pa perm : 0 <= pa < 2 ^ 32 -> 0 <= perm < 4096 -> 0 <= mkpte pa perm < 2 ^ 32.
Proof. intros Hp Hf. unfold mkpte, PTE_P. repeat apply lor_bound; lia. Qed.

Lemma mkpte_present pa perm : present (mkpte pa perm) = true.
Proof.
  unfold present, mkpte, PTE_P. rewrite Z.land_comm, Z.land_lor_distr_r. change (Z.land 1 1) with 1.
  apply negb_true_iff, Z.eqb_neq. intros E. apply (f_equal (fun x => Z.testbit x 0)) in E.
  rewrite Z.lor_spec, orb_true_r in E. done.
Qed.

Lemma mkpte_addr pa perm : pa mod 4096 = 0 -> 0 <= perm < 4096 -> PTE_ADDR (mkpte pa perm) = pa.
Proof.
  intros Hp Hf. assert (Hl : 0 <= Z.lor perm 1 < 4096) by (apply (lor_bound _ _ 12); lia).
  unfold mkpte. rewrite <- Z.lor_assoc, (lor_low _ _ 12) by (done || lia). by apply pte_parts.
Qed.

Lemma map_range_0 e v pa perm x : map_range e v 0 pa perm x = e x.
Proof. unfold map_range. destruct (Z.leb_spec v x), (Z.ltb_spec x (v + 0)); simpl; try done; lia. Qed.

Lemma map_range_head e v n pa perm x :
  0 <= n -> map_range (upd e v (mkpte pa perm)) (v + 1) n (pa + 4096) perm x = map_range e v (n + 1) pa perm x.
Proof.
  intros Hn. unfold map_range, upd.
  destruct (Z.leb_spec (v + 1) x), (Z.ltb_spec x (v + 1 + n)), (Z.leb_spec v x), (Z.ltb_spec x (v + (n + 1))), (Z.eqb_spec x v);
    simpl; try lia; try done; f_equal; lia.
Qed.

Section mappages.
Context {S : Type} `{!PageOps S} `{!PageLayer S}.
Implicit Types (s : S) (F : gset Z) (T : gmap Z Z) (e : Z -> Z).

(** The table at [pgdir] took pages for new tables from the free ones, and
    nothing outside them changed. *)
Record extends (pgdir : Z) s F T s' F' T' : Prop := {
  ex_T : T ⊆ T';
  ex_F : F' ⊆ F;
  ex_pages : F' ∪ tabs T' = F ∪ tabs T;
  ex_same : same_except ({[pgdir]} ∪ F ∪ tabs T) (pg_mem s) (pg_mem s')
}.

Lemma extends_refl pgdir s F T : extends pgdir s F T s F T.
Proof. by split. Qed.

Lemma extends_trans pgdir s1 F1 T1 s2 F2 T2 s3 F3 T3 :
  extends pgdir s1 F1 T1 s2 F2 T2 -> extends pgdir s2 F2 T2 s3 F3 T3 -> extends pgdir s1 F1 T1 s3 F3 T3.
Proof.
  intros [A1 A2 A3 A4] [B1 B2 B3 B4]. split.
  - by etrans.
  - by etrans.
  - by rewrite B3.
  - eapply same_except_weaken; [|eapply same_except_trans; [exact A4|exact B4]].
    rewrite <- !(assoc_L (∪)), A3. clear. set_solver.
Qed.

Lemma wp_mappages_loop n : forall fuel s F pgdir T e v pa perm (Q : Z -> S -> Prop),
  vmr s F pgdir T e -> 0 <= v -> v + Z.of_nat n < 1048576 -> (n < fuel)%nat ->
  0 <= pa -> pa + 4096 * Z.of_nat n < 2 ^ 32 -> 0 <= perm < 4096 ->
  (forall x, v <= x <= v + Z.of_nat n -> present (e x) = false) ->
  (forall s' F' T', vmr s' F' pgdir T' (map_range e v (Z.of_nat n + 1) pa perm) -> extends pgdir s F T s' F' T' -> Q 0 s') ->
  (forall s' T' k, 0 <= k <= Z.of_nat n -> vmr s' ∅ pgdir T' (map_range e v k pa perm) -> extends pgdir s F T s' ∅ T' ->
     Q (-1) s') ->
  wp (mappages_loop fuel pgdir (4096 * v) (4096 * (v + Z.of_nat n)) pa perm) s Q.
Proof.
  induction n as [|n IH]; intros fuel s F pgdir T e v pa perm Q H Hv Hvn Hfu Hpa Hpan Hperm Hnp H0 H1;
    destruct fuel as [|fuel]; try lia; simpl mappages_loop; wp_step.
  all: assert (Hva : 0 <= 4096 * v < 2 ^ 32) by lia.
  all: assert (Evpn : 4096 * v / 4096 = v) by (rewrite Z.mul_comm; apply Z.div_mul; lia).
  all: apply (wp_walk_alloc s F pgdir T e _ _ H Hva);
    [intros _ -> s' H' Em; change (0 =? 0) with true; cbv iota; wp_step; apply (H1 s' T 0); [lia| |];
       [eapply vmr_ext; [exact H'|]; intros x _; apply map_range_0|]; split; try done; by rewrite Em|].
  all: intros p s1 F1 T1 Ep HT HF Hpg _ H' Hsame; destruct (vmr_word _ _ _ _ _ _ _ _ H' Ep Hva) as [_ Hnz];
    rewrite (proj2 (Z.eqb_neq _ 0) Hnz); wp_step; apply (wp_rd_pte _ _ _ _ _ _ _ _ H' Hva Ep); rewrite Evpn.
  all: rewrite Hnp by lia; cbv iota; wp_step; apply (wp_wr_pte _ _ _ _ _ _ _ _ _ H' Hva Ep);
    [apply mkpte_range; lia|]; rewrite Evpn; intros s2 H2 Hsame2.
  all: assert (Hex : extends pgdir s F T s2 F1 T1).
  1,3: split; try done; eapply same_except_weaken; [|eapply same_except_trans; [exact Hsame|exact Hsame2]];
    clear -Hpg; set_solver.
  - replace (4096 * v =? 4096 * (v + Z.of_nat 0)) with true by (symmetry; apply Z.eqb_eq; lia). wp_step.
    eapply H0; [|exact Hex]. eapply vmr_ext; [exact H2|]. intros x Hx.
    rewrite <- (map_range_head e v 0) by lia. apply map_range_0.
  - replace (4096 * v =? 4096 * (v + Z.of_nat (Datatypes.S n))) with false by (symmetry; apply Z.eqb_neq; lia).
    unfold PGSIZE. rewrite !u32_small by lia. replace (4096 * v + 4096) with (4096 * (v + 1)) by lia.
    replace (4096 * (v + Z.of_nat (Datatypes.S n))) with (4096 * (v + 1 + Z.of_nat n)) by lia.
    apply (IH _ _ F1 _ T1 _ _ _ _ _ H2); try lia.
    + intros x Hx. rewrite upd_ne by lia. apply Hnp. lia.
    + intros s3 F3 T3 H3 He3. eapply H0; [|by eapply extends_trans].
      eapply vmr_ext; [exact H3|]. intros x _. symmetry. etrans; [apply (map_range_head e v (Z.of_nat n + 1)); lia|]. f_equal. lia.
    + intros s3 T3 k Hk H3 He3. eapply (H1 s3 T3 (k + 1)); [lia| |by eapply extends_trans].
      eapply vmr_ext; [exact H3|]. intros x _. symmetry. apply (map_range_head e v k). lia.
Qed.

(** The first page and the number of further pages of [[va, va + size)]. *)
Definition first_vpn (va : Z) : Z := va / 4096.
Definition more_pages (va size : Z) : Z := (va + size - 1) / 4096 - va / 4096.

Lemma mappages_loop_of pgdir va size pa perm :
  0 <= va -> 1 <= size -> va + size <= 2 ^ 32 ->
  0 <= more_pages va size /\ first_vpn va + more_pages va size < 1048576 /\
  mappages pgdir va size pa perm =
    mappages_loop (Z.to_nat (more_pages va size) + 1) pgdir (4096 * first_vpn va) (4096 * (first_vpn va + more_pages va size)) pa perm.
Proof.
  intros Hva Hs Hm. unfold mappages, first_vpn, more_pages. rewrite (u32_small (va + size - 1)) by lia.
  assert (0 <= va / 4096) by (apply Z.div_pos; lia).
  assert (va / 4096 <= (va + size - 1) / 4096) by (apply Z.div_le_mono; lia).
  assert ((va + size - 1) / 4096 < 1048576) by (apply Z.div_lt_upper_bound; lia).
  split; [lia|]. split; [lia|]. rewrite !round_down. unfold PGSIZE.
  assert (forall x, x - x mod 4096 = 4096 * (x / 4096)) as E by (intros x; pose proof (Z.div_mod x 4096 ltac:(lia)); lia).
  rewrite !E, u32_small by lia. rewrite <- Z.mul_sub_distr_l, (Z.mul_comm 4096 (_ - _)), Z.div_mul by lia.
  f_equal. lia.
Qed.

Lemma wp_mappages s F pgdir T e va size pa perm (Q : Z -> S -> Prop) :
  vmr s F pgdir T e -> 0 <= va -> 1 <= size -> va + size <= 2 ^ 32 ->
  0 <= pa -> pa + 4096 * more_pages va size < 2 ^ 32 -> 0 <= perm < 4096 ->
  (forall x, first_vpn va <= x <= first_vpn va + more_pages va size -> present (e x) = false) ->
  (forall s' F' T', vmr s' F' pgdir T' (map_range e (first_vpn va) (more_pages va size + 1) pa perm) ->
     extends pgdir s F T s' F' T' -> Q 0 s') ->
  (forall s' T' k, 0 <= k <= more_pages va size -> vmr s' ∅ pgdir T' (map_range e (first_vpn va) k pa perm) ->
     extends pgdir s F T s' ∅ T' -> Q (-1) s') ->
  wp (mappages pgdir va size pa perm) s Q.
Proof.
  intros H Hva Hs Hm Hpa Hpam Hf Hnp H0 H1. destruct (mappages_loop_of pgdir va size pa perm Hva Hs Hm) as (Hn0 & Hn1 & ->).
  assert (0 <= first_vpn va) by (apply Z.div_pos; lia).
  rewrite <- (Z2Nat.id (more_pages va size)) at 2 by done.
  apply (wp_mappages_loop _ _ s F pgdir T e); rewrite ?Z2Nat.id by done; try done; lia.
Qed.

(** One page. *)
Lemma one_page v : 0 <= v -> first_vpn (4096 * v) = v /\ more_pages (4096 * v) PGSIZE = 0.
Proof.
  intros Hv. unfold first_vpn, more_pages, PGSIZE. rewrite (Z.mul_comm 4096 v), Z.div_mul by lia.
  split; [done|]. replace (v * 4096 + 4096 - 1) with (v * 4096 + 4095) by lia. rewrite Z.div_add_l by lia.
  change (4095 / 4096) with 0. lia.
Qed.

Lemma wp_map1 s F pgdir T e v pa perm (Q : Z -> S -> Prop) :
  vmr s F pgdir T e -> 0 <= v < 1048576 -> 0 <= pa < 2 ^ 32 -> 0 <= perm < 4096 -> present (e v) = false ->
  (forall s' F' T', vmr s' F' pgdir T' (upd e v (mkpte pa perm)) -> extends pgdir s F T s' F' T' -> Q 0 s') ->
  (forall s' T', vmr s' ∅ pgdir T' e -> extends pgdir s F T s' ∅ T' -> Q (-1) s') ->
  wp (mappages pgdir (4096 * v) PGSIZE pa perm) s Q.
Proof.
  intros H Hv Hpa Hf Hnp H0 H1. destruct (one_page v ltac:(lia)) as [E1 E2].
  apply (wp_mappages s F pgdir T e); rewrite ?E1, ?E2; try done; try (unfold PGSIZE; lia).
  - intros x Hx. assert (x = v) as -> by lia. done.
  - intros s' F' T' H' He. eapply H0; [|exact He]. eapply vmr_ext; [exact H'|]. intros x _.
    unfold map_range, upd. destruct (Z.leb_spec v x), (Z.ltb_spec x (v + (0 + 1))), (Z.eqb_spec x v); simpl; try lia; try done.
    f_equal. lia.
  - intros s' T' k Hk H' He. assert (k = 0) as -> by lia. eapply H1; [|exact He]. eapply vmr_ext; [exact H'|].
    intros x _. by rewrite map_range_0.
Qed.

(** One page, when there is a page left for its table: the table takes at most
    one. *)
Lemma wp_map1_ok s F pgdir T e v pa perm (Q : Z -> S -> Prop) :
  vmr s F pgdir T e -> 0 <= v < 1048576 -> 0 <= pa < 2 ^ 32 -> 0 <= perm < 4096 -> present (e v) = false -> F <> ∅ ->
  (forall s' F' T', vmr s' F' pgdir T' (upd e v (mkpte pa perm)) -> extends pgdir s F T s' F' T' ->
     (size F <= Datatypes.S (size F'))%nat -> Q 0 s') ->
  wp (mappages pgdir (4096 * v) PGSIZE pa perm) s Q.
Proof.
  intros H Hv Hpa Hf Hnp HF HQ. destruct (one_page v ltac:(lia)) as [E1 E2].
  destruct (mappages_loop_of pgdir (4096 * v) PGSIZE pa perm) as (_ & _ & ->); try (unfold PGSIZE; lia).
  rewrite E1, E2, Z.add_0_r. change (Z.to_nat 0 + 1)%nat with 1%nat. simpl mappages_loop.
  assert (Hva : 0 <= 4096 * v < 2 ^ 32) by lia.
  assert (Evpn : 4096 * v / 4096 = v) by (rewrite Z.mul_comm; apply Z.div_mul; lia).
  wp_step. apply (wp_walk_alloc s F pgdir T e _ _ H Hva); [intros _ E; by destruct HF|].
  intros p s1 F1 T1 Ep HT HF1 Hpg Hsz H' Hsame. destruct (vmr_word _ _ _ _ _ _ _ _ H' Ep Hva) as [_ Hnz].
  rewrite (proj2 (Z.eqb_neq _ 0) Hnz). wp_step. apply (wp_rd_pte _ _ _ _ _ _ _ _ H' Hva Ep). rewrite Evpn, Hnp. cbv iota.
  wp_step. apply (wp_wr_pte _ _ _ _ _ _ _ _ _ H' Hva Ep); [apply mkpte_range; lia|]. rewrite Evpn. intros s2 H2 Hsame2.
  rewrite Z.eqb_refl. wp_step. apply (HQ s2 F1 T1); [done| |].
  - split; try done. eapply same_except_weaken; [|eapply same_except_trans; [exact Hsame|exact Hsame2]]. clear -Hpg. set_solver.
  - destruct Hsz as [->| ->]; [lia|]. destruct (decide (p ∈ F)) as [Hp|Hp].
    + rewrite size_difference by (clear -Hp; set_solver). rewrite size_singleton. lia.
    + replace (F ∖ {[p]}) with F; [lia|]. clear -Hp. set_solver.
Qed.

(** A present entry lies in a table. *)
Lemma present_tab s F pgdir T e v :
  vmr s F pgdir T e -> 0 <= v < 1048576 -> present (e v) = true -> exists p, T !! PDX (4096 * v) = Some p.
Proof.
  intros H Hv Hp. destruct (T !! PDX (4096 * v)) as [p|] eqn:E; [by exists p|]. exfalso.
  assert (Hva : 0 <= 4096 * v < 2 ^ 32) by lia. destruct (PDX_div _ Hva) as [_ Hd]. destruct (PTX_div (4096 * v) ltac:(lia)) as [_ Hx].
  pose proof (pr_none _ _ _ _ (vm_pt _ _ _ _ _ H) _ _ Hd E Hx) as Hn. rewrite (vpn_split _ Hva) in Hn.
  rewrite Z.mul_comm, Z.div_mul in Hn by lia. by rewrite Hn in Hp.
Qed.

(** [mappages] of pages that are not mapped maps each page of the range to
    the corresponding physical page with the given permissions and returns 0,
    or returns -1 when no page is left for a page table, having mapped a
    prefix of the range.  All other entries stay as they were, and memory
    changes only inside the page table and pages that were free. *)
Theorem mappages_correct s F pgdir T e va size pa perm :
  vmr s F pgdir T e -> 0 <= va -> 1 <= size -> va + size <= 2 ^ 32 ->
  0 <= pa -> pa + 4096 * more_pages va size < 2 ^ 32 -> 0 <= perm < 4096 ->
  (forall x, first_vpn va <= x <= first_vpn va + more_pages va size -> present (e x) = false) ->
  exists r s' F' T' k, mappages pgdir va size pa perm s = Ok r s' /\
    vmr s' F' pgdir T' (map_range e (first_vpn va) k pa perm) /\ extends pgdir s F T s' F' T' /\
    (r = 0 /\ k = more_pages va size + 1 \/ r = -1 /\ F' = ∅ /\ 0 <= k <= more_pages va size).
Proof.
  intros H Hva Hs Hm Hpa Hpam Hf Hnp.
  assert (W : wp (mappages pgdir va size pa perm) s (fun r s' => exists F' T' k,
    vmr s' F' pgdir T' (map_range e (first_vpn va) k pa perm) /\ extends pgdir s F T s' F' T' /\
    (r = 0 /\ k = more_pages va size + 1 \/ r = -1 /\ F' = ∅ /\ 0 <= k <= more_pages va size))).
  { apply (wp_mappages s F pgdir T e); try done.
    - intros s' F' T' H' He. exists F', T', (more_pages va size + 1). auto.
    - intros s' T' k Hk H' He. exists ∅, T', k. auto 6. }
  apply wp_elim in W as (r & s' & Hrun & F' & T' & k & W). exists r, s', F', T', k. split; [exact Hrun|exact W].
Qed.

(** [mappages] panics rather than overwrite a mapping: when the first page
    is already mapped it panics with "remap". *)
Theorem mappages_remap s F pgdir T e va size pa perm :
  vmr s F pgdir T e -> 0 <= va -> 1 <= size -> va + size <= 2 ^ 32 -> present (e (first_vpn va)) = true ->
  mappages pgdir va size pa perm s = Panic "remap".
Proof.
  intros H Hva Hs Hm Hp. destruct (mappages_loop_of pgdir va size pa perm Hva Hs Hm) as (Hn0 & Hn1 & ->).
  assert (0 <= first_vpn va) by (apply Z.div_pos; lia). rewrite Nat.add_1_r. simpl mappages_loop.
  destruct (present_tab _ _ _ _ _ (first_vpn va) H ltac:(lia) Hp) as [p Ep].
  assert (Hva' : 0 <= 4096 * first_vpn va < 2 ^ 32) by lia.
  assert (Evpn : 4096 * first_vpn va / 4096 = first_vpn va) by (rewrite Z.mul_comm; apply Z.div_mul; lia).
  apply panic_after. apply (wp_walk_alloc s F pgdir T e _ _ H Hva'); [intros E; congruence|].
  intros p' s1 F1 T1 Ep' _ _ _ _ H' _. destruct (vmr_word _ _ _ _ _ _ _ _ H' Ep' Hva') as [_ Hnz].
  rewrite (proj2 (Z.eqb_neq _ 0) Hnz). apply panic_after. apply (wp_rd_pte _ _ _ _ _ _ _ _ H' Hva' Ep').
  rewrite Evpn, Hp. done.
Qed.
End mappages.
