(* ===== verification/VmUser.v ===== *)
(** User memory: [deallocuvm] and [allocuvm] on the pages below [KERNBASE]. *)

From S2P Require Import Prelude CString Spinlock Kalloc Vm VmRep.

(** The number of user pages, and the page an entry maps. *)
Definition UPAGES : Z := 524288.
Definition frame_of (pte : Z) : Z := P2V (PTE_ADDR pte).

(** The first page number at or above [sz]. *)
Definition up_vpn (sz : Z) : Z := (sz + 4095) / 4096.

(** The entries after the pages [v .. w - 1] were unmapped. *)
Definition clear_range (e : Z -> Z) (v w : Z) : Z -> Z :=
  fun x => if (v <=? x) && (x <? w) && present (e x) then 0 else e x.

(** [F'] is [F] and the pages mapped by [v .. w - 1]. *)
Definition freed (e : Z -> Z) (v w : Z) (F F' : gset Z) : Prop :=
  forall p, p ∈ F' <-> p ∈ F \/ exists x, v <= x < w /\ present (e x) = true /\ frame_of (e x) = p.

Definition page_zero (m : mem) (p : Z) : Prop := forall a, in_page p a -> m a = 0.

Lemma up_vpn_spec sz v : 4096 * v < sz <-> v < up_vpn sz.
Proof.
  unfold up_vpn. pose proof (Z.div_mod (sz + 4095) 4096 ltac:(lia)). pose proof (Z.mod_pos_bound (sz + 4095) 4096 ltac:(lia)). lia.
Qed.

Lemma round_up_vpn sz : 0 <= sz -> sz + 4096 <= 2 ^ 32 -> PGROUNDUP sz = 4096 * up_vpn sz.
Proof.
  intros H0 H1. unfold PGROUNDUP, up_vpn. change (Z.land ?x _) with (PGROUNDDOWN x). rewrite round_down.
  unfold PGSIZE. rewrite u32_small by lia. replace (sz + 4096 - 1) with (sz + 4095) by lia.
  pose proof (Z.div_mod (sz + 4095) 4096 ltac:(lia)). lia.
Qed.

Lemma next_dir v : 0 <= v < UPAGES ->
  u32 (u32 (PGADDR (PDX (4096 * v) + 1) 0 0 - PGSIZE) + PGSIZE) = 4096 * ((PDX (4096 * v) + 1) * 1024) /\
  PDX (4096 * v) = v / 1024.
Proof.
  intros Hv. unfold UPAGES in Hv. destruct (PDX_div (4096 * v)) as [E Hr]; [lia|].
  assert (E' : PDX (4096 * v) = v / 1024).
  { rewrite E. change (2 ^ 22) with (4096 * 1024). rewrite Z.div_mul_cancel_l by lia. done. }
  assert (PDX (4096 * v) < 512) by (rewrite E'; apply Z.div_lt_upper_bound; lia).
  split; [|done]. unfold PGADDR, PGSIZE. change (Z.shiftl 0 12) with 0. rewrite !Z.lor_0_r, Z.shiftl_mul_pow2 by lia.
  rewrite (u32_small (_ * _)) by lia. rewrite (u32_small (_ - _)) by lia. rewrite u32_small by lia. lia.
Qed.

Section uvm.
Context {S : Type} `{!PageOps S} `{!PageLayer S}.
Implicit Types (s : S) (F : gset Z) (T : gmap Z Z) (e : Z -> Z).

(** The mapped user pages are pages of their own. *)
Record uvm s F (pgdir : Z) T e : Prop := {
  u_vm : vmr s F pgdir T e;
  u_frame : forall v, 0 <= v < UPAGES -> present (e v) = true ->
    page_ok pg_end (frame_of (e v)) /\ PTE_ADDR (e v) <> 0 /\ frame_of (e v) ∉ {[pgdir]} ∪ F ∪ tabs T;
  u_inj : forall v w, 0 <= v < UPAGES -> 0 <= w < UPAGES -> present (e v) = true -> present (e w) = true ->
    frame_of (e v) = frame_of (e w) -> v = w
}.

Lemma uvm_ext s F pgdir T e e' :
  uvm s F pgdir T e -> (forall v, 0 <= v < 1048576 -> e' v = e v) -> uvm s F pgdir T e'.
Proof.
  intros [H1 H2 H3] He. split.
  - by eapply vmr_ext.
  - intros v Hv. rewrite He by (unfold UPAGES in *; lia). by apply H2.
  - intros v w Hv Hw. rewrite !He by (unfold UPAGES in *; lia). by apply H3.
Qed.

(** A page is freed and its entry cleared. *)
Lemma uvm_unmap s F pgdir T e v p (Q : () -> S -> Prop) :
  uvm s F pgdir T e -> 0 <= v < UPAGES -> present (e v) = true -> T !! PDX (4096 * v) = Some p ->
  (forall s', uvm s' ({[frame_of (e v)]} ∪ F) pgdir T (upd e v 0) ->
     same_except ({[frame_of (e v)]} ∪ tabs T) (pg_mem s) (pg_mem s') -> Q () s') ->
  wp (pg_kfree (frame_of (e v));; wr (p + 4 * PTX (4096 * v)) 0) s Q.
Proof.
  intros [H HF Hinj] Hv Hp Ep HQ. destruct (HF v Hv Hp) as (Hpo & _ & Hn).
  assert (Hva : 0 <= 4096 * v < 2 ^ 32) by (unfold UPAGES in Hv; lia).
  assert (Evpn : 4096 * v / 4096 = v) by (rewrite Z.mul_comm; apply Z.div_mul; lia).
  wp_step. eapply pg_kfree_spec; [apply (vm_pg _ _ _ _ _ H)|done|clear -Hn; set_solver|]. intros s1 Hs1 Hm1.
  assert (Hsame1 : same_except {[frame_of (e v)]} (pg_mem s) (pg_mem s1)).
  { intros q a Hq Hqn Ha. apply Hm1. eapply (pages_apart q); try done; [apply Hpo|clear -Hqn; set_solver]. }
  assert (H1 : vmr s1 ({[frame_of (e v)]} ∪ F) pgdir T e).
  { destruct (ps_dir _ _ _ _ (vm_sep _ _ _ _ _ H)) as (_ & HpF & _).
    assert (HTF : tabs T ## F).
    { intros q [d Hd]%elem_tabs HqF. by destruct (vmr_pages _ _ _ _ _ _ _ H Hd) as (_ & _ & _ & ?). }
    eapply (vmr_frame s); [exact H|done|exact Hsame1|..].
    - clear -Hn HpF. set_solver.
    - clear -Hn HTF. set_solver. }
  apply (wp_wr_pte _ _ _ _ _ _ _ _ _ H1 Hva Ep); [lia|]. rewrite Evpn. intros s2 H2 Hsame2. apply HQ.
  - split; [done| |].
    + intros x Hx. unfold upd. destruct (Z.eqb_spec x v) as [->|Hne]; [done|]. intros Hpx.
      destruct (HF x Hx Hpx) as (? & ? & Hnx). split_and!; try done.
      assert (Hfx : frame_of (e x) <> frame_of (e v)) by (intros E; by apply Hne, Hinj). clear -Hfx Hnx. set_solver.
    + intros x y Hx Hy. unfold upd. destruct (Z.eqb_spec x v), (Z.eqb_spec y v); try done. by apply Hinj.
  - by eapply same_except_trans.
Qed.

Lemma clear_range_done e v w x : w <= v -> clear_range e v w x = e x.
Proof. intros H. unfold clear_range. destruct (Z.leb_spec v x), (Z.ltb_spec x w); simpl; try done; lia. Qed.

(** A directory entry that is absent maps nothing. *)
Lemma absent_dir s F pgdir T e v x :
  vmr s F pgdir T e -> 0 <= v < UPAGES -> T !! PDX (4096 * v) = None -> v <= x < (PDX (4096 * v) + 1) * 1024 ->
  present (e x) = false.
Proof.
  intros H Hv Ep Hx. destruct (next_dir v Hv) as [_ Ed]. destruct (PDX_div (4096 * v)) as [_ Hd]; [unfold UPAGES in Hv; lia|].
  assert (E : x / 1024 = PDX (4096 * v)).
  { rewrite Ed in Hx |- *. pose proof (Z.div_mod v 1024 ltac:(lia)). pose proof (Z.mod_pos_bound v 1024 ltac:(lia)).
    symmetry. apply (Z.div_unique_pos x 1024 _ (x - 1024 * (v / 1024))); lia. }
  pose proof (pr_none _ _ _ _ (vm_pt _ _ _ _ _ H) (PDX (4096 * v)) (x mod 1024)) as Hz.
  rewrite <- E in Hz. replace (x / 1024 * 1024 + x mod 1024) with x in Hz by (pose proof (Z.div_mod x 1024 ltac:(lia)); lia).
  rewrite Hz; [done|by rewrite E|by rewrite E|apply Z.mod_pos_bound; lia].
Qed.

Lemma wp_dealloc_loop oldsz : forall fuel s F pgdir T e v (Q : () -> S -> Prop),
  uvm s F pgdir T e -> 0 <= v -> up_vpn oldsz <= UPAGES -> up_vpn oldsz - v <= Z.of_nat fuel ->
  (forall s' F', uvm s' F' pgdir T (clear_range e v (up_vpn oldsz)) -> freed e v (up_vpn oldsz) F F' ->
     same_except (F' ∪ tabs T) (pg_mem s) (pg_mem s') -> Q () s') ->
  wp (deallocuvm_loop fuel pgdir (4096 * v) oldsz) s Q.
Proof.
  set (w := up_vpn oldsz).
  assert (Hdone : forall s F pgdir T e v Q, w <= v -> uvm s F pgdir T e ->
    (forall s' F', uvm s' F' pgdir T (clear_range e v w) -> freed e v w F F' -> same_except (F' ∪ tabs T) (pg_mem s) (pg_mem s') -> Q () s') ->
    Q () s).
  { intros s F pgdir T e v Q Hw H HQ. apply (HQ s F); [|split; [by left|]|done].
    - eapply uvm_ext; [exact H|]. intros x _. by apply clear_range_done.
    - intros [|(x & Hx & _)]; [done|lia]. }
  induction fuel as [|fuel IH]; intros s F pgdir T e v Q H Hv Hw Hfu HQ; simpl; [wp_step; apply (Hdone s F pgdir T e v Q); [lia|done|done]|].
  destruct (Z.ltb_spec (4096 * v) oldsz) as [Hlt|Hge].
  2: { wp_step. apply (Hdone s F pgdir T e v Q); [|done|done]. destruct (decide (v < w)) as [Hvw|]; [|lia]. apply up_vpn_spec in Hvw. lia. }
  apply up_vpn_spec in Hlt. fold w in Hlt. assert (Hvu : 0 <= v < UPAGES) by lia.
  assert (Hva : 0 <= 4096 * v < 2 ^ 32) by (unfold UPAGES in Hvu; lia).
  assert (Evpn : 4096 * v / 4096 = v) by (rewrite Z.mul_comm; apply Z.div_mul; lia).
  wp_step. apply (wp_walk s F pgdir T e _ _ (u_vm _ _ _ _ _ H) Hva). destruct (T !! PDX (4096 * v)) as [p|] eqn:Ep.
  - destruct (vmr_word _ _ _ _ _ _ _ _ (u_vm _ _ _ _ _ H) Ep Hva) as [_ Hnz]. rewrite (proj2 (Z.eqb_neq _ 0) Hnz).
    wp_step. apply (wp_rd_pte _ _ _ _ _ _ _ _ (u_vm _ _ _ _ _ H) Hva Ep). rewrite Evpn.
    replace (u32 (4096 * v + PGSIZE)) with (4096 * (v + 1)) by (unfold PGSIZE, UPAGES in *; rewrite u32_small by lia; lia).
    destruct (present (e v)) eqn:Hp.
    + destruct (u_frame _ _ _ _ _ H v Hvu Hp) as (_ & Hnz' & Hnf). rewrite (proj2 (Z.eqb_neq _ 0) Hnz'). wp_step.
      apply (uvm_unmap s F pgdir T e v p); try done. intros s1 H1 Hs1. apply (IH s1 _ pgdir T _ (v + 1) Q H1); try lia.
      intros s2 F2 H2 Hf2 Hs2. apply (HQ s2 F2).
      * eapply uvm_ext; [exact H2|]. intros x _. unfold clear_range, upd.
        destruct (Z.eqb_spec x v) as [->|]; [|destruct (Z.leb_spec v x), (Z.leb_spec (v + 1) x); try lia; done].
        rewrite (proj2 (Z.leb_le v v)), (proj2 (Z.ltb_lt v w)), Hp by lia. by destruct (v + 1 <=? v).
      * intros q. rewrite (Hf2 q). split.
        -- intros [[->%elem_of_singleton|]%elem_of_union|(x & Hx & Hpx & <-)]; [right; exists v|by left|right; exists x].
           ++ split; [lia|done].
           ++ rewrite upd_ne in Hpx |- * by lia. split; [lia|done].
        -- intros [|(x & Hx & Hpx & <-)]; [left; apply elem_of_union; by right|].
           destruct (decide (x = v)) as [->|]; [left; apply elem_of_union; left; by apply elem_of_singleton|].
           right. exists x. rewrite upd_ne by done. split; [lia|done].
      * eapply same_except_weaken; [|eapply same_except_trans; [exact Hs1|exact Hs2]].
        assert (Hin : frame_of (e v) ∈ F2) by (apply Hf2; left; apply elem_of_union; left; by apply elem_of_singleton).
        clear -Hin. set_solver.
    + do 2 wp_step. apply (IH s F pgdir T e (v + 1) Q H); try lia. intros s2 F2 H2 Hf2 Hs2. apply (HQ s2 F2); [| |done].
      * eapply uvm_ext; [exact H2|]. intros x _. unfold clear_range.
        destruct (Z.leb_spec v x), (Z.leb_spec (v + 1) x); try lia; try done. assert (x = v) as -> by lia. by rewrite Hp, andb_false_r.
      * intros q. rewrite (Hf2 q). split; (intros [|(x & Hx & Hpx & <-)]; [by left|]); right; exists x; split_and!; try done; try lia.
        destruct (decide (x = v)) as [->|]; [congruence|lia].
  - change (0 =? 0) with true. cbv iota. destruct (next_dir v Hvu) as [-> Ed].
    set (v' := (PDX (4096 * v) + 1) * 1024).
    assert (Hv' : v < v') by (unfold v'; rewrite Ed; pose proof (Z.div_mod v 1024 ltac:(lia)); pose proof (Z.mod_pos_bound v 1024 ltac:(lia)); lia).
    assert (Hgap : forall x, v <= x < v' -> present (e x) = false) by (intros x Hx; by apply (absent_dir s F pgdir T e v x (u_vm _ _ _ _ _ H))).
    apply (IH s F pgdir T e v' Q H); try lia. intros s2 F2 H2 Hf2 Hs2. apply (HQ s2 F2); [| |done].
    + eapply uvm_ext; [exact H2|]. intros x _. unfold clear_range. destruct (decide (v <= x < v')) as [Hx|Hx].
      * rewrite (Hgap x Hx), !andb_false_r. done.
      * destruct (Z.leb_spec v x), (Z.leb_spec v' x); try lia; done.
    + intros q. rewrite (Hf2 q). split; (intros [|(x & Hx & Hpx & <-)]; [by left|]); right; exists x; split_and!; try done; try lia.
      destruct (decide (v <= x < v')) as [Hx'|]; [|lia]. rewrite Hgap in Hpx by done. done.
Qed.

Lemma wp_deallocuvm s F pgdir T e oldsz newsz (Q : Z -> S -> Prop) :
  uvm s F pgdir T e -> 0 <= newsz < oldsz -> oldsz <= KERNBASE ->
  (forall s' F', uvm s' F' pgdir T (clear_range e (up_vpn newsz) (up_vpn oldsz)) -> freed e (up_vpn newsz) (up_vpn oldsz) F F' ->
     same_except (F' ∪ tabs T) (pg_mem s) (pg_mem s') -> Q newsz s') ->
  wp (deallocuvm pgdir oldsz newsz) s Q.
Proof.
  intros H Hn Ho HQ. unfold deallocuvm, KERNBASE in *. rewrite (proj2 (Z.leb_gt _ _)) by lia. wp_step.
  rewrite round_up_vpn by lia.
  assert (0 <= up_vpn newsz) by (apply Z.div_pos; lia).
  assert (up_vpn oldsz <= UPAGES) by (unfold up_vpn, UPAGES; apply Z.lt_succ_r, Z.div_lt_upper_bound; lia).
  assert (up_vpn oldsz <= oldsz / 4096 + 1).
  { unfold up_vpn. apply Z.lt_succ_r, Z.div_lt_upper_bound; [lia|]. pose proof (Z.div_mod oldsz 4096 ltac:(lia)).
    pose proof (Z.mod_pos_bound oldsz 4096 ltac:(lia)). lia. }
  assert (0 <= oldsz / 4096) by (apply Z.div_pos; lia).
  apply (wp_dealloc_loop oldsz _ s F pgdir T e); try done. unfold PGSIZE. lia.
Qed.

(** [allocuvm] has mapped the pages [v0 .. v - 1] to pages of [F0]. *)
Record alloc_inv (pgdir : Z) s0 F0 T0 e0 s F T e (v0 v : Z) : Prop := {
  ai_uvm : uvm s F pgdir T e;
  ai_out : forall x, 0 <= x < 1048576 -> ~ (v0 <= x < v) -> e x = e0 x;
  ai_in : forall x, v0 <= x < v -> exists p, p ∈ F0 /\ e x = mkpte (V2P p) (Z.lor PTE_W PTE_U) /\ page_zero (pg_mem s) p;
  ai_pages : forall p, p ∈ F0 ∪ tabs T0 <-> p ∈ F ∪ tabs T \/ exists x, v0 <= x < v /\ frame_of (e x) = p;
  ai_T : T0 ⊆ T;
  ai_F : F ⊆ F0;
  ai_same : same_except ({[pgdir]} ∪ F0 ∪ tabs T0) (pg_mem s0) (pg_mem s)
}.

Lemma alloc_frame p : page_ok pg_end p ->
  frame_of (mkpte (V2P p) (Z.lor PTE_W PTE_U)) = p /\ PTE_ADDR (mkpte (V2P p) (Z.lor PTE_W PTE_U)) <> 0.
Proof.
  intros Hp. pose proof pg_end_ok as Hk. pose proof pg_end_pos as Hk'. destruct (V2P_page pg_end Hk p Hp) as (H1 & H2 & H3 & _).
  unfold frame_of. rewrite mkpte_addr by (done || (vm_compute; intuition congruence)). split; [done|].
  destruct Hp as (_ & Hp & _ & Hr). unfold V2P, KERNBASE in *. rewrite u32_small in * by lia. lia.
Qed.

(** The free pages and the tables of the current state come from the initial
    ones. *)
Lemma alloc_inv_sub pgdir s0 F0 T0 e0 s F T e v0 v :
  alloc_inv pgdir s0 F0 T0 e0 s F T e v0 v -> F ∪ tabs T ⊆ F0 ∪ tabs T0.
Proof. intros H p Hp. apply (ai_pages _ _ _ _ _ _ _ _ _ _ _ H). by left. Qed.

(** A free page is taken and filled. *)
Lemma uvm_take s s1 F pgdir T e r m :
  uvm s F pgdir T e -> r ∈ F -> pg_rep s1 (F ∖ {[r]}) -> pg_mem s1 = pg_mem s ->
  same_except {[r]} (pg_mem s) m -> mem_bytes m -> uvm (pg_setmem m s1) (F ∖ {[r]}) pgdir T e.
Proof.
  intros [H HF Hinj] Hr Hs1 Em Hm Hb. split; [| |done].
  - destruct (ps_dir _ _ _ _ (vm_sep _ _ _ _ _ H)) as (_ & HpF & _).
    assert (HTF : tabs T ## F).
    { intros q [d Hd]%elem_tabs HqF. by destruct (vmr_pages _ _ _ _ _ _ _ H Hd) as (_ & _ & _ & ?). }
    eapply (vmr_frame s _ F _ _ _ _ {[r]}); [done| |by rewrite pg_mem_set|..].
    + eapply (pg_rep_set s1 _ {[r]}); [done|done|by rewrite Em|]. clear. set_solver.
    + clear -HpF Hr. set_solver.
    + clear -HTF Hr. set_solver.
  - intros v Hv Hp. destruct (HF v Hv Hp) as (? & ? & Hn). split_and!; try done. clear -Hn. set_solver.
Qed.

(** A page that is nobody's is mapped. *)
Lemma uvm_map s s' F F' pgdir T T' e v r perm :
  uvm s F pgdir T e -> 0 <= v < UPAGES -> present (e v) = false -> page_ok pg_end r -> r ∉ {[pgdir]} ∪ F ∪ tabs T ->
  (forall x, 0 <= x < UPAGES -> present (e x) = true -> frame_of (e x) <> r) -> 0 <= perm < 4096 ->
  vmr s' F' pgdir T' (upd e v (mkpte (V2P r) perm)) -> extends pgdir s F T s' F' T' ->
  uvm s' F' pgdir T' (upd e v (mkpte (V2P r) perm)).
Proof.
  intros [H HF Hinj] Hv Hnp Hr Hrn Hro Hperm H' [_ _ Hpg _]. pose proof pg_end_ok as Hk. pose proof pg_end_pos as Hk'.
  destruct (V2P_page pg_end Hk r Hr) as (E1 & E2 & E3 & _).
  assert (Ef : PTE_ADDR (mkpte (V2P r) perm) = V2P r) by (by apply mkpte_addr).
  assert (Hsub : {[pgdir]} ∪ F' ∪ tabs T' = {[pgdir]} ∪ F ∪ tabs T) by (by rewrite <- !(assoc_L (∪)), Hpg).
  split; [done| |].
  - intros x Hx. unfold upd. destruct (Z.eqb_spec x v) as [->|Hne].
    + intros _. unfold frame_of. rewrite Ef, E2, Hsub. split_and!; try done.
      destruct Hr as (_ & Hr & _ & Hrr). unfold V2P, KERNBASE in *. rewrite u32_small by lia. lia.
    + intros Hp. destruct (HF x Hx Hp) as (? & ? & ?). rewrite Hsub. done.
  - intros x y Hx Hy. unfold upd. destruct (Z.eqb_spec x v) as [->|Hnx], (Z.eqb_spec y v) as [->|Hny]; try done.
    + intros _ Hp. unfold frame_of at 1. rewrite Ef, E2. intros E. by destruct (Hro y Hy Hp).
    + intros Hp _. unfold frame_of at 2. rewrite Ef, E2. intros E. by destruct (Hro x Hx Hp).
    + by apply Hinj.
Qed.

(** A free page maps nothing. *)
Lemma free_not_mapped s F pgdir T e r x :
  uvm s F pgdir T e -> r ∈ F -> 0 <= x < UPAGES -> present (e x) = true -> frame_of (e x) <> r.
Proof. intros H Hr Hx Hp <-. destruct (u_frame _ _ _ _ _ H x Hx Hp) as (_ & _ & Hn). clear -Hn Hr. set_solver. Qed.

Lemma free_apart s F pgdir T e r : vmr s F pgdir T e -> r ∈ F -> r ∉ {[pgdir]} ∪ F ∖ {[r]} ∪ tabs T.
Proof.
  intros H Hr. destruct (ps_dir _ _ _ _ (vm_sep _ _ _ _ _ H)) as (_ & HpF & _).
  assert (HrT : r ∉ tabs T) by (intros [d Hd]%elem_tabs; by destruct (vmr_pages _ _ _ _ _ _ _ H Hd) as (_ & _ & _ & ?)).
  clear -HpF HrT Hr. set_solver.
Qed.

(** The step of [allocuvm]: a page [r] was taken, zeroed and mapped at [v]. *)
Lemma alloc_inv_step pgdir s0 F0 T0 e0 s F T e v0 v s1 r s2 F2 T2 :
  alloc_inv pgdir s0 F0 T0 e0 s F T e v0 v -> 0 <= v0 <= v -> v < UPAGES -> present (e v) = false -> r ∈ F ->
  (forall p, p ∈ F0 -> page_ok pg_end p) -> pg_rep s1 (F ∖ {[r]}) -> pg_mem s1 = pg_mem s ->
  let sz := pg_setmem (memset (pg_mem s1) r 0 PGSIZE) s1 in
  vmr s2 F2 pgdir T2 (upd e v (mkpte (V2P r) (Z.lor PTE_W PTE_U))) -> extends pgdir sz (F ∖ {[r]}) T s2 F2 T2 ->
  alloc_inv pgdir s0 F0 T0 e0 s2 F2 T2 (upd e v (mkpte (V2P r) (Z.lor PTE_W PTE_U))) v0 (v + 1).
Proof.
  intros [Hu Hout Hin Hpgs HT HF0 Hsame] Hv0 Hv Hnp Hr Hpages Hs1 Em sz H2 Hex. pose proof (u_vm _ _ _ _ _ Hu) as Hvm.
  pose proof (pg_valid _ _ _ (vm_pg _ _ _ _ _ Hvm) Hr) as Hro. destruct (alloc_frame r Hro) as [Efr _].
  pose proof (free_apart _ _ _ _ _ _ Hvm Hr) as Hrn.
  assert (Hz : same_except {[r]} (pg_mem s) (memset (pg_mem s1) r 0 PGSIZE)) by (rewrite Em; by apply memset_same).
  assert (Huz : uvm sz (F ∖ {[r]}) pgdir T e).
  { apply (uvm_take s); try done. rewrite Em. apply memset_bytes; [|done]. apply (pg_bytes _ _ (vm_pg _ _ _ _ _ Hvm)). }
  assert (Hsub : F ∪ tabs T ⊆ F0 ∪ tabs T0) by (intros p Hp; apply Hpgs; by left).
  pose proof (ex_pages _ _ _ _ _ _ _ Hex) as Hpp. pose proof (ex_same _ _ _ _ _ _ _ Hex) as Hs2. unfold sz in Hs2. rewrite pg_mem_set in Hs2.
  split.
  - eapply (uvm_map sz); try done; [lia|]. intros x Hx Hp. exact (free_not_mapped s F pgdir T e r x Hu Hr Hx Hp).
  - intros x Hx Hnx. rewrite upd_ne by lia. apply Hout; [done|lia].
  - intros x Hx. destruct (decide (x = v)) as [->|Hne].
    + exists r. rewrite upd_eq. split_and!; [|done|].
      * by apply HF0.
      * intros a Ha. rewrite (Hs2 r) by (done || apply Hro). rewrite memset_page by done. unfold in_range.
        unfold in_page in Ha. by rewrite (proj2 (Z.leb_le _ _)), (proj2 (Z.ltb_lt _ _)) by lia.
    + rewrite upd_ne by done. destruct (Hin x ltac:(lia)) as (p & HpF & Ep & Hpz). exists p. split_and!; try done.
      destruct (u_frame _ _ _ _ _ Hu x) as (Hpo & _ & Hpn); [lia|rewrite Ep; apply mkpte_present|].
      assert (Efp : frame_of (e x) = p) by (rewrite Ep; apply alloc_frame, (Hpages p HpF)). rewrite Efp in *.
      intros a Ha. rewrite (Hs2 p), (Hz p), Hpz; try done; try apply Hpo; clear -Hpn Hr; set_solver.
  - intros p. rewrite Hpgs. rewrite Hpp.
    replace (F ∪ tabs T) with ({[r]} ∪ (F ∖ {[r]} ∪ tabs T)) by (rewrite (assoc_L (∪)), <- union_difference_singleton_L; done).
    rewrite (elem_of_union {[r]}), elem_of_singleton. split.
    + intros [[->|]|(x & Hx & <-)]; [right; exists v; rewrite upd_eq; split; [lia|done]|by left|].
      right. exists x. rewrite upd_ne by lia. split; [lia|done].
    + intros [|(x & Hx & <-)]; [by left; right|]. destruct (decide (x = v)) as [->|]; [left; left; by rewrite upd_eq|].
      right. exists x. rewrite upd_ne by done. split; [lia|done].
  - etrans; [exact HT|]. apply (ex_T _ _ _ _ _ _ _ Hex).
  - etrans; [apply (ex_F _ _ _ _ _ _ _ Hex)|]. clear -HF0. set_solver.
  - eapply same_except_weaken; [|eapply same_except_trans; [exact Hsame|eapply same_except_trans; [exact Hz|exact Hs2]]].
    clear -Hsub Hr. set_solver.
Qed.

Lemma clear_restores pgdir s0 F0 T0 e0 s F T e v0 v w x :
  alloc_inv pgdir s0 F0 T0 e0 s F T e v0 v -> v <= w -> (forall x, v0 <= x < w -> e0 x = 0) -> 0 <= x < 1048576 ->
  e0 x = clear_range e v0 w x.
Proof.
  intros H Hvw H0 Hx. unfold clear_range. destruct (decide (v0 <= x < v)) as [Hin|Hout].
  - destruct (ai_in _ _ _ _ _ _ _ _ _ _ _ H x Hin) as (p & _ & -> & _).
    rewrite mkpte_present, (proj2 (Z.leb_le _ _)), (proj2 (Z.ltb_lt _ _)) by lia. apply H0. lia.
  - rewrite (ai_out _ _ _ _ _ _ _ _ _ _ _ H x Hx Hout). destruct (Z.leb_spec v0 x), (Z.ltb_spec x w); try done.
    rewrite H0 by lia. done.
Qed.

(** A page that is nobody's is given back. *)
Lemma uvm_give s s' F pgdir T e r :
  uvm s F pgdir T e -> page_ok pg_end r -> r ∉ {[pgdir]} ∪ tabs T ->
  (forall x, 0 <= x < UPAGES -> present (e x) = true -> frame_of (e x) <> r) ->
  pg_rep s' ({[r]} ∪ F) -> (forall a, ~ in_page r a -> pg_mem s' a = pg_mem s a) ->
  uvm s' ({[r]} ∪ F) pgdir T e /\ same_except {[r]} (pg_mem s) (pg_mem s').
Proof.
  intros [H HF Hinj] Hr Hrn Hro Hs' Hm.
  assert (Hsame : same_except {[r]} (pg_mem s) (pg_mem s')).
  { intros q a Hq Hqn Ha. apply Hm. eapply (pages_apart q); try done; [apply Hr|clear -Hqn; set_solver]. }
  split; [|done]. split; [| |done].
  - destruct (ps_dir _ _ _ _ (vm_sep _ _ _ _ _ H)) as (_ & HpF & _).
    assert (HTF : tabs T ## F).
    { intros q [d Hd]%elem_tabs HqF. by destruct (vmr_pages _ _ _ _ _ _ _ H Hd) as (_ & _ & _ & ?). }
    eapply (vmr_frame s _ F); [done|done|exact Hsame|clear -Hrn HpF; set_solver|clear -Hrn HTF; set_solver].
  - intros v Hv Hp. destruct (HF v Hv Hp) as (? & ? & Hn). split_and!; try done. specialize (Hro v Hv Hp). clear -Hn Hro. set_solver.
Qed.

(** The error path of [allocuvm], with the pages [X] taken but not mapped. *)
Lemma wp_alloc_undo oldsz newsz pgdir s0 F0 T0 e0 s F T e v s1 F1 T1 (X : gset Z) (Q : Z -> S -> Prop) :
  alloc_inv pgdir s0 F0 T0 e0 s F T e (up_vpn oldsz) v -> v <= up_vpn newsz -> 0 <= oldsz < newsz -> newsz < KERNBASE ->
  (forall x, up_vpn oldsz <= x < up_vpn newsz -> e0 x = 0) ->
  uvm s1 F1 pgdir T1 e -> T ⊆ T1 -> (F1 ∪ X) ∪ tabs T1 = F ∪ tabs T -> X ## F1 ->
  (forall x, 0 <= x < UPAGES -> present (e x) = true -> frame_of (e x) ∉ X) ->
  same_except ({[pgdir]} ∪ F ∪ tabs T) (pg_mem s) (pg_mem s1) ->
  (forall s2 F2, uvm s2 F2 pgdir T1 e0 -> X ## F2 -> (F2 ∪ X) ∪ tabs T1 = F0 ∪ tabs T0 -> T0 ⊆ T1 ->
     same_except ({[pgdir]} ∪ F0 ∪ tabs T0) (pg_mem s0) (pg_mem s2) -> Q oldsz s2) ->
  wp (deallocuvm pgdir newsz oldsz) s1 Q.
Proof.
  intros Hai Hv Hsz Hk H0 Hu1 HT1 Hpg HX HXf Hs1 HQ.
  assert (Hv0 : 0 <= up_vpn oldsz) by (apply Z.div_pos; lia).
  assert (Hw : up_vpn newsz <= UPAGES) by (unfold up_vpn, UPAGES, KERNBASE in *; apply Z.lt_succ_r, Z.div_lt_upper_bound; lia).
  apply (wp_deallocuvm s1 F1 pgdir T1 e); [done|lia|unfold KERNBASE in *; lia|]. intros s2 F2 Hu2 Hf2 Hs2.
  assert (Hback : forall p, p ∈ F2 <-> p ∈ F1 \/ exists x, up_vpn oldsz <= x < v /\ frame_of (e x) = p).
  { intros p. rewrite (Hf2 p). split; (intros [|(x & Hx & E)]; [by left|]); right; exists x.
    - destruct E as [Hp <-]. split; [|done]. destruct (decide (up_vpn oldsz <= x < v)) as [|Hout]; [done|].
      rewrite (ai_out _ _ _ _ _ _ _ _ _ _ _ Hai x ltac:(unfold UPAGES in *; lia) Hout), H0 in Hp by lia. done.
    - destruct (ai_in _ _ _ _ _ _ _ _ _ _ _ Hai x Hx) as (q & _ & Eq & _). split; [lia|]. split; [|done]. rewrite Eq. apply mkpte_present. }
  assert (Hall : (F2 ∪ X) ∪ tabs T1 = F0 ∪ tabs T0).
  { apply set_eq. intros p. rewrite (ai_pages _ _ _ _ _ _ _ _ _ _ _ Hai), <- Hpg, !elem_of_union, Hback. clear. tauto. }
  assert (HX2 : X ## F2).
  { intros p Hp [|(x & Hx & <-)]%Hback; [by apply (HX p)|].
    destruct (ai_in _ _ _ _ _ _ _ _ _ _ _ Hai x Hx) as (q & _ & Eq & _).
    apply (HXf x); [unfold UPAGES in *; lia|rewrite Eq; apply mkpte_present|done]. }
  apply (HQ s2 F2); try done.
  - eapply uvm_ext; [exact Hu2|]. intros x Hx. by eapply clear_restores.
  - etrans; [apply (ai_T _ _ _ _ _ _ _ _ _ _ _ Hai)|done].
  - eapply same_except_weaken; [|eapply same_except_trans; [apply (ai_same _ _ _ _ _ _ _ _ _ _ _ Hai)|
      eapply same_except_trans; [exact Hs1|exact Hs2]]].
    pose proof (alloc_inv_sub _ _ _ _ _ _ _ _ _ _ _ Hai) as Hsub. clear -Hsub Hall. set_solver.
Qed.

(** The error path after a failed [mappages]: the page taken is given back
    too. *)
Lemma wp_alloc_undo_mem oldsz newsz pgdir s0 F0 T0 e0 s F T e v r s1 s2 T2 (Q : Z -> S -> Prop) :
  alloc_inv pgdir s0 F0 T0 e0 s F T e (up_vpn oldsz) v -> v <= up_vpn newsz -> 0 <= oldsz < newsz -> newsz < KERNBASE ->
  (forall x, up_vpn oldsz <= x < up_vpn newsz -> e0 x = 0) -> r ∈ F -> page_ok pg_end r -> pg_mem s1 = pg_mem s ->
  uvm (pg_setmem (memset (pg_mem s1) r 0 PGSIZE) s1) (F ∖ {[r]}) pgdir T e -> vmr s2 ∅ pgdir T2 e ->
  extends pgdir (pg_setmem (memset (pg_mem s1) r 0 PGSIZE) s1) (F ∖ {[r]}) T s2 ∅ T2 ->
  (forall s F T, uvm s F pgdir T e0 -> F ∪ tabs T = F0 ∪ tabs T0 -> T0 ⊆ T ->
     same_except ({[pgdir]} ∪ F0 ∪ tabs T0) (pg_mem s0) (pg_mem s) -> Q 0 s) ->
  wp (deallocuvm pgdir newsz oldsz;; pg_kfree r;; mret 0) s2 Q.
Proof.
  intros Hai Hv Hsz Hk H0 Hr Hro Em Huz H2 [Hx1 Hx2 Hx3 Hx4] Hbad. rewrite pg_mem_set, Em in Hx4.
  pose proof (ai_uvm _ _ _ _ _ _ _ _ _ _ _ Hai) as Hu. pose proof (u_vm _ _ _ _ _ Hu) as Hvm.
  wp_step. apply (wp_alloc_undo _ _ _ _ _ _ _ _ _ _ _ _ _ ∅ T2 {[r]} _ Hai); try done; try lia.
  - split; [done| |apply (u_inj _ _ _ _ _ Hu)]. intros x Hx Hpx. destruct (u_frame _ _ _ _ _ Huz x Hx Hpx) as (? & ? & Hn).
    split_and!; try done. rewrite <- (assoc_L (∪)), Hx3, (assoc_L (∪)). done.
  - rewrite (left_id_L ∅ (∪)). rewrite (left_id_L ∅ (∪)) in Hx3.
    rewrite Hx3, (assoc_L (∪)), <- union_difference_singleton_L; done.
  - intros x Hx Hpx E%elem_of_singleton. by apply (free_not_mapped s F pgdir T e _ x Hu Hr Hx Hpx).
  - eapply same_except_weaken; [|eapply same_except_trans; [by apply (memset_same _ r 0)|exact Hx4]]. clear -Hr. set_solver.
  - intros s3 F3 Hu3 HX Hall HT Hs3. wp_step. eapply pg_kfree_spec; [apply (vm_pg _ _ _ _ _ (u_vm _ _ _ _ _ Hu3))|done|clear -HX; set_solver|].
    intros s4 Hs4 Hm4. wp_step.
    assert (Hrn2 : r ∉ {[pgdir]} ∪ tabs T2).
    { pose proof (free_apart _ _ _ _ _ _ Hvm Hr) as Hrn. rewrite (left_id_L ∅ (∪)) in Hx3. rewrite Hx3. clear -Hrn. set_solver. }
    destruct (uvm_give s3 s4 F3 pgdir T2 e0 r) as [Hu4 Hs34]; try done.
    { intros x Hx Hpx. destruct (decide (up_vpn oldsz <= x < up_vpn newsz)) as [Hin|Hout]; [by rewrite H0 in Hpx|].
      rewrite <- (ai_out _ _ _ _ _ _ _ _ _ _ _ Hai x) in Hpx |- * by (unfold UPAGES in *; lia).
      by apply (free_not_mapped s F pgdir T e). }
    apply (Hbad s4 ({[r]} ∪ F3) T2); try done; [by rewrite (comm_L (∪) {[r]} F3)|].
    eapply same_except_weaken; [|eapply same_except_trans; [exact Hs3|exact Hs34]].
    assert (HrF : r ∈ F0) by (by apply (ai_F _ _ _ _ _ _ _ _ _ _ _ Hai)). clear -HrF. set_solver.
Qed.

Lemma size_of_list (l : list Z) : (size (list_to_set l : gset Z) <= length l)%nat.
Proof.
  induction l as [|x l IH]; [change (size (∅ : gset Z) <= 0)%nat; by rewrite size_empty|]. cbn [list_to_set length]. rewrite size_union_alt, size_singleton.
  pose proof (subseteq_size ((list_to_set l : gset Z) ∖ {[x]}) (list_to_set l) ltac:(set_solver)). lia.
Qed.

(** A directory has 1024 entries. *)
Lemma tabs_size s F pgdir T e : vmr s F pgdir T e -> (size (tabs T) <= 1024)%nat.
Proof.
  intros H. assert (Hi : tabs T ⊆ list_to_set ((fun d => default 0 (T !! d)) <$> seqZ 0 1024)).
  { intros p [d Hp]%elem_tabs. destruct (vmr_pages _ _ _ _ _ _ _ H Hp) as (Hr & _). apply elem_of_list_to_set, list_elem_of_fmap.
    exists d. rewrite Hp. split; [done|]. apply elem_of_seqZ. lia. }
  apply subseteq_size in Hi. etransitivity; [exact Hi|]. etransitivity; [apply size_of_list|]. by rewrite length_fmap, length_seqZ.
Qed.

(** The frames of [v0 .. v - 1] and the pages [Z0] bound the pages there are. *)
Lemma size_frames (F0 Z0 : gset Z) (e : Z -> Z) v0 v : v0 <= v -> (forall p, p ∈ F0 -> p ∈ Z0 \/ exists x, v0 <= x < v /\ frame_of (e x) = p) ->
  Z.of_nat (size F0) <= Z.of_nat (size Z0) + (v - v0).
Proof.
  intros Hv H. set (X := list_to_set ((fun x => frame_of (e x)) <$> seqZ v0 (v - v0)) : gset Z).
  assert (HX : (size X <= Z.to_nat (v - v0))%nat) by (unfold X; etransitivity; [apply size_of_list|]; by rewrite length_fmap, length_seqZ).
  assert (Hsub : F0 ⊆ Z0 ∪ X).
  { intros p [Hp|(x & Hx & <-)]%H; [by apply elem_of_union_l|]. apply elem_of_union_r. unfold X. apply elem_of_list_to_set, list_elem_of_fmap.
    exists x. split; [done|]. apply elem_of_seqZ. lia. }
  apply subseteq_size in Hsub. rewrite size_union_alt in Hsub. pose proof (subseteq_size (X ∖ Z0) X ltac:(clear; set_solver)). lia.
Qed.

Lemma alloc_inv_size pgdir s0 F0 T0 e0 s F T e v0 v : alloc_inv pgdir s0 F0 T0 e0 s F T e v0 v -> v0 <= v -> (size (F ∪ tabs T) <= 1025)%nat ->
  Z.of_nat (size F0) <= 1025 + (v - v0).
Proof.
  intros H Hv Hn. etransitivity; [apply (size_frames F0 (F ∪ tabs T) e v0 v Hv)|lia]. intros p Hp. apply (ai_pages _ _ _ _ _ _ _ _ _ _ _ H). by apply elem_of_union_l.
Qed.

(** Nothing is free after the page [r] and the tables. *)
Lemma last_page s s2 F pgdir T T2 e e2 r sm :
  r ∈ F -> vmr s F pgdir T e -> vmr s2 ∅ pgdir T2 e2 -> extends pgdir sm (F ∖ {[r]}) T s2 ∅ T2 -> (size (F ∪ tabs T) <= 1025)%nat.
Proof.
  intros Hr Hvm H2 [_ _ Hx3 _]. rewrite (left_id_L ∅ (∪)) in Hx3. pose proof (free_apart _ _ _ _ _ _ Hvm Hr) as Hrn.
  pose proof (tabs_size _ _ _ _ _ H2) as Hts. rewrite Hx3 in Hts. rewrite (union_difference_singleton_L r F Hr), <- (assoc_L (∪)).
  rewrite size_union, size_singleton by (clear -Hrn; set_solver). lia.
Qed.

Lemma wp_alloc_loop oldsz newsz pgdir s0 F0 T0 e0 (Q : Z -> S -> Prop) :
  0 <= oldsz <= newsz -> newsz < KERNBASE -> (forall x, up_vpn oldsz <= x < up_vpn newsz -> e0 x = 0) ->
  (forall p, p ∈ F0 -> page_ok pg_end p) ->
  (forall s F T e, alloc_inv pgdir s0 F0 T0 e0 s F T e (up_vpn oldsz) (up_vpn newsz) -> Q newsz s) ->
  (forall s F T, Z.of_nat (size F0) <= 1024 + (up_vpn newsz - up_vpn oldsz) -> uvm s F pgdir T e0 -> F ∪ tabs T = F0 ∪ tabs T0 -> T0 ⊆ T ->
     same_except ({[pgdir]} ∪ F0 ∪ tabs T0) (pg_mem s0) (pg_mem s) -> Q 0 s) ->
  forall fuel s F T e v, alloc_inv pgdir s0 F0 T0 e0 s F T e (up_vpn oldsz) v -> up_vpn oldsz <= v <= up_vpn newsz ->
    up_vpn newsz - v <= Z.of_nat fuel -> wp (allocuvm_loop fuel pgdir (4096 * v) oldsz newsz) s Q.
Proof.
  intros Hsz Hk H0 HF0 Hok Hbad. set (v0 := up_vpn oldsz) in *. set (w := up_vpn newsz) in *.
  assert (Hv0 : 0 <= v0) by (apply Z.div_pos; lia).
  assert (Hw : w <= UPAGES) by (unfold w, up_vpn, UPAGES, KERNBASE in *; apply Z.lt_succ_r, Z.div_lt_upper_bound; lia).
  induction fuel as [|fuel IH]; intros s F T e v Hai Hv Hfu; simpl.
  { wp_step. apply (Hok s F T e). by assert (w = v) as -> by lia. }
  destruct (Z.ltb_spec (4096 * v) newsz) as [Hlt|Hge].
  2: { wp_step. apply (Hok s F T e). assert (w = v) as ->; [|done]. destruct (decide (v < w)) as [Hvw|]; [|lia].
       apply up_vpn_spec in Hvw. lia. }
  assert (Hvw : v < w) by (by apply up_vpn_spec). assert (Hold : oldsz < newsz).
  { destruct (decide (oldsz = newsz)) as [E|]; [|lia]. unfold v0, w in *. rewrite E in *. lia. }
  pose proof (ai_uvm _ _ _ _ _ _ _ _ _ _ _ Hai) as Hu. pose proof (u_vm _ _ _ _ _ Hu) as Hvm.
  assert (Hnp : present (e v) = false) by (rewrite (ai_out _ _ _ _ _ _ _ _ _ _ _ Hai), H0 by (unfold UPAGES in *; lia); done).
  wp_step. eapply (pg_kalloc_spec _ _ _ (vm_pg _ _ _ _ _ Hvm)).
  - intros -> s1 Hs1 Em. change (0 =? 0) with true. cbv iota. wp_step.
    assert (Hu1 : uvm s1 ∅ pgdir T e).
    { destruct Hu as [[? ? ?] ? ?]. split; [split; try done; by rewrite Em|done|done]. }
    apply (wp_alloc_undo _ _ _ _ _ _ _ _ _ _ _ _ _ ∅ T ∅ _ Hai); try done; try lia;
      try (intros x _ _; apply not_elem_of_empty); try (by rewrite Em).
    intros s2 F2 Hu2 _ Hall HT Hs2. wp_step. apply (Hbad s2 F2 T); try done; [|by rewrite (right_id_L ∅ (∪)) in Hall].
    pose proof (tabs_size _ _ _ _ _ Hvm) as Ht. etransitivity; [apply (size_frames F0 (∅ ∪ tabs T) e v0 v)|rewrite (left_id_L ∅ (∪)); lia]; [lia|].
    intros p Hp. apply (ai_pages _ _ _ _ _ _ _ _ _ _ _ Hai). by apply elem_of_union_l.
  - intros r s1 Hr Hs1 Em. pose proof (pg_valid _ _ _ (vm_pg _ _ _ _ _ Hvm) Hr) as Hro. pose proof pg_end_ok as Hk0.
    pose proof (page_range pg_end r (proj1 Hk0) Hro) as Hrr. unfold KERNBASE, PHYSTOP, PGSIZE in Hrr.
    rewrite (proj2 (Z.eqb_neq r 0)) by lia. unfold vm_memset. do 3 wp_step.
    assert (Huz : uvm (pg_setmem (memset (pg_mem s1) r 0 PGSIZE) s1) (F ∖ {[r]}) pgdir T e).
    { apply (uvm_take s); try done; [rewrite Em; by apply memset_same|]. rewrite Em. apply memset_bytes; [|done].
      apply (pg_bytes _ _ (vm_pg _ _ _ _ _ Hvm)). }
    destruct (V2P_page pg_end Hk0 r Hro) as (_ & _ & Hp0 & Hp1). unfold PHYSTOP in Hp1.
    apply (wp_map1 _ _ _ _ _ _ _ _ _ (u_vm _ _ _ _ _ Huz)); [unfold UPAGES in *; lia|lia|vm_compute; intuition congruence|done|..].
    + intros s2 F2 T2 H2 Hex. change (0 <? 0) with false. cbv iota.
      replace (u32 (4096 * v + PGSIZE)) with (4096 * (v + 1)) by (unfold PGSIZE, UPAGES in *; rewrite u32_small by lia; lia).
      eapply IH; [|lia|lia]. eapply (alloc_inv_step _ _ _ _ _ s F T e _ _ s1 r); try done; lia.
    + intros s2 T2 H2 Hex. change (-1 <? 0) with true. cbv iota.
      pose proof (alloc_inv_size _ _ _ _ _ _ _ _ _ _ _ Hai ltac:(lia) (last_page _ _ _ _ _ _ _ _ _ _ Hr Hvm H2 Hex)) as Hn.
      eapply (wp_alloc_undo_mem _ _ _ _ _ _ _ _ _ _ _ _ r s1); try done; [lia|lia|]. intros s3 F3 T3. apply Hbad. lia.
Qed.

(** [deallocuvm] unmaps exactly the present user pages from [newsz],
    rounded up, to [oldsz], returns their memory to the allocator, changes
    nothing else of the page table, and returns [newsz]; it is a no-op that
    returns [oldsz] when [newsz] is not smaller. *)
Theorem deallocuvm_correct s F pgdir T e oldsz newsz :
  uvm s F pgdir T e -> 0 <= newsz -> 0 <= oldsz <= KERNBASE ->
  if newsz <? oldsz then
    exists s' F', deallocuvm pgdir oldsz newsz s = Ok newsz s' /\
      uvm s' F' pgdir T (clear_range e (up_vpn newsz) (up_vpn oldsz)) /\
      freed e (up_vpn newsz) (up_vpn oldsz) F F' /\ same_except (F' ∪ tabs T) (pg_mem s) (pg_mem s')
  else deallocuvm pgdir oldsz newsz s = Ok oldsz s.
Proof.
  intros H Hn Ho. destruct (Z.ltb_spec newsz oldsz) as [Hlt|Hge].
  - assert (W : wp (deallocuvm pgdir oldsz newsz) s (fun r s' => r = newsz /\ exists F',
      uvm s' F' pgdir T (clear_range e (up_vpn newsz) (up_vpn oldsz)) /\
      freed e (up_vpn newsz) (up_vpn oldsz) F F' /\ same_except (F' ∪ tabs T) (pg_mem s) (pg_mem s'))).
    { apply (wp_deallocuvm s F pgdir T e); eauto; lia. }
    apply wp_elim in W as (r & s' & Hrun & -> & F' & W). exists s', F'. split; [exact Hrun|exact W].
  - unfold deallocuvm. by rewrite (proj2 (Z.leb_le _ _)).
Qed.

(** [allocuvm] grows user memory: it maps each page from [oldsz], rounded
    up, to [newsz] to a zeroed page of its own, writable by the user, and
    returns [newsz]; or the free pages are not enough for the new ones and
    their tables, and it returns 0 and leaves every mapping as it was, with every
    page it had taken free again or a page table.  Nothing but the page table and pages that were free changes. *)
Theorem allocuvm_correct s F pgdir T e oldsz newsz :
  uvm s F pgdir T e -> 0 <= oldsz <= newsz -> newsz < KERNBASE ->
  (forall x, up_vpn oldsz <= x < up_vpn newsz -> e x = 0) ->
  exists r s' F' T' e', allocuvm pgdir oldsz newsz s = Ok r s' /\ uvm s' F' pgdir T' e' /\ T ⊆ T' /\
    same_except ({[pgdir]} ∪ F ∪ tabs T) (pg_mem s) (pg_mem s') /\
    (forall x, 0 <= x < 1048576 -> ~ (up_vpn oldsz <= x < up_vpn newsz) -> e' x = e x) /\
    (r = newsz /\ (forall x, up_vpn oldsz <= x < up_vpn newsz -> exists p, p ∈ F /\
         e' x = mkpte (V2P p) (Z.lor PTE_W PTE_U) /\ page_zero (pg_mem s') p) \/
     r = 0 /\ Z.of_nat (size F) <= 1024 + (up_vpn newsz - up_vpn oldsz) /\ (forall x, 0 <= x < 1048576 -> e' x = e x) /\ F' ∪ tabs T' = F ∪ tabs T).
Proof.
  intros H Hsz Hk H0.
  set (P := fun r s' => exists F' T' e', uvm s' F' pgdir T' e' /\ T ⊆ T' /\
    same_except ({[pgdir]} ∪ F ∪ tabs T) (pg_mem s) (pg_mem s') /\
    (forall x, 0 <= x < 1048576 -> ~ (up_vpn oldsz <= x < up_vpn newsz) -> e' x = e x) /\
    (r = newsz /\ (forall x, up_vpn oldsz <= x < up_vpn newsz -> exists p, p ∈ F /\
         e' x = mkpte (V2P p) (Z.lor PTE_W PTE_U) /\ page_zero (pg_mem s') p) \/
     r = 0 /\ Z.of_nat (size F) <= 1024 + (up_vpn newsz - up_vpn oldsz) /\ (forall x, 0 <= x < 1048576 -> e' x = e x) /\ F' ∪ tabs T' = F ∪ tabs T)).
  assert (W : wp (allocuvm pgdir oldsz newsz) s P).
  { unfold allocuvm, KERNBASE in *. rewrite (proj2 (Z.leb_gt _ _)), (proj2 (Z.ltb_ge _ _)) by lia. rewrite round_up_vpn by lia.
    assert (up_vpn oldsz <= up_vpn newsz) by (apply Z.div_le_mono; lia).
    eapply (wp_alloc_loop oldsz newsz pgdir s F T e); try done.
    - intros p Hp. by apply (pg_valid _ _ _ (vm_pg _ _ _ _ _ (u_vm _ _ _ _ _ H))).
    - intros s' F' T' e' Hai. exists F', T', e'. destruct Hai. split_and!; try done. by left.
    - intros s' F' T' Hn Hu Hp HT Hs. exists F', T', e. split_and!; try done. by right.
    - split; try done; [intros x Hx; lia|]. intros p. split; [by left|]. intros [|(x & Hx & _)]; [done|lia].
    - assert (up_vpn newsz <= newsz / 4096 + 1).
      { unfold up_vpn. apply Z.lt_succ_r, Z.div_lt_upper_bound; [lia|]. pose proof (Z.div_mod newsz 4096 ltac:(lia)).
        pose proof (Z.mod_pos_bound newsz 4096 ltac:(lia)). lia. }
      assert (0 <= newsz / 4096) by (apply Z.div_pos; lia). assert (0 <= up_vpn oldsz) by (apply Z.div_pos; lia).
      unfold PGSIZE. lia. }
  apply wp_elim in W as (r & s' & Hrun & F' & T' & e' & W). exists r, s', F', T', e'. split; [exact Hrun|exact W].
Qed.
End uvm.
