(* ===== verification/VmCopy.v ===== *)
(** Whole address spaces: [freevm], [setupkvm] and [copyuvm]. *)

From S2P Require Import Prelude CString Spinlock Kalloc Vm VmRep VmUser.

(** The kernel's part of every page table, as the comment above [kmap]
    describes it: the entry of page number [x]. *)
Definition kern_pte (data x : Z) : Z :=
  let va := 4096 * x in
  if (KERNBASE <=? va) && (va <? KERNLINK) then mkpte (va - KERNBASE) PTE_W
  else if (KERNLINK <=? va) && (va <? data) then mkpte (va - KERNBASE) 0
  else if (data <=? va) && (va <? KERNBASE + PHYSTOP) then mkpte (va - KERNBASE) PTE_W
  else if DEVSPACE <=? va then mkpte va PTE_W
  else 0.

(** The linker's [data] symbol: page aligned, after the kernel's text. *)
Definition data_ok (data : Z) : Prop := KERNLINK < data < KERNBASE + PHYSTOP /\ data mod 4096 = 0.

Definition map_kmap (e : Z -> Z) (k : kmap) : Z -> Z :=
  map_range e (first_vpn (km_virt k)) (more_pages (km_virt k) (u32 (km_phys_end k - km_phys_start k)) + 1)
    (km_phys_start k) (km_perm k).

(** The ranges of the table follow one another from page number [lo] on. *)
Fixpoint kmaps_ok (lo : Z) (ks : list kmap) : Prop :=
  match ks with
  | [] => True
  | k :: ks =>
      let size := u32 (km_phys_end k - km_phys_start k) in
      let n := more_pages (km_virt k) size in
      lo <= first_vpn (km_virt k) /\ 0 <= km_virt k /\ 1 <= size /\ km_virt k + size <= 2 ^ 32 /\
      0 <= km_phys_start k /\ km_phys_start k + 4096 * n < 2 ^ 32 /\ 0 <= km_perm k < 4096 /\
      kmaps_ok (first_vpn (km_virt k) + n + 1) ks
  end.

Section vm_copy.
Context {S : Type} `{!PageOps S} `{!PageLayer S}.
Implicit Types (s : S) (F : gset Z) (T : gmap Z Z) (e : Z -> Z).

(** ** [freevm] *)

(** The tables of the directory indices in [ds] are free as well. *)
Definition freed_tabs T (ds : list Z) F F' : Prop :=
  forall p, p ∈ F' <-> p ∈ F \/ exists d, d ∈ ds /\ T !! d = Some p.

Lemma wp_free_tabs s F pgdir T e (Q : () -> S -> Prop) :
  vmr s F pgdir T e ->
  (forall s' F', pg_rep s' F' -> freed_tabs T (seqZ 0 NPDENTRIES) F F' -> same_except F' (pg_mem s) (pg_mem s') -> Q () s') ->
  wp (forM (seqZ 0 NPDENTRIES) (fun i =>
    w ← rd (u32 (pgdir + 4 * i));
    when (present w) (pg_kfree (P2V (PTE_ADDR w))))) s Q.
Proof.
  intros H HQ. pose proof pg_end_ok as Hk. destruct (ps_dir _ _ _ _ (vm_sep _ _ _ _ _ H)) as (Hpg & HpF & HpT).
  apply (wp_forM (fun ds s' => exists F', pg_rep s' F' /\ freed_tabs T ds F F' /\ same_except F' (pg_mem s) (pg_mem s'))).
  - exists F. split; [apply H|]. split; [|apply same_except_refl]. intros p. split; [by left|]. intros [|(d & Hd & _)]; [done|set_solver].
  - intros pre d post s1 Eds (F1 & Hs1 & Hf1 & Hm1).
    assert (Hd : 0 <= d < 1024).
    { assert (Hin : d ∈ seqZ 0 NPDENTRIES) by (rewrite Eds; set_solver). apply elem_of_seqZ in Hin. unfold NPDENTRIES in Hin. lia. }
    assert (Hnd : d ∉ pre).
    { pose proof (NoDup_seqZ 0 NPDENTRIES) as Hn. rewrite Eds in Hn. apply NoDup_app in Hn as (_ & Hn & _).
      intros Hi. apply (Hn d Hi). set_solver. }
    assert (HpF1 : pgdir ∉ F1) by (intros [|(d' & _ & Hd')]%Hf1; [done|]; apply HpT, elem_tabs; eauto).
    destruct (word_in_page pg_end Hk pgdir d Hpg Hd) as (? & ? & _). unfold rd. do 2 wp_step. rewrite u32_small by lia.
    rewrite (load32_same _ _ _ pgdir d Hm1 HpF1 Hpg Hd), (pr_dir _ _ _ _ (vm_pt _ _ _ _ _ H) d Hd).
    destruct (T !! d) as [p|] eqn:Ep.
    + destruct (vmr_pages _ _ _ _ _ _ _ H Ep) as (_ & Hp & _ & HnF). destruct (pde_of pg_end Hk p Hp) as (_ & -> & ->).
      unfold when. eapply pg_kfree_spec; [exact Hs1|done| |].
      { intros [|(d' & Hd' & E)]%Hf1; [done|]. assert (d' = d) as -> by (by eapply (ps_inj _ _ _ _ (vm_sep _ _ _ _ _ H))). done. }
      intros s2 Hs2 Hm2. exists ({[p]} ∪ F1). split; [done|]. split.
      * intros q. rewrite elem_of_union, elem_of_singleton, (Hf1 q). split.
        -- intros [->|[|(d' & Hd' & E)]]; [right; exists d|by left|right; exists d']; split; try done; set_solver.
        -- intros [|(d' & Hd' & E)]; [by right; left|]. apply elem_of_app in Hd' as [Hd'| ->%list_elem_of_singleton]; [right; right; eauto|].
           left. congruence.
      * eapply same_except_weaken; [|eapply (same_except_trans F1 {[p]}); [exact Hm1|]]; [clear; set_solver|].
        intros q a Hq Hqn Ha. apply Hm2. eapply (pages_apart q); try done; [apply Hp|clear -Hqn; set_solver].
    + change (present 0) with false. unfold when. wp_step. exists F1. split; [done|]. split; [|done].
      intros q. rewrite (Hf1 q). split; (intros [|(d' & Hd' & E)]; [by left|]); right; exists d'; split; try done.
      * set_solver.
      * apply elem_of_app in Hd' as [Hd'| ->%list_elem_of_singleton]; [done|congruence].
  - intros s' (F' & Hs' & Hf & Hm). by apply (HQ s' F').
Qed.

(** [F'] is [F] and every page of the address space. *)
Definition freed_all (pgdir : Z) T e F F' : Prop :=
  forall p, p ∈ F' <-> p ∈ F \/ p = pgdir \/ p ∈ tabs T \/ exists x, 0 <= x < UPAGES /\ present (e x) = true /\ frame_of (e x) = p.

Lemma wp_freevm s F pgdir T e (Q : () -> S -> Prop) :
  uvm s F pgdir T e ->
  (forall s' F', pg_rep s' F' -> freed_all pgdir T e F F' -> same_except F' (pg_mem s) (pg_mem s') -> Q () s') ->
  wp (freevm pgdir) s Q.
Proof.
  intros H HQ. pose proof pg_end_ok as Hk. destruct (ps_dir _ _ _ _ (vm_sep _ _ _ _ _ (u_vm _ _ _ _ _ H))) as (Hpg & HpF & HpT).
  pose proof (page_range pg_end pgdir (proj1 Hk) Hpg) as Hr. unfold freevm.
  rewrite (proj2 (Z.eqb_neq pgdir 0)) by (unfold KERNBASE in Hr; lia). wp_step.
  apply (wp_deallocuvm s F pgdir T e); [done|unfold KERNBASE; lia|done|]. change (up_vpn 0) with 0. change (up_vpn KERNBASE) with UPAGES.
  intros s1 F1 H1 Hf1 Hs1. wp_step. apply (wp_free_tabs s1 F1 pgdir T _ _ (u_vm _ _ _ _ _ H1)). intros s2 F2 Hp2 Hf2 Hs2.
  assert (HpF1 : pgdir ∉ F1) by apply (ps_dir _ _ _ _ (vm_sep _ _ _ _ _ (u_vm _ _ _ _ _ H1))).
  assert (Hsub : tabs T ∪ F1 ⊆ F2).
  { intros q [[d Hd]%elem_tabs|Hq]%elem_of_union; apply Hf2; [right|by left]. exists d. split; [|done].
    apply elem_of_seqZ. destruct (vmr_pages _ _ _ _ _ _ _ (u_vm _ _ _ _ _ H) Hd) as (Hd0 & _). unfold NPDENTRIES. lia. }
  eapply pg_kfree_spec; [exact Hp2|done| |].
  { intros [|(d & _ & Hd)]%Hf2; [done|]. apply HpT, elem_tabs. eauto. }
  intros s3 Hp3 Hm3. apply (HQ s3 ({[pgdir]} ∪ F2)); [done| |].
  - intros q. rewrite elem_of_union, elem_of_singleton, (Hf2 q), (Hf1 q), elem_tabs. split.
    + intros [->|[[|Hx]|(d & _ & Hd)]]; eauto 6.
    + intros [|[->|[[d Hd]|Hx]]]; eauto 6. right. right. exists d. split; [|done]. apply elem_of_seqZ.
      destruct (vmr_pages _ _ _ _ _ _ _ (u_vm _ _ _ _ _ H) Hd) as (Hd0 & _). unfold NPDENTRIES. lia.
  - eapply same_except_weaken; [|eapply (same_except_trans (F1 ∪ tabs T)); [exact Hs1|eapply (same_except_trans F2 {[pgdir]}); [exact Hs2|]]].
    + clear -Hsub. set_solver.
    + intros q a Hq Hqn Ha. apply Hm3. eapply (pages_apart q); try done; [apply Hpg|clear -Hqn; set_solver].
Qed.

(** ** [setupkvm] *)

(** A zeroed page is an empty page table. *)
Lemma uvm_new s s1 F r :
  pg_rep s F -> r ∈ F -> pg_rep s1 (F ∖ {[r]}) -> pg_mem s1 = pg_mem s ->
  uvm (pg_setmem (memset (pg_mem s1) r 0 PGSIZE) s1) (F ∖ {[r]}) r ∅ (fun _ => 0) /\
  same_except {[r]} (pg_mem s) (memset (pg_mem s1) r 0 PGSIZE).
Proof.
  intros Hs Hr Hs1 Em. pose proof (pg_valid _ _ _ Hs Hr) as Hro. pose proof pg_end_ok as Hk.
  assert (Hz : same_except {[r]} (pg_mem s) (memset (pg_mem s1) r 0 PGSIZE)) by (rewrite Em; by apply memset_same).
  split; [|done]. split; [|done|done]. split.
  - eapply (pg_rep_set s1 _ {[r]}); [done| |by rewrite Em at 1|clear; set_solver].
    rewrite Em. apply memset_bytes; [apply (pg_bytes _ _ Hs)|done].
  - split; [split; [done|]; split; [clear; set_solver|]|by intros ? ? ?%lookup_empty_Some|by intros ? ? ? ?%lookup_empty_Some].
    intros [d Hd]%elem_tabs. by apply lookup_empty_Some in Hd.
  - rewrite pg_mem_set. split; [|by intros ? ? ? ?%lookup_empty_Some|done].
    intros d Hd. rewrite lookup_empty. destruct (word_in_page pg_end Hk r d Hro Hd) as (? & ? & _).
    unfold load32. rewrite !load_small by lia. rewrite !memset_page by done. unfold in_range.
    rewrite !(proj2 (Z.leb_le _ _)), !(proj2 (Z.ltb_lt _ _)) by (unfold PGSIZE; lia). reflexivity.
Qed.

Lemma map_range_low e v n pa perm x : x < v -> map_range e v n pa perm x = e x.
Proof. intros H. unfold map_range. by rewrite (proj2 (Z.leb_gt _ _)). Qed.

Lemma map_range_high e v n pa perm x : v + n <= x -> map_range e v n pa perm x = e x.
Proof. intros H. unfold map_range. rewrite (proj2 (Z.ltb_ge _ _)) by done. by rewrite andb_false_r. Qed.

(** Entries below [lo] are not touched, whether the mappings succeed or not. *)
Lemma wp_map_kernel ks : forall lo s F pgdir T e (Q : bool -> S -> Prop),
  vmr s F pgdir T e -> kmaps_ok lo ks -> (forall x, lo <= x < 1048576 -> present (e x) = false) -> 0 <= lo ->
  (forall s' F' T', vmr s' F' pgdir T' (foldl map_kmap e ks) -> extends pgdir s F T s' F' T' -> Q true s') ->
  (forall s' T' e', vmr s' ∅ pgdir T' e' -> (forall x, x < lo -> e' x = e x) -> extends pgdir s F T s' ∅ T' -> Q false s') ->
  wp (map_kernel pgdir ks) s Q.
Proof.
  induction ks as [|k ks IH]; intros lo s F pgdir T e Q H Hks Hnp Hlo H1 H0; simpl.
  { wp_step. apply (H1 s F T); [done|apply extends_refl]. }
  destruct Hks as (Hl & Hv & Hsz & Hmax & Hpa & Hpam & Hperm & Hks). set (size := u32 _) in *.
  pose proof (mappages_loop_of pgdir (km_virt k) size (km_phys_start k) (km_perm k) Hv Hsz Hmax) as (Hn0 & Hn1 & _).
  set (v := first_vpn (km_virt k)) in *. set (n := more_pages (km_virt k) size) in *.
  wp_step. apply (wp_mappages s F pgdir T e _ _ _ _ _ H); try done; [intros x Hx; apply Hnp; lia|..].
  - intros s1 F1 T1 Hs1 He1. change (0 <? 0) with false. cbv iota.
    apply (IH (v + n + 1) s1 F1 pgdir T1 (map_kmap e k) Q); try done; [|lia|..].
    + intros x Hx. unfold map_kmap. fold v size n. rewrite map_range_high by lia. apply Hnp. lia.
    + intros s2 F2 T2 Hs2 He2. eapply H1; [exact Hs2|]. by eapply extends_trans.
    + intros s2 T2 e2 Hs2 Hx2 He2. eapply H0; [exact Hs2| |by eapply extends_trans].
      intros x Hx. rewrite Hx2 by lia. unfold map_kmap. fold v. by rewrite map_range_low by lia.
  - intros s1 T1 j Hj Hs1 He1. change (-1 <? 0) with true. cbv iota. wp_step. eapply H0; [exact Hs1| |exact He1].
    intros x Hx. by rewrite map_range_low by lia.
Qed.

Lemma kmaps_data_ok data : data_ok data -> kmaps_ok UPAGES (kmaps data).
Proof.
  intros [Hd Hm]. unfold KERNLINK, EXTMEM, KERNBASE, PHYSTOP in Hd. unfold kmaps, V2P. simpl.
  unfold KERNLINK, EXTMEM, KERNBASE, PHYSTOP, DEVSPACE, PTE_W, UPAGES, first_vpn, more_pages.
  rewrite !(u32_small (data - _)) by lia. change (u32 (1048576 - 0)) with 1048576. change (u32 (0 - 4261412864)) with 33554432.
  change (u32 (2147483648 + 1048576 - 2147483648)) with 1048576. rewrite !u32_small by lia.
  pose proof (Z.div_mod data 4096 ltac:(lia)) as Ed. set (q := data / 4096) in *.
  replace ((2147483648 + 1048576 + (data - 2147483648 - 1048576) - 1) / 4096) with (q - 1)
    by (apply (Z.div_unique_pos _ _ _ 4095); lia).
  replace ((data + (234881024 - (data - 2147483648)) - 1) / 4096) with 581631 by (apply (Z.div_unique_pos _ _ _ 4095); lia).
  change (2147483648 / 4096) with 524288. change ((2147483648 + 1048576 - 1) / 4096) with 524543.
  change ((2147483648 + 1048576) / 4096) with 524544. change (4261412864 / 4096) with 1040384.
  change ((4261412864 + 33554432 - 1) / 4096) with 1048575. lia.
Qed.

Lemma kern_pte_fold data x : data_ok data -> foldl map_kmap (fun _ => 0) (kmaps data) x = kern_pte data x \/ ~ 0 <= x < 1048576.
Proof.
  intros [Hd Hm]. destruct (decide (0 <= x < 1048576)) as [Hx|]; [left|by right].
  unfold KERNLINK, EXTMEM, KERNBASE, PHYSTOP in Hd. unfold kern_pte, kmaps, V2P, map_kmap. simpl.
  unfold KERNLINK, EXTMEM, KERNBASE, PHYSTOP, DEVSPACE, first_vpn, more_pages.
  rewrite !(u32_small (data - _)) by lia. change (u32 (1048576 - 0)) with 1048576. change (u32 (0 - 4261412864)) with 33554432.
  change (u32 (2147483648 + 1048576 - 2147483648)) with 1048576. rewrite !u32_small by lia.
  pose proof (Z.div_mod data 4096 ltac:(lia)) as Ed. set (q := data / 4096) in *.
  replace ((2147483648 + 1048576 + (data - 2147483648 - 1048576) - 1) / 4096) with (q - 1)
    by (apply (Z.div_unique_pos _ _ _ 4095); lia).
  replace ((data + (234881024 - (data - 2147483648)) - 1) / 4096) with 581631 by (apply (Z.div_unique_pos _ _ _ 4095); lia).
  change (2147483648 / 4096) with 524288. change ((2147483648 + 1048576 - 1) / 4096) with 524543.
  change ((2147483648 + 1048576) / 4096) with 524544. change (4261412864 / 4096) with 1040384.
  change ((4261412864 + 33554432 - 1) / 4096) with 1048575. unfold map_range.
  assert (x < 524288 \/ 524288 <= x < 524544 \/ 524544 <= x < q \/ q <= x < 581632 \/ 581632 <= x < 1040384 \/ 1040384 <= x) as Hc by lia.
  destruct Hc as [Hc|[Hc|[Hc|[Hc|[Hc|Hc]]]]]; decide_cmp; simpl; try done; f_equal; lia.
Qed.

Lemma kern_pte_user data x : data_ok data -> x < UPAGES -> kern_pte data x = 0.
Proof.
  intros [Hd _] Hx. unfold kern_pte, KERNLINK, EXTMEM, KERNBASE, PHYSTOP, DEVSPACE, UPAGES in *. cbv zeta. decide_cmp. done.
Qed.

(** A page table with no user page. *)
Lemma uvm_kernel s F pgdir T e : vmr s F pgdir T e -> (forall x, 0 <= x < UPAGES -> e x = 0) -> uvm s F pgdir T e.
Proof.
  intros H He. split; [done| |].
  - intros v Hv Hp. by rewrite He in Hp.
  - intros v w Hv Hw Hp. by rewrite He in Hp.
Qed.

(** [setupkvm] fails only when there are not enough pages. *)
Lemma wp_setupkvm s F data (Q : Z -> S -> Prop) :
  pg_rep s F -> data_ok data ->
  (forall s', (size F <= 1025)%nat -> pg_rep s' F -> same_except F (pg_mem s) (pg_mem s') -> Q 0 s') ->
  (forall r s' F' T', r ∈ F -> uvm s' F' r T' (kern_pte data) -> F' ∪ tabs T' = F ∖ {[r]} ->
     same_except F (pg_mem s) (pg_mem s') -> Q r s') ->
  wp (setupkvm data) s Q.
Proof.
  intros Hs Hd H0 H1. pose proof pg_end_ok as Hk. unfold setupkvm. wp_step. eapply (pg_kalloc_spec _ _ _ Hs).
  { intros -> s1 Hs1 Em. change (0 =? 0) with true. cbv iota. wp_step. apply H0; [rewrite size_empty; lia|done|]. rewrite Em. apply same_except_refl. }
  intros r s1 Hr Hs1 Em. pose proof (pg_valid _ _ _ Hs Hr) as Hro.
  pose proof (page_range pg_end r (proj1 Hk) Hro) as Hrr. unfold KERNBASE in Hrr. rewrite (proj2 (Z.eqb_neq r 0)) by lia.
  destruct (uvm_new s s1 F r Hs Hr Hs1 Em) as [Hu Hz]. unfold vm_memset. do 2 wp_step.
  change (P2V PHYSTOP >? DEVSPACE) with false. cbv iota. wp_step.
  apply (wp_map_kernel (kmaps data) UPAGES _ _ _ _ _ _ (u_vm _ _ _ _ _ Hu)); [by apply kmaps_data_ok|done|done|..].
  - intros s2 F2 T2 H2 [Hx1 Hx2 Hx3 Hx4]. rewrite pg_mem_set in Hx4. wp_step.
    assert (Ht : tabs (∅ : gmap Z Z) = ∅) by apply map_img_empty_L. rewrite Ht, (right_id_L ∅ (∪)) in Hx3.
    apply (H1 r s2 F2 T2); try done.
    + apply uvm_kernel; [|intros x Hx; apply kern_pte_user; [done|lia]]. eapply vmr_ext; [exact H2|]. intros x Hx.
      by destruct (kern_pte_fold data x Hd) as [->|].
    + eapply same_except_weaken; [|eapply same_except_trans; [exact Hz|exact Hx4]]. rewrite Ht. clear -Hr. set_solver.
  - intros s2 T2 e2 H2 He2 [Hx1 Hx2 Hx3 Hx4]. rewrite pg_mem_set in Hx4.
    assert (Ht : tabs (∅ : gmap Z Z) = ∅) by apply map_img_empty_L. rewrite Ht, (right_id_L ∅ (∪)) in Hx3.
    assert (Hu2 : uvm s2 ∅ r T2 e2) by (apply uvm_kernel; [done|]; intros x Hx; apply He2; lia).
    wp_step. apply (wp_freevm s2 ∅ r T2 e2); [done|]. intros s3 F3 Hs3 Hf3 Hm3. wp_step.
    assert (F3 = F) as ->.
    { apply set_eq. intros p. rewrite (Hf3 p). split.
      - intros [Hp|[->|[Hp|(x & Hx & Hp & _)]]]; [clear -Hp Hx3; set_solver|done|clear -Hp Hx3; set_solver|]. by rewrite He2 in Hp by lia.
      - intros Hp. destruct (decide (p = r)) as [->|Hne]; [by right; left|].
        assert (Hp2 : p ∈ ∅ ∪ tabs T2) by (rewrite Hx3; clear -Hp Hne; set_solver). clear -Hp2. set_solver. }
    apply H0; [|done|].
    { pose proof (tabs_size _ _ _ _ _ H2) as Hts. rewrite (left_id_L ∅ (∪)) in Hx3. rewrite Hx3, size_difference, size_singleton in Hts by (clear -Hr; set_solver). lia. }
    eapply same_except_weaken; [|eapply same_except_trans; [exact Hz|eapply same_except_trans; [exact Hx4|exact Hm3]]].
    rewrite Ht. clear -Hr. set_solver.
Qed.

(** ** [copyuvm] *)

(** The bytes of page [q] of [m'] are those of page [p] of [m]. *)
Definition page_copy (m : mem) (p : Z) (m' : mem) (q : Z) : Prop := forall i, 0 <= i < PGSIZE -> m' (q + i) = m (p + i).

(** The parent's address space survives any change of pages that were free. *)
Lemma uvm_frame s s' F F' pgdir T e :
  uvm s F pgdir T e -> pg_rep s' F' -> F' ⊆ F -> same_except F (pg_mem s) (pg_mem s') -> uvm s' F' pgdir T e.
Proof.
  intros [H HF Hinj] Hs' HF' Hsame. destruct (ps_dir _ _ _ _ (vm_sep _ _ _ _ _ H)) as (_ & HpF & _).
  assert (HTF : tabs T ## F) by (intros q [d Hd]%elem_tabs HqF; by destruct (vmr_pages _ _ _ _ _ _ _ H Hd) as (_ & _ & _ & ?)).
  split; [|intros v Hv Hp; destruct (HF v Hv Hp) as (? & ? & Hn); split_and!; try done; clear -Hn HF'; set_solver|done].
  eapply (vmr_frame s); [done|done|exact Hsame|clear -HpF HF'; set_solver|clear -HTF HF'; set_solver].
Qed.

(** The child [d] has copies of the parent's pages below [v], over the kernel's
    entries [ek]. *)
Record copy_inv (ek : Z -> Z) s0 F0 e (d : Z) s F T ed (v : Z) : Prop := {
  cv_uvm : uvm s F d T ed;
  cv_same : same_except F0 (pg_mem s0) (pg_mem s);
  cv_in : forall x, 0 <= x < v -> exists q, q ∈ F0 /\ page_ok pg_end q /\ ed x = mkpte (V2P q) (PTE_FLAGS (e x)) /\
    page_copy (pg_mem s0) (frame_of (e x)) (pg_mem s) q;
  cv_out : forall x, v <= x < 1048576 -> ed x = ek x;
  cv_pages : forall p, p ∈ F0 <-> p = d \/ p ∈ F ∪ tabs T \/ exists x, 0 <= x < v /\ frame_of (ed x) = p
}.

Lemma flags_range x : 0 <= PTE_FLAGS x < 4096.
Proof. unfold PTE_FLAGS. change 4095 with (Z.ones 12). rewrite Z.land_ones by lia. apply Z.mod_pos_bound. lia. Qed.

Lemma frame_mkpte q fl : page_ok pg_end q -> 0 <= fl < 4096 -> frame_of (mkpte (V2P q) fl) = q.
Proof.
  intros Hq Hf. destruct (V2P_page pg_end pg_end_ok q Hq) as (H1 & H2 & _). unfold frame_of. by rewrite mkpte_addr.
Qed.

(** The sub-space of the initially free pages. *)
Lemma copy_inv_sub ek s0 F0 e d s F T ed v : copy_inv ek s0 F0 e d s F T ed v -> {[d]} ∪ F ∪ tabs T ⊆ F0.
Proof. intros H p Hp. apply (cv_pages _ _ _ _ _ _ _ _ _ _ H). clear -Hp. set_solver. Qed.

(** With nearly no page left, most pages are in the new table. *)
Lemma copy_inv_size ek s0 F0 e d s F T ed v : copy_inv ek s0 F0 e d s F T ed v -> 0 <= v -> (size (F ∪ tabs T) <= 1025)%nat ->
  Z.of_nat (size F0) <= 1026 + v.
Proof.
  intros H Hv Hn. pose proof (size_frames F0 ({[d]} ∪ (F ∪ tabs T)) ed 0 v) as Hs.
  assert (Hd : (size ({[d]} ∪ (F ∪ tabs T)) <= 1026)%nat).
  { rewrite size_union_alt, size_singleton. pose proof (subseteq_size ((F ∪ tabs T) ∖ {[d]}) (F ∪ tabs T) ltac:(clear; set_solver)). lia. }
  specialize (Hs Hv). etransitivity; [apply Hs|lia]. intros p Hp. apply (cv_pages _ _ _ _ _ _ _ _ _ _ H) in Hp. clear -Hp. set_solver.
Qed.

(** Copying a page into a fresh one. *)
Lemma memmove_page m p q : mem_bytes m -> page_ok pg_end p -> page_ok pg_end q ->
  page_copy m p (memmove m q p PGSIZE) q /\ same_except {[q]} m (memmove m q p PGSIZE) /\ mem_bytes (memmove m q p PGSIZE).
Proof.
  intros Hm Hp Hq. pose proof pg_end_ok as Hk. pose proof (page_range pg_end p (proj1 Hk) Hp) as Hpr.
  pose proof (page_range pg_end q (proj1 Hk) Hq) as Hqr. unfold KERNBASE, PHYSTOP, PGSIZE in *.
  assert (E : forall a, memmove m q p 4096 a = if in_range a q 4096 then m (p + (a - q)) else m a).
  { intros a. apply memmove_spec; try done; lia. }
  split_and!.
  - intros i Hi. unfold PGSIZE in Hi. rewrite E. unfold in_range. decide_cmp. simpl. f_equal. lia.
  - intros r a Hr Hn Ha. rewrite E. unfold in_range.
    assert (Hnq : ~ in_page q a) by (eapply (pages_apart r q); try done; [apply Hq|clear -Hn; set_solver]).
    unfold in_page, PGSIZE in Hnq. destruct (Z.leb_spec q a), (Z.ltb_spec a (q + 4096)); simpl; try done; lia.
  - intros a. rewrite E. destruct (in_range _ _ _); apply Hm.
Qed.

Lemma copy_inv_step ek s0 F0 e d s F T ed v r s1 s2 F2 T2 :
  copy_inv ek s0 F0 e d s F T ed v -> (forall x, 0 <= x < UPAGES -> ek x = 0) -> 0 <= v < UPAGES -> r ∈ F -> page_ok pg_end (frame_of (e v)) -> frame_of (e v) ∉ F0 ->
  pg_rep s1 (F ∖ {[r]}) -> pg_mem s1 = pg_mem s ->
  let sm := pg_setmem (memmove (pg_mem s1) r (frame_of (e v)) PGSIZE) s1 in
  vmr s2 F2 d T2 (upd ed v (mkpte (V2P r) (PTE_FLAGS (e v)))) -> extends d sm (F ∖ {[r]}) T s2 F2 T2 ->
  copy_inv ek s0 F0 e d s2 F2 T2 (upd ed v (mkpte (V2P r) (PTE_FLAGS (e v)))) (v + 1).
Proof.
  intros Hc Hd Hv Hr Hfo HfF Hs1 Em sm H2 Hex. pose proof (copy_inv_sub _ _ _ _ _ _ _ _ _ _ Hc) as Hsub.
  destruct Hc as [Hu Hsame Hin Hout Hpgs]. pose proof (u_vm _ _ _ _ _ Hu) as Hvm.
  pose proof (pg_valid _ _ _ (vm_pg _ _ _ _ _ Hvm) Hr) as Hro. pose proof (free_apart _ _ _ _ _ _ Hvm Hr) as Hrn.
  pose proof (pg_bytes _ _ (vm_pg _ _ _ _ _ Hvm)) as Hb. pose proof (flags_range (e v)) as Hfl.
  destruct (memmove_page (pg_mem s) (frame_of (e v)) r Hb Hfo Hro) as (Hcp & Hm & Hmb).
  assert (Hum : uvm sm (F ∖ {[r]}) d T ed) by (unfold sm; rewrite Em; by apply (uvm_take s)).
  pose proof (ex_pages _ _ _ _ _ _ _ Hex) as Hpp. pose proof (ex_same _ _ _ _ _ _ _ Hex) as Hs2.
  unfold sm in Hs2. rewrite pg_mem_set, Em in Hs2.
  assert (Hnp : present (ed v) = false) by (rewrite Hout, Hd by (unfold UPAGES in *; lia); done).
  split.
  - eapply (uvm_map sm); try done. intros x Hx Hp. exact (free_not_mapped s F d T ed r x Hu Hr Hx Hp).
  - eapply same_except_weaken; [|eapply same_except_trans; [exact Hsame|eapply same_except_trans; [exact Hm|exact Hs2]]].
    clear -Hsub Hr. set_solver.
  - intros x Hx. destruct (decide (x = v)) as [->|Hne].
    + exists r. rewrite upd_eq. split_and!; [clear -Hsub Hr; set_solver|done|done|]. intros i Hi.
      rewrite (Hs2 r) by (done || apply Hro || (unfold in_page; lia)). rewrite Hcp by done.
      apply (Hsame (frame_of (e v))); [apply Hfo|done|unfold in_page; lia].
    + rewrite upd_ne by done. destruct (Hin x ltac:(lia)) as (q & HqF & Hqo & Eq & Hqc). exists q. split_and!; try done.
      assert (Hpx : present (ed x) = true) by (rewrite Eq; apply mkpte_present).
      destruct (u_frame _ _ _ _ _ Hu x) as (_ & _ & Hqn); [lia|done|]. rewrite Eq, frame_mkpte in Hqn by (done || apply flags_range).
      intros i Hi. rewrite (Hs2 q), (Hm q), Hqc; try done; try apply Hqo; try (unfold in_page; lia); clear -Hqn Hr; set_solver.
  - intros x Hx. rewrite upd_ne by lia. apply Hout. lia.
  - intros p. rewrite Hpgs, Hpp.
    replace (F ∪ tabs T) with ({[r]} ∪ (F ∖ {[r]} ∪ tabs T)) by (rewrite (assoc_L (∪)), <- union_difference_singleton_L; done).
    rewrite (elem_of_union {[r]}), elem_of_singleton. split.
    + intros [|[[->|]|(x & Hx & <-)]]; [by left| |by right; left|].
      * right. right. exists v. rewrite upd_eq. split; [lia|by apply frame_mkpte].
      * right. right. exists x. rewrite upd_ne by lia. split; [lia|done].
    + intros [|[|(x & Hx & <-)]]; [by left|by right; left; right|]. destruct (decide (x = v)) as [->|].
      * right. left. left. rewrite upd_eq. by apply frame_mkpte.
      * right. right. exists x. rewrite upd_ne by done. split; [lia|done].
Qed.

(** The child is given up, with the pages [X] taken but not mapped: they stay
    lost. *)
Lemma wp_copy_undo ek s0 F0 e d s F T ed v s1 F1 T1 (X : gset Z) (Q : () -> S -> Prop) :
  copy_inv ek s0 F0 e d s F T ed v -> (forall x, 0 <= x < UPAGES -> ek x = 0) -> 0 <= v <= UPAGES ->
  uvm s1 F1 d T1 ed -> (F1 ∪ X) ∪ tabs T1 = F ∪ tabs T -> X ⊆ F -> X ## F1 ∪ tabs T1 ->
  same_except ({[d]} ∪ F ∪ tabs T) (pg_mem s) (pg_mem s1) ->
  (forall s2, pg_rep s2 (F0 ∖ X) -> same_except F0 (pg_mem s0) (pg_mem s2) -> Q () s2) ->
  wp (freevm d) s1 Q.
Proof.
  intros Hc Hd Hv Hu1 Hpg HXF HX Hs1 HQ. pose proof (copy_inv_sub _ _ _ _ _ _ _ _ _ _ Hc) as Hsub.
  apply (wp_freevm s1 F1 d T1 ed); [done|]. intros s2 F2 Hs2 Hf2 Hm2. destruct Hc as [Hu Hsame Hin Hout Hpgs].
  assert (Hfx : forall x, 0 <= x < UPAGES -> present (ed x) = true -> x < v).
  { intros x Hx Hp. destruct (decide (x < v)); [done|]. rewrite Hout, Hd in Hp by (unfold UPAGES in *; lia). done. }
  assert (Hpx : forall x, 0 <= x < v -> present (ed x) = true).
  { intros x Hx. destruct (Hin x Hx) as (q & _ & _ & -> & _). apply mkpte_present. }
  assert (HdX : d ∉ X). { pose proof (ps_dir _ _ _ _ (vm_sep _ _ _ _ _ (u_vm _ _ _ _ _ Hu))) as (_ & HdF & _). clear -HdF HXF. set_solver. }
  assert (F2 = F0 ∖ X) as ->.
  { apply set_eq. intros p. rewrite (Hf2 p), elem_of_difference, Hpgs, <- Hpg. split.
    - intros [Hp|[->|[Hp|(x & Hx & Hp & <-)]]].
      + split; [right; left; clear -Hp; set_solver|clear -Hp HX; set_solver].
      + split; [by left|done].
      + split; [right; left; clear -Hp; set_solver|clear -Hp HX; set_solver].
      + split; [right; right; exists x; split; [split; [lia|by apply Hfx]|done]|].
        intros HpX. apply (free_not_mapped s F d T ed (frame_of (ed x)) x Hu); try done. by apply HXF.
    - intros [[->|[Hp|(x & Hx & <-)]] HnX]; [by right; left| |].
      + clear -Hp HnX. set_solver.
      + right. right. right. exists x. split; [lia|]. split; [by apply Hpx|done]. }
  apply HQ; [done|]. eapply same_except_weaken; [|eapply same_except_trans; [exact Hsame|eapply same_except_trans; [exact Hs1|exact Hm2]]].
  clear -Hsub. set_solver.
Qed.

(** [freevm] of the abandoned child gives back all of [F0] but [X]. *)
Definition gives_back s0 F0 (d : Z) (X : gset Z) s1 : Prop :=
  forall Q : () -> S -> Prop,
    (forall s2, pg_rep s2 (F0 ∖ X) -> same_except F0 (pg_mem s0) (pg_mem s2) -> Q () s2) -> wp (freevm d) s1 Q.

(** One turn of the loop of [copyuvm]. *)
Lemma wp_copy_turn ek s0 F0 pg T0 e d sz fuel s F T ed v (Q : bool -> S -> Prop) :
  uvm s0 F0 pg T0 e -> (forall x, 0 <= x < UPAGES -> ek x = 0) -> sz <= KERNBASE ->
  (forall x, 0 <= x < up_vpn sz -> present (e x) = true) -> copy_inv ek s0 F0 e d s F T ed v -> 0 <= v < up_vpn sz ->
  (forall r sm s2 F2 T2, r ∈ F -> vmr sm (F ∖ {[r]}) d T ed -> extends d sm (F ∖ {[r]}) T s2 F2 T2 ->
     copy_inv ek s0 F0 e d s2 F2 T2 (upd ed v (mkpte (V2P r) (PTE_FLAGS (e v)))) (v + 1) ->
     wp (copyuvm_loop fuel pg d (4096 * (v + 1)) sz) s2 Q) ->
  (F = ∅ -> forall s1, gives_back s0 F0 d ∅ s1 -> Q false s1) ->
  (forall r s1, r ∈ F -> (size (F ∪ tabs T) <= 1025)%nat -> gives_back s0 F0 d {[r]} s1 -> Q false s1) ->
  wp (copyuvm_loop (Datatypes.S fuel) pg d (4096 * v) sz) s Q.
Proof.
  intros Hpar Hd Hsz Hpres Hc Hv Hok Hbad0 Hbad1. simpl.
  assert (Hw : up_vpn sz <= UPAGES) by (unfold up_vpn, UPAGES, KERNBASE in *; apply Z.lt_succ_r, Z.div_lt_upper_bound; lia).
  rewrite (proj2 (Z.ltb_lt _ _)) by (apply up_vpn_spec; lia). assert (Hvu : 0 <= v < UPAGES) by lia.
  pose proof (copy_inv_sub _ _ _ _ _ _ _ _ _ _ Hc) as Hsub. pose proof (cv_uvm _ _ _ _ _ _ _ _ _ _ Hc) as Hu.
  pose proof (u_vm _ _ _ _ _ Hu) as Hvm. pose proof pg_end_ok as Hk.
  assert (Hp : uvm s F pg T0 e).
  { eapply (uvm_frame s0); [done|apply (vm_pg _ _ _ _ _ Hvm)|clear -Hsub; set_solver|apply (cv_same _ _ _ _ _ _ _ _ _ _ Hc)]. }
  assert (Hva : 0 <= 4096 * v < 2 ^ 32) by (unfold UPAGES in Hvu; lia).
  assert (Evpn : 4096 * v / 4096 = v) by (rewrite Z.mul_comm; apply Z.div_mul; lia).
  destruct (present_tab _ _ _ _ _ v (u_vm _ _ _ _ _ Hp) ltac:(unfold UPAGES in *; lia) (Hpres v ltac:(lia))) as [pt Ept].
  wp_step. apply (wp_walk s F pg T0 e _ _ (u_vm _ _ _ _ _ Hp) Hva). rewrite Ept.
  destruct (vmr_word _ _ _ _ _ _ _ _ (u_vm _ _ _ _ _ Hp) Ept Hva) as [_ Hnz]. rewrite (proj2 (Z.eqb_neq _ 0) Hnz).
  wp_step. apply (wp_rd_pte _ _ _ _ _ _ _ _ (u_vm _ _ _ _ _ Hp) Hva Ept). rewrite Evpn, (Hpres v) by lia. cbn [negb].
  destruct (u_frame _ _ _ _ _ Hpar v Hvu (Hpres v ltac:(lia))) as (Hfo & _ & HfF).
  assert (HfF0 : frame_of (e v) ∉ F0) by (clear -HfF; set_solver).
  wp_step. eapply (pg_kalloc_spec _ _ _ (vm_pg _ _ _ _ _ Hvm)).
  - intros -> s1 Hs1 Em. change (0 =? 0) with true. cbv iota. wp_step. apply (Hbad0 eq_refl s1). intros Q' HQ'.
    apply (wp_copy_undo _ _ _ _ _ _ _ _ _ _ s1 ∅ T ∅ _ Hc); try done; try lia.
    + destruct Hu as [[? ? ?] ? ?]. split; [split; try done; by rewrite Em|done|done].
    + rewrite Em. apply same_except_refl.
  - intros r s1 Hr Hs1 Em. pose proof (pg_valid _ _ _ (vm_pg _ _ _ _ _ Hvm) Hr) as Hro.
    pose proof (page_range pg_end r (proj1 Hk) Hro) as Hrr. unfold KERNBASE in Hrr. rewrite (proj2 (Z.eqb_neq r 0)) by lia.
    unfold vm_memmove. do 3 wp_step. fold (frame_of (e v)).
    destruct (memmove_page (pg_mem s) (frame_of (e v)) r (pg_bytes _ _ (vm_pg _ _ _ _ _ Hvm)) Hfo Hro) as (_ & Hm & Hmb).
    assert (Hum : uvm (pg_setmem (memmove (pg_mem s1) r (frame_of (e v)) PGSIZE) s1) (F ∖ {[r]}) d T ed)
      by (rewrite Em; by apply (uvm_take s)).
    destruct (V2P_page pg_end Hk r Hro) as (_ & _ & Hp0 & Hp1). unfold PHYSTOP in Hp1.
    assert (Hnp : present (ed v) = false).
    { rewrite (cv_out _ _ _ _ _ _ _ _ _ _ Hc) by (unfold UPAGES in *; lia). rewrite Hd by lia. done. }
    apply (wp_map1 _ _ _ _ _ _ _ _ _ (u_vm _ _ _ _ _ Hum)); [unfold UPAGES in *; lia|lia|apply flags_range|done|..].
    + intros s2 F2 T2 H2 Hex. change (0 <? 0) with false. cbv iota.
      replace (u32 (4096 * v + PGSIZE)) with (4096 * (v + 1)) by (unfold PGSIZE, UPAGES in *; rewrite u32_small by lia; lia).
      eapply (Hok r); [done|apply (u_vm _ _ _ _ _ Hum)|done|]. by eapply (copy_inv_step _ _ _ _ _ s F T ed v r s1).
    + intros s2 T2 H2 [Hx1 Hx2 Hx3 Hx4]. rewrite pg_mem_set, Em in Hx4. rewrite (left_id_L ∅ (∪)) in Hx3.
      change (-1 <? 0) with true. cbv iota. wp_step. pose proof (free_apart _ _ _ _ _ _ Hvm Hr) as Hrn. apply (Hbad1 r s2 Hr).
      { eapply last_page; [done|exact Hvm|exact H2|]. by split; [| |rewrite (left_id_L ∅ (∪))|]. }
      intros Q' HQ'.
      apply (wp_copy_undo _ _ _ _ _ _ _ _ _ _ s2 ∅ T2 {[r]} _ Hc); try done; try lia.
      * split; [done| |apply (u_inj _ _ _ _ _ Hu)]. intros x Hx Hpx. destruct (u_frame _ _ _ _ _ Hum x Hx Hpx) as (? & ? & Hn).
        split_and!; try done. rewrite (right_id_L ∅ (∪)), Hx3, (assoc_L (∪)). done.
      * rewrite (left_id_L ∅ (∪)), Hx3, (assoc_L (∪)), <- union_difference_singleton_L; done.
      * clear -Hr. set_solver.
      * rewrite (left_id_L ∅ (∪)), Hx3. clear -Hrn. set_solver.
      * eapply same_except_weaken; [|eapply same_except_trans; [exact Hm|exact Hx4]]. clear -Hr. set_solver.
Qed.

Lemma wp_copy_loop ek s0 F0 pg T0 e d sz (Q : bool -> S -> Prop) :
  uvm s0 F0 pg T0 e -> (forall x, 0 <= x < UPAGES -> ek x = 0) -> sz <= KERNBASE ->
  (forall x, 0 <= x < up_vpn sz -> present (e x) = true) ->
  (forall s F T ed, copy_inv ek s0 F0 e d s F T ed (up_vpn sz) -> Q true s) ->
  (forall s1, Z.of_nat (size F0) <= 1025 + up_vpn sz -> gives_back s0 F0 d ∅ s1 -> Q false s1) ->
  (forall r s1, r ∈ F0 -> Z.of_nat (size F0) <= 1025 + up_vpn sz -> gives_back s0 F0 d {[r]} s1 -> Q false s1) ->
  forall fuel s F T ed v, copy_inv ek s0 F0 e d s F T ed v -> 0 <= v <= up_vpn sz -> up_vpn sz - v <= Z.of_nat fuel ->
    wp (copyuvm_loop fuel pg d (4096 * v) sz) s Q.
Proof.
  intros Hpar Hd Hsz Hpres Hok Hbad0 Hbad1.
  induction fuel as [|fuel IH]; intros s F T ed v Hc Hv Hfu.
  { simpl. wp_step. apply (Hok s F T ed). by assert (up_vpn sz = v) as -> by lia. }
  destruct (decide (v < up_vpn sz)) as [Hvw|Hvw].
  - eapply (wp_copy_turn ek s0 F0 pg T0 e); try done; [lia|..].
    + intros r sm s2 F2 T2 _ _ _ Hc2. eapply IH; [exact Hc2|lia|lia].
    + intros -> s1. apply Hbad0. pose proof (tabs_size _ _ _ _ _ (u_vm _ _ _ _ _ (cv_uvm _ _ _ _ _ _ _ _ _ _ Hc))) as Ht.
      pose proof (copy_inv_size _ _ _ _ _ _ _ _ _ _ Hc ltac:(lia)) as Hn. rewrite (left_id_L ∅ (∪)) in Hn. specialize (Hn ltac:(lia)). lia.
    + intros r s1 Hr Hn. apply Hbad1; [|pose proof (copy_inv_size _ _ _ _ _ _ _ _ _ _ Hc ltac:(lia) Hn); lia]. pose proof (copy_inv_sub _ _ _ _ _ _ _ _ _ _ Hc) as Hsub. clear -Hsub Hr. set_solver.
  - simpl. assert (up_vpn sz = v) as E by lia. pose proof (up_vpn_spec sz v). rewrite (proj2 (Z.ltb_ge _ _)) by lia.
    wp_step. apply (Hok s F T ed). by rewrite E.
Qed.

Lemma copy_inv_init s0 s F0 F d T ek e :
  uvm s F d T ek -> F ∪ tabs T = F0 ∖ {[d]} -> d ∈ F0 -> same_except F0 (pg_mem s0) (pg_mem s) ->
  copy_inv ek s0 F0 e d s F T ek 0.
Proof.
  intros Hu Hpg Hd Hs. split; try done; [intros x Hx; lia|]. intros p. rewrite Hpg. split.
  - intros Hp. destruct (decide (p = d)); [by left|]. right. left. set_solver.
  - intros [->|[Hp|(x & Hx & _)]]; [done|set_solver|lia].
Qed.

(** [freevm] leaks nothing: the free pages afterwards are those free
    before, the page directory, every page table page and every mapped user
    page, and no other memory changes. *)
Theorem freevm_correct s F pgdir T e :
  uvm s F pgdir T e ->
  exists s' F', freevm pgdir s = Ok () s' /\ pg_rep s' F' /\ freed_all pgdir T e F F' /\ same_except F' (pg_mem s) (pg_mem s').
Proof.
  intros H.
  assert (W : wp (freevm pgdir) s (fun _ s' => exists F', pg_rep s' F' /\ freed_all pgdir T e F F' /\ same_except F' (pg_mem s) (pg_mem s')))
    by (apply (wp_freevm s F pgdir T e); eauto).
  apply wp_elim in W as ([] & s' & Hrun & F' & W). exists s', F'. split; [exact Hrun|exact W].
Qed.

(** [setupkvm] returns a page table that maps exactly the kernel's part of
    the address space, built from free pages, or returns 0 with the free pages
    exactly as before. *)
Theorem setupkvm_correct s F data :
  pg_rep s F -> data_ok data ->
  exists r s', setupkvm data s = Ok r s' /\ same_except F (pg_mem s) (pg_mem s') /\
    (r = 0 /\ pg_rep s' F \/
     r ∈ F /\ exists F' T', uvm s' F' r T' (kern_pte data) /\ F' ∪ tabs T' = F ∖ {[r]}).
Proof.
  intros Hs Hd.
  assert (W : wp (setupkvm data) s (fun r s' => same_except F (pg_mem s) (pg_mem s') /\
    (r = 0 /\ pg_rep s' F \/ r ∈ F /\ exists F' T', uvm s' F' r T' (kern_pte data) /\ F' ∪ tabs T' = F ∖ {[r]}))).
  { apply (wp_setupkvm s F data); try done.
    - intros s' _ Hs' Hm. split; [done|]. by left.
    - intros r s' F' T' Hr Hu Hp Hm. split; [done|]. right. eauto. }
  apply wp_elim in W as (r & s' & Hrun & W). exists r, s'. split; [exact Hrun|exact W].
Qed.

(** [copyuvm] of a process whose pages are all present leaves the parent's
    address space intact and returns either a page table of its own for the
    child, in which every user page is a page that was free with the parent's
    contents and permissions, and which maps the kernel; or 0, when the pages
    that were free are not enough for the copy, its directory and its tables, with
    at most one page missing from the free ones. *)
Theorem copyuvm_correct s F data pgdir T e sz :
  uvm s F pgdir T e -> data_ok data -> 0 <= sz <= KERNBASE -> (forall x, 0 <= x < up_vpn sz -> present (e x) = true) ->
  exists r s' F', copyuvm data pgdir sz s = Ok r s' /\ uvm s' F' pgdir T e /\ same_except F (pg_mem s) (pg_mem s') /\
    (r ∈ F /\ (exists Td ed, uvm s' F' r Td ed /\
       (forall x, 0 <= x < up_vpn sz -> exists q, q ∈ F /\ ed x = mkpte (V2P q) (PTE_FLAGS (e x)) /\
          page_copy (pg_mem s) (frame_of (e x)) (pg_mem s') q) /\
       (forall x, up_vpn sz <= x < 1048576 -> ed x = kern_pte data x)) \/
     r = 0 /\ Z.of_nat (size F) <= 1025 + up_vpn sz /\ (F' = F \/ exists q, q ∈ F /\ F' = F ∖ {[q]})).
Proof.
  intros Hpar Hd Hsz Hpres. pose proof pg_end_ok as Hk. pose proof (vm_pg _ _ _ _ _ (u_vm _ _ _ _ _ Hpar)) as Hs.
  set (P := fun r s' => exists F', uvm s' F' pgdir T e /\ same_except F (pg_mem s) (pg_mem s') /\
    (r ∈ F /\ (exists Td ed, uvm s' F' r Td ed /\
       (forall x, 0 <= x < up_vpn sz -> exists q, q ∈ F /\ ed x = mkpte (V2P q) (PTE_FLAGS (e x)) /\
          page_copy (pg_mem s) (frame_of (e x)) (pg_mem s') q) /\
       (forall x, up_vpn sz <= x < 1048576 -> ed x = kern_pte data x)) \/
     r = 0 /\ Z.of_nat (size F) <= 1025 + up_vpn sz /\ (F' = F \/ exists q, q ∈ F /\ F' = F ∖ {[q]}))).
  assert (W : wp (copyuvm data pgdir sz) s P).
  { unfold copyuvm. wp_step. apply (wp_setupkvm s F data); try done.
    { intros s1 Hn Hs1 Hm. change (0 =? 0) with true. cbv iota. wp_step. exists F. split; [by eapply uvm_frame|]. split; [done|]. right. split; [done|].
      assert (0 <= up_vpn sz) by (apply Z.div_pos; lia). split; [lia|by left]. }
    intros d s1 F1 T1 HdF Hu1 Hp1 Hm1. pose proof (pg_valid _ _ _ Hs HdF) as Hdo.
    pose proof (page_range pg_end d (proj1 Hk) Hdo) as Hdr. rewrite (proj2 (Z.eqb_neq d 0)) by (unfold KERNBASE in Hdr; lia).
    wp_step. change (copyuvm_loop ?f pgdir d 0 sz) with (copyuvm_loop f pgdir d (4096 * 0) sz).
    assert (up_vpn sz <= sz / 4096 + 1).
    { unfold up_vpn. apply Z.lt_succ_r, Z.div_lt_upper_bound; [lia|]. pose proof (Z.div_mod sz 4096 ltac:(lia)).
      pose proof (Z.mod_pos_bound sz 4096 ltac:(lia)). lia. }
    assert (0 <= sz / 4096) by (apply Z.div_pos; lia). assert (0 <= up_vpn sz) by (apply Z.div_pos; lia).
    assert (Hfail : forall s2 (X : gset Z), (X = ∅ \/ exists r, r ∈ F /\ X = {[r]}) -> 
      Z.of_nat (size F) <= 1025 + up_vpn sz -> gives_back s F d X s2 -> wp (freevm d;; mret 0) s2 P).
    { intros s2 X HX Hn Hg. wp_step. apply Hg. intros s3 Hs3 Hm3. wp_step. exists (F ∖ X). split.
      - eapply (uvm_frame s); [done|done|clear; set_solver|done].
      - split; [done|]. right. split; [done|]. split; [done|]. destruct HX as [->|(r & Hr & ->)]; [left; clear; set_solver|right; eauto]. }
    eapply (wp_copy_loop (kern_pte data) s F pgdir T e d sz).
    - done.
    - intros x Hx. apply kern_pte_user; [done|lia].
    - lia.
    - done.
    - intros s2 F2 T2 ed Hc. cbv iota. wp_step. exists F2. pose proof (copy_inv_sub _ _ _ _ _ _ _ _ _ _ Hc) as Hsub.
      destruct Hc as [Hu Hsame Hin Hout Hpgs]. split.
      + eapply (uvm_frame s); [done|apply (vm_pg _ _ _ _ _ (u_vm _ _ _ _ _ Hu))|clear -Hsub; set_solver|done].
      + split; [done|]. left. split; [done|]. exists T2, ed. split; [done|]. split; [|done].
        intros x Hx. destruct (Hin x Hx) as (q & ? & _ & ? & ?). eauto.
    - intros s2 Hn Hg. apply (Hfail s2 ∅); [by left|done|done].
    - intros r s2 Hr Hn Hg. apply (Hfail s2 {[r]}); [right; eauto|done|done].
    - by eapply copy_inv_init.
    - lia.
    - unfold PGSIZE. lia. }
  apply wp_elim in W as (r & s' & Hrun & F' & W). exists r, s', F'. split; [exact Hrun|exact W].
Qed.

(** With no page left, a table that is missing stays missing. *)
Lemma no_new_tab s s' T T' F' d e e' x :
  vmr s ∅ d T e -> vmr s' F' d T' e' -> extends d s ∅ T s' F' T' -> T !! x = None -> T' !! x = None.
Proof.
  intros H H' [HT HF Hpg _] Hx. destruct (T' !! x) as [p|] eqn:E; [exfalso|done].
  assert (Hp : p ∈ tabs T). { rewrite (left_id_L ∅ (∪)) in Hpg. rewrite <- Hpg. apply elem_of_union_r, elem_tabs. eauto. }
  apply elem_tabs in Hp as [x' Hx']. pose proof (lookup_weaken _ _ _ _ Hx' HT) as Hx2.
  assert (x = x') as -> by (by eapply (ps_inj _ _ _ _ (vm_sep _ _ _ _ _ H'))). congruence.
Qed.

(** C15: [copyuvm] leaks a page when memory runs out between its [kalloc] and
    its [mappages]: with one free page [r] left and no page table in the child
    for the next page, the loop gives up, and after [freevm] of the child
    every page is free again except [r], which nothing refers to. *)
Theorem copyuvm_leak s0 F0 pgdir T0 e d s T ek ed v sz r fuel :
  uvm s0 F0 pgdir T0 e -> (forall x, 0 <= x < UPAGES -> ek x = 0) -> sz <= KERNBASE ->
  (forall x, 0 <= x < up_vpn sz -> present (e x) = true) ->
  copy_inv ek s0 F0 e d s {[r]} T ed v -> 0 <= v < up_vpn sz -> T !! PDX (4096 * v) = None ->
  exists s1 s2, copyuvm_loop (Datatypes.S fuel) pgdir d (4096 * v) sz s = Ok false s1 /\ freevm d s1 = Ok () s2 /\
    r ∈ F0 /\ pg_rep s2 (F0 ∖ {[r]}).
Proof.
  intros Hpar Hek Hsz Hpres Hc Hv HT. pose proof (copy_inv_sub _ _ _ _ _ _ _ _ _ _ Hc) as Hsub.
  assert (HrF : r ∈ F0) by (clear -Hsub; set_solver).
  assert (W : wp (copyuvm_loop (Datatypes.S fuel) pgdir d (4096 * v) sz) s (fun b s1 => b = false /\ gives_back s0 F0 d {[r]} s1)).
  { eapply (wp_copy_turn ek s0 F0 pgdir T0 e); try done.
    - intros r' sm s2 F2 T2 ->%elem_of_singleton Hm Hex Hc2. exfalso.
      rewrite difference_diag_L in Hm, Hex.
      pose proof (u_vm _ _ _ _ _ (cv_uvm _ _ _ _ _ _ _ _ _ _ Hc2)) as H2.
      destruct (present_tab _ _ _ _ _ v H2) as [pt Ept]; [|by rewrite upd_eq, mkpte_present|].
      + unfold up_vpn, KERNBASE in *. assert ((sz + 4095) / 4096 < 1048576) by (apply Z.div_lt_upper_bound; lia). lia.
      + rewrite (no_new_tab _ _ _ _ _ _ _ _ _ Hm H2 Hex HT) in Ept. done.
    - intros r' s1 ->%elem_of_singleton Hg. done. }
  apply wp_elim in W as (b & s1 & Hrun & -> & Hg).
  destruct (wp_elim (freevm d) s1 (fun _ s2 => pg_rep s2 (F0 ∖ {[r]})) ltac:(apply Hg; done)) as ([] & s2 & Hrun2 & Hs2).
  exists s1, s2. split; [exact Hrun|]. split; [exact Hrun2|]. split; [exact HrF|exact Hs2].
Qed.
End vm_copy.
