(* ===== verification/VmOut.v ===== *)
(** Access to user memory through its page table: [uva2ka], [copyout] and
    [clearpteu]. *)

From S2P Require Import Prelude CString Spinlock Kalloc Vm VmRep VmUser VmCopy.

(** The page number [v] is mapped and accessible to the user. *)
Definition user_page (e : Z -> Z) (v : Z) : bool := present (e v) && negb (Z.land (e v) PTE_U =? 0).

(** The two flags together. *)
Lemma land_perms x : Z.land x PTE_U <> 0 -> Z.land x PTE_W <> 0 -> Z.land x (Z.lor PTE_U PTE_W) = Z.lor PTE_U PTE_W.
Proof.
  intros Hu Hw. apply Z.bits_inj'. intros n Hn. rewrite Z.land_spec.
  assert (Ht : forall b, 0 <= b -> Z.land x (2 ^ b) <> 0 -> Z.testbit x b = true).
  { intros b Hk Hx. destruct (Z.testbit x b) eqn:E; [done|]. destruct Hx. apply Z.bits_inj'. intros j Hj. rewrite Z.land_spec, Z.bits_0, Z.pow2_bits_eqb by lia.
    destruct (Z.eqb_spec b j) as [->|]; [by rewrite E|by rewrite andb_false_r]. }
  pose proof (Ht 2 ltac:(lia) Hu) as T2. pose proof (Ht 1 ltac:(lia) Hw) as T1.
  change (Z.lor PTE_U PTE_W) with (2 ^ 2 + 2 ^ 1). change (2 ^ 2 + 2 ^ 1) with (Z.lor (2 ^ 2) (2 ^ 1)). rewrite Z.lor_spec, !Z.pow2_bits_eqb by lia.
  destruct (Z.eqb_spec 2 n) as [<-|]; [by rewrite T2|]. destruct (Z.eqb_spec 1 n) as [<-|]; [by rewrite T1|by rewrite andb_false_r].
Qed.

(** Where the byte at user address [va] is. *)
Definition uaddr (e : Z -> Z) (va : Z) : Z := frame_of (e (va / 4096)) + va mod 4096.

(** The last page number of [[va, va + len)]. *)
Definition last_vpn (va len : Z) : Z := (va + len - 1) / 4096.

Section vm_out.
Context {S : Type} `{!PageOps S} `{!PageLayer S}.
Implicit Types (s : S) (F : gset Z) (T : gmap Z Z) (e : Z -> Z).

Lemma wp_uva2ka s F pgdir T e v p (Q : Z -> S -> Prop) :
  uvm s F pgdir T e -> 0 <= v < UPAGES -> T !! PDX (4096 * v) = Some p ->
  Q (if user_page e v then frame_of (e v) else 0) s -> wp (uva2ka pgdir (4096 * v)) s Q.
Proof.
  intros H Hv Ep HQ. assert (Hva : 0 <= 4096 * v < 2 ^ 32) by (unfold UPAGES in Hv; lia).
  assert (Evpn : 4096 * v / 4096 = v) by (rewrite Z.mul_comm; apply Z.div_mul; lia).
  unfold uva2ka. wp_step. apply (wp_walk s F pgdir T e _ _ (u_vm _ _ _ _ _ H) Hva). rewrite Ep.
  wp_step. apply (wp_rd_pte _ _ _ _ _ _ _ _ (u_vm _ _ _ _ _ H) Hva Ep). rewrite Evpn. unfold user_page in HQ.
  destruct (present (e v)); cbn [negb andb] in HQ |- *; [|wp_step; exact HQ].
  destruct (Z.land (e v) PTE_U =? 0); cbn [negb] in HQ |- *; wp_step; exact HQ.
Qed.

(** Writing inside a user page. *)
Lemma uvm_write s F pgdir T e v m :
  uvm s F pgdir T e -> 0 <= v < UPAGES -> present (e v) = true ->
  same_except {[frame_of (e v)]} (pg_mem s) m -> mem_bytes m -> uvm (pg_setmem m s) F pgdir T e.
Proof.
  intros [H HF Hinj] Hv Hp Hm Hb. destruct (HF v Hv Hp) as (_ & _ & Hn). split; [|done|done].
  destruct (ps_dir _ _ _ _ (vm_sep _ _ _ _ _ H)) as (_ & HpF & _).
  assert (HTF : tabs T ## F) by (intros q [d Hd]%elem_tabs HqF; by destruct (vmr_pages _ _ _ _ _ _ _ H Hd) as (_ & _ & _ & ?)).
  eapply (vmr_frame s _ F _ _ _ _ {[frame_of (e v)]}); [done| |by rewrite pg_mem_set|clear -Hn HpF; set_solver|clear -Hn HTF; set_solver].
  eapply (pg_rep_set s F {[frame_of (e v)]}); [apply H|done|done|clear -Hn; set_solver].
Qed.

Lemma ldiff_range a b k : 0 <= k -> 0 <= a < 2 ^ k -> 0 <= Z.ldiff a b < 2 ^ k.
Proof.
  intros Hk Ha. assert (E : Z.ldiff a b = Z.ldiff a b mod 2 ^ k).
  { apply Z.bits_inj'. intros n Hn. destruct (decide (n < k)).
    - by rewrite Z.mod_pow2_bits_low by lia.
    - rewrite Z.mod_pow2_bits_high by lia. rewrite Z.ldiff_spec, <- (Z.mod_small a (2 ^ k)), Z.mod_pow2_bits_high by lia. done. }
  rewrite E. apply Z.mod_pos_bound. lia.
Qed.

Lemma uaddr_inj s F pgdir T e va vb :
  uvm s F pgdir T e -> 0 <= va < KERNBASE -> 0 <= vb < KERNBASE -> present (e (va / 4096)) = true -> present (e (vb / 4096)) = true ->
  uaddr e va = uaddr e vb -> va = vb.
Proof.
  intros H Ha Hb Hpa Hpb. unfold uaddr, KERNBASE in *.
  assert (Hva : 0 <= va / 4096 < UPAGES) by (unfold UPAGES; split; [apply Z.div_pos; lia|apply Z.div_lt_upper_bound; lia]).
  assert (Hvb : 0 <= vb / 4096 < UPAGES) by (unfold UPAGES; split; [apply Z.div_pos; lia|apply Z.div_lt_upper_bound; lia]).
  destruct (u_frame _ _ _ _ _ H _ Hva Hpa) as ((Hma & _) & _ & _). destruct (u_frame _ _ _ _ _ H _ Hvb Hpb) as ((Hmb & _) & _ & _).
  unfold PGSIZE in *. pose proof (Z.div_mod va 4096 ltac:(lia)) as Ea. pose proof (Z.div_mod vb 4096 ltac:(lia)) as Eb.
  pose proof (Z.mod_pos_bound va 4096 ltac:(lia)). pose proof (Z.mod_pos_bound vb 4096 ltac:(lia)).
  pose proof (Z.div_mod (frame_of (e (va / 4096))) 4096 ltac:(lia)). pose proof (Z.div_mod (frame_of (e (vb / 4096))) 4096 ltac:(lia)).
  intros E. assert (Ef : frame_of (e (va / 4096)) = frame_of (e (vb / 4096))) by lia.
  apply (u_inj _ _ _ _ _ H _ _ Hva Hvb Hpa Hpb) in Ef. lia.
Qed.

(** The result of copying [len] bytes at [buf] to user address [va]. *)
Record copied (m : mem) e (va buf len : Z) (m' : mem) : Prop := {
  co_in : forall i, 0 <= i < len -> m' (uaddr e (va + i)) = m (buf + i);
  co_out : forall a, (forall i, 0 <= i < len -> a <> uaddr e (va + i)) -> m' a = m a
}.

(** The user may access every page of the range. *)
Definition user_range e (va len : Z) : Prop := forall v, va / 4096 <= v <= last_vpn va len -> user_page e v = true.
(** The source is not in the destination pages. *)
Definition apart e (va len buf n : Z) : Prop :=
  forall v i, va / 4096 <= v <= last_vpn va len -> 0 <= i < n -> ~ in_page (frame_of (e v)) (buf + i).

(** The part of the range in its first page. *)
Lemma first_chunk va len :
  0 <= va -> 0 < len -> let n := Z.min (4096 - va mod 4096) len in
  1 <= n <= 4096 /\ (forall i, 0 <= i < n -> (va + i) / 4096 = va / 4096 /\ (va + i) mod 4096 = va mod 4096 + i) /\
  (n < len -> va + n = 4096 * (va / 4096 + 1)) /\ va / 4096 <= last_vpn va len.
Proof.
  intros Hva Hlen n. pose proof (Z.div_mod va 4096 ltac:(lia)) as E. pose proof (Z.mod_pos_bound va 4096 ltac:(lia)).
  split; [unfold n; lia|]. split; [|split; [unfold n; lia|unfold last_vpn; apply Z.div_le_mono; lia]].
  intros i Hi. split.
  - symmetry. apply (Z.div_unique_pos _ _ _ (va mod 4096 + i)); unfold n in Hi; lia.
  - symmetry. apply (Z.mod_unique_pos _ _ (va / 4096)); unfold n in Hi; lia.
Qed.

Lemma user_tab s F pgdir T e v : uvm s F pgdir T e -> 0 <= v < UPAGES -> user_page e v = true ->
  present (e v) = true /\ exists p, T !! PDX (4096 * v) = Some p.
Proof.
  intros H Hv Hu. apply andb_true_iff in Hu as [Hp _]. split; [done|].
  apply (present_tab _ _ _ _ _ v (u_vm _ _ _ _ _ H)); [unfold UPAGES in Hv; lia|done].
Qed.

(** One chunk of the copy. *)
Lemma chunk_copied m e va buf len n :
  mem_bytes m -> page_ok pg_end (frame_of (e (va / 4096))) -> 0 <= va -> 0 < len -> 0 <= buf -> buf + len < 2 ^ 32 ->
  n = Z.min (4096 - va mod 4096) len ->
  let m' := memmove m (frame_of (e (va / 4096)) + va mod 4096) buf n in
  copied m e va buf n m' /\ same_except {[frame_of (e (va / 4096))]} m m' /\ mem_bytes m'.
Proof.
  intros Hm Hp Hva Hlen Hbuf Hbl En m'. destruct (first_chunk va len Hva Hlen) as (Hn & Hi & _). rewrite <- En in Hn, Hi.
  pose proof pg_end_ok as Hk. pose proof (page_range pg_end _ (proj1 Hk) Hp) as Hpr. unfold KERNBASE, PHYSTOP, PGSIZE in Hpr.
  set (p := frame_of (e (va / 4096))) in *. set (o := va mod 4096) in *.
  pose proof (Z.mod_pos_bound va 4096 ltac:(lia)) as Ho. fold o in Ho.
  assert (E : forall a, m' a = if in_range a (p + o) n then m (buf + (a - (p + o))) else m a) by (intros a; apply memmove_spec; try done; lia).
  split; [split|split].
  - intros i Hin. unfold uaddr. destruct (Hi i Hin) as [-> ->]. fold p o. rewrite E. unfold in_range. decide_cmp. simpl. f_equal. lia.
  - intros a Ha. rewrite E. unfold in_range. destruct (Z.leb_spec (p + o) a), (Z.ltb_spec a (p + o + n)); simpl; try done.
    exfalso. apply (Ha (a - (p + o))); [lia|]. unfold uaddr. destruct (Hi (a - (p + o)) ltac:(lia)) as [-> ->]. fold p o. lia.
  - intros q a Hq Hqn Ha. rewrite E. unfold in_range.
    assert (Hnq : ~ in_page p a) by (eapply (pages_apart q p); try done; [apply Hp|clear -Hqn; set_solver]).
    unfold in_page, PGSIZE in Hnq. destruct (Z.leb_spec (p + o) a), (Z.ltb_spec a (p + o + n)); simpl; try done. lia.
  - intros a. rewrite E. destruct (in_range _ _ _); apply Hm.
Qed.

(** A copy is its first chunk followed by the rest. *)
Lemma copied_app s F pgdir T e m m1 m2 va buf n len :
  uvm s F pgdir T e -> 0 <= va -> va + len <= KERNBASE -> user_range e va len -> apart e va len buf len -> 0 <= n <= len ->
  copied m e va buf n m1 -> copied m1 e (va + n) (buf + n) (len - n) m2 -> copied m e va buf len m2.
Proof.
  intros H Hva Hk Hu Hap Hn [Hi1 Ho1] [Hi2 Ho2].
  assert (Hpg : forall i, 0 <= i < len -> va / 4096 <= (va + i) / 4096 <= last_vpn va len).
  { intros i Hi. unfold last_vpn. split; apply Z.div_le_mono; lia. }
  assert (Hpr : forall i, 0 <= i < len -> present (e ((va + i) / 4096)) = true).
  { intros i Hi. specialize (Hu _ (Hpg i Hi)). by apply andb_true_iff in Hu as [? _]. }
  split.
  - intros i Hi. destruct (decide (i < n)) as [Hin|Hin].
    + rewrite Ho2; [by apply Hi1; lia|]. intros j Hj E. rewrite <- Z.add_assoc in E.
      apply (uaddr_inj s F pgdir T e) in E; try done; try lia; apply Hpr; lia.
    + replace (va + i) with (va + n + (i - n)) by lia. rewrite Hi2 by lia. replace (buf + n + (i - n)) with (buf + i) by lia.
      apply Ho1. intros j Hj E. apply (Hap ((va + j) / 4096) i); [apply Hpg; lia|lia|].
      rewrite E. unfold uaddr, in_page, PGSIZE. pose proof (Z.mod_pos_bound (va + j) 4096 ltac:(lia)). lia.
  - intros a Ha. rewrite Ho2, Ho1; [done| |].
    + intros i Hi. apply Ha. lia.
    + intros i Hi. rewrite <- Z.add_assoc. apply Ha. lia.
Qed.

Lemma wp_copyout_loop pgdir T e : forall fuel s F va buf len (Q : Z -> S -> Prop),
  uvm s F pgdir T e -> 0 <= va -> 0 <= len -> va + len <= KERNBASE -> 0 <= buf -> buf + len < 2 ^ 32 ->
  user_range e va len -> apart e va len buf len -> (0 < len -> last_vpn va len - va / 4096 < Z.of_nat fuel) ->
  (forall s', uvm s' F pgdir T e -> copied (pg_mem s) e va buf len (pg_mem s') -> Q 0 s') ->
  wp (copyout_loop fuel pgdir va buf len) s Q.
Proof.
  assert (Hnil : forall s F va buf len (Q : Z -> S -> Prop), uvm s F pgdir T e -> len = 0 ->
    (forall s', uvm s' F pgdir T e -> copied (pg_mem s) e va buf len (pg_mem s') -> Q 0 s') -> Q 0 s).
  { intros s F va buf len Q H -> HQ. apply HQ; [done|]. split; [intros i Hi; lia|done]. }
  induction fuel as [|fuel IH]; intros s F va buf len Q H Hva Hlen Hk Hbuf Hbl Hu Hap Hfu HQ; simpl.
  { wp_step. eapply Hnil; [exact H| |exact HQ]. destruct (decide (0 < len)); [|lia]. destruct (first_chunk va len) as (_ & _ & _ & ?); lia. }
  rewrite Z.gtb_ltb. destruct (Z.ltb_spec 0 len) as [Hpos|]; [|wp_step; eapply Hnil; [exact H| |exact HQ]; lia].
  destruct (first_chunk va len Hva Hpos) as (Hn & Hi & Hnext & Hlast). set (n := Z.min (4096 - va mod 4096) len) in *.
  assert (Hv : 0 <= va / 4096 < UPAGES) by (unfold UPAGES, KERNBASE in *; split; [apply Z.div_pos; lia|apply Z.div_lt_upper_bound; lia]).
  assert (Huv : user_page e (va / 4096) = true) by (apply Hu; lia). destruct (user_tab _ _ _ _ _ _ H Hv Huv) as [Hp [pt Ept]].
  destruct (u_frame _ _ _ _ _ H _ Hv Hp) as (Hpo & _ & _). pose proof pg_end_ok as Hk0.
  pose proof (page_range pg_end _ (proj1 Hk0) Hpo) as Hpr. pose proof (Z.mod_pos_bound va 4096 ltac:(lia)) as Ho.
  pose proof (Z.div_mod va 4096 ltac:(lia)) as Edm.
  rewrite round_down. unfold PGSIZE. replace (va - va mod 4096) with (4096 * (va / 4096)) by lia.
  wp_step. apply (wp_uva2ka s F pgdir T e _ pt); try done. rewrite Huv.
  rewrite (proj2 (Z.eqb_neq _ 0)) by (unfold KERNBASE in *; lia).
  replace (va - 4096 * (va / 4096)) with (va mod 4096) by lia. rewrite (u32_small (4096 - _)) by lia.
  replace (if 4096 - va mod 4096 >? len then len else 4096 - va mod 4096) with n
    by (unfold n; rewrite Z.gtb_ltb; destruct (Z.ltb_spec len (4096 - va mod 4096)); lia).
  unfold vm_memmove. do 2 wp_step. rewrite (u32_small (frame_of _ + _)) by (unfold KERNBASE, PHYSTOP, PGSIZE in *; lia).
  destruct (chunk_copied (pg_mem s) e va buf len n) as (Hc & Hsame & Hb); try done.
  { apply (pg_bytes _ _ (vm_pg _ _ _ _ _ (u_vm _ _ _ _ _ H))). }
  pose proof (uvm_write s F pgdir T e _ _ H Hv Hp Hsame Hb) as H1.
  rewrite !u32_small by (unfold KERNBASE, UPAGES in *; lia). set (m1 := memmove _ _ _ _) in *.
  destruct (decide (n < len)) as [Hlt|Hge].
  - specialize (Hnext Hlt). replace (4096 * (va / 4096) + 4096) with (va + n) by lia.
    assert (El : last_vpn (va + n) (len - n) = last_vpn va len) by (unfold last_vpn; f_equal; lia).
    assert (Ev : (va + n) / 4096 = va / 4096 + 1) by (rewrite Hnext, Z.mul_comm; apply Z.div_mul; lia).
    apply (IH _ F (va + n) (buf + n) (len - n) Q H1); try lia.
    + intros v. rewrite El, Ev. intros Hvr. apply Hu. lia.
    + intros v i. rewrite El, Ev. intros Hvr Hir. rewrite <- Z.add_assoc. apply Hap; lia.
    + intros s' Hs' Hc'. apply HQ; [done|]. rewrite pg_mem_set in Hc'. eapply (copied_app s F pgdir T e); try done. lia.
  - assert (n = len) as En by lia. replace (len - n) with 0 by lia. destruct fuel as [|fuel']; simpl; wp_step; (apply HQ; [done|]);
      rewrite pg_mem_set, <- En; exact Hc.
Qed.

(** [copyout] to a range of user memory that the process may access copies
    the whole buffer there, byte by byte at the right user address, returns 0,
    and changes no other byte, also when the range spans several pages. *)
Theorem copyout_correct s F pgdir T e va p len :
  uvm s F pgdir T e -> 0 <= va -> 0 <= len -> va + len <= KERNBASE -> 0 <= p -> p + len < 2 ^ 32 ->
  user_range e va len -> apart e va len p len ->
  exists s', copyout pgdir va p len s = Ok 0 s' /\ uvm s' F pgdir T e /\
    (forall i, 0 <= i < len -> pg_mem s' (uaddr e (va + i)) = pg_mem s (p + i)) /\
    (forall a, (forall i, 0 <= i < len -> a <> uaddr e (va + i)) -> pg_mem s' a = pg_mem s a).
Proof.
  intros H Hva Hlen Hk Hp Hpl Hu Hap.
  assert (W : wp (copyout pgdir va p len) s (fun r s' => r = 0 /\ uvm s' F pgdir T e /\ copied (pg_mem s) e va p len (pg_mem s'))).
  { unfold copyout. apply (wp_copyout_loop pgdir T e _ s F); try done. intros Hpos. unfold last_vpn, PGSIZE.
    pose proof (Z.div_mod va 4096 ltac:(lia)). pose proof (Z.div_mod len 4096 ltac:(lia)).
    pose proof (Z.div_mod (va + len - 1) 4096 ltac:(lia)). pose proof (Z.mod_pos_bound va 4096 ltac:(lia)).
    pose proof (Z.mod_pos_bound len 4096 ltac:(lia)). pose proof (Z.mod_pos_bound (va + len - 1) 4096 ltac:(lia)).
    assert (0 <= len / 4096) by (apply Z.div_pos; lia). lia. }
  apply wp_elim in W as (r & s' & Hrun & -> & Hu' & [Hi Ho]). exists s'. split; [exact Hrun|]. clear Hrun. done.
Qed.

(** [copyout] never writes where the user may not: when the first page of
    the range is not accessible to the user, for want of [PTE_P] or of [PTE_U],
    it returns -1 and memory is as before. *)
Theorem copyout_protected s F pgdir T e va p len pt :
  uvm s F pgdir T e -> 0 <= va < KERNBASE -> 0 < len -> T !! PDX va = Some pt -> user_page e (va / 4096) = false ->
  copyout pgdir va p len s = Ok (-1) s.
Proof.
  intros H Hva Hlen Ept Hu. unfold copyout. rewrite Nat.add_comm. simpl. rewrite Z.gtb_ltb, (proj2 (Z.ltb_lt _ _)) by lia.
  pose proof (Z.div_mod va 4096 ltac:(lia)). rewrite round_down. unfold PGSIZE. replace (va - va mod 4096) with (4096 * (va / 4096)) by lia.
  assert (Hv : 0 <= va / 4096 < UPAGES) by (unfold UPAGES, KERNBASE in *; split; [apply Z.div_pos; lia|apply Z.div_lt_upper_bound; lia]).
  assert (Ed : PDX (4096 * (va / 4096)) = PDX va).
  { unfold KERNBASE, UPAGES in *. rewrite (proj1 (PDX_div (4096 * (va / 4096)) ltac:(lia))), (proj1 (PDX_div va ltac:(lia))).
    change (2 ^ 22) with (4096 * 1024). rewrite Z.div_mul_cancel_l, Z.div_div by lia. done. }
  rewrite (bind_ok _ _ s 0 s); [done|].
  assert (W : wp (uva2ka pgdir (4096 * (va / 4096))) s (fun r s' => r = 0 /\ s' = s)).
  { apply (wp_uva2ka s F pgdir T e _ pt); try done; [by rewrite Ed|]. by rewrite Hu. }
  apply wp_elim in W as (r & s' & Hrun & -> & ->). exact Hrun.
Qed.

Lemma wp_clearpteu s F pgdir T e va p (Q : () -> S -> Prop) :
  vmr s F pgdir T e -> 0 <= va < 2 ^ 32 -> 0 <= e (va / 4096) < 2 ^ 32 -> T !! PDX va = Some p ->
  (forall s', vmr s' F pgdir T (upd e (va / 4096) (Z.land (e (va / 4096)) (Z.lnot PTE_U))) -> same_except (tabs T) (pg_mem s) (pg_mem s') -> Q () s') ->
  wp (clearpteu pgdir va) s Q.
Proof.
  intros H Hva He Ep HQ. unfold clearpteu. wp_step. apply (wp_walk s F pgdir T e _ _ H Hva). rewrite Ep.
  destruct (vmr_word _ _ _ _ _ _ _ _ H Ep Hva) as [_ Hnz]. rewrite (proj2 (Z.eqb_neq _ 0) Hnz).
  wp_step. apply (wp_rd_pte _ _ _ _ _ _ _ _ H Hva Ep). apply (wp_wr_pte _ _ _ _ _ _ _ _ _ H Hva Ep); [|done].
  rewrite <- Z.ldiff_land. apply ldiff_range; [lia|apply He].
Qed.

(** [clearpteu] takes the user's access to exactly one page away: its
    entry loses [PTE_U] and keeps its address and other flags, and no other
    entry changes; without a page table for the address it panics. *)
Theorem clearpteu_correct s F pgdir T e va :
  vmr s F pgdir T e -> 0 <= va < 2 ^ 32 -> (forall v, 0 <= e v < 2 ^ 32) ->
  match T !! PDX va with
  | None => clearpteu pgdir va s = Panic "clearpteu"
  | Some _ =>
      exists s', clearpteu pgdir va s = Ok () s' /\
        vmr s' F pgdir T (upd e (va / 4096) (Z.land (e (va / 4096)) (Z.lnot PTE_U))) /\
        same_except (tabs T) (pg_mem s) (pg_mem s')
  end.
Proof.
  intros H Hva He. unfold clearpteu. destruct (T !! PDX va) as [p|] eqn:Ep.
  - assert (W : wp (clearpteu pgdir va) s (fun _ s' => vmr s' F pgdir T (upd e (va / 4096) (Z.land (e (va / 4096)) (Z.lnot PTE_U))) /\
        same_except (tabs T) (pg_mem s) (pg_mem s'))) by (by eapply wp_clearpteu; [done|done|apply He|done|]).
    apply wp_elim in W as ([] & s' & Hrun & W). exists s'. split; [exact Hrun|exact W].
  - apply panic_after. apply (wp_walk s F pgdir T e _ _ H Hva). by rewrite Ep.
Qed.
End vm_out.
