(* ===== verification/VmSpace.v ===== *)
(** Address spaces with the pages they own.

    [aspace data s F pgdir e n Y]: the page table at [pgdir] maps the first [n]
    user pages and the kernel, with the entries [e], and its directory, tables
    and user pages are exactly the pages [Y].  The rules account for every page:
    what an operation takes from the free pages it adds to [Y], and back. *)

From S2P Require Import Prelude CString Spinlock Kalloc Vm VmRep VmUser VmCopy VmOut.

(** A byte outside the pages that changed. *)
Lemma outside_same Y m m' a : same_except Y m m' -> (forall q, q ∈ Y -> ~ in_page q a) -> m' a = m a.
Proof.
  intros Hs Hout. set (q := a - a mod PGSIZE). assert (Hin : in_page q a) by (unfold q, in_page; pose proof (Z.mod_pos_bound a PGSIZE ltac:(unfold PGSIZE; lia)); lia).
  apply (Hs q); [unfold q; by rewrite <- Zminus_mod_idemp_l, Z.sub_diag| |done]. intros HY. by apply (Hout q).
Qed.

(** Memory is the same inside the pages [Y]. *)
Definition page_same (Y : gset Z) (m m' : mem) : Prop := forall q a, q ∈ Y -> in_page q a -> m' a = m a.

(** [Y] is the directory, the tables and the mapped user pages. *)
Definition pages_of (pgdir : Z) (T : gmap Z Z) (e : Z -> Z) (Y : gset Z) : Prop :=
  forall q, q ∈ Y <-> q = pgdir \/ q ∈ tabs T \/ exists x, 0 <= x < UPAGES /\ present (e x) = true /\ frame_of (e x) = q.

Record entries_ok (data : Z) (e : Z -> Z) (n : Z) : Prop := {
  eo_n : 0 <= n <= UPAGES;
  eo_in : forall x, 0 <= x < n -> present (e x) = true;
  eo_out : forall x, n <= x < UPAGES -> e x = 0;
  eo_kern : forall x, UPAGES <= x < 1048576 -> e x = kern_pte data x
}.

Lemma up_vpn_bounds sz : 0 <= sz <= KERNBASE -> 0 <= up_vpn sz <= UPAGES.
Proof.
  unfold up_vpn, UPAGES, KERNBASE. intros H. split; [apply Z.div_pos; lia|apply Z.lt_succ_r, Z.div_lt_upper_bound; lia].
Qed.

Lemma up_vpn_mono a b : a <= b -> up_vpn a <= up_vpn b.
Proof. intros. apply Z.div_le_mono; lia. Qed.

(** Entries of the kernel's part are not for the user. *)
Lemma mkpte_no_user pa fl : pa mod 4096 = 0 -> fl = 0 \/ fl = PTE_W -> Z.land (mkpte pa fl) PTE_U = 0.
Proof.
  intros Hm Hfl. apply Z.div_exact in Hm; [|done]. unfold mkpte. rewrite Z.land_lor_distr_l. apply Z.lor_eq_0_iff. split; [|by destruct Hfl as [->| ->]].
  rewrite Z.land_lor_distr_l. apply Z.lor_eq_0_iff. split; [|by destruct Hfl as [->| ->]].
  rewrite Hm, Z.mul_comm. change 4096 with (2 ^ 12). rewrite <- Z.shiftl_mul_pow2 by lia. apply Z.bits_inj'. intros i Hi. rewrite Z.land_spec, Z.bits_0.
  unfold PTE_U. change 4 with (2 ^ 2). rewrite Z.pow2_bits_eqb by lia. destruct (Z.eqb_spec 2 i); [subst i|apply andb_false_r]. by rewrite Z.shiftl_spec_low.
Qed.

Lemma kern_no_user data x : Z.land (kern_pte data x) PTE_U = 0.
Proof.
  unfold kern_pte. repeat match goal with |- context [if ?b then _ else _] => destruct b end;
    try (apply mkpte_no_user; [|auto]); try done; change KERNBASE with (4096 * 524288); rewrite <- ?Z.mul_sub_distr_l, Z.mul_comm; apply Z_mod_mult.
Qed.

Section space.
Context {S : Type} `{!PageOps S} `{!PageLayer S}.
Variable data : Z.
Hypothesis Hdata : data_ok data.
Implicit Types (s : S) (F Y : gset Z) (T : gmap Z Z) (e : Z -> Z).

Definition aspace s F (pgdir : Z) e (n : Z) Y : Prop :=
  entries_ok data e n /\ exists T, uvm s F pgdir T e /\ pages_of pgdir T e Y.

Lemma aspace_rep s F pgdir e n Y : aspace s F pgdir e n Y -> pg_rep s F.
Proof. intros (_ & T & Hu & _). apply Hu. Qed.

Lemma aspace_dir s F pgdir e n Y : aspace s F pgdir e n Y -> pgdir ∈ Y /\ page_ok pg_end pgdir.
Proof. intros (_ & T & Hu & Hp). split; [apply Hp; by left|]. apply (ps_dir _ _ _ _ (vm_sep _ _ _ _ _ (u_vm _ _ _ _ _ Hu))). Qed.

(** The pages of an address space are not free. *)
Lemma own_not_free s F pgdir T e q :
  uvm s F pgdir T e -> q = pgdir \/ q ∈ tabs T \/ (exists x, 0 <= x < UPAGES /\ present (e x) = true /\ frame_of (e x) = q) -> q ∉ F.
Proof.
  intros Hu [->|[[d Hd]%elem_tabs|(x & Hx & Hpx & <-)]].
  - by destruct (ps_dir _ _ _ _ (vm_sep _ _ _ _ _ (u_vm _ _ _ _ _ Hu))) as (_ & ? & _).
  - by destruct (vmr_pages _ _ _ _ _ _ _ (u_vm _ _ _ _ _ Hu) Hd) as (_ & _ & _ & ?).
  - destruct (u_frame _ _ _ _ _ Hu x Hx Hpx) as (_ & _ & H). clear -H. set_solver.
Qed.

Lemma aspace_apart s F pgdir e n Y : aspace s F pgdir e n Y -> Y ## F.
Proof.
  intros (_ & T & Hu & Hp) q HY HF. by apply (own_not_free _ _ _ _ _ _ Hu (proj1 (Hp q) HY)).
Qed.

Lemma aspace_pages s F pgdir e n Y q : aspace s F pgdir e n Y -> q ∈ Y -> page_ok pg_end q.
Proof.
  intros H HY. destruct (aspace_dir _ _ _ _ _ _ H) as (_ & Hd). destruct H as (_ & T & Hu & Hp).
  apply Hp in HY as [->|[[d Ht]%elem_tabs|(x & Hx & Hpx & <-)]]; [done| |].
  - by destruct (vmr_pages _ _ _ _ _ _ _ (u_vm _ _ _ _ _ Hu) Ht) as (_ & ? & _).
  - by destruct (u_frame _ _ _ _ _ Hu x Hx Hpx) as (? & _).
Qed.

(** A user page is a page of the address space. *)
Lemma aspace_frame s F pgdir e n Y v : aspace s F pgdir e n Y -> 0 <= v < n -> frame_of (e v) ∈ Y.
Proof. intros (He & T & _ & Hp) Hv. apply Hp. right. right. exists v. destruct He as [Hn Hin _ _]. split; [lia|]. auto. Qed.

(** It has a directory, at most 1024 tables, and its user pages. *)
Lemma aspace_size s F pgdir e n Y : aspace s F pgdir e n Y -> Z.of_nat (size Y) <= 1025 + n.
Proof.
  clear Hdata. intros ([Hn Hin Hout _] & T & Hu & Hp). pose proof (tabs_size _ _ _ _ _ (u_vm _ _ _ _ _ Hu)) as Ht.
  assert (Hs : (size ({[pgdir]} ∪ tabs T) <= 1025)%nat).
  { rewrite size_union_alt, size_singleton. pose proof (subseteq_size (tabs T ∖ {[pgdir]}) (tabs T) ltac:(clear; set_solver)). lia. }
  pose proof (size_frames Y ({[pgdir]} ∪ tabs T) e 0 n ltac:(lia)) as H. etransitivity; [apply H|lia]. intros q Hq. apply Hp in Hq as [->|[Hq|(x & Hx & Hpr & <-)]];
    [left; clear; set_solver|left; clear -Hq; set_solver|]. right. exists x. split; [|done]. destruct (Z.lt_ge_cases x n); [lia|]. by rewrite Hout in Hpr by lia.
Qed.

(** Nothing changes for an address space when other pages do. *)
Lemma aspace_other s s' F F' pgdir e n Y X :
  aspace s F pgdir e n Y -> pg_rep s' F' -> same_except X (pg_mem s) (pg_mem s') -> Y ## X ∪ F' -> aspace s' F' pgdir e n Y.
Proof.
  intros (He & T & Hu & Hp) Hs' Hsame HY. split; [done|]. exists T. split; [|done]. destruct Hu as [Hvm Hfr Hinj].
  assert (HT : tabs T ⊆ Y) by (intros q Hq; apply Hp; auto). assert (Hd : pgdir ∈ Y) by (apply Hp; auto).
  split; [|intros v Hv Hpv; destruct (Hfr v Hv Hpv) as (? & ? & Hn); split_and!; try done|done].
  - eapply (vmr_frame s); [done|done|exact Hsame|clear -HY Hd; set_solver|clear -HY HT; set_solver].
  - assert (Hfy : frame_of (e v) ∈ Y) by (apply Hp; right; right; eauto). clear -Hn HY Hfy HT Hd. set_solver.
Qed.

(** Writing inside a user page. *)
Lemma aspace_write s F pgdir e n Y v m :
  aspace s F pgdir e n Y -> 0 <= v < UPAGES -> present (e v) = true -> same_except {[frame_of (e v)]} (pg_mem s) m -> mem_bytes m ->
  aspace (pg_setmem m s) F pgdir e n Y /\ frame_of (e v) ∈ Y.
Proof.
  intros (He & T & Hu & Hp) Hv Hpv Hm Hb. split; [|apply Hp; eauto 6]. split; [done|]. exists T. split; [by eapply uvm_write|done].
Qed.

Lemma same_bytes X Y e n s s' va pgdir F :
  aspace s F pgdir e n Y -> same_except X (pg_mem s) (pg_mem s') -> 0 <= va < 4096 * n -> frame_of (e (va / 4096)) ∉ X ->
  pg_mem s' (uaddr e va) = pg_mem s (uaddr e va).
Proof.
  intros H Hsame Hva HX. assert (Hv : 0 <= va / 4096 < n) by (split; [apply Z.div_pos; lia|apply Z.div_lt_upper_bound; lia]).
  pose proof (aspace_pages _ _ _ _ _ _ _ H (aspace_frame _ _ _ _ _ _ _ H Hv)) as (Hm & _).
  apply (Hsame (frame_of (e (va / 4096)))); [done|done|]. unfold uaddr, in_page, PGSIZE. pose proof (Z.mod_pos_bound va 4096). lia.
Qed.

(** ** The operations *)

(** [freevm] gives all of [Y] back. *)
Lemma wp_space_free s F pgdir e n Y (Q : () -> S -> Prop) :
  aspace s F pgdir e n Y ->
  (forall s', pg_rep s' (F ∪ Y) -> same_except (F ∪ Y) (pg_mem s) (pg_mem s') -> Q () s') -> wp (freevm pgdir) s Q.
Proof.
  intros (_ & T & Hu & Hp) HQ. apply (wp_freevm s F pgdir T e); [done|]. intros s' F' Hs' Hf Hsame.
  assert (F' = F ∪ Y) as ->; [|by apply HQ]. apply set_eq. intros q. rewrite (Hf q), elem_of_union, (Hp q). done.
Qed.

Lemma wp_space_setup s F (Q : Z -> S -> Prop) :
  pg_rep s F -> (forall s', (size F <= 1025)%nat -> pg_rep s' F -> same_except F (pg_mem s) (pg_mem s') -> Q 0 s') ->
  (forall r s' F' Y, r <> 0 -> aspace s' F' r (kern_pte data) 0 Y -> F' ∪ Y = F -> same_except F (pg_mem s) (pg_mem s') -> Q r s') ->
  wp (setupkvm data) s Q.
Proof.
  intros Hs H0 H1. apply (wp_setupkvm s F data); [done|done|done|]. intros r s' F' T Hr Hu HF Hsame.
  assert (Hr0 : r <> 0).
  { pose proof pg_end_ok as Hk. destruct (pg_valid _ _ _ Hs Hr) as (_ & ? & _). unfold KERNBASE in Hk. lia. }
  apply (H1 r s' F' ({[r]} ∪ tabs T)); [done| | |done].
  - split.
    + split; [unfold UPAGES; lia|lia|intros x Hx; apply kern_pte_user; [done|lia]|done].
    + exists T. split; [done|]. intros q. rewrite elem_of_union, elem_of_singleton. split; [naive_solver|].
      intros [|[|(x & Hx & Hpx & _)]]; [by left|by right|]. rewrite kern_pte_user in Hpx by (done || lia). done.
  - rewrite (comm_L (∪) {[r]}), (assoc_L (∪)), HF, (comm_L (∪)). by rewrite <- union_difference_singleton_L.
Qed.

(** The user bytes below page [n] are the same. *)
Definition kept_bytes s e (n : Z) s' e' : Prop :=
  forall va, 0 <= va < 4096 * n -> e' (va / 4096) = e (va / 4096) /\ pg_mem s' (uaddr e' va) = pg_mem s (uaddr e va).

(** User pages [v .. w - 1] are new: zeroed, and the user's to read and write. *)
Definition new_pages s e (v w : Z) : Prop :=
  forall x, v <= x < w -> user_page e x = true /\ Z.land (e x) PTE_W <> 0 /\ page_zero (pg_mem s) (frame_of (e x)).

Lemma vpn_of va n : 0 <= va < 4096 * n -> 0 <= va / 4096 < n.
Proof. intros. split; [apply Z.div_pos; lia|apply Z.div_lt_upper_bound; lia]. Qed.

Lemma kept_same s F pgdir e n Y T s' e' X k :
  aspace s F pgdir e n Y -> k <= n -> uvm s F pgdir T e -> (forall x, 0 <= x < k -> e' x = e x) ->
  same_except X (pg_mem s) (pg_mem s') -> X ⊆ {[pgdir]} ∪ F ∪ tabs T -> kept_bytes s e k s' e'.
Proof.
  intros Ha Hk Hu He Hsame HX va Hva. pose proof (vpn_of va k Hva) as Hv. split; [by apply He|].
  assert (E : uaddr e' va = uaddr e va) by (unfold uaddr; by rewrite He). rewrite E. eapply same_bytes; [exact Ha|exact Hsame|lia|].
  destruct Ha as ([Hn Hin _ _] & _). destruct (u_frame _ _ _ _ _ Hu (va / 4096)) as (_ & _ & H); [lia|apply Hin; lia|].
  clear -H HX. set_solver.
Qed.

Lemma alloc_perm_user p : page_ok pg_end p ->
  let pte := mkpte (V2P p) (Z.lor PTE_W PTE_U) in present pte = true /\ Z.land pte PTE_U <> 0 /\ Z.land pte PTE_W <> 0.
Proof.
  intros Hp pte. split; [apply mkpte_present|]. destruct (V2P_page pg_end pg_end_ok p Hp) as (Hm & _ & H0 & _).
  assert (E : pte = V2P p + 7).
  { unfold pte, mkpte. rewrite <- Z.lor_assoc. apply (lor_low (V2P p) 7 12); [lia|lia|done]. }
  rewrite E. rewrite <- (lor_low (V2P p) 7 12) by (lia || done). rewrite !Z.land_lor_distr_l. change (Z.land 7 PTE_U) with 4. change (Z.land 7 PTE_W) with 2.
  rewrite !(land_low (V2P p) _ 12) by (unfold PTE_U, PTE_W; lia || done). done.
Qed.

Lemma alloc_space s F pgdir T e oldsz newsz Y s' F' T' e' :
  aspace s F pgdir e (up_vpn oldsz) Y -> uvm s F pgdir T e -> pages_of pgdir T e Y -> 0 <= oldsz <= newsz -> newsz < KERNBASE ->
  alloc_inv pgdir s F T e s' F' T' e' (up_vpn oldsz) (up_vpn newsz) ->
  let Y' := (F ∪ Y) ∖ F' in
  aspace s' F' pgdir e' (up_vpn newsz) Y' /\ F' ∪ Y' = F ∪ Y /\ Y ⊆ Y' /\ new_pages s' e' (up_vpn oldsz) (up_vpn newsz).
Proof.
  intros Ha Hu Hp Hsz Hk [Hu' Hout Hin Hpg HT HF Hsame] Y'. pose proof (up_vpn_mono oldsz newsz ltac:(lia)) as Hle.
  pose proof (up_vpn_bounds oldsz ltac:(lia)) as Hb0. pose proof (up_vpn_bounds newsz ltac:(lia)) as Hb1.
  destruct Ha as ([_ Ein Eout Ekern] & _).
  assert (Hpo : forall p, p ∈ F -> page_ok pg_end p) by (intros p; apply (pg_valid _ _ _ (vm_pg _ _ _ _ _ (u_vm _ _ _ _ _ Hu)))).
  assert (Hnew : forall x, up_vpn oldsz <= x < up_vpn newsz -> present (e' x) = true).
  { intros x Hx. destruct (Hin x Hx) as (p & _ & -> & _). apply mkpte_present. }
  assert (Hpre : forall x, 0 <= x < UPAGES -> present (e' x) = true <-> x < up_vpn newsz).
  { intros x Hx. destruct (decide (up_vpn oldsz <= x < up_vpn newsz)) as [Hi|Hi]; [split; [lia|auto]|].
    rewrite Hout by (unfold UPAGES in *; lia). destruct (decide (x < up_vpn oldsz)); [rewrite Ein by lia; split; [lia|done]|].
    rewrite Eout by lia. split; [done|lia]. }
  assert (HpY : pages_of pgdir T' e' Y').
  { intros q. unfold Y'. rewrite elem_of_difference, elem_of_union, (Hp q).
    assert (Hq' : q ∈ F \/ q ∈ tabs T <-> q ∈ F' \/ q ∈ tabs T' \/ exists x, up_vpn oldsz <= x < up_vpn newsz /\ frame_of (e' x) = q).
    { specialize (Hpg q). rewrite !elem_of_union in Hpg. tauto. }
    split.
    - intros ([HqF|[->|[HqT|(x & Hx & Hpx & <-)]]] & Hn); [|by left| |].
      + destruct (proj1 Hq' (or_introl HqF)) as [|[|(x & Hx & <-)]]; [done|by right; left|].
        right. right. exists x. split; [lia|]. split; [by apply Hnew|done].
      + destruct (proj1 Hq' (or_intror HqT)) as [|[|(x & Hx & <-)]]; [done|by right; left|].
        right. right. exists x. split; [lia|]. split; [by apply Hnew|done].
      + right. right. exists x. assert (x < up_vpn oldsz). { destruct (decide (x < up_vpn oldsz)); [done|]. rewrite Eout in Hpx by lia. done. }
        rewrite Hout by (unfold UPAGES in *; lia). done.
    - intros Hq. split; [|by apply (own_not_free _ _ _ _ _ _ Hu')]. destruct Hq as [->|[HqT|(x & Hx & Hpx & <-)]]; [auto| |].
      + destruct (proj2 Hq' (or_intror (or_introl HqT))); auto.
      + destruct (decide (x < up_vpn oldsz)).
        * right. right. right. exists x. rewrite Hout by (unfold UPAGES in *; lia). split; [done|]. split; [apply Ein; lia|done].
        * assert (Hxn : up_vpn oldsz <= x < up_vpn newsz) by (apply Hpre in Hpx; lia).
          destruct (proj2 Hq') as [|]; [right; right; eauto|auto|auto]. }
  assert (HFY : Y ## F').
  { intros q HY HF'. pose proof (aspace_apart s F pgdir e (up_vpn oldsz) Y) as Hap.
    apply (Hap (conj (Build_entries_ok _ _ _ Hb0 Ein Eout Ekern) (ex_intro _ T (conj Hu Hp))) q HY). by apply HF. }
  split; [split; [split; [done|intros x Hx; apply Hpre; lia| |]|by exists T']|].
  - intros x Hx. rewrite Hout by (unfold UPAGES in *; lia). apply Eout. lia.
  - intros x Hx. rewrite Hout by (unfold UPAGES in *; lia). by apply Ekern.
  - split; [|split; [clear -HFY; set_solver|]].
    + apply set_eq. intros q. unfold Y'. rewrite elem_of_union, elem_of_difference. destruct (decide (q ∈ F')); [|naive_solver].
      split; [intros _; apply elem_of_union_l; by apply HF|auto].
    + intros x Hx. destruct (Hin x Hx) as (p & HpF & E & Hz). destruct (alloc_perm_user p (Hpo p HpF)) as (A1 & A2 & A3).
      unfold user_page. rewrite E, A1, (proj2 (Z.eqb_neq _ _) A2). split; [done|]. split; [done|].
      by rewrite (proj1 (alloc_frame p (Hpo p HpF))).
Qed.

Lemma wp_space_alloc s F pgdir e oldsz newsz Y (Q : Z -> S -> Prop) :
  aspace s F pgdir e (up_vpn oldsz) Y -> 0 <= oldsz <= newsz -> newsz < KERNBASE ->
  (forall s' F' e' Y', aspace s' F' pgdir e' (up_vpn newsz) Y' -> F' ∪ Y' = F ∪ Y -> Y ⊆ Y' ->
     kept_bytes s e (up_vpn oldsz) s' e' -> new_pages s' e' (up_vpn oldsz) (up_vpn newsz) ->
     same_except (F ∪ Y) (pg_mem s) (pg_mem s') -> Q newsz s') ->
  (forall s' F' Y', Z.of_nat (size F) <= 1024 + (up_vpn newsz - up_vpn oldsz) -> aspace s' F' pgdir e (up_vpn oldsz) Y' -> F' ∪ Y' = F ∪ Y -> Y ⊆ Y' ->
     kept_bytes s e (up_vpn oldsz) s' e -> same_except (F ∪ Y) (pg_mem s) (pg_mem s') -> Q 0 s') ->
  wp (allocuvm pgdir oldsz newsz) s Q.
Proof.
  intros Ha Hsz Hk Hok Hbad. pose proof (up_vpn_mono oldsz newsz ltac:(lia)) as Hle. pose proof (up_vpn_bounds newsz ltac:(lia)) as Hb1.
  destruct Ha as (He & T & Hu & Hp) eqn:Eqa. clear Eqa.
  assert (Hsub : {[pgdir]} ∪ F ∪ tabs T ⊆ F ∪ Y).
  { intros q [[->%elem_of_singleton|?]%elem_of_union|?]%elem_of_union; [apply elem_of_union_r, Hp|by apply elem_of_union_l|apply elem_of_union_r, Hp]; auto. }
  unfold allocuvm. rewrite (proj2 (Z.leb_gt _ _)), (proj2 (Z.ltb_ge _ _)) by (unfold KERNBASE in *; lia).
  rewrite round_up_vpn by (unfold KERNBASE in *; lia).
  eapply (wp_alloc_loop oldsz newsz pgdir s F T e); [done|done| | | | | |lia|].
  - intros x Hx. apply (eo_out _ _ _ He). lia.
  - intros p HpF. by apply (pg_valid _ _ _ (vm_pg _ _ _ _ _ (u_vm _ _ _ _ _ Hu))).
  - intros s' F' T' e' Hai. destruct (alloc_space s F pgdir T e oldsz newsz Y s' F' T' e' Ha Hu Hp Hsz Hk Hai) as (H1 & H2 & H3 & H4).
    eapply Hok; [exact H1|done|done| |done|eapply same_except_weaken; [exact Hsub|apply Hai]].
    eapply kept_same; [exact Ha|lia|exact Hu| |apply (ai_same _ _ _ _ _ _ _ _ _ _ _ Hai)|done].
    intros x Hx. apply (ai_out _ _ _ _ _ _ _ _ _ _ _ Hai); [unfold UPAGES in *; lia|lia].
  - intros s' F' T' Hnn Hu' Hpg HT Hs. pose proof (aspace_apart _ _ _ _ _ _ Ha) as Hap.
    assert (Hp' : pages_of pgdir T' e ((F ∪ Y) ∖ F')).
    { intros q. specialize (Hp q). assert (Hq' : q ∈ F \/ q ∈ tabs T <-> q ∈ F' \/ q ∈ tabs T') by (rewrite <- !elem_of_union, Hpg; done).
      pose proof (own_not_free _ _ _ _ _ q Hu') as HF'.
      rewrite elem_of_difference, elem_of_union. clear -Hp Hq' HF'. tauto. }
    apply (Hbad s' F' ((F ∪ Y) ∖ F')).
    + done.
    + split; [done|]. by exists T'.
    + assert (HF' : F' ⊆ F ∪ Y) by (intros q Hq; apply Hsub; rewrite <- (assoc_L (∪)), <- Hpg; clear -Hq; set_solver).
      apply set_eq. intros q. rewrite elem_of_union, elem_of_difference. destruct (decide (q ∈ F')); [|naive_solver].
      split; [intros _; by apply HF'|auto].
    + intros q Hq. apply elem_of_difference. split; [by apply elem_of_union_r|]. intros HqF'. apply Hp in Hq.
      assert (Hn : q ∉ (F ∪ Y) ∖ F') by (rewrite elem_of_difference; tauto). apply Hn, Hp'.
      destruct Hq as [|[Hq|]]; [by left| |by right; right]. right. left. apply elem_tabs in Hq as [d Hd]. apply elem_tabs. exists d.
      by eapply lookup_weaken.
    + eapply kept_same; [exact Ha|lia|exact Hu|done|exact Hs|done].
    + eapply same_except_weaken; [exact Hsub|exact Hs].
  - split; try done; [intros x Hx; lia|]. intros p. split; [by left|]. intros [|(x & Hx & _)]; [done|lia].
  - pose proof (Z.div_mod newsz 4096 ltac:(lia)). pose proof (Z.mod_pos_bound newsz 4096 ltac:(lia)).
    assert (up_vpn newsz <= newsz / 4096 + 1) by (unfold up_vpn; apply Z.lt_succ_r, Z.div_lt_upper_bound; lia).
    pose proof (up_vpn_bounds oldsz ltac:(lia)). assert (0 <= newsz / 4096) by (apply Z.div_pos; lia). unfold PGSIZE. lia.
Qed.

Lemma wp_space_dealloc s F pgdir e oldsz newsz Y (Q : Z -> S -> Prop) :
  aspace s F pgdir e (up_vpn oldsz) Y -> 0 <= newsz < oldsz -> oldsz <= KERNBASE ->
  (forall s' F' e' Y', aspace s' F' pgdir e' (up_vpn newsz) Y' -> F' ∪ Y' = F ∪ Y -> Y' ⊆ Y ->
     kept_bytes s e (up_vpn newsz) s' e' -> same_except (F ∪ Y) (pg_mem s) (pg_mem s') -> Q newsz s') ->
  wp (deallocuvm pgdir oldsz newsz) s Q.
Proof.
  intros Ha Hsz Hk HQ. destruct Ha as (He & T & Hu & Hp) eqn:Eqa. clear Eqa. pose proof (up_vpn_mono newsz oldsz ltac:(lia)) as Hle.
  pose proof (up_vpn_bounds newsz ltac:(lia)) as Hb. destruct He as [Hb1 Ein Eout Ekern].
  apply (wp_deallocuvm s F pgdir T e); [done|done|done|]. set (e' := clear_range _ _ _). intros s' F' Hu' Hf Hs.
  assert (Hlow : forall x, x < up_vpn newsz -> e' x = e x) by (intros x Hx; unfold e', clear_range; by rewrite (proj2 (Z.leb_gt _ _))).
  assert (Hmid : forall x, up_vpn newsz <= x < up_vpn oldsz -> e' x = 0).
  { intros x Hx. unfold e', clear_range. rewrite (proj2 (Z.leb_le _ _)), (proj2 (Z.ltb_lt _ _)), Ein by lia. done. }
  assert (Hhigh : forall x, up_vpn oldsz <= x -> e' x = e x) by (intros x Hx; unfold e', clear_range; rewrite (proj2 (Z.ltb_ge _ _)), andb_false_r by lia; done).
  assert (Hpre : forall x, 0 <= x < UPAGES -> present (e' x) = true <-> x < up_vpn newsz).
  { intros x Hx. destruct (decide (x < up_vpn newsz)); [rewrite Hlow, Ein by lia; tauto|].
    destruct (decide (x < up_vpn oldsz)); [rewrite Hmid by lia; split; [done|lia]|]. rewrite Hhigh, Eout by lia. split; [done|lia]. }
  assert (Ha' : aspace s' F' pgdir e' (up_vpn newsz) (Y ∖ F')).
  { split.
    - split; [done|intros x Hx; apply Hpre; lia| |intros x Hx; rewrite Hhigh by lia; by apply Ekern].
      intros x Hx. destruct (decide (x < up_vpn oldsz)); [apply Hmid; lia|rewrite Hhigh by lia; apply Eout; lia].
    - exists T. split; [done|]. intros q. rewrite elem_of_difference, (Hp q), (Hf q). split.
      + intros [[|[|(x & Hx & Hpx & <-)]] Hn]; [by left|by right; left|]. right. right. exists x. split; [done|].
        destruct (decide (x < up_vpn newsz)) as [Hlt|Hge]; [by rewrite Hlow|]. exfalso. apply Hn. right. exists x. split; [|done].
        destruct (decide (x < up_vpn oldsz)); [lia|]. rewrite Eout in Hpx by lia. done.
      + intros Hq. assert (Hnf : q ∉ F') by (by apply (own_not_free _ _ _ _ _ _ Hu')).
        split; [|by rewrite <- (Hf q)]. destruct Hq as [|[|(x & Hx & Hpx & <-)]]; [by left|by right; left|].
        right. right. exists x. pose proof (proj1 (Hpre x Hx) Hpx) as Hlt. rewrite <- Hlow by done. done. }
  assert (HF' : F ⊆ F' /\ F' ⊆ F ∪ Y).
  { split; intros q Hq; [apply Hf; by left|]. apply Hf in Hq as [|(x & Hx & Hpx & <-)]; [by apply elem_of_union_l|].
    apply elem_of_union_r, Hp. right. right. exists x. split; [lia|done]. }
  assert (HsY : same_except (F ∪ Y) (pg_mem s) (pg_mem s')).
  { eapply same_except_weaken; [|exact Hs]. intros q [?|?]%elem_of_union; [by apply HF'|apply elem_of_union_r, Hp; auto]. }
  eapply HQ; [exact Ha'| |clear; set_solver| |done].
  - apply set_eq. intros q. rewrite elem_of_union, elem_of_difference. destruct (decide (q ∈ F')); [split; [intros _; by apply HF'|auto]|].
    rewrite elem_of_union. split; [naive_solver|]. intros [HqF|]; [|auto]. by apply HF' in HqF.
  - intros va Hva. pose proof (vpn_of va _ Hva) as Hv. rewrite Hlow by lia. split; [done|].
    assert (E : uaddr e' va = uaddr e va) by (unfold uaddr; by rewrite Hlow by lia). rewrite E.
    eapply same_bytes; [exact Ha|exact Hs|lia|]. rewrite <- Hlow by lia.
    destruct (u_frame _ _ _ _ _ Hu' (va / 4096)) as (_ & _ & H); [lia|apply Hpre; lia|]. clear -H. set_solver.
Qed.

(** The child's user bytes are the parent's, page by page with the same flags. *)
Definition copied_bytes s e (n : Z) s' ed : Prop :=
  forall va, 0 <= va < 4096 * n ->
    PTE_FLAGS (ed (va / 4096)) = Z.lor (PTE_FLAGS (e (va / 4096))) PTE_P /\ pg_mem s' (uaddr ed va) = pg_mem s (uaddr e va).

Lemma flags_mkpte q fl : page_ok pg_end q -> 0 <= fl < 4096 -> PTE_FLAGS (mkpte (V2P q) fl) = Z.lor fl PTE_P.
Proof.
  intros Hq Hf. destruct (V2P_page pg_end pg_end_ok q Hq) as (Hm & _ & H0 & _). unfold mkpte. rewrite <- Z.lor_assoc.
  unfold PTE_FLAGS. rewrite Z.land_lor_distr_l, (land_low _ _ 12) by (lia || done). rewrite Z.lor_0_l.
  change 4095 with (Z.ones 12). rewrite Z.land_lor_distr_l, !Z.land_ones by lia. rewrite (Z.mod_small fl) by lia. done.
Qed.

Lemma copy_space s F pgdir e n Y d s' F' T' ed :
  aspace s F pgdir e n Y -> copy_inv (kern_pte data) s F e d s' F' T' ed n ->
  aspace s' F' d ed n (F ∖ F') /\ aspace s' F' pgdir e n Y /\ F' ∪ (F ∖ F') = F /\ copied_bytes s e n s' ed.
Proof.
  intros Ha Hc. pose proof (copy_inv_sub _ _ _ _ _ _ _ _ _ _ Hc) as Hsub. pose proof (aspace_apart _ _ _ _ _ _ Ha) as Hap.
  destruct Hc as [Hu Hsame Hin Hout Hpgs]. pose proof (proj1 Ha) as [Hn Ein Eout Ekern].
  assert (Hpx : forall x, 0 <= x < n -> present (ed x) = true) by (intros x Hx; destruct (Hin x Hx) as (q & _ & _ & -> & _); apply mkpte_present).
  assert (HF' : F' ⊆ F) by (clear -Hsub; set_solver).
  split_and!.
  - split.
    + split; [done|done| |intros x Hx; apply Hout; lia]. intros x Hx. rewrite Hout by (unfold UPAGES in *; lia). apply kern_pte_user; [done|lia].
    + exists T'. split; [done|]. intros q. rewrite elem_of_difference, (Hpgs q). split.
      * intros [[|[[|]%elem_of_union|(x & Hx & <-)]] Hnf]; [by left|done|by right; left|]. right. right. exists x. split; [lia|auto].
      * intros Hq. split; [|by apply (own_not_free _ _ _ _ _ _ Hu)]. destruct Hq as [|[|(x & Hx & Hp & <-)]]; [by left|right; left; by apply elem_of_union_r|].
        right. right. exists x. split; [|done]. split; [lia|]. destruct (decide (x < n)); [done|]. rewrite Hout in Hp by (unfold UPAGES in *; lia).
        rewrite kern_pte_user in Hp by (done || lia). done.
  - eapply aspace_other; [exact Ha|apply (vm_pg _ _ _ _ _ (u_vm _ _ _ _ _ Hu))|exact Hsame|]. clear -Hap HF'. set_solver.
  - apply set_eq. intros q. rewrite elem_of_union, elem_of_difference. destruct (decide (q ∈ F')); [split; [intros _; by apply HF'|auto]|naive_solver].
  - intros va Hva. pose proof (vpn_of va _ Hva) as Hv. destruct (Hin (va / 4096) Hv) as (q & HqF & Hqo & E & Hcp).
    pose proof (flags_range (e (va / 4096))) as Hfl. unfold uaddr. rewrite E, flags_mkpte, frame_mkpte by done. split; [done|].
    apply Hcp. unfold PGSIZE. pose proof (Z.mod_pos_bound va 4096). lia.
Qed.

Lemma wp_space_copy s F pgdir e sz Y (Q : Z -> S -> Prop) :
  aspace s F pgdir e (up_vpn sz) Y -> 0 <= sz <= KERNBASE ->
  (forall r s' F' ed Yd, r <> 0 -> aspace s' F' r ed (up_vpn sz) Yd -> aspace s' F' pgdir e (up_vpn sz) Y -> F' ∪ Yd = F ->
     copied_bytes s e (up_vpn sz) s' ed -> same_except F (pg_mem s) (pg_mem s') -> Q r s') ->
  (forall s' X, Z.of_nat (size F) <= 1025 + up_vpn sz -> aspace s' (F ∖ X) pgdir e (up_vpn sz) Y -> (X = ∅ \/ exists q, q ∈ F /\ X = {[q]}) ->
     same_except F (pg_mem s) (pg_mem s') -> Q 0 s') ->
  wp (copyuvm data pgdir sz) s Q.
Proof.
  intros Ha Hsz Hok Hbad. pose proof (aspace_apart _ _ _ _ _ _ Ha) as Hap. pose proof Ha as ([_ Ein _ _] & T & Hu & _).
  unfold copyuvm. wp_step. apply (wp_setupkvm s F data); [by eapply aspace_rep|done| |].
  { intros s1 Hn Hs1 Hm. change (0 =? 0) with true. cbv iota. wp_step. apply (Hbad s1 ∅); [pose proof (up_vpn_bounds sz Hsz); lia| |by left|done].
    rewrite difference_empty_L. eapply aspace_other; [exact Ha|done|exact Hm|]. clear -Hap. set_solver. }
  intros d s1 F1 T1 HdF Hu1 Hp1 Hm1. pose proof (pg_valid _ _ _ (aspace_rep _ _ _ _ _ _ Ha) HdF) as (_ & Hdr & _).
  pose proof pg_end_ok as Hk. assert (Hd0 : d <> 0) by (unfold KERNBASE in Hk; lia). rewrite (proj2 (Z.eqb_neq d 0) Hd0).
  wp_step. change (copyuvm_loop ?f pgdir d 0 sz) with (copyuvm_loop f pgdir d (4096 * 0) sz).
  assert (Hfail : forall s2 (X : gset Z), (X = ∅ \/ exists r, r ∈ F /\ X = {[r]}) -> Z.of_nat (size F) <= 1025 + up_vpn sz -> gives_back s F d X s2 -> wp (freevm d;; mret 0) s2 Q).
  { intros s2 X HX Hn Hg. wp_step. apply Hg. intros s3 Hs3 Hm3. wp_step. apply (Hbad s3 X); [done| |done|done].
    eapply aspace_other; [exact Ha|done|exact Hm3|]. clear -Hap. set_solver. }
  eapply (wp_copy_loop (kern_pte data) s F pgdir T e d sz);
    [done|intros x Hx; apply kern_pte_user; [done|lia]|lia|done| | | |by eapply copy_inv_init|pose proof (up_vpn_bounds sz Hsz); lia|].
  - intros s2 F2 T2 ed Hc. cbv iota. wp_step. destruct (copy_space _ _ _ _ _ _ _ _ _ _ _ Ha Hc) as (H1 & H2 & H3 & H4).
    eapply Hok; [done|exact H1|exact H2|exact H3|exact H4|apply Hc].
  - intros s2 Hn Hg. apply (Hfail s2 ∅); [by left|done|done].
  - intros r s2 Hr Hn Hg. apply (Hfail s2 {[r]}); [right; eauto|done|done].
  - pose proof (Z.div_mod sz 4096 ltac:(lia)). pose proof (Z.mod_pos_bound sz 4096 ltac:(lia)).
    assert (up_vpn sz <= sz / 4096 + 1) by (unfold up_vpn; apply Z.lt_succ_r, Z.div_lt_upper_bound; lia).
    assert (0 <= sz / 4096) by (apply Z.div_pos; lia). unfold PGSIZE. lia.
Qed.

(** The first bytes of a page are copied to it. *)
Lemma memmove_start m q src n : mem_bytes m -> page_ok pg_end q -> 0 <= src -> 0 <= n < PGSIZE -> src + n < 2 ^ 32 ->
  (forall i, 0 <= i < PGSIZE -> memmove m q src n (q + i) = if i <? n then m (src + i) else m (q + i)) /\
  same_except {[q]} m (memmove m q src n) /\ mem_bytes (memmove m q src n).
Proof.
  intros Hm Hq Hs Hn Hsn. pose proof (page_range pg_end q (proj1 pg_end_ok) Hq) as Hqr. unfold KERNBASE, PHYSTOP, PGSIZE in *.
  assert (E : forall a, memmove m q src n a = if in_range a q n then m (src + (a - q)) else m a) by (intros a; apply memmove_spec; try done; lia).
  split; [|split].
  - intros i Hi. rewrite E. unfold in_range. rewrite (proj2 (Z.leb_le q (q + i))) by lia.
    destruct (Z.ltb_spec i n), (Z.ltb_spec (q + i) (q + n)); try lia; simpl; [|done]. f_equal. lia.
  - intros p a Hp Hnp Ha. rewrite E. unfold in_range. destruct (Z.leb_spec q a), (Z.ltb_spec a (q + n)); simpl; try done.
    exfalso. apply (pages_apart p q a); try done; [apply Hq|clear -Hnp; set_solver|]. unfold in_page, PGSIZE. lia.
  - intros a. rewrite E. destruct (in_range _ _ _); apply Hm.
Qed.

(** [inituvm] puts the first page in place: the program, then zeros. *)
Lemma wp_space_init s F pgdir Y init sz (Q : () -> S -> Prop) :
  aspace s F pgdir (kern_pte data) 0 Y -> (2 <= size F)%nat -> 0 <= sz < PGSIZE -> 0 <= init -> init + sz < 2 ^ 32 ->
  (forall q i, q ∈ F ∪ Y -> 0 <= i < sz -> ~ in_page q (init + i)) ->
  (forall s' F' e Y', aspace s' F' pgdir e 1 Y' -> F' ∪ Y' = F ∪ Y -> same_except (F ∪ Y) (pg_mem s) (pg_mem s') ->
     user_page e 0 = true -> Z.land (e 0) PTE_W <> 0 ->
     (forall i, 0 <= i < PGSIZE -> pg_mem s' (uaddr e i) = if i <? sz then pg_mem s (init + i) else 0) -> Q () s') ->
  wp (inituvm pgdir init sz) s Q.
Proof.
  intros Ha HF Hsz Hi His Hap HQ. pose proof Ha as (He & T & Hu & Hp). pose proof (u_vm _ _ _ _ _ Hu) as Hvm.
  unfold inituvm. rewrite (proj2 (Z.leb_gt _ _)) by lia. wp_step. eapply (pg_kalloc_spec _ _ _ (vm_pg _ _ _ _ _ Hvm)).
  { intros -> s1. rewrite size_empty in HF. lia. }
  intros r s1 Hr Hs1 Em. pose proof (pg_valid _ _ _ (vm_pg _ _ _ _ _ Hvm) Hr) as Hro. unfold vm_memset. do 3 wp_step.
  assert (Huz : uvm (pg_setmem (memset (pg_mem s1) r 0 PGSIZE) s1) (F ∖ {[r]}) pgdir T (kern_pte data)).
  { apply (uvm_take s); try done; [rewrite Em; by apply memset_same|]. rewrite Em. apply memset_bytes; [|done]. apply (pg_bytes _ _ (vm_pg _ _ _ _ _ Hvm)). }
  destruct (V2P_page pg_end pg_end_ok r Hro) as (_ & _ & Hp0 & Hp1). unfold PHYSTOP in Hp1.
  assert (Hnp : present (kern_pte data 0) = false) by (by rewrite kern_pte_user).
  change (mappages pgdir 0) with (mappages pgdir (4096 * 0)). apply (wp_map1_ok _ _ _ _ _ _ _ _ _ (u_vm _ _ _ _ _ Huz)); [lia|lia|vm_compute; intuition congruence|done| |].
  { intros E. assert (size (F ∖ {[r]}) = 0%nat) as Hz by (by rewrite E, size_empty). rewrite size_difference, size_singleton in Hz by (clear -Hr; set_solver). lia. }
  intros s2 F2 T2 H2 Hex _. assert (Hai : alloc_inv pgdir s F T (kern_pte data) s2 F2 T2 (upd (kern_pte data) 0 (mkpte (V2P r) (Z.lor PTE_W PTE_U))) (up_vpn 0) (up_vpn 4096)).
  { change (up_vpn 4096) with (0 + 1). change (up_vpn 0) with 0. eapply (alloc_inv_step pgdir s F T _ s F T _ 0 0 s1 r); try done; try (unfold UPAGES; lia).
    - split; try done; [intros x Hx; lia|]. intros p. split; [by left|]. intros [|(x & Hx & _)]; [done|lia].
    - intros p HpF. by apply (pg_valid _ _ _ (vm_pg _ _ _ _ _ Hvm)). }
  set (e := upd (kern_pte data) 0 _) in *.
  destruct (alloc_space s F pgdir T (kern_pte data) 0 4096 Y s2 F2 T2 e Ha Hu Hp ltac:(lia) ltac:(unfold KERNBASE; lia) Hai) as (A1 & A2 & _ & A4).
  change (up_vpn 4096) with 1 in A1, A4. change (up_vpn 0) with 0 in A4. set (Y' := (F ∪ Y) ∖ F2) in *.
  destruct (A4 0 ltac:(lia)) as (U1 & U2 & U3). assert (Ef : frame_of (e 0) = r) by (apply alloc_frame; done).
  assert (Hsub : {[pgdir]} ∪ F ∪ tabs T ⊆ F ∪ Y).
  { intros q [[->%elem_of_singleton|?]%elem_of_union|?]%elem_of_union; [apply elem_of_union_r, Hp|by apply elem_of_union_l|apply elem_of_union_r, Hp]; auto. }
  assert (Hs2 : same_except (F ∪ Y) (pg_mem s) (pg_mem s2)) by (eapply same_except_weaken; [exact Hsub|apply (ai_same _ _ _ _ _ _ _ _ _ _ _ Hai)]).
  cbv beta. unfold vm_memmove. apply wp_modify. pose proof (aspace_rep _ _ _ _ _ _ A1) as Hr2.
  destruct (memmove_start (pg_mem s2) r init sz (pg_bytes _ _ Hr2) Hro Hi Hsz His) as (M1 & M2 & M3). rewrite <- Ef in M2 at 1.
  destruct (aspace_write s2 F2 pgdir e 1 Y' 0 _ A1 ltac:(unfold UPAGES; lia) (eo_in _ _ _ (proj1 A1) 0 ltac:(lia)) M2 M3) as [B1 B2].
  apply (HQ _ F2 e Y'); try done.
  - rewrite pg_mem_set. eapply same_except_weaken; [|eapply same_except_trans; [exact Hs2|exact M2]]. rewrite Ef. clear -Hr. set_solver.
  - intros i Hii. unfold uaddr. rewrite (Z.div_small i), (Z.mod_small i) by (unfold PGSIZE in Hii; lia). rewrite Ef, pg_mem_set, M1 by done.
    destruct (Z.ltb_spec i sz); [|rewrite <- Ef; apply U3; rewrite Ef; unfold in_page, PGSIZE in *; lia].
    apply (outside_same (F ∪ Y)); [done|]. intros q Hq. apply (Hap q i Hq). lia.
Qed.
End space.
