(* ===== verification/VmDemo.v ===== *)
(** A concrete address space on the page allocator of [Kalloc], at which the
    theorems about page tables are evaluated. *)

From S2P Require Import Prelude CString Spinlock Kalloc Vm VmRep VmUser VmCopy VmOut.

Section build.
Context {S : Type} `{!PageOps S} `{!PageLayer S}.
Implicit Types (s : S) (F : gset Z).

Lemma take_page s F : pg_rep s F -> F <> ∅ ->
  exists r s', r ∈ F /\ pg_rep s' (F ∖ {[r]}) /\ pg_mem s' = pg_mem s.
Proof.
  intros Hs HF. assert (W : wp pg_kalloc s (fun r s' => r ∈ F /\ pg_rep s' (F ∖ {[r]}) /\ pg_mem s' = pg_mem s)).
  { eapply pg_kalloc_spec; [exact Hs|done|auto]. }
  apply wp_elim in W as (r & s' & _ & W). exists r, s'. exact W.
Qed.

Lemma size_take (F : gset Z) r : r ∈ F -> size F = Datatypes.S (size (F ∖ {[r]})).
Proof. intros Hr. rewrite size_difference by set_solver. rewrite size_singleton. pose proof (size_non_empty_iff F). assert (size F <> 0%nat) by set_solver. lia. Qed.

(** Leave [k] free pages. *)
Lemma drain n : forall s F k, pg_rep s F -> size F = (k + n)%nat ->
  exists s' F', pg_rep s' F' /\ F' ⊆ F /\ size F' = k /\ pg_mem s' = pg_mem s.
Proof.
  induction n as [|n IH]; intros s F k Hs Hn.
  - exists s, F. split_and!; try done. lia.
  - destruct (take_page s F Hs) as (r & s1 & Hr & Hs1 & Em); [intros ->; rewrite size_empty in Hn; lia|].
    destruct (IH s1 (F ∖ {[r]}) k Hs1) as (s2 & F2 & Hs2 & Hsub & Hk & Em2); [rewrite (size_take F r Hr) in Hn; lia|].
    exists s2, F2. split_and!; try done; [set_solver|congruence].
Qed.

(** An empty address space. *)
Lemma build_empty s F : pg_rep s F -> (0 < size F)%nat ->
  exists s' F' r, uvm s' F' r ∅ (fun _ => 0) /\ size F = Datatypes.S (size F').
Proof.
  intros Hs Hn. destruct (take_page s F Hs) as (r & s1 & Hr & Hs1 & Em); [intros ->; rewrite size_empty in Hn; lia|].
  destruct (uvm_new s s1 F r Hs Hr Hs1 Em) as [Hu _]. exists (pg_setmem (memset (pg_mem s1) r 0 PGSIZE) s1), (F ∖ {[r]}), r.
  split; [exact Hu|exact (size_take F r Hr)].
Qed.

(** An address space with one user page, at address 0. *)
Definition one_user (q : Z) : Z -> Z := upd (fun _ => 0) 0 (mkpte (V2P q) (Z.lor PTE_W PTE_U)).

Lemma build_user s F : pg_rep s F -> (3 <= size F)%nat ->
  exists s' F' r T q, uvm s' F' r T (one_user q) /\ page_ok pg_end q /\ (size F <= size F' + 3)%nat.
Proof.
  intros Hs Hn. destruct (build_empty s F Hs ltac:(lia)) as (s1 & F1 & r & Hu & Hsz). pose proof (u_vm _ _ _ _ _ Hu) as Hvm.
  destruct (take_page s1 F1 (vm_pg _ _ _ _ _ Hvm)) as (q & s2 & Hq & Hs2 & Em); [intros ->; rewrite size_empty in Hsz; lia|].
  pose proof (pg_valid _ _ _ (vm_pg _ _ _ _ _ Hvm) Hq) as Hqo. pose proof (size_take F1 q Hq) as Hsz2.
  set (sz := pg_setmem (memset (pg_mem s1) q 0 PGSIZE) s2).
  assert (Huz : uvm sz (F1 ∖ {[q]}) r ∅ (fun _ => 0)).
  { apply (uvm_take s1); try done; [by apply memset_same|]. apply memset_bytes; [|done]. apply (pg_bytes _ _ (vm_pg _ _ _ _ _ Hvm)). }
  destruct (V2P_page pg_end pg_end_ok q Hqo) as (_ & _ & Hp0 & Hp1). unfold PHYSTOP in Hp1.
  assert (W : wp (mappages r (4096 * 0) PGSIZE (V2P q) (Z.lor PTE_W PTE_U)) sz (fun _ s' => exists F' T',
    uvm s' F' r T' (one_user q) /\ (size (F1 ∖ {[q]}) <= Datatypes.S (size F'))%nat)).
  { apply (wp_map1_ok sz (F1 ∖ {[q]}) r ∅ (fun _ => 0)); [apply Huz|lia|lia|vm_compute; intuition congruence|done| |].
    - intros E. rewrite E, size_empty in Hsz2. lia.
    - intros s3 F3 T3 H3 Hex Hsz3. exists F3, T3. split; [|done].
      apply (uvm_map sz s3 (F1 ∖ {[q]}) F3 r ∅ T3 (fun _ => 0) 0 q); try done; try (vm_compute; intuition congruence).
      exact (free_apart _ _ _ _ _ _ Hvm Hq). }
  apply wp_elim in W as (x & s3 & _ & F3 & T3 & Hu3 & Hsz3). exists s3, F3, r, T3, q. split_and!; [exact Hu3|exact Hqo|lia].
Qed.
End build.

(** The allocator with the ten pages from [demo_page] on free. *)
Definition demo_ops : PageOps kst := kst_ops 1 [] demo_kend.
Definition demo_layer : @PageLayer kst demo_ops := kst_layer 1 [] demo_kend demo_kend_ok eq_refl.

Lemma demo_free_pages : exists s F, @pg_rep kst demo_ops demo_layer s F /\ size F = 10%nat.
Proof.
  set (s0 := mk_kst (p_mach (sp_init [0; 1])) true 0 (fun _ => 0)).
  assert (Hr : kst_rep 1 demo_kend s0 ∅).
  { split; [exists []; split_and!; [done|constructor|done]|set_solver|intros i; simpl; lia|].
    split; [|reflexivity]. apply boot_cli; [apply (bool_decide_unpack _); vm_compute; exact I|set_solver]. }
  assert (W : wp (freerange 1 [] demo_kend demo_page (demo_page + 40960)) s0 (fun _ s => kst_rep 1 demo_kend s (pages_between demo_page (demo_page + 40960) ∪ ∅))).
  { apply (wp_freerange 1 [] demo_kend demo_kend_ok _ _ _ ∅); done. }
  apply wp_elim in W as ([] & s & _ & Hs). rewrite (right_id_L ∅ (∪)) in Hs. exists s. eexists. split; [exact Hs|].
  vm_compute. reflexivity.
Qed.

(** ** The theorems at the demonstration address space *)

Lemma demo_empty : exists s F r, @uvm kst demo_ops demo_layer s F r ∅ (fun _ => 0) /\ size F = 9%nat.
Proof.
  destruct demo_free_pages as (s & F & Hs & Hn).
  destruct (@build_empty kst demo_ops demo_layer s F Hs ltac:(lia)) as (s' & F' & r & Hu & Hsz). exists s', F', r. split; [done|lia].
Qed.

Lemma demo_user : exists s F r T q, @uvm kst demo_ops demo_layer s F r T (one_user q) /\ page_ok demo_kend q /\ (7 <= size F)%nat.
Proof.
  destruct demo_free_pages as (s & F & Hs & Hn).
  destruct (@build_user kst demo_ops demo_layer s F Hs ltac:(lia)) as (s' & F' & r & T & q & Hu & Hq & Hsz). exists s', F', r, T, q. split_and!; [done|done|lia].
Qed.

Lemma mappages_correct_witness :
  exists s r x s', @mappages kst demo_ops r 4096 8192 65536 2 s = Ok x s' /\ (x = 0 \/ x = -1).
Proof.
  destruct demo_empty as (s & F & r & Hu & _).
  destruct (@mappages_correct kst demo_ops demo_layer s F r ∅ (fun _ => 0) 4096 8192 65536 2 (u_vm _ _ _ _ _ Hu))
    as (x & s' & F' & T' & k & Hrun & _ & _ & Hx); [discriminate|discriminate|discriminate|discriminate|reflexivity|lia|reflexivity|].
  exists s, r, x, s'. split; [exact Hrun|]. destruct Hx as [[Hx _]|[Hx _]]; [left; exact Hx|right; exact Hx].
Defined.

Lemma mappages_remap_witness : exists s r, @mappages kst demo_ops r 0 4096 65536 2 s = Panic "remap".
Proof.
  destruct demo_user as (s & F & r & T & q & Hu & _). exists s, r.
  apply (@mappages_remap kst demo_ops demo_layer s F r T (one_user q) 0 4096 65536 2 (u_vm _ _ _ _ _ Hu)).
  - discriminate.
  - discriminate.
  - discriminate.
  - apply mkpte_present.
Defined.

Lemma deallocuvm_correct_witness :
  exists s s' (F F' : gset Z) r q, @deallocuvm kst demo_ops r 4096 0 s = Ok 0 s' /\ freed (one_user q) 0 1 F F' /\ frame_of (one_user q 0) ∈ F'.
Proof.
  destruct demo_user as (s & F & r & T & q & Hu & _).
  destruct (@deallocuvm_correct kst demo_ops demo_layer s F r T (one_user q) 4096 0 Hu) as (s' & F' & Hrun & _ & Hf & _).
  - discriminate.
  - vm_compute. intuition congruence.
  - exists s, s', F, F', r, q. split; [exact Hrun|]. split; [exact Hf|]. apply Hf. right. exists 0. split; [vm_compute; intuition congruence|].
    split; [apply mkpte_present|reflexivity].
Defined.

Lemma allocuvm_correct_witness :
  exists s r x s', @allocuvm kst demo_ops r 100 9000 s = Ok x s' /\ (x = 9000 \/ x = 0).
Proof.
  destruct demo_user as (s & F & r & T & q & Hu & _).
  destruct (@allocuvm_correct kst demo_ops demo_layer s F r T (one_user q) 100 9000 Hu) as (x & s' & F' & T' & e' & Hrun & _ & _ & _ & _ & Hx).
  - lia.
  - reflexivity.
  - change (up_vpn 100) with 1. intros x Hx. unfold one_user. rewrite upd_ne by lia. reflexivity.
  - exists s, r, x, s'. split; [exact Hrun|]. destruct Hx as [[Hx _]|[Hx _]]; [left; exact Hx|right; exact Hx].
Defined.

Lemma freevm_correct_witness :
  exists s s' (F F' : gset Z) r T q, @freevm kst demo_ops r s = Ok () s' /\ freed_all r T (one_user q) F F' /\ r ∈ F'.
Proof.
  destruct demo_user as (s & F & r & T & q & Hu & _).
  destruct (@freevm_correct kst demo_ops demo_layer s F r T (one_user q) Hu) as (s' & F' & Hrun & _ & Hf & _).
  exists s, s', F, F', r, T, q. split; [exact Hrun|]. split; [exact Hf|]. apply Hf. right. left. reflexivity.
Defined.

(** The [data] symbol of the demonstration kernel. *)
Definition demo_data : Z := KERNBASE + EXTMEM + 36864.

Lemma demo_data_ok : data_ok demo_data.
Proof. vm_compute. intuition congruence. Qed.

Lemma setupkvm_correct_witness :
  exists (s : kst) (F : gset Z) r s', @setupkvm kst demo_ops demo_data s = Ok r s' /\
    (r = 0 /\ @pg_rep kst demo_ops demo_layer s' F \/ r ∈ F).
Proof.
  destruct demo_free_pages as (s & F & Hs & _).
  destruct (@setupkvm_correct kst demo_ops demo_layer s F demo_data Hs demo_data_ok) as (r & s' & Hrun & _ & Hr).
  exists s, F, r, s'. split; [exact Hrun|]. destruct Hr as [Hr|[Hr _]]; [left; exact Hr|right; exact Hr].
Defined.

Lemma one_user_present q x : 0 <= x < up_vpn 4096 -> present (one_user q x) = true.
Proof. change (up_vpn 4096) with 1. intros Hx. assert (x = 0) as -> by lia. apply mkpte_present. Qed.

Lemma copyuvm_correct_witness :
  exists (s : kst) (F : gset Z) pg T q r s' F', @copyuvm kst demo_ops demo_data pg 4096 s = Ok r s' /\ @uvm kst demo_ops demo_layer s' F' pg T (one_user q) /\
    (r ∈ F \/ r = 0).
Proof.
  destruct demo_user as (s & F & pg & T & q & Hu & _).
  destruct (@copyuvm_correct kst demo_ops demo_layer s F demo_data pg T (one_user q) 4096 Hu demo_data_ok) as (r & s' & F' & Hrun & Hu' & _ & Hr).
  - vm_compute. intuition congruence.
  - exact (one_user_present q).
  - exists s, F, pg, T, q, r, s', F'. split; [exact Hrun|]. split; [exact Hu'|].
    destruct Hr as [[Hr _]|[Hr _]]; [left; exact Hr|right; exact Hr].
Defined.

(** A parent with one page, a child with an empty page table, and one free
    page. *)
Lemma demo_fork : exists s0 F0 pg T0 q s d r, @uvm kst demo_ops demo_layer s0 F0 pg T0 (one_user q) /\
  @copy_inv kst demo_ops demo_layer (fun _ => 0) s0 F0 (one_user q) d s {[r]} ∅ (fun _ => 0) 0.
Proof.
  destruct demo_user as (s & F & pg & T & q & Hu & _ & Hn).
  destruct (@drain kst demo_ops demo_layer (size F - 2) s F 2 (vm_pg _ _ _ _ _ (u_vm _ _ _ _ _ Hu)) ltac:(lia)) as (s0 & F0 & Hs0 & Hsub & Hsz & Em).
  assert (Hu0 : @uvm kst demo_ops demo_layer s0 F0 pg T (one_user q)).
  { apply (@uvm_frame kst demo_ops demo_layer s s0 F F0); try done. rewrite Em. apply same_except_refl. }
  destruct (@take_page kst demo_ops demo_layer s0 F0 Hs0) as (d & s1 & Hd & Hs1 & Em1); [intros ->; rewrite size_empty in Hsz; lia|].
  destruct (@uvm_new kst demo_ops demo_layer s0 s1 F0 d Hs0 Hd Hs1 Em1) as [Hc Hz].
  pose proof (size_take F0 d Hd) as Hsz1. assert (Hone : size (F0 ∖ {[d]}) = 1%nat) by lia.
  apply size_1_elem_of in Hone as [r Hr]. apply leibniz_equiv in Hr.
  exists s0, F0, pg, T, q, (@pg_setmem kst demo_ops (memset (@pg_mem kst demo_ops s1) d 0 PGSIZE) s1), d, r. split; [exact Hu0|].
  rewrite Hr in Hc. apply (@copy_inv_init kst demo_ops demo_layer); try done.
  - rewrite Hr. unfold tabs. rewrite map_img_empty_L. by rewrite (right_id_L ∅ (∪)).
  - rewrite (@pg_mem_set kst demo_ops demo_layer). eapply same_except_weaken; [|exact Hz]. set_solver.
Qed.

Lemma copyuvm_leak_witness :
  exists pg s d s1 s2 (F0 : gset Z) r, @copyuvm_loop kst demo_ops 2 pg d 0 4096 s = Ok false s1 /\ @freevm kst demo_ops d s1 = Ok () s2 /\
    r ∈ F0 /\ @pg_rep kst demo_ops demo_layer s2 (F0 ∖ {[r]}).
Proof.
  destruct demo_fork as (s0 & F0 & pg & T0 & q & s & d & r & Hu & Hc).
  destruct (@copyuvm_leak kst demo_ops demo_layer s0 F0 pg T0 (one_user q) d s ∅ (fun _ => 0) (fun _ => 0) 0 4096 r 1 Hu)
    as (s1 & s2 & H1 & H2 & H3 & H4).
  - reflexivity.
  - discriminate.
  - exact (one_user_present q).
  - exact Hc.
  - vm_compute. intuition congruence.
  - reflexivity.
  - exists pg, s, d, s1, s2, F0, r. split; [exact H1|]. split; [exact H2|]. split; [exact H3|exact H4].
Defined.

Lemma copyout_correct_witness :
  exists s s' pg q, @copyout kst demo_ops pg 10 100 20 s = Ok 0 s' /\
    @pg_mem kst demo_ops s' (uaddr (one_user q) 12) = @pg_mem kst demo_ops s 102.
Proof.
  destruct demo_user as (s & F & pg & T & q & Hu & Hq & _).
  assert (Hf : frame_of (one_user q 0) = q) by (apply (@alloc_frame kst demo_ops demo_layer), Hq).
  assert (Hl : 10 / 4096 = 0 /\ last_vpn 10 20 = 0) by (split; reflexivity). destruct Hl as [Hl1 Hl2].
  destruct (@copyout_correct kst demo_ops demo_layer s F pg T (one_user q) 10 100 20 Hu) as (s' & Hrun & _ & Hi & _).
  - discriminate.
  - discriminate.
  - discriminate.
  - discriminate.
  - reflexivity.
  - intros v Hv. rewrite Hl1, Hl2 in Hv. assert (v = 0) as -> by lia. apply andb_true_iff. split; [apply mkpte_present|].
    unfold one_user. rewrite upd_eq. unfold mkpte. apply negb_true_iff, Z.eqb_neq. intros E.
    apply (f_equal (fun x => Z.testbit x 2)) in E. rewrite Z.land_spec, !Z.lor_spec in E. rewrite orb_true_r in E. discriminate E.
  - intros v i Hv Hin. rewrite Hl1, Hl2 in Hv. assert (v = 0) as -> by lia. rewrite Hf.
    pose proof (page_range demo_kend q (proj1 demo_kend_ok) Hq) as Hr. unfold in_page, KERNBASE in *. lia.
  - exists s, s', pg, q. split; [exact Hrun|]. apply (Hi 2). lia.
Defined.

Lemma copyout_protected_witness : exists s pg, @copyout kst demo_ops pg 4096 100 20 s = Ok (-1) s.
Proof.
  destruct demo_user as (s & F & pg & T & q & Hu & Hq & _).
  destruct (@present_tab kst demo_ops demo_layer s F pg T (one_user q) 0 (u_vm _ _ _ _ _ Hu)) as [pt Hpt]; [lia|apply mkpte_present|].
  exists s, pg. apply (@copyout_protected kst demo_ops demo_layer s F pg T (one_user q) 4096 100 20 pt Hu).
  - vm_compute. intuition congruence.
  - reflexivity.
  - exact Hpt.
  - reflexivity.
Defined.

Lemma clearpteu_correct_witness :
  exists s s' pg, @clearpteu kst demo_ops pg 5 s = Ok () s'.
Proof.
  destruct demo_user as (s & F & pg & T & q & Hu & Hq & _).
  assert (He : forall v, 0 <= one_user q v < 2 ^ 32).
  { intros v. unfold one_user, upd. destruct (v =? 0); [|lia].
    destruct (V2P_page demo_kend demo_kend_ok q Hq) as (_ & _ & Hp0 & Hp1). unfold PHYSTOP in Hp1.
    apply mkpte_range; [lia|vm_compute; intuition congruence]. }
  pose proof (@clearpteu_correct kst demo_ops demo_layer s F pg T (one_user q) 5 (u_vm _ _ _ _ _ Hu) ltac:(lia) He) as H.
  destruct (@present_tab kst demo_ops demo_layer s F pg T (one_user q) 0 (u_vm _ _ _ _ _ Hu)) as [pt Hpt]; [lia|apply mkpte_present|].
  change (PDX 5) with 0 in H. change (PDX (4096 * 0)) with 0 in Hpt. rewrite Hpt in H. destruct H as (s' & Hrun & _).
  exists s, s', pg. exact Hrun.
Defined.
