(* ===== verification/Ulib.v ===== *)
(** The user library's string routines ([ulib.c]).

    A string that is only read is the list of its bytes before the NUL, so
    that reading the NUL is reaching the end of the list; the routines that
    store through a pointer work on the flat memory of [CString].  The second part is the number
    and format printing of [printf.c]. *)

From S2P Require Import Prelude CString.

(** [strcpy] copies bytes up to and including the NUL, at most [fuel] bytes. *)
Fixpoint strcpy (fuel : nat) (m : mem) (s t : Z) : option mem :=
  match fuel with
  | O => None
  | S k =>
      let c := load m t in
      let m := store m s c in
      if c =? 0 then Some m else strcpy k m (s + 1) (t + 1)
  end.

Fixpoint strcmp (p q : list Z) : Z :=
  match p, q with
  | [], [] => 0
  | [], d :: _ => 0 - u8 d
  | c :: _, [] => u8 c - 0
  | c :: p', d :: q' => if c =? d then strcmp p' q' else u8 c - u8 d
  end.

(** [for(n = 0; s[n]; n++);] *)
Fixpoint ustrlen_from (s : list Z) (n : Z) : Z :=
  match s with
  | [] => n
  | _ :: s' => ustrlen_from s' (n + 1)
  end.
Definition ustrlen (s : list Z) : Z := u32 (ustrlen_from s 0).

(** [strchr] returns the rest of the string from the first [c] on. *)
Fixpoint strchr (s : list Z) (c : Z) : option (list Z) :=
  match s with
  | [] => None
  | d :: s' => if d =? c then Some s else strchr s' c
  end.

(** [gets]: the bytes still to come from descriptor 0 are [inp]; returns the
    line stored in [buf] and what is left of the input.  [room] is
    [max - 1 - i]. *)
Fixpoint gets_loop (room : nat) (inp : list Z) : list Z * list Z :=
  match room with
  | O => ([], inp)
  | S k =>
      match inp with
      | [] => ([], [])
      | c :: inp' =>
          if (c =? 10) || (c =? 13) then ([c], inp')
          else let '(l, r) := gets_loop k inp' in (c :: l, r)
      end
  end.
Definition ugets (max : Z) (inp : list Z) : list Z * list Z :=
  gets_loop (Z.to_nat (max - 1)) inp.

Fixpoint atoi_loop (n : Z) (s : list Z) : Z :=
  match s with
  | [] => n
  | c :: s' =>
      if (48 <=? c) && (c <=? 57) then atoi_loop (s32 (s32 (n * 10) + c - 48)) s' else n
  end.
Definition atoi (s : list Z) : Z := atoi_loop 0 s.

(** The user's [memmove] copies upwards whatever the overlap. *)
Definition umemmove (m : mem) (dst src n : Z) : mem := copy_up m dst src (Z.to_nat n).

(** ** Reference notions *)

Definition is_digit (c : Z) : bool := (48 <=? c) && (c <=? 57).

(** The number a string of digits denotes, to any base. *)
Definition of_digits (digit : Z -> Z) (base : Z) (l : list Z) : Z :=
  fold_left (fun n c => n * base + digit c) l 0.

(** Strings in dictionary order. *)
Inductive lex_lt : list Z -> list Z -> Prop :=
| lex_nil d q : lex_lt [] (d :: q)
| lex_here c d p q : c < d -> lex_lt (c :: p) (d :: q)
| lex_next c p q : lex_lt p q -> lex_lt (c :: p) (c :: q).

Definition cbyte (c : Z) : Prop := 0 < c < 256.

(** ** Facts *)

Lemma u8_cbyte c : cbyte c -> u8 c = c.
Proof. intros H. apply Z.mod_small. red in H. lia. Qed.

(** [strcmp] orders strings by dictionary order of their unsigned bytes. *)
Lemma strcmp_order p q :
  Forall cbyte p -> Forall cbyte q ->
  (strcmp p q < 0 <-> lex_lt p q) /\ (strcmp p q = 0 <-> p = q) /\ (0 < strcmp p q <-> lex_lt q p).
Proof.
  intros Hp. revert q. induction Hp as [|c p Hc Hp IH]; intros q Hq.
  - destruct Hq as [|d q Hd Hq]; simpl.
    + repeat split; try lia; try done; inversion 1.
    + rewrite u8_cbyte by done. red in Hd.
      repeat split; try lia; try done; try (intros; constructor); inversion 1.
  - destruct Hq as [|d q Hd Hq]; simpl.
    + rewrite u8_cbyte by done. red in Hc.
      repeat split; try lia; try done; try (intros; constructor); inversion 1.
    + destruct (Z.eqb_spec c d) as [<-|Hne].
      * destruct (IH q Hq) as (H1 & H2 & H3).
        repeat split; intros H.
        -- apply lex_next. by apply H1.
        -- inversion H; subst; [lia|by apply H1].
        -- f_equal. by apply H2.
        -- apply H2. by injection H.
        -- apply lex_next. by apply H3.
        -- inversion H; subst; [lia|by apply H3].
      * rewrite !u8_cbyte by done.
        repeat split; intros H; try (apply lex_here; lia); try lia; inversion H; subst; lia.
Qed.

Lemma ustrlen_from_length s n : ustrlen_from s n = n + Z.of_nat (length s).
Proof. revert n. induction s as [|c s IH]; intros n; simpl; [lia|]. rewrite IH. lia. Qed.

Lemma ustrlen_ok s : Z.of_nat (length s) < 2 ^ 32 -> ustrlen s = Z.of_nat (length s).
Proof. intros H. unfold ustrlen. rewrite ustrlen_from_length, u32_small; lia. Qed.

(** [strchr] finds the first occurrence of the byte. *)
Lemma strchr_Some s c l :
  strchr s c = Some l <-> exists pre post, s = pre ++ c :: post /\ c ∉ pre /\ l = c :: post.
Proof.
  revert l. induction s as [|d s IH]; intros l; simpl.
  { split; [done|]. by intros ([|? ?] & ? & ? & _). }
  destruct (Z.eqb_spec d c) as [->|Hne].
  - split.
    + intros [= <-]. exists [], s. split; [done|]. split; [|done]. apply not_elem_of_nil.
    + intros ([|e pre] & post & E & Hin & ->); simplify_eq/=; [done|].
      rewrite not_elem_of_cons in Hin. naive_solver.
  - rewrite IH. split.
    + intros (pre & post & -> & Hin & ->). exists (d :: pre), post.
      rewrite not_elem_of_cons. naive_solver.
    + intros ([|e pre] & post & E & Hin & ->); simplify_eq/=.
      rewrite not_elem_of_cons in Hin. naive_solver.
Qed.

Lemma strchr_None s c : strchr s c = None <-> c ∉ s.
Proof.
  induction s as [|d s IH]; simpl; [split; [intros _; apply not_elem_of_nil|done]|].
  rewrite not_elem_of_cons. destruct (Z.eqb_spec d c); naive_solver.
Qed.

(** Bytes that [gets] delivers, in the order in which they arrive. *)
Lemma gets_loop_split room inp l r :
  gets_loop room inp = (l, r) -> inp = l ++ r /\ (length l <= room)%nat.
Proof.
  revert inp l r. induction room as [|k IH]; intros inp l r; simpl.
  { intros [= <- <-]. simpl. split; [done|lia]. }
  destruct inp as [|c inp]; [intros [= <- <-]; simpl; split; [done|lia]|].
  destruct (_ || _); [intros [= <- <-]; simpl; split; [done|lia]|].
  destruct (gets_loop k inp) as [l' r'] eqn:E. intros [= <- <-].
  destruct (IH _ _ _ E) as [-> ?]. simpl. split; [done|lia].
Qed.

(** [atoi] on digits whose number fits an [int]. *)
Lemma atoi_loop_digits n l rest :
  Forall (fun c => is_digit c = true) l -> 0 <= n ->
  (match rest with [] => True | c :: _ => is_digit c = false end) ->
  fold_left (fun n c => n * 10 + (c - 48)) l n < 2 ^ 31 ->
  atoi_loop n (l ++ rest) = fold_left (fun n c => n * 10 + (c - 48)) l n.
Proof.
  intros Hl. revert n. induction Hl as [|c l Hc Hl IH]; intros n Hn Hr Hb; simpl.
  { destruct rest as [|c rest]; simpl; [done|]. unfold is_digit in Hr. by rewrite Hr. }
  assert (Hmono : forall l n, 0 <= n -> Forall (fun c => is_digit c = true) l ->
    n <= fold_left (fun n c => n * 10 + (c - 48)) l n).
  { clear. induction l as [|c l IH]; intros n Hn H; simpl; [lia|].
    inversion_clear H as [|? ? Hc Hl]. unfold is_digit in Hc. apply andb_true_iff in Hc.
    etrans; [|apply IH; [lia|done]]. lia. }
  unfold is_digit in Hc. rewrite Hc. apply andb_true_iff in Hc. simpl in Hb.
  specialize (Hmono l (n * 10 + (c - 48)) ltac:(lia) Hl).
  unfold s32. rewrite (signed_small 32 (n * 10)), signed_small by lia.
  replace (n * 10 + c - 48) with (n * 10 + (c - 48)) by lia.
  apply IH; [lia|done|lia].
Qed.

Lemma atoi_digits l rest :
  Forall (fun c => is_digit c = true) l ->
  (match rest with [] => True | c :: _ => is_digit c = false end) ->
  of_digits (fun c => c - 48) 10 l < 2 ^ 31 ->
  atoi (l ++ rest) = of_digits (fun c => c - 48) 10 l.
Proof. intros. by apply atoi_loop_digits. Qed.

(** ** String constants *)

Definition str (s : string) : list Z := (fun a => Z.of_N (Ascii.N_of_ascii a)) <$> String.list_ascii_of_string s.

(** * Number and format printing of the user library ([printf.c]).

    Output to a descriptor is the list of bytes written, in order.  The digits
    are produced into the array [buf[16]], least significant first; the fuel of
    the loop is the room left in the array, so that running past its end is the
    result [None], which [printint_bounds] excludes. *)

Definition DIGITS : list Z := [48; 49; 50; 51; 52; 53; 54; 55; 56; 57; 65; 66; 67; 68; 69; 70].

(** [do{ buf[i++] = digits[x % base]; }while((x /= base) != 0);] *)
Fixpoint digits_loop (digits : list Z) (room : nat) (x base : Z) (buf : list Z) : option (list Z) :=
  match room with
  | O => None
  | S k =>
      let buf := buf ++ [nth (Z.to_nat (x mod base)) digits 0] in
      let x := x / base in
      if x =? 0 then Some buf else digits_loop digits k x base buf
  end.

(** The magnitude and the sign that [printint] prints. *)
Definition int_sign (xx : Z) (sgn : bool) : Z * bool :=
  if sgn && (xx <? 0) then (u32 (- xx), true) else (u32 xx, false).

Definition printint_with (digits : list Z) (xx base : Z) (sgn : bool) : option (list Z) :=
  let '(x, neg) := int_sign xx sgn in
  buf ← digits_loop digits 16 x base [];
  buf ← (if neg then if (length buf <? 16)%nat then Some (buf ++ [45]) else None else Some buf);
  Some (rev buf).

Definition printint : Z -> Z -> bool -> option (list Z) := printint_with DIGITS.

(** [while( *s != 0){ putc(fd, *s); s++; }], at most [fuel] bytes. *)
Fixpoint put_string (fuel : nat) (m : mem) (s : Z) : option (list Z) :=
  match fuel with
  | O => None
  | S k => if load m s =? 0 then Some [] else cons (load m s) <$> put_string k m (s + 1)
  end.

Definition null_string : list Z := [40; 110; 117; 108; 108; 41].

(** What one directive [%c] prints, and the argument pointer after it. *)
Definition directive (fuel : nat) (m : mem) (c ap : Z) : option (list Z * Z) :=
  if c =? 100 then out ← printint (s32 (load32 m ap)) 10 true; Some (out, ap + 4)
  else if (c =? 120) || (c =? 112) then out ← printint (s32 (load32 m ap)) 16 false; Some (out, ap + 4)
  else if c =? 115 then
    let s := load32 m ap in
    out ← (if s =? 0 then Some null_string else put_string fuel m s); Some (out, ap + 4)
  else if c =? 99 then Some ([u8 (load32 m ap)], ap + 4)
  else if c =? 37 then Some ([c], ap)
  else Some ([37; c], ap).

(** The loop over the format; [state] tells that the last byte was a '%'. *)
Fixpoint printf_loop (fuel : nat) (m : mem) (fmt : list Z) (state : bool) (ap : Z) : option (list Z) :=
  match fmt with
  | [] => Some []
  | c :: fmt' =>
      if state then
        '(out, ap) ← directive fuel m c ap;
        app out <$> printf_loop fuel m fmt' false ap
      else if c =? 37 then printf_loop fuel m fmt' true ap
      else cons c <$> printf_loop fuel m fmt' false ap
  end.

(** [printf(fd, fmt, ...)]: [ap] is the address of the first word after [fmt]
    on the caller's stack. *)
Definition printf (fuel : nat) (m : mem) (fmt : list Z) (ap : Z) : option (list Z) :=
  printf_loop fuel m fmt false ap.

(** ** Reference notions *)

(** A format as a list of items and the text that spells it. *)
Inductive item :=
| Plain (c : Z)
| Direct (c : Z).
Definition spell (i : item) : list Z :=
  match i with Plain c => [c] | Direct c => [37; c] end.
Definition plain_ok (i : item) : Prop := match i with Plain c => c <> 37 | Direct _ => True end.

Fixpoint item_outputs (fuel : nat) (m : mem) (ap : Z) (l : list item) : option (list Z) :=
  match l with
  | [] => Some []
  | Plain c :: l' => cons c <$> item_outputs fuel m ap l'
  | Direct c :: l' => '(out, ap) ← directive fuel m c ap; app out <$> item_outputs fuel m ap l'
  end.

(** The value of a digit of either case. *)
Definition digit_val (c : Z) : Z :=
  if c <? 58 then c - 48 else if c <? 71 then c - 55 else c - 87.

(** ** The digits loop *)

Section digits.
Context (digits : list Z) (base : Z).
Hypothesis Hbase : 2 <= base <= 16.
Hypothesis Hdig : forall d, 0 <= d < base -> digit_val (nth (Z.to_nat d) digits 0) = d.

Notation value l := (of_digits digit_val base l).

Lemma of_digits_snoc l c : value (l ++ [c]) = value l * base + digit_val c.
Proof. unfold of_digits. by rewrite fold_left_app. Qed.

Lemma fold_digits l n : fold_left (fun n c => n * base + digit_val c) l n
  = n * base ^ Z.of_nat (length l) + value l.
Proof.
  unfold of_digits. revert n. induction l as [|c l IH]; intros n; [simpl; lia|]. cbn [fold_left length].
  rewrite (IH (n * base + digit_val c)), (IH (0 * base + digit_val c)).
  rewrite Nat2Z.inj_succ, Z.pow_succ_r by lia. lia.
Qed.

Lemma of_digits_app l1 l2 : value (l1 ++ l2) = value l1 * base ^ Z.of_nat (length l2) + value l2.
Proof. unfold of_digits at 1. by rewrite fold_left_app, fold_digits. Qed.

(** The loop appends the digits of [x], least significant first; it takes as
    much room as [x] has digits and the last digit is not 0 unless [x] is. *)
Lemma digits_loop_ok room x buf :
  0 <= x < base ^ Z.of_nat room -> (0 < room)%nat ->
  exists l d, digits_loop digits room x base buf = Some (buf ++ l ++ [d])
    /\ (length l < room)%nat /\ value (rev (l ++ [d])) = x
    /\ Forall (fun c => exists k, 0 <= k < base /\ c = nth (Z.to_nat k) digits 0) (l ++ [d])
    /\ (0 < x -> digit_val d <> 0) /\ (x = 0 -> l = []).
Proof.
  revert x buf. induction room as [|k IH]; intros x buf Hx Hr; [lia|].
  simpl. assert (Hm : 0 <= x mod base < base) by (apply Z.mod_pos_bound; lia).
  destruct (Z.eqb_spec (x / base) 0) as [Hz|Hnz].
  - exists [], (nth (Z.to_nat (x mod base)) digits 0). simpl.
    assert (x < base) by (apply Z.div_small_iff in Hz; lia).
    rewrite (Z.mod_small x base) by lia. unfold of_digits. simpl.
    rewrite Hdig by lia. split; [done|]. split; [lia|]. split; [lia|].
    split; [constructor; [|done]; exists x; split; [lia|done]|]. split; [|done]. intros; lia.
  - assert (Hq : 0 <= x / base < base ^ Z.of_nat k).
    { split; [apply Z.div_pos; lia|]. apply Z.div_lt_upper_bound; [lia|].
      rewrite Nat2Z.inj_succ, Z.pow_succ_r in Hx by lia. lia. }
    destruct k as [|k]; [simpl in Hq; lia|].
    destruct (IH (x / base) (buf ++ [nth (Z.to_nat (x mod base)) digits 0]) Hq ltac:(lia))
      as (l & d & -> & Hl & Hv & Hf & Hd & _).
    exists (nth (Z.to_nat (x mod base)) digits 0 :: l), d.
    split; [by rewrite <- app_assoc|]. split; [simpl in *; lia|]. split.
    { cbn [rev app]. rewrite of_digits_snoc. cbn [rev app] in Hv. rewrite Hv, Hdig by done.
      rewrite (Z.div_mod x base) at 3 by lia. lia. }
    split; [constructor; [by exists (x mod base)|done]|].
    split; [intros _; apply Hd; lia|]. intros ->. by rewrite Zdiv_0_l in Hnz.
Qed.
End digits.

(** Either printer: the digits spell the magnitude, without leading zeros. *)
Lemma printint_with_ok digits xx base sgn :
  base = 10 \/ base = 16 ->
  (forall d, 0 <= d < 16 -> digit_val (nth (Z.to_nat d) digits 0) = d) ->
  - 2 ^ 31 <= xx < 2 ^ 31 ->
  let neg := sgn && (xx <? 0) in
  let x := if neg then - xx else u32 xx in
  exists d l, printint_with digits xx base sgn = Some ((if neg then [45] else []) ++ d :: l)
    /\ of_digits digit_val base (d :: l) = x
    /\ Forall (fun c => exists k, 0 <= k < base /\ c = nth (Z.to_nat k) digits 0) (d :: l)
    /\ (length l < 10)%nat /\ (0 < x -> digit_val d <> 0) /\ (x = 0 -> l = []).
Proof.
  intros Hbase Hdig Hxx neg x.
  assert (Hx : 0 <= x < 2 ^ 32).
  { unfold x, neg. destruct sgn; simpl; [|apply u32_range].
    destruct (Z.ltb_spec xx 0); [lia|apply u32_range]. }
  assert (Hs : int_sign xx sgn = (x, neg)).
  { unfold int_sign, x, neg. destruct (sgn && (xx <? 0)) eqn:E; [|done].
    apply andb_true_iff in E as [_ E%Z.ltb_lt]. by rewrite u32_small by lia. }
  assert (Hlim : 0 <= x < base ^ Z.of_nat 16) by (destruct Hbase as [-> | ->]; simpl; lia).
  destruct (digits_loop_ok digits base ltac:(lia) ltac:(intros; apply Hdig; lia) 16 x [] Hlim ltac:(lia))
    as (l & d & Hloop & Hlen & Hv & Hf & Hd & H0).
  assert (Hl10 : (length l < 10)%nat).
  { destruct (digits_loop_ok digits base ltac:(lia) ltac:(intros; apply Hdig; lia) 10 x [])
      as (l' & d' & Hloop' & Hlen' & _); [destruct Hbase as [-> | ->]; simpl; lia|lia|].
    assert (Hmono : forall r r' x buf out, digits_loop digits r x base buf = Some out ->
      (r <= r')%nat -> digits_loop digits r' x base buf = Some out).
    { clear. induction r as [|r IH]; intros [|r'] x buf out; simpl; try done; [lia|].
      intros H Hr. destruct (x / base =? 0); [done|]. apply IH; [done|lia]. }
    apply (Hmono _ 16%nat) in Hloop'; [|lia]. rewrite Hloop in Hloop'. injection Hloop' as E.
    apply app_inj_tail in E as [-> _]. exact Hlen'. }
  exists d, (rev l). unfold printint_with. rewrite Hs, Hloop. simpl. rewrite length_app. simpl.
  rewrite rev_app_distr in Hv. simpl in Hv.
  split.
  { destruct neg.
    - rewrite (proj2 (Nat.ltb_lt _ _)) by lia. simpl. by rewrite rev_app_distr, rev_app_distr.
    - simpl. by rewrite rev_app_distr. }
  split; [done|]. split.
  { apply Forall_app in Hf as [Hf1 Hf2]. constructor; [by inversion Hf2|]. by apply Forall_rev. }
  rewrite length_rev. split; [done|]. split; [done|]. intros E. by rewrite (H0 E).
Qed.

Lemma DIGITS_ok d : 0 <= d < 16 -> digit_val (nth (Z.to_nat d) DIGITS 0) = d.
Proof.
  intros Hd. assert (Hn : (Z.to_nat d < 16)%nat) by lia.
  rewrite <- (Z2Nat.id d) at 2 by lia. generalize dependent (Z.to_nat d). clear.
  intros n Hn. do 16 (destruct n as [|n]; [done|]). lia.
Qed.

(** A format built of plain bytes and directives prints the outputs of its
    items one after the other. *)
Lemma printf_items fuel m ap l :
  Forall plain_ok l ->
  printf fuel m (concat (spell <$> l)) ap = item_outputs fuel m ap l.
Proof.
  unfold printf. intros H. revert ap. induction H as [|i l Hi Hl IH]; intros ap; [done|].
  destruct i as [c|c]; simpl in *.
  - rewrite (proj2 (Z.eqb_neq c 37)) by done. by rewrite IH.
  - destruct (directive fuel m c ap) as [[out ap']|]; simpl; [|done]. by rewrite IH.
Qed.

(** Printing a number and reading it back.  [printf("%d")] of any [int]
    stays inside [buf[16]] and writes an optional sign and decimal digits
    without leading zeros, which [atoi] converts back to the absolute value
    (so to the number itself when it is not negative; the magnitude of the
    least [int] does not fit and is excluded there). *)
Theorem printf_atoi_roundtrip fuel m ap :
  let n := s32 (load32 m ap) in
  exists d l, printf fuel m [37; 100] ap = Some ((if n <? 0 then [45] else []) ++ d :: l)
    /\ Forall (fun c => is_digit c = true) (d :: l)
    /\ of_digits (fun c => c - 48) 10 (d :: l) = Z.abs n
    /\ (n <> 0 -> d <> 48)
    /\ (n <> - 2 ^ 31 -> atoi (d :: l) = Z.abs n).
Proof.
  intros n.
  assert (Hn : - 2 ^ 31 <= n < 2 ^ 31).
  { unfold n, s32, signed. pose proof (Z.mod_pos_bound (load32 m ap) (2 ^ 32) ltac:(lia)).
    destruct (Z.ltb_spec (load32 m ap mod 2 ^ 32) (2 ^ (32 - 1))); simpl in *; lia. }
  destruct (printint_with_ok DIGITS n 10 true ltac:(lia) DIGITS_ok Hn) as (d & l & Hp & Hv & Hf & Hlen & Hd & H0).
  exists d, l. simpl in Hp.
  assert (Habs : (if true && (n <? 0) then - n else u32 n) = Z.abs n).
  { simpl. destruct (Z.ltb_spec n 0); [lia|]. rewrite u32_small by lia. lia. }
  rewrite Habs in Hv, Hd, H0.
  assert (Hdig : Forall (fun c => is_digit c = true /\ digit_val c = c - 48) (d :: l)).
  { eapply Forall_impl; [exact Hf|]. cbv beta. intros c (k & Hk & ->).
    assert (Hc : nth (Z.to_nat k) DIGITS 0 = 48 + k).
    { rewrite <- (Z2Nat.id k) at 2 by lia. assert (Hk' : (Z.to_nat k < 10)%nat) by lia.
      generalize dependent (Z.to_nat k). clear. intros i Hi. do 10 (destruct i as [|i]; [done|]). lia. }
    rewrite Hc. unfold is_digit, digit_val. decide_cmp. split; [done|lia]. }
  assert (Hd1 : Forall (fun c => is_digit c = true) (d :: l)) by (eapply Forall_impl; [exact Hdig|naive_solver]).
  assert (Hv' : of_digits (fun c => c - 48) 10 (d :: l) = Z.abs n).
  { rewrite <- Hv. unfold of_digits. generalize 0. revert Hdig. clear. generalize (d :: l). clear d l.
    intros l Hdig. induction Hdig as [|c l [_ Hc] _ IH]; intros z; [done|]. cbn [fold_left]. rewrite Hc. apply IH. }
  split; [|split; [done|split; [done|split]]].
  - unfold printf. cbn [printf_loop Z.eqb Pos.eqb]. unfold directive. cbn [Z.eqb Pos.eqb].
    fold n. unfold printint. rewrite Hp. simpl. by rewrite app_nil_r.
  - intros Hn0 ->. apply Hd; [lia|done].
  - intros Hmin. rewrite <- Hv', <- (app_nil_r (d :: l)) at 1. apply atoi_digits; [done|done|].
    rewrite Hv'. lia.
Qed.
