(* ===== verification/Grep.v ===== *)
(** The pattern matcher and the line filter of [grep] ([grep.c]).

    Pattern and text are the bytes before the NUL, so [re[1]] of a one-byte
    pattern is the end of the list.  The matcher is compared with the language
    of the pattern; the filter with the list of the lines of its input. *)

From S2P Require Import Prelude CString Ulib.

(** ** The matcher *)

(** [matchstar(c, re, text)] for the continuation [matchhere(re, .)]. *)
Fixpoint star_loop (matchre : list Z -> bool) (c : Z) (text : list Z) : bool :=
  if matchre text then true
  else match text with
       | [] => false
       | t :: text' => if (t =? c) || (c =? 46) then star_loop matchre c text' else false
       end.

Fixpoint matchhere (re text : list Z) {struct re} : bool :=
  match re with
  | [] => true
  | c :: re' =>
      let next :=
        if (c =? 36) && (match re' with [] => true | _ => false end)
        then (match text with [] => true | _ => false end)
        else match text with
             | [] => false
             | t :: text' => if (c =? 46) || (c =? t) then matchhere re' text' else false
             end in
      match re' with
      | d :: re'' => if d =? 42 then star_loop (matchhere re'') c text else next
      | [] => next
      end
  end.

Definition matchstar (c : Z) (re text : list Z) : bool := star_loop (matchhere re) c text.

(** [do{ if(matchhere(re, text)) return 1; }while( *text++ != 0 );] *)
Fixpoint match_from (re text : list Z) : bool :=
  if matchhere re text then true
  else match text with [] => false | _ :: text' => match_from re text' end.

Definition match_ (re text : list Z) : bool :=
  match re with
  | c :: re' => if c =? 94 then matchhere re' text else match_from re text
  | [] => match_from re text
  end.

(** ** The filter *)

(** The C string that starts at a buffer position: up to the first NUL. *)
Fixpoint c_str (l : list Z) : list Z :=
  match l with
  | [] => []
  | c :: l' => if c =? 0 then [] else c :: c_str l'
  end.

(** [while((q = strchr(p, '\n')) != 0)]: the output and the final [p]. *)
Fixpoint scan_lines (fuel : nat) (pattern p : list Z) : list Z * list Z :=
  match fuel with
  | O => ([], p)
  | S k =>
      match strchr (c_str p) 10 with
      | None => ([], p)
      | Some q =>
          let line := take (length (c_str p) - length q) p in
          let '(out, rest) := scan_lines k pattern (drop (length line + 1) p) in
          ((if match_ pattern line then line ++ [10] else []) ++ out, rest)
      end
  end.

Definition BUFSZ : nat := 1024.

(** [grep(pattern, fd)]: [buf] holds the [m] unprocessed bytes, [inp] is what
    the descriptor has still to deliver and [lim i] bounds what the kernel
    returns for the [i]-th read. *)
Fixpoint grep_loop (fuel : nat) (lim : nat -> nat) (i : nat) (pattern buf inp : list Z) : option (list Z) :=
  match fuel with
  | O => None
  | S k =>
      let n := Nat.min (BUFSZ - length buf - 1) (lim i) in
      match take n inp with
      | [] => Some []
      | chunk =>
          let buf := buf ++ chunk in
          let '(out, p) := scan_lines (length buf) pattern buf in
          let buf := if (length p =? length buf)%nat then [] else p in
          app out <$> grep_loop k lim (S i) pattern buf (drop n inp)
      end
  end.

Definition grep (lim : nat -> nat) (pattern inp : list Z) : option (list Z) :=
  grep_loop (S (length inp)) lim 0 pattern [] inp.

(** [main]: [open] gives the contents of a file, and the result is what is
    written to each descriptor, in order. *)
Fixpoint grep_files (lim : nat -> nat) (open : list Z -> option (list Z)) (pattern : list Z)
    (args : list (list Z)) : option (list (Z * list Z)) :=
  match args with
  | [] => Some []
  | name :: args' =>
      match open name with
      | None => Some [(1, str "grep: cannot open " ++ name ++ [10])]
      | Some inp => out ← grep lim pattern inp; cons (1, out) <$> grep_files lim open pattern args'
      end
  end.

Definition grep_main (lim : nat -> nat) (open : list Z -> option (list Z)) (stdin : list Z)
    (argv : list (list Z)) : option (list (Z * list Z)) :=
  match argv with
  | _ :: pattern :: (_ :: _) as files => grep_files lim open pattern (drop 2 argv)
  | [_; pattern] => out ← grep lim pattern stdin; Some [(1, out)]
  | _ => Some [(2, str "usage: grep pattern [file ...]" ++ [10])]
  end.

(** ** The language of a pattern *)

Inductive tok := One (c : Z) | Star (c : Z) | Eol.

(** One byte of text against one byte of the pattern. *)
Definition accepts (c t : Z) : Prop := c = 46 \/ c = t.

Fixpoint parse_re (re : list Z) : list tok :=
  match re with
  | [] => []
  | c :: re' =>
      match re' with
      | d :: re'' => if d =? 42 then Star c :: parse_re re'' else One c :: parse_re re'
      | [] => if c =? 36 then [Eol] else [One c]
      end
  end.

(** [lang toks u v]: the tokens match exactly [u] when [v] follows it. *)
Inductive lang : list tok -> list Z -> list Z -> Prop :=
| lang_nil v : lang [] [] v
| lang_one c t ts u v : accepts c t -> lang ts u v -> lang (One c :: ts) (t :: u) v
| lang_star c ts w u v : Forall (accepts c) w -> lang ts u v -> lang (Star c :: ts) (w ++ u) v
| lang_eol ts u : lang ts u [] -> lang (Eol :: ts) u [].

(** The text matches at its beginning; the text matches somewhere. *)
Definition matches_here (re text : list Z) : Prop :=
  exists u v, text = u ++ v /\ lang (parse_re re) u v.
Definition matches (re text : list Z) : Prop :=
  match re with
  | 94 :: re' => matches_here re' text
  | _ => exists w rest, text = w ++ rest /\ matches_here re rest
  end.

(** The complete lines of a text, and what follows the last newline. *)
Fixpoint split_lines (l : list Z) : list (list Z) * list Z :=
  match l with
  | [] => ([], [])
  | c :: l' =>
      let '(ls, p) := split_lines l' in
      if c =? 10 then ([] :: ls, p)
      else match ls with [] => ([], c :: p) | x :: ls' => ((c :: x) :: ls', p) end
  end.
Definition lines (l : list Z) : list (list Z) := fst (split_lines l).

Definition selected (pattern : list Z) (ls : list (list Z)) : list Z :=
  concat ((fun l => if match_ pattern l then l ++ [10] else []) <$> ls).

(** ** The matcher decides the language *)

Lemma star_loop_spec f c text :
  star_loop f c text = true <->
  exists w rest, text = w ++ rest /\ Forall (accepts c) w /\ f rest = true.
Proof.
  induction text as [|t text IH]; simpl.
  - split.
    + destruct (f []) eqn:E; [|done]. intros _. by exists [], [].
    + intros (w & rest & E & _ & H). destruct w, rest; simplify_eq/=. by rewrite H.
  - split.
    + destruct (f (t :: text)) eqn:E; [intros _; by exists [], (t :: text)|].
      destruct ((t =? c) || (c =? 46)) eqn:Ec; [|done].
      intros (w & rest & -> & Hw & H)%IH. exists (t :: w), rest. split; [done|]. split; [|done].
      constructor; [|done]. apply orb_true_iff in Ec as [->%Z.eqb_eq|E2%Z.eqb_eq]; [by right|by left].
    + intros ([|t' w] & rest & E & Hw & H); simplify_eq/=; [by rewrite H|].
      inversion_clear Hw as [|? ? Ht Hw']. destruct (f (t' :: w ++ rest)); [done|].
      replace ((t' =? c) || (c =? 46)) with true; [apply IH; by exists w, rest|].
      symmetry. apply orb_true_iff. destruct Ht as [->| ->]; [by right|left; apply Z.eqb_refl].
Qed.

Lemma accepts_spec c t : ((c =? 46) || (c =? t)) = true <-> accepts c t.
Proof. unfold accepts. by rewrite orb_true_iff, !Z.eqb_eq. Qed.

Lemma lang_one_iff c ts text :
  (exists u v, text = u ++ v /\ lang (One c :: ts) u v) <->
  exists t rest, text = t :: rest /\ accepts c t /\ exists u v, rest = u ++ v /\ lang ts u v.
Proof.
  split.
  - intros (u & v & -> & H). inversion H; subst. eexists _, _. split; [done|]. eauto.
  - intros (t & rest & -> & Hc & u & v & -> & H). exists (t :: u), v. split; [done|]. by constructor.
Qed.

Lemma lang_star_iff c ts text :
  (exists u v, text = u ++ v /\ lang (Star c :: ts) u v) <->
  exists w rest, text = w ++ rest /\ Forall (accepts c) w /\ exists u v, rest = u ++ v /\ lang ts u v.
Proof.
  split.
  - intros (u & v & -> & H). inversion H; subst. rewrite <- app_assoc. eexists _, _. eauto 10.
  - intros (w & rest & -> & Hc & u & v & -> & H). exists (w ++ u), v.
    rewrite app_assoc. split; [done|]. by constructor.
Qed.

(** One byte of the pattern that is not starred. *)
Lemma one_step (mre : list Z -> bool) (P : list Z -> Prop) c text :
  (forall text, mre text = true <-> P text) ->
  (match text with
   | [] => false
   | t :: text' => if (c =? 46) || (c =? t) then mre text' else false
   end) = true <-> exists t rest, text = t :: rest /\ accepts c t /\ P rest.
Proof.
  intros H. destruct text as [|t text]; [split; [done|]; by intros (? & ? & ? & _)|].
  destruct ((c =? 46) || (c =? t)) eqn:E.
  - rewrite H. apply accepts_spec in E. naive_solver.
  - split; [done|]. intros (t' & rest & [= <- <-] & Hc & _). apply accepts_spec in Hc. congruence.
Qed.

Lemma matchhere_spec re text : matchhere re text = true <-> matches_here re text.
Proof.
  revert text. unfold matches_here.
  induction re as [re IH] using (induction_ltof1 _ length). unfold ltof in IH. intros text.
  destruct re as [|c re]; simpl.
  { split; [|done]. intros _. exists [], text. split; [done|constructor]. }
  destruct re as [|d re].
  - destruct (Z.eqb_spec c 36) as [->|Hc]; simpl.
    + split.
      * destruct text; [|done]. intros _. exists [], []. split; [done|]. repeat constructor.
      * intros (u & v & -> & H). inversion_clear H as [| | |? ? H']. by inversion H'.
    + rewrite lang_one_iff. rewrite (one_step _ (fun rest => exists u v, rest = u ++ v /\ lang [] u v)); [done|].
      intros rest. split; [|done]. intros _. exists [], rest. split; [done|constructor].
  - destruct (Z.eqb_spec d 42) as [->|Hd].
    + rewrite lang_star_iff, star_loop_spec. setoid_rewrite IH; [done|simpl; lia].
    + replace ((c =? 36) && false) with false by (by destruct (c =? 36)).
      rewrite lang_one_iff.
      apply (one_step (matchhere (d :: re)) (fun rest => exists u v, rest = u ++ v /\ lang (parse_re (d :: re)) u v)).
      intros rest. apply IH. simpl. lia.
Qed.

Lemma match_from_spec re text :
  match_from re text = true <-> exists w rest, text = w ++ rest /\ matches_here re rest.
Proof.
  induction text as [|t text IH]; simpl; destruct (matchhere re _) eqn:E.
  - split; [|done]. intros _. exists [], []. split; [done|]. by apply matchhere_spec.
  - split; [done|]. intros (w & rest & E' & H). destruct w, rest; simplify_eq/=.
    apply matchhere_spec in H. congruence.
  - split; [|done]. intros _. exists [], (t :: text). split; [done|]. by apply matchhere_spec.
  - rewrite IH. split.
    + intros (w & rest & -> & H). by exists (t :: w), rest.
    + intros ([|t' w] & rest & E' & H); simplify_eq/=; [|by exists w, rest].
      apply matchhere_spec in H. congruence.
Qed.

(** The recursive matcher of [grep] decides the language of its pattern:
    [match] answers 1 exactly when some part of the text (the beginning of it
    for a pattern that starts with a caret) is in the language of the pattern,
    where [c*] is any number of bytes that [c] accepts, the dot accepts every
    byte and a final dollar asks that nothing follows. *)
Theorem match_equiv re text : match_ re text = true <-> matches re text.
Proof.
  unfold match_, matches. destruct re as [|c re]; [apply match_from_spec|].
  destruct (Z.eqb_spec c 94) as [->|Hc]; [apply matchhere_spec|].
  rewrite match_from_spec. destruct c as [|p|p]; try done.
  repeat (destruct p as [p|p|]; try done).
Qed.

#[export] Instance matches_decision re text : Decision (matches re text).
Proof. destruct (match_ re text) eqn:E; [left|right]; rewrite <- match_equiv; [done|by rewrite E]. Defined.

(** ** The filter selects lines *)

(** The lines in the language of the pattern, each with its newline. *)
Definition matching (re : list Z) (ls : list (list Z)) : list Z :=
  concat ((fun l => if decide (matches re l) then l ++ [10] else []) <$> ls).

Lemma selected_matching re ls : selected re ls = matching re ls.
Proof.
  unfold selected, matching. f_equal. apply list_fmap_ext. intros _ l _.
  destruct (match_ re l) eqn:E, (decide (matches re l)) as [H|H]; rewrite <- match_equiv in H; congruence.
Qed.

Lemma split_lines_nonl l : 10 ∉ l -> split_lines l = ([], l).
Proof.
  induction l as [|c l IH]; [done|]. rewrite not_elem_of_cons. intros [Hc Hl]. simpl.
  rewrite IH by done. by rewrite (proj2 (Z.eqb_neq c 10)).
Qed.

Lemma split_lines_app l rest :
  10 ∉ l -> split_lines (l ++ 10 :: rest) = (l :: fst (split_lines rest), snd (split_lines rest)).
Proof.
  induction l as [|c l IH]; simpl; [by destruct (split_lines rest)|].
  rewrite not_elem_of_cons. intros [Hc Hl]. rewrite IH by done.
  by rewrite (proj2 (Z.eqb_neq c 10)).
Qed.

Lemma c_str_id l : 0 ∉ l -> c_str l = l.
Proof.
  induction l as [|c l IH]; [done|]. rewrite not_elem_of_cons. intros [Hc Hl]. simpl.
  rewrite (proj2 (Z.eqb_neq c 0)) by done. by rewrite IH.
Qed.

(** Splitting a text at its first newline. *)
Lemma nl_cases (l : list Z) : 10 ∉ l \/ exists x rest, l = x ++ 10 :: rest /\ 10 ∉ x.
Proof.
  destruct (strchr l 10) as [q|] eqn:E.
  - right. apply strchr_Some in E as (x & rest & -> & Hx & _). by exists x, rest.
  - left. by apply strchr_None.
Qed.

Lemma strchr_app x rest : 10 ∉ x -> strchr (x ++ 10 :: rest) 10 = Some (10 :: rest).
Proof. intros Hx. apply strchr_Some. by exists x, rest. Qed.

(** The inner loop outputs the selected lines of the buffer and stops after
    the last newline. *)
Lemma scan_lines_spec fuel pattern p :
  0 ∉ p -> (length p <= fuel)%nat ->
  scan_lines fuel pattern p = (selected pattern (lines p), snd (split_lines p)).
Proof.
  revert p. induction fuel as [|k IH]; intros p H0 Hl.
  { by destruct p; simpl in *; [|lia]. }
  cbn [scan_lines]. rewrite c_str_id by done.
  destruct (nl_cases p) as [Hp|(x & rest & -> & Hx)].
  - rewrite (proj2 (strchr_None p 10)) by done. unfold lines. by rewrite split_lines_nonl.
  - rewrite strchr_app by done. rewrite length_app. simpl.
    replace (length x + S (length rest) - S (length rest))%nat with (length x) by lia.
    rewrite take_app_length.
    replace (drop (length x + 1) (x ++ 10 :: rest)) with rest
      by (rewrite (cons_middle 10 x rest), app_assoc; rewrite drop_app_length'; [done|]; rewrite length_app; simpl; lia).
    rewrite length_app in Hl. simpl in Hl. rewrite not_elem_of_app, not_elem_of_cons in H0.
    rewrite IH by (naive_solver lia). unfold lines. by rewrite split_lines_app.
Qed.

(** Lines across a cut of the input. *)
Lemma lines_cut p q :
  lines (p ++ q) = lines p ++ lines (snd (split_lines p) ++ q).
Proof.
  induction p as [p IH] using (induction_ltof1 _ length). unfold ltof in IH.
  destruct (nl_cases p) as [Hp|(x & rest & -> & Hx)].
  - unfold lines at 2. by rewrite split_lines_nonl.
  - unfold lines at 1 2. rewrite <- app_assoc. simpl. rewrite !split_lines_app by done. simpl. f_equal.
    apply IH. rewrite length_app. simpl. lia.
Qed.

Lemma partial_nonl p : 10 ∉ snd (split_lines p).
Proof.
  induction p as [p IH] using (induction_ltof1 _ length). unfold ltof in IH.
  destruct (nl_cases p) as [Hp|(x & rest & -> & Hx)]; [by rewrite split_lines_nonl|].
  rewrite split_lines_app by done. apply IH. rewrite length_app. simpl. lia.
Qed.

(** The partial line is all of the text exactly when there is no newline. *)
Lemma partial_suffix p : exists pre, p = pre ++ snd (split_lines p) /\ (pre = [] <-> 10 ∉ p).
Proof.
  induction p as [p IH] using (induction_ltof1 _ length). unfold ltof in IH.
  destruct (nl_cases p) as [Hp|(x & rest & -> & Hx)].
  - exists []. rewrite split_lines_nonl by done. done.
  - rewrite split_lines_app by done.
    destruct (IH rest) as (pre & E & _); [rewrite length_app; simpl; lia|].
    exists (x ++ 10 :: pre). rewrite <- app_assoc. simpl. rewrite <- E. split; [done|].
    rewrite not_elem_of_app, not_elem_of_cons. split; [by destruct x|naive_solver].
Qed.

(** A text without a newline in its first 1023 bytes, all of whose lines are
    shorter, has no lines. *)
Lemma no_lines p q :
  10 ∉ p -> (1023 <= length p)%nat -> Forall (fun l => (length l < 1023)%nat) (lines (p ++ q)) -> 10 ∉ q.
Proof.
  intros Hp Hlen Hs. destruct (nl_cases q) as [Hq|(x & rest & -> & Hx)]; [done|].
  unfold lines in Hs. rewrite app_assoc, split_lines_app in Hs by (rewrite not_elem_of_app; naive_solver).
  inversion_clear Hs as [|? ? H _]. rewrite length_app in H. lia.
Qed.

Lemma lines_nonl l : 10 ∉ l -> lines l = [].
Proof. intros H. unfold lines. by rewrite split_lines_nonl. Qed.

Lemma grep_loop_spec fuel lim i pattern buf inp :
  (forall i, 1023 <= lim i)%nat -> 0 ∉ buf ++ inp -> 10 ∉ buf -> (length buf < 1023)%nat ->
  Forall (fun l => (length l < 1023)%nat) (lines (buf ++ inp)) ->
  (length inp < fuel)%nat ->
  grep_loop fuel lim i pattern buf inp = Some (selected pattern (lines (buf ++ inp))).
Proof.
  intros Hlim. revert i buf inp. induction fuel as [|k IH]; intros i buf inp H0 Hnl Hb Hs Hf; [lia|].
  cbn [grep_loop]. specialize (Hlim i). unfold BUFSZ.
  set (n := Nat.min (1024 - length buf - 1) (lim i)).
  assert (Hn : n = (1023 - length buf)%nat) by lia. clearbody n. clear Hlim.
  destruct (take n inp) as [|c l] eqn:Htake.
  { assert (inp = []) as -> by (destruct inp; [done|]; destruct n; [lia|done]).
    by rewrite app_nil_r, lines_nonl. }
  rewrite <- Htake. pose proof (take_drop n inp) as Hinp.
  assert (Hlen : (length (drop n inp) < k)%nat).
  { rewrite length_drop. assert (length inp <> 0)%nat by (destruct inp; [by destruct n|done]). lia. }
  set (b := buf ++ take n inp) in *. set (q := drop n inp) in *.
  assert (Hbq : buf ++ inp = b ++ q) by (unfold b; by rewrite <- app_assoc, Hinp).
  rewrite Hbq in H0, Hs |- *.
  rewrite not_elem_of_app in H0. destruct H0 as [H0b H0q].
  rewrite scan_lines_spec by (done || lia).
  rewrite lines_cut in Hs |- *. apply Forall_app in Hs as [_ Hs].
  destruct (partial_suffix b) as (pre & Epre & Hpre). pose proof (partial_nonl b) as Hpn.
  set (p := snd (split_lines b)) in *. unfold selected. rewrite fmap_app, concat_app.
  fold (selected pattern (lines b)) (selected pattern (lines (p ++ q))).
  assert (Hbl : length b = (length pre + length p)%nat) by (rewrite Epre at 1; apply length_app).
  destruct (Nat.eqb_spec (length p) (length b)) as [E|E].
  - assert (Hnb : 10 ∉ b) by (apply Hpre; apply nil_length_inv; lia).
    assert (Ep : p = b) by (unfold p; by rewrite split_lines_nonl).
    assert (Hq : 10 ∉ q).
    { destruct (decide (length (take n inp) < n)%nat) as [Hlt|Hge].
      - rewrite length_take in Hlt. unfold q. rewrite drop_ge by lia. apply not_elem_of_nil.
      - rewrite Ep in Hs. apply (no_lines b q); [exact Hnb| |exact Hs]. unfold b. rewrite length_app. lia. }
    rewrite IH; [|exact H0q|apply not_elem_of_nil|simpl; lia|simpl; by rewrite lines_nonl|done].
    rewrite Ep, (lines_nonl (b ++ q)) by (rewrite not_elem_of_app; done).
    change ([] ++ q) with q. by rewrite (lines_nonl b), (lines_nonl q).
  - assert (Hpb : 0 ∉ p) by (rewrite Epre, not_elem_of_app in H0b; naive_solver).
    assert (length b <= 1023)%nat by (unfold b; rewrite length_app, length_take; lia).
    rewrite IH; [done|rewrite not_elem_of_app; done|done|lia|done|done].
Qed.

(** C23: [grep] of a file whose reads are not cut short (a read returns all the
    bytes asked for until the file ends), without NUL bytes and with lines of
    fewer than 1023 bytes, terminates and writes exactly the lines in the
    language of the pattern, whole and in order; lines that cross a buffer
    boundary included. *)
Theorem grep_correct lim pattern inp :
  (forall i, 1023 <= lim i)%nat -> 0 ∉ inp ->
  Forall (fun l => (length l < 1023)%nat) (lines inp) ->
  grep lim pattern inp = Some (matching pattern (lines inp)).
Proof.
  intros Hlim H0 Hs. rewrite <- selected_matching. unfold grep. rewrite grep_loop_spec; [done|done|done|apply not_elem_of_nil|simpl; lia|done|lia].
Qed.

(** Short reads, as a pipe gives them, break lines: the bytes of a line whose
    first part arrives without its newline are thrown away. *)
Lemma grep_short_read :
  grep (fun _ => 2%nat) (str "a") (str "ab" ++ str "c" ++ [10]) = Some []
  /\ selected (str "a") (lines (str "ab" ++ str "c" ++ [10])) = str "abc" ++ [10].
Proof. split; vm_compute; reflexivity. Qed.

Lemma grep_correct_witness :
  let inp := str "hello" ++ [10] ++ str "world" ++ [10] in
  grep (fun _ => 1023%nat) (str "^h.*o$") inp = Some (str "hello" ++ [10]).
Proof.
  intros inp. rewrite (grep_correct (fun _ => 1023%nat) (str "^h.*o$") inp).
  - vm_compute. reflexivity.
  - lia.
  - apply (bool_decide_eq_true_1 (0 ∉ inp)). vm_compute. reflexivity.
  - vm_compute. repeat constructor.
Defined.
