(* ===== verification/Sh.v ===== *)
(** The shell's command parser and its command runner ([sh.c]).

    A command line is the list of its bytes before the NUL; the parser's
    pointers [s], [es], [q] and [eq] are offsets into it, with [es] the
    length, where the NUL is read.  The command structures are a tree, whose
    strings are the offset pairs [argv]/[eargv] and [file]/[efile]; the
    constructors ([execcmd] and so on) presuppose that [malloc] succeeds, as
    the code does.  The mutual recursion of the parser runs on fuel and
    reports its exhaustion as [PFuel], which [parsecmd_terminates] excludes. *)

From S2P Require Import Prelude CString Ulib Grep.

(** ** Commands *)

Definition MAXARGS : nat := 10.
Definition O_RDONLY : Z := 0.
Definition O_WRONLY : Z := 1.
Definition O_RDWR : Z := 2.
Definition O_CREATE : Z := 512.

Inductive cmd :=
| EXEC (argv : list (nat * nat))
| REDIR (c : cmd) (file efile : nat) (mode fd : Z)
| PIPE (left right : cmd)
| LIST (left right : cmd)
| BACK (c : cmd).

(** [execcmd()] returns a zeroed command: no arguments. *)
Definition execcmd : cmd := EXEC [].
Definition redircmd (subcmd : cmd) (file efile : nat) (mode fd : Z) : cmd := REDIR subcmd file efile mode fd.
Definition pipecmd (left right : cmd) : cmd := PIPE left right.
Definition listcmd (left right : cmd) : cmd := LIST left right.
Definition backcmd (subcmd : cmd) : cmd := BACK subcmd.

(** ** The parser's monad: the state is the pointer [*ps] *)

Inductive pres (A : Type) : Type :=
| POk (a : A) (s : nat)
| PExit (msg : string)
| PFuel.
Arguments POk {A} _ _.
Arguments PExit {A} _.
Arguments PFuel {A}.

Definition P (A : Type) : Type := nat -> pres A.

#[export] Instance P_ret : MRet P := fun A a s => POk a s.
#[export] Instance P_bind : MBind P := fun A B k m s =>
  match m s with
  | POk a s' => k a s'
  | PExit e => PExit e
  | PFuel => PFuel
  end.
Definition sh_panic {A} (msg : string) : P A := fun _ => PExit msg.
Definition no_fuel {A} : P A := fun _ => PFuel.

(** ** The lexer *)

Definition whitespace : list Z := [32; 9; 13; 10; 11].
Definition symbols : list Z := str "<|>&;()".

Definition is_in (l : list Z) (c : Z) : bool := match strchr l c with Some _ => true | None => false end.

Section parser.
Context (buf : list Z).
Notation es := (length buf).

Definition at_ (s : nat) : Z := nth s buf 0.

(** [while(s < es && f( *s)) s++;]: [k] is [es - s]. *)
Fixpoint skip (f : Z -> bool) (k s : nat) : nat :=
  match k with
  | O => s
  | S k => if (s <? es)%nat && f (at_ s) then skip f k (S s) else s
  end.
Definition skip_ws (s : nat) : nat := skip (is_in whitespace) (es - s) s.
Definition skip_word (s : nat) : nat :=
  skip (fun c => negb (is_in whitespace c) && negb (is_in symbols c)) (es - s) s.

(** [gettoken] returns the token's code, [q] and [eq]. *)
Definition gettoken : P (Z * nat * nat) := fun s =>
  let s := skip_ws s in
  let q := s in
  let c := at_ s in
  let '(ret, s) :=
    if c =? 0 then (c, s)
    else if (c =? 124) || (c =? 40) || (c =? 41) || (c =? 59) || (c =? 38) || (c =? 60) then (c, S s)
    else if c =? 62 then if at_ (S s) =? 62 then (43, S (S s)) else (c, S s)
    else (97, skip_word s) in
  POk (ret, q, s) (skip_ws s).

Definition peek (toks : string) : P bool := fun s =>
  let s := skip_ws s in
  POk (negb (at_ s =? 0) && is_in (str toks) (at_ s)) s.

(** ** The parser *)

Fixpoint parseredirs (fuel : nat) (c : cmd) : P cmd :=
  match fuel with
  | O => no_fuel
  | S k =>
      more ← peek "<>";
      if more : bool then
        '(tok, _, _) ← gettoken;
        '(tok', q, eq) ← gettoken;
        if negb (tok' =? 97) then sh_panic "missing file for redirection"
        else
          let c :=
            if tok =? 60 then redircmd c q eq O_RDONLY 0
            else if tok =? 62 then redircmd c q eq (Z.lor O_WRONLY O_CREATE) 1
            else if tok =? 43 then redircmd c q eq (Z.lor O_WRONLY O_CREATE) 1
            else c in
          parseredirs k c
      else mret c
  end.

(** [cmd->argv[argc] = q; cmd->eargv[argc] = eq;]: [cmd] is the EXEC command
    at the bottom of the redirections [ret] has been wrapped in. *)
Fixpoint add_arg (ret : cmd) (q eq : nat) : cmd :=
  match ret with
  | EXEC argv => EXEC (argv ++ [(q, eq)])
  | REDIR c file efile mode fd => REDIR (add_arg c q eq) file efile mode fd
  | c => c
  end.

Fixpoint parseargs (fuel : nat) (ret : cmd) (argc : nat) : P cmd :=
  match fuel with
  | O => no_fuel
  | S k =>
      stop ← peek "|)&;";
      if stop : bool then mret ret
      else
        '(tok, q, eq) ← gettoken;
        if tok =? 0 then mret ret
        else if negb (tok =? 97) then sh_panic "syntax"
        else
          let ret := add_arg ret q eq in
          let argc := S argc in
          if (MAXARGS <=? argc)%nat then sh_panic "too many args"
          else ret ← parseredirs k ret; parseargs k ret argc
  end.

(** [while(peek(ps, es, "&")){ gettoken(ps, es, 0, 0); cmd = backcmd(cmd); }] *)
Fixpoint parseback (fuel : nat) (c : cmd) : P cmd :=
  match fuel with
  | O => no_fuel
  | S k =>
      amp ← peek "&";
      if amp : bool then _ ← gettoken; parseback k (backcmd c) else mret c
  end.

Fixpoint parseline (fuel : nat) : P cmd :=
  match fuel with
  | O => no_fuel
  | S k =>
      c ← parsepipe k;
      c ← parseback k c;
      semi ← peek ";";
      if semi : bool then _ ← gettoken; r ← parseline k; mret (listcmd c r) else mret c
  end
with parsepipe (fuel : nat) : P cmd :=
  match fuel with
  | O => no_fuel
  | S k =>
      c ← parseexec k;
      bar ← peek "|";
      if bar : bool then _ ← gettoken; r ← parsepipe k; mret (pipecmd c r) else mret c
  end
with parseexec (fuel : nat) : P cmd :=
  match fuel with
  | O => no_fuel
  | S k =>
      open ← peek "(";
      if open : bool then parseblock k
      else
        ret ← parseredirs k execcmd;
        parseargs k ret 0
  end
with parseblock (fuel : nat) : P cmd :=
  match fuel with
  | O => no_fuel
  | S k =>
      open ← peek "(";
      if negb open then sh_panic "parseblock"
      else
        _ ← gettoken;
        c ← parseline k;
        close ← peek ")";
        if negb close then sh_panic "syntax - missing )"
        else _ ← gettoken; parseredirs k c
  end.

End parser.

(** [nulterminate] stores a NUL at the end of every string; [b] is the buffer
    with its terminating NUL. *)
Fixpoint nulterminate (b : list Z) (c : cmd) : list Z :=
  match c with
  | EXEC argv => fold_left (fun b (a : nat * nat) => <[snd a := 0]> b) argv b
  | REDIR c _ efile _ _ => <[efile := 0]> (nulterminate b c)
  | PIPE l r => nulterminate (nulterminate b l) r
  | LIST l r => nulterminate (nulterminate b l) r
  | BACK c => nulterminate b c
  end.

(** [parsecmd]: the command and the buffer its strings point into. *)
Definition parsecmd (fuel : nat) (s : list Z) : pres (cmd * list Z) :=
  match parseline s fuel O with
  | POk c p =>
      match peek s "" p with
      | POk _ p =>
          if negb (p =? length s)%nat then PExit "syntax"
          else POk (c, nulterminate (s ++ [0]) c) p
      | PExit e => PExit e
      | PFuel => PFuel
      end
  | PExit e => PExit e
  | PFuel => PFuel
  end.

(** Enough fuel for a line of this length. *)
Definition parse_fuel (s : list Z) : nat := 4 * length s + 4.
