(* ===== verification/ShParse.v ===== *)
(** Correctness of the shell's parser ([sh.c]): every input is parsed or
    rejected, and every spelling of a command parses to that command.

    The abstract side is a tree of commands with words in place of pointers,
    the token sequence that writes it down (with parentheses where the
    grammar needs them) and the texts that spell a token sequence. *)

From S2P Require Import Prelude CString Ulib Grep Sh.

(** ** Words, tokens and their spellings *)

Definition word_char (c : Z) : bool :=
  negb (is_in whitespace c) && negb (is_in symbols c).

Inductive redir := RIn | ROut | RApp.

Inductive token := Word (w : list Z) | Sym (c : Z) | Append.

Inductive scmd :=
| SExec (args : list (list Z))
| SRedir (c : scmd) (k : redir) (file : list Z)
| SPipe (l r : scmd)
| SList (l r : scmd)
| SBack (c : scmd).

Definition tok_text (t : token) : list Z :=
  match t with Word w => w | Sym c => [c] | Append => [62; 62] end.
Definition tok_code (t : token) : Z :=
  match t with Word _ => 97 | Sym c => c | Append => 43 end.
Definition word_ok (w : list Z) : Prop := w <> [] /\ Forall (fun c => c <> 0 /\ word_char c = true) w.
Definition tok_ok (t : token) : Prop :=
  match t with Word w => word_ok w | Sym c => is_in symbols c = true | Append => True end.

(** What may follow a token without a space. *)
Definition ends (t : token) (rest : list Z) : Prop :=
  match rest with
  | [] => True
  | c :: _ =>
      match t with
      | Word _ => word_char c = false
      | Sym d => d = 62 -> c <> 62
      | Append => True
      end
  end.

Inductive spells : list token -> list Z -> Prop :=
| sp_nil ws : Forall (fun c => is_in whitespace c = true) ws -> spells [] ws
| sp_cons ws t ts rest :
    Forall (fun c => is_in whitespace c = true) ws -> tok_ok t -> ends t rest -> spells ts rest ->
    spells (t :: ts) (ws ++ tok_text t ++ rest).

(** ** The tokens of a command: level 0 is an argument of a pipe, 1 a
    pipeline, 2 what may be put in the background, 3 a list. *)

Definition redir_toks (r : redir * list Z) : list token :=
  [match fst r with RIn => Sym 60 | ROut => Sym 62 | RApp => Append end; Word (snd r)].

Definition paren (b : bool) (ts : list token) : list token :=
  if b then Sym 40 :: ts ++ [Sym 41] else ts.

Fixpoint cmd_toks (lvl : nat) (c : scmd) : list token :=
  match c with
  | SExec args => Word <$> args
  | SRedir c k f => cmd_toks 0 c ++ redir_toks (k, f)
  | SPipe l r => paren (lvl <? 1)%nat (cmd_toks 0 l ++ Sym 124 :: cmd_toks 1 r)
  | SBack c => paren (lvl <? 2)%nat (cmd_toks 2 c ++ [Sym 38])
  | SList l r => paren (lvl <? 3)%nat (cmd_toks 2 l ++ Sym 59 :: cmd_toks 3 r)
  end.

(** At most [MAXARGS - 1] arguments, words without blanks and symbols. *)
Fixpoint scmd_ok (c : scmd) : Prop :=
  match c with
  | SExec args => (length args < MAXARGS)%nat /\ Forall word_ok args
  | SRedir c _ f => scmd_ok c /\ word_ok f
  | SPipe l r => scmd_ok l /\ scmd_ok r
  | SList l r => scmd_ok l /\ scmd_ok r
  | SBack c => scmd_ok c
  end.

(** ** The parser's tree against the abstract one *)

Definition redir_mode (k : redir) : Z :=
  match k with RIn => O_RDONLY | _ => Z.lor O_WRONLY O_CREATE end.
Definition redir_fd (k : redir) : Z := match k with RIn => 0 | _ => 1 end.

(** The command with every string read from the buffer [b]. *)
Fixpoint denotes (rd : nat -> nat -> list Z -> Prop) (c : cmd) (a : scmd) : Prop :=
  match c, a with
  | EXEC argv, SExec args => Forall2 (fun (p : nat * nat) w => rd (fst p) (snd p) w) argv args
  | REDIR c q eq mode fd, SRedir a k f =>
      denotes rd c a /\ rd q eq f /\ mode = redir_mode k /\ fd = redir_fd k
  | PIPE l r, SPipe l' r' => denotes rd l l' /\ denotes rd r r'
  | LIST l r, SList l' r' => denotes rd l l' /\ denotes rd r r'
  | BACK c, SBack a => denotes rd c a
  | _, _ => False
  end.

(** The NUL-terminated string at offset [q]. *)
Definition string_at (b : list Z) (q _ : nat) (w : list Z) : Prop := c_str (drop q b) = w.

(** ** The lexer on a spelled text *)

Lemma is_in_spec l c : is_in l c = true <-> c ∈ l.
Proof.
  unfold is_in. destruct (strchr l c) eqn:E.
  - split; [|done]. intros _. apply strchr_Some in E as (pre & post & -> & _). set_solver.
  - apply strchr_None in E. split; [done|]. intros. exfalso. auto.
Qed.

Lemma ws_not_sym c : is_in whitespace c = true -> is_in symbols c = false.
Proof.
  rewrite is_in_spec. intros H. unfold whitespace in H.
  repeat (apply elem_of_cons in H as [->|H]; [reflexivity|]). by apply not_elem_of_nil in H.
Qed.

Lemma sym_cases c : is_in symbols c = true ->
  c = 60 \/ c = 124 \/ c = 62 \/ c = 38 \/ c = 59 \/ c = 40 \/ c = 41.
Proof.
  rewrite is_in_spec. intros H. unfold symbols, str in H. cbn in H.
  repeat (apply elem_of_cons in H as [->|H]; [tauto|]). by apply not_elem_of_nil in H.
Qed.

Section parsing.
Context (buf : list Z).
Hypothesis Hnul : 0 ∉ buf.

Lemma at_drop s c rest : drop s buf = c :: rest -> at_ buf s = c /\ (s < length buf)%nat.
Proof.
  intros H. assert (Hs : (s < length buf)%nat).
  { destruct (decide (s < length buf)%nat); [done|]. rewrite drop_ge in H by lia. done. }
  split; [|done]. unfold at_.
  rewrite <- (take_drop s buf), H, List.app_nth2 by (rewrite length_take; lia).
  rewrite length_take, Nat.min_l, Nat.sub_diag by lia. done.
Qed.

Lemma at_end s : drop s buf = [] -> at_ buf s = 0.
Proof.
  intros H. apply (f_equal length) in H. rewrite length_drop in H. simpl in H.
  unfold at_. apply nth_overflow. lia.
Qed.

Lemma drop_next s c rest : drop s buf = c :: rest -> drop (S s) buf = rest.
Proof. intros H. replace (S s) with (s + 1)%nat by lia. by rewrite <- drop_drop, H. Qed.

Lemma drop_app_next s l rest : drop s buf = l ++ rest -> drop (s + length l) buf = rest.
Proof. intros H. rewrite <- drop_drop, H. by rewrite drop_app_length. Qed.

Lemma skip_spec f k s l rest :
  (length buf - s <= k)%nat -> drop s buf = l ++ rest -> Forall (fun c => f c = true) l ->
  (match rest with [] => True | c :: _ => f c = false end) ->
  skip buf f k s = (s + length l)%nat.
Proof.
  revert s l. induction k as [|k IH]; intros s l Hk Hd Hl Hr.
  { assert (drop s buf = []) as E by (apply drop_ge; lia). rewrite E in Hd.
    destruct l; [simpl; lia|done]. }
  simpl. destruct l as [|c l]; simpl in *.
  - destruct rest as [|c rest].
    + assert (length buf <= s)%nat.
      { apply (f_equal length) in Hd. rewrite length_drop in Hd. simpl in Hd. lia. }
      rewrite (proj2 (Nat.ltb_ge _ _)) by lia. simpl. lia.
    + destruct (at_drop _ _ _ Hd) as [-> _]. rewrite Hr, andb_false_r. lia.
  - destruct (at_drop _ _ _ Hd) as [-> Hs]. inversion_clear Hl as [|? ? Hc Hl'].
    rewrite Hc, (proj2 (Nat.ltb_lt _ _)) by lia. simpl.
    rewrite (IH (S s) l); [lia|lia|by apply drop_next in Hd|done|done].
Qed.

(** The text at a pointer spells the tokens. *)
Definition ok (s : nat) (ts : list token) : Prop :=
  (s <= length buf)%nat /\ spells ts (drop s buf).

(** A string delimited by two pointers. *)
Definition span (q eq : nat) (w : list Z) : Prop :=
  (q < eq <= length buf)%nat /\ take (eq - q) (drop q buf) = w /\ Forall (fun c => word_char c = true) w
  /\ (match drop eq buf with [] => True | c :: _ => word_char c = false end).

Lemma tok_first t : tok_ok t -> exists c rest, tok_text t = c :: rest /\ is_in whitespace c = false.
Proof.
  destruct t as [w|c|]; simpl.
  - intros [Hne Hw]. destruct Hw as [|c w [_ Hc] Hw]; [done|]. exists c, w. split; [done|].
    unfold word_char in Hc. apply andb_true_iff in Hc as [Hc _]. by apply negb_true_iff in Hc.
  - intros H. exists c, []. split; [done|].
    destruct (is_in whitespace c) eqn:E; [|done]. apply ws_not_sym in E. congruence.
  - by exists 62, [62].
Qed.

(** Blanks before a token, and what is left after skipping them. *)
Lemma spells_skip s ts :
  ok s ts -> ok (skip_ws buf s) ts /\
  match ts with
  | [] => drop (skip_ws buf s) buf = []
  | t :: ts' => exists rest, drop (skip_ws buf s) buf = tok_text t ++ rest
      /\ tok_ok t /\ ends t rest /\ spells ts' rest
  end.
Proof.
  intros [Hs Hsp]. unfold skip_ws.
  inversion Hsp as [ws Hws E1 E2|ws t ts' rest Hws Ht Hend Hts E1 E2]; subst ts.
  - rewrite (skip_spec _ _ s (drop s buf) []); [|lia|by rewrite app_nil_r|exact Hws|done].
    rewrite length_drop. replace (s + (length buf - s))%nat with (length buf) by lia.
    rewrite drop_all. split; [|done]. split; [done|]. rewrite drop_all. by constructor.
  - destruct (tok_first t Ht) as (c & r & Et & Hc).
    symmetry in E2. rewrite (skip_spec _ _ s ws (tok_text t ++ rest)); [|lia|done|done|by rewrite Et].
    assert (Hd : drop (s + length ws) buf = tok_text t ++ rest) by (by apply drop_app_next).
    rewrite Hd. split; [|by exists rest]. split.
    + apply (f_equal length) in E2. rewrite length_app, length_drop in E2. lia.
    + rewrite Hd. by apply (sp_cons []).
Qed.

Lemma at_text s t rest : drop s buf = tok_text t ++ rest -> tok_ok t ->
  exists c, at_ buf s = c /\ c <> 0 /\ is_in whitespace c = false /\ (s < length buf)%nat
    /\ (exists r, tok_text t = c :: r).
Proof.
  intros Hd Ht. destruct (tok_first t Ht) as (c & r & Et & Hc). rewrite Et in Hd. simpl in Hd.
  destruct (at_drop _ _ _ Hd) as [Ha Hs]. exists c. repeat split; eauto.
  intros ->. apply Hnul. rewrite <- (take_drop s buf), Hd. set_solver.
Qed.

Lemma after_token s n ts rest :
  drop s buf = rest -> spells ts (drop n rest) -> (s + n <= length buf)%nat ->
  ok (skip_ws buf (s + n)) ts.
Proof. intros <- H Hs. apply spells_skip. split; [done|]. by rewrite <- drop_drop. Qed.

(** [m] consumes the tokens [ts] up to [ts'] and returns a value in [R]. *)
Definition parses {A} (m : P A) (ts ts' : list token) (R : A -> Prop) : Prop :=
  forall s, ok s ts -> exists a s', m s = POk a s' /\ ok s' ts' /\ R a.

Lemma parses_bind {A B} (m : P A) (k : A -> P B) ts ts1 ts2 R R' :
  parses m ts ts1 R -> (forall a, R a -> parses (k a) ts1 ts2 R') -> parses (m ≫= k) ts ts2 R'.
Proof.
  intros Hm Hk s Hs. destruct (Hm s Hs) as (a & s1 & E & H1 & Ha).
  destruct (Hk a Ha s1 H1) as (b & s2 & E2 & H2 & Hb).
  exists b, s2. unfold mbind, P_bind. by rewrite E.
Qed.

Lemma parses_ret {A} (a : A) ts (R : A -> Prop) : R a -> parses (mret a) ts ts R.
Proof. intros H s Hs. by exists a, s. Qed.

Definition first_in (toks : string) (ts : list token) : bool :=
  match ts with
  | [] => false
  | Word _ :: _ => false
  | Sym c :: _ => is_in (str toks) c
  | Append :: _ => is_in (str toks) 62
  end.

(** [peek] looks at the next token, for the sets of symbols the parser asks. *)
Lemma parses_peek toks ts :
  (forall c, is_in (str toks) c = true -> is_in symbols c = true) ->
  parses (peek buf toks) ts ts (fun b => b = first_in toks ts).
Proof.
  intros Hsub s Hs. unfold peek. destruct (spells_skip s ts Hs) as [Hok Hd].
  eexists _, _. split; [reflexivity|]. split; [exact Hok|].
  destruct ts as [|t ts]; simpl.
  { by rewrite (at_end _ Hd). }
  destruct Hd as (rest & Hd & Ht & _ & _).
  destruct (at_text _ _ _ Hd Ht) as (c & -> & Hc0 & Hws & _ & r & Et).
  rewrite (proj2 (Z.eqb_neq c 0)) by done. simpl.
  destruct t as [w|c'|]; simpl in *; [|congruence..].
  destruct (is_in (str toks) c) eqn:E; [|done]. apply Hsub in E.
  destruct Ht as [_ Hw]. rewrite Et in Hw. inversion_clear Hw as [|? ? [_ Hw'] _].
  unfold word_char in Hw'. rewrite E in Hw'. by rewrite andb_false_r in Hw'.
Qed.

Lemma parses_gettoken_end : parses (gettoken buf) [] [] (fun '(c, _, _) => c = 0).
Proof.
  intros s Hs. destruct (spells_skip s [] Hs) as [Hok Hd]. unfold gettoken.
  rewrite (at_end _ Hd). simpl. eexists _, _. split; [reflexivity|]. split; [|done].
  by apply spells_skip.
Qed.

Lemma skip_word_spec s w rest :
  drop s buf = w ++ rest -> Forall (fun c => c <> 0 /\ word_char c = true) w ->
  ends (Word w) rest -> skip_word buf s = (s + length w)%nat.
Proof.
  intros Hd Hw He. unfold skip_word. apply (skip_spec _ _ s w rest); [lia|done| |].
  - eapply Forall_impl; [exact Hw|]. simpl. by intros c [_ H].
  - by destruct rest.
Qed.

(** [gettoken] returns the code of the next token, and the span of a word. *)
Lemma parses_gettoken t ts :
  parses (gettoken buf) (t :: ts) ts
    (fun '(c, q, eq) => c = tok_code t /\ forall w, t = Word w -> span q eq w).
Proof.
  intros s Hs. destruct (spells_skip s _ Hs) as [[Hle _] (rest & Hd & Ht & Hend & Hts)].
  unfold gettoken. set (s0 := skip_ws buf s) in *.
  destruct (at_text _ _ _ Hd Ht) as (c & Ha & Hc0 & Hws & Hlt & r & Et). rewrite Ha.
  assert (Hlen : (s0 + length (tok_text t) <= length buf)%nat).
  { apply (f_equal length) in Hd. rewrite length_drop, length_app in Hd. lia. }
  assert (Hafter : ok (skip_ws buf (s0 + length (tok_text t))) ts).
  { eapply after_token; [exact Hd| |done]. by rewrite drop_app_length. }
  rewrite (proj2 (Z.eqb_neq c 0)) by done.
  destruct t as [w|c'|]; simpl in Et.
  - destruct Ht as [Hne Hw]. pose proof Hw as Hw'. rewrite Et in Hw'.
    inversion_clear Hw' as [|? ? [_ Hwc] _].
    assert (Hns : is_in symbols c = false)
      by (unfold word_char in Hwc; apply andb_true_iff in Hwc as [_ H]; by apply negb_true_iff in H).
    assert (Hnsym : forall x, is_in symbols x = true -> (c =? x) = false)
      by (intros x Hx; apply Z.eqb_neq; intros ->; congruence).
    rewrite !Hnsym by reflexivity. simpl. rewrite (skip_word_spec _ w rest) by done.
    eexists _, _. split; [reflexivity|]. split; [exact Hafter|]. split; [done|].
    intros w' [= <-]. split; [|split; [|split]].
    + assert (0 < length w)%nat by (destruct w; [done|simpl; lia]). simpl in Hlen. lia.
    + replace (s0 + length w - s0)%nat with (length w) by lia. simpl in Hd. by rewrite Hd, take_app_length.
    + eapply Forall_impl; [exact Hw|]. by intros ? [].
    + simpl in Hd. rewrite (drop_app_next _ _ _ Hd). by destruct rest.
  - injection Et as -> <-. simpl in Hafter. replace (s0 + 1)%nat with (S s0) in Hafter by lia.
    eexists (c, s0, S s0), _. split; [|split; [exact Hafter|done]].
    simpl in Ht. destruct (sym_cases c Ht) as [-> | [-> | [-> | [-> | [-> | [-> | ->]]]]]]; try reflexivity.
    simpl. simpl in Hd. replace (at_ buf (S s0) =? 62) with false; [done|]. symmetry. apply Z.eqb_neq.
    apply drop_next in Hd. destruct rest as [|d rest]; [by rewrite (at_end _ Hd)|].
    destruct (at_drop _ _ _ Hd) as [-> _]. by apply Hend.
  - injection Et as <- <-. simpl in Hafter. replace (s0 + 2)%nat with (S (S s0)) in Hafter by lia.
    simpl in Hd. apply drop_next in Hd. destruct (at_drop _ _ _ Hd) as [E _].
    simpl. rewrite E. simpl. eexists _, _. split; [reflexivity|]. split; [exact Hafter|done].
Qed.

(** ** The parser on the tokens of a command *)

Notation reads := (denotes span).

Ltac sym_set := intros ?; rewrite !is_in_spec; unfold symbols, str; cbn; set_solver.

Lemma peek_step {B} toks (k : bool -> P B) ts ts' R :
  (forall c, is_in (str toks) c = true -> is_in symbols c = true) ->
  parses (k (first_in toks ts)) ts ts' R -> parses (b ← peek buf toks; k b) ts ts' R.
Proof. intros H1 H2. eapply parses_bind; [by apply parses_peek|]. by intros b ->. Qed.

Lemma token_step {B} (k : Z * nat * nat -> P B) t ts ts' R :
  (forall q eq, (forall w, t = Word w -> span q eq w) -> parses (k (tok_code t, q, eq)) ts ts' R) ->
  parses (x ← gettoken buf; k x) (t :: ts) ts' R.
Proof. intros H. eapply parses_bind; [apply parses_gettoken|]. intros [[c q] eq] [-> Hw]. by apply H. Qed.

Definition wrap (c : scmd) (rs : list (redir * list Z)) : scmd :=
  fold_left (fun c r => SRedir c (fst r) (snd r)) rs c.

(** After a simple command: the end, or one of the closing symbols. *)
Definition follow (l : list Z) (ts : list token) : Prop :=
  match ts with [] => True | Sym c :: _ => c ∈ l | _ => False end.

Lemma first_in_follow toks l ts :
  follow l ts -> (forall c, c ∈ l -> is_in (str toks) c = false) -> first_in toks ts = false.
Proof. destruct ts as [|[w|c|] ts]; simpl; try done. auto. Qed.

Lemma parse_redirs rs k c a ts :
  (length rs < k)%nat -> first_in "<>" ts = false -> reads c a ->
  parses (parseredirs buf k c) (concat (redir_toks <$> rs) ++ ts) ts (fun c' => reads c' (wrap a rs)).
Proof.
  revert k c a. induction rs as [|[rk f] rs IH]; intros k c a Hk Hts Hc.
  - destruct k as [|k]; simpl in *; [lia|]. apply peek_step; [sym_set|]. rewrite Hts. by apply parses_ret.
  - destruct k as [|k]; simpl in *; [lia|].
    apply peek_step; [sym_set|]. replace (first_in "<>" _) with true by (by destruct rk).
    cbv iota. apply token_step. intros q0 eq0 _. apply token_step. intros q eq Hw. simpl.
    apply IH; [lia|done|]. specialize (Hw _ eq_refl).
    destruct rk; simpl; repeat split; try done; apply Hw.
Qed.

Lemma reads_wrap_add a c q eq w rs args :
  reads c (wrap (SExec args) rs) -> span q eq w -> a = wrap (SExec (args ++ [w])) rs -> reads (add_arg c q eq) a.
Proof.
  intros Hc Hw ->. revert c Hc. induction rs as [|[k f] rs IH] using rev_ind; intros c Hc.
  - destruct c; simpl in *; try done. apply Forall2_app; [done|]. constructor; [done|constructor].
  - unfold wrap in *. rewrite fold_left_app in *. simpl in *. destruct c; simpl in *; try done.
    destruct Hc as (Hc & ?). split; [by apply IH|done].
Qed.

(** The argument loop stops before a closing symbol. *)
Lemma args_end k c n ts (R : cmd -> Prop) :
  (0 < k)%nat -> follow [124; 41; 38; 59] ts -> R c -> parses (parseargs buf k c n) ts ts R.
Proof.
  intros Hk Hts Hc. destruct k as [|k]; [lia|]. simpl.
  apply peek_step; [sym_set|]. destruct ts as [|[w|d|] ts]; simpl in *; try done.
  - eapply parses_bind; [apply parses_gettoken_end|]. intros [[d ?] ?] ->. simpl. by apply parses_ret.
  - rewrite (proj2 (is_in_spec _ d)); [by apply parses_ret|]. unfold str. cbn. set_solver.
Qed.

Lemma parse_args more k c args rs ts :
  (length more + length rs < k)%nat -> follow [124; 41; 38; 59] ts ->
  (length (args ++ more) < MAXARGS)%nat -> (more = [] -> rs = []) ->
  reads c (SExec args) ->
  parses (parseargs buf k c (length args)) ((Word <$> more) ++ concat (redir_toks <$> rs) ++ ts) ts
    (fun c' => reads c' (wrap (SExec (args ++ more)) rs)).
Proof.
  revert k c args. induction more as [|w more IH]; intros k c args Hk Hts Hm Hrs Hc.
  - rewrite Hrs, app_nil_r by done. simpl. apply args_end; [lia|done|done].
  - destruct k as [|k]; [simpl in Hk; lia|]. cbn [parseargs]. apply peek_step; [sym_set|]. cbn [first_in fmap list_fmap app].
    apply token_step. intros q eq Hw. cbn -[MAXARGS Nat.leb parseargs parseredirs]. rewrite length_app in Hm. simpl in Hm.
    rewrite (proj2 (Nat.leb_gt MAXARGS (S (length args)))) by lia.
    assert (Hadd : reads (add_arg c q eq) (SExec (args ++ [w])))
      by (apply (reads_wrap_add _ c q eq w [] args); auto).
    replace (S (length args)) with (length (args ++ [w])) by (rewrite length_app; simpl; lia).
    replace (args ++ w :: more) with ((args ++ [w]) ++ more) by (by rewrite <- app_assoc).
    destruct more as [|w' more].
    + (* the redirections follow the last argument *)
      simpl. eapply parses_bind.
      * apply (parse_redirs rs k _ (SExec (args ++ [w])) ts); [simpl in Hk; lia| |exact Hadd].
        apply (first_in_follow _ _ _ Hts). intros d Hd. destruct (is_in _ d) eqn:E; [|done].
        apply is_in_spec in E. unfold str in E. cbn in E. set_solver.
      * intros c' Hc'. simpl in Hc'. rewrite app_nil_r.
        apply args_end; [simpl in Hk; lia|done|done].
    + eapply parses_bind.
      * apply (parse_redirs [] k _ (SExec (args ++ [w])) ((Word <$> w' :: more) ++ concat (redir_toks <$> rs) ++ ts)); [simpl in *; lia|done|exact Hadd].
      * intros c' Hc'. apply IH; [simpl in *; lia|done| |done|done].
        rewrite !length_app in *. simpl in *. lia.
Qed.

Lemma parses_assoc {A B C} (m : P A) (f : A -> P B) (g : B -> P C) ts ts1 ts2 R R' :
  parses (m ≫= f) ts ts1 R -> (forall b, R b -> parses (g b) ts1 ts2 R') ->
  parses (m ≫= fun a => f a ≫= g) ts ts2 R'.
Proof.
  intros Hm Hg s Hs. destruct (Hm s Hs) as (b & s1 & E & H1 & Hb).
  destruct (Hg b Hb s1 H1) as (c & s2 & E2 & H2 & Hc). exists c, s2.
  revert E. unfold mbind, P_bind. destruct (m s) as [a s0| |]; try done. intros E. by rewrite E.
Qed.

Fixpoint backs (n : nat) (c : scmd) : scmd := match n with O => c | S n => backs n (SBack c) end.

Lemma parse_backs n k c a ts :
  (n < k)%nat -> follow [41; 59] ts -> reads c a ->
  parses (parseback buf k c) (replicate n (Sym 38) ++ ts) ts (fun c' => reads c' (backs n a)).
Proof.
  revert k c a. induction n as [|n IH]; intros [|k] c a Hk Hts Hc; try lia.
  - simpl. apply peek_step; [sym_set|]. rewrite (first_in_follow _ _ _ Hts) by set_solver.
    by apply parses_ret.
  - cbn [replicate app parseback]. apply peek_step; [sym_set|]. change (first_in "&" _) with true. cbv iota.
    apply token_step. intros q eq _. apply IH; [lia|done|exact Hc].
Qed.

(** The parser's four levels on the tokens of one command. *)
Definition exec_ok (c : scmd) : Prop := forall k rs ts,
  (4 * (length (cmd_toks 0 c) + 2 * length rs) + 2 <= k)%nat -> follow [124; 41; 38; 59] ts ->
  parses (parseexec buf k) (cmd_toks 0 c ++ concat (redir_toks <$> rs) ++ ts) ts (fun a => reads a (wrap c rs)).
Definition pipe_ok (c : scmd) : Prop := forall k ts,
  (4 * length (cmd_toks 1 c) + 3 <= k)%nat -> follow [41; 38; 59] ts ->
  parses (parsepipe buf k) (cmd_toks 1 c ++ ts) ts (fun a => reads a c).
Definition back_ok (c : scmd) : Prop := forall k n ts,
  (4 * (length (cmd_toks 2 c) + n) + 3 <= k)%nat -> follow [41; 59] ts ->
  parses (parsepipe buf k ≫= parseback buf k) (cmd_toks 2 c ++ replicate n (Sym 38) ++ ts) ts
    (fun a => reads a (backs n c)).
Definition line_ok (c : scmd) : Prop := forall k ts,
  (4 * length (cmd_toks 3 c) + 4 <= k)%nat -> follow [41] ts ->
  parses (parseline buf k) (cmd_toks 3 c ++ ts) ts (fun a => reads a c).

Lemma follow_weaken l l' ts : follow l ts -> (forall c, c ∈ l -> c ∈ l') -> follow l' ts.
Proof. destruct ts as [|[w|c|] ts]; simpl; auto. Qed.

Lemma exec_simple args : scmd_ok (SExec args) -> exec_ok (SExec args).
Proof.
  intros [Hn Hw] k rs ts Hk Hts. destruct k as [|k]; [lia|]. cbn [parseexec cmd_toks] in *.
  rewrite length_fmap in Hk.
  assert (Hfr : first_in "<>" ts = false) by (apply (first_in_follow _ _ _ Hts); set_solver).
  apply peek_step; [sym_set|].
  replace (first_in "(" _) with false.
  2:{ destruct args; [|done]. destruct rs as [|[[] f] rs]; try done. simpl.
      symmetry. apply (first_in_follow _ _ _ Hts). set_solver. }
  cbv iota. destruct args as [|w args].
  - eapply parses_bind; [apply (parse_redirs rs k execcmd (SExec []) ts); [simpl in *; lia|done|constructor]|].
    intros c Hc. apply args_end; [lia|done|done].
  - eapply parses_bind.
    + apply (parse_redirs [] k execcmd (SExec []) ((Word <$> w :: args) ++ concat (redir_toks <$> rs) ++ ts));
        [simpl in *; lia|done|constructor].
    + intros c Hc. apply (parse_args (w :: args) k c []); [simpl in *; lia|done|done|done|exact Hc].
Qed.

Lemma pipe_of_exec c : cmd_toks 1 c = cmd_toks 0 c -> exec_ok c -> pipe_ok c.
Proof.
  intros E H [|k] ts Hk Hts; [lia|]. cbn [parsepipe]. rewrite E in *.
  eapply parses_bind; [apply (H k [] ts); [simpl; lia|by eapply follow_weaken; [exact Hts|set_solver]]|].
  intros a Ha. apply peek_step; [sym_set|]. rewrite (first_in_follow _ _ _ Hts) by set_solver.
  by apply parses_ret.
Qed.

Lemma back_of_pipe c : cmd_toks 2 c = cmd_toks 1 c -> pipe_ok c -> back_ok c.
Proof.
  intros E H k n ts Hk Hts. rewrite E in *.
  eapply parses_bind; [apply H; [lia|]|].
  - destruct n; simpl; [eapply follow_weaken; [exact Hts|set_solver]|set_solver].
  - intros a Ha. apply parse_backs; [lia|done|done].
Qed.

Lemma line_of_back c : cmd_toks 3 c = cmd_toks 2 c -> back_ok c -> line_ok c.
Proof.
  intros E H [|k] ts Hk Hts; [lia|]. cbn [parseline]. rewrite E in *.
  eapply parses_assoc.
  - apply (H k O ts); [lia|]. eapply follow_weaken; [exact Hts|set_solver].
  - intros a Ha. apply peek_step; [sym_set|]. rewrite (first_in_follow _ _ _ Hts) by set_solver.
    by apply parses_ret.
Qed.

Lemma exec_of_line c : cmd_toks 0 c = Sym 40 :: cmd_toks 3 c ++ [Sym 41] -> line_ok c -> exec_ok c.
Proof.
  intros E H [|[|k]] rs ts Hk Hts; try lia. cbn [parseexec]. rewrite E in *.
  rewrite length_cons, length_app in Hk. simpl in Hk.
  cbn [app]. apply peek_step; [sym_set|]. change (first_in "(" _) with true. cbv iota. cbn [parseblock].
  apply peek_step; [sym_set|]. change (first_in "(" _) with true. cbn [negb]. cbv iota.
  apply token_step. intros q eq _. rewrite <- app_assoc.
  eapply parses_bind; [apply H; [lia|simpl; set_solver]|]. intros a Ha. cbn [app].
  apply peek_step; [sym_set|]. change (first_in ")" _) with true. cbn [negb]. cbv iota.
  apply token_step. intros q' eq' _. apply parse_redirs; [lia| |done].
  apply (first_in_follow _ _ _ Hts). set_solver.
Qed.

Lemma parse_levels c : scmd_ok c -> exec_ok c /\ pipe_ok c /\ back_ok c /\ line_ok c.
Proof.
  induction c as [args|c IH rk f|l IHl r IHr|l IHl r IHr|c IH]; simpl.
  - intros H. assert (He : exec_ok (SExec args)) by (by apply exec_simple).
    assert (Hp : pipe_ok (SExec args)) by (by apply pipe_of_exec).
    assert (Hb : back_ok (SExec args)) by (by apply back_of_pipe).
    repeat split; try done. by apply line_of_back.
  - intros [Hc Hf]. destruct (IH Hc) as (He & _).
    assert (He' : exec_ok (SRedir c rk f)).
    { intros k rs ts Hk Hts. cbn [cmd_toks] in *. rewrite <- app_assoc.
      apply (He k ((rk, f) :: rs) ts); [|done]. rewrite length_app in Hk. simpl in *. lia. }
    assert (Hp : pipe_ok (SRedir c rk f)) by (by apply pipe_of_exec).
    assert (Hb : back_ok (SRedir c rk f)) by (by apply back_of_pipe).
    repeat split; try done. by apply line_of_back.
  - intros [Hl Hr]. destruct (IHl Hl) as (He & _), (IHr Hr) as (_ & Hp & _).
    assert (Hp' : pipe_ok (SPipe l r)).
    { intros [|k] ts Hk Hts; [lia|]. cbn [parsepipe cmd_toks paren Nat.ltb Nat.leb] in *.
      rewrite length_app in Hk. simpl in Hk. rewrite <- app_assoc. cbn [app].
      eapply parses_bind; [apply (He k [] (Sym 124 :: cmd_toks 1 r ++ ts)); [simpl; lia|simpl; set_solver]|].
      intros a Ha. apply peek_step; [sym_set|]. change (first_in "|" _) with true. cbv iota.
      apply token_step. intros q eq _. eapply parses_bind; [apply Hp; [lia|done]|].
      intros b Hb. by apply parses_ret. }
    assert (Hb : back_ok (SPipe l r)) by (by apply back_of_pipe).
    assert (Hln : line_ok (SPipe l r)) by (by apply line_of_back).
    repeat split; try done. by apply exec_of_line.
  - intros [Hl Hr]. destruct (IHl Hl) as (_ & _ & Hb & _), (IHr Hr) as (_ & _ & _ & Hln).
    assert (Hln' : line_ok (SList l r)).
    { intros [|k] ts Hk Hts; [lia|]. cbn [parseline cmd_toks paren Nat.ltb Nat.leb] in *.
      rewrite length_app in Hk. simpl in Hk. rewrite <- app_assoc. cbn [app].
      eapply parses_assoc; [apply (Hb k O (Sym 59 :: cmd_toks 3 r ++ ts)); [lia|simpl; set_solver]|].
      intros a Ha. apply peek_step; [sym_set|]. change (first_in ";" _) with true. cbv iota.
      apply token_step. intros q eq _. eapply parses_bind; [apply Hln; [lia|done]|].
      intros b Hb'. by apply parses_ret. }
    assert (He : exec_ok (SList l r)) by (by apply exec_of_line).
    assert (Hp : pipe_ok (SList l r)) by (by apply pipe_of_exec).
    repeat split; try done. by apply back_of_pipe.
  - intros Hc. destruct (IH Hc) as (_ & _ & Hb & _).
    assert (Hb' : back_ok (SBack c)).
    { intros k n ts Hk Hts. cbn [cmd_toks paren Nat.ltb Nat.leb] in *. rewrite length_app in Hk. simpl in Hk.
      rewrite <- app_assoc. apply (Hb k (S n) ts); [lia|done]. }
    assert (Hln : line_ok (SBack c)) by (by apply line_of_back).
    assert (He : exec_ok (SBack c)) by (by apply exec_of_line).
    repeat split; try done. by apply pipe_of_exec.
Qed.
End parsing.

(** ** The NULs that end the strings *)

Fixpoint str_ends (c : cmd) : list nat :=
  match c with
  | EXEC argv => snd <$> argv
  | REDIR c _ efile _ _ => str_ends c ++ [efile]
  | PIPE l r => str_ends l ++ str_ends r
  | LIST l r => str_ends l ++ str_ends r
  | BACK c => str_ends c
  end.

Lemma nulterminate_fold b c :
  nulterminate b c = fold_left (fun (b : list Z) e => <[e := 0]> b) (str_ends c) b.
Proof.
  revert b. induction c as [argv|c IH|l IHl r IHr|l IHl r IHr|c IH]; intros b; simpl.
  - revert b. induction argv as [|[q e] argv IH]; intros b; simpl; [done|apply IH].
  - rewrite fold_left_app. simpl. by rewrite IH.
  - by rewrite fold_left_app, IHl, IHr.
  - by rewrite fold_left_app, IHl, IHr.
  - apply IH.
Qed.

Lemma put_nuls (es : list nat) (b : list Z) i :
  fold_left (fun (b : list Z) e => <[e := 0]> b) es b !! i =
  if decide (i ∈ es) then (fun _ => 0) <$> b !! i else b !! i.
Proof.
  revert b. induction es as [|e es IH]; intros b; simpl; [done|]. rewrite IH.
  destruct (decide (i = e)) as [->|Hne].
  - assert (He : e ∈ e :: es) by (apply elem_of_cons; by left). rewrite (decide_True _ _ He).
    destruct (decide (e < length b)%nat) as [Hlt|Hge].
    + rewrite list_lookup_insert_eq by done. destruct (lookup_lt_is_Some_2 b e Hlt) as [x ->].
      by destruct (decide (e ∈ es)).
    + rewrite list_insert_ge, (lookup_ge_None_2 b e) by lia. by destruct (decide (e ∈ es)).
  - rewrite list_lookup_insert_ne by done.
    destruct (decide (i ∈ es)); [rewrite decide_True by set_solver|rewrite decide_False by set_solver]; done.
Qed.

Lemma c_str_app w rest : 0 ∉ w -> c_str (w ++ 0 :: rest) = w.
Proof.
  induction w as [|c w IH]; [done|]. rewrite not_elem_of_cons. intros [Hc Hw]. simpl.
  rewrite (proj2 (Z.eqb_neq c 0)) by done. by rewrite IH.
Qed.

(** A delimited string is the C string at its start once the NULs are in. *)
Lemma span_string buf (es : list nat) q eq w :
  0 ∉ buf ->
  (forall e, e ∈ es -> match drop e buf with [] => True | c :: _ => word_char c = false end) ->
  eq ∈ es -> span buf q eq w ->
  string_at (fold_left (fun (b : list Z) e => <[e := 0]> b) es (buf ++ [0])) q eq w.
Proof.
  intros Hnul Hes Heq (Hq & Hw & Hch & _). unfold string_at.
  set (b' := fold_left _ es _).
  assert (Hin : forall i, (q <= i < eq)%nat -> b' !! i = buf !! i).
  { intros i Hi. unfold b'. rewrite put_nuls. rewrite decide_False.
    - by rewrite lookup_app_l by lia.
    - intros Hin. specialize (Hes _ Hin).
      destruct (drop i buf) as [|c rest] eqn:Hd.
      + apply (f_equal length) in Hd. rewrite length_drop in Hd. simpl in Hd. lia.
      + assert (Hc : w !! (i - q)%nat = Some c).
        { rewrite <- Hw, lookup_take_lt, lookup_drop by lia. replace (q + (i - q))%nat with i by lia.
          rewrite <- (Nat.add_0_r i), <- lookup_drop, Hd. done. }
        pose proof (Forall_lookup_1 _ _ _ _ Hch Hc) as Hwc. simpl in Hwc. congruence. }
  assert (Hend : b' !! eq = Some 0).
  { unfold b'. rewrite put_nuls, decide_True by done.
    destruct (lookup_lt_is_Some_2 (buf ++ [0]) eq) as [x ->]; [rewrite length_app; simpl; lia|done]. }
  assert (Hb' : drop q b' = w ++ 0 :: drop (S eq) b').
  { rewrite <- (take_drop (eq - q) (drop q b')). f_equal.
    - rewrite <- Hw. apply list_eq. intros i. destruct (decide (i < eq - q)%nat).
      + rewrite !lookup_take_lt, !lookup_drop by lia. apply Hin. lia.
      + by rewrite !lookup_take_ge by lia.
    - rewrite drop_drop. replace (q + (eq - q))%nat with eq by lia. by apply drop_S. }
  rewrite Hb'. apply c_str_app. rewrite <- Hw. intros H%elem_of_take. destruct H as (i & Hi & _).
  rewrite lookup_drop in Hi. apply Hnul. by apply list_elem_of_lookup_2 in Hi.
Qed.

Lemma denotes_impl (R R' : nat -> nat -> list Z -> Prop) c a :
  denotes R c a -> (forall q e w, e ∈ str_ends c -> R q e w -> R' q e w) -> denotes R' c a.
Proof.
  revert a. induction c as [argv|c IH|l IHl r IHr|l IHl r IHr|c IH]; intros [args|a k f|a1 a2|a1 a2|a];
    simpl; try done.
  - intros H HR. induction H as [|[q e] w argv args Hw H IH]; constructor; simpl in *.
    + apply HR; [set_solver|done].
    + apply IH. intros. apply HR; [set_solver|done].
  - intros (Hc & Hf & ?) HR. split; [|split; [apply HR; [set_solver|done]|done]].
    apply IH; [done|]. intros. apply HR; [set_solver|done].
  - intros [Hl Hr] HR. split; [apply IHl|apply IHr]; try done; intros; apply HR; set_solver.
  - intros [Hl Hr] HR. split; [apply IHl|apply IHr]; try done; intros; apply HR; set_solver.
  - intros H HR. by apply IH.
Qed.

(** Every string of a parsed command is delimited in the line. *)
Lemma denotes_ends buf c a :
  denotes (span buf) c a -> forall e, e ∈ str_ends c ->
  match drop e buf with [] => True | c :: _ => word_char c = false end.
Proof.
  revert a. induction c as [argv|c IH|l IHl r IHr|l IHl r IHr|c IH]; intros [args|a k f|a1 a2|a1 a2|a];
    simpl; try done.
  - intros H e. induction H as [|[q e'] w argv args Hw H IH]; simpl; [set_solver|].
    intros [->|Hin]%elem_of_cons; [by destruct Hw as (_ & _ & _ & ?)|by apply IH].
  - intros (Hc & Hf & _) e [Hin| ->%list_elem_of_singleton]%elem_of_app; [by eapply IH|].
    by destruct Hf as (_ & _ & _ & ?).
  - intros [Hl Hr] e [Hin|Hin]%elem_of_app; [by eapply IHl|by eapply IHr].
  - intros [Hl Hr] e [Hin|Hin]%elem_of_app; [by eapply IHl|by eapply IHr].
  - intros H. by eapply IH.
Qed.

Lemma spells_length ts text : spells ts text -> (length ts <= length text)%nat.
Proof.
  induction 1 as [ws _|ws t ts rest _ Ht _ _ IH]; simpl; [lia|]. rewrite !length_app.
  destruct (tok_first t Ht) as (c & r & -> & _). simpl. lia.
Qed.

Lemma parse_spelled a text :
  scmd_ok a -> 0 ∉ text -> spells (cmd_toks 3 a) text ->
  exists c b s, parsecmd (parse_fuel text) text = POk (c, b) s /\ denotes (string_at b) c a.
Proof.
  intros Ha Hnul Hsp. destruct (parse_levels text Hnul a Ha) as (_ & _ & _ & Hline).
  pose proof (spells_length _ _ Hsp) as Hlen.
  destruct (Hline (parse_fuel text) [] ltac:(unfold parse_fuel; lia) I O) as (c & s & Hp & Hok & Hc).
  { split; [lia|]. by rewrite app_nil_r. }
  exists c, (nulterminate (text ++ [0]) c), (skip_ws text s).
  unfold parsecmd. rewrite Hp. unfold peek.
  destruct (spells_skip text s [] Hok) as [[Hs _] Hd].
  apply (f_equal length) in Hd. rewrite length_drop in Hd. simpl in Hd.
  rewrite (proj2 (Nat.eqb_eq _ _)) by lia. split; [done|].
  rewrite nulterminate_fold. eapply denotes_impl; [exact Hc|]. intros q e w He Hw.
  apply span_string; [done|by eapply denotes_ends|done|done].
Qed.

(** C17: Every spelling of a command parses to that command.  For every command
    tree (at most nine arguments per simple command) and every text that
    spells its tokens, with any blanks between them, [parsecmd] returns a
    command of the same shape, whose strings, read from the buffer after
    [nulterminate], are the words of the tree, and whose redirections carry
    the modes and descriptors of their symbols. *)
Theorem parse_print_roundtrip a text :
  scmd_ok a -> 0 ∉ text -> spells (cmd_toks 3 a) text ->
  exists c b s, parsecmd (parse_fuel text) text = POk (c, b) s /\ denotes (string_at b) c a.
Proof. apply parse_spelled. Qed.

(** ** Termination *)

Section termination.
Context (buf : list Z).

(** [m] comes back at a position between [lo] and the end, or exits. *)
Definition comes_back {A} (m : P A) (s lo : nat) : Prop :=
  match m s with POk _ s' => (lo <= s' <= length buf)%nat | PExit _ => True | PFuel => False end.

Lemma back_bind {A B} (m : P A) (k : A -> P B) s lo lo' :
  comes_back m s lo ->
  (forall a s', m s = POk a s' -> (lo <= s' <= length buf)%nat -> comes_back (k a) s' lo') ->
  comes_back (m ≫= k) s lo'.
Proof.
  unfold comes_back, mbind, P_bind. destruct (m s) as [a s'| |]; try done. intros H Hk.
  by apply Hk.
Qed.

Lemma skip_le f k s : (s <= length buf)%nat -> (s <= skip buf f k s <= length buf)%nat.
Proof.
  revert s. induction k as [|k IH]; intros s Hs; simpl; [lia|].
  destruct (Nat.ltb_spec s (length buf)); simpl; [|lia].
  destruct (f (at_ buf s)); [|lia]. specialize (IH (S s)). lia.
Qed.

Lemma skip_stop f k s :
  (length buf - s <= k)%nat -> let r := skip buf f k s in (r < length buf)%nat -> f (at_ buf r) = false.
Proof.
  revert s. induction k as [|k IH]; intros s Hk; simpl; [lia|].
  destruct (Nat.ltb_spec s (length buf)); simpl; [|lia].
  destruct (f (at_ buf s)) eqn:E; [|done]. apply IH. lia.
Qed.

Lemma at_nonzero_lt s : at_ buf s <> 0 -> (s < length buf)%nat.
Proof.
  intros H. destruct (decide (s < length buf)%nat); [done|]. exfalso. apply H.
  unfold at_. apply nth_overflow. lia.
Qed.

Lemma skip_ws_stop s : at_ buf (skip_ws buf s) <> 0 -> is_in whitespace (at_ buf (skip_ws buf s)) = false.
Proof. intros H%at_nonzero_lt. by apply skip_stop. Qed.

(** [gettoken] advances unless it is at the end of the text. *)
Lemma gettoken_advance s :
  (s <= length buf)%nat ->
  exists tok q e s', gettoken buf s = POk (tok, q, e) s' /\ (s <= s' <= length buf)%nat
    /\ (at_ buf (skip_ws buf s) <> 0 -> (s < s')%nat) /\ (tok <> 0 -> at_ buf (skip_ws buf s) <> 0).
Proof.
  intros Hs. unfold gettoken.
  pose proof (skip_le (is_in whitespace) (length buf - s) s Hs) as H0. fold (skip_ws buf s) in H0.
  pose proof (skip_ws_stop s) as Hstop. set (s0 := skip_ws buf s) in *.
  assert (Hws : forall s1, (s1 <= length buf)%nat -> (s1 <= skip_ws buf s1 <= length buf)%nat)
    by (intros; by apply skip_le).
  destruct (Z.eqb_spec (at_ buf s0) 0) as [E|E].
  { eexists _, _, _, _. split; [reflexivity|]. specialize (Hws s0 ltac:(lia)). repeat split; lia || done. }
  pose proof (at_nonzero_lt _ E) as Hlt. specialize (Hstop E).
  destruct (_ || _) eqn:Esym.
  { eexists _, _, _, _. split; [reflexivity|]. specialize (Hws (S s0) ltac:(lia)). repeat split; lia || done. }
  destruct (Z.eqb_spec (at_ buf s0) 62) as [E62|E62].
  { destruct (Z.eqb_spec (at_ buf (S s0)) 62) as [E2|E2].
    - assert (S s0 < length buf)%nat by (apply at_nonzero_lt; lia).
      eexists _, _, _, _. split; [reflexivity|]. specialize (Hws (S (S s0)) ltac:(lia)). repeat split; lia || done.
    - eexists _, _, _, _. split; [reflexivity|]. specialize (Hws (S s0) ltac:(lia)). repeat split; lia || done. }
  assert (Hword : (S s0 <= skip_word buf s0 <= length buf)%nat).
  { unfold skip_word. destruct (length buf - s0)%nat as [|k] eqn:Ek; [lia|]. simpl.
    rewrite (proj2 (Nat.ltb_lt _ _) Hlt), Hstop. simpl.
    destruct (is_in symbols (at_ buf s0)) eqn:Es; [|apply skip_le; lia].
    exfalso. destruct (sym_cases _ Es) as [E' | [E' | [E' | [E' | [E' | [E' | E']]]]]];
      rewrite E' in Esym, E62; done. }
  eexists _, _, _, _. split; [reflexivity|]. specialize (Hws (skip_word buf s0) ltac:(lia)).
  repeat split; lia || done.
Qed.

Lemma peek_back toks s : (s <= length buf)%nat -> comes_back (peek buf toks) s s.
Proof. intros Hs. unfold comes_back, peek. by apply skip_le. Qed.

Lemma skip_ws_idem s : (s <= length buf)%nat -> skip_ws buf (skip_ws buf s) = skip_ws buf s.
Proof.
  intros Hs. unfold skip_ws at 1. pose proof (skip_le (is_in whitespace) (length buf - s) s Hs) as H.
  fold (skip_ws buf s) in H. destruct (length buf - skip_ws buf s)%nat eqn:E; [done|]. simpl.
  destruct (Nat.ltb_spec (skip_ws buf s) (length buf)); [|done].
  pose proof (skip_stop (is_in whitespace) (length buf - s) s ltac:(lia)) as Hst. cbv zeta in Hst.
  fold (skip_ws buf s) in Hst. by rewrite Hst by lia.
Qed.

(** A token that [peek] has seen is there to be taken. *)
Lemma peek_gettoken {B} toks s s1 (k : Z * nat * nat -> P B) lo :
  (s <= length buf)%nat -> peek buf toks s = POk true s1 ->
  (forall x s', (s1 < s' <= length buf)%nat -> comes_back (k x) s' lo) -> comes_back (x ← gettoken buf; k x) s1 lo.
Proof.
  intros Hs [= Hp <-] Hk. apply andb_true_iff in Hp as [H0 _]. apply negb_true_iff, Z.eqb_neq in H0.
  pose proof (skip_le (is_in whitespace) (length buf - s) s Hs) as Hle. fold (skip_ws buf s) in Hle.
  destruct (gettoken_advance (skip_ws buf s)) as (tok & q & e & s' & Hg & H1 & H2 & _); [lia|].
  rewrite skip_ws_idem in H2 by done. unfold comes_back, mbind, P_bind. rewrite Hg.
  apply (Hk (tok, q, e)). specialize (H2 H0). lia.
Qed.

Lemma parseredirs_back k c s :
  (s <= length buf)%nat -> (length buf - s < k)%nat -> comes_back (parseredirs buf k c) s s.
Proof.
  revert c s. induction k as [|k IH]; intros c s Hs Hk; [lia|]. simpl.
  eapply back_bind; [by apply peek_back|]. intros [] s1 Hp H1; [|unfold comes_back; simpl; lia].
  eapply peek_gettoken; [exact Hs|exact Hp|]. intros [[tok q] e] s2 H2.
  destruct (gettoken_advance s2) as (tok' & q' & e' & s3 & Hg & H3 & _); [lia|].
  unfold comes_back, mbind, P_bind. rewrite Hg. destruct (negb _); [done|].
  set (c' := if tok =? 60 then _ else _). specialize (IH c' s3 ltac:(lia) ltac:(lia)).
  unfold comes_back in IH. destruct (parseredirs buf k c' s3); [lia|done|done].
Qed.

Lemma parseback_back k c s :
  (s <= length buf)%nat -> (length buf - s < k)%nat -> comes_back (parseback buf k c) s s.
Proof.
  revert c s. induction k as [|k IH]; intros c s Hs Hk; [lia|]. simpl.
  eapply back_bind; [by apply peek_back|]. intros [] s1 Hp H1; [|unfold comes_back; simpl; lia].
  eapply peek_gettoken; [exact Hs|exact Hp|]. intros x s2 H2.
  specialize (IH (backcmd c) s2 ltac:(lia) ltac:(lia)). unfold comes_back in *.
  destruct (parseback buf k (backcmd c) s2); [lia|done|done].
Qed.

Lemma parseargs_back k c argc s :
  (s <= length buf)%nat -> (length buf - s < k)%nat -> comes_back (parseargs buf k c argc) s s.
Proof.
  revert c argc s. induction k as [|k IH]; intros c argc s Hs Hk; [lia|]. cbn [parseargs].
  eapply back_bind; [by apply peek_back|]. intros [] s1 Hp H1; [unfold comes_back; simpl; lia|].
  destruct (gettoken_advance s1) as (tok & q & e & s2 & Hg & H2 & Hadv & Hne); [lia|].
  unfold comes_back at 1, mbind at 1, P_bind at 1. rewrite Hg.
  destruct (Z.eqb_spec tok 0) as [->|Ht]; [simpl; lia|].
  destruct (negb _); [done|]. destruct (_ <=? _)%nat; [done|]. specialize (Hadv (Hne Ht)).
  change (comes_back (c ← parseredirs buf k (add_arg c q e); parseargs buf k c (S argc)) s2 s).
  eapply back_bind; [apply parseredirs_back; lia|]. intros c' s3 _ H3.
  specialize (IH c' (S argc) s3 ltac:(lia) ltac:(lia)). unfold comes_back in *.
  destruct (parseargs buf k c' (S argc) s3); [lia|done|done].
Qed.

Lemma back_weaken {A} (m : P A) s lo lo' : comes_back m s lo -> (lo' <= lo)%nat -> comes_back m s lo'.
Proof. unfold comes_back. destruct (m s); [lia|done|done]. Qed.

(** After a token that [peek] has seen, the rest of the parse. *)
Lemma peek_then {B} toks s (k1 k2 : P B) lo :
  (s <= length buf)%nat ->
  (forall s', (s < s' <= length buf)%nat -> comes_back k1 s' lo) ->
  (forall s', (s <= s' <= length buf)%nat -> comes_back k2 s' lo) ->
  comes_back (b ← peek buf toks; if b : bool then _ ← gettoken buf; k1 else k2) s lo.
Proof.
  intros Hs H1 H2. eapply back_bind; [by apply peek_back|]. intros [] s1 Hp Hs1; [|by apply H2].
  eapply peek_gettoken; [exact Hs|exact Hp|]. intros _ s' Hs'. apply H1. lia.
Qed.

Lemma back_ret {A} (a : A) s lo : (lo <= s <= length buf)%nat -> comes_back (mret a) s lo.
Proof. done. Qed.

(** The fuel each level needs at a distance from the end of the line. *)
Lemma parser_back k s :
  (s <= length buf)%nat ->
  ((4 * (length buf - s) + 4 <= k)%nat -> comes_back (parseline buf k) s s) /\
  ((4 * (length buf - s) + 3 <= k)%nat -> comes_back (parsepipe buf k) s s) /\
  ((4 * (length buf - s) + 2 <= k)%nat -> comes_back (parseexec buf k) s s) /\
  ((4 * (length buf - s) + 1 <= k)%nat -> comes_back (parseblock buf k) s s).
Proof.
  revert s. induction k as [|k IH]; intros s Hs; [repeat split; intros; lia|].
  split; [|split; [|split]]; intros Hk; simpl.
  - eapply back_bind; [apply IH; lia|]. intros c s1 _ H1.
    eapply back_bind; [apply parseback_back; lia|]. intros c2 s2 _ H2.
    apply peek_then; [lia| |intros; apply back_ret; lia]. intros s3 H3.
    eapply back_bind; [apply (proj1 (IH s3 ltac:(lia))); lia|]. intros; apply back_ret; lia.
  - eapply back_bind; [apply IH; lia|]. intros c s1 _ H1.
    apply peek_then; [lia| |intros; apply back_ret; lia]. intros s3 H3.
    eapply back_bind; [apply (IH s3 ltac:(lia)); lia|]. intros; apply back_ret; lia.
  - eapply back_bind; [by apply peek_back|]. intros [] s1 _ H1.
    + eapply back_weaken; [apply (IH s1 ltac:(lia)); lia|lia].
    + eapply back_bind; [apply parseredirs_back; lia|]. intros c s2 _ H2.
      eapply back_weaken; [apply parseargs_back; lia|lia].
  - eapply back_bind; [by apply peek_back|]. intros [] s1 Hp H1; simpl; [|done].
    eapply peek_gettoken; [exact Hs|exact Hp|]. intros _ s2 H2.
    eapply back_bind; [apply (proj1 (IH s2 ltac:(lia))); lia|]. intros c s3 _ H3.
    eapply back_bind; [apply peek_back; lia|]. intros [] s4 Hp' H4; simpl; [|done].
    eapply peek_gettoken; [|exact Hp'|]; [lia|]. intros _ s5 H5.
    eapply back_weaken; [apply parseredirs_back; lia|lia].
Qed.
End termination.

Lemma parse_returns text : parsecmd (parse_fuel text) text <> PFuel.
Proof.
  unfold parsecmd. destruct (parser_back text (parse_fuel text) O ltac:(lia)) as [H _].
  specialize (H ltac:(unfold parse_fuel; lia)). unfold comes_back in H.
  destruct (parseline text (parse_fuel text) O) as [c s| |]; [|done|done].
  simpl. by destruct (negb _).
Qed.

(** C18: The parser terminates on every line: the mutually recursive descent
    always consumes input, so [parsecmd] either returns a command or exits
    with one of its error messages, within fuel linear in the line. *)
Theorem parsecmd_terminates text : parsecmd (parse_fuel text) text <> PFuel.
Proof. apply parse_returns. Qed.

(** A command written with one blank before each token. *)
Definition print_toks (ts : list token) : list Z := concat ((fun t => 32 :: tok_text t) <$> ts).

Lemma print_spells ts : Forall tok_ok ts -> spells ts (print_toks ts).
Proof.
  induction 1 as [|t ts Ht Hts IH]; unfold print_toks; simpl; [by constructor|].
  apply (sp_cons [32]); [by repeat constructor|done| |exact IH].
  destruct ts as [|t' ts]; [done|]. by destruct t.
Qed.

Lemma parse_print_roundtrip_witness :
  let a := SList (SBack (SPipe (SRedir (SExec [str "grep"; str "x"]) RIn (str "in")) (SExec [str "wc"]))) (SExec [str "ls"]) in
  let text := str "grep x<in|wc& ;ls" ++ [10] in
  exists c b s, parsecmd (parse_fuel text) text = POk (c, b) s /\ denotes (string_at b) c a.
Proof.
  intros a text. apply (parse_print_roundtrip a text).
  - repeat split; try (simpl; unfold MAXARGS; lia); try done;
      repeat (apply Forall_cons; split; [split; [done|]|]); try apply Forall_nil; try done;
      repeat (apply Forall_cons; split; [split; [discriminate|reflexivity]|]); by apply Forall_nil.
  - apply (bool_decide_eq_true_1 (0 ∉ text)). vm_compute. reflexivity.
  - assert (Hw : forall w, forallb (fun c => negb (c =? 0) && word_char c) w = true -> w <> [] -> word_ok w).
    { intros w H Hne. split; [done|]. apply Forall_forall. intros c Hc.
      rewrite forallb_forall in H. specialize (H c (proj1 (list_elem_of_In _ _) Hc)).
      apply andb_true_iff in H as [H1 H2]. apply negb_true_iff, Z.eqb_neq in H1. done. }
    change text with ([] ++ str "grep" ++ [32] ++ str "x" ++ [] ++ [60] ++ [] ++ str "in" ++ [] ++ [124]
      ++ [] ++ str "wc" ++ [] ++ [38] ++ [32] ++ [59] ++ [] ++ str "ls" ++ [10]).
    repeat (first [apply sp_nil; repeat constructor | apply sp_cons; [repeat constructor| | |]];
      try (simpl; done); try (apply Hw; [reflexivity|done])).
Defined.
