(* ===== verification/ShRun.v ===== *)
(** The shell running commands ([runcmd], [getcmd], [main] of [sh.c]).

    A user program is a tree of its system calls.  Its meaning, as far as this
    file goes, is the list of programs that it and its children execute, each
    with its descriptor table and its directory: [fdalloc]'s lowest free slot
    decides what [open], [dup] and [pipe] return.  Forks succeed, and whether a
    file opens or a directory can be entered is a parameter. *)

From S2P Require Import Prelude CString Ulib Grep Sh ShParse.

(** ** Programs as trees of system calls *)

Inductive prog :=
| Exit
| Exec (argv : list (list Z)) (failed : prog)
| Close (fd : Z) (k : prog)
| Open (file : list Z) (mode : Z) (k : Z -> prog)
| Dup (fd : Z) (k : Z -> prog)
| Pipe (k : Z -> Z -> Z -> prog)
| Fork (k : Z -> prog)
| Wait (k : prog)
| Chdir (dir : list Z) (k : Z -> prog)
| Write (fd : Z) (out : list Z) (k : prog).

(** ** The shell *)

Definition panic_ (s : string) : prog := Write 2 (str s ++ [10]) Exit.

Definition fork1 (k : Z -> prog) : prog :=
  Fork (fun pid => if pid =? -1 then panic_ "fork" else k pid).

(** The strings of a command are read from the NUL-terminated buffer [b]. *)
Definition string_of (b : list Z) (q : nat) : list Z := c_str (drop q b).

Fixpoint runcmd (b : list Z) (c : cmd) : prog :=
  match c with
  | EXEC argv =>
      match argv with
      | [] => Exit
      | (q, _) :: _ =>
          Exec ((fun a : nat * nat => string_of b (fst a)) <$> argv)
            (Write 2 (str "exec " ++ string_of b q ++ str " failed" ++ [10]) Exit)
      end
  | REDIR c q _ mode fd =>
      Close fd
        (Open (string_of b q) mode (fun r =>
           if r <? 0 then Write 2 (str "open " ++ string_of b q ++ str " failed" ++ [10]) Exit
           else runcmd b c))
  | LIST l r => fork1 (fun pid => if pid =? 0 then runcmd b l else Wait (runcmd b r))
  | PIPE l r =>
      Pipe (fun res p0 p1 =>
        if res <? 0 then panic_ "pipe"
        else fork1 (fun pid =>
          if pid =? 0 then Close 1 (Dup p1 (fun _ => Close p0 (Close p1 (runcmd b l))))
          else fork1 (fun pid =>
            if pid =? 0 then Close 0 (Dup p0 (fun _ => Close p0 (Close p1 (runcmd b r))))
            else Close p0 (Close p1 (Wait (Wait Exit))))))
  | BACK c => fork1 (fun pid => if pid =? 0 then runcmd b c else Exit)
  end.

(** [getcmd(buf, 100)]: the line, or [None] at the end of the input. *)
Definition getcmd (inp : list Z) : option (list Z * list Z) :=
  let '(l, rest) := ugets 100 inp in
  match c_str l with [] => None | line => Some (line, rest) end.

(** The child that [main] forks for a line. *)
Definition run_line (line : list Z) : prog :=
  match parsecmd (parse_fuel line) line with
  | POk (c, b) _ => runcmd b c
  | PExit msg => panic_ msg
  | PFuel => Exit
  end.

Definition chop (line : list Z) : list Z := take (length line - 1) line.

(** The read-and-run loop of [main]; each turn reads at least one byte, so the
    fuel [length inp + 1] is enough. *)
Fixpoint main_loop (fuel : nat) (inp : list Z) : prog :=
  match fuel with
  | O => Exit
  | S k =>
      Write 2 (str "$ ")
        match getcmd inp with
        | None => Exit
        | Some (line, rest) =>
            if (nth 0 line 0 =? 99) && (nth 1 line 0 =? 100) && (nth 2 line 0 =? 32) then
              let dir := drop 3 (chop line) in
              Chdir dir (fun r =>
                if r <? 0 then Write 2 (str "cannot cd " ++ dir ++ [10]) (main_loop k rest)
                else main_loop k rest)
            else fork1 (fun pid => if pid =? 0 then run_line line else Wait (main_loop k rest))
        end
  end.

(** [while((fd = open("console", O_RDWR)) >= 0) if(fd >= 3){ close(fd); break; }]:
    an [open] that succeeds takes a slot, so the table bounds the turns. *)
Fixpoint open_console (fuel : nat) (k : prog) : prog :=
  match fuel with
  | O => k
  | S n =>
      Open (str "console") O_RDWR (fun fd =>
        if fd <? 0 then k
        else if 3 <=? fd then Close fd k
        else open_console n k)
  end.

Definition sh_main (inp : list Z) : prog := open_console 16 (main_loop (S (length inp)) inp).

(** ** What a program executes *)

Inductive obj :=
| FileObj (name : list Z) (mode : Z)
| PipeRead (id : nat)
| PipeWrite (id : nat).

Notation fdtable := (list (option obj)).

(** [fdalloc]: the first free slot. *)
Definition is_free (o : option obj) : bool := match o with None => true | _ => false end.
Definition fd_of (r : option nat) : Z := match r with Some i => Z.of_nat i | None => -1 end.
Definition install (fds : fdtable) (o : obj) : Z * fdtable :=
  match find_idx is_free fds with
  | Some i => (Z.of_nat i, <[i := Some o]> fds)
  | None => (-1, fds)
  end.
Definition lookup_fd (fds : fdtable) (fd : Z) : option obj := mjoin (fds !! Z.to_nat fd).

(** The working directory, as the [chdir]s that led to it, the last one first. *)
Definition dirs : Type := list (list Z).

(** A command executed: its arguments, the descriptors it starts with and its
    working directory. *)
Definition launch : Type := list (list Z) * fdtable * dirs.

Section semantics.
Context (can_open : dirs -> list Z -> Z -> bool) (can_chdir : dirs -> list Z -> bool).

(** The [exec] calls a program and its children make, when every [fork]
    succeeds, from the directory [cwd] with the descriptors [fds].  [next]
    numbers the pipes; the child runs before its parent goes on, which matters
    for the order of the list only. *)
Fixpoint launches (p : prog) (cwd : dirs) (fds : fdtable) (next : nat) : list launch * nat :=
  match p with
  | Exit => ([], next)
  | Exec argv _ => ([(argv, fds, cwd)], next)
  | Close fd k => launches k cwd (<[Z.to_nat fd := None]> fds) next
  | Open file mode k =>
      if can_open cwd file mode then
        let '(fd, fds) := install fds (FileObj file mode) in launches (k fd) cwd fds next
      else launches (k (-1)) cwd fds next
  | Dup fd k =>
      match lookup_fd fds fd with
      | Some o => let '(fd', fds) := install fds o in launches (k fd') cwd fds next
      | None => launches (k (-1)) cwd fds next
      end
  | Pipe k =>
      let '(p0, fds1) := install fds (PipeRead next) in
      let '(p1, fds2) := install fds1 (PipeWrite next) in
      if (p0 <? 0) || (p1 <? 0) then launches (k (-1) 0 0) cwd fds next
      else launches (k 0 p0 p1) cwd fds2 (S next)
  | Fork k =>
      let '(l1, n1) := launches (k 0) cwd fds next in
      let '(l2, n2) := launches (k 1) cwd fds n1 in
      (l1 ++ l2, n2)
  | Wait k => launches k cwd fds next
  | Chdir dir k =>
      if can_chdir cwd dir then launches (k 0) (dir :: cwd) fds next else launches (k (-1)) cwd fds next
  | Write _ _ k => launches k cwd fds next
  end.

(** ** What a command should execute *)

Section directory.
Context (cwd : dirs).

Fixpoint wanted (a : scmd) (fds : fdtable) (next : nat) : list launch * nat :=
  match a with
  | SExec args => (match args with [] => [] | _ => [(args, fds, cwd)] end, next)
  | SRedir a k f =>
      if can_open cwd f (redir_mode k)
      then wanted a (<[Z.to_nat (redir_fd k) := Some (FileObj f (redir_mode k))]> fds) next
      else ([], next)
  | SPipe l r =>
      let '(l1, n1) := wanted l (<[1%nat := Some (PipeWrite next)]> fds) (S next) in
      let '(l2, n2) := wanted r (<[0%nat := Some (PipeRead next)]> fds) n1 in
      (l1 ++ l2, n2)
  | SList l r =>
      let '(l1, n1) := wanted l fds next in
      let '(l2, n2) := wanted r fds n1 in
      (l1 ++ l2, n2)
  | SBack a => wanted a fds next
  end.

(** Standard input and output are open, and there is room for a pipe. *)
Definition table_ok (fds : fdtable) : Prop :=
  (exists o, fds !! 0%nat = Some (Some o)) /\ (exists o, fds !! 1%nat = Some (Some o))
  /\ exists i j, (i < j)%nat /\ fds !! i = Some None /\ fds !! j = Some None.

Lemma table_ok_insert fds n o :
  (n = 0 \/ n = 1)%nat -> table_ok fds -> table_ok (<[n := Some o]> fds).
Proof.
  intros Hn ((o0 & H0) & (o1 & H1) & i & j & Hij & Hi & Hj).
  assert (Hlen : (j < length fds)%nat) by (by apply lookup_lt_Some in Hj).
  assert (i <> 0%nat) by (intros ->; congruence). assert (i <> 1%nat) by (intros ->; congruence).
  split; [|split].
  - destruct Hn as [-> | ->]; [exists o; apply list_lookup_insert_eq; lia|exists o0; by rewrite list_lookup_insert_ne].
  - destruct Hn as [-> | ->]; [exists o1; by rewrite list_lookup_insert_ne|exists o; apply list_lookup_insert_eq; lia].
  - exists i, j. rewrite !list_lookup_insert_ne by lia. done.
Qed.

Lemma install_at fds o i :
  fds !! i = Some None -> (forall j, (j < i)%nat -> exists o', fds !! j = Some (Some o')) ->
  install fds o = (Z.of_nat i, <[i := Some o]> fds).
Proof.
  intros Hi Hlt. unfold install. replace (find_idx is_free fds) with (Some i); [done|].
  symmetry. apply find_idx_Some. split; [by exists None|].
  intros j y Hj Hy. destruct (Hlt j Hj) as [o' Ho']. rewrite Ho' in Hy. by simplify_eq.
Qed.

(** [close(fd); open(...)] and [close(fd); dup(...)] for descriptors 0 and 1
    land on [fd]. *)
Lemma install_low fds fd o :
  (fd = 0 \/ fd = 1)%nat -> table_ok fds -> install (<[fd := None]> fds) o = (Z.of_nat fd, <[fd := Some o]> fds).
Proof.
  intros Hfd ((o0 & H0) & (o1 & H1) & _).
  assert (Hl : (1 < length fds)%nat) by (by apply lookup_lt_Some in H1).
  rewrite (install_at _ _ fd).
  - by rewrite list_insert_insert_eq.
  - apply list_lookup_insert_eq. lia.
  - intros j Hj. destruct Hfd as [-> | ->]; [lia|]. assert (j = 0%nat) as -> by lia.
    exists o0. by rewrite list_lookup_insert_ne.
Qed.

(** The two descriptors of a new pipe: the first two free slots. *)
Lemma install_pipe fds o o' :
  table_ok fds -> exists i j, (1 < i < j)%nat /\ fds !! i = Some None /\ fds !! j = Some None
    /\ install fds o = (Z.of_nat i, <[i := Some o]> fds)
    /\ install (<[i := Some o]> fds) o' = (Z.of_nat j, <[j := Some o']> (<[i := Some o]> fds)).
Proof.
  intros ((o0 & H0) & (o1 & H1) & i & j & Hij & Hi & Hj).
  destruct (find_idx is_free fds) as [i'|] eqn:E1.
  2:{ rewrite find_idx_None in E1. by specialize (E1 i None Hi). }
  pose proof E1 as E1'. apply find_idx_Some in E1' as [([x|] & Hx & Hf) Hlow]; [done|].
  assert (Hi1 : (1 < i')%nat).
  { destruct i' as [|[|i']]; [congruence|congruence|lia]. }
  assert (Hil : (i' < length fds)%nat) by (by apply lookup_lt_Some in Hx).
  set (fds' := <[i' := Some o]> fds).
  assert (Hex : exists k, fds' !! k = Some None).
  { destruct (decide (i = i')) as [->|Hne].
    - exists j. unfold fds'. by rewrite list_lookup_insert_ne by lia.
    - exists i. unfold fds'. by rewrite list_lookup_insert_ne. }
  destruct Hex as [k Hk].
  destruct (find_idx is_free fds') as [j'|] eqn:E2.
  2:{ rewrite find_idx_None in E2. by specialize (E2 k None Hk). }
  pose proof E2 as E2'. apply find_idx_Some in E2' as [([x|] & Hx' & Hf') _]; [done|].
  assert (Hne : j' <> i') by (intros ->; unfold fds' in Hx'; rewrite list_lookup_insert_eq in Hx' by lia; done).
  unfold fds' in Hx'. rewrite list_lookup_insert_ne in Hx' by done.
  exists i', j'. split.
  { assert (~ (j' < i')%nat); [|lia]. intros Hlt. by specialize (Hlow j' None Hlt Hx'). }
  split; [done|]. split; [done|]. unfold install. fold fds'. by rewrite E1, E2.
Qed.

(** Closing both ends of the pipe undoes its creation. *)
Lemma close_both (fds : fdtable) i j (o o' : option obj) :
  (i < j)%nat -> fds !! i = Some None -> fds !! j = Some None ->
  <[j := None]> (<[i := None]> (<[j := o']> (<[i := o]> fds))) = fds.
Proof.
  intros Hij Hi Hj. apply list_eq. intros k.
  assert (Hli : (i < length fds)%nat) by (by apply lookup_lt_Some in Hi).
  assert (Hlj : (j < length fds)%nat) by (by apply lookup_lt_Some in Hj).
  destruct (decide (k = j)) as [->|Hkj].
  { rewrite list_lookup_insert_eq; [done|]. by rewrite !length_insert. }
  rewrite list_lookup_insert_ne by done.
  destruct (decide (k = i)) as [->|Hki].
  { rewrite list_lookup_insert_eq; [done|]. by rewrite !length_insert. }
  by rewrite !list_lookup_insert_ne by done.
Qed.

(** One side of a pipe: close [fd], duplicate one end onto it, close both. *)
Lemma pipe_side fds i j o o' fd k p next pick :
  table_ok fds -> (1 < i < j)%nat -> fds !! i = Some None -> fds !! j = Some None ->
  (fd = 0 \/ fd = 1)%nat -> (p = i /\ pick = o \/ p = j /\ pick = o') ->
  let fds2 := <[j := Some o']> (<[i := Some o]> fds) in
  launches (Close (Z.of_nat fd) (Dup (Z.of_nat p) (fun _ => Close (Z.of_nat i) (Close (Z.of_nat j) k)))) cwd fds2 next
  = launches k cwd (<[fd := Some pick]> fds) next.
Proof.
  intros Hok Hij Hi Hj Hfd Hp fds2.
  assert (Hli : (i < length fds)%nat) by (by apply lookup_lt_Some in Hi).
  assert (Hlj : (j < length fds)%nat) by (by apply lookup_lt_Some in Hj).
  cbn [launches]. rewrite !Nat2Z.id. unfold lookup_fd. rewrite Nat2Z.id.
  assert (Hlook : mjoin (<[fd := None]> fds2 !! p) = Some pick).
  { unfold fds2. rewrite list_lookup_insert_ne by lia. destruct Hp as [[-> ->]|[-> ->]].
    - rewrite list_lookup_insert_ne, list_lookup_insert_eq by lia. done.
    - rewrite list_lookup_insert_eq by (rewrite length_insert; lia). done. }
  rewrite Hlook. rewrite (install_at _ _ fd).
  - unfold fds2. f_equal. rewrite list_insert_insert_eq.
    rewrite (list_insert_insert_ne _ i fd), (list_insert_insert_ne _ j fd) by lia.
    f_equal. apply close_both; [lia|done|done].
  - apply list_lookup_insert_eq. unfold fds2. rewrite !length_insert. lia.
  - intros m Hm. destruct Hfd as [-> | ->]; [lia|]. assert (m = 0%nat) as -> by lia.
    destruct Hok as ((o0 & H0) & _). exists o0. unfold fds2. by rewrite !list_lookup_insert_ne by lia.
Qed.

Lemma launches_fork1 k fds next :
  launches (fork1 k) cwd fds next =
  (let '(l1, n1) := launches (k 0) cwd fds next in let '(l2, n2) := launches (k 1) cwd fds n1 in (l1 ++ l2, n2)).
Proof. done. Qed.

Lemma launches_pipe k fds next :
  launches (Pipe k) cwd fds next =
  (let '(p0, fds1) := install fds (PipeRead next) in
   let '(p1, fds2) := install fds1 (PipeWrite next) in
   if (p0 <? 0) || (p1 <? 0) then launches (k (-1) 0 0) cwd fds next else launches (k 0 p0 p1) cwd fds2 (S next)).
Proof. done. Qed.

(** [runcmd] executes what the command means. *)
Lemma runcmd_launches b c a fds next :
  denotes (string_at b) c a -> table_ok fds -> launches (runcmd b c) cwd fds next = wanted a fds next.
Proof.
  revert a fds next. induction c as [argv|c IH|l IHl r IHr|l IHl r IHr|c IH];
    intros [args|a k f|a1 a2|a1 a2|a] fds next; try done.
  - intros H _. cbn [denotes] in H.
    assert (E : ((fun x : nat * nat => string_of b (fst x)) <$> argv) = args).
    { induction H as [|[q e] w argv args Hw H IH]; [done|]. simpl. by rewrite <- IH, <- Hw. }
    destruct H as [|[q e] w argv args Hw H]; [done|]. cbn [runcmd launches wanted]. by rewrite E.
  - cbn [denotes]. intros (Hc & Hf & -> & ->) Hok. cbn [runcmd launches wanted].
    unfold string_at in Hf. fold (string_of b file) in Hf. rewrite Hf.
    assert (Hfd : (Z.to_nat (redir_fd k) = 0 \/ Z.to_nat (redir_fd k) = 1)%nat) by (destruct k; auto).
    destruct (can_open cwd f (redir_mode k)).
    + rewrite install_low by done. rewrite (proj2 (Z.ltb_ge _ _)) by lia.
      apply IH; [done|]. by apply table_ok_insert.
    + simpl. done.
  - cbn [denotes]. intros [Hl Hr] Hok. cbn [runcmd wanted]. rewrite launches_pipe.
    destruct (install_pipe fds (PipeRead next) (PipeWrite next) Hok) as (i & j & Hij & Hi & Hj & -> & ->).
    rewrite !(proj2 (Z.ltb_ge _ 0)) by lia. cbn [orb]. change (0 <? 0) with false. cbv iota.
    rewrite launches_fork1. cbn [Z.eqb].
    rewrite (pipe_side fds i j (PipeRead next) (PipeWrite next) 1 (runcmd b l) j _ (PipeWrite next)
      Hok Hij Hi Hj) by auto.
    rewrite (IHl a1) by (done || apply table_ok_insert; auto).
    destruct (wanted a1 _ _) as [l1 n1]. rewrite launches_fork1. cbn [Z.eqb].
    rewrite (pipe_side fds i j (PipeRead next) (PipeWrite next) 0 (runcmd b r) i _ (PipeRead next)
      Hok Hij Hi Hj) by auto.
    rewrite (IHr a2) by (done || apply table_ok_insert; auto).
    destruct (wanted a2 _ _) as [l2 n2]. cbn [launches]. by rewrite app_nil_r.
  - cbn [denotes]. intros [Hl Hr] Hok. cbn [runcmd wanted]. unfold fork1. cbn [launches Z.eqb].
    rewrite (IHl a1) by done. destruct (wanted a1 _ _) as [l1 n1]. by rewrite (IHr a2) by done.
  - cbn [denotes]. intros H Hok. cbn [runcmd wanted]. unfold fork1. cbn [launches Z.eqb].
    rewrite (IH a) by done. destruct (wanted a _ _). by rewrite app_nil_r.
Qed.
End directory.
End semantics.

(** ** From the typed bytes to the programs *)

(** [gets] with room for [room] bytes takes [s] from the input and leaves
    [rest]: up to the end of a line, as much as fits, or all there is. *)
Definition no_eol (l : list Z) : Prop := Forall (fun c => c <> 10 /\ c <> 13) l.

Inductive takes (room : nat) : list Z -> list Z -> list Z -> Prop :=
| tk_line l c rest :
    no_eol l -> c = 10 \/ c = 13 -> (length l < room)%nat -> takes room (l ++ c :: rest) (l ++ [c]) rest
| tk_full l rest : no_eol l -> length l = room -> takes room (l ++ rest) l rest
| tk_end l : no_eol l -> (length l < room)%nat -> takes room l l [].

(** What a command line asks of the shell: a change of directory, nothing
    because of a syntax error, or a command. *)
Inductive ask := ACd (dir : list Z) | AError (msg : string) | ARun (a : scmd).

Definition is_cd (line : list Z) : Prop := take 3 line = str "cd ".

Inductive asks (line : list Z) : ask -> Prop :=
| ask_cd : is_cd line -> asks line (ACd (drop 3 (chop line)))
| ask_error msg :
    ~ is_cd line -> parsecmd (parse_fuel line) line = PExit msg -> asks line (AError msg)
| ask_run a c b p :
    ~ is_cd line -> parsecmd (parse_fuel line) line = POk (c, b) p -> denotes (string_at b) c a -> asks line (ARun a).

(** The bytes [inp] typed at the shell, as the lines it reads into its buffer
    of 100 bytes; a line that is empty, or that starts with a NUL, ends it. *)
Inductive session : list Z -> list ask -> Prop :=
| ss_end inp s rest : takes 99 inp s rest -> c_str s = [] -> session inp []
| ss_line inp s rest x xs :
    takes 99 inp s rest -> c_str s <> [] -> asks (c_str s) x -> session rest xs -> session inp (x :: xs).

(** The programs that should run. *)
Fixpoint wanted_all (can_open : dirs -> list Z -> Z -> bool) (can_chdir : dirs -> list Z -> bool)
    (xs : list ask) (cwd : dirs) (fds : fdtable) (next : nat) : list launch * nat :=
  match xs with
  | [] => ([], next)
  | ACd dir :: xs =>
      wanted_all can_open can_chdir xs (if can_chdir cwd dir then dir :: cwd else cwd) fds next
  | AError _ :: xs => wanted_all can_open can_chdir xs cwd fds next
  | ARun a :: xs =>
      let '(l1, n1) := wanted can_open cwd a fds next in
      let '(l2, n2) := wanted_all can_open can_chdir xs cwd fds n1 in (l1 ++ l2, n2)
  end.

(** Lines as they are typed, and a line that spells a command and fits the
    shell's buffer. *)
Definition typed (ls : list (list Z)) : list Z := concat ((fun l => l ++ [10]) <$> ls).

Definition line_of (a : scmd) (l : list Z) : Prop :=
  scmd_ok a /\ spells (cmd_toks 3 a) (l ++ [10]) /\ Forall (fun c => c <> 0 /\ c <> 10 /\ c <> 13) l
  /\ (length l < 99)%nat /\ ~ is_cd l.

(** *** The lines *)

Lemma takes_cons room c inp s rest :
  c <> 10 /\ c <> 13 -> takes room inp s rest -> takes (S room) (c :: inp) (c :: s) rest.
Proof.
  intros Hc [l d r Hl Hd Hlen|l r Hl Hlen|l Hl Hlen].
  - apply (tk_line _ (c :: l)); [by constructor|done|simpl; lia].
  - apply (tk_full _ (c :: l)); [by constructor|simpl; lia].
  - apply (tk_end _ (c :: l)); [by constructor|simpl; lia].
Qed.

Lemma gets_takes room inp : takes room inp (fst (gets_loop room inp)) (snd (gets_loop room inp)).
Proof.
  revert inp. induction room as [|k IH]; intros inp; simpl; [apply (tk_full 0 []); [constructor|done]|].
  destruct inp as [|c inp]; [apply tk_end; [constructor|simpl; lia]|].
  destruct (Z.eqb_spec c 10) as [->|H10]; simpl; [apply (tk_line _ []); [constructor|auto|simpl; lia]|].
  destruct (Z.eqb_spec c 13) as [->|H13]; simpl; [apply (tk_line _ []); [constructor|auto|simpl; lia]|].
  specialize (IH inp). destruct (gets_loop k inp) as [l r]. by apply takes_cons.
Qed.

Lemma takes_gets room inp s rest : takes room inp s rest -> gets_loop room inp = (s, rest).
Proof.
  assert (Hcons : forall (k : nat) c l inp r, c <> 10 /\ c <> 13 -> gets_loop k inp = (l, r) ->
    gets_loop (S k) (c :: inp) = (c :: l, r)).
  { intros k c l i r [H1 H2] E. simpl. by rewrite (proj2 (Z.eqb_neq _ _) H1), (proj2 (Z.eqb_neq _ _) H2), E. }
  intros [l c r Hl Hc Hlen|l r Hl <-|l Hl Hlen].
  - revert room Hlen. induction Hl as [|d l Hd Hl IH]; intros [|k] Hk; simpl in Hk; try lia.
    + simpl. by destruct Hc as [-> | ->].
    + apply Hcons; [done|]. apply IH. lia.
  - induction Hl as [|d l Hd Hl IH]; [done|]. by apply Hcons.
  - revert room Hlen. induction Hl as [|d l Hd Hl IH]; intros [|k] Hk; simpl in Hk; try lia; [done|].
    apply Hcons; [done|]. apply IH. lia.
Qed.

Lemma takes_getcmd inp s rest :
  takes 99 inp s rest -> getcmd inp = match c_str s with [] => None | line => Some (line, rest) end.
Proof. intros H. unfold getcmd, ugets. change (Z.to_nat (100 - 1)) with 99%nat. by rewrite (takes_gets _ _ _ _ H). Qed.

(** A line that is not empty has taken a byte. *)
Lemma takes_shorter inp s rest : takes 99 inp s rest -> c_str s <> [] -> (length rest < length inp)%nat.
Proof.
  intros [l c r _ _ _|l r _ Hl|l _ _] Hs; rewrite ?length_app; simpl; try lia.
  destruct l as [|c l]; [done|]. simpl. lia.
Qed.

(** *** The commands *)

(** The parser makes redirections of the three kinds only. *)
Fixpoint redirs_ok (c : cmd) : Prop :=
  match c with
  | EXEC _ => True
  | REDIR c _ _ mode fd => redirs_ok c /\ exists k, mode = redir_mode k /\ fd = redir_fd k
  | PIPE l r | LIST l r => redirs_ok l /\ redirs_ok r
  | BACK c => redirs_ok c
  end.

Definition gives {A : Type} (m : P A) (R : A -> Prop) : Prop := forall s a s', m s = POk a s' -> R a.

Lemma gives_bind {A B} (m : P A) (k : A -> P B) R Q :
  gives m R -> (forall a, R a -> gives (k a) Q) -> gives (m ≫= k) Q.
Proof.
  intros Hm Hk s b s'. unfold mbind, P_bind. destruct (m s) as [a s1| |] eqn:E; [|done|done].
  apply (Hk a). by apply (Hm _ _ _ E).
Qed.

Lemma gives_step {A B} (m : P A) (k : A -> P B) Q : (forall a, gives (k a) Q) -> gives (m ≫= k) Q.
Proof. intros Hk. apply (gives_bind m k (fun _ => True)); [done|]. intros a _. apply Hk. Qed.

Lemma gives_ret {A} (a : A) (R : A -> Prop) : R a -> gives (mret a) R.
Proof. intros H s b s' [= <- <-]. done. Qed.

Lemma parseredirs_gives buf k c : redirs_ok c -> gives (parseredirs buf k c) redirs_ok.
Proof.
  revert c. induction k as [|k IH]; intros c Hc; [done|]. simpl. apply gives_step. intros []; [|by apply gives_ret].
  apply gives_step. intros [[tok q0] e0]. apply gives_step. intros [[tok' q] e].
  destruct (negb _); [done|]. apply IH.
  destruct (tok =? 60); [split; [done|by exists RIn]|]. destruct (tok =? 62); [split; [done|by exists ROut]|].
  destruct (tok =? 43); [split; [done|by exists RApp]|done].
Qed.

Lemma add_arg_redirs c q e : redirs_ok c -> redirs_ok (add_arg c q e).
Proof. induction c; simpl; naive_solver. Qed.

Lemma parseargs_gives buf k c n : redirs_ok c -> gives (parseargs buf k c n) redirs_ok.
Proof.
  revert c n. induction k as [|k IH]; intros c n Hc; [done|]. cbn [parseargs]. apply gives_step. intros []; [by apply gives_ret|].
  apply gives_step. intros [[tok q] e]. destruct (tok =? 0); [by apply gives_ret|]. destruct (negb _); [done|].
  destruct (MAXARGS <=? S n)%nat; [done|].
  eapply gives_bind; [by apply parseredirs_gives, add_arg_redirs|]. intros c' Hc'. by apply IH.
Qed.

Lemma parseback_gives buf k c : redirs_ok c -> gives (parseback buf k c) redirs_ok.
Proof.
  revert c. induction k as [|k IH]; intros c Hc; [done|]. simpl. apply gives_step. intros []; [|by apply gives_ret].
  apply gives_step. intros _. by apply IH.
Qed.

Lemma parser_gives buf k :
  gives (parseline buf k) redirs_ok /\ gives (parsepipe buf k) redirs_ok /\
  gives (parseexec buf k) redirs_ok /\ gives (parseblock buf k) redirs_ok.
Proof.
  induction k as [|k (IHl & IHp & IHe & IHb)]; [done|]. simpl. split; [|split; [|split]].
  - eapply gives_bind; [exact IHp|]. intros c Hc. eapply gives_bind; [by apply parseback_gives|]. intros c' Hc'.
    apply gives_step. intros []; [|by apply gives_ret]. apply gives_step. intros _.
    eapply gives_bind; [exact IHl|]. intros r Hr. by apply gives_ret.
  - eapply gives_bind; [exact IHe|]. intros c Hc. apply gives_step. intros []; [|by apply gives_ret].
    apply gives_step. intros _. eapply gives_bind; [exact IHp|]. intros r Hr. by apply gives_ret.
  - apply gives_step. intros []; [done|]. eapply gives_bind; [by apply parseredirs_gives|]. intros c Hc. by apply parseargs_gives.
  - apply gives_step. intros []; [|done]. apply gives_step. intros _. eapply gives_bind; [exact IHl|]. intros c Hc.
    apply gives_step. intros []; [|done]. apply gives_step. intros _. by apply parseredirs_gives.
Qed.

(** The command a parsed tree stands for, its strings read from [b]. *)
Fixpoint scmd_of (b : list Z) (c : cmd) : scmd :=
  match c with
  | EXEC argv => SExec ((fun a : nat * nat => string_of b (fst a)) <$> argv)
  | REDIR c q _ _ fd => SRedir (scmd_of b c) (if fd =? 0 then RIn else ROut) (string_of b q)
  | PIPE l r => SPipe (scmd_of b l) (scmd_of b r)
  | LIST l r => SList (scmd_of b l) (scmd_of b r)
  | BACK c => SBack (scmd_of b c)
  end.

Lemma scmd_of_denotes b c : redirs_ok c -> denotes (string_at b) c (scmd_of b c).
Proof.
  induction c as [argv|c IH q e mode fd|l IHl r IHr|l IHl r IHr|c IH]; simpl; try naive_solver.
  - intros _. induction argv as [|[q e] argv IH]; simpl; by constructor.
  - intros [Hc (k & -> & ->)]. split; [by apply IH|]. split; [done|]. by destruct k.
Qed.

(** Every line asks something. *)
Lemma asks_total line : exists x, asks line x.
Proof.
  destruct (decide (take 3 line = str "cd ")) as [Hcd|Hcd]; [eexists; by apply ask_cd|].
  destruct (parsecmd (parse_fuel line) line) as [[c b] p|msg|] eqn:E.
  - exists (ARun (scmd_of b c)). eapply ask_run; [exact Hcd|exact E|]. apply scmd_of_denotes.
    unfold parsecmd in E. destruct (parseline line (parse_fuel line) O) as [c' s'| |] eqn:Ep; try done.
    simpl in E. destruct (negb _) in E; [done|]. simplify_eq. by apply (proj1 (parser_gives _ _) _ _ _ Ep).
  - eexists. by eapply ask_error.
  - by destruct (parse_returns line).
Qed.

Lemma session_total inp : exists xs, session inp xs.
Proof.
  induction inp as [inp IH] using (well_founded_induction (Wf_nat.well_founded_ltof _ length)).
  pose proof (gets_takes 99 inp) as Ht. destruct (gets_loop 99 inp) as [s rest]. simpl in Ht.
  destruct (decide (c_str s = [])) as [He|Hne]; [exists []; by eapply ss_end|].
  destruct (IH rest) as [xs Hxs]; [by apply (takes_shorter inp s)|]. destruct (asks_total (c_str s)) as [x Hx].
  exists (x :: xs). by eapply ss_line.
Qed.

(** *** The main loop *)

(** The test for the built-in [cd] reads three bytes. *)
Lemma cd_test line :
  (nth 0 line 0 =? 99) && (nth 1 line 0 =? 100) && (nth 2 line 0 =? 32) = bool_decide (is_cd line).
Proof.
  unfold is_cd. destruct (bool_decide_reflect (take 3 line = str "cd ")) as [H|H].
  - destruct line as [|a [|b [|c l]]]; try done. simpl in H. injection H as -> -> ->. done.
  - destruct line as [|a [|b [|c l]]]; simpl; rewrite ?andb_false_r; try done.
    destruct (Z.eqb_spec a 99) as [->|]; [|done]. destruct (Z.eqb_spec b 100) as [->|]; [|done].
    destruct (Z.eqb_spec c 32) as [->|]; [|done]. by destruct H.
Qed.

Section shell.
Context (can_open : dirs -> list Z -> Z -> bool) (can_chdir : dirs -> list Z -> bool).
Notation launches := (launches can_open can_chdir).
Notation wanted_all := (wanted_all can_open can_chdir).

Lemma main_loop_launches inp xs k cwd fds next :
  session inp xs -> table_ok fds -> (length inp < k)%nat ->
  launches (main_loop k inp) cwd fds next = wanted_all xs cwd fds next.
Proof.
  intros H Hok. revert k cwd next. induction H as [inp s rest Ht Hs|inp s rest x xs Ht Hs Hx H IH];
    intros [|k] cwd next Hk; try lia; cbn [main_loop]; rewrite (takes_getcmd _ _ _ Ht).
  - by rewrite Hs.
  - pose proof (takes_shorter _ _ _ Ht Hs). destruct (c_str s) as [|c0 line0]; [done|]. set (line := c0 :: line0) in *.
    change (launches (Write ?fd ?o ?p) cwd fds next) with (launches p cwd fds next). rewrite cd_test.
    destruct Hx as [Hcd|msg Hcd Hp|a c b p Hcd Hp Hc]; [rewrite bool_decide_true by done|rewrite bool_decide_false by done..].
    + cbn [ShRun.launches ShRun.wanted_all]. destruct (can_chdir cwd (drop 3 (chop line))); apply IH; lia.
    + rewrite launches_fork1. cbn [Z.eqb]. unfold run_line. rewrite Hp.
      change (launches (panic_ msg) cwd fds next) with (@nil launch, next). cbv beta iota.
      change (launches (Wait ?p) cwd fds next) with (launches p cwd fds next).
      rewrite IH by lia. cbn [ShRun.wanted_all]. by destruct (wanted_all _ _ _ _).
    + rewrite launches_fork1. cbn [Z.eqb]. unfold run_line. rewrite Hp, (runcmd_launches _ _ _ _ _ a) by done.
      cbn [ShRun.wanted_all]. destruct (wanted can_open cwd a fds next) as [l1 n1].
      change (launches (Wait ?p) cwd fds n1) with (launches p cwd fds n1). by rewrite IH by lia.
Qed.

Lemma open_console_launches k cwd (fds : fdtable) o0 o1 o2 n next :
  fds = Some o0 :: Some o1 :: Some o2 :: replicate n None -> (0 < n)%nat ->
  launches (open_console 16 k) cwd fds next = launches k cwd fds next.
Proof.
  intros -> Hn. cbn [open_console ShRun.launches].
  destruct (can_open cwd (str "console") O_RDWR); [|done].
  rewrite (install_at _ _ 3).
  - destruct n as [|n]; [lia|]. done.
  - destruct n; [lia|done].
  - intros [|[|[|j]]] Hj; simpl; eauto; lia.
Qed.
End shell.

(** Lines that spell commands ask for these commands. *)
Lemma line_of_asks a l : line_of a l -> c_str (l ++ [10]) = l ++ [10] /\ asks (l ++ [10]) (ARun a).
Proof.
  intros (Ha & Hsp & Hl & _ & Hcd).
  assert (Hnul : 0 ∉ l ++ [10]).
  { rewrite elem_of_app. intros [H|H]; [|by apply list_elem_of_singleton in H].
    by apply (proj1 (Forall_forall _ _) Hl) in H as [? _]. }
  split; [by apply c_str_id|].
  destruct (parse_spelled a _ Ha Hnul Hsp) as (c & b & s & Hp & Hc). eapply ask_run; [|exact Hp|exact Hc].
  unfold is_cd in *. intros E. apply Hcd. by destruct l as [|x [|y [|z l]]].
Qed.

Lemma typed_session cmds ls : Forall2 line_of cmds ls -> session (typed ls) (ARun <$> cmds).
Proof.
  induction 1 as [|a l cmds ls Hl H IH].
  - apply (ss_end _ [] []); [|done]. apply tk_end; [constructor|simpl; lia].
  - assert (E : typed (l :: ls) = l ++ 10 :: typed ls) by (unfold typed; simpl; by rewrite <- app_assoc).
    rewrite E. destruct (line_of_asks a l Hl) as [Ec Hask]. destruct Hl as (_ & _ & Hc & Hlen & _).
    apply (ss_line _ (l ++ [10]) (typed ls)); [|rewrite Ec; by destruct l|by rewrite Ec|exact IH].
    apply tk_line; [eapply Forall_impl; [exact Hc|naive_solver]|by left|done].
Qed.

(** C16: From the typed bytes to the running programs.  Whatever bytes are typed
    at a shell started with its three descriptors open, they are a session,
    that is a sequence of lines of at most 99 bytes, each a [cd], a syntax
    error or a command, up to an empty one; and the shell and its children
    execute exactly the programs of the commands, each with the right
    descriptors in the right directory: redirections replace descriptor 0 or
    1 by the opened file, the two sides of a pipe get its write end as 1 and
    its read end as 0, no other pipe end stays open in any of them, a line
    with a syntax error executes nothing, a [cd] that succeeds changes the
    directory of what follows, and the shell's own table is unchanged for the
    next line.  (An [open] that fails ends that command only.)  Lines shorter
    than 99 bytes, without NUL and carriage return, that spell commands (and
    no [cd]) ask for these commands.  It is assumed that every [fork]
    succeeds, that the programs do not read the shell's input, and that
    whether a file opens depends on its name, the mode and the directory. *)
Theorem shell_session can_open can_chdir inp o0 o1 o2 cwd next :
  let fds := Some o0 :: Some o1 :: Some o2 :: replicate 13 None in
  (exists xs, session inp xs) /\
  (forall xs, session inp xs ->
     launches can_open can_chdir (sh_main inp) cwd fds next = wanted_all can_open can_chdir xs cwd fds next) /\
  (forall cmds ls, Forall2 line_of cmds ls -> inp = typed ls -> session inp (ARun <$> cmds)).
Proof.
  intros fds. split; [apply session_total|]. split; [|intros cmds ls H ->; by apply typed_session].
  intros xs H. unfold sh_main. rewrite (open_console_launches _ _ _ _ fds o0 o1 o2 13) by (done || lia).
  apply main_loop_launches; [done| |lia].
  split; [by exists o0|]. split; [by exists o1|]. exists 3%nat, 4%nat. split; [lia|done].
Qed.

(** A change of directory, a pipe and a syntax error. *)
Lemma shell_session_witness :
  let a := SPipe (SExec [str "ls"]) (SRedir (SExec [str "wc"]) ROut (str "f")) in
  let cons := FileObj (str "console") O_RDWR in
  let fds := Some cons :: Some cons :: Some cons :: replicate 13 None in
  let inp := typed [str "cd d"; str "ls | wc >f"; str "ls |)"] in
  session inp [ACd (str "d"); ARun a; AError "syntax"] /\
  launches (fun _ _ _ => true) (fun _ _ => true) (sh_main inp) [] fds 0
  = ([([str "ls"], <[1%nat := Some (PipeWrite 0)]> fds, [str "d"]);
      ([str "wc"], <[0%nat := Some (PipeRead 0)]> (<[1%nat := Some (FileObj (str "f") 513)]> fds), [str "d"])], 1%nat).
Proof.
  intros a cons fds inp.
  assert (Hline : forall l x xs rest, takes 99 (l ++ 10 :: rest) (l ++ [10]) rest -> c_str (l ++ [10]) = l ++ [10] ->
    asks (l ++ [10]) x -> session rest xs -> session (l ++ 10 :: rest) (x :: xs)).
  { intros l x xs rest Ht Ec Hx H. apply (ss_line _ (l ++ [10]) rest); [done|rewrite Ec; by destruct l|by rewrite Ec|done]. }
  assert (Hs : session inp [ACd (str "d"); ARun a; AError "syntax"]).
  { apply (Hline (str "cd d") (ACd (str "d")) _ (typed [str "ls | wc >f"; str "ls |)"])); [|done|by apply (ask_cd (str "cd d" ++ [10]))|].
    { apply tk_line; [repeat (apply Forall_cons; split; [done|]); apply Forall_nil; done|by left|simpl; lia]. }
    apply (Hline (str "ls | wc >f") _ _ (typed [str "ls |)"])); [|done| |].
    { apply tk_line; [repeat (apply Forall_cons; split; [done|]); apply Forall_nil; done|by left|simpl; lia]. }
    { eapply ask_run; [done|vm_compute; reflexivity|]. split; [|split; [|split; [|split]]]; try done; by repeat constructor. }
    apply (Hline (str "ls |)") _ _ []); [|done|by apply ask_error|].
    { apply tk_line; [repeat (apply Forall_cons; split; [done|]); apply Forall_nil; done|by left|simpl; lia]. }
    apply (ss_end _ [] []); [|done]. apply tk_end; [constructor|simpl; lia]. }
  split; [exact Hs|].
  pose proof (shell_session (fun _ _ _ => true) (fun _ _ => true) inp cons cons cons [] 0) as (_ & H & _).
  unfold fds. rewrite (H _ Hs). reflexivity.
Defined.
