(* ===== verification/Umalloc.v ===== *)
(** The user-level memory allocator ([umalloc.c]).

    A [Header] is the pair of words [s.ptr] and [s.size] at its address, kept
    as two maps over addresses; sizes count units of 8 bytes.  The free list
    is circular through the static header [base], in address order, and
    [freep] points into it.  [sbrk] moves the break of the process as far as
    the kernel grants it ([granted]).  The loops run on fuel; the theorems
    show that a fuel above the length of the list is enough. *)

From Stdlib Require Import Sorted.
From S2P Require Import Prelude.

Record heap := Heap {
  h_ptr : Z -> Z;
  h_size : Z -> Z;
  h_freep : Z;
  h_brk : Z
}.
#[export] Instance heap_settable : Settable heap := fun h => Heap (h_ptr h) (h_size h) (h_freep h) (h_brk h).

Section umalloc.
Context (base : Z) (granted : Z -> Z -> bool).

Definition set_ptr (h : heap) (a v : Z) : heap := h <| h_ptr := upd (h_ptr h) a v |>.
Definition set_size (h : heap) (a v : Z) : heap := h <| h_size := upd (h_size h) a (u32 v) |>.

(** [p + n] on a [Header *]. *)
Definition hplus (p n : Z) : Z := u32 (p + 8 * n).

(** The search loop of [free]. *)
Fixpoint find_prev (fuel : nat) (h : heap) (bp p : Z) : option Z :=
  match fuel with
  | O => None
  | S k =>
      if (p <? bp) && (bp <? h_ptr h p) then Some p
      else if (h_ptr h p <=? p) && ((p <? bp) || (bp <? h_ptr h p)) then Some p
      else find_prev k h bp (h_ptr h p)
  end.

Definition free (fuel : nat) (h : heap) (ap : Z) : option heap :=
  let bp := hplus ap (-1) in
  p ← find_prev fuel h bp (h_freep h);
  let h :=
    if hplus bp (h_size h bp) =? h_ptr h p then
      let h := set_size h bp (h_size h bp + h_size h (h_ptr h p)) in
      set_ptr h bp (h_ptr h (h_ptr h p))
    else set_ptr h bp (h_ptr h p) in
  let h :=
    if hplus p (h_size h p) =? bp then
      let h := set_size h p (h_size h p + h_size h bp) in
      set_ptr h p (h_ptr h bp)
    else set_ptr h p bp in
  Some (h <| h_freep := p |>).

(** [sbrk(n)]: the old break, or -1. *)
Definition sbrk (h : heap) (n : Z) : Z * heap :=
  if granted (h_brk h) (s32 n) then (h_brk h, h <| h_brk := u32 (h_brk h + s32 n) |>)
  else (u32 (-1), h).

Definition morecore (fuel : nat) (h : heap) (nu : Z) : option (Z * heap) :=
  let nu := if nu <? 4096 then 4096 else nu in
  let '(p, h) := sbrk h (u32 (nu * 8)) in
  if p =? u32 (-1) then Some (0, h)
  else
    let hp := p in
    let h := set_size h hp nu in
    h ← free fuel h (hplus hp 1);
    Some (h_freep h, h).

(** [for(p = prevp->s.ptr; ; prevp = p, p = p->s.ptr)]: the pointer returned
    and the heap. *)
Fixpoint malloc_loop (fuel : nat) (h : heap) (nunits prevp p : Z) : option (Z * heap) :=
  match fuel with
  | O => None
  | S k =>
      if nunits <=? h_size h p then
        let '(h, p) :=
          if h_size h p =? nunits then (set_ptr h prevp (h_ptr h p), p)
          else
            let h := set_size h p (h_size h p - nunits) in
            let p := hplus p (h_size h p) in
            (set_size h p nunits, p) in
        Some (hplus p 1, h <| h_freep := prevp |>)
      else if p =? h_freep h then
        '(p, h) ← morecore k h nunits;
        if p =? 0 then Some (0, h) else malloc_loop k h nunits p (h_ptr h p)
      else malloc_loop k h nunits p (h_ptr h p)
  end.

Definition nunits_of (nbytes : Z) : Z := u32 (u32 (nbytes + 8 - 1) / 8 + 1).

Definition malloc (fuel : nat) (h : heap) (nbytes : Z) : option (Z * heap) :=
  let nunits := nunits_of nbytes in
  let h :=
    if h_freep h =? 0
    then set_size ((set_ptr h base base) <| h_freep := base |>) base 0
    else h in
  malloc_loop fuel h nunits (h_freep h) (h_ptr h (h_freep h)).

(** ** The free blocks *)

(** Blocks in address order, not even adjacent (they have been joined). *)
Definition gap (x y : Z * Z) : Prop := fst x + 8 * snd x < fst y.

(** [a] points to the first of [l], each one to the next, the last to [z]. *)
Fixpoint ptr_chain (ptr : Z -> Z) (a : Z) (l : list Z) (z : Z) : Prop :=
  match l with
  | [] => ptr a = z
  | b :: l' => ptr a = b /\ ptr_chain ptr b l' z
  end.

(** The last node of a chain that starts at [a]. *)
Fixpoint last_of (a : Z) (l : list Z) : Z :=
  match l with [] => a | b :: l' => last_of b l' end.

Definition nodes (B : list (Z * Z)) : list Z := base :: B.*1.

Record heap_ok (h : heap) (B : list (Z * Z)) : Prop := {
  ok_sorted : StronglySorted gap B;
  ok_block : forall a n, (a, n) ∈ B -> base < a /\ 0 < n /\ a + 8 * n <= h_brk h /\ h_size h a = n;
  ok_linked : ptr_chain (h_ptr h) base B.*1 base;
  ok_base : 0 < base < h_brk h /\ h_size h base = 0;
  ok_freep : h_freep h ∈ nodes B;
  ok_brk : h_brk h <= 2 ^ 31
}.

(** The bytes of the free blocks. *)
Definition covered (B : list (Z * Z)) (x : Z) : Prop :=
  exists a n, (a, n) ∈ B /\ a <= x < a + 8 * n.

(** ** Chains *)

Section chains.
Context (ptr : Z -> Z).

Lemma chain_app a l1 b l2 z :
  ptr_chain ptr a (l1 ++ b :: l2) z <-> ptr_chain ptr a l1 b /\ ptr_chain ptr b l2 z.
Proof.
  revert a. induction l1 as [|c l1 IH]; intros a; simpl; [done|]. rewrite IH. tauto.
Qed.

Lemma chain_upd a l z k v : k ∉ a :: l -> ptr_chain ptr a l z -> ptr_chain (upd ptr k v) a l z.
Proof.
  revert a. induction l as [|b l IH]; intros a; simpl; rewrite !not_elem_of_cons.
  - intros [Hk _] <-. by rewrite upd_ne.
  - intros (Hk & Hb & Hl) [<- Hc]. rewrite upd_ne by done. split; [done|].
    apply IH; [|done]. by rewrite not_elem_of_cons.
Qed.

(** A ring may be entered anywhere. *)
Lemma ring_rotate b l f :
  ptr_chain ptr b l b -> f ∈ b :: l -> exists l', ptr_chain ptr f l' f /\ f :: l' ≡ₚ b :: l.
Proof.
  intros Hc [->|Hf]%elem_of_cons; [by exists l|].
  apply list_elem_of_split in Hf as (l1 & l2 & ->). apply chain_app in Hc as [H1 H2].
  exists (l2 ++ b :: l1). split; [by apply chain_app|].
  rewrite <- (Permutation_middle l2 l1 b), <- (Permutation_middle l1 l2 f), (Permutation_app_comm l1 l2).
  apply perm_swap.
Qed.

Lemma chain_in a l z x : ptr_chain ptr a l z -> x ∈ a :: l -> ptr x ∈ l ++ [z].
Proof.
  revert a. induction l as [|b l IH]; intros a; simpl.
  - intros <- ->%list_elem_of_singleton. by apply list_elem_of_singleton.
  - intros [<- Hc] [->|Hx]%elem_of_cons; [apply elem_of_cons; by left|].
    apply elem_of_cons. right. by eapply IH.
Qed.

(** In a ring every node has one predecessor. *)
Lemma chain_inj a l z x y :
  ptr_chain ptr a l z -> NoDup (l ++ [z]) -> x ∈ a :: l -> y ∈ a :: l -> ptr x = ptr y -> x = y.
Proof.
  revert a. induction l as [|b l IH]; intros a; simpl.
  - by intros _ _ ->%list_elem_of_singleton ->%list_elem_of_singleton.
  - intros [Ha Hc] Hnd%NoDup_cons [->|Hx]%elem_of_cons [->|Hy]%elem_of_cons E; try done.
    + exfalso. apply (proj1 Hnd). rewrite <- Ha, E. by eapply chain_in.
    + exfalso. apply (proj1 Hnd). rewrite <- Ha, <- E. by eapply chain_in.
    + eapply IH; naive_solver.
Qed.

(** In an ascending chain the next node is higher, except at the end. *)
Lemma chain_next a l z x :
  ptr_chain ptr a l z -> StronglySorted Z.lt (a :: l) -> x ∈ a :: l ->
  (exists y, y ∈ l /\ ptr x = y /\ x < y) \/ (x = last_of a l /\ ptr x = z).
Proof.
  revert a. induction l as [|b l IH]; intros a Hc Hs Hx; simpl in Hc.
  - apply list_elem_of_singleton in Hx as ->. by right.
  - destruct Hc as [Ha Hc]. inversion_clear Hs as [|? ? Hs' Hall].
    apply elem_of_cons in Hx as [->|Hx].
    + left. exists b. inversion_clear Hall. split; [apply elem_of_cons; by left|done].
    + destruct (IH b Hc Hs' Hx) as [(y & Hy & ? & ?)|[E ?]].
      * left. exists y. split; [apply elem_of_cons; by right|done].
      * by right.
Qed.

Lemma last_of_in a l : last_of a l ∈ a :: l.
Proof.
  revert a. induction l as [|b l IH]; intros a; simpl; [by apply list_elem_of_singleton|].
  apply elem_of_cons. right. apply IH.
Qed.

Lemma last_of_app a l b : last_of a (l ++ [b]) = b.
Proof. revert a. induction l as [|c l IH]; intros a; simpl; [done|apply IH]. Qed.

Lemma chain_last a l z : ptr_chain ptr a l z -> ptr (last_of a l) = z.
Proof. revert a. induction l as [|b l IH]; intros a; simpl; [done|]. intros [_ H]. by apply IH. Qed.

(** Replacing where the last node points. *)
Lemma chain_relink a l z z' :
  NoDup (a :: l) -> ptr_chain ptr a l z -> ptr_chain (upd ptr (last_of a l) z') a l z'.
Proof.
  revert a. induction l as [|b l IH]; intros a Hnd; simpl; [by rewrite upd_eq|].
  apply NoDup_cons in Hnd as [Ha Hnd]. intros [Hb Hc]. split; [|by apply IH].
  rewrite upd_ne; [done|]. intros E. apply Ha. rewrite E. apply last_of_in.
Qed.
End chains.

(** ** Sorted lists and covered bytes *)

Lemma sorted_fst (a : Z) (l : list (Z * Z)) :
  StronglySorted gap l -> (forall x n, (x, n) ∈ l -> a < x /\ 0 < n) -> StronglySorted Z.lt (a :: l.*1).
Proof.
  revert a. induction l as [|[b m] l IH]; intros a Hs Hb; simpl.
  { constructor; constructor. }
  inversion_clear Hs as [|? ? Hs' Hall].
  assert (Hrest : StronglySorted Z.lt (b :: l.*1)).
  { apply IH; [done|]. intros x n Hx. destruct (Hb b m ltac:(set_solver)). destruct (Hb x n ltac:(set_solver)).
    pose proof (proj1 (Forall_forall _ _) Hall _ Hx) as Hg. unfold gap in Hg. simpl in Hg. lia. }
  constructor; [done|]. destruct (Hb b m ltac:(set_solver)) as [Hab _]. constructor; [done|].
  inversion_clear Hrest as [|? ? _ Hall']. eapply Forall_impl; [exact Hall'|]. simpl. lia.
Qed.

Lemma sorted_NoDup (l : list Z) : StronglySorted Z.lt l -> NoDup l.
Proof.
  induction 1 as [|a l _ IH Hall]; constructor; [|done]. intros Ha.
  pose proof (proj1 (Forall_forall _ _) Hall _ Ha). lia.
Qed.

Lemma split_at (l : list (Z * Z)) bp :
  StronglySorted gap l -> (forall a n, (a, n) ∈ l -> 0 < n /\ a <> bp) ->
  exists B1 B2, l = B1 ++ B2 /\ (forall x, x ∈ B1 -> fst x < bp) /\ (forall x, x ∈ B2 -> bp < fst x).
Proof.
  induction l as [|[a n] l IH]; intros Hs Hb.
  { exists [], []. split; [done|]. split; intros x Hx; by apply not_elem_of_nil in Hx. }
  inversion_clear Hs as [|? ? Hs' Hall]. destruct (Hb a n ltac:(set_solver)) as [Hn Hne].
  destruct (Z_lt_le_dec a bp) as [Hlt|Hge].
  - destruct (IH Hs') as (B1 & B2 & -> & H1 & H2); [intros; apply Hb; set_solver|].
    exists ((a, n) :: B1), B2. split; [done|]. split; [|done]. intros x [->|Hx]%elem_of_cons; auto.
  - exists [], ((a, n) :: l). split; [done|]. split; [intros x Hx; by apply not_elem_of_nil in Hx|].
    intros x [->|Hx]%elem_of_cons; [simpl; lia|].
    pose proof (proj1 (Forall_forall _ _) Hall _ Hx) as Hg. unfold gap in Hg. simpl in Hg. lia.
Qed.

Lemma sorted_app_r (l1 l2 : list (Z * Z)) : StronglySorted gap (l1 ++ l2) -> StronglySorted gap l2.
Proof. induction l1 as [|a l1 IH]; simpl; [done|]. inversion_clear 1. auto. Qed.

Lemma ptr_chain_ext (ptr ptr' : Z -> Z) a l z :
  (forall x, x ∈ a :: l -> ptr' x = ptr x) -> ptr_chain ptr a l z -> ptr_chain ptr' a l z.
Proof.
  revert a. induction l as [|b l IH]; intros a E; simpl; [intros <-; apply E; set_solver|].
  intros [<- H]. split; [apply E; set_solver|]. apply IH; [|done]. intros x Hx. apply E. set_solver.
Qed.

Lemma sorted_app (l1 l2 : list (Z * Z)) :
  StronglySorted gap l1 -> StronglySorted gap l2 -> (forall x y, x ∈ l1 -> y ∈ l2 -> gap x y) ->
  StronglySorted gap (l1 ++ l2).
Proof.
  induction 1 as [|a l1 Hs IH Hall]; intros H2 H; simpl; [done|]. constructor.
  - apply IH; [done|]. intros x y Hx. apply H. set_solver.
  - apply Forall_app. split; [done|]. apply Forall_forall. intros y Hy. apply H; [set_solver|done].
Qed.

Lemma sorted_app_l (l1 l2 : list (Z * Z)) : StronglySorted gap (l1 ++ l2) -> StronglySorted gap l1.
Proof.
  induction l1 as [|a l1 IH]; simpl; [constructor|]. inversion_clear 1 as [|? ? H' Hall].
  apply Forall_app in Hall as [? _]. constructor; auto.
Qed.

Lemma sorted_app_gap (l1 l2 : list (Z * Z)) x y : StronglySorted gap (l1 ++ l2) -> x ∈ l1 -> y ∈ l2 -> gap x y.
Proof.
  induction l1 as [|a l1 IH]; simpl; [by intros _ ?%not_elem_of_nil|]. inversion_clear 1 as [|? ? H' Hall].
  intros [->|Hx]%elem_of_cons Hy; [|by apply IH]. apply (proj1 (Forall_forall _ _) Hall). set_solver.
Qed.

Lemma chain_start (ptr ptr' : Z -> Z) a b l z :
  ptr' b = ptr a -> (forall x, x ∈ l -> ptr' x = ptr x) -> ptr_chain ptr a l z -> ptr_chain ptr' b l z.
Proof.
  intros E Hl. destruct l as [|c l]; simpl; [congruence|]. intros [<- H]. split; [done|].
  by apply (ptr_chain_ext ptr).
Qed.

Lemma covered_app l1 l2 x : covered (l1 ++ l2) x <-> covered l1 x \/ covered l2 x.
Proof.
  split.
  - intros (a & m & [H|H]%elem_of_app & Hx); [left|right]; by exists a, m.
  - intros [(a & m & H & Hx)|(a & m & H & Hx)]; exists a, m; set_solver.
Qed.

Lemma covered_cons a m l x : covered ((a, m) :: l) x <-> a <= x < a + 8 * m \/ covered l x.
Proof.
  split.
  - intros (b & k & [[= -> ->]|H]%elem_of_cons & Hx); [by left|right; by exists b, k].
  - intros [H|(b & k & H & Hx)]; [exists a, m|exists b, k]; set_solver.
Qed.

(** ** The search of [free] *)

Section with_heap.
Context (h : heap) (B : list (Z * Z)) (Hok : heap_ok h B).

Lemma nodes_sorted : StronglySorted Z.lt (nodes B).
Proof. apply sorted_fst; [apply (ok_sorted _ _ Hok)|]. intros x n Hx. destruct (ok_block _ _ Hok _ _ Hx) as (? & ? & _). done. Qed.

Lemma nodes_NoDup : NoDup (nodes B).
Proof. apply sorted_NoDup, nodes_sorted. Qed.

Definition stops (bp p : Z) : bool :=
  ((p <? bp) && (bp <? h_ptr h p)) || ((h_ptr h p <=? p) && ((p <? bp) || (bp <? h_ptr h p))).

Lemma find_prev_chain fuel bp f l z p :
  ptr_chain (h_ptr h) f l z -> (length l < fuel)%nat -> p ∈ f :: l ->
  (forall x, x ∈ f :: l -> stops bp x = true <-> x = p) -> find_prev fuel h bp f = Some p.
Proof.
  revert fuel f. induction l as [|b l IH]; intros [|k] f Hc Hk Hp Hst; simpl in Hk; try lia.
  - apply list_elem_of_singleton in Hp as <-. pose proof (proj2 (Hst p ltac:(set_solver)) eq_refl) as E.
    unfold stops in E. simpl. destruct (_ && _); [done|]. simpl in E. by rewrite E.
  - simpl. destruct (stops bp f) eqn:E.
    + rewrite <- (proj1 (Hst f ltac:(set_solver)) E).
      unfold stops in E. destruct (_ && _); [done|]. simpl in E. by rewrite E.
    + assert (Hne : f <> p).
      { intros Ef. pose proof (proj2 (Hst f ltac:(set_solver)) Ef). congruence. }
      unfold stops in E. apply orb_false_iff in E as [-> ->]. destruct Hc as [-> Hc].
      apply (IH k b); [done|lia|set_solver|]. intros x Hx. apply Hst. set_solver.
Qed.

Context (B1 B2 : list (Z * Z)) (bp : Z).
Hypothesis HB : B = B1 ++ B2.
Hypothesis Hlow : forall x, x ∈ B1 -> fst x < bp.
Hypothesis Hhigh : forall x, x ∈ B2 -> bp < fst x.
Hypothesis Hbp : base < bp.

Notation prev := (last_of base B1.*1).
(** The node after the place of the block. *)
Definition next_node : Z := match B2 with [] => base | (u, _) :: _ => u end.

Lemma ring_halves :
  ptr_chain (h_ptr h) base B1.*1 next_node /\
  match B2 with [] => True | (u, _) :: B3 => ptr_chain (h_ptr h) u B3.*1 base end.
Proof.
  pose proof (ok_linked _ _ Hok) as Hl. rewrite HB, fmap_app in Hl. unfold next_node.
  destruct B2 as [|[u m] B3]; simpl in *; [by rewrite app_nil_r in Hl|]. by apply chain_app in Hl.
Qed.

Lemma prev_lt : prev < bp.
Proof.
  pose proof (last_of_in base B1.*1) as [E|H]%elem_of_cons; [by rewrite E|].
  apply list_elem_of_fmap in H as (x & -> & Hx). by apply Hlow.
Qed.

Lemma halves_sorted : StronglySorted Z.lt (base :: B1.*1) /\
  match B2 with [] => True | (u, _) :: B3 => StronglySorted Z.lt (u :: B3.*1) end.
Proof.
  pose proof nodes_sorted as Hs. unfold nodes in Hs. rewrite HB, fmap_app in Hs.
  assert (Happ : forall (l1 l2 : list Z), StronglySorted Z.lt (l1 ++ l2) -> StronglySorted Z.lt l1 /\ StronglySorted Z.lt l2).
  { clear. induction l1 as [|a l1 IH]; intros l2 H; simpl in *; [split; [constructor|done]|].
    inversion_clear H as [|? ? H' Hall]. destruct (IH _ H') as [? ?]. split; [|done].
    constructor; [done|]. by apply Forall_app in Hall as [? _]. }
  destruct (Happ (base :: B1.*1) B2.*1 Hs) as [H1 H2]. split; [done|].
  by destruct B2 as [|[u m] B3].
Qed.

Lemma stops_iff x : x ∈ nodes B -> stops bp x = true <-> x = prev.
Proof.
  intros Hx. destruct ring_halves as [Hc1 Hc2], halves_sorted as [Hs1 Hs2].
  pose proof prev_lt as Hpl.
  assert (Hcases : x ∈ base :: B1.*1 \/ x ∈ B2.*1).
  { unfold nodes in Hx. rewrite HB, fmap_app in Hx. set_solver. }
  destruct Hcases as [Hin|Hin].
  - destruct (chain_next _ _ _ _ x Hc1 Hs1 Hin) as [(y & Hy & E & Hxy)|[E En]].
    + apply list_elem_of_fmap in Hy as (b & -> & Hb). specialize (Hlow _ Hb).
      assert (Hne : x <> prev).
      { intros ->. apply chain_last in Hc1 as Hlast. rewrite Hlast in E. unfold next_node in E.
        destruct B2 as [|[u m] B3].
        - rewrite <- E in Hxy. inversion_clear Hs1 as [|? ? _ Hall].
          pose proof (last_of_in base B1.*1) as [E'|H']%elem_of_cons; [lia|].
          pose proof (proj1 (Forall_forall _ _) Hall _ H'). simpl in *. lia.
        - specialize (Hhigh (u, m) ltac:(set_solver)). simpl in Hhigh. lia. }
      unfold stops. rewrite E. split; [|done]. rewrite orb_true_iff, !andb_true_iff, orb_true_iff. lia.
    + unfold stops. rewrite En. split; [done|]. intros _. subst x. unfold next_node.
      destruct B2 as [|[u m] B3].
      * inversion_clear Hs1 as [|? ? _ Hall].
        assert (base <= prev).
        { pose proof (last_of_in base B1.*1) as [E'|H']%elem_of_cons; [lia|].
          pose proof (proj1 (Forall_forall _ _) Hall _ H'). simpl in *. lia. }
        rewrite orb_true_iff, !andb_true_iff, orb_true_iff. lia.
      * specialize (Hhigh (u, m) ltac:(set_solver)). simpl in Hhigh.
        rewrite orb_true_iff, !andb_true_iff, orb_true_iff. lia.
  - apply list_elem_of_fmap in Hin as (b & -> & Hb). pose proof (Hhigh _ Hb) as Hgt.
    split; [|lia]. destruct B2 as [|[u m] B3]; [by apply not_elem_of_nil in Hb|].
    assert (Hin : fst b ∈ u :: B3.*1) by (apply (list_elem_of_fmap_2 fst) in Hb; done).
    destruct (chain_next _ _ _ _ _ Hc2 Hs2 Hin) as [(y & Hy & E & Hxy)|[_ En]]; unfold stops.
    + rewrite E. rewrite orb_true_iff, !andb_true_iff, orb_true_iff. lia.
    + rewrite En. rewrite orb_true_iff, !andb_true_iff, orb_true_iff. lia.
Qed.

Lemma find_prev_ok fuel : (length B < fuel)%nat -> find_prev fuel h bp (h_freep h) = Some prev.
Proof.
  intros Hf. destruct (ring_rotate _ _ _ _ (ok_linked _ _ Hok) (ok_freep _ _ Hok)) as (l & Hc & Hp).
  apply (find_prev_chain _ _ _ l (h_freep h)).
  - done.
  - apply Permutation_length in Hp. simpl in Hp. rewrite length_fmap in Hp. lia.
  - rewrite Hp. pose proof (last_of_in base B1.*1) as H. rewrite HB, fmap_app. set_solver.
  - intros x Hx. apply stops_iff. unfold nodes. by rewrite <- Hp.
Qed.

(** ** Joining with the block above *)

Context (n : Z).
Hypothesis Hn : 0 < n /\ h_size h bp = n /\ bp + 8 * n <= h_brk h.
Hypothesis Hfree : forall x, bp <= x < bp + 8 * n -> ~ covered B x.

Lemma block_high a m : (a, m) ∈ B2 -> bp + 8 * n <= a.
Proof.
  intros Hin. pose proof (Hhigh _ Hin) as Hgt. simpl in Hgt.
  assert (HinB : (a, m) ∈ B) by (rewrite HB; set_solver).
  destruct (ok_block _ _ Hok _ _ HinB) as (_ & Hm & _).
  destruct (Z_lt_le_dec a (bp + 8 * n)); [|done]. exfalso. apply (Hfree a); [lia|].
  exists a, m. split; [done|lia].
Qed.

Lemma block_low a m : (a, m) ∈ B1 -> a + 8 * m <= bp.
Proof.
  intros Hin. pose proof (Hlow _ Hin) as Hlt. simpl in Hlt.
  assert (HinB : (a, m) ∈ B) by (rewrite HB; set_solver).
  destruct (Z_lt_le_dec bp (a + 8 * m)); [|done]. exfalso. apply (Hfree bp); [lia|].
  exists a, m. split; [done|lia].
Qed.

Definition up_step : heap :=
  if hplus bp (h_size h bp) =? h_ptr h prev then
    let h := set_size h bp (h_size h bp + h_size h (h_ptr h prev)) in
    set_ptr h bp (h_ptr h (h_ptr h prev))
  else set_ptr h bp (h_ptr h prev).

(** The block with the one above it joined in: what follows it in the list. *)
Lemma up_step_ok : exists n' B2',
  (n <= n' /\ bp + 8 * n' <= h_brk h) /\ h_size up_step bp = n'
  /\ (forall x, x <> bp -> h_ptr up_step x = h_ptr h x /\ h_size up_step x = h_size h x)
  /\ (h_freep up_step = h_freep h /\ h_brk up_step = h_brk h)
  /\ ptr_chain (h_ptr up_step) bp B2'.*1 base
  /\ StronglySorted gap ((bp, n') :: B2') /\ ((forall x, x ∈ B2' -> x ∈ B2) /\ (length B2' <= length B2)%nat)
  /\ (forall x, covered ((bp, n') :: B2') x <-> covered B2 x \/ bp <= x < bp + 8 * n).
Proof.
  destruct ring_halves as [Hc1 Hc2]. apply chain_last in Hc1 as Hprev.
  destruct Hn as (Hn0 & Hsz & Hbrk). pose proof (ok_brk _ _ Hok) as Hlim.
  pose proof (ok_base _ _ Hok) as [Hb0 _].
  assert (Hs2 : StronglySorted gap B2) by (apply (sorted_app_r B1); rewrite <- HB; apply (ok_sorted _ _ Hok)).
  assert (Hnot : bp ∉ B2.*1).
  { intros Hin. apply list_elem_of_fmap in Hin as (x & E & Hx). specialize (Hhigh _ Hx). lia. }
  pose proof block_high as Hbh. unfold up_step. rewrite Hprev, Hsz. unfold hplus. rewrite u32_small by lia.
  unfold next_node in *. destruct B2 as [|[u m] B3].
  - rewrite (proj2 (Z.eqb_neq _ _)) by lia. exists n, []. split; [lia|]. simpl.
    split; [done|]. split; [intros x Hx; by rewrite upd_ne|]. split; [done|]. rewrite upd_eq.
    split; [done|]. split; [repeat constructor|]. split; [split; [done|lia]|].
    intros x. split; [intros (a & k & [[= -> ->]|[]%not_elem_of_nil]%elem_of_cons & H); by right|].
    intros [(a & k & []%not_elem_of_nil & _)|H]. exists bp, n. split; [set_solver|done].
  - pose proof (Hbh u m ltac:(set_solver)) as Hu.
    inversion_clear Hs2 as [|? ? Hs3 Hall].
    assert (HuB : (u, m) ∈ B) by (rewrite HB; set_solver).
    destruct (ok_block _ _ Hok _ _ HuB) as (_ & Hm & Hmb & Hus). simpl in Hnot.
    rewrite not_elem_of_cons in Hnot. destruct Hnot as [Hne Hnot].
    destruct (Z.eqb_spec (bp + 8 * n) u) as [E|E].
    + rewrite Hus. exists (n + m), B3. split; [lia|]. simpl. rewrite ?Hprev, upd_eq, u32_small by lia.
      split; [done|]. split; [intros x Hx; by rewrite !upd_ne|]. split; [done|].
      split.
      { destruct B3 as [|[v k] B4]; simpl in *; rewrite upd_eq, ?Hprev; [done|].
        destruct Hc2 as [Hv Hc2]. split; [done|]. apply chain_upd; [exact Hnot|done]. }
      split; [constructor; [done|]; eapply Forall_impl; [exact Hall|]; unfold gap; simpl; intros; lia|].
      split; [split; [set_solver|simpl; lia]|].
      intros x. split.
      * intros (a & k & [[= -> ->]|Hin]%elem_of_cons & H); [|left; exists a, k; set_solver].
        destruct (Z_lt_le_dec x (bp + 8 * n)); [right; lia|left]. exists u, m. split; [set_solver|lia].
      * intros [(a & k & [[= -> ->]|Hin]%elem_of_cons & H)|H].
        -- exists bp, (n + m). split; [set_solver|lia].
        -- exists a, k. split; [set_solver|done].
        -- exists bp, (n + m). split; [set_solver|lia].
    + exists n, ((u, m) :: B3). split; [lia|]. simpl.
      split; [done|]. split; [intros x Hx; by rewrite upd_ne|]. split; [done|]. rewrite upd_eq.
      split; [split; [done|]; apply chain_upd; [rewrite not_elem_of_cons; done|done]|].
      split.
      { constructor; [constructor; done|]. constructor; [unfold gap; simpl; lia|].
        eapply Forall_impl; [exact Hall|]. unfold gap; simpl; intros; lia. }
      split; [split; [done|lia]|]. intros x. split.
      * intros (a & k & [[= -> ->]|Hin]%elem_of_cons & H); [by right|left; by exists a, k].
      * intros [(a & k & Hin & H)|H]; [exists a, k; set_solver|exists bp, n; set_solver].
Qed.

(** ** Joining with the block below *)

(** A heap assembled from the blocks below, a block ending where the freed one
    does, and the blocks above. *)
Lemma assemble h' Bl q k n' B2' :
  (forall a m, (a, m) ∈ Bl -> (a, m) ∈ B1 /\ a + 8 * m < q) -> StronglySorted gap Bl ->
  base < q <= bp -> q + 8 * k = bp + 8 * n' -> 0 < n' -> bp + 8 * n' <= h_brk h ->
  StronglySorted gap ((bp, n') :: B2') -> (forall x, x ∈ B2' -> x ∈ B2) ->
  ptr_chain (h_ptr h') base Bl.*1 q -> ptr_chain (h_ptr h') q B2'.*1 base ->
  h_size h' q = k -> (forall x, x <> q -> x <> bp -> h_size h' x = h_size h x) ->
  h_freep h' = prev -> prev ∈ nodes (Bl ++ (q, k) :: B2') -> h_brk h' = h_brk h ->
  heap_ok h' (Bl ++ (q, k) :: B2').
Proof.
  intros HBl HsBl Hq Hqk Hn' Hend Hs2 Hin2 Hc1 Hc2 Hsq Hsz Hfp Hfpin Hbrk.
  inversion_clear Hs2 as [|? ? Hs2' Hall].
  assert (Hg2 : forall y, y ∈ B2' -> gap (q, k) y).
  { intros y Hy. pose proof (proj1 (Forall_forall _ _) Hall _ Hy) as Hg. unfold gap in *. simpl in *. lia. }
  assert (Hold : forall a m, (a, m) ∈ Bl ++ B2' -> (a, m) ∈ B /\ a <> q /\ a <> bp).
  { intros a m [Hin|Hin]%elem_of_app.
    - destruct (HBl _ _ Hin) as [Hb1 Hlt]. pose proof (Hlow _ Hb1) as Hl. simpl in Hl.
      assert (HinB : (a, m) ∈ B) by (rewrite HB; set_solver).
      destruct (ok_block _ _ Hok _ _ HinB) as (_ & Hm & _). split; [done|lia].
    - pose proof (Hhigh _ (Hin2 _ Hin)) as Hh. simpl in Hh. split; [rewrite HB; set_solver|lia]. }
  split.
  - apply sorted_app; [done| |].
    + constructor; [done|]. by apply Forall_forall.
    + intros [a m] y Hx [->|Hy]%elem_of_cons; destruct (HBl _ _ Hx) as [_ Hlt]; [done|].
      specialize (Hg2 _ Hy). unfold gap in *. simpl in *. lia.
  - intros a m Hin. rewrite Hbrk.
    assert (Hcase : (a, m) = (q, k) \/ (a, m) ∈ Bl ++ B2') by set_solver.
    destruct Hcase as [[= -> ->]|Hin']; [repeat split; lia|].
    destruct (Hold _ _ Hin') as (HinB & Hne & Hne'). rewrite Hsz by done. by apply (ok_block _ _ Hok).
  - rewrite fmap_app. by apply chain_app.
  - rewrite Hbrk, Hsz by lia. apply (ok_base _ _ Hok).
  - by rewrite Hfp.
  - rewrite Hbrk. apply (ok_brk _ _ Hok).
Qed.

(** The last block below, if there is one. *)
Lemma prev_cases :
  (B1 = [] /\ prev = base) \/
  (exists B0 p m, prev = p /\ B1 = B0 ++ [(p, m)] /\ h_size h p = m /\ base < p /\ 0 < m /\ p + 8 * m <= h_brk h).
Proof.
  destruct (decide (B1 = [])) as [->|Hne]; [by left|right].
  destruct (exists_last Hne) as (B0 & [p m] & E). exists B0, p, m.
  split; [rewrite E, fmap_app; apply last_of_app|]. split; [done|].
  assert (Hin : (p, m) ∈ B) by (rewrite HB, E; set_solver).
  destruct (ok_block _ _ Hok _ _ Hin) as (? & ? & ? & ?). done.
Qed.

Lemma bp_not_low : bp ∉ base :: B1.*1.
Proof.
  rewrite not_elem_of_cons. split; [lia|]. intros Hin.
  apply list_elem_of_fmap in Hin as (x & E & Hx). specialize (Hlow _ Hx). lia.
Qed.

Definition down_step (h : heap) : heap :=
  if hplus prev (h_size h prev) =? bp then
    let h := set_size h prev (h_size h prev + h_size h bp) in
    set_ptr h prev (h_ptr h bp)
  else set_ptr h prev bp.

(** Where the freed block ends up: joined to the one below it, or on its own. *)
Lemma down_step_ok n' B2' :
  n <= n' -> bp + 8 * n' <= h_brk h -> h_size up_step bp = n' ->
  (forall x, x <> bp -> h_ptr up_step x = h_ptr h x /\ h_size up_step x = h_size h x) ->
  ptr_chain (h_ptr up_step) bp B2'.*1 base -> (forall x, x ∈ B2' -> x ∈ B2) ->
  let h' := down_step up_step in
  exists Bl q k,
    (forall a m, (a, m) ∈ Bl -> (a, m) ∈ B1 /\ a + 8 * m < q) /\ StronglySorted gap Bl
    /\ base < q <= bp /\ q + 8 * k = bp + 8 * n'
    /\ ptr_chain (h_ptr h') base Bl.*1 q /\ ptr_chain (h_ptr h') q B2'.*1 base
    /\ h_size h' q = k /\ (forall x, x <> q -> x <> bp -> h_size h' x = h_size h x)
    /\ prev ∈ nodes (Bl ++ (q, k) :: B2') /\ (length Bl <= length B1)%nat
    /\ (forall x, covered B1 x \/ bp <= x < bp + 8 * n' <-> covered Bl x \/ q <= x < q + 8 * k).
Proof.
  intros Hn' Hend Hs1 Heq Hc2 Hin2 h'. destruct ring_halves as [Hc1 _].
  pose proof (ok_brk _ _ Hok) as Hlim. pose proof (ok_base _ _ Hok) as [Hb0 Hbs].
  pose proof prev_lt as Hplt. pose proof bp_not_low as Hnl. destruct Hn as (Hn0 & _ & _).
  assert (Hnd : NoDup (base :: B1.*1)) by (apply sorted_NoDup, halves_sorted).
  assert (HsB1 : StronglySorted gap B1) by (apply (sorted_app_l _ B2); rewrite <- HB; apply (ok_sorted _ _ Hok)).
  assert (Hnot2 : forall x, x ∈ B2'.*1 -> bp < x).
  { intros x Hx. apply list_elem_of_fmap in Hx as (y & -> & Hy). by apply Hhigh, Hin2. }
  assert (Hpne : prev <> bp) by lia. destruct (Heq _ Hpne) as [Hpp Hps].
  assert (Hsep : hplus prev (h_size up_step prev) =? bp = false ->
    forall a m, (a, m) ∈ B1 -> a + 8 * m < bp).
  { rewrite Hps. intros E a m Hin. pose proof (block_low _ _ Hin) as Hle.
    destruct prev_cases as [[E1 _]|(B0 & p & mp & Ep & E1 & Emp & Hp1 & Hmp & Hpb)].
    { rewrite E1 in Hin. by apply not_elem_of_nil in Hin. }
    rewrite Ep, Emp in E. unfold hplus in E. rewrite u32_small in E by lia. apply Z.eqb_neq in E.
    rewrite Ep in Hplt. clear Ep Hpne Hps Hpp. rewrite E1 in Hin, HsB1. apply elem_of_app in Hin as [Hin|Hin].
    - pose proof (sorted_app_gap _ _ _ (p, mp) HsB1 Hin ltac:(set_solver)) as Hg. unfold gap in Hg. simpl in Hg. lia.
    - apply list_elem_of_singleton in Hin. injection Hin as -> ->. lia. }
  unfold h', down_step. destruct (hplus prev (h_size up_step prev) =? bp) eqn:E.
  - destruct prev_cases as [[E1 Ep]|(B0 & p & mp & Ep & E1 & Emp & Hp1 & Hmp & Hpb)].
    { exfalso. rewrite Hps, Ep, Hbs in E. unfold hplus in E. rewrite u32_small in E by lia. apply Z.eqb_eq in E. lia. }
    rewrite Hps in E |- *. rewrite Ep in *. rewrite Emp in *.
    unfold hplus in E. rewrite u32_small in E by lia. apply Z.eqb_eq in E.
    assert (Hprev_B0 : forall a m, (a, m) ∈ B0 -> a + 8 * m < p).
    { intros a m Hin. rewrite E1 in HsB1.
      apply (sorted_app_gap _ _ _ (p, mp) HsB1 Hin). set_solver. }
    assert (Ef : B1.*1 = B0.*1 ++ [p]) by (by rewrite E1, fmap_app).
    assert (HndB0 : p ∉ base :: B0.*1).
    { rewrite Ef in Hnd. change (base :: B0.*1 ++ [p]) with ((base :: B0.*1) ++ [p]) in Hnd.
      apply NoDup_app in Hnd as (_ & Hd & _). intros Hin. apply (Hd _ Hin). set_solver. }
    exists B0, p, (mp + n'). simpl. rewrite !upd_eq, Hs1, u32_small by lia.
    split; [intros a m Hin; split; [rewrite E1; set_solver|by apply (Hprev_B0 a m)]|].
    split; [apply (sorted_app_l _ [(p, mp)]); by rewrite <- E1|].
    split; [lia|]. split; [lia|]. split.
    { rewrite Ef in Hc1. apply chain_app in Hc1 as [Hc1 _]. apply chain_upd; [done|].
      apply (ptr_chain_ext (h_ptr h)); [|done]. intros x Hx. apply Heq. intros ->. apply Hnl. rewrite Ef. set_solver. }
    split.
    { apply (chain_start (h_ptr up_step) _ bp); [by rewrite upd_eq| |done].
      intros x Hx. rewrite upd_ne; [done|]. specialize (Hnot2 _ Hx). lia. }
    split; [done|]. split; [intros x Hx Hx'; rewrite upd_ne by done; by apply Heq|].
    split; [unfold nodes; rewrite fmap_app; set_solver|].
    split; [rewrite E1, length_app; simpl; lia|].
    intros x. rewrite E1, covered_app. setoid_rewrite covered_cons.
    assert (Hnil : covered [] x <-> False) by (split; [|done]; intros (a & m & []%not_elem_of_nil & _)).
    rewrite Hnil. split; intros; [|destruct (Z_lt_le_dec x bp)]; naive_solver lia.
  - exists B1, bp, n'. simpl. specialize (Hsep eq_refl).
    split; [intros a m Hin; split; [done|by apply (Hsep a m)]|]. split; [done|].
    split; [lia|]. split; [lia|]. split.
    { apply (ptr_chain_ext (upd (h_ptr h) prev bp)); [|by apply (chain_relink _ _ _ next_node)].
      intros x Hx. unfold upd. destruct (x =? prev); [done|]. apply Heq. by intros ->. }
    split.
    { apply (ptr_chain_ext (h_ptr up_step)); [|done]. intros x Hx. rewrite upd_ne; [done|].
      apply elem_of_cons in Hx as [->|Hx]; [lia|]. specialize (Hnot2 _ Hx). lia. }
    split; [done|]. split; [intros x Hx Hx'; by apply Heq|].
    split; [|split; [lia|done]].
    unfold nodes. rewrite fmap_app. pose proof (last_of_in base B1.*1). set_solver.
Qed.

Lemma free_ok fuel : (length B < fuel)%nat ->
  exists h' B', free fuel h (bp + 8) = Some h' /\ heap_ok h' B' /\ h_brk h' = h_brk h
    /\ (forall x, covered B' x <-> covered B x \/ bp <= x < bp + 8 * n)
    /\ (exists a m, (a, m) ∈ B' /\ a <= bp /\ bp + 8 * n <= a + 8 * m)
    /\ (forall x, ~ covered B' x -> h_size h' x = h_size h x)
    /\ (length B' <= S (length B))%nat.
Proof.
  intros Hf.
  destruct up_step_ok as (n' & B2' & [Hn' Hend] & Hs1 & Heq & [Hfp1 Hbrk1] & Hc2 & Hsort & [Hin2 Hlen2] & Hcov).
  destruct (down_step_ok n' B2' Hn' Hend Hs1 Heq Hc2 Hin2)
    as (Bl & q & k & HBl & HsBl & Hq & Hqk & Hcl & Hcr & Hsq & Hsz & Hpin & Hlen1 & Hcov1).
  pose proof (ok_brk _ _ Hok) as Hlim. pose proof (ok_base _ _ Hok) as [Hb0 Hbs]. destruct Hn as (Hn0 & _ & _).
  assert (Hbrk : h_brk (down_step up_step) = h_brk h) by (unfold down_step; by destruct (_ =? _)).
  exists ((down_step up_step) <| h_freep := prev |>), (Bl ++ (q, k) :: B2').
  split.
  { unfold free. replace (hplus (bp + 8) (-1)) with bp by (unfold hplus; rewrite u32_small; lia).
    rewrite find_prev_ok by done. done. }
  split; [eapply (assemble _ Bl q k n' B2'); eauto; lia|].
  split; [done|]. split.
  { intros x. rewrite covered_app, covered_cons, HB, covered_app.
    specialize (Hcov x). rewrite covered_cons in Hcov. specialize (Hcov1 x).
    clear - Hcov Hcov1. tauto. }
  split; [exists q, k; split; [set_solver|lia]|]. split.
  { intros x Hx. apply Hsz; intros ->; apply Hx; rewrite covered_app, covered_cons; right; left; lia. }
  rewrite length_app, HB, length_app. simpl. lia.
Qed.
End with_heap.

(** Freeing a block that overlaps no free block. *)
Lemma free_spec h B bp n fuel :
  heap_ok h B -> base < bp -> 0 < n -> h_size h bp = n -> bp + 8 * n <= h_brk h ->
  (forall x, bp <= x < bp + 8 * n -> ~ covered B x) -> (length B < fuel)%nat ->
  exists h' B', free fuel h (bp + 8) = Some h' /\ heap_ok h' B' /\ h_brk h' = h_brk h
    /\ (forall x, covered B' x <-> covered B x \/ bp <= x < bp + 8 * n)
    /\ (exists a m, (a, m) ∈ B' /\ a <= bp /\ bp + 8 * n <= a + 8 * m)
    /\ (forall x, ~ covered B' x -> h_size h' x = h_size h x)
    /\ (length B' <= S (length B))%nat.
Proof.
  intros Hok Hb Hn Hs Hbrk Hd Hf.
  destruct (split_at B bp (ok_sorted _ _ Hok)) as (B1 & B2 & HB & H1 & H2).
  { intros a m Hin. destruct (ok_block _ _ Hok _ _ Hin) as (_ & Hm & _). split; [done|]. intros ->.
    apply (Hd bp); [lia|]. exists bp, m. split; [done|lia]. }
  by apply (free_ok h B Hok B1 B2 bp HB H1 H2 Hb n).
Qed.

(** The blocks start where the free bytes start. *)
Lemma block_start h B a n : heap_ok h B -> (a, n) ∈ B -> covered B a /\ ~ covered B (a - 1).
Proof.
  intros Hok Hin. destruct (ok_block _ _ Hok _ _ Hin) as (_ & Hn & _). split; [exists a, n; split; [done|lia]|].
  intros (b & m & Hb & Hx). pose proof (ok_sorted _ _ Hok) as Hs.
  apply list_elem_of_split in Hin as (B1 & B2 & ->).
  apply elem_of_app in Hb as [Hb|[[= -> ->]|Hb]%elem_of_cons]; [|lia|].
  - assert (gap (b, m) (a, n)) as Hg by (apply (sorted_app_gap _ _ _ _ Hs Hb); set_solver). unfold gap in Hg. simpl in Hg. lia.
  - apply sorted_app_r in Hs. inversion_clear Hs as [|? ? _ Hall].
    pose proof (proj1 (Forall_forall _ _) Hall _ Hb) as Hg. unfold gap in Hg. simpl in Hg. lia.
Qed.

Lemma start_block B a : covered B a -> ~ covered B (a - 1) -> exists n, (a, n) ∈ B.
Proof.
  intros (b & m & Hb & Hx) Hn. assert (a = b) as ->; [|by exists m].
  destruct (decide (a = b)); [done|]. exfalso. apply Hn. exists b, m. split; [done|lia].
Qed.

(** Every block of the list starts at a multiple of 8. *)
Definition starts_aligned (B : list (Z * Z)) : Prop := forall a n, (a, n) ∈ B -> (8 | a).

(** So it stays when the bytes from [lo] are added and those up to [e] taken. *)
Lemma starts_aligned_from h' B B' lo hi r e :
  heap_ok h' B' -> starts_aligned B -> (8 | lo) -> (8 | e) ->
  (forall x, covered B' x <-> (covered B x \/ lo <= x < hi) /\ ~ (r <= x < e)) -> starts_aligned B'.
Proof.
  intros Hok HB Hlo He Hcov a n Hin. destruct (block_start h' B' a n Hok Hin) as [Ha Ha1].
  rewrite Hcov in Ha, Ha1. destruct Ha as [Ha Har].
  destruct (decide (r <= a - 1 < e)) as [Hr|Hr]; [by replace a with e by lia|].
  destruct Ha as [Ha|Ha].
  - destruct (start_block B a Ha) as [m Hm]; [tauto|]. by apply (HB a m).
  - replace a with lo; [done|]. destruct (decide (a = lo)); [done|]. exfalso. apply Ha1. split; [right; lia|done].
Qed.

Lemma starts_aligned_add h' B B' lo hi :
  heap_ok h' B' -> starts_aligned B -> (8 | lo) ->
  (forall x, covered B' x <-> covered B x \/ lo <= x < hi) -> starts_aligned B'.
Proof.
  intros Hok HB Hlo Hcov. apply (starts_aligned_from h' B B' lo hi 0 0 Hok HB Hlo (Z.divide_0_r 8)).
  intros x. rewrite Hcov. split; [split; [done|lia]|tauto].
Qed.

(** ** Allocation *)

(** Taking [nunits] units of a block that is large enough. *)
Lemma malloc_hit h B B1 a n B2 nunits k :
  heap_ok h B -> B = B1 ++ (a, n) :: B2 -> 1 <= nunits <= n ->
  exists r h' B', malloc_loop (S k) h nunits (last_of base B1.*1) a = Some (r + 8, h')
    /\ heap_ok h' B' /\ h_brk h' = h_brk h /\ base < r /\ r + 8 * nunits <= h_brk h
    /\ h_size h' r = nunits /\ (forall x, ~ covered B x -> h_size h' x = h_size h x)
    /\ (forall x, covered B' x <-> covered B x /\ ~ (r <= x < r + 8 * nunits))
    /\ (forall x, r <= x < r + 8 * nunits -> covered B x) /\ (length B' <= length B)%nat /\ (8 | r - a).
Proof.
  intros Hok HB Hnu.
  assert (Hin : (a, n) ∈ B) by (rewrite HB; set_solver).
  destruct (ok_block _ _ Hok _ _ Hin) as (Ha & Hn & Hend & Hsz).
  pose proof (ok_brk _ _ Hok) as Hlim. pose proof (ok_base _ _ Hok) as [Hb0 Hbs].
  pose proof (ok_linked _ _ Hok) as Hl. rewrite HB, fmap_app, fmap_cons in Hl. cbn [fst] in Hl. apply chain_app in Hl as [Hl1 Hl2].
  pose proof (nodes_NoDup h B Hok) as Hnd. unfold nodes in Hnd. rewrite HB, fmap_app, fmap_cons in Hnd. cbn [fst] in Hnd.
  assert (Hnd1 : NoDup (base :: B1.*1)).
  { change (base :: B1.*1 ++ a :: B2.*1) with ((base :: B1.*1) ++ a :: B2.*1) in Hnd.
    by apply NoDup_app in Hnd as (? & _ & _). }
  assert (Hdis : forall x, x ∈ base :: B1.*1 -> x ∉ a :: B2.*1).
  { change (base :: B1.*1 ++ a :: B2.*1) with ((base :: B1.*1) ++ a :: B2.*1) in Hnd.
    by apply NoDup_app in Hnd as (_ & ? & _). }
  pose proof (ok_sorted _ _ Hok) as Hs. rewrite HB in Hs.
  assert (Hs1 : StronglySorted gap B1) by (by apply sorted_app_l in Hs).
  assert (Hs2 : StronglySorted gap ((a, n) :: B2)) by (by apply sorted_app_r in Hs).
  inversion_clear Hs2 as [|? ? Hs3 Hall].
  assert (Hlo : forall b m, (b, m) ∈ B1 -> b + 8 * m < a)
    by (intros b m Hb; apply (sorted_app_gap _ _ (b, m) (a, n) Hs Hb); set_solver).
  assert (Hhi : forall b m, (b, m) ∈ B2 -> a + 8 * n < b)
    by (intros b m Hb; apply (proj1 (Forall_forall _ _) Hall _ Hb)).
  cbn [malloc_loop]. rewrite Hsz, (proj2 (Z.leb_le _ _)) by lia.
  destruct (Z.eqb_spec n nunits) as [->|Hne].
  - exists a, ((set_ptr h (last_of base B1.*1) (h_ptr h a)) <| h_freep := last_of base B1.*1 |>), (B1 ++ B2).
    split; [unfold hplus; by rewrite u32_small by lia|].
    assert (Hlink : ptr_chain (upd (h_ptr h) (last_of base B1.*1) (h_ptr h a)) base (B1 ++ B2).*1 base).
    { rewrite fmap_app. pose proof (chain_relink _ _ _ _ (h_ptr h a) Hnd1 Hl1) as Hr.
      destruct B2 as [|[b m] B3]; simpl in *; [by rewrite app_nil_r; rewrite Hl2 in *|].
      destruct Hl2 as [Hb Hl2]. rewrite Hb in Hr |- *. apply chain_app. split; [done|].
      apply chain_upd; [|done]. intros Hin'. apply (Hdis (last_of base B1.*1)); [apply last_of_in|set_solver]. }
    split.
    { split; simpl; try done.
      - apply sorted_app; [done|done|]. intros [b m] y Hx Hy. apply (sorted_app_gap _ _ _ y Hs Hx). set_solver.
      - intros b m Hb. apply (ok_block _ _ Hok). rewrite HB. set_solver.
      - unfold nodes. rewrite fmap_app. pose proof (last_of_in base B1.*1). set_solver. }
    split; [done|]. split; [done|]. split; [done|]. split; [done|]. split; [done|].
    split; [|split; [|split; [rewrite HB, !length_app; simpl; lia|rewrite Z.sub_diag; apply Z.divide_0_r]]].
    + intros x. rewrite HB, !covered_app, covered_cons. split; [|tauto].
      intros H. split; [tauto|]. intros Hx. destruct H as [(b & m & Hb & Hbx)|(b & m & Hb & Hbx)].
      * specialize (Hlo _ _ Hb). lia.
      * specialize (Hhi _ _ Hb). lia.
    + intros x Hx. rewrite HB, covered_app, covered_cons. tauto.
  - set (r := a + 8 * (n - nunits)).
    exists r, ((set_size (set_size h a (n - nunits)) r nunits) <| h_freep := last_of base B1.*1 |>),
      (B1 ++ (a, n - nunits) :: B2).
    assert (Hra : r <> a) by (unfold r; lia).
    split.
    { simpl. unfold set_size at 1 2. simpl. rewrite upd_eq, (u32_small (n - nunits)) by lia. unfold hplus.
      rewrite (u32_small (a + 8 * (n - nunits))) by lia. fold r. rewrite u32_small by lia.
      change (8 * 1) with 8. unfold set_size. simpl. by rewrite (u32_small (n - nunits)) by lia. }
    split.
    { split; simpl; try done.
      - apply sorted_app; [done| |].
        + constructor; [done|]. apply Forall_forall. intros [b m] Hb. specialize (Hhi _ _ Hb). unfold gap. simpl. lia.
        + intros [b m] y Hx [->|Hy]%elem_of_cons; [by apply (Hlo b m)|].
          apply (sorted_app_gap _ _ _ y Hs Hx). set_solver.
      - intros b m Hb. rewrite !u32_small by lia.
        assert (Hcase : (b, m) = (a, n - nunits) \/ (b, m) ∈ B1 ++ B2) by set_solver.
        destruct Hcase as [[= -> ->]|Hb']; [rewrite upd_ne, upd_eq by done; lia|].
        assert (HbB : (b, m) ∈ B) by (rewrite HB; set_solver).
        assert (Hbne : b <> a /\ b <> r).
        { apply elem_of_app in Hb' as [Hb'|Hb']; [specialize (Hlo _ _ Hb')|specialize (Hhi _ _ Hb')].
          - destruct (ok_block _ _ Hok _ _ HbB) as (_ & ? & _). unfold r. lia.
          - unfold r. lia. }
        rewrite !upd_ne by tauto. by apply (ok_block _ _ Hok).
      - rewrite fmap_app. simpl. by apply chain_app.
      - rewrite !upd_ne by (unfold r; lia). done.
      - unfold nodes. rewrite fmap_app. pose proof (last_of_in base B1.*1). set_solver. }
    assert (Hcov : forall x, a <= x < a + 8 * n -> covered B x)
      by (intros x Hx; exists a, n; done).
    split; [done|]. split; [unfold r; lia|]. split; [unfold r; lia|].
    split; [simpl; by rewrite upd_eq, u32_small by lia|].
    split; [intros x Hx; simpl; rewrite !upd_ne; [done|intros ->; apply Hx, Hcov; lia|intros ->; apply Hx, Hcov; unfold r; lia]|].
    split; [|split; [intros x Hx; apply Hcov; unfold r in Hx; lia|split; [rewrite HB, !length_app; simpl; lia|]]].
    2:{ unfold r. replace (a + 8 * (n - nunits) - a) with (8 * (n - nunits)) by lia. apply Z.divide_factor_l. }
    intros x. rewrite HB, !covered_app, !covered_cons. unfold r. split.
    + intros H. split; [destruct H as [?|[?|?]]; [by left|right; left; lia|by right; right]|].
      intros Hx. destruct H as [(b & m & Hb & Hbx)|[?|(b & m & Hb & Hbx)]]; [|lia|].
      * specialize (Hlo _ _ Hb). lia.
      * specialize (Hhi _ _ Hb). lia.
    + intros [[H|[H|H]] Hx]; [by left|right; left; lia|by right; right].
Qed.

(** ** The search of [malloc] *)

Lemma scan_chain h nunits a l z k :
  ptr_chain (h_ptr h) a l z -> (forall x, x ∈ l -> h_size h x < nunits /\ x <> h_freep h) ->
  malloc_loop (length l + k) h nunits a (h_ptr h a) = malloc_loop k h nunits (last_of a l) z.
Proof.
  revert a. induction l as [|b l IH]; intros a Hc Hl; simpl in *; [by rewrite Hc|].
  destruct Hc as [Hb Hc]. rewrite Hb. destruct (Hl b ltac:(set_solver)) as [Hs Hf].
  rewrite (proj2 (Z.leb_gt _ _)), (proj2 (Z.eqb_neq _ _)) by done.
  apply IH; [done|]. intros x Hx. apply Hl. set_solver.
Qed.

Lemma first_fit (f : Z -> bool) (l : list Z) :
  (forall x, x ∈ l -> f x = false) \/
  exists l1 x l2, l = l1 ++ x :: l2 /\ (forall y, y ∈ l1 -> f y = false) /\ f x = true.
Proof.
  induction l as [|a l IH]; [left; intros x Hx; by apply not_elem_of_nil in Hx|].
  destruct (f a) eqn:E.
  - right. exists [], a, l. split; [done|]. split; [intros y Hy; by apply not_elem_of_nil in Hy|done].
  - destruct IH as [H|(l1 & x & l2 & -> & H1 & H2)].
    + left. intros x [->|Hx]%elem_of_cons; auto.
    + right. exists (a :: l1), x, l2. split; [done|]. split; [|done]. intros y [->|Hy]%elem_of_cons; auto.
Qed.

(** First fit from [freep] on: either a block is found, with the node before
    it, or the loop comes round to [freep]. *)
Lemma malloc_search h B nunits k :
  heap_ok h B -> 1 <= nunits ->
  (exists B1 a n B2 k', B = B1 ++ (a, n) :: B2 /\ nunits <= n
     /\ malloc_loop (S (length B) + k) h nunits (h_freep h) (h_ptr h (h_freep h))
        = malloc_loop (S k') h nunits (last_of base B1.*1) a)
  \/ ((forall a n, (a, n) ∈ B -> n < nunits)
      /\ exists prevp, malloc_loop (S (length B) + k) h nunits (h_freep h) (h_ptr h (h_freep h))
        = malloc_loop (S k) h nunits prevp (h_freep h)).
Proof.
  intros Hok Hnu. pose proof (ok_base _ _ Hok) as [Hb0 Hbs].
  destruct (ring_rotate _ _ _ _ (ok_linked _ _ Hok) (ok_freep _ _ Hok)) as (l & Hc & Hp).
  pose proof (nodes_NoDup h B Hok) as Hnd. unfold nodes in Hnd.
  assert (Hnd' : NoDup (l ++ [h_freep h])).
  { rewrite <- Hp in Hnd. rewrite (Permutation_app_comm l). done. }
  assert (Hfl : h_freep h ∉ l).
  { apply NoDup_app in Hnd' as (_ & Hd & _). intros Hin. apply (Hd _ Hin). set_solver. }
  assert (Hlen : length l = length B).
  { apply Permutation_length in Hp. simpl in Hp. rewrite length_fmap in Hp. lia. }
  assert (Hblk : forall x, x ∈ h_freep h :: l -> nunits <= h_size h x -> exists n, (x, n) ∈ B /\ h_size h x = n).
  { intros x Hx Hfit. rewrite Hp in Hx. apply elem_of_cons in Hx as [->|Hx]; [lia|].
    apply list_elem_of_fmap in Hx as ([x' n] & -> & Hin). exists n. split; [done|].
    by destruct (ok_block _ _ Hok _ _ Hin) as (_ & _ & _ & ?). }
  (* the predecessor of a block, seen from either end *)
  assert (Hpred : forall x n q, (x, n) ∈ B -> q ∈ h_freep h :: l -> h_ptr h q = x ->
    exists B1 B2, B = B1 ++ (x, n) :: B2 /\ q = last_of base B1.*1).
  { intros x n q Hin Hq Eq. apply list_elem_of_split in Hin as (B1 & B2 & E). exists B1, B2. split; [done|].
    eapply (chain_inj _ _ _ _ q (last_of base B1.*1) Hc Hnd'); [done| |].
    - rewrite Hp, E, fmap_app. pose proof (last_of_in base B1.*1). set_solver.
    - rewrite Eq. pose proof (ok_linked _ _ Hok) as Hl. rewrite E, fmap_app, fmap_cons in Hl.
      apply chain_app in Hl as [Hl _]. by rewrite (chain_last _ _ _ _ Hl). }
  replace (S (length B) + k)%nat with (length l + S k)%nat by lia.
  destruct (first_fit (fun x => nunits <=? h_size h x) l) as [Hno|(l1 & x & l2 & El & Hno & Hyes)].
  - rewrite (scan_chain h nunits _ l (h_freep h)); [|done|].
    2:{ intros x Hx. specialize (Hno _ Hx). apply Z.leb_gt in Hno. split; [done|]. by intros ->. }
    destruct (Z_le_gt_dec nunits (h_size h (h_freep h))) as [Hfit|Hnofit].
    + left. destruct (Hblk (h_freep h) ltac:(set_solver) Hfit) as (n & Hin & Hn).
      destruct (Hpred _ _ (last_of (h_freep h) l) Hin (last_of_in _ _) (chain_last _ _ _ _ Hc)) as (B1 & B2 & E & Eq).
      exists B1, (h_freep h), n, B2, k. split; [done|]. split; [lia|]. by rewrite Eq.
    + right. split; [|by eexists].
      intros a n Hin. destruct (ok_block _ _ Hok _ _ Hin) as (_ & _ & _ & <-).
      assert (Ha : a ∈ h_freep h :: l) by (rewrite Hp; apply elem_of_cons; right; by apply (list_elem_of_fmap_2 fst) in Hin).
      apply elem_of_cons in Ha as [->|Ha]; [lia|]. specialize (Hno _ Ha). by apply Z.leb_gt in Hno.
  - left. apply Z.leb_le in Hyes. rewrite El in Hc. apply chain_app in Hc as Hc'. destruct Hc' as [Hc1 Hc2].
    destruct (Hblk x ltac:(set_solver) Hyes) as (n & Hin & Hn).
    assert (Hq : last_of (h_freep h) l1 ∈ h_freep h :: l).
    { rewrite El. pose proof (last_of_in (h_freep h) l1). set_solver. }
    destruct (Hpred _ _ _ Hin Hq) as (B1 & B2 & E & Eq).
    { by apply (chain_last _ _ _ _ Hc1). }
    exists B1, x, n, B2, (length l2 + S k)%nat. split; [done|]. split; [lia|].
    rewrite El, length_app. simpl. replace (length l1 + S (length l2) + S k)%nat with (length l1 + S (length l2 + S k))%nat by lia.
    rewrite (scan_chain h nunits _ l1 x); [by rewrite Eq|done|].
    intros y Hy. specialize (Hno _ Hy). apply Z.leb_gt in Hno. split; [done|]. intros ->. apply Hfl. rewrite El. set_solver.
Qed.

(** ** More memory *)

(** What the kernel's [sbrk] promises: the process stays below 2^31. *)
Hypothesis granted_bound : forall b n, granted b n = true -> b + n <= 2 ^ 31.

Definition units (nunits : Z) : Z := if nunits <? 4096 then 4096 else nunits.

Lemma grow_ok h B nu :
  heap_ok h B -> 0 < nu -> h_brk h + 8 * nu <= 2 ^ 31 ->
  heap_ok (set_size (h <| h_brk := h_brk h + 8 * nu |>) (h_brk h) nu) B.
Proof.
  intros Hok Hnu Hlim. pose proof (ok_base _ _ Hok) as [Hb0 Hbs].
  split; simpl; try apply Hok; try lia.
  - intros a n Hin. destruct (ok_block _ _ Hok _ _ Hin) as (? & ? & ? & ?).
    rewrite upd_ne by lia. repeat split; lia || done.
  - rewrite upd_ne by lia. split; [lia|done].
Qed.

Lemma morecore_ok h B nunits fuel :
  heap_ok h B -> 1 <= nunits -> 8 * units nunits < 2 ^ 31 -> (length B < fuel)%nat ->
  (granted (h_brk h) (8 * units nunits) = false /\ morecore fuel h nunits = Some (0, h)) \/
  exists h' B', granted (h_brk h) (8 * units nunits) = true /\ morecore fuel h nunits = Some (h_freep h', h')
    /\ heap_ok h' B' /\ h_brk h' = h_brk h + 8 * units nunits
    /\ (forall x, covered B' x <-> covered B x \/ h_brk h <= x < h_brk h')
    /\ (exists a m, (a, m) ∈ B' /\ nunits <= m)
    /\ (forall x, ~ covered B x -> x < h_brk h -> h_size h' x = h_size h x)
    /\ (length B' <= S (length B))%nat.
Proof.
  intros Hok Hnu Hlim Hf. pose proof (ok_base _ _ Hok) as [Hb0 Hbs]. pose proof (ok_brk _ _ Hok) as Hbrk.
  assert (Hu : nunits <= units nunits /\ 4096 <= units nunits).
  { unfold units. destruct (Z.ltb_spec nunits 4096); lia. }
  unfold morecore. fold (units nunits). set (nu := units nunits) in *. unfold sbrk.
  assert (Hs32 : s32 (u32 (nu * 8)) = 8 * nu).
  { rewrite u32_small by lia. unfold s32. rewrite signed_small by lia. lia. }
  rewrite Hs32. destruct (granted (h_brk h) (8 * nu)) eqn:Hg; [right|left; split; [done|]].
  2:{ rewrite Z.eqb_refl. done. }
  apply granted_bound in Hg as Hgb. rewrite (u32_small (h_brk h + 8 * nu)) by lia.
  replace (h_brk h =? u32 (-1)) with false.
  2:{ symmetry. apply Z.eqb_neq. change (u32 (-1)) with (2 ^ 32 - 1). lia. }
  replace (hplus (h_brk h) 1) with (h_brk h + 8) by (unfold hplus; rewrite u32_small; lia).
  pose proof (grow_ok h B nu Hok ltac:(lia) Hgb) as Hok1.
  set (h1 := set_size _ _ _) in *.
  destruct (free_spec h1 B (h_brk h) nu fuel Hok1) as (h' & B' & -> & Hok' & Hbrk' & Hcov & (a & m & Hin & Ha & Hm) & Hsz & Hlen); try lia.
  { unfold h1. simpl. by rewrite upd_eq, u32_small by lia. }
  { unfold h1. simpl. lia. }
  { intros x Hx (b & k & Hb & Hbx). destruct (ok_block _ _ Hok _ _ Hb) as (_ & _ & ? & _). lia. }
  simpl in Hbrk'. exists h', B'. split; [done|]. split; [done|]. split; [done|]. split; [done|].
  split; [intros x; rewrite Hcov; simpl in Hbrk'; rewrite Hbrk'; done|].
  split; [exists a, m; split; [done|lia]|]. split; [|done].
  intros x Hx Hxb. rewrite Hsz; [unfold h1; simpl; rewrite upd_ne by lia; done|].
  rewrite Hcov. intros [?|?]; [done|lia].
Qed.

Lemma freep_pos h B : heap_ok h B -> 0 < h_freep h.
Proof.
  intros Hok. pose proof (ok_base _ _ Hok) as [? _].
  destruct (proj1 (elem_of_cons _ _ _) (ok_freep _ _ Hok)) as [->|Hin]; [lia|].
  apply list_elem_of_fmap in Hin as ([a n] & -> & Hin).
  destruct (ok_block _ _ Hok _ _ Hin) as (? & _). simpl. lia.
Qed.

(** ** The result of [malloc] *)

(** [p] is 0 and nothing has changed, when no block is large enough and the
    kernel refuses more memory; or the block before [p] is taken out of the
    free bytes, to which the memory up to the new break has been added. *)
Definition allocated (h : heap) (B : list (Z * Z)) (nunits p : Z) (h' : heap) : Prop :=
  (p = 0 /\ h' = h /\ (forall a n, (a, n) ∈ B -> n < nunits)
     /\ granted (h_brk h) (8 * units nunits) = false) \/
  exists r B', p = r + 8 /\ heap_ok h' B' /\ h_brk h <= h_brk h'
    /\ base < r /\ r + 8 * nunits <= h_brk h' /\ h_size h' r = nunits
    /\ (forall x, covered B' x <-> (covered B x \/ h_brk h <= x < h_brk h') /\ ~ (r <= x < r + 8 * nunits))
    /\ (forall x, r <= x < r + 8 * nunits -> covered B x \/ h_brk h <= x < h_brk h')
    /\ (forall x, ~ covered B x -> x < h_brk h -> h_size h' x = h_size h x)
    /\ (length B' <= S (length B))%nat /\ ((8 | h_brk h) -> starts_aligned B -> (8 | r) /\ (8 | h_brk h')).

Lemma malloc_loop_ok h B nunits fuel :
  heap_ok h B -> 1 <= nunits -> 8 * units nunits < 2 ^ 31 -> (2 * length B + 6 <= fuel)%nat ->
  exists p h', malloc_loop fuel h nunits (h_freep h) (h_ptr h (h_freep h)) = Some (p, h')
    /\ allocated h B nunits p h'.
Proof.
  intros Hok Hnu Hlim Hf.
  replace fuel with (S (length B) + (fuel - S (length B)))%nat by lia.
  set (k := (fuel - S (length B))%nat). assert (Hk : (length B + 5 <= k)%nat) by lia. clearbody k.
  destruct (malloc_search h B nunits k Hok Hnu) as [(B1 & a & n & B2 & k' & E & Hfit & ->)|[Hnone [prevp ->]]].
  - destruct (malloc_hit h B B1 a n B2 nunits k' Hok E ltac:(lia))
      as (r & h' & B' & -> & Hok' & Hbrk & Hr & Hend & Hsz & Hoth & Hcov & Hin & Hlen & Hal).
    exists (r + 8), h'. split; [done|]. right. exists r, B'. rewrite Hbrk.
    split; [done|]. split; [done|]. split; [lia|]. split; [done|]. split; [done|]. split; [done|].
    split; [intros x; rewrite Hcov; split; [tauto|]; intros [[?|?] ?]; [done|lia]|].
    split; [intros x Hx; left; by apply Hin|]. split; [intros x Hx _; by apply Hoth|]. split; [lia|].
    intros Hb8 Hst. split; [|done]. replace r with (r - a + a) by lia. apply Z.divide_add_r; [done|]. apply (Hst a n). rewrite E. set_solver.
  - cbn [malloc_loop].
    assert (Hfs : h_size h (h_freep h) < nunits).
    { destruct (proj1 (elem_of_cons _ _ _) (ok_freep _ _ Hok)) as [E|Hin].
      - rewrite E. destruct (ok_base _ _ Hok) as [_ ->]. lia.
      - apply list_elem_of_fmap in Hin as ([a n] & E & Hin). rewrite E. simpl.
        destruct (ok_block _ _ Hok _ _ Hin) as (_ & _ & _ & ->). by eapply Hnone. }
    rewrite (proj2 (Z.leb_gt _ _)), Z.eqb_refl by done.
    destruct (morecore_ok h B nunits k Hok Hnu Hlim ltac:(lia))
      as [[Hg ->]|(h1 & B1 & Hg & -> & Hok1 & Hbrk1 & Hcov1 & (a1 & m1 & Hin1 & Hm1) & Hsz1 & Hlen1)].
    + exists 0, h. split; [done|]. by left.
    + cbn [mbind option_bind].
      pose proof (freep_pos _ _ Hok1) as Hne.
      rewrite (proj2 (Z.eqb_neq _ _)) by lia.
      replace k with (S (length B1) + (k - S (length B1)))%nat by lia.
      destruct (malloc_search h1 B1 nunits (k - S (length B1)) Hok1 Hnu)
        as [(B2 & a & n & B3 & k' & E & Hfit & ->)|[Hnone1 _]]; [|specialize (Hnone1 _ _ Hin1); lia].
      destruct (malloc_hit h1 B1 B2 a n B3 nunits k' Hok1 E ltac:(lia))
        as (r & h' & B' & -> & Hok' & Hbrk & Hr & Hend & Hsz & Hoth & Hcov & Hin & Hlen & Hal).
      assert (0 < units nunits) by (unfold units; destruct (Z.ltb_spec nunits 4096); lia).
      exists (r + 8), h'. split; [done|]. right. exists r, B'. rewrite Hbrk.
      split; [done|]. split; [done|]. split; [lia|]. split; [done|]. split; [lia|]. split; [done|].
      split; [intros x; rewrite Hcov, Hcov1; done|].
      split; [intros x Hx; apply Hcov1; by apply Hin|]. split; [|split; [lia|]].
      2:{ intros Hb8 Hst. split; [|rewrite Hbrk1; apply Z.divide_add_r; [done|apply Z.divide_factor_l]]. replace r with (r - a + a) by lia. apply Z.divide_add_r; [done|].
          eapply (starts_aligned_add h1 B B1 _ _ Hok1 Hst Hb8 Hcov1 a n). rewrite E. set_solver. }
      intros x Hx Hxb. rewrite Hoth, Hsz1; [done|done|done|]. rewrite Hcov1. intros [?|?]; [done|lia].
Qed.

(** ** More fuel changes nothing *)

Lemma find_prev_mono k k' h bp p r : find_prev k h bp p = Some r -> (k <= k')%nat -> find_prev k' h bp p = Some r.
Proof.
  revert k' p. induction k as [|k IH]; intros [|k'] p; simpl; try done; [lia|].
  intros H Hk. destruct (_ && _); [done|]. destruct (_ && _); [done|]. apply IH; [done|lia].
Qed.

Lemma free_mono k k' h ap h' : free k h ap = Some h' -> (k <= k')%nat -> free k' h ap = Some h'.
Proof.
  unfold free. intros H Hk. destruct (find_prev k h _ _) as [p|] eqn:E; [|done].
  by rewrite (find_prev_mono _ k' _ _ _ _ E Hk).
Qed.

Lemma morecore_mono k k' h nu r : morecore k h nu = Some r -> (k <= k')%nat -> morecore k' h nu = Some r.
Proof.
  unfold morecore. intros H Hk. destruct (sbrk h _) as [p h1]. destruct (p =? u32 (-1)); [done|].
  destruct (free k _ _) as [h2|] eqn:E; [|done]. by rewrite (free_mono _ k' _ _ _ E Hk).
Qed.

Lemma malloc_loop_mono k k' h nu prevp p r :
  malloc_loop k h nu prevp p = Some r -> (k <= k')%nat -> malloc_loop k' h nu prevp p = Some r.
Proof.
  revert k' h prevp p. induction k as [|k IH]; intros [|k'] h prevp p; simpl; try done; [lia|].
  intros H Hk. destruct (_ <=? _); [done|]. destruct (_ =? _); [|apply IH; [done|lia]].
  destruct (morecore k h nu) as [[q h1]|] eqn:E; [|done].
  rewrite (morecore_mono _ k' _ _ _ E) by lia. simpl in *. destruct (q =? 0); [done|]. apply IH; [done|lia].
Qed.

(** ** A program that allocates and frees *)

Definition mallocs (h : heap) (nbytes p : Z) (h' : heap) : Prop := exists fuel, malloc fuel h nbytes = Some (p, h').
Definition frees (h : heap) (p : Z) (h' : heap) : Prop := exists fuel, free fuel h p = Some h'.

(** The heap and the live pointers with the sizes they were asked for. *)
Inductive ustep : heap * list (Z * Z) -> heap * list (Z * Z) -> Prop :=
| us_malloc h A nb p h' : 0 <= nb < 2 ^ 30 -> mallocs h nb p h' -> p <> 0 -> ustep (h, A) (h', (p, nb) :: A)
| us_fail h A nb h' : 0 <= nb < 2 ^ 30 -> mallocs h nb 0 h' -> ustep (h, A) (h', A)
| us_free h A1 p nb A2 h' : frees h p h' -> ustep (h, A1 ++ (p, nb) :: A2) (h', A1 ++ A2).

(** Before the first call, and after it. *)
Definition heap_inv (h : heap) (B : list (Z * Z)) : Prop :=
  heap_ok h B \/ (h_freep h = 0 /\ B = [] /\ 0 < base < h_brk h /\ h_brk h <= 2 ^ 31).

(** A live pointer owns the block before it, which is large enough, inside
    the process and free of the allocator. *)
Definition live (h : heap) (B : list (Z * Z)) (x : Z * Z) : Prop :=
  let r := fst x - 8 in let n := h_size h r in
  base < r /\ snd x <= 8 * n - 8 /\ 0 < n /\ r + 8 * n <= h_brk h
  /\ forall y, r <= y < r + 8 * n -> ~ covered B y.

Definition disjoint_blocks (h : heap) (x y : Z * Z) : Prop :=
  let r := fst x - 8 in let q := fst y - 8 in
  r + 8 * h_size h r <= q \/ q + 8 * h_size h q <= r.

(** The break, the free blocks and the pointers handed out are multiples of
    the size of a [Header]. *)
Record aligned (h : heap) (B A : list (Z * Z)) : Prop := {
  al_brk : (8 | h_brk h);
  al_free : starts_aligned B;
  al_live : Forall (fun x => (8 | fst x)) A
}.

Definition program_inv (h : heap) (A : list (Z * Z)) : Prop :=
  exists B, heap_inv h B /\ (h_freep h = 0 -> A = []) /\ Forall (live h B) A /\ ForallOrdPairs (disjoint_blocks h) A
    /\ aligned h B A.

Definition init_heap (h : heap) : heap :=
  if h_freep h =? 0 then set_size ((set_ptr h base base) <| h_freep := base |>) base 0 else h.

Lemma init_heap_ok h B : heap_inv h B ->
  heap_ok (init_heap h) B /\ h_brk (init_heap h) = h_brk h /\ (forall x, base < x -> h_size (init_heap h) x = h_size h x).
Proof.
  intros [Hok|(Hf & -> & Hb & Hl)]; unfold init_heap.
  - rewrite (proj2 (Z.eqb_neq _ _)); [done|]. pose proof (freep_pos _ _ Hok). lia.
  - rewrite Hf. simpl. split; [|split; [done|intros x Hx; by rewrite upd_ne by lia]].
    split; simpl; try done.
    + constructor.
    + intros a n H. by apply not_elem_of_nil in H.
    + by rewrite upd_eq.
    + rewrite upd_eq. by rewrite u32_small by lia.
    + set_solver.
Qed.

Lemma nunits_ok nb : 0 <= nb < 2 ^ 30 ->
  nb <= 8 * nunits_of nb - 8 /\ 1 <= nunits_of nb /\ 8 * units (nunits_of nb) < 2 ^ 31.
Proof.
  intros H. unfold nunits_of. rewrite (u32_small (nb + 8 - 1)) by lia.
  pose proof (Z.div_mod (nb + 8 - 1) 8 ltac:(lia)). pose proof (Z.mod_pos_bound (nb + 8 - 1) 8 ltac:(lia)).
  rewrite u32_small by lia. unfold units. destruct (Z.ltb_spec ((nb + 8 - 1) / 8 + 1) 4096); lia.
Qed.

Lemma malloc_ok h B nb : heap_inv h B -> 0 <= nb < 2 ^ 30 ->
  exists N p h', (forall fuel, (N <= fuel)%nat -> malloc fuel h nb = Some (p, h'))
    /\ allocated (init_heap h) B (nunits_of nb) p h'.
Proof.
  intros Hinv Hnb. destruct (init_heap_ok h B Hinv) as (Hok & _ & _). destruct (nunits_ok nb Hnb) as (_ & H1 & H2).
  destruct (malloc_loop_ok (init_heap h) B (nunits_of nb) (2 * length B + 6) Hok H1 H2 ltac:(lia)) as (p & h' & E & Ha).
  exists (2 * length B + 6)%nat, p, h'. split; [|done]. intros fuel Hf.
  unfold malloc. fold (init_heap h). by apply (malloc_loop_mono _ fuel _ _ _ _ _ E).
Qed.

Lemma pairs_remove (R : Z * Z -> Z * Z -> Prop) A1 x A2 : ForallOrdPairs R (A1 ++ x :: A2) -> ForallOrdPairs R (A1 ++ A2)
  /\ (forall y, y ∈ A1 ++ A2 -> R x y \/ R y x).
Proof.
  induction A1 as [|a A1 IH]; simpl; intros H; inversion_clear H as [|? ? Hall H'].
  - split; [done|]. intros y Hy. left. by apply (proj1 (Forall_forall _ _) Hall).
  - destruct (IH H') as [H1 H2]. apply Forall_app in Hall as [Ha1 Ha2]. inversion_clear Ha2 as [|? ? Hax Ha2'].
    split; [constructor; [by apply Forall_app|done]|].
    intros y [->|Hy]%elem_of_cons; [by right|by apply H2].
Qed.

Lemma pairs_impl (R R' : Z * Z -> Z * Z -> Prop) A :
  ForallOrdPairs R A -> (forall x y, x ∈ A -> y ∈ A -> R x y -> R' x y) -> ForallOrdPairs R' A.
Proof.
  induction 1 as [|x A Hall H IH]; intros HR; constructor.
  - apply Forall_forall. intros y Hy. apply HR; [set_solver|set_solver|]. by apply (proj1 (Forall_forall _ _) Hall).
  - apply IH. intros. apply HR; set_solver.
Qed.

(** Blocks that the operation does not touch stay live and apart. *)
Lemma untouched h h' B B' A :
  Forall (live h B) A -> ForallOrdPairs (disjoint_blocks h) A -> h_brk h <= h_brk h' ->
  (forall x, x ∈ A -> h_size h' (fst x - 8) = h_size h (fst x - 8)) ->
  (forall x y, x ∈ A -> fst x - 8 <= y < fst x - 8 + 8 * h_size h (fst x - 8) -> ~ covered B' y) ->
  Forall (live h' B') A /\ ForallOrdPairs (disjoint_blocks h') A.
Proof.
  intros HA HP Hbrk Hsz Hcov. split.
  - apply Forall_forall. intros x Hx. pose proof (proj1 (Forall_forall _ _) HA _ Hx) as (? & ? & ? & ? & ?).
    unfold live. rewrite Hsz by done. repeat split; try done; try lia. intros y Hy. by apply (Hcov x y Hx).
  - eapply pairs_impl; [exact HP|]. intros x y Hx Hy. unfold disjoint_blocks. by rewrite !Hsz.
Qed.

Lemma aligned_malloc h h' B B' A r nu nb :
  aligned h B A -> heap_ok h' B' ->
  (forall x, covered B' x <-> (covered B x \/ h_brk h <= x < h_brk h') /\ ~ (r <= x < r + 8 * nu)) ->
  ((8 | h_brk h) -> starts_aligned B -> (8 | r) /\ (8 | h_brk h')) ->
  aligned h' B' ((r + 8, nb) :: A).
Proof.
  intros [Hb HB HA] Hok Hcov Hr. destruct (Hr Hb HB) as [Hr8 Hb']. split; [done| |].
  - apply (starts_aligned_from h' B B' (h_brk h) (h_brk h') r (r + 8 * nu)); try done.
    apply Z.divide_add_r; [done|apply Z.divide_factor_l].
  - constructor; [|done]. apply Z.divide_add_r; [done|apply Z.divide_refl].
Qed.

Lemma malloc_step h A B nb p h' :
  heap_inv h B -> Forall (live h B) A -> ForallOrdPairs (disjoint_blocks h) A -> aligned h B A ->
  0 <= nb < 2 ^ 30 -> mallocs h nb p h' ->
  program_inv h' (if p =? 0 then A else (p, nb) :: A).
Proof.
  intros Hinv HA HP Hali Hnb [fuel Hm]. destruct (malloc_ok h B nb Hinv Hnb) as (N & p' & h1 & Hall & Hal).
  assert (E : (p', h1) = (p, h')).
  { specialize (Hall (max N fuel) ltac:(lia)). unfold malloc in Hm, Hall. fold (init_heap h) in Hm, Hall.
    apply (malloc_loop_mono _ (max N fuel)) in Hm; [|lia]. congruence. }
  injection E as -> ->. clear Hall Hm. destruct (init_heap_ok h B Hinv) as (Hok & Hbrk0 & Hsz0).
  destruct (nunits_ok nb Hnb) as (Hnu & Hnu1 & _).
  assert (Hbase : forall x, x ∈ A -> base < fst x - 8).
  { intros x Hx. pose proof (proj1 (Forall_forall _ _) HA _ Hx) as (? & _). done. }
  assert (Hown : forall x y, x ∈ A -> fst x - 8 <= y < fst x - 8 + 8 * h_size h (fst x - 8) -> ~ covered B y /\ y < h_brk h).
  { intros x y Hx Hy. pose proof (proj1 (Forall_forall _ _) HA _ Hx) as (_ & _ & _ & ? & Hc). split; [by apply Hc|lia]. }
  destruct Hal as [(-> & -> & _ & _)|(r & B' & -> & Hok' & Hbrk & Hr & Hend & Hsz & Hcov & Hin & Hoth & _ & Hal8)].
  - simpl. exists B. split; [by left|]. pose proof (freep_pos _ _ Hok). split; [lia|]. apply and_assoc. split; [|by destruct Hali; split; rewrite ?Hbrk0].
    apply (untouched h _ B); try done; [by rewrite Hbrk0|intros x Hx; by apply Hsz0, Hbase|].
    intros x y Hx Hy. by apply (Hown x y).
  - pose proof (ok_base _ _ Hok') as [Hb0 _]. rewrite (proj2 (Z.eqb_neq _ _)) by lia.
    rewrite Hbrk0 in *. exists B'. split; [by left|]. pose proof (freep_pos _ _ Hok'). split; [lia|].
    assert (Hszs : forall x, x ∈ A -> h_size h' (fst x - 8) = h_size h (fst x - 8)).
    { intros x Hx. pose proof (proj1 (Forall_forall _ _) HA _ Hx) as (_ & _ & Hpos & _).
      destruct (Hown x (fst x - 8) Hx ltac:(lia)) as [Hc Hb]. rewrite Hoth by done. by apply Hsz0, Hbase. }
    destruct (untouched h h' B B' A HA HP Hbrk Hszs) as [HA' HP'].
    { intros x y Hx Hy. destruct (Hown x y Hx Hy) as [Hc Hb]. rewrite Hcov. intros [[?|?] _]; [done|lia]. }
    split; [|split]; [constructor; [|done]|constructor; [|done]|].
    + unfold live. simpl. replace (r + 8 - 8) with r by lia. rewrite Hsz. repeat split; try lia.
      intros y Hy. rewrite Hcov. tauto.
    + apply Forall_forall. intros x Hx. unfold disjoint_blocks. simpl. replace (r + 8 - 8) with r by lia.
      rewrite Hsz, (Hszs x Hx). pose proof (proj1 (Forall_forall _ _) HA _ Hx) as (_ & _ & Hpos & _).
      set (q := fst x - 8) in *. set (m := h_size h q) in *.
      destruct (Z_le_gt_dec (r + 8 * nunits_of nb) q); [by left|]. destruct (Z_le_gt_dec (q + 8 * m) r); [by right|].
      exfalso. assert (Hq : q <= Z.max q r < q + 8 * m) by lia. destruct (Hown x _ Hx Hq) as [Hc Hb].
      destruct (Hin (Z.max q r) ltac:(lia)); [done|lia].
    + by apply (aligned_malloc h h' B B' A r (nunits_of nb) nb).
Qed.

Lemma free_live h A1 p nb A2 B :
  heap_ok h B -> Forall (live h B) (A1 ++ (p, nb) :: A2) -> ForallOrdPairs (disjoint_blocks h) (A1 ++ (p, nb) :: A2) ->
  aligned h B (A1 ++ (p, nb) :: A2) ->
  exists h', (forall fuel, (S (length B) <= fuel)%nat -> free fuel h p = Some h') /\ program_inv h' (A1 ++ A2).
Proof.
  intros Hok HA HP [Hb8 HB8 HA8]. destruct (pairs_remove _ _ _ _ HP) as [HP' Hap].
  apply Forall_app in HA as [HA1 HA2]. inversion_clear HA2 as [|? ? Hp HA2'].
  assert (HA' : Forall (live h B) (A1 ++ A2)) by (by apply Forall_app).
  destruct Hp as (Hr & _ & Hn & Hend & Hc). simpl in *. set (r := p - 8) in *. set (n := h_size h r) in *.
  destruct (free_spec h B r n (S (length B)) Hok Hr Hn eq_refl Hend Hc ltac:(lia))
    as (h' & B' & E & Hok' & Hbrk & Hcov & _ & Hsz & _).
  replace (r + 8) with p in E by (unfold r; lia).
  exists h'. split; [intros fuel Hf; by apply (free_mono _ fuel _ _ _ E)|].
  pose proof (freep_pos _ _ Hok'). exists B'. split; [by left|]. split; [lia|].
  assert (Hkeep : forall x y, x ∈ A1 ++ A2 -> fst x - 8 <= y < fst x - 8 + 8 * h_size h (fst x - 8) -> ~ covered B' y).
  { intros x y Hx Hy. pose proof (proj1 (Forall_forall _ _) HA' _ Hx) as (_ & _ & _ & _ & Hcx).
    rewrite Hcov. intros [Hcy|Hcy]; [by apply (Hcx y Hy)|].
    specialize (Hap x Hx). unfold disjoint_blocks in Hap. simpl in Hap. fold r n in Hap. lia. }
  apply and_assoc. split.
  2:{ apply Forall_app in HA8 as [H1 [Hp8 H2]%Forall_cons_1]. split; [by rewrite Hbrk| |by apply Forall_app].
      apply (starts_aligned_add h' B B' r (r + 8 * n)); try done. unfold r. apply Z.divide_sub_r; [done|apply Z.divide_refl]. }
  apply (untouched h h' B B'); try done; [lia|].
  intros x Hx. apply Hsz. pose proof (proj1 (Forall_forall _ _) HA' _ Hx) as (_ & _ & ? & _).
  apply (Hkeep x); [done|lia].
Qed.

Lemma ustep_inv h A h' A' : program_inv h A -> ustep (h, A) (h', A') -> program_inv h' A'.
Proof.
  intros (B & Hinv & H0 & HA & HP & Hal) Hs. inversion Hs as [? ? nb p ? Hnb Hm Hp|? ? nb ? Hnb Hm|? A1 p nb A2 ? Hfr]; subst.
  - pose proof (malloc_step h A B nb p h' Hinv HA HP Hal Hnb Hm) as Hi. by rewrite (proj2 (Z.eqb_neq _ _)) in Hi by done.
  - apply (malloc_step h A' B nb 0 h' Hinv HA HP Hal Hnb Hm).
  - destruct Hinv as [Hok|(Hf & _)]; [|by specialize (H0 Hf); destruct A1].
    destruct (free_live h A1 p nb A2 B Hok HA HP Hal) as (h1 & Hall & Hi).
    destruct Hfr as [fuel Hfree]. apply (free_mono _ (max fuel (S (length B)))) in Hfree; [|lia].
    rewrite Hall in Hfree by lia. by simplify_eq.
Qed.

(** C19: A program that mixes [malloc] (of less than 2^30 bytes) and [free]
    in any order, where the kernel's [sbrk] keeps the process below 2^31 and
    the break starts at a multiple of 8 (exec leaves it at a page boundary).
    In every state it can reach: the live blocks lie inside the process, are
    at least as large as was asked, start at a multiple of 8, do not overlap
    one another, nor the free list, and their headers are intact; and the next
    [malloc] (of less than 2^30 bytes) and the next [free] of a live pointer
    return. *)
Theorem malloc_free_invariant h0 h A :
  h_freep h0 = 0 -> 0 < base < h_brk h0 -> h_brk h0 <= 2 ^ 31 -> (8 | h_brk h0) ->
  rtc ustep (h0, []) (h, A) ->
  (exists B, heap_inv h B /\ Forall (live h B) A) /\ ForallOrdPairs (disjoint_blocks h) A
  /\ Forall (fun x => (8 | fst x)) A
  /\ (forall nb, 0 <= nb < 2 ^ 30 -> exists p h', mallocs h nb p h')
  /\ (forall p nb, (p, nb) ∈ A -> exists h', frees h p h').
Proof.
  intros Hf Hb Hl H8 Hr.
  assert (Hi : program_inv h A).
  { apply (rtc_invariant ustep (fun s => program_inv (fst s) (snd s)) (h0, []) (h, A)); [| |done].
    - exists []. split; [by right|]. split; [done|]. split; [constructor|]. split; [constructor|].
      split; [done| |constructor]. intros a n Hin. by apply not_elem_of_nil in Hin.
    - intros [h1 A1] [h2 A2] H1 H2. by eapply ustep_inv. }
  destruct Hi as (B & Hinv & H0 & HA & HP & Hal). split; [by exists B|]. split; [done|]. split; [apply Hal|]. split.
  - intros nb Hnb. destruct (malloc_ok h B nb Hinv Hnb) as (N & p & h' & Hall & _).
    exists p, h', N. by apply Hall.
  - intros p nb (A1 & A2 & ->)%list_elem_of_split.
    destruct Hinv as [Hok|(Hf' & _)]; [|by specialize (H0 Hf'); destruct A1].
    destruct (free_live h A1 p nb A2 B Hok HA HP Hal) as (h' & Hall & _). exists h', (S (length B)). by apply Hall.
Qed.
End umalloc.

(** The addition that rounds a request up to units wraps: a request of the
    last seven sizes gets a single unit, which holds no bytes at all. *)
Lemma nunits_wraps nb : 2 ^ 32 - 7 <= nb < 2 ^ 32 -> nunits_of nb = 1.
Proof.
  intros H. unfold nunits_of.
  replace (u32 (nb + 8 - 1)) with (nb + 7 - 2 ^ 32) by (unfold u32; apply (Z.mod_unique_pos _ _ 1); lia).
  rewrite Z.div_small by lia. done.
Qed.

Lemma malloc_free_invariant_witness :
  let h0 := Heap (fun _ => 0) (fun _ => 0) 0 16384 in
  let granted := fun b n => b + n <=? 2 ^ 31 in
  exists h A, rtc (ustep 4096 granted) (h0, []) (h, A) /\ length A = 1%nat
    /\ (exists B, heap_inv 4096 h B /\ Forall (live 4096 h B) A)
    /\ ForallOrdPairs (disjoint_blocks h) A /\ Forall (fun x => (8 | fst x)) A.
Proof.
  intros h0 granted.
  destruct (malloc 4096 granted 10 h0 100) as [[p h]|] eqn:E; [|vm_compute in E; discriminate].
  exists h, [(p, 100)].
  assert (Hr : rtc (ustep 4096 granted) (h0, []) (h, [(p, 100)])).
  { apply rtc_once. apply us_malloc; [lia|by exists 10%nat|]. vm_compute in E. injection E as <- _. discriminate. }
  split; [exact Hr|]. split; [reflexivity|].
  destruct (malloc_free_invariant 4096 granted) with (h0 := h0) (h := h) (A := [(p, 100)]) as (H1 & H2 & H3 & _);
    [| | | | |exact Hr|exact (conj H1 (conj H2 H3))].
  - unfold granted. intros b n H. by apply Z.leb_le.
  - reflexivity.
  - simpl. lia.
  - simpl. lia.
  - exists 2048. reflexivity.
Defined.
