(* ===== verification/Pipe.v ===== *)
(** Pipes ([pipe.c]): the ring buffer between its counters, and the protocol of
    readers and writers that sleep and wake each other.

    A run of a routine from the point where it has the lock to the point where
    it returns or goes to sleep is one function: it gives the pipe, the
    channels it wakes in order, and how the run ends.  The interleaving of any
    number of threads is a step relation on such runs.  The counters [nread]
    and [nwrite] are [uint]s that wrap; 512 divides 2^32. *)

From S2P Require Import Prelude.

Definition PIPESIZE : Z := 512.

Record pipe := mk_pipe {
  pi_data : list Z;
  pi_nread : Z;
  pi_nwrite : Z;
  pi_readopen : bool;
  pi_writeopen : bool
}.
#[export] Instance eta_pipe : Settable pipe := fun p =>
  mk_pipe (pi_data p) (pi_nread p) (pi_nwrite p) (pi_readopen p) (pi_writeopen p).

(** The channels: the addresses of the counters. *)
Inductive chan := NREAD | NWRITE.
#[export] Instance chan_eq_dec : EqDecision chan.
Proof. solve_decision. Defined.

(** The fields that [pipealloc] sets in the page it has allocated. *)
Definition pipeinit (junk : list Z) : pipe := mk_pipe junk 0 0 true true.

Definition pipeclose (p : pipe) (writable : bool) : pipe * list chan * bool :=
  let '(p, wakes) :=
    if writable then (p <| pi_writeopen := false |>, [NREAD])
    else (p <| pi_readopen := false |>, [NWRITE]) in
  (p, wakes, negb (pi_readopen p) && negb (pi_writeopen p)).

Definition full (p : pipe) : bool := pi_nwrite p =? u32 (pi_nread p + PIPESIZE).
Definition empty_ (p : pipe) : bool := pi_nread p =? pi_nwrite p.

(** [p->data[p->nwrite++ % PIPESIZE] = c] *)
Definition put (p : pipe) (c : Z) : pipe :=
  p <| pi_data := <[Z.to_nat (pi_nwrite p mod PIPESIZE) := c]> (pi_data p) |>
    <| pi_nwrite := u32 (pi_nwrite p + 1) |>.

Inductive wout := WRet (r : Z) | WSleep (rest : list Z).

(** [pipewrite] from its loop on: [src] is what is left of the [n] bytes. *)
Fixpoint pipewrite (p : pipe) (killed : bool) (n : Z) (src : list Z) : pipe * list chan * wout :=
  match src with
  | [] => (p, [NREAD], WRet n)
  | c :: rest =>
      if full p then
        if negb (pi_readopen p) || killed then (p, [], WRet (-1))
        else (p, [NREAD], WSleep src)
      else pipewrite (put p c) killed n rest
  end.

(** The copy loop of [piperead], at most [n] bytes. *)
Fixpoint read_loop (p : pipe) (n : nat) : pipe * list Z :=
  match n with
  | O => (p, [])
  | S k =>
      if empty_ p then (p, [])
      else
        let c := nth (Z.to_nat (pi_nread p mod PIPESIZE)) (pi_data p) 0 in
        let '(p', l) := read_loop (p <| pi_nread := u32 (pi_nread p + 1) |>) k in
        (p', c :: l)
  end.

Inductive rout := RRet (r : Z) (bytes : list Z) | RSleep.

Definition piperead (p : pipe) (killed : bool) (n : nat) : pipe * list chan * rout :=
  if empty_ p && pi_writeopen p then
    if killed then (p, [], RRet (-1) []) else (p, [], RSleep)
  else
    let '(p, l) := read_loop p n in
    (p, [NWRITE], RRet (Z.of_nat (length l)) l).

(** ** The queue a pipe represents *)

Record pipe_rep (p : pipe) (q : list Z) : Prop := {
  pr_len : length (pi_data p) = 512%nat;
  pr_size : (length q <= 512)%nat;
  pr_nread : 0 <= pi_nread p < 2 ^ 32;
  pr_nwrite : pi_nwrite p = u32 (pi_nread p + Z.of_nat (length q));
  pr_data : forall i c, q !! i = Some c ->
    pi_data p !! Z.to_nat (u32 (pi_nread p + Z.of_nat i) mod PIPESIZE) = Some c
}.

Lemma ring_index a : u32 a mod PIPESIZE = a mod PIPESIZE.
Proof.
  unfold u32, PIPESIZE. apply Z.mod_mod_divide. by exists (2 ^ 23).
Qed.

Lemma full_spec p q : pipe_rep p q -> full p = true <-> length q = 512%nat.
Proof.
  intros [_ Hs Hr Hw _]. unfold full, PIPESIZE. rewrite Hw, Z.eqb_eq. split; [|by intros ->].
  intros E. apply u32_inj_near in E; lia.
Qed.

Lemma empty_spec p q : pipe_rep p q -> empty_ p = true <-> q = [].
Proof.
  intros [_ Hs Hr Hw _]. unfold empty_. rewrite Hw, Z.eqb_eq. split.
  - intros E. apply nil_length_inv. rewrite <- (u32_small (pi_nread p)) in E at 1 by lia.
    rewrite <- (Z.add_0_r (pi_nread p)) in E at 1. apply u32_inj_near in E; lia.
  - intros ->. rewrite Z.add_0_r, u32_small; lia.
Qed.

Lemma put_rep p q c : pipe_rep p q -> full p = false -> pipe_rep (put p c) (q ++ [c]).
Proof.
  intros Hrep Hf. assert (Hlt : (length q < 512)%nat).
  { pose proof (full_spec p q Hrep) as Hfs. destruct Hrep as [_ Hs _ _ _].
    assert (length q <> 512)%nat; [|lia]. intros E. apply Hfs in E. congruence. }
  destruct Hrep as [Hlen Hs Hr Hw Hd]. split; simpl.
  - by rewrite length_insert.
  - rewrite length_app. simpl. lia.
  - done.
  - rewrite Hw, u32_add_l, length_app. simpl. f_equal. lia.
  - intros i x Hi. rewrite Hw, !ring_index. apply lookup_app_Some in Hi as [Hi|[Hge Hi]].
    + apply lookup_lt_Some in Hi as Hil. rewrite list_lookup_insert_ne.
      * rewrite <- ring_index. by apply Hd.
      * intros E. apply Z2Nat.inj in E; [|apply Z.mod_pos_bound; unfold PIPESIZE; lia..].
        unfold PIPESIZE in E.
        pose proof (Z.div_mod (pi_nread p + Z.of_nat (length q)) 512 ltac:(lia)).
        pose proof (Z.div_mod (pi_nread p + Z.of_nat i) 512 ltac:(lia)). lia.
    + destruct (i - length q)%nat as [|k] eqn:Ek; simpl in Hi; [|done]. simplify_eq.
      replace i with (length q) by lia. apply list_lookup_insert_eq. rewrite Hlen.
      pose proof (Z.mod_pos_bound (pi_nread p + Z.of_nat (length q)) PIPESIZE ltac:(done)) as Hm.
      unfold PIPESIZE in *. lia.
Qed.

Lemma get_rep p c q : pipe_rep p (c :: q) ->
  nth (Z.to_nat (pi_nread p mod PIPESIZE)) (pi_data p) 0 = c
  /\ pipe_rep (p <| pi_nread := u32 (pi_nread p + 1) |>) q.
Proof.
  intros [Hlen Hs Hr Hw Hd]. simpl in Hs. split.
  - apply nth_lookup_Some. rewrite <- (Hd 0%nat c eq_refl). do 2 f_equal.
    rewrite Z.add_0_r, ring_index. done.
  - split; simpl; [done|lia|apply u32_range| |].
    + rewrite Hw, u32_add_l. f_equal. simpl. lia.
    + intros i x Hi. rewrite u32_add_l, <- (Hd (S i) x Hi).
      by replace (pi_nread p + 1 + Z.of_nat i) with (pi_nread p + Z.of_nat (S i)) by lia.
Qed.

(** ** Runs against the queue *)

Lemma pipewrite_rep p q killed n src p' wakes out :
  pipe_rep p q -> pipewrite p killed n src = (p', wakes, out) ->
  exists acc rest, src = acc ++ rest /\ pipe_rep p' (q ++ acc)
    /\ pi_readopen p' = pi_readopen p /\ pi_writeopen p' = pi_writeopen p
    /\ ((rest = [] /\ out = WRet n /\ wakes = [NREAD])
        \/ (length (q ++ acc) = 512%nat /\ rest <> [] /\ pi_readopen p = true /\ killed = false
            /\ out = WSleep rest /\ wakes = [NREAD])
        \/ (length (q ++ acc) = 512%nat /\ rest <> [] /\ (pi_readopen p = false \/ killed = true)
            /\ out = WRet (-1) /\ wakes = [])).
Proof.
  revert p q. induction src as [|c src IH]; intros p q Hrep Hrun; simpl in Hrun.
  - injection Hrun as <- <- <-. exists [], []. rewrite (app_nil_r q). split; [done|]. split; [done|]. tauto.
  - destruct (full p) eqn:Hf.
    + apply (full_spec p q Hrep) in Hf as Hlen. exists [], (c :: src). rewrite (app_nil_r q).
      destruct (negb (pi_readopen p) || killed) eqn:Ek; injection Hrun as <- <- <-.
      * apply orb_true_iff in Ek. rewrite negb_true_iff in Ek. split; [done|]. split; [done|]. split; [done|].
        split; [done|]. right. right. done.
      * apply orb_false_iff in Ek as [Er ->]. apply negb_false_iff in Er.
        split; [done|]. split; [done|]. split; [done|]. split; [done|]. right. left. done.
    + destruct (IH _ _ (put_rep p q c Hrep Hf) Hrun) as (acc & rest & -> & Hrep' & Hro & Hwo & Hout).
      exists (c :: acc), rest. rewrite <- app_assoc in *. split; [done|]. split; [done|]. split; [done|]. split; [done|]. done.
Qed.

Lemma read_loop_rep p q n p' l :
  pipe_rep p q -> read_loop p n = (p', l) ->
  q = l ++ drop (length l) q /\ pipe_rep p' (drop (length l) q)
  /\ pi_readopen p' = pi_readopen p /\ pi_writeopen p' = pi_writeopen p
  /\ length l = Nat.min n (length q).
Proof.
  revert p q p' l. induction n as [|n IH]; intros p q p' l Hrep Hrun; simpl in Hrun.
  { injection Hrun as <- <-. by rewrite drop_0. }
  destruct (empty_ p) eqn:He.
  { apply (empty_spec p q Hrep) in He as ->. injection Hrun as <- <-. done. }
  destruct q as [|c q]; [by rewrite (proj2 (empty_spec p [] Hrep) eq_refl) in He|].
  destruct (get_rep p c q Hrep) as [Hc Hrep']. rewrite Hc in Hrun.
  destruct (read_loop _ n) as [p1 l1] eqn:E1. injection Hrun as <- <-.
  destruct (IH _ _ _ _ Hrep' E1) as (Hq & Hr & Hro & Hwo & Hlen). simpl. rewrite <- Hq.
  split; [done|]. split; [done|]. split; [done|]. split; [done|]. lia.
Qed.

(** ** Readers and writers *)

Inductive thread :=
| Idle
| Writing (n : Z) (rest : list Z)
| WAsleep (n : Z) (rest : list Z)
| Reading (n : nat)
| RAsleep (n : nat).

Record pst := mk_pst {
  ps_pipe : pipe;
  ps_thr : list thread;
  ps_sent : list Z;     (* every byte a writer has put in, in order *)
  ps_rcvd : list Z      (* every byte a reader has been given, in order *)
}.

(** [wakeup(chan)] makes every thread asleep on the channel run again. *)
Definition wake1 (ch : chan) (t : thread) : thread :=
  match t, ch with
  | WAsleep n rest, NWRITE => Writing n rest
  | RAsleep n, NREAD => Reading n
  | _, _ => t
  end.
Definition wakeup_all (wakes : list chan) (thr : list thread) : list thread :=
  fold_left (fun thr ch => wake1 ch <$> thr) wakes thr.

Definition after_write (n : Z) (out : wout) : thread :=
  match out with WRet _ => Idle | WSleep rest => WAsleep n rest end.
Definition after_read (n : nat) (out : rout) : thread :=
  match out with RRet _ _ => Idle | RSleep => RAsleep n end.
Definition bytes_read (out : rout) : list Z := match out with RRet _ l => l | RSleep => [] end.

(** The bytes a write run has stored: the counter tells how many. *)
Definition stored (p p' : pipe) (src : list Z) : list Z :=
  take (Z.to_nat (u32 (pi_nwrite p' - pi_nwrite p))) src.

Definition writes (t : thread) : bool := match t with Writing _ _ | WAsleep _ _ => true | _ => false end.
Definition reads (t : thread) : bool := match t with Reading _ | RAsleep _ => true | _ => false end.

(** A call holds a reference to its end of the pipe, so an end is closed only
    when no call uses it.  [kw] allows writers to be killed. *)
Inductive pstep (kw : bool) : pst -> pst -> Prop :=
| ps_call_write p thr sent rcvd i src :
    thr !! i = Some Idle -> pi_writeopen p = true ->
    pstep kw (mk_pst p thr sent rcvd)
          (mk_pst p (<[i := Writing (Z.of_nat (length src)) src]> thr) sent rcvd)
| ps_write p thr sent rcvd i n src killed p' wakes out :
    thr !! i = Some (Writing n src) -> (killed = true -> kw = true) ->
    pipewrite p killed n src = (p', wakes, out) ->
    pstep kw (mk_pst p thr sent rcvd)
          (mk_pst p' (wakeup_all wakes (<[i := after_write n out]> thr)) (sent ++ stored p p' src) rcvd)
| ps_call_read p thr sent rcvd i n :
    thr !! i = Some Idle -> pi_readopen p = true ->
    pstep kw (mk_pst p thr sent rcvd) (mk_pst p (<[i := Reading n]> thr) sent rcvd)
| ps_read p thr sent rcvd i n killed p' wakes out :
    thr !! i = Some (Reading n) -> piperead p killed n = (p', wakes, out) ->
    pstep kw (mk_pst p thr sent rcvd)
          (mk_pst p' (wakeup_all wakes (<[i := after_read n out]> thr)) sent (rcvd ++ bytes_read out))
| ps_close p thr sent rcvd (w : bool) p' wakes freed :
    (forall i t, thr !! i = Some t -> (if w then writes t else reads t) = false) ->
    pipeclose p w = (p', wakes, freed) ->
    pstep kw (mk_pst p thr sent rcvd) (mk_pst p' (wakeup_all wakes thr) sent rcvd).

(** ** The pipe is a queue *)

Lemma stored_acc p p' q acc rest :
  pipe_rep p q -> pipe_rep p' (q ++ acc) -> pi_nread p' = pi_nread p -> stored p p' (acc ++ rest) = acc.
Proof.
  intros Hp Hp' Hr. unfold stored.
  rewrite (pr_nwrite _ _ Hp), (pr_nwrite _ _ Hp'), Hr, u32_sub_l, u32_sub_r, length_app.
  pose proof (pr_size _ _ Hp') as Hs. rewrite length_app in Hs.
  replace (pi_nread p + Z.of_nat (length q + length acc) - (pi_nread p + Z.of_nat (length q)))
    with (Z.of_nat (length acc)) by lia.
  rewrite u32_small by lia. by rewrite Nat2Z.id, take_app_length.
Qed.

Lemma pipewrite_nread p killed n src p' wakes out :
  pipewrite p killed n src = (p', wakes, out) -> pi_nread p' = pi_nread p.
Proof.
  revert p. induction src as [|c src IH]; intros p; simpl; [by intros [= <- _ _]|].
  destruct (full p); [destruct (_ || _); by intros [= <- _ _]|]. intros H. by apply IH in H.
Qed.

Definition queue_inv (s : pst) : Prop := exists q : list Z, pipe_rep (ps_pipe s) q /\ ps_sent s = ps_rcvd s ++ q.

Lemma close_rep p w p' wakes freed q : pipe_rep p q -> pipeclose p w = (p', wakes, freed) -> pipe_rep p' q.
Proof. intros [? ? ? ? ?] H. unfold pipeclose in H. destruct w; injection H as <- _ _; by split. Qed.

Lemma queue_step kw s s' : queue_inv s -> pstep kw s s' -> queue_inv s'.
Proof.
  intros (q & Hrep & Heq) Hs. destruct Hs as [|p thr sent rcvd i n src killed p' wakes out Hi _ Hrun| |p thr sent rcvd i n killed p' wakes out Hi Hrun|p thr sent rcvd w p' wakes freed _ Hcl]; simpl in *.
  - by exists q.
  - destruct (pipewrite_rep _ _ _ _ _ _ _ _ Hrep Hrun) as (acc & rest & -> & Hrep' & _).
    exists (q ++ acc). split; [done|]. simpl.
    rewrite (stored_acc p p' q acc rest Hrep Hrep'), Heq by (by eapply pipewrite_nread). by rewrite app_assoc.
  - by exists q.
  - unfold piperead in Hrun. destruct (empty_ p && pi_writeopen p).
    + destruct killed; injection Hrun as <- _ <-; exists q; simpl; by rewrite app_nil_r.
    + destruct (read_loop p n) as [p1 l] eqn:El. injection Hrun as <- _ <-. simpl.
      destruct (read_loop_rep _ _ _ _ _ Hrep El) as (Hq & Hrep' & _).
      exists (drop (length l) q). split; [done|]. simpl. by rewrite <- app_assoc, <- Hq.
  - exists q. split; [by eapply close_rep|done].
Qed.

Definition pipe_start (junk : list Z) (threads : nat) : pst := mk_pst (pipeinit junk) (replicate threads Idle) [] [].

Lemma pipeinit_rep junk : length junk = 512%nat -> pipe_rep (pipeinit junk) [].
Proof. intros H. split; simpl; try done; try lia. Qed.

(** C20: A pipe implements a bounded queue of bytes.  Whatever the interleaving
    of writes, reads and closes by any number of threads, with runs cut at
    every point where they sleep and with killed callers, the bytes the
    readers have been given are, in order, an initial part of the bytes the
    writers have put in; what is in between is at most 512 bytes and is what
    the ring buffer holds, also when the 32-bit counters have wrapped. *)
Theorem pipe_refines_queue kw junk threads s :
  length junk = 512%nat -> rtc (pstep kw) (pipe_start junk threads) s ->
  exists q, pipe_rep (ps_pipe s) q /\ ps_sent s = ps_rcvd s ++ q.
Proof.
  intros Hj Hr. apply (rtc_invariant (pstep kw) queue_inv (pipe_start junk threads) s); [|apply queue_step|done].
  exists []. split; [by apply pipeinit_rep|done].
Qed.

(** ** Nobody sleeps without a reason *)

(** A sleeping writer waits for room that a reader may still make, a sleeping
    reader for bytes that a writer may still send. *)
Definition justified (p : pipe) (t : thread) : Prop :=
  match t with
  | Idle => True
  | Writing _ _ => pi_writeopen p = true
  | WAsleep _ _ => full p = true /\ pi_readopen p = true /\ pi_writeopen p = true
  | Reading _ => pi_readopen p = true
  | RAsleep _ => empty_ p = true /\ pi_writeopen p = true /\ pi_readopen p = true
  end.

Definition sleep_inv (s : pst) : Prop :=
  queue_inv s /\ forall i t, ps_thr s !! i = Some t -> justified (ps_pipe s) t.

Lemma wake_lookup wakes thr i t :
  wakeup_all wakes thr !! i = Some t -> exists t0, thr !! i = Some t0 /\ t = fold_left (fun t ch => wake1 ch t) wakes t0.
Proof.
  revert thr. induction wakes as [|ch wakes IH]; intros thr; simpl; [intros H; by exists t|].
  intros (t1 & H1 & ->)%IH. rewrite list_lookup_fmap in H1. apply fmap_Some in H1 as (t0 & H0 & ->).
  by exists t0.
Qed.

(** What a thread is after the others' run. *)
Lemma insert_cases (thr : list thread) i t j t' :
  <[i := t]> thr !! j = Some t' -> (j = i /\ t' = t) \/ (j <> i /\ thr !! j = Some t').
Proof. intros H. apply list_lookup_insert_Some in H. naive_solver. Qed.

Lemma full_not_empty p q : pipe_rep p q -> full p = true -> empty_ p = true -> False.
Proof.
  intros Hrep Hf%(full_spec p q Hrep) He%(empty_spec p q Hrep). by rewrite He in Hf.
Qed.

Ltac by_thread t0 :=
  destruct t0; simpl in *;
  repeat match goal with H : _ /\ _ |- _ => destruct H end;
  repeat split; try congruence; auto.

(** A write run leaves the flags; it changes nothing when the pipe is full,
    and wakes the readers unless the read end is closed. *)
Lemma write_run_sleep p q n src p' wakes out t0 :
  pipe_rep p q -> pipewrite p false n src = (p', wakes, out) -> justified p t0 -> pi_writeopen p = true ->
  justified p' (fold_left (fun t ch => wake1 ch t) wakes t0)
  /\ justified p' (fold_left (fun t ch => wake1 ch t) wakes (after_write n out)).
Proof.
  intros Hrep Hrun Ht Hw.
  destruct (pipewrite_rep _ _ _ _ _ _ _ _ Hrep Hrun) as (acc & rest & -> & Hrep' & Hro & Hwo & Hout).
  assert (Hfull : full p = true -> full p' = true).
  { intros Hf. apply (full_spec p q Hrep) in Hf. apply (full_spec p' _ Hrep').
    pose proof (pr_size _ _ Hrep') as Hs. rewrite length_app in *. lia. }
  destruct Hout as [(-> & -> & ->)|[(Hlen & _ & Hr & _ & -> & ->)|(Hlen & _ & [Hr|Hk] & -> & ->)]]; simpl; try done.
  - split; [|done]. by_thread t0.
  - apply (full_spec p' _ Hrep') in Hlen.
    split; [by_thread t0|]. rewrite Hro, Hwo. done.
  - split; [|done]. by_thread t0.
Qed.

Lemma read_run_sleep p q n killed p' wakes out t0 :
  pipe_rep p q -> piperead p killed n = (p', wakes, out) -> justified p t0 -> pi_readopen p = true ->
  justified p' (fold_left (fun t ch => wake1 ch t) wakes t0)
  /\ justified p' (fold_left (fun t ch => wake1 ch t) wakes (after_read n out)).
Proof.
  intros Hrep Hrun Ht Hr. unfold piperead in Hrun.
  destruct (empty_ p && pi_writeopen p) eqn:E.
  - apply andb_true_iff in E as [He Hwo]. destruct killed; injection Hrun as <- <- <-; simpl; done.
  - destruct (read_loop p n) as [p1 l] eqn:El. injection Hrun as <- <- <-.
    destruct (read_loop_rep _ _ _ _ _ Hrep El) as (Hq & Hrep' & Hro & Hwo & Hlen). simpl.
    split; [|done]. apply andb_false_iff in E.
    by_thread t0; destruct E; congruence.
Qed.

Lemma sleep_step s s' : sleep_inv s -> pstep false s s' -> sleep_inv s'.
Proof.
  intros [Hq Ht] Hs. split; [by eapply queue_step|]. destruct Hq as (q & Hrep & _).
  destruct Hs as [p thr sent rcvd i src Hi Hw|p thr sent rcvd i n src killed p' wakes out Hi Hk Hrun
    |p thr sent rcvd i n Hi Hr|p thr sent rcvd i n killed p' wakes out Hi Hrun
    |p thr sent rcvd w p' wakes freed Hfree Hcl]; simpl in *; intros j t Hj.
  - apply insert_cases in Hj as [[-> ->]|[_ Hj]]; [done|by eapply Ht].
  - destruct killed; [by specialize (Hk eq_refl)|]. apply wake_lookup in Hj as (t0 & H0 & ->).
    pose proof (Ht _ _ Hi) as Hw. simpl in Hw.
    apply insert_cases in H0 as [[-> ->]|[_ H0]].
    + by apply (write_run_sleep p q n src p' wakes out Idle Hrep Hrun I Hw).
    + by apply (write_run_sleep p q n src p' wakes out t0 Hrep Hrun (Ht _ _ H0) Hw).
  - apply insert_cases in Hj as [[-> ->]|[_ Hj]]; [done|by eapply Ht].
  - apply wake_lookup in Hj as (t0 & H0 & ->). pose proof (Ht _ _ Hi) as Hr. simpl in Hr.
    apply insert_cases in H0 as [[-> ->]|[_ H0]].
    + by apply (read_run_sleep p q n killed p' wakes out Idle Hrep Hrun I Hr).
    + by apply (read_run_sleep p q n killed p' wakes out t0 Hrep Hrun (Ht _ _ H0) Hr).
  - apply wake_lookup in Hj as (t0 & H0 & ->). specialize (Hfree _ _ H0). specialize (Ht _ _ H0).
    unfold pipeclose in Hcl. destruct w; injection Hcl as <- <- _; destruct t0; simpl in *; naive_solver.
Qed.

(** C21: No wakeup is lost while no writer is killed.  In every reachable state
    a thread that sleeps in a pipe has a reason to: a sleeping writer faces a
    full buffer whose read end is still open, a sleeping reader an empty
    buffer whose write end is still open, so the two never sleep together. *)
Theorem pipe_no_lost_wakeup junk threads s :
  length junk = 512%nat -> rtc (pstep false) (pipe_start junk threads) s ->
  (forall i t, ps_thr s !! i = Some t -> justified (ps_pipe s) t)
  /\ (forall i j n rest m, ps_thr s !! i = Some (WAsleep n rest) -> ps_thr s !! j = Some (RAsleep m) -> False).
Proof.
  intros Hj Hr.
  destruct (rtc_invariant (pstep false) sleep_inv (pipe_start junk threads) s) as [(q & Hrep & _) Ht];
    [|apply sleep_step|done|].
  - split; [exists []; split; [by apply pipeinit_rep|done]|].
    intros i t Hi. simpl in Hi. apply lookup_replicate in Hi as [-> _]. done.
  - split; [done|]. intros i j n rest m Hi Hj'.
    destruct (Ht _ _ Hi) as [Hf _], (Ht _ _ Hj') as [He _]. by apply (full_not_empty _ q Hrep).
Qed.

(** The wakeup that is lost when a writer is killed.  A reader sleeps on an
    empty pipe; a killed writer of 513 bytes fills the buffer, finds it full,
    sees that it is killed and returns -1 without waking anyone, so the
    reader goes on sleeping although 512 bytes are waiting for it. *)
Theorem pipe_killed_writer_strands_reader :
  exists s, rtc (pstep true) (pipe_start (replicate 512 0) 2) s
    /\ ps_thr s = [RAsleep 1; Idle] /\ full (ps_pipe s) = true.
Proof.
  set (p0 := pipeinit (replicate 512 0)).
  set (src := replicate 513 7).
  destruct (pipewrite p0 true (Z.of_nat (length src)) src) as [[p1 wakes] out] eqn:E.
  exists (mk_pst p1 [RAsleep 1; Idle] ([] ++ stored p0 p1 src) []).
  split; [|split; [done|]].
  - eapply rtc_l; [apply (ps_call_read _ p0 [Idle; Idle] [] [] 0 1); done|].
    eapply rtc_l; [apply (ps_read _ p0 [Reading 1; Idle] [] [] 0 1 false p0 [] RSleep); done|].
    eapply rtc_l; [apply (ps_call_write _ p0 [RAsleep 1; Idle] [] [] 1 src); done|].
    eapply rtc_l; [apply (ps_write _ p0 [RAsleep 1; Writing (Z.of_nat (length src)) src] [] [] 1 (Z.of_nat (length src)) src true p1 wakes out); done|].
    vm_compute in E. injection E as _ <- <-. simpl. apply rtc_refl.
  - vm_compute in E. injection E as <- _ _. vm_compute. reflexivity.
Qed.

Lemma pipe_refines_queue_witness :
  exists s, rtc (pstep true) (pipe_start (replicate 512 0) 2) s /\ ps_sent s = [1; 2; 3]
    /\ exists q, pipe_rep (ps_pipe s) q /\ ps_sent s = ps_rcvd s ++ q.
Proof.
  set (p0 := pipeinit (replicate 512 0)).
  destruct (pipewrite p0 false 3 [1; 2; 3]) as [[p1 wakes] out] eqn:E.
  eexists (mk_pst p1 (wakeup_all wakes (<[1%nat := after_write 3 out]> [Idle; Writing 3 [1; 2; 3]])) ([] ++ stored p0 p1 [1; 2; 3]) []).
  assert (Hr : rtc (pstep true) (pipe_start (replicate 512 0) 2)
    (mk_pst p1 (wakeup_all wakes (<[1%nat := after_write 3 out]> [Idle; Writing 3 [1; 2; 3]])) ([] ++ stored p0 p1 [1; 2; 3]) [])).
  { eapply rtc_l; [apply (ps_call_write _ p0 [Idle; Idle] [] [] 1 [1; 2; 3]); done|].
    eapply rtc_l; [apply (ps_write _ p0 [Idle; Writing 3 [1; 2; 3]] [] [] 1 3 [1; 2; 3] false p1 wakes out); done|].
    apply rtc_refl. }
  split; [exact Hr|]. split.
  - vm_compute in E. injection E as <- _ _. vm_compute. reflexivity.
  - exact (pipe_refines_queue true (replicate 512 0) 2 _ eq_refl Hr).
Defined.

Lemma pipe_no_lost_wakeup_witness :
  exists s, rtc (pstep false) (pipe_start (replicate 512 0) 1) s /\ ps_thr s = [RAsleep 1]
    /\ forall i t, ps_thr s !! i = Some t -> justified (ps_pipe s) t.
Proof.
  set (p0 := pipeinit (replicate 512 0)).
  exists (mk_pst p0 [RAsleep 1] [] []).
  assert (Hr : rtc (pstep false) (pipe_start (replicate 512 0) 1) (mk_pst p0 [RAsleep 1] [] [])).
  { eapply rtc_l; [apply (ps_call_read _ p0 [Idle] [] [] 0 1); done|].
    eapply rtc_l; [apply (ps_read _ p0 [Reading 1] [] [] 0 1 false p0 [] RSleep); done|]. apply rtc_refl. }
  split; [exact Hr|]. split; [done|].
  exact (proj1 (pipe_no_lost_wakeup (replicate 512 0) 1 _ eq_refl Hr)).
Defined.
