(* ===== verification/File.v ===== *)
(** The file table and the descriptor tables ([file.c], the descriptor part of
    [sysfile.c], and the loops over [ofile] of [fork] and [exit] in [proc.c]).

    A [struct file *] is the index of a slot of [ftable]; the critical
    sections under [ftable.lock] are atomic.  [fileclose] returns the closed
    file [ff] when its last reference goes, which its caller then acts on
    ([pipeclose] or [iput]). *)

From S2P Require Import Prelude.

Definition NFILE : nat := 100.
Definition NOFILE : nat := 16.

Inductive ftype := FD_NONE | FD_PIPE | FD_INODE.
#[export] Instance ftype_eq_dec : EqDecision ftype.
Proof. solve_decision. Defined.

Record file := mk_file {
  f_type : ftype; f_ref : Z; f_readable : bool; f_writable : bool;
  f_pipe : nat; f_ip : nat; f_off : Z
}.
#[export] Instance eta_file : Settable file := fun f =>
  mk_file (f_type f) (f_ref f) (f_readable f) (f_writable f) (f_pipe f) (f_ip f) (f_off f).
#[export] Instance file_inhabited : Inhabited file := populate (mk_file FD_NONE 0 false false 0 0 0).

(** The table of open files and every process's descriptors. *)
Record files := mk_files { ft : list file; ofile : list (list (option nat)) }.
#[export] Instance eta_files : Settable files := fun s => mk_files (ft s) (ofile s).

Definition get_file (f : nat) : M files file := gets (fun s => ft s !!! f).
Definition set_file (f : nat) (x : file) : M files () := modify (fun s => s <| ft := <[f := x]> (ft s) |>).
Definition get_fd (p fd : nat) : M files (option nat) := gets (fun s => (ofile s !!! p) !!! fd).
Definition set_fd (p fd : nat) (v : option nat) : M files () :=
  modify (fun s => s <| ofile := <[p := <[fd := v]> (ofile s !!! p)]> (ofile s) |>).

(** ** file.c *)

Definition filealloc : M files (option nat) :=
  l ← gets ft;
  match find_idx (fun f => f_ref f =? 0) l with
  | Some f => x ← get_file f; set_file f (x <| f_ref := 1 |>);; mret (Some f)
  | None => mret None
  end.

Definition filedup (f : nat) : M files nat :=
  x ← get_file f;
  if f_ref x <? 1 then panic "filedup"
  else set_file f (x <| f_ref := f_ref x + 1 |>);; mret f.

Definition fileclose (f : nat) : M files (option file) :=
  x ← get_file f;
  if f_ref x <? 1 then panic "fileclose" else
  let x := x <| f_ref := f_ref x - 1 |> in
  if f_ref x >? 0 then set_file f x;; mret None
  else
    let ff := x in
    set_file f (x <| f_ref := 0 |> <| f_type := FD_NONE |>);;
    mret (Some ff).

(** ** Descriptors *)

(** [argfd]'s checks on a descriptor that has been fetched. *)
Definition fd_lookup (p : nat) (fd : Z) : M files (option nat) :=
  if (fd <? 0) || (Z.of_nat NOFILE <=? fd) then mret None else get_fd p (Z.to_nat fd).

Definition fdalloc (p : nat) (f : nat) : M files Z :=
  l ← gets (fun s => ofile s !!! p);
  match find_idx (fun o : option nat => match o with None => true | Some _ => false end) l with
  | Some fd => set_fd p fd (Some f);; mret (Z.of_nat fd)
  | None => mret (-1)
  end.

Definition sys_dup (p : nat) (fd : Z) : M files Z :=
  f ← fd_lookup p fd;
  match f with
  | None => mret (-1)
  | Some f =>
      fd' ← fdalloc p f;
      if fd' <? 0 then mret (-1) else filedup f;; mret fd'
  end.

Definition sys_close (p : nat) (fd : Z) : M files (Z * option file) :=
  f ← fd_lookup p fd;
  match f with
  | None => mret (-1, None)
  | Some f => set_fd p (Z.to_nat fd) None;; c ← fileclose f; mret (0, c)
  end.

(** The end of [sys_open]: a file and a descriptor for the inode [ip], or
    neither. *)
Definition open_file (p ip : nat) (omode : Z) : M files Z :=
  o ← filealloc;
  match o with
  | None => mret (-1)
  | Some f =>
      fd ← fdalloc p f;
      if fd <? 0 then fileclose f;; mret (-1)
      else
        x ← get_file f;
        set_file f (x <| f_type := FD_INODE |> <| f_ip := ip |> <| f_off := 0 |>
          <| f_readable := Z.land omode 1 =? 0 |>
          <| f_writable := negb (Z.land omode 1 =? 0) || negb (Z.land omode 2 =? 0) |>);;
        mret fd
  end.

(** [pipealloc]: [page] is what [kalloc] returns for the pipe. *)
Definition pipealloc (page : option nat) : M files (option (nat * nat)) :=
  o0 ← filealloc;
  match o0 with
  | None => mret None
  | Some f0 =>
      o1 ← filealloc;
      match o1 with
      | None => fileclose f0;; mret None
      | Some f1 =>
          match page with
          | None => fileclose f0;; fileclose f1;; mret None
          | Some q =>
              x0 ← get_file f0;
              set_file f0 (x0 <| f_type := FD_PIPE |> <| f_readable := true |> <| f_writable := false |> <| f_pipe := q |>);;
              x1 ← get_file f1;
              set_file f1 (x1 <| f_type := FD_PIPE |> <| f_readable := false |> <| f_writable := true |> <| f_pipe := q |>);;
              mret (Some (f0, f1))
          end
      end
  end.

(** [sys_pipe] after its argument check: the two descriptors. *)
Definition sys_pipe (p : nat) (page : option nat) : M files (option (Z * Z)) :=
  r ← pipealloc page;
  match r with
  | None => mret None
  | Some (rf, wf) =>
      fd0 ← fdalloc p rf;
      fd1 ← (if fd0 <? 0 then mret (-1) else fdalloc p wf);
      if fd1 <? 0 then
        when (negb (fd0 <? 0)) (set_fd p (Z.to_nat fd0) None);;
        fileclose rf;;
        fileclose wf;;
        mret None
      else mret (Some (fd0, fd1))
  end.

(** The loop of [fork] over the parent's descriptors. *)
Definition fork_files (parent child : nat) : M files () :=
  forM (seq 0 NOFILE) (fun i =>
    f ← get_fd parent i;
    match f with
    | None => mret ()
    | Some f => f ← filedup f; set_fd child i (Some f)
    end).

(** The loop of [exit]: the files whose last reference it drops. *)
Fixpoint exit_loop (p : nat) (fds : list nat) : M files (list file) :=
  match fds with
  | [] => mret []
  | fd :: fds' =>
      f ← get_fd p fd;
      match f with
      | None => exit_loop p fds'
      | Some f =>
          c ← fileclose f;
          set_fd p fd None;;
          l ← exit_loop p fds';
          mret (match c with Some ff => ff :: l | None => l end)
      end
  end.
Definition exit_files (p : nat) : M files (list file) := exit_loop p (seq 0 NOFILE).

(** ** Reference counts *)

(** How many descriptors, of all processes, point to file [f]. *)
Definition refs (f : nat) (tabs : list (list (option nat))) : nat :=
  length (filter (fun o => o = Some f) (concat tabs)).

(** The file table in a state where [extra f] references are held outside the
    descriptor tables. *)
Record counted (extra : nat -> Z) (s : files) : Prop := {
  ct_tabs : Forall (fun t => length t = NOFILE) (ofile s);
  ct_ref : forall f x, ft s !! f = Some x -> f_ref x = Z.of_nat (refs f (ofile s)) + extra f;
  ct_in : forall f, (0 < refs f (ofile s))%nat -> (f < length (ft s))%nat
}.
Notation no_extra := (fun _ : nat => 0).

Definition bump (f : nat) (d : Z) (e : nat -> Z) : nat -> Z := fun g => e g + (if decide (g = f) then d else 0).

Definition one (o : option nat) (f : nat) : nat := if decide (o = Some f) then 1 else 0.

Lemma refs_app f l1 l2 : refs f (l1 ++ l2) = (refs f l1 + refs f l2)%nat.
Proof. unfold refs. by rewrite concat_app, filter_app, length_app. Qed.

Lemma refs_cons f t l : refs f (t :: l) = (length (filter (fun o => o = Some f) t) + refs f l)%nat.
Proof. unfold refs. simpl. by rewrite filter_app, length_app. Qed.

Lemma count_insert (f : nat) (t : list (option nat)) fd old v :
  t !! fd = Some old ->
  (length (filter (fun o => o = Some f) (<[fd := v]> t)) + one old f
   = length (filter (fun o => o = Some f) t) + one v f)%nat.
Proof.
  intros H. rewrite <- (take_drop_middle t fd old H) at 2.
  rewrite insert_take_drop by (by apply lookup_lt_Some in H).
  rewrite !filter_app, !length_app, !filter_cons. unfold one.
  destruct (decide (v = Some f)), (decide (old = Some f)); simpl; lia.
Qed.

Lemma refs_insert f tabs p t fd old v :
  tabs !! p = Some t -> t !! fd = Some old ->
  (refs f (<[p := <[fd := v]> t]> tabs) + one old f = refs f tabs + one v f)%nat.
Proof.
  intros Hp Hfd. rewrite <- (take_drop_middle tabs p t Hp) at 2.
  rewrite insert_take_drop by (by apply lookup_lt_Some in Hp).
  rewrite !refs_app, !refs_cons. pose proof (count_insert f t fd old v Hfd). lia.
Qed.

Section rules.
Implicit Types (e : nat -> Z) (s : files).

Lemma counted_ext e e' s : counted e s -> (forall f, (f < length (ft s))%nat -> e f = e' f) -> counted e' s.
Proof.
  intros [H1 H2 H3] He. split; [done| |done]. intros f x Hx.
  rewrite <- He by (by apply lookup_lt_Some in Hx). by apply H2.
Qed.

(** Changing what a file is for does not change its count. *)
Lemma wp_set_meta e s f x x' (Q : () -> files -> Prop) :
  counted e s -> ft s !! f = Some x -> f_ref x' = f_ref x ->
  (forall s', counted e s' -> ofile s' = ofile s -> length (ft s') = length (ft s) -> Q () s') -> wp (set_file f x') s Q.
Proof.
  intros [H1 H2 H3] Hx Hr HQ. unfold set_file. apply wp_modify, HQ; simpl; [|done|by rewrite length_insert].
  split; simpl; [done| |by rewrite length_insert].
  intros g y Hy. apply list_lookup_insert_Some in Hy as [(<- & <- & _)|[_ Hy]]; [rewrite Hr|]; by apply H2.
Qed.

Lemma wp_filealloc e s (Q : option nat -> files -> Prop) :
  counted e s -> (forall s', s' = s -> Q None s') ->
  (forall f s', counted (bump f 1 e) s' -> ofile s' = ofile s -> length (ft s') = length (ft s) ->
     (f < length (ft s))%nat -> refs f (ofile s) = 0%nat -> Q (Some f) s') ->
  (forall f, (f < length (ft s))%nat -> 0 <= e f) ->
  wp filealloc s Q.
Proof.
  intros [H1 H2 H3] HN HS He. unfold filealloc. wp_steps.
  destruct (find_idx _ (ft s)) as [f|] eqn:E; [|apply wp_ret; by apply HN].
  apply find_idx_Some in E as [(x & Hx & Hr%Z.eqb_eq) _].
  apply lookup_lt_Some in Hx as Hlt. specialize (H2 _ _ Hx) as Hrx. specialize (He _ Hlt).
  unfold get_file, set_file. wp_steps. rewrite (list_lookup_total_correct _ _ _ Hx).
  apply HS; simpl; [|done|by rewrite length_insert|done|lia].
  split; simpl; [done| |by rewrite length_insert].
  intros g y Hy. unfold bump. apply list_lookup_insert_Some in Hy as [(<- & <- & _)|[Hne Hy]].
  - rewrite decide_True by done. simpl. lia.
  - rewrite decide_False by done. rewrite (H2 _ _ Hy). lia.
Qed.

Lemma wp_filedup e s f (Q : nat -> files -> Prop) :
  counted e s -> (f < length (ft s))%nat -> 1 <= Z.of_nat (refs f (ofile s)) + e f ->
  (forall s', counted (bump f 1 e) s' -> ofile s' = ofile s -> length (ft s') = length (ft s) -> Q f s') ->
  wp (filedup f) s Q.
Proof.
  intros [H1 H2 H3] Hlt Hr HQ. destruct (lookup_lt_is_Some_2 _ _ Hlt) as [x Hx].
  unfold filedup, get_file, set_file. wp_steps. rewrite (list_lookup_total_correct _ _ _ Hx).
  pose proof (H2 _ _ Hx) as Hrx. rewrite (proj2 (Z.ltb_ge _ _)) by lia. wp_steps.
  apply HQ; simpl; [|done|by rewrite length_insert]. split; simpl; [done| |by rewrite length_insert].
  intros g y Hy. unfold bump. apply list_lookup_insert_Some in Hy as [(<- & <- & _)|[Hne Hy]].
  - rewrite decide_True by done. simpl. lia.
  - rewrite decide_False by done. rewrite (H2 _ _ Hy). lia.
Qed.

(** Dropping a reference that no descriptor holds. *)
Lemma wp_fileclose e s f (Q : option file -> files -> Prop) :
  counted e s -> (f < length (ft s))%nat -> 1 <= Z.of_nat (refs f (ofile s)) + e f ->
  (forall c s', counted (bump f (-1) e) s' -> ofile s' = ofile s -> length (ft s') = length (ft s) -> Q c s') ->
  wp (fileclose f) s Q.
Proof.
  intros [H1 H2 H3] Hlt Hr HQ. destruct (lookup_lt_is_Some_2 _ _ Hlt) as [x Hx].
  unfold fileclose, get_file, set_file. wp_steps. rewrite (list_lookup_total_correct _ _ _ Hx).
  pose proof (H2 _ _ Hx) as Hrx. rewrite (proj2 (Z.ltb_ge _ _)) by lia.
  assert (Hc : forall y, f_ref y = f_ref x - 1 -> counted (bump f (-1) e) (s <| ft := <[f := y]> (ft s) |>)).
  { intros y Hy. split; simpl; [done| |by rewrite length_insert].
    intros g z Hz. unfold bump. apply list_lookup_insert_Some in Hz as [(<- & <- & _)|[Hne Hz]].
    - rewrite decide_True by done. lia.
    - rewrite decide_False by done. rewrite (H2 _ _ Hz). lia. }
  cbn [f_ref set_field]. destruct (Z.gtb_spec (f_ref x - 1) 0); wp_steps; apply HQ; simpl;
    try (by rewrite length_insert); try done; apply Hc; simpl; lia.
Qed.

(** Storing a descriptor moves references into or out of the table. *)
Lemma wp_set_fd e s p t fd old v (Q : () -> files -> Prop) :
  counted e s -> ofile s !! p = Some t -> t !! fd = Some old ->
  (forall f, v = Some f -> (f < length (ft s))%nat) ->
  (forall s', counted (fun f => e f + Z.of_nat (one old f) - Z.of_nat (one v f)) s' ->
     ofile s' = <[p := <[fd := v]> t]> (ofile s) -> ft s' = ft s -> Q () s') ->
  wp (set_fd p fd v) s Q.
Proof.
  intros [H1 H2 H3] Hp Hfd Hv HQ. unfold set_fd. apply wp_modify.
  rewrite (list_lookup_total_correct _ _ _ Hp). apply HQ; simpl; [|done|done].
  split; simpl.
  - apply Forall_insert; [done|]. rewrite length_insert. by apply (proj1 (Forall_lookup _ _) H1 p).
  - intros f x Hx. rewrite (H2 _ _ Hx). pose proof (refs_insert f _ _ _ _ _ v Hp Hfd). lia.
  - intros f Hf. pose proof (refs_insert f _ _ _ _ _ v Hp Hfd) as Hi. unfold one in Hi.
    destruct (decide (v = Some f)) as [E|]; [by apply Hv|]. apply H3. lia.
Qed.

(** A descriptor of process [p] that points to [f]. *)
Definition has_fd (s : files) (p fd : nat) (o : option nat) : Prop :=
  exists t, ofile s !! p = Some t /\ t !! fd = Some o.

Lemma has_fd_refs s p fd f : has_fd s p fd (Some f) -> (0 < refs f (ofile s))%nat.
Proof.
  intros (t & Hp & Hfd). rewrite <- (take_drop_middle _ _ _ Hp), refs_app, refs_cons.
  rewrite <- (take_drop_middle _ _ _ Hfd), filter_app, length_app, filter_cons_True by done. simpl. lia.
Qed.

Lemma wp_fd_lookup e s p fd (Q : option nat -> files -> Prop) :
  counted e s -> (p < length (ofile s))%nat -> Q None s ->
  (forall f, 0 <= fd < Z.of_nat NOFILE -> has_fd s p (Z.to_nat fd) (Some f) -> Q (Some f) s) ->
  wp (fd_lookup p fd) s Q.
Proof.
  intros [H1 _ _] Hp HN HS. destruct (lookup_lt_is_Some_2 _ _ Hp) as [t Ht]. unfold fd_lookup.
  destruct ((fd <? 0) || (Z.of_nat NOFILE <=? fd)) eqn:E; [by apply wp_ret|].
  apply orb_false_iff in E as [E1%Z.ltb_ge E2%Z.leb_gt].
  pose proof (proj1 (Forall_lookup _ _) H1 _ _ Ht) as Hlen. simpl in Hlen.
  destruct (lookup_lt_is_Some_2 t (Z.to_nat fd)) as [o Ho]; [lia|].
  unfold get_fd. apply wp_gets. rewrite (list_lookup_total_correct _ _ _ Ht), (list_lookup_total_correct _ _ _ Ho).
  destruct o as [f|]; [|done]. apply HS; [done|]. by exists t.
Qed.

Lemma wp_fdalloc e s p f (Q : Z -> files -> Prop) :
  counted e s -> (p < length (ofile s))%nat -> (f < length (ft s))%nat -> Q (-1) s ->
  (forall fd s', counted (bump f (-1) e) s' -> ft s' = ft s -> length (ofile s') = length (ofile s) ->
     has_fd s' p fd (Some f) -> (forall g, refs g (ofile s') = refs g (ofile s) + one (Some f) g)%nat ->
     (forall p' fd' o, has_fd s p' fd' o -> (p', fd') <> (p, fd) -> has_fd s' p' fd' o) ->
     Q (Z.of_nat fd) s') ->
  wp (fdalloc p f) s Q.
Proof.
  intros Hc Hp Hf HN HS. destruct (lookup_lt_is_Some_2 _ _ Hp) as [t Ht]. unfold fdalloc. wp_steps.
  rewrite (list_lookup_total_correct _ _ _ Ht).
  destruct (find_idx _ t) as [fd|] eqn:E; [|by apply wp_ret].
  apply find_idx_Some in E as [([x|] & Hx & He) _]; [done|]. wp_step.
  apply (wp_set_fd e s p t fd None (Some f)); [done|done|done|by intros ? [= <-]|].
  intros s' Hc' Ho Hft. apply wp_ret.
  assert (Hlt : (fd < length t)%nat) by (by apply lookup_lt_Some in Hx).
  apply HS; [|done|rewrite Ho; by rewrite length_insert| | |].
  - eapply counted_ext; [exact Hc'|]. intros g _. unfold bump, one. simpl.
    destruct (decide (None = Some g)); [done|]. destruct (decide (Some f = Some g)), (decide (g = f)); naive_solver lia.
  - exists (<[fd := Some f]> t). rewrite Ho. split; [by apply list_lookup_insert_eq|by apply list_lookup_insert_eq].
  - intros g. rewrite Ho. pose proof (refs_insert g _ _ _ _ _ (Some f) Ht Hx) as Hr. unfold one at 1 in Hr.
    destruct (decide (None = Some g)); [done|]. lia.
  - intros p' fd' o (t' & Hp' & Hfd') Hne. unfold has_fd. rewrite Ho. destruct (decide (p' = p)) as [->|Hpp].
    + exists (<[fd := Some f]> t). simplify_eq. split; [by apply list_lookup_insert_eq|].
      rewrite list_lookup_insert_ne; [done|]. intros ->. done.
    + exists t'. by rewrite list_lookup_insert_ne.
Qed.

Definition preserved {A} (m : M files A) (s : files) : Prop :=
  wp m s (fun _ s' => counted no_extra s' /\ length (ofile s') = length (ofile s) /\ length (ft s') = length (ft s)).

Ltac same_extra := eapply counted_ext; [eassumption|]; intros ? _; unfold bump, one; repeat case_decide; naive_solver lia.

Lemma dup_preserved s p fd : counted no_extra s -> (p < length (ofile s))%nat -> preserved (sys_dup p fd) s.
Proof.
  intros Hc Hp. unfold preserved, sys_dup. wp_step.
  eapply wp_fd_lookup; [exact Hc|done|by apply wp_ret|]. intros f _ Hfd.
  pose proof (has_fd_refs _ _ _ _ Hfd) as Hr. pose proof (ct_in _ _ Hc _ Hr) as Hlt. wp_step.
  eapply wp_fdalloc; [exact Hc|done|done|rewrite (proj2 (Z.ltb_lt (-1) 0)) by lia; by apply wp_ret|].
  intros fd' s' Hc' Hft Hlen _ Hrefs _. rewrite (proj2 (Z.ltb_ge _ _)) by lia. wp_step.
  eapply wp_filedup; [exact Hc'|by rewrite Hft| |].
  - rewrite Hrefs. unfold one, bump. rewrite !decide_True by done. lia.
  - intros s2 Hc2 Ho2 Hl2. apply wp_ret. split; [same_extra|]. rewrite Ho2, Hl2, Hft. done.
Qed.

Lemma close_preserved s p fd : counted no_extra s -> (p < length (ofile s))%nat -> preserved (sys_close p fd) s.
Proof.
  intros Hc Hp. unfold preserved, sys_close. wp_step.
  eapply wp_fd_lookup; [exact Hc|done|by apply wp_ret|]. intros f _ (t & Ht & Hfd).
  pose proof (has_fd_refs s p _ f (ex_intro _ t (conj Ht Hfd))) as Hr. pose proof (ct_in _ _ Hc _ Hr) as Hlt. wp_step.
  eapply wp_set_fd; [exact Hc|exact Ht|exact Hfd|done|]. intros s1 Hc1 Ho1 Hft1. wp_step.
  eapply wp_fileclose; [exact Hc1|by rewrite Hft1| |].
  - unfold one. rewrite decide_True by done. rewrite decide_False by done. lia.
  - intros c s2 Hc2 Ho2 Hl2. apply wp_ret. split; [same_extra|]. rewrite Ho2, Hl2, Hft1, Ho1, length_insert. done.
Qed.

Lemma open_preserved s p ip mode : counted no_extra s -> (p < length (ofile s))%nat -> preserved (open_file p ip mode) s.
Proof.
  intros Hc Hp. unfold preserved, open_file. wp_step.
  eapply wp_filealloc; [exact Hc|intros ? ->; by apply wp_ret| |done].
  intros f s1 Hc1 Ho1 Hl1 Hlt Hrf. wp_step.
  eapply wp_fdalloc; [exact Hc1|by rewrite Ho1|by rewrite Hl1| |].
  - rewrite (proj2 (Z.ltb_lt (-1) 0)) by lia. wp_step.
    eapply wp_fileclose; [exact Hc1|by rewrite Hl1|unfold bump; rewrite decide_True by done; lia|].
    intros c s2 Hc2 Ho2 Hl2. apply wp_ret. split; [same_extra|]. rewrite Ho2, Hl2, Ho1, Hl1. done.
  - intros fd s2 Hc2 Hft2 Hlen2 _ _ _. rewrite (proj2 (Z.ltb_ge _ _)) by lia. wp_step. unfold get_file. wp_steps.
    assert (Hlt2 : (f < length (ft s2))%nat) by (by rewrite Hft2, Hl1).
    destruct (lookup_lt_is_Some_2 _ _ Hlt2) as [x Hx]. rewrite (list_lookup_total_correct _ _ _ Hx).
    eapply wp_set_meta; [exact Hc2|exact Hx|done|]. intros s3 Hc3 Ho3 Hl3. apply wp_ret.
    split; [same_extra|]. rewrite Ho3, Hl3, Hlen2, Hft2, Ho1, Hl1. done.
Qed.

Lemma wp_pipealloc s page (Q : option (nat * nat) -> files -> Prop) :
  counted no_extra s ->
  (forall s', counted no_extra s' -> ofile s' = ofile s -> length (ft s') = length (ft s) -> Q None s') ->
  (forall f0 f1 s', counted (bump f1 1 (bump f0 1 no_extra)) s' -> ofile s' = ofile s -> length (ft s') = length (ft s) ->
     (f0 < length (ft s))%nat -> (f1 < length (ft s))%nat -> Q (Some (f0, f1)) s') ->
  wp (pipealloc page) s Q.
Proof.
  intros Hc HN HS. unfold pipealloc. wp_step.
  eapply wp_filealloc; [exact Hc|intros ? ->; apply wp_ret; by apply HN| |done].
  intros f0 s1 Hc1 Ho1 Hl1 Hlt0 Hrf0. wp_step.
  assert (He1 : forall f, 0 <= bump f0 1 no_extra f) by (intros f; unfold bump; case_decide; lia).
  eapply wp_filealloc; [exact Hc1| | |intros; apply He1].
  - intros ? ->. wp_step. eapply wp_fileclose; [exact Hc1|by rewrite Hl1|unfold bump; rewrite decide_True by done; lia|].
    intros c s2 Hc2 Ho2 Hl2. apply wp_ret, HN; [same_extra|by rewrite Ho2|by rewrite Hl2].
  - intros f1 s2 Hc2 Ho2 Hl2 Hlt1 _. rewrite Hl1 in Hlt1.
    destruct page as [q|].
    + assert (Hlt0' : (f0 < length (ft s2))%nat) by lia.
      destruct (lookup_lt_is_Some_2 _ _ Hlt0') as [x0 Hx0].
      unfold get_file. wp_steps. rewrite (list_lookup_total_correct _ _ _ Hx0).
      eapply wp_set_meta; [exact Hc2|exact Hx0|done|]. intros s3 Hc3 Ho3 Hl3. wp_steps.
      assert (Hlt1' : (f1 < length (ft s3))%nat) by lia.
      destruct (lookup_lt_is_Some_2 _ _ Hlt1') as [x1 Hx1]. rewrite (list_lookup_total_correct _ _ _ Hx1).
      eapply wp_set_meta; [exact Hc3|exact Hx1|done|]. intros s4 Hc4 Ho4 Hl4.
      apply wp_ret, HS; [done|congruence|lia|done|done].
    + wp_step. eapply wp_fileclose; [exact Hc2|lia|unfold bump; rewrite (decide_True (P := f0 = f0)) by done; case_decide; lia|].
      intros c s3 Hc3 Ho3 Hl3. wp_step.
      eapply wp_fileclose; [exact Hc3|lia|unfold bump; rewrite (decide_True (P := f1 = f1)) by done; repeat case_decide; lia|].
      intros c' s4 Hc4 Ho4 Hl4. apply wp_ret, HN; [same_extra|congruence|lia].
Qed.

Lemma pipe_preserved s p page : counted no_extra s -> (p < length (ofile s))%nat -> preserved (sys_pipe p page) s.
Proof.
  intros Hc Hp. unfold preserved, sys_pipe. wp_step. eapply wp_pipealloc; [exact Hc| |].
  { intros s' Hc' Ho Hl. apply wp_ret. by rewrite Ho. }
  intros rf wf s1 Hc1 Ho1 Hl1 Hr Hw. wp_step.
  eapply wp_fdalloc; [exact Hc1|by rewrite Ho1|lia| |].
  - rewrite (proj2 (Z.ltb_lt (-1) 0)) by lia. do 2 wp_step. rewrite (proj2 (Z.ltb_lt (-1) 0)) by lia.
    cbn [negb when]. do 2 wp_step. cbn [negb]. wp_step.
    eapply wp_fileclose; [exact Hc1|lia|unfold bump; rewrite (decide_True (P := rf = rf)) by done; case_decide; lia|].
    intros c s2 Hc2 Ho2 Hl2. wp_step.
    eapply wp_fileclose; [exact Hc2|lia|unfold bump; rewrite (decide_True (P := wf = wf)) by done; repeat case_decide; lia|].
    intros c' s3 Hc3 Ho3 Hl3. apply wp_ret. split; [same_extra|]. rewrite Ho3, Hl3, Ho2, Hl2, Ho1, Hl1. done.
  - intros fd0 s2 Hc2 Hft2 Hlen2 (t & Ht & Hfd0) _ _. rewrite (proj2 (Z.ltb_ge _ _)) by lia. wp_step.
    eapply wp_fdalloc; [exact Hc2|rewrite Hlen2, Ho1; done|rewrite Hft2; lia| |].
    + rewrite (proj2 (Z.ltb_lt (-1) 0)) by lia.
      cbn [negb when]. rewrite Nat2Z.id. wp_step.
      eapply wp_set_fd; [exact Hc2|exact Ht|exact Hfd0|done|]. intros s3 Hc3 Ho3 Hft3. wp_step.
      eapply wp_fileclose; [exact Hc3|rewrite Hft3, Hft2; lia| |].
      { unfold bump, one. rewrite !(decide_True (P := rf = rf)) by done. rewrite (decide_True (P := Some rf = Some rf)) by done.
        rewrite (decide_False (P := None = Some rf)) by done. case_decide; lia. }
      intros c s4 Hc4 Ho4 Hl4. wp_step.
      eapply wp_fileclose; [exact Hc4|rewrite Hl4, Hft3, Hft2; lia| |].
      { unfold bump, one. rewrite !(decide_True (P := wf = wf)) by done.
        rewrite (decide_False (P := None = Some wf)) by done. repeat case_decide; simplify_eq; lia. }
      intros c' s5 Hc5 Ho5 Hl5. apply wp_ret.
      split; [same_extra|]. rewrite Ho5, Hl5, Ho4, Hl4, Ho3, Hft3, Hft2, length_insert, Hlen2, Ho1, Hl1. done.
    + intros fd1 s3 Hc3 Hft3 Hlen3 _ _ _. rewrite (proj2 (Z.ltb_ge _ _)) by lia. apply wp_ret.
      split; [same_extra|]. rewrite Hlen3, Hft3, Hlen2, Hft2, Ho1, Hl1. done.
Qed.

Lemma exit_loop_preserved fds s p :
  counted no_extra s -> (p < length (ofile s))%nat -> Forall (fun fd => (fd < NOFILE)%nat) fds ->
  preserved (exit_loop p fds) s.
Proof.
  revert s. induction fds as [|fd fds IH]; intros s Hc Hp Hf; [by apply wp_ret|].
  inversion_clear Hf as [|? ? Hfd Hf']. unfold preserved. cbn [exit_loop]. wp_step. unfold get_fd. wp_step.
  destruct (lookup_lt_is_Some_2 _ _ Hp) as [t Ht]. rewrite (list_lookup_total_correct _ _ _ Ht).
  pose proof (proj1 (Forall_lookup _ _) (ct_tabs _ _ Hc) _ _ Ht) as Hlen. simpl in Hlen.
  destruct (lookup_lt_is_Some_2 t fd) as [[f|] Ho]; [lia| |]; rewrite (list_lookup_total_correct _ _ _ Ho).
  - pose proof (has_fd_refs s p fd f (ex_intro _ t (conj Ht Ho))) as Hr. pose proof (ct_in _ _ Hc _ Hr) as Hlt. wp_step.
    eapply wp_fileclose; [exact Hc|done|lia|]. intros c s1 Hc1 Ho1 Hl1. wp_step.
    eapply wp_set_fd; [exact Hc1|rewrite Ho1; exact Ht|exact Ho|done|]. intros s2 Hc2 Ho2 Hft2. wp_step.
    assert (Hc2' : counted no_extra s2) by same_extra.
    eapply wp_conseq; [apply IH; [done|rewrite Ho2, length_insert, Ho1; done|done]|].
    intros l s3 (Hc3 & Hl3 & Hf3). apply wp_ret. split; [done|]. rewrite Hl3, Hf3, Ho2, Hft2, length_insert, Ho1. done.
  - apply IH; done.
Qed.

(** The child gets the parent's row of descriptors. *)
Lemma wp_fork_files s parent child t (Q : () -> files -> Prop) :
  counted no_extra s -> ofile s !! parent = Some t -> parent <> child -> ofile s !! child = Some (replicate NOFILE None) ->
  (forall s', counted no_extra s' -> ofile s' = <[child := t]> (ofile s) -> length (ft s') = length (ft s) -> Q () s') ->
  wp (fork_files parent child) s Q.
Proof.
  intros Hc Ht Hne Hch HQ. unfold fork_files. pose proof (lookup_lt_Some _ _ _ Hch) as Hlc.
  pose proof (proj1 (Forall_lookup _ _) (ct_tabs _ _ Hc) _ _ Ht) as Hlen. simpl in Hlen.
  apply (wp_forM (fun pre s' => counted no_extra s' /\ length (ft s') = length (ft s) /\
    exists tc, ofile s' = <[child := tc]> (ofile s) /\ length tc = NOFILE /\ (forall i, i ∈ pre -> tc !! i = t !! i) /\
      forall i, i ∉ pre -> (i < NOFILE)%nat -> tc !! i = Some None)).
  - split; [done|]. split; [done|]. exists (replicate NOFILE None). rewrite (list_insert_id _ _ _ Hch).
    split; [done|]. split; [by rewrite length_replicate|]. split; [intros i Hi; by apply elem_of_nil in Hi|].
    intros i _ Hi. by apply lookup_replicate.
  - intros pre i post s' Hl (Hc' & Hlf & tc & Eo & Hltc & Hsome & Hnone).
    assert (Ht' : ofile s' !! parent = Some t) by (by rewrite Eo, list_lookup_insert_ne).
    assert (Htc : ofile s' !! child = Some tc) by (rewrite Eo; by apply list_lookup_insert_eq).
    assert (Hi : (i < NOFILE)%nat).
    { assert (Hin : i ∈ seq 0 NOFILE) by (rewrite Hl; set_solver). apply elem_of_seq in Hin. lia. }
    assert (Hnot : i ∉ pre).
    { pose proof (NoDup_seq 0 NOFILE) as Hnd. rewrite Hl in Hnd. apply NoDup_app in Hnd as (_ & Hd & _).
      intros Hin. apply (Hd _ Hin). set_solver. }
    wp_step. unfold get_fd. wp_step. rewrite (list_lookup_total_correct _ _ _ Ht').
    destruct (lookup_lt_is_Some_2 t i) as [[f|] Ho]; [lia| |]; rewrite (list_lookup_total_correct _ _ _ Ho).
    + pose proof (has_fd_refs s' parent i f (ex_intro _ t (conj Ht' Ho))) as Hr. pose proof (ct_in _ _ Hc' _ Hr) as Hlt. wp_step.
      eapply wp_filedup; [exact Hc'|done|lia|]. intros s1 Hc1 Ho1 Hl1.
      eapply wp_set_fd; [exact Hc1|rewrite Ho1; exact Htc|by apply Hnone|intros ? [= <-]; by rewrite Hl1|].
      intros s2 Hc2 Ho2 Hft2. split; [same_extra|]. rewrite Ho2, Hft2, Ho1, Hl1, Eo, list_insert_insert_eq. split; [done|].
      exists (<[i := Some f]> tc). split; [done|]. split; [by rewrite length_insert|]. split.
      * intros j [Hj| ->%list_elem_of_singleton]%elem_of_app; [|rewrite Ho; apply list_lookup_insert_eq; lia].
        rewrite list_lookup_insert_ne by (intros <-; done). by apply Hsome.
      * intros j Hj Hjn. rewrite elem_of_app, list_elem_of_singleton in Hj. rewrite list_lookup_insert_ne by naive_solver.
        apply Hnone; naive_solver.
    + apply wp_ret. split; [done|]. split; [done|]. exists tc. split; [done|]. split; [done|]. split.
      * intros j [Hj| ->%list_elem_of_singleton]%elem_of_app; [by apply Hsome|]. rewrite Ho. by apply Hnone.
      * intros j Hj. apply Hnone. set_solver.
  - intros s' (Hc' & Hlf & tc & Eo & Hltc & Hsome & _). apply HQ; [done| |done].
    assert (tc = t) as <-; [|done]. apply list_eq. intros i. destruct (decide (i < NOFILE)%nat).
    + apply Hsome, elem_of_seq. lia.
    + by rewrite !lookup_ge_None_2 by lia.
Qed.

Lemma fork_preserved s parent child :
  counted no_extra s -> (parent < length (ofile s))%nat -> parent <> child ->
  ofile s !! child = Some (replicate NOFILE None) -> preserved (fork_files parent child) s.
Proof.
  intros Hc [t Ht]%lookup_lt_is_Some_2 Hne Hch. eapply wp_fork_files; [done|exact Ht|done|done|].
  intros s' Hc' Eo Hl. by rewrite Eo, length_insert.
Qed.
End rules.

(** ** Any sequence of descriptor operations *)

Inductive fop :=
| Dup (p : nat) (fd : Z)
| CloseFd (p : nat) (fd : Z)
| OpenF (p ip : nat) (omode : Z)
| PipeF (p : nat) (page : option nat)
| ForkF (parent child : nat)
| ExitF (p : nat).

Definition run_op (op : fop) : M files () :=
  match op with
  | Dup p fd => _ ← sys_dup p fd; mret ()
  | CloseFd p fd => _ ← sys_close p fd; mret ()
  | OpenF p ip omode => _ ← open_file p ip omode; mret ()
  | PipeF p page => _ ← sys_pipe p page; mret ()
  | ForkF parent child => fork_files parent child
  | ExitF p => _ ← exit_files p; mret ()
  end.

(** The process exists; a child starts without descriptors. *)
Definition op_ok (s : files) (op : fop) : Prop :=
  match op with
  | Dup p _ | CloseFd p _ | OpenF p _ _ | PipeF p _ | ExitF p => (p < length (ofile s))%nat
  | ForkF parent child =>
      (parent < length (ofile s))%nat /\ parent <> child /\ ofile s !! child = Some (replicate NOFILE None)
  end.

Definition fstep (s s' : files) : Prop := exists op, op_ok s op /\ run_op op s = Ok () s'.

Definition boot_files (nproc : nat) : files :=
  mk_files (replicate NFILE (mk_file FD_NONE 0 false false 0 0 0)) (replicate nproc (replicate NOFILE None)).

Lemma run_op_preserved s op : counted no_extra s -> op_ok s op -> preserved (run_op op) s.
Proof.
  assert (Hseq : forall A (m : M files A), preserved m s -> preserved (_ ← m; mret ()) s).
  { intros A m Hm. unfold preserved in *. wp_step. eapply wp_conseq; [exact Hm|]. intros a s' H. by apply wp_ret. }
  intros Hc Hok. destruct op; simpl in Hok; simpl run_op.
  - by apply Hseq, dup_preserved.
  - by apply Hseq, close_preserved.
  - by apply Hseq, open_preserved.
  - by apply Hseq, pipe_preserved.
  - destruct Hok as (? & ? & ?). by apply fork_preserved.
  - apply Hseq. unfold exit_files. apply exit_loop_preserved; [done|done|].
    apply Forall_forall. intros fd Hfd. apply elem_of_seq in Hfd. lia.
Qed.

Lemma refs_none f n m : refs f (replicate n (replicate m None)) = 0%nat.
Proof.
  unfold refs. induction n as [|n IH]; [done|]. cbn [replicate concat]. rewrite filter_app, length_app, IH. clear IH.
  induction m as [|m IHm]; [done|]. cbn [replicate]. rewrite filter_cons_False by done. exact IHm.
Qed.

Lemma boot_counted nproc : counted no_extra (boot_files nproc).
Proof.
  split; cbn [boot_files ft ofile]; [by apply Forall_replicate| |].
  - intros f x [-> _]%lookup_replicate. by rewrite refs_none.
  - intros f. rewrite refs_none. lia.
Qed.

(** C22: Reference counts of open files.  After any sequence of opens, pipes,
    dups, closes, forks and exits of any processes, failing ones included,
    the count of every file in the table is the number of descriptors that
    point to it; so a slot is reused, and a pipe end or inode released, only
    when no descriptor is left, and no such operation ever panics. *)
Theorem file_refcounts nproc s :
  rtc fstep (boot_files nproc) s ->
  (forall f x, ft s !! f = Some x -> f_ref x = Z.of_nat (refs f (ofile s)))
  /\ (forall f, (0 < refs f (ofile s))%nat -> exists x, ft s !! f = Some x /\ 0 < f_ref x)
  /\ (forall op, op_ok s op -> exists s', run_op op s = Ok () s').
Proof.
  intros Hr.
  assert (Hc : counted no_extra s).
  { apply (rtc_invariant fstep (counted no_extra) (boot_files nproc) s); [| |done].
    - apply boot_counted.
    - intros s1 s2 H1 (op & Hok & Hrun). pose proof (run_op_preserved s1 op H1 Hok) as Hp.
      apply wp_elim in Hp as (a & s' & Hrun' & Hc & _). rewrite Hrun in Hrun'. injection Hrun' as _ <-. exact Hc. }
  split; [|split].
  - intros f x Hx. rewrite (ct_ref _ _ Hc _ _ Hx). lia.
  - intros f Hf. destruct (lookup_lt_is_Some_2 _ _ (ct_in _ _ Hc _ Hf)) as [x Hx].
    exists x. split; [done|]. rewrite (ct_ref _ _ Hc _ _ Hx). lia.
  - intros op Hok. pose proof (run_op_preserved s op Hc Hok) as Hp.
    apply wp_elim in Hp as ([] & s' & Hrun' & _). by exists s'.
Qed.

Lemma file_refcounts_witness :
  exists s, rtc fstep (boot_files 2) s /\ ofile s !! 0%nat = Some (Some 0%nat :: Some 0%nat :: replicate 14 None)
    /\ exists s', run_op (ExitF 0) s = Ok () s'.
Proof.
  destruct (run_op (OpenF 0 7 2) (boot_files 2)) as [[] s1| |] eqn:E1; [|vm_compute in E1; discriminate..].
  destruct (run_op (Dup 0 0) s1) as [[] s2| |] eqn:E2; [|vm_compute in E1; injection E1 as <-; vm_compute in E2; discriminate..].
  assert (Hr : rtc fstep (boot_files 2) s2).
  { eapply rtc_l; [exists (OpenF 0 7 2); split; [simpl; lia|exact E1]|].
    apply rtc_once. exists (Dup 0 0). split; [|exact E2]. vm_compute in E1. injection E1 as <-. simpl. lia. }
  exists s2. split; [exact Hr|]. split.
  - vm_compute in E1. injection E1 as <-. vm_compute in E2. injection E2 as <-. reflexivity.
  - apply (proj2 (proj2 (file_refcounts 2 s2 Hr))).
    vm_compute in E1. injection E1 as <-. vm_compute in E2. injection E2 as <-. simpl. lia.
Defined.
