(* ===== verification/Proc.v ===== *)
(** The process table and context switches ([proc.c], [proc.h]).

    A [struct proc *] is the index of a slot of [ptable.proc] and a CPU is named
    by its local APIC id, as in [Spinlock], whose locks this file uses.  What a
    suspended kernel thread will do when it is switched to, which in the kernel
    is the contents of its stack at [p->context], is a [context].  A routine
    that gives up the CPU is cut in two there: the part up to [swtch] and the
    part after it. *)

From S2P Require Import Prelude CString Spinlock.

Definition NPROC : nat := 64.

Inductive procstate := UNUSED | EMBRYO | SLEEPING | RUNNABLE | RUNNING | ZOMBIE.
#[export] Instance procstate_eq_dec : EqDecision procstate.
Proof. solve_decision. Defined.

(** Sleep channels are addresses: of a [struct proc] in [wait], of anything
    else otherwise. *)
Inductive chan := CProc (p : nat) | CAddr (a : Z).
#[export] Instance chan_eq_dec : EqDecision chan.
Proof. solve_decision. Defined.

(** The lock [ptable.lock]; address 0 is the null pointer. *)
Definition PTLOCK : Z := 1.

(** What remains to be done by a caller of [sched], and by a thread that is
    not running: the code after [swtch] in [sched], with its local [intena],
    or [forkret]. *)
Inductive kcont := KYield | KSleep (lk : Z) | KExit.
Inductive context := CForkret | CSched (intena : bool) (k : kcont).

(** [p_tf] is the address of the trap frame on the kernel stack. *)
Record proc := mk_proc {
  p_sz : Z; p_pgdir : Z; p_kstack : Z; p_state : procstate; p_pid : Z; p_parent : option nat;
  p_tf : Z; p_context : context; p_chan : option chan; p_killed : bool; p_cwd : option nat; p_name : list Z
}.
#[export] Instance eta_proc : Settable proc := fun p =>
  mk_proc (p_sz p) (p_pgdir p) (p_kstack p) (p_state p) (p_pid p) (p_parent p) (p_tf p) (p_context p) (p_chan p)
    (p_killed p) (p_cwd p) (p_name p).
(** A slot of the zero-initialised table. *)
Definition zero_proc : proc := mk_proc 0 0 0 UNUSED 0 None 0 CForkret None false None (replicate 16 0).
#[export] Instance proc_inhabited : Inhabited proc := populate zero_proc.

(** [k_cproc] and [k_sched] are the fields [proc] and [scheduler] of each
    [struct cpu]: the process it runs, and where in its loop over the table
    the scheduler called [swtch].  [k_first] is the static variable of
    [forkret]. *)
Record kern := mk_kern {
  k_mach : mach; k_cproc : list (option nat); k_sched : list nat; k_ptab : list proc;
  k_initproc : option nat; k_nextpid : Z; k_first : bool
}.
#[export] Instance eta_kern : Settable kern := fun k =>
  mk_kern (k_mach k) (k_cproc k) (k_sched k) (k_ptab k) (k_initproc k) (k_nextpid k) (k_first k).

(** The routines of spinlock.c, on the machine of the kernel's state. *)
Definition onm {A} (m : M mach A) : M kern A := zoom k_mach (fun t s => s <| k_mach := t |>) m.
Definition kacquire (id l : Z) : M kern () := onm (acquire id l []).
Definition krelease (id l : Z) : M kern () := onm (release id l).

Definition getp {A} (p : nat) (f : proc -> A) : M kern A := gets (fun s => f (k_ptab s !!! p)).
Definition setp (p : nat) (f : proc -> proc) : M kern () :=
  modify (fun s => s <| k_ptab := <[p := f (k_ptab s !!! p)]> (k_ptab s) |>).

Definition pinit : M kern () := onm (setlock PTLOCK (fun l => l <| lk_locked := 0 |> <| lk_cpu := None |>)).

Definition myproc (id : Z) : M kern (option nat) :=
  onm (pushcli id);;
  c ← onm (mycpu id);
  p ← gets (fun s => k_cproc s !!! c);
  onm (popcli id);;
  mret p.

(** [curproc] where the code dereferences it. *)
Definition curproc (id : Z) : M kern nat :=
  p ← myproc id;
  match p with Some p => mret p | None => panic "null pointer" end.

(** ** The scheduler *)

(** One iteration of [for(;;)] up to the loop over the table. *)
Definition scheduler_top (id : Z) : M kern () :=
  onm (sti id);;
  kacquire id PTLOCK.

(** The body of the loop over the table at slot [i] up to [swtch]; it returns
    whether it switches to the process there. *)
Definition scheduler_try (id : Z) (i : nat) : M kern bool :=
  st ← getp i p_state;
  if negb (bool_decide (st = RUNNABLE)) then mret false else
  c ← onm (mycpu id);
  modify (fun s => s <| k_cproc := <[c := Some i]> (k_cproc s) |>);;
  setp i (fun p => p <| p_state := RUNNING |>);;
  modify (fun s => s <| k_sched := <[c := i]> (k_sched s) |>);;
  mret true.

(** After [swtch]: the slot the loop goes on with. *)
Definition scheduler_back (id : Z) : M kern nat :=
  c ← onm (mycpu id);
  modify (fun s => s <| k_cproc := <[c := None]> (k_cproc s) |>);;
  i ← gets (fun s => k_sched s !!! c);
  mret (S i).

(** [sched] up to [swtch], called by [k]. *)
Definition sched (id : Z) (k : kcont) : M kern () :=
  p ← curproc id;
  h ← onm (holding id PTLOCK);
  if negb h then panic "sched ptable.lock" else
  c ← onm (mycpu id);
  ncli ← onm (getcpu c c_ncli);
  if negb (ncli =? 1) then panic "sched locks" else
  st ← getp p p_state;
  if bool_decide (st = RUNNING) then panic "sched running" else
  fl ← onm (readeflags id);
  if fl : bool then panic "sched interruptible" else
  c ← onm (mycpu id);
  intena ← onm (getcpu c c_intena);
  setp p (fun x => x <| p_context := CSched intena k |>).

(** [sched] after [swtch]. *)
Definition sched_back (id : Z) (intena : bool) : M kern () :=
  c ← onm (mycpu id);
  onm (setcpu c (fun x => x <| c_intena := intena |>)).

Definition yield (id : Z) : M kern () :=
  kacquire id PTLOCK;;
  p ← curproc id;
  setp p (fun x => x <| p_state := RUNNABLE |>);;
  sched id KYield.
Definition yield_back (id : Z) : M kern () := krelease id PTLOCK.

(** [forkret] up to the initialisation of the file system by the first
    process, which it returns whether to do. *)
Definition forkret (id : Z) : M kern bool :=
  krelease id PTLOCK;;
  first ← gets k_first;
  when first (modify (fun s => s <| k_first := false |>));;
  mret first.

(** ** Sleep and wakeup *)

(** [sleep] up to [acquire(&ptable.lock)], [release(lk)], and [sched]. *)
Definition sleep_lock (id : Z) (lk : Z) : M kern () :=
  p ← myproc id;
  match p with
  | None => panic "sleep"
  | Some _ =>
      if lk =? 0 then panic "sleep without lk" else
      when (negb (lk =? PTLOCK)) (kacquire id PTLOCK)
  end.
Definition sleep_unlock (id : Z) (lk : Z) : M kern () :=
  when (negb (lk =? PTLOCK)) (krelease id lk).
Definition sleep_sched (id : Z) (ch : chan) (lk : Z) : M kern () :=
  p ← curproc id;
  setp p (fun x => x <| p_chan := Some ch |>);;
  setp p (fun x => x <| p_state := SLEEPING |>);;
  sched id (KSleep lk).
Definition sleep (id : Z) (ch : chan) (lk : Z) : M kern () :=
  sleep_lock id lk;;
  sleep_unlock id lk;;
  sleep_sched id ch lk.
(** [sleep] after [sched], up to [acquire(lk)]. *)
Definition sleep_back (id : Z) (lk : Z) : M kern () :=
  p ← curproc id;
  setp p (fun x => x <| p_chan := None |>);;
  when (negb (lk =? PTLOCK)) (krelease id PTLOCK).
Definition sleep_relock (id : Z) (lk : Z) : M kern () :=
  when (negb (lk =? PTLOCK)) (kacquire id lk).

(** [ch] is [None] for the null pointer. *)
Definition wakeup1 (ch : option chan) : M kern () :=
  forM (seq 0 NPROC) (fun i =>
    st ← getp i p_state;
    c ← getp i p_chan;
    when (bool_decide (st = SLEEPING) && bool_decide (c = ch)) (setp i (fun p => p <| p_state := RUNNABLE |>))).

Definition wakeup (id : Z) (ch : chan) : M kern () :=
  kacquire id PTLOCK;;
  wakeup1 (Some ch);;
  krelease id PTLOCK.

Definition kill (id pid : Z) : M kern Z :=
  kacquire id PTLOCK;;
  l ← gets k_ptab;
  match find_idx (fun p => p_pid p =? pid) l with
  | Some i =>
      setp i (fun p => p <| p_killed := true |>);;
      st ← getp i p_state;
      when (bool_decide (st = SLEEPING)) (setp i (fun p => p <| p_state := RUNNABLE |>));;
      krelease id PTLOCK;;
      mret 0
  | None => krelease id PTLOCK;; mret (-1)
  end.

(** ** Creating and reaping processes *)

(** The critical section of [allocproc]. *)
Definition alloc_slot (id : Z) : M kern (option nat) :=
  kacquire id PTLOCK;;
  l ← gets k_ptab;
  match find_idx (fun p => bool_decide (p_state p = UNUSED)) l with
  | None => krelease id PTLOCK;; mret None
  | Some i =>
      setp i (fun p => p <| p_state := EMBRYO |>);;
      pid ← gets k_nextpid;
      setp i (fun p => p <| p_pid := pid |>);;
      modify (fun s => s <| k_nextpid := s32 (k_nextpid s + 1) |>);;
      krelease id PTLOCK;;
      mret (Some i)
  end.

(** The error paths of [allocproc] and [fork] give the slot back. *)
Definition free_slot (np : nat) : M kern () :=
  setp np (fun p => p <| p_kstack := 0 |>);;
  setp np (fun p => p <| p_state := UNUSED |>).

(** [allocproc] with the kernel stack [kstack]: where the trap frame (76 bytes)
    is, and a context that starts at [forkret]. *)
Definition KSTACKSIZE : Z := 4096.
Definition set_stack (np : nat) (kstack : Z) : M kern () :=
  setp np (fun p => p <| p_kstack := kstack |>);;
  setp np (fun p => p <| p_tf := u32 (kstack + KSTACKSIZE - 76) |>);;
  setp np (fun p => p <| p_context := CForkret |>).

(** [fork] makes the child known: it becomes a child of [parent], and
    [RUNNABLE] under the lock. *)
Definition adopt (parent np : nat) : M kern () :=
  sz ← getp parent p_sz;
  setp np (fun p => p <| p_sz := sz |>);;
  setp np (fun p => p <| p_parent := Some parent |>).
Definition make_runnable (id : Z) (np : nat) : M kern () :=
  kacquire id PTLOCK;;
  setp np (fun p => p <| p_state := RUNNABLE |>);;
  krelease id PTLOCK.

(** The loop of [exit] that passes the children to [init]. *)
Definition reparent (p : nat) : M kern () :=
  ini ← gets k_initproc;
  forM (seq 0 NPROC) (fun i =>
    par ← getp i p_parent;
    when (bool_decide (par = Some p)) (
      setp i (fun x => x <| p_parent := ini |>);;
      st ← getp i p_state;
      when (bool_decide (st = ZOMBIE)) (wakeup1 (CProc <$> ini)))).

(** [exit] after its files are closed. *)
Definition exit_table (id : Z) : M kern () :=
  p ← curproc id;
  kacquire id PTLOCK;;
  par ← getp p p_parent;
  wakeup1 (CProc <$> par);;
  reparent p;;
  setp p (fun x => x <| p_state := ZOMBIE |>);;
  sched id KExit.

(** The scan of [wait], with [ptable.lock] held: the first zombie child, and
    whether there are children. *)
Definition wait_zombie (p : nat) : M kern (option nat) :=
  l ← gets k_ptab;
  mret (find_idx (fun x => bool_decide (p_parent x = Some p) && bool_decide (p_state x = ZOMBIE)) l).
Definition wait_havekids (p : nat) : M kern bool :=
  l ← gets k_ptab;
  mret (existsb (fun x => bool_decide (p_parent x = Some p)) l).

(** The table's part of reaping a zombie; the stack and the page table are
    freed by the caller. *)
Definition reap (z : nat) : M kern Z :=
  pid ← getp z p_pid;
  setp z (fun x => x <| p_kstack := 0 |>);;
  setp z (fun x => x <| p_pid := 0 |>);;
  setp z (fun x => x <| p_parent := None |>);;
  setp z (fun x => x <| p_name := <[0%nat := 0]> (p_name x) |>);;
  setp z (fun x => x <| p_killed := false |>);;
  setp z (fun x => x <| p_state := UNUSED |>);;
  mret pid.

(** One round of the [for(;;)] of [wait]: it returns, or goes to sleep. *)
Inductive waitres := WReaped (pid : Z) (z : proc) | WNone | WSleeps.
Definition wait_round (id : Z) : M kern waitres :=
  p ← curproc id;
  o ← wait_zombie p;
  match o with
  | Some z =>
      x ← getp z (fun x => x);
      pid ← reap z;
      krelease id PTLOCK;;
      mret (WReaped pid x)
  | None =>
      kids ← wait_havekids p;
      killed ← getp p p_killed;
      if negb kids || killed then krelease id PTLOCK;; mret WNone
      else sleep id (CProc p) PTLOCK;; mret WSleeps
  end.
