(* ===== verification/LockRep.v ===== *)
(** Spin locks at the granularity of whole calls.

    [mach_rep ids m h d b]: on the machine [m] CPU [c] holds exactly the locks
    [h c], innermost first, is inside [d c] more pairs of [pushcli] and
    [popcli], and will have interrupts on ([b c]) once it is out of all of
    them.  The routines of spinlock.c move the machine from one such state to
    another; [Spinlock] justifies looking at whole calls. *)

From S2P Require Import Prelude CString Spinlock.

Record mach_rep (ids : list Z) (m : mach) (h : nat -> list Z) (d : nat -> nat) (b : nat -> bool) : Prop := {
  mr_ids : NoDup ids;
  mr_len : length (m_cpus m) = length ids;
  mr_cpu : forall c id, ids !! c = Some id -> exists x, m_cpus m !! c = Some x /\ c_apicid x = id /\
    c_ncli x = Z.of_nat (length (h c) + d c) /\ ((length (h c) + d c <> 0)%nat -> c_intena x = b c) /\
    m_if m id = (length (h c) + d c =? 0)%nat && b c;
  mr_locked : forall l, lk_locked (m_locks m l) <> 0 <-> exists c, (c < length ids)%nat /\ l ∈ h c;
  mr_owner : forall l c, lk_cpu (m_locks m l) = Some c <-> (c < length ids)%nat /\ l ∈ h c;
  mr_nodup : forall c, (c < length ids)%nat -> NoDup (h c)
}.

Notation no_depth := (fun _ : nat => O).

Section rep.
Context {ids : list Z}.
Implicit Types (m : mach) (h : nat -> list Z) (d : nat -> nat) (b : nat -> bool).

Lemma mr_excl m h d b l c c' :
  mach_rep ids m h d b -> (c < length ids)%nat -> (c' < length ids)%nat -> l ∈ h c -> l ∈ h c' -> c = c'.
Proof.
  intros H Hc Hc' H1 H2. pose proof (proj2 (mr_owner _ _ _ _ _ H l c) (conj Hc H1)) as E1.
  pose proof (proj2 (mr_owner _ _ _ _ _ H l c') (conj Hc' H2)) as E2. congruence.
Qed.

Lemma mr_find m h d b c id :
  mach_rep ids m h d b -> ids !! c = Some id -> find_idx (fun x => c_apicid x =? id) (m_cpus m) = Some c.
Proof.
  intros H Hc. apply find_idx_Some. split.
  - destruct (mr_cpu _ _ _ _ _ H c id Hc) as (x & Hx & Ha & _). exists x. split; [done|]. by apply Z.eqb_eq.
  - intros j y Hj Hy. pose proof (lookup_lt_Some _ _ _ Hy) as Hlt. rewrite (mr_len _ _ _ _ _ H) in Hlt.
    apply lookup_lt_is_Some in Hlt as [idj Hidj].
    destruct (mr_cpu _ _ _ _ _ H j idj Hidj) as (x & Hx & Ha & _).
    assert (x = y) as -> by congruence. apply Z.eqb_neq. rewrite Ha. intros ->.
    pose proof (NoDup_lookup ids j c id (mr_ids _ _ _ _ _ H) Hidj Hc). lia.
Qed.

Lemma mr_mycpu m h d b c id :
  mach_rep ids m h d b -> ids !! c = Some id -> m_if m id = false -> mycpu id m = Ok c m.
Proof.
  intros H Hc Hif. unfold mycpu, mbind, M_bind, readeflags, gets. rewrite Hif. by rewrite (mr_find _ _ _ _ c _ H).
Qed.

(** Inside [pushcli] interrupts are off. *)
Lemma mr_if_off m h d b c id :
  mach_rep ids m h d b -> ids !! c = Some id -> (length (h c) + d c <> 0)%nat -> m_if m id = false.
Proof.
  intros H Hc Hne. destruct (mr_cpu _ _ _ _ _ H c id Hc) as (x & _ & _ & _ & _ & ->).
  by rewrite (proj2 (Nat.eqb_neq _ _)).
Qed.

(** A change of one CPU's counter and flags. *)
Lemma mr_set_cpu m h d b c id x x' dc bc :
  mach_rep ids m h d b -> ids !! c = Some id -> m_cpus m !! c = Some x -> c_apicid x' = id ->
  c_ncli x' = Z.of_nat (length (h c) + dc) -> ((length (h c) + dc <> 0)%nat -> c_intena x' = bc) ->
  mach_rep ids (m <| m_cpus := <[c := x']> (m_cpus m) |> <| m_if := upd (m_if m) id ((length (h c) + dc =? 0)%nat && bc) |>)
    h (updn d c dc) (updn b c bc).
Proof.
  intros H Hc Hx Ha Hn Hi. pose proof (lookup_lt_Some _ _ _ Hx) as Hlt.
  split; cbn; try apply H; [by rewrite length_insert, (mr_len _ _ _ _ _ H)|].
  intros c' id' Hc'. destruct (decide (c' = c)) as [->|Hne].
  - assert (id' = id) as -> by congruence. exists x'. by rewrite list_lookup_insert_eq, !updn_eq, upd_eq.
  - assert (id' <> id) by (intros ->; by pose proof (NoDup_lookup ids c' c id (mr_ids _ _ _ _ _ H) Hc' Hc)).
    destruct (mr_cpu _ _ _ _ _ H c' id' Hc') as (y & Hy). exists y. by rewrite list_lookup_insert_ne, !updn_ne, upd_ne.
Qed.

Lemma mach_rep_ext m h d b h' d' b' :
  mach_rep ids m h d b -> (forall c, (c < length ids)%nat -> h' c = h c /\ d' c = d c /\ b' c = b c) -> mach_rep ids m h' d' b'.
Proof.
  intros H E. split; try apply H.
  - intros c id Hc. destruct (E c (lookup_lt_Some _ _ _ Hc)) as (-> & -> & ->). by apply (mr_cpu _ _ _ _ _ H).
  - intros l. rewrite (mr_locked _ _ _ _ _ H). split; intros (c & Hc & Hl); exists c; (split; [done|]); destruct (E c Hc) as [Eh _]; congruence.
  - intros l c. rewrite (mr_owner _ _ _ _ _ H). split; intros (Hc & Hl); (split; [done|]); destruct (E c Hc) as [Eh _]; congruence.
  - intros c Hc. destruct (E c Hc) as [-> _]. by apply (mr_nodup _ _ _ _ _ H).
Qed.

(** The machine matters only up to its fields. *)
Lemma mach_rep_fields m m' h d b :
  mach_rep ids m h d b -> m_cpus m' = m_cpus m -> (forall id, id ∈ ids -> m_if m' id = m_if m id) -> m_locks m' = m_locks m ->
  mach_rep ids m' h d b.
Proof.
  intros H Ec Ei El. split; rewrite ?Ec, ?El; try apply H.
  intros c id Hc. rewrite Ei by (by eapply list_elem_of_lookup_2). by apply (mr_cpu _ _ _ _ _ H).
Qed.

Section one_cpu.
Variables (m : mach) (h : nat -> list Z) (d : nat -> nat) (b : nat -> bool) (c : nat) (id : Z).
Hypothesis rep : mach_rep ids m h d b.
Hypothesis here : ids !! c = Some id.

Lemma mr_sti : (length (h c) + d c = 0)%nat -> exists m', sti id m = Ok () m' /\ mach_rep ids m' h d (updn b c true).
Proof.
  intros E0. eexists. split; [reflexivity|]. destruct (mr_cpu _ _ _ _ _ rep c id here) as (x & Hx & Ha & Hn & _).
  pose proof (mr_set_cpu m h d b c id x x (d c) true rep here Hx Ha Hn ltac:(lia)) as Hr.
  rewrite (list_insert_id _ _ _ Hx), E0 in Hr. simpl in Hr.
  eapply mach_rep_ext; [exact Hr|]. intros c' _. unfold updn. case_decide; by subst.
Qed.

Lemma mr_cli : (length (h c) + d c = 0)%nat -> exists m', cli id m = Ok () m' /\ mach_rep ids m' h d (updn b c false).
Proof.
  intros E0. eexists. split; [reflexivity|]. destruct (mr_cpu _ _ _ _ _ rep c id here) as (x & Hx & Ha & Hn & _).
  pose proof (mr_set_cpu m h d b c id x x (d c) false rep here Hx Ha Hn ltac:(lia)) as Hr.
  rewrite (list_insert_id _ _ _ Hx), E0 in Hr. simpl in Hr.
  eapply mach_rep_ext; [exact Hr|]. intros c' _. unfold updn. case_decide; by subst.
Qed.

Lemma mr_readeflags : readeflags id m = Ok ((length (h c) + d c =? 0)%nat && b c) m.
Proof. unfold readeflags, gets. by destruct (mr_cpu _ _ _ _ _ rep c id here) as (x & _ & _ & _ & _ & ->). Qed.

Lemma mr_ncli : getcpu c c_ncli m = Ok (Z.of_nat (length (h c) + d c)) m.
Proof.
  destruct (mr_cpu _ _ _ _ _ rep c id here) as (x & Hx & _ & <- & _).
  unfold getcpu, gets. by rewrite (list_lookup_total_correct _ _ _ Hx).
Qed.

Lemma mr_intena : (length (h c) + d c <> 0)%nat -> getcpu c c_intena m = Ok (b c) m.
Proof.
  intros Hne. destruct (mr_cpu _ _ _ _ _ rep c id here) as (x & Hx & _ & _ & Hi & _).
  unfold getcpu, gets. by rewrite (list_lookup_total_correct _ _ _ Hx), Hi.
Qed.

Lemma mr_set_intena v :
  (length (h c) + d c <> 0)%nat ->
  exists m', setcpu c (fun x => x <| c_intena := v |>) m = Ok () m' /\ mach_rep ids m' h d (updn b c v).
Proof.
  intros Hne. eexists. split; [reflexivity|]. destruct (mr_cpu _ _ _ _ _ rep c id here) as (x & Hx & Ha & Hn & Hi & Hif).
  pose proof (mr_set_cpu m h d b c id x (mk_cpu (c_apicid x) (c_ncli x) v) (d c) v rep here Hx Ha Hn (fun _ => eq_refl)) as Hr.
  rewrite (list_lookup_total_correct _ _ _ Hx). rewrite (proj2 (Nat.eqb_neq _ _) Hne) in *. simpl in Hr, Hif.
  eapply mach_rep_ext; [eapply mach_rep_fields; [exact Hr|done| |done]|].
  - intros id' _. cbn. unfold upd. case (Z.eqb_spec id' id); [by intros ->|done].
  - intros c' _. unfold updn. case_decide; by subst.
Qed.

Lemma mr_holding l : (length (h c) + d c <> 0)%nat -> holding id l m = Ok (bool_decide (l ∈ h c)) m.
Proof.
  intros Hne. unfold holding, mbind, M_bind, gets. pose proof (lookup_lt_Some _ _ _ here) as Hlt.
  destruct (Z.eqb_spec (lk_locked (m_locks m l)) 0) as [E|E].
  - rewrite bool_decide_eq_false_2; [done|]. intros Hl.
    by apply (proj2 (mr_locked _ _ _ _ _ rep l)) in E; [|exists c].
  - rewrite (mr_mycpu m h d b c id rep here) by (by eapply mr_if_off). f_equal.
    apply bool_decide_ext. rewrite (mr_owner _ _ _ _ _ rep l c). naive_solver.
Qed.

Lemma mr_pushcli : exists m', pushcli id m = Ok () m' /\ mach_rep ids m' h (updn d c (S (d c))) b.
Proof.
  destruct (mr_cpu _ _ _ _ _ rep c id here) as (x & Hx & Ha & Hn & Hi & Hif).
  pose proof (lookup_lt_Some _ _ _ Hx) as Hlt.
  set (x' := mk_cpu (c_apicid x) (c_ncli x + 1) (if c_ncli x =? 0 then m_if m id else c_intena x)).
  exists (m <| m_cpus := <[c := x']> (m_cpus m) |> <| m_if := upd (m_if m) id false |>). split.
  - set (m1 := m <| m_if := upd (m_if m) id false |>).
    assert (Hmy : mycpu id m1 = Ok c m1).
    { unfold mycpu, mbind, M_bind, readeflags, gets. replace (m_if m1 id) with false by (symmetry; apply upd_eq).
      change (m_cpus m1) with (m_cpus m); by rewrite (mr_find m _ _ _ c id rep here). }
    unfold pushcli, mbind, M_bind, readeflags, gets, cli, modify. fold m1.
    unfold pushcli_count, mbind, M_bind. rewrite Hmy. unfold getcpu, setcpu, when, gets, modify.
    replace (m_cpus m1 !!! c) with x by (symmetry; by apply list_lookup_total_correct).
    unfold x'. destruct (c_ncli x =? 0) eqn:E; cbn;
      rewrite ?list_lookup_total_insert_eq, ?list_insert_insert_eq, ?(list_lookup_total_correct _ _ _ Hx) by done;
      reflexivity.
  - assert (Hcl : mach_rep ids m h d b) by exact rep.
    pose proof (mr_set_cpu m h d b c id x x' (S (d c)) (b c) Hcl here Hx Ha) as Hr.
    eapply mach_rep_ext; [eapply mach_rep_fields; [apply Hr|done| |done]|].
    + simpl. lia.
    + intros _. simpl. destruct (Z.eqb_spec (c_ncli x) 0) as [E|E]; [|apply Hi; lia].
      rewrite Hif. replace (length (h c) + d c =? 0)%nat with true by (symmetry; apply Nat.eqb_eq; lia). done.
    + intros id' _. cbn. by rewrite (proj2 (Nat.eqb_neq _ _)) by lia.
    + intros c' _. unfold updn. case_decide; by subst.
Qed.

Lemma mr_popcli : (0 < d c)%nat -> exists m', popcli id m = Ok () m' /\ mach_rep ids m' h (updn d c (pred (d c))) b.
Proof.
  intros Hd. destruct (mr_cpu _ _ _ _ _ rep c id here) as (x & Hx & Ha & Hn & Hi & Hif).
  pose proof (lookup_lt_Some _ _ _ Hx) as Hlt.
  assert (Hoff : m_if m id = false) by (eapply mr_if_off; [done|done|lia]).
  set (x' := mk_cpu (c_apicid x) (c_ncli x - 1) (c_intena x)).
  exists (m <| m_cpus := <[c := x']> (m_cpus m) |>
            <| m_if := if (c_ncli x - 1 =? 0) && c_intena x then upd (m_if m) id true else m_if m |>). split.
  - unfold popcli, mbind, M_bind, readeflags, gets. rewrite Hoff, (mr_mycpu m h d b c id rep here Hoff).
    unfold getcpu, setcpu, gets, when, modify. simpl.
    rewrite (list_lookup_total_correct _ _ _ Hx). cbn. rewrite !list_lookup_total_insert_eq by done. cbn.
    rewrite (proj2 (Z.ltb_ge _ _)) by lia. cbn. rewrite list_lookup_total_insert_eq by done. cbn.
    destruct ((c_ncli x - 1 =? 0) && c_intena x); reflexivity.
  - pose proof (mr_set_cpu m h d b c id x x' (pred (d c)) (b c) rep here Hx Ha) as Hr.
    eapply mach_rep_ext; [eapply mach_rep_fields; [apply Hr|done| |done]|].
    + simpl. lia.
    + intros _. simpl. apply Hi. lia.
    + intros id' _. cbn. rewrite Hi by lia.
      destruct (Z.eqb_spec (c_ncli x - 1) 0) as [E|E].
      * rewrite (proj2 (Nat.eqb_eq _ _)) by lia. simpl. destruct (b c); [done|].
        unfold upd. case (Z.eqb_spec id' id); [by intros ->|done].
      * rewrite (proj2 (Nat.eqb_neq _ _)) by lia. simpl. unfold upd. case (Z.eqb_spec id' id); [by intros ->|done].
    + intros c' _. unfold updn. case_decide; by subst.
Qed.
End one_cpu.

(** Only the lock [l] changes: it goes to or from CPU [c], against one level of
    [pushcli]. *)
Lemma mr_set_lock m m' h d b c l hc dc :
  mach_rep ids m h d b -> (c < length ids)%nat -> m_cpus m' = m_cpus m -> m_if m' = m_if m ->
  (forall l', l' <> l -> m_locks m' l' = m_locks m l' /\ (l' ∈ hc <-> l' ∈ h c)) ->
  (length hc + dc = length (h c) + d c)%nat -> NoDup hc ->
  (forall c', (c' < length ids)%nat -> c' <> c -> l ∉ h c') ->
  (l ∈ hc /\ lk_locked (m_locks m' l) <> 0 /\ lk_cpu (m_locks m' l) = Some c \/
   l ∉ hc /\ lk_locked (m_locks m' l) = 0 /\ lk_cpu (m_locks m' l) = None) ->
  mach_rep ids m' (updn h c hc) (updn d c dc) b.
Proof.
  intros H Hc Ec Ei Ho Hlen Hnd Hfree Hl.
  assert (E : forall l' c', l' <> l -> l' ∈ updn h c hc c' <-> l' ∈ h c').
  { intros l' c' Hne. unfold updn. case_decide; [subst|done]. by apply Ho. }
  assert (El : forall c', (c' < length ids)%nat -> l ∈ updn h c hc c' <-> c' = c /\ l ∈ hc).
  { intros c' Hc'. unfold updn. case_decide; [naive_solver|]. split; [|naive_solver]. intros Hx. by destruct (Hfree c' Hc'). }
  split; rewrite ?Ec, ?Ei; try apply H.
  - intros c' id' Hc'. destruct (mr_cpu _ _ _ _ _ H c' id' Hc') as (x & Hx). exists x. unfold updn.
    case_decide; [subst; by rewrite Hlen|done].
  - intros l'. destruct (decide (l' = l)) as [->|Hne].
    + split.
      * intros Hk. exists c. split; [done|]. apply El; [done|]. naive_solver.
      * intros (c' & Hc' & Hin). apply El in Hin; [|done]. naive_solver.
    + destruct (Ho l' Hne) as [-> _]. rewrite (mr_locked _ _ _ _ _ H). by setoid_rewrite E.
  - intros l' c'. destruct (decide (l' = l)) as [->|Hne].
    + split.
      * intros Hk. assert (c' = c) as -> by naive_solver. split; [done|]. apply El; [done|]. naive_solver.
      * intros (Hc' & Hin). apply El in Hin as [-> ?]; [|done]. naive_solver.
    + destruct (Ho l' Hne) as [-> _]. rewrite (mr_owner _ _ _ _ _ H). by rewrite E.
  - intros c' Hc'. unfold updn. case_decide; [done|]. by apply (mr_nodup _ _ _ _ _ H).
Qed.

Lemma updn_updn {V} (f : nat -> V) k v w k' : updn (updn f k v) k w k' = updn f k w k'.
Proof. unfold updn. by case_decide. Qed.

Lemma mr_acquire m h d b c id l pcs :
  mach_rep ids m h d b -> ids !! c = Some id -> (forall c', (c' < length ids)%nat -> l ∉ h c') ->
  exists m', acquire id l pcs m = Ok () m' /\ mach_rep ids m' (updn h c (l :: h c)) d b.
Proof.
  intros H Hc Hfree. pose proof (lookup_lt_Some _ _ _ Hc) as Hlt.
  destruct (mr_pushcli m h d b c id H Hc) as (m1 & Hp & H1).
  assert (Hd : (length (h c) + updn d c (S (d c)) c <> 0)%nat) by (rewrite updn_eq; lia).
  assert (Hoff : m_if m1 id = false) by (by eapply mr_if_off).
  assert (Hz : lk_locked (m_locks m1 l) = 0).
  { destruct (decide (lk_locked (m_locks m1 l) = 0)) as [|Hn]; [done|].
    apply (mr_locked _ _ _ _ _ H1) in Hn as (c' & Hc' & Hl). by destruct (Hfree c'). }
  set (m2 := m1 <| m_locks := upd (m_locks m1) l ((m_locks m1 l) <| lk_locked := 1 |>) |>).
  assert (Hmy : mycpu id m2 = Ok c m2).
  { unfold mycpu, mbind, M_bind, readeflags, gets. change (m_if m2 id) with (m_if m1 id). rewrite Hoff.
    change (m_cpus m2) with (m_cpus m1). by rewrite (mr_find m1 _ _ _ c id H1 Hc). }
  eexists. split.
  - unfold acquire. unfold mbind, M_bind. rewrite Hp, (mr_holding m1 _ _ _ c id H1 Hc l Hd).
    rewrite bool_decide_eq_false_2 by (by apply Hfree). unfold xchg, mbind, M_bind, gets, mret, M_ret, setlock, modify.
    fold m2. rewrite Hz. change (negb (0 =? 0)) with false. cbv iota. cbv beta. rewrite Hmy. reflexivity.
  - eapply mach_rep_ext; [eapply (mr_set_lock m1 _ h _ b c l (l :: h c) (d c) H1 Hlt)|]; try done.
    + intros l' Hne. cbn. rewrite !upd_ne by done. split; [done|]. set_solver.
    + simpl. rewrite updn_eq. lia.
    + constructor; [by apply Hfree|]. by apply (mr_nodup _ _ _ _ _ H).
    + intros c' Hc' _. by apply Hfree.
    + left. cbn. rewrite !upd_eq. cbn. set_solver.
    + intros c' _. split; [done|]. split; [|done]. unfold updn. by repeat case_decide; subst.
Qed.

(** A call of [acquire] that returns found the lock free; it never panics on
    a lock its CPU does not hold. *)
Lemma mr_acquire_inv m h d b c id l pcs :
  mach_rep ids m h d b -> ids !! c = Some id -> l ∉ h c ->
  (forall e, acquire id l pcs m <> Panic e) /\
  forall u m', acquire id l pcs m = Ok u m' -> forall c', (c' < length ids)%nat -> l ∉ h c'.
Proof.
  intros H Hc Hl. destruct (mr_pushcli m h d b c id H Hc) as (m1 & Hp & H1).
  assert (Hd : (length (h c) + updn d c (S (d c)) c <> 0)%nat) by (rewrite updn_eq; lia).
  destruct (decide (lk_locked (m_locks m1 l) = 0)) as [Hz|Hz].
  - assert (Hfree : forall c', (c' < length ids)%nat -> l ∉ h c').
    { intros c' Hc' Hin. by apply (proj2 (mr_locked _ _ _ _ _ H1 l)) in Hz; [|exists c']. }
    split; [|done]. destruct (mr_acquire m h d b c id l pcs H Hc Hfree) as (m' & -> & _). done.
  - assert (Hb : exists m', acquire id l pcs m = Blocked m').
    { unfold acquire, mbind, M_bind. rewrite Hp, (mr_holding m1 _ _ _ c id H1 Hc l Hd).
      rewrite bool_decide_eq_false_2 by done. unfold xchg, mbind, M_bind, gets, mret, M_ret, setlock, modify.
      rewrite (proj2 (Z.eqb_neq _ _) Hz). eexists. reflexivity. }
    destruct Hb as [m' ->]. done.
Qed.

Lemma mr_release m h d b c id l :
  mach_rep ids m h d b -> ids !! c = Some id -> l ∈ h c ->
  exists m', release id l m = Ok () m' /\ mach_rep ids m' (updn h c (filter (.≠ l) (h c))) d b.
Proof.
  intros H Hc Hl. pose proof (lookup_lt_Some _ _ _ Hc) as Hlt.
  assert (Hd : (length (h c) + d c <> 0)%nat) by (destruct (h c); [set_solver|simpl; lia]).
  assert (Hlen : (length (filter (.≠ l) (h c)) + S (d c) = length (h c) + d c)%nat).
  { pose proof (mr_nodup _ _ _ _ _ H c Hlt) as Hnd. clear -Hl Hnd.
    induction (h c) as [|k hs IH]; [set_solver|]. apply NoDup_cons in Hnd as [Hk Hnd]. destruct (decide (k = l)) as [->|Hne].
    - rewrite filter_cons_False by (intros Hx; by apply Hx). simpl. f_equal.
      assert (filter (.≠ l) hs = hs) as ->; [|lia]. clear -Hk. induction hs as [|a hs IH]; [done|].
      rewrite filter_cons_True by set_solver. f_equal. apply IH. set_solver.
    - rewrite filter_cons_True by done. simpl. rewrite <- IH; [lia|set_solver|done]. }
  set (k1 := (m_locks m l) <| lk_pcs := <[0%nat := 0]> (lk_pcs (m_locks m l)) |>).
  set (m1 := m <| m_locks := upd (upd (upd (m_locks m) l k1) l (k1 <| lk_cpu := None |>)) l (k1 <| lk_cpu := None |> <| lk_locked := 0 |>) |>).
  assert (H1 : mach_rep ids m1 (updn h c (filter (.≠ l) (h c))) (updn d c (S (d c))) b).
  { apply (mr_set_lock m m1 h d b c l); try done.
    - intros l' Hne. cbn. rewrite !upd_ne by done. split; [done|]. rewrite list_elem_of_filter. naive_solver.
    - apply NoDup_filter, (mr_nodup _ _ _ _ _ H c Hlt).
    - intros c' Hc' Hne Hin. apply Hne. by apply (mr_excl m h d b l c' c H).
    - right. cbn. rewrite !upd_eq. split; [|done]. rewrite list_elem_of_filter. naive_solver. }
  destruct (mr_popcli m1 _ _ b c id H1 Hc) as (m2 & Hp & H2); [rewrite updn_eq; lia|].
  exists m2. split.
  - unfold release, mbind, M_bind. rewrite (mr_holding m h d b c id H Hc l Hd), bool_decide_eq_true_2 by done.
    cbv beta iota delta [negb setlock modify]. rewrite <- Hp. unfold m1, k1. cbn. by rewrite !upd_eq.
  - eapply mach_rep_ext; [exact H2|]. intros c' _. split; [done|]. split; [|done]. unfold updn. by repeat case_decide; subst.
Qed.
End rep.
