(* ===== verification/ProcOps.v ===== *)
(** What the routines of [Proc] do to the process table, one CPU at a time:
    each is run symbolically under the lock state of [LockRep].  At the end, the kernel as a step relation: the
    schedulers of all CPUs and the threads of all processes. *)

From S2P Require Import Prelude CString Spinlock LockRep Proc.

(** [safe m s Q]: [m] does not panic; if it returns, [Q] holds.  It may spin
    on a lock another CPU holds. *)
Definition safe {S A} (m : M S A) (s : S) (Q : A -> S -> Prop) : Prop :=
  match m s with Ok a s' => Q a s' | Panic _ => False | Blocked _ => True end.

Lemma wp_safe {S A} (m : M S A) s Q : wp m s Q -> safe m s Q.
Proof. unfold wp, safe. by destruct (m s). Qed.

Lemma safe_bind {S A B} (m : M S A) (k : A -> M S B) s Q :
  safe m s (fun a s' => safe (k a) s' Q) -> safe (m ≫= k) s Q.
Proof. unfold safe, mbind, M_bind. by destruct (m s). Qed.

Lemma safe_ok {S A} (m : M S A) s Q a s' : safe m s Q -> m s = Ok a s' -> Q a s'.
Proof. unfold safe. intros H E. by rewrite E in H. Qed.

(** The entry of a slot; a slot out of range reads as zeroes. *)
Definition pt (s : kern) (p : nat) : proc := k_ptab s !!! p.
Definition cp (s : kern) (c : nat) : option nat := k_cproc s !!! c.

Lemma pt_insert (l : list proc) i x j :
  (i < length l)%nat -> <[i := x]> l !!! j = updn (fun j => l !!! j) i x j.
Proof.
  intros Hi. unfold updn. case_decide; [subst; by apply list_lookup_total_insert_eq|by apply list_lookup_total_insert_ne].
Qed.

(** [wakeup1] and the loop of [exit], on one slot. *)
Definition wake (ch : option chan) (x : proc) : proc :=
  if bool_decide (p_state x = SLEEPING) && bool_decide (p_chan x = ch) then x <| p_state := RUNNABLE |> else x.
Definition give (p : nat) (ini : option nat) (x : proc) : proc :=
  if bool_decide (p_parent x = Some p) then x <| p_parent := ini |> else x.

Lemma wake_parent ch x : p_parent (wake ch x) = p_parent x.
Proof. unfold wake. by case_match. Qed.

Lemma wake_zombie ch x : p_state (wake ch x) = ZOMBIE <-> p_state x = ZOMBIE.
Proof.
  unfold wake. case_match eqn:E; [|done]. apply andb_true_iff in E as [E _]. apply bool_decide_eq_true in E. rewrite E. done.
Qed.

Lemma wake_give ch p ini x : wake ch (give p ini x) = give p ini (wake ch x).
Proof. unfold give. rewrite wake_parent. case_match; [|done]. unfold wake. cbn. by case_match. Qed.

Lemma wake_wake ch x : wake ch (wake ch x) = wake ch x.
Proof. unfold wake at 2 3. case_match eqn:E; [done|]. unfold wake. by rewrite E. Qed.

Ltac wstep := cbv beta iota; wp_step.

(** Updating the table slot by slot. *)
Lemma wp_setp s p f (Q : () -> kern -> Prop) :
  Q () (s <| k_ptab := <[p := f (pt s p)]> (k_ptab s) |>) -> wp (setp p f) s Q.
Proof. intros HQ. unfold setp. by wstep. Qed.

(** A loop over the indices of a table. *)
Lemma wp_for {S} (I : nat -> S -> Prop) n (f : nat -> M S ()) s Q :
  I O s -> (forall i s, (i < n)%nat -> I i s -> wp (f i) s (fun _ s' => I (Datatypes.S i) s')) ->
  (forall s', I n s' -> Q () s') -> wp (forM (seq 0 n) f) s Q.
Proof.
  intros H0 Hstep HQ. apply (wp_forM (fun pre => I (length pre))); [done| |].
  - intros pre i post s' Hl HI.
    assert (Hi : i = length pre).
    { apply (f_equal (fun l => l !! length pre)) in Hl. rewrite list_lookup_middle in Hl by done.
      apply lookup_seq in Hl as [-> _]. lia. }
    assert (Hlt : (i < n)%nat).
    { apply (f_equal length) in Hl. rewrite length_seq, length_app in Hl. simpl in Hl. lia. }
    rewrite length_app. simpl. rewrite Nat.add_1_r. subst i. by apply Hstep.
  - intros s'. rewrite length_seq. apply HQ.
Qed.

Lemma tab_out (l : list proc) j : (length l <= j)%nat -> l !!! j = zero_proc.
Proof. intros H. by rewrite list_lookup_total_alt, (lookup_ge_None_2 l j H). Qed.

Lemma wp_wakeup1 s ch (Q : () -> kern -> Prop) :
  length (k_ptab s) = NPROC ->
  (forall tab, length tab = NPROC -> (forall j, tab !!! j = wake ch (pt s j)) -> Q () (s <| k_ptab := tab |>)) ->
  wp (wakeup1 ch) s Q.
Proof.
  intros Hlen HQ. unfold wakeup1.
  apply (wp_for (fun i s' => exists tab, s' = s <| k_ptab := tab |> /\ length tab = NPROC /\
    forall j, tab !!! j = if decide (j < i)%nat then wake ch (pt s j) else pt s j)).
  - exists (k_ptab s). split; [by destruct s|]. done.
  - intros i s' Hlt (tab & -> & Ht & Hj).
    unfold getp. wstep. wstep. wstep. wstep. cbn [k_ptab set_field]. specialize (Hj i) as Hji. rewrite decide_False in Hji by lia.
    assert (Hw : wake ch (pt s i) = if bool_decide (p_state (tab !!! i) = SLEEPING) && bool_decide (p_chan (tab !!! i) = ch)
      then (tab !!! i) <| p_state := RUNNABLE |> else tab !!! i) by (by rewrite Hji).
    destruct (bool_decide (p_state (tab !!! i) = SLEEPING) && bool_decide (p_chan (tab !!! i) = ch)); cbn [when].
    + apply wp_setp. eexists. split; [reflexivity|]. split; [by rewrite length_insert|]. intros j.
      change (pt (s <| k_ptab := tab |>) i) with (tab !!! i). cbn [k_ptab set_field]. rewrite pt_insert by lia. unfold updn.
      case_decide as E; [subst j; rewrite decide_True by lia; by rewrite Hw|]. rewrite Hj.
      repeat case_decide; try done; lia.
    + wstep. exists tab. split; [done|]. split; [done|]. intros j.
      destruct (decide (j = i)) as [->|Hne]; [rewrite decide_True by lia; by rewrite Hw|]. rewrite Hj.
      repeat case_decide; try done; lia.
  - intros s' (tab & -> & Ht & Hj). apply HQ; [done|]. intros j. rewrite Hj. case_decide; [done|].
    unfold pt. by rewrite (tab_out _ j) by lia.
Qed.

(** Does [p] have a zombie child below slot [n]? *)
Definition zombie_child (s : kern) (p n : nat) : bool :=
  existsb (fun i => bool_decide (p_parent (pt s i) = Some p) && bool_decide (p_state (pt s i) = ZOMBIE)) (seq 0 n).

Definition wake_if (z : bool) (ch : option chan) (x : proc) : proc := if z then wake ch x else x.

Lemma zombie_child_S s p n :
  zombie_child s p (S n) = zombie_child s p n || (bool_decide (p_parent (pt s n) = Some p) && bool_decide (p_state (pt s n) = ZOMBIE)).
Proof. unfold zombie_child. rewrite seq_S, existsb_app. simpl. by rewrite orb_false_r. Qed.

Lemma wp_reparent s p (Q : () -> kern -> Prop) :
  length (k_ptab s) = NPROC ->
  (forall tab, length tab = NPROC ->
     (forall j, tab !!! j = give p (k_initproc s) (wake_if (zombie_child s p NPROC) (CProc <$> k_initproc s) (pt s j))) ->
     Q () (s <| k_ptab := tab |>)) ->
  wp (reparent p) s Q.
Proof.
  intros Hlen HQ. unfold reparent. wstep. wstep. set (ch := CProc <$> k_initproc s).
  apply (wp_for (fun i s' => exists tab, s' = s <| k_ptab := tab |> /\ length tab = NPROC /\
    forall j, tab !!! j = (if decide (j < i)%nat then give p (k_initproc s) else fun x => x) (wake_if (zombie_child s p i) ch (pt s j)))).
  - exists (k_ptab s). split; [by destruct s|]. done.
  - intros i s' Hlt (tab & -> & Ht & Hj). unfold getp. wstep. wstep. cbn [k_ptab set_field].
    pose proof (Hj i) as Hji. rewrite decide_False in Hji by lia.
    assert (Ep : p_parent (tab !!! i) = p_parent (pt s i)) by (rewrite Hji; unfold wake_if; case_match; [apply wake_parent|done]).
    rewrite Ep, zombie_child_S.
    destruct (decide (p_parent (pt s i) = Some p)) as [Hpar|Hpar];
      [rewrite (bool_decide_eq_true_2 _ Hpar)|rewrite (bool_decide_eq_false_2 _ Hpar)]; cbn [when andb].
    2:{ wstep. exists tab. split; [done|]. split; [done|]. intros j. rewrite Hj, orb_false_r.
        destruct (decide (j = i)) as [->|]; [|repeat case_decide; try done; lia].
        rewrite decide_False, decide_True by lia. unfold give. rewrite bool_decide_eq_false_2; [done|].
        unfold wake_if. case_match; by rewrite ?wake_parent. }
    wstep. apply wp_setp. change (pt (s <| k_ptab := tab |>) i) with (tab !!! i). cbn [k_ptab set_field].
    set (tab1 := <[i := _]> tab).
    assert (Hlen1 : length tab1 = NPROC) by (unfold tab1; by rewrite length_insert).
    assert (H1 : forall j, tab1 !!! j = (if decide (j < S i)%nat then give p (k_initproc s) else fun x => x) (wake_if (zombie_child s p i) ch (pt s j))).
    { intros j. unfold tab1. rewrite pt_insert by lia. unfold updn. case_decide as E.
      - subst j. rewrite decide_True by lia. unfold give. rewrite <- Hji, Ep. by rewrite bool_decide_eq_true_2.
      - rewrite Hj. repeat case_decide; try done; lia. }
    wstep. wstep. cbn [k_ptab set_field].
    assert (Ez : bool_decide (p_state (tab1 !!! i) = ZOMBIE) = bool_decide (p_state (pt s i) = ZOMBIE)).
    { apply bool_decide_ext. rewrite H1, decide_True by lia. unfold give. unfold wake_if.
      destruct (zombie_child s p i); case_match; cbn; by rewrite ?wake_zombie. }
    rewrite Ez. destruct (bool_decide (p_state (pt s i) = ZOMBIE)); cbn [when].
    + apply wp_wakeup1; [done|]. intros tab2 H2 H2j. eexists. split; [reflexivity|]. split; [done|]. intros j.
      pose proof (H2j j) as E2. change (tab2 !!! j = wake ch (tab1 !!! j)) in E2. cbn [k_ptab set_field]. rewrite E2, H1, orb_true_r.
      assert (Ew : forall x, wake ch (wake_if (zombie_child s p i) ch x) = wake_if true ch x).
      { intros x. unfold wake_if. by destruct (zombie_child s p i); rewrite ?wake_wake. }
      destruct (decide (j < S i)%nat); by rewrite ?wake_give, Ew.
    + wstep. exists tab1. split; [done|]. split; [done|]. intros j. by rewrite H1, orb_false_r.
  - intros s' (tab & -> & Ht & Hj). apply HQ; [done|]. intros j. rewrite Hj. case_decide; [done|].
    unfold pt. rewrite (tab_out _ j) by lia. unfold wake_if. by case_match.
Qed.

Section ops.
Context {ids : list Z}.
Variables (c : nat) (id : Z).
Hypothesis here : ids !! c = Some id.
Implicit Types (s : kern) (h : nat -> list Z) (b : nat -> bool).

Notation rep s h b := (mach_rep ids (k_mach s) h no_depth b).

Lemma wp_onm {A} (m : M mach A) s a m' (Q : A -> kern -> Prop) :
  m (k_mach s) = Ok a m' -> Q a (s <| k_mach := m' |>) -> wp (onm m) s Q.
Proof. intros E HQ. apply wp_zoom. unfold wp. by rewrite E. Qed.

(** A routine that only reads the machine. *)
Lemma wp_onm_read {A} (m : M mach A) s a (Q : A -> kern -> Prop) :
  m (k_mach s) = Ok a (k_mach s) -> Q a s -> wp (onm m) s Q.
Proof. intros E HQ. eapply wp_onm; [done|]. by destruct s. Qed.

Lemma wp_mycpu s h b (Q : nat -> kern -> Prop) :
  rep s h b -> h c <> [] -> Q c s -> wp (onm (mycpu id)) s Q.
Proof.
  intros Hr Hne HQ. eapply wp_onm_read; [|done]. eapply mr_mycpu; [done|done|].
  eapply mr_if_off; [done|done|]. by destruct (h c).
Qed.

Lemma wp_kacquire s h b l (Q : () -> kern -> Prop) :
  rep s h b -> (forall c', (c' < length ids)%nat -> l ∉ h c') ->
  (forall m', mach_rep ids m' (updn h c (l :: h c)) no_depth b -> Q () (s <| k_mach := m' |>)) ->
  wp (kacquire id l) s Q.
Proof.
  intros Hr Hf HQ. apply wp_zoom. unfold wp. destruct (mr_acquire _ _ _ _ c id l [] Hr here Hf) as (m' & -> & Hm). by apply HQ.
Qed.

Lemma safe_kacquire s h b l (Q : () -> kern -> Prop) :
  rep s h b -> l ∉ h c ->
  (forall m', (forall c', (c' < length ids)%nat -> l ∉ h c') ->
     mach_rep ids m' (updn h c (l :: h c)) no_depth b -> Q () (s <| k_mach := m' |>)) ->
  safe (kacquire id l) s Q.
Proof.
  intros Hr Hl HQ. destruct (mr_acquire_inv _ _ _ _ c id l [] Hr here Hl) as [Hnp Hfree].
  destruct (acquire id l [] (k_mach s)) as [u m'|e|] eqn:E.
  - apply wp_safe. eapply wp_kacquire; [done|by eapply Hfree|]. intros m2 H2. apply HQ; [by eapply Hfree|done].
  - by destruct (Hnp e).
  - unfold safe, kacquire, onm, zoom. by rewrite E.
Qed.

Lemma wp_krelease s h b l (Q : () -> kern -> Prop) :
  rep s h b -> l ∈ h c ->
  (forall m', mach_rep ids m' (updn h c (filter (.≠ l) (h c))) no_depth b -> Q () (s <| k_mach := m' |>)) ->
  wp (krelease id l) s Q.
Proof.
  intros Hr Hl HQ. apply wp_zoom. unfold wp. destruct (mr_release _ _ _ _ c id l Hr here Hl) as (m' & -> & Hm). by apply HQ.
Qed.

Lemma wp_myproc s h b o (Q : option nat -> kern -> Prop) :
  rep s h b -> cp s c = o -> (forall m', mach_rep ids m' h no_depth b -> Q o (s <| k_mach := m' |>)) ->
  wp (myproc id) s Q.
Proof.
  intros Hr Ho HQ. unfold myproc. destruct (mr_pushcli _ _ _ _ c id Hr here) as (m1 & Hp & H1).
  assert (Hoff : m_if m1 id = false) by (eapply mr_if_off; [exact H1|exact here|rewrite updn_eq; lia]).
  destruct (mr_popcli m1 _ _ _ c id H1 here) as (m2 & Hp2 & H2); [rewrite updn_eq; lia|].
  wstep. eapply wp_onm; [exact Hp|]. wstep. eapply wp_onm_read; [exact (mr_mycpu m1 _ _ _ c id H1 here Hoff)|].
  wstep. wstep. wstep. eapply wp_onm; [exact Hp2|]. wstep.
  change (k_cproc _ !!! c) with (cp s c). rewrite Ho. apply (HQ m2).
  eapply mach_rep_ext; [exact H2|]. intros c' _. split; [done|]. split; [|done]. unfold updn. by repeat case_decide; subst.
Qed.

Lemma wp_curproc s h b p (Q : nat -> kern -> Prop) :
  rep s h b -> cp s c = Some p -> (forall m', mach_rep ids m' h no_depth b -> Q p (s <| k_mach := m' |>)) ->
  wp (curproc id) s Q.
Proof. intros Hr Hp HQ. unfold curproc. wstep. eapply wp_myproc; [done|done|]. intros m' Hm. wstep. by apply HQ. Qed.

Lemma wp_sched s h b p k (Q : () -> kern -> Prop) :
  rep s h b -> h c = [PTLOCK] -> cp s c = Some p -> p_state (pt s p) <> RUNNING ->
  (forall m', mach_rep ids m' h no_depth b ->
     Q () (s <| k_mach := m' |> <| k_ptab := <[p := (pt s p) <| p_context := CSched (b c) k |>]> (k_ptab s) |>)) ->
  wp (sched id k) s Q.
Proof.
  intros Hr Hh Hp Hst HQ. unfold sched. wstep. eapply wp_curproc; [done|done|]. intros m' Hm.
  assert (Hd : (length (h c) + 0 <> 0)%nat) by (by rewrite Hh).
  assert (Hne : h c <> []) by (by rewrite Hh).
  set (s1 := s <| k_mach := m' |>). assert (H1 : rep s1 h b) by exact Hm.
  wstep. eapply (wp_onm_read _ s1); [exact (mr_holding _ _ _ _ c id H1 here PTLOCK Hd)|].
  rewrite bool_decide_eq_true_2 by (rewrite Hh; set_solver). simpl negb. cbv iota.
  wstep. eapply (wp_mycpu s1); [done|done|]. wstep. eapply (wp_onm_read _ s1); [exact (mr_ncli _ _ _ _ c id H1 here)|].
  rewrite Hh. change (Z.of_nat (length [PTLOCK] + 0) =? 1) with true. simpl negb.
  wstep. unfold getp. wstep. rewrite bool_decide_eq_false_2 by exact Hst.
  wstep. eapply (wp_onm_read _ s1); [exact (mr_readeflags _ _ _ _ c id H1 here)|]. rewrite Hh. simpl andb. cbv beta iota.
  wstep. eapply (wp_mycpu s1); [done|done|]. wstep. eapply (wp_onm_read _ s1); [exact (mr_intena _ _ _ _ c id H1 here Hd)|].
  unfold setp. wstep. apply (HQ m' Hm).
Qed.
End ops.

(** * The kernel as a step relation: the schedulers of all CPUs and the kernel
    threads of all processes, interleaved at the points where [ptable.lock]
    or another lock is taken or given back.

    A CPU is in its scheduler or runs a process ([cloc]); a kernel thread is
    somewhere in [proc.c] or elsewhere in the kernel ([tpos]).  Each variable
    that processes wait for is named by its sleep channel: [y_cond a] says
    whether what the sleepers on channel [a] wait for has happened, and is
    protected by the lock [lockof a], as at every call of [sleep]. *)

Inductive fstage := FSlot | FStack | FAdopted.

Inductive tpos :=
| TRun                             (* anywhere else, [ptable.lock] not held *)
| TSleep1 (a : Z)                  (* in sleep, holding both locks *)
| TSleep2 (a : Z)                  (* in sleep, lk released *)
| TAsleep                          (* in sleep or wait, switched away *)
| TRelock (lk : Z)                 (* back in sleep, before acquire(lk) *)
| TWait                            (* at the top of the loop of wait *)
| TFork (np : nat) (st : fstage)   (* in fork, with its new slot *)
| TSignal (a : Z).                 (* has set the condition, before wakeup *)

Inductive cloc := Top | Scan (i : nat) | InProc.

Record sys := mk_sys { y_k : kern; y_cl : nat -> cloc; y_tp : nat -> tpos; y_cond : Z -> bool }.

Definition ncli (s : sys) (c : nat) : Z := c_ncli (m_cpus (k_mach (y_k s)) !!! c).
Definition holds (s : sys) (c : nat) (l : Z) : Prop := lk_cpu (m_locks (k_mach (y_k s)) l) = Some c.
(** Process [p] runs on CPU [c] and is at [t]. *)
Definition on (s : sys) (c p : nat) (t : tpos) : Prop := y_cl s c = InProc /\ cp (y_k s) c = Some p /\ y_tp s p = t.

(** Where an interrupt can find a thread. *)
Definition preemptible (t : tpos) : bool := match t with TRun | TRelock _ | TFork _ _ => true | _ => false end.

(** What a thread does when the scheduler switches to it, and where it is
    then; [t] is where it was. *)
Definition resume (id : Z) (p : nat) (t : tpos) : M kern tpos :=
  ctx ← getp p p_context;
  match ctx with
  | CForkret => forkret id;; mret TRun
  | CSched intena k =>
      sched_back id intena;;
      match k with
      | KYield => yield_back id;; mret t
      | KSleep lk => sleep_back id lk;; mret (if lk =? PTLOCK then TWait else TRelock lk)
      | KExit => panic "zombie exit"
      end
  end.

(** The scheduler's next slot after a thread has called [sched]. *)
Definition switch (id : Z) (m : M kern ()) : M kern nat := m;; scheduler_back id.

Definition wait_switch (id : Z) : M kern (option nat) :=
  r ← wait_round id;
  match r with
  | WSleeps => i ← scheduler_back id; mret (Some i)
  | _ => mret None
  end.

(** CPU [c] is now at [l]. *)
Definition cpu_at (s : sys) (c : nat) (l : cloc) (k : kern) : sys := mk_sys k (updn (y_cl s) c l) (y_tp s) (y_cond s).
(** Thread [p] moves to [t] without leaving its CPU. *)
Definition moved (s : sys) (p : nat) (t : tpos) (k : kern) : sys := mk_sys k (y_cl s) (updn (y_tp s) p t) (y_cond s).
(** Thread [p] leaves CPU [c], whose scheduler goes on with slot [i]. *)
Definition left_cpu (s : sys) (c p : nat) (t : tpos) (i : nat) (k : kern) : sys :=
  mk_sys k (updn (y_cl s) c (Scan i)) (updn (y_tp s) p t) (y_cond s).
(** The scheduler of CPU [c] has switched to [p]. *)
Definition entered (s : sys) (c p : nat) (t : tpos) (k : kern) : sys :=
  mk_sys k (updn (y_cl s) c InProc) (updn (y_tp s) p t) (y_cond s).

Section steps.
Variable ids : list Z.
Variable lockof : Z -> Z.

(** [kcall c s pick m]: in state [s] CPU [c] may run [m], which returns the
    system as a function of the kernel it leaves; [pick] is the process the
    scheduler of [c] switches to, if this is that step.  The calls are those of
    processes and of the scheduler; the first process does not call [exit],
    which panics for it, and a condition is made true by a process in the
    kernel, not by an interrupt on an idle CPU. *)
Inductive kcall (c : nat) (s : sys) : option nat -> M kern (kern -> sys) -> Prop :=
| kc_top id : ids !! c = Some id -> y_cl s c = Top ->
    kcall c s None (scheduler_top id;; mret (cpu_at s c (Scan 0)))
| kc_scan id i : ids !! c = Some id -> y_cl s c = Scan i -> (i < NPROC)%nat ->
    kcall c s (if bool_decide (p_state (pt (y_k s) i) = RUNNABLE) then Some i else None)
      (run ← scheduler_try id i;
       if run : bool then t ← resume id i (y_tp s i); mret (entered s c i t) else mret (cpu_at s c (Scan (S i))))
| kc_end id : ids !! c = Some id -> y_cl s c = Scan NPROC ->
    kcall c s None (krelease id PTLOCK;; mret (cpu_at s c Top))
| kc_idle_wakeup id a : ids !! c = Some id -> y_cl s c = Top ->
    kcall c s None (wakeup id (CAddr a);; mret (cpu_at s c Top))
| kc_acquire id p l : ids !! c = Some id -> on s c p TRun -> l <> PTLOCK -> ~ holds s c l ->
    kcall c s None (kacquire id l;; mret (moved s p TRun))
| kc_release id p l : ids !! c = Some id -> on s c p TRun -> l <> PTLOCK -> holds s c l ->
    kcall c s None (krelease id l;; mret (moved s p TRun))
| kc_flag id p t (enable : bool) : ids !! c = Some id -> on s c p t -> preemptible t = true -> ncli s c = 0 ->
    kcall c s None (onm (if enable then sti id else cli id);; mret (moved s p t))
| kc_wakeup id p t a : ids !! c = Some id -> on s c p t -> preemptible t = true ->
    kcall c s None (wakeup id (CAddr a);; mret (moved s p t))
| kc_yield id p t : ids !! c = Some id -> on s c p t -> preemptible t = true -> ncli s c = 0 ->
    kcall c s None (i ← switch id (yield id); mret (left_cpu s c p t i))
| kc_sleep1 id p a : ids !! c = Some id -> on s c p TRun -> holds s c (lockof a) -> ncli s c = 1 -> y_cond s a = false ->
    kcall c s None (sleep_lock id (lockof a);; mret (moved s p (TSleep1 a)))
| kc_sleep2 id p a : ids !! c = Some id -> on s c p (TSleep1 a) ->
    kcall c s None (sleep_unlock id (lockof a);; mret (moved s p (TSleep2 a)))
| kc_sleep3 id p a : ids !! c = Some id -> on s c p (TSleep2 a) ->
    kcall c s None (i ← switch id (sleep_sched id (CAddr a) (lockof a)); mret (left_cpu s c p TAsleep i))
| kc_relock id p lk : ids !! c = Some id -> on s c p (TRelock lk) ->
    kcall c s None (sleep_relock id lk;; mret (moved s p TRun))
| kc_kill id p pid : ids !! c = Some id -> on s c p TRun ->
    kcall c s None (kill id pid;; mret (moved s p TRun))
| kc_exit id p : ids !! c = Some id -> on s c p TRun -> ncli s c = 0 -> k_initproc (y_k s) <> Some p ->
    kcall c s None (i ← switch id (exit_table id); mret (left_cpu s c p TRun i))
| kc_wait id p : ids !! c = Some id -> on s c p TRun -> ncli s c = 0 ->
    kcall c s None (kacquire id PTLOCK;; mret (moved s p TWait))
| kc_wait_round id p : ids !! c = Some id -> on s c p TWait ->
    kcall c s None (o ← wait_switch id; mret (match o with Some i => left_cpu s c p TAsleep i | None => moved s p TRun end))
| kc_fork id p : ids !! c = Some id -> on s c p TRun -> ncli s c = 0 ->
    kcall c s None (o ← alloc_slot id; mret (moved s p (match o with Some np => TFork np FSlot | None => TRun end)))
| kc_fork_stack id p np kstack : ids !! c = Some id -> on s c p (TFork np FSlot) ->
    kcall c s None (set_stack np kstack;; mret (moved s p (TFork np FStack)))
| kc_fork_fail id p np st : ids !! c = Some id -> on s c p (TFork np st) -> st <> FAdopted ->
    kcall c s None (free_slot np;; mret (moved s p TRun))
| kc_fork_adopt id p np : ids !! c = Some id -> on s c p (TFork np FStack) ->
    kcall c s None (adopt p np;; mret (moved s p (TFork np FAdopted)))
| kc_fork_done id p np : ids !! c = Some id -> on s c p (TFork np FAdopted) ->
    kcall c s None (make_runnable id np;; mret (moved s p TRun))
| kc_set id p a : ids !! c = Some id -> on s c p TRun -> holds s c (lockof a) ->
    kcall c s None (mret (fun k => mk_sys k (y_cl s) (updn (y_tp s) p (TSignal a)) (upd (y_cond s) a true)))
| kc_signal id p a : ids !! c = Some id -> on s c p (TSignal a) ->
    kcall c s None (wakeup id (CAddr a);; mret (moved s p TRun))
| kc_clear id p a : ids !! c = Some id -> on s c p TRun -> holds s c (lockof a) ->
    kcall c s None (mret (fun k => mk_sys k (y_cl s) (y_tp s) (upd (y_cond s) a false))).

(** A step of CPU [c]: a call that returns.  One that blocks waits for a lock
    another CPU holds. *)
Definition kstep (c : nat) (pick : option nat) (s s' : sys) : Prop :=
  exists m f k, kcall c s pick m /\ m (y_k s) = Ok f k /\ s' = f k.

Definition sys_step (s s' : sys) : Prop := exists c pick, kstep c pick s s'.

(** After [userinit]: one process, ready to run, and every CPU about to enter
    its scheduler. *)
Definition sys_boot (s : sys) : Prop :=
  NoDup ids /\
  k_mach (y_k s) = mk_mach (fun _ => initlock) ((fun id => mk_cpu id 0 false) <$> ids) (fun _ => false) /\
  k_cproc (y_k s) = replicate (length ids) None /\ length (k_sched (y_k s)) = length ids /\
  (exists x, k_ptab (y_k s) = x :: replicate (NPROC - 1) zero_proc /\
     p_state x = RUNNABLE /\ p_context x = CForkret /\ p_parent x = None) /\
  k_initproc (y_k s) = Some O /\
  (forall c, y_cl s c = Top) /\ (forall p, y_tp s p = TRun) /\ (forall a, y_cond s a = false).
End steps.
