(* ===== verification/ProcEff.v ===== *)
(** The effect of each step of [ProcOps] on the process table: the table after
    the step, slot by slot, and the locks the CPU holds then.  Then the invariant of the scheduler,
    which [ProcSafe] shows to be kept. *)

From S2P Require Import Prelude CString Spinlock LockRep Proc ProcOps.

(** The fields of the kernel a step of a thread can change. *)
Definition kset (s : kern) (m : mach) (tab : list proc) (cpr : list (option nat)) : kern :=
  s <| k_mach := m |> <| k_ptab := tab |> <| k_cproc := cpr |>.

Lemma pt_kset s m tab cpr p : pt (kset s m tab cpr) p = tab !!! p.
Proof. done. Qed.
Lemma cp_kset s m tab cpr c : cp (kset s m tab cpr) c = cpr !!! c.
Proof. done. Qed.
Lemma kset_same s m : s <| k_mach := m |> = kset s m (k_ptab s) (k_cproc s).
Proof. by destruct s. Qed.

Lemma bind_assoc {S A B C} (m : M S A) (f : A -> M S B) (g : B -> M S C) s :
  ((m ≫= f) ≫= g) s = (m ≫= fun a => f a ≫= g) s.
Proof. unfold mbind, M_bind. by destruct (m s). Qed.

Lemma safe_eq {S A} (m m' : M S A) s Q : m s = m' s -> safe m' s Q -> safe m s Q.
Proof. unfold safe. by intros ->. Qed.
Lemma wp_eq {S A} (m m' : M S A) s Q : m s = m' s -> wp m' s Q -> wp m s Q.
Proof. unfold wp. by intros ->. Qed.

Lemma release_pt (h : list Z) : PTLOCK ∉ h -> filter (.≠ PTLOCK) (PTLOCK :: h) = h.
Proof.
  intros Hh. rewrite filter_cons_False by (intros Hx; by apply Hx). induction h as [|k h IH]; [done|].
  rewrite filter_cons_True by set_solver. f_equal. apply IH. set_solver.
Qed.

(** A table with one slot replaced. *)
Lemma set_slot (s : kern) i x :
  length (k_ptab s) = NPROC -> (i < NPROC)%nat ->
  length (<[i := x]> (k_ptab s)) = NPROC /\ forall j, <[i := x]> (k_ptab s) !!! j = updn (pt s) i x j.
Proof. intros Hl Hi. rewrite length_insert. split; [done|]. intros j. by rewrite pt_insert by lia. Qed.

Section effects.
Context {ids : list Z}.
Variables (c : nat) (id : Z).
Hypothesis here : ids !! c = Some id.
Implicit Types (s : kern) (h : nat -> list Z) (b : nat -> bool).

Notation rep m h b := (mach_rep ids m h no_depth b).
Notation free h := (forall c', (c' < length ids)%nat -> PTLOCK ∉ h c').

Lemma safe_top s h b (Q : () -> kern -> Prop) :
  rep (k_mach s) h b -> h c = [] ->
  (forall m, free h -> rep m (updn h c [PTLOCK]) (updn b c true) -> Q () (kset s m (k_ptab s) (k_cproc s))) ->
  safe (scheduler_top id) s Q.
Proof.
  intros Hr Hh HQ. unfold scheduler_top. destruct (mr_sti _ _ _ _ c id Hr here) as (m1 & Hs & H1); [by rewrite Hh|].
  apply safe_bind, wp_safe. eapply wp_onm; [exact Hs|]. cbv beta.
  eapply safe_kacquire; [exact here|exact H1|rewrite Hh; set_solver|]. intros m Hf Hm. rewrite Hh in Hm.
  exact (HQ m Hf Hm).
Qed.

(** The scheduler at slot [i]. *)
Lemma wp_try s h b i (Q : bool -> kern -> Prop) :
  rep (k_mach s) h b -> h c <> [] ->
  (p_state (pt s i) <> RUNNABLE -> Q false s) ->
  (p_state (pt s i) = RUNNABLE ->
     Q true (s <| k_cproc := <[c := Some i]> (k_cproc s) |> <| k_ptab := <[i := (pt s i) <| p_state := RUNNING |>]> (k_ptab s) |>
               <| k_sched := <[c := i]> (k_sched s) |>)) ->
  wp (scheduler_try id i) s Q.
Proof.
  intros Hr Hh Hf Ht. unfold scheduler_try, getp. wstep. wstep. change (k_ptab s !!! i) with (pt s i).
  destruct (decide (p_state (pt s i) = RUNNABLE)) as [E|E].
  - rewrite bool_decide_eq_true_2 by done. simpl negb. wstep. eapply wp_mycpu; [exact here|exact Hr|exact Hh|].
    wstep. wstep. wstep. unfold setp. wstep. wstep. wstep. wstep. by apply Ht.
  - rewrite bool_decide_eq_false_2 by done. simpl negb. wstep. by apply Hf.
Qed.

(** Back in the scheduler. *)
Lemma wp_back s h b (Q : nat -> kern -> Prop) :
  rep (k_mach s) h b -> h c <> [] ->
  Q (S (k_sched s !!! c)) (s <| k_cproc := <[c := None]> (k_cproc s) |>) -> wp (scheduler_back id) s Q.
Proof.
  intros Hr Hh HQ. unfold scheduler_back. wstep. eapply wp_mycpu; [exact here|exact Hr|exact Hh|].
  wstep. wstep. wstep. wstep. wstep. exact HQ.
Qed.

(** [sched] and the way back to the scheduler. *)
Lemma wp_sched_switch s h b p k (Q : nat -> kern -> Prop) :
  rep (k_mach s) h b -> h c = [PTLOCK] -> cp s c = Some p -> p_state (pt s p) <> RUNNING ->
  (forall m, rep m h b ->
     Q (S (k_sched s !!! c)) (kset s m (<[p := (pt s p) <| p_context := CSched (b c) k |>]> (k_ptab s)) (<[c := None]> (k_cproc s)))) ->
  wp (sched id k ≫= fun _ => scheduler_back id) s Q.
Proof.
  intros Hr Hh Hp Hst HQ. wstep. eapply wp_sched; [exact here|exact Hr|done|done|done|]. intros m Hm. cbv beta.
  eapply wp_back; [exact Hm|by rewrite Hh|]. apply (HQ m Hm).
Qed.

(** The slot [p] after a thread has set its state to [st] and called [sched]. *)
Definition switched (x : proc) (st : procstate) (intena : bool) (k : kcont) : proc :=
  x <| p_state := st |> <| p_context := CSched intena k |>.

(** A change of slot [p], [sched], and back to the scheduler. *)
Lemma wp_set_switch s h b p (f : proc -> proc) k (Q : nat -> kern -> Prop) :
  length (k_ptab s) = NPROC -> (p < NPROC)%nat ->
  rep (k_mach s) h b -> h c = [PTLOCK] -> cp s c = Some p -> p_state (f (pt s p)) <> RUNNING ->
  (forall m tab, rep m h b -> length tab = NPROC ->
     (forall j, tab !!! j = updn (pt s) p ((f (pt s p)) <| p_context := CSched (b c) k |>) j) ->
     Q (S (k_sched s !!! c)) (kset s m tab (<[c := None]> (k_cproc s)))) ->
  wp (setp p f ≫= fun _ => sched id k ≫= fun _ => scheduler_back id) s Q.
Proof.
  intros Hlen Hp Hr Hh Hcp Hst HQ. wstep. apply wp_setp.
  set (s1 := s <| k_ptab := <[p := f (pt s p)]> (k_ptab s) |>).
  assert (E : pt s1 p = f (pt s p)) by (unfold s1, pt; cbn; by rewrite list_lookup_total_insert_eq by lia).
  eapply (wp_sched_switch s1 h b p); [exact Hr|done|done|by rewrite E|]. intros m Hm. rewrite E.
  change (k_ptab s1) with (<[p := f (pt s p)]> (k_ptab s)). rewrite list_insert_insert_eq.
  apply (HQ m _ Hm); [by rewrite length_insert|]. intros j. by rewrite pt_insert by lia.
Qed.

Lemma safe_yield s h b p (Q : nat -> kern -> Prop) :
  length (k_ptab s) = NPROC -> (p < NPROC)%nat ->
  rep (k_mach s) h b -> h c = [] -> cp s c = Some p ->
  (forall m tab, free h -> rep m (updn h c [PTLOCK]) b -> length tab = NPROC ->
     (forall j, tab !!! j = updn (pt s) p (switched (pt s p) RUNNABLE (b c) KYield) j) ->
     Q (S (k_sched s !!! c)) (kset s m tab (<[c := None]> (k_cproc s)))) ->
  safe (switch id (yield id)) s Q.
Proof.
  intros Hlen Hp Hr Hh Hcp HQ. unfold switch, yield. eapply safe_eq; [apply bind_assoc|].
  apply safe_bind. eapply safe_kacquire; [exact here|exact Hr|rewrite Hh; set_solver|]. intros m1 Hf H1. rewrite Hh in H1.
  apply wp_safe. eapply wp_eq; [apply bind_assoc|]. wstep. eapply wp_curproc; [exact here|exact H1|done|]. intros m2 H2. cbv beta.
  eapply wp_eq; [apply bind_assoc|].
  eapply (wp_set_switch _ (updn h c [PTLOCK])); [done|done|exact H2|by rewrite updn_eq|done|done|].
  intros m tab Hm Ht Hj. apply (HQ m tab Hf Hm Ht Hj).
Qed.

(** [sleep] *)
Definition slept (x : proc) (ch : chan) (intena : bool) (lk : Z) : proc :=
  x <| p_chan := Some ch |> <| p_state := SLEEPING |> <| p_context := CSched intena (KSleep lk) |>.

Lemma safe_sleep_lock s h b p lk (Q : () -> kern -> Prop) :
  rep (k_mach s) h b -> h c = [lk] -> cp s c = Some p -> lk <> 0 -> lk <> PTLOCK ->
  (forall m, free h -> rep m (updn h c [PTLOCK; lk]) b -> Q () (kset s m (k_ptab s) (k_cproc s))) ->
  safe (sleep_lock id lk) s Q.
Proof.
  intros Hr Hh Hp H0 Hlk HQ. unfold sleep_lock. apply safe_bind, wp_safe.
  eapply wp_myproc; [exact here|exact Hr|exact Hp|]. intros m1 H1. cbv beta iota.
  rewrite (proj2 (Z.eqb_neq _ _) H0), (proj2 (Z.eqb_neq _ _) Hlk). simpl negb. unfold when. cbv iota.
  eapply safe_kacquire; [exact here|exact H1|rewrite Hh; set_solver|]. intros m Hf Hm. rewrite Hh in Hm. apply (HQ m Hf Hm).
Qed.

Lemma wp_sleep_unlock s h b lk (Q : () -> kern -> Prop) :
  rep (k_mach s) h b -> h c = [PTLOCK; lk] -> lk <> PTLOCK ->
  (forall m, rep m (updn h c [PTLOCK]) b -> Q () (kset s m (k_ptab s) (k_cproc s))) ->
  wp (sleep_unlock id lk) s Q.
Proof.
  intros Hr Hh Hlk HQ. unfold sleep_unlock. rewrite (proj2 (Z.eqb_neq _ _) Hlk). simpl negb. unfold when.
  eapply wp_krelease; [exact here|exact Hr|rewrite Hh; set_solver|]. intros m Hm. apply (HQ m).
  rewrite Hh, filter_cons_True, filter_cons_False in Hm by (intros ?; naive_solver). exact Hm.
Qed.

Lemma wp_sleep_sched s h b p ch lk (Q : nat -> kern -> Prop) :
  length (k_ptab s) = NPROC -> (p < NPROC)%nat ->
  rep (k_mach s) h b -> h c = [PTLOCK] -> cp s c = Some p ->
  (forall m tab, rep m h b -> length tab = NPROC ->
     (forall j, tab !!! j = updn (pt s) p (slept (pt s p) ch (b c) lk) j) ->
     Q (S (k_sched s !!! c)) (kset s m tab (<[c := None]> (k_cproc s)))) ->
  wp (switch id (sleep_sched id ch lk)) s Q.
Proof.
  intros Hlen Hp Hr Hh Hcp HQ. unfold switch, sleep_sched. eapply wp_eq; [apply bind_assoc|].
  wstep. eapply wp_curproc; [exact here|exact Hr|done|]. intros m1 H1. cbv beta.
  eapply wp_eq; [apply bind_assoc|]. wstep. apply wp_setp. eapply wp_eq; [apply bind_assoc|].
  set (s1 := _ <| k_ptab := _ |>).
  assert (E : pt s1 p = (pt s p) <| p_chan := Some ch |>) by (unfold s1, pt; cbn; by rewrite list_lookup_total_insert_eq by lia).
  eapply (wp_set_switch s1 h b p); [cbn; by rewrite length_insert|done|exact H1|done|done|done|].
  intros m tab Hm Ht Hj. apply (HQ m tab Hm Ht). intros j. rewrite Hj, E. unfold updn. case_decide as Ej; [done|].
  unfold s1, pt. cbn. by rewrite list_lookup_total_insert_ne.
Qed.

Lemma safe_sleep_relock s h b lk (Q : () -> kern -> Prop) :
  rep (k_mach s) h b -> h c = [] -> lk <> PTLOCK ->
  (forall m, (forall c', (c' < length ids)%nat -> lk ∉ h c') -> rep m (updn h c [lk]) b -> Q () (kset s m (k_ptab s) (k_cproc s))) ->
  safe (sleep_relock id lk) s Q.
Proof.
  intros Hr Hh Hlk HQ. unfold sleep_relock. rewrite (proj2 (Z.eqb_neq _ _) Hlk). simpl negb. unfold when.
  eapply safe_kacquire; [exact here|exact Hr|rewrite Hh; set_solver|]. intros m Hf Hm. rewrite Hh in Hm. apply (HQ m Hf Hm).
Qed.

(** The end of a critical section under [ptable.lock]. *)
Lemma rep_back m h b : rep m (updn (updn h c (PTLOCK :: h c)) c (filter (.≠ PTLOCK) (PTLOCK :: h c))) b -> PTLOCK ∉ h c -> rep m h b.
Proof.
  intros Hm Hn. eapply mach_rep_ext; [exact Hm|]. intros c' _. rewrite release_pt by done.
  unfold updn. by repeat case_decide; subst.
Qed.

(** [release(&ptable.lock)] at the end of such a critical section. *)
Lemma wp_unlock s h b (Q : () -> kern -> Prop) :
  rep (k_mach s) (updn h c (PTLOCK :: h c)) b -> PTLOCK ∉ h c ->
  (forall m, rep m h b -> Q () (kset s m (k_ptab s) (k_cproc s))) -> wp (krelease id PTLOCK) s Q.
Proof.
  intros Hr Hn HQ. eapply wp_krelease; [exact here|exact Hr|rewrite updn_eq; set_solver|]. intros m Hm. rewrite updn_eq in Hm.
  apply (HQ m). by apply rep_back.
Qed.

Lemma safe_wakeup s h b ch (Q : () -> kern -> Prop) :
  length (k_ptab s) = NPROC -> rep (k_mach s) h b -> PTLOCK ∉ h c ->
  (forall m tab, free h -> rep m h b -> length tab = NPROC -> (forall j, tab !!! j = wake (Some ch) (pt s j)) ->
     Q () (kset s m tab (k_cproc s))) ->
  safe (wakeup id ch) s Q.
Proof.
  intros Hlen Hr Hn HQ. unfold wakeup. apply safe_bind.
  eapply safe_kacquire; [exact here|exact Hr|done|]. intros m1 Hf H1. apply wp_safe. wstep.
  apply wp_wakeup1; [done|]. intros tab Ht Hj. cbv beta. eapply (wp_unlock _ h); [exact H1|done|]. intros m Hm.
  by apply (HQ m tab).
Qed.

(** The slot of a process that [kill] finds. *)
Definition killed (x : proc) : proc := 
  let x := x <| p_killed := true |> in
  if bool_decide (p_state x = SLEEPING) then x <| p_state := RUNNABLE |> else x.

Lemma safe_kill s h b pid (Q : Z -> kern -> Prop) :
  length (k_ptab s) = NPROC -> rep (k_mach s) h b -> PTLOCK ∉ h c ->
  (forall m tab o, free h -> rep m h b -> length tab = NPROC ->
     o = find_idx (fun p => p_pid p =? pid) (k_ptab s) ->
     (forall j, tab !!! j = if decide (o = Some j) then killed (pt s j) else pt s j) ->
     Q (match o with Some _ => 0 | None => -1 end) (kset s m tab (k_cproc s))) ->
  safe (kill id pid) s Q.
Proof.
  intros Hlen Hr Hn HQ. unfold kill. apply safe_bind.
  eapply safe_kacquire; [exact here|exact Hr|done|]. intros m1 Hf H1. apply wp_safe. wstep. wstep.
  cbn [k_ptab set_field]. destruct (find_idx (fun p => p_pid p =? pid) (k_ptab s)) as [i|] eqn:Ei.
  - pose proof (find_idx_lt _ _ _ Ei) as Hi. wstep. apply wp_setp. unfold getp. wstep. wstep.
    set (s1 := _ <| k_ptab := _ |>). assert (E1 : k_ptab s1 !!! i = (pt s i) <| p_killed := true |>).
    { unfold s1, pt. cbn. by rewrite list_lookup_total_insert_eq. }
    rewrite E1. wstep. set (st := bool_decide _).
    assert (Hw : forall Q', Q' () (kset s m1 (<[i := killed (pt s i)]> (k_ptab s)) (k_cproc s)) ->
       wp (when st (setp i (fun p => p <| p_state := RUNNABLE |>))) s1 Q').
    { intros Q' HQ'. unfold killed in HQ'. change (bool_decide (p_state ((pt s i) <| p_killed := true |>) = SLEEPING)) with st in HQ'.
      destruct st; unfold when.
      - apply wp_setp. unfold pt at 1. rewrite E1. unfold s1. cbn [k_ptab set_field]. rewrite list_insert_insert_eq. exact HQ'.
      - wstep. exact HQ'. }
    apply Hw. wstep. eapply (wp_unlock _ h); [exact H1|done|]. intros m Hm. wstep.
    apply (HQ m _ (Some i) Hf Hm); [cbn; by rewrite length_insert|done|]. intros j. cbn. rewrite pt_insert by done.
    unfold updn. destruct (decide (j = i)) as [->|Hne]; [by rewrite decide_True|]. rewrite decide_False; [done|congruence].
  - wstep. eapply (wp_unlock _ h); [exact H1|done|]. intros m Hm. wstep. by apply (HQ m (k_ptab s) None).
Qed.

(** [exit]: the parent is woken, the children go to [init], the slot becomes a
    zombie. *)
Definition exit_wake (s : kern) (p : nat) (x : proc) : proc :=
  give p (k_initproc s) (wake_if (zombie_child s p NPROC) (CProc <$> k_initproc s) (wake (CProc <$> p_parent (pt s p)) x)).

Lemma zombie_child_wake s s1 ch p n :
  (forall j, pt s1 j = wake ch (pt s j)) -> zombie_child s1 p n = zombie_child s p n.
Proof.
  intros H. unfold zombie_child. induction (seq 0 n) as [|i l IH]; [done|]. simpl. rewrite IH, H, wake_parent.
  f_equal. f_equal. apply bool_decide_ext. apply wake_zombie.
Qed.

Lemma exit_wake_running s p x : p_state x = RUNNING -> exit_wake s p x = give p (k_initproc s) x.
Proof.
  intros Hx. assert (Hw : forall ch, wake ch x = x) by (intros ch; unfold wake; by rewrite bool_decide_eq_false_2 by congruence).
  unfold exit_wake, wake_if. rewrite Hw. case_match; by rewrite ?Hw.
Qed.

Lemma safe_exit s h b p (Q : nat -> kern -> Prop) :
  length (k_ptab s) = NPROC -> (p < NPROC)%nat -> p_state (pt s p) = RUNNING ->
  rep (k_mach s) h b -> h c = [] -> cp s c = Some p ->
  (forall m tab, free h -> rep m (updn h c [PTLOCK]) b -> length tab = NPROC ->
     (forall j, tab !!! j = updn (fun j => exit_wake s p (pt s j)) p (switched (give p (k_initproc s) (pt s p)) ZOMBIE (b c) KExit) j) ->
     Q (S (k_sched s !!! c)) (kset s m tab (<[c := None]> (k_cproc s)))) ->
  safe (switch id (exit_table id)) s Q.
Proof.
  intros Hlen Hp Hrun Hr Hh Hcp HQ. unfold switch, exit_table. eapply safe_eq; [apply bind_assoc|].
  apply safe_bind, wp_safe. eapply wp_curproc; [exact here|exact Hr|exact Hcp|]. intros m0 H0. cbv beta.
  eapply safe_eq; [apply bind_assoc|]. apply safe_bind.
  eapply safe_kacquire; [exact here|exact H0|rewrite Hh; set_solver|]. intros m1 Hf H1. rewrite Hh in H1. apply wp_safe.
  eapply wp_eq; [apply bind_assoc|]. unfold getp. wstep. wstep. cbn [k_ptab set_field]. fold (pt s p).
  eapply wp_eq; [apply bind_assoc|]. wstep. apply wp_wakeup1; [done|]. intros tab1 Ht1 Hj1. cbv beta.
  eapply wp_eq; [apply bind_assoc|]. wstep. set (s1 := _ <| k_ptab := tab1 |>).
  assert (Hs1 : forall j, pt s1 j = wake (CProc <$> p_parent (pt s p)) (pt s j)) by exact Hj1.
  apply wp_reparent; [done|]. intros tab2 Ht2 Hj2. eapply wp_eq; [apply bind_assoc|].
  set (s2 := s1 <| k_ptab := tab2 |>).
  assert (Hs2 : forall j, pt s2 j = exit_wake s p (pt s j)).
  { intros j. change (pt s2 j) with (tab2 !!! j). rewrite Hj2, Hs1. unfold exit_wake.
    by rewrite (zombie_child_wake s s1 (CProc <$> p_parent (pt s p)) p NPROC Hs1). }
  assert (Hs2p : pt s2 p = give p (k_initproc s) (pt s p)) by (by rewrite Hs2, exit_wake_running).
  eapply (wp_set_switch s2 (updn h c [PTLOCK]) b p); [done|done|exact H1|by rewrite updn_eq|done|done|].
  intros m tab Hm Ht Hj. apply (HQ m tab Hf Hm Ht). intros j. rewrite Hj, Hs2p. unfold updn. by case_decide; [|rewrite Hs2].
Qed.

(** [wait] *)
Definition reaped (x : proc) : proc :=
  x <| p_kstack := 0 |> <| p_pid := 0 |> <| p_parent := None |> <| p_name := <[0%nat := 0]> (p_name x) |>
    <| p_killed := false |> <| p_state := UNUSED |>.

Lemma wp_reap s z (Q : Z -> kern -> Prop) :
  length (k_ptab s) = NPROC -> (z < NPROC)%nat ->
  (forall tab, length tab = NPROC -> (forall j, tab !!! j = updn (pt s) z (reaped (pt s z)) j) ->
     Q (p_pid (pt s z)) (s <| k_ptab := tab |>)) ->
  wp (reap z) s Q.
Proof.
  intros Hlen Hz HQ. unfold reap, getp, setp. do 15 wstep. cbn [k_ptab set_field]. fold (pt s z).
  rewrite !list_lookup_total_insert_eq, !list_insert_insert_eq by (rewrite ?length_insert; lia).
  change (Q (p_pid (pt s z)) (s <| k_ptab := <[z := reaped (pt s z)]> (k_ptab s) |>)).
  apply HQ; [by rewrite length_insert|]. intros j. by rewrite pt_insert by lia.
Qed.

Lemma wp_wait_round s h b p (Q : option nat -> kern -> Prop) :
  length (k_ptab s) = NPROC -> (p < NPROC)%nat ->
  rep (k_mach s) h b -> h c = [PTLOCK] -> cp s c = Some p ->
  (forall m tab z, rep m (updn h c []) b -> length tab = NPROC -> (z < NPROC)%nat ->
     p_parent (pt s z) = Some p -> p_state (pt s z) = ZOMBIE ->
     (forall j, tab !!! j = updn (pt s) z (reaped (pt s z)) j) -> Q None (kset s m tab (k_cproc s))) ->
  (forall m, rep m (updn h c []) b -> Q None (kset s m (k_ptab s) (k_cproc s))) ->
  (forall m tab, rep m h b -> length tab = NPROC ->
     (forall z, p_parent (pt s z) = Some p -> p_state (pt s z) <> ZOMBIE) ->
     (forall j, tab !!! j = updn (pt s) p (slept (pt s p) (CProc p) (b c) PTLOCK) j) ->
     Q (Some (S (k_sched s !!! c))) (kset s m tab (<[c := None]> (k_cproc s)))) ->
  wp (wait_switch id) s Q.
Proof.
  intros Hlen Hp Hr Hh Hcp HQz HQn HQs. unfold wait_switch, wait_round. eapply wp_eq; [apply bind_assoc|].
  wstep. eapply wp_curproc; [exact here|exact Hr|exact Hcp|]. intros m0 H0. cbv beta. eapply wp_eq; [apply bind_assoc|].
  unfold wait_zombie. wstep. wstep. wstep. wstep. cbn [k_ptab set_field].
  assert (Hrel : forall m, rep m (updn h c (filter (.≠ PTLOCK) (h c))) b -> rep m (updn h c []) b).
  { intros m. rewrite Hh. by rewrite filter_cons_False by (intros Hx; by apply Hx). }
  destruct (find_idx _ (k_ptab s)) as [z|] eqn:Ez.
  - pose proof (find_idx_lt _ _ _ Ez) as Hz. apply find_idx_Some in Ez as [(x & Hx & Hfx) _].
    apply andb_true_iff in Hfx as [H1 H2]. apply bool_decide_eq_true in H1, H2.
    assert (Ex : pt s z = x) by (by apply list_lookup_total_correct). rewrite <- Ex in H1, H2.
    eapply wp_eq; [apply bind_assoc|]. unfold getp. wstep. wstep. eapply wp_eq; [apply bind_assoc|]. wstep.
    apply wp_reap; [done|lia|]. intros tab Ht Hj. eapply wp_eq; [apply bind_assoc|]. wstep.
    eapply wp_krelease; [exact here|exact H0|rewrite Hh; set_solver|]. intros m Hm. wstep. wstep. wstep.
    eapply (HQz m tab z); try done; [by apply Hrel|lia].
  - eapply wp_eq; [apply bind_assoc|]. unfold wait_havekids. wstep. wstep. wstep. wstep.
    eapply wp_eq; [apply bind_assoc|]. unfold getp. wstep. wstep. destruct (_ || _).
    + eapply wp_eq; [apply bind_assoc|]. wstep. eapply wp_krelease; [exact here|exact H0|rewrite Hh; set_solver|].
      intros m Hm. wstep. wstep. wstep. apply (HQn m). by apply Hrel.
    + unfold sleep, sleep_lock, sleep_unlock. rewrite (proj2 (Z.eqb_eq PTLOCK PTLOCK) eq_refl).
      change (PTLOCK =? 0) with false. simpl negb. unfold when.
      eapply wp_eq; [apply bind_assoc|]. eapply wp_eq; [apply bind_assoc|]. eapply wp_eq; [apply bind_assoc|].
      wstep. eapply wp_myproc; [exact here|exact H0|exact Hcp|]. intros m1 H1. wstep. wstep.
      eapply wp_eq; [apply bind_assoc|]. wstep. wstep.
      assert (Hw : wp (switch id (sleep_sched id (CProc p) PTLOCK)) (kset s m1 (k_ptab s) (k_cproc s)) (fun i k => Q (Some i) k)).
      { eapply (wp_sleep_sched _ h b p); [done|done|exact H1|done|done|]. intros m tab Hm Ht Hj. apply (HQs m tab Hm Ht).
        - intros z Hpar Hzom. assert (Hz : (z < length (k_ptab s))%nat).
          { destruct (decide (z < length (k_ptab s))%nat); [done|]. unfold pt in Hzom. by rewrite tab_out in Hzom by lia. }
          destruct (lookup_lt_is_Some_2 _ _ Hz) as [x Hx].
          assert (Ex : pt s z = x) by (by apply list_lookup_total_correct).
          pose proof (proj1 (find_idx_None _ _) Ez z x Hx) as Hf. cbv beta in Hf. rewrite <- Ex in Hf.
          by rewrite !bool_decide_eq_true_2 in Hf by done.
        - exact Hj. }
      unfold switch in Hw. apply wp_bind_inv in Hw. wstep. eapply wp_conseq; [exact Hw|]. intros [] k Hk. wstep. wstep.
      wstep. eapply wp_conseq; [exact Hk|]. intros i k' Hk'. by wstep.
Qed.

(** [fork] *)
Definition embryo (x : proc) (pid : Z) : proc := x <| p_state := EMBRYO |> <| p_pid := pid |>.

(** A routine that takes the lock first never panics, and returns when the lock
    is free. *)
Definition runs {A} h (m : M kern A) s (Q : A -> kern -> Prop) : Prop := safe m s Q /\ (free h -> wp m s Q).

Lemma runs_safe {A} h (m : M kern A) s (Q : A -> kern -> Prop) : runs h m s Q -> safe m s Q.
Proof. by intros []. Qed.

Lemma locked_runs {A} s h b (k : () -> M kern A) (Q : A -> kern -> Prop) :
  rep (k_mach s) h b -> PTLOCK ∉ h c ->
  (forall m1, free h -> rep m1 (updn h c (PTLOCK :: h c)) b -> wp (k ()) (s <| k_mach := m1 |>) Q) ->
  runs h (kacquire id PTLOCK ≫= k) s Q.
Proof.
  intros Hr Hn Hk. split.
  - apply safe_bind. eapply safe_kacquire; [exact here|exact Hr|done|]. intros m1 Hf H1. by apply wp_safe, Hk.
  - intros Hf. apply wp_bind. eapply wp_kacquire; [exact here|exact Hr|done|]. intros m1 H1. by apply Hk.
Qed.

Lemma alloc_slot_runs s h b (Q : option nat -> kern -> Prop) :
  length (k_ptab s) = NPROC -> rep (k_mach s) h b -> PTLOCK ∉ h c ->
  (forall m tab i, free h -> rep m h b -> length tab = NPROC -> (i < NPROC)%nat -> p_state (pt s i) = UNUSED ->
     (forall j, tab !!! j = updn (pt s) i (embryo (pt s i) (k_nextpid s)) j) ->
     Q (Some i) ((kset s m tab (k_cproc s)) <| k_nextpid := s32 (k_nextpid s + 1) |>)) ->
  (forall m, rep m h b -> (forall i, (i < NPROC)%nat -> p_state (pt s i) <> UNUSED) -> Q None (kset s m (k_ptab s) (k_cproc s))) ->
  runs h (alloc_slot id) s Q.
Proof.
  intros Hlen Hr Hn HQ HQn. unfold alloc_slot. eapply locked_runs; [exact Hr|done|]. intros m1 Hf H1. wstep. wstep.
  cbn [k_ptab set_field]. destruct (find_idx _ (k_ptab s)) as [i|] eqn:Ei.
  - pose proof (find_idx_lt _ _ _ Ei) as Hi. apply find_idx_Some in Ei as [(x & Hx & Hfx) _].
    apply bool_decide_eq_true in Hfx.
    assert (Ex : pt s i = x) by (by apply list_lookup_total_correct). rewrite <- Ex in Hfx.
    unfold setp. do 9 wstep. eapply (wp_unlock _ h); [exact H1|done|]. intros m Hm. wstep. cbn [k_ptab set_field].
    rewrite list_lookup_total_insert_eq, list_insert_insert_eq by done.
    destruct (set_slot s i (embryo (pt s i) (k_nextpid s)) Hlen ltac:(lia)) as [Ht Hj].
    exact (HQ m _ i Hf Hm Ht ltac:(lia) Hfx Hj).
  - wstep. eapply (wp_unlock _ h); [exact H1|done|]. intros m Hm. wstep. apply (HQn m Hm). intros i Hi Hx.
    destruct (lookup_lt_is_Some_2 (k_ptab s) i ltac:(lia)) as [x Hl]. pose proof (proj1 (find_idx_None _ _) Ei i x Hl) as Hno. cbv beta in Hno.
    unfold pt in Hx. rewrite (list_lookup_total_correct _ _ _ Hl) in Hx. by rewrite bool_decide_eq_true_2 in Hno.
Qed.

Lemma make_runnable_runs s h b np (Q : () -> kern -> Prop) :
  length (k_ptab s) = NPROC -> (np < NPROC)%nat -> rep (k_mach s) h b -> PTLOCK ∉ h c ->
  (forall m tab, free h -> rep m h b -> length tab = NPROC ->
     (forall j, tab !!! j = updn (pt s) np ((pt s np) <| p_state := RUNNABLE |>) j) -> Q () (kset s m tab (k_cproc s))) ->
  runs h (make_runnable id np) s Q.
Proof.
  intros Hlen Hnp Hr Hn HQ. unfold make_runnable. eapply locked_runs; [exact Hr|done|]. intros m1 Hf H1. wstep. apply wp_setp. cbv beta.
  eapply (wp_unlock _ h); [exact H1|done|]. intros m Hm. apply (HQ m _ Hf Hm); cbn; [by rewrite length_insert|].
  intros j. by rewrite pt_insert by lia.
Qed.

(** The steps of [fork] that do not take the lock. *)
Lemma wp_set_stack s np kstack (Q : () -> kern -> Prop) :
  length (k_ptab s) = NPROC -> (np < NPROC)%nat ->
  (forall tab, length tab = NPROC ->
     (forall j, tab !!! j = updn (pt s) np ((pt s np) <| p_kstack := kstack |> <| p_tf := u32 (kstack + KSTACKSIZE - 76) |> <| p_context := CForkret |>) j) ->
     Q () (kset s (k_mach s) tab (k_cproc s))) ->
  wp (set_stack np kstack) s Q.
Proof.
  intros Hlen Hnp HQ. unfold set_stack, setp. do 5 wstep. cbn [k_ptab set_field].
  rewrite !list_lookup_total_insert_eq, !list_insert_insert_eq by (rewrite ?length_insert; lia).
  destruct (set_slot s np ((pt s np) <| p_kstack := kstack |> <| p_tf := u32 (kstack + KSTACKSIZE - 76) |> <| p_context := CForkret |>) Hlen Hnp) as [Ht Hj].
  exact (HQ _ Ht Hj).
Qed.

Lemma wp_free_slot s np (Q : () -> kern -> Prop) :
  length (k_ptab s) = NPROC -> (np < NPROC)%nat ->
  (forall tab, length tab = NPROC -> (forall j, tab !!! j = updn (pt s) np ((pt s np) <| p_kstack := 0 |> <| p_state := UNUSED |>) j) ->
     Q () (kset s (k_mach s) tab (k_cproc s))) ->
  wp (free_slot np) s Q.
Proof.
  intros Hlen Hnp HQ. unfold free_slot, setp. do 3 wstep. cbn [k_ptab set_field].
  rewrite !list_lookup_total_insert_eq, !list_insert_insert_eq by (rewrite ?length_insert; lia).
  destruct (set_slot s np ((pt s np) <| p_kstack := 0 |> <| p_state := UNUSED |>) Hlen Hnp) as [Ht Hj].
  exact (HQ _ Ht Hj).
Qed.

Lemma wp_adopt s p np (Q : () -> kern -> Prop) :
  length (k_ptab s) = NPROC -> (np < NPROC)%nat ->
  (forall tab, length tab = NPROC ->
     (forall j, tab !!! j = updn (pt s) np ((pt s np) <| p_sz := p_sz (pt s p) |> <| p_parent := Some p |>) j) ->
     Q () (kset s (k_mach s) tab (k_cproc s))) ->
  wp (adopt p np) s Q.
Proof.
  intros Hlen Hnp HQ. unfold adopt, getp, setp. do 5 wstep. cbn [k_ptab set_field].
  rewrite !list_lookup_total_insert_eq, !list_insert_insert_eq by (rewrite ?length_insert; lia).
  destruct (set_slot s np ((pt s np) <| p_sz := p_sz (pt s p) |> <| p_parent := Some p |>) Hlen Hnp) as [Ht Hj].
  exact (HQ _ Ht Hj).
Qed.

(** Switching to a thread. *)
Lemma wp_sched_back s h b v (Q : () -> kern -> Prop) :
  rep (k_mach s) h b -> h c <> [] ->
  (forall m, rep m h (updn b c v) -> Q () (kset s m (k_ptab s) (k_cproc s))) -> wp (sched_back id v) s Q.
Proof.
  intros Hr Hh HQ. unfold sched_back. wstep. eapply wp_mycpu; [exact here|exact Hr|done|]. cbv beta.
  destruct (mr_set_intena _ _ _ _ c id Hr here v) as (m & Hs & Hm); [by destruct (h c)|].
  eapply wp_onm; [exact Hs|]. apply (HQ m Hm).
Qed.

Lemma wp_krelease_pt s h b (Q : () -> kern -> Prop) :
  rep (k_mach s) h b -> h c = [PTLOCK] ->
  (forall m, rep m (updn h c []) b -> Q () (kset s m (k_ptab s) (k_cproc s))) -> wp (krelease id PTLOCK) s Q.
Proof.
  intros Hr Hh HQ. eapply wp_krelease; [exact here|exact Hr|rewrite Hh; set_solver|]. intros m Hm. apply (HQ m).
  rewrite Hh in Hm. by rewrite filter_cons_False in Hm by (intros Hx; by apply Hx).
Qed.

Lemma wp_resume s h b i t (Q : tpos -> kern -> Prop) :
  length (k_ptab s) = NPROC -> (i < NPROC)%nat -> rep (k_mach s) h b -> h c = [PTLOCK] -> cp s c = Some i ->
  match p_context (pt s i) with
  | CForkret => forall m first, rep m (updn h c []) b -> Q TRun ((kset s m (k_ptab s) (k_cproc s)) <| k_first := first |>)
  | CSched v KYield => forall m, rep m (updn h c []) (updn b c v) -> Q t (kset s m (k_ptab s) (k_cproc s))
  | CSched v (KSleep lk) => forall m tab hc, rep m (updn h c hc) (updn b c v) -> length tab = NPROC ->
      hc = (if lk =? PTLOCK then [PTLOCK] else []) ->
      (forall j, tab !!! j = updn (pt s) i ((pt s i) <| p_chan := None |>) j) ->
      Q (if lk =? PTLOCK then TWait else TRelock lk) (kset s m tab (k_cproc s))
  | CSched _ KExit => False
  end ->
  wp (resume id i t) s Q.
Proof.
  intros Hlen Hi Hr Hh Hcp HQ. unfold resume, getp. wstep. wstep. fold (pt s i). assert (Hne : h c <> []) by (by rewrite Hh).
  destruct (p_context (pt s i)) as [|v [|lk|]]; [| | |done].
  - wstep. unfold forkret. wstep. eapply (wp_krelease_pt s h b); [done|done|]. intros m Hm. wstep. wstep.
    cbn [k_first kset set_field]. destruct (k_first s); unfold when; repeat wstep.
    + by apply (HQ m false).
    + pose proof (HQ m (k_first s) Hm) as Hq. destruct s. exact Hq.
  - wstep. eapply (wp_sched_back s h b); [done|done|]. intros m1 H1. unfold yield_back. wstep.
    eapply (wp_krelease_pt _ h); [exact H1|done|]. intros m Hm. wstep. by apply (HQ m).
  - wstep. eapply (wp_sched_back s h b); [done|done|]. intros m1 H1. unfold sleep_back. wstep.
    wstep. eapply wp_curproc; [exact here|exact H1|exact Hcp|]. intros m2 H2. wstep. apply wp_setp. cbv beta.
    destruct (set_slot s i ((pt s i) <| p_chan := None |>) Hlen Hi) as [Ht Hj].
    destruct (lk =? PTLOCK) eqn:E; simpl negb; unfold when.
    + wstep. wstep. refine (HQ m2 _ [PTLOCK] _ Ht eq_refl Hj).
      eapply mach_rep_ext; [exact H2|]. intros c' _. unfold updn. repeat case_decide; subst; by rewrite ?Hh.
    + eapply (wp_krelease_pt _ h); [exact H2|done|]. intros m Hm. wstep. exact (HQ m _ [] Hm Ht eq_refl Hj).
Qed.
End effects.

(** * The invariant of the scheduler: which process runs where, what every
    suspended thread will do next, and which locks are held. *)

Section inv.
Variable ids : list Z.
Variable lockof : Z -> Z.
Hypothesis lockof_ok : forall a, lockof a <> PTLOCK /\ lockof a <> 0.

(** The locks a running thread at [t] holds. *)
Definition held_ok (t : tpos) (hc : list Z) : Prop :=
  match t with
  | TRun => PTLOCK ∉ hc
  | TSignal a => PTLOCK ∉ hc /\ lockof a ∈ hc
  | TRelock lk => hc = [] /\ lk <> PTLOCK
  | TFork _ _ => hc = []
  | TSleep1 a => hc = [PTLOCK; lockof a]
  | TSleep2 _ | TWait => hc = [PTLOCK]
  | TAsleep => False
  end.

(** A CPU: [o] is its [proc] field. *)
Definition cpu_ok (l : cloc) (o : option nat) (hc : list Z) (tp : nat -> tpos) : Prop :=
  match l with
  | Top => o = None /\ hc = []
  | Scan i => o = None /\ hc = [PTLOCK] /\ (i <= NPROC)%nat
  | InProc => exists p, o = Some p /\ held_ok (tp p) hc
  end.

(** A thread that does not run can be resumed from its context. *)
Definition thr_ok (p : nat) (x : proc) (t : tpos) : Prop :=
  match p_state x with
  | RUNNING => True
  | RUNNABLE =>
      match p_context x with
      | CForkret => t = TRun
      | CSched _ KYield => held_ok t []
      | CSched _ (KSleep _) => t = TAsleep
      | CSched _ KExit => False
      end
  | SLEEPING => t = TAsleep /\ exists i,
      p_context x = CSched i (KSleep PTLOCK) /\ p_chan x = Some (CProc p) \/
      exists a, p_context x = CSched i (KSleep (lockof a)) /\ p_chan x = Some (CAddr a)
  | UNUSED | EMBRYO | ZOMBIE => t = TRun
  end.

(** The slots being filled by [fork]. *)
Record forks (T : nat -> proc) (tp : nat -> tpos) : Prop := {
  fk_slot : forall p np st, tp p = TFork np st ->
    (np < NPROC)%nat /\ p_state (T np) = EMBRYO /\ (st <> FSlot -> p_context (T np) = CForkret);
  fk_uniq : forall p p' np st st', tp p = TFork np st -> tp p' = TFork np st' -> p = p';
  fk_emb : forall np, p_state (T np) = EMBRYO -> exists p st, tp p = TFork np st
}.

Record binv (s : sys) (h : nat -> list Z) (b : nat -> bool) : Prop := {
  bi_rep : mach_rep ids (k_mach (y_k s)) h no_depth b;
  bi_ncp : length (k_cproc (y_k s)) = length ids;
  bi_nsc : length (k_sched (y_k s)) = length ids;
  bi_npt : length (k_ptab (y_k s)) = NPROC;
  bi_cpu : forall c, (c < length ids)%nat -> cpu_ok (y_cl s c) (cp (y_k s) c) (h c) (y_tp s);
  bi_run : forall p, p_state (pt (y_k s) p) = RUNNING <-> exists c, (c < length ids)%nat /\ cp (y_k s) c = Some p;
  bi_uniq : forall c c' p, (c < length ids)%nat -> (c' < length ids)%nat -> cp (y_k s) c = Some p -> cp (y_k s) c' = Some p -> c = c';
  bi_thr : forall p, thr_ok p (pt (y_k s) p) (y_tp s p);
  bi_sched : forall c, (c < length ids)%nat -> (k_sched (y_k s) !!! c < NPROC)%nat \/ cp (y_k s) c = None;
  bi_fork : forks (pt (y_k s)) (y_tp s)
}.
Definition inv (s : sys) : Prop := exists h b, binv s h b.

(** ** Consequences *)

Lemma slot_lt s h b p : binv s h b -> p_state (pt (y_k s) p) <> UNUSED -> (p < NPROC)%nat.
Proof.
  intros H Hp. destruct (decide (p < NPROC)%nat); [done|]. destruct Hp. unfold pt. rewrite tab_out; [done|].
  rewrite (bi_npt _ _ _ H). lia.
Qed.

Lemma on_facts s h b c id p t :
  binv s h b -> ids !! c = Some id -> on s c p t ->
  (p < NPROC)%nat /\ p_state (pt (y_k s) p) = RUNNING /\ held_ok t (h c) /\ (c < length ids)%nat.
Proof.
  intros H Hc (Hl & Hp & Ht). pose proof (lookup_lt_Some _ _ _ Hc) as Hlt.
  assert (Hr : p_state (pt (y_k s) p) = RUNNING) by (apply (bi_run _ _ _ H); by exists c).
  split; [eapply slot_lt; [done|]; by rewrite Hr|]. split; [done|]. split; [|done].
  pose proof (bi_cpu _ _ _ H c Hlt) as Hk. rewrite Hl in Hk. destruct Hk as (q & Hq & Hk). rewrite Hp in Hq. injection Hq as <-.
  by rewrite <- Ht.
Qed.

Lemma ncli_held s h b c id n :
  binv s h b -> ids !! c = Some id -> ncli s c = Z.of_nat n -> length (h c) = n.
Proof.
  intros H Hc Hn. destruct (mr_cpu _ _ _ _ _ (bi_rep _ _ _ H) c id Hc) as (x & Hx & _ & Hx2 & _).
  unfold ncli in Hn. rewrite (list_lookup_total_correct _ _ _ Hx) in Hn. lia.
Qed.

Lemma ncli_none s h b c id : binv s h b -> ids !! c = Some id -> ncli s c = 0 -> h c = [].
Proof. intros H Hc Hn. apply nil_length_inv. by eapply (ncli_held s h b c id O). Qed.

Lemma holds_held s h b c id l : binv s h b -> ids !! c = Some id -> holds s c l <-> l ∈ h c.
Proof.
  intros H Hc. unfold holds. rewrite (mr_owner _ _ _ _ _ (bi_rep _ _ _ H)).
  pose proof (lookup_lt_Some _ _ _ Hc). tauto.
Qed.

(** ** A step of CPU [c] *)

Lemma cpu_ok_ext l o hc tp tp' : (forall p, o = Some p -> tp' p = tp p) -> cpu_ok l o hc tp -> cpu_ok l o hc tp'.
Proof. intros E. destruct l; simpl; [done|done|]. intros (p & -> & H). exists p. by rewrite E. Qed.

Lemma forks_ext T tp T' tp' :
  forks T tp -> (forall p np st, tp' p = TFork np st <-> tp p = TFork np st) ->
  (forall j, p_state (T' j) = EMBRYO <-> p_state (T j) = EMBRYO) ->
  (forall j, p_state (T j) = EMBRYO -> p_context (T' j) = p_context (T j)) ->
  forks T' tp'.
Proof.
  intros [H1 H2 H3] Et Es Ec. split.
  - intros p np st (Hn & He & Hx)%Et%H1. split; [done|]. split; [by apply Es|]. by rewrite Ec.
  - intros p p' np st st' E1%Et E2%Et. by eapply H2.
  - intros np (p & st & Hp)%Es%H3. exists p, st. by apply Et.
Qed.

(** The general form: the CPU's own location, lock set and process may change,
    and slots whose process does not run elsewhere. *)
Lemma binv_step s h b c l o hc b' m tab tp' cond k' :
  binv s h b -> (c < length ids)%nat ->
  k_mach k' = m -> k_ptab k' = tab -> k_cproc k' = <[c := o]> (k_cproc (y_k s)) -> length (k_sched k') = length ids ->
  (forall c', c' <> c -> k_sched k' !!! c' = k_sched (y_k s) !!! c') -> ((k_sched k' !!! c < NPROC)%nat \/ o = None) ->
  mach_rep ids m (updn h c hc) no_depth b' -> length tab = NPROC ->
  cpu_ok l o hc tp' ->
  (forall j, o <> Some j -> cp (y_k s) c <> Some j -> p_state (tab !!! j) = RUNNING <-> p_state (pt (y_k s) j) = RUNNING) ->
  (forall j, o = Some j -> p_state (tab !!! j) = RUNNING /\ (cp (y_k s) c = Some j \/ p_state (pt (y_k s) j) <> RUNNING)) ->
  (forall j, cp (y_k s) c = Some j -> o <> Some j -> p_state (tab !!! j) <> RUNNING) ->
  (forall c' j, (c' < length ids)%nat -> c' <> c -> cp (y_k s) c' = Some j -> tp' j = y_tp s j) ->
  (forall j, thr_ok j (tab !!! j) (tp' j)) ->
  forks (fun j => tab !!! j) tp' ->
  binv (mk_sys k' (updn (y_cl s) c l) tp' cond) (updn h c hc) b'.
Proof.
  intros H Hc Em Et Ec Hsc Hsc' Hscc Hr Hlen Hcpu Hr1 Hr2 Hr3 Htp Hthr Hfk.
  assert (Hncp : (c < length (k_cproc (y_k s)))%nat) by (by rewrite (bi_ncp _ _ _ H)).
  assert (Ecp : forall c', cp k' c' = updn (cp (y_k s)) c o c').
  { intros c'. unfold cp. rewrite Ec. unfold updn. case_decide; [subst; by apply list_lookup_total_insert_eq|by apply list_lookup_total_insert_ne]. }
  assert (Ept : forall j, pt k' j = tab !!! j) by (intros j; unfold pt; by rewrite Et).
  split; cbn [y_k y_cl y_tp].
  - by rewrite Em.
  - rewrite Ec, length_insert. apply (bi_ncp _ _ _ H).
  - done.
  - by rewrite Et.
  - intros c' Hc'. rewrite Ecp. unfold updn. case_decide as E; [done|].
    eapply cpu_ok_ext; [|apply (bi_cpu _ _ _ H c' Hc')]. intros p Hp. by eapply Htp.
  - intros p. rewrite Ept. split.
    + intros Hp. destruct (decide (o = Some p)) as [Eo|Eo]; [exists c; by rewrite Ecp, updn_eq|].
      destruct (decide (cp (y_k s) c = Some p)) as [Ecs|Ecs]; [by destruct (Hr3 p)|].
      apply Hr1 in Hp; [|done..]. apply (bi_run _ _ _ H) in Hp as (c' & Hc' & Hp). exists c'.
      rewrite Ecp, updn_ne; [done|]. by intros ->.
    + intros (c' & Hc' & Hp). rewrite Ecp in Hp. unfold updn in Hp. case_decide as E; [by apply Hr2|].
      assert (cp (y_k s) c <> Some p) by (intros Hx; by apply E, (bi_uniq _ _ _ H c' c p)).
      assert (o <> Some p).
      { intros Hx. destruct (Hr2 p Hx) as [_ [Hy|Hy]]; [done|]. apply Hy, (bi_run _ _ _ H). by exists c'. }
      apply Hr1; [done|done|]. apply (bi_run _ _ _ H). by exists c'.
  - intros c1 c2 p Hc1 Hc2. rewrite !Ecp. unfold updn.
    assert (Hx : forall c', (c' < length ids)%nat -> c' <> c -> cp (y_k s) c' = Some p -> o = Some p -> False).
    { intros c' Hc' Hne Hp Ho. destruct (Hr2 p Ho) as [_ [Hy|Hy]]; [by apply Hne, (bi_uniq _ _ _ H c' c p)|].
      apply Hy, (bi_run _ _ _ H). by exists c'. }
    repeat case_decide; subst; try done.
    + intros Ho Hp. by destruct (Hx c2).
    + intros Hp Ho. by destruct (Hx c1).
    + by apply (bi_uniq _ _ _ H).
  - intros p. rewrite Ept. apply Hthr.
  - intros c' Hc'. rewrite Ecp. unfold updn. case_decide as E; [by subst|]. rewrite Hsc' by done. by apply (bi_sched _ _ _ H).
  - destruct Hfk as [F1 F2 F3]. split; [|exact F2|].
    + intros p np st Hp. rewrite !Ept. by apply F1 with p.
    + intros np. rewrite Ept. apply F3.
Qed.

Lemma binv_cl k cl cl' tp cond cond' h b :
  binv (mk_sys k cl tp cond) h b -> (forall c, cl' c = cl c) -> binv (mk_sys k cl' tp cond') h b.
Proof. intros H E. destruct H. split; cbn in *; try done. intros c Hc. rewrite E. by apply bi_cpu0. Qed.

Definition state_of (s : sys) (p : nat) : procstate := p_state (pt (y_k s) p).

(** The kernel after a step that leaves the schedulers' positions alone. *)
Definition quiet (k k' : kern) (m : mach) (tab : list proc) (cpr : list (option nat)) : Prop :=
  k_mach k' = m /\ k_ptab k' = tab /\ k_cproc k' = cpr /\ k_sched k' = k_sched k.

(** Thread [p] stays on its CPU. *)
Lemma inv_moved s h b c id p t t' hc b' m tab k' cond :
  binv s h b -> ids !! c = Some id -> on s c p t -> quiet (y_k s) k' m tab (k_cproc (y_k s)) ->
  mach_rep ids m (updn h c hc) no_depth b' -> held_ok t' hc -> length tab = NPROC ->
  (forall j, p_state (tab !!! j) = RUNNING <-> state_of s j = RUNNING) ->
  (forall j, j <> p -> thr_ok j (tab !!! j) (y_tp s j)) ->
  forks (fun j => tab !!! j) (updn (y_tp s) p t') ->
  inv (mk_sys k' (y_cl s) (updn (y_tp s) p t') cond).
Proof.
  intros H Hc Hon (Em & Et & Ecp & Esc) Hr Hh Hlen Hrun Hthr Hfk.
  destruct (on_facts s h b c id p t H Hc Hon) as (Hp & Hst & _ & Hlt). destruct Hon as (Hl & Hcp & Ht).
  exists (updn h c hc), b'. eapply (binv_cl _ (updn (y_cl s) c InProc) _ _ cond).
  2:{ intros c'. unfold updn. case_decide; by subst. }
  eapply (binv_step s h b c InProc (Some p)); try done.
  - rewrite Ecp. symmetry. apply list_insert_id'. intros Hlt'. change (cp (y_k s) c = Some p) in Hcp. unfold cp in Hcp.
    destruct (lookup_lt_is_Some_2 _ _ Hlt') as [o Ho]. rewrite (list_lookup_total_correct _ _ _ Ho) in Hcp. congruence.
  - rewrite Esc. apply (bi_nsc _ _ _ H).
  - intros c' _. by rewrite Esc.
  - rewrite Esc. destruct (bi_sched _ _ _ H c Hlt) as [|E]; [by left|congruence].
  - exists p. split; [done|]. by rewrite updn_eq.
  - intros j E. injection E as <-. split; [by apply Hrun|]. by left.
  - intros j E E'. congruence.
  - intros c' j Hc' Hne Hj. rewrite updn_ne; [done|]. intros ->. by apply Hne, (bi_uniq _ _ _ H c' c p).
  - intros j. destruct (decide (j = p)) as [->|Hne].
    + unfold thr_ok. by rewrite (proj2 (Hrun p) Hst).
    + rewrite updn_ne by done. by apply Hthr.
Qed.

(** Thread [p] leaves its CPU. *)
Lemma inv_left s h b c id p t t' b' m tab k' :
  binv s h b -> ids !! c = Some id -> on s c p t -> quiet (y_k s) k' m tab (<[c := None]> (k_cproc (y_k s))) ->
  mach_rep ids m (updn h c [PTLOCK]) no_depth b' -> length tab = NPROC ->
  p_state (tab !!! p) <> RUNNING -> thr_ok p (tab !!! p) t' ->
  (forall j, j <> p -> p_state (tab !!! j) = RUNNING <-> state_of s j = RUNNING) ->
  (forall j, j <> p -> thr_ok j (tab !!! j) (y_tp s j)) ->
  forks (fun j => tab !!! j) (updn (y_tp s) p t') ->
  inv (left_cpu s c p t' (S (k_sched (y_k s) !!! c)) k').
Proof.
  intros H Hc Hon (Em & Et & Ecp & Esc) Hr Hlen Hnr Hpt Hrun Hthr Hfk.
  destruct (on_facts s h b c id p t H Hc Hon) as (Hp & Hst & _ & Hlt). destruct Hon as (Hl & Hcp & Ht).
  exists (updn h c [PTLOCK]), b'. eapply (binv_step s h b c _ None); try done.
  - rewrite Esc. apply (bi_nsc _ _ _ H).
  - intros c' _. by rewrite Esc.
  - by right.
  - simpl. split; [done|]. split; [done|]. destruct (bi_sched _ _ _ H c Hlt) as [|E]; [lia|congruence].
  - intros j _ Hj. apply Hrun. congruence.
  - intros j Hj _. congruence.
  - intros c' j Hc' Hne Hj. rewrite updn_ne; [done|]. intros ->. by apply Hne, (bi_uniq _ _ _ H c' c p).
  - intros j. destruct (decide (j = p)) as [->|Hne]; [by rewrite updn_eq|]. rewrite updn_ne by done. by apply Hthr.
Qed.

(** A CPU in its scheduler moves on, without switching. *)
Lemma inv_cpu_at s h b c id l hc b' m tab k' cond :
  binv s h b -> ids !! c = Some id -> y_cl s c <> InProc -> l <> InProc -> quiet (y_k s) k' m tab (k_cproc (y_k s)) ->
  mach_rep ids m (updn h c hc) no_depth b' -> cpu_ok l None hc (y_tp s) -> length tab = NPROC ->
  (forall j, p_state (tab !!! j) = RUNNING <-> state_of s j = RUNNING) ->
  (forall j, thr_ok j (tab !!! j) (y_tp s j)) ->
  forks (fun j => tab !!! j) (y_tp s) ->
  inv (mk_sys k' (updn (y_cl s) c l) (y_tp s) cond).
Proof.
  intros H Hc Hl Hl' (Em & Et & Ecp & Esc) Hr Hk Hlen Hrun Hthr Hfk. pose proof (lookup_lt_Some _ _ _ Hc) as Hlt.
  assert (Hno : cp (y_k s) c = None).
  { pose proof (bi_cpu _ _ _ H c Hlt) as Hx. destruct (y_cl s c); simpl in Hx; [by destruct Hx|by destruct Hx|done]. }
  exists (updn h c hc), b'. eapply (binv_step s h b c _ None); try done.
  - rewrite Ecp. symmetry. apply list_insert_id'. intros Hlt'. unfold cp in Hno.
    destruct (lookup_lt_is_Some_2 _ _ Hlt') as [o Ho]. rewrite (list_lookup_total_correct _ _ _ Ho) in Hno. congruence.
  - rewrite Esc. apply (bi_nsc _ _ _ H).
  - intros c' _. by rewrite Esc.
  - by right.
  - intros j Hj _. congruence.
Qed.

(** Waking sleepers: everything else stays as it was. *)
Definition woken (x x' : proc) : Prop :=
  p_context x' = p_context x /\ p_chan x' = p_chan x /\
  (p_state x' = p_state x \/ p_state x = SLEEPING /\ p_state x' = RUNNABLE).

Lemma woken_refl x : woken x x.
Proof. unfold woken. tauto. Qed.

Lemma woken_wake ch x : woken x (wake ch x).
Proof.
  unfold wake. case_match eqn:E; [|apply woken_refl]. apply andb_true_iff in E as [E _]. apply bool_decide_eq_true in E.
  unfold woken. cbn. tauto.
Qed.

Lemma woken_killed x : woken x (killed x).
Proof. unfold killed. cbn. case_bool_decide as E; unfold woken; cbn; tauto. Qed.

Lemma woken_give p ini x x' : woken x x' -> woken x (give p ini x').
Proof. unfold give, woken. case_match; by cbn. Qed.

Lemma woken_trans x y z : woken x y -> woken y z -> woken x z.
Proof. unfold woken. intros (-> & -> & H1) (-> & -> & H2). destruct H1 as [H1|[? H1]], H2 as [H2|[? H2]]; rewrite ?H1, ?H2 in *; try tauto; congruence. Qed.

Lemma woken_run x x' : woken x x' -> p_state x' = RUNNING <-> p_state x = RUNNING.
Proof. intros (_ & _ & [->|[-> ->]]); done. Qed.

Lemma woken_thr p x x' t : woken x x' -> thr_ok p x t -> thr_ok p x' t.
Proof.
  intros (Ec & En & [Es|[E1 E2]]) H.
  - unfold thr_ok in *. by rewrite Es, Ec, En.
  - unfold thr_ok in *. rewrite E2, Ec. rewrite E1 in H. destruct H as (Ht & i & [[-> _]|(a & -> & _)]); done.
Qed.

Lemma woken_forks T T' tp : forks T tp -> (forall j, woken (T j) (T' j)) -> forks T' tp.
Proof.
  intros H Hw. eapply forks_ext; [done|done| |].
  - intros j. destruct (Hw j) as (_ & _ & [->|[-> ->]]); done.
  - intros j _. by destruct (Hw j) as (-> & _).
Qed.

(** The thread that moves neither starts nor ends a [fork]. *)
Lemma forks_move T tp p t :
  forks T tp -> (forall np st, t = TFork np st <-> tp p = TFork np st) -> forks T (updn tp p t).
Proof.
  intros H E. eapply forks_ext; [done| |done|done]. intros q np st. unfold updn. case_decide; [subst; apply E|done].
Qed.
End inv.
