(* ===== verification/ProcSafe.v ===== *)
(** Every call a CPU can make keeps the invariant of [ProcEff] and does not
    panic. *)

From S2P Require Import Prelude CString Spinlock LockRep Proc ProcOps ProcEff.

Lemma safe_then {S A B} (m : M S A) (f : A -> B) s (Q : B -> S -> Prop) :
  safe m s (fun a s' => Q (f a) s') -> safe (a ← m; mret (f a)) s Q.
Proof. intros H. apply safe_bind. exact H. Qed.

Section safe.
Variable ids : list Z.
Variable lockof : Z -> Z.
Hypothesis lockof_ok : forall a, lockof a <> PTLOCK /\ lockof a <> 0.

Notation binv := (binv ids lockof).
Notation inv := (inv ids lockof).
Notation good := (fun (f : kern -> sys) k => inv (f k)).

(** Only the locks change. *)
Lemma inv_thread s h b c id p t t' hc b' m k' cond :
  binv s h b -> ids !! c = Some id -> on s c p t -> quiet (y_k s) k' m (k_ptab (y_k s)) (k_cproc (y_k s)) ->
  mach_rep ids m (updn h c hc) no_depth b' -> held_ok lockof t' hc -> (forall np st, t' = TFork np st <-> t = TFork np st) ->
  inv (mk_sys k' (y_cl s) (updn (y_tp s) p t') cond).
Proof.
  intros H Hc Hon Hq Hr Hh Ht. eapply (inv_moved ids lockof s h b c id p t t'); try done.
  - apply (bi_npt _ _ _ _ _ H).
  - intros j _. apply (bi_thr _ _ _ _ _ H).
  - apply forks_move; [apply (bi_fork _ _ _ _ _ H)|]. destruct Hon as (_ & _ & ->). done.
Qed.

Lemma rep_same m h b c : mach_rep ids m h no_depth b -> mach_rep ids m (updn h c (h c)) no_depth b.
Proof. intros H. eapply mach_rep_ext; [done|]. intros c' _. unfold updn. case_decide; by subst. Qed.

(** Sleepers are woken, and the thread moves. *)
Lemma inv_woken s h b c id p t t' hc b' m tab k' cond :
  binv s h b -> ids !! c = Some id -> on s c p t -> quiet (y_k s) k' m tab (k_cproc (y_k s)) ->
  mach_rep ids m (updn h c hc) no_depth b' -> held_ok lockof t' hc -> (forall np st, t' = TFork np st <-> t = TFork np st) ->
  length tab = NPROC -> (forall j, woken (pt (y_k s) j) (tab !!! j)) ->
  inv (mk_sys k' (y_cl s) (updn (y_tp s) p t') cond).
Proof.
  intros H Hc Hon Hq Hr Hh Ht Hlen Hw. eapply (inv_moved ids lockof s h b c id p t t'); try done.
  - intros j. apply woken_run, Hw.
  - intros j _. eapply woken_thr; [apply Hw|]. apply (bi_thr _ _ _ _ _ H).
  - apply forks_move; [|destruct Hon as (_ & _ & ->); done]. eapply woken_forks; [apply (bi_fork _ _ _ _ _ H)|done].
Qed.

(** A preemptible thread does not hold [ptable.lock]. *)
Lemma preemptible_pt t hc : preemptible t = true -> held_ok lockof t hc -> PTLOCK ∉ hc.
Proof. destruct t; simpl; try done; [intros _ [-> _]|intros _ ->]; set_solver. Qed.

Lemma held_nil t : preemptible t = true -> forall hc, held_ok lockof t hc -> held_ok lockof t [].
Proof. destruct t; simpl; try done; [set_solver|by intros _ hc [_ ?]]. Qed.

Section calls.
Variables (s : sys) (h : nat -> list Z) (b : nat -> bool) (c : nat) (id : Z).
Hypothesis Hb : binv s h b.
Hypothesis Hc : ids !! c = Some id.

Let Hlt : (c < length ids)%nat := lookup_lt_Some _ _ _ Hc.
Let Hr := bi_rep _ _ _ _ _ Hb.
Let Hnpt := bi_npt _ _ _ _ _ Hb.

Lemma top_facts : y_cl s c = Top -> h c = [].
Proof. intros Hl. pose proof (bi_cpu _ _ _ _ _ Hb c Hlt) as Hk. rewrite Hl in Hk. by destruct Hk. Qed.

Lemma call_top : y_cl s c = Top -> safe (scheduler_top id;; mret (cpu_at s c (Scan 0))) (y_k s) good.
Proof.
  intros Hl. apply safe_then. eapply (safe_top c id Hc); [exact Hr|by apply top_facts|]. intros m Hf Hm.
  eapply (inv_cpu_at ids lockof s h b c id); try done; [by rewrite Hl|simpl; split_and!; try done; lia| |].
  - intros j. apply (bi_thr _ _ _ _ _ Hb).
  - apply (bi_fork _ _ _ _ _ Hb).
Qed.

Lemma call_end : y_cl s c = Scan NPROC -> safe (krelease id PTLOCK;; mret (cpu_at s c Top)) (y_k s) good.
Proof.
  intros Hl. pose proof (bi_cpu _ _ _ _ _ Hb c Hlt) as Hk. rewrite Hl in Hk. destruct Hk as (_ & Hh & _).
  apply safe_then, wp_safe. eapply (wp_krelease_pt c id Hc); [exact Hr|done|]. intros m Hm.
  eapply (inv_cpu_at ids lockof s h b c id); try done; [by rewrite Hl| |].
  - intros j. apply (bi_thr _ _ _ _ _ Hb).
  - apply (bi_fork _ _ _ _ _ Hb).
Qed.

Lemma call_idle_wakeup a : y_cl s c = Top -> safe (wakeup id (CAddr a);; mret (cpu_at s c Top)) (y_k s) good.
Proof.
  intros Hl. pose proof (top_facts Hl) as Hh. apply safe_then.
  eapply (safe_wakeup c id Hc); [done|exact Hr|rewrite Hh; set_solver|]. intros m tab Hf Hm Ht Hj.
  assert (Hw : forall j, woken (pt (y_k s) j) (tab !!! j)) by (intros j; rewrite Hj; apply woken_wake).
  eapply (inv_cpu_at ids lockof s h b c id _ []); try done; [by rewrite Hl| | | |].
  - rewrite <- Hh. by apply rep_same.
  - intros j. apply woken_run, Hw.
  - intros j. eapply woken_thr; [apply Hw|]. apply (bi_thr _ _ _ _ _ Hb).
  - eapply woken_forks; [apply (bi_fork _ _ _ _ _ Hb)|done].
Qed.

Lemma call_acquire p l : on s c p TRun -> l <> PTLOCK -> ~ holds s c l -> safe (kacquire id l;; mret (moved s p TRun)) (y_k s) good.
Proof.
  intros Hon Hl Hn. rewrite (holds_held ids lockof s h b c id) in Hn by done.
  destruct (on_facts ids lockof s h b c id p TRun Hb Hc Hon) as (Hp & Hst & Hh & _). simpl in Hh.
  apply safe_then. eapply (safe_kacquire c id Hc); [exact Hr|done|]. intros m Hf Hm.
  eapply (inv_thread s h b c id p TRun); try done. simpl. set_solver.
Qed.

Lemma call_release p l : on s c p TRun -> l <> PTLOCK -> holds s c l -> safe (krelease id l;; mret (moved s p TRun)) (y_k s) good.
Proof.
  intros Hon Hl Hn. rewrite (holds_held ids lockof s h b c id) in Hn by done.
  destruct (on_facts ids lockof s h b c id p TRun Hb Hc Hon) as (Hp & Hst & Hh & _). simpl in Hh.
  apply safe_then, wp_safe. eapply (wp_krelease c id Hc); [exact Hr|done|]. intros m Hm.
  eapply (inv_thread s h b c id p TRun); try done. simpl. intros Hx%list_elem_of_filter. naive_solver.
Qed.

Lemma call_flag p t (enable : bool) : on s c p t -> preemptible t = true -> ncli s c = 0 ->
  safe (onm (if enable then sti id else cli id);; mret (moved s p t)) (y_k s) good.
Proof.
  intros Hon Ht Hn. destruct (on_facts ids lockof s h b c id p t Hb Hc Hon) as (Hp & Hst & Hh & _).
  pose proof (ncli_none ids lockof s h b c id Hb Hc Hn) as H0. apply safe_then, wp_safe.
  assert (Hz : (length (h c) + 0 = 0)%nat) by (by rewrite H0).
  destruct enable.
  - destruct (mr_sti _ _ _ _ c id Hr Hc Hz) as (m & Hm & Hm'). eapply wp_onm; [exact Hm|].
    eapply (inv_thread s h b c id p t); try done. by apply rep_same.
  - destruct (mr_cli _ _ _ _ c id Hr Hc Hz) as (m & Hm & Hm'). eapply wp_onm; [exact Hm|].
    eapply (inv_thread s h b c id p t); try done. by apply rep_same.
Qed.

Lemma call_wakeup p t t' a : on s c p t -> PTLOCK ∉ h c -> held_ok lockof t' (h c) -> (forall np st, t' = TFork np st <-> t = TFork np st) ->
  safe (wakeup id (CAddr a);; mret (moved s p t')) (y_k s) good.
Proof.
  intros Hon Hn Hh Ht. apply safe_then. eapply (safe_wakeup c id Hc); [done|exact Hr|done|].
  intros m tab Hf Hm Hl Hj. eapply (inv_woken s h b c id p t); try done; [by apply rep_same|]. intros j. rewrite Hj. apply woken_wake.
Qed.

Lemma call_kill p pid : on s c p TRun -> safe (kill id pid;; mret (moved s p TRun)) (y_k s) good.
Proof.
  intros Hon. destruct (on_facts ids lockof s h b c id p TRun Hb Hc Hon) as (Hp & Hst & Hh & _). simpl in Hh.
  apply safe_then. eapply (safe_kill c id Hc); [done|exact Hr|done|]. intros m tab o Hf Hm Hl _ Hj.
  eapply (inv_woken s h b c id p TRun); try done; [by apply rep_same|]. intros j. rewrite Hj.
  case_decide; [apply woken_killed|apply woken_refl].
Qed.

Lemma call_sleep1 p a : on s c p TRun -> holds s c (lockof a) -> ncli s c = 1 ->
  safe (sleep_lock id (lockof a);; mret (moved s p (TSleep1 a))) (y_k s) good.
Proof.
  intros Hon Hl Hn. rewrite (holds_held ids lockof s h b c id) in Hl by done. destruct (lockof_ok a) as [Hne H0].
  pose proof (ncli_held ids lockof s h b c id 1 Hb Hc Hn) as H1.
  assert (Hh : h c = [lockof a]).
  { destruct (h c) as [|x [|y l]]; simpl in H1; [done| |done]. f_equal. set_solver. }
  apply safe_then. eapply (safe_sleep_lock c id Hc); [exact Hr|done|apply Hon|done|done|]. intros m Hf Hm.
  eapply (inv_thread s h b c id p TRun); try done.
Qed.

Lemma call_sleep2 p a : on s c p (TSleep1 a) -> safe (sleep_unlock id (lockof a);; mret (moved s p (TSleep2 a))) (y_k s) good.
Proof.
  intros Hon. destruct (on_facts ids lockof s h b c id p _ Hb Hc Hon) as (Hp & Hst & Hh & _). simpl in Hh.
  apply safe_then, wp_safe. eapply (wp_sleep_unlock c id Hc); [exact Hr|done|apply lockof_ok|]. intros m Hm.
  eapply (inv_thread s h b c id p (TSleep1 a)); try done.
Qed.

Lemma call_relock p lk : on s c p (TRelock lk) -> safe (sleep_relock id lk;; mret (moved s p TRun)) (y_k s) good.
Proof.
  intros Hon. destruct (on_facts ids lockof s h b c id p _ Hb Hc Hon) as (Hp & Hst & (Hh & Hlk) & _).
  apply safe_then. eapply (safe_sleep_relock c id Hc); [exact Hr|done|done|]. intros m Hf Hm.
  eapply (inv_thread s h b c id p (TRelock lk)); try done. simpl. set_solver.
Qed.

Lemma call_wait p : on s c p TRun -> ncli s c = 0 -> safe (kacquire id PTLOCK;; mret (moved s p TWait)) (y_k s) good.
Proof.
  intros Hon Hn. pose proof (ncli_none ids lockof s h b c id Hb Hc Hn) as Hh.
  apply safe_then. eapply (safe_kacquire c id Hc); [exact Hr|rewrite Hh; set_solver|]. intros m Hf Hm. rewrite Hh in Hm.
  eapply (inv_thread s h b c id p TRun); try done.
Qed.

(** The ways to give up the CPU. *)
Lemma switch_out p t t' x m tab k :
  on s c p t -> (forall np st, t' = TFork np st <-> t = TFork np st) ->
  mach_rep ids m (updn h c [PTLOCK]) no_depth b -> quiet (y_k s) k m tab (<[c := None]> (k_cproc (y_k s))) ->
  length tab = NPROC -> tab !!! p = x -> p_state x <> RUNNING -> p_state x <> EMBRYO -> thr_ok lockof p x t' ->
  (forall j, j <> p -> woken (pt (y_k s) j) (tab !!! j)) ->
  inv (left_cpu s c p t' (S (k_sched (y_k s) !!! c)) k).
Proof.
  intros Hon Ht Hm Hq Hl Hx Hnr Hne Hthr Hw. 
  destruct (on_facts ids lockof s h b c id p t Hb Hc Hon) as (Hp & Hst & _).
  eapply (inv_left ids lockof s h b c id p t t'); try done; rewrite ?Hx; try done.
  - intros j Hj. by apply woken_run, Hw.
  - intros j Hj. eapply woken_thr; [by apply Hw|]. apply (bi_thr _ _ _ _ _ Hb).
  - apply forks_move; [|destruct Hon as (_ & _ & ->); done].
    eapply forks_ext; [apply (bi_fork _ _ _ _ _ Hb)|done| |].
    + intros j. destruct (decide (j = p)) as [->|Hj]; [rewrite Hx, Hst; done|].
      destruct (Hw j Hj) as (_ & _ & [->|[-> ->]]); done.
    + intros j Hj. destruct (decide (j = p)) as [->|Hjp]; [congruence|]. by destruct (Hw j Hjp) as (-> & _).
Qed.

Lemma call_yield p t : on s c p t -> preemptible t = true -> ncli s c = 0 ->
  safe (i ← switch id (yield id); mret (left_cpu s c p t i)) (y_k s) good.
Proof.
  intros Hon Ht Hn. pose proof (ncli_none ids lockof s h b c id Hb Hc Hn) as H0.
  destruct (on_facts ids lockof s h b c id p t Hb Hc Hon) as (Hp & Hst & Hh & _).
  apply safe_then. eapply (safe_yield c id Hc); [done|exact Hp|exact Hr|done|apply Hon|].
  intros m tab Hf Hm Hl Hj. eapply (switch_out p t t (switched (pt (y_k s) p) RUNNABLE (b c) KYield)); try done.
  - by rewrite Hj, updn_eq.
  - simpl. by eapply held_nil.
  - intros j Hne. rewrite Hj, updn_ne by done. apply woken_refl.
Qed.

Lemma call_sleep3 p a : on s c p (TSleep2 a) ->
  safe (i ← switch id (sleep_sched id (CAddr a) (lockof a)); mret (left_cpu s c p TAsleep i)) (y_k s) good.
Proof.
  intros Hon. destruct (on_facts ids lockof s h b c id p _ Hb Hc Hon) as (Hp & Hst & Hh & _). simpl in Hh.
  apply safe_then, wp_safe. eapply (wp_sleep_sched c id Hc); [done|exact Hp|exact Hr|done|apply Hon|].
  intros m tab Hm Hl Hj. eapply (switch_out p (TSleep2 a) TAsleep (slept (pt (y_k s) p) (CAddr a) (b c) (lockof a))); try done.
  - rewrite <- Hh. by apply rep_same.
  - by rewrite Hj, updn_eq.
  - split; [done|]. exists (b c). right. by exists a.
  - intros j Hne. rewrite Hj, updn_ne by done. apply woken_refl.
Qed.

Lemma call_exit p : on s c p TRun -> ncli s c = 0 ->
  safe (i ← switch id (exit_table id); mret (left_cpu s c p TRun i)) (y_k s) good.
Proof.
  intros Hon Hn. pose proof (ncli_none ids lockof s h b c id Hb Hc Hn) as H0.
  destruct (on_facts ids lockof s h b c id p _ Hb Hc Hon) as (Hp & Hst & Hh & _).
  apply safe_then. eapply (safe_exit c id Hc); [done|exact Hp|done|exact Hr|done|apply Hon|].
  intros m tab Hf Hm Hl Hj.
  eapply (switch_out p TRun TRun (switched (give p (k_initproc (y_k s)) (pt (y_k s) p)) ZOMBIE (b c) KExit)); try done.
  - by rewrite Hj, updn_eq.
  - intros j Hne. rewrite Hj, updn_ne by done. unfold exit_wake. apply woken_give.
    eapply woken_trans; [apply woken_wake|]. unfold wake_if. case_match; [apply woken_wake|apply woken_refl].
Qed.

Lemma call_wait_round p : on s c p TWait ->
  safe (o ← wait_switch id; mret (match o with Some i => left_cpu s c p TAsleep i | None => moved s p TRun end)) (y_k s) good.
Proof.
  intros Hon. destruct (on_facts ids lockof s h b c id p _ Hb Hc Hon) as (Hp & Hst & Hh & _). simpl in Hh.
  apply safe_then, wp_safe. eapply (wp_wait_round c id Hc); [done|exact Hp|exact Hr|done|apply Hon| | |].
  - intros m tab z Hm Hl Hz Hpar Hzom Hj.
    assert (Hzp : z <> p) by (intros ->; congruence).
    eapply (inv_moved ids lockof s h b c id p TWait TRun); try done.
    + simpl. set_solver.
    + intros j. rewrite Hj. unfold updn, state_of. case_decide as E; [subst|done]. by rewrite Hzom.
    + intros j Hjp. rewrite Hj. unfold updn. case_decide as E; [subst|apply (bi_thr _ _ _ _ _ Hb)].
      pose proof (bi_thr _ _ _ _ _ Hb z) as Ht. unfold thr_ok in *. rewrite Hzom in Ht. exact Ht.
    + apply forks_move; [|by destruct Hon as (_ & _ & ->)].
      eapply forks_ext; [apply (bi_fork _ _ _ _ _ Hb)|done| |].
      * intros j. rewrite Hj. unfold updn. case_decide as E; [subst|done]. by rewrite Hzom.
      * intros j Hj'. rewrite Hj. unfold updn. by case_decide as E; [subst|].
  - intros m Hm. eapply (inv_thread s h b c id p TWait); try done. simpl. set_solver.
  - intros m tab Hm Hl Hnz Hj. eapply (switch_out p TWait TAsleep (slept (pt (y_k s) p) (CProc p) (b c) PTLOCK)); try done.
    + rewrite <- Hh. by apply rep_same.
    + by rewrite Hj, updn_eq.
    + split; [done|]. exists (b c). by left.
    + intros j Hne. rewrite Hj, updn_ne by done. apply woken_refl.
Qed.

Lemma call_fork p : on s c p TRun -> ncli s c = 0 ->
  safe (o ← alloc_slot id; mret (moved s p (match o with Some np => TFork np FSlot | None => TRun end))) (y_k s) good.
Proof.
  intros Hon Hn. pose proof (ncli_none ids lockof s h b c id Hb Hc Hn) as H0.
  destruct (on_facts ids lockof s h b c id p _ Hb Hc Hon) as (Hp & Hst & Hh & _). simpl in Hh.
  apply safe_then. eapply runs_safe, (alloc_slot_runs c id Hc); [done|exact Hr|done| |].
  - intros m tab i Hf Hm Hl Hi Hun Hj. assert (Hip : i <> p) by (intros ->; congruence).
    pose proof (bi_fork _ _ _ _ _ Hb) as Hfk.
    assert (Hno : forall q st, y_tp s q <> TFork i st).
    { intros q st E. destruct (fk_slot _ _ Hfk _ _ _ E) as (_ & He & _). congruence. }
    eapply (inv_moved ids lockof s h b c id p TRun (TFork i FSlot)); try done; [by apply rep_same| | |].
    + intros j. rewrite Hj. unfold updn, state_of. case_decide as E; [subst|done]. by rewrite Hun.
    + intros j Hjp. rewrite Hj. unfold updn. case_decide as E; [subst|apply (bi_thr _ _ _ _ _ Hb)].
      pose proof (bi_thr _ _ _ _ _ Hb i) as Ht. unfold thr_ok in *. rewrite Hun in Ht. exact Ht.
    + split.
      * intros q np st. rewrite Hj. unfold updn at 1. case_decide as E.
        -- intros [= <- <-]. rewrite updn_eq. split; [done|]. split; [done|]. done.
        -- intros Hq. assert (np <> i) by (intros ->; by eapply Hno). rewrite updn_ne by done. by apply (fk_slot _ _ Hfk q).
      * intros q q' np st st'. unfold updn. repeat case_decide; subst; try done.
        -- intros [= <- <-] Hq. by destruct (Hno q' st').
        -- intros Hq [= <- <-]. by destruct (Hno q st).
        -- apply (fk_uniq _ _ Hfk).
      * intros np. rewrite Hj. destruct (decide (np = i)) as [->|Hne]; [intros _; exists p, FSlot; by rewrite updn_eq|].
        rewrite updn_ne by done. intros (q & st & Hq)%(fk_emb _ _ Hfk). exists q, st. rewrite updn_ne; [done|].
        intros ->. destruct Hon as (_ & _ & E). congruence.
  - intros m Hm _. eapply (inv_thread s h b c id p TRun); try done. by apply rep_same.
Qed.

(** A stage of [fork]: the slot [np] changes, and stays an embryo. *)
Lemma fork_stage p np st st' x m tab k :
  on s c p (TFork np st) -> (np < NPROC)%nat -> quiet (y_k s) k m tab (k_cproc (y_k s)) -> mach_rep ids m h no_depth b ->
  length tab = NPROC -> (forall j, tab !!! j = updn (pt (y_k s)) np x j) ->
  p_state x = EMBRYO -> (st' <> FSlot -> p_context x = CForkret) ->
  inv (moved s p (TFork np st') k).
Proof.
  intros Hon Hnp Hq Hm Hl Hj Hx Hctx. destruct (on_facts ids lockof s h b c id p _ Hb Hc Hon) as (Hp & Hst & Hh & _). simpl in Hh.
  pose proof (bi_fork _ _ _ _ _ Hb) as Hfk. pose proof Hon as (_ & _ & Htp).
  destruct (fk_slot _ _ Hfk _ _ _ Htp) as (_ & He & _). assert (Hne : np <> p) by (intros ->; congruence).
  eapply (inv_moved ids lockof s h b c id p (TFork np st) (TFork np st')); try done; [by apply rep_same| | |].
  - intros j. rewrite Hj. unfold updn, state_of. case_decide as E; [subst|done]. by rewrite He, Hx.
  - intros j Hjp. rewrite Hj. unfold updn. case_decide as E; [subst|apply (bi_thr _ _ _ _ _ Hb)].
    pose proof (bi_thr _ _ _ _ _ Hb np) as Ht. unfold thr_ok in *. rewrite He in Ht. by rewrite Hx.
  - split.
    + intros q n st1. rewrite Hj. unfold updn at 1. case_decide as E.
      * intros [= <- <-]. by rewrite updn_eq.
      * intros Hq1. assert (n <> np) by (intros ->; by apply E, (fk_uniq _ _ Hfk q p np st1 st)).
        rewrite updn_ne by done. by apply (fk_slot _ _ Hfk q).
    + intros q q' n s1 s2. unfold updn. repeat case_decide; subst; try done.
      * intros [= <- <-] E2. by apply (fk_uniq _ _ Hfk p q' np st s2).
      * intros E1 [= <- <-]. by apply (fk_uniq _ _ Hfk q p np s1 st).
      * apply (fk_uniq _ _ Hfk).
    + intros n. rewrite Hj. destruct (decide (n = np)) as [->|Hn]; [intros _; exists p, st'; by rewrite updn_eq|].
      rewrite updn_ne by done. intros (q & s1 & Hq1)%(fk_emb _ _ Hfk). exists q, s1. rewrite updn_ne; [done|].
      intros ->. congruence.
Qed.

(** The end of a [fork]: the slot is no embryo any more. *)
Lemma fork_ends p np st x m tab k :
  on s c p (TFork np st) -> (np < NPROC)%nat -> quiet (y_k s) k m tab (k_cproc (y_k s)) -> mach_rep ids m h no_depth b ->
  length tab = NPROC -> (forall j, tab !!! j = updn (pt (y_k s)) np x j) ->
  p_state x <> EMBRYO -> p_state x <> RUNNING -> thr_ok lockof np x TRun ->
  inv (moved s p TRun k).
Proof.
  intros Hon Hnp Hq Hm Hl Hj Hx Hxr Hthr. destruct (on_facts ids lockof s h b c id p _ Hb Hc Hon) as (Hp & Hst & Hh & _). simpl in Hh.
  pose proof (bi_fork _ _ _ _ _ Hb) as Hfk. pose proof Hon as (_ & _ & Htp).
  destruct (fk_slot _ _ Hfk _ _ _ Htp) as (_ & He & _). assert (Hne : np <> p) by (intros ->; congruence).
  assert (Htn : y_tp s np = TRun) by (pose proof (bi_thr _ _ _ _ _ Hb np) as Ht; unfold thr_ok in Ht; by rewrite He in Ht).
  eapply (inv_moved ids lockof s h b c id p (TFork np st) TRun); try done; [by apply rep_same|simpl; rewrite Hh; set_solver| | |].
  - intros j. rewrite Hj. unfold updn, state_of. case_decide as E; [subst|done]. by rewrite He.
  - intros j Hjp. rewrite Hj. unfold updn. case_decide as E; [subst; by rewrite Htn|apply (bi_thr _ _ _ _ _ Hb)].
  - split.
    + intros q n st1. unfold updn at 1. case_decide as E; [done|]. intros Hq1. rewrite Hj.
      assert (n <> np) by (intros ->; by apply E, (fk_uniq _ _ Hfk q p np st1 st)). rewrite updn_ne by done. by apply (fk_slot _ _ Hfk q).
    + intros q q' n s1 s2. unfold updn. repeat case_decide; subst; try done. apply (fk_uniq _ _ Hfk).
    + intros n. rewrite Hj. unfold updn at 1. case_decide as E; [subst; done|].
      intros (q & s1 & Hq1)%(fk_emb _ _ Hfk). exists q, s1. rewrite updn_ne; [done|]. intros ->. congruence.
Qed.

Lemma fork_facts p np st : on s c p (TFork np st) ->
  (np < NPROC)%nat /\ p_state (pt (y_k s) np) = EMBRYO /\ (st <> FSlot -> p_context (pt (y_k s) np) = CForkret).
Proof. intros (_ & _ & E). apply (fk_slot _ _ (bi_fork _ _ _ _ _ Hb) _ _ _ E). Qed.

Lemma call_fork_stack p np kstack : on s c p (TFork np FSlot) ->
  safe (set_stack np kstack;; mret (moved s p (TFork np FStack))) (y_k s) good.
Proof.
  intros Hon. destruct (fork_facts _ _ _ Hon) as (Hnp & He & _). apply safe_then, wp_safe.
  apply wp_set_stack; [done|done|]. intros tab Hl Hj. eapply (fork_stage p np FSlot FStack); try done; exact Hr.
Qed.

Lemma call_fork_fail p np st : on s c p (TFork np st) -> safe (free_slot np;; mret (moved s p TRun)) (y_k s) good.
Proof.
  intros Hon. destruct (fork_facts _ _ _ Hon) as (Hnp & He & _). apply safe_then, wp_safe.
  apply wp_free_slot; [done|done|]. intros tab Hl Hj. eapply (fork_ends p np st); try done; exact Hr.
Qed.

Lemma call_fork_adopt p np : on s c p (TFork np FStack) -> safe (adopt p np;; mret (moved s p (TFork np FAdopted))) (y_k s) good.
Proof.
  intros Hon. destruct (fork_facts _ _ _ Hon) as (Hnp & He & Hctx). apply safe_then, wp_safe.
  apply wp_adopt; [done|done|]. intros tab Hl Hj. eapply (fork_stage p np FStack FAdopted); try done; try exact Hr.
  intros _. by apply Hctx.
Qed.

Lemma call_fork_done p np : on s c p (TFork np FAdopted) -> safe (make_runnable id np;; mret (moved s p TRun)) (y_k s) good.
Proof.
  intros Hon. destruct (fork_facts _ _ _ Hon) as (Hnp & He & Hctx).
  destruct (on_facts ids lockof s h b c id p _ Hb Hc Hon) as (Hp & Hst & Hh & _). simpl in Hh.
  apply safe_then. eapply runs_safe, (make_runnable_runs c id Hc); [done|done|exact Hr|rewrite Hh; set_solver|].
  intros m tab Hf Hm Hl Hj. eapply (fork_ends p np FAdopted); try done.
  unfold thr_ok. simpl. by rewrite Hctx.
Qed.

(** The scheduler has switched to slot [i], whose thread is now at [t]. *)
Lemma inv_entered i t hc b' x m tab k :
  y_cl s c = Scan i -> (i < NPROC)%nat -> p_state (pt (y_k s) i) = RUNNABLE ->
  k_mach k = m -> k_ptab k = tab -> k_cproc k = <[c := Some i]> (k_cproc (y_k s)) -> k_sched k = <[c := i]> (k_sched (y_k s)) ->
  mach_rep ids m (updn h c hc) no_depth b' -> length tab = NPROC -> (forall j, tab !!! j = updn (pt (y_k s)) i x j) ->
  p_state x = RUNNING -> held_ok lockof t hc -> (forall np st, t = TFork np st <-> y_tp s i = TFork np st) ->
  inv (entered s c i t k).
Proof.
  intros Hl Hi Hst Em Et Ec Es Hm Hlen Hj Hx Hh Hf.
  pose proof (bi_cpu _ _ _ _ _ Hb c Hlt) as Hk. rewrite Hl in Hk. destruct Hk as (Hcp & Hhc & _).
  pose proof (bi_nsc _ _ _ _ _ Hb) as Hns.
  exists (updn h c hc), b'. eapply (binv_step ids lockof s h b c InProc (Some i)); try done.
  - by rewrite Es, length_insert.
  - intros c' Hne. by rewrite Es, list_lookup_total_insert_ne.
  - left. rewrite Es, list_lookup_total_insert_eq by lia. done.
  - exists i. split; [done|]. by rewrite updn_eq.
  - intros j Hne _. rewrite Hj, updn_ne by congruence. done.
  - intros j E. injection E as <-. rewrite Hj, updn_eq. split; [done|]. right. by rewrite Hst.
  - intros j E. congruence.
  - intros c' j Hc' Hne Hcj. rewrite updn_ne; [done|]. intros ->.
    assert (Hr1 : p_state (pt (y_k s) i) = RUNNING) by (apply (bi_run _ _ _ _ _ Hb); by exists c'). congruence.
  - intros j. rewrite Hj. unfold updn. case_decide as E; [subst; unfold thr_ok; by rewrite Hx|apply (bi_thr _ _ _ _ _ Hb)].
  - apply forks_move; [|done]. eapply forks_ext; [apply (bi_fork _ _ _ _ _ Hb)|done| |].
    + intros j. rewrite Hj. unfold updn. case_decide as E; [subst|done]. by rewrite Hx, Hst.
    + intros j He. rewrite Hj. unfold updn. case_decide as E; [subst; congruence|done].
Qed.

Lemma call_scan i : y_cl s c = Scan i -> (i < NPROC)%nat ->
  safe (run ← scheduler_try id i;
        if run : bool then t ← resume id i (y_tp s i); mret (entered s c i t) else mret (cpu_at s c (Scan (S i)))) (y_k s) good.
Proof.
  intros Hl Hi. pose proof (bi_cpu _ _ _ _ _ Hb c Hlt) as Hk. rewrite Hl in Hk. destruct Hk as (Hcp & Hh & _).
  apply safe_bind, wp_safe. eapply (wp_try c id Hc); [exact Hr|by rewrite Hh| |].
  - intros _. change (inv (cpu_at s c (Scan (S i)) (y_k s))).
    eapply (inv_cpu_at ids lockof s h b c id (Scan (S i)) [PTLOCK] b); try done; [by rewrite Hl|rewrite <- Hh; exact (rep_same _ h b c Hr)| |].
    + intros j. apply (bi_thr _ _ _ _ _ Hb).
    + apply (bi_fork _ _ _ _ _ Hb).
  - intros Hst. cbv iota. apply safe_then, wp_safe. set (s1 := _ <| k_sched := _ |>).
    destruct (set_slot (y_k s) i ((pt (y_k s) i) <| p_state := RUNNING |>) Hnpt Hi) as [Hlen Hj].
    assert (Ept : forall j, pt s1 j = updn (pt (y_k s)) i ((pt (y_k s) i) <| p_state := RUNNING |>) j) by exact Hj.
    assert (Ecp : cp s1 c = Some i).
    { unfold cp. cbn. rewrite list_lookup_total_insert_eq; [done|]. by rewrite (bi_ncp _ _ _ _ _ Hb). }
    assert (Ectx : p_context (pt s1 i) = p_context (pt (y_k s) i)) by (by rewrite Ept, updn_eq).
    pose proof (bi_thr _ _ _ _ _ Hb i) as Ht. unfold thr_ok in Ht. rewrite Hst in Ht.
    eapply (wp_resume c id Hc s1 h b i); [exact Hlen|done|exact Hr|done|done|]. rewrite Ectx.
    destruct (p_context (pt (y_k s) i)) as [|v [|lk|]] eqn:Ec; [| | |done].
    + intros m first Hm. eapply (inv_entered i TRun [] b); try done; [by simpl; set_solver|]. by rewrite Ht.
    + intros m Hm. eapply (inv_entered i (y_tp s i) [] (updn b c v)); try done.
    + intros m tab hc Hm Hlt' Hhc Hj'. subst hc.
      eapply (inv_entered i _ (if lk =? PTLOCK then [PTLOCK] else []) (updn b c v)
        ((pt (y_k s) i) <| p_state := RUNNING |> <| p_chan := None |>)); try done.
      * intros j. rewrite Hj'. unfold updn. rewrite Ept, updn_eq. case_decide as E; [done|]. by rewrite Ept, updn_ne.
      * destruct (Z.eqb_spec lk PTLOCK); [done|]. by simpl.
      * intros np st. rewrite Ht. by destruct (lk =? PTLOCK).
Qed.
End calls.

(** Every call is safe. *)
Lemma calls_safe s c pick m : inv s -> kcall ids lockof c s pick m -> safe m (y_k s) good.
Proof.
  intros (h & b & Hb) Hcall. destruct Hcall.
  - by eapply call_top.
  - by eapply call_scan.
  - by eapply call_end.
  - by eapply call_idle_wakeup.
  - by eapply call_acquire.
  - by eapply call_release.
  - by eapply call_flag.
  - destruct (on_facts ids lockof s h b c id p t Hb) as (_ & _ & Hh & _); [done|done|].
    eapply call_wakeup; try done. by eapply preemptible_pt.
  - by eapply call_yield.
  - by eapply call_sleep1.
  - by eapply call_sleep2.
  - by eapply call_sleep3.
  - by eapply call_relock.
  - by eapply call_kill.
  - by eapply call_exit.
  - by eapply call_wait.
  - by eapply call_wait_round.
  - by eapply call_fork.
  - by eapply call_fork_stack.
  - by eapply call_fork_fail.
  - by eapply call_fork_adopt.
  - by eapply call_fork_done.
  - destruct (on_facts ids lockof s h b c id p TRun Hb) as (_ & _ & Hh & _); [done|done|].
    eapply (inv_thread s h b c id p TRun (TSignal a)); try done; [by apply rep_same, (bi_rep _ _ _ _ _ Hb)|].
    split; [done|]. by rewrite <- (holds_held ids lockof s h b c id).
  - destruct (on_facts ids lockof s h b c id p (TSignal a) Hb) as (_ & _ & [Hh _] & _); [done|done|].
    eapply call_wakeup; try done.
  - exists h, b. apply (binv_cl ids lockof _ (y_cl s) _ _ (y_cond s)); [by destruct s|done].
Qed.

Lemma inv_step s s' : inv s -> sys_step ids lockof s s' -> inv s'.
Proof.
  intros Hi (c & pick & m & f & k & Hcall & Hrun & ->). exact (safe_ok _ _ _ _ _ (calls_safe s c pick m Hi Hcall) Hrun).
Qed.
End safe.
