(* ===== verification/ProcStep.v ===== *)
(** The steps of [ProcOps] summed up by what they change: positions of threads,
    slots of the table, conditions, and positions of the schedulers. *)

From S2P Require Import Prelude CString Spinlock LockRep Proc ProcOps ProcEff ProcSafe.

(** Neither falling asleep nor signalling. *)
Definition calm (t : tpos) : bool := match t with TRun | TRelock _ | TFork _ _ | TWait => true | _ => false end.

(** Sleepers woken; parents untouched. *)
Definition roused (x x' : proc) : Prop := woken x x' /\ p_parent x' = p_parent x.

Lemma roused_refl x : roused x x.
Proof. split; [apply woken_refl|done]. Qed.
Lemma roused_wake ch x : roused x (wake ch x).
Proof. split; [apply woken_wake|apply wake_parent]. Qed.
Lemma roused_killed x : roused x (killed x).
Proof. split; [apply woken_killed|]. unfold killed. cbn. by case_match. Qed.

Inductive eff (c : nat) (s s' : sys) : Prop :=
| ef_cpu :
    (forall q, y_tp s' q = y_tp s q) -> (forall a, y_cond s' a = y_cond s a) ->
    (forall j, roused (pt (y_k s) j) (pt (y_k s') j)) -> eff c s s'
| ef_move p t t' :
    on s c p t -> calm t = true -> calm t' = true -> (forall np st, t' = TFork np st <-> t = TFork np st) ->
    (forall q, y_tp s' q = updn (y_tp s) p t' q) -> (forall a, y_cond s' a = y_cond s a) ->
    (forall j, roused (pt (y_k s) j) (pt (y_k s') j)) -> eff c s s'
| ef_sleep1 p a :
    on s c p TRun -> y_cond s a = false ->
    (forall q, y_tp s' q = updn (y_tp s) p (TSleep1 a) q) -> (forall a, y_cond s' a = y_cond s a) ->
    (forall j, pt (y_k s') j = pt (y_k s) j) -> eff c s s'
| ef_sleep2 p a :
    on s c p (TSleep1 a) ->
    (forall q, y_tp s' q = updn (y_tp s) p (TSleep2 a) q) -> (forall a, y_cond s' a = y_cond s a) ->
    (forall j, pt (y_k s') j = pt (y_k s) j) -> eff c s s'
| ef_yield p t x :
    on s c p t -> preemptible t = true -> p_state x = RUNNABLE -> p_parent x = p_parent (pt (y_k s) p) ->
    (forall q, y_tp s' q = updn (y_tp s) p t q) -> (forall a, y_cond s' a = y_cond s a) ->
    (forall j, pt (y_k s') j = updn (pt (y_k s)) p x j) -> eff c s s'
| ef_sleep3 p a x :
    on s c p (TSleep2 a) -> p_state x = SLEEPING -> p_chan x = Some (CAddr a) -> p_parent x = p_parent (pt (y_k s) p) ->
    (forall q, y_tp s' q = updn (y_tp s) p TAsleep q) -> (forall a, y_cond s' a = y_cond s a) ->
    (forall j, pt (y_k s') j = updn (pt (y_k s)) p x j) -> eff c s s'
| ef_wait_sleep p x :
    on s c p TWait -> p_state x = SLEEPING -> p_chan x = Some (CProc p) -> p_parent x = p_parent (pt (y_k s) p) ->
    (forall z, p_parent (pt (y_k s) z) = Some p -> p_state (pt (y_k s) z) <> ZOMBIE) ->
    (forall q, y_tp s' q = updn (y_tp s) p TAsleep q) -> (forall a, y_cond s' a = y_cond s a) ->
    (forall j, pt (y_k s') j = updn (pt (y_k s)) p x j) -> eff c s s'
| ef_exit p x :
    on s c p TRun -> k_initproc (y_k s) <> Some p ->
    p_state x = ZOMBIE -> p_parent x = p_parent (give p (k_initproc (y_k s)) (pt (y_k s) p)) ->
    (forall q, y_tp s' q = updn (y_tp s) p TRun q) -> (forall a, y_cond s' a = y_cond s a) ->
    (forall j, pt (y_k s') j = updn (fun j => exit_wake (y_k s) p (pt (y_k s) j)) p x j) -> eff c s s'
| ef_pick i t x :
    p_state (pt (y_k s) i) = RUNNABLE -> p_state x = RUNNING -> p_parent x = p_parent (pt (y_k s) i) ->
    calm t = true -> (calm (y_tp s i) = true \/ y_tp s i = TAsleep) -> (forall np st, t = TFork np st <-> y_tp s i = TFork np st) ->
    (forall q, y_tp s' q = updn (y_tp s) i t q) -> (forall a, y_cond s' a = y_cond s a) ->
    (forall j, pt (y_k s') j = updn (pt (y_k s)) i x j) -> eff c s s'
| ef_reap p z :
    on s c p TWait -> p_parent (pt (y_k s) z) = Some p -> p_state (pt (y_k s) z) = ZOMBIE ->
    (forall q, y_tp s' q = updn (y_tp s) p TRun q) -> (forall a, y_cond s' a = y_cond s a) ->
    (forall j, pt (y_k s') j = updn (pt (y_k s)) z (reaped (pt (y_k s) z)) j) -> eff c s s'
| ef_alloc p i x :
    on s c p TRun -> p_state (pt (y_k s) i) = UNUSED -> p_state x = EMBRYO -> p_parent x = p_parent (pt (y_k s) i) ->
    (forall q, y_tp s' q = updn (y_tp s) p (TFork i FSlot) q) -> (forall a, y_cond s' a = y_cond s a) ->
    (forall j, pt (y_k s') j = updn (pt (y_k s)) i x j) -> eff c s s'
| ef_stage p np st st' x :
    on s c p (TFork np st) -> st <> FAdopted -> p_state x = EMBRYO ->
    p_parent x = (match st' with FAdopted => Some p | _ => p_parent (pt (y_k s) np) end) ->
    (forall q, y_tp s' q = updn (y_tp s) p (TFork np st') q) -> (forall a, y_cond s' a = y_cond s a) ->
    (forall j, pt (y_k s') j = updn (pt (y_k s)) np x j) -> eff c s s'
| ef_forked p np st x :
    on s c p (TFork np st) -> p_parent x = p_parent (pt (y_k s) np) ->
    (st <> FAdopted /\ p_state x = UNUSED \/ st = FAdopted /\ p_state x = RUNNABLE) ->
    (forall q, y_tp s' q = updn (y_tp s) p TRun q) -> (forall a, y_cond s' a = y_cond s a) ->
    (forall j, pt (y_k s') j = updn (pt (y_k s)) np x j) -> eff c s s'
| ef_set p a :
    on s c p TRun -> (forall q, y_tp s q <> TSleep1 a) ->
    (forall q, y_tp s' q = updn (y_tp s) p (TSignal a) q) -> (forall a', y_cond s' a' = upd (y_cond s) a true a') ->
    (forall j, pt (y_k s') j = pt (y_k s) j) -> eff c s s'
| ef_signal p a :
    on s c p (TSignal a) -> (forall q a', y_tp s q <> TSleep2 a') ->
    (forall q, y_tp s' q = updn (y_tp s) p TRun q) -> (forall a, y_cond s' a = y_cond s a) ->
    (forall j, pt (y_k s') j = wake (Some (CAddr a)) (pt (y_k s) j)) -> eff c s s'
| ef_clear a :
    (forall q, y_tp s' q = y_tp s q) -> (forall a', y_cond s' a' = upd (y_cond s) a false a') ->
    (forall j, pt (y_k s') j = pt (y_k s) j) -> eff c s s'.

(** Where the scheduler of the CPU was and is. *)
Inductive ceff (c : nat) (pick : option nat) (s s' : sys) : Prop :=
| ce_in : y_cl s c = InProc -> y_cl s' c = InProc -> pick = None -> k_sched (y_k s') = k_sched (y_k s) -> ceff c pick s s'
| ce_left : y_cl s c = InProc -> y_cl s' c = Scan (S (k_sched (y_k s) !!! c)) -> pick = None ->
    k_sched (y_k s') = k_sched (y_k s) -> ceff c pick s s'
| ce_top : y_cl s c = Top -> y_cl s' c = Scan 0 -> pick = None -> k_sched (y_k s') = k_sched (y_k s) -> ceff c pick s s'
| ce_idle : y_cl s c = Top -> y_cl s' c = Top -> pick = None -> k_sched (y_k s') = k_sched (y_k s) -> ceff c pick s s'
| ce_skip i : y_cl s c = Scan i -> y_cl s' c = Scan (S i) -> p_state (pt (y_k s) i) <> RUNNABLE -> pick = None ->
    k_sched (y_k s') = k_sched (y_k s) -> ceff c pick s s'
| ce_pick i : y_cl s c = Scan i -> (i < NPROC)%nat -> y_cl s' c = InProc -> pick = Some i -> p_state (pt (y_k s') i) = RUNNING ->
    k_sched (y_k s') = <[c := i]> (k_sched (y_k s)) -> ceff c pick s s'
| ce_end : y_cl s c = Scan NPROC -> y_cl s' c = Top -> pick = None -> k_sched (y_k s') = k_sched (y_k s) -> ceff c pick s s'.

Record effect (c : nat) (pick : option nat) (s s' : sys) : Prop := {
  e_eff : eff c s s';
  e_cpu : ceff c pick s s';
  e_cl : forall c', c' <> c -> y_cl s' c' = y_cl s c';
  e_ini : k_initproc (y_k s') = k_initproc (y_k s)
}.

Section effects.
Variable ids : list Z.
Variable lockof : Z -> Z.
Hypothesis lockof_ok : forall a, lockof a <> PTLOCK /\ lockof a <> 0.

Notation binv := (binv ids lockof).
Notation inv := (inv ids lockof).

(** A thread in the middle of [sleep], [wait] or a signal is running. *)
Lemma busy_running s h b p :
  binv s h b -> calm (y_tp s p) = false -> y_tp s p <> TAsleep -> exists c, (c < length ids)%nat /\ on s c p (y_tp s p).
Proof.
  intros H Hc Ha. assert (Hr : p_state (pt (y_k s) p) = RUNNING).
  { pose proof (bi_thr _ _ _ _ _ H p) as Ht. unfold thr_ok in Ht.
    destruct (p_state (pt (y_k s) p)); try (by rewrite Ht in Hc); [by destruct Ht| |done].
    destruct (p_context (pt (y_k s) p)) as [|i [|lk|]]; [by rewrite Ht in Hc| |done|done].
    destruct (y_tp s p); simpl in *; try done. destruct Ht. set_solver. }
  apply (bi_run _ _ _ _ _ H) in Hr as (c & Hlt & Hcp). exists c. split; [done|]. split_and!; try done.
  pose proof (bi_cpu _ _ _ _ _ H c Hlt) as Hk. destruct (y_cl s c); simpl in Hk; [by destruct Hk as [? _]; congruence| |done].
  destruct Hk as [? _]. congruence.
Qed.

Lemma busy_held s h b p :
  binv s h b -> calm (y_tp s p) = false -> y_tp s p <> TAsleep ->
  exists c, (c < length ids)%nat /\ cp (y_k s) c = Some p /\ held_ok lockof (y_tp s p) (h c).
Proof.
  intros H Hc Ha. destruct (busy_running s h b p H Hc Ha) as (c & Hlt & Hon). exists c. split; [done|].
  destruct (lookup_lt_is_Some_2 _ _ Hlt) as [id Hid].
  destruct (on_facts ids lockof s h b c id p _ H Hid Hon) as (_ & _ & Hh & _). split; [apply Hon|done].
Qed.

Section calls.
Variables (s : sys) (h : nat -> list Z) (b : nat -> bool) (c : nat) (id : Z).
Hypothesis Hb : binv s h b.
Hypothesis Hc : ids !! c = Some id.

Let Hr := bi_rep _ _ _ _ _ Hb.
Let Hnpt := bi_npt _ _ _ _ _ Hb.

(** No one is between releasing its lock and falling asleep while
    [ptable.lock] is free. *)
Lemma free_no_sleep2 q a : (forall c', (c' < length ids)%nat -> PTLOCK ∉ h c') -> y_tp s q <> TSleep2 a.
Proof.
  intros Hf E. destruct (busy_held s h b q Hb) as (c' & Hc' & _ & Hh); [by rewrite E..|].
  rewrite E in Hh. simpl in Hh. apply (Hf c' Hc'). rewrite Hh. set_solver.
Qed.

(** The lock of a condition excludes other sleepers. *)
Lemma held_no_sleep1 p q a : on s c p TRun -> lockof a ∈ h c -> y_tp s q <> TSleep1 a.
Proof.
  intros (_ & Hcp & Htp) Hl E. destruct (busy_held s h b q Hb) as (c' & Hc' & Hcq & Hh); [by rewrite E..|].
  rewrite E in Hh. simpl in Hh.
  assert (c' = c) as ->.
  { apply (mr_excl _ _ _ _ (lockof a) c' c Hr); [done|by eapply lookup_lt_Some|rewrite Hh; set_solver|done]. }
  assert (q = p) as -> by congruence. congruence.
Qed.

Lemma updn_same {V} (f : nat -> V) i j : updn f i (f i) j = f j.
Proof. unfold updn. case_decide; by subst. Qed.

(** Building an [effect] of a thread that stays, that leaves, and of a CPU. *)
Lemma effect_moved p t t' k : on s c p t -> eff c s (moved s p t' k) -> k_sched k = k_sched (y_k s) ->
  k_initproc k = k_initproc (y_k s) -> effect c None s (moved s p t' k).
Proof. intros (Hl & _) He Hs Hi. split; [done|by apply ce_in|done|done]. Qed.

Lemma effect_left p t t' k : on s c p t -> eff c s (left_cpu s c p t' (S (k_sched (y_k s) !!! c)) k) -> k_sched k = k_sched (y_k s) ->
  k_initproc k = k_initproc (y_k s) -> effect c None s (left_cpu s c p t' (S (k_sched (y_k s) !!! c)) k).
Proof.
  intros (Hl & _) He Hs Hi. split; [done| |intros c' Hne; simpl; by rewrite updn_ne|done].
  apply ce_left; try done. simpl. by rewrite updn_eq.
Qed.

Lemma top_held : y_cl s c = Top -> h c = [].
Proof.
  intros Hl. pose proof (bi_cpu _ _ _ _ _ Hb c (lookup_lt_Some _ _ _ Hc)) as Hk. rewrite Hl in Hk. by destruct Hk.
Qed.

Lemma scan_held i : y_cl s c = Scan i -> h c = [PTLOCK].
Proof.
  intros Hl. pose proof (bi_cpu _ _ _ _ _ Hb c (lookup_lt_Some _ _ _ Hc)) as Hk. rewrite Hl in Hk. by destruct Hk as (_ & ? & _).
Qed.

Lemma calm_move p t t' m tab k :
  on s c p t -> calm t = true -> calm t' = true -> (forall np st, t' = TFork np st <-> t = TFork np st) ->
  quiet (y_k s) k m tab (k_cproc (y_k s)) -> k_initproc k = k_initproc (y_k s) ->
  (forall j, roused (pt (y_k s) j) (tab !!! j)) -> effect c None s (moved s p t' k).
Proof.
  intros Hon Ht Ht' Hf (_ & Et & _ & Es) Hi Hro. eapply effect_moved; try done. eapply (ef_move c s _ p t t'); try done.
  intros j. simpl. unfold pt at 2. rewrite Et. apply Hro.
Qed.

Lemma same_tab k : k_ptab k = k_ptab (y_k s) -> forall j, roused (pt (y_k s) j) (k_ptab k !!! j).
Proof. intros E j. rewrite E. apply roused_refl. Qed.

Notation shows pick := (fun (f : kern -> sys) k => effect c pick s (f k)).

Lemma eff_scan i : y_cl s c = Scan i -> (i < NPROC)%nat ->
  safe (run ← scheduler_try id i;
        if run : bool then t ← resume id i (y_tp s i); mret (entered s c i t) else mret (cpu_at s c (Scan (S i)))) (y_k s)
    (shows (if bool_decide (p_state (pt (y_k s) i) = RUNNABLE) then Some i else None)).
Proof.
  intros Hl Hi. pose proof (scan_held i Hl) as Hh.
  apply safe_bind, wp_safe. eapply (wp_try c id Hc); [exact Hr|by rewrite Hh| |].
  - intros Hst. rewrite bool_decide_eq_false_2 by done. split; [|by apply (ce_skip c _ s _ i); simpl; rewrite ?updn_eq|intros c' Hne; simpl; by rewrite updn_ne|done].
    apply ef_cpu; try done. intros j. apply roused_refl.
  - intros Hst. rewrite bool_decide_eq_true_2 by done. cbv iota. apply safe_then, wp_safe. set (s1 := _ <| k_sched := _ |>).
    destruct (set_slot (y_k s) i ((pt (y_k s) i) <| p_state := RUNNING |>) Hnpt Hi) as [Hlen Hj].
    assert (Ept : forall j, pt s1 j = updn (pt (y_k s)) i ((pt (y_k s) i) <| p_state := RUNNING |>) j) by exact Hj.
    assert (Ecp : cp s1 c = Some i).
    { unfold cp. cbn. rewrite list_lookup_total_insert_eq; [done|]. rewrite (bi_ncp _ _ _ _ _ Hb). by eapply lookup_lt_Some. }
    assert (Ectx : p_context (pt s1 i) = p_context (pt (y_k s) i)) by (by rewrite Ept, updn_eq).
    pose proof (bi_thr _ _ _ _ _ Hb i) as Ht. unfold thr_ok in Ht. rewrite Hst in Ht.
    assert (Hgen : forall t k x, k_sched k = k_sched s1 -> k_initproc k = k_initproc s1 ->
      (forall j, pt k j = updn (pt (y_k s)) i x j) -> p_state x = RUNNING -> p_parent x = p_parent (pt (y_k s) i) ->
      calm t = true -> (calm (y_tp s i) = true \/ y_tp s i = TAsleep) -> (forall np st, t = TFork np st <-> y_tp s i = TFork np st) ->
      effect c (Some i) s (entered s c i t k)).
    { intros t k x Es Ei Ex Hx Hp Hct Hcs Hf. split; [|by apply (ce_pick c _ s _ i); simpl; rewrite ?Ex, ?updn_eq|intros c' Hne; simpl; by rewrite updn_ne|done].
      by eapply (ef_pick c s _ i t x). }
    eapply (wp_resume c id Hc s1 h b i); [exact Hlen|done|exact Hr|done|done|]. rewrite Ectx.
    destruct (p_context (pt (y_k s) i)) as [|v [|lk|]] eqn:Ec; [| | |done].
    + intros m first Hm. eapply Hgen; try done; [by left; rewrite Ht|by rewrite Ht].
    + intros m Hm. assert (calm (y_tp s i) = true).
      { destruct (y_tp s i); simpl in *; try done. destruct Ht. set_solver. }
      eapply Hgen; try done. by left.
    + intros m tab hc Hm Hlt' Hhc Hj'.
      eapply (Hgen _ _ ((pt (y_k s) i) <| p_state := RUNNING |> <| p_chan := None |>)); try done.
      * intros j. change (pt _ j) with (tab !!! j). rewrite Hj'. unfold updn. rewrite Ept, updn_eq. case_decide as E; [done|]. by rewrite Ept, updn_ne.
      * by destruct (lk =? PTLOCK).
      * by right.
      * intros np st. rewrite Ht. by destruct (lk =? PTLOCK).
Qed.

Lemma eff_switch p t : on s c p t -> preemptible t = true -> ncli s c = 0 ->
  safe (i ← switch id (yield id); mret (left_cpu s c p t i)) (y_k s) (shows None).
Proof.
  intros Hon Ht Hn. pose proof (ncli_none ids lockof s h b c id Hb Hc Hn) as H0.
  destruct (on_facts ids lockof s h b c id p t Hb Hc Hon) as (Hp & Hst & Hh & _).
  apply safe_then. eapply (safe_yield c id Hc); [done|exact Hp|exact Hr|done|apply Hon|]. intros m tab Hf Hm Hl Hj.
  eapply effect_left; try done. eapply (ef_yield c s _ p t); [..|exact Hj]; done.
Qed.

Lemma eff_sleep3 p a : on s c p (TSleep2 a) ->
  safe (i ← switch id (sleep_sched id (CAddr a) (lockof a)); mret (left_cpu s c p TAsleep i)) (y_k s) (shows None).
Proof.
  intros Hon. destruct (on_facts ids lockof s h b c id p _ Hb Hc Hon) as (Hp & Hst & Hh & _). simpl in Hh.
  apply safe_then, wp_safe. eapply (wp_sleep_sched c id Hc); [done|exact Hp|exact Hr|done|apply Hon|]. intros m tab Hm Hl Hj.
  eapply effect_left; try done. eapply (ef_sleep3 c s _ p a); [..|exact Hj]; done.
Qed.

Lemma eff_exit p : on s c p TRun -> ncli s c = 0 -> k_initproc (y_k s) <> Some p ->
  safe (i ← switch id (exit_table id); mret (left_cpu s c p TRun i)) (y_k s) (shows None).
Proof.
  intros Hon Hn Hini. pose proof (ncli_none ids lockof s h b c id Hb Hc Hn) as H0.
  destruct (on_facts ids lockof s h b c id p _ Hb Hc Hon) as (Hp & Hst & Hh & _).
  apply safe_then. eapply (safe_exit c id Hc); [done|exact Hp|done|exact Hr|done|apply Hon|]. intros m tab Hf Hm Hl Hj.
  eapply effect_left; try done. eapply (ef_exit c s _ p); [..|exact Hj]; done.
Qed.

Lemma eff_wait_round p : on s c p TWait ->
  safe (o ← wait_switch id; mret (match o with Some i => left_cpu s c p TAsleep i | None => moved s p TRun end)) (y_k s) (shows None).
Proof.
  intros Hon. destruct (on_facts ids lockof s h b c id p _ Hb Hc Hon) as (Hp & Hst & Hh & _). simpl in Hh.
  apply safe_then, wp_safe. eapply (wp_wait_round c id Hc); [done|exact Hp|exact Hr|done|apply Hon| | |].
  - intros m tab z Hm Hl Hz Hpar Hzom Hj. eapply effect_moved; try done. eapply (ef_reap c s _ p z); [..|exact Hj]; done.
  - intros m Hm. eapply (calm_move p TWait TRun); try done. by apply same_tab.
  - intros m tab Hm Hl Hnz Hj. eapply effect_left; try done. eapply (ef_wait_sleep c s _ p); [..|exact Hj]; done.
Qed.

Lemma eff_fork p : on s c p TRun -> ncli s c = 0 ->
  safe (o ← alloc_slot id; mret (moved s p (match o with Some np => TFork np FSlot | None => TRun end))) (y_k s) (shows None).
Proof.
  intros Hon Hn. destruct (on_facts ids lockof s h b c id p _ Hb Hc Hon) as (Hp & Hst & Hh & _). simpl in Hh.
  apply safe_then. eapply runs_safe, (alloc_slot_runs c id Hc); [done|exact Hr|done| |].
  - intros m tab i Hf Hm Hl Hi Hun Hj. eapply effect_moved; try done. eapply (ef_alloc c s _ p i); [..|exact Hj]; done.
  - intros m Hm _. eapply (calm_move p TRun TRun); try done. by apply same_tab.
Qed.

Lemma fork_slot p np st : on s c p (TFork np st) -> (np < NPROC)%nat /\ p_state (pt (y_k s) np) = EMBRYO.
Proof. intros (_ & _ & E). by destruct (fk_slot _ _ (bi_fork _ _ _ _ _ Hb) _ _ _ E) as (? & ? & _). Qed.

Lemma eff_fork_stack p np kstack : on s c p (TFork np FSlot) ->
  safe (set_stack np kstack;; mret (moved s p (TFork np FStack))) (y_k s) (shows None).
Proof.
  intros Hon. destruct (fork_slot _ _ _ Hon) as (Hnp & He). apply safe_then, wp_safe.
  apply wp_set_stack; [done|done|]. intros tab Hl Hj. eapply effect_moved; try done. eapply (ef_stage c s _ p np FSlot FStack); [..|exact Hj]; done.
Qed.

Lemma eff_fork_adopt p np : on s c p (TFork np FStack) ->
  safe (adopt p np;; mret (moved s p (TFork np FAdopted))) (y_k s) (shows None).
Proof.
  intros Hon. destruct (fork_slot _ _ _ Hon) as (Hnp & He). apply safe_then, wp_safe.
  apply wp_adopt; [done|done|]. intros tab Hl Hj. eapply effect_moved; try done. eapply (ef_stage c s _ p np FStack FAdopted); [..|exact Hj]; done.
Qed.

Lemma eff_fork_fail p np st : on s c p (TFork np st) -> st <> FAdopted ->
  safe (free_slot np;; mret (moved s p TRun)) (y_k s) (shows None).
Proof.
  intros Hon Hst. destruct (fork_slot _ _ _ Hon) as (Hnp & He). apply safe_then, wp_safe.
  apply wp_free_slot; [done|done|]. intros tab Hl Hj. eapply effect_moved; try done. eapply (ef_forked c s _ p np st); [..|exact Hj]; try done. by left.
Qed.

Lemma eff_fork_done p np : on s c p (TFork np FAdopted) ->
  safe (make_runnable id np;; mret (moved s p TRun)) (y_k s) (shows None).
Proof.
  intros Hon. destruct (fork_slot _ _ _ Hon) as (Hnp & He).
  destruct (on_facts ids lockof s h b c id p _ Hb Hc Hon) as (_ & _ & Hh & _). simpl in Hh.
  apply safe_then. eapply runs_safe, (make_runnable_runs c id Hc); [done|done|exact Hr|rewrite Hh; set_solver|].
  intros m tab Hf Hm Hl Hj. eapply effect_moved; try done. eapply (ef_forked c s _ p np FAdopted); [..|exact Hj]; try done. by right.
Qed.

Lemma eff_wakeup p t a : on s c p t -> preemptible t = true ->
  safe (wakeup id (CAddr a);; mret (moved s p t)) (y_k s) (shows None).
Proof.
  intros Hon Ht. destruct (on_facts ids lockof s h b c id p t Hb Hc Hon) as (_ & _ & Hh & _).
  apply safe_then. eapply (safe_wakeup c id Hc); [done|exact Hr|by eapply preemptible_pt|]. intros m tab Hf Hm Hl Hj.
  eapply (calm_move p t t); try done; [by destruct t..|]. intros j. rewrite Hj. apply roused_wake.
Qed.

Lemma eff_signal p a : on s c p (TSignal a) -> safe (wakeup id (CAddr a);; mret (moved s p TRun)) (y_k s) (shows None).
Proof.
  intros Hon. destruct (on_facts ids lockof s h b c id p _ Hb Hc Hon) as (_ & _ & [Hh _] & _).
  apply safe_then. eapply (safe_wakeup c id Hc); [done|exact Hr|done|]. intros m tab Hf Hm Hl Hj.
  eapply effect_moved; try done. eapply (ef_signal c s _ p a); try done. intros q a'. by apply free_no_sleep2.
Qed.

Lemma eff_kill p pid : on s c p TRun -> safe (kill id pid;; mret (moved s p TRun)) (y_k s) (shows None).
Proof.
  intros Hon. destruct (on_facts ids lockof s h b c id p _ Hb Hc Hon) as (_ & _ & Hh & _). simpl in Hh.
  apply safe_then. eapply (safe_kill c id Hc); [done|exact Hr|done|]. intros m tab o Hf Hm Hl _ Hj.
  eapply (calm_move p TRun TRun); try done. intros j. rewrite Hj. case_decide; [apply roused_killed|apply roused_refl].
Qed.

Lemma eff_sleep1 p a : on s c p TRun -> holds s c (lockof a) -> ncli s c = 1 -> y_cond s a = false ->
  safe (sleep_lock id (lockof a);; mret (moved s p (TSleep1 a))) (y_k s) (shows None).
Proof.
  intros Hon Hl Hn Hcond. rewrite (holds_held ids lockof s h b c id) in Hl by done. destruct (lockof_ok a) as [Hne H0].
  pose proof (ncli_held ids lockof s h b c id 1 Hb Hc Hn) as H1.
  assert (Hh : h c = [lockof a]).
  { destruct (h c) as [|x [|y l]]; simpl in H1; [done| |done]. f_equal. set_solver. }
  apply safe_then. eapply (safe_sleep_lock c id Hc); [exact Hr|done|apply Hon|done|done|]. intros m Hf Hm.
  eapply effect_moved; try done. by eapply (ef_sleep1 c s _ p a).
Qed.

Lemma eff_sleep2 p a : on s c p (TSleep1 a) -> safe (sleep_unlock id (lockof a);; mret (moved s p (TSleep2 a))) (y_k s) (shows None).
Proof.
  intros Hon. destruct (on_facts ids lockof s h b c id p _ Hb Hc Hon) as (_ & _ & Hh & _). simpl in Hh.
  apply safe_then, wp_safe. eapply (wp_sleep_unlock c id Hc); [exact Hr|done|apply lockof_ok|]. intros m Hm.
  eapply effect_moved; try done. by eapply (ef_sleep2 c s _ p a).
Qed.
End calls.

Lemma calls_effect s c pick m : inv s -> kcall ids lockof c s pick m -> safe m (y_k s) (fun f k => effect c pick s (f k)).
Proof.
  intros (h & b & Hb) Hcall. pose proof (bi_rep _ _ _ _ _ Hb) as Hr. destruct Hcall as
    [id Hc Hl|id i Hc Hl Hi|id Hc Hl|id a Hc Hl|id p l Hc Hon Hl Hn|id p l Hc Hon Hl Hn|id p t en Hc Hon Ht Hn
    |id p t a Hc Hon Ht|id p t Hc Hon Ht Hn|id p a Hc Hon Hl Hn Hcd|id p a Hc Hon|id p a Hc Hon|id p lk Hc Hon
    |id p pid Hc Hon|id p Hc Hon Hn Hi|id p Hc Hon Hn|id p Hc Hon|id p Hc Hon Hn|id p np ks Hc Hon|id p np st Hc Hon Hst
    |id p np Hc Hon|id p np Hc Hon|id p a Hc Hon Hl|id p a Hc Hon|id p a Hc Hon Hl].
  - pose proof (top_held s h b c id Hb Hc Hl) as Hh. apply safe_then. eapply (safe_top c id Hc); [exact Hr|done|]. intros k Hf Hk.
    split; [|by apply ce_top; simpl; rewrite ?updn_eq|intros c' Hne; simpl; by rewrite updn_ne|done].
    apply ef_cpu; try done. intros j. apply roused_refl.
  - by eapply eff_scan.
  - pose proof (scan_held s h b c id Hb Hc _ Hl) as Hh. apply safe_then, wp_safe. eapply (wp_krelease_pt c id Hc); [exact Hr|done|].
    intros k Hk. split; [|by apply ce_end; simpl; rewrite ?updn_eq|intros c' Hne; simpl; by rewrite updn_ne|done].
    apply ef_cpu; try done. intros j. apply roused_refl.
  - pose proof (top_held s h b c id Hb Hc Hl) as Hh. apply safe_then.
    eapply (safe_wakeup c id Hc); [apply (bi_npt _ _ _ _ _ Hb)|exact Hr|rewrite Hh; set_solver|]. intros k tab Hf Hk Ht Hj.
    split; [|by apply ce_idle; simpl; rewrite ?updn_eq|intros c' Hne; simpl; by rewrite updn_ne|done].
    apply ef_cpu; try done. intros j. change (pt (y_k (cpu_at _ _ _ _)) j) with (tab !!! j). rewrite Hj. apply roused_wake.
  - apply safe_then. rewrite (holds_held ids lockof s h b c id) in Hn by done.
    eapply (safe_kacquire c id Hc); [exact Hr|done|]. intros k Hf Hk. eapply (calm_move s c p TRun TRun); try done. by apply same_tab.
  - apply safe_then, wp_safe. rewrite (holds_held ids lockof s h b c id) in Hn by done.
    eapply (wp_krelease c id Hc); [exact Hr|done|]. intros k Hk. eapply (calm_move s c p TRun TRun); try done. by apply same_tab.
  - apply safe_then, wp_safe. pose proof (ncli_none ids lockof s h b c id Hb Hc Hn) as H0.
    assert (Hz : (length (h c) + 0 = 0)%nat) by (by rewrite H0).
    destruct en; [destruct (mr_sti _ _ _ _ c id Hr Hc Hz) as (k & Hk & _)|destruct (mr_cli _ _ _ _ c id Hr Hc Hz) as (k & Hk & _)];
      (eapply wp_onm; [exact Hk|]; eapply (calm_move s c p t t); try done; [by destruct t..|by apply same_tab]).
  - by eapply eff_wakeup.
  - by eapply eff_switch.
  - by eapply eff_sleep1.
  - by eapply eff_sleep2.
  - by eapply eff_sleep3.
  - destruct (on_facts ids lockof s h b c id p _ Hb Hc Hon) as (_ & _ & [Hh Hlk] & _).
    apply safe_then. eapply (safe_sleep_relock c id Hc); [exact Hr|done|done|]. intros k Hf Hk.
    eapply (calm_move s c p (TRelock lk) TRun); try done. by apply same_tab.
  - by eapply eff_kill.
  - by eapply eff_exit.
  - pose proof (ncli_none ids lockof s h b c id Hb Hc Hn) as Hh. apply safe_then.
    eapply (safe_kacquire c id Hc); [exact Hr|rewrite Hh; set_solver|]. intros k Hf Hk.
    eapply (calm_move s c p TRun TWait); try done. by apply same_tab.
  - by eapply eff_wait_round.
  - by eapply eff_fork.
  - by eapply eff_fork_stack.
  - by eapply eff_fork_fail.
  - by eapply eff_fork_adopt.
  - by eapply eff_fork_done.
  - rewrite (holds_held ids lockof s h b c id) in Hl by done. split; [|apply ce_in; try done; apply Hon|done|done].
    eapply (ef_set c s _ p a); try done. intros q. by eapply held_no_sleep1.
  - by eapply eff_signal.
  - split; [|apply ce_in; try done; apply Hon|done|done]. by eapply (ef_clear c s _ a).
Qed.

Lemma step_effect s s' c pick : inv s -> kstep ids lockof c pick s s' -> inv s' /\ effect c pick s s'.
Proof.
  intros Hi (m & f & k & Hcall & Hrun & ->). split.
  - exact (safe_ok _ _ _ _ _ (calls_safe ids lockof lockof_ok s c pick m Hi Hcall) Hrun).
  - exact (safe_ok _ _ _ _ _ (calls_effect s c pick m Hi Hcall) Hrun).
Qed.
End effects.
