(* ===== verification/ProcThms.v ===== *)
(** What the scheduler promises, on every interleaving of any number of CPUs:
    no process runs twice, no routine panics, no wakeup is lost, every exited
    child can be reaped, and no runnable process starves.  The last section runs the theorems on a
    machine with two CPUs. *)

From S2P Require Import Prelude CString Spinlock LockRep Proc ProcOps ProcEff ProcSafe ProcStep.

Section thms.
Variable ids : list Z.
Variable lockof : Z -> Z.
Hypothesis lockof_ok : forall a, lockof a <> PTLOCK /\ lockof a <> 0.

Notation inv := (inv ids lockof).
Notation sys_step := (sys_step ids lockof).

Lemma boot_pt s p : sys_boot ids s -> (p = O /\ p_state (pt (y_k s) p) = RUNNABLE /\ p_context (pt (y_k s) p) = CForkret /\ p_parent (pt (y_k s) p) = None) \/
  p <> O /\ pt (y_k s) p = zero_proc.
Proof.
  intros (_ & _ & _ & _ & (x & Ex & Hs & Hc & Hp) & _). unfold pt. rewrite Ex. destruct p as [|p]; [by left|]. right.
  split; [done|]. change (replicate (NPROC - 1) zero_proc !!! p = zero_proc).
  destruct (decide (p < NPROC - 1)%nat); [by apply lookup_total_replicate_2|]. apply tab_out. rewrite length_replicate. lia.
Qed.

Lemma boot_inv s : sys_boot ids s -> inv s.
Proof.
  intros Hs. pose proof (fun p => boot_pt s p Hs) as Hpt.
  destruct Hs as (Hnd & Em & Ec & Hns & (x & Ex & _) & _ & Hcl & Htp & _).
  assert (Hcp : forall c, cp (y_k s) c = None).
  { intros c. unfold cp. rewrite Ec, list_lookup_total_alt. destruct (replicate _ _ !! c) eqn:E; [|done]. by apply lookup_replicate in E as [-> _]. }
  exists (fun _ => []), (fun _ => false). split.
  - rewrite Em. split; cbn.
    + done.
    + by rewrite length_fmap.
    + intros c id Hc. exists (mk_cpu id 0 false). rewrite list_lookup_fmap, Hc. done.
    + intros l. split; [done|]. intros (c & _ & Hl). set_solver.
    + intros l c. split; [done|]. intros (_ & Hl). set_solver.
    + intros c _. constructor.
  - by rewrite Ec, length_replicate.
  - done.
  - by rewrite Ex.
  - intros c _. by rewrite Hcl, Hcp.
  - intros p. split; [|intros (c & _ & E); by rewrite Hcp in E]. destruct (Hpt p) as [(_ & -> & _)|[_ ->]]; done.
  - intros c c' p _ _ E. by rewrite Hcp in E.
  - intros p. unfold thr_ok. rewrite Htp. destruct (Hpt p) as [(_ & -> & -> & _)|[_ ->]]; done.
  - intros c _. right. apply Hcp.
  - split.
    + intros p np st. by rewrite Htp.
    + intros p p' np st st'. by rewrite Htp.
    + intros np. destruct (Hpt np) as [(_ & -> & _)|[_ ->]]; done.
Qed.

Lemma reach_inv s0 s : sys_boot ids s0 -> rtc sys_step s0 s -> inv s.
Proof.
  intros Hs. apply (rtc_invariant sys_step inv); [by apply boot_inv|]. intros a b' Ha. by apply inv_step.
Qed.

(** C24: The scheduler is safe.  After any interleaving of any number of CPUs:
    a process is [RUNNING] exactly when a CPU runs it, and then only one does,
    so no kernel stack is ever used by two CPUs, nor freed by [wait] while a
    CPU is still on it; and none of the calls a CPU can make next panics: not
    in [sched], [sleep], [acquire], [release] or [mycpu], and no zombie is
    ever resumed. *)
Theorem scheduler_safe s0 s :
  sys_boot ids s0 -> rtc sys_step s0 s ->
  (forall p, p_state (pt (y_k s) p) = RUNNING <-> exists c, (c < length ids)%nat /\ cp (y_k s) c = Some p) /\
  (forall c c' p, (c < length ids)%nat -> (c' < length ids)%nat -> cp (y_k s) c = Some p -> cp (y_k s) c' = Some p -> c = c') /\
  (forall c pick m e, kcall ids lockof c s pick m -> m (y_k s) <> Panic e).
Proof.
  intros Hs Hr. pose proof (reach_inv s0 s Hs Hr) as Hi. pose proof Hi as (h & b & Hb). split_and!.
  - apply (bi_run _ _ _ _ _ Hb).
  - apply (bi_uniq _ _ _ _ _ Hb).
  - intros c pick m e Hcall E. pose proof (calls_safe ids lockof lockof_ok s c pick m Hi Hcall) as Hsafe.
    unfold safe in Hsafe. by rewrite E in Hsafe.
Qed.

(** ** No lost wakeup *)

Definition asleep_on (s : sys) (p : nat) (a : Z) : Prop :=
  p_state (pt (y_k s) p) = SLEEPING /\ p_chan (pt (y_k s) p) = Some (CAddr a).
Definition signalled (s : sys) (a : Z) : Prop := y_cond s a = false \/ exists q, y_tp s q = TSignal a.

Record cinv (s : sys) : Prop := {
  ci_1 : forall p a, y_tp s p = TSleep1 a -> y_cond s a = false;
  ci_2 : forall p a, y_tp s p = TSleep2 a -> signalled s a;
  ci_3 : forall p a, asleep_on s p a -> signalled s a
}.

Lemma exit_wake_woken k p x : woken x (exit_wake k p x).
Proof.
  unfold exit_wake. apply woken_give. eapply woken_trans; [apply woken_wake|]. unfold wake_if.
  case_match; [apply woken_wake|apply woken_refl].
Qed.

(** A step that starts no sleep and ends no signal. *)
Lemma cinv_quiet s s' :
  cinv s -> (forall a, y_cond s' a = y_cond s a) ->
  (forall q a, y_tp s' q = TSleep1 a -> y_tp s q = TSleep1 a) ->
  (forall q a, y_tp s' q = TSleep2 a -> y_tp s q = TSleep2 a) ->
  (forall q a, y_tp s q = TSignal a -> y_tp s' q = TSignal a) ->
  (forall q a, asleep_on s' q a -> asleep_on s q a) -> cinv s'.
Proof.
  intros [H1 H2 H3] Ec E1 E2 Es Ea.
  assert (Hs : forall a, signalled s a -> signalled s' a).
  { intros a [H|[q H]]; [left; by rewrite Ec|right; exists q; by apply Es]. }
  split.
  - intros p a H. rewrite Ec. by eapply H1, E1.
  - intros p a H. eapply Hs, H2. by apply E2.
  - intros p a H. eapply Hs, H3. by apply Ea.
Qed.

Lemma roused_asleep s s' : (forall j, roused (pt (y_k s) j) (pt (y_k s') j)) -> forall q a, asleep_on s' q a -> asleep_on s q a.
Proof. intros H q a [H1 H2]. destruct (H q) as [(_ & Ec & [E|[E E']]) _]; split; congruence. Qed.

Lemma slot_asleep s s' i x :
  (forall j, pt (y_k s') j = updn (pt (y_k s)) i x j) -> p_state x <> SLEEPING \/ (exists r, p_chan x = Some (CProc r)) ->
  forall q a, asleep_on s' q a -> asleep_on s q a.
Proof.
  intros H Hx q a [H1 H2]. rewrite H in H1, H2. unfold updn in *. case_decide; [|done]. subst.
  destruct Hx as [?|[r ?]]; congruence.
Qed.

(** Moving a calm thread, or one that falls asleep, to a calm place. *)
Lemma moved_calm (tp tp' : nat -> tpos) p t :
  (forall q, tp' q = updn tp p t q) -> calm t = true \/ t = TAsleep ->
  (forall q a, tp' q = TSleep1 a -> tp q = TSleep1 a) /\ (forall q a, tp' q = TSleep2 a -> tp q = TSleep2 a).
Proof.
  intros E Ht. split; intros q a; rewrite E; unfold updn; case_decide; try done; intros ->; destruct Ht; done.
Qed.

Lemma moved_signal (tp tp' : nat -> tpos) p t :
  (forall q, tp' q = updn tp p t q) -> (forall a, tp p <> TSignal a) -> forall q a, tp q = TSignal a -> tp' q = TSignal a.
Proof. intros E H q a Hq. rewrite E. unfold updn. case_decide; [|done]. subst. by destruct (H a). Qed.

Lemma calm_not_signal t : calm t = true -> forall a, t <> TSignal a.
Proof. by destruct t. Qed.

(** The steps of a sleeper and of a signaller. *)
Lemma cinv_sleep s s' p t :
  cinv s -> (forall b, y_tp s p <> TSignal b) ->
  (forall q, y_tp s' q = updn (y_tp s) p t q) -> (forall a, y_cond s' a = y_cond s a) ->
  (forall a, t = TSleep1 a -> y_cond s a = false) -> (forall a, t = TSleep2 a -> signalled s a) ->
  (forall q a, asleep_on s' q a -> asleep_on s q a \/ signalled s a) -> cinv s'.
Proof.
  intros [H1 H2 H3] Hn Et Ec Ht1 Ht2 Ha.
  assert (Hs : forall b, signalled s b -> signalled s' b).
  { intros b [H|[q H]]; [left; by rewrite Ec|right; exists q]. rewrite Et, updn_ne; [done|]. intros ->. by destruct (Hn b). }
  split.
  - intros q b. rewrite Et, Ec. unfold updn. case_decide; [apply Ht1|apply H1].
  - intros q b. rewrite Et. unfold updn. case_decide; intros Hq; apply Hs; [by apply Ht2|by eapply H2].
  - intros q b Hq. apply Hs. destruct (Ha q b Hq); [by eapply H3|done].
Qed.

Lemma cinv_set s s' p a :
  cinv s -> y_tp s p = TRun -> (forall q, y_tp s q <> TSleep1 a) ->
  (forall q, y_tp s' q = updn (y_tp s) p (TSignal a) q) -> (forall a', y_cond s' a' = upd (y_cond s) a true a') ->
  (forall j, pt (y_k s') j = pt (y_k s) j) -> cinv s'.
Proof.
  intros [H1 H2 H3] Htp Hno Et Ec Ew.
  assert (Hs : forall b, signalled s b -> signalled s' b).
  { intros b Hb. destruct (decide (b = a)) as [->|Hne]; [right; exists p; by rewrite Et, updn_eq|].
    destruct Hb as [H|[q H]]; [left; by rewrite Ec, upd_ne|right; exists q]. rewrite Et, updn_ne; [done|]. intros ->. congruence. }
  split.
  - intros q b. rewrite Et, Ec. unfold updn. case_decide; [done|]. intros Hq. rewrite upd_ne; [by eapply H1|]. intros ->. by destruct (Hno q).
  - intros q b. rewrite Et. unfold updn. case_decide; [done|]. intros Hq. by eapply Hs, H2.
  - intros q b [Ha Hb]. rewrite Ew in Ha, Hb. eapply Hs, H3. by split.
Qed.

Lemma cinv_signal s s' p a :
  cinv s -> y_tp s p = TSignal a -> (forall q a', y_tp s q <> TSleep2 a') ->
  (forall q, y_tp s' q = updn (y_tp s) p TRun q) -> (forall a, y_cond s' a = y_cond s a) ->
  (forall j, pt (y_k s') j = wake (Some (CAddr a)) (pt (y_k s) j)) -> cinv s'.
Proof.
  intros [H1 H2 H3] Htp Hno Et Ec Ew.
  assert (Hs : forall b, b <> a -> signalled s b -> signalled s' b).
  { intros b Hne [H|[q H]]; [left; by rewrite Ec|right; exists q]. rewrite Et, updn_ne; [done|]. intros ->. congruence. }
  destruct (moved_calm _ _ _ TRun Et (or_introl eq_refl)) as [M1 M2]. split.
  - intros q b Hq. rewrite Ec. by eapply H1, M1.
  - intros q b Hq. by destruct (Hno q b); apply M2.
  - intros q b [Ha Hb]. rewrite Ew in Ha, Hb. unfold wake in Ha, Hb. case_match eqn:E; [done|].
    apply Hs; [|by eapply H3]. intros ->. rewrite !bool_decide_eq_true_2 in E by done. done.
Qed.

Lemma cinv_clear s s' a :
  cinv s -> (forall q, y_tp s' q = y_tp s q) -> (forall a', y_cond s' a' = upd (y_cond s) a false a') ->
  (forall j, pt (y_k s') j = pt (y_k s) j) -> cinv s'.
Proof.
  intros [H1 H2 H3] Et Ec Ew.
  assert (Hs : forall b, signalled s b -> signalled s' b).
  { intros b Hb. destruct (decide (b = a)) as [->|Hne]; [left; by rewrite Ec, upd_eq|].
    destruct Hb as [H|[q H]]; [left; by rewrite Ec, upd_ne|right; exists q; by rewrite Et]. }
  split.
  - intros q b. rewrite Et, Ec. intros Hq. destruct (decide (b = a)) as [->|Hne]; [by rewrite upd_eq|rewrite upd_ne by done; by eapply H1].
  - intros q b. rewrite Et. intros Hq. by eapply Hs, H2.
  - intros q b [Ha Hb]. rewrite Ew in Ha, Hb. eapply Hs, H3. by split.
Qed.

(** A calm thread stays calm while one slot changes that does not fall asleep
    on a condition. *)
Lemma cinv_calm s s' p t i x :
  cinv s -> calm (y_tp s p) = true \/ y_tp s p = TAsleep -> calm t = true \/ t = TAsleep ->
  (forall q, y_tp s' q = updn (y_tp s) p t q) -> (forall a, y_cond s' a = y_cond s a) ->
  (forall j, pt (y_k s') j = updn (pt (y_k s)) i x j) -> p_state x <> SLEEPING \/ (exists r, p_chan x = Some (CProc r)) -> cinv s'.
Proof.
  intros H Hp Ht Et Ec Ew Hx. destruct (moved_calm _ _ _ _ Et Ht) as [M1 M2]. eapply cinv_quiet; [done|done|done|done| |].
  - eapply moved_signal; [done|]. destruct Hp as [Hp| ->]; [by apply calm_not_signal|done].
  - by eapply slot_asleep.
Qed.

Lemma cinv_step c s s' : cinv s -> eff c s s' -> cinv s'.
Proof.
  intros Hi He. destruct He as
    [Et Ec Ew|p t t' Hon Ht Ht' Hf Et Ec Ew|p a Hon Hcd Et Ec Ew|p a Hon Et Ec Ew|p t x Hon Ht Hx Hpx Et Ec Ew
    |p a x Hon Hx Hxc Hpx Et Ec Ew|p x Hon Hx Hxc Hpx Hnz Et Ec Ew|p x Hon Hini Hx Hpx Et Ec Ew|i t x Hst Hx Hpx Ht Hti Hf Et Ec Ew
    |p z Hon Hpz Hz Et Ec Ew|p i x Hon Hun Hx Hpx Et Ec Ew|p np st st' x Hon Hst Hx Hpx Et Ec Ew|p np st x Hon Hpx Hx Et Ec Ew
    |p a Hon Hno Et Ec Ew|p a Hon Hno Et Ec Ew|a Et Ec Ew].
  all: try (destruct Hon as (_ & _ & Htp)).
  - eapply cinv_quiet; [done|done|..]; [intros q a; by rewrite Et..|by apply roused_asleep].
  - destruct (moved_calm _ _ _ _ Et (or_introl Ht')) as [M1 M2]. eapply cinv_quiet; [done|done|done|done| |by apply roused_asleep].
    eapply moved_signal; [done|]. rewrite Htp. by apply calm_not_signal.
  - eapply (cinv_sleep s s' p (TSleep1 a)); try done; [by rewrite Htp|by intros ? [= <-]|].
    intros q b [Ha Hb]. rewrite Ew in Ha, Hb. by left.
  - eapply (cinv_sleep s s' p (TSleep2 a)); try done; [by rewrite Htp|intros ? [= <-]; left; by eapply (ci_1 _ Hi)|].
    intros q b [Ha Hb]. rewrite Ew in Ha, Hb. by left.
  - eapply (cinv_calm s s' p t p x); try done; [left; rewrite Htp; by destruct t|left; by destruct t|left; by rewrite Hx].
  - eapply (cinv_sleep s s' p TAsleep); try done; [by rewrite Htp|].
    intros q b [Ha Hb]. rewrite Ew in Ha, Hb. unfold updn in Ha, Hb. case_decide as E; [|by left].
    right. rewrite Hxc in Hb. injection Hb as <-. by eapply (ci_2 _ Hi).
  - eapply (cinv_calm s s' p TAsleep p x); try done; [left; by rewrite Htp|by right|right; by exists p].
  - destruct (moved_calm _ _ _ TRun Et (or_introl eq_refl)) as [M1 M2]. eapply cinv_quiet; [done|done|done|done| |].
    + eapply moved_signal; [done|]. by rewrite Htp.
    + intros q a [Ha Hb]. rewrite Ew in Ha, Hb. unfold updn in Ha, Hb. case_decide as E; [congruence|].
      destruct (exit_wake_woken (y_k s) p (pt (y_k s) q)) as (_ & E1 & [E2|[E2 E3]]); [split|]; congruence.
  - eapply (cinv_calm s s' i t i x); try done; [by left|left; by rewrite Hx].
  - eapply (cinv_calm s s' p TRun z); try done; [left; by rewrite Htp|by left|by left].
  - eapply (cinv_calm s s' p (TFork i FSlot) i x); try done; [left; by rewrite Htp|by left|left; by rewrite Hx].
  - eapply (cinv_calm s s' p (TFork np st') np x); try done; [left; by rewrite Htp|by left|left; by rewrite Hx].
  - eapply (cinv_calm s s' p TRun np x); try done; [left; by rewrite Htp|by left|].
    left. destruct Hx as [[_ ->]|[_ ->]]; done.
  - by eapply (cinv_set s s' p a).
  - by eapply (cinv_signal s s' p a).
  - by eapply (cinv_clear s s' a).
Qed.

Lemma reach_step (I : sys -> Prop) s0 s :
  sys_boot ids s0 -> I s0 -> (forall c pick s s', (c < length ids)%nat -> inv s -> I s -> effect c pick s s' -> I s') -> rtc sys_step s0 s -> inv s /\ I s.
Proof.
  intros Hs H0 Hstep. apply (rtc_invariant sys_step (fun s => inv s /\ I s)); [split; [by apply boot_inv|done]|].
  intros s1 s2 [Hi HI] (c & pick & Hk). destruct (step_effect ids lockof lockof_ok s1 s2 c pick Hi Hk) as [Hi' He].
  split; [done|]. refine (Hstep c pick s1 s2 _ Hi HI He). destruct Hk as (m & f & k & Hcall & _).
  destruct Hcall; by eapply lookup_lt_Some.
Qed.

Lemma boot_not_sleeping s p : sys_boot ids s -> p_state (pt (y_k s) p) <> SLEEPING.
Proof. intros Hs. destruct (boot_pt s p Hs) as [(_ & -> & _)|[_ ->]]; done. Qed.

(** C25: No lost wakeup.  A process asleep on a channel, whose condition its
    callers test and set under the lock they pass to [sleep], is never left
    behind: either the condition still does not hold, or the thread that has
    made it hold is about to call [wakeup].  That [sleep] takes [ptable.lock]
    before it releases the caller's lock is what makes this true. *)
Theorem no_lost_wakeup s0 s p a :
  sys_boot ids s0 -> rtc sys_step s0 s ->
  p_state (pt (y_k s) p) = SLEEPING -> p_chan (pt (y_k s) p) = Some (CAddr a) ->
  y_cond s a = false \/ exists q c, (c < length ids)%nat /\ on s c q (TSignal a).
Proof.
  intros Hs Hr Hst Hch.
  destruct (reach_step cinv s0 s Hs) as [Hi Hcv]; [| |done|].
  - pose proof Hs as (_ & _ & _ & _ & _ & _ & _ & Htp & Hcd). split; intros p' a'; rewrite ?Htp; try done. intros [Hx _]. by destruct (boot_not_sleeping s0 p' Hs).
  - intros c pick s1 s2 _ _ H1 He. eapply cinv_step; [done|]. apply (e_eff _ _ _ _ He).
  - destruct (ci_3 _ Hcv p a) as [|[q Hq]]; [by split|by left|]. right. destruct Hi as (h & b & Hb).
    destruct (busy_running ids lockof lockof_ok s h b q Hb) as (c & Hc & Hon); [by rewrite Hq..|]. exists q, c. by rewrite Hq in Hon.
Qed.

(** ** Parents and children *)

Definition alive (x : proc) : Prop := p_state x = SLEEPING \/ p_state x = RUNNABLE \/ p_state x = RUNNING.
Definition parent_ok (T : nat -> proc) (j : nat) : Prop :=
  exists q, p_parent (T j) = Some q /\ q <> j /\ alive (T q).

Record finv (s : sys) : Prop := {
  fi_ini : exists i, k_initproc (y_k s) = Some i /\ alive (pt (y_k s) i);
  fi_unused : forall j, p_state (pt (y_k s) j) = UNUSED -> p_parent (pt (y_k s) j) = None;
  fi_fork : forall p np st, y_tp s p = TFork np st ->
    p_parent (pt (y_k s) np) = match st with FAdopted => Some p | _ => None end;
  fi_par : forall j, k_initproc (y_k s) <> Some j -> alive (pt (y_k s) j) \/ p_state (pt (y_k s) j) = ZOMBIE -> parent_ok (pt (y_k s)) j;
  fi_wait : forall q z r, p_state (pt (y_k s) q) = SLEEPING -> p_chan (pt (y_k s) q) = Some (CProc r) ->
    p_parent (pt (y_k s) z) = Some q -> p_state (pt (y_k s) z) <> ZOMBIE;
  fi_zini : forall i, k_initproc (y_k s) = Some i -> p_parent (pt (y_k s) i) = None
}.

Lemma roused_alive x x' : roused x x' -> alive x' <-> alive x.
Proof. unfold alive. intros [(_ & _ & [->|[-> ->]]) _]; naive_solver. Qed.

Lemma roused_state x x' st : roused x x' -> st <> SLEEPING -> st <> RUNNABLE -> p_state x' = st <-> p_state x = st.
Proof. intros [(_ & _ & [->|[-> ->]]) _] H1 H2; [done|]. naive_solver. Qed.

(** Steps that neither create, free nor reparent a process, nor end in [wait]'s
    sleep. *)
Lemma finv_quiet s s' :
  finv s -> k_initproc (y_k s') = k_initproc (y_k s) ->
  (forall p np st, y_tp s' p = TFork np st -> y_tp s p = TFork np st) ->
  (forall j, p_parent (pt (y_k s') j) = p_parent (pt (y_k s) j)) ->
  (forall j, alive (pt (y_k s') j) <-> alive (pt (y_k s) j)) ->
  (forall j, p_state (pt (y_k s') j) = ZOMBIE <-> p_state (pt (y_k s) j) = ZOMBIE) ->
  (forall j, p_state (pt (y_k s') j) = UNUSED <-> p_state (pt (y_k s) j) = UNUSED) ->
  (forall j r, p_state (pt (y_k s') j) = SLEEPING -> p_chan (pt (y_k s') j) = Some (CProc r) ->
     (p_state (pt (y_k s) j) = SLEEPING /\ p_chan (pt (y_k s) j) = Some (CProc r)) \/
     (forall z, p_parent (pt (y_k s) z) = Some j -> p_state (pt (y_k s) z) <> ZOMBIE)) ->
  finv s'.
Proof.
  intros [H1 H2 H3 H4 H5 H6] Ei Et Ep Ea Ez Eu Es. split; rewrite ?Ei.
  - destruct H1 as (i & ? & ?). exists i. by rewrite Ea.
  - intros j Hj%Eu. rewrite Ep. by apply H2.
  - intros p np st Hp%Et. rewrite Ep. by apply H3.
  - intros j Hj Hx. rewrite Ea, Ez in Hx. destruct (H4 j Hj Hx) as (q & Hq & Hne & Hal). exists q. by rewrite Ep, Ea.
  - intros q z r Hq Hc. rewrite Ep, Ez. destruct (Es q r Hq Hc) as [[? ?]|Hnz]; [by eapply H5|apply Hnz].
  - intros i Hi. rewrite Ep. by apply H6.
Qed.

Lemma finv_roused s s' :
  finv s -> k_initproc (y_k s') = k_initproc (y_k s) ->
  (forall p np st, y_tp s' p = TFork np st -> y_tp s p = TFork np st) ->
  (forall j, roused (pt (y_k s) j) (pt (y_k s') j)) -> finv s'.
Proof.
  intros H Ei Et Ew. eapply finv_quiet; try done.
  - intros j. by destruct (Ew j) as [_ ->].
  - intros j. by apply roused_alive.
  - intros j. by apply roused_state.
  - intros j. by apply roused_state.
  - intros j r Hs Hc. left. destruct (Ew j) as [(_ & E1 & [E2|[E2 E3]]) _]; split; congruence.
Qed.

(** A living process that stays alive. *)
Lemma finv_slot s s' p x :
  finv s -> k_initproc (y_k s') = k_initproc (y_k s) ->
  (forall p np st, y_tp s' p = TFork np st -> y_tp s p = TFork np st) ->
  (forall j, pt (y_k s') j = updn (pt (y_k s)) p x j) -> alive (pt (y_k s) p) -> alive x ->
  p_parent x = p_parent (pt (y_k s) p) ->
  (p_state x = SLEEPING -> forall r, p_chan x = Some (CProc r) ->
     forall z, p_parent (pt (y_k s) z) = Some p -> p_state (pt (y_k s) z) <> ZOMBIE) ->
  finv s'.
Proof.
  intros H Ei Et Ew Ha Hx Hp Hs.
  assert (E : forall st, st = ZOMBIE \/ st = UNUSED -> forall j, p_state (pt (y_k s') j) = st <-> p_state (pt (y_k s) j) = st).
  { intros st Hst j. rewrite Ew. unfold updn. case_decide; [subst|done].
    unfold alive in *. destruct Ha as [->|[->| ->]], Hx as [->|[->| ->]]; naive_solver. }
  eapply finv_quiet; try done.
  - intros j. rewrite Ew. unfold updn. by case_decide; subst.
  - intros j. rewrite Ew. unfold updn. by case_decide; subst.
  - apply E. by left.
  - apply E. by right.
  - intros j r. rewrite Ew. unfold updn. case_decide; [subst|by left]. intros H1 H2. right. by eapply Hs.
Qed.

Lemma give_parent p ini x : p_parent (give p ini x) = if bool_decide (p_parent x = Some p) then ini else p_parent x.
Proof. unfold give. by case_match. Qed.

Lemma give_other p ini x : p_state (give p ini x) = p_state x /\ p_chan (give p ini x) = p_chan x.
Proof. unfold give. by case_match. Qed.

Lemma wake_if_parent z ch x : p_parent (wake_if z ch x) = p_parent x.
Proof. unfold wake_if. case_match; [apply wake_parent|done]. Qed.

(** What [exit] does to the other processes. *)
Lemma exit_wake_parent k p x : p_parent (exit_wake k p x) = if bool_decide (p_parent x = Some p) then k_initproc k else p_parent x.
Proof. unfold exit_wake. by rewrite give_parent, wake_if_parent, wake_parent. Qed.

Lemma wake_sleeping ch x : p_state (wake ch x) = SLEEPING -> p_state x = SLEEPING /\ p_chan x <> ch /\ p_chan (wake ch x) = p_chan x.
Proof.
  unfold wake. case_match eqn:E; [done|]. intros Hs. split; [done|]. split; [|done]. intros Hc.
  by rewrite !bool_decide_eq_true_2 in E by done.
Qed.

(** A sleeper that [exit] leaves asleep is neither the parent nor, if a zombie
    is handed over, [init]. *)
Lemma exit_wake_sleeping k p x :
  p_state (exit_wake k p x) = SLEEPING ->
  p_state x = SLEEPING /\ p_chan x <> CProc <$> p_parent (pt k p) /\
  (zombie_child k p NPROC = true -> p_chan x <> CProc <$> k_initproc k).
Proof.
  unfold exit_wake. rewrite (proj1 (give_other _ _ _)). unfold wake_if. destruct (zombie_child k p NPROC).
  - intros (Hs & Hc & _)%wake_sleeping. apply wake_sleeping in Hs as (Hs & Hc' & E). rewrite E in Hc. done.
  - intros (Hs & Hc & _)%wake_sleeping. done.
Qed.

Lemma woken_alive x x' : woken x x' -> alive x' <-> alive x.
Proof. unfold alive. intros (_ & _ & [->|[-> ->]]); naive_solver. Qed.

Lemma woken_state x x' st : woken x x' -> st <> SLEEPING -> st <> RUNNABLE -> p_state x' = st <-> p_state x = st.
Proof. intros (_ & _ & [->|[-> ->]]) H1 H2; [done|]. naive_solver. Qed.

Lemma finv_exit s s' h b p x :
  binv ids lockof s h b -> finv s -> k_initproc (y_k s') = k_initproc (y_k s) -> y_tp s p = TRun ->
  p_state (pt (y_k s) p) = RUNNING -> k_initproc (y_k s) <> Some p -> p_state x = ZOMBIE ->
  p_parent x = p_parent (give p (k_initproc (y_k s)) (pt (y_k s) p)) ->
  (forall q, y_tp s' q = updn (y_tp s) p TRun q) ->
  (forall j, pt (y_k s') j = updn (fun j => exit_wake (y_k s) p (pt (y_k s) j)) p x j) ->
  finv s'.
Proof.
  intros Hb H Ei Htp Hrun Hpi Hx Hpx Et Ew.
  destruct (fi_ini _ H) as (i & Hi & Hai). assert (Hip : i <> p) by congruence.
  assert (Hnew : forall j, j <> p -> pt (y_k s') j = exit_wake (y_k s) p (pt (y_k s) j)) by (intros j Hj; by rewrite Ew, updn_ne).
  assert (Hw : forall j, j <> p -> woken (pt (y_k s) j) (pt (y_k s') j)) by (intros j Hj; rewrite Hnew by done; apply exit_wake_woken).
  assert (Hpar : forall j, j <> p -> p_parent (pt (y_k s') j) = if bool_decide (p_parent (pt (y_k s) j) = Some p) then Some i else p_parent (pt (y_k s) j))
    by (intros j Hj; rewrite Hnew by done; rewrite exit_wake_parent, Hi; done).
  assert (Hp' : pt (y_k s') p = x) by (by rewrite Ew, updn_eq).
  destruct (fi_par _ H p Hpi) as (q0 & Hq0 & Hq0p & Hq0a); [left; unfold alive; tauto|]. 
  assert (Hxp : p_parent x = Some q0) by (rewrite Hpx, give_parent, bool_decide_eq_false_2; congruence).
  split; rewrite ?Ei.
  - exists i. split; [done|]. by rewrite (woken_alive _ _ (Hw i Hip)).
  - intros j Hj. assert (j <> p) by (intros ->; congruence). rewrite (woken_state (pt (y_k s) j)) in Hj by (try apply Hw; done).
    rewrite Hpar by done. rewrite (fi_unused _ H j Hj). by rewrite bool_decide_eq_false_2.
  - intros q np st Hq. rewrite Et in Hq. unfold updn in Hq. case_decide as E; [done|].
    destruct (fk_slot _ _ (bi_fork _ _ _ _ _ Hb) _ _ _ Hq) as (_ & He & _). 
    assert (np <> p) by (intros ->; congruence). pose proof (fi_fork _ H q np st Hq) as Hf. 
    rewrite Hpar, Hf by done. rewrite bool_decide_eq_false_2; [done|]. destruct st; congruence.
  - intros j Hj Hst. destruct (decide (j = p)) as [->|Hjp].
    + exists q0. rewrite Hp', Hxp. split_and!; [done|done|]. by rewrite (woken_alive _ _ (Hw q0 Hq0p)).
    + rewrite (woken_alive (pt (y_k s) j)), (woken_state (pt (y_k s) j)) in Hst by (try apply Hw; done).
      destruct (fi_par _ H j Hj Hst) as (q & Hq & Hqj & Hqa).  unfold parent_ok. rewrite Hpar, Hq by done.
      destruct (decide (q = p)) as [->|Hqp].
      * rewrite bool_decide_eq_true_2 by done. exists i. split; [done|]. split; [congruence|]. by rewrite (woken_alive _ _ (Hw i Hip)).
      * rewrite bool_decide_eq_false_2 by congruence. exists q. split_and!; [done|done|]. by rewrite (woken_alive _ _ (Hw q Hqp)).
  - intros q z r Hq Hc Hz Hzz. assert (Hqp : q <> p) by (intros ->; congruence).
    rewrite Hnew in Hq by done. destruct (exit_wake_sleeping _ _ _ Hq) as (Hs & Hc1 & Hc2).
    assert (Hcq : p_chan (pt (y_k s) q) = Some (CProc q)).
    { pose proof (bi_thr _ _ _ _ _ Hb q) as Ht.  unfold thr_ok in Ht. rewrite Hs in Ht.
      destruct Ht as (_ & v & [[_ Hx1]|(a & _ & Hx1)]); [done|]. destruct (Hw q Hqp) as (_ & E & _). congruence. }
    destruct (decide (z = p)) as [->|Hzp]; [rewrite Hp', Hxp in Hz; injection Hz as ->; apply Hc1; by rewrite Hq0|].
    rewrite (woken_state (pt (y_k s) z)) in Hzz by (try apply Hw; done). rewrite Hpar in Hz by done. case_bool_decide as Ezp.
    + injection Hz as ->. apply Hc2; [|by rewrite Hi]. unfold zombie_child. apply existsb_exists. exists z. split.
      * apply in_seq. split; [lia|]. simpl. eapply (slot_lt ids lockof s h b z Hb).  by rewrite Hzz.
      *  by rewrite !bool_decide_eq_true_2.
    + by eapply (fi_wait _ H q z q).
  - intros i' Hi'. assert (i' = i) as -> by congruence. rewrite Hpar by done. rewrite (fi_zini _ H i Hi). by rewrite bool_decide_eq_false_2.
Qed.

(** A slot that is not a living process changes, and stays one that nobody's
    parent is. *)
Lemma finv_fresh s s' np x :
  finv s -> k_initproc (y_k s') = k_initproc (y_k s) -> ~ alive (pt (y_k s) np) ->
  (forall j, pt (y_k s') j = updn (pt (y_k s)) np x j) ->
  p_state x <> SLEEPING -> (p_state x <> ZOMBIE) -> 
  (p_state x = UNUSED -> p_parent x = None) ->
  (alive x -> exists q, p_parent x = Some q /\ q <> np /\ alive (pt (y_k s) q)) ->
  (forall p n st, y_tp s' p = TFork n st ->
     (n = np /\ p_parent x = match st with FAdopted => Some p | _ => None end) \/ (n <> np /\ y_tp s p = TFork n st)) ->
  finv s'.
Proof.
  intros H Ei Hna Ew Hs Hz Hu Ha Hf.
  assert (Hal : forall q, alive (pt (y_k s) q) -> alive (pt (y_k s') q)).
  { intros q Hq. rewrite Ew, updn_ne; [done|]. by intros ->. }
  split; rewrite ?Ei.
  - destruct (fi_ini _ H) as (i & Hi & Hai). exists i. split; [done|]. by apply Hal.
  - intros j. rewrite Ew. unfold updn. case_decide; [done|]. apply (fi_unused _ H).
  - intros p n st [[-> Hp]|[Hne Hp]]%Hf; rewrite Ew; [by rewrite updn_eq|]. rewrite updn_ne by done. by apply (fi_fork _ H).
  - intros j Hj Hst. unfold parent_ok. rewrite Ew in *. unfold updn in *. case_decide as E; [subst|].
    + destruct Hst as [Hst|Hst]; [|done]. destruct (Ha Hst) as (q & Hq & Hne & Hqa). exists q. split_and!; [done|done|]. by apply Hal.
    + destruct (fi_par _ H j Hj Hst) as (q & Hq & Hne & Hqa). exists q. split_and!; [done|done|]. by apply Hal.
  - intros q z r. rewrite !Ew. unfold updn. repeat case_decide; try done. by apply (fi_wait _ H).
  - intros i Hi. rewrite Ew, updn_ne; [by apply (fi_zini _ H)|]. intros ->. destruct (fi_ini _ H) as (i & Hi' & Hai). congruence.
Qed.

Lemma finv_step c s s' :
  inv s -> finv s -> (c < length ids)%nat -> eff c s s' -> k_initproc (y_k s') = k_initproc (y_k s) -> finv s'.
Proof.
  intros (h & b & Hb) H Hc He Ei.
  assert (Hrun : forall p t, on s c p t -> p_state (pt (y_k s) p) = RUNNING).
  { intros p t (_ & Hcp & _). apply (bi_run _ _ _ _ _ Hb). by exists c. }
  assert (Hal : forall p t, on s c p t -> alive (pt (y_k s) p)) by (intros p t Hon; right; right; by eapply Hrun).
  assert (Hemb : forall p np st, y_tp s p = TFork np st -> p_state (pt (y_k s) np) = EMBRYO)
    by (intros p np st E; by destruct (fk_slot _ _ (bi_fork _ _ _ _ _ Hb) _ _ _ E) as (_ & ? & _)).
  assert (Hfk : forall tp' p t, (forall q, tp' q = updn (y_tp s) p t q) -> (forall np st, t = TFork np st -> y_tp s p = TFork np st) ->
     forall q np st, tp' q = TFork np st -> y_tp s q = TFork np st).
  { intros tp' p t E Ht q np st. rewrite E. unfold updn. case_decide; [subst; apply Ht|done]. }
  destruct He as
    [Et Ec Ew|p t t' Hon Ht Ht' Hf Et Ec Ew|p a Hon Hcd Et Ec Ew|p a Hon Et Ec Ew|p t x Hon Ht Hx Hpx Et Ec Ew
    |p a x Hon Hx Hxc Hpx Et Ec Ew|p x Hon Hx Hxc Hpx Hnz Et Ec Ew|p x Hon Hini Hx Hpx Et Ec Ew|i t x Hst Hx Hpx Ht Hti Hf Et Ec Ew
    |p z Hon Hpz Hz Et Ec Ew|p i x Hon Hun Hx Hpx Et Ec Ew|p np st st' x Hon Hst Hx Hpx Et Ec Ew|p np st x Hon Hpx Hx Et Ec Ew
    |p a Hon Hno Et Ec Ew|p a Hon Hno Et Ec Ew|a Et Ec Ew].
  all: try (pose proof (Hrun _ _ Hon) as Hr; pose proof (Hal _ _ Hon) as Hap; destruct Hon as (_ & _ & Htp)).
  - eapply finv_roused; try done. intros q np st. by rewrite Et.
  - eapply finv_roused; try done. eapply Hfk; [exact Et|]. intros np st E. rewrite Htp. by apply Hf.
  - eapply finv_roused; try done; [by eapply Hfk; [exact Et|]|]. intros j. rewrite Ew. apply roused_refl.
  - eapply finv_roused; try done; [by eapply Hfk; [exact Et|]|]. intros j. rewrite Ew. apply roused_refl.
  - eapply (finv_slot s s' p x); try done; [eapply Hfk; [exact Et|by intros np st <-]|by unfold alive; auto|by rewrite Hx].
  - eapply (finv_slot s s' p x); try done; [by eapply Hfk; [exact Et|]|by unfold alive; auto|by rewrite Hxc].
  - eapply (finv_slot s s' p x); try done; [by eapply Hfk; [exact Et|]|by unfold alive; auto].
  - by eapply (finv_exit s s' h b p x).
  - eapply (finv_slot s s' i x); try done; [|by unfold alive; auto..|by rewrite Hx]. eapply Hfk; [exact Et|]. intros np st E. by apply Hf.
  - (* reap *) assert (Hnz : ~ alive (pt (y_k s) z)) by (unfold alive; rewrite Hz; naive_solver).
    eapply (finv_fresh s s' z); try done; [unfold alive; simpl; naive_solver|]. intros q n st. rewrite Et. unfold updn. case_decide; [done|].
    intros Hq. right. split; [|done]. intros ->. pose proof (Hemb _ _ _ Hq). congruence.
  - (* alloc *) assert (Hnz : ~ alive (pt (y_k s) i)) by (unfold alive; rewrite Hun; naive_solver).
    eapply (finv_fresh s s' i x); try done; rewrite ?Hx; try done; [unfold alive; rewrite Hx; naive_solver|].
    intros q n st. rewrite Et. unfold updn. case_decide.
    + intros [= <- <-]. left. split; [done|]. rewrite Hpx. by apply (fi_unused _ H).
    + intros Hq. right. split; [|done]. intros ->. pose proof (Hemb _ _ _ Hq). congruence.
  - (* stage *) pose proof (Hemb _ _ _ Htp) as He. assert (Hnz : ~ alive (pt (y_k s) np)) by (unfold alive; rewrite He; naive_solver).
    eapply (finv_fresh s s' np x); try done; rewrite ?Hx; try done; [unfold alive; rewrite Hx; naive_solver|].
    intros q n st1. rewrite Et. unfold updn. case_decide as E.
    + intros [= <- <-]. left. split; [done|]. rewrite Hpx. subst q. destruct st'; [| |done]; rewrite (fi_fork _ H p np st Htp); by destruct st.
    + intros Hq. right. split; [|done]. intros ->. apply E. by eapply (fk_uniq _ _ (bi_fork _ _ _ _ _ Hb)).
  - (* forked *) pose proof (Hemb _ _ _ Htp) as He. assert (Hnz : ~ alive (pt (y_k s) np)) by (unfold alive; rewrite He; naive_solver).
    pose proof (fi_fork _ H p np st Htp) as Hfp. assert (Hne : p <> np) by (intros ->; congruence).
    eapply (finv_fresh s s' np x); try done.
    + destruct Hx as [[_ ->]|[_ ->]]; done.
    + destruct Hx as [[_ ->]|[_ ->]]; done.
    + rewrite Hpx, Hfp. destruct Hx as [[Hx _]|[_ Hx]]; [by destruct st|by rewrite Hx].
    + intros Hax. exists p. rewrite Hpx, Hfp. destruct Hx as [[_ Hx]|[-> _]]; [|done]. unfold alive in Hax. rewrite Hx in Hax. naive_solver.
    + intros q n st1. rewrite Et. unfold updn. case_decide as E; [done|]. intros Hq. right. split; [|done]. intros ->.
      apply E. by eapply (fk_uniq _ _ (bi_fork _ _ _ _ _ Hb)).
  - eapply finv_roused; try done; [by eapply Hfk; [exact Et|]|]. intros j. rewrite Ew. apply roused_refl.
  - eapply finv_roused; try done; [by eapply Hfk; [exact Et|]|]. intros j. rewrite Ew. apply roused_wake.
  - eapply finv_roused; try done; [intros q np st; by rewrite Et|]. intros j. rewrite Ew. apply roused_refl.
Qed.

Lemma boot_finv s : sys_boot ids s -> finv s.
Proof.
  intros Hs. pose proof (fun p => boot_pt s p Hs) as Hpt. destruct Hs as (_ & _ & _ & _ & _ & Hi & _ & Htp & _).
  assert (Hpar : forall j, p_parent (pt (y_k s) j) = None) by (intros j; destruct (Hpt j) as [(_ & _ & _ & ->)|[_ ->]]; done).
  split; rewrite ?Hi.
  - exists O. split; [done|]. destruct (Hpt O) as [(_ & E & _)|[? _]]; [|done]. unfold alive. tauto.
  - intros j _. apply Hpar.
  - intros p np st. by rewrite Htp.
  - intros j Hj Hst. destruct (Hpt j) as [(-> & _)|[_ E]]; [done|]. rewrite E in Hst. unfold alive in Hst. naive_solver.
  - intros q z r Hq. destruct (Hpt q) as [(_ & E & _)|[_ E]]; rewrite E in Hq; done.
  - intros i _. apply Hpar.
Qed.

(** C26: Every exited process can be reaped.  A zombie always has a living
    parent, [init] if its own has exited, and that parent is not asleep in
    [wait]: an exit is never missed, whatever the order of [exit], [wait],
    [fork] and [kill] on all CPUs. *)
Theorem zombie_has_waking_parent s0 s z :
  sys_boot ids s0 -> rtc sys_step s0 s -> p_state (pt (y_k s) z) = ZOMBIE ->
  exists q, p_parent (pt (y_k s) z) = Some q /\
    (p_state (pt (y_k s) q) = RUNNABLE \/ p_state (pt (y_k s) q) = RUNNING \/
     p_state (pt (y_k s) q) = SLEEPING /\ exists a, p_chan (pt (y_k s) q) = Some (CAddr a)).
Proof.
  intros Hs Hr Hz. destruct (reach_step finv s0 s Hs) as [(h & b & Hb) Hf]; [by apply boot_finv| |done|].
  - intros c pick s1 s2 Hc Hi H1 He. eapply finv_step; [done|done|done|apply (e_eff _ _ _ _ He)|apply (e_ini _ _ _ _ He)].
  - destruct (fi_par _ Hf z) as (q & Hq & _ & Ha); [|by right|].
    + intros E. destruct (fi_ini _ Hf) as (i & Hi & Hai). assert (i = z) as -> by congruence.
      unfold alive in Hai. rewrite Hz in Hai. naive_solver.
    + exists q. split; [done|]. destruct Ha as [Ha|[Ha|Ha]]; [|tauto|tauto]. right. right. split; [done|].
      pose proof (bi_thr _ _ _ _ _ Hb q) as Ht. unfold thr_ok in Ht. rewrite Ha in Ht.
      destruct Ht as (_ & v & [[_ Hc]|(a & _ & Hc)]); [by destruct (fi_wait _ Hf q z q)|by exists a].
Qed.

(** ** Fairness *)

(** Where the scheduler of CPU [c] is, or will go on, in its round. *)
Definition pos (s : sys) (c : nat) : nat :=
  match y_cl s c with Top => O | Scan i => i | InProc => S (k_sched (y_k s) !!! c) end.
(** How many slots it visits before slot [p]. *)
Definition rank (s : sys) (c p : nat) : nat := if decide (pos s c <= p)%nat then p - pos s c else NPROC + p - pos s c.

(** [passes c p n s s']: an execution from [s] to [s'] throughout which [p] is
    runnable, and during which CPU [c] switches [n] times to another process. *)
Inductive passes (c p : nat) : nat -> sys -> sys -> Prop :=
| pa_nil s : p_state (pt (y_k s) p) = RUNNABLE -> passes c p 0 s s
| pa_pick n s s1 s' i : passes c p n s s1 -> kstep ids lockof c (Some i) s1 s' -> p_state (pt (y_k s') p) = RUNNABLE -> passes c p (S n) s s'
| pa_step n s s1 s' c' pick : passes c p n s s1 -> kstep ids lockof c' pick s1 s' -> (c' = c -> pick = None) ->
    p_state (pt (y_k s') p) = RUNNABLE -> passes c p n s s'.

Lemma pos_le s c : inv s -> (c < length ids)%nat -> (pos s c <= NPROC)%nat.
Proof.
  intros (h & b & Hb) Hc. pose proof (bi_cpu _ _ _ _ _ Hb c Hc) as Hk. unfold pos. destruct (y_cl s c); simpl in Hk; [unfold NPROC; lia|lia|].
  destruct Hk as (p & Hp & _). destruct (bi_sched _ _ _ _ _ Hb c Hc) as [|E]; [lia|congruence].
Qed.

Lemma rank_step s s' c c' pick p :
  inv s -> (c < length ids)%nat -> (p < NPROC)%nat -> effect c' pick s s' ->
  p_state (pt (y_k s) p) = RUNNABLE -> p_state (pt (y_k s') p) = RUNNABLE ->
  (rank s' c p + (if decide (c' = c) then match pick with Some _ => 1 | None => 0 end else 0) <= rank s c p)%nat.
Proof.
  intros Hi Hc Hp [_ He Hcl _] H1 H2. pose proof (pos_le s c Hi Hc) as Hle.
  assert (Hsc : length (k_sched (y_k s)) = length ids) by (destruct Hi as (h & b & Hb); apply (bi_nsc _ _ _ _ _ Hb)).
  destruct (decide (c' = c)) as [->|Hne].
  - destruct He as [E1 E2 -> Es|E1 E2 -> Es|E1 E2 -> Es|E1 E2 -> Es|i E1 E2 Hst -> Es|i E1 Hlt E2 -> Hst Es|E1 E2 -> Es];
      unfold rank, pos in *; rewrite E1, E2 in *; rewrite ?Es in *.
    1-4: repeat case_decide; lia.
    + assert (i <> p) by (intros ->; done). repeat case_decide; lia.
    + assert (i <> p) by (intros ->; congruence). rewrite list_lookup_total_insert_eq by lia. repeat case_decide; lia.
    + repeat case_decide; lia.
  - assert (Hs : k_sched (y_k s') !!! c = k_sched (y_k s) !!! c).
    { destruct He as [? ? ? ->|? ? ? ->|? ? ? ->|? ? ? ->|? ? ? ? ? ->|? ? ? ? ? ? ->|? ? ? ->]; try done. by apply list_lookup_total_insert_ne. }
    unfold rank, pos in *. rewrite Hcl by done. rewrite Hs. lia.
Qed.

Lemma passes_rank s0 c p n s s' :
  sys_boot ids s0 -> rtc sys_step s0 s -> (c < length ids)%nat -> (p < NPROC)%nat -> passes c p n s s' ->
  inv s' /\ p_state (pt (y_k s') p) = RUNNABLE /\ (rank s' c p + n <= rank s c p)%nat.
Proof.
  intros Hs Hr Hc Hp Hpa. pose proof (reach_inv s0 s Hs Hr) as Hi0.
  induction Hpa as [s Hst|n s s1 s' i Hpa IH Hk Hst|n s s1 s' c' pick Hpa IH Hk Hpick Hst]; [split_and!; [done|done|lia]| |].
  - destruct (IH Hr Hi0) as (Hi1 & H1 & Hle). destruct (step_effect ids lockof lockof_ok _ _ _ _ Hi1 Hk) as [Hi2 He].
    pose proof (rank_step _ _ c _ _ p Hi1 Hc Hp He H1 Hst) as Hrk. rewrite decide_True in Hrk by done.
    split_and!; [done|done|lia].
  - destruct (IH Hr Hi0) as (Hi1 & H1 & Hle). destruct (step_effect ids lockof lockof_ok _ _ _ _ Hi1 Hk) as [Hi2 He].
    pose proof (rank_step _ _ c _ _ p Hi1 Hc Hp He H1 Hst) as Hrk. split_and!; [done|done|]. lia.
Qed.

(** C27: The scheduler does not starve a process.  While a process stays
    runnable, each CPU switches to other processes at most [NPROC - 1] = 63
    times; and when its scan reaches the process, the only thing it can do is
    to switch to it. *)
Theorem scheduler_fair s0 s s' c p n :
  sys_boot ids s0 -> rtc sys_step s0 s -> (c < length ids)%nat -> (p < NPROC)%nat -> passes c p n s s' ->
  (n < NPROC)%nat /\
  (y_cl s' c = Scan p -> forall pick s'', kstep ids lockof c pick s' s'' -> pick = Some p /\ p_state (pt (y_k s'') p) = RUNNING).
Proof.
  intros Hs Hr Hc Hp Hpa. pose proof (pos_le s c (reach_inv s0 s Hs Hr) Hc) as Hle0.
  destruct (passes_rank s0 c p n s s' Hs Hr Hc Hp Hpa) as (Hi & Hst & Hle). split.
  - unfold rank in Hle. destruct (decide (pos s c <= p)%nat); lia.
  - intros Hcl pick s'' Hk. destruct (step_effect ids lockof lockof_ok _ _ _ _ Hi Hk) as [_ [_ He _ _]].
    destruct He as [E|E|E|E|i E E2 Hn|i E Hlt E2 -> Hrun|E]; rewrite Hcl in E; try done.
    + injection E as ->. done.
    + injection E as ->. done.
    + injection E as ->. lia.
Qed.
End thms.

(** * Executions of the scheduler on a machine with two CPUs: a process goes to
    sleep; a process forks, and its child exits. *)

Definition two_cpus : list Z := [0; 1].
Definition one_lock (a : Z) : Z := 5.

Lemma one_lock_ok a : one_lock a <> PTLOCK /\ one_lock a <> 0.
Proof. done. Qed.

Definition is_ok {S A} (o : outcome S A) : bool := match o with Ok _ _ => true | _ => false end.
Definition next (m : M kern (kern -> sys)) (s : sys) : sys := match m (y_k s) with Ok f k => f k | _ => s end.

Lemma kstep_next c pick m s :
  kcall two_cpus one_lock c s pick m -> is_ok (m (y_k s)) = true -> kstep two_cpus one_lock c pick s (next m s).
Proof.
  intros Hc Hok. unfold next, is_ok in *. destruct (m (y_k s)) as [f k| |] eqn:E; [|done|done]. by exists m, f, k.
Qed.

Lemma step_next c pick m s :
  kcall two_cpus one_lock c s pick m -> is_ok (m (y_k s)) = true -> sys_step two_cpus one_lock s (next m s).
Proof. intros Hc Hok. exists c, pick. by apply kstep_next. Qed.

Definition w0 : sys :=
  mk_sys (mk_kern (mk_mach (fun _ => initlock) [mk_cpu 0 0 false; mk_cpu 1 0 false] (fun _ => false)) [None; None] [O; O]
      (mk_proc 4096 0 0 RUNNABLE 1 None 0 CForkret None false None [] :: replicate 63 zero_proc) (Some O) 2 true)
    (fun _ => Top) (fun _ => TRun) (fun _ => false).

Lemma w0_boot : sys_boot two_cpus w0.
Proof.
  split_and!; try done.
  - apply NoDup_cons. split; [set_solver|]. apply NoDup_singleton.
  - eexists. split; [reflexivity|]. done.
Qed.

(** CPU 0 starts process 0, which sleeps on channel 7. *)
Definition w1 := next (scheduler_top 0;; mret (cpu_at w0 0 (Scan 0))) w0.
Definition scan (s : sys) (c : nat) (id : Z) (i : nat) : M kern (kern -> sys) :=
  run ← scheduler_try id i;
  if run : bool then t ← resume id i (y_tp s i); mret (entered s c i t) else mret (cpu_at s c (Scan (S i))).
Definition w2 := next (scan w1 0 0 0) w1.
Definition w3 := next (kacquire 0 5;; mret (moved w2 0 TRun)) w2.
Definition w4 := next (sleep_lock 0 (one_lock 7);; mret (moved w3 0 (TSleep1 7))) w3.
Definition w5 := next (sleep_unlock 0 (one_lock 7);; mret (moved w4 0 (TSleep2 7))) w4.
Definition w6 := next (i ← switch 0 (sleep_sched 0 (CAddr 7) (one_lock 7)); mret (left_cpu w5 0 0 TAsleep i)) w5.

Ltac demo := solve [vm_compute; reflexivity | split_and!; vm_compute; reflexivity | vm_compute; discriminate | vm_compute; lia].

Lemma w2_reached : rtc (sys_step two_cpus one_lock) w0 w2.
Proof.
  assert (Hw1 : sys_step two_cpus one_lock w0 w1) by (apply (step_next 0 None); [apply (kc_top _ _ 0 w0 0); demo|demo]).
  assert (Hw2 : sys_step two_cpus one_lock w1 w2) by (eapply (step_next 0 _ (scan w1 0 0 0)); [apply (kc_scan _ _ 0 w1 0 0); demo|demo]).
  eapply rtc_l; [exact Hw1|].
  eapply rtc_l; [exact Hw2|].
  apply rtc_refl.
Qed.

Lemma w6_reached : rtc (sys_step two_cpus one_lock) w0 w6.
Proof.
  etransitivity; [exact w2_reached|].
  assert (Hw3 : sys_step two_cpus one_lock w2 w3) by (apply (step_next 0 None); [apply (kc_acquire _ _ 0 w2 0 0 5); demo|demo]).
  assert (Hw4 : sys_step two_cpus one_lock w3 w4) by (apply (step_next 0 None); [apply (kc_sleep1 _ _ 0 w3 0 0 7); demo|demo]).
  assert (Hw5 : sys_step two_cpus one_lock w4 w5) by (apply (step_next 0 None); [apply (kc_sleep2 _ _ 0 w4 0 0 7); demo|demo]).
  assert (Hw6 : sys_step two_cpus one_lock w5 w6) by (apply (step_next 0 None); [apply (kc_sleep3 _ _ 0 w5 0 0 7); demo|demo]).
  eapply rtc_l; [exact Hw3|].
  eapply rtc_l; [exact Hw4|].
  eapply rtc_l; [exact Hw5|].
  eapply rtc_l; [exact Hw6|].
  apply rtc_refl.
Qed.

(** Process 0 forks instead; CPU 0 switches to the child, which exits. *)
Definition f3 := next (o ← alloc_slot 0; mret (moved w2 0 (match o with Some np => TFork np FSlot | None => TRun end))) w2.
Definition f4 := next (set_stack 1 2151677952;; mret (moved f3 0 (TFork 1 FStack))) f3.
Definition f5 := next (adopt 0 1;; mret (moved f4 0 (TFork 1 FAdopted))) f4.
Definition f6 := next (make_runnable 0 1;; mret (moved f5 0 TRun)) f5.
Definition f7 := next (i ← switch 0 (yield 0); mret (left_cpu f6 0 0 TRun i)) f6.
Definition f8 := next (scan f7 0 0 1) f7.
Definition f9 := next (i ← switch 0 (exit_table 0); mret (left_cpu f8 0 1 TRun i)) f8.

Lemma f7_reached : rtc (sys_step two_cpus one_lock) w0 f7.
Proof.
  etransitivity; [exact w2_reached|].
  assert (Hf3 : sys_step two_cpus one_lock w2 f3) by (apply (step_next 0 None); [apply (kc_fork _ _ 0 w2 0 0); demo|demo]).
  assert (Hf4 : sys_step two_cpus one_lock f3 f4) by (apply (step_next 0 None); [apply (kc_fork_stack _ _ 0 f3 0 0 1 2151677952); demo|demo]).
  assert (Hf5 : sys_step two_cpus one_lock f4 f5) by (apply (step_next 0 None); [apply (kc_fork_adopt _ _ 0 f4 0 0 1); demo|demo]).
  assert (Hf6 : sys_step two_cpus one_lock f5 f6) by (apply (step_next 0 None); [apply (kc_fork_done _ _ 0 f5 0 0 1); demo|demo]).
  assert (Hf7 : sys_step two_cpus one_lock f6 f7) by (apply (step_next 0 None); [apply (kc_yield _ _ 0 f6 0 0 TRun); demo|demo]).
  eapply rtc_l; [exact Hf3|].
  eapply rtc_l; [exact Hf4|].
  eapply rtc_l; [exact Hf5|].
  eapply rtc_l; [exact Hf6|].
  eapply rtc_l; [exact Hf7|].
  apply rtc_refl.
Qed.

Lemma f9_reached : rtc (sys_step two_cpus one_lock) w0 f9.
Proof.
  etransitivity; [exact f7_reached|].
  assert (Hf8 : sys_step two_cpus one_lock f7 f8) by (eapply (step_next 0 _ (scan f7 0 0 1)); [apply (kc_scan _ _ 0 f7 0 1); demo|demo]).
  assert (Hf9 : sys_step two_cpus one_lock f8 f9) by (apply (step_next 0 None); [apply (kc_exit _ _ 0 f8 0 1); demo|demo]).
  eapply rtc_l; [exact Hf8|].
  eapply rtc_l; [exact Hf9|].
  apply rtc_refl.
Qed.

Lemma scheduler_safe_witness :
  p_state (pt (y_k f9) 1) = ZOMBIE /\ (forall p, p_state (pt (y_k f9) p) = RUNNING <-> exists c, (c < length two_cpus)%nat /\ cp (y_k f9) c = Some p).
Proof.
  split; [vm_compute; reflexivity|]. exact (proj1 (scheduler_safe two_cpus one_lock one_lock_ok w0 f9 w0_boot f9_reached)).
Defined.

Lemma no_lost_wakeup_witness :
  p_state (pt (y_k w6) 0) = SLEEPING /\ (y_cond w6 7 = false \/ exists q c, (c < length two_cpus)%nat /\ on w6 c q (TSignal 7)).
Proof.
  assert (H : p_state (pt (y_k w6) 0) = SLEEPING) by (vm_compute; reflexivity).
  split; [exact H|]. apply (no_lost_wakeup two_cpus one_lock one_lock_ok w0 w6 0 7 w0_boot w6_reached H). vm_compute. reflexivity.
Defined.

Lemma zombie_has_waking_parent_witness :
  exists q, p_parent (pt (y_k f9) 1) = Some q /\
    (p_state (pt (y_k f9) q) = RUNNABLE \/ p_state (pt (y_k f9) q) = RUNNING \/
     p_state (pt (y_k f9) q) = SLEEPING /\ exists a, p_chan (pt (y_k f9) q) = Some (CAddr a)).
Proof.
  apply (zombie_has_waking_parent two_cpus one_lock one_lock_ok w0 f9 1 w0_boot f9_reached). vm_compute. reflexivity.
Defined.

Lemma f7_passes : passes two_cpus one_lock 0 0 1 f7 f8.
Proof.
  eapply (pa_pick _ _ 0 0 0 f7 f7 f8 1); [apply pa_nil; vm_compute; reflexivity| |vm_compute; reflexivity].
  assert (Hk : kstep two_cpus one_lock 0 (if bool_decide (p_state (pt (y_k f7) 1) = RUNNABLE) then Some 1%nat else None) f7 f8).
  { eapply (kstep_next 0 _ (scan f7 0 0 1)); [apply (kc_scan _ _ 0 f7 0 1); demo|demo]. }
  rewrite bool_decide_eq_true_2 in Hk; [exact Hk|]. vm_compute. reflexivity.
Qed.

Lemma scheduler_fair_witness : (1 < NPROC)%nat.
Proof.
  refine (proj1 (scheduler_fair two_cpus one_lock one_lock_ok w0 f7 f8 0 0 1 w0_boot f7_reached _ _ f7_passes)); vm_compute; lia.
Defined.
