(* ===== verification/Seg.v ===== *)
(** Segments, gates and the task state ([mmu.h]; [seginit], [switchkvm] and
    [switchuvm] of [vm.c]; [tvinit] and [idtinit] of [trap.c]; [lgdt], [lidt],
    [ltr] and [lcr3] of [x86.h]).

    A descriptor is a record with the bit-fields of its [struct].  What the
    processor makes of it is read back from the two words the bit-fields are
    packed into ([hw_...]), as the manual lays them out.  The task state segment
    is its 26 words. *)

From S2P Require Import Prelude CString Spinlock Kalloc Vm LockRep Proc.

Definition SEG_KCODE : Z := 1.
Definition SEG_KDATA : Z := 2.
Definition SEG_UCODE : Z := 3.
Definition SEG_UDATA : Z := 4.
Definition SEG_TSS : Z := 5.
Definition NSEGS : nat := 6.
Definition DPL_USER : Z := 3.
Definition STA_X : Z := 8.
Definition STA_W : Z := 2.
Definition STA_R : Z := 2.
Definition STS_T32A : Z := 9.
Definition STS_T32B : Z := 11.
Definition STS_IG32 : Z := 14.
Definition STS_TG32 : Z := 15.
Definition T_SYSCALL : Z := 64.

(** What is stored in a bit-field of [w] bits. *)
Definition bf (w x : Z) : Z := x mod 2 ^ w.

Record segdesc := mk_segdesc {
  lim_15_0 : Z; base_15_0 : Z; base_23_16 : Z; sd_type : Z; sd_s : Z; sd_dpl : Z; sd_p : Z;
  lim_19_16 : Z; avl : Z; sd_rsv1 : Z; db : Z; sd_g : Z; base_31_24 : Z
}.
#[export] Instance eta_segdesc : Settable segdesc := fun d =>
  mk_segdesc (lim_15_0 d) (base_15_0 d) (base_23_16 d) (sd_type d) (sd_s d) (sd_dpl d) (sd_p d) (lim_19_16 d) (avl d)
    (sd_rsv1 d) (db d) (sd_g d) (base_31_24 d).
Definition zero_desc : segdesc := mk_segdesc 0 0 0 0 0 0 0 0 0 0 0 0 0.
#[export] Instance segdesc_inhabited : Inhabited segdesc := populate zero_desc.

Definition SEG (type base lim dpl : Z) : segdesc :=
  mk_segdesc (bf 16 (Z.land (Z.shiftr lim 12) 65535)) (bf 16 (Z.land (u32 base) 65535))
    (bf 8 (Z.land (Z.shiftr (u32 base) 16) 255)) (bf 4 type) 1 (bf 2 dpl) 1
    (bf 4 (Z.shiftr (u32 lim) 28)) 0 0 1 1 (bf 8 (Z.shiftr (u32 base) 24)).
Definition SEG16 (type base lim dpl : Z) : segdesc :=
  mk_segdesc (bf 16 (Z.land lim 65535)) (bf 16 (Z.land (u32 base) 65535))
    (bf 8 (Z.land (Z.shiftr (u32 base) 16) 255)) (bf 4 type) 1 (bf 2 dpl) 1
    (bf 4 (Z.shiftr (u32 lim) 16)) 0 0 1 0 (bf 8 (Z.shiftr (u32 base) 24)).

Record gatedesc := mk_gatedesc {
  off_15_0 : Z; gd_cs : Z; gd_args : Z; gd_rsv1 : Z; gd_type : Z; gd_s : Z; gd_dpl : Z; gd_p : Z; off_31_16 : Z
}.
Definition zero_gate : gatedesc := mk_gatedesc 0 0 0 0 0 0 0 0 0.
#[export] Instance gatedesc_inhabited : Inhabited gatedesc := populate zero_gate.

Definition SETGATE (istrap : bool) (sel off d : Z) : gatedesc :=
  mk_gatedesc (bf 16 (Z.land (u32 off) 65535)) (bf 16 sel) 0 0 (bf 4 (if istrap then STS_TG32 else STS_IG32)) 0 (bf 2 d) 1
    (bf 16 (Z.shiftr (u32 off) 16)).

(** ** What the processor reads *)

Definition bits (x lo n : Z) : Z := (x / 2 ^ lo) mod 2 ^ n.

(** The two words of a descriptor. *)
Definition seg_lo (d : segdesc) : Z := lim_15_0 d + 65536 * base_15_0 d.
Definition seg_hi (d : segdesc) : Z :=
  base_23_16 d + 2 ^ 8 * sd_type d + 2 ^ 12 * sd_s d + 2 ^ 13 * sd_dpl d + 2 ^ 15 * sd_p d + 2 ^ 16 * lim_19_16 d
  + 2 ^ 20 * avl d + 2 ^ 21 * sd_rsv1 d + 2 ^ 22 * db d + 2 ^ 23 * sd_g d + 2 ^ 24 * base_31_24 d.
Definition hw_base (lo hi : Z) : Z := bits lo 16 16 + 2 ^ 16 * bits hi 0 8 + 2 ^ 24 * bits hi 24 8.
Definition hw_limit (lo hi : Z) : Z :=
  let l := bits lo 0 16 + 2 ^ 16 * bits hi 16 4 in if bits hi 23 1 =? 1 then 4096 * l + 4095 else l.
Definition hw_type (hi : Z) : Z := bits hi 8 4.
Definition hw_app (hi : Z) : bool := bits hi 12 1 =? 1.
Definition hw_dpl (hi : Z) : Z := bits hi 13 2.
Definition hw_present (hi : Z) : bool := bits hi 15 1 =? 1.

Definition gate_lo (g : gatedesc) : Z := off_15_0 g + 65536 * gd_cs g.
Definition gate_hi (g : gatedesc) : Z :=
  gd_args g + 2 ^ 5 * gd_rsv1 g + 2 ^ 8 * gd_type g + 2 ^ 12 * gd_s g + 2 ^ 13 * gd_dpl g + 2 ^ 15 * gd_p g + 2 ^ 16 * off_31_16 g.
Definition hw_offset (lo hi : Z) : Z := bits lo 0 16 + 2 ^ 16 * bits hi 16 16.
Definition hw_selector (lo : Z) : Z := bits lo 16 16.

(** Interrupt [n] through [idt], raised by the instruction [int n] at
    privilege [cpl] ([Some]) or by the hardware ([None]): the code segment, the
    address, and whether interrupts are turned off; nothing for a fault. *)
Definition hw_int (idt : list gatedesc) (n : Z) (soft : option Z) : option (Z * Z * bool) :=
  g ← idt !! Z.to_nat n;
  let lo := gate_lo g in let hi := gate_hi g in
  if negb (hw_present hi) || hw_app hi then None else
  if negb ((hw_type hi =? STS_IG32) || (hw_type hi =? STS_TG32)) then None else
  match soft with
  | Some cpl => if cpl >? hw_dpl hi then None else Some (hw_selector lo, hw_offset lo hi, hw_type hi =? STS_IG32)
  | None => Some (hw_selector lo, hw_offset lo hi, hw_type hi =? STS_IG32)
  end.

(** ** The registers and tables of each CPU *)

(** A table register: limit and base.  [pd] of [lgdt] and [lidt] is three
    16-bit words, which the processor reads as 2 and 4 bytes. *)
Definition load_table (p size : Z) : Z * Z :=
  let pd0 := bf 16 (size - 1) in let pd1 := bf 16 (u32 p) in let pd2 := bf 16 (Z.shiftr (u32 p) 16) in
  (pd0, pd1 + 65536 * pd2).

(** [s_tr] is the task register: the selector, and the base and limit [ltr]
    fetched from the descriptor. *)
Record cpuseg := mk_cpuseg {
  s_gdt : list segdesc; s_ts : list Z; s_gdtr : Z * Z; s_idtr : Z * Z; s_tr : Z * Z * Z; s_cr3 : Z
}.
#[export] Instance eta_cpuseg : Settable cpuseg := fun c =>
  mk_cpuseg (s_gdt c) (s_ts c) (s_gdtr c) (s_idtr c) (s_tr c) (s_cr3 c).
Definition zero_cpuseg : cpuseg := mk_cpuseg (replicate NSEGS zero_desc) (replicate 26 0) (0, 0) (0, 0) (0, 0, 0) 0.
#[export] Instance cpuseg_inhabited : Inhabited cpuseg := populate zero_cpuseg.

Record segs := mk_segs { g_mach : mach; g_cpu : list cpuseg; g_idt : list gatedesc; g_kpgdir : Z }.
#[export] Instance eta_segs : Settable segs := fun s => mk_segs (g_mach s) (g_cpu s) (g_idt s) (g_kpgdir s).

Section seg.
(** The addresses the linker gives [cpus] and [idt]; a [struct cpu] has 176
    bytes, with [ts] at 8 and [gdt] at 112. *)
Variables cpus idt : Z.
Definition ts_addr (c : nat) : Z := u32 (cpus + 176 * Z.of_nat c + 8).
Definition gdt_addr (c : nat) : Z := u32 (cpus + 176 * Z.of_nat c + 112).

Definition on_mach {A} (m : M mach A) : M segs A := zoom g_mach (fun t s => s <| g_mach := t |>) m.
Definition set_seg (c : nat) (f : cpuseg -> cpuseg) : M segs () :=
  modify (fun s => s <| g_cpu := <[c := f (g_cpu s !!! c)]> (g_cpu s) |>).
Definition set_gdt (c : nat) (i : Z) (d : segdesc) : M segs () :=
  set_seg c (fun x => x <| s_gdt := <[Z.to_nat i := d]> (s_gdt x) |>).
Definition set_ts (c : nat) (i : nat) (f : Z -> Z) : M segs () :=
  set_seg c (fun x => x <| s_ts := <[i := f (s_ts x !!! i)]> (s_ts x) |>).

Definition seginit (id : Z) : M segs () :=
  c ← on_mach (mycpu id);
  set_gdt c SEG_KCODE (SEG (Z.lor STA_X STA_R) 0 4294967295 0);;
  set_gdt c SEG_KDATA (SEG STA_W 0 4294967295 0);;
  set_gdt c SEG_UCODE (SEG (Z.lor STA_X STA_R) 0 4294967295 DPL_USER);;
  set_gdt c SEG_UDATA (SEG STA_W 0 4294967295 DPL_USER);;
  set_seg c (fun x => x <| s_gdtr := load_table (gdt_addr c) (8 * Z.of_nat NSEGS) |>).

(** [ltr] faults unless the selector names an available task state segment,
    which it marks busy in the table. *)
Definition ltr (c : nat) (sel : Z) : M segs () :=
  x ← gets (fun s => g_cpu s !!! c);
  let d := s_gdt x !!! Z.to_nat (sel / 8) in
  let lo := seg_lo d in let hi := seg_hi d in
  if negb (hw_present hi) || hw_app hi || negb (hw_type hi =? STS_T32A) then panic "fault" else
  set_gdt c (sel / 8) (d <| sd_type := STS_T32B |>);;
  set_seg c (fun x => x <| s_tr := (sel, hw_base lo hi, hw_limit lo hi) |>).

Definition lcr3 (c : nat) (v : Z) : M segs () := set_seg c (fun x => x <| s_cr3 := v |>).

(** [c] is the CPU the code runs on. *)
Definition switchkvm (c : nat) : M segs () :=
  kpgdir ← gets g_kpgdir;
  lcr3 c (V2P kpgdir).

(** [ss0] is the low half of word 2 of the task state, [iomb] the high half of
    word 25. *)
Definition set_low (v w : Z) : Z := bf 16 v + 65536 * bits w 16 16.
Definition set_high (v w : Z) : Z := bits w 0 16 + 65536 * bf 16 v.

(** The process, or the null pointer, is given by [p->kstack] and [p->pgdir]. *)
Definition switchuvm (id : Z) (p : option (Z * Z)) : M segs () :=
  match p with
  | None => panic "switchuvm: no process"
  | Some (kstack, pgdir) =>
      if kstack =? 0 then panic "switchuvm: no kstack" else
      if pgdir =? 0 then panic "switchuvm: no pgdir" else
      on_mach (pushcli id);;
      c ← on_mach (mycpu id);
      set_gdt c SEG_TSS (SEG16 STS_T32A (ts_addr c) (104 - 1) 0);;
      set_seg c (fun x => x <| s_gdt := <[Z.to_nat SEG_TSS := (s_gdt x !!! Z.to_nat SEG_TSS) <| sd_s := 0 |>]> (s_gdt x) |>);;
      set_ts c 2 (set_low (Z.shiftl SEG_KDATA 3));;
      set_ts c 1 (fun _ => u32 (kstack + KSTACKSIZE));;
      set_ts c 25 (set_high 65535);;
      ltr c (Z.shiftl SEG_TSS 3);;
      lcr3 c (V2P pgdir);;
      on_mach (popcli id)
  end.

(** [vectors] is the table vectors.S holds, [tickslock] the address of the lock. *)
Definition tvinit (tickslock : Z) (vectors : Z -> Z) : M segs () :=
  forM (seqZ 0 256) (fun i =>
    modify (fun s => s <| g_idt := <[Z.to_nat i := SETGATE false (Z.shiftl SEG_KCODE 3) (vectors i) 0]> (g_idt s) |>));;
  modify (fun s => s <| g_idt := <[Z.to_nat T_SYSCALL := SETGATE true (Z.shiftl SEG_KCODE 3) (vectors T_SYSCALL) DPL_USER]> (g_idt s) |>);;
  on_mach (setlock tickslock (fun l => l <| lk_locked := 0 |> <| lk_cpu := None |>)).

Definition idtinit (c : nat) : M segs () :=
  set_seg c (fun x => x <| s_idtr := load_table idt (8 * 256) |>).
End seg.

(** ** Entering the kernel *)

(** What the processor does on interrupt [n] from user mode, with [idt] the
    table [s_idtr] points to: it loads [%cs] from the gate, whose segment must
    be present code of privilege 0, and the kernel stack from the task state. *)
Record entry := mk_entry { en_cs : Z; en_eip : Z; en_ss : Z; en_esp : Z; en_off : bool }.
Definition hw_enter (x : cpuseg) (idt : list gatedesc) (n : Z) (soft : option Z) : option entry :=
  '(cs, eip, off) ← hw_int idt n soft;
  d ← s_gdt x !! Z.to_nat (cs / 8);
  let hi := seg_hi d in
  if negb (hw_present hi && hw_app hi && Z.testbit (hw_type hi) 3 && (hw_dpl hi =? 0)) then None else
  if hw_limit (seg_lo d) hi <? eip then None else
  Some (mk_entry cs eip (bits (s_ts x !!! 2%nat) 0 16) (s_ts x !!! 1%nat) off).

(** Whether user code may use [port]: the bit of the map at [iomb], if it is
    inside the segment. *)
Definition hw_port (x : cpuseg) (port : Z) : bool :=
  let iomb := bits (s_ts x !!! 25%nat) 16 16 in
  let '(_, _, limit) := s_tr x in
  (iomb + port / 8 + 1 <=? limit).

(** ** Well-typed descriptors *)

Definition fits (w x : Z) : Prop := 0 <= x < 2 ^ w.

Record seg_ok (d : segdesc) : Prop := {
  so_lim0 : fits 16 (lim_15_0 d); so_base0 : fits 16 (base_15_0 d); so_base1 : fits 8 (base_23_16 d);
  so_type : fits 4 (sd_type d); so_s : fits 1 (sd_s d); so_dpl : fits 2 (sd_dpl d); so_p : fits 1 (sd_p d);
  so_lim1 : fits 4 (lim_19_16 d); so_avl : fits 1 (avl d); so_rsv : fits 1 (sd_rsv1 d); so_db : fits 1 (db d);
  so_g : fits 1 (sd_g d); so_base2 : fits 8 (base_31_24 d)
}.

Record gate_ok (g : gatedesc) : Prop := {
  go_off0 : fits 16 (off_15_0 g); go_cs : fits 16 (gd_cs g); go_args : fits 5 (gd_args g); go_rsv : fits 3 (gd_rsv1 g);
  go_type : fits 4 (gd_type g); go_s : fits 1 (gd_s g); go_dpl : fits 2 (gd_dpl g); go_p : fits 1 (gd_p g);
  go_off1 : fits 16 (off_31_16 g)
}.

Record cpuseg_ok (x : cpuseg) : Prop := {
  co_len : length (s_gdt x) = NSEGS; co_gdt : Forall seg_ok (s_gdt x);
  co_tslen : length (s_ts x) = 26%nat; co_ts : Forall (fits 32) (s_ts x)
}.

Record segs_ok (s : segs) : Prop := {
  sg_cpu : Forall cpuseg_ok (g_cpu s); sg_len : length (g_idt s) = 256%nat; sg_idt : Forall gate_ok (g_idt s)
}.

Lemma bf_fits w x : 0 <= w -> fits w (bf w x).
Proof. intros. unfold fits, bf. apply Z.mod_pos_bound. lia. Qed.

Lemma bf_small w x : fits w x -> bf w x = x.
Proof. unfold fits, bf. intros. by apply Z.mod_small. Qed.

Lemma mask_bf w x : 0 <= w -> Z.land x (Z.ones w) = bf w x.
Proof. intros. unfold bf. by apply Z.land_ones. Qed.


Ltac fits_tac := solve [apply bf_fits; lia | vm_compute; intuition congruence | done].

Lemma SEG_ok type base lim dpl : seg_ok (SEG type base lim dpl).
Proof. split; cbn [lim_15_0 base_15_0 base_23_16 sd_type sd_s sd_dpl sd_p lim_19_16 avl sd_rsv1 db sd_g base_31_24 SEG]; fits_tac. Qed.

Lemma SEG16_ok type base lim dpl : seg_ok (SEG16 type base lim dpl).
Proof. split; cbn [lim_15_0 base_15_0 base_23_16 sd_type sd_s sd_dpl sd_p lim_19_16 avl sd_rsv1 db sd_g base_31_24 SEG16]; fits_tac. Qed.

Lemma SETGATE_ok istrap sel off d : gate_ok (SETGATE istrap sel off d).
Proof. split; cbn [off_15_0 gd_cs gd_args gd_rsv1 gd_type gd_s gd_dpl gd_p off_31_16 SETGATE]; fits_tac. Qed.

(** The fields are packed side by side: [a] below, [b] and then [c]. *)
Lemma bits_at x lo n a b c :
  0 <= lo -> 0 <= n -> x = a + 2 ^ lo * (b + 2 ^ n * c) -> fits lo a -> fits n b -> bits x lo n = b.
Proof.
  unfold fits, bits. intros Hlo Hn -> Ha Hb. rewrite Z.add_comm, Z.mul_comm, Z.div_add_l, (Z.div_small a), Z.add_0_r by lia.
  rewrite Z.mul_comm, Z.mod_add by lia. by apply Z.mod_small.
Qed.

Ltac pow2 :=
  change (2 ^ 0) with 1 in *; change (2 ^ 1) with 2 in *; change (2 ^ 2) with 4 in *; change (2 ^ 3) with 8 in *;
  change (2 ^ 4) with 16 in *; change (2 ^ 5) with 32 in *; change (2 ^ 8) with 256 in *; change (2 ^ 12) with 4096 in *;
  change (2 ^ 13) with 8192 in *; change (2 ^ 15) with 32768 in *; change (2 ^ 16) with 65536 in *;
  change (2 ^ 20) with 1048576 in *; change (2 ^ 21) with 2097152 in *; change (2 ^ 22) with 4194304 in *;
  change (2 ^ 23) with 8388608 in *; change (2 ^ 24) with 16777216 in *.
Ltac packed a c := apply (bits_at _ _ _ a _ c); [lia|lia|pow2; ring|unfold fits; pow2; lia|unfold fits; pow2; lia].

Lemma seg_hi_bits d : seg_ok d ->
  bits (seg_hi d) 0 8 = base_23_16 d /\ hw_type (seg_hi d) = sd_type d /\ bits (seg_hi d) 12 1 = sd_s d /\
  hw_dpl (seg_hi d) = sd_dpl d /\ bits (seg_hi d) 15 1 = sd_p d /\ bits (seg_hi d) 16 4 = lim_19_16 d /\
  bits (seg_hi d) 23 1 = sd_g d /\ bits (seg_hi d) 24 8 = base_31_24 d.
Proof.
  destruct d as [l0 b0 b1 ty s dpl p l1 av rs dbb g b2]. intros []. unfold fits, hw_type, hw_dpl, seg_hi in *.
  cbn [lim_15_0 base_15_0 base_23_16 sd_type sd_s sd_dpl sd_p lim_19_16 avl sd_rsv1 db sd_g base_31_24] in *. pow2.
  split_and!.
  - packed 0 (ty + 16 * (s + 2 * (dpl + 4 * (p + 2 * (l1 + 16 * (av + 2 * rs + 4 * dbb + 8 * g + 16 * b2)))))).
  - packed b1 (s + 2 * (dpl + 4 * (p + 2 * (l1 + 16 * (av + 2 * rs + 4 * dbb + 8 * g + 16 * b2))))).
  - packed (b1 + 256 * ty) (dpl + 4 * (p + 2 * (l1 + 16 * (av + 2 * rs + 4 * dbb + 8 * g + 16 * b2)))).
  - packed (b1 + 256 * ty + 4096 * s) (p + 2 * (l1 + 16 * (av + 2 * rs + 4 * dbb + 8 * g + 16 * b2))).
  - packed (b1 + 256 * ty + 4096 * s + 8192 * dpl) (l1 + 16 * (av + 2 * rs + 4 * dbb + 8 * g + 16 * b2)).
  - packed (b1 + 256 * ty + 4096 * s + 8192 * dpl + 32768 * p) (av + 2 * rs + 4 * dbb + 8 * g + 16 * b2).
  - packed (b1 + 256 * ty + 4096 * s + 8192 * dpl + 32768 * p + 65536 * l1 + 1048576 * av + 2097152 * rs + 4194304 * dbb) b2.
  - packed (b1 + 256 * ty + 4096 * s + 8192 * dpl + 32768 * p + 65536 * l1 + 1048576 * av + 2097152 * rs + 4194304 * dbb + 8388608 * g) 0.
Qed.

Lemma seg_lo_bits d : seg_ok d -> bits (seg_lo d) 0 16 = lim_15_0 d /\ bits (seg_lo d) 16 16 = base_15_0 d.
Proof. intros []. unfold fits, seg_lo in *. pow2. split; [packed 0 (base_15_0 d)|packed (lim_15_0 d) 0]. Qed.

Lemma gate_bits g : gate_ok g ->
  bits (gate_lo g) 0 16 = off_15_0 g /\ hw_selector (gate_lo g) = gd_cs g /\ hw_type (gate_hi g) = gd_type g /\
  bits (gate_hi g) 12 1 = gd_s g /\ hw_dpl (gate_hi g) = gd_dpl g /\ bits (gate_hi g) 15 1 = gd_p g /\
  bits (gate_hi g) 16 16 = off_31_16 g.
Proof.
  destruct g as [o0 cs ar rs ty s dpl p o1]. intros []. unfold fits, hw_type, hw_dpl, hw_selector, gate_lo, gate_hi in *.
  cbn [off_15_0 gd_cs gd_args gd_rsv1 gd_type gd_s gd_dpl gd_p off_31_16] in *. pow2. split_and!.
  - packed 0 cs.
  - packed o0 0.
  - packed (ar + 32 * rs) (s + 2 * (dpl + 4 * (p + 2 * o1))).
  - packed (ar + 32 * rs + 256 * ty) (dpl + 4 * (p + 2 * o1)).
  - packed (ar + 32 * rs + 256 * ty + 4096 * s) (p + 2 * o1).
  - packed (ar + 32 * rs + 256 * ty + 4096 * s + 8192 * dpl) o1.
  - packed (ar + 32 * rs + 256 * ty + 4096 * s + 8192 * dpl + 32768 * p) 0.
Qed.

(** ** The operations keep the descriptors typed *)

Section typed.
Variables cpus idt : Z.

Lemma desc_s0 d : seg_ok d -> seg_ok (d <| sd_s := 0 |>).
Proof. intros []. split; cbn; try done. Qed.
Lemma desc_busy d : seg_ok d -> seg_ok (d <| sd_type := STS_T32B |>).
Proof. intros []. split; cbn; try done. Qed.

Lemma halves_fit v w : fits 32 (set_low v w) /\ fits 32 (set_high v w).
Proof.
  unfold fits, set_low, set_high, bits, bf. change (2 ^ 32) with 4294967296. pow2.
  pose proof (Z.mod_pos_bound v 65536). pose proof (Z.mod_pos_bound (w / 65536) 65536). pose proof (Z.mod_pos_bound (w / 1) 65536). lia.
Qed.

(** The descriptor [switchuvm] gives [ltr]. *)
Definition tss_desc (c : nat) : segdesc := (SEG16 STS_T32A (ts_addr cpus c) (104 - 1) 0) <| sd_s := 0 |>.

Lemma base_parts b : 0 <= b < 2 ^ 32 ->
  bf 16 (Z.land b 65535) + 2 ^ 16 * bf 8 (Z.land (Z.shiftr b 16) 255) + 2 ^ 24 * bf 8 (Z.shiftr b 24) = b.
Proof.
  intros Hb. change 65535 with (Z.ones 16). change 255 with (Z.ones 8). rewrite !mask_bf by lia.
  rewrite !(bf_small _ (bf _ _)) by (by apply bf_fits). rewrite !Z.shiftr_div_pow2 by lia. unfold bf. pow2.
  change (2 ^ 32) with 4294967296 in *. Z.div_mod_to_equations. lia.
Qed.

Lemma tss_desc_spec c :
  seg_ok (tss_desc c) /\ hw_present (seg_hi (tss_desc c)) = true /\ hw_app (seg_hi (tss_desc c)) = false /\
  hw_type (seg_hi (tss_desc c)) = STS_T32A /\ hw_base (seg_lo (tss_desc c)) (seg_hi (tss_desc c)) = ts_addr cpus c /\
  hw_limit (seg_lo (tss_desc c)) (seg_hi (tss_desc c)) = 103.
Proof.
  assert (Hok : seg_ok (tss_desc c)) by apply desc_s0, SEG16_ok. split; [done|].
  destruct (seg_hi_bits _ Hok) as (E1 & E2 & E3 & E4 & E5 & E6 & E7 & E8). destruct (seg_lo_bits _ Hok) as (F1 & F2).
  unfold hw_present, hw_app, hw_base, hw_limit. rewrite E1, E2, E3, E5, E6, E7, E8, F1, F2. split_and!; try done.
  change (2 ^ 16) with 65536. unfold tss_desc, SEG16. cbn -[Z.mul Z.add ts_addr]. unfold ts_addr. rewrite !(u32_small (u32 _)) by apply u32_range.
  rewrite base_parts by apply u32_range. done.
Qed.

(** The CPU after [switchuvm], and after [seginit]. *)
Definition uvm_seg (c : nat) (kstack pgdir : Z) (x : cpuseg) : cpuseg :=
  mk_cpuseg (<[Z.to_nat SEG_TSS := (tss_desc c) <| sd_type := STS_T32B |>]> (s_gdt x))
    (<[25%nat := set_high 65535 (s_ts x !!! 25%nat)]> (<[1%nat := u32 (kstack + KSTACKSIZE)]>
       (<[2%nat := set_low 16 (s_ts x !!! 2%nat)]> (s_ts x))))
    (s_gdtr x) (s_idtr x) (40, ts_addr cpus c, 103) (V2P pgdir).
Definition init_seg (c : nat) (x : cpuseg) : cpuseg :=
  x <| s_gdt := <[4%nat := SEG STA_W 0 4294967295 DPL_USER]> (<[3%nat := SEG 10 0 4294967295 DPL_USER]>
      (<[2%nat := SEG STA_W 0 4294967295 0]> (<[1%nat := SEG 10 0 4294967295 0]> (s_gdt x)))) |>
    <| s_gdtr := load_table (gdt_addr cpus c) 48 |>.

Lemma uvm_seg_ok c kstack pgdir x : cpuseg_ok x -> cpuseg_ok (uvm_seg c kstack pgdir x).
Proof.
  intros []. split; cbn; rewrite ?length_insert; try done.
  - apply Forall_insert; [done|]. apply desc_busy, tss_desc_spec.
  - repeat apply Forall_insert; try done; [apply halves_fit|apply u32_range|apply halves_fit].
Qed.

Lemma init_seg_ok c x : cpuseg_ok x -> cpuseg_ok (init_seg c x).
Proof. intros []. split; cbn; rewrite ?length_insert; try done. repeat apply Forall_insert; try done; apply SEG_ok. Qed.

Lemma insert_ok s c x : segs_ok s -> cpuseg_ok x -> segs_ok (s <| g_cpu := <[c := x]> (g_cpu s) |>).
Proof. intros [] Hx. split; cbn; try done. by apply Forall_insert. Qed.

Lemma cpu_at_ok s c : segs_ok s -> (c < length (g_cpu s))%nat -> cpuseg_ok (g_cpu s !!! c).
Proof.
  intros [H _ _] [x Hx]%lookup_lt_is_Some. rewrite (list_lookup_total_correct _ _ _ Hx). exact (proj1 (Forall_lookup _ _) H _ _ Hx).
Qed.

Lemma wp_set_seg s c f (Q : () -> segs -> Prop) : Q () (s <| g_cpu := <[c := f (g_cpu s !!! c)]> (g_cpu s) |>) -> wp (set_seg c f) s Q.
Proof. done. Qed.

(** Two updates of the same CPU are one. *)
Lemma wp_set_twice m l gi kp c x f (Q : () -> segs -> Prop) :
  (c < length l)%nat -> Q () (mk_segs m (<[c := f x]> l) gi kp) -> wp (set_seg c f) (mk_segs m (<[c := x]> l) gi kp) Q.
Proof.
  intros Hc HQ. apply wp_set_seg. cbn. rewrite list_lookup_total_insert_eq, list_insert_insert_eq by done. exact HQ.
Qed.

Section run.
Context {ids : list Z}.
Variables (h : nat -> list Z) (d : nat -> nat) (b : nat -> bool) (c : nat) (id : Z).
Hypothesis here : ids !! c = Some id.

Lemma wp_seginit s (Q : () -> segs -> Prop) :
  mach_rep ids (g_mach s) h d b -> m_if (g_mach s) id = false -> (c < length (g_cpu s))%nat ->
  Q () (s <| g_cpu := <[c := init_seg c (g_cpu s !!! c)]> (g_cpu s) |>) -> wp (seginit cpus id) s Q.
Proof.
  intros Hr Hoff Hc HQ. destruct s as [m l gi kp]. cbn in *. unfold seginit, on_mach. wp_step. apply wp_zoom.
  eapply wp_intro; [by eapply mr_mycpu|]. unfold set_gdt. wp_step. apply wp_set_seg. cbn.
  do 3 (wp_step; apply wp_set_twice; [done|]). apply wp_set_twice; [done|]. exact HQ.
Qed.

Lemma wp_ltr m l gi kp x (Q : () -> segs -> Prop) :
  (c < length l)%nat -> length (s_gdt x) = NSEGS -> s_gdt x !!! 5%nat = tss_desc c ->
  Q () (mk_segs m (<[c := x <| s_gdt := <[5%nat := (tss_desc c) <| sd_type := STS_T32B |>]> (s_gdt x) |>
                          <| s_tr := (40, ts_addr cpus c, 103) |>]> l) gi kp) ->
  wp (ltr c 40) (mk_segs m (<[c := x]> l) gi kp) Q.
Proof.
  intros Hc Hl Hd HQ. destruct (tss_desc_spec c) as (_ & E1 & E2 & E3 & E4 & E5). unfold ltr. wp_step. wp_step. cbn [g_cpu].
  rewrite list_lookup_total_insert_eq by done. change (Z.to_nat (40 / 8)) with 5%nat. rewrite Hd, E1, E2, E3, E4, E5.
  change (negb true || false || negb (STS_T32A =? STS_T32A)) with false. cbv iota. unfold set_gdt.
  wp_step. apply wp_set_twice; [done|]. apply wp_set_twice; [done|]. exact HQ.
Qed.

Lemma wp_switchuvm s kstack pgdir (Q : () -> segs -> Prop) :
  mach_rep ids (g_mach s) h d b -> segs_ok s -> (c < length (g_cpu s))%nat -> kstack <> 0 -> pgdir <> 0 ->
  (forall m', mach_rep ids m' h d b ->
     Q () (s <| g_mach := m' |> <| g_cpu := <[c := uvm_seg c kstack pgdir (g_cpu s !!! c)]> (g_cpu s) |>)) ->
  wp (switchuvm cpus id (Some (kstack, pgdir))) s Q.
Proof.
  intros Hr Hok Hc Hk Hp HQ. destruct (cpu_at_ok s c Hok Hc) as [Hl _ Ht _]. destruct s as [m l gi kp]. cbn in *.
  unfold switchuvm, on_mach, set_gdt, set_ts, lcr3.
  rewrite (proj2 (Z.eqb_neq kstack 0)), (proj2 (Z.eqb_neq pgdir 0)) by done.
  destruct (mr_pushcli m h d b c id Hr here) as (m1 & Ep & H1).
  wp_step. apply wp_zoom. eapply wp_intro; [exact Ep|]. wp_step. apply wp_zoom.
  eapply wp_intro; [eapply mr_mycpu; [exact H1|exact here|eapply mr_if_off; [exact H1|exact here|rewrite updn_eq; lia]]|].
  wp_step. apply wp_set_seg. cbn. do 4 (wp_step; apply wp_set_twice; [done|]).
  wp_step. apply wp_ltr; [done|cbn; by rewrite !length_insert| |].
  { cbn. change (Z.to_nat SEG_TSS) with 5%nat. rewrite list_insert_insert_eq, !list_lookup_total_insert_eq by (rewrite Hl; unfold NSEGS; lia). reflexivity. }
  wp_step. apply wp_set_twice; [done|]. apply wp_zoom.
  destruct (mr_popcli m1 _ _ _ c id H1 here) as (m2 & Eq & H2); [rewrite updn_eq; lia|].
  eapply wp_intro; [exact Eq|].
  assert (Hm : mach_rep ids m2 h d b).
  { eapply mach_rep_ext; [exact H2|]. intros c' _. split; [done|]. split; [|done]. unfold updn. by repeat case_decide; subst. }
  refine (eq_rect _ (Q ()) (HQ m2 Hm) _ _). cbn. unfold uvm_seg. change (Z.to_nat SEG_TSS) with 5%nat. destruct (l !!! c). cbn.
  rewrite !list_insert_insert_eq, !list_lookup_total_insert_ne by done. reflexivity.
Qed.
End run.
End typed.

(** ** The interrupt table *)

Definition gate_of (vectors : Z -> Z) (n : Z) : gatedesc :=
  SETGATE (n =? T_SYSCALL) (Z.shiftl SEG_KCODE 3) (vectors n) (if n =? T_SYSCALL then DPL_USER else 0).

(** [tvinit] leaves the machine as it is but for the lock, which was free. *)
Lemma wp_tvinit ids h d b tickslock vectors s (Q : () -> segs -> Prop) :
  mach_rep ids (g_mach s) h d b -> (0 < length ids)%nat -> (forall c, (c < length ids)%nat -> tickslock ∉ h c) ->
  length (g_idt s) = 256%nat ->
  (forall m' l, mach_rep ids m' h d b -> m_if m' = m_if (g_mach s) -> length l = 256%nat ->
     (forall n, 0 <= n < 256 -> l !! Z.to_nat n = Some (gate_of vectors n)) -> Q () (s <| g_mach := m' |> <| g_idt := l |>)) ->
  wp (tvinit tickslock vectors) s Q.
Proof.
  intros Hr Hids Hfree Hlen HQ. unfold tvinit. wp_step.
  apply (wp_forM (fun pre s' => exists l, s' = s <| g_idt := l |> /\ length l = 256%nat /\
    forall n, n ∈ pre -> 0 <= n < 256 -> l !! Z.to_nat n = Some (SETGATE false (Z.shiftl SEG_KCODE 3) (vectors n) 0))).
  - exists (g_idt s). split; [by destruct s|]. split; [done|]. intros n Hn. by apply elem_of_nil in Hn.
  - intros pre n post s' Hl (l & -> & Hll & Hg). apply wp_modify.
    exists (<[Z.to_nat n := SETGATE false (Z.shiftl SEG_KCODE 3) (vectors n) 0]> l). split; [done|]. split; [by rewrite length_insert|].
    assert (Hn0 : n ∈ seqZ 0 256) by (rewrite Hl; set_solver). apply elem_of_seqZ in Hn0.
    intros k [Hk| ->%list_elem_of_singleton]%elem_of_app Hk0; [|apply list_lookup_insert_eq; lia].
    destruct (decide (k = n)) as [->|Hne]; [apply list_lookup_insert_eq; lia|]. rewrite list_lookup_insert_ne by lia. by apply Hg.
  - intros s' (l & -> & Hll & Hg). wp_step. wp_step. unfold on_mach. apply wp_zoom. apply wp_modify. cbn.
    match goal with |- Q () (_ <| g_mach := ?m |>) => set (m' := m) | |- Q () (mk_segs ?m _ _ _) => set (m' := m) end. apply (HQ m' (<[Z.to_nat T_SYSCALL := SETGATE true (Z.shiftl SEG_KCODE 3) (vectors T_SYSCALL) DPL_USER]> l)).
    + eapply mach_rep_ext; [apply (mr_set_lock (g_mach s) m' h d b 0 tickslock (h 0%nat) (d 0%nat) Hr); try done|].
      * intros l' Hne. cbn. by rewrite upd_ne.
      * by apply (mr_nodup _ _ _ _ _ Hr).
      * intros c' Hc' _. by apply Hfree.
      * right. cbn. rewrite upd_eq. split; [by apply Hfree|done].
      * intros c' _. unfold updn. by repeat case_decide; subst.
    + done.
    + by rewrite length_insert.
    + intros n Hn. unfold gate_of. destruct (Z.eqb_spec n T_SYSCALL) as [->|Hne].
      * apply list_lookup_insert_eq. unfold T_SYSCALL. lia.
      * rewrite list_lookup_insert_ne by (unfold T_SYSCALL in *; lia). apply Hg; [apply elem_of_seqZ; lia|done].
Qed.

Lemma gates_ok vectors l : length l = 256%nat ->
  (forall n, 0 <= n < 256 -> l !! Z.to_nat n = Some (gate_of vectors n)) -> Forall gate_ok l.
Proof.
  intros Hl Hg. apply Forall_lookup. intros i g Hi. pose proof (lookup_lt_Some _ _ _ Hi).
  specialize (Hg (Z.of_nat i) ltac:(lia)). rewrite Nat2Z.id in Hg. simplify_eq. apply SETGATE_ok.
Qed.

Lemma gate_offset vectors n : 0 <= vectors n < 2 ^ 32 ->
  off_15_0 (gate_of vectors n) + 2 ^ 16 * off_31_16 (gate_of vectors n) = vectors n.
Proof.
  intros Hv. unfold gate_of, SETGATE. cbn [off_15_0 off_31_16]. rewrite u32_small by done. change 65535 with (Z.ones 16).
  rewrite mask_bf by lia. rewrite (bf_small _ (bf _ _)) by (by apply bf_fits). rewrite Z.shiftr_div_pow2 by lia. unfold bf. pow2.
  change (2 ^ 32) with 4294967296 in *. clear -Hv. Z.div_mod_to_equations. lia.
Qed.

(** Where interrupt [n] goes. *)
Lemma hw_int_gate vectors l n soft :
  0 <= n < 256 -> 0 <= vectors n < 2 ^ 32 -> l !! Z.to_nat n = Some (gate_of vectors n) ->
  hw_int l n soft = match soft with
    | Some cpl => if cpl >? (if n =? T_SYSCALL then 3 else 0) then None else Some (8, vectors n, negb (n =? T_SYSCALL))
    | None => Some (8, vectors n, negb (n =? T_SYSCALL))
    end.
Proof.
  intros Hn Hv Hg. unfold hw_int. rewrite Hg. cbn [mbind option_bind].
  assert (Hok : gate_ok (gate_of vectors n)) by apply SETGATE_ok.
  destruct (gate_bits _ Hok) as (E1 & E2 & E3 & E4 & E5 & E6 & E7).
  unfold hw_present, hw_app, hw_offset. rewrite E1, E2, E3, E4, E5, E6, E7.
  rewrite gate_offset by done. unfold gate_of, SETGATE. cbn [gd_p gd_s gd_type gd_dpl gd_cs].
  destruct (n =? T_SYSCALL); reflexivity.
Qed.

(** The table registers hold what [lgdt] and [lidt] were given. *)
Lemma load_table_spec p size : 0 < size <= 65536 -> load_table p size = (size - 1, u32 p).
Proof.
  intros Hs. unfold load_table. rewrite (bf_small _ (size - 1)) by (unfold fits; lia). f_equal.
  rewrite Z.shiftr_div_pow2 by lia. unfold bf. pow2. pose proof (u32_range p) as Hr. change (2 ^ 32) with 4294967296 in Hr.
  revert Hr. generalize (u32 p). intros z Hz. Z.div_mod_to_equations. lia.
Qed.

Lemma low_half v w : fits 16 v -> bits (set_low v w) 0 16 = v.
Proof. intros Hv. unfold set_low. rewrite bf_small by done. eapply (bits_at _ _ _ 0 _ (bits w 16 16)); try done. pow2. lia. Qed.

Lemma high_half v w : fits 16 v -> bits (set_high v w) 16 16 = v.
Proof.
  intros Hv. unfold set_high. rewrite bf_small by done. eapply (bits_at _ _ _ (bits w 0 16) _ 0); try done; [pow2; lia|].
  apply (bf_fits 16). lia.
Qed.

(** The stack and the code segment of an entry on a CPU that has run
    [seginit] and [switchuvm]. *)
Lemma hw_enter_spec cpus c kstack pgdir x ir idt n soft :
  cpuseg_ok x -> kstack + 4096 < 2 ^ 32 -> 0 < kstack ->
  (forall cs eip off, hw_int idt n soft = Some (cs, eip, off) -> cs = 8 /\ 0 <= eip < 2 ^ 32) ->
  hw_enter (uvm_seg cpus c kstack pgdir ((init_seg cpus c x) <| s_idtr := ir |>)) idt n soft
  = '(cs, eip, off) ← hw_int idt n soft; Some (mk_entry cs eip 16 (kstack + 4096) off).
Proof.
  intros [Hg _ Ht _] Hk Hk0 Hi. unfold hw_enter. destruct (hw_int idt n soft) as [[[cs eip] off]|] eqn:E; [|done].
  destruct (Hi cs eip off eq_refl) as (-> & He). cbn [mbind option_bind].
  assert (Ed : s_gdt (uvm_seg cpus c kstack pgdir ((init_seg cpus c x) <| s_idtr := ir |>)) !! Z.to_nat (8 / 8) = Some (SEG 10 0 4294967295 0)).
  { cbn. change (Z.to_nat (8 / 8)) with 1%nat. change (Z.to_nat SEG_TSS) with 5%nat. rewrite !list_lookup_insert_ne by done.
    apply list_lookup_insert_eq. rewrite Hg. unfold NSEGS. lia. }
  rewrite Ed. cbn [mbind option_bind]. change (negb _) with false. cbv iota.
  change (hw_limit _ _) with 4294967295. rewrite (proj2 (Z.ltb_ge _ _)) by lia. do 2 f_equal.
  - cbn. rewrite !list_lookup_total_insert_ne by done. rewrite list_lookup_total_insert_eq by (rewrite Ht; lia). by apply low_half.
  - cbn. rewrite list_lookup_total_insert_ne by done. rewrite list_lookup_total_insert_eq by (rewrite length_insert, Ht; lia).
    unfold KSTACKSIZE. apply u32_small. lia.
Qed.

(** ** What the descriptors are *)

(** A segment and a gate as the processor reads them; nothing where the
    present bit is clear. *)
Record hw_segment := mk_hw_segment { hs_app : bool; hs_type : Z; hs_dpl : Z; hs_base : Z; hs_limit : Z }.
Definition hw_segment_of (d : segdesc) : option hw_segment :=
  let lo := seg_lo d in let hi := seg_hi d in
  if hw_present hi then Some (mk_hw_segment (hw_app hi) (hw_type hi) (hw_dpl hi) (hw_base lo hi) (hw_limit lo hi)) else None.

Record hw_gate := mk_hw_gate { hg_app : bool; hg_type : Z; hg_dpl : Z; hg_selector : Z; hg_offset : Z }.
Definition hw_gate_of (g : gatedesc) : option hw_gate :=
  let lo := gate_lo g in let hi := gate_hi g in
  if hw_present hi then Some (mk_hw_gate (hw_app hi) (hw_type hi) (hw_dpl hi) (hw_selector lo) (hw_offset lo hi)) else None.

(** What entry [i] of the table of CPU [c] is for: code and data of the kernel
    and of the user, all flat, and the task state of this CPU. *)
Definition slot (cpus : Z) (c i : nat) : option hw_segment :=
  match i with
  | 1%nat => Some (mk_hw_segment true 10 0 0 4294967295)
  | 2%nat => Some (mk_hw_segment true 2 0 0 4294967295)
  | 3%nat => Some (mk_hw_segment true 10 3 0 4294967295)
  | 4%nat => Some (mk_hw_segment true 2 3 0 4294967295)
  | 5%nat => Some (mk_hw_segment false STS_T32B 0 (ts_addr cpus c) 103)
  | _ => None
  end.

(** What entry [n] of the interrupt table is for: a gate to its vector in the
    kernel's code segment, that [int] may use from user mode for a system call
    only. *)
Definition gate_slot (vectors : Z -> Z) (n : Z) : option hw_gate :=
  Some (mk_hw_gate false (if n =? T_SYSCALL then STS_TG32 else STS_IG32) (if n =? T_SYSCALL then 3 else 0) 8 (vectors n)).

(** A CPU none of whose registers and descriptors is anything but unused or
    what it is for. *)
Record cpuseg_typed (cpus idt : Z) (c : nat) (x : cpuseg) : Prop := {
  ct_ok : cpuseg_ok x;
  ct_gdt : forall i d, s_gdt x !! i = Some d -> hw_segment_of d = None \/ hw_segment_of d = slot cpus c i;
  ct_gdtr : s_gdtr x = (0, 0) \/ s_gdtr x = (47, gdt_addr cpus c);
  ct_idtr : s_idtr x = (0, 0) \/ s_idtr x = (2047, u32 idt);
  ct_tr : s_tr x = (0, 0, 0) \/ s_tr x = (40, ts_addr cpus c, 103)
}.

Record segs_typed (cpus idt : Z) (vectors : Z -> Z) (s : segs) : Prop := {
  st_ok : segs_ok s;
  st_cpu : forall c x, g_cpu s !! c = Some x -> cpuseg_typed cpus idt c x;
  st_idt : forall n g, g_idt s !! n = Some g -> hw_gate_of g = None \/ hw_gate_of g = gate_slot vectors (Z.of_nat n)
}.

Lemma hw_segment_fields d : seg_ok d ->
  hw_segment_of d = if sd_p d =? 1 then
      let l := lim_15_0 d + 2 ^ 16 * lim_19_16 d in
      Some (mk_hw_segment (sd_s d =? 1) (sd_type d) (sd_dpl d) (base_15_0 d + 2 ^ 16 * base_23_16 d + 2 ^ 24 * base_31_24 d)
              (if sd_g d =? 1 then 4096 * l + 4095 else l))
    else None.
Proof.
  intros Hok. destruct (seg_hi_bits _ Hok) as (E1 & E2 & E3 & E4 & E5 & E6 & E7 & E8). destruct (seg_lo_bits _ Hok) as (F1 & F2).
  unfold hw_segment_of, hw_present, hw_app, hw_base, hw_limit. by rewrite E1, E2, E3, E4, E5, E6, E7, E8, F1, F2.
Qed.

Lemma hw_tss cpus c : hw_segment_of ((tss_desc cpus c) <| sd_type := STS_T32B |>) = slot cpus c 5.
Proof.
  assert (Hok : seg_ok (tss_desc cpus c)) by apply desc_s0, SEG16_ok. rewrite hw_segment_fields by by apply desc_busy.
  assert (Eb : u32 (ts_addr cpus c) = ts_addr cpus c) by (apply u32_small, u32_range).
  assert (Hb : 0 <= ts_addr cpus c < 2 ^ 32) by apply u32_range. unfold tss_desc, SEG16, slot.
  cbn [sd_p sd_s sd_type sd_dpl sd_g lim_15_0 lim_19_16 base_15_0 base_23_16 base_31_24]. rewrite Eb. revert Hb.
  generalize (ts_addr cpus c). intros a Hb. cbn -[Z.mul Z.add Z.pow bf Z.land Z.shiftr]. by rewrite base_parts.
Qed.

Lemma hw_gate_spec vectors n : 0 <= vectors n < 2 ^ 32 -> hw_gate_of (gate_of vectors n) = gate_slot vectors n.
Proof.
  intros Hv. unfold hw_gate_of, gate_slot. assert (Hok : gate_ok (gate_of vectors n)) by apply SETGATE_ok.
  destruct (gate_bits _ Hok) as (E1 & E2 & E3 & E4 & E5 & E6 & E7).
  unfold hw_present, hw_app, hw_offset. rewrite E1, E2, E3, E4, E5, E6, E7, gate_offset by done.
  unfold gate_of, SETGATE. cbn [gd_p gd_s gd_type gd_dpl gd_cs]. by destruct (n =? T_SYSCALL).
Qed.

Lemma init_seg_typed cpus idt c x : cpuseg_typed cpus idt c x -> cpuseg_typed cpus idt c (init_seg cpus c x).
Proof.
  intros [Hok Hg Hr Hi Ht]. split; try done; [by apply init_seg_ok| |].
  - intros i d. cbn. intros [(<- & <- & _)|(_ & Hd)]%list_lookup_insert_Some; [right; vm_compute; reflexivity|].
    apply list_lookup_insert_Some in Hd as [(<- & <- & _)|(_ & Hd)]; [right; vm_compute; reflexivity|].
    apply list_lookup_insert_Some in Hd as [(<- & <- & _)|(_ & Hd)]; [right; vm_compute; reflexivity|].
    apply list_lookup_insert_Some in Hd as [(<- & <- & _)|(_ & Hd)]; [right; vm_compute; reflexivity|]. by apply Hg.
  - right. cbn. rewrite load_table_spec by lia. unfold gdt_addr. by rewrite (u32_small (u32 _)) by apply u32_range.
Qed.

Lemma uvm_seg_typed cpus idt c kstack pgdir x :
  cpuseg_typed cpus idt c x -> cpuseg_typed cpus idt c (uvm_seg cpus c kstack pgdir x).
Proof.
  intros [Hok Hg Hr Hi Ht]. split; try done; [by apply uvm_seg_ok| |by right].
  intros i d. cbn. change (Z.to_nat SEG_TSS) with 5%nat.
  intros [(<- & <- & _)|(_ & Hd)]%list_lookup_insert_Some; [right; apply hw_tss|by apply Hg].
Qed.

(** ** The theorems *)

Inductive seg_op :=
| OpSeginit | OpIdtinit | OpTvinit (tickslock : Z) (vectors : Z -> Z) | OpSwitchuvm (kstack pgdir : Z) | OpSwitchkvm.

Section thms.
Variables cpus idt : Z.

(** An operation on CPU [c], whose APIC id is [id]. *)
Definition run_seg_op (id : Z) (c : nat) (op : seg_op) : M segs () :=
  match op with
  | OpSeginit => seginit cpus id
  | OpIdtinit => idtinit idt c
  | OpTvinit tickslock vectors => tvinit tickslock vectors
  | OpSwitchuvm kstack pgdir => switchuvm cpus id (Some (kstack, pgdir))
  | OpSwitchkvm => switchkvm c
  end.
Definition seg_op_ok (vectors : Z -> Z) (n : nat) (h : nat -> list Z) (op : seg_op) : Prop :=
  match op with
  | OpTvinit tickslock v => (forall c, (c < n)%nat -> tickslock ∉ h c) /\ v = vectors
  | OpSwitchuvm kstack pgdir => kstack <> 0 /\ pgdir <> 0
  | _ => True
  end.

(** Whether entry [i] is what it is for. *)
Definition slot_set (c : nat) (x : cpuseg) (i : nat) : Prop := hw_segment_of (s_gdt x !!! i) = slot cpus c i.
Definition gates_set (vectors : Z -> Z) (l : list gatedesc) : Prop :=
  forall n, 0 <= n < 256 -> hw_gate_of (l !!! Z.to_nat n) = gate_slot vectors n.

(** What an operation on CPU [c] sets up. *)
Definition seg_op_done (vectors : Z -> Z) (c : nat) (op : seg_op) (s : segs) : Prop :=
  let x := g_cpu s !!! c in
  match op with
  | OpSeginit => s_gdtr x = (47, gdt_addr cpus c) /\ forall i, (1 <= i <= 4)%nat -> slot_set c x i
  | OpIdtinit => s_idtr x = (2047, u32 idt)
  | OpTvinit _ _ => gates_set vectors (g_idt s)
  | OpSwitchuvm _ _ => s_tr x = (40, ts_addr cpus c, 103) /\ slot_set c x 5
  | OpSwitchkvm => True
  end.

(** What is set up stays so. *)
Record cpu_keeps (c : nat) (x x' : cpuseg) : Prop := {
  ck_gdt : forall i, slot_set c x i -> slot_set c x' i;
  ck_gdtr : s_gdtr x = (47, gdt_addr cpus c) -> s_gdtr x' = (47, gdt_addr cpus c);
  ck_idtr : s_idtr x = (2047, u32 idt) -> s_idtr x' = (2047, u32 idt);
  ck_tr : s_tr x = (40, ts_addr cpus c, 103) -> s_tr x' = (40, ts_addr cpus c, 103)
}.

Lemma done_keeps vectors c op s s' :
  cpu_keeps c (g_cpu s !!! c) (g_cpu s' !!! c) -> (gates_set vectors (g_idt s) -> gates_set vectors (g_idt s')) ->
  seg_op_done vectors c op s -> seg_op_done vectors c op s'.
Proof. intros [] Hg. destruct op; cbn; intuition. Qed.

Lemma init_seg_set c x : length (s_gdt x) = NSEGS ->
  cpu_keeps c x (init_seg cpus c x) /\ s_gdtr (init_seg cpus c x) = (47, gdt_addr cpus c) /\
  forall i, (1 <= i <= 4)%nat -> slot_set c (init_seg cpus c x) i.
Proof.
  unfold NSEGS. intros Hl.
  assert (Hs : forall i, (1 <= i <= 4)%nat -> slot_set c (init_seg cpus c x) i).
  { intros i Hi. unfold slot_set. cbn. destruct x as [[|? [|? [|? [|? [|? [|? [|]]]]]]] ? ? ? ? ?]; try done.
    destruct i as [|[|[|[|[|i]]]]]; try lia; vm_compute; reflexivity. }
  assert (Hr : s_gdtr (init_seg cpus c x) = (47, gdt_addr cpus c)).
  { cbn. rewrite load_table_spec by lia. unfold gdt_addr. by rewrite (u32_small (u32 _)) by apply u32_range. }
  split; [|done]. split; try done. intros i Hi. destruct (decide (1 <= i <= 4)%nat) as [H|H]; [by apply Hs|].
  unfold slot_set in *. cbn. by rewrite !list_lookup_total_insert_ne by lia.
Qed.

Lemma uvm_seg_set c kstack pgdir x : length (s_gdt x) = NSEGS ->
  cpu_keeps c x (uvm_seg cpus c kstack pgdir x) /\ slot_set c (uvm_seg cpus c kstack pgdir x) 5.
Proof.
  unfold NSEGS. intros Hl.
  assert (H5 : slot_set c (uvm_seg cpus c kstack pgdir x) 5).
  { unfold slot_set, uvm_seg. cbn [s_gdt]. change (Z.to_nat SEG_TSS) with 5%nat. rewrite list_lookup_total_insert_eq by lia. apply hw_tss. }
  split; [|done]. split; try done. intros i Hi. destruct (decide (i = 5%nat)) as [->|Hne]; [done|].
  unfold slot_set, uvm_seg in *. cbn [s_gdt]. change (Z.to_nat SEG_TSS) with 5%nat. by rewrite list_lookup_total_insert_ne by done.
Qed.

(** The state of an operation on CPU [c]: typed, with the locks, the nesting and
    the interrupt flag as they were. *)
Record seg_inv (vectors : Z -> Z) ids h d b (c : nat) (id : Z) (s : segs) : Prop := {
  si_typed : segs_typed cpus idt vectors s;
  si_mach : mach_rep ids (g_mach s) h d b;
  si_len : length (g_cpu s) = length ids;
  si_off : m_if (g_mach s) id = false
}.

(** An update of CPU [c] alone. *)
Lemma seg_inv_set vectors ids h d b c id s m x :
  seg_inv vectors ids h d b c id s -> mach_rep ids m h d b -> m_if m id = false -> cpuseg_typed cpus idt c x ->
  seg_inv vectors ids h d b c id (s <| g_mach := m |> <| g_cpu := <[c := x]> (g_cpu s) |>).
Proof.
  intros [[[H1 H2 H3] Hc Hi] Hr Hl _] Hm Hoff Hx. split; [|done|cbn; by rewrite length_insert|done].
  split; [|intros c' x'; cbn|done].
  - split; [cbn; apply Forall_insert; [done|apply Hx]|done|done].
  - intros [(<- & <- & _)|(_ & Hx')]%list_lookup_insert_Some; [done|by apply Hc].
Qed.

Lemma cpu_typed_at vectors ids h d b c id s :
  seg_inv vectors ids h d b c id s -> ids !! c = Some id -> cpuseg_typed cpus idt c (g_cpu s !!! c).
Proof.
  intros [[_ Hc _] _ Hl _] Hid. apply lookup_lt_Some in Hid. rewrite <- Hl in Hid. apply lookup_lt_is_Some in Hid as [x Hx].
  rewrite (list_lookup_total_correct _ _ _ Hx). by apply Hc.
Qed.

Lemma seg_op_typed vectors ids h d b c id op s :
  seg_inv vectors ids h d b c id s -> ids !! c = Some id -> (forall n, 0 <= n < 256 -> 0 <= vectors n < 2 ^ 32) ->
  seg_op_ok vectors (length ids) h op ->
  wp (run_seg_op id c op) s (fun _ s' => seg_inv vectors ids h d b c id s' /\ seg_op_done vectors c op s' /\
    cpu_keeps c (g_cpu s !!! c) (g_cpu s' !!! c) /\ (gates_set vectors (g_idt s) -> gates_set vectors (g_idt s')) /\
    forall c', c' <> c -> g_cpu s' !!! c' = g_cpu s !!! c').
Proof.
  intros Hinv Hc Hvec Hop. pose proof (cpu_typed_at _ _ _ _ _ _ _ _ Hinv Hc) as Hx.
  pose proof Hinv as [Hty Hr Hlen Hoff]. pose proof (lookup_lt_Some _ _ _ Hc) as Hlt. pose proof (co_len _ (ct_ok _ _ _ _ Hx)) as Hgl.
  assert (Hat : forall x, <[c := x]> (g_cpu s) !!! c = x) by (intros x; apply list_lookup_total_insert_eq; lia).
  assert (Hne : forall x c', c' <> c -> <[c := x]> (g_cpu s) !!! c' = g_cpu s !!! c')
    by (intros x c' Hn; by apply list_lookup_total_insert_ne).
  assert (Hsame : s <| g_mach := g_mach s |> = s) by by destruct s.
  destruct op as [| |tl v|kstack pgdir|]; cbn [run_seg_op seg_op_ok seg_op_done] in *.
  - eapply wp_seginit; [done|done|done|lia|]. cbn [g_cpu g_idt]. cbn. rewrite Hat.
    destruct (init_seg_set c (g_cpu s !!! c) Hgl) as (Hk & Hg & Hs). split; [|auto].
    rewrite <- Hsame at 1. apply (seg_inv_set _ _ _ _ _ _ _ s); try done. by apply init_seg_typed.
  - unfold idtinit. apply wp_set_seg. cbn. rewrite Hat. cbn. split; [|split; [by rewrite load_table_spec|split; [|auto]]].
    + rewrite <- Hsame at 1. apply (seg_inv_set _ _ _ _ _ _ _ s); try done. destruct Hx as [[] ? ? ? ?]. split; try done.
      right. cbn. by rewrite load_table_spec.
    + split; try done. intros _. cbn. by rewrite load_table_spec.
  - destruct Hop as [Hop ->]. eapply wp_tvinit; [done|lia|exact Hop|apply Hty|]. intros m' l Hm Hif Hl Hg. cbn.
    assert (Hgs : gates_set vectors l).
    { intros n Hn. rewrite (list_lookup_total_correct _ _ _ (Hg n Hn)). by apply hw_gate_spec, Hvec. }
    split; [|split; [done|split; [by split|auto]]]. destruct Hty as [[H1 H2 H3] Hcs Hi].
    split; cbn; [|done|done|by rewrite Hif]. split; [split; [done|done|by eapply gates_ok]|done|].
    intros n g Hng. right. cbn in Hng. pose proof (lookup_lt_Some _ _ _ Hng).
    specialize (Hgs (Z.of_nat n) ltac:(lia)). rewrite Nat2Z.id, (list_lookup_total_correct _ _ _ Hng) in Hgs. done.
  - destruct Hop. eapply wp_switchuvm; [done|done|apply Hty|lia|done|done|]. intros m' Hm. cbn. rewrite Hat.
    destruct (uvm_seg_set c kstack pgdir (g_cpu s !!! c) Hgl) as (Hk & H5). split; [|auto].
    apply (seg_inv_set _ _ _ _ _ _ _ s); try done; [|by apply uvm_seg_typed].
    destruct (mr_cpu _ _ _ _ _ Hr c id Hc) as (x & _ & _ & _ & _ & E). destruct (mr_cpu _ _ _ _ _ Hm c id Hc) as (x' & _ & _ & _ & _ & E').
    congruence.
  - unfold switchkvm, lcr3. wp_step. wp_step. apply wp_set_seg. cbn. rewrite Hat. split; [|split; [done|split; [by split|auto]]].
    rewrite <- Hsame at 1. apply (seg_inv_set _ _ _ _ _ _ _ s); try done. destruct Hx as [[] ? ? ? ?]. by split.
Qed.

(** C35: The descriptors stay what they are for.  In a state where every entry of
    every descriptor table, as the processor reads it from the packed
    bit-fields, is either not present or the one its place is for (flat code
    and data of the kernel at privilege 0 and of the user at privilege 3, the
    task state of that CPU with its address and limit; gates to the vectors in
    the kernel's code segment, open to user code for [T_SYSCALL] only), and
    the table and task registers are unused or point to these tables, any
    sequence of [seginit], [idtinit], [tvinit], [switchuvm] and [switchkvm] on
    a CPU runs without a fault or a panic, [ltr] after a previous [switchuvm]
    left the segment busy included, and ends in such a state; the entries and
    registers that one of these operations is there to set up are set up if it
    is in the sequence, and stay so; other CPUs, the locks, the nesting of
    [pushcli] and the interrupt flags are as they were. *)
Theorem segment_ops_typed vectors ids h d b c id ops s :
  segs_typed cpus idt vectors s -> mach_rep ids (g_mach s) h d b -> ids !! c = Some id -> length (g_cpu s) = length ids ->
  m_if (g_mach s) id = false -> (forall n, 0 <= n < 256 -> 0 <= vectors n < 2 ^ 32) ->
  Forall (seg_op_ok vectors (length ids) h) ops ->
  wp (forM ops (run_seg_op id c)) s (fun _ s' => segs_typed cpus idt vectors s' /\ mach_rep ids (g_mach s') h d b /\
    (forall op, op ∈ ops -> seg_op_done vectors c op s') /\ forall c', c' <> c -> g_cpu s' !!! c' = g_cpu s !!! c').
Proof.
  intros Hty Hr Hc Hlen Hoff Hvec Hops.
  apply (wp_forM (fun pre s' => seg_inv vectors ids h d b c id s' /\ (forall op, op ∈ pre -> seg_op_done vectors c op s') /\
    forall c', c' <> c -> g_cpu s' !!! c' = g_cpu s !!! c')).
  - split; [by split|]. split; [|done]. intros op Hin. by apply not_elem_of_nil in Hin.
  - intros pre op post s1 El (H1 & H2 & H3). rewrite El in Hops. apply Forall_app in Hops as [_ [Hop _]%Forall_cons].
    eapply wp_conseq; [by eapply seg_op_typed|]. intros [] s2 (H1' & Hd & Hk & Hg & Ho). split; [done|]. split.
    + intros op' [Hin| ->%list_elem_of_singleton]%elem_of_app; [|done]. by eapply done_keeps; [| |apply H2].
    + intros c' Hn. by rewrite Ho, H3.
  - intros s' ([] & H2 & H3). done.
Qed.

(** A CPU is set up and switched to a process. *)
Definition enter_boot (id : Z) (c : nat) (tickslock : Z) (vectors : Z -> Z) (kstack pgdir : Z) : M segs () :=
  tvinit tickslock vectors;;
  seginit cpus id;;
  idtinit idt c;;
  switchuvm cpus id (Some (kstack, pgdir)).

(** C36: The kernel is entered only where it means to be.  After the tables are
    built and a process is switched to, the processor reads from their packed
    bit-fields that user code can enter only through [T_SYSCALL], with
    interrupts left as they are, and every other [int n] faults; that an
    interrupt or a fault enters at its vector with interrupts off; that each
    entry runs in the kernel's code segment on the top of the process's kernel
    stack; and that user code can use no port.  Other CPUs are not touched. *)
Theorem kernel_entry ids h d b c id tickslock vectors kstack pgdir s :
  segs_ok s -> mach_rep ids (g_mach s) h d b -> ids !! c = Some id -> length (g_cpu s) = length ids ->
  m_if (g_mach s) id = false -> (forall c, (c < length ids)%nat -> tickslock ∉ h c) ->
  (forall n, 0 <= n < 256 -> 0 <= vectors n < 2 ^ 32) -> 0 < kstack -> kstack + 4096 < 2 ^ 32 -> pgdir <> 0 ->
  wp (enter_boot id c tickslock vectors kstack pgdir) s (fun _ s' =>
    let x := g_cpu s' !!! c in
    s_gdtr x = (47, gdt_addr cpus c) /\ s_idtr x = (2047, u32 idt) /\ s_cr3 x = V2P pgdir /\
    (forall n, 0 <= n < 256 ->
       hw_enter x (g_idt s') n (Some 3) = (if n =? T_SYSCALL then Some (mk_entry 8 (vectors n) 16 (kstack + 4096) false) else None) /\
       hw_enter x (g_idt s') n None = Some (mk_entry 8 (vectors n) 16 (kstack + 4096) (negb (n =? T_SYSCALL)))) /\
    (forall port, 0 <= port < 65536 -> hw_port x port = false) /\
    forall c', c' <> c -> g_cpu s' !!! c' = g_cpu s !!! c').
Proof.
  intros Hok Hr Hc Hlen Hoff Htl Hvec Hk Hk' Hp. pose proof (lookup_lt_Some _ _ _ Hc) as Hlt.
  unfold enter_boot. wp_step. eapply wp_tvinit; [done|lia|done|apply Hok|]. intros m1 l Hm1 Hif Hl Hg.
  wp_step. eapply (wp_seginit cpus h d b c id Hc); [done|by cbn; rewrite Hif|cbn; lia|]. cbn.
  wp_step. unfold idtinit. apply wp_set_seg. cbn. rewrite list_lookup_total_insert_eq, list_insert_insert_eq by lia.
  pose proof (cpu_at_ok s c Hok ltac:(lia)) as Hx. set (x := g_cpu s !!! c) in *.
  set (x1 := (init_seg cpus c x) <| s_idtr := load_table idt (8 * 256) |>).
  assert (Hx1 : cpuseg_ok x1) by (destruct (init_seg_ok cpus c x Hx); by split).
  eapply (wp_switchuvm cpus h d b c id Hc); [done| |cbn; rewrite length_insert; lia|lia|done|].
  { destruct Hok. split; cbn; [by apply Forall_insert|done|by eapply gates_ok]. }
  intros m2 Hm2. cbn. rewrite list_insert_insert_eq, !list_lookup_total_insert_eq by lia.
  assert (Hint : forall n soft cs eip off, 0 <= n < 256 -> hw_int l n soft = Some (cs, eip, off) -> cs = 8 /\ 0 <= eip < 2 ^ 32).
  { intros n soft cs eip off Hn. rewrite (hw_int_gate vectors) by auto. destruct soft as [cpl|]; [case_match; [done|]|]; intros; simplify_eq; auto. }
  split_and!.
  - unfold x1. cbn. rewrite load_table_spec by lia. unfold gdt_addr. by rewrite (u32_small (u32 _)) by apply u32_range.
  - unfold x1. cbn. by rewrite load_table_spec by lia.
  - done.
  - intros n Hn. unfold x1. rewrite !hw_enter_spec by (try done; intros; by eapply Hint).
    rewrite !(hw_int_gate vectors) by auto. split; [|by destruct (n =? T_SYSCALL)]. by destruct (n =? T_SYSCALL).
  - intros port Hport. unfold hw_port. cbn. rewrite list_lookup_total_insert_eq by (rewrite !length_insert, (co_tslen _ Hx); lia).
    rewrite high_half by done. apply Z.leb_gt. pose proof (Z.div_pos port 8). lia.
  - intros c' Hne. by rewrite list_lookup_total_insert_ne by congruence.
Qed.
End thms.

(** Two CPUs at boot, the second inside the kernel with interrupts off. *)
Definition seg_demo : segs :=
  mk_segs (mk_mach (fun _ => initlock) [mk_cpu 0 0 false; mk_cpu 1 0 false] (fun _ => false))
    (replicate 2 zero_cpuseg) (replicate 256 zero_gate) 0.

Lemma seg_demo_rep : mach_rep [0; 1] (g_mach seg_demo) (fun _ => []) (fun _ => O) (fun _ => false).
Proof.
  split; try done.
  - apply NoDup_cons. split; [set_solver|]. apply NoDup_singleton.
  - intros c id Hc. destruct c as [|[|c]]; cbn in Hc; simplify_eq; eexists; done.
  - intros l. cbn. split; [done|]. intros (c & _ & Hl). set_solver.
  - intros l c. cbn. split; [done|]. intros (_ & Hl). set_solver.
  - intros c _. apply NoDup_nil_2.
Qed.

Lemma seg_demo_ok : segs_ok seg_demo.
Proof.
  split; [|done|]; apply Forall_replicate.
  - split; [done| |done|]; apply Forall_replicate; [by split|done].
  - by split.
Qed.

Lemma seg_demo_typed cpus idt vectors : segs_typed cpus idt vectors seg_demo.
Proof.
  split; [apply seg_demo_ok| |].
  - intros c x [-> _]%lookup_replicate. split; try (by left).
    + split; [done| |done|]; apply Forall_replicate; [by split|done].
    + intros i d [-> _]%lookup_replicate. by left.
  - intros n g [-> _]%lookup_replicate. by left.
Qed.

(** After the sequence the user's code segment is flat and of privilege 3. *)
Lemma segment_ops_typed_witness :
  let vectors := fun n => 2148532224 + 16 * n in
  wp (forM [OpTvinit 5 vectors; OpSeginit; OpIdtinit; OpSwitchuvm 2149580800 2149584896;
            OpSwitchkvm; OpSwitchuvm 2149588992 2149593088] (run_seg_op 2148540416 2148550000 0 0)) seg_demo
    (fun _ s' => segs_typed 2148540416 2148550000 vectors s' /\
      hw_segment_of (s_gdt (g_cpu s' !!! 0%nat) !!! 3%nat) = Some (mk_hw_segment true 10 3 0 4294967295)).
Proof.
  intros vectors. eapply wp_conseq.
  - apply (segment_ops_typed 2148540416 2148550000 vectors [0; 1] (fun _ => []) (fun _ => O) (fun _ => false));
      [apply seg_demo_typed|apply seg_demo_rep|done|done|done|unfold vectors; intros n Hn; lia|].
    repeat constructor; cbn; try done. intros c _. set_solver.
  - intros [] s' (Ht & _ & Hd & _). split; [exact Ht|]. exact (proj2 (Hd OpSeginit ltac:(set_solver)) 3%nat ltac:(lia)).
Defined.

Lemma kernel_entry_witness :
  wp (enter_boot 2148540416 2148550000 1 1 5 (fun n => 2148532224 + 16 * n) 2149580800 2149584896) seg_demo
    (fun _ s' => hw_enter (g_cpu s' !!! 1%nat) (g_idt s') 64 (Some 3) = Some (mk_entry 8 2148533248 16 2149584896 false)).
Proof.
  eapply wp_conseq; [apply (kernel_entry 2148540416 2148550000 [0; 1] (fun _ => []) (fun _ => O) (fun _ => false))|];
    [apply seg_demo_ok|apply seg_demo_rep|done|done|done|intros c _; set_solver|intros n Hn; lia|lia|lia|lia|].
  intros _ s' (_ & _ & _ & He & _). exact (proj1 (He 64 ltac:(lia))).
Defined.
