(* ===== verification/Syscall.v ===== *)
(** System call arguments and dispatch ([syscall.c], the argument loop of
    [sys_exec] in sysfile.c, [sysproc.c]'s argument checks).

    The kernel reads the arguments through the page table of the process that
    made the call: [u_mem] is what is mapped at each address, and reading an
    address where nothing is mapped is a fault in the kernel, which panics. *)

From S2P Require Import Prelude CString.

Record uproc := mk_uproc { u_sz : Z; u_esp : Z; u_mem : Z -> option Z }.

(** A fault, the error return [-1], or a value. *)
Inductive fetched (A : Type) : Type := Fault | Fail | Got (a : A).
Arguments Fault {A}.
Arguments Fail {A}.
Arguments Got {A} _.

#[export] Instance fetched_ret : MRet fetched := fun A a => Got a.
#[export] Instance fetched_bind : MBind fetched := fun A B f m =>
  match m with Got a => f a | Fail => Fail | Fault => Fault end.

Definition ubyte (p : uproc) (a : Z) : fetched Z := match u_mem p a with Some v => Got v | None => Fault end.
Definition uword (p : uproc) (a : Z) : fetched Z :=
  b0 ← ubyte p a;
  b1 ← ubyte p (a + 1);
  b2 ← ubyte p (a + 2);
  b3 ← ubyte p (a + 3);
  mret (b0 + 256 * b1 + 65536 * b2 + 16777216 * b3).

Definition fetchint (p : uproc) (addr : Z) : fetched Z :=
  if (u_sz p <=? addr) || (u_sz p <? u32 (addr + 4)) then Fail
  else v ← uword p addr; mret (s32 v).

(** The loop of [fetchstr] from [s] to [ep]. *)
Fixpoint fetchstr_loop (p : uproc) (fuel : nat) (s pp ep : Z) : fetched Z :=
  match fuel with
  | O => Fail
  | S fuel =>
      if ep <=? s then Fail
      else c ← ubyte p s; if c =? 0 then Got (s - pp) else fetchstr_loop p fuel (s + 1) pp ep
  end.

(** The address of the string and its length. *)
Definition fetchstr (p : uproc) (addr : Z) : fetched (Z * Z) :=
  if u_sz p <=? addr then Fail
  else n ← fetchstr_loop p (Z.to_nat (u_sz p - addr) + 1) addr addr (u_sz p); mret (addr, n).

Definition argint (p : uproc) (n : Z) : fetched Z := fetchint p (u32 (u_esp p + 4 + 4 * n)).

Definition argptr (p : uproc) (n size : Z) : fetched Z :=
  i ← argint p n;
  if (size <? 0) || (u_sz p <=? u32 i) || (u_sz p <? u32 (u32 i + size)) then Fail
  else Got (u32 i).

Definition argstr (p : uproc) (n : Z) : fetched (Z * Z) :=
  addr ← argint p n;
  fetchstr p (u32 addr).

(** The loop of [sys_exec]: the strings of [argv], at most [MAXARG] - 1. *)
Definition MAXARG : nat := 32.
Fixpoint exec_args (p : uproc) (k : nat) (i uargv : Z) : fetched (list (Z * Z)) :=
  match k with
  | O => Fail
  | S k =>
      uarg ← fetchint p (u32 (uargv + 4 * i));
      if u32 uarg =? 0 then Got []
      else s ← fetchstr p (u32 uarg); l ← exec_args p k (i + 1) uargv; Got (s :: l)
  end.

Definition sys_exec_args (p : uproc) : fetched ((Z * Z) * list (Z * Z)) :=
  path ← argstr p 0;
  uargv ← argint p 1;
  argv ← exec_args p MAXARG 0 (u32 uargv);
  Got (path, argv).

(** ** Dispatch *)

Inductive sysfun :=
| sys_fork_ | sys_exit_ | sys_wait_ | sys_pipe_ | sys_read_ | sys_kill_ | sys_exec_ | sys_fstat_ | sys_chdir_ | sys_dup_
| sys_getpid_ | sys_sbrk_ | sys_sleep_ | sys_uptime_ | sys_open_ | sys_write_ | sys_mknod_ | sys_unlink_ | sys_link_ | sys_mkdir_
| sys_close_.

(** The table, indexed by the numbers of syscall.h. *)
Definition syscalls : list (option sysfun) :=
  [None; Some sys_fork_; Some sys_exit_; Some sys_wait_; Some sys_pipe_; Some sys_read_; Some sys_kill_; Some sys_exec_;
   Some sys_fstat_; Some sys_chdir_; Some sys_dup_; Some sys_getpid_; Some sys_sbrk_; Some sys_sleep_; Some sys_uptime_;
   Some sys_open_; Some sys_write_; Some sys_mknod_; Some sys_unlink_; Some sys_link_; Some sys_mkdir_; Some sys_close_].

(** [syscall] with the value of the saved [%eax]: the function's result, or -1
    for an unknown number. *)
Definition syscall {S : Type} (call : sysfun -> M S Z) (eax : Z) : M S Z :=
  let num := s32 eax in
  match (if (num >? 0) && (num <? Z.of_nat (length syscalls)) then syscalls !!! Z.to_nat num else None) with
  | Some f => call f
  | None => mret (-1)
  end.

(** ** Arguments stay inside the process *)

(** A process of [exec], [fork] and [sbrk]: its memory is mapped from 0 to
    [sz], which is below the kernel. *)
Record uproc_ok (p : uproc) : Prop := {
  up_sz : 0 <= u_sz p <= 2147483648;
  up_esp : 0 <= u_esp p < 2 ^ 32;
  up_mem : forall a, 0 <= a < u_sz p -> exists v, u_mem p a = Some v /\ 0 <= v < 256
}.

(** [a] is the address of a string of length [n] inside the process. *)
Definition string_at (p : uproc) (a n : Z) : Prop :=
  0 <= a /\ 0 <= n /\ a + n < u_sz p /\ u_mem p (a + n) = Some 0 /\
  forall k, 0 <= k < n -> exists v, u_mem p (a + k) = Some v /\ v <> 0.

Section args.
Variable p : uproc.
Hypothesis ok : uproc_ok p.

Lemma ubyte_ok a : 0 <= a < u_sz p -> exists v, ubyte p a = Got v /\ u_mem p a = Some v /\ 0 <= v < 256.
Proof. intros Ha. destruct (up_mem _ ok a Ha) as (v & Hv & Hr). exists v. unfold ubyte. by rewrite Hv. Qed.

Lemma fetchint_ok addr : 0 <= addr < 2 ^ 32 -> (exists v, fetchint p addr = Got v /\ -2147483648 <= v < 2147483648) \/ fetchint p addr = Fail.
Proof.
  intros Ha. pose proof (up_sz _ ok) as Hsz. unfold fetchint. destruct (Z.leb_spec (u_sz p) addr) as [|Hlt]; [by right|].
  rewrite u32_small by lia. destruct (Z.ltb_spec (u_sz p) (addr + 4)); [by right|]. left. cbn [orb].
  destruct (ubyte_ok addr) as (v0 & E0 & _); [lia|]. destruct (ubyte_ok (addr + 1)) as (v1 & E1 & _); [lia|].
  destruct (ubyte_ok (addr + 2)) as (v2 & E2 & _); [lia|]. destruct (ubyte_ok (addr + 3)) as (v3 & E3 & _); [lia|].
  eexists. split; [unfold uword; rewrite E0; cbn; rewrite E1; cbn; rewrite E2; cbn; rewrite E3; reflexivity|].
  unfold s32, signed. set (x := _ mod 2 ^ 32). pose proof (Z.mod_pos_bound (v0 + 256 * v1 + 65536 * v2 + 16777216 * v3) (2 ^ 32) ltac:(lia)) as Hx.
  fold x in Hx. destruct (Z.ltb_spec x (2 ^ (32 - 1))); lia.
Qed.

Lemma fetchstr_loop_ok fuel s pp :
  0 <= pp <= s -> s <= u_sz p -> (Z.to_nat (u_sz p - s) < fuel)%nat ->
  (forall k, pp <= k < s -> exists v, u_mem p k = Some v /\ v <> 0) ->
  fetchstr_loop p fuel s pp (u_sz p) = Fail \/ exists n, fetchstr_loop p fuel s pp (u_sz p) = Got n /\ string_at p pp n.
Proof.
  revert s. induction fuel as [|fuel IH]; intros s Hs Hle Hf Hnz; [lia|]. simpl.
  destruct (Z.leb_spec (u_sz p) s); [by left|]. destruct (ubyte_ok s) as (v & E & Em & Hv); [lia|]. rewrite E. cbn.
  destruct (Z.eqb_spec v 0) as [->|Hne].
  - right. exists (s - pp). split; [done|]. split; [lia|]. split; [lia|]. replace (pp + (s - pp)) with s by lia. split; [lia|].
    split; [done|]. intros k Hk. apply Hnz. lia.
  - apply IH; [lia|lia|lia|]. intros k Hk. destruct (Z.eq_dec k s) as [->|]; [by exists v|]. apply Hnz. lia.
Qed.

Lemma fetchstr_ok addr :
  0 <= addr < 2 ^ 32 -> fetchstr p addr = Fail \/ exists n, fetchstr p addr = Got (addr, n) /\ string_at p addr n.
Proof.
  intros Ha. unfold fetchstr. destruct (Z.leb_spec (u_sz p) addr); [by left|].
  destruct (fetchstr_loop_ok (Z.to_nat (u_sz p - addr) + 1) addr addr) as [E|(n & E & Hn)]; [lia|lia|lia|intros k Hk; lia| |].
  - left. by rewrite E.
  - right. exists n. by rewrite E.
Qed.

Lemma argint_ok n : (exists v, argint p n = Got v /\ -2147483648 <= v < 2147483648) \/ argint p n = Fail.
Proof. apply fetchint_ok, u32_range. Qed.

Lemma exec_args_ok k i uargv :
  exec_args p k i uargv = Fail \/
  exists l, exec_args p k i uargv = Got l /\ (length l < k)%nat /\ Forall (fun s => string_at p (fst s) (snd s)) l.
Proof.
  revert i. induction k as [|k IH]; intros i; [by left|]. simpl.
  destruct (fetchint_ok (u32 (uargv + 4 * i)) (u32_range _)) as [(v & -> & _)| ->]; [|by left]. cbn.
  destruct (u32 v =? 0); [right; exists []; split; [done|]; split; [simpl; lia|constructor]|].
  destruct (fetchstr_ok (u32 v) (u32_range _)) as [->|(n & -> & Hn)]; [by left|]. cbn.
  destruct (IH (i + 1)) as [->|(l & -> & Hl & Hf)]; [by left|]. right. exists ((u32 v, n) :: l).
  split; [done|]. split; [simpl; lia|]. by constructor.
Qed.
End args.

(** C28: System call arguments stay inside the process.  Whatever the stack
    pointer and the arguments of a process whose memory ends below the kernel:
    fetching an integer, a pointer to a buffer, a string or the arguments of
    [exec] never faults in the kernel; a buffer that is accepted lies in
    [0, sz), also where the 32-bit sums wrap, and a string that is accepted
    ends, at its first NUL, below [sz]. *)
Theorem syscall_args_in_bounds p n size :
  uproc_ok p ->
  (argint p n = Fail \/ exists v, argint p n = Got v /\ -2147483648 <= v < 2147483648) /\
  (size < 2147483648 -> argptr p n size = Fail \/ exists a, argptr p n size = Got a /\ 0 <= a < u_sz p /\ 0 <= size /\ a + size <= u_sz p) /\
  (argstr p n = Fail \/ exists a len, argstr p n = Got (a, len) /\ string_at p a len) /\
  (sys_exec_args p = Fail \/ exists path argv, sys_exec_args p = Got (path, argv) /\
     string_at p (fst path) (snd path) /\ (length argv < MAXARG)%nat /\ Forall (fun s => string_at p (fst s) (snd s)) argv).
Proof.
  intros ok. pose proof (up_sz _ ok) as Hsz.
  assert (Hstr : forall k, argstr p k = Fail \/ exists a len, argstr p k = Got (a, len) /\ string_at p a len).
  { intros k. unfold argstr. destruct (argint_ok p ok k) as [(v & -> & _)| ->]; [|by left]. cbn.
    destruct (fetchstr_ok p ok (u32 v) (u32_range _)) as [->|(len & -> & Hs)]; [by left|]. right. by exists (u32 v), len. }
  split_and!.
  - destruct (argint_ok p ok n) as [|]; [by right|by left].
  - intros Hs. unfold argptr. destruct (argint_ok p ok n) as [(v & -> & _)| ->]; [|by left]. cbn. pose proof (u32_range v).
    destruct (Z.ltb_spec size 0); [by left|]. destruct (Z.leb_spec (u_sz p) (u32 v)); [by left|].
    rewrite (u32_small (u32 v + size)) by lia. destruct (Z.ltb_spec (u_sz p) (u32 v + size)); [by left|]. right. exists (u32 v). split; [done|]. lia.
  - apply Hstr.
  - unfold sys_exec_args. destruct (Hstr 0) as [->|(a & len & -> & Hs)]; [by left|]. cbn [mbind fetched_bind].
    destruct (argint_ok p ok 1) as [(v & -> & _)| ->]; [|by left]. cbn [mbind fetched_bind].
    destruct (exec_args_ok p ok MAXARG 0 (u32 v)) as [->|(l & -> & Hl & Hf)]; [by left|]. right. by exists (a, len), l.
Qed.

(** A process with one word of stack and the string "ab" behind it. *)
Definition demo_uproc : uproc :=
  mk_uproc 16 0 (fun a => if (0 <=? a) && (a <? 16) then Some (nth (Z.to_nat a) [0; 0; 0; 0; 12; 0; 0; 0; 0; 0; 0; 0; 97; 98; 0; 0] 0) else None).

Lemma syscall_args_in_bounds_witness :
  argstr demo_uproc 0 = Got (12, 2) /\ (argptr demo_uproc 0 4 = Fail \/ exists a, argptr demo_uproc 0 4 = Got a /\ 0 <= a < 16 /\ 0 <= 4 /\ a + 4 <= 16).
Proof.
  split; [reflexivity|]. refine (proj1 (proj2 (syscall_args_in_bounds demo_uproc 0 4 _)) _); [|lia].
  split; cbn [u_sz u_esp u_mem demo_uproc]; [lia|lia|]. intros a Ha. rewrite (proj2 (Z.leb_le 0 a)), (proj2 (Z.ltb_lt a 16)) by lia. eexists. split; [reflexivity|].
  assert (Hall : Forall (fun v => 0 <= v < 256) [0; 0; 0; 0; 12; 0; 0; 0; 0; 0; 0; 0; 97; 98; 0; 0]) by (repeat constructor; lia).
  destruct (nth_in_or_default (Z.to_nat a) [0; 0; 0; 0; 12; 0; 0; 0; 0; 0; 0; 0; 97; 98; 0; 0] 0) as [Hin|Hd]; [|rewrite Hd; lia].
  exact (proj1 (List.Forall_forall _ _) Hall _ Hin).
Defined.
