(* ===== verification/FsTree.v ===== *)
(** The inode cache as reference counts, and path names against the directory
    tree ([iget], [ilock], [iunlock], [iput], [namex] of [fs.c]). *)

From S2P Require Import Prelude CString Layout Sleeplock BlockLayer Fs FsBlock FsFile FsRW FsDir.

(** ** The tree on disk *)

(** An on-disk inode as it is in memory once loaded. *)
Definition as_inode (inum : Z) (d : dinode) : inode :=
  mk_inode ROOTDEV inum 1 initsleeplock true (di_type d) (di_major d) (di_minor d) (di_nlink d) (di_size d) (di_addrs d).

Definition entries_of (sb : superblock) (t : txn) (inum : Z) : list dirent :=
  dir_entries (t_view t) (as_inode inum (disk_inode sb t inum)).

(** An inode number that denotes a file, a directory or a device. *)
Definition live (sb : superblock) (t : txn) (inum : Z) : Prop :=
  0 < inum < sb_ninodes sb /\ di_type (disk_inode sb t inum) <> 0 /\ 1 <= di_nlink (disk_inode sb t inum).

Definition is_dir (sb : superblock) (t : txn) (inum : Z) : Prop := di_type (disk_inode sb t inum) = T_DIR.

(** Directories can be read and their entries lead to live inodes. *)
Record tree_ok (sb : superblock) (t : txn) : Prop := {
  tk_dir : forall n, live sb t n -> is_dir sb t n -> dir_ok sb t (as_inode n (disk_inode sb t n));
  tk_entry : forall n de, live sb t n -> is_dir sb t n -> de ∈ entries_of sb t n -> de_inum de <> 0 -> live sb t (de_inum de)
}.

(** Walk down the tree. *)
Fixpoint resolve (sb : superblock) (t : txn) (inum : Z) (es : list (list Z)) : option Z :=
  match es with
  | [] => Some inum
  | e :: es =>
      if di_type (disk_inode sb t inum) =? T_DIR then
        n ← dir_lookup e (entries_of sb t inum); resolve sb t n es
      else None
  end.

Lemma lookup_live sb t n e m : tree_ok sb t -> live sb t n -> is_dir sb t n ->
  dir_lookup e (entries_of sb t n) = Some m -> live sb t m.
Proof.
  intros Ht Hl Hd. unfold dir_lookup. destruct (dir_find e (entries_of sb t n)) as [k|] eqn:Ek; simpl; [|done].
  unfold dir_find in Ek. apply find_idx_Some in Ek as [(de & Hk & Hn) _]. rewrite Hk. simpl. intros [= <-].
  apply (tk_entry _ _ Ht n); [done|done|by eapply list_elem_of_lookup_2|].
  unfold names in Hn. apply andb_true_iff in Hn as [Hn _]. apply negb_true_iff, Z.eqb_neq in Hn. done.
Qed.

Lemma resolve_live sb t n es m : tree_ok sb t -> live sb t n -> resolve sb t n es = Some m -> live sb t m.
Proof.
  intros Ht. revert n. induction es as [|e es IH]; intros n Hl; cbn [resolve]; [by intros [= <-]|].
  destruct (Z.eqb_spec (di_type (disk_inode sb t n)) T_DIR); [|done].
  destruct (dir_lookup e (entries_of sb t n)) as [k|] eqn:Ek; simpl; [|done]. apply IH. by eapply lookup_live.
Qed.

(** ** The cache *)

(** [r] counts the references of every slot; [L] is the slot the caller has
    locked. *)
Record cache (sb : superblock) (t : txn) (ic : list inode) (r : nat -> Z) (L : option nat) : Prop := {
  ca_ref : forall p i, ic !! p = Some i -> i_ref i = r p;
  ca_pos : forall p, 0 <= r p;
  ca_uniq : forall p q i j, ic !! p = Some i -> ic !! q = Some j -> 0 < r p -> 0 < r q -> i_inum i = i_inum j -> p = q;
  ca_dev : forall p i, ic !! p = Some i -> 0 < r p -> i_dev i = ROOTDEV /\ 0 < i_inum i < sb_ninodes sb;
  ca_valid : forall p i, ic !! p = Some i -> 0 < r p -> i_valid i = true -> dinode_of i = disk_inode sb t (i_inum i);
  ca_lock : forall p i, ic !! p = Some i -> sl_locked (i_lock i) = bool_decide (L = Some p);
  ca_held : forall p, L = Some p -> 0 < r p
}.

Definition bump (r : nat -> Z) (p : nat) (d : Z) : nat -> Z := fun q => if decide (q = p) then r q + d else r q.

(** Slots in use stand for the same inode. *)
Definition keeps (r : nat -> Z) (ic ic' : list inode) : Prop :=
  length ic' = length ic /\
  forall q i, ic !! q = Some i -> 0 < r q -> exists i', ic' !! q = Some i' /\ i_inum i' = i_inum i.

Lemma keeps_refl r ic : keeps r ic ic.
Proof. split; [done|]. eauto. Qed.
Lemma keeps_trans r ic1 ic2 ic3 : keeps r ic1 ic2 -> keeps r ic2 ic3 -> keeps r ic1 ic3.
Proof.
  intros [L1 K1] [L2 K2]. split; [congruence|]. intros q i Hq Hr. destruct (K1 q i Hq Hr) as (i1 & H1 & E1).
  destruct (K2 q i1 H1 Hr) as (i2 & H2 & E2). exists i2. split; [done|congruence].
Qed.
Lemma keeps_mono r r' ic ic' : (forall q, 0 < r q -> 0 < r' q) -> keeps r' ic ic' -> keeps r ic ic'.
Proof. intros Hr [L K]. split; [done|]. intros q i Hq H. apply K; auto. Qed.

(** Replace the slot [p] by an inode with the same number. *)
Lemma keeps_insert r ic p i i' : ic !! p = Some i -> i_inum i' = i_inum i -> keeps r ic (<[p := i']> ic).
Proof.
  intros Hp E. split; [apply length_insert|]. intros q j Hq _. destruct (decide (q = p)) as [->|Hne].
  - exists i'. rewrite list_lookup_insert_eq by (by eapply lookup_lt_Some). simplify_eq. done.
  - exists j. by rewrite list_lookup_insert_ne.
Qed.

(** Change a slot in use: its reference count, lock or contents. *)
Lemma cache_update sb t ic r L p i i' r' L' :
  cache sb t ic r L -> ic !! p = Some i -> 0 < r p ->
  i_inum i' = i_inum i -> i_dev i' = i_dev i -> i_ref i' = r' p -> 0 <= r' p ->
  (0 < r' p -> i_valid i' = true -> dinode_of i' = disk_inode sb t (i_inum i)) ->
  sl_locked (i_lock i') = bool_decide (L' = Some p) ->
  (forall q, q <> p -> r' q = r q /\ bool_decide (L' = Some q) = bool_decide (L = Some q)) -> (L' = Some p -> 0 < r' p) ->
  cache sb t (<[p := i']> ic) r' L'.
Proof.
  intros [Hr Hp Hu Hd Hv Hl Hh] Hi Hpos En Ed Er Hr0 Hval Hlk Hoth HL. assert (Hlt := lookup_lt_Some _ _ _ Hi).
  assert (Hcase : forall q j, <[p := i']> ic !! q = Some j -> (q = p /\ j = i') \/ (q <> p /\ ic !! q = Some j)).
  { intros q j Hq. destruct (decide (q = p)) as [->|Hne].
    - left. rewrite list_lookup_insert_eq in Hq by done. by injection Hq as <-.
    - right. by rewrite list_lookup_insert_ne in Hq. }
  split.
  - intros q j [[-> ->]|[Hne Hq]]%Hcase; [done|]. destruct (Hoth q Hne) as [-> _]. by apply Hr.
  - intros q. destruct (decide (q = p)) as [->|Hne]; [done|]. destruct (Hoth q Hne) as [-> _]. apply Hp.
  - intros q1 q2 j1 j2 [[-> ->]|[H1 Hq1]]%Hcase [[-> ->]|[H2 Hq2]]%Hcase P1 P2 E; try done.
    + destruct (Hoth q2 H2) as [E2 _]. rewrite E2 in P2. eapply Hu; try done. congruence.
    + destruct (Hoth q1 H1) as [E1 _]. rewrite E1 in P1. eapply Hu; try done. congruence.
    + destruct (Hoth q1 H1) as [E1 _], (Hoth q2 H2) as [E2 _]. rewrite E1 in P1. rewrite E2 in P2. by eapply Hu.
  - intros q j [[-> ->]|[Hne Hq]]%Hcase Hq0; [rewrite En, Ed; by apply (Hd p)|]. destruct (Hoth q Hne) as [E _]. rewrite E in Hq0. by apply (Hd q).
  - intros q j [[-> ->]|[Hne Hq]]%Hcase Hq0 Hva; [rewrite En; by apply Hval|]. destruct (Hoth q Hne) as [E _]. rewrite E in Hq0. by apply (Hv q).
  - intros q j [[-> ->]|[Hne Hq]]%Hcase; [done|]. destruct (Hoth q Hne) as [_ ->]. by apply Hl.
  - intros q E. destruct (decide (q = p)) as [->|Hne]; [auto|]. destruct (Hoth q Hne) as [-> Eb]. apply Hh.
    rewrite E, bool_decide_eq_true_2 in Eb by done. symmetry in Eb. by apply bool_decide_eq_true_1 in Eb.
Qed.

(** Take a free slot for inode [n], which no slot in use stands for. *)
Lemma cache_fresh sb t ic r L p i n :
  cache sb t ic r L -> ic !! p = Some i -> r p = 0 -> 0 < n < sb_ninodes sb ->
  (forall q j, ic !! q = Some j -> 0 < r q -> i_inum j <> n) ->
  cache sb t (<[p := i <| i_dev := ROOTDEV |> <| i_inum := n |> <| i_ref := 1 |> <| i_valid := false |>]> ic) (bump r p 1) L.
Proof.
  intros [Hr Hp Hu Hd Hv Hl Hh] Hi H0 Hn Hfresh. assert (Hlt := lookup_lt_Some _ _ _ Hi). set (i' := i <| i_valid := false |> ).
  assert (Hcase : forall q j, <[p := i <| i_dev := ROOTDEV |> <| i_inum := n |> <| i_ref := 1 |> <| i_valid := false |>]> ic !! q = Some j ->
    (q = p /\ j = i <| i_dev := ROOTDEV |> <| i_inum := n |> <| i_ref := 1 |> <| i_valid := false |>) \/ (q <> p /\ ic !! q = Some j)).
  { intros q j Hq. destruct (decide (q = p)) as [->|Hne].
    - left. rewrite list_lookup_insert_eq in Hq by done. by injection Hq as <-.
    - right. by rewrite list_lookup_insert_ne in Hq. }
  assert (Hb : forall q, q <> p -> bump r p 1 q = r q) by (intros q Hq; unfold bump; by rewrite decide_False).
  assert (Hbp : bump r p 1 p = 1) by (unfold bump; rewrite decide_True by done; lia).
  split.
  - intros q j [[-> ->]|[Hne Hq]]%Hcase; [by rewrite Hbp|]. rewrite Hb by done. by apply Hr.
  - intros q. destruct (decide (q = p)) as [->|Hne]; [rewrite Hbp; lia|]. rewrite Hb by done. apply Hp.
  - intros q1 q2 j1 j2 [[-> ->]|[N1 Q1]]%Hcase [[-> ->]|[N2 Q2]]%Hcase P1 P2 E; try done; simpl in E.
    + rewrite Hb in P2 by done. by destruct (Hfresh q2 j2 Q2 P2).
    + rewrite Hb in P1 by done. by destruct (Hfresh q1 j1 Q1 P1).
    + rewrite Hb in P1, P2 by done. by eapply Hu.
  - intros q j [[-> ->]|[Hne Hq]]%Hcase Hq0; [done|]. rewrite Hb in Hq0 by done. by apply (Hd q).
  - intros q j [[-> ->]|[Hne Hq]]%Hcase Hq0 Hva; [done|]. rewrite Hb in Hq0 by done. by apply (Hv q).
  - intros q j [[-> ->]|[Hne Hq]]%Hcase; [|by apply Hl]. by apply (Hl p i).
  - intros q E. specialize (Hh q E). destruct (decide (q = p)) as [->|Hne]; [lia|]. by rewrite Hb.
Qed.

Lemma bump_same r p d : bump r p d p = r p + d.
Proof. unfold bump. by rewrite decide_True. Qed.
Lemma bump_other r p d q : q <> p -> bump r p d q = r q.
Proof. intros. unfold bump. by rewrite decide_False. Qed.

Section cache_ops.
Context {S : Type} `{!BlockOps S} `{!BlockLayer S} `{!DevOps S}.
Implicit Types (b : S) (t : txn) (sb : superblock) (ic : list inode).

(** [iget] adds a reference to the slot of an inode. *)
Lemma wp_iget b t sb ic r L pid cwd n (Q : nat -> fsst S -> Prop) :
  cache sb t ic r L -> 0 < n < sb_ninodes sb -> (exists p, (p < length ic)%nat /\ r p = 0) ->
  (forall p ic' i, cache sb t ic' (bump r p 1) L -> keeps r ic ic' -> ic' !! p = Some i -> i_inum i = n ->
     Q p (mk_fsst b sb ic' pid cwd)) ->
  wp (iget ROOTDEV n) (mk_fsst b sb ic pid cwd) Q.
Proof.
  intros Hc Hn (pf & Hpf & Hp0) HQ. unfold wp. rewrite iget_run. unfold iget_slot. pose proof Hc as [Hr Hp Hu Hd Hv Hl Hh].
  destruct (find_idx (caches ROOTDEV n) ic) as [p|] eqn:Ef.
  - apply find_idx_total in Ef as [Hi (Hpos & Edev & En)%caches_true]. set (i := ic !!! p) in *.
    assert (Hrp : i_ref i = r p) by (by apply Hr). apply (HQ p _ (i <| i_ref := i_ref i + 1 |>)).
    + apply (cache_update sb t ic r L p i); simpl; try done; try lia.
      * by rewrite bump_same, Hrp.
      * rewrite bump_same. lia.
      * intros _ Hval. apply (Hv p i Hi ltac:(lia) Hval).
      * by apply (Hl p i).
      * intros q Hq. by rewrite bump_other.
      * intros E. rewrite bump_same. specialize (Hh p E). lia.
    + by eapply keeps_insert.
    + apply list_lookup_insert_eq. by eapply lookup_lt_Some.
    + done.
  - destruct (find_idx (fun i => i_ref i =? 0) ic) as [p|] eqn:E0.
    + apply find_idx_total in E0 as [Hi Hz]. set (i := ic !!! p) in *. apply Z.eqb_eq in Hz. rewrite (Hr p i Hi) in Hz.
      eapply (HQ p); [apply cache_fresh; try done| |apply list_lookup_insert_eq; by eapply lookup_lt_Some|done].
      * intros q j Hq Hrq En. pose proof (proj1 (find_idx_None _ _) Ef q j Hq) as Hcj.
        rewrite (proj2 (caches_true ROOTDEV n j)) in Hcj; [done|]. rewrite (Hr q j Hq). destruct (Hd q j Hq Hrq). done.
      * split; [apply length_insert|]. intros q j Hq Hrq. exists j. split; [|done].
        rewrite list_lookup_insert_ne; [done|]. intros <-. lia.
    + exfalso. destruct (lookup_lt_is_Some_2 ic pf Hpf) as [i Hi].
      pose proof (proj1 (find_idx_None _ _) E0 pf i Hi) as Hne. simpl in Hne. apply Z.eqb_neq in Hne. apply Hne. by rewrite (Hr pf i Hi).
Qed.
Lemma dinode_load d i : dinode_of ((load_dinode d i) <| i_valid := true |>) = d.
Proof. by destruct d. Qed.

(** Loading an inode from disk. *)
Lemma wp_load b t sb ic pid cwd ip i Q :
  bl_rep b t -> t_held t = ∅ -> fs_geom sb t -> ic !! ip = Some i -> i_dev i = ROOTDEV -> 0 < i_inum i < sb_ninodes sb ->
  di_type (disk_inode sb t (i_inum i)) <> 0 ->
  (forall b', bl_rep b' t ->
     Q () (mk_fsst b' sb (<[ip := (load_dinode (disk_inode sb t (i_inum i)) i) <| i_valid := true |>]> ic) pid cwd)) ->
  wp (sb ← getsb (fun sb => sb);
      bp ← fbread (i_dev i) (IBLOCK (i_inum i) sb);
      data ← fdata bp;
      modip ip (load_dinode (get_dinode data (i_inum i)));;
      fbrelse bp;;
      modip ip (fun i => i <| i_valid := true |>);;
      type ← getip ip i_type;
      if type =? 0 then panic "ilock: no type" else mret ()) (mk_fsst b sb ic pid cwd) Q.
Proof.
  intros Hr Hh Hg Hi Hdev Hn Hty HQ. assert (Hlt := lookup_lt_Some _ _ _ Hi). pose proof (bl_bound _ _ Hr) as [Hlo Hhi].
  destruct (iblock_range sb t (i_inum i) Hg ltac:(lia) ltac:(lia) ltac:(lia)) as [_ Hib].
  pose proof (meta_bounds _ _ Hg) as (Hm1 & Hm2 & Hm3). pose proof (ge_ino _ _ Hg).
  do 2 fs_step. rewrite Hdev. fs_step. eapply wp_fbread; [done|lia|by rewrite Hh, lookup_empty|rewrite Hh, map_size_empty; unfold MAXHELD; lia|].
  intros bp b1 R1. fs_step. eapply wp_fdata; [done|held_tac|]. do 2 fs_step. rewrite (list_lookup_total_correct _ _ _ Hi).
  fs_step. eapply wp_fbrelse; [done|held_tac|]. intros b2 R2. rewrite release_read in R2 by (by rewrite Hh, lookup_empty).
  do 3 fs_step. rewrite !list_insert_insert_eq, list_lookup_total_insert_eq by done.
  change (t_view (hold (IBLOCK (i_inum i) sb) bp false t)) with (t_view t). fold (disk_inode sb t (i_inum i)).
  fs_step. rewrite list_lookup_total_insert_eq by done.
  remember (disk_inode sb t (i_inum i)) as d. change (i_type ((load_dinode d i) <| i_valid := true |>)) with (di_type d).
  rewrite (proj2 (Z.eqb_neq _ 0) Hty). apply wp_ret. by apply HQ.
Qed.

Lemma wp_ilock b t sb ic r pid cwd ip i (Q : () -> fsst S -> Prop) :
  bl_rep b t -> t_held t = ∅ -> fs_geom sb t -> cache sb t ic r None -> ic !! ip = Some i -> 0 < r ip ->
  di_type (disk_inode sb t (i_inum i)) <> 0 ->
  (forall b' ic' i', bl_rep b' t -> cache sb t ic' r (Some ip) -> keeps r ic ic' -> ic' !! ip = Some i' ->
     i_inum i' = i_inum i -> i_valid i' = true -> dinode_of i' = disk_inode sb t (i_inum i) -> Q () (mk_fsst b' sb ic' pid cwd)) ->
  wp (ilock ip) (mk_fsst b sb ic pid cwd) Q.
Proof.
  intros Hrep Hh Hg Hc Hi Hpos Hty HQ. assert (Hlt := lookup_lt_Some _ _ _ Hi). pose proof Hc as [Hr _ _ Hd Hv Hl _].
  destruct (Hd ip i Hi Hpos) as [Hdev Hn]. unfold ilock. do 2 fs_step. rewrite (list_lookup_total_correct _ _ _ Hi), (Hr ip i Hi).
  decide_cmp. do 2 fs_step. cbn [fs_pid]. fs_step. eapply wp_ilock_acquire; [done|rewrite (Hl ip i Hi); done|].
  set (i1 := i <| i_lock := mk_sleeplock true pid |>).
  assert (Hi1 : <[ip := i1]> ic !! ip = Some i1) by by apply list_lookup_insert_eq.
  (* the slot, locked, with contents [j] *)
  assert (Hfin : forall j, i_inum j = i_inum i -> i_dev j = i_dev i -> i_ref j = i_ref i -> sl_locked (i_lock j) = true ->
    (i_valid j = true -> dinode_of j = disk_inode sb t (i_inum i)) -> cache sb t (<[ip := j]> ic) r (Some ip)).
  { intros j E1 E2 E3 E4 E5. apply (cache_update sb t ic r None ip i); try done.
    - by rewrite E3, (Hr ip i Hi).
    - lia.
    - by rewrite E4, bool_decide_eq_true_2.
    - intros q Hq. split; [done|]. rewrite (bool_decide_eq_false_2 (Some ip = Some q)) by (by intros [= ->]). done. }
  do 2 fs_step. rewrite (list_lookup_total_correct _ _ _ Hi1). change (i_valid i1) with (i_valid i).
  destruct (i_valid i) eqn:Hval.
  - apply wp_ret. pose proof (Hv ip i Hi Hpos Hval) as Hdi. apply (HQ b _ i1); [done|by apply Hfin|by eapply keeps_insert|done|done|done|done].
  - eapply (wp_load b t sb _ pid cwd ip i1); try done. intros b' R'. rewrite list_insert_insert_eq.
    set (j := (load_dinode _ i1) <| i_valid := true |>).
    assert (Hj : dinode_of j = disk_inode sb t (i_inum i)) by apply dinode_load.
    apply (HQ b' _ j); [done|by apply Hfin|by eapply keeps_insert|by apply list_lookup_insert_eq|done|done|done].
Qed.

Lemma wp_iunlock_cache b t sb ic r pid cwd ip i (Q : () -> fsst S -> Prop) :
  cache sb t ic r (Some ip) -> ic !! ip = Some i ->
  (forall ic' i', cache sb t ic' r None -> keeps r ic ic' -> ic' !! ip = Some i' -> i_inum i' = i_inum i ->
     i_valid i' = i_valid i -> i_nlink i' = i_nlink i -> Q () (mk_fsst b sb ic' pid cwd)) ->
  wp (iunlock ip) (mk_fsst b sb ic pid cwd) Q.
Proof.
  intros Hc Hi HQ. assert (Hlt := lookup_lt_Some _ _ _ Hi). pose proof Hc as [Hr _ _ Hd Hv Hl Hh].
  specialize (Hh ip eq_refl). eapply wp_iunlock; [done|by rewrite (Hl ip i Hi), bool_decide_eq_true_2|rewrite (Hr ip i Hi); lia|].
  eapply HQ; [|by eapply keeps_insert|by apply list_lookup_insert_eq|done..].
  apply (cache_update sb t ic r (Some ip) ip i); try done; try lia.
  - by apply (Hr ip i).
  - intros _ Hva. exact (Hv ip i Hi Hh Hva).
  - intros q Hq. split; [done|]. by rewrite (bool_decide_eq_false_2 (Some ip = Some q)) by (by intros [= ->]).
Qed.

(** Dropping a reference to an inode that stays on disk. *)
Lemma wp_iput_cache b t sb ic r pid cwd ip i (Q : () -> fsst S -> Prop) :
  cache sb t ic r None -> ic !! ip = Some i -> 0 < r ip -> (1 < r ip \/ 1 <= di_nlink (disk_inode sb t (i_inum i))) ->
  (forall ic', cache sb t ic' (bump r ip (-1)) None -> keeps r ic ic' -> Q () (mk_fsst b sb ic' pid cwd)) ->
  wp (iput ip) (mk_fsst b sb ic pid cwd) Q.
Proof.
  intros Hc Hi Hpos Hkeep HQ. assert (Hlt := lookup_lt_Some _ _ _ Hi). pose proof Hc as [Hr Hp _ Hd Hv Hl _].
  eapply wp_iput_simple; [done|by rewrite (Hl ip i Hi)| |].
  - rewrite (Hr ip i Hi). destruct (i_valid i) eqn:Hval; [|done]. destruct Hkeep as [Hk|Hk].
    + rewrite (proj2 (Z.eqb_neq (r ip) 1)) by lia. by rewrite andb_false_r.
    + pose proof (Hv ip i Hi Hpos Hval) as Hdi. assert (i_nlink i = di_nlink (disk_inode sb t (i_inum i))) as -> by (by rewrite <- Hdi).
      rewrite (proj2 (Z.eqb_neq (di_nlink _) 0)) by lia. done.
  - eapply HQ; [|by eapply keeps_insert]. apply (cache_update sb t ic r None ip i); simpl; try done.
    + by rewrite bump_same, (Hr ip i Hi).
    + rewrite bump_same. lia.
    + intros _ Hva. exact (Hv ip i Hi Hpos Hva).
    + intros q Hq. by rewrite bump_other.
Qed.
End cache_ops.

(** ** Looking up a name *)

Lemma loaded_entries sb t i n : dinode_of i = disk_inode sb t n -> dir_entries (t_view t) i = entries_of sb t n.
Proof. intros E. unfold entries_of, as_inode. rewrite <- E. done. Qed.

Lemma loaded_dir sb t i n : dinode_of i = disk_inode sb t n -> i_dev i = ROOTDEV ->
  dir_ok sb t (as_inode n (disk_inode sb t n)) -> dir_ok sb t i.
Proof. intros E Hd [[H1 H2 H3 H4] H5 H6]. rewrite <- E in *. by split; [split|..]. Qed.

(** A name buffer stands for a path element. *)
Record name_for (nm e : list Z) : Prop := {
  nf_len : length nm = 14%nat;
  nf_bytes : Forall byte_ok nm;
  nf_elem : Forall byte_ok e;
  nf_name : cname nm = cname e
}.

Lemma dir_find_name nm e es : name_for nm e -> es_ok es -> dir_find nm es = dir_find e es.
Proof.
  intros [_ Hb He Hn] Hes. unfold dir_find. induction Hes as [|de es Hd _ IH]; [done|]. simpl.
  rewrite (names_ext nm e de) by done. by rewrite IH.
Qed.

Section lookup.
Context {S : Type} `{!BlockOps S} `{!BlockLayer S} `{!DevOps S}.
Implicit Types (b : S) (t : txn) (sb : superblock) (ic : list inode).

Lemma wp_dirlookup_cache b t sb ic r L pid cwd dp i nm e n Q :
  bl_rep b t -> t_held t = ∅ -> fs_geom sb t -> tree_ok sb t -> cache sb t ic r L ->
  ic !! dp = Some i -> 0 < r dp -> i_inum i = n -> dinode_of i = disk_inode sb t n -> live sb t n -> is_dir sb t n ->
  name_for nm e -> (exists p, (p < length ic)%nat /\ r p = 0) ->
  match dir_lookup e (entries_of sb t n) with
  | None => forall b', bl_rep b' t -> Q None (mk_fsst b' sb ic pid cwd)
  | Some m => forall b' p off ic' j, bl_rep b' t -> cache sb t ic' (bump r p 1) L -> keeps r ic ic' -> ic' !! p = Some j ->
      i_inum j = m -> Q (Some (p, off)) (mk_fsst b' sb ic' pid cwd)
  end ->
  wp (dirlookup dp nm) (mk_fsst b sb ic pid cwd) Q.
Proof.
  intros Hr Hh Hg Ht Hc Hi Hpos <- Hdi Hlive Hdir Hnm Hfree HQ. pose proof (bl_bound _ _ Hr) as [Hlo Hhi].
  assert (Hdok : dir_ok sb t i) by (eapply loaded_dir; [done|by apply (ca_dev _ _ _ _ _ Hc dp i Hi Hpos)|by apply (tk_dir _ _ Ht)]).
  assert (Hes : es_ok (dir_entries (t_view t) i)) by (eapply entries_bytes; [done|lia|done|intros k Hk; by eapply bl_ok]).
  unfold wp. apply (run_dirlookup b t sb ic pid cwd dp i nm); try done. intros b' R'.
  rewrite (dir_find_name nm e) by done. rewrite (loaded_entries sb t i _ Hdi) in *.
  unfold dir_lookup in HQ. destruct (dir_find e (entries_of sb t (i_inum i))) as [k|] eqn:Ek; simpl in HQ; [|by apply HQ].
  assert (Hk := Ek). unfold dir_find in Hk. apply find_idx_Some in Hk as [(de & Hde & Hnz) _]. rewrite Hde in HQ. simpl in HQ.
  assert (Hent : dir_entry (t_view t) i (Z.of_nat k) = de).
  { pose proof (lookup_lt_Some _ _ _ Hde) as Hlt. rewrite <- (loaded_entries sb t i _ Hdi) in Hde, Hlt.
    rewrite dir_entries_length in Hlt. rewrite dir_entries_lookup in Hde by lia. by injection Hde. }
  unfold found_at. rewrite Hent.
  assert (Hl : live sb t (de_inum de)).
  { apply (lookup_live sb t (i_inum i) e); try done. unfold dir_lookup. rewrite Ek. simpl. by rewrite Hde. }
  change (wp (ip ← iget ROOTDEV (de_inum de); mret (Some (ip, DIRENT_SZ * Z.of_nat k))) (mk_fsst b' sb ic pid cwd) Q).
  apply wp_bind. eapply wp_iget; [done|apply Hl|done|]. intros p ic' j C' K' J' E'. apply wp_ret. by eapply HQ.
Qed.
End lookup.

(** ** Path names *)

Lemma cache_ext sb t ic r r' L : (forall p, r p = r' p) -> cache sb t ic r L -> cache sb t ic r' L.
Proof.
  intros E [H1 H2 H3 H4 H5 H6 H7]. split; [| | | | | |by intros p; rewrite <- E; apply H7].
  - intros p i. rewrite <- E. apply H1.
  - intros p. rewrite <- E. apply H2.
  - intros p q i j. rewrite <- !E. apply H3.
  - intros p i. rewrite <- E. apply H4.
  - intros p i. rewrite <- E. apply H5.
  - exact H6.
Qed.

(** What [namex] finds: the inode of a path, or the directory of its last
    element. *)
Fixpoint walk (sb : superblock) (t : txn) (n : Z) (es : list (list Z)) (parent : bool) : option Z :=
  match es with
  | [] => if parent then None else Some n
  | e :: es' =>
      if di_type (disk_inode sb t n) =? T_DIR then
        if parent && bool_decide (es' = []) then Some n
        else m ← dir_lookup e (entries_of sb t n); walk sb t m es' parent
      else None
  end.

Lemma walk_resolve sb t n es : walk sb t n es false = resolve sb t n es.
Proof.
  revert n. induction es as [|e es IH]; intros n; [done|]. cbn [walk resolve andb]. destruct (_ =? T_DIR); [|done].
  destruct (dir_lookup e (entries_of sb t n)); simpl; [apply IH|done].
Qed.

Lemma walk_parent sb t n es e :
  walk sb t n (es ++ [e]) true =
    (m ← resolve sb t n es; if di_type (disk_inode sb t m) =? T_DIR then Some m else None).
Proof.
  revert n. induction es as [|x es IH]; intros n; cbn [walk resolve app andb].
  - rewrite bool_decide_eq_true_2 by done. done.
  - rewrite bool_decide_eq_false_2 by (by destruct es). destruct (di_type (disk_inode sb t n) =? T_DIR); [|done].
    destruct (dir_lookup x (entries_of sb t n)) as [m|]; simpl; [apply IH|done].
Qed.

Definition path_ok (path : list Z) : Prop := Forall (fun c => c <> 0) path /\ Forall byte_ok path.

Lemma skip_suffix path : exists pre, path = pre ++ skip_slashes path.
Proof.
  induction path as [|c path [pre IH]]; [by exists []|]. simpl. destruct (c =? SLASH); [|by exists []].
  exists (c :: pre). simpl. by rewrite <- IH.
Qed.

Lemma cname_elem e : Forall (fun c => c <> 0) e -> cname e = take 14 e.
Proof.
  intros He. rewrite <- (take_drop 14 e) at 1. unfold cname. change (Z.to_nat DIRSIZ) with 14%nat.
  destruct (decide (length e <= 14)%nat) as [Hle|Hgt].
  - rewrite drop_ge, app_nil_r by done. rewrite take_ge by done.
    pose proof (cstr_padded 14 e He Hle) as Hp. rewrite <- Hp at 2. apply cstr_ext. intros i Hi. unfold view_of.
    destruct (decide (Z.to_nat i < length e)%nat).
    + by rewrite app_nth1.
    + rewrite app_nth2 by lia. rewrite nth_overflow by lia. rewrite nth_lookup.
      destruct (replicate _ 0 !! _) eqn:E; [|done]. by apply lookup_replicate_1 in E as [-> _].
  - pose proof (cstr_padded 14 (take 14 e) (Forall_take _ _ _ He) ltac:(rewrite length_take; lia)) as Hp.
    rewrite length_take, Nat.min_l, Nat.sub_diag, app_nil_r in Hp by lia. rewrite <- Hp at 2. apply cstr_ext. intros i Hi.
    unfold view_of. rewrite app_nth1; [done|]. rewrite length_take. lia.
Qed.

Lemma elems_nil rest : match rest with c :: _ => c <> SLASH | [] => True end -> elems rest = [] -> rest = [].
Proof.
  destruct rest as [|c rest]; [done|]. intros Hc. unfold elems. cbn [split_on]. rewrite (proj2 (Z.eqb_neq c SLASH) Hc).
  destruct (split_on SLASH rest); by rewrite filter_cons_True.
Qed.

(** [skipelem] on a proper path. *)
Lemma skipelem_path path name : length name = 14%nat -> Forall byte_ok name -> path_ok path ->
  match skipelem path name with
  | None => elems path = []
  | Some (rest, nm) => exists e, elems path = e :: elems rest /\ name_for nm e /\ path_ok rest /\
      (rest = [] <-> elems rest = []) /\ (length rest < length path)%nat
  end.
Proof.
  intros Hn Hb [Hp0 Hpb]. pose proof (skipelem_correct path name Hn Hp0) as Hs.
  destruct (skipelem path name) as [[rest nm]|] eqn:Es; [|done].
  destruct Hs as (e & He & _ & _ & Hcn & Hlen & Hhd & Hlt). exists e. split; [done|].
  unfold skipelem in Es. destruct (skip_suffix path) as [pre Hpre]. destruct (skip_slashes path) as [|c s] eqn:Ess; [done|].
  destruct (split_elem (c :: s)) as [e' rest'] eqn:Esp. injection Es as <- <-.
  pose proof (split_elem_rest _ _ _ Esp) as Hr0. apply split_elem_spec in Esp as (Ecs & Hns & Hsplit).
  rewrite Hpre in Hp0, Hpb. apply Forall_app in Hp0 as [_ Hp0], Hpb as [_ Hpb]. rewrite Ecs in Hp0, Hpb.
  apply Forall_app in Hp0 as [He0 Hr0'], Hpb as [Heb Hrb].
  assert (e = e') as ->.
  { rewrite <- elems_skip, Ess in He. unfold elems in He. rewrite Hsplit in He. rewrite filter_cons_True in He; [by injection He|].
    intros ->. destruct rest' as [|x r]; [done|]. subst x. simpl in Ecs. injection Ecs as -> _.
    pose proof (skip_head path) as Hh. rewrite Ess in Hh. done. }
  destruct (skip_suffix rest') as [pre' Hpre'].
  split; [|split; [|split; [by split; [intros ->|apply elems_nil]|done]]].
  - split; [done| |done|].
    + destruct (DIRSIZ <=? Z.of_nat (length e')); apply splice_bytes; try done; [by apply Forall_take|].
      apply Forall_app. split; [done|]. repeat constructor; unfold byte_ok; lia.
    + rewrite Hcn, cname_elem by done. done.
  - rewrite Hpre' in Hr0', Hrb. apply Forall_app in Hr0' as [_ ?], Hrb as [_ ?]. done.
Qed.

Lemma bump_undo r p q : bump (bump r p 1) p (-1) q = r q.
Proof. unfold bump. case_decide; lia. Qed.
Lemma bump_swap r p m q : bump (bump (bump r p 1) m 1) p (-1) q = bump r m 1 q.
Proof. unfold bump. repeat case_decide; lia. Qed.

(** The [DIRSIZ] bytes [name] after [namex] on the elements [es]. *)
Definition last_name (nm : list Z) (es : list (list Z)) : Prop := exists es' e, es = es' ++ [e] /\ name_for nm e.

Section namex.
Context {S : Type} `{!BlockOps S} `{!BlockLayer S} `{!DevOps S}.
Implicit Types (b : S) (t : txn) (sb : superblock) (ic : list inode).

(** [iunlockput] of an inode that stays on disk. *)
Lemma wp_iunlockput b t sb ic r pid cwd ip i (Q : () -> fsst S -> Prop) :
  cache sb t ic r (Some ip) -> ic !! ip = Some i -> 1 <= di_nlink (disk_inode sb t (i_inum i)) ->
  (forall ic', cache sb t ic' (bump r ip (-1)) None -> keeps r ic ic' -> Q () (mk_fsst b sb ic' pid cwd)) ->
  wp (iunlockput ip) (mk_fsst b sb ic pid cwd) Q.
Proof.
  intros Hc Hi Hnl HQ. unfold iunlockput. fs_step. eapply wp_iunlock_cache; [done|done|]. intros ic1 i1 C1 K1 I1 E1 _ _.
  eapply wp_iput_cache; [done|done|by apply (ca_held _ _ _ _ _ Hc)|right; by rewrite E1|]. intros ic2 C2 K2.
  apply HQ; [done|]. by eapply keeps_trans.
Qed.

Lemma wp_namex_loop fuel b t sb ic r pid cwd ip i path parent name (Q : option nat * list Z -> fsst S -> Prop) :
  bl_rep b t -> t_held t = ∅ -> fs_geom sb t -> tree_ok sb t -> cache sb t ic (bump r ip 1) None -> (forall p, 0 <= r p) ->
  ic !! ip = Some i -> live sb t (i_inum i) ->
  (exists p q, p <> q /\ (p < length ic)%nat /\ (q < length ic)%nat /\ r p = 0 /\ r q = 0) ->
  path_ok path -> length name = 14%nat -> Forall byte_ok name -> (length path <= fuel)%nat ->
  (forall b' ic' ip' j name', bl_rep b' t -> cache sb t ic' (bump r ip' 1) None -> keeps r ic ic' -> ic' !! ip' = Some j ->
     walk sb t (i_inum i) (elems path) parent = Some (i_inum j) -> (parent = true -> last_name name' (elems path)) ->
     Q (Some ip', name') (mk_fsst b' sb ic' pid cwd)) ->
  (forall b' ic' name', bl_rep b' t -> cache sb t ic' r None -> keeps r ic ic' ->
     walk sb t (i_inum i) (elems path) parent = None -> Q (None, name') (mk_fsst b' sb ic' pid cwd)) ->
  wp (namex_loop fuel ip path parent name) (mk_fsst b sb ic pid cwd) Q.
Proof.
  revert b ic ip i path name. induction fuel as [|fuel IH]; intros b ic ip i path name Hr Hh Hg Ht Hc Hr0 Hi Hl Hfree Hpath Hnl Hnb Hf HS HN.
  all: cbn [namex_loop]; pose proof (skipelem_path path name Hnl Hnb Hpath) as Hsk; destruct (skipelem path name) as [[rest nm]|] eqn:Es.
  1: destruct Hsk as (_ & _ & _ & _ & _ & ?); lia.
  all: assert (Hpos : 0 < bump r ip 1 ip) by (rewrite bump_same; specialize (Hr0 ip); lia).
  all: assert (Hmono : forall q, 0 < r q -> 0 < bump r ip 1 q) by (intros q Hq; unfold bump; case_decide; lia).
  2: destruct Hsk as (e & He & Hnm & Hrest & Hnil & Hlt); rewrite He in HS, HN.
  1,3: rewrite Hsk in HS, HN; destruct parent;
    [fs_step; eapply wp_iput_cache; [done|done|done|right; apply Hl|]; intros ic1 C1 K1; apply wp_ret;
     apply HN; [done|by eapply cache_ext; [apply bump_undo|]|by eapply keeps_mono|done]
    |apply wp_ret; eapply HS; [done|done|apply keeps_refl|done|done|done]].
  fs_step. eapply (wp_ilock b t sb ic (bump r ip 1)); [done..|apply Hl|]. intros b1 ic1 i1 R1 C1 K1 I1 E1 V1 D1.
  do 2 fs_step. rewrite (list_lookup_total_correct _ _ _ I1).
  assert (Ety : i_type i1 = di_type (disk_inode sb t (i_inum i))) by (by rewrite <- D1). rewrite Ety.
  cbn [walk] in HS, HN.
  destruct (Z.eqb_spec (di_type (disk_inode sb t (i_inum i))) T_DIR) as [Hdir|Hnd]; cbn [negb].
  2: { fs_step. eapply wp_iunlockput; [done|done|rewrite E1; apply Hl|]. intros ic2 C2 K2. apply wp_ret.
       apply HN; [done|by eapply cache_ext; [apply bump_undo|]|by eapply keeps_mono, keeps_trans|done]. }
  assert (Hrn : bool_decide (rest = []) = bool_decide (elems rest = [])) by (by apply bool_decide_ext).
  destruct (parent && bool_decide (rest = [])) eqn:Elast.
  { rewrite Hrn in Elast. rewrite Elast in HS. apply andb_true_iff in Elast as [Hpar Hnil']. apply bool_decide_eq_true_1 in Hnil'.
    fs_step. eapply wp_iunlock_cache; [done|done|]. intros ic2 i2 C2 K2 I2 E2 _ _. apply wp_ret.
    eapply HS; [done|done|by eapply keeps_mono, keeps_trans|done|by rewrite E2, E1|]. intros _. exists [], e. by rewrite Hnil'. }
  rewrite Hrn in Elast. rewrite Elast in HS, HN. pose proof (proj1 K1) as L1.
  fs_step. eapply (wp_dirlookup_cache b1 t sb ic1 (bump r ip 1) (Some ip) pid cwd ip i1 nm e (i_inum i)); [done..| |].
  { destruct Hfree as (p & q & Hpq & Hp & Hq & Hp0 & Hq0). rewrite L1. destruct (decide (p = ip)) as [->|Hne].
    - exists q. rewrite bump_other by done. done.
    - exists p. rewrite bump_other by done. done. }
  destruct (dir_lookup e (entries_of sb t (i_inum i))) as [m|] eqn:Elk; cbn [mbind option_bind] in HS, HN.
  2: { intros b2 R2. fs_step. eapply wp_iunlockput; [done|done|rewrite E1; apply Hl|]. intros ic2 C2 K2. apply wp_ret.
       apply HN; [done|by eapply cache_ext; [apply bump_undo|]|by eapply keeps_mono, keeps_trans|done]. }
  intros b2 p off ic2 j R2 C2 K2 J2 Ej. destruct (proj2 K2 ip i1 I1 Hpos) as (i2 & I2 & E2).
  fs_step. eapply wp_iunlockput; [done|done|rewrite E2, E1; apply Hl|]. intros ic3 C3 K3.
  apply (cache_ext _ _ _ _ (bump r p 1)) in C3; [|apply bump_swap].
  assert (Hpp : 0 < bump (bump r ip 1) p 1 p) by (rewrite bump_same; unfold bump; case_decide; specialize (Hr0 p); lia).
  destruct (proj2 K3 p j J2 Hpp) as (j3 & J3 & Ej3).
  assert (K03 : keeps r ic ic3).
  { eapply keeps_mono; [exact Hmono|]. eapply keeps_trans; [exact K1|]. eapply keeps_trans; [exact K2|].
    eapply keeps_mono; [|exact K3]. intros q Hq. unfold bump in *. repeat case_decide; lia. }
  assert (Em : i_inum j3 = m) by congruence.
  eapply (IH b2 ic3 p j3 rest nm); try done.
  - rewrite Em. eapply lookup_live; try done.
  - destruct K03 as [-> _]. done.
  - apply Hnm.
  - apply Hnm.
  - lia.
  - intros b4 ic4 ip4 j4 nm4 R4 C4 K4 J4 W4 N4. rewrite Em in W4. eapply HS; try done; [by eapply keeps_trans|].
    intros Hpar. destruct (N4 Hpar) as (es' & e' & -> & Hn'). exists (e :: es'), e'. done.
  - intros b4 ic4 nm4 R4 C4 K4 W4. rewrite Em in W4. eapply HN; try done. by eapply keeps_trans.
Qed.
(** Where a path starts. *)
Definition start_inum (ic : list inode) (cwd : nat) (path : list Z) : Z :=
  match path with
  | c :: _ => if c =? SLASH then ROOTINO else i_inum (ic !!! cwd)
  | [] => i_inum (ic !!! cwd)
  end.

(** A relative path needs the current directory. *)
Definition cwd_ok (ic : list inode) (r : nat -> Z) (cwd : nat) (path : list Z) : Prop :=
  match path with
  | c :: _ => if c =? SLASH then True else (cwd < length ic)%nat /\ 0 < r cwd
  | [] => (cwd < length ic)%nat /\ 0 < r cwd
  end.

Lemma wp_namex b t sb ic r pid cwd path parent name :
  bl_rep b t -> t_held t = ∅ -> fs_geom sb t -> tree_ok sb t -> cache sb t ic r None ->
  (exists p q, p <> q /\ (p < length ic)%nat /\ (q < length ic)%nat /\ r p = 0 /\ r q = 0) ->
  cwd_ok ic r cwd path -> live sb t (start_inum ic cwd path) ->
  path_ok path -> length name = 14%nat -> Forall byte_ok name ->
  wp (namex path parent name) (mk_fsst b sb ic pid cwd) (fun '(o, name') s' =>
    exists b' ic', s' = mk_fsst b' sb ic' pid cwd /\ bl_rep b' t /\ keeps r ic ic' /\
    match walk sb t (start_inum ic cwd path) (elems path) parent with
    | Some m => exists ip j, o = Some ip /\ ic' !! ip = Some j /\ i_inum j = m /\ cache sb t ic' (bump r ip 1) None
        /\ (parent = true -> last_name name' (elems path))
    | None => o = None /\ cache sb t ic' r None
    end).
Proof.
  intros Hr Hh Hg Ht Hc Hfree Hcwd Hl Hpath Hnl Hnb. unfold namex. apply wp_bind.
  (* the loop, from the slot of the starting inode *)
  assert (Hgo : forall ip ic1 i1, cache sb t ic1 (bump r ip 1) None -> keeps r ic ic1 -> ic1 !! ip = Some i1 ->
    i_inum i1 = start_inum ic cwd path ->
    wp (namex_loop (length path) ip path parent name) (mk_fsst b sb ic1 pid cwd) (fun '(o, name') s' =>
      exists b' ic', s' = mk_fsst b' sb ic' pid cwd /\ bl_rep b' t /\ keeps r ic ic' /\
      match walk sb t (start_inum ic cwd path) (elems path) parent with
      | Some m => exists ip j, o = Some ip /\ ic' !! ip = Some j /\ i_inum j = m /\ cache sb t ic' (bump r ip 1) None
          /\ (parent = true -> last_name name' (elems path))
      | None => o = None /\ cache sb t ic' r None
      end)).
  { intros ip ic1 i1 C1 K1 I1 E1. eapply (wp_namex_loop _ b t sb ic1 r pid cwd ip i1); try done.
    - apply (ca_pos _ _ _ _ _ Hc).
    - by rewrite E1.
    - by rewrite (proj1 K1).
    - intros b' ic' ip' j name' R' C' K' J' W' N'. rewrite E1 in W'. exists b', ic'. rewrite W'.
      split; [done|]. split; [done|]. split; [by eapply keeps_trans|]. by exists ip', j.
    - intros b' ic' name' R' C' K' W'. rewrite E1 in W'. exists b', ic'. rewrite W'.
      split; [done|]. split; [done|]. split; [by eapply keeps_trans|]. done. }
  assert (Hdup : forall c, ic !! cwd = Some c -> 0 < r cwd -> start_inum ic cwd path = i_inum c -> wp (cwd ← gets fs_cwd; idup cwd) (mk_fsst b sb ic pid cwd)
    (fun ip s => wp (namex_loop (length path) ip path parent name) s (fun '(o, name') s' =>
      exists b' ic', s' = mk_fsst b' sb ic' pid cwd /\ bl_rep b' t /\ keeps r ic ic' /\
      match walk sb t (start_inum ic cwd path) (elems path) parent with
      | Some m => exists ip j, o = Some ip /\ ic' !! ip = Some j /\ i_inum j = m /\ cache sb t ic' (bump r ip 1) None
          /\ (parent = true -> last_name name' (elems path))
      | None => o = None /\ cache sb t ic' r None
      end))).
  { intros c Hic Hrc Es. assert (Hlt := lookup_lt_Some _ _ _ Hic). unfold idup. do 2 fs_step. cbn [fs_cwd]. do 3 fs_step. rewrite (list_lookup_total_correct _ _ _ Hic).
    eapply Hgo; [|by eapply keeps_insert|by apply list_lookup_insert_eq|by rewrite Es].
    pose proof Hc as [Hrf _ _ _ Hv Hlk _]. apply (cache_update sb t ic r None cwd c); simpl; try done.
    - by rewrite bump_same, (Hrf cwd c Hic).
    - rewrite bump_same. lia.
    - intros _ Hva. exact (Hv cwd c Hic Hrc Hva).
    - exact (Hlk cwd c Hic).
    - intros q Hq. by rewrite bump_other. }
  match type of Hdup with forall c, _ -> _ -> _ -> ?W => assert (Hrel : start_inum ic cwd path = i_inum (ic !!! cwd) -> (cwd < length ic)%nat /\ 0 < r cwd -> W) end.
  { intros Es [Hlt Hrc]. destruct (lookup_lt_is_Some_2 ic cwd Hlt) as [c Hic]. rewrite (list_lookup_total_correct _ _ _ Hic) in Es. exact (Hdup c Hic Hrc Es). }
  destruct path as [|ch path']; [by apply Hrel|]. unfold cwd_ok in Hcwd. unfold start_inum in *. destruct (ch =? SLASH); [|by apply Hrel].
  destruct Hfree as (p & q & Hpq & Hp & Hq & Hp0 & Hq0). eapply (wp_iget b t sb ic r None); [done|apply Hl|by exists p|].
  intros ip ic1 i1 C1 K1 I1 E1. by eapply Hgo.
Qed.

(** C9: path names resolve along the directory tree.  On a sound tree and cache
    with two free slots, [namex] returns, for [namei] the inode the path leads
    to from the root or the current directory, for [nameiparent] the directory
    of the last element together with that element, and nothing when an
    element is missing or is not a directory.  It takes exactly one reference,
    to the inode it returns; it writes nothing, holds no lock at the end, and
    every cached inode stays in its slot. *)
Theorem namex_correct b t sb ic r pid cwd path parent name :
  bl_rep b t -> t_held t = ∅ -> fs_geom sb t -> tree_ok sb t -> cache sb t ic r None ->
  (exists p q, p <> q /\ (p < length ic)%nat /\ (q < length ic)%nat /\ r p = 0 /\ r q = 0) ->
  (cwd < length ic)%nat -> 0 < r cwd -> live sb t (start_inum ic cwd path) ->
  path_ok path -> length name = 14%nat -> Forall byte_ok name ->
  wp (namex path parent name) (mk_fsst b sb ic pid cwd) (fun '(o, name') s' =>
    exists b' ic', s' = mk_fsst b' sb ic' pid cwd /\ bl_rep b' t /\ keeps r ic ic' /\
    match walk sb t (start_inum ic cwd path) (elems path) parent with
    | Some m => exists ip j, o = Some ip /\ ic' !! ip = Some j /\ i_inum j = m /\ cache sb t ic' (bump r ip 1) None
        /\ (parent = true -> last_name name' (elems path))
    | None => o = None /\ cache sb t ic' r None
    end).
Proof.
  intros Hr Hh Hg Ht Hc Hfree Hcwd Hrc. apply wp_namex; try done. unfold cwd_ok. by destruct path as [|ch ?]; [|destruct (ch =? SLASH)].
Qed.
End namex.
