(* ===== verification/SysFile.v ===== *)
(** Files and the file system calls ([file.c], [sysfile.c]) over the file
    system, the file table, pipes and transactions.

    A system call takes its arguments as [argint], [argptr] and [argstr]
    deliver them ([Syscall.v]): [None] when fetching fails.  [p] is the calling
    process's row of descriptors; its [pid] and [cwd] are in the file system
    state.  Bytes for user memory are part of the result.  [name0] is what the
    uninitialised [char name[DIRSIZ]] holds. *)

From S2P Require Import Prelude CString Layout Sleeplock BlockLayer Fs File Pipe TxnLayer.

Definition O_RDONLY : Z := 0.
Definition O_WRONLY : Z := 1.
Definition O_RDWR : Z := 2.
Definition O_CREATE : Z := 512.

Record osfs (S : Type) := mk_osfs { o_fs : fsst S; o_files : files; o_pipes : list pipe }.
Arguments mk_osfs {S} _ _ _.
Arguments o_fs {S} _.
Arguments o_files {S} _.
Arguments o_pipes {S} _.
#[export] Instance eta_osfs (S : Type) : Settable (osfs S) := fun s => mk_osfs (o_fs s) (o_files s) (o_pipes s).
#[export] Instance pipe_inhabited : Inhabited pipe := populate (pipeinit []).

(** [((MAXOPBLOCKS-1-1-2) / 2) * 512] *)
Definition write_max : Z := ((MAXOPBLOCKS - 1 - 1 - 2) / 2) * 512.

Section sysfile.
Context {S : Type} `{!BlockOps S} `{!DevOps S} `{!TxnOps S}.
Variable name0 : list Z.

Definition on_fs {A : Type} (m : M (fsst S) A) : M (osfs S) A := zoom o_fs (fun t s => s <| o_fs := t |>) m.
Definition on_files {A : Type} (m : M files A) : M (osfs S) A := zoom o_files (fun t s => s <| o_files := t |>) m.
Definition get_pipe (k : nat) : M (osfs S) pipe := gets (fun s => o_pipes s !!! k).
Definition set_pipe (k : nat) (p : pipe) : M (osfs S) () := modify (fun s => s <| o_pipes := <[k := p]> (o_pipes s) |>).
Definition o_begin_op : M (osfs S) () := on_fs (on_blk tx_begin).
Definition o_end_op : M (osfs S) () := on_fs (on_blk tx_end).

(** ** file.c *)

Definition o_pipeclose (k : nat) (writable : bool) : M (osfs S) () :=
  p ← get_pipe k;
  let '(p, _, _) := pipeclose p writable in
  set_pipe k p.

(** [fileclose] with what it does to the last reference. *)
Definition o_fileclose (f : nat) : M (osfs S) () :=
  ff ← on_files (fileclose f);
  match ff with
  | None => mret ()
  | Some ff =>
      match f_type ff with
      | FD_PIPE => o_pipeclose (f_pipe ff) (f_writable ff)
      | FD_INODE => o_begin_op;; on_fs (iput (f_ip ff));; o_end_op
      | FD_NONE => mret ()
      end
  end.

Definition filestat (f : nat) : M (osfs S) (option stat) :=
  x ← on_files (get_file f);
  match f_type x with
  | FD_INODE =>
      on_fs (ilock (f_ip x));;
      st ← on_fs (stati (f_ip x));
      on_fs (iunlock (f_ip x));;
      mret (Some st)
  | _ => mret None
  end.

(** [f->off += r] *)
Definition advance (f : nat) (r : Z) : M (osfs S) () :=
  x ← on_files (get_file f);
  on_files (set_file f (x <| f_off := u32 (f_off x + r) |>)).

Definition o_piperead (killed : bool) (k : nat) (n : Z) : M (osfs S) (Z * list Z) :=
  p ← get_pipe k;
  let '(p, _, r) := piperead p killed (Z.to_nat n) in
  set_pipe k p;;
  match r with
  | RRet r bytes => mret (r, bytes)
  | RSleep => block
  end.

Definition o_pipewrite (killed : bool) (k : nat) (src : list Z) (n : Z) : M (osfs S) Z :=
  p ← get_pipe k;
  let '(p, _, r) := pipewrite p killed n (take (Z.to_nat n) src) in
  set_pipe k p;;
  match r with
  | WRet r => mret r
  | WSleep _ => block
  end.

Definition fileread (killed : bool) (f : nat) (n : Z) : M (osfs S) (Z * list Z) :=
  x ← on_files (get_file f);
  if negb (f_readable x) then mret (-1, []) else
  match f_type x with
  | FD_PIPE => o_piperead killed (f_pipe x) n
  | FD_INODE =>
      on_fs (ilock (f_ip x));;
      r ← on_fs (readi (f_ip x) (f_off x) (u32 n));
      when (fst r >? 0) (advance f (fst r));;
      on_fs (iunlock (f_ip x));;
      mret r
  | FD_NONE => panic "fileread"
  end.

(** One turn of the loop of [filewrite]. *)
Definition filewrite_chunk (f ip : nat) (src : list Z) (n1 : Z) : M (osfs S) Z :=
  o_begin_op;;
  on_fs (ilock ip);;
  off ← on_files (x ← get_file f; mret (f_off x));
  r ← on_fs (writei ip src off n1);
  when (r >? 0) (advance f r);;
  on_fs (iunlock ip);;
  o_end_op;;
  mret r.

(** The loop, from [i] on; each turn writes at least one byte. *)
Fixpoint filewrite_loop (fuel : nat) (f ip : nat) (src : list Z) (n i : Z) : M (osfs S) Z :=
  if negb (i <? n) then mret i else
  match fuel with
  | O => panic "filewrite: fuel"
  | Datatypes.S fuel =>
      let n1 := if n - i >? write_max then write_max else n - i in
      r ← filewrite_chunk f ip (take (Z.to_nat n1) (drop (Z.to_nat i) src)) n1;
      if r <? 0 then mret i else
      if negb (r =? n1) then panic "short filewrite" else
      filewrite_loop fuel f ip src n (i + r)
  end.

Definition filewrite (killed : bool) (f : nat) (src : list Z) (n : Z) : M (osfs S) Z :=
  x ← on_files (get_file f);
  if negb (f_writable x) then mret (-1) else
  match f_type x with
  | FD_PIPE => o_pipewrite killed (f_pipe x) src n
  | FD_INODE =>
      i ← filewrite_loop (Z.to_nat n) f (f_ip x) src n 0;
      mret (if i =? n then n else -1)
  | FD_NONE => panic "filewrite"
  end.

(** ** sysfile.c *)

Definition argfd (p : nat) (fd : option Z) : M (osfs S) (option nat) :=
  match fd with
  | None => mret None
  | Some fd => on_files (fd_lookup p fd)
  end.

Definition sys_read (killed : bool) (p : nat) (fd n buf : option Z) : M (osfs S) (Z * list Z) :=
  f ← argfd p fd;
  match f, n, buf with
  | Some f, Some n, Some _ => fileread killed f n
  | _, _, _ => mret (-1, [])
  end.

(** [buf] is what the user's buffer holds. *)
Definition sys_write (killed : bool) (p : nat) (fd n : option Z) (buf : option (list Z)) : M (osfs S) Z :=
  f ← argfd p fd;
  match f, n, buf with
  | Some f, Some n, Some src => filewrite killed f src n
  | _, _, _ => mret (-1)
  end.

Definition o_sys_close (p : nat) (fd : option Z) : M (osfs S) Z :=
  f ← argfd p fd;
  match f, fd with
  | Some f, Some fd => on_files (set_fd p (Z.to_nat fd) None);; o_fileclose f;; mret 0
  | _, _ => mret (-1)
  end.

Definition sys_fstat (p : nat) (fd st : option Z) : M (osfs S) (option stat) :=
  f ← argfd p fd;
  match f, st with
  | Some f, Some _ => filestat f
  | _, _ => mret None
  end.

(** [ip->nlink += d; iupdate(ip);] on a [short]. *)
Definition add_nlink (ip : nat) (d : Z) : M (fsst S) () :=
  modip ip (fun i => i <| i_nlink := s16 (i_nlink i + d) |>);;
  iupdate ip.

(** The label [bad] of [sys_link]. *)
Definition link_bad (ip : nat) : M (osfs S) Z :=
  on_fs (ilock ip);;
  on_fs (add_nlink ip (-1));;
  on_fs (iunlockput ip);;
  o_end_op;;
  mret (-1).

Definition sys_link (old new : option (list Z)) : M (osfs S) Z :=
  match old, new with
  | Some old, Some new =>
      o_begin_op;;
      oip ← on_fs (namei old);
      match oip with
      | None => o_end_op;; mret (-1)
      | Some ip =>
          on_fs (ilock ip);;
          type ← on_fs (getip ip i_type);
          if type =? T_DIR then on_fs (iunlockput ip);; o_end_op;; mret (-1) else
          on_fs (add_nlink ip 1);;
          on_fs (iunlock ip);;
          r ← on_fs (nameiparent new name0);
          match r with
          | (None, _) => link_bad ip
          | (Some dp, name) =>
              on_fs (ilock dp);;
              ddev ← on_fs (getip dp i_dev);
              idev ← on_fs (getip ip i_dev);
              inum ← on_fs (getip ip i_inum);
              r ← (if negb (ddev =? idev) then mret (-1) else on_fs (dirlink dp name inum));
              if r <? 0 then on_fs (iunlockput dp);; link_bad ip else
              on_fs (iunlockput dp);;
              on_fs (iput ip);;
              o_end_op;;
              mret 0
          end
      end
  | _, _ => mret (-1)
  end.

(** The loop of [isdirempty] from [off]; the directory's size is fuel enough. *)
Fixpoint isdirempty_loop (fuel : nat) (dp : nat) (off : Z) : M (fsst S) bool :=
  size ← getip dp i_size;
  if negb (off <? size) then mret true else
  match fuel with
  | O => panic "isdirempty: fuel"
  | Datatypes.S fuel =>
      de ← read_dirent dp off;
      match de with
      | None => panic "isdirempty: readi"
      | Some de => if negb (de_inum de =? 0) then mret false else isdirempty_loop fuel dp (off + DIRENT_SZ)
      end
  end.

Definition isdirempty (dp : nat) : M (fsst S) bool :=
  size ← getip dp i_size;
  isdirempty_loop (Z.to_nat size) dp (2 * DIRENT_SZ).
Definition dot : list Z := [46; 0].
Definition dotdot : list Z := [46; 46; 0].

(** The label [bad] of [sys_unlink]. *)
Definition unlink_bad (dp : nat) : M (osfs S) Z :=
  on_fs (iunlockput dp);;
  o_end_op;;
  mret (-1).

Definition sys_unlink (path : option (list Z)) : M (osfs S) Z :=
  match path with
  | None => mret (-1)
  | Some path =>
      o_begin_op;;
      r ← on_fs (nameiparent path name0);
      match r with
      | (None, _) => o_end_op;; mret (-1)
      | (Some dp, name) =>
          on_fs (ilock dp);;
          if (namecmp name dot =? 0) || (namecmp name dotdot =? 0) then unlink_bad dp else
          found ← on_fs (dirlookup dp name);
          match found with
          | None => unlink_bad dp
          | Some (ip, off) =>
              on_fs (ilock ip);;
              i ← on_fs (getip ip (fun i => i));
              if i_nlink i <? 1 then panic "unlink: nlink < 1" else
              busy ← (if i_type i =? T_DIR then e ← on_fs (isdirempty ip); mret (negb e) else mret false);
              if busy : bool then on_fs (iunlockput ip);; unlink_bad dp else
              r ← on_fs (writei dp (replicate (Z.to_nat DIRENT_SZ) 0) off DIRENT_SZ);
              if negb (r =? DIRENT_SZ) then panic "unlink: writei" else
              type ← on_fs (getip ip i_type);
              when (type =? T_DIR) (on_fs (add_nlink dp (-1)));;
              on_fs (iunlockput dp);;
              on_fs (add_nlink ip (-1));;
              on_fs (iunlockput ip);;
              o_end_op;;
              mret 0
          end
      end
  end.

Definition create (path : list Z) (type major minor : Z) : M (fsst S) (option nat) :=
  r ← nameiparent path name0;
  match r with
  | (None, _) => mret None
  | (Some dp, name) =>
      ilock dp;;
      found ← dirlookup dp name;
      match found with
      | Some (ip, _) =>
          iunlockput dp;;
          ilock ip;;
          ty ← getip ip i_type;
          if (type =? T_FILE) && (ty =? T_FILE) then mret (Some ip)
          else iunlockput ip;; mret None
      | None =>
          dev ← getip dp i_dev;
          ip ← ialloc dev type;
          ilock ip;;
          modip ip (fun i => i <| i_major := s16 major |> <| i_minor := s16 minor |> <| i_nlink := 1 |>);;
          iupdate ip;;
          inum ← getip ip i_inum;
          when (type =? T_DIR) (
            add_nlink dp 1;;
            dinum ← getip dp i_inum;
            r ← dirlink ip dot inum;
            if r <? 0 then panic "create dots" else
            r ← dirlink ip dotdot dinum;
            if r <? 0 then panic "create dots" else mret ());;
          r ← dirlink dp name inum;
          if r <? 0 then panic "create: dirlink" else
          iunlockput dp;;
          mret (Some ip)
      end
  end.

(** The inode of [sys_open], locked; [None] after [end_op] on a failure. *)
Definition open_inode (path : list Z) (omode : Z) : M (osfs S) (option nat) :=
  if negb (Z.land omode O_CREATE =? 0) then
    o ← on_fs (create path T_FILE 0 0);
    match o with
    | None => o_end_op;; mret None
    | Some ip => mret (Some ip)
    end
  else
    o ← on_fs (namei path);
    match o with
    | None => o_end_op;; mret None
    | Some ip =>
        on_fs (ilock ip);;
        type ← on_fs (getip ip i_type);
        if (type =? T_DIR) && negb (omode =? O_RDONLY) then
          on_fs (iunlockput ip);; o_end_op;; mret None
        else mret (Some ip)
    end.

Definition sys_open (p : nat) (path : option (list Z)) (omode : option Z) : M (osfs S) Z :=
  match path, omode with
  | Some path, Some omode =>
      o_begin_op;;
      o ← open_inode path omode;
      match o with
      | None => mret (-1)
      | Some ip =>
          fo ← on_files filealloc;
          fd ← match fo with None => mret (-1) | Some f => on_files (fdalloc p f) end;
          match fo with
          | Some f =>
              if fd <? 0 then
                o_fileclose f;;
                on_fs (iunlockput ip);;
                o_end_op;;
                mret (-1)
              else
                on_fs (iunlock ip);;
                o_end_op;;
                x ← on_files (get_file f);
                on_files (set_file f (x <| f_type := FD_INODE |> <| f_ip := ip |> <| f_off := 0 |>
                  <| f_readable := Z.land omode O_WRONLY =? 0 |>
                  <| f_writable := negb (Z.land omode O_WRONLY =? 0) || negb (Z.land omode O_RDWR =? 0) |>));;
                mret fd
          | None => on_fs (iunlockput ip);; o_end_op;; mret (-1)
          end
      end
  | _, _ => mret (-1)
  end.

Definition sys_mkdir (path : option (list Z)) : M (osfs S) Z :=
  o_begin_op;;
  o ← match path with None => mret None | Some path => on_fs (create path T_DIR 0 0) end;
  match o with
  | None => o_end_op;; mret (-1)
  | Some ip => on_fs (iunlockput ip);; o_end_op;; mret 0
  end.

Definition sys_mknod (path : option (list Z)) (major minor : option Z) : M (osfs S) Z :=
  o_begin_op;;
  o ← match path, major, minor with
      | Some path, Some major, Some minor => on_fs (create path T_DEV major minor)
      | _, _, _ => mret None
      end;
  match o with
  | None => o_end_op;; mret (-1)
  | Some ip => on_fs (iunlockput ip);; o_end_op;; mret 0
  end.

Definition sys_chdir (path : option (list Z)) : M (osfs S) Z :=
  o_begin_op;;
  o ← match path with None => mret None | Some path => on_fs (namei path) end;
  match o with
  | None => o_end_op;; mret (-1)
  | Some ip =>
      on_fs (ilock ip);;
      type ← on_fs (getip ip i_type);
      if negb (type =? T_DIR) then on_fs (iunlockput ip);; o_end_op;; mret (-1) else
      on_fs (iunlock ip);;
      cwd ← on_fs (gets fs_cwd);
      on_fs (iput cwd);;
      o_end_op;;
      on_fs (modify (fun s => s <| fs_cwd := ip |>));;
      mret 0
  end.
End sysfile.
