(* ===== verification/FsRest.v ===== *)
(** The file system between transactions: a well-formed tree of inodes whose
    files do not share blocks, the contents of a file, and what depends only on
    the blocks a transaction leaves on disk. *)

From S2P Require Import Prelude CString Layout Sleeplock BlockLayer Fs FsBlock FsFile FsRW FsDir FsTree TxnLayer.

(** ** Definitions *)

(** The disk at rest, as a transaction in which nothing happens. *)
Definition rest_txn (v : Z -> list Z) (lo hi : Z) : txn := mk_txn v v ∅ ∅ 0 lo hi.

(** Two transactions with the same file system blocks. *)
Record same_fs (t t' : txn) : Prop := {
  sf_lo : t_lo t' = t_lo t;
  sf_hi : t_hi t' = t_hi t;
  sf_view : forall b, fs_block (t_lo t) b -> b < t_hi t -> t_view t' b = t_view t b
}.

Definition addrs_of (sb : superblock) (t : txn) (n : Z) : list Z := di_addrs (disk_inode sb t n).
Definition size_of (sb : superblock) (t : txn) (n : Z) : Z := di_size (disk_inode sb t n).
Definition type_of (sb : superblock) (t : txn) (n : Z) : Z := di_type (disk_inode sb t n).

(** The bytes of a file. *)
Definition content (sb : superblock) (t : txn) (n : Z) : list Z :=
  file_bytes (t_view t) (addrs_of sb t n) 0 (size_of sb t n).

(** An inode in use. *)
Definition alloc_inode (sb : superblock) (t : txn) (n : Z) : Prop := 0 < n < sb_ninodes sb /\ type_of sb t n <> 0.

(** Every inode in use has a readable file, and no two share a block. *)
Record fs_core (sb : superblock) (t : txn) : Prop := {
  fk_geom : fs_geom sb t;
  fk_bound : 2 <= t_lo t /\ t_hi t < 2 ^ 31;
  fk_inode : forall n, alloc_inode sb t n -> inode_ok sb t (as_inode n (disk_inode sb t n));
  fk_disjoint : forall m n k, alloc_inode sb t m -> alloc_inode sb t n -> m <> n ->
    own t (addrs_of sb t m) k -> own t (addrs_of sb t n) k -> False
}.

(** ... and the directories form a sound tree. *)
Record fs_ok (sb : superblock) (t : txn) : Prop := {
  fk_core :> fs_core sb t;
  fk_tree : tree_ok sb t
}.

Lemma content_length sb t n : fs_core sb t -> alloc_inode sb t n -> Z.of_nat (length (content sb t n)) = size_of sb t n.
Proof.
  intros Hok Ha. unfold content. rewrite file_bytes_length. destruct (fk_inode _ _ Hok n Ha) as [_ _ Hs _].
  change (i_size (as_inode n (disk_inode sb t n))) with (size_of sb t n) in Hs. lia.
Qed.

Lemma content_slice sb t n off k : 0 <= off -> 0 <= k -> off + k <= size_of sb t n ->
  file_bytes (t_view t) (addrs_of sb t n) off k = take (Z.to_nat k) (drop (Z.to_nat off) (content sb t n)).
Proof.
  intros Ho Hk Hle. unfold content. set (m := size_of sb t n) in *.
  replace m with (off + (k + (m - off - k))) by lia. rewrite !file_bytes_app by lia. rewrite Z.add_0_l.
  rewrite drop_app_length' by (by rewrite file_bytes_length). by rewrite take_app_length' by (by rewrite file_bytes_length).
Qed.

(** ** What a file's blocks determine *)

(** Transactions that agree on the blocks of a file. *)
Definition agree_on (t t' : txn) (addrs : list Z) : Prop := forall k, own t addrs k -> t_view t' k = t_view t k.

Section agree.
Context (sb : superblock) (t t' : txn) (addrs : list Z).
Context (Ha : agree_on t t' addrs).

Lemma agree_block bn : block_of (t_view t') addrs bn = block_of (t_view t) addrs bn.
Proof.
  unfold block_of. destruct (bn <? NDIRECT); [done|]. destruct (Z.eqb_spec (ind_of addrs) 0); [done|].
  rewrite Ha; [done|]. split; [done|]. by left.
Qed.

Lemma agree_own k : own t' addrs k <-> own t addrs k.
Proof.
  unfold own. split; intros [Hk [H|(m & Hm & E)]]; (split; [done|]); auto; right; exists m;
    (split; [done|]); rewrite <- E; [symmetry|]; apply agree_block.
Qed.

Lemma agree_file : (forall k, own t addrs k -> used sb t k = true -> used sb t' k = true) -> file_ok sb t addrs -> file_ok sb t' addrs.
Proof.
  intros Hu [Hl Hb Hi Hj Hn]. split; [done| | | |].
  - intros bn Hbn. rewrite agree_block. intros Hnz. destruct (Hb bn Hbn Hnz) as [Hd H1]. split; [done|]. apply Hu; [|done].
    split; [done|]. right. by exists bn.
  - intros Hnz. destruct (Hi Hnz) as [Hd H1]. split; [done|]. apply Hu; [|done]. split; [done|by left].
  - intros m n Hm Hn'. rewrite !agree_block. by apply Hj.
  - intros bn Hbn Hnz. rewrite agree_block. by apply Hn.
Qed.

Lemma agree_holes size : no_holes (t_view t) addrs size -> no_holes (t_view t') addrs size.
Proof. intros H bn Hb Hs. rewrite agree_block. by apply H. Qed.

Lemma agree_byte p : 0 <= p < MAXFILE * BSIZE -> block_of (t_view t) addrs (p / BSIZE) <> 0 ->
  file_byte (t_view t') addrs p = file_byte (t_view t) addrs p.
Proof.
  intros Hp Hnz. unfold file_byte. rewrite agree_block, Ha; [done|]. split; [done|]. right.
  exists (p / BSIZE). split; [by apply div_bound|done].
Qed.

Lemma agree_bytes size off n : no_holes (t_view t) addrs size -> size <= MAXFILE * BSIZE -> 0 <= off -> off + n <= size ->
  file_bytes (t_view t') addrs off n = file_bytes (t_view t) addrs off n.
Proof.
  intros Hh Hs Ho Hn. apply list_fmap_ext. intros k x Hk. apply lookup_seqZ in Hk as [-> Hk].
  apply agree_byte; [lia|]. apply Hh; [apply Z.div_pos; [lia|done]|]. destruct (off_split (off + (0 + Z.of_nat k))); lia.
Qed.

Lemma agree_dir i : i_addrs i = addrs -> no_holes (t_view t) addrs (i_size i) -> 0 <= i_size i <= MAXFILE * BSIZE ->
  dir_entries (t_view t') i = dir_entries (t_view t) i.
Proof.
  intros Ei Hh Hs. apply list_fmap_ext. intros k x Hk. apply lookup_seqZ in Hk as [-> Hk]. unfold dir_entry. rewrite Ei. f_equal.
  apply (agree_bytes (i_size i)); try done; [lia|unfold DIRENT_SZ in *; lia|].
  pose proof (Z.mul_div_le (i_size i) DIRENT_SZ ltac:(done)). unfold DIRENT_SZ in *. lia.
Qed.
End agree.

(** An inode whose dinode and blocks stay. *)
Record inode_kept (sb : superblock) (t t' : txn) (n : Z) : Prop := {
  ik_dinode : disk_inode sb t' n = disk_inode sb t n;
  ik_agree : agree_on t t' (addrs_of sb t n)
}.

Section kept.
Context (sb : superblock) (t t' : txn) (n : Z).
Context (Hk : inode_kept sb t t' n) (Hu : forall k, 0 <= k < sb_size sb -> used sb t k = true -> used sb t' k = true).
Context (Hok : fs_core sb t) (Hn : alloc_inode sb t n).

Lemma kept_ok : inode_ok sb t' (as_inode n (disk_inode sb t' n)).
Proof.
  rewrite (ik_dinode _ _ _ _ Hk). destruct (fk_inode _ _ Hok n Hn) as [Hd Hf Hs Hh]. pose proof (ik_agree _ _ _ _ Hk) as Ha.
  split; [done| |done|by apply (agree_holes t)]. apply (agree_file sb t); [done| |done].
  intros k Ho. destruct (own_data _ _ _ _ Hf Ho). apply Hu. pose proof (meta_bounds _ _ (fk_geom _ _ Hok)).
  destruct (fk_bound _ _ Hok). lia.
Qed.

Lemma kept_content : content sb t' n = content sb t n.
Proof.
  unfold content, addrs_of, size_of. rewrite (ik_dinode _ _ _ _ Hk). destruct (fk_inode _ _ Hok n Hn) as [_ _ Hs Hh].
  apply (agree_bytes t t' _ (ik_agree _ _ _ _ Hk) (size_of sb t n)); try done; apply Hs.
Qed.

Lemma kept_entries : entries_of sb t' n = entries_of sb t n.
Proof.
  unfold entries_of. rewrite (ik_dinode _ _ _ _ Hk). destruct (fk_inode _ _ Hok n Hn) as [_ _ Hs Hh].
  by apply (agree_dir t t' _ (ik_agree _ _ _ _ Hk)).
Qed.
End kept.

Lemma live_alloc sb t n : live sb t n -> alloc_inode sb t n.
Proof. intros (? & ? & ?). by split. Qed.

(** The tree survives when the directories stay and the inodes keep their
    types and links. *)
Lemma tree_kept sb t t' :
  fs_ok sb t -> (forall k, 0 <= k < sb_size sb -> used sb t k = true -> used sb t' k = true) ->
  (forall n, 0 < n < sb_ninodes sb -> type_of sb t' n = type_of sb t n /\ di_nlink (disk_inode sb t' n) = di_nlink (disk_inode sb t n)) ->
  (forall n, live sb t n -> is_dir sb t n -> inode_kept sb t t' n) -> tree_ok sb t'.
Proof.
  intros Hok Hu Hty Hk. pose proof (fk_tree _ _ Hok) as [Hd He].
  assert (Hl : forall n, live sb t' n <-> live sb t n).
  { intros n. unfold live, type_of in *. split; intros (Hn & H1 & H2); destruct (Hty n Hn) as [E1 E2]; rewrite E1, E2 in *; done. }
  assert (Hdir : forall n, live sb t n -> is_dir sb t' n -> is_dir sb t n).
  { intros n (Hn & _). unfold is_dir. intros <-. symmetry. apply (Hty n Hn). }
  split.
  - intros n Hn%Hl Hdn. specialize (Hdir n Hn Hdn). pose proof (Hk n Hn Hdir) as Hkn. pose proof (live_alloc _ _ _ Hn).
    destruct (Hd n Hn Hdir) as [_ Hty' Hsz']. split; [apply (kept_ok sb t); [done|done|apply Hok|done]|..]; by rewrite (ik_dinode _ _ _ _ Hkn).
  - intros n de Hn%Hl Hdn. specialize (Hdir n Hn Hdn). rewrite (kept_entries sb t t' n); [|by apply Hk|apply Hok|by apply live_alloc].
    intros Hde Hnz. apply Hl. by apply (He n de).
Qed.

(** ** Between transactions *)

#[export] Instance same_fs_equivalence : Equivalence same_fs.
Proof.
  split.
  - intros t. by split.
  - intros t t' [E1 E2 E3]. split; [done|done|]. rewrite E1, E2. intros b Hb Hh. symmetry. by apply E3.
  - intros t1 t2 t3 [E1 E2 E3] [F1 F2 F3]. split; [congruence|congruence|]. intros b Hb Hh. rewrite F3, E3; [done|done|done|by rewrite E1|by rewrite E2].
Qed.

Lemma fresh_same cap v lo hi t : fresh cap v lo hi t -> same_fs (rest_txn v lo hi) t.
Proof. intros [Hv _ _ _ ? ?]. split; [done|done|]. intros b _ _. apply Hv. Qed.

Section transfer.
Context (sb : superblock) (t t' : txn).
Context (Hs : same_fs t t') (Hok : fs_core sb t).

Lemma transfer_used b : 0 <= b < sb_size sb -> used sb t' b = used sb t b.
Proof.
  intros Hb. destruct (fk_bound _ _ Hok). destruct (bblock_range sb t b (fk_geom _ _ Hok)) as [_ ?]; try done.
  pose proof (meta_bounds _ _ (fk_geom _ _ Hok)). unfold used. rewrite (sf_view _ _ Hs); [done|right; lia|lia].
Qed.

Lemma transfer_geom : fs_geom sb t'.
Proof.
  destruct Hs as [E1 E2 E3]. pose proof (fk_geom _ _ Hok) as [H1 H2 H3 H4 H5 H6 H7].
  split; rewrite ?E1, ?E2; try done.
  - rewrite E3; [done|by left|]. destruct (fk_bound _ _ Hok). pose proof (meta_bounds _ _ (fk_geom _ _ Hok)). lia.
  - intros b Hb. rewrite transfer_used by lia. by apply H7.
Qed.

Lemma transfer_inode n : 0 <= n < sb_ninodes sb -> disk_inode sb t' n = disk_inode sb t n.
Proof.
  intros Hn. destruct (fk_bound _ _ Hok). destruct (iblock_range sb t n (fk_geom _ _ Hok)) as [_ ?]; try done.
  pose proof (ge_ino _ _ (fk_geom _ _ Hok)). pose proof (meta_bounds _ _ (fk_geom _ _ Hok)).
  unfold disk_inode. rewrite (sf_view _ _ Hs); [done|right; lia|lia].
Qed.

Lemma transfer_alloc n : alloc_inode sb t' n <-> alloc_inode sb t n.
Proof. unfold alloc_inode, type_of. split; intros [Hn H]; (split; [done|]); by rewrite transfer_inode in * by lia. Qed.

Lemma transfer_kept n : alloc_inode sb t n -> inode_kept sb t t' n.
Proof.
  intros Hn. split; [apply transfer_inode; destruct Hn; lia|]. intros k Ho.
  destruct (fk_inode _ _ Hok n Hn) as [_ Hf _ _]. destruct (own_data _ _ _ _ Hf Ho). pose proof (meta_bounds _ _ (fk_geom _ _ Hok)).
  pose proof (ge_size _ _ (fk_geom _ _ Hok)). apply (sf_view _ _ Hs); [right; lia|lia].
Qed.

Lemma transfer_used_mono k : 0 <= k < sb_size sb -> used sb t k = true -> used sb t' k = true.
Proof. intros Hk. by rewrite transfer_used. Qed.

Lemma transfer_own n k : alloc_inode sb t n -> own t' (addrs_of sb t' n) k <-> own t (addrs_of sb t n) k.
Proof.
  intros Hn. destruct (transfer_kept n Hn) as [E Ha]. unfold addrs_of in *. rewrite E. by apply agree_own.
Qed.

Lemma transfer_core : fs_core sb t'.
Proof.
  split.
  - apply transfer_geom.
  - rewrite (sf_lo _ _ Hs), (sf_hi _ _ Hs). apply (fk_bound _ _ Hok).
  - intros n Hn%transfer_alloc. by apply (kept_ok sb t); [apply transfer_kept|apply transfer_used_mono|..].
  - intros m n k Hm%transfer_alloc Hn%transfer_alloc Hne. rewrite !transfer_own by done. by apply (fk_disjoint _ _ Hok).
Qed.

Lemma transfer_content n : alloc_inode sb t n -> content sb t' n = content sb t n.
Proof. intros Hn. apply (kept_content sb t t' n); [by apply transfer_kept|done|done]. Qed.

Lemma transfer_free : free_set sb t' = free_set sb t.
Proof.
  apply set_eq. intros k. rewrite !free_set_elem. split; intros [Hk H]; (split; [done|]); by rewrite transfer_used in *.
Qed.

Lemma transfer_cache ic r L : cache sb t ic r L -> cache sb t' ic r L.
Proof.
  intros [H1 H2 H3 H4 H5 H6 H7]. split; try done. intros p i Hi Hp Hv. destruct (H4 p i Hi Hp) as [_ ?].
  rewrite transfer_inode by lia. by apply (H5 p).
Qed.
End transfer.

Lemma transfer_ok sb t t' : same_fs t t' -> fs_ok sb t -> fs_ok sb t'.
Proof.
  intros Hs Hok. split; [apply (transfer_core sb t); [done|apply Hok]|].
  apply (tree_kept sb t); [done|intros k; apply transfer_used_mono; [done|apply Hok]| |].
  - intros n Hn. unfold type_of. by rewrite (transfer_inode sb t t') by (done || lia || apply Hok).
  - intros n Hl _. apply transfer_kept; [done|apply Hok|by apply live_alloc].
Qed.

(** ** Writing a file *)

Lemma get_dinode_ok b n : block_ok b -> dinode_ok (get_dinode b n).
Proof.
  intros [Hl Hb]. pose proof (dip_off_le n) as Hd. set (s := slice b (dip_off n) 64).
  assert (Hs : length s = 64%nat) by (apply slice_length; lia). assert (Hsb : Forall byte_ok s) by by apply slice_bytes.
  assert (H16 : forall x, short_ok (s16 x)).
  { intros x. unfold short_ok, s16, signed. pose proof (Z.mod_pos_bound x (2 ^ 16) ltac:(lia)).
    destruct (Z.ltb_spec (x mod 2 ^ 16) (2 ^ (16 - 1))); lia. }
  unfold get_dinode, dinode_ok, dinode_decode. fold s. cbn [di_type di_major di_minor di_nlink di_size di_addrs].
  split_and!; auto.
  - apply get32_range; [done|lia].
  - apply Forall_fmap, Forall_forall. intros j [_ Hj]%elem_of_seq. apply get32_range; [by apply Forall_drop|rewrite length_drop; lia].
Qed.

Lemma loaded_inode sb t i n : dinode_of i = disk_inode sb t n -> i_dev i = ROOTDEV ->
  inode_ok sb t (as_inode n (disk_inode sb t n)) -> inode_ok sb t i.
Proof. intros E Hd [H1 H2 H3 H4]. rewrite <- E in *. by split. Qed.

Section write.
Context (sb : superblock) (t t' : txn) (i i' : inode) (off : Z) (src : list Z).
Context (Hok : fs_core sb t) (Hn : alloc_inode sb t (i_inum i)) (Hdev : i_dev i = ROOTDEV).
Context (Hdi : dinode_of i = disk_inode sb t (i_inum i)).
Context (Hoff : 0 <= off <= i_size i) (W : writei_post sb t i off src t' i').

Lemma write_inode_ok : inode_ok sb t i.
Proof. apply (loaded_inode sb t i (i_inum i)); [done|done|]. by apply (fk_inode _ _ Hok). Qed.

Lemma write_addrs : addrs_of sb t (i_inum i) = i_addrs i.
Proof. unfold addrs_of. by rewrite <- Hdi. Qed.

Lemma write_dinode : disk_inode sb t' (i_inum i) = dinode_of i'.
Proof. by apply (wp_disk _ _ _ _ _ _ _ W). Qed.

Lemma write_static : di_type (dinode_of i') = di_type (dinode_of i) /\ di_nlink (dinode_of i') = di_nlink (dinode_of i) /\ i_inum i' = i_inum i.
Proof. destruct (wp_inode _ _ _ _ _ _ _ W) as [addrs ->]. done. Qed.

Lemma write_meta n : 0 < n < sb_ninodes sb ->
  type_of sb t' n = type_of sb t n /\ di_nlink (disk_inode sb t' n) = di_nlink (disk_inode sb t n).
Proof.
  intros Hr. unfold type_of. destruct (decide (n = i_inum i)) as [->|Hne].
  - rewrite write_dinode, <- Hdi. destruct write_static as (? & ? & _). done.
  - rewrite (wp_others _ _ _ _ _ _ _ W) by (lia || done). done.
Qed.

Lemma write_alloc n : alloc_inode sb t' n <-> alloc_inode sb t n.
Proof. unfold alloc_inode. split; intros [Hr H]; (split; [done|]); destruct (write_meta n Hr) as [E _]; congruence. Qed.

(** The other files stay. *)
Lemma write_kept n : alloc_inode sb t n -> n <> i_inum i -> inode_kept sb t t' n.
Proof.
  intros Ha Hne. split; [apply (wp_others _ _ _ _ _ _ _ W); [destruct Ha; lia|done]|]. intros k Ho.
  destruct (fk_inode _ _ Hok n Ha) as [_ Hf _ _]. pose proof (own_data _ _ _ _ Hf Ho) as Hd.
  pose proof (fk_geom _ _ Hok) as Hg. destruct (fk_bound _ _ Hok) as [Hlo Hhi].
  apply (wp_frame _ _ _ _ _ _ _ W).
  - by apply (data_pos sb t).
  - destruct Ho as [Hk [->|(bn & Hbn & <-)]]; [by apply (fo_ind _ _ _ Hf)|by apply (fo_block _ _ _ Hf)].
  - by apply data_not_bmap.
  - rewrite <- write_addrs. intros Ho'. by apply (fk_disjoint _ _ Hok n (i_inum i) k).
  - destruct (iblock_range sb t (i_inum i) Hg) as [_ ?]; [done|done|destruct Hn; lia|]. pose proof (meta_bounds _ _ Hg). destruct Hd. lia.
Qed.

Lemma write_own n k : alloc_inode sb t n -> own t' (addrs_of sb t' n) k ->
  own t (addrs_of sb t n) k \/ (n = i_inum i /\ used sb t k = false).
Proof.
  intros Ha. destruct (decide (n = i_inum i)) as [->|Hne].
  - rewrite write_addrs. unfold addrs_of. rewrite write_dinode. intros Ho. destruct (wp_new _ _ _ _ _ _ _ W k Ho); auto.
  - destruct (write_kept n Ha Hne) as [E Hag]. unfold addrs_of in *. rewrite E. intros Ho. left. by apply (agree_own t t').
Qed.

Lemma write_core : fs_core sb t'.
Proof.
  pose proof (wp_same _ _ _ _ _ _ _ W) as (_ & _ & _ & Elo & Ehi). pose proof (wp_used _ _ _ _ _ _ _ W) as Hu.
  assert (Hused : forall n k, alloc_inode sb t n -> own t (addrs_of sb t n) k -> used sb t k <> false).
  { intros n k Ha Ho. destruct (fk_inode _ _ Hok n Ha) as [_ Hf _ _].
    destruct Ho as [Hk [->|(bn & Hbn & <-)]]; [destruct (fo_ind _ _ _ Hf Hk) as [_ E]|destruct (fo_block _ _ _ Hf bn Hbn Hk) as [_ E]]; exact (eq_true_false_abs _ E). }
  split.
  - apply (wp_geom _ _ _ _ _ _ _ W).
  - rewrite Elo, Ehi. apply (fk_bound _ _ Hok).
  - intros n Ha%write_alloc. destruct (decide (n = i_inum i)) as [->|Hne].
    + rewrite write_dinode. destruct (wp_ok _ _ _ _ _ _ _ W). by split.
    + apply (kept_ok sb t); [by apply write_kept|done|done|done].
  - intros m n k Hm%write_alloc Hn'%write_alloc Hne Hom Hon.
    destruct (write_own m k Hm Hom) as [Om|[-> Um]], (write_own n k Hn' Hon) as [On|[-> Un]]; try done.
    + by apply (fk_disjoint _ _ Hok m n k).
    + by apply (Hused m k).
    + by apply (Hused n k).
Qed.

Lemma write_ok : fs_ok sb t -> type_of sb t (i_inum i) <> T_DIR -> fs_ok sb t'.
Proof.
  intros Hfs Hfile. split; [apply write_core|]. apply (tree_kept sb t); [done|apply (wp_used _ _ _ _ _ _ _ W)|apply write_meta|].
  intros n Hl Hd. apply write_kept; [by apply live_alloc|]. intros ->. by apply Hfile.
Qed.

Lemma write_content : content sb t' (i_inum i) = splice (content sb t (i_inum i)) (Z.to_nat off) src.
Proof.
  unfold content, addrs_of, size_of. rewrite write_dinode, <- Hdi.
  apply (writei_post_bytes sb t i off src t' i'); [done|by apply write_inode_ok|done].
Qed.
End write.
