(* ===== verification/FileIO.v ===== *)
(** Reading and writing an open file ([fileread], [filewrite] of [file.c]) on a
    sound file system: the bytes of the file change as one splice, whatever the
    number of transactions, and no other file changes. *)

From S2P Require Import Prelude CString Layout Sleeplock BlockLayer Fs FsBlock FsFile FsRW FsDir FsTree TxnLayer File Pipe SysFile FsRest.

(** ** The effect of a write on the file system *)

Record file_written (sb : superblock) (t : txn) (n off : Z) (src : list Z) (t' : txn) : Prop := {
  fw_ok : fs_ok sb t';
  fw_content : content sb t' n = splice (content sb t n) (Z.to_nat off) src;
  fw_meta : forall m, 0 < m < sb_ninodes sb ->
    type_of sb t' m = type_of sb t m /\ di_nlink (disk_inode sb t' m) = di_nlink (disk_inode sb t m);
  fw_others : forall m, alloc_inode sb t m -> m <> n ->
    disk_inode sb t' m = disk_inode sb t m /\ content sb t' m = content sb t m
}.

Lemma written_alloc sb t n off src t' m : file_written sb t n off src t' -> alloc_inode sb t' m <-> alloc_inode sb t m.
Proof.
  intros [_ _ Hm _]. unfold alloc_inode. split; intros [Hr H]; (split; [done|]); destruct (Hm m Hr) as [E _]; congruence.
Qed.

Lemma written_trans sb t n off s1 t1 s2 t2 :
  0 <= off <= size_of sb t n -> fs_ok sb t -> alloc_inode sb t n ->
  file_written sb t n off s1 t1 -> file_written sb t1 n (off + Z.of_nat (length s1)) s2 t2 ->
  file_written sb t n off (s1 ++ s2) t2.
Proof.
  intros Hoff Hok Ha W1 W2. pose proof (content_length sb t n Hok Ha) as Hl. split.
  - apply W2.
  - rewrite (fw_content _ _ _ _ _ _ W2), (fw_content _ _ _ _ _ _ W1).
    rewrite Z2Nat.inj_add, Nat2Z.id by lia. apply splice_app. lia.
  - intros m Hm. destruct (fw_meta _ _ _ _ _ _ W1 m Hm), (fw_meta _ _ _ _ _ _ W2 m Hm). split; congruence.
  - intros m Hm Hne. destruct (fw_others _ _ _ _ _ _ W1 m Hm Hne) as [E1 E2].
    destruct (fw_others _ _ _ _ _ _ W2 m) as [F1 F2]; [by apply (written_alloc _ _ _ _ _ _ _ W1)|done|]. split; congruence.
Qed.

Lemma file_written_size sb t n off src t' : fs_ok sb t -> alloc_inode sb t n -> 0 <= off <= size_of sb t n ->
  file_written sb t n off src t' -> size_of sb t' n = Z.max (size_of sb t n) (off + Z.of_nat (length src)) .
Proof.
  intros Hok Ha Hoff W. pose proof (written_alloc _ _ _ _ _ _ n W) as Hal.
  pose proof (content_length sb t n Hok Ha) as E. rewrite <- (content_length sb t' n) by (apply (fw_ok _ _ _ _ _ _ W) || by apply Hal).
  rewrite (fw_content _ _ _ _ _ _ W). unfold splice.
  rewrite !length_app, length_take, length_drop. lia.
Qed.

(** Nothing written: the file systems have the same blocks. *)
Lemma file_written_same sb t t' n off : fs_ok sb t -> alloc_inode sb t n -> same_fs t t' -> file_written sb t n off [] t'.
Proof.
  intros Hok Ha Hs. pose proof (fk_core _ _ Hok) as Hco. split.
  - by apply (transfer_ok sb t).
  - rewrite splice_nil. by apply transfer_content.
  - intros m Hm. unfold type_of. rewrite (transfer_inode sb t t') by (done || lia). done.
  - intros m Hm _. split; [apply transfer_inode; destruct Hm; (done || lia)|by apply transfer_content].
Qed.

(** A transaction that writes, from rest to rest. *)
Lemma written_txn sb t t1 t2 t3 n off src :
  fs_ok sb t -> alloc_inode sb t n -> 0 <= off <= size_of sb t n ->
  same_fs t t1 -> file_written sb t1 n off src t2 -> same_fs t2 t3 -> file_written sb t n off src t3.
Proof.
  intros Hok Ha Hoff S1 W S2. pose proof (fk_core _ _ Hok) as Hco. pose proof (file_written_same sb t t1 n off Hok Ha S1) as W1.
  assert (Ha2 : alloc_inode sb t2 n) by (by apply (written_alloc _ _ _ _ _ _ _ W), (written_alloc _ _ _ _ _ _ _ W1)).
  replace src with ([] ++ src ++ []) by (by rewrite app_nil_r).
  apply (written_trans sb t n off [] t1); try done. rewrite Z.add_0_r.
  assert (size_of sb t1 n = size_of sb t n) as E by (unfold size_of; rewrite (transfer_inode sb t t1); destruct Ha; (done || lia)).
  apply (written_trans sb t1 n off src t2); try done; [by rewrite E|apply W1|by apply (written_alloc _ _ _ _ _ _ _ W1)|].
  apply (file_written_same sb t2 t3); [apply W|done|done].
Qed.

(** ** The inode cache across a write *)

Lemma cache_write sb t ic r L p i t' i' :
  cache sb t ic r L -> ic !! p = Some i -> 0 < r p ->
  i_inum i' = i_inum i -> i_dev i' = i_dev i -> i_ref i' = i_ref i -> i_lock i' = i_lock i ->
  disk_inode sb t' (i_inum i) = dinode_of i' ->
  (forall n, 0 <= n < sb_ninodes sb -> n <> i_inum i -> disk_inode sb t' n = disk_inode sb t n) ->
  cache sb t' (<[p := i']> ic) r L.
Proof.
  intros [Hr Hp Hu Hd Hv Hl Hh] Hi Hpos En Ed Er El Hdk Hoth. assert (Hlt := lookup_lt_Some _ _ _ Hi).
  assert (Hcase : forall q j, <[p := i']> ic !! q = Some j -> exists j0, ic !! q = Some j0 /\ i_inum j = i_inum j0 /\ i_dev j = i_dev j0
    /\ i_ref j = i_ref j0 /\ i_lock j = i_lock j0 /\ ((q = p /\ j = i') \/ (q <> p /\ j = j0))).
  { intros q j Hq. destruct (decide (q = p)) as [->|Hne].
    - rewrite list_lookup_insert_eq in Hq by done. injection Hq as <-. exists i. naive_solver.
    - rewrite list_lookup_insert_ne in Hq by done. exists j. naive_solver. }
  split; [| done | | | | |done].
  - intros q j (j0 & Hj & _ & _ & -> & _)%Hcase. by apply Hr.
  - intros q1 q2 j1 j2 (a & Ha & E1 & _)%Hcase (c & Hc & E2 & _)%Hcase P1 P2 E. apply (Hu q1 q2 a c); try done. congruence.
  - intros q j (j0 & Hj & -> & -> & _)%Hcase. by apply Hd.
  - intros q j (j0 & Hj & E & _ & _ & _ & [[-> ->]|[Hne ->]])%Hcase Hq Hva; [by rewrite En|].
    rewrite Hoth; [by apply (Hv q)|destruct (Hd q j0 Hj Hq); lia|]. intros E'. apply Hne. by apply (Hu q p j0 i).
  - intros q j (j0 & Hj & _ & _ & _ & -> & _)%Hcase. by apply Hl.
Qed.

Lemma chunk_room sb t addrs off n :
  fs_geom sb t -> sb_size sb < BPB -> t_logged t = ∅ -> t_cap t = Z.to_nat MAXOPBLOCKS -> 0 <= off -> n <= write_max ->
  (ind_need addrs + 4 <= size (free_set sb t))%nat -> (nblocks off n <= 4)%nat /\ write_room sb t addrs off n.
Proof.
  intros Hg Hsz Hl Hc Hoff Hn Hfree.
  assert (Hnb : (nblocks off n <= 4)%nat).
  { unfold nblocks. destruct (Z.leb_spec n 0); [lia|]. change write_max with 1536 in Hn. change BSIZE with 512.
    assert ((off + n - 1) / 512 <= off / 512 + 3); [|lia].
    pose proof (Z.div_mod off 512 ltac:(lia)). pose proof (Z.mod_pos_bound off 512 ltac:(lia)).
    apply Z.lt_succ_r, Z.div_lt_upper_bound; lia. }
  split; [done|]. unfold write_room, lset. rewrite Hl, Hc, union_empty_r_L. change (Z.to_nat MAXOPBLOCKS) with 10%nat.
  assert (size (bmap_set sb) = 1%nat) as ->.
  { unfold bmap_set, nbitmap. pose proof (ge_size _ _ Hg). rewrite Z.div_small by lia. change (0 + 1) with 1. unfold seqZ.
    change (Z.to_nat 1) with 1%nat. cbn [seq fmap list_fmap list_to_set]. rewrite union_empty_r_L. apply size_singleton. }
  assert (ind_cost t addrs <= 1)%nat by (unfold ind_cost; destruct (decide _); lia). lia.
Qed.

(** The effect of a transaction with one [writei]. *)
Lemma chunk_post sb t t1 t3 t5 i2 i3 off src :
  let n := i_inum i2 in
  fs_ok sb t -> same_fs t t1 -> alloc_inode sb t n -> i_dev i2 = ROOTDEV -> dinode_of i2 = disk_inode sb t1 n ->
  type_of sb t n <> T_DIR -> 0 <= off <= size_of sb t n -> writei_post sb t1 i2 off src t3 i3 ->
  (nblocks off (Z.of_nat (length src)) <= 4)%nat -> same_fs t3 t5 ->
  file_written sb t n off src t5 /\
  (size (free_set sb t) + ind_need (addrs_of sb t5 n) <= size (free_set sb t5) + ind_need (addrs_of sb t n) + 4)%nat.
Proof.
  intros n Hok S1 Ha Hdev Ed Hty Hoff W Hnb S5. pose proof (fk_core _ _ Hok) as Hco.
  pose proof (transfer_ok sb t t1 S1 Hok) as Ok1. pose proof (fk_core _ _ Ok1) as Co1.
  pose proof (transfer_inode sb t t1 S1 Hok n ltac:(destruct Ha; lia)) as E1.
  assert (Ha1 : alloc_inode sb t1 n) by by apply (transfer_alloc sb t).
  assert (Hty1 : type_of sb t1 n <> T_DIR) by (unfold type_of in *; by rewrite E1).
  assert (Esz : i_size i2 = size_of sb t n) by (unfold size_of; rewrite <- E1, <- Ed; done).
  pose proof (write_ok sb t1 t3 i2 i3 off src Ok1 Ha1 Ed W Ok1 Hty1) as Ok3. pose proof (fk_core _ _ Ok3) as Co3.
  pose proof (write_dinode sb t1 t3 i2 i3 off src Ed W) as E3. fold n in E3.
  assert (Hw : file_written sb t1 n off src t3).
  { split; [done| | |].
    - apply (write_content sb t1 t3 i2 i3 off src); try done. lia.
    - apply (write_meta sb t1 t3 i2 i3 off src); done.
    - intros m Hm Hne. pose proof (write_kept sb t1 t3 i2 i3 off src Ok1 Ha1 Ed W m Hm Hne) as Hk.
      split; [apply Hk|by apply (kept_content sb t1 t3)]. }
  split; [by apply (written_txn sb t t1 t3 t5)|].
  assert (E5 : addrs_of sb t5 n = i_addrs i3) by (unfold addrs_of; rewrite (transfer_inode sb t3 t5), E3; destruct Ha; (done || lia)).
  assert (E0 : addrs_of sb t n = i_addrs i2) by (unfold addrs_of; rewrite <- E1, <- Ed; done).
  rewrite E5, E0, (transfer_free sb t3 t5), <- (transfer_free sb t t1) by done. pose proof (wp_free _ _ _ _ _ _ _ W). lia.
Qed.

Section file_io.
Context {S : Type} `{!BlockOps S} `{!BlockLayer S} `{!DevOps S} `{!TxnOps S} `{!TxnLayer S}.
Implicit Types (b : S) (t : txn) (sb : superblock) (ic : list inode) (fl : files) (pp : list pipe).

Lemma wp_on_fs {A : Type} (m : M (fsst S) A) x fl pp (Q : A -> osfs S -> Prop) :
  wp m x (fun a y => Q a (mk_osfs y fl pp)) -> wp (on_fs m) (mk_osfs x fl pp) Q.
Proof. intros H. by apply wp_zoom. Qed.

Lemma wp_on_files {A : Type} (m : M files A) x fl pp (Q : A -> osfs S -> Prop) :
  wp m fl (fun a y => Q a (mk_osfs x y pp)) -> wp (on_files m) (mk_osfs x fl pp) Q.
Proof. intros H. by apply wp_zoom. Qed.

Lemma wp_o_begin_op b v lo hi sb ic pid cwd fl pp (Q : () -> osfs S -> Prop) :
  tx_rest b v lo hi ->
  (forall b' t, bl_rep b' t -> fresh (Z.to_nat MAXOPBLOCKS) v lo hi t -> Q () (mk_osfs (mk_fsst b' sb ic pid cwd) fl pp)) ->
  wp o_begin_op (mk_osfs (mk_fsst b sb ic pid cwd) fl pp) Q.
Proof.
  intros Hr HQ. apply wp_on_fs, wp_zoom. eapply wp_conseq; [by apply tx_begin_spec|].
  intros [] b' (t & Ht & Hf). by apply (HQ b' t).
Qed.

Lemma wp_o_end_op b t sb ic pid cwd fl pp (Q : () -> osfs S -> Prop) :
  bl_rep b t -> t_held t = ∅ -> (0 < t_cap t)%nat ->
  (forall b' v, tx_rest b' v (t_lo t) (t_hi t) -> same_fs t (rest_txn v (t_lo t) (t_hi t)) ->
     Q () (mk_osfs (mk_fsst b' sb ic pid cwd) fl pp)) ->
  wp o_end_op (mk_osfs (mk_fsst b sb ic pid cwd) fl pp) Q.
Proof.
  intros Hr Hh Hc HQ. apply wp_on_fs, wp_zoom. eapply wp_conseq; [by apply (tx_end_spec b t)|].
  intros [] b' (v & Hv & E). apply (HQ b' v); [done|]. split; [done|done|]. intros k Hk _. by apply E.
Qed.

Lemma wp_advance x fl pp f y r (Q : () -> osfs S -> Prop) :
  ft fl !! f = Some y ->
  Q () (mk_osfs x (fl <| ft := <[f := y <| f_off := u32 (f_off y + r) |>]> (ft fl) |>) pp) ->
  wp (advance f r) (mk_osfs x fl pp) Q.
Proof.
  intros Hf HQ. unfold advance. apply wp_bind, wp_on_files. unfold get_file. wp_step.
  rewrite (list_lookup_total_correct _ _ _ Hf). apply wp_on_files. unfold set_file. by wp_step.
Qed.

(** ** Locking the inode of an open file *)

(** [i], locked and loaded in the transaction [t1], is the inode [n] of the file system [t]. *)
Record loaded sb t t1 (n : Z) (i : inode) : Prop := {
  ld_inum : i_inum i = n;
  ld_dev : i_dev i = ROOTDEV;
  ld_range : 0 < n < sb_ninodes sb;
  ld_fs : fs_ok sb t1;
  ld_alloc : alloc_inode sb t1 n;
  ld_disk : disk_inode sb t1 n = disk_inode sb t n;
  ld_dinode : dinode_of i = disk_inode sb t1 n;
  ld_size : i_size i = size_of sb t n;
  ld_addrs : i_addrs i = addrs_of sb t n;
  ld_type : i_type i = type_of sb t n;
  ld_ok : inode_ok sb t1 i
}.

Lemma wp_ilock_file b t t1 sb ic r pid cwd ip i (Q : () -> fsst S -> Prop) :
  same_fs t t1 -> fs_ok sb t -> cache sb t ic r None -> ic !! ip = Some i -> 0 < r ip -> alloc_inode sb t (i_inum i) ->
  bl_rep b t1 -> t_held t1 = ∅ ->
  (forall b' ic' i', bl_rep b' t1 -> cache sb t1 ic' r (Some ip) -> keeps r ic ic' -> ic' !! ip = Some i' ->
     loaded sb t t1 (i_inum i) i' -> Q () (mk_fsst b' sb ic' pid cwd)) ->
  wp (ilock ip) (mk_fsst b sb ic pid cwd) Q.
Proof.
  intros S1 Hok Hc Hi Hr Ha R1 Hh1 HQ. pose proof (fk_core _ _ Hok) as Hco.
  pose proof (transfer_ok sb t t1 S1 Hok) as Ok1. pose proof (fk_core _ _ Ok1) as Co1.
  pose proof (transfer_inode sb t t1 S1 Hok (i_inum i) ltac:(destruct Ha; lia)) as E1.
  eapply (wp_ilock b t1 sb ic r); [done|done|apply Ok1|by apply (transfer_cache sb t)|done|done|rewrite E1; apply Ha|].
  intros b2 ic2 i2 R2 C2 K2 I2 En _ Ed. pose proof (ca_dev _ _ _ _ _ C2 ip i2 I2 Hr) as [Hdev Hn2].
  assert (Ha1 : alloc_inode sb t1 (i_inum i)) by by apply (transfer_alloc sb t).
  apply (HQ b2 ic2 i2); try done. split; try done; try (unfold size_of, addrs_of, type_of; by rewrite <- E1, <- Ed).
  - by rewrite <- En.
  - by apply (loaded_inode sb t1 i2 (i_inum i)), (fk_inode _ _ Ok1).
Qed.

(** ** One transaction of [filewrite] *)

(** The file system at rest, with the regular file [n] in slot [ip] of the inode cache. *)
Record open_on b (v : Z -> list Z) (lo hi : Z) sb ic (r : nat -> Z) (ip : nat) (n : Z) : Prop := {
  oo_rest : tx_rest b v lo hi;
  oo_ok : fs_ok sb (rest_txn v lo hi);
  oo_cache : cache sb (rest_txn v lo hi) ic r None;
  oo_slot : exists i, ic !! ip = Some i /\ i_inum i = n;
  oo_ref : 0 < r ip;
  oo_alloc : alloc_inode sb (rest_txn v lo hi) n;
  oo_type : type_of sb (rest_txn v lo hi) n = T_FILE
}.

Definition moved fl (f : nat) (x : file) (k : Z) : files := fl <| ft := <[f := x <| f_off := f_off x + k |>]> (ft fl) |>.

Lemma wp_filewrite_chunk b v lo hi sb ic r pid cwd fl pp f x ip n src (Q : Z -> osfs S -> Prop) :
  let t := rest_txn v lo hi in let len := Z.of_nat (length src) in
  open_on b v lo hi sb ic r ip n -> sb_size sb < BPB -> ft fl !! f = Some x ->
  Forall byte_ok src -> 0 < len <= write_max -> 0 <= f_off x <= size_of sb t n -> f_off x + len <= MAXFILE * BSIZE ->
  (ind_need (addrs_of sb t n) + 4 <= size (free_set sb t))%nat ->
  (forall b' v' ic', let t' := rest_txn v' lo hi in open_on b' v' lo hi sb ic' r ip n -> keeps r ic ic' ->
     file_written sb t n (f_off x) src t' ->
     (size (free_set sb t) + ind_need (addrs_of sb t' n) <= size (free_set sb t') + ind_need (addrs_of sb t n) + 4)%nat ->
     Q len (mk_osfs (mk_fsst b' sb ic' pid cwd) (moved fl f x len) pp)) ->
  wp (filewrite_chunk f ip src len) (mk_osfs (mk_fsst b sb ic pid cwd) fl pp) Q.
Proof.
  intros t len [Hrest Hok Hc (i & Hi & <-) Hr Ha Hty] Hbm Hf Hby Hlen Hoff Hmax Hfree HQ. fold t in Hok, Hc, Ha, Hty.
  pose proof (fk_core _ _ Hok) as Hco.
  unfold filewrite_chunk. wp_step. eapply wp_o_begin_op; [done|]. intros b1 t1 R1 F1.
  pose proof (fresh_same _ _ _ _ _ F1) as S1. fold t in S1. assert (Hh1 : t_held t1 = ∅) by apply (fr_held _ _ _ _ _ F1).
  wp_step. apply wp_on_fs. eapply (wp_ilock_file b1 t t1 sb ic r); try done.
  intros b2 ic2 i2 R2 C2 K2 I2 [En Hdev Hn2 Ok1 Ha1 E1 Ed Esz Ead Ety Hio]. wp_step. apply wp_on_files. unfold get_file. do 3 wp_step.
  rewrite (list_lookup_total_correct _ _ _ Hf). wp_step. apply wp_on_fs. rewrite <- En in *. rewrite Hty in Ety.
  pose proof (bl_bound _ _ R2) as [Hlo Hhi]. destruct (iblock_range sb t1 (i_inum i2) (fk_geom _ _ Ok1)) as [_ Hib]; [lia|lia|lia|].
  pose proof (meta_bounds _ _ (fk_geom _ _ Ok1)). pose proof (ge_ino _ _ (fk_geom _ _ Ok1)).
  destruct (chunk_room sb t1 (i_addrs i2) (f_off x) len) as [Hnb Hroom];
    [apply Ok1|done|apply F1|apply F1|lia|lia|by rewrite Ead, (transfer_free sb t t1)|].
  eapply (wp_writei b2 t1 sb ic2 pid cwd ip i2 src (f_off x) len); try done; try lia.
  - apply Ok1.
  - by rewrite Ety.
  - rewrite Ed. apply get_dinode_ok, (bl_ok _ _ _ R2). lia.
  - intros b3 t3 i3 W R3. rewrite Z.gtb_ltb, (proj2 (Z.ltb_lt 0 len)) by lia. unfold when. wp_step. eapply wp_advance; [done|].
    rewrite u32_small by (change MAXFILE with 140 in *; change BSIZE with 512 in *; lia). fold (moved fl f x len).
    assert (Hdir : type_of sb t1 (i_inum i2) <> T_DIR) by (unfold type_of in *; by rewrite E1, Hty).
    assert (Hoff2 : 0 <= f_off x <= i_size i2) by lia.
    destruct (write_static sb t1 t3 i2 i3 (f_off x) src W) as (_ & _ & En3).
    assert (C3 : cache sb t3 (<[ip := i3]> ic2) r (Some ip)).
    { destruct (wp_inode _ _ _ _ _ _ _ W) as [addrs Ei3].
      apply (cache_write sb t1 ic2 r (Some ip) ip i2); try done; try (by rewrite Ei3); [by apply (wp_disk _ _ _ _ _ _ _ W)|apply (wp_others _ _ _ _ _ _ _ W)]. }
    pose proof (wp_same _ _ _ _ _ _ _ W) as (Eh & Ec & _ & Elo & Ehi).
    wp_step. apply wp_on_fs. eapply (wp_iunlock_cache b3 t3); [done|by apply list_lookup_insert_eq, (lookup_lt_Some _ _ _ I2)|].
    intros ic4 i4 C4 K4 I4 E4 _ _. wp_step. eapply (wp_o_end_op b3 t3); [done|by rewrite Eh|rewrite Ec, (fr_cap _ _ _ _ _ F1); change (Z.to_nat MAXOPBLOCKS) with 10%nat; lia|].
    intros b5 v5 T5 S5. wp_step.
    rewrite Elo, Ehi, (fr_lo _ _ _ _ _ F1), (fr_hi _ _ _ _ _ F1) in T5, S5.
    destruct (chunk_post sb t t1 t3 (rest_txn v5 lo hi) i2 i3 (f_off x) src) as [Hw Hfr]; try done; [by rewrite Hty|].
    pose proof (write_core sb t1 t3 i2 i3 (f_off x) src Ok1 Ha1 Ed W) as Ok3.
    apply (HQ b5 v5 ic4); [split|..]; try done.
    + apply Hw.
    + by apply (transfer_cache sb t3).
    + exists i4. split; [done|congruence].
    + by apply (written_alloc _ _ _ _ _ _ _ Hw).
    + rewrite <- Hty. apply (fw_meta _ _ _ _ _ _ Hw). lia.
    + apply (keeps_trans _ _ ic2); [done|]. apply (keeps_trans _ _ (<[ip := i3]> ic2)); [by eapply keeps_insert|done].
Qed.

(** ** The loop *)

Lemma moved_0 fl f x : ft fl !! f = Some x -> moved fl f x 0 = fl.
Proof.
  intros Hf. transitivity (mk_files (<[f := x]> (ft fl)) (ofile fl)).
  - unfold moved. rewrite Z.add_0_r. by destruct x.
  - rewrite list_insert_id by done. by destruct fl.
Qed.

Lemma moved_lookup fl f x k : ft fl !! f = Some x -> ft (moved fl f x k) !! f = Some (x <| f_off := f_off x + k |>).
Proof. intros Hf. unfold moved. simpl. apply list_lookup_insert_eq. by eapply lookup_lt_Some. Qed.

Lemma moved_moved fl f x j k : moved (moved fl f x j) f (x <| f_off := f_off x + j |>) k = moved fl f x (j + k).
Proof.
  unfold moved. change (mk_files (<[f := x <| f_off := f_off x + j + k |>]> (<[f := x <| f_off := f_off x + j |>]> (ft fl))) (ofile fl) =
    mk_files (<[f := x <| f_off := f_off x + (j + k) |>]> (ft fl)) (ofile fl)).
  by rewrite list_insert_insert_eq, Z.add_assoc.
Qed.

(** Transactions for [k] bytes. *)
Definition chunks (k : Z) : nat := Z.to_nat ((k + (write_max - 1)) / write_max).

Lemma chunks_step k : 0 < k -> chunks k = Datatypes.S (chunks (k - Z.min k write_max)).
Proof.
  intros Hk. unfold chunks. change write_max with 1536. destruct (decide (k <= 1536)).
  - rewrite Z.min_l, Z.sub_diag by lia. change ((0 + (1536 - 1)) / 1536) with 0.
    replace ((k + (1536 - 1)) / 1536) with 1; [done|]. apply Z.div_unique with (k - 1); lia.
  - rewrite Z.min_r by lia. replace (k + (1536 - 1)) with (k - 1536 + (1536 - 1) + 1 * 1536) by lia.
    rewrite Z.div_add by lia. assert (0 <= (k - 1536 + (1536 - 1)) / 1536) by (apply Z.div_pos; lia). lia.
Qed.

Lemma wp_filewrite_loop fuel lo hi sb r pid cwd pp f ip n src : forall b v ic fl x i (Q : Z -> osfs S -> Prop),
  let t := rest_txn v lo hi in let len := Z.of_nat (length src) in
  open_on b v lo hi sb ic r ip n -> sb_size sb < BPB -> ft fl !! f = Some x -> Forall byte_ok src ->
  0 <= i <= len -> (Z.to_nat (len - i) <= fuel)%nat ->
  0 <= f_off x <= size_of sb t n -> f_off x + (len - i) <= MAXFILE * BSIZE ->
  (ind_need (addrs_of sb t n) + 4 * chunks (len - i) <= size (free_set sb t))%nat ->
  (forall b' v' ic', let t' := rest_txn v' lo hi in open_on b' v' lo hi sb ic' r ip n -> keeps r ic ic' ->
     file_written sb t n (f_off x) (drop (Z.to_nat i) src) t' ->
     Q len (mk_osfs (mk_fsst b' sb ic' pid cwd) (moved fl f x (len - i)) pp)) ->
  wp (filewrite_loop fuel f ip src len i) (mk_osfs (mk_fsst b sb ic pid cwd) fl pp) Q.
Proof.
  induction fuel as [|fuel IH]; intros b v ic fl x i Q t len Ho Hbm Hf Hby Hi Hfuel Hoff Hmax Hfree HQ; cbn [filewrite_loop].
  all: destruct (Z.ltb_spec i len) as [Hlt|Hge]; cbn [negb].
  1: lia.
  1,3: assert (i = len) as -> by lia; rewrite Z.sub_diag, moved_0 in HQ by done; apply wp_ret, (HQ b v ic);
    [done|apply keeps_refl|rewrite drop_ge by lia; apply file_written_same; [apply Ho|apply Ho|done]].
  set (n1 := if len - i >? write_max then write_max else len - i).
  assert (Hn1 : n1 = Z.min (len - i) write_max) by (unfold n1; destruct (Z.gtb_spec (len - i) write_max); lia).
  rewrite chunks_step in Hfree by lia. rewrite <- Hn1 in Hfree. assert (0 < write_max) by done.
  set (s1 := take (Z.to_nat n1) (drop (Z.to_nat i) src)).
  assert (Hs1 : Z.of_nat (length s1) = n1) by (unfold s1; rewrite length_take, length_drop; lia).
  wp_step. fold s1. replace (filewrite_chunk f ip s1 n1) with (filewrite_chunk f ip s1 (Z.of_nat (length s1))) by (by rewrite Hs1).
  eapply (wp_filewrite_chunk b v lo hi sb ic r pid cwd fl pp f x ip n s1); try done; try lia.
  { unfold s1. by apply Forall_take, Forall_drop. }
  { fold t. lia. }
  intros b1 v1 ic1 t1 Ho1 K1 W1 Hf1. fold t in W1, Hf1. rewrite !Hs1. rewrite (proj2 (Z.ltb_ge n1 0)), Z.eqb_refl by lia. cbn [negb].
  pose proof (file_written_size _ _ _ _ _ _ (oo_ok _ _ _ _ _ _ _ _ _ Ho) (oo_alloc _ _ _ _ _ _ _ _ _ Ho) Hoff W1) as Hsz1.
  eapply (IH b1 v1 ic1 _ (x <| f_off := f_off x + n1 |>)); try done.
  - by apply moved_lookup.
  - lia.
  - lia.
  - change (f_off (x <| f_off := f_off x + n1 |>)) with (f_off x + n1). fold t1. lia.
  - change (f_off (x <| f_off := f_off x + n1 |>)) with (f_off x + n1). fold len. lia.
  - fold len t1. replace (len - (i + n1)) with (len - i - n1) by lia. lia.
  - intros b2 v2 ic2 t2 Ho2 K2 W2. rewrite moved_moved. fold len. replace (n1 + (len - (i + n1))) with (len - i) by lia.
    apply (HQ b2 v2 ic2); [done|by eapply keeps_trans|].
    replace (drop (Z.to_nat i) src) with (s1 ++ drop (Z.to_nat (i + n1)) src).
    + apply (written_trans _ _ _ _ _ t1); [done|apply Ho|apply Ho|done|by rewrite Hs1].
    + unfold s1. rewrite Z2Nat.inj_add, <- drop_drop by lia. apply take_drop.
Qed.

Lemma wp_filewrite b v lo hi sb ic r pid cwd fl pp killed f x n src (Q : Z -> osfs S -> Prop) :
  let t := rest_txn v lo hi in let len := Z.of_nat (length src) in
  open_on b v lo hi sb ic r (f_ip x) n -> sb_size sb < BPB ->
  ft fl !! f = Some x -> f_type x = FD_INODE -> f_writable x = true -> Forall byte_ok src ->
  0 <= f_off x <= size_of sb t n -> f_off x + len <= MAXFILE * BSIZE ->
  (ind_need (addrs_of sb t n) + 4 * chunks len <= size (free_set sb t))%nat ->
  (forall b' v' ic', let t' := rest_txn v' lo hi in open_on b' v' lo hi sb ic' r (f_ip x) n -> keeps r ic ic' ->
     file_written sb t n (f_off x) src t' -> Q len (mk_osfs (mk_fsst b' sb ic' pid cwd) (moved fl f x len) pp)) ->
  wp (filewrite killed f src len) (mk_osfs (mk_fsst b sb ic pid cwd) fl pp) Q.
Proof.
  intros t len Ho Hbm Hf Hty Hw Hby Hoff Hmax Hfree HQ. unfold filewrite. wp_step. apply wp_on_files. unfold get_file. wp_step.
  rewrite (list_lookup_total_correct _ _ _ Hf), Hw, Hty. cbn [negb]. wp_step.
  eapply (wp_filewrite_loop _ lo hi sb r pid cwd pp f (f_ip x) n src b v ic fl x 0); fold len; rewrite ?Z.sub_0_r; try done; try lia.
  intros b' v' ic' t' Ho' K' W'. rewrite Z.eqb_refl. wp_step. apply (HQ b' v' ic'); try done.
Qed.

(** ** Reading *)

(** What [read] of [k] bytes at [off] returns. *)
Definition read_result sb t (n off k : Z) : Z * list Z :=
  if off >? size_of sb t n then (-1, [])
  else let m := Z.min k (size_of sb t n - off) in (m, take (Z.to_nat m) (drop (Z.to_nat off) (content sb t n))).

Lemma wp_fileread b v lo hi sb ic r pid cwd fl pp killed f x n k (Q : Z * list Z -> osfs S -> Prop) :
  let t := rest_txn v lo hi in
  open_on b v lo hi sb ic r (f_ip x) n -> ft fl !! f = Some x -> f_type x = FD_INODE -> f_readable x = true ->
  0 <= f_off x < 2 ^ 31 -> 0 <= k < 2 ^ 31 ->
  (forall b' ic', open_on b' v lo hi sb ic' r (f_ip x) n -> keeps r ic ic' -> let res := read_result sb t n (f_off x) k in
     Q res (mk_osfs (mk_fsst b' sb ic' pid cwd) (moved fl f x (Z.max 0 (fst res))) pp)) ->
  wp (fileread killed f k) (mk_osfs (mk_fsst b sb ic pid cwd) fl pp) Q.
Proof.
  intros t [Hrest Hok Hc (i & Hi & <-) Hr Ha Hty] Hf Hft Hrd Hoff Hk HQ. fold t in Hok, Hc, Ha, Hty.
  pose proof (fk_core _ _ Hok) as Hco.
  unfold fileread. wp_step. apply wp_on_files. unfold get_file. wp_step.
  rewrite (list_lookup_total_correct _ _ _ Hf), Hrd, Hft. cbn [negb].
  destruct (tx_read_spec b v lo hi Hrest) as (t1 & R1 & F1).
  pose proof (fresh_same _ _ _ _ _ F1) as S1. fold t in S1.
  assert (Hh1 : t_held t1 = ∅) by apply (fr_held _ _ _ _ _ F1).
  wp_step. apply wp_on_fs. eapply (wp_ilock_file b t t1 sb ic r); try done.
  intros b2 ic2 i2 R2 C2 K2 I2 [En Hdev Hn2 Ok1 Ha1 E1 Ed Esz Ead Ety Hio].
  wp_step. apply wp_on_fs. rewrite u32_small by lia. rewrite Hty in Ety. eapply (wp_readi b2 t1 sb ic2 pid cwd (f_ip x) i2); try done; try lia.
  { apply Ok1. }
  { by rewrite Ety. }
  intros b3 R3.
  assert (Hres : readi_result (t_view t1) i2 (f_off x) k = read_result sb t (i_inum i) (f_off x) k).
  { unfold readi_result, read_result. rewrite (proj2 (Z.ltb_ge (u32 (f_off x + k)) (f_off x))), orb_false_r, Esz by (rewrite u32_small; lia).
    destruct (Z.gtb_spec (f_off x) (size_of sb t (i_inum i))); [done|]. f_equal.
    rewrite <- (transfer_content sb t t1), <- content_slice by (done || (unfold size_of in *; rewrite ?E1; lia)).
    f_equal. rewrite Ead. unfold addrs_of. by rewrite E1. }
  rewrite Hres. set (res := read_result sb t (i_inum i) (f_off x) k).
  assert (Hfst : fst res <= k /\ (0 <= fst res \/ fst res = -1)).
  { unfold res, read_result. destruct (Z.gtb_spec (f_off x) (size_of sb t (i_inum i))); simpl; lia. }
  wp_step. apply wp_conseq with (fun _ s => s = mk_osfs (mk_fsst b3 sb ic2 pid cwd) (moved fl f x (Z.max 0 (fst res))) pp).
  { unfold when. destruct (Z.gtb_spec (fst res) 0).
    - eapply wp_advance; [done|]. rewrite Z.max_r, u32_small by lia. done.
    - wp_step. rewrite Z.max_l, moved_0 by (done || lia). done. }
  intros [] ? ->. wp_step. apply wp_on_fs. eapply (wp_iunlock_cache b3 t1); [done|done|].
  intros ic4 i4 C4 K4 I4 E4 _ _. wp_step.
  assert (Ok : open_on b3 v lo hi sb ic4 r (f_ip x) (i_inum i)).
  { split; try done; [by apply (tx_unread_spec b3 v lo hi t1)| |exists i4; split; [done|congruence]].
    apply (transfer_cache sb t1); [by symmetry|apply Ok1|done]. }
  apply (HQ b3 ic4 Ok). by eapply keeps_trans.
Qed.

(** ** Properties *)

(** C7: writing an open file.  On a sound file system at rest, [filewrite] to a
    regular file within the size limit and with room on the disk returns the
    number of bytes asked for, never panics and never blocks: it takes one
    transaction per 1536 bytes, each within its share of the log.  Afterwards
    the file system is at rest and sound again, the file reads as its old
    contents with the bytes spliced in at the offset of the descriptor, every
    other file has its inode and its contents, the offset has moved, and the
    inode cache holds the same references. *)
Theorem filewrite_correct b v lo hi sb ic r pid cwd fl pp killed f x n src :
  let t := rest_txn v lo hi in let len := Z.of_nat (length src) in
  open_on b v lo hi sb ic r (f_ip x) n -> sb_size sb < BPB ->
  ft fl !! f = Some x -> f_type x = FD_INODE -> f_writable x = true -> Forall byte_ok src ->
  0 <= f_off x <= size_of sb t n -> f_off x + len <= MAXFILE * BSIZE ->
  (ind_need (addrs_of sb t n) + 4 * chunks len <= size (free_set sb t))%nat ->
  wp (filewrite killed f src len) (mk_osfs (mk_fsst b sb ic pid cwd) fl pp) (fun res s' =>
    exists b' v' ic', let t' := rest_txn v' lo hi in
    res = len /\ s' = mk_osfs (mk_fsst b' sb ic' pid cwd) (moved fl f x len) pp /\
    open_on b' v' lo hi sb ic' r (f_ip x) n /\ keeps r ic ic' /\
    content sb t' n = splice (content sb t n) (Z.to_nat (f_off x)) src /\
    (forall m, alloc_inode sb t m -> m <> n -> disk_inode sb t' m = disk_inode sb t m /\ content sb t' m = content sb t m)).
Proof.
  intros t len Ho Hbm Hf Hty Hw Hby Hoff Hmax Hfree. eapply wp_filewrite; try done.
  intros b' v' ic' t' Ho' K' [_ W1 _ W2]. exists b', v', ic'. done.
Qed.

(** C8: what is written through one descriptor is read back through another
    that stands at the same offset of the same file. *)
Theorem write_read_roundtrip b v lo hi sb ic r pid cwd fl pp killed f g x y n src :
  let t := rest_txn v lo hi in let len := Z.of_nat (length src) in
  open_on b v lo hi sb ic r (f_ip x) n -> sb_size sb < BPB ->
  ft fl !! f = Some x -> f_type x = FD_INODE -> f_writable x = true ->
  ft fl !! g = Some y -> f_type y = FD_INODE -> f_readable y = true -> f <> g -> f_ip y = f_ip x -> f_off y = f_off x ->
  Forall byte_ok src -> 0 <= f_off x <= size_of sb t n -> f_off x + len <= MAXFILE * BSIZE ->
  (ind_need (addrs_of sb t n) + 4 * chunks len <= size (free_set sb t))%nat ->
  wp (filewrite killed f src len;; fileread killed g len) (mk_osfs (mk_fsst b sb ic pid cwd) fl pp) (fun '(k, bytes) _ =>
    k = len /\ bytes = src).
Proof.
  intros t len Ho Hbm Hf Hty Hw Hg Hgt Hgr Hne Hip Ho2 Hby Hoff Hmax Hfree. wp_step.
  eapply (wp_filewrite b v lo hi sb ic r pid cwd fl pp killed f x n src); try done. fold t len.
  intros b1 v1 ic1 t1 Ho1 K1 W1. pose proof (oo_ok _ _ _ _ _ _ _ _ _ Ho) as Hok. pose proof (oo_alloc _ _ _ _ _ _ _ _ _ Ho) as Ha.
  pose proof (file_written_size _ _ _ _ _ _ Hok Ha Hoff W1) as Hsz. fold len in Hsz.
  change (MAXFILE * BSIZE) with 71680 in Hmax. assert (0 <= len) by (unfold len; lia).
  eapply (wp_fileread b1 v1 lo hi sb ic1 r pid cwd _ pp killed g y n len); rewrite ?Hip, ?Ho2; try done; try lia.
  { unfold moved. simpl. by rewrite list_lookup_insert_ne. }
  intros b2 ic2 Ho3 K3. fold t1. unfold read_result. rewrite Z.gtb_ltb, (proj2 (Z.ltb_ge (size_of sb t1 n) (f_off x))) by lia.
  rewrite Z.min_l by lia. split; [done|]. rewrite (fw_content _ _ _ _ _ _ W1). pose proof (content_length sb t n Hok Ha) as Hl. fold t in Hl.
  unfold splice. rewrite drop_app_length' by (rewrite length_take; lia). apply take_app_length'. unfold len. lia.
Qed.
End file_io.
