(* ===== verification/FsDemo.v ===== *)
(** A concrete file system: the disk mkfs makes for a root directory with one
    empty file [f], booted through the log, as the instance at which the file system theorems
    are evaluated.  The later sections
    are its tree of directories, and reading and writing [f]. *)

From S2P Require Import Prelude CString Layout Sleeplock Ring Bio Log BlockLayer LogTxn Fs FsBlock FsFile FsRW FsDir TxnLayer File Pipe SysFile FsTree FsRest FileIO.

(** Names as NUL-padded byte arrays. *)
Definition dotname : list Z := 46 :: replicate 13 0.
Definition dotdotname : list Z := 46 :: 46 :: replicate 12 0.

Definition fname : list Z := 102 :: replicate 13 0.

Definition file_dinode : dinode := mk_dinode T_FILE 0 0 1 0 (replicate 13 0).
Definition root_dinode : dinode := mk_dinode T_DIR 0 0 1 512 (59 :: replicate 12 0).
Definition root_dir : list Z :=
  splice zero_block 0 (dirent_encode (mk_dirent 1 dotname) ++ dirent_encode (mk_dirent 1 dotdotname) ++ dirent_encode (mk_dirent 2 fname)).
(** 59 blocks of metadata and the root directory's block are in use. *)
Definition root_bitmap : list Z := splice zero_block 0 (replicate 7 255 ++ [15]).

Definition mkfs_disk : memdisk :=
  mk_memdisk 1000 (fun b =>
    if b =? 1 then splice zero_block 0 (superblock_encode demo_sb)
    else if b =? 32 then set_dinode (set_dinode zero_block 1 root_dinode) 2 file_dinode
    else if b =? 58 then root_bitmap
    else if b =? 59 then root_dir
    else zero_block) [].

Lemma mkfs_disk_holds : log_holds mkfs_disk 2 30 [] (d_data mkfs_disk).
Proof.
  split; try done; [|vm_compute; lia|constructor].
  split; [simpl; lia|]. intros b _. simpl.
  repeat match goal with |- context [if ?c then _ else _] => destruct c end;
    apply (bool_decide_unpack (block_ok _)); vm_compute; exact I.
Qed.

(** Boot and open a transaction. *)
Definition demo_boot : M logst () := initlog ROOTDEV;; begin_op.

Record demo_txn_state (t : txn) : Prop := {
  dt_held : t_held t = ∅;
  dt_logged : t_logged t = ∅;
  dt_cap : t_cap t = 10%nat;
  dt_lo : t_lo t = 32;
  dt_hi : t_hi t = 1000;
  dt_view : forall b, b < 2 \/ 32 <= b -> t_view t b = d_data mkfs_disk b
}.

Lemma demo_boot_runs :
  exists s t, demo_boot (boot_log mkfs_disk 1) = Ok () s /\ txn_rep s t /\ demo_txn_state t.
Proof.
  assert (H : wp demo_boot (boot_log mkfs_disk 1) (fun _ s => exists t, txn_rep s t /\ demo_txn_state t)).
  { unfold demo_boot. wp_step.
    eapply initlog_idle; [exact mkfs_disk_holds|split; vm_compute; reflexivity|done|done|].
    intros s1 Hi Es Ez Hsz Hv. apply wp_begin_op; [done|]. intros s2 Ht D El.
    eexists. split; [exact Ht|]. unfold fresh_txn. rewrite Es, Ez, Hsz. by split. }
  apply wp_elim in H as ([] & s & Hrun & t & Ht & Hd).
  exists s, t. split; [exact Hrun|]. split; [exact Ht|exact Hd].
Qed.

(** No devices. *)
#[export] Instance no_devices (S : Type) : DevOps S := {| dev_read := fun _ => None; dev_write := fun _ => None |}.

Lemma demo_used t b :
  demo_txn_state t -> 0 <= b < 1000 -> used demo_sb t b = bit_set root_bitmap b.
Proof.
  intros Ht Hb. unfold used. assert (BBLOCK b demo_sb = 58) as ->.
  { unfold BBLOCK. consts. rewrite Z.div_small by lia. reflexivity. }
  rewrite (dt_view _ Ht) by lia. consts. by rewrite Z.mod_small by lia.
Qed.

Lemma root_bitmap_used b : 0 <= b < 60 -> bit_set root_bitmap b = true.
Proof.
  intros Hb. assert (H : Forall (fun b => bit_set root_bitmap b = true) (seqZ 0 60)).
  { apply (bool_decide_unpack _). vm_compute. exact I. }
  apply (proj1 (Forall_forall _ _) H). apply elem_of_seqZ. lia.
Qed.

Lemma demo_geom t : demo_txn_state t -> fs_geom demo_sb t.
Proof.
  intros Ht. split; rewrite ?(dt_hi _ Ht), ?(dt_lo _ Ht);
    [vm_compute; intuition congruence..| |].
  - rewrite (dt_view _ Ht) by lia. vm_compute. reflexivity.
  - intros b Hb. change (data_start demo_sb) with 59 in Hb. rewrite demo_used by (done || lia).
    apply root_bitmap_used. lia.
Qed.

Lemma demo_can_alloc t : demo_txn_state t -> can_alloc demo_sb t.
Proof.
  intros Ht. split; rewrite ?(dt_held _ Ht).
  - by apply demo_geom.
  - intros blk _. apply lookup_empty.
  - intros blk _ _. apply lookup_empty.
  - rewrite map_size_empty. unfold MAXHELD. lia.
  - unfold log_room. rewrite (dt_logged _ Ht), (dt_cap _ Ht). vm_compute. lia.
Qed.

(** An in-memory inode table with the root directory in slot 0. *)
Definition demo_icache : list inode :=
  load_dinode root_dinode (mk_inode ROOTDEV 1 1 (mk_sleeplock true 1) true 0 0 0 0 0 []) ::
  replicate 49 inhabitant.

Lemma balloc_correct_witness :
  exists s t, txn_rep s t /\
    ((exists blk b', balloc ROOTDEV (mk_fsst s demo_sb demo_icache 1 0) =
        Ok blk (mk_fsst b' demo_sb demo_icache 1 0) /\ used demo_sb t blk = false) \/
     used demo_sb t 60 = true).
Proof.
  destruct demo_boot_runs as (s & t & _ & Ht & Hd). exists s, t. split; [exact Ht|].
  destruct (@balloc_correct logst logst_ops logst_layer s t demo_sb demo_icache 1 0 Ht (demo_can_alloc t Hd))
    as [(blk & b' & t' & Hrun & (_ & Hu & _) & _)|[Hall _]].
  - left. exists blk, b'. split; [exact Hrun|exact Hu].
  - right. apply Hall. vm_compute. intuition congruence.
Defined.

Lemma bfree_correct_witness :
  exists s t b', txn_rep s t /\
    bfree ROOTDEV 59 (mk_fsst s demo_sb demo_icache 1 0) = Ok () (mk_fsst b' demo_sb demo_icache 1 0) /\
    bfree ROOTDEV 60 (mk_fsst s demo_sb demo_icache 1 0) = Panic "freeing free block".
Proof.
  destruct demo_boot_runs as (s & t & _ & Ht & Hd).
  assert (H1 : t_held t !! 1 = None) by (rewrite (dt_held _ Hd); apply lookup_empty).
  assert (D59 : is_data demo_sb 59) by (vm_compute; intuition congruence).
  assert (D60 : is_data demo_sb 60) by (vm_compute; intuition congruence).
  pose proof (@bfree_correct logst logst_ops logst_layer s t demo_sb demo_icache 1 0 59 Ht (demo_can_alloc t Hd) H1 D59) as H59.
  pose proof (@bfree_correct logst logst_ops logst_layer s t demo_sb demo_icache 1 0 60 Ht (demo_can_alloc t Hd) H1 D60) as H60.
  rewrite (demo_used _ 59 Hd) in H59 by lia. rewrite (demo_used _ 60 Hd) in H60 by lia.
  change (bit_set root_bitmap 59) with true in H59. change (bit_set root_bitmap 60) with false in H60.
  destruct H59 as (b' & t' & H59 & _). exists s, t, b'. split; [exact Ht|]. split; [exact H59|exact H60].
Defined.

(** * The root directory *)

Definition root_inode : inode := demo_icache !!! 0%nat.

Lemma demo_block t bn :
  0 <= bn < MAXFILE -> block_of (t_view t) (i_addrs root_inode) bn = if bn =? 0 then 59 else 0.
Proof.
  intros Hb. assert (H : Forall (fun k => (if k <? NDIRECT then i_addrs root_inode !!! Z.to_nat k else 0) =
    if k =? 0 then 59 else 0) (seqZ 0 140)) by (apply (bool_decide_unpack _); vm_compute; exact I).
  change MAXFILE with 140 in Hb.
  rewrite <- (proj1 (Forall_forall _ _) H bn) by (apply elem_of_seqZ; lia). reflexivity.
Qed.

Lemma demo_file_ok t : demo_txn_state t -> file_ok demo_sb t (i_addrs root_inode).
Proof.
  intros Hd. split; [reflexivity| |intros H; by destruct H| |intros bn _ H; by destruct H].
  - intros bn Hb. rewrite !demo_block by done. destruct (bn =? 0); [|done]. intros _.
    split; [vm_compute; intuition congruence|]. rewrite (demo_used _ _ Hd) by lia. reflexivity.
  - intros m n Hm Hn. rewrite !demo_block by done. destruct (Z.eqb_spec m 0), (Z.eqb_spec n 0); congruence || done.
Qed.

Lemma demo_inode_ok t : demo_txn_state t -> inode_ok demo_sb t root_inode.
Proof.
  intros Hd. split; [reflexivity|by apply demo_file_ok|vm_compute; intuition congruence|].
  intros bn H0 Hb. change (i_size root_inode) with 512 in Hb. change BSIZE with 512 in Hb.
  assert (bn = 0) as -> by lia. by rewrite demo_block.
Qed.

Lemma demo_dir_ok t : demo_txn_state t -> dir_ok demo_sb t root_inode.
Proof. intros Hd. split; [by apply demo_inode_ok|reflexivity|reflexivity]. Qed.

Lemma demo_bytes t off n :
  demo_txn_state t -> 0 <= off -> off + n <= 512 ->
  file_bytes (t_view t) (i_addrs root_inode) off n = file_bytes (d_data mkfs_disk) (i_addrs root_inode) off n.
Proof.
  intros Hd Ho Hn. apply list_fmap_ext. intros k x Hk. apply lookup_seqZ in Hk as [-> Hk].
  unfold file_byte. change BSIZE with 512. rewrite Z.div_small by lia. change (block_of _ _ 0) with 59.
  by rewrite (dt_view _ Hd) by lia.
Qed.

Definition root_entries : list dirent :=
  mk_dirent 1 dotname :: mk_dirent 1 dotdotname :: mk_dirent 2 fname :: replicate 29 (mk_dirent 0 (replicate 14 0)).

Lemma demo_entries t : demo_txn_state t -> dir_entries (t_view t) root_inode = root_entries.
Proof.
  intros Hd. transitivity (dir_entries (d_data mkfs_disk) root_inode); [|vm_compute; reflexivity].
  apply list_fmap_ext. intros k x Hk. apply lookup_seqZ in Hk as [-> Hk].
  change (i_size root_inode / DIRENT_SZ) with 32 in Hk. unfold dir_entry. change DIRENT_SZ with 16.
  by rewrite demo_bytes by (done || lia).
Qed.

Lemma demo_lset t : demo_txn_state t -> size (lset demo_sb t) = 1%nat.
Proof. intros Hd. unfold lset. rewrite (dt_logged _ Hd). vm_compute. reflexivity. Qed.

Lemma demo_free t : demo_txn_state t -> (20 <= size (free_set demo_sb t))%nat.
Proof.
  intros Hd. transitivity (size (list_to_set (seqZ 60 20) : gset Z)); [vm_compute; lia|]. apply subseteq_size.
  intros k Hk. apply elem_of_list_to_set, elem_of_seqZ in Hk. apply free_set_elem. change (sb_size demo_sb) with 1000.
  split; [lia|]. rewrite (demo_used _ _ Hd) by lia.
  assert (H : Forall (fun b => bit_set root_bitmap b = false) (seqZ 60 20)) by (apply (bool_decide_unpack _); vm_compute; exact I).
  apply (proj1 (Forall_forall _ _) H), elem_of_seqZ. lia.
Qed.

Lemma demo_write_room t off n :
  demo_txn_state t -> 0 <= off -> 0 <= n -> off + n <= 512 -> write_room demo_sb t (i_addrs root_inode) off n.
Proof.
  intros Hd Ho Hn Hle. pose proof (demo_free t Hd). unfold write_room. rewrite (demo_lset t Hd), (dt_cap _ Hd).
  assert (ind_cost t (i_addrs root_inode) <= 1)%nat by (unfold ind_cost; destruct (decide _); lia).
  change (ind_need (i_addrs root_inode)) with 1%nat.
  assert (nblocks off n <= 1)%nat; [|lia].
  unfold nblocks. destruct (Z.leb_spec n 0); [lia|]. change BSIZE with 512. rewrite !Z.div_small by lia. lia.
Qed.

Lemma demo_disk_inode t : demo_txn_state t -> disk_inode demo_sb t 1 = root_dinode.
Proof.
  intros Hd. unfold disk_inode. change (IBLOCK 1 demo_sb) with 32. rewrite (dt_view _ Hd) by lia.
  vm_compute. reflexivity.
Qed.

Lemma demo_icache_ok : icache_ok demo_icache.
Proof.
  assert (H : forall p i, demo_icache !! p = Some i -> (p = 0%nat /\ i_ref i = 1) \/ i_ref i = 0).
  { intros [|p] i; [intros [= <-]; by left|]. intros Hl. right.
    change (replicate 49 (inhabitant : inode) !! p = Some i) in Hl. apply lookup_replicate_1 in Hl as [-> _]. reflexivity. }
  split.
  - intros p i [[_ E]|E]%H; lia.
  - intros p q i j [[Ep E]|E]%H [[Eq F]|F]%H ? ? _ _; lia.
Qed.

(** * The theorems at the root directory *)

Lemma bmap_correct_witness :
  exists s t a b' addrs', txn_rep s t /\
    bmap 0 12 (mk_fsst s demo_sb demo_icache 1 0) = Ok a (mk_fsst b' demo_sb (set_addrs 0 root_inode addrs' demo_icache) 1 0) /\
    used demo_sb t a = false.
Proof.
  destruct demo_boot_runs as (s & t & _ & Ht & Hd).
  destruct (@bmap_correct logst logst_ops logst_layer s t demo_sb demo_icache 1 0 0 root_inode 12 Ht
    (dt_held _ Hd) (demo_geom t Hd) eq_refl eq_refl (demo_file_ok t Hd)) as (a & b' & t' & addrs' & Hrun & _ & _ & _ & _ & _ & Hn & _).
  - split; [discriminate|reflexivity].
  - rewrite (demo_lset t Hd), (dt_cap _ Hd). unfold ind_cost. destruct (decide _); lia.
  - pose proof (demo_free t Hd). change (ind_need (i_addrs root_inode)) with 1%nat. lia.
  - rewrite demo_block in Hn by (split; [discriminate|reflexivity]).
    exists s, t, a, b', addrs'. split; [exact Ht|]. split; [exact Hrun|exact (proj1 Hn)].
Defined.

Lemma readi_correct_witness :
  exists s t b', txn_rep s t /\
    readi 0 16 4 (mk_fsst s demo_sb demo_icache 1 0) = Ok (4, [1; 0; 46; 46]) (mk_fsst b' demo_sb demo_icache 1 0).
Proof.
  destruct demo_boot_runs as (s & t & _ & Ht & Hd).
  destruct (@readi_correct logst logst_ops logst_layer (no_devices logst) s t demo_sb demo_icache 1 0 0 root_inode 16 4 Ht
    (dt_held _ Hd) (demo_geom t Hd) eq_refl (demo_inode_ok t Hd)) as (b' & _ & Hrun).
  - discriminate.
  - lia.
  - lia.
  - exists s, t, b'. split; [exact Ht|]. rewrite Hrun.
    change (if _ || _ then _ else _) with (4, file_bytes (t_view t) (i_addrs root_inode) 16 4).
    rewrite (demo_bytes t 16 4 Hd) by lia. reflexivity.
Defined.

Lemma writei_correct_witness :
  exists s t b' t' i', txn_rep s t /\
    writei 0 [7; 0] 0 2 (mk_fsst s demo_sb demo_icache 1 0) = Ok 2 (mk_fsst b' demo_sb (<[0%nat := i']> demo_icache) 1 0) /\
    txn_rep b' t' /\ i_size i' = 512.
Proof.
  destruct demo_boot_runs as (s & t & _ & Ht & Hd).
  destruct (@writei_correct logst logst_ops logst_layer (no_devices logst) s t demo_sb demo_icache 1 0 0 root_inode [7; 0] 0 2 Ht
    (dt_held _ Hd) (demo_geom t Hd) eq_refl (demo_inode_ok t Hd)) as (b' & t' & i' & Hrun & Hr' & _ & _ & Hs & _).
  - discriminate.
  - vm_compute. intuition congruence.
  - apply (bool_decide_unpack _). vm_compute. exact I.
  - exact (demo_disk_inode t Hd).
  - repeat constructor; lia.
  - reflexivity.
  - vm_compute. intuition congruence.
  - vm_compute. intuition congruence.
  - apply demo_write_room; [exact Hd|lia..].
  - exists s, t, b', t', i'. split; [exact Ht|]. split; [exact Hrun|]. split; [exact Hr'|exact Hs].
Defined.

Lemma dirlookup_correct_witness :
  exists s t b' ic', txn_rep s t /\
    dirlookup 0 dotdotname (mk_fsst s demo_sb demo_icache 1 0) = Ok (Some (0%nat, 16)) (mk_fsst b' demo_sb ic' 1 0).
Proof.
  destruct demo_boot_runs as (s & t & _ & Ht & Hd).
  destruct (@dirlookup_correct logst logst_ops logst_layer (no_devices logst) s t demo_sb demo_icache 1 0 0 root_inode dotdotname Ht
    (dt_held _ Hd) (demo_geom t Hd) eq_refl (demo_dir_ok t Hd)) as (b' & _ & Hrun).
  exists s, t, b', (<[0%nat := root_inode <| i_ref := 2 |>]> demo_icache). split; [exact Ht|]. rewrite Hrun.
  rewrite (demo_entries t Hd). change (dir_find dotdotname root_entries) with (Some 1%nat). cbv iota.
  assert (de_inum (dir_entry (t_view t) root_inode (Z.of_nat 1)) = 1) as ->.
  { unfold dir_entry. change (DIRENT_SZ * Z.of_nat 1) with 16. change DIRENT_SZ with 16.
    rewrite (demo_bytes t 16 16 Hd) by lia. vm_compute. reflexivity. }
  reflexivity.
Defined.

Lemma dirlink_correct_witness :
  exists s t b' t' i', txn_rep s t /\
    dirlink 0 [97; 0] 5 (mk_fsst s demo_sb demo_icache 1 0) = Ok 0 (mk_fsst b' demo_sb (<[0%nat := i']> demo_icache) 1 0) /\
    dir_lookup [97; 0] (dir_entries (t_view t') i') = Some 5 /\
    dir_lookup dotname (dir_entries (t_view t') i') = Some 1.
Proof.
  destruct demo_boot_runs as (s & t & _ & Ht & Hd).
  assert (Hcl : can_link demo_sb t root_inode).
  { split; [exact (demo_dir_ok t Hd)|..].
    - vm_compute. intuition congruence.
    - apply (bool_decide_unpack _). vm_compute. exact I.
    - vm_compute. intuition congruence.
    - rewrite (demo_entries t Hd). apply (demo_write_room t 32 16 Hd); lia. }
  destruct (@dirlink_correct logst logst_ops logst_layer (no_devices logst) s t demo_sb demo_icache 1 0 0 root_inode [97; 0] 5 Ht
    (dt_held _ Hd) (demo_geom t Hd) eq_refl Hcl) as (b' & t' & i' & Hrun & _ & _ & Hl).
  - repeat constructor; lia.
  - lia.
  - rewrite (demo_entries t Hd). reflexivity.
  - exists s, t, b', t', i'. split; [exact Ht|]. split; [exact Hrun|].
    rewrite !Hl by (repeat constructor; lia). rewrite (demo_entries t Hd). split; reflexivity.
Defined.

Lemma dirlink_self_deadlock_witness :
  exists s t s', txn_rep s t /\ dirlink 0 dotname 5 (mk_fsst s demo_sb demo_icache 1 0) = Blocked s'.
Proof.
  destruct demo_boot_runs as (s & t & _ & Ht & Hd).
  destruct (@dirlink_self_deadlock logst logst_ops logst_layer (no_devices logst) s t demo_sb demo_icache 1 0 0 root_inode dotname 5 0%nat Ht
    (dt_held _ Hd) (demo_geom t Hd) eq_refl (demo_dir_ok t Hd) demo_icache_ok) as (s' & Hrun).
  - reflexivity.
  - reflexivity.
  - rewrite (demo_entries t Hd). reflexivity.
  - unfold dir_entry. change (DIRENT_SZ * Z.of_nat 0) with 0. change DIRENT_SZ with 16.
    rewrite (demo_bytes t 0 16 Hd) by lia. vm_compute. reflexivity.
  - exists s, t, s'. split; [exact Ht|exact Hrun].
Defined.

(** * The tree of the concrete file system *)

(** The root directory in slot 0, unlocked. *)
Definition tree_icache : list inode :=
  load_dinode root_dinode (mk_inode ROOTDEV 1 1 initsleeplock true 0 0 0 0 0 []) :: replicate 49 inhabitant.
Definition tree_refs (p : nat) : Z := if decide (p = 0%nat) then 1 else 0.

Lemma demo_types t n : demo_txn_state t -> 0 < n < 200 -> di_type (disk_inode demo_sb t n) = if n =? 1 then T_DIR else if n =? 2 then T_FILE else 0.
Proof.
  intros Ht Hn. unfold disk_inode.
  assert (H : Forall (fun n => 32 <= IBLOCK n demo_sb /\
    di_type (get_dinode (d_data mkfs_disk (IBLOCK n demo_sb)) n) = if n =? 1 then T_DIR else if n =? 2 then T_FILE else 0) (seqZ 1 199))
    by (apply (bool_decide_unpack _); vm_compute; exact I).
  destruct (proj1 (Forall_forall _ _) H n) as [Hb Hty]; [apply elem_of_seqZ; lia|]. by rewrite (dt_view _ Ht) by lia.
Qed.

Lemma demo_live t n : demo_txn_state t -> live demo_sb t n -> n = 1 \/ n = 2.
Proof.
  intros Ht (Hn & Hty & _). change (sb_ninodes demo_sb) with 200 in Hn. rewrite demo_types in Hty by done.
  destruct (Z.eqb_spec n 1), (Z.eqb_spec n 2); auto. done.
Qed.

Lemma demo_file_inode t : demo_txn_state t -> disk_inode demo_sb t 2 = file_dinode.
Proof.
  intros Hd. unfold disk_inode. change (IBLOCK 2 demo_sb) with 32. rewrite (dt_view _ Hd) by lia. vm_compute. reflexivity.
Qed.

Lemma demo_root_live t : demo_txn_state t -> live demo_sb t 1.
Proof. intros Ht. unfold live. rewrite demo_disk_inode by done. vm_compute. intuition congruence. Qed.
Lemma demo_file_live t : demo_txn_state t -> live demo_sb t 2.
Proof. intros Ht. unfold live. rewrite demo_file_inode by done. vm_compute. intuition congruence. Qed.

Lemma demo_tree t : demo_txn_state t -> tree_ok demo_sb t.
Proof.
  intros Ht.
  assert (Hes : entries_of demo_sb t 1 = root_entries).
  { unfold entries_of. rewrite demo_disk_inode by done. rewrite <- (demo_entries t Ht). done. }
  assert (Hdir : forall n, live demo_sb t n -> is_dir demo_sb t n -> n = 1).
  { intros n [->| ->]%demo_live Hd; try done. unfold is_dir in Hd. by rewrite demo_file_inode in Hd. }
  split.
  - intros n Hl Hd. rewrite (Hdir n Hl Hd), demo_disk_inode by done.
    destruct (demo_dir_ok t Ht) as [[] ? ?]. by split; [split|..].
  - intros n de Hl Hd. rewrite (Hdir n Hl Hd), Hes. intros Hde Hnz.
    assert (H : Forall (fun de => de_inum de = 0 \/ de_inum de = 1 \/ de_inum de = 2) root_entries)
      by (apply (bool_decide_unpack _); vm_compute; exact I).
    destruct (proj1 (Forall_forall _ _) H de Hde) as [|[E|E]]; [done|rewrite E; by apply demo_root_live|rewrite E; by apply demo_file_live].
Qed.

Lemma demo_cache t : demo_txn_state t -> cache demo_sb t tree_icache tree_refs None.
Proof.
  intros Ht.
  assert (Hcase : forall p i, tree_icache !! p = Some i -> (p = 0%nat /\ i = tree_icache !!! 0%nat) \/ (p <> 0%nat /\ i = inhabitant)).
  { intros [|p] i Hi; [left; by injection Hi as <-|]. right. split; [done|]. change (replicate 49 (inhabitant : inode) !! p = Some i) in Hi. by apply lookup_replicate_1 in Hi as [-> _]. }
  unfold tree_refs. split.
  - intros p i [[-> ->]|[Hp ->]]%Hcase; [done|]. by rewrite decide_False.
  - intros p. case_decide; lia.
  - intros p q i j _ _ Hp Hq _. repeat case_decide; lia || congruence.
  - intros p i [[-> ->]|[Hp ->]]%Hcase Hr; [vm_compute; intuition congruence|]. case_decide; [done|lia].
  - intros p i [[-> ->]|[Hp ->]]%Hcase Hr Hv; [|case_decide; [done|lia]]. change (i_inum (tree_icache !!! 0%nat)) with 1.
    by rewrite demo_disk_inode.
  - intros p i [[-> ->]|[Hp ->]]%Hcase; done.
  - done.
Qed.

(** "/./.." leads to the root. *)
Lemma namex_correct_witness :
  exists s t, txn_rep s t /\
  wp (namex [47; 46; 47; 46; 46] false (replicate 14 0)) (mk_fsst s demo_sb tree_icache 1 0) (fun '(o, _) s' =>
    exists ip j, o = Some ip /\ fs_icache s' !! ip = Some j /\ i_inum j = 1).
Proof.
  destruct demo_boot_runs as (s & t & _ & Ht & Hd). exists s, t. split; [exact Ht|].
  assert (Hroot : entries_of demo_sb t 1 = root_entries).
  { unfold entries_of. rewrite demo_disk_inode by exact Hd. rewrite <- (demo_entries t Hd). reflexivity. }
  eapply wp_conseq.
  - apply (@namex_correct logst logst_ops logst_layer (no_devices logst) s t demo_sb tree_icache tree_refs 1 0 [47; 46; 47; 46; 46] false (replicate 14 0)).
    + exact Ht.
    + exact (dt_held _ Hd).
    + apply demo_geom, Hd.
    + apply demo_tree, Hd.
    + apply demo_cache, Hd.
    + exists 1%nat, 2%nat. vm_compute. intuition (lia || congruence).
    + vm_compute. lia.
    + reflexivity.
    + apply demo_root_live, Hd.
    + split; repeat constructor; unfold byte_ok; lia.
    + reflexivity.
    + apply (bool_decide_unpack _). vm_compute. exact I.
  - intros [o nm] s' (b' & ic' & -> & _ & _ & Hm).
    change (start_inum tree_icache 0 [47; 46; 47; 46; 46]) with 1 in Hm.
    change (elems [47; 46; 47; 46; 46]) with [[46]; [46; 46]] in Hm. cbn [walk andb] in Hm.
    rewrite (demo_types t 1 Hd) in Hm by lia. rewrite Hroot in Hm.
    change (dir_lookup [46] root_entries) with (Some 1) in Hm. cbn [mbind option_bind Z.eqb Pos.eqb T_DIR] in Hm.
    rewrite (demo_types t 1 Hd) in Hm by lia. rewrite Hroot in Hm.
    change (dir_lookup [46; 46] root_entries) with (Some 1) in Hm. cbn [mbind option_bind Z.eqb Pos.eqb T_DIR] in Hm.
    destruct Hm as (ip & j & -> & Hj & Ej & _). exists ip, j. split; [reflexivity|]. split; [exact Hj|exact Ej].
Defined.

(** * Reading and writing the empty file of the concrete file system. *)

(** The disk at rest after booting. *)
Lemma demo_rest : exists (s : logst) v, tx_rest s v 32 1000 /\ demo_txn_state (mk_txn v v ∅ ∅ 10 32 1000).
Proof.
  assert (H : wp (initlog ROOTDEV) (boot_log mkfs_disk 1) (fun _ s => exists v, tx_rest s v 32 1000 /\ demo_txn_state (mk_txn v v ∅ ∅ 10 32 1000))).
  { eapply initlog_idle; [exact mkfs_disk_holds|split; vm_compute; reflexivity|done|done|].
    intros s1 Hi Es Ez Hsz Hv. exists (d_data (bio_disk (l_bio s1))). split.
    - split; [done|]. split; [done|]. rewrite Es, Ez, Hsz. done.
    - by split. }
  apply wp_elim in H as ([] & s & _ & v & Hr & Hd). by exists s, v.
Qed.

Lemma empty_block v bn : 0 <= bn < MAXFILE -> block_of v (replicate 13 0) bn = 0.
Proof.
  intros Hb. unfold block_of. change (ind_of (replicate 13 0)) with 0. destruct (Z.ltb_spec bn NDIRECT) as [H|]; [|done].
  change NDIRECT with 12 in H. apply list_lookup_total_correct, lookup_replicate_2. lia.
Qed.

Lemma demo_fs_ok t : demo_txn_state t -> fs_ok demo_sb t.
Proof.
  intros Ht. assert (Hcase : forall n, alloc_inode demo_sb t n -> n = 1 \/ n = 2).
  { intros n [Hn Hty]. change (sb_ninodes demo_sb) with 200 in Hn. unfold type_of in Hty. rewrite demo_types in Hty by done.
    destruct (Z.eqb_spec n 1), (Z.eqb_spec n 2); auto. done. }
  assert (Hnone : forall k, ~ own t (addrs_of demo_sb t 2) k).
  { intros k [Hk Ho]. unfold addrs_of in Ho. rewrite demo_file_inode in Ho by done.
    destruct Ho as [->|(bn & Hbn & E)]; [done|]. change (di_addrs file_dinode) with (replicate 13 0) in E. by rewrite empty_block in E. }
  split; [split|by apply demo_tree].
  - by apply demo_geom.
  - rewrite (dt_lo _ Ht), (dt_hi _ Ht). lia.
  - intros n [->| ->]%Hcase; [rewrite demo_disk_inode by done; destruct (demo_inode_ok t Ht); by split|].
    rewrite demo_file_inode by done. split; [done| |vm_compute; intuition congruence|].
    + split; try done.
      * intros bn Hb. change (i_addrs (as_inode 2 file_dinode)) with (replicate 13 0). by rewrite empty_block.
      * intros m n Hm Hn. change (i_addrs (as_inode 2 file_dinode)) with (replicate 13 0). by rewrite empty_block.
    + intros bn Hb Hs. change (i_size (as_inode 2 file_dinode)) with 0 in Hs. change BSIZE with 512 in Hs. lia.
  - intros m n k [->| ->]%Hcase [->| ->]%Hcase Hne H1 H2; try done; by eapply Hnone.
Qed.

(** The root in slot 0 and the file in slot 1, not yet loaded. *)
Definition io_icache : list inode :=
  mk_inode ROOTDEV 1 1 initsleeplock false 0 0 0 0 0 [] :: mk_inode ROOTDEV 2 2 initsleeplock false 0 0 0 0 0 [] :: replicate 48 inhabitant.
Definition io_refs (p : nat) : Z := match p with 0%nat => 1 | 1%nat => 2 | _ => 0 end.

Lemma io_cache t : cache demo_sb t io_icache io_refs None.
Proof.
  assert (Hcase : forall p i, io_icache !! p = Some i -> (p = 0%nat /\ i = io_icache !!! 0%nat) \/ (p = 1%nat /\ i = io_icache !!! 1%nat)
    \/ (io_refs p = 0 /\ i = inhabitant)).
  { intros [|[|p]] i Hi; [left; by injection Hi as <-|right; left; by injection Hi as <-|]. right. right. split; [done|].
    change (replicate 48 (inhabitant : inode) !! p = Some i) in Hi. by apply lookup_replicate_1 in Hi as [-> _]. }
  split; [| | | | | |done].
  - intros p i [[-> ->]|[[-> ->]|[E ->]]]%Hcase; done.
  - intros [|[|p]]; simpl; lia.
  - intros [|[|p]] [|[|q]] i j Hp Hq Rp Rq E; simpl in Rp, Rq; try lia; try done; simpl in Hp, Hq; simplify_eq; done.
  - intros p i [[-> ->]|[[-> ->]|[E ->]]]%Hcase Hr; [vm_compute; intuition congruence..|lia].
  - intros p i [[-> ->]|[[-> ->]|[E ->]]]%Hcase Hr; [done|done|lia].
  - intros p i [[-> ->]|[[-> ->]|[E ->]]]%Hcase; done.
Qed.

Lemma demo_same v : same_fs (mk_txn v v ∅ ∅ 10 32 1000) (rest_txn v 32 1000).
Proof. by split. Qed.

Section demo_open.
Context (v : Z -> list Z) (Hd : demo_txn_state (mk_txn v v ∅ ∅ 10 32 1000)).
Notation t0 := (mk_txn v v ∅ ∅ 10 32 1000).

Lemma demo_open s : tx_rest s v 32 1000 -> open_on s v 32 1000 demo_sb io_icache io_refs 1 2.
Proof.
  intros Hr. pose proof (demo_fs_ok _ Hd) as Hok. split.
  - exact Hr.
  - apply (transfer_ok demo_sb t0); [apply demo_same|exact Hok].
  - apply io_cache.
  - exists (io_icache !!! 1%nat). done.
  - done.
  - apply (transfer_alloc demo_sb t0); [apply demo_same|exact Hok|]. by apply live_alloc, demo_file_live.
  - unfold type_of. rewrite (transfer_inode demo_sb t0) by (apply demo_same || exact Hok || (change (sb_ninodes demo_sb) with 200; lia)).
    by rewrite demo_file_inode.
Qed.

Lemma demo_file_disk : disk_inode demo_sb (rest_txn v 32 1000) 2 = file_dinode.
Proof.
  rewrite (transfer_inode demo_sb t0); [by apply demo_file_inode|apply demo_same|by apply fk_core, demo_fs_ok|].
  change (sb_ninodes demo_sb) with 200. lia.
Qed.

Lemma demo_io_room : (ind_need (addrs_of demo_sb (rest_txn v 32 1000) 2) + 4 * chunks 3 <= size (free_set demo_sb (rest_txn v 32 1000)))%nat.
Proof.
  unfold addrs_of. rewrite demo_file_disk, (transfer_free demo_sb t0); [|apply demo_same|by apply fk_core, demo_fs_ok].
  pose proof (demo_free _ Hd). change (ind_need (di_addrs file_dinode)) with 1%nat. change (chunks 3) with 1%nat. lia.
Qed.
End demo_open.

(** A descriptor to write the file and one to read it. *)
Definition io_files : files := mk_files [mk_file FD_INODE 1 false true 0 1 0; mk_file FD_INODE 1 true false 0 1 0] [].

Lemma filewrite_correct_witness :
  exists (s : logst) v, tx_rest s v 32 1000 /\
  wp (filewrite false 0 [1; 2; 3] 3) (mk_osfs (mk_fsst s demo_sb io_icache 1 0) io_files []) (fun res s' =>
    res = 3 /\ exists v', content demo_sb (rest_txn v' 32 1000) 2 = [1; 2; 3]).
Proof.
  destruct demo_rest as (s & v & Hr & Hd). exists s, v. split; [exact Hr|].
  assert (Hsz : size_of demo_sb (rest_txn v 32 1000) 2 = 0) by (unfold size_of; by rewrite (demo_file_disk v Hd)).
  eapply wp_conseq.
  - apply (@filewrite_correct logst _ _ _ _ _ s v 32 1000 demo_sb io_icache io_refs 1 0%nat io_files [] false 0%nat
      (mk_file FD_INODE 1 false true 0 1 0) 2 [1; 2; 3]).
    + exact (demo_open v Hd s Hr).
    + reflexivity.
    + reflexivity.
    + reflexivity.
    + reflexivity.
    + repeat constructor; unfold byte_ok; lia.
    + rewrite Hsz. simpl. lia.
    + vm_compute. congruence.
    + exact (demo_io_room v Hd).
  - intros res s' (b' & v' & ic' & -> & _ & _ & _ & Hc & _). split; [reflexivity|]. exists v'. rewrite Hc.
    unfold content. rewrite Hsz. reflexivity.
Defined.

Lemma write_read_roundtrip_witness :
  exists (s : logst) v, tx_rest s v 32 1000 /\
  wp (filewrite false 0 [1; 2; 3] 3;; fileread false 1 3) (mk_osfs (mk_fsst s demo_sb io_icache 1 0) io_files []) (fun '(k, bytes) _ =>
    k = 3 /\ bytes = [1; 2; 3]).
Proof.
  destruct demo_rest as (s & v & Hr & Hd). exists s, v. split; [exact Hr|].
  assert (Hsz : size_of demo_sb (rest_txn v 32 1000) 2 = 0) by (unfold size_of; by rewrite (demo_file_disk v Hd)).
  apply (@write_read_roundtrip logst _ _ _ _ _ s v 32 1000 demo_sb io_icache io_refs 1 0%nat io_files [] false 0%nat 1%nat
      (mk_file FD_INODE 1 false true 0 1 0) (mk_file FD_INODE 1 true false 0 1 0) 2 [1; 2; 3]); try reflexivity.
  - exact (demo_open v Hd s Hr).
  - discriminate.
  - repeat constructor; unfold byte_ok; lia.
  - rewrite Hsz. simpl. lia.
  - vm_compute. congruence.
  - exact (demo_io_room v Hd).
Defined.
