(* ===== verification/ProcMem.v ===== *)
(** Processes with their memory, files and CPUs ([proc.c], [kvmalloc] of [vm.c],
    [struct trapframe] of [x86.h]).

    [os] puts the components together: the process table and locks ([Proc]),
    physical memory ([Kalloc], [Vm]), the segments and registers of the CPUs
    ([Seg]), and files ([SysFile]).  The routines here are the whole functions
    of proc.c that use more than the process table; their parts in [Proc] are
    the ones [ProcOps] interleaves.  A trap frame is where the code has it, in
    the memory of the kernel stack. *)

From S2P Require Import Prelude CString Layout Sleeplock BlockLayer Fs File Pipe TxnLayer SysFile.
From S2P Require Import Spinlock Kalloc Vm Proc Seg.

Record os (P S : Type) := mk_os {
  os_k : kern; os_pg : P; os_cpu : list cpuseg; os_idt : list gatedesc; os_kpgdir : Z; os_io : osfs S
}.
Arguments mk_os {P S} _ _ _ _ _ _.
Arguments os_k {P S} _.
Arguments os_pg {P S} _.
Arguments os_cpu {P S} _.
Arguments os_idt {P S} _.
Arguments os_kpgdir {P S} _.
Arguments os_io {P S} _.
#[export] Instance eta_os (P S : Type) : Settable (os P S) := fun s =>
  mk_os (os_k s) (os_pg s) (os_cpu s) (os_idt s) (os_kpgdir s) (os_io s).

(** [struct trapframe]: its size and the offsets of the fields the kernel uses. *)
Definition TF_SIZE : Z := 76.
Definition TF_eax : Z := 28.
Definition TF_es : Z := 40.
Definition TF_ds : Z := 44.
Definition TF_trapno : Z := 48.
Definition TF_eip : Z := 56.
Definition TF_cs : Z := 60.
Definition TF_eflags : Z := 64.
Definition TF_esp : Z := 68.
Definition TF_ss : Z := 72.
(** [struct context]: five words, [eip] last. *)
Definition CTX_SIZE : Z := 20.
Definition CTX_eip : Z := 16.
Definition FL_IF : Z := 512.

(** [safestrcpy(dst, src, 16)] on the bytes of [p->name]. *)
Fixpoint until_nul (l : list Z) : list Z :=
  match l with
  | [] => []
  | c :: l => if c =? 0 then [] else c :: until_nul l
  end.
Definition copy_name (dst src : list Z) : list Z := splice dst 0 (take 15 (until_nul src) ++ [0]).
Definition initcode_name : list Z := [105; 110; 105; 116; 99; 111; 100; 101].

Section os.
Context {P S : Type} `{!PageOps P} `{!BlockOps S} `{!DevOps S} `{!TxnOps S}.
(** Symbols of the linker: [data], [cpus], [forkret], [trapret]. *)
Variables data cpus forkret_addr trapret_addr : Z.

Definition on_k {A} (m : M kern A) : M (os P S) A := zoom os_k (fun t s => s <| os_k := t |>) m.
Definition on_pg {A} (m : M P A) : M (os P S) A := zoom os_pg (fun t s => s <| os_pg := t |>) m.
Definition on_io {A} (m : M (osfs S) A) : M (os P S) A := zoom os_io (fun t s => s <| os_io := t |>) m.
Definition on_seg {A} (m : M segs A) : M (os P S) A :=
  zoom (fun s => mk_segs (k_mach (os_k s)) (os_cpu s) (os_idt s) (os_kpgdir s))
    (fun t s => s <| os_k := (os_k s) <| k_mach := g_mach t |> |> <| os_cpu := g_cpu t |> <| os_idt := g_idt t |> <| os_kpgdir := g_kpgdir t |>) m.

(** [myproc()->pid] and [myproc()->cwd], which the file system uses. *)
Definition set_cur (p : nat) : M (os P S) () :=
  pid ← on_k (getp p p_pid);
  cwd ← on_k (getp p p_cwd);
  on_io (on_fs (modify (fun f => f <| fs_pid := pid |> <| fs_cwd := default 0%nat cwd |>))).

Definition wr16 (a v : Z) : M P () := modify (fun s => pg_setmem (store (store (pg_mem s) a v) (a + 1) (Z.shiftr v 8)) s).
Definition rd16 (a : Z) : M P Z := gets (fun s => load (pg_mem s) a + 256 * load (pg_mem s) (a + 1)).

Definition kvmalloc (c : nat) : M (os P S) () :=
  r ← on_pg (setupkvm data);
  modify (fun s => s <| os_kpgdir := r |>);;
  on_seg (switchkvm c).

Definition allocproc (id : Z) : M (os P S) (option nat) :=
  o ← on_k (alloc_slot id);
  match o with
  | None => mret None
  | Some np =>
      kstack ← on_pg pg_kalloc;
      if kstack =? 0 then on_k (free_slot np);; mret None
      else
        on_k (set_stack np kstack);;
        let sp := u32 (kstack + KSTACKSIZE - TF_SIZE) in
        let sp := u32 (sp - 4) in
        on_pg (wr sp trapret_addr);;
        let sp := u32 (sp - CTX_SIZE) in
        on_pg (vm_memset sp 0 CTX_SIZE);;
        on_pg (wr (u32 (sp + CTX_eip)) forkret_addr);;
        mret (Some np)
  end.

(** The trap frame of the first process. *)
Definition init_frame (tf : Z) : M P () :=
  vm_memset tf 0 TF_SIZE;;
  wr16 (tf + TF_cs) (Z.lor (Z.shiftl SEG_UCODE 3) DPL_USER);;
  wr16 (tf + TF_ds) (Z.lor (Z.shiftl SEG_UDATA 3) DPL_USER);;
  ds ← rd16 (tf + TF_ds);
  wr16 (tf + TF_es) ds;;
  ds ← rd16 (tf + TF_ds);
  wr16 (tf + TF_ss) ds;;
  wr (tf + TF_eflags) FL_IF;;
  wr (tf + TF_esp) PGSIZE;;
  wr (tf + TF_eip) 0.

(** [initcode] and [initsize] are the binary the linker embeds. *)
Definition userinit (id initcode initsize : Z) : M (os P S) () :=
  o ← allocproc id;
  on_k (modify (fun k => k <| k_initproc := o |>));;
  match o with
  | None => panic "null pointer"
  | Some p =>
      pgdir ← on_pg (setupkvm data);
      on_k (setp p (fun x => x <| p_pgdir := pgdir |>));;
      if pgdir =? 0 then panic "userinit: out of memory?" else
      on_pg (inituvm pgdir initcode initsize);;
      on_k (setp p (fun x => x <| p_sz := PGSIZE |>));;
      tf ← on_k (getp p p_tf);
      on_pg (init_frame tf);;
      on_k (setp p (fun x => x <| p_name := copy_name (p_name x) initcode_name |>));;
      cwd ← on_io (on_fs (namei [SLASH]));
      on_k (setp p (fun x => x <| p_cwd := cwd |>));;
      on_k (make_runnable id p)
  end.

Definition growproc (id n : Z) : M (os P S) Z :=
  p ← on_k (curproc id);
  sz ← on_k (getp p p_sz);
  pgdir ← on_k (getp p p_pgdir);
  r ← (if n >? 0 then
         r ← on_pg (allocuvm pgdir sz (u32 (sz + n)));
         mret (if r =? 0 then None else Some r)
       else if n <? 0 then
         r ← on_pg (deallocuvm pgdir sz (u32 (sz + n)));
         mret (if r =? 0 then None else Some r)
       else mret (Some sz));
  match r with
  | None => mret (-1)
  | Some sz =>
      on_k (setp p (fun x => x <| p_sz := sz |>));;
      kstack ← on_k (getp p p_kstack);
      on_seg (switchuvm cpus id (Some (kstack, pgdir)));;
      mret 0
  end.

Definition fork (id : Z) : M (os P S) Z :=
  p ← on_k (curproc id);
  o ← allocproc id;
  match o with
  | None => mret (-1)
  | Some np =>
      pgdir ← on_k (getp p p_pgdir);
      sz ← on_k (getp p p_sz);
      d ← on_pg (copyuvm data pgdir sz);
      on_k (setp np (fun x => x <| p_pgdir := d |>));;
      if d =? 0 then
        kstack ← on_k (getp np p_kstack);
        on_pg (pg_kfree kstack);;
        on_k (free_slot np);;
        mret (-1)
      else
        on_k (adopt p np);;
        tf ← on_k (getp p p_tf);
        ntf ← on_k (getp np p_tf);
        on_pg (vm_memmove ntf tf TF_SIZE);;
        on_pg (wr (u32 (ntf + TF_eax)) 0);;
        on_io (on_files (fork_files p np));;
        cwd ← on_k (getp p p_cwd);
        cwd ← match cwd with None => panic "null pointer" | Some c => on_io (on_fs (idup c)) end;
        on_k (setp np (fun x => x <| p_cwd := Some cwd |>));;
        name ← on_k (getp p p_name);
        on_k (setp np (fun x => x <| p_name := copy_name (p_name x) name |>));;
        pid ← on_k (getp np p_pid);
        on_k (make_runnable id np);;
        mret pid
  end.

(** [exit] up to the switch to the scheduler. *)
Definition exit (id : Z) : M (os P S) () :=
  p ← on_k (curproc id);
  ini ← on_k (gets k_initproc);
  if bool_decide (ini = Some p) then panic "init exiting" else
  set_cur p;;
  forM (seq 0 NOFILE) (fun fd =>
    f ← on_io (on_files (get_fd p fd));
    match f with
    | None => mret ()
    | Some f => on_io (o_fileclose f);; on_io (on_files (set_fd p fd None))
    end);;
  on_io o_begin_op;;
  cwd ← on_k (getp p p_cwd);
  (match cwd with None => panic "null pointer" | Some c => on_io (on_fs (iput c)) end);;
  on_io o_end_op;;
  on_k (setp p (fun x => x <| p_cwd := None |>));;
  on_k (exit_table id).

(** [wait] reaps the zombie [z]. *)
Definition wait_reap (z : nat) : M (os P S) Z :=
  pid ← on_k (getp z p_pid);
  kstack ← on_k (getp z p_kstack);
  on_pg (pg_kfree kstack);;
  on_k (setp z (fun x => x <| p_kstack := 0 |>));;
  pgdir ← on_k (getp z p_pgdir);
  on_pg (freevm pgdir);;
  on_k (setp z (fun x => x <| p_pid := 0 |>));;
  on_k (setp z (fun x => x <| p_parent := None |>));;
  on_k (setp z (fun x => x <| p_name := <[0%nat := 0]> (p_name x) |>));;
  on_k (setp z (fun x => x <| p_killed := false |>));;
  on_k (setp z (fun x => x <| p_state := UNUSED |>));;
  mret pid.

(** One round of [wait], with the lock held: what it returns, or nothing when
    it goes to sleep. *)
Definition wait_turn (id : Z) : M (os P S) (option Z) :=
  p ← on_k (curproc id);
  o ← on_k (wait_zombie p);
  match o with
  | Some z =>
      pid ← wait_reap z;
      on_k (krelease id PTLOCK);;
      mret (Some pid)
  | None =>
      kids ← on_k (wait_havekids p);
      killed ← on_k (getp p p_killed);
      if negb kids || killed then on_k (krelease id PTLOCK);; mret (Some (-1))
      else on_k (sleep id (CProc p) PTLOCK);; mret None
  end.

(** [wait] up to its return or its first sleep. *)
Definition wait (id : Z) : M (os P S) (option Z) :=
  on_k (kacquire id PTLOCK);;
  wait_turn id.

(** The body of the scheduler's loop at slot [i] up to [swtch], with the page
    table and the task state of the process. *)
Definition scheduler_enter (id : Z) (i : nat) : M (os P S) bool :=
  st ← on_k (getp i p_state);
  if negb (bool_decide (st = RUNNABLE)) then mret false else
  c ← on_k (onm (mycpu id));
  on_k (modify (fun k => k <| k_cproc := <[c := Some i]> (k_cproc k) |>));;
  kstack ← on_k (getp i p_kstack);
  pgdir ← on_k (getp i p_pgdir);
  on_seg (switchuvm cpus id (Some (kstack, pgdir)));;
  on_k (setp i (fun p => p <| p_state := RUNNING |>));;
  on_k (modify (fun k => k <| k_sched := <[c := i]> (k_sched k) |>));;
  mret true.

(** The scheduler after [swtch]: the slot it goes on with. *)
Definition scheduler_leave (id : Z) : M (os P S) nat :=
  c ← on_k (onm (mycpu id));
  on_seg (switchkvm c);;
  on_k (modify (fun k => k <| k_cproc := <[c := None]> (k_cproc k) |>));;
  i ← on_k (gets (fun k => k_sched k !!! c));
  mret (Datatypes.S i).
End os.
