(* ===== verification/Exec.v ===== *)
(** [exec] ([exec.c], [elf.h]).

    The whole function over the state of [ProcMem]: it reads the program through
    the file system, builds a new address space next to the old one, and
    replaces the old one at the end.  [path] and the strings of [argv] are the
    bytes [sys_exec] has found in the memory of the process ([Syscall]); the
    local variables [elf], [ph] and [ustack] are values.  The message of
    [cprintf] on a missing file is not part of this state. *)

From S2P Require Import Prelude CString Layout Sleeplock BlockLayer Fs File Pipe TxnLayer SysFile.
From S2P Require Import Spinlock Kalloc Vm Proc Seg ProcMem.

Definition ELF_MAGIC : Z := 1179403647.
Definition ELF_PROG_LOAD : Z := 1.

(** [struct elfhdr], without the fields nobody reads. *)
Record elfhdr := mk_elfhdr { eh_magic : Z; eh_entry : Z; eh_phoff : Z; eh_phnum : Z }.
Definition ELFHDR_SIZE : Z := 52.
Definition elf_of (buf : list Z) : elfhdr :=
  let b := u8 <$> buf in mk_elfhdr (get32 b 0) (get32 b 24) (get32 b 28) (get16 b 44).

Record proghdr := mk_proghdr {
  ph_type : Z; ph_off : Z; ph_vaddr : Z; ph_paddr : Z; ph_filesz : Z; ph_memsz : Z; ph_flags : Z; ph_align : Z
}.
Definition PROGHDR_SIZE : Z := 32.
Definition ph_of (buf : list Z) : proghdr :=
  let b := u8 <$> buf in
  mk_proghdr (get32 b 0) (get32 b 4) (get32 b 8) (get32 b 12) (get32 b 16) (get32 b 20) (get32 b 24) (get32 b 28).

(** The part of [path] after the last slash. *)
Fixpoint last_elem (last path : list Z) : list Z :=
  match path with
  | [] => last
  | c :: s => last_elem (if c =? SLASH then s else last) s
  end.

Section copy.
Context {P : Type} `{!PageOps P}.

Definition wr_bytes (a : Z) (bytes : list Z) : M P () :=
  modify (fun s => pg_setmem (fun x => if in_range x a (Z.of_nat (length bytes)) then u8 (bytes !!! Z.to_nat (x - a)) else pg_mem s x) s).

(** [copyout] of bytes that are not in modelled memory. *)
Fixpoint copyout_bytes_loop (fuel : nat) (pgdir va : Z) (buf : list Z) : M P Z :=
  match fuel with
  | O => mret 0
  | Datatypes.S fuel =>
      let len := Z.of_nat (length buf) in
      if len >? 0 then
        let va0 := PGROUNDDOWN va in
        pa0 ← uva2ka pgdir va0;
        if pa0 =? 0 then mret (-1) else
        let n := u32 (PGSIZE - (va - va0)) in
        let n := if n >? len then len else n in
        wr_bytes (u32 (pa0 + (va - va0))) (take (Z.to_nat n) buf);;
        copyout_bytes_loop fuel pgdir (u32 (va0 + PGSIZE)) (drop (Z.to_nat n) buf)
      else mret 0
  end.
Definition copyout_bytes (pgdir va : Z) (buf : list Z) : M P Z :=
  copyout_bytes_loop (Z.to_nat (Z.of_nat (length buf) / PGSIZE) + 2) pgdir va buf.

(** The [for] over [argv]: the stack pointer and the argument pointers, or
    nothing when it leaves through [bad]. *)
Fixpoint push_args (pgdir sp : Z) (argc : nat) (argv : list (list Z)) : M P (option (Z * list Z)) :=
  match argv with
  | [] => mret (Some (sp, []))
  | s :: argv =>
      if MAXARG <=? Z.of_nat argc then mret None else
      let sp := Z.land (u32 (sp - (Z.of_nat (length s) + 1))) (Z.lnot 3) in
      r ← copyout_bytes pgdir sp (s ++ [0]);
      if r <? 0 then mret None else
      o ← push_args pgdir sp (Datatypes.S argc) argv;
      match o with
      | None => mret None
      | Some (sp', ptrs) => mret (Some (sp', sp :: ptrs))
      end
  end.

(** The strings and, under them, [ustack]: the new stack pointer. *)
Definition put_stack (pgdir sz : Z) (argv : list (list Z)) : M P (option Z) :=
  o ← push_args pgdir sz 0 argv;
  match o with
  | None => mret None
  | Some (sp, ptrs) =>
      let argc := Z.of_nat (length ptrs) in
      let ustack := [4294967295; argc; u32 (sp - (argc + 1) * 4)] ++ ptrs ++ [0] in
      let sp := u32 (sp - (3 + argc + 1) * 4) in
      r ← copyout_bytes pgdir sp (words_encode ustack);
      if r <? 0 then mret None else mret (Some sp)
  end.
End copy.

Section exec.
Context {P S : Type} `{!PageOps P} `{!BlockOps S} `{!DevOps S} `{!TxnOps S}.
Variables cpus data : Z.

(** Memory operations of the whole state, for the loop of [loaduvm] that reads
    the file. *)
Definition os_page_ops : PageOps (os P S) := {|
  pg_kalloc := on_pg pg_kalloc;
  pg_kfree := fun v => on_pg (pg_kfree v);
  pg_mem := fun s => pg_mem (os_pg s);
  pg_setmem := fun m s => s <| os_pg := pg_setmem m (os_pg s) |>
|}.

Definition o_readi (ip : nat) (off n : Z) : M (os P S) (Z * list Z) := on_io (on_fs (readi ip off n)).
Definition o_loaduvm (pgdir addr : Z) (ip : nat) (offset sz : Z) : M (os P S) Z :=
  @loaduvm (os P S) os_page_ops (o_readi ip) pgdir addr offset sz.

(** One turn of the loop over the program headers. *)
Definition load_segment (ip : nat) (pgdir sz off : Z) : M (os P S) (option Z) :=
  '(r, b) ← o_readi ip off PROGHDR_SIZE;
  if negb (r =? PROGHDR_SIZE) then mret None else
  let ph := ph_of b in
  if negb (ph_type ph =? ELF_PROG_LOAD) then mret (Some sz) else
  if ph_memsz ph <? ph_filesz ph then mret None else
  if u32 (ph_vaddr ph + ph_memsz ph) <? ph_vaddr ph then mret None else
  sz ← on_pg (allocuvm pgdir sz (u32 (ph_vaddr ph + ph_memsz ph)));
  if sz =? 0 then mret None else
  if negb (ph_vaddr ph mod PGSIZE =? 0) then mret None else
  r ← o_loaduvm pgdir (ph_vaddr ph) ip (ph_off ph) (ph_filesz ph);
  if r <? 0 then mret None else mret (Some sz).

Fixpoint load_segments (n : nat) (ip : nat) (pgdir sz off : Z) : M (os P S) (option Z) :=
  match n with
  | O => mret (Some sz)
  | Datatypes.S n =>
      o ← load_segment ip pgdir sz off;
      match o with
      | None => mret None
      | Some sz => load_segments n ip pgdir sz (u32 (off + PROGHDR_SIZE))
      end
  end.

(** The stack: two pages, the first not for the user, the arguments and
    [ustack]; the new size and stack pointer. *)
Definition build_stack (pgdir sz : Z) (argv : list (list Z)) : M (os P S) (option (Z * Z)) :=
  let sz := PGROUNDUP sz in
  sz ← on_pg (allocuvm pgdir sz (u32 (sz + 2 * PGSIZE)));
  if sz =? 0 then mret None else
  on_pg (clearpteu pgdir (u32 (sz - 2 * PGSIZE)));;
  o ← on_pg (put_stack pgdir sz argv);
  match o with
  | None => mret None
  | Some sp => mret (Some (sz, sp))
  end.

(** [bad], with the directory if there is one and the inode if it is locked. *)
Definition exec_bad (pgdir : Z) (ip : option nat) : M (os P S) Z :=
  when (negb (pgdir =? 0)) (on_pg (freevm pgdir));;
  (match ip with
   | None => mret ()
   | Some ip => on_io (on_fs (iunlockput ip));; on_io o_end_op
   end);;
  mret (-1).

(** From [safestrcpy] to the end. *)
Definition exec_commit (id : Z) (p : nat) (path : list Z) (pgdir sz entry sp : Z) : M (os P S) Z :=
  on_k (setp p (fun x => x <| p_name := copy_name (p_name x) (last_elem path path) |>));;
  oldpgdir ← on_k (getp p p_pgdir);
  on_k (setp p (fun x => x <| p_pgdir := pgdir |>));;
  on_k (setp p (fun x => x <| p_sz := sz |>));;
  tf ← on_k (getp p p_tf);
  on_pg (wr (tf + TF_eip) entry);;
  on_pg (wr (tf + TF_esp) sp);;
  kstack ← on_k (getp p p_kstack);
  on_seg (switchuvm cpus id (Some (kstack, pgdir)));;
  on_pg (freevm oldpgdir);;
  mret 0.

(** The program is loaded: the stack, and the new image. *)
Definition exec_run (id : Z) (p : nat) (path : list Z) (argv : list (list Z)) (pgdir sz entry : Z) : M (os P S) Z :=
  o ← build_stack pgdir sz argv;
  match o with
  | None => exec_bad pgdir None
  | Some (sz, sp) => exec_commit id p path pgdir sz entry sp
  end.

Definition exec (id : Z) (path : list Z) (argv : list (list Z)) : M (os P S) Z :=
  p ← on_k (curproc id);
  set_cur p;;
  on_io o_begin_op;;
  o ← on_io (on_fs (namei path));
  match o with
  | None => on_io o_end_op;; mret (-1)
  | Some ip =>
      on_io (on_fs (ilock ip));;
      '(r, b) ← o_readi ip 0 ELFHDR_SIZE;
      if negb (r =? ELFHDR_SIZE) then exec_bad 0 (Some ip) else
      let elf := elf_of b in
      if negb (eh_magic elf =? ELF_MAGIC) then exec_bad 0 (Some ip) else
      pgdir ← on_pg (setupkvm data);
      if pgdir =? 0 then exec_bad 0 (Some ip) else
      o ← load_segments (Z.to_nat (eh_phnum elf)) ip pgdir 0 (eh_phoff elf);
      match o with
      | None => exec_bad pgdir (Some ip)
      | Some sz =>
          on_io (on_fs (iunlockput ip));;
          on_io o_end_op;;
          exec_run id p path argv pgdir sz (eh_entry elf)
      end
  end.
End exec.
