(* ===== verification/ExecMem.v ===== *)
(** The memory side of [exec]: writing into an address space under construction.

    [shows s e n img]: the first [n] pages of the address space with entries [e]
    hold the bytes [img].  [copyout_bytes], the argument strings and the user
    stack change [img] by [put_img].  The second part is the stack: a guard page, the
    argument strings and the argument vector, and the arguments as [main] finds
    them. *)

From S2P Require Import Prelude CString Layout Sleeplock BlockLayer Fs File Pipe TxnLayer SysFile.
From S2P Require Import Spinlock Kalloc Vm VmRep VmUser VmCopy VmOut VmSpace Proc Seg ProcMem Exec.

(** [bytes] at address [a]. *)
Definition put_img (img : Z -> Z) (a : Z) (bytes : list Z) (x : Z) : Z :=
  if in_range x a (Z.of_nat (length bytes)) then u8 (bytes !!! Z.to_nat (x - a)) else img x.

Lemma put_img_app img a b1 b2 x : put_img (put_img img a b1) (a + Z.of_nat (length b1)) b2 x = put_img img a (b1 ++ b2) x.
Proof.
  unfold put_img, in_range. rewrite length_app. destruct (Z.leb_spec a x), (Z.ltb_spec x (a + Z.of_nat (length b1))),
    (Z.leb_spec (a + Z.of_nat (length b1)) x), (Z.ltb_spec x (a + Z.of_nat (length b1) + Z.of_nat (length b2))),
    (Z.ltb_spec x (a + Z.of_nat (length b1 + length b2))); simpl; try lia; try done.
  - rewrite lookup_total_app_l by lia. done.
  - rewrite lookup_total_app_r by lia. do 2 f_equal. lia.
Qed.

Lemma put_img_nil img a x : put_img img a [] x = img x.
Proof. unfold put_img, in_range. change (Z.of_nat (length [])) with 0. destruct (Z.leb_spec a x), (Z.ltb_spec x (a + 0)); simpl; try done; lia. Qed.

(** Where the argument strings go: each below the one before, at a multiple of
    4.  The final stack pointer, the addresses and the image. *)
Definition arg_sp (sp : Z) (s : list Z) : Z := Z.land (sp - (Z.of_nat (length s) + 1)) (Z.lnot 3).
Fixpoint place_args (img : Z -> Z) (sp : Z) (argv : list (list Z)) : Z * list Z * (Z -> Z) :=
  match argv with
  | [] => (sp, [], img)
  | s :: argv =>
      let '(sp', ptrs, img') := place_args (put_img img (arg_sp sp s) (s ++ [0])) (arg_sp sp s) argv in
      (sp', arg_sp sp s :: ptrs, img')
  end.
Fixpoint args_end (sp : Z) (argv : list (list Z)) : Z :=
  match argv with [] => sp | s :: argv => args_end (arg_sp sp s) argv end.
Definition args_size (argv : list (list Z)) : Z := foldr (fun s n => Z.of_nat (length s) + 4 + n) 0 argv.

Lemma land_4 x : Z.land x (Z.lnot 3) = 4 * (x / 4).
Proof.
  rewrite <- Z.ldiff_land. change 3 with (Z.ones 2). rewrite Z.ldiff_ones_r by lia. rewrite Z.shiftl_mul_pow2, Z.shiftr_div_pow2 by lia. change (2 ^ 2) with 4. lia.
Qed.

Lemma arg_sp_bounds sp s : sp - (Z.of_nat (length s) + 4) <= arg_sp sp s <= sp - (Z.of_nat (length s) + 1) /\ arg_sp sp s mod 4 = 0.
Proof.
  unfold arg_sp. rewrite land_4. split; [|rewrite Z.mul_comm; by apply Z.mod_mul]. set (x := sp - (Z.of_nat (length s) + 1)).
  pose proof (Z.div_mod x 4 ltac:(lia)). pose proof (Z.mod_pos_bound x 4 ltac:(lia)). unfold x in *. lia.
Qed.

Lemma arg_pages e sp a v : (forall x, arg_sp sp a <= x < arg_sp sp a + (Z.of_nat (length a) + 1) -> user_page e (x / 4096) = true) ->
  arg_sp sp a / 4096 <= v < sp / 4096 -> user_page e v = true.
Proof.
  intros Hu Hv. pose proof (arg_sp_bounds sp a) as [Hb _]. pose proof (Z.div_mod (arg_sp sp a) 4096 ltac:(lia)). pose proof (Z.mod_pos_bound (arg_sp sp a) 4096 ltac:(lia)).
  pose proof (Z.div_mod sp 4096 ltac:(lia)). pose proof (Z.mod_pos_bound sp 4096 ltac:(lia)).
  set (x := Z.max (arg_sp sp a) (4096 * v)). replace v with (x / 4096); [apply Hu; lia|]. symmetry. apply (Z.div_unique_pos _ _ _ (x - 4096 * v)); lia.
Qed.

Lemma args_end_bounds argv : forall sp, sp - args_size argv <= args_end sp argv <= sp.
Proof.
  induction argv as [|s argv IH]; intros sp; unfold args_size in *; cbn [args_end foldr]; [lia|]. specialize (IH (arg_sp sp s)).
  pose proof (arg_sp_bounds sp s) as [H _]. lia.
Qed.

Lemma args_size_pos argv : 0 <= args_size argv.
Proof. induction argv as [|s argv IH]; [done|]. unfold args_size in *. cbn [foldr]. lia. Qed.

Lemma put_img_ext i1 i2 a bytes x : i1 x = i2 x -> put_img i1 a bytes x = put_img i2 a bytes x.
Proof. intros E. unfold put_img. by destruct (in_range _ _ _). Qed.

Lemma place_args_ext argv : forall i1 i2 sp, (forall x, i1 x = i2 x) ->
  fst (place_args i1 sp argv) = fst (place_args i2 sp argv) /\ forall x, snd (place_args i1 sp argv) x = snd (place_args i2 sp argv) x.
Proof.
  induction argv as [|s argv IH]; intros i1 i2 sp E; [done|]. cbn [place_args].
  destruct (IH (put_img i1 (arg_sp sp s) (s ++ [0])) (put_img i2 (arg_sp sp s) (s ++ [0])) (arg_sp sp s)) as [H1 H2]; [intros x; by apply put_img_ext|].
  destruct (place_args (put_img i1 _ _) _ argv) as [[a b] c], (place_args (put_img i2 _ _) _ argv) as [[a' b'] c']. cbn in *. by simplify_eq.
Qed.

Lemma place_args_end argv : forall img sp, fst (fst (place_args img sp argv)) = args_end sp argv.
Proof.
  induction argv as [|s argv IH]; intros img sp; [done|]. cbn [place_args args_end]. specialize (IH (put_img img (arg_sp sp s) (s ++ [0])) (arg_sp sp s)).
  by destruct (place_args _ _ argv) as [[sp' ptrs] img'].
Qed.

Section mem.
Context {P : Type} `{!PageOps P} `{!PageLayer P}.
Variable data : Z.
Hypothesis Hdata : data_ok data.
Implicit Types (s : P) (F Y : gset Z) (e img : Z -> Z).

Definition shows s e (n : Z) img : Prop := forall va, 0 <= va < 4096 * n -> pg_mem s (uaddr e va) = img va.

(** The memory after a write. *)
Definition put_mem (m : mem) (a : Z) (bytes : list Z) : mem :=
  fun x => if in_range x a (Z.of_nat (length bytes)) then u8 (bytes !!! Z.to_nat (x - a)) else m x.

Lemma put_mem_bytes m a bytes : mem_bytes m -> mem_bytes (put_mem m a bytes).
Proof. intros Hm x. unfold put_mem, u8. destruct (in_range _ _ _); [apply Z.mod_pos_bound; lia|apply Hm]. Qed.

(** A write inside one user page. *)
Lemma frame_write s F pgdir e n Y img v o bytes :
  aspace data s F pgdir e n Y -> shows s e n img -> 0 <= v < n -> 0 <= o -> o + Z.of_nat (length bytes) <= 4096 ->
  let s' := pg_setmem (put_mem (pg_mem s) (frame_of (e v) + o) bytes) s in
  aspace data s' F pgdir e n Y /\ shows s' e n (put_img img (4096 * v + o) bytes) /\ same_except Y (pg_mem s) (pg_mem s').
Proof.
  intros Ha Hsh Hv Ho Hl s'. pose proof (proj1 Ha) as [Hn Hin _ _]. pose proof (aspace_frame _ _ _ _ _ _ _ _ Ha Hv) as HY.
  pose proof (aspace_pages _ _ _ _ _ _ _ _ Ha HY) as Hpo. pose proof (aspace_rep _ _ _ _ _ _ _ Ha) as Hrep.
  assert (Hsame : same_except {[frame_of (e v)]} (pg_mem s) (put_mem (pg_mem s) (frame_of (e v) + o) bytes)).
  { intros q a Hq Hqn Hqa. unfold put_mem, in_range. destruct (Z.leb_spec (frame_of (e v) + o) a), (Z.ltb_spec a (frame_of (e v) + o + Z.of_nat (length bytes))); simpl; try done.
    exfalso. apply (pages_apart q (frame_of (e v)) a); try done; [apply Hpo|clear -Hqn; set_solver|]. unfold in_page, PGSIZE. lia. }
  split; [|split].
  - eapply aspace_write; [exact Ha| |by apply Hin|exact Hsame|apply put_mem_bytes, (pg_bytes _ _ Hrep)]. unfold UPAGES in *. lia.
  - intros va Hva. unfold s'. rewrite pg_mem_set. unfold put_mem, put_img, in_range, uaddr. pose proof (vpn_of va n Hva) as Hvp.
    pose proof (Z.div_mod va 4096 ltac:(lia)) as Hdm. pose proof (Z.mod_pos_bound va 4096 ltac:(lia)) as Hmb.
    destruct (decide (va / 4096 = v)) as [Ev|Hne].
    + rewrite Ev. destruct (Z.leb_spec (frame_of (e v) + o) (frame_of (e v) + va mod 4096)), (Z.leb_spec (4096 * v + o) va); try lia;
        destruct (Z.ltb_spec (frame_of (e v) + va mod 4096) (frame_of (e v) + o + Z.of_nat (length bytes))), (Z.ltb_spec va (4096 * v + o + Z.of_nat (length bytes))); try lia; simpl;
        try (rewrite <- Ev at 1; by apply Hsh).
      do 3 f_equal. lia.
    + assert (Hf : frame_of (e (va / 4096)) <> frame_of (e v)).
      { intros E. apply Hne. destruct Ha as (_ & T & Hu & _). eapply (u_inj _ _ _ _ _ Hu); [unfold UPAGES in *; lia|unfold UPAGES in *; lia|apply Hin; lia|apply Hin; lia|done]. }
      assert (Hpo' : page_ok pg_end (frame_of (e (va / 4096)))) by (eapply aspace_pages; [exact Ha|by eapply aspace_frame]).
      assert (Hnin : ~ in_page (frame_of (e v)) (frame_of (e (va / 4096)) + va mod 4096)).
      { eapply (pages_apart (frame_of (e (va / 4096))) (frame_of (e v))); [apply Hpo'|apply Hpo|done|unfold in_page, PGSIZE; lia]. }
      unfold in_page, PGSIZE in Hnin.
      destruct (Z.leb_spec (frame_of (e v) + o) (frame_of (e (va / 4096)) + va mod 4096)), (Z.ltb_spec (frame_of (e (va / 4096)) + va mod 4096) (frame_of (e v) + o + Z.of_nat (length bytes))); simpl; try lia;
      destruct (Z.leb_spec (4096 * v + o) va), (Z.ltb_spec va (4096 * v + o + Z.of_nat (length bytes))); simpl; try (by apply Hsh); exfalso; apply Hne; symmetry; apply (Z.div_unique_pos _ _ _ (va - 4096 * v)); lia.
  - unfold s'. rewrite pg_mem_set. eapply same_except_weaken; [|exact Hsame]. clear -HY. set_solver.
Qed.
Lemma wp_uva2ka_space s F pgdir e n Y v (Q : Z -> P -> Prop) :
  aspace data s F pgdir e n Y -> 0 <= v < n -> Q (if user_page e v then frame_of (e v) else 0) s -> wp (uva2ka pgdir (4096 * v)) s Q.
Proof.
  intros ([Hn Hin _ _] & T & Hu & _) Hv HQ. assert (Hvu : 0 <= v < UPAGES) by lia.
  destruct (present_tab _ _ _ _ _ v (u_vm _ _ _ _ _ Hu)) as [p Hp]; [unfold UPAGES in *; lia|by apply Hin|]. by eapply wp_uva2ka.
Qed.

(** The pages of devices are not the user's. *)
Lemma wp_uva2ka_dev s F pgdir e n Y v (Q : Z -> P -> Prop) :
  aspace data s F pgdir e n Y -> DEVSPACE <= 4096 * v < 2 ^ 32 -> Q 0 s -> wp (uva2ka pgdir (4096 * v)) s Q.
Proof.
  intros ([_ _ _ Hk] & T & Hu & _) Hv HQ. unfold DEVSPACE in Hv. pose proof (u_vm _ _ _ _ _ Hu) as Hvm.
  assert (Ev : e v = mkpte (4096 * v) PTE_W).
  { rewrite Hk by (unfold UPAGES; lia). unfold kern_pte. destruct Hdata as [Hd _].
    unfold DEVSPACE, KERNLINK, KERNBASE, PHYSTOP, EXTMEM in *.
    do 3 rewrite (proj2 (Z.ltb_ge (4096 * v) _)) by lia. rewrite !andb_false_r. by rewrite (proj2 (Z.leb_le _ (4096 * v))) by lia. }
  assert (Evpn : 4096 * v / 4096 = v) by (rewrite Z.mul_comm; apply Z.div_mul; lia).
  destruct (present_tab _ _ _ _ _ v Hvm) as [p Hp]; [lia|by rewrite Ev, mkpte_present|].
  assert (Hva : 0 <= 4096 * v < 2 ^ 32) by lia. unfold uva2ka. wp_step. apply (wp_walk s F pgdir T e _ _ Hvm Hva). rewrite Hp.
  wp_step. apply (wp_rd_pte _ _ _ _ _ _ _ _ Hvm Hva Hp). rewrite Evpn, Ev, mkpte_present. cbn [negb].
  replace (Z.land (mkpte (4096 * v) PTE_W) PTE_U) with 0; [change (0 =? 0) with true; cbv iota; by wp_step|]. symmetry. apply mkpte_no_user; [|by right].
  rewrite Z.mul_comm. by apply Z.mod_mul.
Qed.

(** What [copyout_bytes] does below the size: all the bytes arrive, or it
    stops at a page the user may not access. *)
Definition copy_post s F pgdir e (n : Z) Y img (va : Z) (bytes : list Z) (r : Z) s' : Prop :=
  exists img', aspace data s' F pgdir e n Y /\ shows s' e n img' /\ same_except Y (pg_mem s) (pg_mem s') /\
    (r = 0 /\ (forall x, img' x = put_img img va bytes x) /\ (forall x, va <= x < va + Z.of_nat (length bytes) -> user_page e (x / 4096) = true) \/
     r = -1 /\ exists v, va / 4096 <= v <= last_vpn va (Z.of_nat (length bytes)) /\ user_page e v = false).

Lemma wp_copyout_bytes_loop F pgdir e n Y : forall fuel s img va bytes (Q : Z -> P -> Prop),
  aspace data s F pgdir e n Y -> shows s e n img -> 0 <= va -> va + Z.of_nat (length bytes) <= 4096 * n ->
  (0 < Z.of_nat (length bytes) -> last_vpn va (Z.of_nat (length bytes)) - va / 4096 < Z.of_nat fuel) ->
  (forall r s', copy_post s F pgdir e n Y img va bytes r s' -> Q r s') -> wp (copyout_bytes_loop fuel pgdir va bytes) s Q.
Proof.
  assert (Hnil : forall s img va bytes (Q : Z -> P -> Prop), aspace data s F pgdir e n Y -> shows s e n img -> length bytes = 0%nat ->
    (forall r s', copy_post s F pgdir e n Y img va bytes r s' -> Q r s') -> Q 0 s).
  { intros s img va bytes Q Ha Hs Hl HQ. apply HQ. exists img. split_and!; [done|done|apply same_except_refl|]. left. split; [done|].
    apply nil_length_inv in Hl as ->. split; [intros x; by rewrite put_img_nil|cbn [length]; lia]. }
  induction fuel as [|fuel IH]; intros s img va bytes Q Ha Hs Hva Hlen Hfu HQ; simpl; set (len := Z.of_nat (length bytes)) in *.
  { wp_step. eapply (Hnil s img va bytes); [exact Ha|exact Hs| |exact HQ]. destruct (decide (0 < len)); [|unfold len in *; lia]. destruct (first_chunk va len) as (_ & _ & _ & ?); lia. }
  rewrite Z.gtb_ltb. destruct (Z.ltb_spec 0 len) as [Hpos|]; [|wp_step; eapply (Hnil s img va bytes); [exact Ha|exact Hs|unfold len in *; lia|exact HQ]].
  destruct (first_chunk va len Hva Hpos) as (Hn & Hi & Hnext & Hlast). set (k := Z.min (4096 - va mod 4096) len) in *.
  pose proof (proj1 Ha) as [Hnu _ _ _]. pose proof (vpn_of va n ltac:(lia)) as Hv. pose proof (Z.mod_pos_bound va 4096 ltac:(lia)) as Ho.
  pose proof (Z.div_mod va 4096 ltac:(lia)) as Edm. rewrite round_down. unfold PGSIZE. replace (va - va mod 4096) with (4096 * (va / 4096)) by lia.
  wp_step. apply (wp_uva2ka_space s F pgdir e n Y); [done|done|]. destruct (user_page e (va / 4096)) eqn:Eu.
  2: { change (0 =? 0) with true. cbv iota. wp_step. apply HQ. exists img. split_and!; [done|done|apply same_except_refl|]. right. split; [done|]. exists (va / 4096). split; [fold len; lia|done]. }
  assert (Hhere : forall x, va <= x < va + k -> user_page e (x / 4096) = true).
  { intros x Hx. rewrite <- Eu. f_equal. symmetry. apply (Z.div_unique_pos _ _ _ (x - 4096 * (va / 4096))); lia. }
  pose proof (aspace_frame _ _ _ _ _ _ _ _ Ha Hv) as HY. pose proof (aspace_pages _ _ _ _ _ _ _ _ Ha HY) as Hpo.
  destruct (page_bounds pg_end pg_end_ok _ Hpo) as (B0 & B1 & B2). pose proof (page_range pg_end _ (proj1 pg_end_ok) Hpo) as Hpr. rewrite (proj2 (Z.eqb_neq _ 0)) by (unfold KERNBASE in Hpr; lia).
  replace (va - 4096 * (va / 4096)) with (va mod 4096) by lia. rewrite (u32_small (4096 - _)) by lia.
  replace (if 4096 - va mod 4096 >? len then len else 4096 - va mod 4096) with k
    by (unfold k; rewrite Z.gtb_ltb; destruct (Z.ltb_spec len (4096 - va mod 4096)); lia).
  unfold wr_bytes. do 2 wp_step. rewrite (u32_small (frame_of _ + _)) by lia. set (b1 := take (Z.to_nat k) bytes).
  assert (Hl1 : Z.of_nat (length b1) = k) by (unfold b1; rewrite length_take; unfold len in *; lia).
  destruct (frame_write s F pgdir e n Y img (va / 4096) (va mod 4096) b1 Ha Hs Hv ltac:(lia) ltac:(lia)) as (Ha1 & Hs1 & Hsm1).
  rewrite <- Edm in Hs1. fold (put_mem (pg_mem s) (frame_of (e (va / 4096)) + va mod 4096) b1). set (s1 := pg_setmem _ s) in *.
  assert (Hsplit : b1 ++ drop (Z.to_nat k) bytes = bytes) by apply take_drop.
  assert (Hl2 : Z.of_nat (length (drop (Z.to_nat k) bytes)) = len - k) by (rewrite length_drop; unfold len in *; lia).
  rewrite (u32_small (4096 * (va / 4096) + 4096)) by (unfold UPAGES in *; lia).
  destruct (decide (k < len)) as [Hlt|Hge].
  - specialize (Hnext Hlt). replace (4096 * (va / 4096) + 4096) with (va + k) by lia.
    assert (El : last_vpn (va + k) (len - k) = last_vpn va len) by (unfold last_vpn; f_equal; lia).
    assert (Ev : (va + k) / 4096 = va / 4096 + 1) by (rewrite Hnext, Z.mul_comm; apply Z.div_mul; lia).
    apply (IH s1 (put_img img va b1) (va + k) (drop (Z.to_nat k) bytes)); [done|done|lia|lia|rewrite Hl2, El, Ev; lia|].
    intros r s2 (img2 & Ha2 & Hs2 & Hsm2 & Hr). apply HQ. exists img2. split_and!; [done|done| |].
    + eapply same_except_weaken; [|eapply same_except_trans; [exact Hsm1|exact Hsm2]]. clear. set_solver.
    + destruct Hr as [(-> & Hx & Hus)|[-> (v & Hv' & Hu')]]; [left|right]; (split; [done|]).
      * split.
        -- intros x. rewrite Hx. replace (va + k) with (va + Z.of_nat (length b1)) by lia. by rewrite put_img_app, Hsplit.
        -- intros x Hxr. destruct (Z.lt_ge_cases x (va + k)); [apply Hhere; lia|]. apply Hus. rewrite Hl2. fold len in Hxr. lia.
      * exists v. rewrite Hl2, El, Ev in Hv'. split; [fold len; lia|done].
  - assert (Hnil2 : drop (Z.to_nat k) bytes = []) by (apply nil_length_inv; lia). rewrite Hnil2 in *. rewrite app_nil_r in Hsplit.
    assert (Hend : Q 0 s1); [|destruct fuel; simpl; by wp_step]. apply HQ. exists (put_img img va b1). split_and!; try done. left. split; [done|]. rewrite Hsplit. split; [done|]. intros x Hx. apply Hhere. fold len in Hx. lia.
Qed.

(** At the devices' addresses nothing is written. *)
Lemma wp_copyout_dev s F pgdir e n Y va bytes (Q : Z -> P -> Prop) :
  aspace data s F pgdir e n Y -> DEVSPACE <= va < 2 ^ 32 -> bytes <> [] -> Q (-1) s -> wp (copyout_bytes pgdir va bytes) s Q.
Proof.
  intros Ha Hva Hb HQ. unfold copyout_bytes. rewrite Nat.add_comm. simpl. destruct bytes as [|x bytes]; [done|]. rewrite Z.gtb_ltb, (proj2 (Z.ltb_lt _ _)) by (cbn [length]; lia).
  pose proof (Z.div_mod va 4096 ltac:(lia)). pose proof (Z.mod_pos_bound va 4096 ltac:(lia)). rewrite round_down. unfold PGSIZE, DEVSPACE in *.
  replace (va - va mod 4096) with (4096 * (va / 4096)) by lia. wp_step. apply (wp_uva2ka_dev s F pgdir e n Y); [done|unfold DEVSPACE; lia|].
  change (0 =? 0) with true. cbv iota. by wp_step.
Qed.

Lemma wp_copyout_bytes s F pgdir e n Y img va bytes (Q : Z -> P -> Prop) :
  aspace data s F pgdir e n Y -> shows s e n img -> 0 <= va -> va + Z.of_nat (length bytes) <= 4096 * n ->
  (forall r s', copy_post s F pgdir e n Y img va bytes r s' -> Q r s') -> wp (copyout_bytes pgdir va bytes) s Q.
Proof.
  intros Ha Hs Hva Hl HQ. unfold copyout_bytes. apply (wp_copyout_bytes_loop F pgdir e n Y _ s img); try done. intros Hpos. set (len := Z.of_nat (length bytes)) in *.
  unfold last_vpn, PGSIZE. pose proof (Z.div_mod va 4096 ltac:(lia)). pose proof (Z.div_mod len 4096 ltac:(lia)).
  pose proof (Z.div_mod (va + len - 1) 4096 ltac:(lia)). pose proof (Z.mod_pos_bound va 4096 ltac:(lia)).
  pose proof (Z.mod_pos_bound len 4096 ltac:(lia)). pose proof (Z.mod_pos_bound (va + len - 1) 4096 ltac:(lia)).
  assert (0 <= len / 4096) by (apply Z.div_pos; lia). lia.
Qed.
(** What the loop over the arguments leaves: all the strings in place; or it
    gives up, for too many of them, or because they reach below the pages
    of the user. *)
Definition push_post s F pgdir e (n : Z) Y img (sp : Z) (argc : nat) argv (o : option (Z * list Z)) s' : Prop :=
  exists img', aspace data s' F pgdir e n Y /\ shows s' e n img' /\ same_except Y (pg_mem s) (pg_mem s') /\
    match o with
    | Some (sp', ptrs) => (sp', ptrs) = fst (place_args img sp argv) /\ (forall x, img' x = snd (place_args img sp argv) x) /\ 0 <= sp' /\
        (forall v, sp' / 4096 <= v < sp / 4096 -> user_page e v = true) /\ (argv = [] \/ Z.of_nat (argc + length argv) <= MAXARG)
    | None => MAXARG < Z.of_nat (argc + length argv) \/ args_end sp argv < 0 \/
        exists v, args_end sp argv / 4096 <= v <= (sp - 1) / 4096 /\ user_page e v = false
    end.

Lemma wp_push_args F pgdir e n Y : forall argv s img sp argc (Q : option (Z * list Z) -> P -> Prop),
  aspace data s F pgdir e n Y -> shows s e n img -> 0 <= sp <= 4096 * n -> args_size argv <= 2 ^ 25 ->
  (forall o s', push_post s F pgdir e n Y img sp argc argv o s' -> Q o s') -> wp (push_args pgdir sp argc argv) s Q.
Proof.
  induction argv as [|a argv IH]; intros s img sp argc Q Ha Hs Hsp Hsz HQ; cbn [push_args].
  { wp_step. apply HQ. exists img. split; [done|]. split; [done|]. split; [apply same_except_refl|]. cbn [place_args fst snd]. split; [done|]. split; [done|]. split; [lia|]. split; [lia|by left]. }
  pose proof (args_size_pos argv) as Hp0. assert (Hsz' : Z.of_nat (length a) + 4 + args_size argv <= 2 ^ 25) by done.
  pose proof (proj1 Ha) as [Hnu _ _ _]. pose proof (arg_sp_bounds sp a) as [Hb _]. pose proof (args_end_bounds argv (arg_sp sp a)) as He.
  destruct (Z.leb_spec MAXARG (Z.of_nat argc)) as [Hmax|Hmax].
  { wp_step. apply HQ. exists img. split; [done|]. split; [done|]. split; [apply same_except_refl|]. left. cbn [length]. lia. }
  assert (Hlen : Z.of_nat (length (a ++ [0])) = Z.of_nat (length a) + 1) by (rewrite length_app; cbn; lia). unfold UPAGES in Hnu.
  destruct (Z.lt_ge_cases (sp - (Z.of_nat (length a) + 1)) 0) as [Hneg|Hpos].
  - assert (Eu : u32 (sp - (Z.of_nat (length a) + 1)) = sp - (Z.of_nat (length a) + 1) + 2 ^ 32).
    { unfold u32. rewrite <- (Z.mod_add _ 1), Z.mul_1_l by lia. apply Z.mod_small. lia. }
    set (x := sp - (Z.of_nat (length a) + 1)) in *. pose proof (Z.div_mod (x + 2 ^ 32) 4 ltac:(lia)). pose proof (Z.mod_pos_bound (x + 2 ^ 32) 4 ltac:(lia)).
    rewrite Eu, land_4. wp_step. apply (wp_copyout_dev s F pgdir e n Y); [done|unfold DEVSPACE; lia|by destruct a|].
    change (-1 <? 0) with true. cbv iota. wp_step. apply HQ. exists img. split; [done|]. split; [done|]. split; [apply same_except_refl|]. right. left. cbn [args_end]. lia.
  - rewrite u32_small by lia. fold (arg_sp sp a).
    assert (Hap : 0 <= arg_sp sp a) by (unfold arg_sp; rewrite land_4; assert (0 <= (sp - (Z.of_nat (length a) + 1)) / 4) by (apply Z.div_pos; lia); lia).
    wp_step. apply (wp_copyout_bytes s F pgdir e n Y img); [done|done|done|lia|]. intros r s1 (img1 & Ha1 & Hs1 & Hm1 & Hr).
    destruct Hr as [(-> & Hx & Hus)|[-> (v & Hv & Huv)]].
    + change (0 <? 0) with false. cbv iota. wp_step. apply (IH s1 img1); [done|done|lia|lia|]. intros o s2 (img2 & Ha2 & Hs2 & Hm2 & Ho).
      assert (Hm : same_except Y (pg_mem s) (pg_mem s2)) by (eapply same_except_weaken; [|eapply same_except_trans; [exact Hm1|exact Hm2]]; clear; set_solver).
      destruct (place_args_ext argv img1 (put_img img (arg_sp sp a) (a ++ [0])) (arg_sp sp a) Hx) as [E1 E2].
      destruct o as [[sp' ptrs]|]; wp_step; apply HQ; exists img2; (split; [done|split; [done|split; [done|]]]); cbn [place_args args_end].
      * destruct Ho as (Ep & Ei & Hsp' & Hpu & Hmx). rewrite E1 in Ep. destruct (place_args (put_img img _ _) _ argv) as [[x1 x2] x3] eqn:Epl. cbn in *. simplify_eq.
        split; [done|]. split; [intros x; by rewrite Ei, E2|]. split; [done|]. split; [|right].
        { intros v Hv. destruct (Z.lt_ge_cases v (arg_sp sp a / 4096)) as [|Hge]; [apply Hpu; lia|]. apply (arg_pages e sp a); [|lia]. intros x Hx1. apply Hus. lia. }
         destruct Hmx as [->|Hmx]; cbn [length]; lia.
      * destruct Ho as [Hmx|[Hlo|(v & Hv & Huv)]]; [left; cbn [length]; lia|right; by left|right; right]. exists v. split; [|done].
        assert ((arg_sp sp a - 1) / 4096 <= (sp - 1) / 4096) by (apply Z.div_le_mono; lia). lia.
    + change (-1 <? 0) with true. cbv iota. wp_step. apply HQ. exists img1. split; [done|]. split; [done|]. split; [done|]. right. right. exists v. split; [|done].
      rewrite Hlen in Hv. unfold last_vpn in Hv. cbn [args_end].
      assert (args_end (arg_sp sp a) argv / 4096 <= arg_sp sp a / 4096) by (apply Z.div_le_mono; lia).
      assert ((arg_sp sp a + (Z.of_nat (length a) + 1) - 1) / 4096 <= (sp - 1) / 4096) by (apply Z.div_le_mono; lia). lia.
Qed.

(** ** The address space under construction *)

(** User code may write all of the first [n] pages. *)
Definition writable e (n : Z) : Prop := forall x, 0 <= x < n -> user_page e x = true /\ Z.land (e x) PTE_W <> 0.

(** The directory [pgdir] shows [img] in its first [n] pages and is made of pages
    of [F0], which were free in [s0]. *)
Record loading s0 (F0 : gset Z) s (pgdir : Z) e (n : Z) img : Prop := {
  lo_space : exists F Y, aspace data s F pgdir e n Y /\ F ∪ Y = F0;
  lo_shows : shows s e n img;
  lo_clean : forall va, 4096 * n <= va -> img va = 0;
  lo_write : writable e n;
  lo_same : same_except F0 (pg_mem s0) (pg_mem s)
}.

Lemma shows_alloc s e n img s' e' n' : shows s e n img -> (forall va, 4096 * n <= va -> img va = 0) -> 0 <= n ->
  kept_bytes s e n s' e' -> new_pages s' e' n n' -> shows s' e' n' img.
Proof.
  intros Hs Hc Hn Hk Hnew va Hva. destruct (Z.lt_ge_cases va (4096 * n)) as [Hlt|Hge].
  - destruct (Hk va ltac:(lia)) as [_ ->]. apply Hs. lia.
  - rewrite Hc by done. assert (Hx : n <= va / 4096 < n') by (split; [apply Z.div_le_lower_bound|apply Z.div_lt_upper_bound]; lia).
    destruct (Hnew _ Hx) as (_ & _ & Hz). apply Hz. unfold uaddr, in_page, PGSIZE. pose proof (Z.mod_pos_bound va 4096 ltac:(lia)). lia.
Qed.

Lemma writable_alloc s e n s' e' n' : writable e n -> kept_bytes s e n s' e' -> new_pages s' e' n n' -> writable e' n'.
Proof.
  intros Hw Hk Hnew x Hx. destruct (Z.lt_ge_cases x n) as [Hlt|Hge]; [|destruct (Hnew x ltac:(lia)) as (? & ? & _); done].
  destruct (Hk (4096 * x) ltac:(lia)) as [E _]. replace (4096 * x / 4096) with x in E by (rewrite Z.mul_comm, Z.div_mul; lia).
  destruct (Hw x ltac:(lia)) as [H1 H2]. unfold user_page in *. by rewrite E.
Qed.

(** [allocuvm] grows it with zeros, or the pages that were free are too few. *)
Lemma wp_load_alloc s0 F0 s pgdir e oldsz newsz img (Q : Z -> P -> Prop) :
  loading s0 F0 s pgdir e (up_vpn oldsz) img -> 0 <= oldsz <= KERNBASE -> 0 <= newsz ->
  (KERNBASE <= newsz \/ Z.of_nat (size F0) <= 2049 + up_vpn newsz -> forall s', loading s0 F0 s' pgdir e (up_vpn oldsz) img -> Q 0 s') ->
  (forall s' e', newsz < KERNBASE -> loading s0 F0 s' pgdir e' (up_vpn (Z.max oldsz newsz)) img -> Q (Z.max oldsz newsz) s') ->
  wp (allocuvm pgdir oldsz newsz) s Q.
Proof.
  intros Hl Ho Hn Hbad Hok. destruct (Z.lt_ge_cases newsz KERNBASE) as [Hk|Hk].
  2: { unfold allocuvm. rewrite (proj2 (Z.leb_le _ _)) by lia. wp_step. apply (Hbad (or_introl Hk)); done. }
  destruct (Z.lt_ge_cases newsz oldsz) as [Hlt|Hge].
  { unfold allocuvm. rewrite (proj2 (Z.leb_gt _ _)), (proj2 (Z.ltb_lt _ _)) by lia. wp_step. rewrite Z.max_l in Hok by lia. by apply (Hok s e). }
  destruct Hl as [(F & Y & Ha & HF) Hs Hc Hw Hsm]. pose proof (up_vpn_bounds oldsz ltac:(lia)) as Hob. rewrite Z.max_r in Hok by lia.
  apply (wp_space_alloc data s F pgdir e oldsz newsz Y); [done|lia|done| |].
  - intros s' F' e' Y' Ha' HFY _ Hkb Hnew Hs'. apply (Hok s' e'); [done|]. split.
    + exists F', Y'. split; [done|]. by rewrite HFY.
    + eapply shows_alloc; try done. lia.
    + intros va Hva. apply Hc. pose proof (up_vpn_mono oldsz newsz ltac:(lia)). lia.
    + by eapply writable_alloc.
    + rewrite HF in Hs'. eapply same_except_weaken; [|eapply same_except_trans; [exact Hsm|exact Hs']]. clear. set_solver.
  - intros s' F' Y' Hsz Ha' HFY _ Hkb Hs'. apply Hbad.
    + right. pose proof (aspace_size _ _ _ _ _ _ _ Ha) as Hy. rewrite <- HF, size_union by (pose proof (aspace_apart _ _ _ _ _ _ _ Ha) as Hap; clear -Hap; set_solver). lia.
    + split; [exists F', Y'; split; [done|by rewrite HFY]| |done|done|].
      * intros va Hva. destruct (Hkb va Hva) as [_ ->]. by apply Hs.
      * rewrite HF in Hs'. eapply same_except_weaken; [|eapply same_except_trans; [exact Hsm|exact Hs']]. clear. set_solver.
Qed.
End mem.

(** * [exec] builds the stack: two pages, of which the lower one is a guard the
    user may not touch, the strings of [argv], and [ustack] below them. *)

(** The words under the strings: a return address nobody returns to, [argc],
    [argv], the pointers and the null pointer. *)
Definition stack_words (sp : Z) (ptrs : list Z) : list Z :=
  [4294967295; Z.of_nat (length ptrs); sp - (Z.of_nat (length ptrs) + 1) * 4] ++ ptrs ++ [0].

Definition stack_bottom (N : Z) (argv : list (list Z)) : Z := args_end (4096 * (N + 2)) argv - 4 * (4 + Z.of_nat (length argv)).

(** What the program finds in its memory when the stack is in place above [N]
    pages. *)
Definition stack_image (N : Z) (img : Z -> Z) (argv : list (list Z)) : Z -> Z :=
  let '((sp, ptrs), img) := place_args img (4096 * (N + 2)) argv in
  put_img img (stack_bottom N argv) (words_encode (stack_words sp ptrs)).

Lemma place_args_length argv : forall img sp, length (snd (fst (place_args img sp argv))) = length argv.
Proof.
  induction argv as [|a argv IH]; intros img sp; [done|]. cbn [place_args]. specialize (IH (put_img img (arg_sp sp a) (a ++ [0])) (arg_sp sp a)).
  destruct (place_args _ _ argv) as [[x1 x2] x3]. cbn in *. by rewrite IH.
Qed.

(** Clearing the user's bit changes no other part of an entry. *)
Lemma clear_bits x : let y := Z.land x (Z.lnot PTE_U) in
  present y = present x /\ PTE_ADDR y = PTE_ADDR x /\ Z.land y PTE_W = Z.land x PTE_W /\ Z.land y PTE_U = 0.
Proof.
  intros y. unfold y, present, PTE_ADDR. rewrite <- !Z.land_assoc. split_and!; try done. by rewrite (Z.land_comm (Z.lnot _)), Z.land_lnot_diag, Z.land_0_r.
Qed.

Section clear.
Context {P : Type} `{!PageOps P} `{!PageLayer P}.
Variable data : Z.
Hypothesis Hdata : data_ok data.
Implicit Types (s : P) (F Y : gset Z) (e img : Z -> Z).

Definition clear_user e (v : Z) : Z -> Z := upd e v (Z.land (e v) (Z.lnot PTE_U)).

Lemma clear_user_bits e v x : present (clear_user e v x) = present (e x) /\ PTE_ADDR (clear_user e v x) = PTE_ADDR (e x) /\
  Z.land (clear_user e v x) PTE_W = Z.land (e x) PTE_W /\ user_page (clear_user e v) x = if decide (x = v) then false else user_page e x.
Proof.
  unfold clear_user, user_page. destruct (decide (x = v)) as [->|Hne].
  - rewrite upd_eq. destruct (clear_bits (e v)) as (-> & -> & -> & ->). split_and!; try done. apply andb_false_r.
  - by rewrite upd_ne.
Qed.

Lemma clear_user_frame e v x : frame_of (clear_user e v x) = frame_of (e x).
Proof. unfold frame_of. by destruct (clear_user_bits e v x) as (_ & -> & _). Qed.

Lemma wp_space_clear s F pgdir e n Y v img (Q : () -> P -> Prop) :
  aspace data s F pgdir e n Y -> shows s e n img -> 0 <= v < n ->
  (forall s', aspace data s' F pgdir (clear_user e v) n Y -> shows s' (clear_user e v) n img -> same_except Y (pg_mem s) (pg_mem s') -> Q () s') ->
  wp (clearpteu pgdir (4096 * v)) s Q.
Proof.
  intros Ha Hsh Hv HQ. destruct (proj1 Ha) as [Hn Hin Hout Hk]. pose proof Ha as Ha'. destruct Ha' as (_ & T & [Hvm Hfr Hinj] & Hp).
  unfold UPAGES in *. destruct (present_tab _ _ _ _ _ v Hvm ltac:(lia) (Hin v Hv)) as [p Ep].
  assert (Evp : 4096 * v / 4096 = v) by (rewrite Z.mul_comm; apply Z.div_mul; lia). assert (Hva : 0 <= 4096 * v < 2 ^ 32) by lia.
  apply (wp_clearpteu s F pgdir T e _ p); rewrite ?Evp; [done|done| |done|].
  { pose proof (vpn_split _ Hva) as E. rewrite Evp in E. destruct (PTX_div (4096 * v) ltac:(lia)) as [_ Hx]. rewrite <- E.
    rewrite <- (pr_tab _ _ _ _ (vm_pt _ _ _ _ _ Hvm) _ _ _ Ep Hx). apply load32_range, (pg_bytes _ _ (vm_pg _ _ _ _ _ Hvm)). }
  fold (clear_user e v). intros s' Hvm' Hs. assert (HT : tabs T ⊆ Y) by (intros q Hq; apply Hp; auto). apply HQ.
  - split.
    + split; [unfold UPAGES; lia| | |]; intros x Hx.
      * rewrite (proj1 (clear_user_bits e v x)). by apply Hin.
      * unfold clear_user. rewrite upd_ne by lia. by apply Hout.
      * unfold clear_user, UPAGES in *. rewrite upd_ne by lia. by apply Hk.
    + exists T. split; [split|]; [done| | |].
      * intros x Hx Hpx. rewrite clear_user_frame. rewrite (proj1 (clear_user_bits e v x)) in Hpx. rewrite (proj1 (proj2 (clear_user_bits e v x))). by apply Hfr.
      * intros x y Hx Hy. rewrite !clear_user_frame, (proj1 (clear_user_bits e v x)), (proj1 (clear_user_bits e v y)). by apply Hinj.
      * intros q. rewrite (Hp q). do 2 f_equiv. f_equiv. intros x. by rewrite clear_user_frame, (proj1 (clear_user_bits e v x)).
  - intros va Hr. rewrite <- (Hsh va Hr). unfold uaddr. rewrite clear_user_frame. fold (uaddr e va). eapply (same_bytes data); [exact Ha|exact Hs|done|].
    intros Hc. destruct (Hfr (va / 4096)) as (_ & _ & Hno); [pose proof (vpn_of va n Hr); unfold UPAGES; lia|apply Hin, vpn_of; lia|]. clear -Hno Hc. set_solver.
  - by eapply same_except_weaken.
Qed.
End clear.

Section stack.
Context {P S : Type} `{!PageOps P} `{!PageLayer P} `{!BlockOps S} `{!DevOps S} `{!TxnOps S}.
Variable data : Z.
Hypothesis Hdata : data_ok data.
Implicit Types (s : os P S) (pg : P) (F Y : gset Z) (e img : Z -> Z).

(** [pgdir] is an address space made of pages of [F0], free in [pg0]. *)
Definition built pg0 (F0 : gset Z) pg (pgdir : Z) : Prop :=
  exists F Y e n, aspace data pg F pgdir e n Y /\ F ∪ Y = F0 /\ same_except F0 (pg_mem pg0) (pg_mem pg).

(** A finished image: [N] pages of the program, the guard and the stack. *)
Record finished pg0 (F0 : gset Z) pg (pgdir : Z) e (N : Z) img : Prop := {
  fi_space : exists F Y, aspace data pg F pgdir e (N + 2) Y /\ F ∪ Y = F0;
  fi_shows : shows pg e (N + 2) img;
  fi_rights : forall x, 0 <= x < N + 2 -> user_page e x = negb (x =? N) /\ Z.land (e x) PTE_W <> 0;
  fi_same : same_except F0 (pg_mem pg0) (pg_mem pg)
}.

(** Why there is no stack. *)
Definition stack_fails (F0 : gset Z) (N : Z) (argv : list (list Z)) : Prop :=
  KERNBASE <= 4096 * (N + 2) \/ Z.of_nat (size F0) <= 2049 + (N + 2) \/ MAXARG < Z.of_nat (length argv) \/ stack_bottom N argv < 4096 * (N + 1).

Lemma loading_built pg0 F0 pg pgdir e n img : loading data pg0 F0 pg pgdir e n img -> built pg0 F0 pg pgdir.
Proof. intros [(F & Y & Ha & HF) _ _ _ Hs]. by exists F, Y, e, n. Qed.

Lemma same_again Y F0 m0 m1 m2 : same_except F0 m0 m1 -> same_except Y m1 m2 -> Y ⊆ F0 -> same_except F0 m0 m2.
Proof. intros H1 H2 HY. eapply same_except_weaken; [|eapply same_except_trans; [exact H1|exact H2]]. clear -HY. set_solver. Qed.

(** The guard is the only page below the size that the user may not access. *)
Lemma guard_only N e v : (forall x, 0 <= x < N + 2 -> user_page e x = negb (x =? N) /\ Z.land (e x) PTE_W <> 0) ->
  0 <= v < N + 2 -> user_page e v = false -> v = N.
Proof. intros H Hv Hu. rewrite (proj1 (H v Hv)) in Hu. apply negb_false_iff, Z.eqb_eq in Hu. done. Qed.

(** The strings are pushed above the guard, or they do not fit. *)
Lemma push_fits pg F pgdir e N Y img argv o pg' : 0 <= N ->
  push_post data pg F pgdir e (N + 2) Y img (4096 * (N + 2)) 0 argv o pg' ->
  (forall x, 0 <= x < N + 2 -> user_page e x = negb (x =? N) /\ Z.land (e x) PTE_W <> 0) ->
  match o with
  | Some (sp, ptrs) => sp = args_end (4096 * (N + 2)) argv /\ length ptrs = length argv /\ 4096 * (N + 1) <= sp <= 4096 * (N + 2) /\ Z.of_nat (length argv) <= MAXARG
  | None => MAXARG < Z.of_nat (length argv) \/ stack_bottom N argv < 4096 * (N + 1)
  end.
Proof.
  intros HN (img' & _ & _ & _ & Ho) Hg. pose proof (args_end_bounds argv (4096 * (N + 2))) as Hb. pose proof (args_size_pos argv).
  set (a := args_end _ argv) in *. assert (Ed : 4096 * (N + 2) / 4096 = N + 2) by (rewrite Z.mul_comm; apply Z.div_mul; lia).
  destruct o as [[sp ptrs]|].
  - destruct Ho as (Ep & _ & Hsp & Hpu & Hmx). pose proof (place_args_end argv img (4096 * (N + 2))) as E1. pose proof (place_args_length argv img (4096 * (N + 2))) as E2.
    rewrite <- Ep in E1, E2. cbn in E1, E2. fold a in E1. subst sp. split; [done|]. split; [done|]. split; [|destruct Hmx as [->|]; [unfold MAXARG; cbn [length]|]; lia].
    split; [|lia]. destruct (Z.lt_ge_cases a (4096 * (N + 1))) as [Hlt|]; [|lia]. exfalso.
    assert (Hu : user_page e N = true) by (apply Hpu; rewrite Ed; split; [apply Z.lt_succ_r, Z.div_lt_upper_bound; lia|lia]).
    destruct (Hg N ltac:(lia)) as [E _]. rewrite Hu, Z.eqb_refl in E. done.
  - unfold stack_bottom. fold a. destruct Ho as [Hm|[Hlo|(v & Hv & Hu)]]; [left; lia|right; lia|]. right.
    destruct (Z.lt_ge_cases a 0); [lia|].
    assert (Hv' : 0 <= v < N + 2).
    { split; [assert (0 <= a / 4096) by (apply Z.div_pos; lia); lia|]. assert ((4096 * (N + 2) - 1) / 4096 < N + 2) by (apply Z.div_lt_upper_bound; lia). lia. }
    rewrite (guard_only N e v Hg Hv' Hu) in Hv. pose proof (Z.div_mod a 4096 ltac:(lia)). pose proof (Z.mod_pos_bound a 4096 ltac:(lia)). lia.
Qed.

(** [ustack] goes under the strings, or it does not fit. *)
Lemma words_fit pg F pgdir e N Y img argv ws r pg' : 0 <= N -> 4096 * (N + 1) <= stack_bottom N argv + Z.of_nat (length ws) <= 4096 * (N + 2) ->
  0 < Z.of_nat (length ws) < 4096 -> copy_post data pg F pgdir e (N + 2) Y img (stack_bottom N argv) ws r pg' ->
  (forall x, 0 <= x < N + 2 -> user_page e x = negb (x =? N) /\ Z.land (e x) PTE_W <> 0) ->
  r = 0 /\ 4096 * (N + 1) <= stack_bottom N argv \/ r = -1 /\ stack_bottom N argv < 4096 * (N + 1).
Proof.
  intros HN Hl Hw (img' & _ & _ & _ & Hr) Hg. set (a := stack_bottom N argv) in *. destruct Hr as [(-> & _ & Hu)|[-> (v & Hv & Hu)]]; [left|right]; (split; [done|]).
  - destruct (Z.lt_ge_cases a (4096 * (N + 1))) as [Hlt|]; [|lia]. exfalso. specialize (Hu a ltac:(lia)). replace (a / 4096) with N in Hu.
    + destruct (Hg N ltac:(lia)) as [E _]. rewrite Hu, Z.eqb_refl in E. done.
    + apply (Z.div_unique_pos _ _ _ (a - 4096 * N)); lia.
  - unfold last_vpn in Hv. pose proof (Z.div_mod a 4096 ltac:(lia)). pose proof (Z.mod_pos_bound a 4096 ltac:(lia)).
    assert (Hv2 : (a + Z.of_nat (length ws) - 1) / 4096 < N + 2) by (apply Z.div_lt_upper_bound; lia).
    assert (Hv1 : 0 <= a / 4096) by (apply Z.div_pos; lia). rewrite (guard_only N e v Hg ltac:(lia) Hu) in Hv. lia.
Qed.

(** The guard. *)
Lemma wp_guard pg0 F0 pg pgdir e N img (Q : () -> P -> Prop) :
  loading data pg0 F0 pg pgdir e (N + 2) img -> 0 <= N ->
  (forall pg' e', finished pg0 F0 pg' pgdir e' N img -> Q () pg') -> wp (clearpteu pgdir (4096 * N)) pg Q.
Proof.
  intros [(F & Y & Ha & HF) Hs Hc Hw Hsm] HN HQ. apply (wp_space_clear data pg F pgdir e (N + 2) Y N img); [done|done|lia|].
  intros pg1 Ha1 Hs1 Hm1. apply (HQ pg1 (clear_user e N)). split; [by exists F, Y|done| |].
  - intros x Hx. destruct (clear_user_bits e N x) as (_ & _ & -> & ->). destruct (Hw x Hx) as [-> ?]. split; [|done].
    case_decide as E; [by rewrite E, Z.eqb_refl|by rewrite (proj2 (Z.eqb_neq _ _))].
  - eapply same_again; [exact Hsm|exact Hm1|]. clear -HF. set_solver.
Qed.

(** The strings and [ustack]. *)
Lemma wp_put_stack pg0 F0 pg pgdir e N img argv (Q : option Z -> P -> Prop) :
  finished pg0 F0 pg pgdir e N img -> 0 <= N -> 4096 * (N + 2) < KERNBASE -> args_size argv <= 2 ^ 25 ->
  (forall pg', built pg0 F0 pg' pgdir -> MAXARG < Z.of_nat (length argv) \/ stack_bottom N argv < 4096 * (N + 1) -> Q None pg') ->
  (forall pg' img', finished pg0 F0 pg' pgdir e N img' -> (forall x, img' x = stack_image N img argv x) -> Z.of_nat (length argv) <= MAXARG ->
    4096 * (N + 1) <= stack_bottom N argv -> Q (Some (stack_bottom N argv)) pg') ->
  wp (put_stack pgdir (4096 * (N + 2)) argv) pg Q.
Proof.
  intros [(F & Y & Ha & HF) Hs Hg Hsm] HN Hk Hsz Hbad Hok. unfold put_stack. wp_step. unfold KERNBASE in Hk.
  apply (wp_push_args data Hdata F pgdir e (N + 2) Y argv pg img); [done|done|lia|done|]. intros o pg1 Hpost.
  pose proof (push_fits _ _ _ _ _ _ _ _ _ _ HN Hpost Hg) as Hfit. destruct Hpost as (img1 & Ha1 & Hs1 & Hm1 & Ho).
  pose proof (same_again _ _ _ _ _ Hsm Hm1 ltac:(clear -HF; set_solver)) as Hsm1. destruct o as [[sp ptrs]|].
  2: { wp_step. apply Hbad; [by exists F, Y, e, (N + 2)|done]. }
  destruct Hfit as (Esp & El & Hspb & Hmx). unfold MAXARG in Hmx. rewrite El, !u32_small by lia. destruct Ho as (Ep & Ei & _ & _ & _).
  set (ws := words_encode _). assert (Hlw : Z.of_nat (length ws) = 4 * (4 + Z.of_nat (length argv))) by (unfold ws; rewrite words_encode_length; cbn [app length]; rewrite length_app, El; cbn [length]; lia).
  replace (sp - (3 + Z.of_nat (length argv) + 1) * 4) with (stack_bottom N argv) by (unfold stack_bottom; lia).
  assert (Hb : stack_bottom N argv = sp - 4 * (4 + Z.of_nat (length argv))) by (unfold stack_bottom; lia).
  wp_step. apply (wp_copyout_bytes data pg1 F pgdir e (N + 2) Y img1); [done|done|lia|lia|]. intros r pg2 Hpost.
  assert (H1 : 4096 * (N + 1) <= stack_bottom N argv + Z.of_nat (length ws) <= 4096 * (N + 2)) by lia. assert (H2 : 0 < Z.of_nat (length ws) < 4096) by lia.
  pose proof (words_fit _ _ _ _ _ _ _ _ _ _ _ HN H1 H2 Hpost Hg) as Hr. destruct Hpost as (img2 & Ha2 & Hs2 & Hm2 & Hi2).
  pose proof (same_again _ _ _ _ _ Hsm1 Hm2 ltac:(clear -HF; set_solver)) as Hsm2. destruct Hr as [[-> Hlo]|[-> Hlo]].
  - change (0 <? 0) with false. cbv iota. wp_step. apply (Hok pg2 img2); [|  |unfold MAXARG; lia|done].
    + split; [by exists F, Y|done|done|done].
    + intros x. destruct Hi2 as [(_ & Hi2 & _)|[? _]]; [|done]. rewrite Hi2. unfold stack_image. destruct (place_args img _ argv) as [[x1 x2] x3]. cbn in Ep, Ei. simplify_eq.
      unfold stack_words. rewrite El. apply put_img_ext, Ei.
  - change (-1 <? 0) with true. cbv iota. wp_step. apply Hbad; [by exists F, Y, e, (N + 2)|by right].
Qed.

(** [build_stack]: the finished image, or the reason why there is none. *)
Lemma wp_exec_stack pg0 F0 s pgdir e sz img argv (Q : option (Z * Z) -> os P S -> Prop) :
  loading data pg0 F0 (os_pg s) pgdir e (up_vpn sz) img -> 0 <= sz < KERNBASE -> args_size argv <= 2 ^ 25 ->
  let N := up_vpn sz in
  (forall pg', built pg0 F0 pg' pgdir -> stack_fails F0 N argv -> Q None (s <| os_pg := pg' |>)) ->
  (forall pg' e' img', finished pg0 F0 pg' pgdir e' N img' -> (forall x, img' x = stack_image N img argv x) -> 4096 * (N + 2) < KERNBASE -> Z.of_nat (length argv) <= MAXARG -> 4096 * (N + 1) <= stack_bottom N argv ->
    Q (Some (4096 * (N + 2), stack_bottom N argv)) (s <| os_pg := pg' |>)) ->
  wp (build_stack pgdir sz argv) s Q.
Proof.
  intros Hl Hsz Ha N Hbad Hok. unfold build_stack. pose proof (up_vpn_bounds sz ltac:(lia)) as Hb. fold N in Hl, Hb. unfold UPAGES, KERNBASE in *.
  rewrite round_up_vpn by lia. fold N. assert (EN : up_vpn (4096 * N) = N) by (unfold up_vpn; symmetry; apply (Z.div_unique_pos _ _ _ 4095); lia).
  assert (EN2 : up_vpn (4096 * N + 8192) = N + 2) by (unfold up_vpn; symmetry; apply (Z.div_unique_pos _ _ _ 4095); lia).
  change (2 * PGSIZE) with 8192. rewrite (u32_small (4096 * N + 8192)) by lia. wp_step. apply wp_zoom.
  apply (wp_load_alloc data pg0 F0 (os_pg s) pgdir e (4096 * N) (4096 * N + 8192) img); [by rewrite EN|unfold KERNBASE; lia|lia| |].
  - rewrite EN2. intros Hwhy pg1 Hl1. change (0 =? 0) with true. cbv iota. wp_step. apply (Hbad pg1); [by eapply loading_built|].
    destruct Hwhy; [left; lia|right; left; lia].
  - intros pg1 e1 Hk Hl1. unfold KERNBASE in Hk. rewrite Z.max_r in Hl1 |- * by lia. rewrite EN2 in Hl1. rewrite (proj2 (Z.eqb_neq _ 0)) by lia.
    rewrite (u32_small (4096 * N + 8192 - 8192)) by lia. replace (4096 * N + 8192 - 8192) with (4096 * N) by lia.
    wp_step. apply wp_zoom. apply (wp_guard pg0 F0 pg1 pgdir e1 N img); [done|lia|]. intros pg2 e2 Hf2. replace (4096 * N + 8192) with (4096 * (N + 2)) by lia.
    wp_step. apply wp_zoom. apply (wp_put_stack pg0 F0 pg2 pgdir e2 N img); [done|lia|unfold KERNBASE; lia|done| |].
    + intros pg3 Hb3 Hwhy. wp_step. apply (Hbad pg3); [done|]. right. right. done.
    + intros pg3 img3 Hf3 Hi3 Hm Hlo. wp_step. apply (Hok pg3 e2 img3); try done. lia.
Qed.
End stack.

(** * The arguments as [main] finds them: [exec] puts [argc], [argv], the pointers
    and the strings where a C program reads them. *)

(** The string [s] with its zero byte at address [a]. *)
Definition string_at (img : Z -> Z) (a : Z) (s : list Z) : Prop := forall j x, (s ++ [0]) !! j = Some x -> img (a + Z.of_nat j) = u8 x.

(** The stack of a new program at the stack pointer [sp]: a return address, [argc], [argv], and
    the array of pointers [argv] points to, ended by a null pointer. *)
Record args_at (img : Z -> Z) (sp : Z) (argv : list (list Z)) : Prop := {
  aa_argc : load32 img (sp + 4) = Z.of_nat (length argv);
  aa_argv : load32 img (sp + 8) = sp + 12;
  aa_arg : forall i s, argv !! i = Some s -> exists a, load32 img (sp + 12 + 4 * Z.of_nat i) = a /\ string_at img a s;
  aa_null : load32 img (sp + 12 + 4 * Z.of_nat (length argv)) = 0
}.

Lemma put_img_out img a bytes x : ~ a <= x < a + Z.of_nat (length bytes) -> put_img img a bytes x = img x.
Proof. intros H. unfold put_img, in_range. destruct (Z.leb_spec a x), (Z.ltb_spec x (a + Z.of_nat (length bytes))); try done. lia. Qed.

Lemma put_img_in img a bytes j x : bytes !! j = Some x -> put_img img a bytes (a + Z.of_nat j) = u8 x.
Proof.
  intros H. pose proof (lookup_lt_Some _ _ _ H). unfold put_img, in_range. rewrite (proj2 (Z.leb_le _ _)), (proj2 (Z.ltb_lt _ _)) by lia. cbn [andb].
  replace (Z.to_nat (a + Z.of_nat j - a)) with j by lia. by rewrite (list_lookup_total_correct _ _ _ H).
Qed.

(** Strings that are already in place are not overwritten. *)
Lemma place_args_strings argv : forall img sp, let '(sp', ptrs, img') := place_args img sp argv in
  (forall x, ~ sp' <= x < sp -> img' x = img x) /\
  forall i s, argv !! i = Some s -> exists a, ptrs !! i = Some a /\ sp' <= a /\ a + Z.of_nat (length s) + 1 <= sp /\ string_at img' a s.
Proof.
  induction argv as [|s0 argv IH]; intros img sp; cbn [place_args]; [done|]. pose proof (arg_sp_bounds sp s0) as [Hb _]. set (a0 := arg_sp sp s0) in *.
  specialize (IH (put_img img a0 (s0 ++ [0])) a0). pose proof (place_args_end argv (put_img img a0 (s0 ++ [0])) a0) as He.
  destruct (place_args _ a0 argv) as [[sp' ptrs] img']. cbn in He. destruct IH as [Hout Hin]. pose proof (args_end_bounds argv a0) as Hab.
  assert (Hlen : Z.of_nat (length (s0 ++ [0])) = Z.of_nat (length s0) + 1) by (rewrite length_app; cbn; lia). split.
  - intros x Hx. rewrite Hout by lia. apply put_img_out. lia.
  - intros [|i] s Hi; cbn [lookup list_lookup] in Hi.
    + injection Hi as <-. exists a0. split; [done|]. split; [lia|]. split; [lia|]. intros j x Hj. rewrite Hout by lia. by apply put_img_in.
    + destruct (Hin i s Hi) as (a & Ha & Hlo & Hhi & Hs). exists a. split; [done|]. split; [done|]. split; [lia|done].
Qed.

(** A word of an encoded array. *)
Lemma put_word img a ws i w : ws !! i = Some w -> uint_ok w -> 0 <= a -> a + 4 * Z.of_nat (length ws) <= 2 ^ 32 ->
  load32 (put_img img a (words_encode ws)) (a + 4 * Z.of_nat i) = w.
Proof.
  intros Hi Hw Ha Hl. etransitivity; [|exact (words_encode_get ws i w Hi Hw)]. pose proof (lookup_lt_Some _ _ _ Hi) as Hlt. pose proof (words_encode_bytes ws) as Hb.
  assert (Hx : forall j, (j < 4)%nat -> exists x, words_encode ws !! (4 * i + j)%nat = Some x /\ byte_ok x).
  { intros j Hj. destruct (lookup_lt_is_Some_2 (words_encode ws) (4 * i + j)%nat) as [x Ex]; [rewrite words_encode_length; lia|]. exists x. split; [done|]. by eapply (proj1 (Forall_lookup _ _) Hb). }
  destruct (Hx 0%nat ltac:(lia)) as (x0 & E0 & B0), (Hx 1%nat ltac:(lia)) as (x1 & E1 & B1), (Hx 2%nat ltac:(lia)) as (x2 & E2 & B2), (Hx 3%nat ltac:(lia)) as (x3 & E3 & B3).
  assert (Hput : forall j x, words_encode ws !! (4 * i + j)%nat = Some x -> byte_ok x -> (j < 4)%nat -> load (put_img img a (words_encode ws)) (a + 4 * Z.of_nat i + Z.of_nat j) = x).
  { intros j x Ex Bx Hj. unfold load. rewrite u32_small by lia. replace (a + 4 * Z.of_nat i + Z.of_nat j) with (a + Z.of_nat (4 * i + j)) by lia.
    rewrite (put_img_in _ _ _ _ _ Ex). apply Z.mod_small. exact Bx. }
  assert (Hs : slice (words_encode ws) (4 * i) 4 = [x0; x1; x2; x3]).
  { unfold slice. apply list_eq. intros j. destruct (decide (j < 4)%nat) as [Hj|Hj].
    - rewrite lookup_take_lt, lookup_drop by lia. destruct j as [|[|[|[|j]]]]; [done..|lia].
    - rewrite lookup_take_ge by lia. symmetry. apply lookup_ge_None. cbn. lia. }
  unfold get32, load32. rewrite Hs. pose proof (Hput 0%nat x0 E0 B0 ltac:(lia)) as P0. rewrite Z.add_0_r in P0. rewrite P0.
  pose proof (Hput 1%nat x1 E1 B1 ltac:(lia)) as P1. pose proof (Hput 2%nat x2 E2 B2 ltac:(lia)) as P2. pose proof (Hput 3%nat x3 E3 B3 ltac:(lia)) as P3.
  change (Z.of_nat 1) with 1 in P1. change (Z.of_nat 2) with 2 in P2. change (Z.of_nat 3) with 3 in P3. rewrite P1, P2, P3. cbn [le_dec]. lia.
Qed.

(** What [exec] leaves on the stack. *)
Lemma stack_args N img argv : 0 <= N -> 4096 * (N + 2) < KERNBASE -> Z.of_nat (length argv) <= MAXARG -> 4096 * (N + 1) <= stack_bottom N argv ->
  args_at (stack_image N img argv) (stack_bottom N argv) argv /\ forall va, va < stack_bottom N argv -> stack_image N img argv va = img va.
Proof.
  intros HN Hk Hm Hlo. unfold KERNBASE, MAXARG in *. unfold stack_image. pose proof (place_args_strings argv img (4096 * (N + 2))) as Hp.
  pose proof (place_args_end argv img (4096 * (N + 2))) as He. pose proof (place_args_length argv img (4096 * (N + 2))) as Hl. pose proof (args_end_bounds argv (4096 * (N + 2))) as Hab.
  destruct (place_args img _ argv) as [[sp ptrs] img1]. cbn in He, Hl. destruct Hp as [Hout Hin]. pose proof (args_size_pos argv).
  assert (Hbot : stack_bottom N argv = sp - 4 * (4 + Z.of_nat (length argv))) by (unfold stack_bottom; lia). set (bot := stack_bottom N argv) in *.
  set (ws := stack_words sp ptrs). assert (Hws : length ws = (4 + length argv)%nat) by (unfold ws, stack_words; cbn [app length]; rewrite length_app, Hl; cbn; lia).
  assert (Hlw : Z.of_nat (length (words_encode ws)) = 4 * (4 + Z.of_nat (length argv))) by (rewrite words_encode_length, Hws; lia).
  assert (Hword : forall i w, ws !! i = Some w -> 0 <= w < 2 ^ 32 -> load32 (put_img img1 bot (words_encode ws)) (bot + 4 * Z.of_nat i) = w).
  { intros i w Hi Hw. apply put_word; [done|exact Hw|lia|rewrite Hws; lia]. }
  split; [split|].
  - replace (bot + 4) with (bot + 4 * Z.of_nat 1) by lia. apply Hword; [unfold ws, stack_words; cbn; by rewrite Hl|lia].
  - replace (bot + 8) with (bot + 4 * Z.of_nat 2) by lia. apply Hword; [unfold ws, stack_words; cbn; rewrite Hl; f_equal; lia|lia].
  - intros i s Hi. destruct (Hin i s Hi) as (a & Ha & Hal & Hah & Hs). exists a. pose proof (lookup_lt_Some _ _ _ Hi). split.
    + replace (bot + 12 + 4 * Z.of_nat i) with (bot + 4 * Z.of_nat (3 + i)) by lia. apply Hword; [|lia].
      change (ws !! (3 + i)%nat) with ((ptrs ++ [0]) !! i). by apply lookup_app_l_Some.
    + intros j x Hj. pose proof (lookup_lt_Some _ _ _ Hj) as Hjl. rewrite put_img_out by lia. by apply Hs.
  - replace (bot + 12 + 4 * Z.of_nat (length argv)) with (bot + 4 * Z.of_nat (3 + length argv)) by lia. apply Hword; [|lia].
    change (ws !! (3 + length argv)%nat) with ((ptrs ++ [0]) !! length argv). rewrite <- Hl. apply list_lookup_middle. done.
  - intros va Hva. rewrite put_img_out by lia. apply Hout. lia.
Qed.
