(* ===== verification/ProcSpace.v ===== *)
(** Who owns which page.

    [mem_rep A L pg tab F own]: of the pages [A] the allocator was given, [F]
    are free, process slot [i] owns [own i] - its kernel stack and the pages of
    its address space - and [L] are lost; no page is in two of these sets.  The
    lemma [mem_change] reduces what an operation of one process does to the
    whole of memory to what it does to that process's pages. *)

From S2P Require Import Prelude CString Layout Sleeplock BlockLayer Fs File Pipe TxnLayer SysFile.
From S2P Require Import Spinlock Kalloc Vm VmRep VmUser VmCopy VmOut VmSpace Proc ProcOps Seg ProcMem.

Definition used (x : proc) : Prop := p_state x <> UNUSED.
#[export] Instance used_dec x : Decision (used x).
Proof. unfold used. solve_decision. Defined.

(** Two slots with the same memory, or both with none. *)
Record same_mem (x y : proc) : Prop := {
  sm_used : used x <-> used y;
  sm_fields : used x -> p_pgdir y = p_pgdir x /\ p_kstack y = p_kstack x /\ p_tf y = p_tf x /\ p_sz y = p_sz x
}.

Lemma same_mem_refl x : same_mem x x.
Proof. done. Qed.

Lemma same_mem_trans x y z : same_mem x y -> same_mem y z -> same_mem x z.
Proof.
  intros [U1 E1] [U2 E2]. split; [by rewrite U1|]. intros Hu. destruct (E1 Hu) as (F1 & F2 & F3 & F4). destruct (E2 (proj1 U1 Hu)) as (G1 & G2 & G3 & G4). by rewrite G1, G2, G3, G4.
Qed.

(** A slot that is left alone, or was free and is free again. *)
Definition kept_slot (x y : proc) : Prop := (used x <-> used y) /\ (used x -> y = x).

Lemma kept_slot_refl x : kept_slot x x.
Proof. done. Qed.

Lemma kept_unused x y : ~ used x -> ~ used y -> kept_slot x y.
Proof. unfold kept_slot. tauto. Qed.

Lemma kept_same_mem x y : kept_slot x y -> same_mem x y.
Proof. intros [Hu E]. split; [done|]. intros Hx. by rewrite (E Hx). Qed.

Section space.
Context {P : Type} `{!PageOps P} `{!PageLayer P}.
Variable data : Z.
Implicit Types (pg : P) (F Y L A X : gset Z) (e : Z -> Z) (x : proc) (tab : nat -> proc) (own : nat -> gset Z).

(** A process owns its kernel stack, with the trap frame on its top, and an
    address space of [n] pages: as many as its size needs, or none after it has
    given all of them back. *)
Record slot_ok pg F x Y e (n : Z) : Prop := {
  sl_space : exists Ya, aspace data pg F (p_pgdir x) e n Ya /\ Y = {[p_kstack x]} ∪ Ya /\ p_kstack x ∉ Ya;
  sl_stack : page_ok pg_end (p_kstack x) /\ p_kstack x ∉ F;
  sl_tf : p_tf x = p_kstack x + KSTACKSIZE - TF_SIZE;
  sl_sz : 0 <= p_sz x < KERNBASE;
  sl_n : n = up_vpn (p_sz x) \/ n = 0
}.

Record mem_rep A L pg tab F own : Prop := {
  mr_pg : pg_rep pg F;
  mr_slot : forall i, used (tab i) -> exists e n, slot_ok pg F (tab i) (own i) e n;
  mr_unused : forall i, ~ used (tab i) -> own i = ∅;
  mr_apart : forall i j, i <> j -> own i ## own j;
  mr_free : forall i, own i ## F;
  mr_lost : L ## F /\ forall i, own i ## L;
  mr_all : forall q, q ∈ A <-> q ∈ F \/ q ∈ L \/ exists i, q ∈ own i
}.

Lemma slot_same pg F x y Y e n : slot_ok pg F x Y e n -> used x -> same_mem x y -> slot_ok pg F y Y e n.
Proof. intros [H1 H2 H3 H4 H5] Hu [_ E]. destruct (E Hu) as (E1 & E2 & E3 & E4). split; by rewrite ?E1, ?E2, ?E3, ?E4. Qed.

Lemma slot_other pg pg' F F' x Y e n X :
  slot_ok pg F x Y e n -> pg_rep pg' F' -> same_except X (pg_mem pg) (pg_mem pg') -> Y ## X ∪ F' -> slot_ok pg' F' x Y e n.
Proof.
  intros [(Ya & Ha & -> & Hk) (Hs1 & _) Ht Hsz Hn] Hpg Hsame HY. split; try done.
  - exists Ya. split; [|done]. eapply aspace_other; [exact Ha|done|exact Hsame|]. clear -HY. set_solver.
  - split; [done|]. clear -HY. set_solver.
Qed.

Lemma slot_page_ok pg F x Y e n q : slot_ok pg F x Y e n -> q ∈ Y -> page_ok pg_end q.
Proof. intros [(Ya & Ha & -> & _) (Hk & _) _ _ _] [->%elem_of_singleton|Hq]%elem_of_union; [done|]. by eapply aspace_pages. Qed.

Lemma mem_page_ok A L pg tab F own i q : mem_rep A L pg tab F own -> q ∈ own i -> page_ok pg_end q.
Proof.
  intros H Hq. destruct (decide (used (tab i))) as [Hu|Hu]; [|rewrite (mr_unused _ _ _ _ _ _ H i Hu) in Hq; set_solver].
  destruct (mr_slot _ _ _ _ _ _ H i Hu) as (e & n & Hs). by eapply slot_page_ok.
Qed.

Lemma own_same A L pg tab F own i X m' : mem_rep A L pg tab F own -> same_except X (pg_mem pg) m' -> own i ## X -> page_same (own i) (pg_mem pg) m'.
Proof. intros H Hs HX q a Hq Ha. apply (Hs q); [apply (mem_page_ok _ _ _ _ _ _ _ _ H Hq)|set_solver|done]. Qed.

Lemma slot_apart pg F x Y e n : slot_ok pg F x Y e n -> Y ## F.
Proof.
  intros [(Ya & Ha & -> & _) (_ & Hk) _ _ _]. pose proof (aspace_apart _ _ _ _ _ _ _ Ha). clear -Hk H. set_solver.
Qed.

(** An operation of slot [i] on its own pages and free ones. *)
Lemma mem_change A L L' pg pg' tab tab' F F' own i Y' :
  mem_rep A L pg tab F own -> (forall j, j <> i -> same_mem (tab j) (tab' j)) -> pg_rep pg' F' ->
  same_except (F ∪ own i) (pg_mem pg) (pg_mem pg') -> F' ∪ Y' ∪ L' = F ∪ own i ∪ L -> Y' ## F' -> L' ## F' ∪ Y' ->
  (used (tab' i) -> exists e n, slot_ok pg' F' (tab' i) Y' e n) -> (~ used (tab' i) -> Y' = ∅) ->
  mem_rep A L' pg' tab' F' (updn own i Y').
Proof.
  intros [H1 H2 H3 H4 H5 [H6 H6'] H7] Htab Hpg Hsame Hall HYF HL Hu Hnu.
  assert (Hj : forall j, j <> i -> own j ## F ∪ own i /\ own j ## F' ∪ Y' ∪ L').
  { intros j Hne. specialize (H4 j i Hne). specialize (H5 j). specialize (H6' j). rewrite Hall. clear -H4 H5 H6'. set_solver. }
  split; try done.
  - intros j. unfold updn. case_decide as E; [subst; exact Hu|]. intros Huj. pose proof (sm_used _ _ (Htab j E)) as Hus.
    destruct (H2 j (proj2 Hus Huj)) as (e & n & Hs). exists e, n. eapply slot_same; [|by apply Hus|by apply Htab].
    eapply slot_other; [exact Hs|done|exact Hsame|]. destruct (Hj j E) as [A1 A2]. clear -A1 A2. set_solver.
  - intros j. unfold updn. case_decide as E; [subst; exact Hnu|]. intros Huj. apply H3. by rewrite (sm_used _ _ (Htab j E)).
  - intros j k Hne. unfold updn. destruct (decide (j = i)) as [->|E1], (decide (k = i)) as [->|E2]; [done| | |by apply H4].
    + destruct (Hj k E2) as [_ A2]. clear -A2. set_solver.
    + destruct (Hj j E1) as [_ A2]. clear -A2. set_solver.
  - intros j. unfold updn. case_decide as E; [done|]. destruct (Hj j E) as [_ A2]. clear -A2. set_solver.
  - split; [clear -HL; set_solver|]. intros j. unfold updn. case_decide as E; [clear -HL; set_solver|].
    destruct (Hj j E) as [_ A2]. clear -A2. set_solver.
  - intros q. rewrite (H7 q). assert (Hq : q ∈ F' \/ q ∈ Y' \/ q ∈ L' <-> q ∈ F \/ q ∈ own i \/ q ∈ L).
    { assert (E : q ∈ F' ∪ Y' ∪ L' <-> q ∈ F ∪ own i ∪ L) by (by rewrite Hall). rewrite !elem_of_union in E. clear -E. tauto. }
    assert (Hx : (exists j, q ∈ updn own i Y' j) <-> q ∈ Y' \/ exists j, j <> i /\ q ∈ own j).
    { split.
      - intros [j Hin]. unfold updn in Hin. case_decide; [by left|right; eauto].
      - intros [Hin|(j & Hne & Hin)]; [exists i; by rewrite updn_eq|exists j; by rewrite updn_ne]. }
    assert (Ho : (exists j, q ∈ own j) <-> q ∈ own i \/ exists j, j <> i /\ q ∈ own j).
    { split; [intros [j Hin]; destruct (decide (j = i)) as [->|]; eauto|naive_solver]. }
    rewrite Hx, Ho. clear -Hq. tauto.
Qed.

(** Changes of the table that leave memory alone. *)
Lemma mem_table A L pg tab tab' F own :
  mem_rep A L pg tab F own -> (forall j, same_mem (tab j) (tab' j)) -> mem_rep A L pg tab' F own.
Proof.
  intros [H1 H2 H3 H4 H5 H6 H7] Ht. split; try done.
  - intros i Hu. destruct (H2 i (proj2 (sm_used _ _ (Ht i)) Hu)) as (e & n & Hs). exists e, n. eapply slot_same; [done| |done]. by apply (sm_used _ _ (Ht i)).
  - intros i Hu. apply H3. by rewrite (sm_used _ _ (Ht i)).
Qed.

(** Changes of free pages only. *)
Lemma mem_free A L L' pg pg' tab tab' F F' own :
  mem_rep A L pg tab F own -> (forall j, same_mem (tab j) (tab' j)) -> pg_rep pg' F' -> same_except F (pg_mem pg) (pg_mem pg') ->
  F' ∪ L' = F ∪ L -> L' ## F' -> mem_rep A L' pg' tab' F' own.
Proof.
  intros [H1 H2 H3 H4 H5 [H6 H6'] H7] Ht Hpg Hsame Hall HL.
  assert (Hj : forall j, own j ## F /\ own j ## F' ∪ L').
  { intros j. specialize (H5 j). specialize (H6' j). rewrite Hall. clear -H5 H6'. set_solver. }
  split; try done.
  - intros i Hu. pose proof (sm_used _ _ (Ht i)) as Hus. destruct (H2 i (proj2 Hus Hu)) as (e & n & Hs). exists e, n.
    eapply slot_same; [|by apply Hus|done]. eapply slot_other; [exact Hs|done|exact Hsame|]. destruct (Hj i) as [A1 A2]. clear -A1 A2. set_solver.
  - intros i Hu. apply H3. by rewrite (sm_used _ _ (Ht i)).
  - intros i. destruct (Hj i) as [A1 A2]. clear -A2. set_solver.
  - split; [done|]. intros i. destruct (Hj i) as [A1 A2]. clear -A2. set_solver.
  - intros q. rewrite (H7 q). assert (E : q ∈ F' ∪ L' <-> q ∈ F ∪ L) by (by rewrite Hall). rewrite !elem_of_union in E. clear -E. tauto.
Qed.

(** A process writes its kernel stack, or the kernel or the process one of its
    user pages. *)
Definition data_page x e (r : Z) : Prop := r = p_kstack x \/ exists v, 0 <= v < UPAGES /\ present (e v) = true /\ r = frame_of (e v).

Lemma slot_write pg F x Y e n r m :
  slot_ok pg F x Y e n -> data_page x e r -> same_except {[r]} (pg_mem pg) m -> mem_bytes m -> slot_ok (pg_setmem m pg) F x Y e n /\ r ∈ Y.
Proof.
  intros Hs Hr Hm Hb. pose proof (slot_apart _ _ _ _ _ _ Hs) as Hap. destruct Hs as [(Ya & Ha & -> & Hk) (Hk1 & Hk2) Ht Hsz Hn].
  assert (W : aspace data (pg_setmem m pg) F (p_pgdir x) e n Ya /\ r ∈ {[p_kstack x]} ∪ Ya).
  { destruct Hr as [->|(v & Hv & Hp & ->)].
    - split; [|clear; set_solver]. eapply aspace_other; [exact Ha| |by rewrite pg_mem_set|clear -Hap Hk; set_solver].
      eapply pg_rep_set; [by eapply aspace_rep|done|exact Hm|clear -Hk2; set_solver].
    - destruct (aspace_write data pg F (p_pgdir x) e n Ya v m Ha Hv Hp Hm Hb) as [W1 W2]. split; [done|]. clear -W2. set_solver. }
  destruct W as [W1 W2]. split; [|done]. split; try done. by exists Ya.
Qed.

Lemma mem_write A L pg tab F own i e n r m :
  mem_rep A L pg tab F own -> used (tab i) -> slot_ok pg F (tab i) (own i) e n -> data_page (tab i) e r ->
  same_except {[r]} (pg_mem pg) m -> mem_bytes m -> exists own', mem_rep A L (pg_setmem m pg) tab F own' /\ forall j, own' j = own j.
Proof.
  intros Hm Hu Hs Hr Hsame Hb. destruct (slot_write _ _ _ _ _ _ _ _ Hs Hr Hsame Hb) as [Hs' Hin]. pose proof (slot_apart _ _ _ _ _ _ Hs) as Hap.
  exists (updn own i (own i)). split; [|intros j; unfold updn; by case_decide; subst].
  destruct (mr_lost _ _ _ _ _ _ Hm) as [HL HLo]. specialize (HLo i).
  eapply (mem_change A L L pg _ tab tab F F own i); [done|done| | |done|done|clear -HL HLo; set_solver|by eauto|done].
  - eapply pg_rep_set; [apply Hm|done|exact Hsame|clear -Hin Hap; set_solver].
  - rewrite pg_mem_set. eapply same_except_weaken; [|exact Hsame]. clear -Hin. set_solver.
Qed.
End space.
