(* ===== verification/ProcFork.v ===== *)
(** [allocproc] and [fork] over the process table, memory and files. *)

From S2P Require Import Prelude CString Layout Sleeplock BlockLayer Fs File Pipe TxnLayer SysFile.
From S2P Require Import Spinlock LockRep Kalloc Vm VmRep VmUser VmCopy VmOut VmSpace.
From S2P Require Import Proc ProcOps ProcEff Seg ProcMem ProcSpace.

(** ** Writing inside one page *)

Section page_write.
Context {P : Type} `{!PageOps P} `{!PageLayer P}.
Implicit Types (pg : P) (F : gset Z).

Definition page_local (r : Z) (f : mem -> mem) : Prop :=
  forall m, (forall a, ~ in_page r a -> f m a = m a) /\ (mem_bytes m -> mem_bytes (f m)).

Lemma page_local_same r f m : r mod PGSIZE = 0 -> page_local r f -> same_except {[r]} m (f m).
Proof. intros Hr Hf q a Hq Hn Ha. apply Hf. eapply (pages_apart q r); try done. set_solver. Qed.

Lemma wp_page_write pg F r f (Q : () -> P -> Prop) :
  pg_rep pg F -> r ∉ F -> r mod PGSIZE = 0 -> page_local r f ->
  (forall pg', pg_rep pg' F -> pg_mem pg' = f (pg_mem pg) -> Q () pg') -> wp (modify (fun s => pg_setmem (f (pg_mem s)) s)) pg Q.
Proof.
  intros Hp Hr Hm Hf HQ. apply wp_modify, HQ; [|apply pg_mem_set].
  eapply (pg_rep_set pg F {[r]}); [done|apply Hf, (pg_bytes _ _ Hp)|by apply page_local_same|set_solver].
Qed.

Lemma local_store32 r a v : 0 <= r -> r + 4096 <= 2 ^ 32 -> r <= a -> a + 4 <= r + 4096 -> page_local r (fun m => store32 m a v).
Proof.
  intros H0 H1 Ha Ha' m. split; [|apply store32_bytes]. intros b Hb. apply store32_other; [lia|lia|].
  unfold in_page, PGSIZE in Hb. lia.
Qed.

Lemma local_memset r a v n :
  0 <= r -> r + 4096 <= 2 ^ 32 -> r <= a -> 0 <= n -> a + n <= r + 4096 -> page_local r (fun m => memset m a v n).
Proof.
  intros H0 H1 Ha Hn Ha' m. split.
  - intros b Hb. rewrite memset_spec by lia. unfold in_page, PGSIZE in Hb. unfold in_range.
    destruct (Z.leb_spec a b), (Z.ltb_spec b (a + n)); simpl; try done. lia.
  - intros Hm b. rewrite memset_spec by lia. destruct (in_range _ _ _); [apply Z.mod_pos_bound; lia|apply Hm].
Qed.
End page_write.

(** ** [allocproc] *)

(** Return to [trapret] after [forkret]: the kernel stack of a new process. *)
Definition stack_ready (m : mem) (kstack forkret_addr trapret_addr : Z) : Prop :=
  load32 m (kstack + 4016) = trapret_addr /\ load32 m (kstack + 4012) = forkret_addr.

Definition new_proc (x : proc) (pid kstack : Z) : proc :=
  (embryo x pid) <| p_kstack := kstack |> <| p_tf := kstack + 4020 |> <| p_context := CForkret |>.

Section fork.
Context {P S : Type} `{!PageOps P} `{!PageLayer P} `{!BlockOps S} `{!DevOps S} `{!TxnOps S}.
Variables data cpus forkret_addr trapret_addr : Z.
Hypothesis Hdata : data_ok data.
Hypothesis Haddr : 0 <= forkret_addr < 2 ^ 32 /\ 0 <= trapret_addr < 2 ^ 32.
Context {ids : list Z}.
Variables (c : nat) (id : Z).
Hypothesis here : ids !! c = Some id.
Variables (h : nat -> list Z) (b : nat -> bool).
Hypothesis free : forall c', (c' < length ids)%nat -> PTLOCK ∉ h c'.
Implicit Types (s : os P S) (pg : P) (F Y L A : gset Z) (k : kern).

(** The kernel between two calls: the table is whole and [ptable.lock] free. *)
Record calm k : Prop := { ca_len : length (k_ptab k) = NPROC; ca_rep : mach_rep ids (k_mach k) h no_depth b }.

Lemma not_held : PTLOCK ∉ h c.
Proof. apply free, (lookup_lt_Some _ _ _ here). Qed.

(** A step of one component. *)
Section steps.
Variables (k : kern) (pg : P) (cpu : list cpuseg) (idt : list gatedesc) (kp : Z) (io : osfs S).
Notation st := (mk_os k pg cpu idt kp io).

Lemma wp_on_k {B} (m : M kern B) (Q : B -> os P S -> Prop) :
  wp m k (fun a k' => Q a (mk_os k' pg cpu idt kp io)) -> wp (on_k m) st Q.
Proof. intros H. by apply wp_zoom. Qed.
Lemma wp_on_pg {B} (m : M P B) (Q : B -> os P S -> Prop) :
  wp m pg (fun a pg' => Q a (mk_os k pg' cpu idt kp io)) -> wp (on_pg m) st Q.
Proof. intros H. by apply wp_zoom. Qed.
Lemma wp_on_io {B} (m : M (osfs S) B) (Q : B -> os P S -> Prop) :
  wp m io (fun a io' => Q a (mk_os k pg cpu idt kp io')) -> wp (on_io m) st Q.
Proof. intros H. by apply wp_zoom. Qed.
Lemma wp_getk {B} p (f : proc -> B) (Q : B -> os P S -> Prop) : Q (f (pt k p)) st -> wp (on_k (getp p f)) st Q.
Proof. intros H. by apply wp_on_k. Qed.
Lemma wp_setk p f (Q : () -> os P S -> Prop) :
  length (k_ptab k) = NPROC -> (p < NPROC)%nat ->
  (forall tab, length tab = NPROC -> (forall j, tab !!! j = updn (pt k) p (f (pt k p)) j) ->
     Q () (mk_os (kset k (k_mach k) tab (k_cproc k)) pg cpu idt kp io)) -> wp (on_k (setp p f)) st Q.
Proof.
  intros Hl Hp HQ. apply wp_on_k, wp_setp. destruct (set_slot k p (f (pt k p)) Hl Hp) as [Ht Hj].
  specialize (HQ _ Ht Hj). by destruct k.
Qed.

(** The stack of a new process is written inside its page. *)
Lemma wp_build_stack {B} F r (x : B) (Q : B -> os P S -> Prop) :
  pg_rep pg F -> r ∉ F -> page_ok pg_end r ->
  (forall pg', pg_rep pg' F -> same_except {[r]} (pg_mem pg) (pg_mem pg') ->
     stack_ready (pg_mem pg') r forkret_addr trapret_addr -> Q x (mk_os k pg' cpu idt kp io)) ->
  wp (on_pg (wr (r + 4016) trapret_addr);; on_pg (vm_memset (r + 3996) 0 CTX_SIZE);; on_pg (wr (r + 4012) forkret_addr);; mret x) st Q.
Proof.
  intros Hp Hr Hro HQ. destruct (page_bounds pg_end pg_end_ok r Hro) as (B0 & B1 & B2). unfold on_pg, wr, vm_memset.
  assert (W1 : page_local r (fun m => store32 m (r + 4016) trapret_addr)) by (apply local_store32; lia).
  assert (W2 : page_local r (fun m => memset m (r + 3996) 0 CTX_SIZE)) by (apply local_memset; unfold CTX_SIZE; lia).
  assert (W3 : page_local r (fun m => store32 m (r + 4012) forkret_addr)) by (apply local_store32; lia).
  wp_step. apply wp_zoom. apply (wp_page_write pg F r (fun m => store32 m (r + 4016) trapret_addr)); try done. intros p1 Hp1 E1.
  wp_step. apply wp_zoom. apply (wp_page_write p1 F r (fun m => memset m (r + 3996) 0 CTX_SIZE)); try done. intros p2 Hp2 E2.
  wp_step. apply wp_zoom. apply (wp_page_write p2 F r (fun m => store32 m (r + 4012) forkret_addr)); try done. intros p3 Hp3 E3.
  wp_step. cbv beta in *. apply (HQ p3 Hp3).
  - rewrite E3, E2, E1. eapply same_except_weaken; [|eapply same_except_trans; [|eapply same_except_trans]];
      [|apply (page_local_same r _ _ B2 W1)|apply (page_local_same r _ _ B2 W2)|apply (page_local_same r _ _ B2 W3)]. set_solver.
  - rewrite E3, E2, E1. split; [|apply load32_store32; lia]. rewrite load32_store32_other by lia.
    rewrite (load32_ext (store32 (pg_mem pg) (r + 4016) trapret_addr)); [apply load32_store32; lia|lia|lia|].
    intros i Hi. rewrite memset_spec by (unfold CTX_SIZE; lia). unfold in_range, CTX_SIZE. by rewrite (proj2 (Z.ltb_ge _ _)), andb_false_r by lia.
Qed.
End steps.

Lemma wp_allocproc k pg cpu idt kp io F (Q : option nat -> os P S -> Prop) :
  calm k -> pg_rep pg F ->
  (forall k' pg', (F = ∅ \/ forall i, (i < NPROC)%nat -> used (pt k i)) -> calm k' -> pg_rep pg' F -> pg_mem pg' = pg_mem pg -> k_cproc k' = k_cproc k ->
     (forall j, kept_slot (pt k j) (pt k' j)) -> Q None (mk_os k' pg' cpu idt kp io)) ->
  (forall np r k' pg', calm k' -> (np < NPROC)%nat -> p_state (pt k np) = UNUSED -> r ∈ F -> pg_rep pg' (F ∖ {[r]}) ->
     same_except {[r]} (pg_mem pg) (pg_mem pg') -> stack_ready (pg_mem pg') r forkret_addr trapret_addr ->
     k_cproc k' = k_cproc k -> k_nextpid k' = s32 (k_nextpid k + 1) ->
     (forall j, pt k' j = updn (pt k) np (new_proc (pt k np) (k_nextpid k) r) j) ->
     Q (Some np) (mk_os k' pg' cpu idt kp io)) ->
  wp (allocproc forkret_addr trapret_addr id) (mk_os k pg cpu idt kp io) Q.
Proof.
  intros [Hl Hr] Hp HN HS. unfold allocproc. wp_step. apply wp_on_k.
  refine (proj2 (alloc_slot_runs c id here k h b _ Hl Hr not_held _ _) free).
  2:{ intros m Hm Hall. cbv iota beta. wp_step. apply HN; try done. by right. }
  intros m tab np _ Hm Ht Hnp Hun Hj. cbv iota beta. wp_step. apply wp_on_pg. set (k1 := (kset k m tab (k_cproc k)) <| k_nextpid := s32 (k_nextpid k + 1) |>).
  assert (Hpt1 : forall j, pt k1 j = updn (pt k) np (embryo (pt k np) (k_nextpid k)) j) by exact Hj.
  eapply (pg_kalloc_spec _ _ _ Hp).
  - intros -> pg1 Hp1 Em. change (0 =? 0) with true. cbv iota. wp_step. apply wp_on_k.
    apply (wp_free_slot k1); [exact Ht|done|]. intros tab2 Ht2 Hj2. cbv beta. wp_step.
    apply HN; try done; [by left|]. intros j. change (kept_slot (pt k j) (tab2 !!! j)). rewrite Hj2. unfold updn.
    case_decide as E; [subst j|rewrite Hpt1; unfold updn; rewrite decide_False by done; apply kept_slot_refl].
    apply kept_unused; intros Hu; by destruct Hu.
  - intros r pg1 HrF Hp1 Em. pose proof (pg_valid _ _ _ Hp HrF) as Hro. destruct (page_bounds pg_end pg_end_ok r Hro) as (B0 & B1 & B2).
    pose proof pg_end_ok as Hk. pose proof (page_range pg_end r (proj1 Hk) Hro) as Hrr. unfold KERNBASE in Hrr.
    rewrite (proj2 (Z.eqb_neq r 0)) by lia. wp_step. apply wp_on_k.
    apply (wp_set_stack k1); [exact Ht|done|]. intros tab2 Ht2 Hj2. cbv beta zeta. unfold KSTACKSIZE, TF_SIZE, PHYSTOP, PGSIZE in *.
    rewrite (u32_small (r + 4096 - 76)) by lia. replace (u32 (r + 4096 - 76 - 4)) with (r + 4016) by (rewrite u32_small by lia; lia).
    replace (u32 (r + 4016 - CTX_SIZE)) with (r + 3996) by (unfold CTX_SIZE; rewrite u32_small by lia; lia).
    replace (u32 (r + 3996 + CTX_eip)) with (r + 4012) by (unfold CTX_eip; rewrite u32_small by lia; lia).
    apply (wp_build_stack _ _ _ _ _ _ (F ∖ {[r]}) r); [done|set_solver|done|]. intros pg2 Hp2 Hs2 Hst.
    apply (HS np r); try done; [by rewrite <- Em|]. intros j.
    change (tab2 !!! j = updn (pt k) np (new_proc (pt k np) (k_nextpid k) r) j). rewrite Hj2. unfold updn.
    case_decide as E; [subst j|by rewrite Hpt1; unfold updn; rewrite decide_False]. rewrite Hpt1, updn_eq. unfold new_proc, embryo.
    rewrite (u32_small (r + 4096 - 76)) by lia. by replace (r + 4096 - 76) with (r + 4020) by lia.
Qed.

(** ** [fork] *)

(** The descriptors of slots that are not in use are closed. *)
Record files_ok (f : files) (tab : nat -> proc) : Prop := {
  fo_count : counted no_extra f; fo_len : length (ofile f) = NPROC;
  fo_unused : forall i, (i < NPROC)%nat -> ~ used (tab i) -> ofile f !! i = Some (replicate NOFILE None)
}.

(** The child's trap frame: the parent's, with 0 in [%eax]. *)
Definition frame_copied (m : mem) (tf : Z) (m' : mem) (ntf : Z) : Prop :=
  forall i, 0 <= i < TF_SIZE -> m' (ntf + i) = if in_range i TF_eax 4 then 0 else m (tf + i).

Definition child_of (x px : proc) (p : nat) (pid kstack pgdir : Z) : proc :=
  (new_proc x pid kstack) <| p_pgdir := pgdir |> <| p_sz := p_sz px |> <| p_parent := Some p |> <| p_cwd := p_cwd px |>
    <| p_name := copy_name (p_name x) (p_name px) |> <| p_state := RUNNABLE |>.

Lemma wp_copy_frame {B} k pg cpu idt kp io F r tf (m : M (os P S) B) (Q : B -> os P S -> Prop) :
  pg_rep pg F -> r ∉ F -> page_ok pg_end r -> (exists p, page_ok pg_end p /\ p <> r /\ tf = p + 4020) ->
  (forall pg', pg_rep pg' F -> same_except {[r]} (pg_mem pg) (pg_mem pg') -> frame_copied (pg_mem pg) tf (pg_mem pg') (r + 4020) ->
     (forall a, r <= a < r + 4020 -> pg_mem pg' a = pg_mem pg a) -> wp m (mk_os k pg' cpu idt kp io) Q) ->
  wp (on_pg (vm_memmove (r + 4020) tf TF_SIZE);; on_pg (wr (u32 (r + 4020 + TF_eax)) 0);; m) (mk_os k pg cpu idt kp io) Q.
Proof.
  intros Hp Hr Hro (p & Hpo & Hne & ->) HQ. destruct (page_bounds pg_end pg_end_ok r Hro) as (B0 & B1 & B2).
  destruct (page_bounds pg_end pg_end_ok p Hpo) as (C0 & C1 & C2). unfold TF_eax, TF_SIZE. rewrite (u32_small (r + 4020 + 28)) by lia.
  pose proof (page_range pg_end r (proj1 pg_end_ok) Hro) as Hrr. pose proof (page_range pg_end p (proj1 pg_end_ok) Hpo) as Hpr.
  unfold KERNBASE, PHYSTOP, PGSIZE in Hrr, Hpr.
  pose proof (pg_bytes _ _ Hp) as Hb. set (m1 := memmove (pg_mem pg) (r + 4020) (p + 4020) 76).
  assert (E : forall a, m1 a = if in_range a (r + 4020) 76 then pg_mem pg (p + 4020 + (a - (r + 4020))) else pg_mem pg a).
  { intros a. apply memmove_spec; try done; lia. }
  assert (Hb1 : mem_bytes m1) by (intros a; rewrite E; destruct (in_range _ _ _); apply Hb).
  assert (Hs1 : same_except {[r]} (pg_mem pg) m1).
  { intros q a Hq Hn Ha. rewrite E. assert (Hna : ~ in_page r a) by (eapply (pages_apart q r); try done; set_solver).
    unfold in_page, PGSIZE in Hna. unfold in_range. destruct (Z.leb_spec (r + 4020) a), (Z.ltb_spec a (r + 4020 + 76)); simpl; try done. lia. }
  assert (W : page_local r (fun m => store32 m (r + 4020 + 28) 0)) by (apply local_store32; lia).
  wp_step. apply wp_on_pg. unfold vm_memmove. apply wp_modify. fold m1. wp_step. apply wp_on_pg. unfold wr.
  assert (Hp1 : pg_rep (pg_setmem m1 pg) F) by (eapply (pg_rep_set pg F {[r]}); [done|done|done|clear -Hr; set_solver]).
  apply (wp_page_write (pg_setmem m1 pg) F r (fun m => store32 m (r + 4020 + 28) 0)); try done. rewrite pg_mem_set. intros pg2 Hp2 E2. cbv beta in E2.
  apply (HQ pg2 Hp2).
  - rewrite E2. eapply same_except_weaken; [|eapply same_except_trans; [exact Hs1|apply (page_local_same r _ m1 B2 W)]]. clear. set_solver.
  - intros i Hi. unfold TF_SIZE in Hi. rewrite E2, store32_at by lia. unfold in_range, TF_eax.
    destruct (Z.leb_spec (r + 4020 + 28) (r + 4020 + i)), (Z.leb_spec 28 i); try lia; cbn [andb];
      [|rewrite E; unfold in_range; decide_cmp; cbn [andb]; f_equal; lia].
    destruct (Z.ltb_spec (r + 4020 + i) (r + 4020 + 28 + 4)), (Z.ltb_spec i (28 + 4)); try lia; cbn [andb]; [by rewrite Z.shiftr_0_l|].
    rewrite E. unfold in_range. decide_cmp. cbn [andb]. f_equal. lia.
  - intros a Ha. rewrite E2, store32_other by lia. rewrite E. unfold in_range. decide_cmp. done.
Qed.

(** The file system after [idup(cwd)]. *)
Definition dup_cwd (cwd : nat) (io : osfs S) : osfs S :=
  io <| o_fs := with_ip cwd (fun i => i <| i_ref := i_ref i + 1 |>) (o_fs io) |>.

(** What [fork] does once the child has its memory. *)
Definition fork_tail (p np : nat) : M (os P S) Z :=
  on_k (adopt p np);;
  tf ← on_k (getp p p_tf);
  ntf ← on_k (getp np p_tf);
  on_pg (vm_memmove ntf tf TF_SIZE);;
  on_pg (wr (u32 (ntf + TF_eax)) 0);;
  on_io (on_files (fork_files p np));;
  cwd ← on_k (getp p p_cwd);
  cwd ← match cwd with None => panic "null pointer" | Some c => on_io (on_fs (idup c)) end;
  on_k (setp np (fun x => x <| p_cwd := Some cwd |>));;
  name ← on_k (getp p p_name);
  on_k (setp np (fun x => x <| p_name := copy_name (p_name x) name |>));;
  pid ← on_k (getp np p_pid);
  on_k (make_runnable id np);;
  mret pid.

Lemma wp_fork_tail k pg cpu idt kp io F p np r kst t cwd (Q : Z -> os P S -> Prop) :
  calm k -> (p < NPROC)%nat -> (np < NPROC)%nat -> np <> p -> pg_rep pg F -> r ∉ F -> page_ok pg_end r ->
  p_tf (pt k np) = r + 4020 -> page_ok pg_end kst -> kst <> r -> p_tf (pt k p) = kst + 4020 -> p_cwd (pt k p) = Some cwd ->
  counted no_extra (o_files io) -> ofile (o_files io) !! p = Some t -> ofile (o_files io) !! np = Some (replicate NOFILE None) ->
  (forall k' pg' f', calm k' -> pg_rep pg' F -> same_except {[r]} (pg_mem pg) (pg_mem pg') ->
     frame_copied (pg_mem pg) (kst + 4020) (pg_mem pg') (r + 4020) -> (forall a, r <= a < r + 4020 -> pg_mem pg' a = pg_mem pg a) ->
     counted no_extra f' -> ofile f' = <[np := t]> (ofile (o_files io)) ->
     k_cproc k' = k_cproc k -> k_nextpid k' = k_nextpid k ->
     (forall j, pt k' j = updn (pt k) np ((pt k np) <| p_sz := p_sz (pt k p) |> <| p_parent := Some p |> <| p_cwd := Some cwd |>
        <| p_name := copy_name (p_name (pt k np)) (p_name (pt k p)) |> <| p_state := RUNNABLE |>) j) ->
     Q (p_pid (pt k np)) (mk_os k' pg' cpu idt kp (dup_cwd cwd (io <| o_files := f' |>)))) ->
  wp (fork_tail p np) (mk_os k pg cpu idt kp io) Q.
Proof.
  intros Hc Hp Hnp Hne Hpg Hr Hro Htf Hko Hkr Htfp Hcwd Hcnt Ht Hnone HQ. unfold fork_tail.
  wp_step. apply wp_on_k. apply (wp_adopt k p np); [apply Hc|done|]. intros tab1 Ht1 Hj1. cbv beta.
  set (k1 := kset k (k_mach k) tab1 (k_cproc k)).
  assert (E1p : pt k1 p = pt k p) by (change (pt k1 p) with (tab1 !!! p); rewrite Hj1; by rewrite updn_ne).
  assert (E1n : pt k1 np = (pt k np) <| p_sz := p_sz (pt k p) |> <| p_parent := Some p |>) by (change (pt k1 np) with (tab1 !!! np); rewrite Hj1; apply updn_eq).
  wp_step. apply wp_getk. rewrite E1p, Htfp. wp_step. apply wp_getk. rewrite E1n. cbn [p_tf set_field]. rewrite Htf.
  apply (wp_copy_frame _ _ _ _ _ _ F r (kst + 4020)); [done|done|done|by exists kst|]. intros pg2 Hpg2 Hs2 Hfr Hlow.
  wp_step. apply wp_on_io. unfold on_files. apply wp_zoom. eapply (wp_fork_files _ p np t); [done|done|congruence|done|]. intros f' Hf' Ef _.
  wp_step. apply wp_getk. rewrite E1p, Hcwd. wp_step. apply wp_on_io. unfold on_fs. apply wp_zoom. unfold idup, modip. wp_step. wp_step. wp_step.
  wp_step. apply wp_setk; [exact Ht1|done|]. intros tab2 Ht2 Hj2. set (k2 := kset k1 (k_mach k1) tab2 (k_cproc k1)).
  assert (E2 : forall j, pt k2 j = updn (pt k1) np ((pt k1 np) <| p_cwd := Some cwd |>) j) by exact Hj2.
  wp_step. apply wp_getk. rewrite E2, updn_ne, E1p by congruence.
  wp_step. apply wp_setk; [exact Ht2|done|]. intros tab3 Ht3 Hj3. set (k3 := kset k2 (k_mach k2) tab3 (k_cproc k2)).
  assert (E3 : forall j, pt k3 j = updn (pt k2) np ((pt k2 np) <| p_name := copy_name (p_name (pt k2 np)) (p_name (pt k p)) |>) j) by exact Hj3.
  assert (E3n : pt k3 np = (pt k np) <| p_sz := p_sz (pt k p) |> <| p_parent := Some p |> <| p_cwd := Some cwd |>
        <| p_name := copy_name (p_name (pt k np)) (p_name (pt k p)) |>) by (rewrite E3, updn_eq, E2, updn_eq, E1n; done).
  wp_step. apply wp_getk. rewrite E3n. cbn [p_pid set_field].
  wp_step. apply wp_on_k.
  refine (proj2 (make_runnable_runs c id here k3 h b np _ Ht3 Hnp (ca_rep _ Hc) not_held _) free).
  intros m4 tab4 _ Hm4 Ht4 Hj4. wp_step. apply (HQ (kset k3 m4 tab4 (k_cproc k3)) pg2 f'); try done.
  intros j. change (tab4 !!! j = updn (pt k) np ((pt k np) <| p_sz := p_sz (pt k p) |> <| p_parent := Some p |> <| p_cwd := Some cwd |>
        <| p_name := copy_name (p_name (pt k np)) (p_name (pt k p)) |> <| p_state := RUNNABLE |>) j).
  rewrite Hj4, E3n. unfold updn. case_decide as E; [done|]. rewrite E3. unfold updn. rewrite decide_False by done. rewrite E2. unfold updn. rewrite decide_False by done.
  change (pt k1 j) with (tab1 !!! j). rewrite Hj1. unfold updn. by rewrite decide_False.
Qed.

(** [fork] fails: only free pages have changed, and at most one of them is
    lost. *)
Definition fork_failed A L (k : kern) own (s' : os P S) : Prop :=
  calm (os_k s') /\ k_cproc (os_k s') = k_cproc k /\ (forall j, kept_slot (pt k j) (pt (os_k s') j)) /\
  exists F' X, mem_rep data A (L ∪ X) (os_pg s') (pt (os_k s')) F' own /\ (X = ∅ \/ exists q, X = {[q]}).

(** No slot, or too few pages for the stack and the copy of process [p]. *)
Definition fork_short (k : kern) F (p : nat) : Prop :=
  (forall i, (i < NPROC)%nat -> used (pt k i)) \/ Z.of_nat (size F) <= 1026 + up_vpn (p_sz (pt k p)).

(** [fork] succeeds. *)
Record fork_done A L (k : kern) pg (io : osfs S) F own (p : nat) e (np : nat) (s' : os P S) : Prop := {
  fd_calm : calm (os_k s') /\ k_cproc (os_k s') = k_cproc k;
  fd_slot : (np < NPROC)%nat /\ p_state (pt k np) = UNUSED;
  fd_table : exists kstack pgdir, forall j,
    pt (os_k s') j = updn (pt k) np (child_of (pt k np) (pt k p) p (k_nextpid k) kstack pgdir) j;
  fd_mem : exists F' own' ed, mem_rep data A L (os_pg s') (pt (os_k s')) F' own' /\ (forall j, j <> np -> own' j = own j) /\
    slot_ok data (os_pg s') F' (pt (os_k s') np) (own' np) ed (up_vpn (p_sz (pt k p))) /\
    copied_bytes pg e (up_vpn (p_sz (pt k p))) (os_pg s') ed;
  fd_same : same_except F (pg_mem pg) (pg_mem (os_pg s'));
  fd_frame : frame_copied (pg_mem pg) (p_tf (pt k p)) (pg_mem (os_pg s')) (p_tf (pt (os_k s') np));
  fd_stack : stack_ready (pg_mem (os_pg s')) (p_kstack (pt (os_k s') np)) forkret_addr trapret_addr;
  fd_files : exists f' cwd, p_cwd (pt k p) = Some cwd /\ os_io s' = dup_cwd cwd (io <| o_files := f' |>) /\ counted no_extra f' /\
    ofile f' = <[np := ofile (o_files io) !!! p]> (ofile (o_files io))
}.

Lemma stack_kept m m' r : 0 <= r -> r + 4096 <= 2 ^ 32 -> (forall a, r <= a < r + 4020 -> m' a = m a) ->
  stack_ready m r forkret_addr trapret_addr -> stack_ready m' r forkret_addr trapret_addr.
Proof.
  intros H0 H1 Hm [S1 S2]. split; [rewrite <- S1|rewrite <- S2]; (apply load32_ext; [lia|lia|]); intros i Hi; apply Hm; lia.
Qed.

(** The child, from its parts: memory after [allocproc] ([pg1]), [copyuvm]
    ([pg2]) and the copy of the trap frame ([pg3]). *)
Lemma fork_done_intro A L k pg io F own p e np k3 pg1 pg2 pg3 F2 r d ed Yd f' cwd cpu idt kp :
  mem_rep data A L pg (pt k) F own -> slot_ok data pg F (pt k p) (own p) e (up_vpn (p_sz (pt k p))) -> used (pt k p) ->
  (np < NPROC)%nat -> p_state (pt k np) = UNUSED -> r ∈ F -> p_cwd (pt k p) = Some cwd ->
  same_except {[r]} (pg_mem pg) (pg_mem pg1) -> stack_ready (pg_mem pg1) r forkret_addr trapret_addr ->
  aspace data pg2 F2 d ed (up_vpn (p_sz (pt k p))) Yd -> F2 ∪ Yd = F ∖ {[r]} ->
  copied_bytes pg1 e (up_vpn (p_sz (pt k p))) pg2 ed -> same_except (F ∖ {[r]}) (pg_mem pg1) (pg_mem pg2) ->
  calm k3 -> k_cproc k3 = k_cproc k -> pg_rep pg3 F2 -> same_except {[r]} (pg_mem pg2) (pg_mem pg3) ->
  frame_copied (pg_mem pg2) (p_tf (pt k p)) (pg_mem pg3) (r + 4020) -> (forall a, r <= a < r + 4020 -> pg_mem pg3 a = pg_mem pg2 a) ->
  counted no_extra f' -> ofile f' = <[np := ofile (o_files io) !!! p]> (ofile (o_files io)) ->
  (forall j, pt k3 j = updn (pt k) np (child_of (pt k np) (pt k p) p (k_nextpid k) r d) j) ->
  fork_done A L k pg io F own p e np (mk_os k3 pg3 cpu idt kp (dup_cwd cwd (io <| o_files := f' |>))).
Proof.
  intros Hmr Hsl Hu Hnp Hun HrF Hcwd Hs1 Hst Had HF2 Hcb Hs2 Hc3 Ecp Hp3 Hs3 Hfr Hlow Hcnt Ef Hj.
  pose proof (slot_apart _ _ _ _ _ _ _ Hsl) as Hap. pose proof (aspace_apart _ _ _ _ _ _ _ Had) as Hapd.
  pose proof (pg_valid _ _ _ (mr_pg _ _ _ _ _ _ _ Hmr) HrF) as Hro. destruct (page_bounds pg_end pg_end_ok r Hro) as (B0 & B1 & B2).
  assert (HrF2 : r ∉ F2) by (clear -HF2; set_solver). assert (HrY : r ∉ Yd) by (clear -HF2; set_solver).
  assert (Hall : same_except F (pg_mem pg) (pg_mem pg3)).
  { eapply same_except_weaken; [|eapply same_except_trans; [exact Hs1|eapply same_except_trans; [exact Hs2|exact Hs3]]]. clear -HrF. set_solver. }
  assert (E3n : pt k3 np = child_of (pt k np) (pt k p) p (k_nextpid k) r d) by (rewrite Hj; apply updn_eq).
  destruct Hsl as [(Ya & Ha & EY & HkY) (Hko & HkF) Htf Hsz Hn].
  assert (Hslot : slot_ok data pg3 F2 (pt k3 np) ({[r]} ∪ Yd) ed (up_vpn (p_sz (pt k p)))).
  { rewrite E3n. split; [|done| |done|by left].
    - exists Yd. split; [|done]. eapply aspace_other; [exact Had|done|exact Hs3|]. clear -Hapd HrY. set_solver.
    - change (r + 4020 = r + 4096 - 76). lia. }
  assert (Hown : own np = ∅) by (apply (mr_unused _ _ _ _ _ _ _ Hmr); intros Hx; by apply Hx).
  split; cbn [os_k os_pg os_io]; [done|done|by exists r, d| |done| | |by exists f', cwd].
  - exists F2, (updn own np ({[r]} ∪ Yd)), ed. rewrite updn_eq. split_and!; [|intros j Hne; by rewrite updn_ne|done|].
    + eapply (mem_change data A L L pg pg3 (pt k) (pt k3) F F2 own np); [done| |done| | |clear -Hapd HrF2; set_solver| | |].
      * intros j Hne. rewrite Hj, updn_ne by done. apply same_mem_refl.
      * rewrite Hown. by rewrite (right_id_L ∅ (∪)).
      * rewrite Hown, (right_id_L ∅ (∪)). clear -HF2 HrF. apply set_eq. intros q. assert (E : q ∈ F2 ∪ Yd <-> q ∈ F ∖ {[r]}) by (by rewrite HF2).
        destruct (decide (q = r)); set_solver.
      * destruct (mr_lost _ _ _ _ _ _ _ Hmr) as [HL _]. clear -HL HF2 HrF. set_solver.
      * intros _. exists ed, (up_vpn (p_sz (pt k p))). exact Hslot.
      * rewrite E3n. intros Hx. exfalso. by apply Hx.
    + intros va Hva. destruct (Hcb va Hva) as [Hfl Hby]. split; [done|]. pose proof (vpn_of va _ Hva) as Hv.
      rewrite (same_bytes data {[r]} Yd ed _ pg2 pg3 va d F2 Had Hs3 Hva), Hby.
      * apply (same_bytes data {[r]} Ya e _ pg pg1 va _ F Ha Hs1 Hva). pose proof (aspace_frame _ _ _ _ _ _ _ _ Ha Hv). clear -H Hap EY HrF. set_solver.
      * pose proof (aspace_frame _ _ _ _ _ _ _ _ Had Hv). clear -H HrY. set_solver.
  - rewrite E3n. change (p_tf (child_of _ _ _ _ _ _)) with (r + 4020). intros i Hi. rewrite (Hfr i Hi). destruct (in_range i TF_eax 4); [done|].
    assert (Hpage : in_page (p_kstack (pt k p)) (p_tf (pt k p) + i)) by (rewrite Htf; unfold in_page, PGSIZE, KSTACKSIZE, TF_SIZE in *; lia).
    assert (Hkr : p_kstack (pt k p) <> r) by congruence.
    rewrite (Hs2 (p_kstack (pt k p))); [|apply Hko|clear -HkF; set_solver|done]. apply (Hs1 (p_kstack (pt k p))); [apply Hko|clear -Hkr; set_solver|done].
  - rewrite E3n. change (p_kstack (child_of _ _ _ _ _ _)) with r. apply (stack_kept (pg_mem pg2)); [lia|lia|done|].
    apply (stack_kept (pg_mem pg1)); [lia|lia| |done]. intros a Ha'. apply (Hs2 r); [done|clear; set_solver|unfold in_page, PGSIZE; lia].
Qed.

(** What [fork] does when [copyuvm] fails: the stack and the slot are free
    again, and [X] is what [copyuvm] lost. *)
Definition fork_undo (np : nat) : M (os P S) Z :=
  kstack ← on_k (getp np p_kstack);
  on_pg (pg_kfree kstack);;
  on_k (free_slot np);;
  mret (-1).

Lemma wp_fork_undo k k2 pg pg1 pg2 cpu idt kp io A L F own np r X (Q : Z -> os P S -> Prop) :
  mem_rep data A L pg (pt k) F own -> (np < NPROC)%nat -> p_state (pt k np) = UNUSED -> r ∈ F ->
  same_except {[r]} (pg_mem pg) (pg_mem pg1) -> same_except (F ∖ {[r]}) (pg_mem pg1) (pg_mem pg2) ->
  calm k2 -> k_cproc k2 = k_cproc k -> (forall j, pt k2 j = updn (pt k) np ((new_proc (pt k np) (k_nextpid k) r) <| p_pgdir := 0 |>) j) ->
  pg_rep pg2 ((F ∖ {[r]}) ∖ X) -> (X = ∅ \/ exists q, q ∈ F ∖ {[r]} /\ X = {[q]}) ->
  (forall s', fork_failed A L k own s' -> os_io s' = io -> same_except F (pg_mem pg) (pg_mem (os_pg s')) -> Q (-1) s') ->
  wp (fork_undo np) (mk_os k2 pg2 cpu idt kp io) Q.
Proof.
  intros Hmr Hnp Hun HrF Hs1 Hs2 Hc2 Ecp E2 Hp2 HX HF. pose proof (pg_valid _ _ _ (mr_pg _ _ _ _ _ _ _ Hmr) HrF) as Hro.
  unfold fork_undo. wp_step. apply wp_getk. rewrite E2, updn_eq. change (p_kstack _) with r. wp_step. apply wp_on_pg.
  eapply pg_kfree_spec; [exact Hp2|done|clear; set_solver|]. intros pg3 Hp3 Hm3. wp_step. apply wp_on_k.
  apply (wp_free_slot k2); [apply Hc2|done|]. intros tab3 Ht3 Hj3. wp_step.
  assert (Hs3 : same_except {[r]} (pg_mem pg2) (pg_mem pg3)).
  { intros q a Hq Hqn Hqa. apply Hm3. eapply (pages_apart q); try done; [apply Hro|clear -Hqn; set_solver]. }
  assert (Hall : same_except F (pg_mem pg) (pg_mem pg3)).
  { eapply same_except_weaken; [|eapply same_except_trans; [exact Hs1|eapply same_except_trans; [exact Hs2|exact Hs3]]]. clear -HrF. set_solver. }
  assert (Hsm : forall j, kept_slot (pt k j) (tab3 !!! j)).
  { intros j. rewrite Hj3. unfold updn. case_decide as E; [subst j; apply kept_unused; intros Hx; by destruct Hx|].
    rewrite E2. unfold updn. rewrite decide_False by done. apply kept_slot_refl. }
  apply HF; [|done|done]. split_and!; [split; [done|apply Hc2]|exact Ecp|done|].
  destruct (mr_lost _ _ _ _ _ _ _ Hmr) as [HL _]. assert (HXF : X ⊆ F ∖ {[r]}) by (destruct HX as [->|(q & Hq & ->)]; clear -Hq || clear; set_solver).
  exists ({[r]} ∪ (F ∖ {[r]}) ∖ X), X. split; [|destruct HX as [|(q & _ & ->)]; eauto].
  eapply (mem_free data A L (L ∪ X) pg pg3); [done|intros j; apply kept_same_mem, Hsm|done|done| |clear -HL HXF HrF; set_solver].
  clear -HXF HrF. apply set_eq. intros q. destruct (decide (q = r)), (decide (q ∈ X)); set_solver.
Qed.

Lemma wp_fork k pg cpu idt kp io A L F own p e cwd (Q : Z -> os P S -> Prop) :
  calm k -> cp k c = Some p -> (p < NPROC)%nat -> used (pt k p) -> p_cwd (pt k p) = Some cwd ->
  mem_rep data A L pg (pt k) F own -> slot_ok data pg F (pt k p) (own p) e (up_vpn (p_sz (pt k p))) -> files_ok (o_files io) (pt k) ->
  (forall s', fork_short k F p -> fork_failed A L k own s' -> os_io s' = io -> same_except F (pg_mem pg) (pg_mem (os_pg s')) -> Q (-1) s') ->
  (forall np s', fork_done A L k pg io F own p e np s' -> Q (k_nextpid k) s') ->
  wp (fork data forkret_addr trapret_addr id) (mk_os k pg cpu idt kp io) Q.
Proof.
  intros Hc Hcp Hp Hu Hcwd Hmr Hsl [Hcnt Hflen Hfun] HF HS. unfold fork. wp_step. apply wp_on_k.
  eapply wp_curproc; [exact here|apply Hc|exact Hcp|]. intros m0 Hm0. set (k0 := k <| k_mach := m0 |>).
  assert (Hc0 : calm k0) by (destruct Hc; by split). wp_step. apply (wp_allocproc k0 pg cpu idt kp io F); [done|apply Hmr| |].
  { intros k1 pg1 Hsh Hc1 Hp1 Em Ecp Hsm. cbv iota. wp_step. apply HF; [| |done|cbn; rewrite Em; apply same_except_refl].
    { destruct Hsh as [->|Hsh]; [right; rewrite size_empty; destruct Hsl as [_ _ _ Hsz _]; pose proof (up_vpn_bounds (p_sz (pt k p)) ltac:(lia)); lia|by left]. }
    split_and!; [done|done|done|]. exists F, ∅. split; [|by left]. rewrite (right_id_L ∅ (∪)).
    eapply (mem_free data A L L pg pg1); try done; [intros j; apply kept_same_mem, Hsm|cbn; rewrite Em; apply same_except_refl|apply Hmr]. }
  intros np r k1 pg1 Hc1 Hnp Hun HrF Hp1 Hs1 Hst Ecp Enx Hj1. cbv iota. change (pt k0) with (pt k) in *. change (k_nextpid k0) with (k_nextpid k) in *.
  assert (Hne : np <> p) by (intros ->; by apply Hu).
  assert (E1p : pt k1 p = pt k p) by (rewrite Hj1; by apply updn_ne).
  assert (E1n : pt k1 np = new_proc (pt k np) (k_nextpid k) r) by (rewrite Hj1; apply updn_eq).
  pose proof (pg_valid _ _ _ (mr_pg _ _ _ _ _ _ _ Hmr) HrF) as Hro. pose proof (slot_apart _ _ _ _ _ _ _ Hsl) as Hap.
  wp_step. apply wp_getk. rewrite E1p. wp_step. apply wp_getk. rewrite E1p. wp_step. apply wp_on_pg.
  pose proof Hsl as [(Ya & Ha & EY & HkY) (Hko & HkF) Htf Hsz Hn].
  assert (Ha1 : aspace data pg1 (F ∖ {[r]}) (p_pgdir (pt k p)) e (up_vpn (p_sz (pt k p))) Ya).
  { eapply aspace_other; [exact Ha|done|exact Hs1|]. clear -Hap EY HrF. set_solver. }
  apply (wp_space_copy data Hdata pg1 (F ∖ {[r]}) _ e _ Ya); [done|lia| |].
  - intros d pg2 F2 ed Yd Hd0 Had Hap2 HF2 Hcb Hs2. wp_step. apply wp_setk; [apply Hc1|done|]. intros tab2 Ht2 Hj2.
    set (k2 := kset k1 (k_mach k1) tab2 (k_cproc k1)).
    assert (E2 : forall j, pt k2 j = updn (pt k1) np ((pt k1 np) <| p_pgdir := d |>) j) by exact Hj2.
    assert (E2p : pt k2 p = pt k p) by (rewrite E2, updn_ne by congruence; done).
    assert (E2n : pt k2 np = (new_proc (pt k np) (k_nextpid k) r) <| p_pgdir := d |>) by (rewrite E2, updn_eq, E1n; done).
    rewrite (proj2 (Z.eqb_neq d 0) Hd0). change (wp (fork_tail p np) (mk_os k2 pg2 cpu idt kp io) Q).
    assert (Hpo : (p < length (ofile (o_files io)))%nat) by lia. apply lookup_lt_is_Some in Hpo as [t Ht].
    assert (HrF2 : r ∉ F2) by (clear -HF2; set_solver).
    apply (wp_fork_tail k2 pg2 cpu idt kp io F2 p np r (p_kstack (pt k p)) t cwd); try done.
    + split; [exact Ht2|apply Hc1].
    + by eapply aspace_rep.
    + by rewrite E2n.
    + congruence.
    + rewrite E2p, Htf. unfold KSTACKSIZE, TF_SIZE. lia.
    + by rewrite E2p.
    + apply Hfun; [done|]. intros Hx. by apply Hx.
    + intros k3 pg3 f' Hc3 Hp3 Hs3 Hfr Hlow Hcf Ef Ecp3 Enx3 Hj3. rewrite E2n. cbn [p_pid set_field]. change (p_pid (new_proc _ ?x _)) with x.
      apply (HS np). apply (fork_done_intro A L k pg io F own p e np k3 pg1 pg2 pg3 F2 r d ed Yd f' cwd); try done.
      * rewrite Ecp3. exact Ecp.
      * rewrite Htf. replace (p_kstack (pt k p) + KSTACKSIZE - TF_SIZE) with (p_kstack (pt k p) + 4020) by (unfold KSTACKSIZE, TF_SIZE; lia). done.
      * by rewrite (list_lookup_total_correct _ _ _ Ht).
      * intros j. rewrite Hj3, E2n, E2p. unfold updn. case_decide as E; [unfold child_of; by rewrite Hcwd|].
        rewrite E2. unfold updn. rewrite decide_False by done. rewrite Hj1. unfold updn. by rewrite decide_False.
  - intros pg2 X Hnn Ha2 HX Hs2. rewrite size_difference, size_singleton in Hnn by (clear -HrF; set_solver). wp_step. apply wp_setk; [apply Hc1|done|]. intros tab2 Ht2 Hj2. change (0 =? 0) with true. cbv iota.
    set (k2 := kset k1 (k_mach k1) tab2 (k_cproc k1)).
    assert (E2 : forall j, pt k2 j = updn (pt k) np ((new_proc (pt k np) (k_nextpid k) r) <| p_pgdir := 0 |>) j).
    { intros j. change (pt k2 j) with (tab2 !!! j). rewrite Hj2, E1n. unfold updn. case_decide as E; [done|]. rewrite Hj1. by apply updn_ne. }
    change (wp (fork_undo np) (mk_os k2 pg2 cpu idt kp io) Q).
    apply (wp_fork_undo k k2 pg pg1 pg2 cpu idt kp io A L F own np r X); try done; [split; [exact Ht2|apply Hc1]|by eapply aspace_rep|].
    intros s' Hf. apply HF; [right; lia|done].
Qed.
End fork.
