(* ===== verification/ProcLife.v ===== *)
(** [growproc], [wait] and [exit] over memory. *)

From S2P Require Import Prelude CString Layout Sleeplock BlockLayer Fs File Pipe TxnLayer SysFile.
From S2P Require Import Spinlock LockRep Kalloc Vm VmRep VmUser VmCopy VmOut VmSpace.
From S2P Require Import Proc ProcOps ProcEff Seg ProcMem ProcSpace ProcFork.

Section life.
Context {P S : Type} `{!PageOps P} `{!PageLayer P} `{!BlockOps S} `{!DevOps S} `{!TxnOps S}.
Variables data cpus : Z.
Hypothesis Hdata : data_ok data.
Context {ids : list Z}.
Variables (c : nat) (id : Z).
Hypothesis here : ids !! c = Some id.
Variables (h : nat -> list Z) (b : nat -> bool).
Hypothesis free : forall c', (c' < length ids)%nat -> PTLOCK ∉ h c'.
Implicit Types (s : os P S) (pg : P) (F Y L A : gset Z) (k : kern).
Notation calm := (calm (ids := ids) h b).

(** ** [growproc] *)

(** The size [growproc(n)] asks for; a size below 0 wraps around, and then
    [deallocuvm] leaves the process as it is. *)
Definition grow_size (sz n : Z) : Z := if (n <? 0) && (sz + n <? 0) then sz else sz + n.

(** The process [p] of [k'] has memory again: [n] pages with entries [e'], and
    the pages of the others are as they were in [pg]. *)
Definition has_mem A L pg pg' k' own (p : nat) e' (n : Z) : Prop :=
  exists F' own', mem_rep data A L pg' (pt k') F' own' /\ (forall j, j <> p -> own' j = own j /\ page_same (own j) (pg_mem pg) (pg_mem pg')) /\
    slot_ok data pg' F' (pt k' p) (own' p) e' n.

(** An address space in place of the old one. *)
Lemma slot_change A L pg pg' k k' F F' own p e e' n n' Ya Ya' :
  mem_rep data A L pg (pt k) F own -> slot_ok data pg F (pt k p) (own p) e n -> used (pt k p) ->
  own p = {[p_kstack (pt k p)]} ∪ Ya -> p_kstack (pt k p) ∉ Ya ->
  aspace data pg' F' (p_pgdir (pt k' p)) e' n' Ya' -> F' ∪ Ya' = F ∪ Ya -> same_except (F ∪ own p) (pg_mem pg) (pg_mem pg') ->
  (forall j, j <> p -> same_mem (pt k j) (pt k' j)) -> used (pt k' p) -> p_kstack (pt k' p) = p_kstack (pt k p) ->
  p_tf (pt k' p) = p_tf (pt k p) -> 0 <= p_sz (pt k' p) < KERNBASE -> n' = up_vpn (p_sz (pt k' p)) \/ n' = 0 ->
  has_mem A L pg pg' k' own p e' n'.
Proof.
  intros Hmr [_ (Hko & HkF) Htf _ _] Hu EY HkY Ha HFY Hs Hj Hu' Ek Et Hsz Hn.
  assert (Hap : Ya' ## F') by (by eapply aspace_apart).
  assert (HkF' : p_kstack (pt k p) ∉ F' ∪ Ya') by (rewrite HFY; clear -HkF HkY; set_solver).
  assert (Hslot : slot_ok data pg' F' (pt k' p) ({[p_kstack (pt k' p)]} ∪ Ya') e' n').
  { split; [|rewrite Ek; split; [done|clear -HkF'; set_solver]|by rewrite Et, Htf, Ek|done|done].
    exists Ya'. split; [done|]. split; [done|]. rewrite Ek. clear -HkF'. set_solver. }
  exists F', (updn own p ({[p_kstack (pt k' p)]} ∪ Ya')). rewrite updn_eq. split; [|split; [|done]].
  2: { intros j Hne. split; [by apply updn_ne|]. eapply own_same; [exact Hmr|exact Hs|]. pose proof (mr_apart _ _ _ _ _ _ _ Hmr j p Hne) as H1. pose proof (mr_free _ _ _ _ _ _ _ Hmr j) as H2. 
    clear -H1 H2. set_solver. }
  eapply (mem_change data A L L pg pg'); [done|done|by eapply aspace_rep| | |by eapply slot_apart| |by eauto|done].
  - done.
  - rewrite EY, Ek. clear -HFY HkF'. apply set_eq. intros q. assert (E : q ∈ F' ∪ Ya' <-> q ∈ F ∪ Ya) by (by rewrite HFY). set_solver.
  - destruct (mr_lost _ _ _ _ _ _ _ Hmr) as [HL HLo]. specialize (HLo p). rewrite EY in HLo. rewrite Ek. clear -HL HLo HFY. set_solver.
Qed.

Lemma slot_replace A L pg pg' k k' F F' own p e e' n n' Ya Ya' :
  mem_rep data A L pg (pt k) F own -> slot_ok data pg F (pt k p) (own p) e n -> used (pt k p) ->
  own p = {[p_kstack (pt k p)]} ∪ Ya -> p_kstack (pt k p) ∉ Ya ->
  aspace data pg' F' (p_pgdir (pt k' p)) e' n' Ya' -> F' ∪ Ya' = F ∪ Ya -> same_except (F ∪ Ya) (pg_mem pg) (pg_mem pg') ->
  (forall j, j <> p -> same_mem (pt k j) (pt k' j)) -> used (pt k' p) -> p_kstack (pt k' p) = p_kstack (pt k p) ->
  p_tf (pt k' p) = p_tf (pt k p) -> 0 <= p_sz (pt k' p) < KERNBASE -> n' = up_vpn (p_sz (pt k' p)) \/ n' = 0 ->
  has_mem A L pg pg' k' own p e' n'.
Proof.
  intros Hmr Hsl Hu EY HkY Ha HFY Hs. eapply slot_change; try done. eapply same_except_weaken; [|exact Hs]. rewrite EY. clear. set_solver.
Qed.

Lemma wp_on_seg {B} (m : M segs B) k pg cpu idt kp io (Q : B -> os P S -> Prop) :
  wp m (mk_segs (k_mach k) cpu idt kp) (fun a t => Q a (mk_os (k <| k_mach := g_mach t |>) pg (g_cpu t) (g_idt t) (g_kpgdir t) io)) ->
  wp (on_seg m) (mk_os k pg cpu idt kp io) Q.
Proof. intros H. by apply wp_zoom. Qed.

(** The CPUs' tables, with a row for each CPU. *)
Definition cpus_ok (cpu : list cpuseg) (idt : list gatedesc) : Prop :=
  segs_ok (mk_segs (mk_mach (fun _ => initlock) [] (fun _ => false)) cpu idt 0) /\ length cpu = length ids.

Lemma cpus_uvm cpu idt kst pgdir : cpus_ok cpu idt -> cpus_ok (<[c := uvm_seg cpus c kst pgdir (cpu !!! c)]> cpu) idt.
Proof.
  intros [[O1 O2 O3] Hlen]. pose proof (lookup_lt_Some _ _ _ here) as Hlt. cbn in O1, O2, O3. split; [|by rewrite length_insert]. split; [|done|done]. cbn.
  apply Forall_insert; [done|]. apply uvm_seg_ok. assert (Hcl : (c < length cpu)%nat) by lia. apply lookup_lt_is_Some in Hcl as [x Hx].
  rewrite (list_lookup_total_correct _ _ _ Hx). exact (proj1 (Forall_lookup _ _) O1 _ _ Hx).
Qed.

(** The page table register of the CPUs after a change of this one's. *)
Definition cr3_set (cpu cpu' : list cpuseg) (pgdir : Z) : Prop :=
  forall c', cpu' !!! c' = cpu !!! c' \/ c' = c /\ s_cr3 (cpu' !!! c') = V2P pgdir.

Lemma cr3_same cpu pgdir : cr3_set cpu cpu pgdir.
Proof. by left. Qed.

(** Why [growproc] gives up: nothing to give back, no room below the kernel, or
    not enough pages. *)
Definition grow_short (sz n : Z) F : Prop :=
  sz = 0 \/ KERNBASE <= sz + n \/ Z.of_nat (size F) <= 1024 + (up_vpn (sz + n) - up_vpn sz).

Definition grow_post A L k pg F own (p : nat) e (n r : Z) (s' : os P S) : Prop :=
  let sz := p_sz (pt k p) in let sz' := grow_size sz n in
  r = 0 /\ pt (os_k s') p = (pt k p) <| p_sz := sz' |> /\ s_cr3 (os_cpu s' !!! c) = V2P (p_pgdir (pt k p)) /\
    (exists e', has_mem A L pg (os_pg s') (os_k s') own p e' (up_vpn sz') /\
      kept_bytes pg e (Z.min (up_vpn sz) (up_vpn sz')) (os_pg s') e' /\ new_pages (os_pg s') e' (up_vpn sz) (up_vpn sz')) \/
  r = -1 /\ pt (os_k s') p = pt k p /\
    (has_mem A L pg (os_pg s') (os_k s') own p e (up_vpn sz) /\ kept_bytes pg e (up_vpn sz) (os_pg s') e /\ grow_short sz n F \/
     n < 0 /\ sz + n = 0 /\ exists e', has_mem A L pg (os_pg s') (os_k s') own p e' 0).

(** [curproc->sz = sz; switchuvm(curproc); return 0]. *)
Definition grow_finish (p : nat) (pgdir sz : Z) : M (os P S) Z :=
  on_k (setp p (fun x => x <| p_sz := sz |>));;
  kstack ← on_k (getp p p_kstack);
  on_seg (switchuvm cpus id (Some (kstack, pgdir)));;
  mret 0.

Lemma wp_grow_finish k pg cpu idt kp io p sz (Q : Z -> os P S -> Prop) :
  calm k -> (p < NPROC)%nat -> cpus_ok cpu idt -> p_kstack (pt k p) <> 0 -> p_pgdir (pt k p) <> 0 ->
  (forall k' cpu', calm k' -> k_cproc k' = k_cproc k -> (forall j, pt k' j = updn (pt k) p ((pt k p) <| p_sz := sz |>) j) ->
     cpus_ok cpu' idt -> s_cr3 (cpu' !!! c) = V2P (p_pgdir (pt k p)) -> cr3_set cpu cpu' (p_pgdir (pt k p)) ->
     Q 0 (mk_os k' pg cpu' idt kp io)) ->
  wp (grow_finish p (p_pgdir (pt k p)) sz) (mk_os k pg cpu idt kp io) Q.
Proof.
  intros Hc Hp Hcpu Hk Hd HQ. destruct (Hcpu) as [Hok Hlen]. pose proof (lookup_lt_Some _ _ _ here) as Hlt. unfold grow_finish.
  wp_step. apply wp_setk; [apply Hc|done|]. intros tab Ht Hj. set (k1 := kset k (k_mach k) tab (k_cproc k)).
  assert (E1 : forall j, pt k1 j = updn (pt k) p ((pt k p) <| p_sz := sz |>) j) by exact Hj.
  wp_step. apply wp_getk. rewrite E1, updn_eq. cbn [p_kstack set_field]. wp_step. apply wp_on_seg.
  destruct Hok as [O1 O2 O3]. cbn in O1, O2, O3.
  eapply (wp_switchuvm cpus h (fun _ => O) b c id here); [apply Hc|by split|cbn; lia|done|done|]. intros m' Hm. wp_step.
  apply HQ; [split; [exact Ht|exact Hm]|done|exact E1| | |].
  - by apply cpus_uvm.
  - cbn. rewrite list_lookup_total_insert_eq by lia. done.
  - intros c'. cbn. destruct (decide (c' = c)) as [->|Hne]; [right; by rewrite list_lookup_total_insert_eq by lia|left; by rewrite list_lookup_total_insert_ne].
Qed.

Lemma slot_pages pg F x Y e n : slot_ok data pg F x Y e n -> p_kstack x <> 0 /\ p_pgdir x <> 0.
Proof.
  intros [(Ya & Ha & _ & _) (Hk & _) _ _ _]. destruct (aspace_dir _ _ _ _ _ _ _ Ha) as (_ & Hd).
  pose proof pg_end_ok as Hkb. destruct Hk as (_ & ? & _), Hd as (_ & ? & _). unfold KERNBASE in Hkb. lia.
Qed.

Lemma grow_table k k' p sz j :
  (forall j, pt k' j = updn (pt k) p ((pt k p) <| p_sz := sz |>) j) -> j <> p -> same_mem (pt k j) (pt k' j).
Proof. intros H Hne. rewrite H, updn_ne by done. apply same_mem_refl. Qed.

(** [growproc] once the new size [sz] is known. *)
Lemma wp_grow_ok k pg pg' cpu idt kp io A L F F' own p e e' n Ya Ya' (Q : Z -> os P S -> Prop) :
  calm k -> (p < NPROC)%nat -> used (pt k p) -> cpus_ok cpu idt ->
  mem_rep data A L pg (pt k) F own -> slot_ok data pg F (pt k p) (own p) e (up_vpn (p_sz (pt k p))) ->
  own p = {[p_kstack (pt k p)]} ∪ Ya -> p_kstack (pt k p) ∉ Ya ->
  let sz' := grow_size (p_sz (pt k p)) n in 0 <= sz' < KERNBASE ->
  aspace data pg' F' (p_pgdir (pt k p)) e' (up_vpn sz') Ya' -> F' ∪ Ya' = F ∪ Ya -> same_except (F ∪ Ya) (pg_mem pg) (pg_mem pg') ->
  kept_bytes pg e (Z.min (up_vpn (p_sz (pt k p))) (up_vpn sz')) pg' e' -> new_pages pg' e' (up_vpn (p_sz (pt k p))) (up_vpn sz') ->
  (forall s', grow_post A L k pg F own p e n 0 s' -> calm (os_k s') -> cpus_ok (os_cpu s') (os_idt s') -> k_cproc (os_k s') = k_cproc k ->
     (forall j, j <> p -> pt (os_k s') j = pt k j) -> os_io s' = io -> cr3_set cpu (os_cpu s') (p_pgdir (pt k p)) -> Q 0 s') ->
  wp (grow_finish p (p_pgdir (pt k p)) sz') (mk_os k pg' cpu idt kp io) Q.
Proof.
  intros Hc Hp Hu Hcpu Hmr Hsl EY HkY sz' Hsz Ha HFY Hs Hkept Hnew HQ. destruct (slot_pages _ _ _ _ _ _ Hsl) as [Hk0 Hd0].
  apply wp_grow_finish; try done. intros k' cpu' Hc' Ecp Hj Hcpu' Hcr3 Hcs. assert (Ep : pt k' p = (pt k p) <| p_sz := sz' |>) by (rewrite Hj; apply updn_eq).
  apply HQ; try done; [|intros j Hne; cbn; by rewrite Hj, updn_ne]. left. split; [done|]. split; [exact Ep|]. split; [exact Hcr3|].
  exists e'. split; [|done]. eapply (slot_replace A L pg pg' k k' F F' own p e e'); try done; rewrite ?Ep; try done; [|by left].
  intros j Hne. by eapply grow_table.
Qed.

Lemma wp_growproc k pg cpu idt kp io A L F own p e n (Q : Z -> os P S -> Prop) :
  calm k -> cp k c = Some p -> (p < NPROC)%nat -> used (pt k p) -> cpus_ok cpu idt ->
  mem_rep data A L pg (pt k) F own -> slot_ok data pg F (pt k p) (own p) e (up_vpn (p_sz (pt k p))) -> - 2 ^ 31 <= n < 2 ^ 31 ->
  (forall r s', grow_post A L k pg F own p e n r s' -> calm (os_k s') -> cpus_ok (os_cpu s') (os_idt s') -> k_cproc (os_k s') = k_cproc k ->
     (forall j, j <> p -> pt (os_k s') j = pt k j) -> os_io s' = io -> cr3_set cpu (os_cpu s') (p_pgdir (pt k p)) -> Q r s') ->
  wp (growproc cpus id n) (mk_os k pg cpu idt kp io) Q.
Proof.
  intros Hc Hcp Hp Hu Hcpu Hmr Hsl Hn HQ. unfold growproc. wp_step. apply wp_on_k.
  eapply wp_curproc; [exact here|apply Hc|exact Hcp|]. intros m0 Hm0. set (k0 := k <| k_mach := m0 |>).
  assert (Hc0 : calm k0) by (destruct Hc; by split). wp_step. apply wp_getk. wp_step. apply wp_getk. change (pt k0) with (pt k).
  pose proof Hsl as [(Ya & Ha & EY & HkY) _ _ Hsz _]. set (sz := p_sz (pt k p)) in *. unfold KERNBASE in Hsz.
  assert (Hsame : forall r pg' Ya' F', r = -1 -> grow_short sz n F -> aspace data pg' F' (p_pgdir (pt k p)) e (up_vpn sz) Ya' -> F' ∪ Ya' = F ∪ Ya ->
    same_except (F ∪ Ya) (pg_mem pg) (pg_mem pg') -> kept_bytes pg e (up_vpn sz) pg' e -> Q r (mk_os k0 pg' cpu idt kp io)).
  { intros r pg' Ya' F' -> Hsh Ha' HFY Hs Hkp. apply HQ; try done; [|apply cr3_same]. right. split; [done|]. split; [done|]. left. split; [|done].
    eapply (slot_replace A L pg pg' k k0 F F' own p e e); try done. by left. }
  assert (Hkeep : kept_bytes pg e (up_vpn sz) pg e) by done.
  assert (Hok : forall pg' F' e' Ya', let sz' := grow_size sz n in 0 <= sz' < KERNBASE ->
    aspace data pg' F' (p_pgdir (pt k p)) e' (up_vpn sz') Ya' -> F' ∪ Ya' = F ∪ Ya -> same_except (F ∪ Ya) (pg_mem pg) (pg_mem pg') ->
    kept_bytes pg e (Z.min (up_vpn sz) (up_vpn sz')) pg' e' -> new_pages pg' e' (up_vpn sz) (up_vpn sz') ->
    wp (grow_finish p (p_pgdir (pt k p)) sz') (mk_os k0 pg' cpu idt kp io) Q).
  { intros pg' F' e' Ya' sz' Hsz' Ha' HFY Hs Hkp Hnw. eapply (wp_grow_ok k0 pg pg' cpu idt kp io A L F F' own p e e' n Ya Ya'); try done; auto. }
  unfold grow_size in Hok. wp_step. rewrite Z.gtb_ltb. destruct (Z.ltb_spec 0 n) as [Hpos|Hnp].
  - rewrite (proj2 (Z.ltb_ge n 0)) in Hok by lia. cbn [andb] in Hok. rewrite (u32_small (sz + n)) by lia. wp_step. apply wp_on_pg.
    destruct (decide (sz + n < KERNBASE)) as [Hlt|Hge].
    + apply (wp_space_alloc data pg F _ e sz (sz + n) Ya); [done|lia|done| |].
      * intros pg' F' e' Y' Ha' HFY _ Hkp Hnw Hs. wp_step. rewrite (proj2 (Z.eqb_neq (sz + n) 0)) by lia. cbv iota.
        eapply Hok; try done; [lia|]. rewrite Z.min_l by (apply up_vpn_mono; lia). done.
      * intros pg' F' Y' Hnn Ha' HFY _ Hkp Hs. wp_step. change (0 =? 0) with true. cbv iota. wp_step. eapply Hsame; try done. by right; right.
    + unfold allocuvm. rewrite (proj2 (Z.leb_le _ _)) by lia. wp_step. wp_step. change (0 =? 0) with true. cbv iota. wp_step.
      eapply Hsame; try done. right; left; lia.
  - destruct (Z.ltb_spec n 0) as [Hneg|H0].
    + wp_step. apply wp_on_pg. destruct (Z.ltb_spec (sz + n) 0) as [Hw|Hnw]; cbn [andb] in Hok.
      * assert (Eu : u32 (sz + n) = sz + n + 2 ^ 32) by (unfold u32; rewrite <- (Z.mod_add _ 1), Z.mul_1_l by lia; apply Z.mod_small; lia).
        unfold deallocuvm. rewrite (proj2 (Z.leb_le sz _)) by lia. wp_step. wp_step. destruct (Z.eqb_spec sz 0) as [E0|Hnz]; cbv iota.
        { wp_step. eapply Hsame; try done. by left. }
        eapply Hok; try done; intros x Hx; lia.
      * rewrite (u32_small (sz + n)) by lia. apply (wp_space_dealloc data pg F _ e sz (sz + n) Ya); [done|lia|unfold KERNBASE; lia|].
        intros pg' F' e' Y' Ha' HFY _ Hkp Hs. wp_step. destruct (Z.eqb_spec (sz + n) 0) as [E0|Hnz]; cbv iota.
        { wp_step. apply HQ; try done; [|apply cr3_same]. right. split; [done|]. split; [done|]. right. split; [done|]. split; [done|]. exists e'.
          rewrite E0 in Ha'. eapply (slot_replace A L pg pg' k k0 F F' own p e e'); try done. by right. }
        eapply Hok; try done; [unfold KERNBASE; lia| |].
        { rewrite Z.min_r by (apply up_vpn_mono; lia). done. }
        intros x Hx. pose proof (up_vpn_mono (sz + n) sz ltac:(lia)). lia.
    + wp_step. assert (n = 0) as -> by lia. rewrite Z.add_0_r in Hok. cbn [andb] in Hok.
      eapply Hok; try done; intros x Hx; lia.
Qed.

(** ** [wait] *)

(** Reaping gives back the stack, the page table and every page of the zombie. *)
Lemma wp_wait_reap k pg cpu idt kp io A L F own z (Q : Z -> os P S -> Prop) :
  length (k_ptab k) = NPROC -> (z < NPROC)%nat -> used (pt k z) -> mem_rep data A L pg (pt k) F own ->
  (forall tab pg', length tab = NPROC -> (forall j, tab !!! j = updn (pt k) z (reaped (pt k z)) j) ->
     mem_rep data A L pg' (fun j => tab !!! j) (F ∪ own z) (updn own z ∅) -> same_except (F ∪ own z) (pg_mem pg) (pg_mem pg') ->
     Q (p_pid (pt k z)) (mk_os (kset k (k_mach k) tab (k_cproc k)) pg' cpu idt kp io)) ->
  wp (wait_reap z) (mk_os k pg cpu idt kp io) Q.
Proof.
  intros Hl Hz Hu Hmr HQ. destruct (mr_slot _ _ _ _ _ _ _ Hmr z Hu) as (e & n & Hsl).
  pose proof (slot_apart _ _ _ _ _ _ _ Hsl) as Hap. destruct Hsl as [(Ya & Ha & EY & HkY) (Hko & HkF) _ _ _].
  unfold wait_reap. wp_step. apply wp_getk. wp_step. apply wp_getk. wp_step. apply wp_on_pg.
  eapply pg_kfree_spec; [apply Hmr|done|done|]. intros pg1 Hp1 Hm1.
  assert (Hs1 : same_except {[p_kstack (pt k z)]} (pg_mem pg) (pg_mem pg1)).
  { intros q a Hq Hqn Hqa. apply Hm1. eapply (pages_apart q); try done; [apply Hko|clear -Hqn; set_solver]. }
  wp_step. apply wp_on_k, wp_setp. wp_step. apply wp_getk. wp_step. apply wp_on_pg.
  replace (p_pgdir _) with (p_pgdir (pt k z)) by (unfold pt; cbn; by rewrite list_lookup_total_insert_eq by lia).
  eapply (wp_space_free data pg1 ({[p_kstack (pt k z)]} ∪ F) _ e n Ya).
  { eapply aspace_other; [exact Ha|done|exact Hs1|]. clear -Hap EY HkY. set_solver. }
  intros pg2 Hp2 Hs2. do 5 (wp_step; apply wp_on_k, wp_setp). wp_step. unfold pt at -1. cbn [k_ptab set_field].
  rewrite !list_lookup_total_insert_eq, !list_insert_insert_eq by (rewrite ?length_insert; lia).
  destruct (set_slot k z (reaped (pt k z)) Hl Hz) as [Ht6 Hj].
  assert (HF : {[p_kstack (pt k z)]} ∪ F ∪ Ya = F ∪ own z) by (rewrite EY; clear; set_solver). rewrite HF in Hp2, Hs2.
  assert (Hs : same_except (F ∪ own z) (pg_mem pg) (pg_mem pg2)).
  { eapply same_except_weaken; [|eapply same_except_trans; [exact Hs1|exact Hs2]]. rewrite EY. clear. set_solver. }
  refine (HQ _ pg2 Ht6 Hj _ Hs). destruct (mr_lost _ _ _ _ _ _ _ Hmr) as [HL HLo].
  eapply (mem_change data A L L pg pg2 (pt k)); [done| |done|done|set_solver +|set_solver +| | |done].
  - intros j Hne. rewrite Hj, updn_ne by done. apply same_mem_refl.
  - specialize (HLo z). clear -HL HLo. set_solver.
  - rewrite Hj, updn_eq. intros Hx. by destruct Hx.
Qed.

(** The outcomes of [wait]: a zombie child is reaped and its pages are free; a
    process without children, or one that is killed, gets -1; otherwise it goes
    to sleep, with [ptable.lock] held for the scheduler. *)
Section wait.
Variables (k : kern) (pg : P) (cpu : list cpuseg) (idt : list gatedesc) (kp : Z) (io : osfs S).
Variables (A L F : gset Z) (own : nat -> gset Z) (p : nat) (Q : option Z -> os P S -> Prop).
Hypothesis Hlen : length (k_ptab k) = NPROC.
Hypothesis Hcp : cp k c = Some p.
Hypothesis Hp : (p < NPROC)%nat.
Hypothesis Hh : h c = [].
Hypothesis Hmr : mem_rep data A L pg (pt k) F own.
Hypothesis HQz : forall z k' pg', calm k' -> k_cproc k' = k_cproc k -> (z < NPROC)%nat -> p_parent (pt k z) = Some p -> p_state (pt k z) = ZOMBIE ->
  (forall j, pt k' j = updn (pt k) z (reaped (pt k z)) j) -> mem_rep data A L pg' (pt k') (F ∪ own z) (updn own z ∅) ->
  same_except (F ∪ own z) (pg_mem pg) (pg_mem pg') -> Q (Some (p_pid (pt k z))) (mk_os k' pg' cpu idt kp io).
Hypothesis HQn : forall k', calm k' -> k_cproc k' = k_cproc k -> k_ptab k' = k_ptab k ->
  (forall z, p_parent (pt k z) = Some p -> p_state (pt k z) <> ZOMBIE) ->
  ((forall z, p_parent (pt k z) <> Some p) \/ p_killed (pt k p) = true) -> Q (Some (-1)) (mk_os k' pg cpu idt kp io).
Hypothesis HQs : forall k', length (k_ptab k') = NPROC -> (forall z, p_parent (pt k z) = Some p -> p_state (pt k z) <> ZOMBIE) ->
  k_cproc k' = k_cproc k -> (forall j, pt k' j = updn (pt k) p (slept (pt k p) (CProc p) (b c) PTLOCK) j) ->
  mach_rep ids (k_mach k') (updn h c [PTLOCK]) no_depth b -> Q None (mk_os k' pg cpu idt kp io).

Lemma wp_wait_turn : mach_rep ids (k_mach k) (updn h c (PTLOCK :: h c)) no_depth b -> wp (wait_turn id) (mk_os k pg cpu idt kp io) Q.
Proof.
  intros H1. unfold wait_turn. wp_step. apply wp_on_k.
  eapply wp_curproc; [exact here|exact H1|exact Hcp|]. intros m2 H2. wp_step. apply wp_on_k. unfold wait_zombie. wp_step. wp_step. wp_step.
  set (k2 := k <| k_mach := m2 |>). change (k_ptab k2) with (k_ptab k). pose proof (not_held c id here h free) as Hnh.
  assert (Hlp : (p < length (k_ptab k))%nat) by (rewrite Hlen; lia).
  destruct (find_idx _ (k_ptab k)) as [z|] eqn:Ez.
  - pose proof (find_idx_lt _ _ _ Ez) as Hz. rewrite Hlen in Hz. apply find_idx_Some in Ez as [(x & Hx & Hfx) _].
    apply andb_true_iff in Hfx as [Hx1 Hx2]. apply bool_decide_eq_true in Hx1, Hx2.
    assert (Ex : pt k z = x) by (by apply list_lookup_total_correct). rewrite <- Ex in Hx1, Hx2.
    wp_step. apply (wp_wait_reap k2 pg cpu idt kp io A L F own z); [exact Hlen|done|change (used (pt k z)); unfold used; by rewrite Hx2|done|].
    intros tab pg' Ht Hj Hmr' Hs. wp_step. apply wp_on_k. eapply (wp_unlock c id here _ h b); [exact H2|done|]. intros m3 H3. wp_step.
    eapply (HQz z); try done.
  - assert (Hno : forall z, p_parent (pt k z) = Some p -> p_state (pt k z) <> ZOMBIE).
    { intros z Hpar Hzom. assert (Hz : (z < length (k_ptab k))%nat).
      { destruct (decide (z < length (k_ptab k))%nat); [done|]. unfold pt in Hzom. by rewrite tab_out in Hzom by lia. }
      destruct (lookup_lt_is_Some_2 _ _ Hz) as [x Hx]. assert (Ex : pt k z = x) by (by apply list_lookup_total_correct).
      pose proof (proj1 (find_idx_None _ _) Ez z x Hx) as Hf. cbv beta in Hf. rewrite <- Ex in Hf. by rewrite !bool_decide_eq_true_2 in Hf by done. }
    wp_step. apply wp_on_k. unfold wait_havekids. wp_step. wp_step. wp_step. change (k_ptab k2) with (k_ptab k). wp_step. apply wp_getk. change (pt k2 p) with (pt k p).
    destruct (existsb _ (k_ptab k)) eqn:Ek; cbn [negb orb]; [destruct (p_killed (pt k p)) eqn:Ekl|].
    + wp_step. apply wp_on_k. eapply (wp_unlock c id here _ h b); [exact H2|done|]. intros m3 H3. wp_step. apply HQn; try done; by right.
    + wp_step. apply wp_on_k. unfold sleep, sleep_lock, sleep_unlock. rewrite (proj2 (Z.eqb_eq PTLOCK PTLOCK) eq_refl). change (PTLOCK =? 0) with false.
      cbn [negb when]. wp_step. wp_step. eapply wp_myproc; [exact here|exact H2|exact Hcp|]. intros m3 H3. cbv iota. wp_step. wp_step. wp_step.
      unfold sleep_sched. wp_step. eapply wp_curproc; [exact here|exact H3|exact Hcp|]. intros m4 H4.
      wp_step. apply wp_setp. wp_step. apply wp_setp. 
      eapply wp_sched; [exact here|exact H4|by rewrite updn_eq, Hh|exact Hcp| |].
      { unfold pt. cbn. rewrite list_lookup_total_insert_eq; [done|]. rewrite length_insert. exact Hlp. }
      intros m5 H5. wp_step. apply HQs; try done.
      * cbn. by rewrite !length_insert, Hlen.
      * intros j. unfold pt. cbn [k_ptab set_field]. rewrite !list_lookup_total_insert_eq, !list_insert_insert_eq by (rewrite ?length_insert; exact Hlp).
        rewrite pt_insert by exact Hlp. done.
      * cbn. rewrite <- Hh. exact H5.
    + wp_step. apply wp_on_k. eapply (wp_unlock c id here _ h b); [exact H2|done|]. intros m3 H3. wp_step. apply HQn; try done.
      left. intros z Hz. assert (Hlt : (z < length (k_ptab k))%nat).
      { destruct (decide (z < length (k_ptab k))%nat); [done|]. unfold pt in Hz. by rewrite tab_out in Hz by lia. }
      destruct (lookup_lt_is_Some_2 _ _ Hlt) as [x Hx]. assert (Ex : pt k z = x) by (by apply list_lookup_total_correct).
      assert (Hin : existsb (fun x => bool_decide (p_parent x = Some p)) (k_ptab k) = true); [|congruence].
      apply existsb_exists. exists x. split; [by apply list_elem_of_In; eapply list_elem_of_lookup_2|]. apply bool_decide_eq_true. congruence.
Qed.
End wait.

Lemma wp_wait k pg cpu idt kp io A L F own p (Q : option Z -> os P S -> Prop) :
  calm k -> cp k c = Some p -> (p < NPROC)%nat -> h c = [] -> mem_rep data A L pg (pt k) F own ->
  (forall z k' pg', calm k' -> k_cproc k' = k_cproc k -> (z < NPROC)%nat -> p_parent (pt k z) = Some p -> p_state (pt k z) = ZOMBIE ->
     (forall j, pt k' j = updn (pt k) z (reaped (pt k z)) j) -> mem_rep data A L pg' (pt k') (F ∪ own z) (updn own z ∅) ->
     same_except (F ∪ own z) (pg_mem pg) (pg_mem pg') -> Q (Some (p_pid (pt k z))) (mk_os k' pg' cpu idt kp io)) ->
  (forall k', calm k' -> k_cproc k' = k_cproc k -> k_ptab k' = k_ptab k ->
     (forall z, p_parent (pt k z) = Some p -> p_state (pt k z) <> ZOMBIE) ->
     ((forall z, p_parent (pt k z) <> Some p) \/ p_killed (pt k p) = true) -> Q (Some (-1)) (mk_os k' pg cpu idt kp io)) ->
  (forall k', length (k_ptab k') = NPROC -> (forall z, p_parent (pt k z) = Some p -> p_state (pt k z) <> ZOMBIE) ->
     k_cproc k' = k_cproc k -> (forall j, pt k' j = updn (pt k) p (slept (pt k p) (CProc p) (b c) PTLOCK) j) ->
     mach_rep ids (k_mach k') (updn h c [PTLOCK]) no_depth b -> Q None (mk_os k' pg cpu idt kp io)) ->
  wp (wait id) (mk_os k pg cpu idt kp io) Q.
Proof.
  intros Hc Hcp Hp Hh Hmr HQz HQn HQs. unfold wait. wp_step. apply wp_on_k.
  eapply wp_kacquire; [exact here|apply Hc|done|]. intros m1 H1. set (k1 := k <| k_mach := m1 |>).
  apply (wp_wait_turn k1 pg cpu idt kp io A L F own p); [apply Hc|done|done|done|done|exact HQz|exact HQn|exact HQs|exact H1].
Qed.
End life.
