(* ===== verification/ExecCommit.v ===== *)
(** The end of [exec]: the process gets the new address space, its trap frame
    the entry point and the stack pointer, and the old pages are given back. *)

From S2P Require Import Prelude CString Layout Sleeplock BlockLayer Fs File Pipe TxnLayer SysFile.
From S2P Require Import Spinlock LockRep Kalloc Vm VmRep VmUser VmCopy VmOut VmSpace.
From S2P Require Import Proc ProcOps ProcEff Seg ProcMem Exec ExecMem ProcSpace ProcFork ProcLife.

(** A word in a page. *)
Lemma store_word m r i v : 0 <= r -> r + 4096 <= 2 ^ 32 -> r mod PGSIZE = 0 -> 0 <= i -> i + 4 <= 4096 -> same_except {[r]} m (store32 m (r + i) v).
Proof.
  intros H0 H1 Hr Hi Hj q a Hq Hqr Ha. apply store32_other; [lia|lia|]. destruct (decide (r + i <= a < r + i + 4)) as [Hin|]; [|lia]. exfalso.
  apply (pages_apart q r a); [done|done|clear -Hqr; set_solver|done|]. unfold in_page, PGSIZE. lia.
Qed.

Section commit.
Context {P S : Type} `{!PageOps P} `{!PageLayer P} `{!BlockOps S} `{!DevOps S} `{!TxnOps S}.
Variables data cpus : Z.
Hypothesis Hdata : data_ok data.
Context {ids : list Z}.
Variables (c : nat) (id : Z).
Hypothesis here : ids !! c = Some id.
Variables (h : nat -> list Z) (b : nat -> bool).
Implicit Types (s : os P S) (pg : P) (F Y L A : gset Z) (k : kern).
Notation calm := (calm (ids := ids) h b).

(** What [exec] makes of a process. *)
Definition exec_proc (path : list Z) (pgdir sz : Z) (x : proc) : proc :=
  x <| p_name := copy_name (p_name x) (last_elem path path) |> <| p_pgdir := pgdir |> <| p_sz := sz |>.

(** The new trap frame; the rest of memory is not changed. *)
Definition frame_put (tf entry sp : Z) (m : mem) : mem := store32 (store32 m (tf + TF_eip) entry) (tf + TF_esp) sp.

Definition frame_same (m : mem) (tf : Z) (m' : mem) (tf' : Z) : Prop :=
  forall i, 0 <= i < TF_SIZE -> ~ TF_eip <= i < TF_eip + 4 -> ~ TF_esp <= i < TF_esp + 4 -> m' (tf' + i) = m (tf + i).

Lemma frame_put_spec m r entry sp : 0 <= r -> r + 4096 <= 2 ^ 32 -> r mod PGSIZE = 0 -> mem_bytes m -> 0 <= entry < 2 ^ 32 -> 0 <= sp < 2 ^ 32 ->
  let m' := frame_put (r + 4020) entry sp m in
  same_except {[r]} m m' /\ mem_bytes m' /\ load32 m' (r + 4020 + TF_eip) = entry /\ load32 m' (r + 4020 + TF_esp) = sp /\
  frame_same m (r + 4020) m' (r + 4020).
Proof.
  intros H0 H1 Hr Hb He Hs. unfold frame_put, frame_same, TF_eip, TF_esp, TF_SIZE. split; [|split; [|split; [|split]]].
  - rewrite <- !Z.add_assoc. eapply same_except_weaken; [|eapply same_except_trans; [apply (store_word m r (4020 + 56) entry); lia || done|apply (store_word _ r (4020 + 68) sp); lia || done]].
    clear. set_solver.
  - by apply store32_bytes, store32_bytes.
  - rewrite load32_store32_other by lia. by apply load32_store32; lia.
  - by apply load32_store32; lia.
  - intros i Hi H2 H3. by rewrite !store32_other by lia.
Qed.

(** What holds after [exec] has replaced the memory of process [p]. *)
Record exec_done A L k pg own (p : nat) (path : list Z) (pgdir N entry sp : Z) (e img : Z -> Z) s' : Prop := {
  ed_proc : pt (os_k s') p = exec_proc path pgdir (4096 * (N + 2)) (pt k p);
  ed_cr3 : s_cr3 (os_cpu s' !!! c) = V2P pgdir;
  ed_mem : has_mem data A L pg (os_pg s') (os_k s') own p e (N + 2);
  ed_image : shows (os_pg s') e (N + 2) img;
  ed_rights : forall x, 0 <= x < N + 2 -> user_page e x = negb (x =? N) /\ Z.land (e x) PTE_W <> 0;
  ed_entry : load32 (pg_mem (os_pg s')) (p_tf (pt k p) + TF_eip) = entry;
  ed_sp : load32 (pg_mem (os_pg s')) (p_tf (pt k p) + TF_esp) = sp;
  ed_frame : frame_same (pg_mem pg) (p_tf (pt k p)) (pg_mem (os_pg s')) (p_tf (pt k p))
}.

(** The image is not in the pages that change. *)
Lemma shows_same pg pg' F pgdir e n Y img X : aspace data pg F pgdir e n Y -> shows pg e n img -> same_except X (pg_mem pg) (pg_mem pg') -> Y ## X -> shows pg' e n img.
Proof.
  intros Ha Hs Hm HX va Hva. rewrite <- (Hs va Hva). eapply (same_bytes data); [exact Ha|exact Hm|done|].
  pose proof (aspace_frame _ _ _ _ _ _ _ _ Ha (vpn_of va n Hva)). clear -HX H. set_solver.
Qed.

(** The old address space goes, with the new one beside it. *)
Lemma wp_swap pg0 pg pg1 F Fr old pgdir e0 e n0 n Ya Yn kst img (Q : () -> P -> Prop) :
  aspace data pg0 F old e0 n0 Ya -> kst ∉ Ya ∪ F -> aspace data pg Fr pgdir e n Yn -> Fr ∪ Yn = F -> same_except F (pg_mem pg0) (pg_mem pg) ->
  pg_rep pg1 Fr -> same_except {[kst]} (pg_mem pg) (pg_mem pg1) -> shows pg e n img ->
  (forall pg2, aspace data pg2 (Fr ∪ Ya) pgdir e n Yn -> shows pg2 e n img -> same_except (F ∪ ({[kst]} ∪ Ya)) (pg_mem pg0) (pg_mem pg2) ->
     same_except (Fr ∪ Ya) (pg_mem pg1) (pg_mem pg2) -> Q () pg2) -> wp (freevm old) pg1 Q.
Proof.
  intros Ha Hk Hn HF Hs0 Hp1 Hs1 Hsh HQ. pose proof (aspace_apart _ _ _ _ _ _ _ Ha) as Hap. pose proof (aspace_apart _ _ _ _ _ _ _ Hn) as Hnp.
  assert (Hs01 : same_except (F ∪ {[kst]}) (pg_mem pg0) (pg_mem pg1)) by (eapply same_except_trans; [exact Hs0|exact Hs1]).
  assert (Ha1 : aspace data pg1 Fr old e0 n0 Ya) by (eapply aspace_other; [exact Ha|done|exact Hs01|clear -Hap Hk HF; set_solver]).
  assert (Hn1 : aspace data pg1 Fr pgdir e n Yn) by (eapply aspace_other; [exact Hn|done|exact Hs1|clear -Hk HF Hnp; set_solver]).
  apply (wp_space_free data pg1 Fr old e0 n0 Ya); [done|]. intros pg2 Hp2 Hs2. apply HQ; [| | |done].
  - eapply aspace_other; [exact Hn1|done|exact Hs2|clear -Hap HF Hnp; set_solver].
  - eapply shows_same; [exact Hn1| |exact Hs2|clear -Hap HF Hnp; set_solver]. eapply shows_same; [exact Hn|done|exact Hs1|clear -Hk HF; set_solver].
  - eapply same_except_weaken; [|eapply same_except_trans; [exact Hs01|exact Hs2]]. clear -HF. set_solver.
Qed.

(** The writes to the trap frame. *)
Lemma wp_put_frame pg Fr r entry sp (m : M (os P S) Z) k cpu idt kp io (Q : Z -> os P S -> Prop) :
  pg_rep pg Fr -> page_ok pg_end r -> r ∉ Fr -> 0 <= entry < 2 ^ 32 -> 0 <= sp < 2 ^ 32 ->
  (forall pg1, pg_rep pg1 Fr -> same_except {[r]} (pg_mem pg) (pg_mem pg1) -> load32 (pg_mem pg1) (r + 4020 + TF_eip) = entry ->
     load32 (pg_mem pg1) (r + 4020 + TF_esp) = sp -> frame_same (pg_mem pg) (r + 4020) (pg_mem pg1) (r + 4020) -> wp m (mk_os k pg1 cpu idt kp io) Q) ->
  wp (on_pg (wr (r + 4020 + TF_eip) entry);; on_pg (wr (r + 4020 + TF_esp) sp);; m) (mk_os k pg cpu idt kp io) Q.
Proof.
  intros Hp Hr Hn He Hs HQ. destruct (page_bounds pg_end pg_end_ok r Hr) as (B0 & B1 & B2). pose proof (pg_bytes _ _ Hp) as Hb.
  destruct (frame_put_spec (pg_mem pg) r entry sp B0 B1 B2 Hb He Hs) as (H1 & H2 & H3 & H4 & H5).
  wp_step. apply wp_on_pg. unfold wr. wp_step. wp_step. apply wp_on_pg. wp_step. rewrite pg_mem_set.
  set (pg1 := pg_setmem _ (pg_setmem _ pg)). assert (Em : pg_mem pg1 = frame_put (r + 4020) entry sp (pg_mem pg)) by (unfold pg1; by rewrite pg_mem_set).
  apply (HQ pg1); rewrite ?Em; try done. unfold pg1. assert (Hw : same_except {[r]} (pg_mem pg) (store32 (pg_mem pg) (r + 4020 + TF_eip) entry)).
  { unfold TF_eip. rewrite <- Z.add_assoc. apply store_word; lia || done. }
  eapply (pg_rep_set _ Fr {[r]}); [eapply (pg_rep_set _ Fr {[r]}); [done|by apply store32_bytes|exact Hw|clear -Hn; set_solver]|done| |clear -Hn; set_solver].
  rewrite pg_mem_set. unfold TF_esp. rewrite <- (Z.add_assoc r 4020 68). apply store_word; lia || done.
Qed.

(** From [switchuvm] to the end. *)
Definition commit_end (p : nat) (old pgdir : Z) : M (os P S) Z :=
  kstack ← on_k (getp p p_kstack);
  on_seg (switchuvm cpus id (Some (kstack, pgdir)));;
  on_pg (freevm old);;
  mret 0.

Lemma wp_commit_end k pg cpu idt kp io p old pgdir (Q : Z -> os P S -> Prop) :
  calm k -> cpus_ok (ids := ids) cpu idt -> p_kstack (pt k p) <> 0 -> pgdir <> 0 ->
  (forall k' cpu', calm k' -> k_cproc k' = k_cproc k -> (forall j, pt k' j = pt k j) -> cpus_ok (ids := ids) cpu' idt ->
     s_cr3 (cpu' !!! c) = V2P pgdir -> cr3_set c cpu cpu' pgdir -> wp (freevm old) pg (fun _ pg' => Q 0 (mk_os k' pg' cpu' idt kp io))) ->
  wp (commit_end p old pgdir) (mk_os k pg cpu idt kp io) Q.
Proof.
  intros Hc Hcpu Hk Hd HQ. destruct (Hcpu) as [Hok Hlen]. pose proof (lookup_lt_Some _ _ _ here) as Hlt. unfold commit_end.
  wp_step. apply wp_getk. wp_step. apply wp_on_seg. destruct Hok as [O1 O2 O3]. cbn in O1, O2, O3.
  eapply (wp_switchuvm cpus h (fun _ => O) b c id here); [apply Hc|by split|cbn; lia|done|done|]. intros m' Hm. wp_step. apply wp_on_pg.
  eapply wp_conseq; [eapply (HQ (k <| k_mach := m' |>) (<[c := uvm_seg cpus c (p_kstack (pt k p)) pgdir (cpu !!! c)]> cpu)); [split; [apply Hc|exact Hm]|done|done| | |]|].
  - apply (cpus_uvm cpus c id here cpu idt (p_kstack (pt k p)) pgdir Hcpu).
  - cbn. rewrite list_lookup_total_insert_eq by lia. done.
  - intros c'. cbn. destruct (decide (c' = c)) as [->|Hne]; [right; by rewrite list_lookup_total_insert_eq by lia|left; by rewrite list_lookup_total_insert_ne].
  - intros [] pg' HQ'. cbv beta. by wp_step.
Qed.

Lemma wp_exec_commit k pg0 pg cpu idt kp io A L F own p e0 n0 path pgdir e N img entry sp (Q : Z -> os P S -> Prop) :
  calm k -> (p < NPROC)%nat -> used (pt k p) -> cpus_ok (ids := ids) cpu idt -> mem_rep data A L pg0 (pt k) F own ->
  slot_ok data pg0 F (pt k p) (own p) e0 n0 -> finished data pg0 F pg pgdir e N img -> 0 <= N -> 4096 * (N + 2) < KERNBASE ->
  0 <= entry < 2 ^ 32 -> 0 <= sp < 2 ^ 32 ->
  (forall s', exec_done A L k pg0 own p path pgdir N entry sp e img s' -> calm (os_k s') -> cpus_ok (ids := ids) (os_cpu s') (os_idt s') ->
     k_cproc (os_k s') = k_cproc k -> (forall j, j <> p -> pt (os_k s') j = pt k j) -> os_io s' = io -> cr3_set c cpu (os_cpu s') pgdir -> Q 0 s') ->
  wp (exec_commit cpus id p path pgdir (4096 * (N + 2)) entry sp) (mk_os k pg cpu idt kp io) Q.
Proof.
  intros Hc Hp Hu Hcpu Hmr Hsl [(Fr & Yn & Hn & HF) Hsh Hri Hsm] HN Hk He Hs HQ. unfold exec_commit.
  pose proof (slot_pages _ _ _ _ _ _ _ Hsl) as [Hk0 _]. pose proof Hsl as [(Ya & Ha & EY & HkY) (Hko & HkF) Htf Hsz _].
  set (x := pt k p) in *. set (y := exec_proc path pgdir (4096 * (N + 2)) x).
  wp_step. apply wp_setk; [apply Hc|done|]. intros t1 Ht1 Hj1. set (k1 := kset k (k_mach k) t1 (k_cproc k)).
  wp_step. apply wp_getk. wp_step. apply wp_setk; [exact Ht1|done|]. intros t2 Ht2 Hj2. set (k2 := kset k1 (k_mach k1) t2 (k_cproc k1)).
  wp_step. apply wp_setk; [exact Ht2|done|]. intros t3 Ht3 Hj3. set (k3 := kset k2 (k_mach k2) t3 (k_cproc k2)).
  assert (E1 : forall j, pt k1 j = updn (pt k) p (x <| p_name := copy_name (p_name x) (last_elem path path) |>) j) by exact Hj1.
  assert (E2 : forall j, pt k2 j = updn (pt k) p (x <| p_name := copy_name (p_name x) (last_elem path path) |> <| p_pgdir := pgdir |>) j).
  { intros j. change (pt k2 j) with (t2 !!! j). rewrite Hj2. unfold updn. case_decide; [by rewrite E1, updn_eq|by rewrite E1, updn_ne]. }
  assert (E3 : forall j, pt k3 j = updn (pt k) p y j).
  { intros j. change (pt k3 j) with (t3 !!! j). rewrite Hj3. unfold updn. case_decide; [by rewrite E2, updn_eq|by rewrite E2, updn_ne]. }
  wp_step. apply wp_getk. rewrite (E1 p), (E3 p), !updn_eq. change (p_tf y) with (p_tf x). rewrite Htf. unfold KSTACKSIZE, TF_SIZE.
  replace (p_kstack x + 4096 - 76) with (p_kstack x + 4020) by lia. change (p_pgdir (x <| p_name := _ |>)) with (p_pgdir x).
  destruct (aspace_dir _ _ _ _ _ _ _ Hn) as (HpY & Hpo).
  apply (wp_put_frame pg Fr (p_kstack x) entry sp); [by eapply aspace_rep|done|clear -HkF HF; set_solver|done|done|]. intros pg1 Hp1 Hs1 Le Ls Lf.
  assert (Hc3 : calm k3) by (split; [exact Ht3|apply Hc]). fold (commit_end p (p_pgdir x) pgdir).
  assert (Hpk : p_kstack (pt k3 p) = p_kstack x) by (rewrite E3, updn_eq; done).
  apply wp_commit_end; [done|done|by rewrite Hpk|destruct Hpo as (_ & ? & _); pose proof pg_end_ok; unfold KERNBASE in *; lia|].
  intros k' cpu' Hc' Ecp Ek Hcpu' Hcr Hcs.
  apply (wp_swap pg0 pg pg1 F Fr (p_pgdir x) pgdir e0 e n0 (N + 2) Ya Yn (p_kstack x) img); try done; [clear -HkY HkF; set_solver|].
  intros pg2 Hn2 Hsh2 Hs2 Hs12. assert (Ep : pt k' p = y) by (by rewrite Ek, E3, updn_eq).
  assert (Hw : forall i, 0 <= i -> i + 4 <= 4096 -> load32 (pg_mem pg2) (p_kstack x + i) = load32 (pg_mem pg1) (p_kstack x + i)).
  { intros i Hi Hi4. destruct (page_bounds pg_end pg_end_ok _ Hko) as (B0 & B1 & B2). apply load32_ext; [lia|lia|]. intros j Hj. apply (Hs12 (p_kstack x)); [done|clear -HkY HkF HF; set_solver|unfold in_page, PGSIZE; lia]. }
  assert (Hkb : forall i, 0 <= i < 4096 -> pg_mem pg2 (p_kstack x + i) = pg_mem pg1 (p_kstack x + i) /\ pg_mem pg (p_kstack x + i) = pg_mem pg0 (p_kstack x + i)).
  { intros i Hi. split; [apply (Hs12 (p_kstack x))|apply (Hsm (p_kstack x))]; try apply Hko; try (unfold in_page, PGSIZE; lia); clear -HkY HkF HF; set_solver. }
  apply HQ; try done; [|by intros j Hne; cbn; rewrite Ek, E3, updn_ne]. split; cbn [os_k os_pg os_cpu]; try done.
  - eapply (slot_change data A L pg0 pg2 k k' F (Fr ∪ Ya) own p e0 e n0 (N + 2) Ya Yn); try done; rewrite ?Ep; try done.
    + clear -HF. set_solver.
    + rewrite EY. done.
    + intros j Hne. rewrite Ek, E3, updn_ne by done. apply same_mem_refl.
    + change (p_sz y) with (4096 * (N + 2)). lia.
    + left. change (p_sz y) with (4096 * (N + 2)). unfold up_vpn. apply (Z.div_unique_pos _ _ _ 4095); lia.
  - fold x. rewrite Htf. unfold TF_eip, KSTACKSIZE, TF_SIZE in *. replace (p_kstack x + 4096 - 76 + 56) with (p_kstack x + 4076) by lia. rewrite Hw by lia.
    by replace (p_kstack x + 4076) with (p_kstack x + 4020 + 56) by lia.
  - fold x. rewrite Htf. unfold TF_esp, KSTACKSIZE, TF_SIZE in *. replace (p_kstack x + 4096 - 76 + 68) with (p_kstack x + 4088) by lia. rewrite Hw by lia.
    by replace (p_kstack x + 4088) with (p_kstack x + 4020 + 68) by lia.
  - fold x. rewrite Htf. unfold KSTACKSIZE, TF_SIZE in *. intros i Hi H1 H2. specialize (Lf i Hi H1 H2). unfold TF_SIZE in Hi.
    replace (p_kstack x + 4096 - 76 + i) with (p_kstack x + (4020 + i)) by lia. rewrite <- Z.add_assoc in Lf. destruct (Hkb (4020 + i)) as [-> <-]; [lia|done].
Qed.
End commit.
