(* ===== verification/ProcSteps.v ===== *)
(** The life of processes: sequences of [fork], [exec], [exit], [wait], [growproc],
    file descriptor operations, stores by user code, and the scheduler.

    [os_inv A L s] ties the components together: memory is divided among the
    processes ([mem_rep]), descriptors are counted, slots without a live
    process have no open file.  [os_step] runs one call of one CPU to its end,
    or one store of user code through the page table the processor walks. *)

From S2P Require Import Prelude CString Layout Sleeplock BlockLayer Fs File Pipe TxnLayer SysFile.
From S2P Require Import Spinlock LockRep Kalloc Vm VmRep VmUser VmCopy VmOut VmSpace.
From S2P Require Import Proc ProcOps ProcEff Seg ProcMem Exec ExecMem ProcSpace ProcFork ProcLife.

(** Partial correctness: what holds if the routine returns. *)
Definition wlp {S A} (m : M S A) (s : S) (Q : A -> S -> Prop) : Prop :=
  match m s with Ok a s' => Q a s' | _ => True end.

Section wlp.
Context {S T A B : Type}.

Lemma wlp_ok (m : M S A) s Q a s' : wlp m s Q -> m s = Ok a s' -> Q a s'.
Proof. unfold wlp. intros H E. by rewrite E in H. Qed.
Lemma wp_wlp (m : M S A) s Q : wp m s Q -> wlp m s Q.
Proof. unfold wp, wlp. by destruct (m s). Qed.
Lemma safe_wlp (m : M S A) s Q : safe m s Q -> wlp m s Q.
Proof. unfold safe, wlp. by destruct (m s). Qed.
Lemma wlp_bind (m : M S A) (k : A -> M S B) s Q : wlp m s (fun a s' => wlp (k a) s' Q) -> wlp (m ≫= k) s Q.
Proof. unfold wlp, mbind, M_bind. by destruct (m s). Qed.
Lemma wlp_unbind (m : M S A) (k : A -> M S B) s Q : wlp (m ≫= k) s Q -> wlp m s (fun a s' => wlp (k a) s' Q).
Proof. unfold wlp, mbind, M_bind. by destruct (m s). Qed.
Lemma wlp_intro (m : M S A) s (Q : A -> S -> Prop) : (forall a s', m s = Ok a s' -> Q a s') -> wlp m s Q.
Proof. unfold wlp. destruct (m s); naive_solver. Qed.
Lemma wlp_conseq (m : M S A) s (Q Q' : A -> S -> Prop) : wlp m s Q -> (forall a s', Q a s' -> Q' a s') -> wlp m s Q'.
Proof. unfold wlp. destruct (m s); naive_solver. Qed.
Lemma wlp_zoom (get : S -> T) put (m : M T A) s (Q : A -> S -> Prop) : wlp m (get s) (fun a t => Q a (put t s)) -> wlp (zoom get put m) s Q.
Proof. unfold wlp, zoom. by destruct (m (get s)). Qed.
Lemma wlp_true (m : M S A) s : wlp m s (fun _ _ => True).
Proof. unfold wlp. by destruct (m s). Qed.
End wlp.

(** ** The processor's page walk *)

(** The byte a user address stands for, and its page table entry. *)
Definition hw_translate (m : mem) (pgdir va : Z) : option (Z * Z) :=
  let pde := load32 m (pgdir + 4 * PDX va) in
  if negb (present pde) then None else
  let pte := load32 m (P2V (PTE_ADDR pde) + 4 * PTX va) in
  if negb (present pte) then None else Some (P2V (PTE_ADDR pte) + va mod 4096, pte).

(** User code may write there. *)
Definition hw_writable (m : mem) (pgdir va : Z) : option Z :=
  '(a, pte) ← hw_translate m pgdir va;
  if Z.land pte (Z.lor PTE_U PTE_W) =? Z.lor PTE_U PTE_W then Some a else None.

(** The byte user code reads at [va]: the entry must be present and for user
    code. *)
Definition hw_user (m : mem) (pgdir va : Z) : option Z :=
  '(a, pte) ← hw_translate m pgdir va;
  if Z.land pte PTE_U =? PTE_U then Some a else None.

(** What user code sees there: the byte, and whether it may write. *)
Definition seen (m : mem) (pgdir va : Z) : option (Z * bool) :=
  a ← hw_user m pgdir va;
  Some (m a, bool_decide (is_Some (hw_writable m pgdir va))).

Section walk.
Context {S : Type} `{!PageOps S} `{!PageLayer S}.

Lemma hw_translate_spec s F pgdir T e va :
  uvm s F pgdir T e -> 0 <= va < 2 ^ 32 ->
  hw_translate (pg_mem s) pgdir va = if present (e (va / 4096)) then Some (uaddr e va, e (va / 4096)) else None.
Proof.
  intros Hu Hva. pose proof (u_vm _ _ _ _ _ Hu) as Hvm. destruct (vm_pt _ _ _ _ _ Hvm) as [Hd Ht Hn].
  destruct (PDX_div va Hva) as [_ Hpd]. destruct (PTX_div va ltac:(lia)) as [_ Hpt]. pose proof (vpn_split va Hva) as Ev.
  unfold hw_translate, uaddr, frame_of. rewrite Hd by done. destruct (T !! PDX va) as [p|] eqn:E.
  - destruct (vmr_pages _ _ _ _ _ _ _ Hvm E) as (_ & Hpo & _). destruct (pde_of pg_end pg_end_ok p Hpo) as (_ & Hp1 & Hp2).
    rewrite Hp1, Hp2, (Ht _ _ _ E Hpt), Ev. cbn [negb]. by destruct (present (e (va / 4096))).
  - change (present 0) with false. cbn [negb]. rewrite <- Ev, (Hn _ _ Hpd E Hpt). done.
Qed.

(** The walk stays inside the pages of the table. *)
Lemma hw_translate_same data s F pgdir e n Y m va :
  aspace data s F pgdir e n Y -> page_same Y (pg_mem s) m -> 0 <= va < 2 ^ 32 -> hw_translate m pgdir va = hw_translate (pg_mem s) pgdir va.
Proof.
  intros (He & T & Hu & Hp) Hm Hva. pose proof (u_vm _ _ _ _ _ Hu) as Hvm. destruct (ps_dir _ _ _ _ (vm_sep _ _ _ _ _ Hvm)) as (Hpg & _).
  assert (Hw : forall q k, q ∈ Y -> page_ok pg_end q -> 0 <= k < 1024 -> load32 m (q + 4 * k) = load32 (pg_mem s) (q + 4 * k)).
  { intros q k Hq Hqo Hk. destruct (word_in_page pg_end pg_end_ok q k Hqo Hk) as (H0 & H1 & Hin). apply load32_ext; [done|done|]. intros i Hi. by apply (Hm q); [|apply Hin]. }
  destruct (PDX_div va Hva) as [_ Hpd]. destruct (PTX_div va ltac:(lia)) as [_ Hpt]. unfold hw_translate. rewrite Hw by (done || apply Hp; auto).
  rewrite (pr_dir _ _ _ _ (vm_pt _ _ _ _ _ Hvm)) by done. destruct (T !! PDX va) as [p|] eqn:E; [|done].
  destruct (vmr_pages _ _ _ _ _ _ _ Hvm E) as (_ & Hpo & _). destruct (pde_of pg_end pg_end_ok p Hpo) as (_ & _ & ->).
  rewrite Hw; [done| |done|done]. apply Hp. right. left. apply elem_tabs. eauto.
Qed.

Lemma seen_same data s F pgdir e n Y m va :
  aspace data s F pgdir e n Y -> page_same Y (pg_mem s) m -> 0 <= va < 2 ^ 32 -> seen m pgdir va = seen (pg_mem s) pgdir va.
Proof.
  intros Ha Hm Hva. pose proof (hw_translate_same _ _ _ _ _ _ _ _ _ Ha Hm Hva) as Et. unfold seen, hw_writable, hw_user. rewrite Et.
  destruct Ha as (He & T & Hu & Hp). rewrite (hw_translate_spec _ _ _ _ _ _ Hu) by done. destruct (present (e (va / 4096))) eqn:Ep; [|done]. cbn.
  destruct (Z.eqb_spec (Z.land (e (va / 4096)) PTE_U) PTE_U) as [EU|]; [|done]. cbn. do 2 f_equal.
  assert (Hv : 0 <= va / 4096 < UPAGES).
  { destruct (Z.lt_ge_cases va KERNBASE) as [|Hge]; unfold UPAGES, KERNBASE in *; [split; [apply Z.div_pos; lia|apply Z.div_lt_upper_bound; lia]|].
    exfalso. rewrite (eo_kern _ _ _ He), kern_no_user in EU; [done|]. unfold UPAGES. split; [apply Z.div_le_lower_bound; lia|apply Z.div_lt_upper_bound; lia]. }
  apply (Hm (frame_of (e (va / 4096)))); [apply Hp; right; right; by exists (va / 4096)|].
  pose proof (Z.mod_pos_bound va 4096 ltac:(lia)). unfold in_page, uaddr, PGSIZE. lia.
Qed.
End walk.

(** ** Invariant and steps *)

Definition live (x : proc) : Prop := p_state x <> UNUSED /\ p_state x <> ZOMBIE.

(** What scheduling does to a slot. *)
Record same_life (x y : proc) : Prop := {
  sf_mem : same_mem x y; sf_live : live x <-> live y; sf_cwd : p_cwd y = p_cwd x
}.

Lemma same_life_refl x : same_life x x.
Proof. by split. Qed.

Lemma same_life_trans x y z : same_life x y -> same_life y z -> same_life x z.
Proof. intros [M1 L1 C1] [M2 L2 C2]. split; [by eapply same_mem_trans|by rewrite L1|congruence]. Qed.

(** What a scheduling routine does to the table: every slot keeps its memory, and
    the processes that run still run. *)
Record kern_kept (ids : list Z) (k k' : kern) : Prop := {
  kk_len : length (k_ptab k') = NPROC; kk_cproc : k_cproc k' = k_cproc k;
  kk_life : forall j, same_life (pt k j) (pt k' j); kk_run : forall j, p_state (pt k j) = RUNNING -> p_state (pt k' j) = RUNNING;
  kk_rep : exists h b, mach_rep ids (k_mach k') h no_depth b
}.

Section steps.
Context {P S : Type} `{!PageOps P} `{!PageLayer P} `{!BlockOps S} `{!DevOps S} `{!TxnOps S}.
Variables data cpus forkret_addr trapret_addr : Z.
Context (ids : list Z).
Implicit Types (s : os P S) (pg : P) (F Y L A : gset Z) (k : kern) (f : files) (tab : nat -> proc) (cpu : list cpuseg).

(** Open files belong to live processes. *)
Record open_ok f tab : Prop := {
  op_count : counted no_extra f; op_len : length (ofile f) = NPROC;
  op_closed : forall i, (i < NPROC)%nat -> ~ live (tab i) -> ofile f !! i = Some (replicate NOFILE None)
}.

(** The CPUs: locks and [pushcli] are consistent, a CPU runs one process, no two
    CPUs the same, and walks the page table of the process it runs. *)
Record sched_ok k cpu : Prop := {
  so_rep : exists h b, mach_rep ids (k_mach k) h no_depth b;
  so_len : length (k_cproc k) = length ids;
  so_run : forall c p, cp k c = Some p -> p_state (pt k p) = RUNNING /\ s_cr3 (cpu !!! c) = V2P (p_pgdir (pt k p));
  so_one : forall c c' p, cp k c = Some p -> cp k c' = Some p -> c = c'
}.

Record os_inv A L s : Prop := {
  oi_mem : exists F own, mem_rep data A L (os_pg s) (pt (os_k s)) F own;
  oi_len : length (k_ptab (os_k s)) = NPROC;
  oi_files : open_ok (o_files (os_io s)) (pt (os_k s));
  oi_cwd : forall i, live (pt (os_k s) i) -> exists ip, p_cwd (pt (os_k s) i) = Some ip;
  oi_cpu : cpus_ok (ids := ids) (os_cpu s) (os_idt s);
  oi_sched : sched_ok (os_k s) (os_cpu s)
}.

(** How deep in [pushcli] CPU [c] is, which locks it holds, and its page table
    register. *)
Definition depth k (c : nat) : Z := c_ncli (m_cpus (k_mach k) !!! c).
Definition has_lock k (c : nat) (l : Z) : Prop := lk_cpu (m_locks (k_mach k) l) = Some c.
Definition cr3 s (c : nat) : Z := s_cr3 (os_cpu s !!! c).

(** Some user page is mapped, as when CPU [c] has executed user code. *)
Definition in_user s (c : nat) : Prop := exists va, 0 <= va < KERNBASE /\ is_Some (hw_translate (pg_mem (os_pg s)) (P2V (cr3 s c)) va).

Definition file_op_of (p : nat) (op : fop) : Prop :=
  match op with Dup q _ | CloseFd q _ | OpenF q _ _ | PipeF q _ => q = p | ForkF _ _ | ExitF _ => False end.

(** Routines of the kernel that stay on their CPU ... *)
Inductive kern_call k (c : nat) (id : Z) : M kern () -> Prop :=
| kc_lock l : ~ has_lock k c l -> kern_call k c id (kacquire id l)
| kc_unlock l : has_lock k c l -> kern_call k c id (krelease id l)
| kc_if (on : bool) : depth k c = 0 -> kern_call k c id (onm (if on then sti id else cli id))
| kc_wake ch : ~ has_lock k c PTLOCK -> kern_call k c id (wakeup id ch)
| kc_killed pid : ~ has_lock k c PTLOCK -> kern_call k c id (kill id pid;; mret ()).

(** ... and those that end in the scheduler. *)
Inductive switch_call k (c : nat) (id : Z) : M kern () -> Prop :=
| sc_yield : depth k c = 0 -> switch_call k c id (yield id)
| sc_sleep ch lk : depth k c = 1 -> has_lock k c PTLOCK -> switch_call k c id (sleep_sched id ch lk).

(** [wait], or its loop after a sleep, up to its return or to the scheduler. *)
Definition wait_call (id : Z) (first : bool) : M (os P S) (option Z) :=
  o ← (if first then wait id else wait_turn id);
  match o with
  | Some r => mret (Some r)
  | None => scheduler_leave id;; mret None
  end.

(** The scheduler at slot [j]: the process there goes on where it was. *)
Definition run_slot (id : Z) (j : nat) : M (os P S) () :=
  r ← scheduler_enter cpus id j;
  if r : bool then on_k (resume id j TRun);; mret () else mret ().

(** What a step does, and the process that does it. *)
Inductive event :=
| EFork (p : nat) (r : Z) | EExec (p : nat) (r : Z) | EGrow (p : nat) (n r : Z) | EWait (p : nat) (o : option Z) | EExit (p : nat) | EStore (p : nat) | EFiles (p : nat) | EKernel | ESched.

(** Process [q] changes its own memory, or ends. *)
Definition touches (ev : event) (q : nat) : Prop :=
  match ev with EExec p _ | EGrow p _ _ | EExit p | EStore p => p = q | _ => False end.

(** Process [q] goes on, with the memory it had. *)
Record kept_proc s s' (q : nat) : Prop := {
  kp_live : live (pt (os_k s') q);
  kp_dir : p_pgdir (pt (os_k s') q) = p_pgdir (pt (os_k s) q);
  kp_sz : p_sz (pt (os_k s') q) = p_sz (pt (os_k s) q);
  kp_seen : forall va, 0 <= va < 2 ^ 32 -> seen (pg_mem (os_pg s')) (p_pgdir (pt (os_k s) q)) va = seen (pg_mem (os_pg s)) (p_pgdir (pt (os_k s) q)) va
}.

(** So do all processes but those [T] names. *)
Definition others (T : nat -> Prop) s s' : Prop := forall q, live (pt (os_k s) q) -> ~ T q -> kept_proc s s' q.
Definition keeps A L (T : nat -> Prop) s s' : Prop := os_inv A L s' /\ others T s s'.

Inductive os_step s : event -> os P S -> Prop :=
| st_fork c id p r s' : ids !! c = Some id -> cp (os_k s) c = Some p -> depth (os_k s) c = 0 -> in_user s c ->
    fork data forkret_addr trapret_addr id s = Ok r s' -> os_step s (EFork p r) s'
| st_grow c id p n r s' : ids !! c = Some id -> cp (os_k s) c = Some p -> depth (os_k s) c = 0 -> in_user s c -> - 2 ^ 31 <= n < 2 ^ 31 ->
    growproc cpus id n s = Ok r s' -> os_step s (EGrow p n r) s'
| st_exec c id p path argv r s' : ids !! c = Some id -> cp (os_k s) c = Some p -> depth (os_k s) c = 0 -> args_size argv <= 2 ^ 25 ->
    exec cpus data id path argv s = Ok r s' -> os_step s (EExec p r) s'
| st_wait c id p (first : bool) o s' : ids !! c = Some id -> cp (os_k s) c = Some p ->
    (if first then depth (os_k s) c = 0 else depth (os_k s) c = 1 /\ has_lock (os_k s) c PTLOCK) ->
    wait_call id first s = Ok o s' -> os_step s (EWait p o) s'
| st_exit c id p i s' : ids !! c = Some id -> cp (os_k s) c = Some p -> depth (os_k s) c = 0 ->
    (exit id;; scheduler_leave id) s = Ok i s' -> os_step s (EExit p) s'
| st_store c p va a v : cp (os_k s) c = Some p -> 0 <= va < KERNBASE -> hw_writable (pg_mem (os_pg s)) (P2V (cr3 s c)) va = Some a ->
    os_step s (EStore p) (s <| os_pg := pg_setmem (store (pg_mem (os_pg s)) a v) (os_pg s) |>)
| st_stack c p a v : cp (os_k s) c = Some p -> in_page (p_kstack (pt (os_k s) p)) a ->
    os_step s EKernel (s <| os_pg := pg_setmem (store (pg_mem (os_pg s)) a v) (os_pg s) |>)
| st_files c p op f' : cp (os_k s) c = Some p -> file_op_of p op -> run_op op (o_files (os_io s)) = Ok () f' ->
    os_step s (EFiles p) (s <| os_io := (os_io s) <| o_files := f' |> |>)
| st_fs (m : M (fsst S) ()) s' : on_io (on_fs m) s = Ok () s' -> os_step s EKernel s'
| st_kern c id m s' : ids !! c = Some id -> kern_call (os_k s) c id m -> on_k m s = Ok () s' -> os_step s ESched s'
| st_switch c id p m i s' : ids !! c = Some id -> cp (os_k s) c = Some p -> switch_call (os_k s) c id m ->
    (on_k m;; scheduler_leave id) s = Ok i s' -> os_step s ESched s'
| st_run c id j s' : ids !! c = Some id -> cp (os_k s) c = None -> depth (os_k s) c = 1 -> has_lock (os_k s) c PTLOCK -> (j < NPROC)%nat ->
    run_slot id j s = Ok () s' -> os_step s ESched s'.

Lemma run_lt A L s c p : os_inv A L s -> cp (os_k s) c = Some p ->
  (p < NPROC)%nat /\ p_state (pt (os_k s) p) = RUNNING /\ used (pt (os_k s) p) /\ live (pt (os_k s) p) /\ cr3 s c = V2P (p_pgdir (pt (os_k s) p)).
Proof.
  intros Hi Hr. destruct (so_run _ _ (oi_sched _ _ _ Hi) c p Hr) as [Hst Hcr]. unfold used, live. rewrite Hst. split_and!; try done.
  destruct (decide (p < NPROC)%nat); [done|]. exfalso. unfold pt in Hst. rewrite tab_out in Hst; [done|]. rewrite (oi_len _ _ _ Hi). lia.
Qed.

(** ** The other processes *)

Lemma live_used x : live x -> used x.
Proof. by intros [? _]. Qed.

(** The pages of a process that goes on have not changed. *)
Lemma kept_intro A L s s' F own q :
  mem_rep data A L (os_pg s) (pt (os_k s)) F own -> live (pt (os_k s) q) -> same_life (pt (os_k s) q) (pt (os_k s') q) ->
  page_same (own q) (pg_mem (os_pg s)) (pg_mem (os_pg s')) -> kept_proc s s' q.
Proof.
  intros Hm Hl [[_ Hf] Hlv _] Hs. destruct (Hf (live_used _ Hl)) as (E1 & E2 & E3 & E4). split; [by apply Hlv|done|done|]. intros va Hva.
  destruct (mr_slot _ _ _ _ _ _ _ Hm q (live_used _ Hl)) as (e & n & Hsl). destruct (sl_space _ _ _ _ _ _ _ Hsl) as (Ya & Ha & EY & _).
  eapply seen_same; [exact Ha| |done]. intros r a Hr. apply Hs. rewrite EY. set_solver.
Qed.

Lemma others_life (T : nat -> Prop) s s' : os_pg s' = os_pg s -> (forall j, ~ T j -> same_life (pt (os_k s) j) (pt (os_k s') j)) -> others T s s'.
Proof.
  intros Epg Hj q Hl HT. destruct (Hj q HT) as [[_ Hf] Hlv _]. destruct (Hf (live_used _ Hl)) as (E1 & E2 & E3 & E4). split; [by apply Hlv|done|done|]. by rewrite Epg.
Qed.

Lemma others_trans T s s1 s2 : others T s s1 -> others T s1 s2 -> others T s s2.
Proof.
  intros H1 H2 q Hl HT. destruct (H1 q Hl HT) as [L1 D1 Z1 S1]. destruct (H2 q L1 HT) as [L2 D2 Z2 S2]. split; [done|congruence|congruence|].
  intros va Hva. rewrite <- (S1 va Hva). rewrite <- D1. by apply S2.
Qed.

Lemma others_weaken (T T' : nat -> Prop) s s' : (forall q, T q -> T' q) -> others T s s' -> others T' s s'.
Proof. intros HT H q Hl Hn. apply H; [done|]. intros Hq. by apply Hn, HT. Qed.

(** ** Scheduling *)

Lemma wake_life ch x : same_life x (wake ch x).
Proof.
  unfold wake. destruct (bool_decide (p_state x = SLEEPING) && _) eqn:E; [|apply same_life_refl].
  apply andb_true_iff in E as [E _]. apply bool_decide_eq_true in E. split; [split|..]; unfold used, live; cbn; rewrite ?E; done.
Qed.

Lemma wake_runs ch x : p_state x = RUNNING -> wake ch x = x.
Proof. intros E. unfold wake. by rewrite bool_decide_eq_false_2 by congruence. Qed.

Lemma killed_life x : same_life x (killed x).
Proof.
  unfold killed. cbn [p_state set_field]. destruct (bool_decide (p_state x = SLEEPING)) eqn:E; [|by split].
  apply bool_decide_eq_true in E. split; [split|..]; unfold used, live; cbn; rewrite ?E; done.
Qed.

Lemma state_life x y : live x -> live y -> p_pgdir y = p_pgdir x -> p_kstack y = p_kstack x -> p_tf y = p_tf x -> p_sz y = p_sz x ->
  p_cwd y = p_cwd x -> same_life x y.
Proof. intros [H1 H2] [H3 H4] E1 E2 E3 E4 E5. split; [split|split|]; unfold used; done. Qed.

Lemma upd_life k p y j : same_life (pt k p) y -> same_life (pt k j) (updn (pt k) p y j).
Proof. intros H. unfold updn. case_decide; [by subst|apply same_life_refl]. Qed.

(** The table changes, memory and files do not. *)
Lemma life_inv A L s k' cpu' kp' :
  os_inv A L s -> length (k_ptab k') = NPROC -> (forall j, same_life (pt (os_k s) j) (pt k' j)) -> cpus_ok (ids := ids) cpu' (os_idt s) ->
  sched_ok k' cpu' -> keeps A L (fun _ => False) s (mk_os k' (os_pg s) cpu' (os_idt s) kp' (os_io s)).
Proof.
  intros [(F & own & Hm) Hl [O1 O2 O3] Hc Hcpu Hs] Hl' Hj Hcpu' Hs'. split; [|by apply others_life]. split; cbn; try done.
  - exists F, own. eapply mem_table; [exact Hm|]. intros j. apply Hj.
  - split; [done|done|]. intros i Hi Hn. apply O3; [done|]. by rewrite (sf_live _ _ (Hj i)).
  - intros i Hi. rewrite (sf_cwd _ _ (Hj i)). apply Hc. by apply (sf_live _ _ (Hj i)).
Qed.

Lemma running_used k p : p_state (pt k p) = RUNNING -> used (pt k p).
Proof. intros E. unfold used. by rewrite E. Qed.

Lemma sched_keep k k' cpu : sched_ok k cpu -> k_cproc k' = k_cproc k -> (exists h b, mach_rep ids (k_mach k') h no_depth b) ->
  (forall j, same_mem (pt k j) (pt k' j)) -> (forall j, p_state (pt k j) = RUNNING -> p_state (pt k' j) = RUNNING) -> sched_ok k' cpu.
Proof.
  intros [H1 H2 H3 H4] Ec Hr Hm Hj. split; [done|by rewrite Ec| |unfold cp in *; rewrite Ec; done].
  intros c p. unfold cp. rewrite Ec. intros Hcp. destruct (H3 c p Hcp) as [Hst Hcr]. split; [by apply Hj|].
  by destruct (sm_fields _ _ (Hm p) (running_used _ _ Hst)) as (-> & _).
Qed.

Lemma kept_inv A L s k' : os_inv A L s -> kern_kept ids (os_k s) k' -> keeps A L (fun _ => False) s (s <| os_k := k' |>).
Proof.
  intros Hi [K1 K2 K3 K4 K5]. apply (life_inv A L s k' (os_cpu s) (os_kpgdir s)); [done|done|done|apply Hi|].
  eapply sched_keep; [apply Hi|done|done| |done]. intros j. apply K3.
Qed.

(** CPU [c] is back in its scheduler, and has loaded [kpgdir]. *)
Lemma sched_left k k' cpu c p x : sched_ok k cpu -> cp k c = Some p -> k_cproc k' = <[c := None]> (k_cproc k) ->
  (exists h b, mach_rep ids (k_mach k') h no_depth b) -> (forall j, same_mem (pt k j) (pt k' j)) ->
  (forall j, j <> p -> p_state (pt k j) = RUNNING -> p_state (pt k' j) = RUNNING) -> sched_ok k' (<[c := x]> cpu).
Proof.
  intros [H1 H2 H3 H4] Hcp Ec Hr Hm Hj.
  assert (Hc' : forall c' p', cp k' c' = Some p' -> c' <> c /\ cp k c' = Some p').
  { intros c' p'. unfold cp. rewrite Ec. destruct (decide (c' = c)) as [->|Hne]; [|by rewrite list_lookup_total_insert_ne].
    destruct (decide (c < length (k_cproc k))%nat); [by rewrite list_lookup_total_insert_eq|].
    exfalso. unfold cp in Hcp. rewrite list_lookup_total_alt, lookup_ge_None_2 in Hcp by lia. done. }
  split; [done|by rewrite Ec, length_insert| |].
  - intros c' p' [Hne Hcp']%Hc'. destruct (H3 c' p' Hcp') as [Hst Hcr]. assert (p' <> p) by (intros ->; by apply Hne, (H4 c' c p)).
    split; [by apply Hj|]. rewrite list_lookup_total_insert_ne by done. by destruct (sm_fields _ _ (Hm p') (running_used _ _ Hst)) as (-> & _).
  - intros c1 c2 p' [_ E1]%Hc' [_ E2]%Hc'. by eapply H4.
Qed.
End steps.
