(* ===== verification/ExecLoad.v ===== *)
(** [exec] reads the program: [loaduvm] and the loop over the program headers.

    The rules hold for two readings of a Hoare triple, [trip]: total, where the
    file system's [readi] is known to return the bytes of the file, and
    partial, where nothing is known of the file system.  [rd off n rb] says what
    [readi] may return, [J] what it keeps of the file system's state. *)

From S2P Require Import Prelude CString Layout Sleeplock BlockLayer Fs File Pipe TxnLayer SysFile.
From S2P Require Import Spinlock LockRep Kalloc Vm VmRep VmUser VmCopy VmOut VmSpace.
From S2P Require Import Proc ProcOps ProcEff Seg ProcMem Exec ExecMem ProcSpace ProcFork ProcLife ProcSteps.

(** A triple, total or partial. *)
Definition trip {S A} (total : bool) (m : M S A) (s : S) (Q : A -> S -> Prop) : Prop := if total then wp m s Q else wlp m s Q.

Section trip.
Context {S T A B : Type} (t : bool).

Lemma wp_trip (m : M S A) s Q : wp m s Q -> trip t m s Q.
Proof. destruct t; [done|apply wp_wlp]. Qed.
Lemma trip_bind (m : M S A) (k : A -> M S B) s Q : trip t m s (fun a s' => trip t (k a) s' Q) -> trip t (m ≫= k) s Q.
Proof. destruct t; [apply wp_bind|apply wlp_bind]. Qed.
Lemma trip_conseq (m : M S A) s (Q Q' : A -> S -> Prop) : trip t m s Q -> (forall a s', Q a s' -> Q' a s') -> trip t m s Q'.
Proof. destruct t; [apply wp_conseq|apply wlp_conseq]. Qed.
Lemma trip_zoom (get : S -> T) put (m : M T A) s (Q : A -> S -> Prop) : trip t m (get s) (fun a x => Q a (put x s)) -> trip t (zoom get put m) s Q.
Proof. destruct t; [apply wp_zoom|apply wlp_zoom]. Qed.
Lemma trip_ret (a : A) s (Q : A -> S -> Prop) : Q a s -> trip t (mret a) s Q.
Proof. intros H. by destruct t. Qed.
(** A total first part. *)
Lemma trip_wp (m : M S A) (k : A -> M S B) s Q : wp m s (fun a s' => trip t (k a) s' Q) -> trip t (m ≫= k) s Q.
Proof. intros H. apply trip_bind, wp_trip, H. Qed.
End trip.

Section load.
Context {P S : Type} `{!PageOps P} `{!PageLayer P} `{!BlockOps S} `{!DevOps S} `{!TxnOps S}.
Variables (data : Z) (tot : bool) (ip : nat) (J : fsst S -> Prop) (rd : Z -> Z -> Z * list Z -> Prop).
Hypothesis Hdata : data_ok data.
Hypothesis Hread : forall off n x, 0 <= off < 2 ^ 32 -> 0 <= n <= 4096 -> J x -> trip tot (readi ip off n) x (fun rb x' => J x' /\ rd off n rb).
Hypothesis Hshort : forall off n r b, rd off n (r, b) -> Z.of_nat (length b) <= n.
Implicit Types (s : os P S) (pg : P) (F Y : gset Z) (e img : Z -> Z) (x : fsst S).

(** [s] with other memory and another state of the file system. *)
Definition with_mem s pg x : os P S := s <| os_pg := pg |> <| os_io := (os_io s) <| o_fs := x |> |>.

Lemma trip_readi s pg x off n (Q : Z * list Z -> os P S -> Prop) :
  0 <= off < 2 ^ 32 -> 0 <= n <= 4096 -> J x -> (forall r b x', J x' -> rd off n (r, b) -> Q (r, b) (with_mem s pg x')) -> trip tot (o_readi ip off n) (with_mem s pg x) Q.
Proof.
  intros Ho Hn HJ HQ. unfold o_readi, on_io, on_fs. apply trip_zoom, trip_zoom. eapply trip_conseq; [by apply Hread|]. intros [r b] x' [HJ' Hr]. by apply HQ.
Qed.

Lemma on_pg_with {A} s pg x (m : M P A) (Q : A -> os P S -> Prop) : wp m pg (fun a pg' => Q a (with_mem s pg' x)) -> wp (on_pg m) (with_mem s pg x) Q.
Proof. intros H. apply wp_zoom. exact H. Qed.

(** [walkpgdir] without allocation only reads. *)
Lemma os_walk pgdir va s : @walkpgdir (os P S) os_page_ops pgdir va false s = on_pg (walkpgdir pgdir va false) s.
Proof.
  unfold walkpgdir, on_pg, zoom, Vm.rd, gets, mbind, M_bind. cbv beta. cbn [pg_mem os_page_ops].
  destruct (present _); cbn; destruct s; done.
Qed.

(** The entry of a user page. *)
Lemma space_pte pg F pgdir e n Y v : aspace data pg F pgdir e n Y -> 0 <= v < n ->
  exists pte, walkpgdir pgdir (4096 * v) false pg = Ok pte pg /\ pte <> 0 /\ load32 (pg_mem pg) pte = e v.
Proof.
  intros ([Hn Hin _ _] & T & Hu & _) Hv. unfold UPAGES in Hn. pose proof (u_vm _ _ _ _ _ Hu) as Hvm. assert (Hva : 0 <= 4096 * v < 2 ^ 32) by lia.
  destruct (present_tab _ _ _ _ _ v Hvm ltac:(lia) (Hin _ Hv)) as [p Ep]. assert (Evp : 4096 * v / 4096 = v) by (rewrite Z.mul_comm; apply Z.div_mul; lia).
  assert (W : wp (walkpgdir pgdir (4096 * v) false) pg (fun a pg' => a = p + 4 * PTX (4096 * v) /\ pg' = pg)) by (apply (wp_walk pg F pgdir T e _ _ Hvm Hva); by rewrite Ep).
  apply wp_elim in W as (pte & pg' & Hrun & -> & ->). eexists. split; [exact Hrun|]. split; [apply (vmr_word _ _ _ _ _ _ _ _ Hvm Ep Hva)|].
  destruct (PTX_div (4096 * v) ltac:(lia)) as [_ Hx]. rewrite (pr_tab _ _ _ _ (vm_pt _ _ _ _ _ Hvm) _ _ _ Ep Hx), (vpn_split _ Hva), Evp. done.
Qed.

Lemma trip_walk pgdir va s pg x pte (Q : Z -> os P S -> Prop) :
  walkpgdir pgdir va false pg = Ok pte pg -> Q pte (with_mem s pg x) -> trip tot (@walkpgdir (os P S) os_page_ops pgdir va false) (with_mem s pg x) Q.
Proof.
  intros H HQ. apply wp_trip. unfold wp. rewrite os_walk. unfold on_pg, zoom. cbn [os_pg with_mem]. change (os_pg (with_mem s pg x)) with pg. by rewrite H.
Qed.

Definition chunk (sz k : Z) : Z := Z.min 4096 (sz - 4096 * k).

(** [img'] is [img] with the file's bytes from [offset] on, [sz] of them, at
    [addr], as far as [j] pages are already in place. *)
Record filled (addr offset sz j : Z) img img' : Prop := {
  fl_out : forall va, ~ addr + 4096 * j <= va < addr + sz -> img' va = img va;
  fl_in : forall k, j <= k -> 4096 * k < sz -> exists b, rd (u32 (offset + 4096 * k)) (chunk sz k) (chunk sz k, b) /\
    forall va, addr + 4096 * k <= va < addr + 4096 * k + chunk sz k -> img' va = put_img img (addr + 4096 * k) b va
}.
Lemma filled_step a offset sz j b img img' : 0 <= j -> 4096 * j < sz -> rd (u32 (offset + 4096 * j)) (chunk sz j) (chunk sz j, b) ->
  filled (4096 * a) offset sz (j + 1) (put_img img (4096 * (a + j)) b) img' -> filled (4096 * a) offset sz j img img'.
Proof.
  intros Hj Hlt Hrd [Hout Hin]. pose proof (Hshort _ _ _ _ Hrd) as Hlb. unfold chunk in *.
  assert (Hput : forall va, ~ 4096 * (a + j) <= va < 4096 * (a + j) + Z.min 4096 (sz - 4096 * j) -> put_img img (4096 * (a + j)) b va = img va).
  { intros va Hva. unfold put_img, in_range. destruct (Z.leb_spec (4096 * (a + j)) va), (Z.ltb_spec va (4096 * (a + j) + Z.of_nat (length b))); try done. lia. }
  split.
  - intros va Hva. rewrite Hout by lia. apply Hput. lia.
  - intros k Hk Hks. unfold chunk in *. destruct (decide (k = j)) as [->|Hne].
    + exists b. split; [done|]. intros va Hva. rewrite Hout by (clear -Hva Hlt; lia). by replace (4096 * a + 4096 * j) with (4096 * (a + j)) by lia.
    + destruct (Hin k) as (b' & Hb' & Hx); [lia|done|]. exists b'. split; [done|]. intros va Hva. rewrite Hx by done. apply put_img_ext, Hput. lia.
Qed.

(** [readi] gave less than was asked for. *)
Definition short_read (offset sz : Z) : Prop := exists k r b, 0 <= k /\ 4096 * k < sz /\ rd (u32 (offset + 4096 * k)) (chunk sz k) (r, b) /\ r <> chunk sz k.

Lemma trip_loaduvm_loop s pg0 F0 pgdir e n a offset sz : forall fuel j pg x img (Q : Z -> os P S -> Prop),
  loading data pg0 F0 pg pgdir e n img -> J x -> 0 <= a -> 4096 * a + sz <= 4096 * n -> 0 <= j -> sz - 4096 * j <= 4096 * Z.of_nat fuel ->
  (forall pg' x' img', loading data pg0 F0 pg' pgdir e n img' -> J x' -> short_read offset sz -> Q (-1) (with_mem s pg' x')) ->
  (forall pg' x' img', loading data pg0 F0 pg' pgdir e n img' -> J x' -> filled (4096 * a) offset sz j img img' -> Q 0 (with_mem s pg' x')) ->
  trip tot (@loaduvm_loop (os P S) os_page_ops (o_readi ip) fuel pgdir (4096 * a) offset (4096 * j) sz) (with_mem s pg x) Q.
Proof.
  assert (Hend : forall j pg x img (Q : Z -> os P S -> Prop), loading data pg0 F0 pg pgdir e n img -> J x -> sz <= 4096 * j ->
    (forall pg' x' img', loading data pg0 F0 pg' pgdir e n img' -> J x' -> filled (4096 * a) offset sz j img img' -> Q 0 (with_mem s pg' x')) -> Q 0 (with_mem s pg x)).
  { intros j pg x img Q Hl HJ Hj HQ. apply (HQ _ _ img); [done|done|]. split; [done|]. intros k Hk1 Hk2. lia. }
  induction fuel as [|fuel IH]; intros j pg x img Q Hl HJ Ha Hn Hj Hfu Hbad Hok; cbn [loaduvm_loop].
  { apply trip_ret. apply (Hend j pg x img); try done. lia. }
  destruct (Z.ltb_spec (4096 * j) sz) as [Hlt|Hge]; [|apply trip_ret; by apply (Hend j pg x img)].
  pose proof Hl as [(F & Y & Hsp & HF) Hsh Hc Hw Hsm]. pose proof (proj1 Hsp) as [Hnu Hin _ _]. unfold UPAGES in Hnu.
  assert (Hv : 0 <= a + j < n) by lia. replace (4096 * a + 4096 * j) with (4096 * (a + j)) by lia. rewrite (u32_small (4096 * (a + j))) by lia.
  destruct (space_pte _ _ _ _ _ _ _ Hsp Hv) as (pte & Hwalk & Hnz & Epte).
  apply trip_bind. apply (trip_walk _ _ _ _ _ pte); [exact Hwalk|]. rewrite (proj2 (Z.eqb_neq _ 0) Hnz).
  apply trip_wp. unfold Vm.rd. wp_step. change (load32 _ _) with (load32 (pg_mem pg) pte). rewrite Epte. fold (frame_of (e (a + j))).
  rewrite (u32_small (sz - 4096 * j)) by lia. replace (if sz - 4096 * j <? PGSIZE then sz - 4096 * j else PGSIZE) with (chunk sz j)
    by (unfold chunk, PGSIZE; destruct (Z.ltb_spec (sz - 4096 * j) 4096); lia).
  assert (Hch : 0 < chunk sz j <= 4096) by (unfold chunk; lia).
  apply trip_bind, trip_readi; [by apply u32_range|lia|done|]. intros r b x1 HJ1 Hrd. pose proof (Hshort _ _ _ _ Hrd) as Hlb.
  destruct (frame_write data pg F pgdir e n Y img (a + j) 0 b Hsp Hsh Hv ltac:(lia) ltac:(lia)) as (Hsp1 & Hsh1 & Hsm1). rewrite !Z.add_0_r in Hsp1, Hsh1, Hsm1.
  apply trip_wp. wp_step. match goal with |- trip _ _ ?st _ => change st with (with_mem s (pg_setmem (put_mem (pg_mem pg) (frame_of (e (a + j))) b) pg) x1) end.
  set (pg1 := pg_setmem _ pg) in *. assert (Hl1 : loading data pg0 F0 pg1 pgdir e n (put_img img (4096 * (a + j)) b)).
  { rewrite (Z.add_0_r (4096 * (a + j))) in Hsh1. split; [by exists F, Y|done| |done|]; [|eapply same_again; [exact Hsm|exact Hsm1|clear -HF; set_solver]].
    intros va Hge. unfold put_img, in_range. rewrite (proj2 (Z.ltb_ge _ _)), andb_false_r by lia. by apply Hc. }
  destruct (Z.eqb_spec r (chunk sz j)) as [->|Hr]; cbn [negb].
  - replace (u32 (4096 * j + PGSIZE)) with (4096 * (j + 1)) by (unfold PGSIZE; rewrite u32_small; lia).
    apply (IH (j + 1) pg1 x1 (put_img img (4096 * (a + j)) b)); try done; [lia|lia|]. intros pg2 x2 img2 Hl2 HJ2 Hf. apply (Hok pg2 x2 img2); [done|done|]. by apply (filled_step _ _ _ _ b).
  - apply trip_ret. apply (Hbad pg1 x1 _ Hl1 HJ1). exists j, r, b. split_and!; done.
Qed.

(** What a program header asks for: nothing, or a segment that fits below the
    kernel. *)
Inductive seg_step (off sz : Z) img : Z -> (Z -> Z) -> Prop :=
| seg_skip b : rd off 32 (32, b) -> ph_type (ph_of b) <> ELF_PROG_LOAD -> seg_step off sz img sz img
| seg_load b img' : rd off 32 (32, b) -> ph_type (ph_of b) = ELF_PROG_LOAD -> ph_filesz (ph_of b) <= ph_memsz (ph_of b) ->
    ph_vaddr (ph_of b) + ph_memsz (ph_of b) < KERNBASE -> ph_vaddr (ph_of b) mod 4096 = 0 -> 0 < Z.max sz (ph_vaddr (ph_of b) + ph_memsz (ph_of b)) ->
    filled (ph_vaddr (ph_of b)) (ph_off (ph_of b)) (ph_filesz (ph_of b)) 0 img img' ->
    seg_step off sz img (Z.max sz (ph_vaddr (ph_of b) + ph_memsz (ph_of b))) img'.

(** Why a segment is not loaded: the header is short or not well formed, the
    file is, or the free pages are too few. *)
Definition seg_fails (F0 : gset Z) (off sz : Z) : Prop :=
  exists r b, rd off 32 (r, b) /\ let ph := ph_of b in
    (r <> 32 \/ ph_type ph = ELF_PROG_LOAD /\
      (ph_memsz ph < ph_filesz ph \/ KERNBASE <= ph_vaddr ph + ph_memsz ph \/ ph_vaddr ph mod 4096 <> 0 \/ Z.max sz (ph_vaddr ph + ph_memsz ph) <= 0 \/
       short_read (ph_off ph) (ph_filesz ph) \/ Z.of_nat (size F0) <= 2049 + up_vpn (ph_vaddr ph + ph_memsz ph))).

Inductive segs : nat -> Z -> Z -> (Z -> Z) -> Z -> (Z -> Z) -> Prop :=
| segs_nil off sz img : segs 0 off sz img sz img
| segs_cons n off sz img sz1 img1 sz2 img2 : seg_step off sz img sz1 img1 -> segs n (u32 (off + PROGHDR_SIZE)) sz1 img1 sz2 img2 ->
    segs (Datatypes.S n) off sz img sz2 img2.
Inductive segs_fail (F0 : gset Z) : nat -> Z -> Z -> (Z -> Z) -> Prop :=
| segs_here n off sz img : seg_fails F0 off sz -> segs_fail F0 (Datatypes.S n) off sz img
| segs_later n off sz img sz1 img1 : seg_step off sz img sz1 img1 -> segs_fail F0 n (u32 (off + PROGHDR_SIZE)) sz1 img1 -> segs_fail F0 (Datatypes.S n) off sz img.

Lemma get32_u8 b off : 0 <= get32 (u8 <$> b) off < 2 ^ 32.
Proof.
  unfold get32. assert (Hb : Forall byte_ok (slice (u8 <$> b) off 4)).
  { apply slice_bytes, Forall_fmap, Forall_forall. intros x _. cbn. unfold u8, byte_ok. apply Z.mod_pos_bound. lia. }
  pose proof (le_dec_range _ Hb) as H. split; [lia|]. eapply Z.lt_le_trans; [apply H|]. apply Z.pow_le_mono_r; [lia|]. unfold slice. rewrite length_take. lia.
Qed.

Lemma trip_loaduvm s pg0 F0 pgdir e n addr offset sz pg x img (Q : Z -> os P S -> Prop) :
  loading data pg0 F0 pg pgdir e n img -> J x -> addr mod 4096 = 0 -> 0 <= addr -> 0 <= sz -> addr + sz <= 4096 * n ->
  (forall pg' x' img', loading data pg0 F0 pg' pgdir e n img' -> J x' -> short_read offset sz -> Q (-1) (with_mem s pg' x')) ->
  (forall pg' x' img', loading data pg0 F0 pg' pgdir e n img' -> J x' -> filled addr offset sz 0 img img' -> Q 0 (with_mem s pg' x')) ->
  trip tot (o_loaduvm pgdir addr ip offset sz) (with_mem s pg x) Q.
Proof.
  intros Hl HJ Hm Ha Hs Hn Hbad Hok. unfold o_loaduvm, loaduvm, PGSIZE. rewrite Hm, Z.eqb_refl. cbn [negb].
  apply Z.div_exact in Hm; [|done]. rewrite Hm in *.
  assert (0 <= addr / 4096) by (apply Z.div_pos; lia). pose proof (Z.div_mod sz 4096 ltac:(lia)). pose proof (Z.mod_pos_bound sz 4096 ltac:(lia)).
  assert (0 <= sz / 4096) by (apply Z.div_pos; lia).
  apply (trip_loaduvm_loop s pg0 F0 pgdir e n (addr / 4096) offset sz _ 0 pg x img); try done; try lia.
Qed.

Lemma trip_load_segment s pg0 F0 pgdir e sz off pg x img (Q : option Z -> os P S -> Prop) :
  loading data pg0 F0 pg pgdir e (up_vpn sz) img -> J x -> 0 <= sz < KERNBASE -> 0 <= off < 2 ^ 32 ->
  (forall pg' x', built data pg0 F0 pg' pgdir -> J x' -> seg_fails F0 off sz -> Q None (with_mem s pg' x')) ->
  (forall pg' x' e' sz' img', loading data pg0 F0 pg' pgdir e' (up_vpn sz') img' -> J x' -> 0 <= sz' < KERNBASE -> seg_step off sz img sz' img' -> Q (Some sz') (with_mem s pg' x')) ->
  trip tot (load_segment ip pgdir sz off) (with_mem s pg x) Q.
Proof.
  intros Hl HJ Hsz Hoff Hbad Hok. unfold load_segment. apply trip_bind, trip_readi; [done|unfold PROGHDR_SIZE; lia|done|]. intros r b x1 HJ1 Hrd.
  change PROGHDR_SIZE with 32 in *. pose proof (loading_built _ _ _ _ _ _ _ _ Hl) as Hb.
  destruct (Z.eqb_spec r 32) as [->|Hr]; cbn [negb]; [|apply trip_ret, Hbad; [done|done|]; exists r, b; by auto].
  set (ph := ph_of b). destruct (Z.eqb_spec (ph_type ph) ELF_PROG_LOAD) as [Ht|Ht]; cbn [negb]; [|apply trip_ret, (Hok _ _ e sz img); try done; by apply (seg_skip _ _ _ b)].
  assert (Hfail : forall pg' x', built data pg0 F0 pg' pgdir -> J x' -> (ph_memsz ph < ph_filesz ph \/ KERNBASE <= ph_vaddr ph + ph_memsz ph \/ ph_vaddr ph mod 4096 <> 0 \/
    Z.max sz (ph_vaddr ph + ph_memsz ph) <= 0 \/ short_read (ph_off ph) (ph_filesz ph) \/ Z.of_nat (size F0) <= 2049 + up_vpn (ph_vaddr ph + ph_memsz ph)) -> trip tot (mret None) (with_mem s pg' x') Q).
  { intros pg' x' Hb' HJ' Hwhy. apply trip_ret, Hbad; [done|done|]. exists 32, b. split; [done|]. right. by split. }
  assert (Hv : 0 <= ph_vaddr ph < 2 ^ 32) by apply get32_u8. assert (Hms : 0 <= ph_memsz ph < 2 ^ 32) by apply get32_u8. assert (Hfs : 0 <= ph_filesz ph < 2 ^ 32) by apply get32_u8.
  destruct (Z.ltb_spec (ph_memsz ph) (ph_filesz ph)) as [Hm|Hm]; [apply Hfail; by auto|].
  destruct (Z.ltb_spec (u32 (ph_vaddr ph + ph_memsz ph)) (ph_vaddr ph)) as [Hw|Hw].
  { apply Hfail; [done|done|]. right. left. destruct (Z.lt_ge_cases (ph_vaddr ph + ph_memsz ph) (2 ^ 32)); [rewrite u32_small in Hw; lia|unfold KERNBASE; lia]. }
  assert (Hsum : ph_vaddr ph + ph_memsz ph < 2 ^ 32).
  { destruct (Z.lt_ge_cases (ph_vaddr ph + ph_memsz ph) (2 ^ 32)) as [|Hge]; [done|]. exfalso. unfold u32 in Hw.
    rewrite <- (Z.mod_add _ (-1)) in Hw by lia. rewrite Z.mod_small in Hw; lia. }
  rewrite u32_small by lia. apply trip_wp, on_pg_with.
  apply (wp_load_alloc data pg0 F0 pg pgdir e sz (ph_vaddr ph + ph_memsz ph) img); [done|lia|lia| |].
  { intros Hwhy pg1 Hl1. change (0 =? 0) with true. cbv iota. apply Hfail; [by eapply loading_built|done|]. destruct Hwhy; auto 6. }
  intros pg1 e1 Hk Hl1. pose proof (loading_built _ _ _ _ _ _ _ _ Hl1) as Hb1. destruct (Z.eqb_spec (Z.max sz (ph_vaddr ph + ph_memsz ph)) 0) as [Hz|Hz]; [apply Hfail; [done|done|]; right; right; right; left; lia|].
  unfold PGSIZE. destruct (Z.eqb_spec (ph_vaddr ph mod 4096) 0) as [Hal|Hal]; cbn [negb]; [|apply Hfail; by auto].
  assert (Hup : Z.max sz (ph_vaddr ph + ph_memsz ph) <= 4096 * up_vpn (Z.max sz (ph_vaddr ph + ph_memsz ph))).
  { set (y := Z.max _ _). unfold up_vpn. pose proof (Z.div_mod (y + 4095) 4096 ltac:(lia)). pose proof (Z.mod_pos_bound (y + 4095) 4096 ltac:(lia)). lia. }
  apply trip_bind. eapply (trip_loaduvm s pg0 F0 pgdir e1 _ _ _ _ pg1 x1 img); [exact Hl1|done|done|lia|lia|lia| |].
  - intros pg2 x2 img2 Hl2 HJ2 Hsr. change (-1 <? 0) with true. cbv iota. apply Hfail; [by eapply loading_built|done|]. auto 7.
  - intros pg2 x2 img2 Hl2 HJ2 Hfi. change (0 <? 0) with false. cbv iota. apply trip_ret, (Hok _ _ e1 _ img2); [done|done|lia|]. apply (seg_load _ _ _ b); fold ph; try done. lia.
Qed.

Lemma trip_load_segments s pg0 F0 pgdir : forall n e sz off pg x img (Q : option Z -> os P S -> Prop),
  loading data pg0 F0 pg pgdir e (up_vpn sz) img -> J x -> 0 <= sz < KERNBASE -> 0 <= off < 2 ^ 32 ->
  (forall pg' x', built data pg0 F0 pg' pgdir -> J x' -> segs_fail F0 n off sz img -> Q None (with_mem s pg' x')) ->
  (forall pg' x' e' sz' img', loading data pg0 F0 pg' pgdir e' (up_vpn sz') img' -> J x' -> 0 <= sz' < KERNBASE -> segs n off sz img sz' img' -> Q (Some sz') (with_mem s pg' x')) ->
  trip tot (load_segments n ip pgdir sz off) (with_mem s pg x) Q.
Proof.
  induction n as [|n IH]; intros e sz off pg x img Q Hl HJ Hsz Hoff Hbad Hok; cbn [load_segments].
  { apply trip_ret, (Hok _ _ e sz img); try done. constructor. }
  apply trip_bind, (trip_load_segment s pg0 F0 pgdir e sz off pg x img); try done.
  - intros pg1 x1 Hb HJ1 Hf. apply trip_ret, Hbad; [done|done|]. by apply segs_here.
  - intros pg1 x1 e1 sz1 img1 Hl1 HJ1 Hsz1 Hst. apply (IH e1 sz1 _ pg1 x1 img1); try done; [apply u32_range| |].
    + intros pg2 x2 Hb HJ2 Hf. apply Hbad; [done|done|]. by eapply segs_later.
    + intros pg2 x2 e2 sz2 img2 Hl2 HJ2 Hsz2 Hss. apply (Hok _ _ e2 sz2 img2); try done. by eapply segs_cons.
Qed.

(** The size stays below the kernel. *)
Lemma segs_size n off sz img sz' img' : segs n off sz img sz' img' -> 0 <= sz < KERNBASE -> 0 <= sz' < KERNBASE.
Proof.
  induction 1 as [|n off sz img sz1 img1 sz2 img2 Hst _ IH]; [done|]. intros Hsz. apply IH. destruct Hst; [done|]. lia.
Qed.
End load.
