(* ===== verification/ExecRun.v ===== *)
(** [exec] from the system call to its return: a rule for the whole function,
    over what the file system promises ([exec_fs]).

    [exec_image] says which image a file asks for, [exec_fails] why the call
    can fail; with a total [exec_fs] the call returns, and one of the two
    holds.  The last part shows that a sound file system at rest is
    such an [exec_fs]. *)

From S2P Require Import Prelude CString Layout Sleeplock BlockLayer Fs FsBlock FsFile FsRW FsDir File Pipe TxnLayer SysFile FsTree FsRest FileIO.
From S2P Require Import Spinlock LockRep Kalloc Vm VmRep VmUser VmCopy VmOut VmSpace.
From S2P Require Import Proc ProcOps ProcEff Seg ProcMem Exec ExecMem ProcSpace ProcFork ProcLife ProcSteps ExecLoad ExecCommit.

Lemma trip_unbind {S A B} t (m : M S A) (k : A -> M S B) s Q : trip t (m ≫= k) s Q -> trip t m s (fun a s' => trip t (k a) s' Q).
Proof. unfold trip, wp, wlp, mbind, M_bind. destruct t; by destruct (m s). Qed.

Section files.
Context {S : Type} `{!BlockOps S} `{!DevOps S} `{!TxnOps S}.

(** What [exec] needs of the file system: from the state [x0], with [path]
    looked up, the file is locked ([J]) until it is given back ([Jend]), and
    reading it returns what [rd] allows. *)
Record exec_fs (tot : bool) (x0 : fsst S) (path : list Z) (missing : Prop) (J : nat -> fsst S -> Prop) (Jend : fsst S -> Prop)
    (rd : Z -> Z -> Z * list Z -> Prop) : Prop := {
  ef_open : trip tot (on_blk tx_begin;; o ← namei path; match o with None => on_blk tx_end;; mret None | Some ip => ilock ip;; mret (Some ip) end) x0
    (fun o x => match o with None => Jend x /\ missing | Some ip => J ip x end);
  ef_read : forall ip off n x, 0 <= off < 2 ^ 32 -> 0 <= n <= 4096 -> J ip x -> trip tot (readi ip off n) x (fun rb x' => J ip x' /\ rd off n rb);
  ef_close : forall ip x, J ip x -> trip tot (iunlockput ip;; on_blk tx_end) x (fun _ x' => Jend x');
  ef_short : forall off n r b, rd off n (r, b) -> Z.of_nat (length b) <= n
}.
End files.

Section image.
Variables (rd : Z -> Z -> Z * list Z -> Prop) (F : gset Z) (argv : list (list Z)).
Implicit Type img : Z -> Z.

Definition no_image : Z -> Z := fun _ => 0.

(** The program, without the stack. *)
Definition program (b : list Z) (sz : Z) img : Prop :=
  rd 0 ELFHDR_SIZE (ELFHDR_SIZE, b) /\ eh_magic (elf_of b) = ELF_MAGIC /\ segs rd (Z.to_nat (eh_phnum (elf_of b))) (eh_phoff (elf_of b)) 0 no_image sz img.

(** [N] pages of program, the entry point and the image with the stack. *)
Definition exec_image (N entry : Z) img : Prop :=
  exists b sz img0, program b sz img0 /\ N = up_vpn sz /\ entry = eh_entry (elf_of b) /\ (forall x, img x = stack_image N img0 argv x) /\
    4096 * (N + 2) < KERNBASE /\ Z.of_nat (length argv) <= MAXARG /\ 4096 * (N + 1) <= stack_bottom N argv.

Inductive exec_fails (missing : Prop) : Prop :=
| xf_missing : missing -> exec_fails missing
| xf_header r b : rd 0 ELFHDR_SIZE (r, b) -> r <> ELFHDR_SIZE \/ eh_magic (elf_of b) <> ELF_MAGIC -> exec_fails missing
| xf_memory : (size F <= 1025)%nat -> exec_fails missing
| xf_segs b : rd 0 ELFHDR_SIZE (ELFHDR_SIZE, b) -> segs_fail rd F (Z.to_nat (eh_phnum (elf_of b))) (eh_phoff (elf_of b)) 0 no_image -> exec_fails missing
| xf_stack b sz img : program b sz img -> stack_fails F (up_vpn sz) argv -> exec_fails missing.
End image.

Section run.
Context {P S : Type} `{!PageOps P} `{!PageLayer P} `{!BlockOps S} `{!DevOps S} `{!TxnOps S}.
Variables data cpus : Z.
Hypothesis Hdata : data_ok data.
Context {ids : list Z}.
Variables (c : nat) (id : Z).
Hypothesis here : ids !! c = Some id.
Variables (h : nat -> list Z) (b : nat -> bool).
Notation calm := (calm (ids := ids) h b).

(** The call of process [p]: memory [A], of which [L] is lost and [F] free. *)
Variables (k : kern) (pg : P) (cpu : list cpuseg) (idt : list gatedesc) (kp : Z) (io : osfs S).
Variables (A L F : gset Z) (own : nat -> gset Z) (p : nat) (e0 : Z -> Z) (n0 : Z).
Hypothesis Hcalm : calm k.
Hypothesis Hcur : cp k c = Some p.
Hypothesis Hp : (p < NPROC)%nat.
Hypothesis Hused : used (pt k p).
Hypothesis Hcpu : cpus_ok (ids := ids) cpu idt.
Hypothesis Hmem : mem_rep data A L pg (pt k) F own.
Hypothesis Hslot : slot_ok data pg F (pt k p) (own p) e0 n0.
Variables (tot : bool) (path : list Z) (argv : list (list Z)) (missing : Prop).
Variables (J : nat -> fsst S -> Prop) (Jend : fsst S -> Prop) (rd : Z -> Z -> Z * list Z -> Prop).
Hypothesis Hargs : args_size argv <= 2 ^ 25.

(** The file system, with [myproc()] the process [p]. *)
Definition cur_fs : fsst S := (o_fs io) <| fs_pid := p_pid (pt k p) |> <| fs_cwd := default 0%nat (p_cwd (pt k p)) |>.
Hypothesis Hfs : exec_fs tot cur_fs path missing J Jend rd.

(** The call fails: only free pages have changed. *)
Definition exec_none (s' : os P S) : Prop :=
  exists k' pg' x', s' = mk_os k' pg' cpu idt kp (io <| o_fs := x' |>) /\ calm k' /\ k_cproc k' = k_cproc k /\ (forall j, pt k' j = pt k j) /\
    pg_rep pg' F /\ same_except F (pg_mem pg) (pg_mem pg') /\ Jend x' /\ exec_fails rd F argv missing.

(** It succeeds. *)
Definition exec_some (s' : os P S) : Prop :=
  exists pgdir N entry e img x', exec_image rd argv N entry img /\ exec_done data c A L k pg own p path pgdir N entry (stack_bottom N argv) e img s' /\
    calm (os_k s') /\ cpus_ok (ids := ids) (os_cpu s') (os_idt s') /\ k_cproc (os_k s') = k_cproc k /\ (forall j, j <> p -> pt (os_k s') j = pt k j) /\
    os_io s' = io <| o_fs := x' |> /\ Jend x' /\ cr3_set c cpu (os_cpu s') pgdir.

Definition exec_post (r : Z) (s' : os P S) : Prop := r = -1 /\ exec_none s' \/ r = 0 /\ exec_some s'.

(** ** The ways out *)

Section ways_out.
Variable m0 : mach.
Hypothesis Hm0 : mach_rep ids m0 h no_depth b.
Let k0 : kern := k <| k_mach := m0 |>.
Definition at_exec (pg' : P) (x : fsst S) : os P S := mk_os (k <| k_mach := m0 |>) pg' cpu idt kp (io <| o_fs := x |>).

Lemma calm0 : calm k0.
Proof. split; [apply Hcalm|exact Hm0]. Qed.

Lemma trip_fs {B} (m : M (fsst S) B) pg' x (Q : B -> os P S -> Prop) :
  trip tot m x (fun a x' => Q a (at_exec pg' x')) -> trip tot (on_io (on_fs m)) (at_exec pg' x) Q.
Proof. intros H. apply trip_zoom, trip_zoom. exact H. Qed.

Lemma none_at pg' x : pg_rep pg' F -> same_except F (pg_mem pg) (pg_mem pg') -> Jend x -> exec_fails rd F argv missing -> exec_post (-1) (at_exec pg' x).
Proof. intros Hr Hs HJ Hf. left. split; [done|]. exists k0, pg', x. split_and!; try done. apply calm0. Qed.

Lemma trip_unlock ip pg' x (Q : () -> os P S -> Prop) :
  J ip x -> (forall s1, trip tot (on_io o_end_op) s1 (fun _ s' => exists x', Jend x' /\ s' = at_exec pg' x') -> Q () s1) -> trip tot (on_io (on_fs (iunlockput ip))) (at_exec pg' x) Q.
Proof.
  intros HJ HQ. apply trip_fs. eapply trip_conseq; [exact (trip_unbind _ _ _ _ _ (ef_close _ _ _ _ _ _ _ Hfs ip x HJ))|].
  intros [] x1 H1. apply HQ. unfold o_end_op. apply trip_fs. eapply trip_conseq; [exact H1|]. intros [] x2 H2. by exists x2.
Qed.

Lemma trip_bad pgdir ip pg' x : J ip x -> exec_fails rd F argv missing ->
  (pgdir = 0 /\ pg_rep pg' F /\ same_except F (pg_mem pg) (pg_mem pg') \/ pgdir <> 0 /\ built data pg F pg' pgdir) ->
  trip tot (exec_bad pgdir (Some ip)) (at_exec pg' x) exec_post.
Proof.
  intros HJ Hf Hmm. unfold exec_bad. apply trip_bind.
  assert (Hrest : forall pg1, pg_rep pg1 F -> same_except F (pg_mem pg) (pg_mem pg1) ->
    trip tot ((on_io (on_fs (iunlockput ip));; on_io o_end_op);; mret (-1)) (at_exec pg1 x) exec_post).
  { intros pg1 Hr Hs. apply trip_bind, trip_bind, trip_unlock; [done|]. intros s1 H1. eapply trip_conseq; [exact H1|]. intros [] s2 (x' & Hx' & ->). apply trip_ret. by apply none_at. }
  destruct Hmm as [(-> & Hr & Hs)|(Hne & F1 & Y1 & e1 & n1 & Ha & HF & Hs)].
  - rewrite Z.eqb_refl. cbn [negb]. apply trip_ret. by apply Hrest.
  - rewrite (proj2 (Z.eqb_neq _ _) Hne). cbn [negb when]. apply wp_trip, wp_zoom. apply (wp_space_free data pg' F1 pgdir e1 n1 Y1); [done|]. rewrite HF. intros pg2 Hr2 Hs2.
    apply Hrest; [done|]. eapply same_again; [exact Hs|exact Hs2|done].
Qed.

(** The stack and the new image. *)
Lemma wp_exec_run pgdir e bb sz img0 pg' x : Jend x -> pgdir <> 0 -> loading data pg F pg' pgdir e (up_vpn sz) img0 -> 0 <= sz < KERNBASE -> program rd bb sz img0 ->
  wp (exec_run cpus id p path argv pgdir sz (eh_entry (elf_of bb))) (at_exec pg' x) exec_post.
Proof.
  intros HJ Hne Hl Hsz Hpr. unfold exec_run. wp_step. pose proof (up_vpn_bounds sz ltac:(lia)) as Hb. eapply (wp_exec_stack data Hdata pg F (at_exec pg' x) pgdir e sz img0 argv); [exact Hl|done|done| |].
  - intros pg1 (F1 & Y1 & e1 & n1 & Ha & HF & Hs) Hf. unfold exec_bad. rewrite (proj2 (Z.eqb_neq _ _) Hne). cbn [negb when]. wp_step. apply wp_zoom.
    apply (wp_space_free data pg1 F1 pgdir e1 n1 Y1); [done|]. rewrite HF. intros pg2 Hr2 Hs2. wp_step. wp_step. wp_step.
    apply none_at; [done|eapply same_again; [exact Hs|exact Hs2|done]|done|]. by eapply xf_stack.
  - intros pg1 e1 img1 Hfin Hi Hk Hm Hlo.
    assert (Hbd : 0 <= stack_bottom (up_vpn sz) argv < 2 ^ 32).
    { pose proof (args_end_bounds argv (4096 * (up_vpn sz + 2))). unfold stack_bottom, KERNBASE in *. lia. }
    change ((at_exec pg' x) <| os_pg := pg1 |>) with (at_exec pg1 x).
    apply (wp_exec_commit data cpus c id here h b k0 pg pg1 cpu idt kp _ A L F own p e0 n0 path pgdir e1 (up_vpn sz) img1); try done; [apply calm0|lia|apply get32_u8|].
    intros s' Hd Hc Hcp Ecp Hj Hio Hcs. right. split; [done|]. exists pgdir, (up_vpn sz), (eh_entry (elf_of bb)), e1, img1, x. split_and!; try done; [|by destruct Hd].
    exists bb, sz, img0. by split_and!.
Qed.

(** The file is open: its header, its segments, the rest. *)
Lemma trip_exec_file ip x : J ip x ->
  trip tot ('(r, b) ← o_readi ip 0 ELFHDR_SIZE;
    if negb (r =? ELFHDR_SIZE) then exec_bad 0 (Some ip) else
    let elf := elf_of b in
    if negb (eh_magic elf =? ELF_MAGIC) then exec_bad 0 (Some ip) else
    pgdir ← on_pg (setupkvm data);
    if pgdir =? 0 then exec_bad 0 (Some ip) else
    o ← load_segments (Z.to_nat (eh_phnum elf)) ip pgdir 0 (eh_phoff elf);
    match o with
    | None => exec_bad pgdir (Some ip)
    | Some sz =>
        on_io (on_fs (iunlockput ip));;
        on_io o_end_op;;
        exec_run cpus id p path argv pgdir sz (eh_entry elf)
    end) (at_exec pg x) exec_post.
Proof.
  intros HJ. pose proof (mr_pg _ _ _ _ _ _ _ Hmem) as Hrep.
  assert (Hread : forall off n x, 0 <= off < 2 ^ 32 -> 0 <= n <= 4096 -> J ip x -> trip tot (readi ip off n) x (fun rb x' => J ip x' /\ rd off n rb)) by (intros ???; apply (ef_read _ _ _ _ _ _ _ Hfs)).
  assert (Hbad : forall pg' x, J ip x -> exec_fails rd F argv missing -> pg_rep pg' F -> same_except F (pg_mem pg) (pg_mem pg') -> trip tot (exec_bad 0 (Some ip)) (at_exec pg' x) exec_post)
    by (intros pg' x' HJ' Hf Hr Hs; apply trip_bad; auto).
  apply trip_bind. change (at_exec pg x) with (with_mem (mk_os k0 pg cpu idt kp io) pg x). unfold ELFHDR_SIZE.
  apply (trip_readi tot ip (J ip) rd Hread); [done|done|done|]. intros r bb x1 HJ1 Hrd. change (with_mem _ pg x1) with (at_exec pg x1).
  destruct (Z.eqb_spec r 52) as [->|Hr]; cbn [negb]; [|apply Hbad; [done|eapply xf_header; [exact Hrd|by left]|done|apply same_except_refl]].
  destruct (Z.eqb_spec (eh_magic (elf_of bb)) ELF_MAGIC) as [Hmag|Hmag]; cbn [negb]; [|apply Hbad; [done|eapply xf_header; [exact Hrd|by right]|done|apply same_except_refl]].
  apply trip_wp, wp_zoom. apply (wp_space_setup data Hdata pg F); [done| |].
  { intros pg1 Hsz Hr1 Hs1. cbn [Z.eqb]. change (0 =? 0) with true. cbv iota. apply (Hbad pg1 x1); [done|by apply xf_memory|done|done]. }
  intros pgdir pg1 F1 Y1 Hne Ha1 HF1 Hs1. rewrite (proj2 (Z.eqb_neq _ _) Hne). cbv iota.
  assert (Hl1 : loading data pg F pg1 pgdir (kern_pte data) (up_vpn 0) no_image).
  { change (up_vpn 0) with 0. split; [by exists F1, Y1|intros va Hva; lia|done|intros v Hv; lia|done]. }
  apply trip_bind. match goal with |- trip _ _ ?st _ => change st with (with_mem (mk_os k0 pg cpu idt kp io) pg1 x1) end.
  eapply (trip_load_segments data tot ip (J ip) rd Hread (ef_short _ _ _ _ _ _ _ Hfs) _ pg F pgdir); [exact Hl1|done|unfold KERNBASE; lia|apply get32_u8| |].
  - intros pg2 x2 Hb2 HJ2 Hf2. change (with_mem _ pg2 x2) with (at_exec pg2 x2). apply trip_bad; [done|by eapply xf_segs|by right].
  - intros pg2 x2 e2 sz img Hl2 HJ2 Hsz Hsegs. change (with_mem _ pg2 x2) with (at_exec pg2 x2). apply trip_bind, trip_unlock; [done|]. intros s1 H1.
    apply trip_bind. eapply trip_conseq; [exact H1|]. intros [] s2 (x' & Hx' & ->). cbv beta. apply wp_trip. by eapply wp_exec_run.
Qed.
End ways_out.

Lemma trip_exec : trip tot (exec cpus data id path argv) (mk_os k pg cpu idt kp io) exec_post.
Proof.
  unfold exec. apply trip_wp, wp_on_k. eapply wp_curproc; [exact here|apply Hcalm|exact Hcur|]. intros m0 Hm0.
  pose proof (trip_unbind _ _ _ _ _ (ef_open _ _ _ _ _ _ _ Hfs)) as H.
  apply trip_wp. unfold set_cur. wp_step. apply wp_getk. wp_step. apply wp_getk. do 2 apply wp_zoom. wp_step.
  match goal with |- trip _ _ ?st _ => change st with (at_exec m0 pg cur_fs) end.
  apply trip_bind, trip_fs. eapply trip_conseq; [exact H|]. clear H. intros [] x1 H. cbv beta. apply trip_unbind in H.
  apply trip_bind, trip_fs. eapply trip_conseq; [exact H|]. clear H. intros [ip|] x2 H; cbv beta; apply trip_unbind in H.
  - apply trip_bind, trip_fs. eapply trip_conseq; [exact H|]. clear H. intros [] x3 H. cbv beta. apply trip_exec_file; [done|]. destruct tot; exact H.
  - apply trip_bind. unfold o_end_op. apply trip_fs. eapply trip_conseq; [exact H|]. clear H. intros [] x3 H. cbv beta.
    assert (H' : Jend x3 /\ missing) by (by destruct tot). destruct H' as [HJ Hmi]. apply trip_ret. apply none_at; [done|apply (mr_pg _ _ _ _ _ _ _ Hmem)|apply same_except_refl|done|by apply xf_missing].
Qed.
End run.

(** * The file system under [exec]: on a sound file system at rest, [exec_fs] holds
    with total correctness, and what [exec] reads is the contents of the file
    the path leads to. *)

(** [readi] on the bytes of a file. *)
Definition file_read (c : list Z) (off n : Z) : Z * list Z :=
  let size := Z.of_nat (length c) in
  if (off >? size) || (u32 (off + n) <? off) then (-1, [])
  else let k := Z.min n (size - off) in (k, take (Z.to_nat k) (drop (Z.to_nat off) c)).

Definition reads (c : list Z) (off n : Z) (rb : Z * list Z) : Prop := 0 <= n /\ rb = file_read c off n.

Lemma reads_short c off n r b : reads c off n (r, b) -> Z.of_nat (length b) <= n.
Proof.
  unfold reads, file_read. intros [Hn E]. destruct (_ || _); injection E as _ ->; [cbn; lia|]. rewrite length_take. lia.
Qed.

(** Paths lead to the same inode before and after a transaction that leaves the file
    system as it was. *)
Lemma resolve_same sb t t' es : forall n, fs_ok sb t -> same_fs t t' -> FsTree.live sb t n -> resolve sb t' n es = resolve sb t n es.
Proof.
  induction es as [|e es IH]; intros n Hok Hs Hl; [done|]. pose proof (fk_core _ _ Hok) as Hco. pose proof (live_alloc _ _ _ Hl) as Ha. cbn [resolve].
  assert (Hn : 0 <= n < sb_ninodes sb) by (destruct Ha; lia). rewrite (transfer_inode sb t t' Hs Hco n Hn).
  rewrite (kept_entries sb t t' n (transfer_kept sb t t' Hs Hco n Ha) Hco Ha).
  destruct (Z.eqb_spec (di_type (disk_inode sb t n)) T_DIR) as [Hd|]; [|done]. destruct (dir_lookup e (entries_of sb t n)) as [m|] eqn:E; [|done]. cbn.
  apply IH; [done|done|]. eapply lookup_live; [apply Hok|exact Hl|exact Hd|exact E].
Qed.

Lemma wp_fields {S A} (m : M (fsst S) A) x Q : wp m (mk_fsst (fs_blk x) (fs_sb x) (fs_icache x) (fs_pid x) (fs_cwd x)) Q -> wp m x Q.
Proof. by destruct x. Qed.

Section fs.
Context {S : Type} `{!BlockOps S} `{!BlockLayer S} `{!DevOps S} `{!TxnOps S} `{!TxnLayer S}.

(** The file system [x] is sound and at rest, the path can be looked up, and
    it does not lead to a device. *)
Record fs_at (x : fsst S) (v : Z -> list Z) (lo hi : Z) (r : nat -> Z) (path : list Z) : Prop := {
  fa_rest : tx_rest (fs_blk x) v lo hi;
  fa_ok : fs_ok (fs_sb x) (rest_txn v lo hi);
  fa_cache : cache (fs_sb x) (rest_txn v lo hi) (fs_icache x) r None;
  fa_slots : exists p q, p <> q /\ (p < length (fs_icache x))%nat /\ (q < length (fs_icache x))%nat /\ r p = 0 /\ r q = 0;
  fa_cwd : cwd_ok (fs_icache x) r (fs_cwd x) path;
  fa_start : FsTree.live (fs_sb x) (rest_txn v lo hi) (start_inum (fs_icache x) (fs_cwd x) path);
  fa_path : path_ok path;
  fa_dev : forall m, resolve (fs_sb x) (rest_txn v lo hi) (start_inum (fs_icache x) (fs_cwd x) path) (elems path) = Some m -> type_of (fs_sb x) (rest_txn v lo hi) m <> T_DEV
}.

Variables (x0 : fsst S) (v : Z -> list Z) (lo hi : Z) (r : nat -> Z) (path : list Z).
Hypothesis Hfs : fs_at x0 v lo hi r path.
Let sb := fs_sb x0.
Let t := rest_txn v lo hi.

(** The inode the path leads to, and its contents. *)
Definition exec_inode : option Z := resolve (fs_sb x0) (rest_txn v lo hi) (start_inum (fs_icache x0) (fs_cwd x0) path) (elems path).
Definition exec_content : list Z := match exec_inode with Some m => content (fs_sb x0) (rest_txn v lo hi) m | None => [] end.

(** The file is open and locked, in a transaction. *)
Definition fs_open (ip : nat) (x : fsst S) : Prop :=
  exists t1 b ic i m, exec_inode = Some m /\ x = mk_fsst b sb ic (fs_pid x0) (fs_cwd x0) /\ bl_rep b t1 /\ t_held t1 = ∅ /\ (0 < t_cap t1)%nat /\ same_fs t t1 /\
    cache sb t1 ic (bump r ip 1) (Some ip) /\ FsTree.keeps r (fs_icache x0) ic /\ ic !! ip = Some i /\ loaded sb t t1 m i.

(** At rest again: the same files, and the same references to inodes. *)
Definition fs_done (x : fsst S) : Prop :=
  exists b v' ic, x = mk_fsst b sb ic (fs_pid x0) (fs_cwd x0) /\ tx_rest b v' lo hi /\ same_fs t (rest_txn v' lo hi) /\ fs_ok sb (rest_txn v' lo hi) /\
    cache sb (rest_txn v' lo hi) ic r None /\ FsTree.keeps r (fs_icache x0) ic.

Lemma wp_end_rest b t1 ic : bl_rep b t1 -> t_held t1 = ∅ -> (0 < t_cap t1)%nat -> same_fs t t1 -> cache sb t1 ic r None -> FsTree.keeps r (fs_icache x0) ic ->
  wp (on_blk tx_end) (mk_fsst b sb ic (fs_pid x0) (fs_cwd x0)) (fun _ x => fs_done x).
Proof.
  intros Hr Hh Hc Hs Hca Hk. apply wp_zoom. eapply wp_conseq; [by apply (tx_end_spec b t1)|]. intros [] b' (v' & Hv & E).
  destruct Hs as [E1 E2 E3]. cbn in E1, E2. rewrite E1, E2 in Hv.
  assert (Hs1 : same_fs t1 (rest_txn v' lo hi)) by (split; [by rewrite E1|by rewrite E2|]; intros k Hk0 _; by apply E).
  assert (Hs' : same_fs t (rest_txn v' lo hi)) by (etransitivity; [|exact Hs1]; by split).
  exists b', v', ic. split; [done|]. split; [done|]. split; [done|]. pose proof (transfer_ok sb t _ Hs' (fa_ok _ _ _ _ _ _ Hfs)) as Hok'. split; [done|]. split; [|done].
  apply (transfer_cache sb t1); [done|apply (transfer_ok sb t t1); [by split|apply Hfs]|done].
Qed.

Lemma open_file : wp (on_blk tx_begin;; o ← namei path; match o with None => on_blk tx_end;; mret None | Some ip => ilock ip;; mret (Some ip) end) x0
  (fun o x => match o with None => fs_done x /\ exec_inode = None | Some ip => fs_open ip x end).
Proof.
  pose proof Hfs as [Hrest Hok Hca Hsl Hcwd Hst Hpath Hdev]. fold sb t in Hok, Hca, Hst, Hdev. pose proof (fk_core _ _ Hok) as Hco.
  apply wp_fields. fold sb. set (ic0 := fs_icache x0) in *. set (pid := fs_pid x0). set (cwd := fs_cwd x0) in *. set (b0 := fs_blk x0) in *.
  wp_step. apply wp_zoom. eapply wp_conseq; [by apply (tx_begin_spec b0 v lo hi)|].
  intros [] b1 (t1 & R1 & F1). cbv beta. pose proof (fresh_same _ _ _ _ _ F1) as S1. fold t in S1. pose proof (transfer_ok sb t t1 S1 Hok) as Ok1.
  assert (Hh1 : t_held t1 = ∅) by apply (fr_held _ _ _ _ _ F1). assert (Hc1 : (0 < t_cap t1)%nat) by (rewrite (fr_cap _ _ _ _ _ F1); unfold MAXOPBLOCKS; lia).
  assert (Hl1 : FsTree.live sb t1 (start_inum ic0 cwd path)).
  { destruct Hst as (Hn & H1 & H2). unfold FsTree.live. rewrite (transfer_inode sb t t1) by (done || lia). done. }
  assert (Hres : resolve sb t1 (start_inum ic0 cwd path) (elems path) = exec_inode) by (by apply resolve_same).
  wp_step. unfold namei. wp_step. change (set_field (fun _ => b1) _) with (mk_fsst b1 sb ic0 pid cwd).
  eapply wp_conseq; [apply (wp_namex b1 t1 sb ic0 r pid cwd path false (replicate (Z.to_nat DIRSIZ) 0)); try done|].
  { apply (transfer_geom sb t); done. }
  { apply Ok1. }
  { by apply (transfer_cache sb t). }
  { apply Forall_replicate. unfold byte_ok. lia. }
  intros [o nm] s (b2 & ic2 & -> & R2 & K2 & Hm). cbv beta iota. rewrite walk_resolve, Hres in Hm. wp_step. destruct exec_inode as [m|] eqn:Em.
  - destruct Hm as (ip & j & -> & Hj & Ej & C2 & _). cbn [fst]. wp_step.
    assert (Hlm : FsTree.live sb t1 m) by (eapply resolve_live; [apply Ok1|exact Hl1|exact Hres]).
    assert (Ha1 : alloc_inode sb t1 (i_inum j)) by (rewrite Ej; by apply live_alloc). assert (Hrp : 0 < bump r ip 1 ip) by (rewrite bump_same; pose proof (ca_pos _ _ _ _ _ Hca ip); lia).
    eapply (wp_ilock_file b2 t1 t1 sb ic2 (bump r ip 1) pid cwd ip j); [reflexivity|done|done|done|done|done|done|done|].
    intros b3 ic3 i3 R3 C3 K3 I3 L3. wp_step. rewrite Ej in L3. exists t1, b3, ic3, i3, m. split_and!; try done.
    + eapply keeps_trans; [exact K2|]. eapply keeps_mono; [|exact K3]. intros q Hq. unfold bump. case_decide; lia.
    + destruct L3 as [L1 L2 L4 L5 L6 L7 L8 L9 L10 L11 L12]. assert (Et : disk_inode sb t1 m = disk_inode sb t m) by (apply (transfer_inode sb t t1 S1 Hco); lia).
      unfold size_of, addrs_of, type_of in *. rewrite Et in L9, L10, L11. by split.
  - destruct Hm as [-> C2]. cbn [fst]. wp_step. eapply wp_conseq; [apply (wp_end_rest b2 t1 ic2 R2 Hh1 Hc1 S1 C2 K2)|].
    intros [] x Hx. cbv beta. by wp_step.
Qed.

Lemma loaded_content t1 i m : exec_inode = Some m -> same_fs t t1 -> loaded sb t t1 m i ->
  content sb t1 m = exec_content /\ i_size i = Z.of_nat (length exec_content) /\ i_addrs i = addrs_of sb t1 m /\ size_of sb t1 m = i_size i.
Proof.
  intros Em Hs [L1 L2 L3 L4 L5 L6 L7 L8 L9 L10 L11]. pose proof (fk_core _ _ (fa_ok _ _ _ _ _ _ Hfs)) as Hco. fold sb t in Hco.
  assert (Ha : alloc_inode sb t m) by (by apply (transfer_alloc sb t t1)). unfold exec_content. rewrite Em. fold sb t.
  split; [by apply transfer_content|]. rewrite (content_length sb t m Hco Ha). split; [done|]. unfold addrs_of, size_of in *. by rewrite L6.
Qed.

Lemma read_file ip off n x : 0 <= off < 2 ^ 32 -> 0 <= n <= 4096 -> fs_open ip x -> wp (readi ip off n) x (fun rb x' => fs_open ip x' /\ reads exec_content off n rb).
Proof.
  intros Ho Hn (t1 & b & ic & i & m & Em & -> & R1 & Hh & Hc & Hs & Hca & Hk & Hi & Hl). destruct (loaded_content _ _ _ Em Hs Hl) as (Ec & Esz & Ead & Es1).
  pose proof Hl as [L1 L2 L3 L4 L5 L6 L7 L8 L9 L10 L11].
  apply (wp_readi b t1 sb ic (fs_pid x0) (fs_cwd x0) ip i off n); [done|done|apply L4|done|done| |done|lia|].
  { rewrite L10. by apply (fa_dev _ _ _ _ _ _ Hfs). }
  intros b' R'. split; [by exists t1, b', ic, i, m|]. split; [lia|]. unfold readi_result, file_read. rewrite <- Esz.
  destruct ((off >? i_size i) || (u32 (off + n) <? off)) eqn:E; [done|]. apply orb_false_iff in E as [E _]. rewrite Z.gtb_ltb in E. apply Z.ltb_ge in E. f_equal.
  rewrite Ead, content_slice, Ec by lia. done.
Qed.

Lemma close_file ip x : fs_open ip x -> wp (iunlockput ip;; on_blk tx_end) x (fun _ x' => fs_done x').
Proof.
  intros (t1 & b & ic & i & m & Em & -> & R1 & Hh & Hc & Hs & Hca & Hk & Hi & Hl). pose proof Hl as [L1 L2 L3 L4 L5 L6 L7 L8 L9 L10 L11].
  pose proof (fa_ok _ _ _ _ _ _ Hfs) as Hok. fold sb t in Hok.
  assert (Hlm : FsTree.live sb t m) by (eapply resolve_live; [apply Hok|apply Hfs|exact Em]). wp_step. eapply wp_iunlockput; [exact Hca|exact Hi|rewrite L1, L6; apply Hlm|].
  intros ic2 C2 K2. eapply cache_ext in C2; [|apply bump_undo]. eapply (wp_end_rest b t1 ic2); try done.
  eapply keeps_trans; [exact Hk|]. eapply keeps_mono; [|exact K2]. intros q Hq. unfold bump. case_decide; lia.
Qed.

(** The promises [exec] relies on. *)
Lemma exec_fs_at : exec_fs true x0 path (exec_inode = None) fs_open fs_done (reads exec_content).
Proof.
  split; [exact open_file|exact read_file|exact close_file|apply reads_short].
Qed.
End fs.
