(* ===== verification/ProcIso.v ===== *)
(** Isolation: every step of [os_step] keeps [os_inv], so that two processes
    never share a byte of user memory and no user address reaches a page table,
    a kernel stack or a free page.

    The trace of events bounds the pages that are lost: one at most for each
    [fork] that fails. *)

From S2P Require Import Prelude CString Layout Sleeplock BlockLayer Fs File Pipe TxnLayer SysFile.
From S2P Require Import Spinlock LockRep Kalloc Vm VmRep VmUser VmCopy VmOut VmSpace.
From S2P Require Import Proc ProcOps ProcEff Seg ProcMem ProcSpace ProcFork ProcLife ProcSteps.

(** ** Descriptors: an operation of [p] changes [p]'s row only *)

Definition rows_kept (p : nat) (f f' : files) : Prop :=
  length (ofile f') = length (ofile f) /\ forall i, i <> p -> ofile f' !! i = ofile f !! i.

Definition own_row {A} (p : nat) (m : M files A) : Prop := forall f, wlp m f (fun _ f' => rows_kept p f f').

Section rows.
Context {A B : Type} (p : nat).

Lemma row_ret (x : A) : own_row p (mret x).
Proof. intros f. by split. Qed.
Lemma row_bind (m : M files A) (k : A -> M files B) : own_row p m -> (forall a, own_row p (k a)) -> own_row p (m ≫= k).
Proof.
  intros Hm Hk f. apply wlp_bind. eapply wlp_conseq; [apply Hm|]. intros a f1 [L1 R1]. cbv beta.
  eapply wlp_conseq; [apply Hk|]. intros r f2 [L2 R2]. split; [congruence|]. intros i Hi. by rewrite R2, R1.
Qed.
Lemma row_panic msg : own_row p (panic msg : M files A).
Proof. done. Qed.
Lemma row_gets (g : files -> A) : own_row p (gets g).
Proof. done. Qed.
Lemma row_if (x : bool) (m1 m2 : M files A) : own_row p m1 -> own_row p m2 -> own_row p (if x then m1 else m2).
Proof. by destruct x. Qed.
Lemma row_set_file n x : own_row p (set_file n x).
Proof. done. Qed.
Lemma row_set_fd fd v : own_row p (set_fd p fd v).
Proof. intros f. split; cbn; [by rewrite length_insert|]. intros i Hi. by rewrite list_lookup_insert_ne. Qed.
Lemma row_when (x : bool) (m : M files ()) : own_row p m -> own_row p (when x m).
Proof. by destruct x. Qed.
End rows.

Create HintDb rows.
#[export] Hint Resolve row_ret row_panic row_gets row_if row_set_file row_set_fd row_when : rows.

(** Splits a routine into its parts. *)
Ltac own_rows := repeat first
  [ apply row_bind; [|intros ?] | apply row_if | progress eauto 2 with rows
  | match goal with |- own_row _ (match ?x with _ => _ end) => destruct x end ].

Lemma row_fileclose p n : own_row p (fileclose n).
Proof. unfold fileclose, get_file. own_rows. Qed.
Lemma row_filealloc p : own_row p filealloc.
Proof. unfold filealloc, get_file. own_rows. Qed.
Lemma row_filedup p n : own_row p (filedup n).
Proof. unfold filedup, get_file. own_rows. Qed.
Lemma row_fdalloc p n : own_row p (fdalloc p n).
Proof. unfold fdalloc. own_rows. Qed.
#[export] Hint Resolve row_fileclose row_filealloc row_filedup row_fdalloc : rows.

Lemma row_run_op p op : file_op_of p op -> own_row p (run_op op).
Proof.
  destruct op; simpl; intros Hp; try done; subst;
    unfold sys_dup, sys_close, open_file, sys_pipe, pipealloc, fd_lookup, get_fd, get_file; own_rows.
Qed.

(** ** [exit] closes the descriptors *)

Lemma wlp_forM {S A : Type} (I : list A -> S -> Prop) (l : list A) (f : A -> M S ()) s (Q : () -> S -> Prop) :
  I [] s -> (forall pre x post s, l = pre ++ x :: post -> I pre s -> wlp (f x) s (fun _ s' => I (pre ++ [x]) s')) ->
  (forall s', I l s' -> Q () s') -> wlp (forM l f) s Q.
Proof.
  intros H0 Hstep HQ. assert (Hgen : forall post pre s, l = pre ++ post -> I pre s -> wlp (forM post f) s Q).
  { induction post as [|x post IH]; intros pre s' Hl HI; simpl.
    - apply HQ. by rewrite Hl, app_nil_r.
    - apply wlp_bind. eapply wlp_conseq; [by eapply Hstep|]. intros [] s'' HI'. eapply IH; [|exact HI']. by rewrite <- app_assoc. }
  by eapply (Hgen l []).
Qed.

Section exit.
Context {P S : Type} `{!PageOps P} `{!BlockOps S} `{!DevOps S} `{!TxnOps S}.
Implicit Types (s : os P S) (io : osfs S).

Lemma wlp_o_fileclose io n (Q : () -> osfs S -> Prop) :
  wlp (fileclose n) (o_files io) (fun _ f' => forall io', o_files io' = f' -> Q () io') -> wlp (o_fileclose n) io Q.
Proof.
  intros H. unfold o_fileclose. apply wlp_bind, wlp_zoom. eapply wlp_conseq; [exact H|]. intros [x|] f' HQ; cbv beta; [|by apply HQ].
  destruct (f_type x); [by apply HQ| |].
  - unfold o_pipeclose. apply wlp_bind. cbn. destruct (pipeclose _ _) as [[? ?] ?]. by apply HQ.
  - unfold o_begin_op, o_end_op, on_fs. do 2 (apply wlp_bind, wlp_zoom; eapply wlp_conseq; [apply wlp_true|]; intros ? ? _; cbv beta).
    apply wlp_zoom. eapply wlp_conseq; [apply wlp_true|]. intros [] ? _. by apply HQ.
Qed.

(** Everything but files is as in [s]; the first descriptors of [p] are closed. *)
Record closing (p : nat) s (pre : list nat) s' : Prop := {
  cl_rest : exists io, s' = s <| os_io := io |>;
  cl_count : counted no_extra (o_files (os_io s'));
  cl_rows : rows_kept p (o_files (os_io s)) (o_files (os_io s'));
  cl_none : forall fd, fd ∈ pre -> forall t, ofile (o_files (os_io s')) !! p = Some t -> t !! fd = Some None
}.

(** The body of the loop of [exit]. *)
Definition close_fd (p fd : nat) : M (os P S) () :=
  f ← on_io (on_files (get_fd p fd));
  match f with
  | None => mret ()
  | Some f => on_io (o_fileclose f);; on_io (on_files (set_fd p fd None))
  end.

Lemma closed_row (t : list (option nat)) pre fd : (forall i, i ∈ pre -> t !! i = Some None) -> (fd < length t)%nat ->
  forall i, i ∈ pre ++ [fd] -> <[fd := None]> t !! i = Some None.
Proof.
  intros H Hl i. rewrite elem_of_app, list_elem_of_singleton. destruct (decide (i = fd)) as [->|Hne]; [by rewrite list_lookup_insert_eq|].
  intros [Hi|Hi]; [|done]. rewrite list_lookup_insert_ne by done. by apply H.
Qed.

Lemma wlp_close_fd p s s1 pre fd :
  (p < length (ofile (o_files (os_io s))))%nat -> (fd < NOFILE)%nat -> closing p s pre s1 ->
  wlp (close_fd p fd) s1 (fun _ s' => closing p s (pre ++ [fd]) s').
Proof.
  intros Hp Hfd [[io ->] Hc [Hl Hr] Hn]. cbn in Hc, Hl, Hr, Hn. rewrite <- Hl in Hp.
  destruct (lookup_lt_is_Some_2 _ _ Hp) as [t Ht]. pose proof (proj1 (Forall_lookup _ _) (ct_tabs _ _ Hc) _ _ Ht) as Hlen. simpl in Hlen.
  unfold close_fd. apply wlp_bind. unfold on_io at 1. apply wlp_zoom. unfold on_files, get_fd. apply wlp_zoom. cbn [os_io o_files set_field].
  change (wlp _ _ ?Q) with (Q ((ofile (o_files io) !!! p) !!! fd) (o_files io)). cbv beta. rewrite (list_lookup_total_correct _ _ _ Ht).
  destruct (lookup_lt_is_Some_2 t fd) as [[n|] Ho]; [lia| |]; rewrite (list_lookup_total_correct _ _ _ Ho).
  - pose proof (has_fd_refs (o_files io) p fd n (ex_intro _ t (conj Ht Ho))) as Hrf. pose proof (ct_in _ _ Hc _ Hrf) as Hlt.
    apply wlp_bind, wlp_zoom, wlp_o_fileclose, wp_wlp. eapply wp_fileclose; [exact Hc|exact Hlt|cbv beta; change (o_files _) with (o_files io); lia|]. intros c f1 Hc1 Ho1 Hl1 io1 E1.
    apply wlp_zoom, wlp_zoom, wp_wlp. cbn [os_io set_field]. rewrite E1.
    eapply wp_set_fd; [exact Hc1|rewrite Ho1; exact Ht|exact Ho|done|]. intros f2 Hc2 Ho2 _.
    split; cbn [os_io o_files set_field]; [by eexists|eapply counted_ext; [exact Hc2|]; intros ? _; unfold bump, one; repeat case_decide; naive_solver lia| |].
    + split; [by rewrite Ho2, length_insert, Ho1|]. intros i Hi. rewrite Ho2, list_lookup_insert_ne, Ho1 by done. by apply Hr.
    + intros i Hi t' Ht'. rewrite Ho2, list_lookup_insert_eq in Ht' by (by rewrite Ho1). injection Ht' as <-.
      revert i Hi. apply closed_row; [|lia]. intros i Hi. by eapply Hn.
  - split; cbn [os_io o_files set_field]; [by eexists|done|done|]. intros i Hi t' Ht'. rewrite Ht in Ht'. injection Ht' as <-.
    apply elem_of_app in Hi as [Hi| ->%list_elem_of_singleton]; [by eapply Hn|done].
Qed.

Lemma wlp_close_all p s :
  counted no_extra (o_files (os_io s)) -> (p < length (ofile (o_files (os_io s))))%nat ->
  wlp (forM (seq 0 NOFILE) (close_fd p)) s (fun _ s' => closing p s (seq 0 NOFILE) s').
Proof.
  intros Hc Hp. apply (wlp_forM (closing p s)); [|intros pre fd post s1 El H1|done].
  - split; [by exists (os_io s); destruct s|done|by split|]. intros fd Hfd. by apply elem_of_nil in Hfd.
  - apply wlp_close_fd; [done| |done]. assert (Hin : fd ∈ seq 0 NOFILE) by (rewrite El; set_solver). apply elem_of_seq in Hin. lia.
Qed.

Lemma closing_row p s s' t : closing p s (seq 0 NOFILE) s' -> (p < length (ofile (o_files (os_io s))))%nat ->
  ofile (o_files (os_io s')) !! p = Some t -> t = replicate NOFILE None.
Proof.
  intros [_ Hc _ Hn] _ Ht. pose proof (proj1 (Forall_lookup _ _) (ct_tabs _ _ Hc) _ _ Ht) as Hlen. simpl in Hlen.
  apply list_eq. intros i. destruct (decide (i < NOFILE)%nat).
  - rewrite lookup_replicate_2 by done. eapply Hn; [|done]. apply elem_of_seq. lia.
  - rewrite !lookup_ge_None_2; [done|by rewrite length_replicate; lia|lia].
Qed.
End exit.

(** ** Steps keep the invariant *)

Section inv.
Context {P S : Type} `{!PageOps P} `{!PageLayer P} `{!BlockOps S} `{!DevOps S} `{!TxnOps S}.
Variables data cpus forkret_addr trapret_addr : Z.
Hypothesis Hdata : data_ok data.
Hypothesis Haddr : 0 <= forkret_addr < 2 ^ 32 /\ 0 <= trapret_addr < 2 ^ 32.
Context (ids : list Z).
Implicit Types (s : os P S) (pg : P) (F Y L A : gset Z) (k : kern) (f : files) (tab : nat -> proc).
Notation os_inv := (os_inv data ids).
Notation keeps := (keeps data ids).
Notation free h := (forall c', (c' < length ids)%nat -> PTLOCK ∉ h c').

(** What the CPU's counter and the lock say about the locks it holds. *)
Lemma depth_len k c id h b : mach_rep ids (k_mach k) h no_depth b -> ids !! c = Some id -> depth k c = Z.of_nat (length (h c)).
Proof.
  intros Hr Hc. destruct (mr_cpu _ _ _ _ _ Hr c id Hc) as (x & Hx & _ & Hn & _). unfold depth.
  rewrite (list_lookup_total_correct _ _ _ Hx), Hn. f_equal. lia.
Qed.
Lemma depth_nil k c id h b : mach_rep ids (k_mach k) h no_depth b -> ids !! c = Some id -> depth k c = 0 -> h c = [].
Proof. intros Hr Hc. rewrite (depth_len _ _ _ _ _ Hr Hc). destruct (h c); [done|]. cbn. lia. Qed.
Lemma has_lock_in k c id l h b : mach_rep ids (k_mach k) h no_depth b -> ids !! c = Some id -> has_lock k c l <-> l ∈ h c.
Proof. intros Hr Hc. pose proof (lookup_lt_Some _ _ _ Hc) as Hlt. unfold has_lock. rewrite (mr_owner _ _ _ _ _ Hr). split; [by intros [_ H]|by split]. Qed.
Lemma only_pt k c id h b : mach_rep ids (k_mach k) h no_depth b -> ids !! c = Some id -> depth k c = 1 -> has_lock k c PTLOCK -> h c = [PTLOCK].
Proof.
  intros Hr Hc Hd Hl. rewrite (depth_len _ _ _ _ _ Hr Hc) in Hd. apply (has_lock_in _ _ _ _ _ _ Hr Hc) in Hl.
  destruct (h c) as [|l [|]]; cbn in Hd; try lia. by apply list_elem_of_singleton in Hl as ->.
Qed.

(** Only [seginit] and [switchuvm] write the segments of a CPU. *)
Definition cpus_kept {B} (m : M (os P S) B) : Prop := forall s, wlp m s (fun _ s' => os_cpu s' = os_cpu s /\ os_idt s' = os_idt s).

Lemma kept_ret {B} (x : B) : cpus_kept (mret x).
Proof. by intros s. Qed.
Lemma kept_panic {B} msg : cpus_kept (panic msg : M (os P S) B).
Proof. by intros s. Qed.
Lemma kept_bind {B C} (m : M (os P S) B) (g : B -> M (os P S) C) : cpus_kept m -> (forall a, cpus_kept (g a)) -> cpus_kept (m ≫= g).
Proof.
  intros Hm Hk s. apply wlp_bind. eapply wlp_conseq; [apply Hm|]. intros a s1 [E1 E2]. cbv beta. rewrite <- E1, <- E2. apply Hk.
Qed.
Lemma kept_on_k {B} (m : M kern B) : cpus_kept (on_k m).
Proof. intros s. apply wlp_zoom. eapply wlp_conseq; [apply wlp_true|done]. Qed.
Lemma kept_on_pg {B} (m : M P B) : cpus_kept (on_pg m).
Proof. intros s. apply wlp_zoom. eapply wlp_conseq; [apply wlp_true|done]. Qed.
Lemma kept_on_io {B} (m : M (osfs S) B) : cpus_kept (on_io m).
Proof. intros s. apply wlp_zoom. eapply wlp_conseq; [apply wlp_true|done]. Qed.
#[local] Hint Resolve kept_ret kept_panic kept_on_k kept_on_pg kept_on_io : rows.

Ltac cpus_keep := repeat first
  [ progress eauto 2 with rows | apply kept_bind; [|intros ?] | match goal with |- cpus_kept (match ?x with _ => _ end) => destruct x end ].

Lemma kept_fork id : cpus_kept (fork data forkret_addr trapret_addr id).
Proof. unfold fork, allocproc. cpus_keep. Qed.
Lemma kept_wait id : cpus_kept (wait id).
Proof. unfold wait, wait_turn, wait_reap. cpus_keep. Qed.

(** A process that executes has the pages its size says. *)
Lemma user_pages A L s c p F own :
  mem_rep data A L (os_pg s) (pt (os_k s)) F own -> used (pt (os_k s) p) -> cr3 s c = V2P (p_pgdir (pt (os_k s) p)) -> in_user s c ->
  exists e, slot_ok data (os_pg s) F (pt (os_k s) p) (own p) e (up_vpn (p_sz (pt (os_k s) p))).
Proof.
  intros Hm Hu Hcr (va & Hva & a & Ha). destruct (mr_slot _ _ _ _ _ _ _ Hm p Hu) as (e & n & Hs). exists e.
  destruct (sl_n _ _ _ _ _ _ _ Hs) as [<-| ->]; [done|]. exfalso.
  destruct (sl_space _ _ _ _ _ _ _ Hs) as (Ya & Hasp & _). destruct (aspace_dir _ _ _ _ _ _ _ Hasp) as [_ Hpg]. destruct (V2P_page pg_end pg_end_ok _ Hpg) as (_ & EV & _).
  rewrite Hcr, EV in Ha. destruct Hasp as (He & T & Huv & _). unfold KERNBASE in Hva.
  rewrite (hw_translate_spec _ _ _ _ _ _ Huv) in Ha by lia. rewrite (eo_out _ _ _ He) in Ha; [done|].
  unfold UPAGES. split; [apply Z.div_pos; lia|apply Z.div_lt_upper_bound; lia].
Qed.

Lemma open_files f tab : open_ok f tab -> files_ok f tab.
Proof. intros [H1 H2 H3]. split; [done|done|]. intros i Hi Hn. apply H3; [done|]. intros [Hx _]. by apply Hn. Qed.

Lemma open_table f tab tab' : open_ok f tab -> (forall i, ~ live (tab' i) -> ~ live (tab i)) -> open_ok f tab'.
Proof. intros [H1 H2 H3] H. split; [done|done|]. intros i Hi Hn. apply H3; [done|by apply H]. Qed.

Lemma kept_live x y : kept_slot x y -> (live x <-> live y) /\ (live x -> y = x).
Proof.
  intros [Hu E]. split; [|intros [Hx _]; by apply E]. split; intros [Hx Hz].
  - by rewrite (E Hx).
  - assert (Hux : used x) by (by apply Hu). by rewrite <- (E Hux).
Qed.

(** The pages a step may lose. *)
Definition may_lose (ev : event) : nat := match ev with EFork _ r => if r =? -1 then 1%nat else 0%nat | _ => 0%nat end.

Lemma fork_failed_inv A L s s' F own h b :
  os_inv A L s -> mem_rep data A L (os_pg s) (pt (os_k s)) F own -> fork_failed (ids := ids) data h b A L (os_k s) own s' -> os_io s' = os_io s ->
  same_except F (pg_mem (os_pg s)) (pg_mem (os_pg s')) ->
  os_cpu s' = os_cpu s /\ os_idt s' = os_idt s -> exists X, keeps A (L ∪ X) (fun _ => False) s s' /\ (size X <= 1)%nat.
Proof.
  intros Hi Hm0 (Hc & Ecp & Hk & F' & X & Hm & HX) Hio Hsm [E1 E2]. exists X. split; [|destruct HX as [->|[q ->]]; rewrite ?size_empty, ?size_singleton; lia].
  assert (Hl : forall i, (live (pt (os_k s) i) <-> live (pt (os_k s') i)) /\ (live (pt (os_k s) i) -> pt (os_k s') i = pt (os_k s) i)).
  { intros i. apply kept_live, Hk. }
  split.
  2: { intros q Hq _. eapply kept_intro; [exact Hm0|done|rewrite (proj2 (Hl q) Hq); apply same_life_refl|]. eapply own_same; [exact Hm0|exact Hsm|apply (mr_free _ _ _ _ _ _ _ Hm0)]. }
  split; [by eauto|apply Hc| | |rewrite E1, E2; apply Hi|].
  - rewrite Hio. eapply open_table; [apply Hi|]. intros i. by rewrite (proj1 (Hl i)).
  - intros i Hli. destruct (Hl i) as [Hlv He]. rewrite <- Hlv in Hli. rewrite (He Hli). by apply Hi.
  - rewrite E1. eapply sched_keep; [apply Hi|done|by exists h, b; apply Hc|intros j; apply kept_same_mem, Hk|].
    intros j Hj. by rewrite (proj2 (Hk j) (running_used _ _ Hj)).
Qed.

Lemma fork_done_inv A L s s' F own p e np h b :
  os_inv A L s -> live (pt (os_k s) p) ->
  fork_done data forkret_addr trapret_addr (ids := ids) h b A L (os_k s) (os_pg s) (os_io s) F own p e np s' ->
  os_cpu s' = os_cpu s /\ os_idt s' = os_idt s -> mem_rep data A L (os_pg s) (pt (os_k s)) F own -> keeps A L (fun _ => False) s s'.
Proof.
  intros Hi Hlp [[Hc Ecp] [Hnp Hun] (kst & pgd & Ht) (F' & own' & ed & Hm & _) Hsm _ _ (f' & cwd & Ecwd & Eio & Hcnt & Eo)] [E1 E2] Hm0. split.
  2: { intros q Hq _. eapply kept_intro; [exact Hm0|done| |eapply own_same; [exact Hm0|exact Hsm|apply (mr_free _ _ _ _ _ _ _ Hm0)]]. rewrite Ht, updn_ne; [apply same_life_refl|]. intros ->. by destruct Hq. }
  split; [by eauto|apply Hc| | |rewrite E1, E2; apply Hi|].
  - rewrite Eio. destruct (oi_files _ _ _ _ _ Hi) as [O1 O2 O3]. split; cbn; [done|by rewrite Eo, length_insert|].
    intros i Hlt Hn. rewrite Ht in Hn. destruct (decide (i = np)) as [->|Hne].
    + exfalso. apply Hn. rewrite updn_eq. by split.
    + rewrite updn_ne in Hn by done. rewrite Eo, list_lookup_insert_ne by done. by apply O3.
  - intros i. rewrite Ht. unfold updn. case_decide; [|apply Hi]. intros _. by exists cwd.
  - rewrite E1. destruct (oi_sched _ _ _ _ _ Hi) as [S1 S2 S3 S4]. unfold cp in *. split; [by exists h, b; apply Hc|by rewrite Ecp| |unfold cp; by rewrite Ecp].
    intros c q. unfold cp. rewrite Ecp. intros Hq. destruct (S3 c q Hq) as [Hst Hcr]. rewrite Ht, updn_ne; [done|]. intros ->. congruence.
Qed.

(** A call that returns has found the lock free. *)
Lemma acquired_free k c id h b : ids !! c = Some id -> mach_rep ids (k_mach k) h no_depth b -> PTLOCK ∉ h c ->
  wlp (kacquire id PTLOCK) k (fun _ _ => free h).
Proof. intros Hc Hr Hn. apply safe_wlp. eapply safe_kacquire; [exact Hc|exact Hr|done|]. by intros m' Hf _. Qed.

Lemma fork_free s c id p h b : ids !! c = Some id -> mach_rep ids (k_mach (os_k s)) h no_depth b -> h c = [] -> cp (os_k s) c = Some p ->
  wlp (fork data forkret_addr trapret_addr id) s (fun _ _ => free h).
Proof.
  intros Hc Hr Hh Hcp. unfold fork. apply wlp_bind, wlp_zoom, wp_wlp. eapply wp_curproc; [exact Hc|exact Hr|exact Hcp|]. intros m0 Hm0. cbv beta.
  unfold allocproc. do 2 (apply wlp_bind). apply wlp_zoom. unfold alloc_slot. apply wlp_bind.
  eapply wlp_conseq; [apply (acquired_free _ c id h b); [exact Hc|exact Hm0|rewrite Hh; set_solver]|]. intros [] k1 Hf. cbv beta in Hf |- *.
  do 3 (eapply wlp_conseq; [apply wlp_true|intros ? ? _; cbv beta]). done.
Qed.

(** What [fork] leaves. *)
Lemma fork_keeps A L s c id p F own e h b :
  os_inv A L s -> ids !! c = Some id -> cp (os_k s) c = Some p -> mach_rep ids (k_mach (os_k s)) h no_depth b -> free h ->
  mem_rep data A L (os_pg s) (pt (os_k s)) F own -> slot_ok data (os_pg s) F (pt (os_k s) p) (own p) e (up_vpn (p_sz (pt (os_k s) p))) ->
  exists r s' X, fork data forkret_addr trapret_addr id s = Ok r s' /\ keeps A (L ∪ X) (fun _ => False) s s' /\
    ((exists np, fork_done data forkret_addr trapret_addr (ids := ids) h b A L (os_k s) (os_pg s) (os_io s) F own p e np s' /\ r = k_nextpid (os_k s) /\ X = ∅) \/
     r = -1 /\ fork_short (os_k s) F p /\ (size X <= 1)%nat).
Proof.
  intros Hi Hid Hcur Hrep Hf Hm Hs. destruct (run_lt _ _ _ _ _ _ _ Hi Hcur) as (Hp & _ & Hu & Hlv & Hcr). destruct (oi_cwd _ _ _ _ _ Hi p Hlv) as [cwd Hcwd].
  assert (W : wp (fork data forkret_addr trapret_addr id) s (fun r s' => (os_cpu s' = os_cpu s /\ os_idt s' = os_idt s) ->
    exists X, keeps A (L ∪ X) (fun _ => False) s s' /\
    ((exists np, fork_done data forkret_addr trapret_addr (ids := ids) h b A L (os_k s) (os_pg s) (os_io s) F own p e np s' /\ r = k_nextpid (os_k s) /\ X = ∅) \/
     r = -1 /\ fork_short (os_k s) F p /\ (size X <= 1)%nat))).
  { destruct s as [k pg cpu idt kp io]. cbn [os_k os_pg os_cpu os_idt os_io] in *.
    eapply (wp_fork data forkret_addr trapret_addr Hdata Haddr c id Hid h b Hf k pg cpu idt kp io A L F own p e cwd); try done.
    - split; [apply (oi_len _ _ _ _ _ Hi)|done].
    - apply open_files, (oi_files _ _ _ _ _ Hi).
    - intros s1 Hsh Hfail Hio Hsm Hcpu. destruct (fork_failed_inv A L _ s1 F own h b Hi Hm Hfail Hio Hsm Hcpu) as (X & HX & Hsz). exists X. eauto 6.
    - intros np s1 Hd' Hcpu. exists ∅. rewrite (right_id_L ∅ (∪)).
      split; [eapply (fork_done_inv A L (mk_os k pg cpu idt kp io)); [exact Hi|exact Hlv|exact Hd'|exact Hcpu|exact Hm]|left; by exists np]. }
  apply wp_elim in W as (r & s' & E & W). destruct (W (wlp_ok _ _ _ _ _ (kept_fork id s) E)) as (X & HX & Hr). by exists r, s', X.
Qed.

Lemma inv_fork A L s c id p r s' :
  os_inv A L s -> ids !! c = Some id -> cp (os_k s) c = Some p -> depth (os_k s) c = 0 -> in_user s c ->
  fork data forkret_addr trapret_addr id s = Ok r s' -> exists X, keeps A (L ∪ X) (fun _ => False) s s' /\ (size X <= may_lose (EFork p r))%nat.
Proof.
  intros Hi Hid Hcur Hd Hus E. destruct (run_lt _ _ _ _ _ _ _ Hi Hcur) as (Hp & _ & Hu & Hlv & Hcr). destruct (oi_mem _ _ _ _ _ Hi) as (F & own & Hm).
  destruct (user_pages _ _ _ _ _ _ _ Hm Hu Hcr Hus) as [e Hs].
  destruct (so_rep _ _ _ (oi_sched _ _ _ _ _ Hi)) as (h & b & Hrep). pose proof (depth_nil _ _ _ _ _ Hrep Hid Hd) as Hh.
  pose proof (wlp_ok _ _ _ _ _ (fork_free s c id p h b Hid Hrep Hh Hcur) E) as Hf. cbv beta in Hf.
  destruct (fork_keeps A L s c id p F own e h b Hi Hid Hcur Hrep Hf Hm Hs) as (r' & s1 & X & E' & HX & Hr). rewrite E in E'. injection E' as <- <-.
  exists X. split; [done|]. unfold may_lose. destruct Hr as [(np & _ & -> & ->)|(-> & _ & Hsz)]; [rewrite size_empty; lia|done].
Qed.

(** [growproc] changes the size of [p] only. *)
Lemma grow_inv A L s s' c p F own e n r h b :
  os_inv A L s -> cp (os_k s) c = Some p -> grow_post data c A L (os_k s) (os_pg s) F own p e n r s' ->
  calm (ids := ids) h b (os_k s') -> cpus_ok (ids := ids) (os_cpu s') (os_idt s') -> k_cproc (os_k s') = k_cproc (os_k s) ->
  (forall j, j <> p -> pt (os_k s') j = pt (os_k s) j) -> os_io s' = os_io s -> cr3_set c (os_cpu s) (os_cpu s') (p_pgdir (pt (os_k s) p)) ->
  mem_rep data A L (os_pg s) (pt (os_k s)) F own -> keeps A L (eq p) s s'.
Proof.
  intros Hi Hcur Hg Hc Hcpu Ecp Hj Eio Hcr Hm0. destruct (run_lt _ _ _ _ _ _ _ Hi Hcur) as (Hp & Hst & _).
  assert (Hpt : exists sz, pt (os_k s') p = (pt (os_k s) p) <| p_sz := sz |>).
  { destruct Hg as [(_ & -> & _)|(_ & -> & _)]; [by eexists|exists (p_sz (pt (os_k s) p)); by destruct (pt (os_k s) p)]. }
  destruct Hpt as [sz Hsz].
  assert (Hall : forall j, p_state (pt (os_k s') j) = p_state (pt (os_k s) j) /\ p_cwd (pt (os_k s') j) = p_cwd (pt (os_k s) j) /\
    p_pgdir (pt (os_k s') j) = p_pgdir (pt (os_k s) j)).
  { intros j. destruct (decide (j = p)) as [->|Hne]; [by rewrite Hsz|by rewrite Hj]. }
  assert (Hlv : forall j, live (pt (os_k s') j) <-> live (pt (os_k s) j)).
  { intros j. unfold live. by rewrite (proj1 (Hall j)). }
  split.
  2: { intros q Hq Hne. eapply kept_intro; [exact Hm0|done|rewrite Hj by congruence; apply same_life_refl|]. assert (Hqp : q <> p) by congruence.
    destruct Hg as [(_ & _ & _ & e' & (F' & own' & _ & Ho & _) & _)|(_ & _ & [((F' & own' & _ & Ho & _) & _)|(_ & _ & e' & F' & own' & _ & Ho & _)])]; apply (Ho q Hqp). }
  split; [|apply Hc| | |done|].
  - destruct Hg as [(_ & _ & _ & e' & (F' & own' & Hm & _) & _)|(_ & _ & [((F' & own' & Hm & _) & _)|(_ & _ & e' & F' & own' & Hm & _)])]; eauto.
  - rewrite Eio. eapply open_table; [apply Hi|]. intros j. by rewrite Hlv.
  - intros j Hl. destruct (Hall j) as (_ & -> & _). apply Hi. by apply Hlv.
  - destruct (oi_sched _ _ _ _ _ Hi) as [S1 S2 S3 S4]. split; [by exists h, b; apply Hc|by rewrite Ecp| |unfold cp in *; by rewrite Ecp].
    intros c' q. unfold cp. rewrite Ecp. intros Hq. destruct (S3 c' q Hq) as [Hsq Hcq]. destruct (Hall q) as (-> & _ & ->). split; [done|].
    destruct (Hcr c') as [->|[-> ->]]; [done|]. assert (q = p) as -> by (unfold cp in Hcur; rewrite Hq in Hcur; congruence). done.
Qed.

Lemma grow_keeps A L s c id p F own e n :
  os_inv A L s -> ids !! c = Some id -> cp (os_k s) c = Some p -> - 2 ^ 31 <= n < 2 ^ 31 ->
  mem_rep data A L (os_pg s) (pt (os_k s)) F own -> slot_ok data (os_pg s) F (pt (os_k s) p) (own p) e (up_vpn (p_sz (pt (os_k s) p))) ->
  exists r s', growproc cpus id n s = Ok r s' /\ keeps A L (eq p) s s' /\ grow_post data c A L (os_k s) (os_pg s) F own p e n r s'.
Proof.
  intros Hi Hid Hcur Hn Hm Hs. destruct (run_lt _ _ _ _ _ _ _ Hi Hcur) as (Hp & _ & Hu & Hlv & Hcr). destruct (so_rep _ _ _ (oi_sched _ _ _ _ _ Hi)) as (h & b & Hrep).
  enough (W : wp (growproc cpus id n) s (fun r s' => keeps A L (eq p) s s' /\ grow_post data c A L (os_k s) (os_pg s) F own p e n r s')).
  { apply wp_elim in W as (r & s' & E & W). by exists r, s'. }
  destruct s as [k pg cpu idt kp io]. cbn [os_k os_pg os_cpu os_idt os_io] in *.
  eapply (wp_growproc data cpus c id Hid h b k pg cpu idt kp io A L F own p e n); try done; [split; [apply Hi|done]|apply Hi|].
  intros r' s1 Hg Hc Hcpu Ecp Hj Eio Hcs. split; [|done]. by eapply (grow_inv A L (mk_os k pg cpu idt kp io) s1 c p F own e n r' h b).
Qed.

Lemma inv_grow A L s c id p n r s' :
  os_inv A L s -> ids !! c = Some id -> cp (os_k s) c = Some p -> depth (os_k s) c = 0 -> in_user s c -> - 2 ^ 31 <= n < 2 ^ 31 ->
  growproc cpus id n s = Ok r s' -> keeps A L (eq p) s s'.
Proof.
  intros Hi Hid Hcur Hd Hus Hn E. destruct (run_lt _ _ _ _ _ _ _ Hi Hcur) as (Hp & _ & Hu & Hlv & Hcr). destruct (oi_mem _ _ _ _ _ Hi) as (F & own & Hm).
  destruct (user_pages _ _ _ _ _ _ _ Hm Hu Hcr Hus) as [e Hs].
  destruct (grow_keeps A L s c id p F own e n Hi Hid Hcur Hn Hm Hs) as (r' & s1 & E' & Hk & _). rewrite E in E'. by injection E' as <- <-.
Qed.

(** ** Back to the scheduler *)

Lemma mycpu_read id m c m' : mycpu id m = Ok c m' -> m' = m /\ find_idx (fun x => c_apicid x =? id) (m_cpus m) = Some c.
Proof.
  unfold mycpu, mbind, M_bind, readeflags, gets. destruct (m_if m id); [done|]. destruct (find_idx _ (m_cpus m)); [|done]. by intros [= <- <-].
Qed.

(** [scheduler_leave] is [scheduler_back] with the kernel's page table. *)
Lemma leave_spec s id i s' : scheduler_leave id s = Ok i s' ->
  scheduler_back id (os_k s) = Ok i (os_k s') /\ forall c h b, ids !! c = Some id -> mach_rep ids (k_mach (os_k s')) h no_depth b ->
    s' = mk_os (os_k s') (os_pg s) (<[c := (os_cpu s !!! c) <| s_cr3 := V2P (os_kpgdir s) |>]> (os_cpu s)) (os_idt s) (os_kpgdir s) (os_io s).
Proof.
  destruct s as [k pg cpu idt kp io]. unfold scheduler_leave, scheduler_back, on_k, on_seg, onm, zoom, mbind, M_bind. cbn [os_k].
  destruct (mycpu id (k_mach k)) as [c' m'| |] eqn:E; [|done..]. apply mycpu_read in E as [-> Ef]. cbn. intros [= <- <-]. split; [done|].
  intros c h b Hc Hr. cbn in Hr. rewrite (mr_find _ _ _ _ _ _ Hr Hc) in Ef. by injection Ef as <-.
Qed.

Lemma switch_leave s id m i s' : (on_k m;; scheduler_leave id) s = Ok i s' ->
  switch id m (os_k s) = Ok i (os_k s') /\ forall c h b, ids !! c = Some id -> mach_rep ids (k_mach (os_k s')) h no_depth b ->
    s' = mk_os (os_k s') (os_pg s) (<[c := (os_cpu s !!! c) <| s_cr3 := V2P (os_kpgdir s) |>]> (os_cpu s)) (os_idt s) (os_kpgdir s) (os_io s).
Proof.
  unfold switch, on_k at 1, zoom, mbind, M_bind. destruct (m (os_k s)) as [[] k1| |] eqn:E; [|done..]. intros H. by destruct (leave_spec _ _ _ _ H).
Qed.

Lemma cpus_leave A L s c p kp : os_inv A L s -> cp (os_k s) c = Some p ->
  cpus_ok (ids := ids) (<[c := (os_cpu s !!! c) <| s_cr3 := kp |>]> (os_cpu s)) (os_idt s).
Proof.
  intros Hi Hcp. destruct (oi_cpu _ _ _ _ _ Hi) as [[O1 O2 O3] Hlen]. split; [|by rewrite length_insert]. split; [|done|done]. cbn in *.
  apply Forall_insert; [done|]. destruct (decide (c < length (os_cpu s))%nat) as [Hlt|Hge].
  - apply lookup_lt_is_Some in Hlt as [x Hx]. rewrite (list_lookup_total_correct _ _ _ Hx). pose proof (proj1 (Forall_lookup _ _) O1 _ _ Hx) as Hok. by destruct Hok.
  - exfalso. unfold cp in Hcp. rewrite list_lookup_total_alt, lookup_ge_None_2 in Hcp; [done|]. rewrite (so_len _ _ _ (oi_sched _ _ _ _ _ Hi)). lia.
Qed.

(** The states in which a CPU has left its process: the table kept, [p] not
    running. *)
Lemma left_inv A L s c p k' :
  os_inv A L s -> cp (os_k s) c = Some p -> length (k_ptab k') = NPROC -> (forall j, same_life (pt (os_k s) j) (pt k' j)) ->
  k_cproc k' = <[c := None]> (k_cproc (os_k s)) -> (exists h b, mach_rep ids (k_mach k') h no_depth b) ->
  (forall j, j <> p -> p_state (pt (os_k s) j) = RUNNING -> p_state (pt k' j) = RUNNING) ->
  keeps A L (fun _ => False) s (mk_os k' (os_pg s) (<[c := (os_cpu s !!! c) <| s_cr3 := V2P (os_kpgdir s) |>]> (os_cpu s)) (os_idt s) (os_kpgdir s) (os_io s)).
Proof.
  intros Hi Hcp Hl Hj Ec Hr Hrun. apply life_inv; [done|done|done|by eapply cpus_leave|].
  eapply sched_left; [apply Hi|done|done|done| |done]. intros j. apply Hj.
Qed.

Lemma inv_switch A L s c id p m i s' :
  os_inv A L s -> ids !! c = Some id -> cp (os_k s) c = Some p -> switch_call (os_k s) c id m ->
  (on_k m;; scheduler_leave id) s = Ok i s' -> keeps A L (fun _ => False) s s'.
Proof.
  intros Hi Hid Hcur Hsw E. destruct (run_lt _ _ _ _ _ _ _ Hi Hcur) as (Hp & Hst & Hu & Hlv & Hcr).
  destruct (so_rep _ _ _ (oi_sched _ _ _ _ _ Hi)) as (h & b & Hrep). apply switch_leave in E as [E Hs'].
  assert (Hpost : forall y m' (tab : list proc) hh, live y -> same_life (pt (os_k s) p) y -> mach_rep ids m' hh no_depth b -> length tab = NPROC ->
    (forall j, tab !!! j = updn (pt (os_k s)) p y j) -> os_k s' = kset (os_k s) m' tab (<[c := None]> (k_cproc (os_k s))) -> keeps A L (fun _ => False) s s').
  { intros y m' tab hh Hy Hsl Hm Ht Hj Ek. rewrite (Hs' c hh b); [|done|by rewrite Ek]. rewrite Ek. apply (left_inv A L s c p); try done.
    - intros j. rewrite pt_kset, Hj. by apply upd_life.
    - by exists hh, b.
    - intros j Hne. by rewrite pt_kset, Hj, updn_ne. }
  destruct Hsw as [Hd|ch lk Hd Hl].
  - assert (W : safe (switch id (yield id)) (os_k s) (fun _ k' => os_k s' = k' -> keeps A L (fun _ => False) s s')).
    { eapply (safe_yield c id Hid); [apply Hi|exact Hp|exact Hrep|by eapply depth_nil|exact Hcur|]. intros m' tab Hf Hm Ht Hj Ek.
      eapply Hpost; [| |exact Hm|exact Ht|exact Hj|exact Ek]; [done|by apply state_life]. }
    by apply (safe_ok _ _ _ _ _ W E).
  - assert (W : wp (switch id (sleep_sched id ch lk)) (os_k s) (fun _ k' => os_k s' = k' -> keeps A L (fun _ => False) s s')).
    { eapply (wp_sleep_sched c id Hid); [apply Hi|exact Hp|exact Hrep|by eapply only_pt|exact Hcur|]. intros m' tab Hm Ht Hj Ek.
      eapply Hpost; [| |exact Hm|exact Ht|exact Hj|exact Ek]; [done|by apply state_life]. }
    unfold wp in W. rewrite E in W. by apply W.
Qed.

(** The CPU holds [ptable.lock] and nothing else: without it, it is free. *)
Lemma pt_only_free k c id h b : mach_rep ids (k_mach k) h no_depth b -> ids !! c = Some id -> h c = [PTLOCK] ->
  free (updn h c []) /\ mach_rep ids (k_mach k) (updn (updn h c []) c (PTLOCK :: updn h c [] c)) no_depth b.
Proof.
  intros Hr Hc Hh. pose proof (lookup_lt_Some _ _ _ Hc) as Hlt. split.
  - intros c' Hc'. unfold updn. case_decide as E; [set_solver|]. intros Hin. apply E.
    apply (mr_excl _ _ _ _ PTLOCK _ _ Hr); [done|done|done|rewrite Hh; set_solver].
  - eapply mach_rep_ext; [exact Hr|]. intros c' _. split; [|done]. unfold updn. case_decide as E; [|done]. subst c'. by rewrite decide_True, Hh.
Qed.

(** What [wait] leaves when it sleeps. *)
Definition waiting s c p b s1 : Prop := exists k' h, s1 = s <| os_k := k' |> /\ length (k_ptab k') = NPROC /\ k_cproc k' = k_cproc (os_k s) /\
  (forall j, pt k' j = updn (pt (os_k s)) p (slept (pt (os_k s) p) (CProc p) (b c) PTLOCK) j) /\ mach_rep ids (k_mach k') h no_depth b /\ h c = [PTLOCK].

Lemma reap_inv A L s k' pg' z F own h b :
  os_inv A L s -> calm (ids := ids) h b k' -> k_cproc k' = k_cproc (os_k s) -> p_state (pt (os_k s) z) = ZOMBIE ->
  (forall j, pt k' j = updn (pt (os_k s)) z (reaped (pt (os_k s) z)) j) -> mem_rep data A L pg' (pt k') (F ∪ own z) (updn own z ∅) ->
  mem_rep data A L (os_pg s) (pt (os_k s)) F own -> same_except (F ∪ own z) (pg_mem (os_pg s)) (pg_mem pg') ->
  keeps A L (fun _ => False) s (mk_os k' pg' (os_cpu s) (os_idt s) (os_kpgdir s) (os_io s)).
Proof.
  intros Hi Hc Ecp Hz Hj Hm Hm0 Hsm.
  assert (Hlv : forall j, live (pt k' j) -> live (pt (os_k s) j) /\ pt k' j = pt (os_k s) j).
  { intros j. rewrite Hj. unfold updn. case_decide; [by intros [? _]|done]. }
  assert (Hnl : forall j, ~ live (pt k' j) -> ~ live (pt (os_k s) j)).
  { intros j. rewrite Hj. unfold updn. case_decide; [subst j; intros _ [_ Hx]; congruence|done]. }
  split.
  2: { intros q Hq _. assert (Hne : q <> z) by (intros ->; by destruct Hq). eapply kept_intro; [exact Hm0|done|rewrite Hj, updn_ne by done; apply same_life_refl|].
    eapply own_same; [exact Hm0|exact Hsm|]. pose proof (mr_apart _ _ _ _ _ _ _ Hm0 q z Hne) as H1. pose proof (mr_free _ _ _ _ _ _ _ Hm0 q) as H2. clear -H1 H2. set_solver. }
  split; cbn; [by eauto|apply Hc| | |apply Hi|].
  - by eapply open_table; [apply Hi|].
  - intros j Hl. destruct (Hlv j Hl) as [Hl' ->]. by apply Hi.
  - destruct (oi_sched _ _ _ _ _ Hi) as [S1 S2 S3 S4]. split; [by exists h, b; apply Hc|by rewrite Ecp| |unfold cp in *; by rewrite Ecp].
    intros c q. unfold cp. rewrite Ecp. intros Hq. destruct (S3 c q Hq) as [Hst Hcr]. rewrite Hj, updn_ne; [done|]. intros ->. congruence.
Qed.

Lemma wait_body A L s c id p (first : bool) o s1 :
  os_inv A L s -> ids !! c = Some id -> cp (os_k s) c = Some p ->
  (if first then depth (os_k s) c = 0 else depth (os_k s) c = 1 /\ has_lock (os_k s) c PTLOCK) ->
  (if first then wait id else wait_turn id) s = Ok o s1 -> 
  match o with Some _ => keeps A L (fun _ => False) s s1 | None => exists b, waiting s c p b s1 end.
Proof.
  intros Hi Hid Hcur Hd E. destruct (run_lt _ _ _ _ _ _ _ Hi Hcur) as (Hp & Hst & _). destruct (oi_mem _ _ _ _ _ Hi) as (F & own & Hm).
  destruct (so_rep _ _ _ (oi_sched _ _ _ _ _ Hi)) as (h & b & Hrep). pose proof (oi_len _ _ _ _ _ Hi) as Hlen.
  set (post := fun (o : option Z) s1 => match o with Some _ => keeps A L (fun _ => False) s s1 | None => exists b, waiting s c p b s1 end : Prop).
  assert (Hz : forall h0 z k' pg', calm (ids := ids) h0 b k' -> k_cproc k' = k_cproc (os_k s) -> p_state (pt (os_k s) z) = ZOMBIE ->
    (forall j, pt k' j = updn (pt (os_k s)) z (reaped (pt (os_k s) z)) j) -> mem_rep data A L pg' (pt k') (F ∪ own z) (updn own z ∅) ->
    same_except (F ∪ own z) (pg_mem (os_pg s)) (pg_mem pg') -> post (Some (p_pid (pt (os_k s) z))) (mk_os k' pg' (os_cpu s) (os_idt s) (os_kpgdir s) (os_io s))).
  { intros h0 z k' pg' Hc Ecp Hzz Hj Hm' Hsm. by eapply reap_inv. }
  assert (Hn : forall h0 k', calm (ids := ids) h0 b k' -> k_cproc k' = k_cproc (os_k s) -> k_ptab k' = k_ptab (os_k s) ->
    post (Some (-1)) (mk_os k' (os_pg s) (os_cpu s) (os_idt s) (os_kpgdir s) (os_io s))).
  { intros h0 k' Hc Ecp Et. apply (kept_inv data ids A L s k'); [done|]. assert (Ep : forall j, pt k' j = pt (os_k s) j) by (intros j; unfold pt; by rewrite Et).
    split; [by rewrite Et|done|intros j; rewrite Ep; apply same_life_refl|intros j; by rewrite Ep|]. exists h0, b. apply Hc. }
  assert (Hs : forall h0 k', length (k_ptab k') = NPROC -> k_cproc k' = k_cproc (os_k s) ->
    (forall j, pt k' j = updn (pt (os_k s)) p (slept (pt (os_k s) p) (CProc p) (b c) PTLOCK) j) -> mach_rep ids (k_mach k') (updn h0 c [PTLOCK]) no_depth b ->
    post None (mk_os k' (os_pg s) (os_cpu s) (os_idt s) (os_kpgdir s) (os_io s))).
  { intros h0 k' Hl Ecp Hj Hr. exists b, k', (updn h0 c [PTLOCK]). split_and!; try done. by rewrite updn_eq. }
  change (post o s1). destruct first.
  - pose proof (depth_nil _ _ _ _ _ Hrep Hid Hd) as Hh. assert (Hf : free h).
    { assert (W : wlp (wait id) s (fun _ _ => free h)); [|by apply (wlp_ok _ _ _ _ _ W E)]. unfold wait. apply wlp_bind, wlp_zoom.
      eapply wlp_conseq; [apply (acquired_free _ c id h b); [done|exact Hrep|rewrite Hh; set_solver]|]. intros [] k1 Hf. cbv beta in Hf |- *.
      eapply wlp_conseq; [apply wlp_true|done]. }
    assert (W : wp (wait id) s post); [|unfold wp in W; by rewrite E in W]. destruct s as [k pg cpu idt kp io].
    eapply (wp_wait data c id Hid h b Hf k pg cpu idt kp io A L F own p); try done.
    + intros z k' pg' Hc Ecp _ _ Hzz Hj Hm' Hsm. by eapply Hz.
    + intros k' Hc Ecp Et _ _. by eapply Hn.
    + intros k' Hl _ Ecp Hj Hr. by eapply Hs.
  - destruct Hd as [Hd Hl]. destruct (pt_only_free _ _ _ _ _ Hrep Hid (only_pt _ _ _ _ _ Hrep Hid Hd Hl)) as [Hf Hrep'].
    assert (W : wp (wait_turn id) s post); [|unfold wp in W; by rewrite E in W]. destruct s as [k pg cpu idt kp io].
    eapply (wp_wait_turn data c id Hid (updn h c []) b Hf k pg cpu idt kp io A L F own p); try done; [by rewrite updn_eq|..].
    + intros z k' pg' Hc Ecp _ _ Hzz Hj Hm' Hsm. by eapply Hz.
    + intros k' Hc Ecp Et _ _. by eapply Hn.
    + intros k' Hl' _ Ecp Hj Hr. by eapply Hs.
Qed.

Lemma inv_wait A L s c id p (first : bool) o s' :
  os_inv A L s -> ids !! c = Some id -> cp (os_k s) c = Some p ->
  (if first then depth (os_k s) c = 0 else depth (os_k s) c = 1 /\ has_lock (os_k s) c PTLOCK) ->
  wait_call id first s = Ok o s' -> keeps A L (fun _ => False) s s'.
Proof.
  intros Hi Hid Hcur Hd. destruct (run_lt _ _ _ _ _ _ _ Hi Hcur) as (Hp & Hst & Hu & Hlv & _).
  unfold wait_call, mbind, M_bind. destruct ((if first then wait id else wait_turn id) s) as [[r|] s1| |] eqn:E; [| |done..].
  - intros [= <- <-]. by apply (wait_body A L s c id p first (Some r)).
  - destruct (wait_body A L s c id p first None s1 Hi Hid Hcur Hd E) as (b & k' & h & -> & Hl & Ecp & Hj & Hr & Hh).
    destruct (scheduler_leave id _) as [i s2| |] eqn:El; [|done..]. intros [= <- <-]. apply leave_spec in El as [Eb Hs'].
    assert (W : wp (scheduler_back id) k' (fun _ k2 => k2 = k' <| k_cproc := <[c := None]> (k_cproc k') |>)) by (by eapply (wp_back c id Hid); [exact Hr|by rewrite Hh|]).
    unfold wp in W. cbn [os_k set_field] in Eb. rewrite Eb in W. rewrite (Hs' c h b); [|done|by rewrite W]. rewrite W. cbn [os_pg os_cpu os_idt os_io os_kpgdir set_field].
    apply (left_inv A L s c p); try done.
    + intros j. change (same_life (pt (os_k s) j) (pt k' j)). rewrite Hj. apply upd_life, state_life; done.
    + cbn. by rewrite Ecp.
    + by exists h, b.
    + intros j Hne. change (pt _ j) with (pt k' j) at 2. by rewrite Hj, updn_ne.
Qed.

(** ** Stores *)

(** A byte of a page. *)
Lemma store_local r a v m : page_ok pg_end r -> in_page r a -> mem_bytes m -> same_except {[r]} m (store m a v) /\ mem_bytes (store m a v).
Proof.
  intros Hr Ha Hb. destruct (page_bounds pg_end pg_end_ok r Hr) as (B0 & B1 & B2). split; [|by apply store_mem_bytes].
  assert (Hl : page_local r (fun m => store m a v)).
  { intros m'. split; [|apply store_mem_bytes]. intros x Hx. unfold store. unfold in_page, PGSIZE in *. rewrite u32_small by lia. apply upd_ne. intros ->. by apply Hx. }
  by apply (page_local_same r _ m B2 Hl).
Qed.

Lemma inv_write A L s i a v :
  os_inv A L s -> used (pt (os_k s) i) ->
  (forall F e n Y, slot_ok data (os_pg s) F (pt (os_k s) i) Y e n -> exists r, data_page (pt (os_k s) i) e r /\ page_ok pg_end r /\ in_page r a) ->
  keeps A L (eq i) s (s <| os_pg := pg_setmem (store (pg_mem (os_pg s)) a v) (os_pg s) |>).
Proof.
  intros Hi Hu Hr. destruct (oi_mem _ _ _ _ _ Hi) as (F & own & Hm). destruct (mr_slot _ _ _ _ _ _ _ Hm i Hu) as (e & n & Hs).
  destruct (Hr _ _ _ _ Hs) as (r & Hd & Hpr & Ha). pose proof (pg_bytes _ _ (mr_pg _ _ _ _ _ _ _ Hm)) as Hb.
  destruct (store_local r a v _ Hpr Ha Hb) as [Hsame Hb'].
  destruct (mem_write data A L _ _ F own i e n r _ Hm Hu Hs Hd Hsame Hb') as (own' & Hm' & Hown).
  split.
  2: { intros q Hq Hne. eapply kept_intro; [exact Hm|done|apply same_life_refl|]. cbn. rewrite pg_mem_set. eapply own_same; [exact Hm|exact Hsame|].
    pose proof (mr_apart _ _ _ _ _ _ _ Hm q i ltac:(congruence)) as H1. destruct (slot_write data _ _ _ _ _ _ _ _ Hs Hd Hsame Hb') as [_ Hr']. clear -H1 Hr'. set_solver. }
  destruct Hi as [H1 H2 H3 H4 H5 H6]. split; cbn; try done. by exists F, own'.
Qed.

(** What user code can reach through the page table of its CPU. *)
Lemma reach s c p F Y e n va a pte :
  slot_ok data (os_pg s) F (pt (os_k s) p) Y e n -> cr3 s c = V2P (p_pgdir (pt (os_k s) p)) -> 0 <= va < KERNBASE ->
  hw_translate (pg_mem (os_pg s)) (P2V (cr3 s c)) va = Some (a, pte) ->
  present (e (va / 4096)) = true /\ 0 <= va / 4096 < UPAGES /\ a = uaddr e va /\ in_page (frame_of (e (va / 4096))) a /\
  page_ok pg_end (frame_of (e (va / 4096))).
Proof.
  intros Hs Hcr Hva Ha. destruct (sl_space _ _ _ _ _ _ _ Hs) as (Ya & Hasp & _). destruct (aspace_dir _ _ _ _ _ _ _ Hasp) as [_ Hpg].
  destruct (V2P_page pg_end pg_end_ok _ Hpg) as (_ & EV & _). rewrite Hcr, EV in Ha. destruct Hasp as (_ & T & Hu & _). unfold KERNBASE in Hva.
  rewrite (hw_translate_spec _ _ _ _ _ _ Hu) in Ha by lia. destruct (present (e (va / 4096))) eqn:Ep; [|done]. injection Ha as <- <-.
  assert (Hv : 0 <= va / 4096 < UPAGES) by (unfold UPAGES; split; [apply Z.div_pos; lia|apply Z.div_lt_upper_bound; lia]).
  destruct (u_frame _ _ _ _ _ Hu _ Hv Ep) as (Hf & _). pose proof (Z.mod_pos_bound va 4096 ltac:(lia)) as Hmod.
  do 3 (split; [done|]). split; [|done]. unfold in_page, uaddr, PGSIZE. lia.
Qed.

Lemma inv_store A L s c p va a v :
  os_inv A L s -> cp (os_k s) c = Some p -> 0 <= va < KERNBASE -> hw_writable (pg_mem (os_pg s)) (P2V (cr3 s c)) va = Some a ->
  keeps A L (eq p) s (s <| os_pg := pg_setmem (store (pg_mem (os_pg s)) a v) (os_pg s) |>).
Proof.
  intros Hi Hcur Hva Ha. destruct (run_lt _ _ _ _ _ _ _ Hi Hcur) as (_ & _ & Hu & _ & Hcr). apply (inv_write A L s p); [done|done|].
  intros F e n Y Hs. unfold hw_writable in Ha. destruct (hw_translate _ _ va) as [[a' pte]|] eqn:Et; [|done]. cbn in Ha.
  destruct (_ =? _); [|done]. injection Ha as ->. destruct (reach _ _ _ _ _ _ _ _ _ _ Hs Hcr Hva Et) as (Hp & Hv & _ & Hin & Hok).
  exists (frame_of (e (va / 4096))). split; [|done]. right. by exists (va / 4096).
Qed.

Lemma inv_stack A L s c p a v :
  os_inv A L s -> cp (os_k s) c = Some p -> in_page (p_kstack (pt (os_k s) p)) a ->
  keeps A L (fun _ => False) s (s <| os_pg := pg_setmem (store (pg_mem (os_pg s)) a v) (os_pg s) |>).
Proof.
  intros Hi Hcur Ha. destruct (run_lt _ _ _ _ _ _ _ Hi Hcur) as (_ & _ & Hu & Hlv & _).
  destruct (inv_write A L s p a v Hi Hu) as [Hi' Ho].
  { intros F e n Y Hs. exists (p_kstack (pt (os_k s) p)). split; [by left|]. split; [apply (sl_stack _ _ _ _ _ _ _ Hs)|done]. }
  split; [done|]. intros q Hq _. destruct (decide (p = q)) as [<-|Hne]; [|by apply Ho]. split; [done|done|done|]. intros va Hva. cbn.
  destruct (oi_mem _ _ _ _ _ Hi) as (F & own & Hm). destruct (mr_slot _ _ _ _ _ _ _ Hm p Hu) as (e & n & Hs). rewrite pg_mem_set.
  destruct (sl_space _ _ _ _ _ _ _ Hs) as (Ya & Hasp & _ & Hk). destruct (sl_stack _ _ _ _ _ _ _ Hs) as [Hko _].
  eapply seen_same; [exact Hasp| |done]. intros r x Hr Hx. pose proof (aspace_pages _ _ _ _ _ _ _ _ Hasp Hr) as Hro.
  destruct (store_local (p_kstack (pt (os_k s) p)) a v _ Hko Ha (pg_bytes _ _ (mr_pg _ _ _ _ _ _ _ Hm))) as [Hsame _].
  apply (Hsame r); [apply Hro| |done]. intros ->%elem_of_singleton. done.
Qed.

(** ** Files *)

Lemma io_inv A L s io :
  os_inv A L s -> open_ok (o_files io) (pt (os_k s)) -> keeps A L (fun _ => False) s (s <| os_io := io |>).
Proof. intros [H1 H2 H3 H4 H5 H6] Ho. split; [by split|]. apply others_life; [done|]. intros j _. apply same_life_refl. Qed.

Lemma inv_files A L s c p op f' :
  os_inv A L s -> cp (os_k s) c = Some p -> file_op_of p op -> run_op op (o_files (os_io s)) = Ok () f' ->
  keeps A L (fun _ => False) s (s <| os_io := (os_io s) <| o_files := f' |> |>).
Proof.
  intros Hi Hcur Hop E. destruct (run_lt _ _ _ _ _ _ _ Hi Hcur) as (Hp & _ & _ & Hlv & _). destruct (oi_files _ _ _ _ _ Hi) as [O1 O2 O3].
  apply io_inv; [done|]. pose proof (wlp_ok _ _ _ _ _ (row_run_op p op Hop _) E) as [Hl Hr]. cbv beta in Hl, Hr.
  assert (Hok : op_ok (o_files (os_io s)) op) by (destruct op; try destruct Hop; unfold op_ok; rewrite O2; exact Hp).
  pose proof (run_op_preserved _ op O1 Hok) as W. unfold preserved, wp in W. rewrite E in W. destruct W as (Hc & _).
  split; cbn; [done|by rewrite Hl|]. intros i Hlt Hn. rewrite Hr by (intros ->; done). by apply O3.
Qed.

Lemma inv_fs A L s (m : M (fsst S) ()) s' : os_inv A L s -> on_io (on_fs m) s = Ok () s' -> keeps A L (fun _ => False) s s'.
Proof.
  intros Hi E. assert (W : wlp (on_io (on_fs m)) s (fun _ s' => keeps A L (fun _ => False) s s')); [|by apply (wlp_ok _ _ _ _ _ W E)].
  do 2 apply wlp_zoom. eapply wlp_conseq; [apply wlp_true|]. intros [] f1 _. apply (io_inv A L s); [done|apply Hi].
Qed.

(** ** Kernel routines and the scheduler *)

Lemma mach_kept k m h b : length (k_ptab k) = NPROC -> mach_rep ids m h no_depth b -> kern_kept ids k (k <| k_mach := m |>).
Proof. intros Hl Hr. split; [done|done|intros j; apply same_life_refl|done|by exists h, b]. Qed.

Lemma call_kept k c id m k' : length (k_ptab k) = NPROC -> (exists h b, mach_rep ids (k_mach k) h no_depth b) -> ids !! c = Some id ->
  kern_call k c id m -> m k = Ok () k' -> kern_kept ids k k'.
Proof.
  intros Hl (h & b & Hr) Hid Hc E. assert (W : safe m k (fun _ k' => kern_kept ids k k')); [|by apply (safe_ok _ _ _ _ _ W E)].
  destruct Hc as [l Hn|l Hn|on Hd|ch Hn|pid Hn].
  - eapply safe_kacquire; [exact Hid|exact Hr|by rewrite <- (has_lock_in _ _ _ _ _ _ Hr Hid)|]. intros m' _ Hm. by eapply mach_kept.
  - apply wp_safe. eapply wp_krelease; [exact Hid|exact Hr|by apply (has_lock_in _ _ _ _ _ _ Hr Hid)|]. intros m' Hm. by eapply mach_kept.
  - apply wp_safe. pose proof (depth_nil _ _ _ _ _ Hr Hid Hd) as Hh.
    destruct (mr_sti _ _ _ _ c id Hr Hid) as (m1 & E1 & H1); [by rewrite Hh|]. destruct (mr_cli _ _ _ _ c id Hr Hid) as (m2 & E2 & H2); [by rewrite Hh|].
    destruct on; eapply wp_onm; [exact E1|by eapply mach_kept|exact E2|by eapply mach_kept].
  - eapply (safe_wakeup c id Hid); [done|exact Hr|by rewrite <- (has_lock_in _ _ _ _ _ _ Hr Hid)|]. intros m' tab _ Hm Ht Hj.
    split; [done|done| | |by exists h, b]; intros j; rewrite pt_kset, Hj; [apply wake_life|]. intros Hx. by rewrite wake_runs.
  - apply safe_bind. eapply (safe_kill c id Hid); [done|exact Hr|by rewrite <- (has_lock_in _ _ _ _ _ _ Hr Hid)|]. intros m' tab o _ Hm Ht _ Hj.
    apply wp_safe, wp_ret. split; [done|done| | |by exists h, b]; intros j; rewrite pt_kset, Hj; (case_decide; [|done]); [apply killed_life|].
    intros Hx. unfold killed. cbn [p_state set_field]. by rewrite bool_decide_eq_false_2 by congruence.
Qed.

Lemma inv_kern A L s c id m s' : os_inv A L s -> ids !! c = Some id -> kern_call (os_k s) c id m -> on_k m s = Ok () s' -> keeps A L (fun _ => False) s s'.
Proof.
  intros Hi Hid Hc. unfold on_k, zoom. destruct (m (os_k s)) as [[] k'| |] eqn:E; [|done..]. intros [= <-].
  apply kept_inv; [done|]. by eapply call_kept; [apply Hi|apply Hi|..].
Qed.

(** The scheduler enters slot [j]. *)
Lemma wp_enter k pg cpu idt kp io c id h b j (Q : bool -> os P S -> Prop) :
  ids !! c = Some id -> length (k_ptab k) = NPROC -> mach_rep ids (k_mach k) h no_depth b -> h c <> [] -> (j < NPROC)%nat -> cpus_ok (ids := ids) cpu idt ->
  (p_state (pt k j) = RUNNABLE -> p_kstack (pt k j) <> 0 /\ p_pgdir (pt k j) <> 0) ->
  (p_state (pt k j) <> RUNNABLE -> Q false (mk_os k pg cpu idt kp io)) ->
  (forall k' cpu', p_state (pt k j) = RUNNABLE -> length (k_ptab k') = NPROC -> (forall i, pt k' i = updn (pt k) j ((pt k j) <| p_state := RUNNING |>) i) ->
     k_cproc k' = <[c := Some j]> (k_cproc k) -> mach_rep ids (k_mach k') h no_depth b -> cpus_ok (ids := ids) cpu' idt ->
     s_cr3 (cpu' !!! c) = V2P (p_pgdir (pt k j)) -> (forall c', c' <> c -> cpu' !!! c' = cpu !!! c') -> Q true (mk_os k' pg cpu' idt kp io)) ->
  wp (scheduler_enter cpus id j) (mk_os k pg cpu idt kp io) Q.
Proof.
  intros Hid Hlen Hr Hh Hj Hcpu Hnz HQf HQt. destruct (Hcpu) as [Hok Hcl]. pose proof (lookup_lt_Some _ _ _ Hid) as Hlt. unfold scheduler_enter. wp_step. apply wp_getk.
  destruct (decide (p_state (pt k j) = RUNNABLE)) as [Est|Est]; [rewrite bool_decide_eq_true_2 by done|rewrite bool_decide_eq_false_2 by done]; cbn [negb]; [|wp_step; by apply HQf].
  destruct (Hnz Est) as [Hk0 Hd0]. wp_step. apply wp_on_k. eapply wp_mycpu; [exact Hid|exact Hr|exact Hh|]. wp_step. apply wp_on_k, wp_modify.
  set (k1 := k <| k_cproc := _ |>). change (pt k j) with (pt k1 j). wp_step. apply wp_getk. wp_step. apply wp_getk. wp_step. apply wp_on_seg.
  destruct Hok as [O1 O2 O3]. cbn in O1, O2, O3.
  eapply (wp_switchuvm cpus h (fun _ => O) b c id Hid); [exact Hr|by split|cbn; lia|done|done|]. intros m' Hm.
  wp_step. apply wp_setk; [exact Hlen|done|]. intros tab Ht Hjt. wp_step. apply wp_on_k, wp_modify. wp_step.
  apply HQt; [done|exact Ht|exact Hjt|done|exact Hm| | |].
  - by apply (cpus_uvm cpus c id Hid).
  - cbn. rewrite list_lookup_total_insert_eq by lia. done.
  - intros c' Hne. cbn. by rewrite list_lookup_total_insert_ne.
Qed.

Lemma sched_entered k k' cpu cpu' c j : sched_ok ids k cpu -> cp k c = None -> p_state (pt k j) = RUNNABLE ->
  (forall i, pt k' i = updn (pt k) j ((pt k j) <| p_state := RUNNING |>) i) -> k_cproc k' = <[c := Some j]> (k_cproc k) ->
  (exists h b, mach_rep ids (k_mach k') h no_depth b) -> s_cr3 (cpu' !!! c) = V2P (p_pgdir (pt k j)) ->
  (forall c', c' <> c -> cpu' !!! c' = cpu !!! c') -> sched_ok ids k' cpu'.
Proof.
  intros [S1 S2 S3 S4] Hcp Hst Hj Ec Hr Hcr Hoth.
  assert (Hno : forall c' q, cp k c' = Some q -> q <> j) by (intros c' q Hq ->; destruct (S3 c' j Hq); congruence).
  assert (Hc' : forall c' q, cp k' c' = Some q -> c' = c /\ q = j \/ c' <> c /\ cp k c' = Some q).
  { intros c' q. unfold cp. rewrite Ec. destruct (decide (c' = c)) as [->|Hne]; [|rewrite list_lookup_total_insert_ne by done; by right].
    destruct (decide (c < length (k_cproc k))%nat); [rewrite list_lookup_total_insert_eq by done; intros [= <-]; by left|].
    rewrite list_insert_ge by lia. unfold cp in Hcp. by rewrite Hcp. }
  split; [done|by rewrite Ec, length_insert| |].
  - intros c' q [[-> ->]|[Hne Hq]]%Hc'; rewrite Hj; [by rewrite updn_eq|]. rewrite updn_ne by (by eapply Hno). rewrite Hoth by done. by apply S3.
  - intros c1 c2 q [[-> ->]|[N1 Q1]]%Hc' [[-> E2]|[N2 Q2]]%Hc'; [done|by destruct (Hno _ _ Q2)|subst; by destruct (Hno _ _ Q1)|by eapply S4].
Qed.

Lemma resume_kept k c id h b j t : ids !! c = Some id -> length (k_ptab k) = NPROC -> (j < NPROC)%nat -> mach_rep ids (k_mach k) h no_depth b ->
  h c = [PTLOCK] -> cp k c = Some j -> wlp (resume id j t) k (fun _ k' => kern_kept ids k k').
Proof.
  intros Hid Hlen Hj Hr Hh Hcp. destruct (p_context (pt k j)) as [|v [|lk|]] eqn:E.
  4:{ unfold resume. apply wlp_bind. change (wlp (getp j p_context) k ?Q) with (Q (p_context (pt k j)) k). cbv beta. rewrite E.
    apply wlp_bind. eapply wlp_conseq; [apply wlp_true|]. done. }
  all: apply wp_wlp; eapply (wp_resume c id Hid); [done|done|exact Hr|done|done|rewrite E].
  - intros m first Hm. split; [done|done|intros i; apply same_life_refl|done|by eexists _, _].
  - intros m Hm. split; [done|done|intros i; apply same_life_refl|done|by eexists _, _].
  - intros m tab hc Hm Ht _ Hjt. split; [done|done| | |by eexists _, _]; intros i; rewrite pt_kset, Hjt; [apply upd_life; by split|].
    unfold updn. by case_decide; [subst|].
Qed.

Lemma inv_run A L s c id j s' :
  os_inv A L s -> ids !! c = Some id -> cp (os_k s) c = None -> depth (os_k s) c = 1 -> has_lock (os_k s) c PTLOCK -> (j < NPROC)%nat ->
  run_slot cpus id j s = Ok () s' -> keeps A L (fun _ => False) s s'.
Proof.
  intros Hi Hid Hcp Hd Hl Hj E. destruct (so_rep _ _ _ (oi_sched _ _ _ _ _ Hi)) as (h & b & Hrep). pose proof (only_pt _ _ _ _ _ Hrep Hid Hd Hl) as Hh.
  pose proof (lookup_lt_Some _ _ _ Hid) as Hlt.
  assert (W : wlp (run_slot cpus id j) s (fun _ s' => keeps A L (fun _ => False) s s')); [|by apply (wlp_ok _ _ _ _ _ W E)]. unfold run_slot. apply wlp_bind, wp_wlp.
  clear E. destruct s as [k pg cpu idt kp io]. set (s := mk_os k pg cpu idt kp io) in *. cbn [os_k] in Hcp, Hd, Hl, Hrep.
  apply (wp_enter k pg cpu idt kp io c id h b j); [done|apply Hi|done|by rewrite Hh|done|apply Hi| | |].
  - intros Hst. destruct (oi_mem _ _ _ _ _ Hi) as (F & own & Hm). assert (Hu : used (pt (os_k s) j)) by (unfold used; cbn; by rewrite Hst).
    destruct (mr_slot _ _ _ _ _ _ _ Hm j Hu) as (e & n & Hs). by eapply slot_pages.
  - intros _. split; [exact Hi|apply others_life; [done|]; intros i _; apply same_life_refl].
  - intros k' cpu' Hst Hlen Hjt Ecp Hr' Hcpu' Hcr Hoth. assert (Hk : keeps A L (fun _ => False) s (mk_os k' pg cpu' idt kp io)).
    { apply (life_inv data ids A L s k' cpu' kp); [exact Hi|done| |done|].
      - intros i. rewrite Hjt. apply upd_life. cbn. apply state_life; try done; unfold live; rewrite ?Hst; done.
      - eapply (sched_entered k k' cpu cpu' c j); try done; [apply (oi_sched _ _ _ _ _ Hi)|by exists h, b]. }
    apply wlp_bind, wlp_zoom. eapply wlp_conseq.
    + eapply (resume_kept k' c id h b j TRun); try done. unfold cp. rewrite Ecp. apply list_lookup_total_insert_eq.
      pose proof (so_len _ _ _ (oi_sched _ _ _ _ _ Hi)) as El. cbn [os_k s] in El. by rewrite El.
    + intros t k2 Hk2. destruct Hk as [Hk Ho]. destruct (kept_inv data ids A L (mk_os k' pg cpu' idt kp io) k2 Hk Hk2) as [Hk3 Ho3].
      split; [done|]. by eapply others_trans.
Qed.

(** ** [exit] *)

(** [exit] up to its critical section: the descriptors of [p] are closed, the
    current directory is given back. *)
Definition exit_files_of (p : nat) (rest : M (os P S) ()) : M (os P S) () :=
  set_cur p;;
  forM (seq 0 NOFILE) (close_fd p);;
  on_io o_begin_op;;
  cwd ← on_k (getp p p_cwd);
  (match cwd with None => panic "null pointer" | Some c => on_io (on_fs (iput c)) end);;
  on_io o_end_op;;
  on_k (setp p (fun x => x <| p_cwd := None |>));;
  rest.

Record exiting (p : nat) s s1 : Prop := {
  ex_rest : exists io, s1 = s <| os_io := io |> <| os_k := (os_k s) <| k_ptab := <[p := (pt (os_k s) p) <| p_cwd := None |>]> (k_ptab (os_k s)) |> |>;
  ex_count : counted no_extra (o_files (os_io s1));
  ex_rows : rows_kept p (o_files (os_io s)) (o_files (os_io s1));
  ex_none : ofile (o_files (os_io s1)) !! p = Some (replicate NOFILE None)
}.

(** A routine of the file system leaves the rest alone. *)
Lemma wlp_fs {B} (m : M (fsst S) B) s (Q : B -> os P S -> Prop) :
  (forall a (g : fsst S), Q a (s <| os_io := (os_io s) <| o_fs := g |> |>)) -> wlp (on_io (on_fs m)) s Q.
Proof. intros H. do 2 apply wlp_zoom. eapply wlp_conseq; [apply wlp_true|]. intros a f _. apply H. Qed.

Lemma wlp_exit_files p s rest (Q : () -> os P S -> Prop) :
  counted no_extra (o_files (os_io s)) -> (p < length (ofile (o_files (os_io s))))%nat ->
  (forall s1, exiting p s s1 -> wlp rest s1 Q) -> wlp (exit_files_of p rest) s Q.
Proof.
  intros Hc Hp HQ. unfold exit_files_of, set_cur. apply wlp_bind. do 2 (apply wlp_bind; apply wlp_zoom; change (wlp (getp p ?f) (os_k s) ?Q) with (Q (f (pt (os_k s) p)) (os_k s)); cbv beta).
  replace (s <| os_k := os_k s |> <| os_k := os_k s |>) with s by (by destruct s).
  apply wlp_fs. intros _ f0. cbv beta. set (s0 := s <| os_io := (os_io s) <| o_fs := f0 |> |>). apply wlp_bind. eapply wlp_conseq; [apply (wlp_close_all p s0); done|].
  intros [] s1 Hcl. cbv beta. pose proof Hcl as [[io1 E1] C1 R1 _].
  assert (Hrow : ofile (o_files (os_io s1)) !! p = Some (replicate NOFILE None)).
  { assert (Hlt : (p < length (ofile (o_files (os_io s1))))%nat) by (rewrite (proj1 R1); exact Hp).
    apply lookup_lt_is_Some in Hlt as [t Ht]. by rewrite Ht, (closing_row p s0 s1 t Hcl Hp Ht). }
  apply wlp_bind. unfold o_begin_op, o_end_op. apply wlp_fs. intros _ f1. cbv beta. apply wlp_bind, wlp_zoom.
  change (wlp (getp p p_cwd) ?k ?Q) with (Q (p_cwd (pt k p)) k). cbv beta. destruct (p_cwd _) as [ip|]; [|done].
  apply wlp_bind, wlp_fs. intros _ f2. cbv beta. apply wlp_bind, wlp_fs. intros _ f3. cbv beta. apply wlp_bind, wlp_zoom, wp_wlp, wp_setp.
  subst s1. apply HQ. split; cbn in *; [by eexists|done|done|done].
Qed.

Lemma exit_wake_life k p x : same_life x (exit_wake k p x) /\ (p_state x = RUNNING -> p_state (exit_wake k p x) = RUNNING).
Proof.
  split; [|intros E; rewrite exit_wake_running by done; unfold give; by case_match].
  unfold exit_wake. set (y := wake _ x). assert (H1 : same_life x y) by apply wake_life. revert H1. generalize y. intros y' H1.
  assert (H2 : same_life x (wake_if (zombie_child k p NPROC) (CProc <$> k_initproc k) y')).
  { unfold wake_if. case_match; [|done]. by eapply same_life_trans; [exact H1|apply wake_life]. }
  revert H2. generalize (wake_if (zombie_child k p NPROC) (CProc <$> k_initproc k) y'). intros z Hz. unfold give. case_match; [|done].
  eapply same_life_trans; [exact Hz|]. by split.
Qed.

Lemma exited_inv A L s s1 c id p h b i s' :
  os_inv A L s -> ids !! c = Some id -> cp (os_k s) c = Some p -> exiting p s s1 -> h c = [] -> mach_rep ids (k_mach (os_k s1)) h no_depth b ->
  (on_k (exit_table id);; scheduler_leave id) s1 = Ok i s' -> keeps A L (eq p) s s'.
Proof.
  intros Hi Hid Hcur [[io ->] Hcnt [Hrl Hr] Hrow] Hh Hrep E. destruct (run_lt _ _ _ _ _ _ _ Hi Hcur) as (Hp & Hst & Hu & Hlv & _).
  apply switch_leave in E as [E Hs']. set (k1 := (os_k s) <| k_ptab := <[p := (pt (os_k s) p) <| p_cwd := None |>]> (k_ptab (os_k s)) |>).
  cbn [os_k os_pg os_cpu os_idt os_io os_kpgdir set_field] in *. fold k1 in E, Hrep.
  assert (Hl1 : length (k_ptab k1) = NPROC) by (cbn; rewrite length_insert; apply Hi).
  assert (Hj1 : forall j, pt k1 j = updn (pt (os_k s)) p ((pt (os_k s) p) <| p_cwd := None |>) j).
  { apply (set_slot (os_k s) p _ (oi_len _ _ _ _ _ Hi) Hp). }
  assert (W : safe (switch id (exit_table id)) k1 (fun _ k' => os_k s' = k' -> keeps A L (eq p) s s')); [|by apply (safe_ok _ _ _ _ _ W E)].
  eapply (safe_exit c id Hid); [done|exact Hp|by rewrite Hj1, updn_eq|exact Hrep|done|exact Hcur|]. intros m tab Hf Hm Ht Hj Ek.
  rewrite (Hs' c (updn h c [PTLOCK]) b Hid); [|by rewrite Ek]. rewrite Ek.
  assert (Hne : forall j, j <> p -> same_life (pt (os_k s) j) (tab !!! j) /\ (p_state (pt (os_k s) j) = RUNNING -> p_state (tab !!! j) = RUNNING)).
  { intros j Hne. rewrite Hj, updn_ne by done. rewrite Hj1, updn_ne by done. apply exit_wake_life. }
  assert (Hpp : same_mem (pt (os_k s) p) (tab !!! p) /\ p_state (tab !!! p) = ZOMBIE).
  { rewrite Hj, updn_eq, Hj1, updn_eq. unfold switched, give. case_match; (split; [split; [unfold used; cbn; by rewrite Hst|done]|done]). }
  assert (Hmem : forall j, same_mem (pt (os_k s) j) (tab !!! j)).
  { intros j. destruct (decide (j = p)) as [->|Hn]; [apply Hpp|apply (Hne j Hn)]. }
  destruct (oi_mem _ _ _ _ _ Hi) as (F & own & Hm0). destruct (oi_files _ _ _ _ _ Hi) as [O1 O2 O3].
  split; [|apply others_life; [done|]; intros j Hn'; by apply (Hne j); congruence]. split; cbn [os_k os_pg os_cpu os_idt os_io].
  - exists F, own. eapply mem_table; [exact Hm0|exact Hmem].
  - exact Ht.
  - split; [done|by rewrite Hrl|]. intros j Hlt Hn. destruct (decide (j = p)) as [->|Hn']; [done|]. rewrite Hr by done. apply O3; [done|].
    by rewrite (sf_live _ _ (proj1 (Hne j Hn'))).
  - intros j. change (pt _ j) with (tab !!! j). destruct (decide (j = p)) as [->|Hn']; [intros [_ Hx]; by destruct Hpp|]. intros Hl.
    rewrite (sf_cwd _ _ (proj1 (Hne j Hn'))). apply Hi. by apply (sf_live _ _ (proj1 (Hne j Hn'))).
  - by eapply cpus_leave.
  - eapply (sched_left ids (os_k s)); [apply Hi|exact Hcur|done|by eexists _, _|exact Hmem|]. intros j Hn'. apply (Hne j Hn').
Qed.

Lemma inv_exit A L s c id p i s' :
  os_inv A L s -> ids !! c = Some id -> cp (os_k s) c = Some p -> depth (os_k s) c = 0 ->
  (exit id;; scheduler_leave id) s = Ok i s' -> keeps A L (eq p) s s'.
Proof.
  intros Hi Hid Hcur Hd E. destruct (run_lt _ _ _ _ _ _ _ Hi Hcur) as (Hp & _). destruct (so_rep _ _ _ (oi_sched _ _ _ _ _ Hi)) as (h & b & Hrep).
  assert (W : wlp (exit id;; scheduler_leave id) s (fun _ s' => keeps A L (eq p) s s')); [|by apply (wlp_ok _ _ _ _ _ W E)].
  apply wlp_bind. unfold exit. apply wlp_bind, wlp_zoom, wp_wlp. eapply wp_curproc; [exact Hid|exact Hrep|exact Hcur|]. intros m0 Hm0. cbv beta.
  apply wlp_bind, wlp_zoom. change (wlp (gets k_initproc) ?k ?Q) with (Q (k_initproc k) k). cbv beta. case_match; [done|].
  set (s0 := s <| os_k := _ |>). assert (Hk0 : keeps A L (fun _ => False) s s0).
  { subst s0. apply (kept_inv data ids A L s); [done|]. apply (mach_kept _ _ h b); [apply Hi|done]. }
  destruct Hk0 as [Hi0 Ho0]. destruct (oi_files _ _ _ _ _ Hi0) as [O1 O2 _].
  change (wlp (exit_files_of p (on_k (exit_table id))) s0 (fun a s1 => wlp (scheduler_leave id) s1 (fun _ s2 => keeps A L (eq p) s s2))).
  apply wlp_exit_files; [exact O1|by rewrite O2|]. intros s1 Hx.
  apply (wlp_unbind (on_k (exit_table id)) (fun _ => scheduler_leave id)), wlp_intro. intros i2 s2 E2.
  destruct (exited_inv A L s0 s1 c id p h b i2 s2) as [Hi2 Ho2]; [done|done|done|done|by eapply depth_nil| |exact E2|].
  { destruct (ex_rest _ _ _ Hx) as [io ->]. exact Hm0. }
  split; [done|]. eapply others_trans; [|exact Ho2]. by eapply others_weaken; [|exact Ho0].
Qed.

(** Every step keeps the invariant and what the processes see that it does not
    belong to; a [fork] that fails may lose a page. *)
End inv.
