(* ===== verification/ExecInv.v ===== *)
(** [exec] keeps the invariant of the system, whatever the file is.

    Nothing is assumed of the file system but that a device's [read] returns no
    more bytes than it was asked for ([dev_short]); so these lemmas also hold
    for a file that is not a program and for a damaged disk. *)

From S2P Require Import Prelude CString Layout Sleeplock BlockLayer Fs File Pipe TxnLayer SysFile.
From S2P Require Import Spinlock LockRep Kalloc Vm VmRep VmUser VmCopy VmOut VmSpace.
From S2P Require Import Proc ProcOps ProcEff Seg ProcMem Exec ExecMem ProcSpace ProcFork ProcLife ProcSteps ExecLoad ExecCommit ExecRun ProcIso.

Section short.
Context {S : Type} `{!BlockOps S} `{!DevOps S} `{!TxnOps S}.

Definition dev_short : Prop := forall major f ip n (x : fsst S), dev_read major = Some f -> wlp (f ip n) x (fun rb _ => Z.of_nat (length (snd rb)) <= n).
Hypothesis Hdev : dev_short.

(** A first part about which nothing is known. *)
Ltac any_first := apply wlp_bind; eapply wlp_conseq; [apply wlp_true|]; intros ? ? _; cbv beta.

Lemma wlp_readi_loop ip : forall fuel off n tot (x : fsst S), wlp (readi_loop fuel ip off n tot) x (fun bytes _ => Z.of_nat (length bytes) <= Z.max 0 (n - tot)).
Proof.
  induction fuel as [|fuel IH]; intros off n tot x; cbn [readi_loop]; destruct (Z.ltb_spec tot n); cbn [negb]; try done; try (cbn; lia).
  do 4 any_first. any_first. apply wlp_bind. eapply wlp_conseq; [apply IH|]. intros rest x' Hr. cbn. rewrite length_app. unfold slice. rewrite length_take.
  pose proof (Z.mod_pos_bound off BSIZE ltac:(unfold BSIZE; lia)). unfold BSIZE in *. lia.
Qed.

(** [readi] never returns more than it was asked for. *)
Lemma wlp_readi_short ip off n (x : fsst S) : 0 <= off < 2 ^ 32 -> 0 <= n <= 4096 -> wlp (readi ip off n) x (fun rb _ => Z.of_nat (length (snd rb)) <= n).
Proof.
  intros Ho Hn. unfold readi. apply wlp_bind. eapply wlp_conseq; [apply wlp_true|]. intros i x1 _. cbv beta. destruct (i_type i =? T_DEV).
  - destruct (_ || _); [cbn; lia|]. destruct (dev_read (i_major i)) as [f|] eqn:E; [by eapply Hdev|cbn; lia].
  - destruct (_ || _) eqn:E; [cbn; lia|]. apply orb_false_iff in E as [E1 E2]. rewrite Z.gtb_ltb in E1. apply Z.ltb_ge in E1, E2.
    set (n' := if u32 (off + n) >? i_size i then i_size i - off else n). assert (Hn' : 0 <= n' <= n).
    { unfold n'. rewrite Z.gtb_ltb. destruct (Z.ltb_spec (i_size i) (u32 (off + n))) as [Hlt|]; [|lia].
      destruct (Z.lt_ge_cases (off + n) (2 ^ 32)) as [Hs|Hs]; [rewrite u32_small in Hlt by lia; lia|]. exfalso. unfold u32 in E2. rewrite <- (Z.mod_add _ (-1)) in E2 by lia. rewrite Z.mod_small in E2 by lia. lia. }
    cbv zeta. fold n'. clearbody n'. apply wlp_bind. eapply wlp_conseq; [apply wlp_readi_loop|]. intros bytes x2 Hb. change (Z.of_nat (length bytes) <= n). cbv beta in Hb. lia.
Qed.

Lemma fs_any (x0 : fsst S) path : exec_fs false x0 path True (fun _ _ => True) (fun _ => True) (fun _ n rb => Z.of_nat (length (snd rb)) <= n).
Proof.
  split; [| | |done].
  - eapply wlp_conseq; [apply wlp_true|]. by intros [ip|].
  - intros ip off n x Ho Hn _. eapply wlp_conseq; [by apply wlp_readi_short|]. by intros rb x'.
  - intros ip x _. apply wlp_true.
Qed.
End short.

Section inv.
Context {P S : Type} `{!PageOps P} `{!PageLayer P} `{!BlockOps S} `{!DevOps S} `{!TxnOps S}.
Variables data cpus forkret_addr trapret_addr : Z.
Hypothesis Hdata : data_ok data.
Hypothesis Haddr : 0 <= forkret_addr < 2 ^ 32 /\ 0 <= trapret_addr < 2 ^ 32.
Hypothesis Hdev : dev_short (S := S).
Context (ids : list Z).
Implicit Types (s : os P S) (pg : P) (F Y L A : gset Z) (k : kern) (f : files) (tab : nat -> proc).
Notation os_inv := (os_inv data ids).
Notation keeps := (keeps data ids).

(** A call that fails has changed free pages only. *)
Lemma none_inv A L s c p F own h b argv missing Jend rd s' :
  os_inv A L s -> mem_rep data A L (os_pg s) (pt (os_k s)) F own ->
  exec_none (ids := ids) h b (os_k s) (os_pg s) (os_cpu s) (os_idt s) (os_kpgdir s) (os_io s) F argv missing Jend rd s' -> cp (os_k s) c = Some p -> keeps A L (eq p) s s'.
Proof.
  intros Hi Hm (k' & pg' & x' & -> & Hc & Ecp & Hj & Hr & Hs & _) Hcur. assert (Hjl : forall j, same_life (pt (os_k s) j) (pt k' j)) by (intros j; rewrite Hj; apply same_life_refl).
  split.
  - split; cbn; [| |eapply open_table; [apply Hi|intros i; by rewrite Hj]|intros i; rewrite Hj; apply Hi|apply Hi|].
    + exists F, own. eapply mem_free; [exact Hm|intros j; apply Hjl|done|exact Hs|done|apply Hm].
    + apply Hc.
    + eapply sched_keep; [apply Hi|done|exists h, b; apply Hc|intros j; apply Hjl|intros j; by rewrite Hj].
  - intros q Hq _. eapply kept_intro; [exact Hm|done|apply Hjl|]. eapply own_same; [exact Hm|exact Hs|apply Hm].
Qed.

(** A call that succeeds has replaced the memory of its process. *)
Lemma some_inv A L s c p F own h b path argv Jend rd s' :
  os_inv A L s -> mem_rep data A L (os_pg s) (pt (os_k s)) F own -> cp (os_k s) c = Some p ->
  exec_some (ids := ids) data c h b (os_k s) (os_pg s) (os_cpu s) (os_io s) A L own p path argv Jend rd s' -> keeps A L (eq p) s s'.
Proof.
  intros Hi Hm Hcur (pgdir & N & entry & e & img & x' & _ & [Ep Hcr (F' & own' & Hm' & Ho & Hsl) _ _ _ _ _] & Hc & Hcpu & Ecp & Hj & Eio & _ & Hcs).
  assert (Hall : forall j, p_state (pt (os_k s') j) = p_state (pt (os_k s) j) /\ p_cwd (pt (os_k s') j) = p_cwd (pt (os_k s) j)).
  { intros j. destruct (decide (j = p)) as [->|Hne]; [by rewrite Ep|by rewrite Hj]. }
  assert (Hlv : forall j, live (pt (os_k s') j) <-> live (pt (os_k s) j)) by (intros j; unfold live; by rewrite (proj1 (Hall j))).
  split.
  2: { intros q Hq Hne. eapply kept_intro; [exact Hm|done|rewrite Hj by congruence; apply same_life_refl|]. apply Ho. congruence. }
  split; [by exists F', own'|apply Hc| | |done|].
  - rewrite Eio. eapply open_table; [apply Hi|]. intros j. by rewrite Hlv.
  - intros j Hl. destruct (Hall j) as (_ & ->). apply Hi. by apply Hlv.
  - destruct (oi_sched _ _ _ _ _ Hi) as [S1 S2 S3 S4]. split; [by exists h, b; apply Hc|by rewrite Ecp| |unfold cp in *; by rewrite Ecp].
    intros c' q. unfold cp. rewrite Ecp. intros Hq. destruct (S3 c' q Hq) as [Hsq Hcq]. split; [by rewrite (proj1 (Hall q))|].
    destruct (decide (q = p)) as [->|Hne].
    + rewrite Ep. change (p_pgdir (exec_proc _ _ _ _)) with pgdir. assert (c' = c) as -> by (by apply (S4 c' c p)). done.
    + rewrite Hj by done. destruct (Hcs c') as [->|[-> _]]; [done|]. exfalso. apply Hne. unfold cp in Hcur. rewrite Hq in Hcur. congruence.
Qed.

Lemma inv_exec A L s c id p path argv r s' :
  os_inv A L s -> ids !! c = Some id -> cp (os_k s) c = Some p -> args_size argv <= 2 ^ 25 -> exec cpus data id path argv s = Ok r s' -> keeps A L (eq p) s s'.
Proof.
  intros Hi Hid Hcur Ha E. destruct (run_lt _ _ _ _ _ _ _ Hi Hcur) as (Hp & _ & Hu & _). destruct (oi_mem _ _ _ _ _ Hi) as (F & own & Hm).
  destruct (mr_slot _ _ _ _ _ _ _ Hm p Hu) as (e & n & Hs). destruct (so_rep _ _ _ (oi_sched _ _ _ _ _ Hi)) as (h & b & Hrep).
  assert (Hc : calm (ids := ids) h b (os_k s)) by (split; [apply Hi|done]).
  pose proof (trip_exec data cpus Hdata c id Hid h b (os_k s) (os_pg s) (os_cpu s) (os_idt s) (os_kpgdir s) (os_io s) A L F own p e n Hc Hcur Hp Hu (oi_cpu _ _ _ _ _ Hi) Hm Hs
    false path argv True (fun _ _ => True) (fun _ => True) (fun _ n rb => Z.of_nat (length (snd rb)) <= n) Ha (fs_any Hdev _ path)) as W.
  destruct s as [k pg cpu idt kp io]. pose proof (wlp_ok _ _ _ _ _ W E) as [[_ Hn]|[_ Hso]]; [by eapply none_inv|by eapply some_inv].
Qed.

Lemma step_inv A L s ev s' : os_inv A L s -> os_step data cpus forkret_addr trapret_addr ids s ev s' ->
  exists X, keeps A (L ∪ X) (touches ev) s s' /\ (size X <= may_lose ev)%nat.
Proof.
  intros Hi Hst.
  assert (Hno : forall T : nat -> Prop, (forall q, T q -> touches ev q) -> keeps A L T s s' ->
    exists X, keeps A (L ∪ X) (touches ev) s s' /\ (size X <= may_lose ev)%nat).
  { intros T HT [H Ho]. exists ∅. rewrite (right_id_L ∅ (∪)), size_empty. split; [|lia]. split; [done|by eapply others_weaken]. }
  destruct Hst; [|apply (Hno (eq p)); [done|]|apply (Hno (eq p)); [done|]|apply (Hno (fun _ => False)); [done|]|apply (Hno (eq p)); [done|]|apply (Hno (eq p)); [done|]
    |apply (Hno (fun _ => False)); [done|]..].
  - by eapply inv_fork.
  - by eapply inv_grow.
  - by eapply inv_exec.
  - by eapply inv_wait.
  - by eapply inv_exit.
  - by eapply inv_store.
  - by eapply inv_stack.
  - by eapply inv_files.
  - by eapply inv_fs.
  - by eapply inv_kern.
  - by eapply inv_switch.
  - by eapply inv_run.
Qed.
End inv.
