(* ===== verification/ProcBoot.v ===== *)
(** [userinit]: the first process, and the invariant of [ProcSteps] after it.

    With more pages than a page table needs, [userinit] succeeds: slot [p] is
    ready to run [initcode] in user mode, in an address space of one page. *)

From S2P Require Import Prelude CString Layout Sleeplock BlockLayer Fs File Pipe TxnLayer SysFile.
From S2P Require Import Spinlock LockRep Kalloc Vm VmRep VmUser VmCopy VmOut VmSpace.
From S2P Require Import Proc ProcOps ProcEff Seg ProcMem Exec ExecMem ProcSpace ProcFork ProcLife ProcSteps.

(** The trap frame that enters [initcode]: user segments, interrupts on, the
    stack at the end of the page, [%eip] 0; everything else is 0. *)
Definition init_frame_byte (i : Z) : Z :=
  if (i =? TF_es) || (i =? TF_ds) || (i =? TF_ss) then 35
  else if i =? TF_cs then 27
  else if i =? TF_eflags + 1 then 2
  else if i =? TF_esp + 1 then 16
  else 0.

Section frame.
Context {P : Type} `{!PageOps P} `{!PageLayer P}.
Implicit Types (pg : P) (F : gset Z).

Definition mem16 (a v : Z) (m : mem) : mem := store (store m a v) (a + 1) (Z.shiftr v 8).

Lemma local_store16 r a v : 0 <= r -> r + 4096 <= 2 ^ 32 -> r <= a -> a + 2 <= r + 4096 -> page_local r (mem16 a v).
Proof.
  intros H0 H1 Ha Ha' m. split; [|intros Hm; by do 2 apply store_mem_bytes]. intros x Hx. unfold mem16, store.
  unfold in_page, PGSIZE in Hx. rewrite !u32_small by lia. by rewrite !upd_ne by lia.
Qed.

Lemma load16_mem16 a v m : 0 <= a -> a + 2 <= 2 ^ 32 -> 0 <= v < 256 -> load (mem16 a v m) a + 256 * load (mem16 a v m) (a + 1) = v.
Proof.
  intros H0 H1 Hv. unfold mem16, load, store. rewrite !u32_small by lia. rewrite upd_ne, !upd_eq by lia.
  rewrite u8_small by lia. rewrite Z.shiftr_div_pow2, Z.div_small by lia. change (u8 0) with 0. lia.
Qed.

(** What [init_frame] does to memory. *)
Definition frame_steps (tf : Z) : list (mem -> mem) :=
  [fun m => memset m tf 0 TF_SIZE; mem16 (tf + TF_cs) 27; mem16 (tf + TF_ds) 35; mem16 (tf + TF_es) 35; mem16 (tf + TF_ss) 35;
   fun m => store32 m (tf + TF_eflags) FL_IF; fun m => store32 m (tf + TF_esp) PGSIZE; fun m => store32 m (tf + TF_eip) 0].
Definition frame_mem (tf : Z) (m : mem) : mem := foldl (fun m f => f m) m (frame_steps tf).

Lemma frame_steps_local r : 0 <= r -> r + 4096 <= 2 ^ 32 -> Forall (page_local r) (frame_steps (r + 4020)).
Proof.
  intros H0 H1. unfold frame_steps, TF_ss, TF_es, TF_ds, TF_cs, TF_eflags, TF_esp, TF_eip, TF_SIZE.
  repeat (apply Forall_cons_2; [first [apply local_memset | apply local_store16 | apply local_store32]; lia|]). apply Forall_nil_2.
Qed.

Lemma frame_local r : 0 <= r -> r + 4096 <= 2 ^ 32 -> page_local r (frame_mem (r + 4020)).
Proof.
  intros H0 H1. pose proof (frame_steps_local r H0 H1) as Hl. unfold frame_mem. induction (frame_steps (r + 4020)) as [|f l IH]; [by intros m|].
  apply Forall_cons_1 in Hl as [Hf Hl]. specialize (IH Hl). intros m. cbn [foldl]. destruct (IH (f m)) as [I1 I2]. destruct (Hf m) as [F1 F2].
  split; [intros a Ha; by rewrite I1, F1|auto].
Qed.

(** Nothing below the frame changes. *)
Lemma frame_low tf m a : 0 <= tf -> tf + 76 <= 2 ^ 32 -> a < tf -> frame_mem tf m a = m a.
Proof.
  intros H0 H1 Ha. unfold frame_mem, frame_steps, foldl, mem16, store32, store, TF_ss, TF_es, TF_ds, TF_cs, TF_eflags, TF_esp, TF_eip, TF_SIZE.
  rewrite !u32_small by lia. rewrite !upd_ne by lia. rewrite memset_spec by lia. unfold in_range. by rewrite (proj2 (Z.leb_gt tf a)) by lia.
Qed.

Lemma frame_bytes tf m i : 0 <= tf -> tf + 76 <= 2 ^ 32 -> 0 <= i < TF_SIZE -> frame_mem tf m (tf + i) = init_frame_byte i.
Proof.
  intros H0 H1 Hi. unfold TF_SIZE in Hi. unfold frame_mem, frame_steps, foldl, mem16, store32, store, TF_ss, TF_es, TF_ds, TF_cs, TF_eflags, TF_esp, TF_eip, TF_SIZE.
  rewrite !u32_small by lia. unfold upd. rewrite memset_spec by lia. unfold in_range.
  rewrite (proj2 (Z.leb_le tf (tf + i))), (proj2 (Z.ltb_lt (tf + i) (tf + 76))) by lia. rewrite <- !(Z.add_assoc tf).
  assert (E : forall k, (tf + i =? tf + k) = (i =? k)) by (intros k; destruct (Z.eqb_spec (tf + i) (tf + k)), (Z.eqb_spec i k); lia).
  rewrite !E. clear -Hi. cbn [andb]. pattern i.
  match goal with |- ?g i => assert (Hall : Forall g (seqZ 0 76)) by (vm_compute; repeat constructor) end.
  rewrite Forall_forall in Hall. apply Hall, elem_of_seqZ. lia.
Qed.

Lemma wp_init_frame pg F r (Q : () -> P -> Prop) :
  pg_rep pg F -> r ∉ F -> page_ok pg_end r ->
  (forall pg', pg_rep pg' F -> same_except {[r]} (pg_mem pg) (pg_mem pg') -> (forall i, 0 <= i < TF_SIZE -> pg_mem pg' (r + 4020 + i) = init_frame_byte i) ->
     (forall a, r <= a < r + 4020 -> pg_mem pg' a = pg_mem pg a) -> Q () pg') ->
  wp (init_frame (r + 4020)) pg Q.
Proof.
  intros Hpg Hr Hro HQ. destruct (page_bounds pg_end pg_end_ok r Hro) as (B0 & B1 & B2). unfold PGSIZE in B2.
  pose proof (frame_steps_local r B0 B1) as Hl. unfold frame_steps in Hl.
  repeat (let L := fresh "L" in apply Forall_cons_1 in Hl as [L Hl]). clear Hl.
  unfold init_frame, vm_memset, wr. change (Z.lor (Z.shiftl SEG_UCODE 3) DPL_USER) with 27. change (Z.lor (Z.shiftl SEG_UDATA 3) DPL_USER) with 35.
  wp_step. apply (wp_page_write _ F r _ _ Hpg Hr B2 L). intros p1 P1 E1.
  wp_step. apply (wp_page_write _ F r _ _ P1 Hr B2 L0). intros p2 P2 E2.
  wp_step. apply (wp_page_write _ F r _ _ P2 Hr B2 L1). intros p3 P3 E3.
  assert (R3 : load (pg_mem p3) (r + 4020 + TF_ds) + 256 * load (pg_mem p3) (r + 4020 + TF_ds + 1) = 35) by (rewrite E3; apply load16_mem16; unfold TF_ds; lia).
  wp_step. unfold rd16. apply wp_gets. rewrite R3.
  wp_step. apply (wp_page_write _ F r _ _ P3 Hr B2 L2). intros p4 P4 E4.
  assert (R4 : load (pg_mem p4) (r + 4020 + TF_ds) + 256 * load (pg_mem p4) (r + 4020 + TF_ds + 1) = 35).
  { rewrite <- R3, E4. unfold mem16, load, store, TF_ds, TF_es. rewrite !u32_small by lia. by rewrite !upd_ne by lia. }
  wp_step. apply wp_gets. rewrite R4.
  wp_step. apply (wp_page_write _ F r _ _ P4 Hr B2 L3). intros p5 P5 E5.
  wp_step. apply (wp_page_write _ F r _ _ P5 Hr B2 L4). intros p6 P6 E6.
  wp_step. apply (wp_page_write _ F r _ _ P6 Hr B2 L5). intros p7 P7 E7.
  apply (wp_page_write _ F r _ _ P7 Hr B2 L6). intros p8 P8 E8.
  assert (E : pg_mem p8 = frame_mem (r + 4020) (pg_mem pg)) by (by rewrite E8, E7, E6, E5, E4, E3, E2, E1).
  pose proof (frame_local r B0 B1) as Hloc. apply HQ; [done|rewrite E; by apply (page_local_same r)|intros i Hi; rewrite E; apply frame_bytes; lia|].
  intros a Ha. rewrite E. apply frame_low; lia.
Qed.
End frame.

(** ** The state [main] has prepared *)

Section boot.
Context {P S : Type} `{!PageOps P} `{!PageLayer P} `{!BlockOps S} `{!DevOps S} `{!TxnOps S}.
Variables data forkret_addr trapret_addr : Z.
Hypothesis Hdata : data_ok data.
Hypothesis Haddr : 0 <= forkret_addr < 2 ^ 32 /\ 0 <= trapret_addr < 2 ^ 32.
Context (ids : list Z).
Implicit Types (s : os P S) (pg : P) (F Y A : gset Z) (k : kern).

Record boot_ready A s : Prop := {
  br_pages : pg_rep (os_pg s) A;
  br_many : (1100 <= size A)%nat;
  br_table : k_ptab (os_k s) = replicate NPROC zero_proc;
  br_idle : k_cproc (os_k s) = replicate (length ids) None;
  br_mach : exists b, mach_rep ids (k_mach (os_k s)) (fun _ => []) no_depth b;
  br_cpus : cpus_ok (ids := ids) (os_cpu s) (os_idt s);
  br_files : o_files (os_io s) = boot_files NPROC;
  br_inode : exists ip x, fs_icache (o_fs (os_io s)) !! ip = Some x /\ i_ref x = 0
}.

Lemma boot_mem A s : boot_ready A s -> mem_rep data A ∅ (os_pg s) (pt (os_k s)) A (fun _ => ∅).
Proof.
  intros [B1 _ B3 _ _ _ _ _]. assert (Hz : forall i, ~ used (pt (os_k s) i)).
  { intros i Hu. unfold pt in Hu. rewrite B3 in Hu. destruct (decide (i < NPROC)%nat) as [Hi|Hi].
    - rewrite lookup_total_replicate_2 in Hu by done. by apply Hu.
    - rewrite tab_out in Hu by (rewrite length_replicate; lia). by apply Hu. }
  split; try done; try set_solver +.
  - intros i Hu. by destruct (Hz i).
Qed.

(** [namei("/")] takes a reference to the root directory. *)
Lemma wp_namei_root (f : fsst S) (Q : option nat -> fsst S -> Prop) :
  (exists ip x, fs_icache f !! ip = Some x /\ i_ref x = 0) -> (forall ip f', Q (Some ip) f') -> wp (namei [SLASH]) f Q.
Proof.
  intros (ip & x & Hx & Hr) HQ. unfold namei, namex. change (SLASH =? SLASH) with true. cbv iota. wp_step. wp_step.
  assert (W : wp (iget ROOTDEV ROOTINO) f (fun _ _ => True)).
  { unfold iget. wp_step. wp_step. destruct (find_idx _ (fs_icache f)); [unfold modip; wp_steps; done|].
    destruct (find_idx (fun i => i_ref i =? 0) (fs_icache f)) as [j|] eqn:E; [unfold modip; wp_steps; done|].
    pose proof (proj1 (find_idx_None _ _) E ip x Hx) as Hn. cbv beta in Hn. by rewrite Hr in Hn. }
  eapply wp_conseq; [exact W|]. intros j f' _. cbv beta. change (namex_loop _ j [SLASH] false _) with (mret (Some j, replicate (Z.to_nat DIRSIZ) 0) : M (fsst S) _).
  wp_step. wp_step. apply HQ.
Qed.

(** The first process: slot [p], in memory [pg'], made from [s]. *)
Record first_proc s (init sz : Z) (p : nat) s' : Prop := {
  fp_init : k_initproc (os_k s') = Some p;
  fp_slot : (p < NPROC)%nat /\ p_state (pt (os_k s') p) = RUNNABLE /\ p_context (pt (os_k s') p) = CForkret /\
    p_pid (pt (os_k s') p) = k_nextpid (os_k s) /\ p_sz (pt (os_k s') p) = PGSIZE;
  fp_only : forall j, j <> p -> p_state (pt (os_k s') j) = UNUSED;
  fp_code : forall i, 0 <= i < PGSIZE -> exists a, hw_writable (pg_mem (os_pg s')) (p_pgdir (pt (os_k s') p)) i = Some a /\
    pg_mem (os_pg s') a = if i <? sz then pg_mem (os_pg s) (init + i) else 0;
  fp_frame : forall i, 0 <= i < TF_SIZE -> pg_mem (os_pg s') (p_tf (pt (os_k s') p) + i) = init_frame_byte i;
  fp_stack : stack_ready (pg_mem (os_pg s')) (p_kstack (pt (os_k s') p)) forkret_addr trapret_addr
}.

(** The process from its parts: memory after [allocproc] ([pg1]), [inituvm]
    ([pg2]) and [init_frame] ([pg3]). *)
Lemma first_memory A s np k3 pg1 pg2 pg3 F r d e Y init sz cwd nm :
  boot_ready A s -> (np < NPROC)%nat -> r ∈ A ->
  same_except {[r]} (pg_mem (os_pg s)) (pg_mem pg1) -> stack_ready (pg_mem pg1) r forkret_addr trapret_addr ->
  (forall q i, q ∈ A -> 0 <= i < sz -> ~ in_page q (init + i)) ->
  aspace data pg2 F d e 1 Y -> F ∪ Y = A ∖ {[r]} -> same_except (A ∖ {[r]}) (pg_mem pg1) (pg_mem pg2) ->
  user_page e 0 = true -> Z.land (e 0) PTE_W <> 0 -> (forall i, 0 <= i < PGSIZE -> pg_mem pg2 (uaddr e i) = if i <? sz then pg_mem pg1 (init + i) else 0) ->
  pg_rep pg3 F -> same_except {[r]} (pg_mem pg2) (pg_mem pg3) -> (forall i, 0 <= i < TF_SIZE -> pg_mem pg3 (r + 4020 + i) = init_frame_byte i) ->
  (forall a, r <= a < r + 4020 -> pg_mem pg3 a = pg_mem pg2 a) ->
  (forall j, pt k3 j = updn (pt (os_k s)) np ((new_proc zero_proc (k_nextpid (os_k s)) r) <| p_pgdir := d |> <| p_sz := PGSIZE |> <| p_name := nm |>
     <| p_cwd := cwd |> <| p_state := RUNNABLE |>) j) ->
  (exists own, mem_rep data A ∅ pg3 (pt k3) F own) /\ stack_ready (pg_mem pg3) r forkret_addr trapret_addr /\
  (forall i, 0 <= i < PGSIZE -> exists a, hw_writable (pg_mem pg3) d i = Some a /\ pg_mem pg3 a = if i <? sz then pg_mem (os_pg s) (init + i) else 0).
Proof.
  intros Hb Hnp HrA Hs1 Hst Hinit Ha HFY Hs2 Hu0 Hw0 Hbytes Hp3 Hs3 Hfr Hlow Hj. pose proof (boot_mem A s Hb) as Hm.
  pose proof (pg_valid _ _ _ (br_pages _ _ Hb) HrA) as Hro. destruct (page_bounds pg_end pg_end_ok r Hro) as (B0 & B1 & B2).
  assert (HrF : r ∉ F /\ r ∉ Y) by (clear -HFY; set_solver). destruct HrF as [HrF HrY]. pose proof (aspace_apart _ _ _ _ _ _ _ Ha) as Hap.
  assert (Ha3 : aspace data pg3 F d e 1 Y) by (eapply aspace_other; [exact Ha|done|exact Hs3|]; clear -Hap HrY; set_solver).
  assert (E3 : pt k3 np = (new_proc zero_proc (k_nextpid (os_k s)) r) <| p_pgdir := d |> <| p_sz := PGSIZE |> <| p_name := nm |>
     <| p_cwd := cwd |> <| p_state := RUNNABLE |>) by (rewrite Hj; apply updn_eq).
  split; [|split].
  - exists (updn (fun _ => ∅) np ({[r]} ∪ Y)). eapply (mem_change data A ∅ ∅ (os_pg s) pg3 (pt (os_k s)) (pt k3) A F (fun _ => ∅) np); try done.
    + intros j Hne. rewrite Hj, updn_ne by done. apply same_mem_refl.
    + eapply same_except_weaken; [|eapply same_except_trans; [exact Hs1|eapply same_except_trans; [exact Hs2|exact Hs3]]]. clear -HrA. set_solver.
    + clear -HFY HrA. apply set_eq. intros q. assert (E : q ∈ F ∪ Y <-> q ∈ A ∖ {[r]}) by (by rewrite HFY). destruct (decide (q = r)); set_solver.
    + clear -Hap HrF. set_solver.
    + intros _. exists e, 1. rewrite E3. split; [|done| |cbn; unfold PGSIZE, KERNBASE; lia|by left].
      * exists Y. split; [exact Ha3|done].
      * change (r + 4020 = r + 4096 - 76). lia.
    + rewrite E3. intros Hx. exfalso. by apply Hx.
  - apply (stack_kept forkret_addr trapret_addr (pg_mem pg2)); [lia|lia|done|]. apply (stack_kept forkret_addr trapret_addr (pg_mem pg1)); [lia|lia| |done].
    intros a Haa. apply (Hs2 r); [done|clear; set_solver|unfold in_page, PGSIZE; lia].
  - intros i Hi. exists (uaddr e i). unfold PGSIZE in Hi. assert (Ei : i / 4096 = 0) by (apply Z.div_small; lia). pose proof (aspace_frame _ _ _ _ _ _ _ 0 Ha ltac:(lia)) as Hfy.
    destruct Ha3 as (He3 & T & Hu & _). unfold user_page in Hu0. apply andb_true_iff in Hu0 as [Hpr Hus]. split.
    + unfold hw_writable. rewrite (hw_translate_spec _ _ _ _ _ i Hu) by lia. rewrite Ei, Hpr. cbn [mbind option_bind].
      rewrite land_perms; [by rewrite Z.eqb_refl| |done]. by destruct (Z.eqb_spec (Z.land (e 0) PTE_U) 0).
    + rewrite (same_bytes data {[r]} Y e 1 pg2 pg3 i d F Ha Hs3), Hbytes; [|unfold PGSIZE; lia|lia|rewrite Ei; clear -Hfy HrY; set_solver].
      destruct (Z.ltb_spec i sz); [|done]. apply (outside_same {[r]}); [done|]. intros q ->%elem_of_singleton. apply Hinit; [done|lia].
Qed.

Lemma boot_unused A s j : boot_ready A s -> (j < NPROC)%nat -> pt (os_k s) j = zero_proc.
Proof. intros Hb Hj. unfold pt. rewrite (br_table _ _ Hb). by apply lookup_total_replicate_2. Qed.

Lemma boot_state A s j : boot_ready A s -> p_state (pt (os_k s) j) = UNUSED.
Proof.
  intros Hb. destruct (decide (j < NPROC)%nat) as [Hj|Hj]; [by rewrite (boot_unused A s j Hb Hj)|].
  unfold pt. by rewrite tab_out by (rewrite (br_table _ _ Hb), length_replicate; lia).
Qed.

(** Everything but memory, after [userinit]. *)
Lemma ready_inv A s np x k' pg' (io' : osfs S) F own h b :
  boot_ready A s -> (np < NPROC)%nat -> calm (ids := ids) h b k' -> k_cproc k' = k_cproc (os_k s) ->
  (forall j, pt k' j = updn (pt (os_k s)) np x j) -> (exists ip, p_cwd x = Some ip) -> o_files io' = o_files (os_io s) ->
  mem_rep data A ∅ pg' (pt k') F own -> os_inv data ids A ∅ (mk_os k' pg' (os_cpu s) (os_idt s) (os_kpgdir s) io').
Proof.
  intros Hb Hnp Hc Ecp Hj Hcwd Hio Hm. split; cbn; [by eauto|apply Hc| | |apply Hb|].
  - rewrite Hio, (br_files _ _ Hb). split; [apply boot_counted|apply length_replicate|intros i Hi _; by apply lookup_replicate_2].
  - intros i. rewrite Hj. unfold updn. case_decide; [done|]. intros [Hl _]. by rewrite (boot_state A s i Hb) in Hl.
  - assert (Hno : forall c p, cp k' c <> Some p).
    { intros c p. unfold cp. rewrite Ecp, (br_idle _ _ Hb). destruct (decide (c < length ids)%nat); [by rewrite lookup_total_replicate_2|].
      by rewrite list_lookup_total_alt, lookup_ge_None_2 by (rewrite length_replicate; lia). }
    split; [by exists h, b; apply Hc|by rewrite Ecp, (br_idle _ _ Hb), length_replicate|intros c p Hx; by destruct (Hno c p)|intros c c' p Hx; by destruct (Hno c p)].
Qed.

(** [userinit] creates the first process.  From the state [main] has prepared,
    with enough free pages, it succeeds and leaves a process that is ready to
    run: its address space is one writable page that holds [initcode] and
    zeros, its kernel stack returns through [forkret] and [trapret] to user
    mode at address 0, with user segments and interrupts on; every page is free
    or owned by the process, as the invariant [os_inv] says. *)
Lemma wp_userinit A s c id init sz :
  boot_ready A s -> ids !! c = Some id -> 0 <= sz < PGSIZE -> 0 <= init -> init + sz < 2 ^ 32 ->
  (forall q i, q ∈ A -> 0 <= i < sz -> ~ in_page q (init + i)) ->
  exists p s', userinit data forkret_addr trapret_addr id init sz s = Ok () s' /\ os_inv data ids A ∅ s' /\ first_proc s init sz p s' /\
    k_cproc (os_k s') = k_cproc (os_k s) /\ exists b, mach_rep ids (k_mach (os_k s')) (fun _ => []) no_depth b.
Proof.
  intros Hb Hid Hsz Hi His Hap. destruct (br_mach _ _ Hb) as [b Hr]. set (h := fun _ : nat => @nil Z) in *.
  assert (Hf : forall c', (c' < length ids)%nat -> PTLOCK ∉ h c') by (intros c' _; unfold h; set_solver).
  assert (Hc : calm (ids := ids) h b (os_k s)) by (split; [by rewrite (br_table _ _ Hb), length_replicate|done]).
  enough (W : wp (userinit data forkret_addr trapret_addr id init sz) s (fun _ s' => os_inv data ids A ∅ s' /\ (exists p, first_proc s init sz p s') /\
    k_cproc (os_k s') = k_cproc (os_k s) /\ exists b, mach_rep ids (k_mach (os_k s')) (fun _ => []) no_depth b)).
  { apply wp_elim in W as ([] & s' & E & H1 & (p & H2) & H3). exists p, s'. done. }
  pose proof (br_pages _ _ Hb) as Hpg. pose proof (br_many _ _ Hb) as Hmany.
  assert (Es : s = mk_os (os_k s) (os_pg s) (os_cpu s) (os_idt s) (os_kpgdir s) (os_io s)) by (by destruct s). rewrite Es at 1.
  unfold userinit. wp_step. apply (wp_allocproc data forkret_addr trapret_addr Hdata Haddr c id Hid h b Hf _ _ _ _ _ _ A); [done|done| |].
  { intros k1 pg1 [->|Hu] _; [rewrite size_empty in Hmany; lia|]. specialize (Hu 0%nat ltac:(unfold NPROC; lia)). by rewrite (boot_unused A s 0 Hb) in Hu by (unfold NPROC; lia). }
  intros np r k1 pg1 Hc1 Hnp Hun HrA Hp1 Hs1 Hst Ecp Enx Hj1. cbv iota. rewrite (boot_unused A s np Hb Hnp) in Hj1.
  pose proof (pg_valid _ _ _ Hpg HrA) as Hro. wp_step. apply wp_on_k, wp_modify. set (k2 := k1 <| k_initproc := _ |>).
  wp_step. apply wp_on_pg. assert (HsF : (1099 <= size (A ∖ {[r]}))%nat) by (rewrite size_difference, size_singleton by (clear -HrA; set_solver); lia).
  eapply (wp_space_setup data Hdata _ (A ∖ {[r]})); [done|intros; lia|]. intros d pg2 F2 Y2 Hd0 Ha2 HF2 Hs2.
  wp_step. apply wp_setk; [apply Hc1|done|]. intros tab3 Ht3 Hj3. set (k3 := kset k2 (k_mach k2) tab3 (k_cproc k2)).
  assert (E3 : forall j, pt k3 j = updn (pt k2) np ((pt k2 np) <| p_pgdir := d |>) j) by exact Hj3.
  rewrite (proj2 (Z.eqb_neq d 0) Hd0). wp_step. apply wp_on_pg.
  assert (Hsz2 : (2 <= size F2)%nat).
  { pose proof (aspace_size data pg2 F2 d _ 0 Y2 Ha2) as Hy. rewrite <- HF2, size_union in HsF by (pose proof (aspace_apart _ _ _ _ _ _ _ Ha2) as Hx; clear -Hx; set_solver). lia. }
  apply (wp_space_init data Hdata _ F2 d Y2 init sz); [done|done|done|done|done| |].
  { intros q i Hq. apply Hap. rewrite HF2 in Hq. clear -Hq. set_solver. }
  intros pg4 F4 e Y4 Ha4 HF4 Hs4 Hu0 Hw0 Hby. wp_step. apply wp_setk; [exact Ht3|done|]. intros tab5 Ht5 Hj5. set (k5 := kset k3 (k_mach k3) tab5 (k_cproc k3)).
  assert (E5 : forall j, pt k5 j = updn (pt k3) np ((pt k3 np) <| p_sz := PGSIZE |>) j) by exact Hj5.
  assert (E5n : pt k5 np = (new_proc zero_proc (k_nextpid (os_k s)) r) <| p_pgdir := d |> <| p_sz := PGSIZE |>).
  { rewrite E5, updn_eq, E3, updn_eq. change (pt k2 np) with (pt k1 np). by rewrite Hj1, updn_eq. }
  wp_step. apply wp_getk. rewrite E5n. change (p_tf ((new_proc zero_proc (k_nextpid (os_k s)) r) <| p_pgdir := d |> <| p_sz := PGSIZE |>)) with (r + 4020). wp_step. apply wp_on_pg. rewrite HF2 in HF4, Hs4.
  apply (wp_init_frame _ F4 r); [by eapply aspace_rep|clear -HF4; set_solver|done|]. intros pg6 Hp6 Hs6 Hfr Hlow.
  wp_step. apply wp_setk; [exact Ht5|done|]. intros tab7 Ht7 Hj7. set (k7 := kset k5 (k_mach k5) tab7 (k_cproc k5)).
  assert (E7 : forall j, pt k7 j = updn (pt k5) np ((pt k5 np) <| p_name := copy_name (p_name (pt k5 np)) initcode_name |>) j) by exact Hj7.
  wp_step. apply wp_on_io, wp_zoom. apply wp_namei_root; [apply (br_inode _ _ Hb)|]. intros ip fs'.
  wp_step. apply wp_setk; [exact Ht7|done|]. intros tab8 Ht8 Hj8. set (k8 := kset k7 (k_mach k7) tab8 (k_cproc k7)).
  assert (E8 : forall j, pt k8 j = updn (pt k7) np ((pt k7 np) <| p_cwd := Some ip |>) j) by exact Hj8.
  apply wp_on_k. refine (proj2 (make_runnable_runs c id Hid k8 h b np _ Ht8 Hnp (ca_rep _ _ _ Hc1) _ _) Hf); [by apply Hf, (lookup_lt_Some _ _ _ Hid)|].
  intros m9 tab9 _ Hm9 Ht9 Hj9. set (k9 := kset k8 m9 tab9 (k_cproc k8)).
  set (nm := copy_name (p_name (pt k5 np)) initcode_name).
  assert (E9 : forall j, pt k9 j = updn (pt (os_k s)) np ((new_proc zero_proc (k_nextpid (os_k s)) r) <| p_pgdir := d |> <| p_sz := PGSIZE |> <| p_name := nm |>
     <| p_cwd := Some ip |> <| p_state := RUNNABLE |>) j).
  { intros j. change (pt k9 j) with (tab9 !!! j). rewrite Hj9. unfold updn. case_decide as E; [rewrite E8, updn_eq, E7, updn_eq; fold nm; rewrite E5n; done|].
    rewrite E8, updn_ne, E7, updn_ne, E5, updn_ne, E3, updn_ne by done. change (pt k2 j) with (pt k1 j). by rewrite Hj1, updn_ne. }
  destruct (first_memory A s np k9 pg1 pg4 pg6 F4 r d e Y4 init sz (Some ip) nm) as ([own Hm] & Hst' & Hcode); try done.
  { eapply same_except_weaken; [|eapply same_except_trans; [exact Hs2|exact Hs4]]. clear. set_solver. }
  { intros i Hii. rewrite Hby by done. destruct (Z.ltb_spec i sz); [|done]. apply (outside_same (A ∖ {[r]})); [done|]. intros q Hq. apply Hap; [|lia]. clear -Hq. set_solver. }
  assert (E9n : pt k9 np = (new_proc zero_proc (k_nextpid (os_k s)) r) <| p_pgdir := d |> <| p_sz := PGSIZE |> <| p_name := nm |>
     <| p_cwd := Some ip |> <| p_state := RUNNABLE |>) by (rewrite E9; apply updn_eq).
  split.
  - eapply (ready_inv A s np _ k9 pg6 _ F4 own h b); [done|done|by split|exact Ecp|exact E9|by exists ip|done|done].
  - split; [exists np; split; cbn [os_k os_pg]; [done|by rewrite E9n|intros j Hne; rewrite E9, updn_ne by done; by eapply boot_state|by rewrite E9n|by rewrite E9n|by rewrite E9n]|].
    cbn [os_k]. split; [exact Ecp|]. exists b. exact Hm9.
Qed.
End boot.
