(* ===== verification/Isolation.v ===== *)
(** Isolation: whatever the processes do after boot, they never share a byte.

    A trace of [os_step]s from the state [userinit] leaves: every user address
    of a process stands for a byte of a page that this process owns, that is no
    page of another process, no page table, no kernel stack and not free.  The
    pages lost are at most one for each [fork] that failed. *)

From S2P Require Import Prelude CString Layout Sleeplock BlockLayer Fs File Pipe TxnLayer SysFile.
From S2P Require Import Spinlock LockRep Kalloc Vm VmRep VmUser VmCopy VmOut VmSpace.
From S2P Require Import Proc ProcOps ProcEff Seg ProcMem Exec ExecMem ProcSpace ProcFork ProcLife ProcSteps ProcIso ExecRun ExecInv ProcBoot.

(** Pages a trace may lose. *)
Definition lost (tr : list event) : nat := foldr (fun ev n => (may_lose ev + n)%nat) 0%nat tr.

Section isolation.
Context {P S : Type} `{!PageOps P} `{!PageLayer P} `{!BlockOps S} `{!DevOps S} `{!TxnOps S}.
Variables data cpus forkret_addr trapret_addr : Z.
Hypothesis Hdata : data_ok data.
Hypothesis Haddr : 0 <= forkret_addr < 2 ^ 32 /\ 0 <= trapret_addr < 2 ^ 32.
Context (ids : list Z).
Implicit Types (s : os P S) (pg : P) (F Y L A : gset Z) (k : kern).
Local Notation step := (os_step data cpus forkret_addr trapret_addr ids).

Inductive os_run s : list event -> os P S -> Prop :=
| run_nil : os_run s [] s
| run_step tr s1 ev s2 : os_run s tr s1 -> step s1 ev s2 -> os_run s (ev :: tr) s2.

(** The byte at address [va] of process [p]. *)
Definition user_byte s (p : nat) (va : Z) : option Z := hw_user (pg_mem (os_pg s)) (p_pgdir (pt (os_k s) p)) va.

(** Page [q] is the kernel's: a kernel stack, a page directory or one of its
    page tables. *)
Definition kernel_page s (q : Z) : Prop :=
  exists p, used (pt (os_k s) p) /\
    (q = p_kstack (pt (os_k s) p) \/ q = p_pgdir (pt (os_k s) p) \/
     exists d, 0 <= d < 1024 /\ present (load32 (pg_mem (os_pg s)) (p_pgdir (pt (os_k s) p) + 4 * d)) = true /\
       q = P2V (PTE_ADDR (load32 (pg_mem (os_pg s)) (p_pgdir (pt (os_k s) p) + 4 * d)))).

(** A page the directory points to is a page table. *)
Lemma table_page pg F pgdir T e d : uvm pg F pgdir T e -> 0 <= d < 1024 -> present (load32 (pg_mem pg) (pgdir + 4 * d)) = true ->
  P2V (PTE_ADDR (load32 (pg_mem pg) (pgdir + 4 * d))) ∈ tabs T.
Proof.
  intros Hu Hd. pose proof (u_vm _ _ _ _ _ Hu) as Hvm. rewrite (pr_dir _ _ _ _ (vm_pt _ _ _ _ _ Hvm)) by done. destruct (T !! d) as [t|] eqn:Ed; [|done]. intros _.
  destruct (vmr_pages _ _ _ _ _ _ _ Hvm Ed) as (_ & Hto & _). destruct (pde_of pg_end pg_end_ok t Hto) as (_ & _ & ->). apply elem_tabs; by exists d.
Qed.

(** Each user address of [p] is in a user page of [p]. *)
Lemma user_page A L s F own p va a :
  mem_rep data A L (os_pg s) (pt (os_k s)) F own -> used (pt (os_k s) p) -> 0 <= va < 2 ^ 32 -> user_byte s p va = Some a ->
  va < KERNBASE /\ exists r, r ∈ own p /\ in_page r a /\ page_ok pg_end r /\ ~ kernel_page s r.
Proof.
  intros Hm Hu Hva Hb. unfold user_byte, hw_user in Hb. destruct (hw_translate _ _ va) as [[a' pte]|] eqn:Et; [|done]. cbn in Hb.
  destruct (Z.eqb_spec (Z.land pte PTE_U) PTE_U) as [EU|]; [|done]. injection Hb as ->. destruct (mr_slot _ _ _ _ _ _ _ Hm p Hu) as (e & n & Hs).
  destruct (sl_space _ _ _ _ _ _ _ Hs) as (Ya & (He & T & Huv & Hp) & EY & Hk).
  pose proof Et as Et'. rewrite (hw_translate_spec _ _ _ _ _ _ Huv) in Et by done. destruct (present (e (va / 4096))) eqn:Ep; [|done]. injection Et as <- <-.
  assert (Hlt : va < KERNBASE).
  { destruct (Z.lt_ge_cases va KERNBASE) as [|Hge]; [done|]. exfalso. rewrite (eo_kern _ _ _ He), kern_no_user in EU; [done|].
    unfold UPAGES, KERNBASE in *. split; [apply Z.div_le_lower_bound; lia|apply Z.div_lt_upper_bound; lia]. }
  assert (Hv : 0 <= va / 4096 < UPAGES) by (unfold UPAGES, KERNBASE in *; split; [apply Z.div_pos; lia|apply Z.div_lt_upper_bound; lia]).
  destruct (u_frame _ _ _ _ _ Huv _ Hv Ep) as (Hf & _ & Hnot). pose proof (Z.mod_pos_bound va 4096 ltac:(lia)) as Hmod. split; [done|].
  exists (frame_of (e (va / 4096))). assert (Hown : frame_of (e (va / 4096)) ∈ Ya) by (apply Hp; right; right; by exists (va / 4096)).
  split; [rewrite EY; set_solver|]. split; [unfold in_page, uaddr, PGSIZE; lia|]. split; [done|]. intros (q & Hq & Hkp).
  destruct (mr_slot _ _ _ _ _ _ _ Hm q Hq) as (e' & n' & Hs'). destruct (sl_space _ _ _ _ _ _ _ Hs') as (Yq & (He' & T' & Hu' & Hp') & EYq & Hkq).
  assert (Hin : frame_of (e (va / 4096)) ∈ own q).
  { rewrite EYq. destruct Hkp as [->|[->|(d & Hd & Hpr & ->)]]; [set_solver|apply elem_of_union_r, Hp'; by left|].
    apply elem_of_union_r, Hp'. right; left. by eapply table_page. }
  destruct (decide (p = q)) as [<-|Hne]; [|apply (mr_apart _ _ _ _ _ _ _ Hm p q Hne (frame_of (e (va / 4096)))); [rewrite EY; set_solver|done]].
  destruct Hkp as [E|[E|(d & Hd & Hpr & E)]]; [apply Hk; by rewrite <- E|apply Hnot; rewrite E; set_solver|].
  apply Hnot. rewrite E. apply elem_of_union_r. by eapply table_page.
Qed.
(** [F] are the free pages of [s], [L] those lost, out of the pages [A] there were at boot. *)
Record isolated A F L s : Prop := {
  iso_cpu : forall c p, cp (os_k s) c = Some p -> used (pt (os_k s) p) /\ cr3 s c = V2P (p_pgdir (pt (os_k s) p));
  iso_user : forall p va a, used (pt (os_k s) p) -> 0 <= va < 2 ^ 32 -> user_byte s p va = Some a ->
    va < KERNBASE /\ exists r, in_page r a /\ r ∈ A /\ r ∉ F ∪ L /\ ~ kernel_page s r;
  iso_apart : forall p q va va' a, p <> q -> used (pt (os_k s) p) -> used (pt (os_k s) q) -> 0 <= va < 2 ^ 32 -> 0 <= va' < 2 ^ 32 ->
    user_byte s p va = Some a -> user_byte s q va' <> Some a;
  iso_all : forall r, r ∈ A -> r ∈ F \/ r ∈ L \/ kernel_page s r \/
    exists p va a pte, used (pt (os_k s) p) /\ 0 <= va < KERNBASE /\ hw_translate (pg_mem (os_pg s)) (p_pgdir (pt (os_k s) p)) va = Some (a, pte) /\ in_page r a
}.

(** What a page of [p] is for. *)
Lemma own_page A L s F own p r :
  mem_rep data A L (os_pg s) (pt (os_k s)) F own -> r ∈ own p -> kernel_page s r \/
    exists p va a pte, used (pt (os_k s) p) /\ 0 <= va < KERNBASE /\ hw_translate (pg_mem (os_pg s)) (p_pgdir (pt (os_k s) p)) va = Some (a, pte) /\ in_page r a.
Proof.
  intros Hm Hr. assert (Hu : used (pt (os_k s) p)) by (destruct (decide (used (pt (os_k s) p))) as [|Hn]; [done|rewrite (mr_unused _ _ _ _ _ _ _ Hm p Hn) in Hr; set_solver]).
  destruct (mr_slot _ _ _ _ _ _ _ Hm p Hu) as (e & n & Hs). destruct (sl_space _ _ _ _ _ _ _ Hs) as (Ya & (He & T & Huv & Hp) & EY & _).
  rewrite EY in Hr. apply elem_of_union in Hr as [->%elem_of_singleton|Hr]; [left; exists p; eauto|]. apply Hp in Hr as [->|[Ht|(x & Hx & Epr & <-)]]; [left; exists p; eauto| |].
  - left. exists p. split; [done|]. right; right. apply elem_tabs in Ht as [d Ed]. pose proof (u_vm _ _ _ _ _ Huv) as Hvm.
    destruct (vmr_pages _ _ _ _ _ _ _ Hvm Ed) as (Hd & Hto & _). destruct (pde_of pg_end pg_end_ok r Hto) as (_ & E1 & E2). exists d.
    rewrite (pr_dir _ _ _ _ (vm_pt _ _ _ _ _ Hvm)) by done. by rewrite Ed.
  - right. exists p, (4096 * x), (uaddr e (4096 * x)), (e x). unfold UPAGES in Hx. split; [done|]. split; [unfold KERNBASE; lia|].
    rewrite (hw_translate_spec _ _ _ _ _ _ Huv) by lia. replace (4096 * x / 4096) with x by (rewrite Z.mul_comm; by rewrite Z.div_mul). rewrite Epr. split; [done|].
    unfold in_page, uaddr, PGSIZE. rewrite Z.mul_comm, Z.div_mul, Z.mod_mul by lia. lia.
Qed.

Lemma inv_isolated A L s : os_inv data ids A L s -> exists F, pg_rep (os_pg s) F /\ isolated A F L s.
Proof.
  intros Hi. destruct (oi_mem _ _ _ _ _ Hi) as (F & own & Hm). exists F. split; [apply Hm|]. split.
  - intros c p Hc. destruct (run_lt _ _ _ _ _ _ _ Hi Hc) as (_ & _ & Hu & _ & Hcr). done.
  - intros p va a Hu Hva Hb. destruct (user_page _ _ _ _ _ _ _ _ Hm Hu Hva Hb) as (Hlt & r & Hr & Hin & _ & Hk). split; [done|]. exists r.
    split; [done|]. split; [apply (mr_all _ _ _ _ _ _ _ Hm); eauto|]. split; [|done].
    pose proof (mr_free _ _ _ _ _ _ _ Hm p). pose proof (proj2 (mr_lost _ _ _ _ _ _ _ Hm) p). set_solver.
  - intros p q va va' a Hne Hu Hu' Hva Hva' Hb Hb'. destruct (user_page _ _ _ _ _ _ _ _ Hm Hu Hva Hb) as (_ & r & Hr & Hin & [Hro _] & _).
    destruct (user_page _ _ _ _ _ _ _ _ Hm Hu' Hva' Hb') as (_ & r' & Hr' & Hin' & [Hro' _] & _).
    destruct (decide (r = r')) as [<-|Hrr]; [|by apply (pages_apart r r' a Hro Hro' Hrr)]. apply (mr_apart _ _ _ _ _ _ _ Hm p q Hne r); done.
  - intros r HA. apply (mr_all _ _ _ _ _ _ _ Hm) in HA as [?|[?|[p Hp]]]; [by left|by right; left|right; right]. by eapply own_page.
Qed.

(** C34: [userinit] makes the first process: from the state [main] has prepared,
    with enough free pages, it returns and leaves a process that is ready to
    run: its address space is one writable page that holds [initcode] and
    zeros, its kernel stack returns through [forkret] and [trapret] to user
    mode at address 0, with user segments and interrupts on; no page is lost and
    the process is isolated from the kernel. *)
Theorem userinit_correct A s c id init sz :
  boot_ready ids A s -> ids !! c = Some id -> 0 <= sz < PGSIZE -> 0 <= init -> init + sz < 2 ^ 32 ->
  (forall q i, q ∈ A -> 0 <= i < sz -> ~ in_page q (init + i)) ->
  exists p s' F, userinit data forkret_addr trapret_addr id init sz s = Ok () s' /\ first_proc forkret_addr trapret_addr s init sz p s' /\
    pg_rep (os_pg s') F /\ isolated A F ∅ s'.
Proof.
  intros Hb Hid Hsz H0 H1 Hap. destruct (wp_userinit data forkret_addr trapret_addr Hdata Haddr ids A s c id init sz Hb Hid Hsz H0 H1 Hap) as (p & s' & E & Hi & Hf & _).
  destruct (inv_isolated _ _ _ Hi) as (F & HF & Hiso). exists p, s', F. done.
Qed.
(** ** Traces *)

Section traces.
Hypothesis Hdev : dev_short (S := S).

Lemma run_keeps A L s tr s' : os_inv data ids A L s -> os_run s tr s' ->
  exists X, keeps data ids A (L ∪ X) (fun q => Exists (fun ev => touches ev q) tr) s s' /\ (size X <= lost tr)%nat.
Proof.
  intros Hi. induction 1 as [|tr s1 ev s2 _ IH Hst].
  { exists ∅. rewrite (right_id_L ∅ (∪)), size_empty. split; [|done]. split; [done|]. apply others_life; [done|]. intros j _. apply same_life_refl. }
  destruct IH as (X & [Hi1 Ho1] & HX). destruct (step_inv _ _ _ _ Hdata Haddr Hdev ids A _ s1 ev s2 Hi1 Hst) as (X2 & [Hi2 Ho2] & HX2). exists (X ∪ X2).
  rewrite (assoc_L (∪)). split.
  - split; [done|]. eapply others_trans; (eapply others_weaken; [|eassumption]); intros q Hq; [by apply Exists_cons_tl|by apply Exists_cons_hd].
  - pose proof (size_union_alt X X2) as E. pose proof (subseteq_size (X2 ∖ X) X2 ltac:(set_solver)). unfold lost in *. cbn [foldr]. lia.
Qed.

(** C1: From boot, through any sequence of system calls, user stores, file and
    scheduling operations on any CPUs: user code of a process reaches only its
    own pages, never those of another process, a page table, a kernel stack or
    a free page, each CPU walks the page table of the process it runs, and each
    page is free, in use or lost, the lost ones at most as many as there were
    failed [fork]s. *)
Theorem memory_isolation A s0 c id init sz s1 tr s2 :
  boot_ready ids A s0 -> ids !! c = Some id -> 0 <= sz < PGSIZE -> 0 <= init -> init + sz < 2 ^ 32 ->
  (forall q i, q ∈ A -> 0 <= i < sz -> ~ in_page q (init + i)) ->
  userinit data forkret_addr trapret_addr id init sz s0 = Ok () s1 -> os_run s1 tr s2 ->
  exists F L, pg_rep (os_pg s2) F /\ isolated A F L s2 /\ (size L <= lost tr)%nat.
Proof.
  intros Hb Hid Hsz H0 H1 Hap E Hrun. destruct (wp_userinit data forkret_addr trapret_addr Hdata Haddr ids A s0 c id init sz Hb Hid Hsz H0 H1 Hap) as (p & s' & E' & Hi & _).
  rewrite E in E'. injection E' as <-. destruct (run_keeps _ _ _ _ _ Hi Hrun) as (L & [Hi2 _] & HL). rewrite (left_id_L ∅ (∪)) in Hi2.
  destruct (inv_isolated _ _ _ Hi2) as (F & HF & Hiso). by exists F, L.
Qed.

(** C2: Nobody else touches a process: along any sequence of steps in which process
    [q] neither stores, nor changes its size, nor calls [exec], nor exits, whatever the others do,
    [q] stays alive with its page table and size, and sees the same bytes with
    the same permissions at every address. *)
Theorem process_integrity A s0 c id init sz s1 tr s2 tr' s3 q :
  boot_ready ids A s0 -> ids !! c = Some id -> 0 <= sz < PGSIZE -> 0 <= init -> init + sz < 2 ^ 32 ->
  (forall q i, q ∈ A -> 0 <= i < sz -> ~ in_page q (init + i)) ->
  userinit data forkret_addr trapret_addr id init sz s0 = Ok () s1 -> os_run s1 tr s2 -> os_run s2 tr' s3 ->
  live (pt (os_k s2) q) -> Forall (fun ev => ~ touches ev q) tr' -> kept_proc s2 s3 q.
Proof.
  intros Hb Hid Hsz H0 H1 Hap E Hrun Hrun' Hlv Hno. destruct (wp_userinit data forkret_addr trapret_addr Hdata Haddr ids A s0 c id init sz Hb Hid Hsz H0 H1 Hap) as (p & s' & E' & Hi & _).
  rewrite E in E'. injection E' as <-. destruct (run_keeps _ _ _ _ _ Hi Hrun) as (L & [Hi2 _] & _).
  destruct (run_keeps _ _ _ _ _ Hi2 Hrun') as (X & [_ Ho] & _). apply Ho; [done|]. by apply Forall_Exists_neg.
Qed.

End traces.
End isolation.
