(* ===== verification/ForkThms.v ===== *)
(** [fork] and [sbrk] as a user program sees them.

    [fork_correct]: the child sees exactly what its parent sees, at every
    address, in pages of its own; [growproc_correct] says the same of a process
    that changes its size. *)

From S2P Require Import Prelude CString Layout Sleeplock BlockLayer Fs File Pipe TxnLayer SysFile.
From S2P Require Import Spinlock LockRep Kalloc Vm VmRep VmUser VmCopy VmOut VmSpace.
From S2P Require Import Proc ProcOps ProcEff Seg ProcMem ProcSpace ProcFork ProcLife ProcSteps ProcIso.

(** User code may read, and write, a page with these flags. *)
Definition may_read (fl : Z) : bool := Z.land fl PTE_U =? PTE_U.
Definition may_write (fl : Z) : bool := Z.land fl (Z.lor PTE_U PTE_W) =? Z.lor PTE_U PTE_W.

Lemma flags_land pte k : Z.land 4095 k = k -> Z.land pte k = Z.land (PTE_FLAGS pte) k.
Proof. intros E. unfold PTE_FLAGS. by rewrite <- Z.land_assoc, E. Qed.

Lemma copied_perms fl : may_read (Z.lor fl PTE_P) = may_read fl /\ may_write (Z.lor fl PTE_P) = may_write fl.
Proof.
  unfold may_read, may_write. rewrite !Z.land_lor_distr_l. change (Z.land PTE_P PTE_U) with 0. change (Z.land PTE_P (Z.lor PTE_U PTE_W)) with 0.
  by rewrite !Z.lor_0_r.
Qed.

Section calls.
Context {P S : Type} `{!PageOps P} `{!PageLayer P} `{!BlockOps S} `{!DevOps S} `{!TxnOps S}.
Variables data cpus forkret_addr trapret_addr : Z.
Hypothesis Hdata : data_ok data.
Hypothesis Haddr : 0 <= forkret_addr < 2 ^ 32 /\ 0 <= trapret_addr < 2 ^ 32.
Context (ids : list Z).
Implicit Types (s : os P S) (pg : P) (F Y L A : gset Z) (k : kern).

(** What a process sees of an address space of [n] pages. *)
Lemma seen_spec pg F pgdir e n Y va : aspace data pg F pgdir e n Y -> 0 <= va < 2 ^ 32 ->
  seen (pg_mem pg) pgdir va =
    if (va <? 4096 * n) && may_read (PTE_FLAGS (e (va / 4096))) then Some (pg_mem pg (uaddr e va), may_write (PTE_FLAGS (e (va / 4096)))) else None.
Proof.
  intros (He & T & Hu & Hp) Hva. unfold seen, hw_user, hw_writable. rewrite (hw_translate_spec _ _ _ _ _ _ Hu) by done.
  assert (Hv : 0 <= va / 4096 < 1048576) by (split; [apply Z.div_pos; lia|apply Z.div_lt_upper_bound; lia]).
  pose proof (Z.div_mod va 4096 ltac:(lia)) as Hdm. pose proof (Z.mod_pos_bound va 4096 ltac:(lia)) as Hmb.
  destruct (Z.ltb_spec va (4096 * n)) as [Hlt|Hge].
  - rewrite (eo_in _ _ _ He) by lia. cbn. unfold may_read, may_write. rewrite !(flags_land (e (va / 4096))) by done.
    destruct (Z.land (PTE_FLAGS _) PTE_U =? PTE_U); [|done]. cbn. do 2 f_equal. by destruct (_ =? _).
  - destruct (present (e (va / 4096))) eqn:Epr; [|done]. cbn. destruct (decide (va / 4096 < UPAGES)) as [Hl|Hl].
    + rewrite (eo_out _ _ _ He) in Epr by lia. done.
    + rewrite (eo_kern _ _ _ He), kern_no_user by lia. done.
Qed.

(** The child sees what the parent sees. *)
Lemma copied_seen pg F pgdir e n Y pg' F' d ed Yd va :
  aspace data pg F pgdir e n Y -> aspace data pg' F' d ed n Yd -> copied_bytes pg e n pg' ed -> 0 <= va < 2 ^ 32 ->
  seen (pg_mem pg') d va = seen (pg_mem pg) pgdir va.
Proof.
  intros Ha Hd Hc Hva. rewrite (seen_spec _ _ _ _ _ _ _ Ha Hva), (seen_spec _ _ _ _ _ _ _ Hd Hva). destruct (Z.ltb_spec va (4096 * n)); [|done].
  destruct (Hc va ltac:(lia)) as [-> ->]. destruct (copied_perms (PTE_FLAGS (e (va / 4096)))) as [-> ->]. done.
Qed.

(** Slot [np] holds the child of [p]. *)
Record forked s (p : nat) (r : Z) s' (np : nat) : Prop := {
  fo_pid : r = k_nextpid (os_k s) /\ p_pid (pt (os_k s') np) = r;
  fo_slot : (np < NPROC)%nat /\ p_state (pt (os_k s) np) = UNUSED /\ p_state (pt (os_k s') np) = RUNNABLE /\ p_parent (pt (os_k s') np) = Some p;
  fo_seen : forall va, 0 <= va < 2 ^ 32 -> seen (pg_mem (os_pg s')) (p_pgdir (pt (os_k s') np)) va = seen (pg_mem (os_pg s)) (p_pgdir (pt (os_k s) p)) va;
  fo_size : p_sz (pt (os_k s') np) = p_sz (pt (os_k s) p);
  fo_frame : frame_copied (pg_mem (os_pg s)) (p_tf (pt (os_k s) p)) (pg_mem (os_pg s')) (p_tf (pt (os_k s') np));
  fo_stack : stack_ready (pg_mem (os_pg s')) (p_kstack (pt (os_k s') np)) forkret_addr trapret_addr;
  fo_cwd : p_cwd (pt (os_k s') np) = p_cwd (pt (os_k s) p);
  fo_files : ofile (o_files (os_io s')) = <[np := ofile (o_files (os_io s)) !!! p]> (ofile (o_files (os_io s)))
}.

Lemma fork_done_forked A L h b s F own p e np s' :
  mem_rep data A L (os_pg s) (pt (os_k s)) F own -> slot_ok data (os_pg s) F (pt (os_k s) p) (own p) e (up_vpn (p_sz (pt (os_k s) p))) ->
  fork_done (ids := ids) data forkret_addr trapret_addr h b A L (os_k s) (os_pg s) (os_io s) F own p e np s' -> forked s p (k_nextpid (os_k s)) s' np.
Proof.
  intros Hm Hs [_ [Hnp Hun] (kst & pgd & Ht) (F' & own' & ed & Hm' & _ & Hs' & Hcb) _ Hfr Hst (f' & cwd & Ecwd & Eio & _ & Eo)].
  assert (En : pt (os_k s') np = child_of (pt (os_k s) np) (pt (os_k s) p) p (k_nextpid (os_k s)) kst pgd) by (rewrite Ht; apply updn_eq).
  split; [by rewrite En|by rewrite En| |by rewrite En|done|done|by rewrite En; cbn|].
  - intros va Hva. destruct (sl_space _ _ _ _ _ _ _ Hs) as (Ya & Ha & _). destruct (sl_space _ _ _ _ _ _ _ Hs') as (Yd & Hd & _). by eapply copied_seen.
  - by rewrite Eio.
Qed.

(** A CPU in user mode can take a step by [fork] when nobody holds the lock. *)
Lemma fork_runs A L s c id p :
  os_inv data ids A L s -> ids !! c = Some id -> cp (os_k s) c = Some p -> in_user s c -> (forall c', ~ has_lock (os_k s) c' PTLOCK) ->
  exists h b F own e, mach_rep ids (k_mach (os_k s)) h no_depth b /\ (forall c', (c' < length ids)%nat -> PTLOCK ∉ h c') /\
    mem_rep data A L (os_pg s) (pt (os_k s)) F own /\ slot_ok data (os_pg s) F (pt (os_k s) p) (own p) e (up_vpn (p_sz (pt (os_k s) p))).
Proof.
  intros Hi Hid Hcur Hus Hno. destruct (run_lt _ _ _ _ _ _ _ Hi Hcur) as (Hp & _ & Hu & Hlv & Hcr). destruct (oi_mem _ _ _ _ _ Hi) as (F & own & Hm).
  destruct (user_pages _ _ _ _ _ _ _ _ Hm Hu Hcr Hus) as [e Hs]. destruct (so_rep _ _ _ (oi_sched _ _ _ _ _ Hi)) as (h & b & Hrep).
  exists h, b, F, own, e. split; [done|]. split; [|done].
  intros c' Hc'. destruct (lookup_lt_is_Some_2 _ _ Hc') as [id' Hid']. rewrite <- (has_lock_in ids _ c' id' PTLOCK h b Hrep Hid'). apply Hno.
Qed.

Lemma fork_step A L s c id p :
  os_inv data ids A L s -> ids !! c = Some id -> cp (os_k s) c = Some p -> depth (os_k s) c = 0 -> in_user s c ->
  (forall c', ~ has_lock (os_k s) c' PTLOCK) -> exists r s', os_step data cpus forkret_addr trapret_addr ids s (EFork p r) s'.
Proof.
  intros Hi Hid Hcur Hd Hus Hno. destruct (fork_runs A L s c id p Hi Hid Hcur Hus Hno) as (h & b & F & own & e & Hrep & Hf & Hm & Hs).
  destruct (fork_keeps _ _ _ Hdata Haddr ids A L s c id p F own e h b Hi Hid Hcur Hrep Hf Hm Hs) as (r & s' & X & E & _).
  exists r, s'. by eapply st_fork.
Qed.

(** C4: [fork] from user mode, when no CPU holds the lock of the process table:
    either a new process exists that differs from its parent only in its pid, its
    pages and the 0 in [%eax] — it sees the same bytes with the same permissions
    at every address, has the same registers, descriptors and directory, and its
    kernel stack returns to user mode — or [fork] returns -1, and then the
    table was full or too few pages were left.  In both cases every live process
    keeps its memory, and at most one page is lost. *)
Theorem fork_correct A L s c id p :
  os_inv data ids A L s -> ids !! c = Some id -> cp (os_k s) c = Some p -> depth (os_k s) c = 0 -> in_user s c ->
  (forall c', ~ has_lock (os_k s) c' PTLOCK) ->
  exists r s' X, fork data forkret_addr trapret_addr id s = Ok r s' /\ keeps data ids A (L ∪ X) (fun _ => False) s s' /\
    ((exists np, forked s p r s' np /\ X = ∅) \/
     r = -1 /\ (exists F, pg_rep (os_pg s) F /\ fork_short (os_k s) F p) /\ (size X <= 1)%nat).
Proof.
  intros Hi Hid Hcur Hd Hus Hno. destruct (fork_runs A L s c id p Hi Hid Hcur Hus Hno) as (h & b & F & own & e & Hrep & Hf & Hm & Hs).
  destruct (fork_keeps _ _ _ Hdata Haddr ids A L s c id p F own e h b Hi Hid Hcur Hrep Hf Hm Hs) as (r & s' & X & E & HX & Hr).
  exists r, s', X. split; [done|]. split; [done|]. destruct Hr as [(np & Hd' & -> & ->)|(-> & Hsh & Hsz)].
  - left. exists np. split; [|done]. by eapply fork_done_forked.
  - right. split; [done|]. split; [|done]. exists F. split; [apply Hm|done].
Qed.
(** ** [growproc] *)

(** The process [p] has the new size: what it saw below the smaller of the two
    sizes, zeros it may write above the old one, nothing above the new one. *)
Record grown s (p : nat) (n : Z) s' : Prop := {
  gr_size : p_sz (pt (os_k s') p) = grow_size (p_sz (pt (os_k s) p)) n /\ p_pgdir (pt (os_k s') p) = p_pgdir (pt (os_k s) p);
  gr_kept : forall va, 0 <= va < 4096 * Z.min (up_vpn (p_sz (pt (os_k s) p))) (up_vpn (p_sz (pt (os_k s') p))) ->
    seen (pg_mem (os_pg s')) (p_pgdir (pt (os_k s) p)) va = seen (pg_mem (os_pg s)) (p_pgdir (pt (os_k s) p)) va;
  gr_new : forall va, 4096 * up_vpn (p_sz (pt (os_k s) p)) <= va < 4096 * up_vpn (p_sz (pt (os_k s') p)) ->
    seen (pg_mem (os_pg s')) (p_pgdir (pt (os_k s) p)) va = Some (0, true);
  gr_end : forall va, 4096 * up_vpn (p_sz (pt (os_k s') p)) <= va < 2 ^ 32 -> seen (pg_mem (os_pg s')) (p_pgdir (pt (os_k s) p)) va = None
}.

Lemma kept_seen pg F pgdir e n Y pg' F' e' n' Y' va :
  aspace data pg F pgdir e n Y -> aspace data pg' F' pgdir e' n' Y' -> kept_bytes pg e (Z.min n n') pg' e' -> 0 <= va < 4096 * Z.min n n' ->
  seen (pg_mem pg') pgdir va = seen (pg_mem pg) pgdir va.
Proof.
  intros Ha Ha' Hk Hva. assert (Hn : 0 <= n <= UPAGES) by apply (proj1 Ha). unfold UPAGES in Hn.
  rewrite (seen_spec _ _ _ _ _ _ _ Ha), (seen_spec _ _ _ _ _ _ _ Ha') by lia. destruct (Hk va Hva) as [E ->]. rewrite E.
  by rewrite !(proj2 (Z.ltb_lt va _)) by lia.
Qed.

(** A page the user may write. *)
Lemma page_perms (e : Z -> Z) x : user_page e x = true -> Z.land (e x) PTE_W <> 0 -> may_read (PTE_FLAGS (e x)) = true /\ may_write (PTE_FLAGS (e x)) = true.
Proof.
  intros [_ Hu]%andb_true_iff Hw. assert (E6 : Z.land (PTE_FLAGS (e x)) (Z.lor PTE_U PTE_W) = Z.lor PTE_U PTE_W).
  { rewrite <- flags_land by done. apply land_perms; [|done]. by destruct (Z.eqb_spec (Z.land (e x) PTE_U) 0). }
  assert (E4 : Z.land (PTE_FLAGS (e x)) PTE_U = PTE_U).
  { change PTE_U with (Z.land (Z.lor PTE_U PTE_W) PTE_U) at 1. by rewrite Z.land_assoc, E6. }
  unfold may_read, may_write. by rewrite E6, E4.
Qed.

(** A new page: the user's, and zero. *)
Lemma new_seen pg F pgdir e n Y v va :
  aspace data pg F pgdir e n Y -> new_pages pg e v n -> 0 <= v -> 4096 * v <= va < 4096 * n -> seen (pg_mem pg) pgdir va = Some (0, true).
Proof.
  intros Ha Hnew Hv Hva. assert (Hn : 0 <= n <= UPAGES) by apply (proj1 Ha). unfold UPAGES in Hn. rewrite (seen_spec _ _ _ _ _ _ _ Ha) by lia.
  rewrite (proj2 (Z.ltb_lt va _)) by lia. assert (Hx : v <= va / 4096 < n) by (split; [apply Z.div_le_lower_bound|apply Z.div_lt_upper_bound]; lia).
  destruct (Hnew _ Hx) as (Hu & Hw & Hz). destruct (page_perms e _ Hu Hw) as [-> ->]. cbn. do 2 f_equal. apply Hz. unfold in_page, uaddr, PGSIZE.
  pose proof (Z.mod_pos_bound va 4096 ltac:(lia)). lia.
Qed.

(** C33: [growproc(n)], which [sbrk] calls, returns.  On success the process has
    [grow_size] bytes: what it saw is kept up to the smaller size, new pages are
    zero and writable, and nothing is mapped above.  It fails for want of pages
    or room, and then the process sees what it saw; or when it asks to give back
    everything, and then every page is gone although the size is unchanged.
    No other process sees a change, and no page is lost. *)
Theorem growproc_correct A L s c id p n :
  os_inv data ids A L s -> ids !! c = Some id -> cp (os_k s) c = Some p -> in_user s c -> - 2 ^ 31 <= n < 2 ^ 31 ->
  exists r s', growproc cpus id n s = Ok r s' /\ keeps data ids A L (eq p) s s' /\
    (r = 0 /\ grown s p n s' \/
     r = -1 /\ pt (os_k s') p = pt (os_k s) p /\
       ((forall va, 0 <= va < 2 ^ 32 -> seen (pg_mem (os_pg s')) (p_pgdir (pt (os_k s) p)) va = seen (pg_mem (os_pg s)) (p_pgdir (pt (os_k s) p)) va) /\
          (exists F, pg_rep (os_pg s) F /\ grow_short (p_sz (pt (os_k s) p)) n F) \/
        n < 0 /\ p_sz (pt (os_k s) p) + n = 0 /\ forall va, 0 <= va < 2 ^ 32 -> seen (pg_mem (os_pg s')) (p_pgdir (pt (os_k s) p)) va = None)).
Proof.
  intros Hi Hid Hcur Hus Hn. destruct (run_lt _ _ _ _ _ _ _ Hi Hcur) as (Hp & _ & Hu & Hlv & Hcr). destruct (oi_mem _ _ _ _ _ Hi) as (F & own & Hm).
  destruct (user_pages _ _ _ _ _ _ _ _ Hm Hu Hcr Hus) as [e Hs]. destruct (sl_space _ _ _ _ _ _ _ Hs) as (Ya & Ha & _).
  destruct (grow_keeps data cpus ids A L s c id p F own e n Hi Hid Hcur Hn Hm Hs) as (r & s' & E & Hk & Hg). exists r, s'. split; [done|]. split; [done|].
  destruct Hg as [(-> & Ept & _ & e' & (F' & own' & _ & _ & Hs') & Hkb & Hnew)|(-> & Ept & [((F' & own' & _ & _ & Hs') & Hkb & Hsh)|(Hneg & H0 & e' & F' & own' & _ & _ & Hs')])];
    destruct (sl_space _ _ _ _ _ _ _ Hs') as (Ya' & Ha' & _); rewrite Ept in Ha'.
  - left. split; [done|]. split; rewrite Ept; cbn [p_sz p_pgdir set_field]; [done|..].
    + intros va Hva. by eapply kept_seen.
    + intros va Hva. destruct Hs as [_ _ _ Hsz _]. pose proof (up_vpn_bounds (p_sz (pt (os_k s) p)) ltac:(lia)). by eapply (new_seen _ _ _ _ _ _ (up_vpn (p_sz (pt (os_k s) p)))); [exact Ha'|exact Hnew|lia|].
    + intros va Hva. destruct (proj1 Ha') as [Hn' _ _ _]. rewrite (seen_spec _ _ _ _ _ _ _ Ha') by lia. by rewrite (proj2 (Z.ltb_ge va _)) by lia.
  - right. split; [done|]. split; [done|]. left. split; [|exists F; split; [apply Hm|done]]. intros va Hva.
    destruct (Z.lt_ge_cases va (4096 * up_vpn (p_sz (pt (os_k s) p)))) as [Hlt|Hge]; [eapply kept_seen; [exact Ha|exact Ha'|..]; rewrite Z.min_id; [done|lia]|].
    rewrite (seen_spec _ _ _ _ _ _ _ Ha), (seen_spec _ _ _ _ _ _ _ Ha') by lia. by rewrite (proj2 (Z.ltb_ge va _)) by lia.
  - right. split; [done|]. split; [done|]. right. split; [done|]. split; [done|]. intros va Hva. rewrite (seen_spec _ _ _ _ _ _ _ Ha') by lia.
    by rewrite (proj2 (Z.ltb_ge va _)) by lia.
Qed.
End calls.
