(* ===== verification/ExecThm.v ===== *)
(** [exec] as a user program sees it.

    On a sound file system the call returns, and either the process now runs
    the program in the file, with its arguments on the stack, or nothing has
    changed and one of the reasons of [exec_fails] holds. *)

From S2P Require Import FsRW FsDir FsTree FsRest FileIO.
From S2P Require Import Prelude CString Layout Sleeplock BlockLayer Fs File Pipe TxnLayer SysFile.
From S2P Require Import Spinlock LockRep Kalloc Vm VmRep VmUser VmCopy VmOut VmSpace.
From S2P Require Import Proc ProcOps ProcEff Seg ProcMem Exec ExecMem ProcSpace ProcFork ProcLife.
From S2P Require Import ProcSteps ExecLoad ExecCommit ExecRun ProcIso ExecInv ForkThms.

Section exec.
Context {P S : Type} `{!PageOps P} `{!PageLayer P} `{!BlockOps S} `{!BlockLayer S} `{!DevOps S} `{!TxnOps S} `{!TxnLayer S}.
Variables data cpus : Z.
Hypothesis Hdata : data_ok data.
Context (ids : list Z).
Implicit Types (s : os P S) (pg : P) (F Y L A : gset Z) (k : kern).

(** The process [p] runs the program of the file [file] with the arguments
    [argv]: [img] are the bytes of its [N] pages, above them is a page it may
    not touch, and above that its stack. *)
Record executed s (p : nat) (file path : list Z) (argv : list (list Z)) (N : Z) (hdr : list Z) (img : Z -> Z) s' : Prop := {
  ex_program : exists sz, program (reads file) hdr sz img /\ N = up_vpn sz;
  ex_proc : exists pgdir, pt (os_k s') p = exec_proc path pgdir (4096 * (N + 2)) (pt (os_k s) p);
  ex_code : forall va, 0 <= va < 4096 * N -> seen (pg_mem (os_pg s')) (p_pgdir (pt (os_k s') p)) va = Some (img va, true);
  ex_stack : exists st, args_at st (stack_bottom N argv) argv /\ forall va, 4096 * (N + 1) <= va < 4096 * (N + 2) ->
    seen (pg_mem (os_pg s')) (p_pgdir (pt (os_k s') p)) va = Some (st va, true);
  ex_none : forall va, 4096 * N <= va < 4096 * (N + 1) \/ 4096 * (N + 2) <= va < 2 ^ 32 -> seen (pg_mem (os_pg s')) (p_pgdir (pt (os_k s') p)) va = None;
  ex_entry : load32 (pg_mem (os_pg s')) (p_tf (pt (os_k s) p) + TF_eip) = eh_entry (elf_of hdr);
  ex_sp : load32 (pg_mem (os_pg s')) (p_tf (pt (os_k s) p) + TF_esp) = stack_bottom N argv;
  ex_frame : frame_same (pg_mem (os_pg s)) (p_tf (pt (os_k s) p)) (pg_mem (os_pg s')) (p_tf (pt (os_k s) p))
}.

(** What the entries of a finished image let the user see. *)
Lemma finished_seen pg F pgdir e N Y img va : aspace data pg F pgdir e (N + 2) Y -> shows pg e (N + 2) img ->
  (forall x, 0 <= x < N + 2 -> user_page e x = negb (x =? N) /\ Z.land (e x) PTE_W <> 0) -> 0 <= va < 2 ^ 32 ->
  seen (pg_mem pg) pgdir va = if (va <? 4096 * (N + 2)) && negb (va / 4096 =? N) then Some (img va, true) else None.
Proof.
  intros Ha Hs Hr Hva. rewrite (seen_spec data _ _ _ _ _ _ _ Ha Hva). destruct (Z.ltb_spec va (4096 * (N + 2))) as [Hlt|]; [|done]. cbn [andb].
  pose proof (vpn_of va (N + 2) ltac:(lia)) as Hv. destruct (Hr _ Hv) as [Hu Hw]. rewrite <- (Hs va ltac:(lia)). destruct (va / 4096 =? N); cbn [negb] in *.
  - unfold user_page in Hu. rewrite (eo_in _ _ _ (proj1 Ha)) in Hu by done. cbn [andb] in Hu. apply negb_false_iff, Z.eqb_eq in Hu. unfold may_read. by rewrite <- flags_land, Hu.
  - by destruct (page_perms e _ Hu Hw) as [-> ->].
Qed.

Lemma page_below va N : 0 <= va < 4096 * N -> (va / 4096 =? N) = false.
Proof. intros H. apply Z.eqb_neq. pose proof (vpn_of va N H). lia. Qed.

Lemma done_executed A L s c own p file path argv pgdir N entry e img s' :
  exec_image (reads file) argv N entry img -> exec_done data c A L (os_k s) (os_pg s) own p path pgdir N entry (stack_bottom N argv) e img s' ->
  exists hdr img0, executed s p file path argv N hdr img0 s'.
Proof.
  intros (hdr & sz & img0 & Hpr & EN & -> & Hi & Hk & Hm & Hlo) [Ep _ (F' & own' & _ & _ & Hsl) Hsh Hri He Hsp Hfr].
  destruct (sl_space _ _ _ _ _ _ _ Hsl) as (Ya & Ha & _). rewrite Ep in Ha. change (p_pgdir (exec_proc _ _ _ _)) with pgdir in Ha.
  pose proof (proj1 Ha) as [Hn _ _ _]. assert (HN : 0 <= N).
  { destruct Hpr as (_ & _ & Hsg). pose proof (segs_size _ _ _ _ _ _ _ Hsg ltac:(done)). rewrite EN. apply up_vpn_bounds. lia. }
 
  unfold KERNBASE, UPAGES in *. destruct (stack_args N img0 argv HN ltac:(unfold KERNBASE; lia) Hm Hlo) as [Hargs Hlow].
  assert (Hd : p_pgdir (pt (os_k s') p) = pgdir) by (by rewrite Ep). exists hdr, img0. split; rewrite ?Hd; try done.
  - by exists sz.
  - by exists pgdir.
  - intros va Hva. rewrite (finished_seen _ _ _ _ _ _ _ _ Ha Hsh Hri) by lia. rewrite (proj2 (Z.ltb_lt _ _)), page_below by lia. cbn. by rewrite Hi, Hlow by lia.
  - exists (stack_image N img0 argv). split; [done|]. intros va Hva. rewrite (finished_seen _ _ _ _ _ _ _ _ Ha Hsh Hri) by lia. rewrite (proj2 (Z.ltb_lt _ _)) by lia.
    assert (N + 1 <= va / 4096) by (apply Z.div_le_lower_bound; lia). rewrite (proj2 (Z.eqb_neq _ _)) by lia. cbn. by rewrite Hi.
  - intros va Hva. rewrite (finished_seen _ _ _ _ _ _ _ _ Ha Hsh Hri) by lia. destruct Hva as [Hva|Hva]; [|by rewrite (proj2 (Z.ltb_ge _ _)) by lia].
    replace (va / 4096) with N by (apply (Z.div_unique_pos _ _ _ (va - 4096 * N)); lia). rewrite Z.eqb_refl. cbn. by rewrite andb_false_r.
Qed.

(** A call that failed: the process is as it was. *)
Definition unchanged s (p : nat) s' : Prop :=
  (forall j, pt (os_k s') j = pt (os_k s) j) /\ os_cpu s' = os_cpu s /\
  (forall va, 0 <= va < 2 ^ 32 -> seen (pg_mem (os_pg s')) (p_pgdir (pt (os_k s) p)) va = seen (pg_mem (os_pg s)) (p_pgdir (pt (os_k s) p)) va) /\
  forall i, 0 <= i < TF_SIZE -> pg_mem (os_pg s') (p_tf (pt (os_k s) p) + i) = pg_mem (os_pg s) (p_tf (pt (os_k s) p) + i).

(** C3: [exec] replaces the program of the process or changes nothing.  On a sound
    file system at rest, it returns.  If it returns 0, the process sees exactly
    the segments of the ELF file the path leads to, zero where the file has
    nothing, then a page it may not touch, then its stack with [argc], [argv] and
    the argument strings; it will continue at the entry point with that stack.
    If it returns -1, every process sees what it saw, and there is a reason: no
    such file, a bad header or segment, arguments that do not fit, or too few
    free pages.  In both cases the invariant of the system holds, no page is
    lost, no other process is touched, and the file system is at rest with the
    same files. *)
Theorem exec_correct A L s c id p path argv v lo hi r :
  let x := cur_fs (os_k s) (os_io s) p in let file := exec_content x v lo hi path in
  os_inv data ids A L s -> ids !! c = Some id -> cp (os_k s) c = Some p -> args_size argv <= 2 ^ 25 -> fs_at x v lo hi r path ->
  exists res s' x', exec cpus data id path argv s = Ok res s' /\ keeps data ids A L (eq p) s s' /\ os_io s' = (os_io s) <| o_fs := x' |> /\ fs_done x v lo hi r x' /\
    (res = 0 /\ (exists N hdr img, executed s p file path argv N hdr img s') \/
     res = -1 /\ unchanged s p s' /\ exists F own, mem_rep data A L (os_pg s) (pt (os_k s)) F own /\ exec_fails (reads file) F argv (exec_inode x v lo hi path = None)).
Proof.
  intros x file Hi Hid Hcur Ha Hx. destruct (run_lt _ _ _ _ _ _ _ Hi Hcur) as (Hp & _ & Hu & _). destruct (oi_mem _ _ _ _ _ Hi) as (F & own & Hm).
  destruct (mr_slot _ _ _ _ _ _ _ Hm p Hu) as (e & n & Hs). destruct (so_rep _ _ _ (oi_sched _ _ _ _ _ Hi)) as (h & b & Hrep).
  assert (Hc : calm (ids := ids) h b (os_k s)) by (split; [apply Hi|done]).
  pose proof (trip_exec data cpus Hdata c id Hid h b (os_k s) (os_pg s) (os_cpu s) (os_idt s) (os_kpgdir s) (os_io s) A L F own p e n Hc Hcur Hp Hu (oi_cpu _ _ _ _ _ Hi) Hm Hs
    true path argv _ _ _ _ Ha (exec_fs_at x v lo hi r path Hx)) as W.
  replace (mk_os _ _ _ _ _ _) with s in W by (by destruct s). apply wp_elim in W as (res & s' & E & [[-> Hn]|[-> Hso]]).
  - exists (-1), s'. assert (Hk : keeps data ids A L (eq p) s s') by (by eapply none_inv). destruct Hn as (k' & pg' & x' & -> & _ & _ & Hj & Hr & Hsm & Hx' & Hf).
    exists x'. split; [done|]. split; [done|]. split; [done|]. split; [done|]. right. split; [done|]. split; [|by exists F, own].
    pose proof (own_same data A L _ _ F own p F (pg_mem pg') Hm Hsm (mr_free _ _ _ _ _ _ _ Hm p)) as Hps. destruct (sl_space _ _ _ _ _ _ _ Hs) as (Ya & Hasp & EY & _).
    split; [done|]. split; [done|]. split.
    + intros va Hva. eapply seen_same; [exact Hasp| |done]. intros q a Hq. apply Hps. rewrite EY. set_solver.
    + intros i Hit. apply (Hps (p_kstack (pt (os_k s) p))); [rewrite EY; set_solver|]. rewrite (sl_tf _ _ _ _ _ _ _ Hs). unfold in_page, PGSIZE, KSTACKSIZE, TF_SIZE in *. lia.
  - exists 0, s'. assert (Hk : keeps data ids A L (eq p) s s') by (by eapply some_inv). destruct Hso as (pgdir & N & entry & e' & img & x' & Him & Hd & _ & _ & _ & _ & Eio & Hx' & _).
    exists x'. split; [done|]. split; [done|]. split; [done|]. split; [done|]. left. split; [done|]. exists N. by eapply done_executed.
Qed.
End exec.
