(* ===== verification/OsDemo.v ===== *)
(** The whole kernel on a concrete machine: two CPUs, the pages above a 1 MB
    kernel free, and the process of [userinit] running.  At the end [exec]
    runs a program there. *)

From S2P Require Import Prelude CString Layout Sleeplock Ring Bio Log BlockLayer LogTxn Fs FsBlock FsFile FsRW FsDir FsDemo TxnLayer File Pipe SysFile FsTree FsRest FileIO.
From S2P Require Import Spinlock LockRep Kalloc Vm VmRep VmUser VmCopy VmOut VmSpace VmDemo.
From S2P Require Import Proc ProcOps ProcEff Seg ProcMem Exec ExecMem ProcSpace ProcFork ProcLife ProcSteps ExecLoad ExecCommit ExecRun ProcIso ExecInv ProcBoot Isolation ForkThms ExecThm.

Section start.
Context {P S : Type} `{!PageOps P} `{!PageLayer P} `{!BlockOps S} `{!DevOps S} `{!TxnOps S}.
Variables data cpus forkret_addr trapret_addr : Z.
Context (ids : list Z).
Implicit Types (s : os P S).
Local Notation step := (os_step data cpus forkret_addr trapret_addr ids).
Local Notation idle m := (exists b, mach_rep ids m (fun _ => []) no_depth b).

(** An idle CPU takes the lock of the process table, finds a new process
    and runs it. *)
Lemma start A L s c id p :
  os_inv data ids A L s -> ids !! c = Some id -> cp (os_k s) c = None -> idle (k_mach (os_k s)) -> (p < NPROC)%nat ->
  p_state (pt (os_k s) p) = RUNNABLE -> p_context (pt (os_k s) p) = CForkret ->
  exists s1 s2, step s ESched s1 /\ step s1 ESched s2 /\ cp (os_k s2) c = Some p /\ idle (k_mach (os_k s2)) /\ os_pg s2 = os_pg s /\
    p_pgdir (pt (os_k s2) p) = p_pgdir (pt (os_k s) p) /\ live (pt (os_k s2) p) /\
    p_sz (pt (os_k s2) p) = p_sz (pt (os_k s) p) /\ forall j, j <> p -> pt (os_k s2) j = pt (os_k s) j.
Proof.
  intros Hi Hid Hcp (b & Hr) Hp Hst Hctx. pose proof (lookup_lt_Some _ _ _ Hid) as Hlt. destruct s as [k pg cpu idt kp io]. cbn [os_k os_pg] in *.
  assert (W1 : wp (kacquire id PTLOCK) k (fun _ k1 => exists m, k1 = k <| k_mach := m |> /\ mach_rep ids m (updn (fun _ => []) c [PTLOCK]) no_depth b)).
  { eapply wp_kacquire; [exact Hid|exact Hr|intros c' _; set_solver|]. intros m' Hm. by exists m'. }
  apply wp_elim in W1 as ([] & k1 & E1 & m1 & -> & H1). set (k1 := k <| k_mach := m1 |>) in *. set (s1 := mk_os k1 pg cpu idt kp io).
  assert (Hl1 : has_lock k1 c PTLOCK) by (apply (has_lock_in _ k1 _ _ _ _ _ H1 Hid); rewrite updn_eq; set_solver).
  assert (Hd1 : depth k1 c = 1) by (by rewrite (depth_len _ k1 _ _ _ _ H1 Hid), updn_eq).
  assert (St1 : step (mk_os k pg cpu idt kp io) ESched s1).
  { eapply (st_kern _ _ _ _ _ _ c id (kacquire id PTLOCK)); [done|apply kc_lock|unfold on_k, zoom; cbn [os_k]; by rewrite E1].
    rewrite (has_lock_in _ k _ _ PTLOCK _ _ Hr Hid). set_solver. }
  assert (W2 : wp (run_slot cpus id p) s1 (fun _ s2 => cp (os_k s2) c = Some p /\ idle (k_mach (os_k s2)) /\ os_pg s2 = pg /\
    p_pgdir (pt (os_k s2) p) = p_pgdir (pt k p) /\ live (pt (os_k s2) p) /\ p_sz (pt (os_k s2) p) = p_sz (pt k p) /\ forall j, j <> p -> pt (os_k s2) j = pt k j)).
  { unfold run_slot. apply wp_bind. pose proof (oi_sched _ _ _ _ _ Hi) as Hso. cbn [os_k os_cpu] in Hso.
    eapply (wp_enter _ _ k1 pg cpu idt kp io c id (updn (fun _ => []) c [PTLOCK]) b p); [done|apply Hi|exact H1|by rewrite updn_eq|done|apply Hi| | |].
    - intros _. destruct (oi_mem _ _ _ _ _ Hi) as (F & own & Hm). assert (Hu : used (pt k p)) by (unfold used; by rewrite Hst).
      destruct (mr_slot _ _ _ _ _ _ _ Hm p Hu) as (e & n & Hs). by eapply slot_pages.
    - intros Hn. by destruct Hn.
    - intros k' cpu' _ Hlen Hj Ecp Hr' _ _ _. wp_step. apply wp_on_k.
      eapply (wp_resume c id Hid); [exact Hlen|done|exact Hr'|by rewrite updn_eq| |].
      + unfold cp. rewrite Ecp. apply list_lookup_total_insert_eq. change (k_cproc k1) with (k_cproc k). by rewrite (so_len _ _ _ Hso).
      + rewrite Hj, updn_eq. cbn [p_context set_field]. change (pt k1 p) with (pt k p). rewrite Hctx. intros m first Hm. wp_step.
        assert (Ep : pt k' p = (pt k p) <| p_state := RUNNING |>) by (rewrite Hj; apply updn_eq).
        split; [unfold cp; cbn; rewrite Ecp; apply list_lookup_total_insert_eq; change (k_cproc k1) with (k_cproc k); by rewrite (so_len _ _ _ Hso)|].
        split; [exists b; eapply mach_rep_ext; [exact Hm|]; intros c' _; split; [|done]; unfold updn; by repeat case_decide|]. split; [done|].
        split; [transitivity (p_pgdir (pt k' p)); [done|by rewrite Ep]|split; [change (live (pt k' p)); by rewrite Ep|]]. split; [transitivity (p_sz (pt k' p)); [done|by rewrite Ep]|]. intros j Hne. transitivity (pt k' j); [done|by rewrite Hj, updn_ne]. }
  apply wp_elim in W2 as ([] & s2 & E2 & Hs2). exists s1, s2. split; [done|]. split; [|exact Hs2].
  by apply (st_run _ _ _ _ _ _ c id p).
Qed.
End start.

(** The machine at the end of [main]: the pages of [kinit1] and [kinit2] are
    free, no process exists. *)
Definition boot_os (pg : kst) : os kst logst :=
  mk_os (mk_kern (g_mach seg_demo) [None; None] [O; O] (replicate 64 zero_proc) None 1 true) pg (g_cpu seg_demo) (g_idt seg_demo) 0
    (mk_osfs (mk_fsst (boot_log mkfs_disk 1) demo_sb (replicate 50 inhabitant) 1 0) (boot_files NPROC) []).

Definition demo_data : Z := 2148560896.
Definition demo_cpus : Z := 2148550000.
Definition demo_forkret : Z := 2148540000.
Definition demo_trapret : Z := 2148541000.
Definition demo_initcode : Z := 2148564992.
Definition demo_pages : gset Z := pages_between demo_kend (KERNBASE + PHYSTOP).

Lemma os_data_ok : data_ok demo_data.
Proof. split; vm_compute; [intuition congruence|done]. Qed.

Lemma demo_addr_ok : 0 <= demo_forkret < 2 ^ 32 /\ 0 <= demo_trapret < 2 ^ 32.
Proof. vm_compute. intuition congruence. Qed.

Lemma demo_dev_short : dev_short (S := logst).
Proof. done. Qed.

Lemma demo_pages_many : (4000 <= size demo_pages)%nat.
Proof.
  set (l := (fun i => PGROUNDUP demo_kend + 4096 * i) <$> seqZ 0 4000).
  assert (Hn : NoDup l) by (apply NoDup_fmap; [intros x y E; lia|apply NoDup_seqZ]).
  assert (Hs : list_to_set l ⊆ demo_pages).
  { intros p Hp%elem_of_list_to_set. apply list_elem_of_fmap in Hp as (i & -> & Hi%elem_of_seqZ). unfold demo_pages, pages_between.
    apply elem_range_pages. exists (Z.to_nat i). split; [|unfold PGSIZE; lia].
    assert (4000 < (KERNBASE + PHYSTOP - PGROUNDUP demo_kend) / PGSIZE) by (by vm_compute). lia. }
  apply subseteq_size in Hs. rewrite size_list_to_set in Hs by done. unfold l in Hs. by rewrite length_fmap, length_seqZ in Hs.
Qed.

Lemma demo_pages_free : exists pg, @pg_rep kst demo_ops demo_layer pg demo_pages.
Proof.
  destruct (kinit_correct [0; 1] 1 [] demo_kend (P2V 4194304) (fun _ => 0)) as (pg & _ & Hr & _).
  - apply NoDup_cons. split; [set_solver|]. apply NoDup_singleton.
  - set_solver.
  - exact demo_kend_ok.
  - intros i. lia.
  - done.
  - vm_compute. intuition congruence.
  - by exists pg.
Qed.

Lemma demo_boot_ready pg : @pg_rep kst demo_ops demo_layer pg demo_pages -> @boot_ready kst logst demo_ops demo_layer [0; 1] demo_pages (boot_os pg).
Proof.
  intros Hp. split.
  - exact Hp.
  - pose proof demo_pages_many. lia.
  - reflexivity.
  - reflexivity.
  - exists (fun _ => false). exact seg_demo_rep.
  - destruct seg_demo_ok as [H1 H2 H3]. by split.
  - reflexivity.
  - by exists 0%nat, inhabitant.
Qed.

(** [initcode] is below the free pages. *)
Lemma demo_init_apart q i : q ∈ demo_pages -> 0 <= i < 44 -> ~ in_page q (demo_initcode + i).
Proof.
  unfold demo_pages, pages_between. rewrite elem_range_pages. intros (k & _ & ->) Hi [H _]. assert (demo_initcode + 44 < PGROUNDUP demo_kend) by (by vm_compute). unfold PGSIZE in H. lia.
Qed.

#[local] Opaque demo_pages.
#[local] Existing Instance demo_ops.
#[local] Existing Instance demo_layer.
Local Notation demo_step := (os_step demo_data demo_cpus demo_forkret demo_trapret [0; 1]).
Local Notation demo_run := (os_run demo_data demo_cpus demo_forkret demo_trapret [0; 1]).
Local Notation demo_userinit := (userinit demo_data demo_forkret demo_trapret 0 demo_initcode 44).

(** CPU 0 runs the first process. *)
Record running (s0 s1 s3 : os kst logst) (p : nat) : Prop := {
  rn_boot : boot_ready [0; 1] demo_pages s0;
  rn_init : demo_userinit s0 = Ok () s1;
  rn_run : demo_run s1 [ESched; ESched] s3;
  rn_inv : os_inv demo_data [0; 1] demo_pages ∅ s3;
  rn_cur : cp (os_k s3) 0 = Some p /\ live (pt (os_k s3) p);
  rn_only : p_sz (pt (os_k s3) p) = PGSIZE /\ forall j, j <> p -> ~ used (pt (os_k s3) j);
  rn_free : depth (os_k s3) 0 = 0 /\ forall c, ~ has_lock (os_k s3) c PTLOCK;
  rn_user : exists a, hw_writable (pg_mem (os_pg s3)) (P2V (cr3 s3 0)) 0 = Some a
}.

Lemma demo_running : exists s0 s1 s3 p, running s0 s1 s3 p.
Proof.
  destruct demo_pages_free as (pg & Hpg). pose proof (demo_boot_ready pg Hpg) as Hb. set (s0 := boot_os pg) in *.
  destruct (wp_userinit demo_data demo_forkret demo_trapret os_data_ok demo_addr_ok [0; 1] demo_pages s0 0 0 demo_initcode 44) as (p & s1 & E & Hi & Hf & Ecp & Hm);
    [exact Hb|done|done|done|done|exact demo_init_apart|].
  destruct (fp_slot _ _ _ _ _ _ _ Hf) as (Hp & Hst & Hctx & _).
  destruct (start demo_data demo_cpus demo_forkret demo_trapret [0; 1] demo_pages ∅ s1 0 0 p Hi) as (s2 & s3 & S1 & S2 & Hcp & (b & Hm3) & Epg & Ed & Hl & Esz & Hoj);
    [done|by unfold cp; rewrite Ecp|done|done|done|done|].
  assert (Hr : demo_run s1 [ESched; ESched] s3) by (eapply run_step; [eapply run_step; [apply run_nil|exact S1]|exact S2]).
  assert (Hi3 : os_inv demo_data [0; 1] demo_pages ∅ s3).
  { destruct (run_keeps _ _ _ _ os_data_ok demo_addr_ok _ demo_dev_short _ _ _ _ _ Hi Hr) as (X & [Hi3 _] & HX). rewrite (left_id_L ∅ (∪)) in Hi3.
    assert (X = ∅) as -> by (apply leibniz_equiv, size_empty_inv; cbn in HX; lia). done. }
  destruct (run_lt _ _ _ _ _ _ _ Hi3 Hcp) as (_ & _ & Hu & _ & Hcr).
  exists s0, s1, s3, p. split; try done.
  - split; [rewrite Esz; apply (fp_slot _ _ _ _ _ _ _ Hf)|]. intros j Hne. rewrite Hoj by done. unfold used. rewrite (fp_only _ _ _ _ _ _ _ Hf j Hne). by intros Hx.
  - split; [by rewrite (depth_len _ _ _ _ _ _ Hm3 (eq_refl : [0; 1] !! 0%nat = Some 0))|]. intros c Hc. pose proof (proj1 (mr_owner _ _ _ _ _ Hm3 PTLOCK c) Hc) as [_ Hx]. set_solver.
  - destruct (fp_code _ _ _ _ _ _ _ Hf 0) as (a & Ha & _); [vm_compute; intuition congruence|]. exists a. rewrite Epg, Hcr, Ed.
    destruct (oi_mem _ _ _ _ _ Hi3) as (F & own & Hmr). destruct (mr_slot _ _ _ _ _ _ _ Hmr p Hu) as (e & n & Hs).
    destruct (sl_space _ _ _ _ _ _ _ Hs) as (Ya & Hasp & _). destruct (aspace_dir _ _ _ _ _ _ _ Hasp) as [_ Hpo]. rewrite Ed in Hpo.
    destruct (V2P_page pg_end pg_end_ok _ Hpo) as (_ & -> & _). done.
Qed.

Lemma running_in_user s0 s1 s3 p : running s0 s1 s3 p -> in_user s3 0.
Proof.
  intros [_ _ _ _ _ _ _ (a & Ha)]. exists 0. split; [done|]. unfold hw_writable in Ha. by destruct (hw_translate _ _ 0).
Qed.

Lemma memory_isolation_witness : exists s0 s1 s2 p tr F L,
  demo_userinit s0 = Ok () s1 /\ demo_run s1 (EStore p :: tr) s2 /\ pg_rep (os_pg s2) F /\ isolated demo_pages F L s2 /\ L = ∅.
Proof.
  destruct demo_running as (s0 & s1 & s3 & p & Hrun). pose proof Hrun as [Hb E Hr Hi [Hcp Hl] _ _ (a & Ha)].
  set (s4 := s3 <| os_pg := pg_setmem (store (pg_mem (os_pg s3)) a 7) (os_pg s3) |>).
  assert (Hr4 : demo_run s1 [EStore p; ESched; ESched] s4).
  { eapply run_step; [exact Hr|]. by apply (st_store _ _ _ _ _ s3 0 p 0 a 7). }
  destruct (memory_isolation demo_data demo_cpus demo_forkret demo_trapret os_data_ok demo_addr_ok [0; 1] demo_dev_short demo_pages s0 0 0 demo_initcode 44 s1
    [EStore p; ESched; ESched] s4) as (F & L & HF & Hiso & HL); [exact Hb|done|done|done|done|exact demo_init_apart|exact E|exact Hr4|].
  exists s0, s1, s4, p, [ESched; ESched], F, L. split_and!; [done|exact Hr4|exact HF|exact Hiso|]. apply leibniz_equiv, size_empty_inv. cbn in HL. lia.
Defined.

Lemma process_integrity_witness : exists s0 s1 s2 p r s3,
  demo_userinit s0 = Ok () s1 /\ demo_run s2 [EFork p r] s3 /\ kept_proc s2 s3 p.
Proof.
  destruct demo_running as (s0 & s1 & s2 & p & Hrun). pose proof Hrun as [Hb E Hr Hi [Hcp Hl] _ [Hd Hno] _].
  destruct (fork_step demo_data demo_cpus demo_forkret demo_trapret os_data_ok demo_addr_ok [0; 1] demo_pages ∅ s2 0 0 p) as (r & s3 & Hst);
    [done|done|done|done|by eapply running_in_user|done|].
  assert (Hr3 : demo_run s2 [EFork p r] s3) by (eapply run_step; [apply run_nil|exact Hst]).
  exists s0, s1, s2, p, r, s3. split; [done|]. split; [exact Hr3|].
  eapply (process_integrity demo_data demo_cpus demo_forkret demo_trapret os_data_ok demo_addr_ok [0; 1] demo_dev_short demo_pages s0 0 0 demo_initcode 44 s1
    [ESched; ESched] s2 [EFork p r] s3 p); [exact Hb|done|done|done|done|exact demo_init_apart|exact E|exact Hr|exact Hr3|exact Hl|].
  apply Forall_singleton. by intros [].
Defined.

Lemma userinit_correct_witness : exists s p s' F, demo_userinit s = Ok () s' /\ first_proc demo_forkret demo_trapret s demo_initcode 44 p s' /\
  isolated demo_pages F ∅ s'.
Proof.
  destruct demo_pages_free as (pg & Hpg).
  destruct (userinit_correct demo_data demo_forkret demo_trapret os_data_ok demo_addr_ok [0; 1] demo_pages (boot_os pg) 0 0 demo_initcode 44)
    as (p & s' & F & E & Hf & _ & Hiso); [exact (demo_boot_ready pg Hpg)|done|done|done|done|exact demo_init_apart|].
  by exists (boot_os pg), p, s', F.
Defined.

Lemma fork_correct_witness : exists (s : os kst logst) r s', fork demo_data demo_forkret demo_trapret 0 s = Ok r s' /\ ((exists p np, forked demo_forkret demo_trapret s p r s' np) \/ r = -1).
Proof.
  destruct demo_running as (s0 & s1 & s2 & p & Hrun). pose proof Hrun as [Hb E Hr Hi [Hcp Hl] _ [Hd Hno] _].
  destruct (fork_correct demo_data demo_forkret demo_trapret os_data_ok demo_addr_ok [0; 1] demo_pages ∅ s2 0 0 p) as (r & s' & X & Ef & _ & Hf);
    [done|done|done|done|by eapply running_in_user|done|].
  exists s2, r, s'. split; [done|]. destruct Hf as [(np & Hf & _)|(-> & _)]; [left; by exists p, np|by right].
Defined.

Lemma growproc_correct_witness : exists (s : os kst logst) p r s', growproc demo_cpus 0 4096 s = Ok r s' /\ (r = 0 /\ grown s p 4096 s' \/ r = -1).
Proof.
  destruct demo_running as (s0 & s1 & s2 & p & Hrun). pose proof Hrun as [Hb E Hr Hi [Hcp Hl] _ [Hd Hno] _].
  destruct (growproc_correct demo_data demo_cpus [0; 1] demo_pages ∅ s2 0 0 p 4096) as (r & s' & Ef & _ & Hf);
    [done|done|done|by eapply running_in_user|done|].
  exists s2, p, r, s'. split; [done|]. destruct Hf as [[-> Hg]|(-> & _)]; [by left|by right].
Defined.

(** * [exec] on the concrete machine: the file of the concrete file
    system is given the bytes of a small program, and the first process runs it. *)


(** Entries of a directory are in its contents. *)
Lemma entries_same sb t t' n : fs_core sb t -> alloc_inode sb t n -> disk_inode sb t' n = disk_inode sb t n -> content sb t' n = content sb t n -> entries_of sb t' n = entries_of sb t n.
Proof.
  intros Hc Ha E Ec. unfold entries_of, dir_entries. rewrite E. cbn [i_size as_inode]. destruct (fk_inode _ _ Hc n Ha) as [_ _ Hs _]. cbn in Hs.
  apply list_fmap_ext. intros k j [Hj Hlt]%lookup_seqZ. unfold dir_entry, DIRENT_SZ in *. f_equal.
  fold (size_of sb t n) in Hs, Hlt. rewrite Z.add_0_l in Hj. subst j. change (i_addrs (as_inode n (disk_inode sb t n))) with (addrs_of sb t n).
  pose proof (Z.div_mod (size_of sb t n) 16 ltac:(lia)). pose proof (Z.mod_pos_bound (size_of sb t n) 16 ltac:(lia)).
  rewrite content_slice by lia. rewrite <- Ec, <- content_slice by (unfold size_of in *; rewrite ?E; lia). unfold addrs_of. by rewrite E.
Qed.

(** A program of one segment: 4 bytes of code in 8192 bytes of memory. *)
Definition demo_elf : list Z :=
  words_encode [ELF_MAGIC; 0; 0; 0] ++ words_encode [196610; 1; 0; 52; 0; 0; 2097204; 1; 0] ++ words_encode [ELF_PROG_LOAD; 84; 0; 0; 4; 8192; 7; 4096] ++ [235; 254; 144; 144].
Definition demo_path : list Z := [47; 102].

Lemma demo_elf_header : length demo_elf = 88%nat /\ Forall byte_ok demo_elf /\ eh_magic (elf_of (take 52 demo_elf)) = ELF_MAGIC /\ eh_phnum (elf_of (take 52 demo_elf)) = 1 /\
  eh_phoff (elf_of (take 52 demo_elf)) = 52 /\ eh_entry (elf_of (take 52 demo_elf)) = 0 /\ ph_of (take 32 (drop 52 demo_elf)) = mk_proghdr 1 84 0 0 4 8192 7 4096.
Proof. split_and!; try (vm_compute; reflexivity). apply (bool_decide_unpack _). vm_compute. exact I. Qed.

(** The file system with the program in its file. *)
Lemma demo_program_fs : exists (b : logst) v ic, (forall pid cwd, fs_at (mk_fsst b demo_sb ic pid cwd) v 32 1000 io_refs demo_path) /\
  (forall pid cwd, exec_content (mk_fsst b demo_sb ic pid cwd) v 32 1000 demo_path = demo_elf).
Proof.
  destruct demo_rest as (s & v & Hr & Hd). destruct demo_elf_header as (Hlen & Hby & _).
  assert (Hsz : size_of demo_sb (rest_txn v 32 1000) 2 = 0) by (unfold size_of; by rewrite (demo_file_disk v Hd)).
  pose proof (demo_fs_ok _ Hd) as Hok0. pose proof (transfer_ok demo_sb _ _ (demo_same v) Hok0) as Hok.
  set (x := mk_file FD_INODE 1 false true 0 1 0).
  enough (W : wp (filewrite false 0 demo_elf (Z.of_nat (length demo_elf))) (mk_osfs (mk_fsst s demo_sb io_icache 1 0) io_files []) (fun _ _ => exists b' v' ic',
    open_on b' v' 32 1000 demo_sb ic' io_refs 1 2 /\ FsTree.keeps io_refs io_icache ic' /\ file_written demo_sb (rest_txn v 32 1000) 2 0 demo_elf (rest_txn v' 32 1000))).
  2: { eapply (wp_filewrite s v 32 1000 demo_sb io_icache io_refs 1 0%nat io_files [] false 0%nat x 2 demo_elf); try reflexivity.
    - exact (demo_open v Hd s Hr).
    - exact Hby.
    - rewrite Hsz. simpl. lia.
    - rewrite Hlen. vm_compute. congruence.
    - rewrite Hlen. exact (demo_io_room v Hd).
    - intros b' v' ic' t' Ho Hk Hw. by exists b', v', ic'. }
  apply wp_elim in W as (_ & _ & _ & b' & v' & ic' & [Rr Ro Rc _ _ Ra Rt] & Hk & [_ Hcont Hmeta Hoth]).
  set (t := rest_txn v 32 1000) in *. set (t' := rest_txn v' 32 1000) in *.
  assert (Hc2 : content demo_sb t' 2 = demo_elf) by (rewrite Hcont; unfold content; rewrite Hsz; vm_compute; reflexivity).
  set (t0 := mk_txn v v ∅ ∅ 10 32 1000) in *. pose proof (fk_core _ _ Hok) as Hco. pose proof (fk_core _ _ Hok0) as Hco0.
  assert (Ha0 : alloc_inode demo_sb t0 1) by (by apply live_alloc, demo_root_live). assert (Ha : alloc_inode demo_sb t 1) by (by apply (transfer_alloc demo_sb t0 t (demo_same v))).
  destruct (Hoth 1 Ha ltac:(lia)) as [Ed Ec].
  assert (Ed0 : disk_inode demo_sb t 1 = root_dinode) by (rewrite (transfer_inode demo_sb t0 t (demo_same v) Hco0 1); [by apply demo_disk_inode|vm_compute; intuition congruence]).
  assert (Hes : entries_of demo_sb t' 1 = root_entries).
  { rewrite (entries_same _ _ _ _ Hco Ha Ed Ec), (kept_entries demo_sb t0 t 1 (transfer_kept demo_sb t0 t (demo_same v) Hco0 1 Ha0) Hco0 Ha0).
    unfold entries_of. rewrite demo_disk_inode by done. rewrite <- (demo_entries t0 Hd). done. }
  assert (Hres : resolve demo_sb t' 1 (elems demo_path) = Some 2).
  { change (elems demo_path) with [[102]]. cbn [resolve]. rewrite Ed, Ed0, Hes. reflexivity. }
  exists b', v', ic'. split; intros pid cwd.
  - split; cbn [fs_blk fs_sb fs_icache fs_cwd]; fold t'; try done.
    + exists 2%nat, 3%nat. rewrite (proj1 Hk). split_and!; (done || vm_compute; lia).
    + change (start_inum ic' cwd demo_path) with 1. unfold FsTree.live. rewrite Ed, Ed0. vm_compute. intuition congruence.
    + split; apply (bool_decide_unpack _); vm_compute; exact I.
    + change (start_inum ic' cwd demo_path) with 1. intros m. rewrite Hres. intros [= <-]. by rewrite Rt.
  - unfold exec_content, exec_inode. cbn [fs_sb fs_icache fs_cwd]. fold t'. change (start_inum ic' cwd demo_path) with 1. by rewrite Hres.
Qed.

(** The arguments "f" and "x". *)
Definition demo_argv : list (list Z) := [[102]; [120]].

Lemma demo_reads : file_read demo_elf 0 52 = (52, take 52 demo_elf) /\ file_read demo_elf 52 32 = (32, take 32 (drop 52 demo_elf)) /\
  file_read demo_elf 84 4 = (4, [235; 254; 144; 144]).
Proof. split_and!; vm_compute; reflexivity. Qed.

#[local] Opaque demo_elf file_read.

Lemma reads_is c off n r b r' b' : file_read c off n = (r', b') -> reads c off n (r, b) -> r = r' /\ b = b'.
Proof. intros E [_ E']. rewrite E in E'. by apply pair_equal_spec in E'. Qed.

(** Nothing is wrong with the program, so that only too few pages make [exec]
    fail. *)
Lemma demo_fails F missing : exec_fails (reads demo_elf) F demo_argv missing -> missing \/ Z.of_nat (size F) <= 2053.
Proof.
  destruct demo_reads as (Hb & Hs & Hc).
  destruct demo_elf_header as (_ & _ & Hm & Hn & Ho & _ & Hph).
  intros [Hmi|r b [-> ->]%(reads_is _ _ _ _ _ _ _ Hb) Hx|Hsf|b [_ ->]%(reads_is _ _ _ _ _ _ _ Hb) Hx|b sz img ([_ ->]%(reads_is _ _ _ _ _ _ _ Hb) & _ & Hsg) Hx].
  - by left.
  - destruct Hx as [Hx|Hx]; [done|]. by rewrite Hm in Hx.
  - right. lia.
  - right. rewrite Hn, Ho in Hx. change (Z.to_nat 1) with 1%nat in Hx. inversion Hx as [n off sz img Hf|n off sz img sz1 img1 _ Hf]; subst; [|by inversion Hf].
    destruct Hf as (r & b & [-> ->]%(reads_is _ _ _ _ _ _ _ Hs) & Hf). cbv zeta in Hf. rewrite Hph in Hf. cbn in Hf.
    destruct Hf as [Hf|(_ & [Hf|[Hf|[Hf|[Hf|[Hf|Hf]]]]])]; try done; try (unfold KERNBASE in Hf; lia).
    + destruct Hf as (k & r & b & Hk & Hk4 & E & Hr). assert (k = 0) as -> by lia. change (chunk 4 0) with 4 in *. change (u32 (84 + 4096 * 0)) with 84 in E.
      by apply (reads_is _ _ _ _ _ _ _ Hc) in E as [-> _].
    + change (up_vpn (0 + 8192)) with 2 in Hf. lia.
  - right. rewrite Hn, Ho in Hsg. change (Z.to_nat 1) with 1%nat in Hsg. inversion Hsg as [|n off sz0 img0 sz1 img1 sz2 img2 Hst Hrest]; subst. inversion Hrest; subst.
    assert (sz = 8192) as ->.
    { inversion Hst as [b [_ ->]%(reads_is _ _ _ _ _ _ _ Hs) Ht|b img' [_ ->]%(reads_is _ _ _ _ _ _ _ Hs) Ht]; rewrite Hph in *; cbn in *; [done|reflexivity]. }
    change (up_vpn 8192) with 2 in Hx. destruct Hx as [Hx|[Hx|[Hx|Hx]]]; [unfold KERNBASE in Hx; lia|lia|by vm_compute in Hx|by vm_compute in Hx].
Qed.

#[local] Opaque demo_pages.
#[local] Existing Instance demo_ops.
#[local] Existing Instance demo_layer.

(** With one process of one page, most pages are free. *)
Lemma one_process_free (s : os kst logst) p F own :
  mem_rep demo_data demo_pages ∅ (os_pg s) (pt (os_k s)) F own -> used (pt (os_k s) p) -> p_sz (pt (os_k s) p) <= 4096 -> (forall j, j <> p -> ~ used (pt (os_k s) j)) ->
  2053 < Z.of_nat (size F).
Proof.
  intros Hm Hu Hsz Ho. destruct (mr_slot _ _ _ _ _ _ _ Hm p Hu) as (e & n & Hs). destruct (sl_space _ _ _ _ _ _ _ Hs) as (Ya & Ha & EY & _).
  pose proof (aspace_size _ _ _ _ _ _ _ Ha) as Hy. assert (Hn : n <= 1).
  { destruct (sl_n _ _ _ _ _ _ _ Hs) as [->| ->]; [|lia]. unfold up_vpn. apply Z.lt_succ_r, Z.div_lt_upper_bound; lia. }
  assert (HA : demo_pages ⊆ F ∪ ({[p_kstack (pt (os_k s) p)]} ∪ Ya)).
  { intros q Hq. apply (mr_all _ _ _ _ _ _ _ Hm) in Hq as [Hq|[Hq|[j Hq]]]; [set_solver|set_solver|]. destruct (decide (j = p)) as [->|Hne]; [rewrite EY in Hq; set_solver|].
    rewrite (mr_unused _ _ _ _ _ _ _ Hm j (Ho j Hne)) in Hq. set_solver. }
  apply subseteq_size in HA. pose proof demo_pages_many as Hmany.
  assert (Hle : forall X Y : gset Z, (size (X ∪ Y) <= size X + size Y)%nat).
  { intros X Y. rewrite size_union_alt. pose proof (subseteq_size (Y ∖ X) Y ltac:(set_solver)). lia. }
  pose proof (Hle F ({[p_kstack (pt (os_k s) p)]} ∪ Ya)). pose proof (Hle {[p_kstack (pt (os_k s) p)]} Ya) as H2. rewrite size_singleton in H2. lia.
Qed.

Lemma exec_correct_witness : exists (s s' : os kst logst) p N hdr img, exec demo_cpus demo_data 0 demo_path demo_argv s = Ok 0 s' /\
  executed s p demo_elf demo_path demo_argv N hdr img s'.
Proof.
  destruct demo_running as (s0 & s1 & s2 & p & Hrun). pose proof Hrun as [Hb E Hr Hi [Hcp Hl] Honly _ _].
  destruct demo_program_fs as (b & v & ic & Hfs & Hc).
  set (s := s2 <| os_io := (os_io s2) <| o_fs := mk_fsst b demo_sb ic 1 0 |> |>).
  assert (His : os_inv demo_data [0; 1] demo_pages ∅ s) by (apply (io_inv demo_data [0; 1] demo_pages ∅ s2); [exact Hi|apply Hi]).
  assert (Hu : used (pt (os_k s) p)) by (apply live_used; exact Hl).
  destruct (exec_correct demo_data demo_cpus os_data_ok [0; 1] demo_pages ∅ s 0 0 p demo_path demo_argv v 32 1000 io_refs) as (res & s' & x' & Ee & _ & _ & _ & Hres).
  - exact His.
  - done.
  - exact Hcp.
  - vm_compute. congruence.
  - apply Hfs.
  - assert (Ec : exec_content (cur_fs (os_k s) (os_io s) p) v 32 1000 demo_path = demo_elf) by exact (Hc _ _).
    cbv zeta in Hres. rewrite Ec in Hres. destruct Hres as [(-> & N & hdr & img & Hx)|(-> & _ & F & own & Hm & Hf)].
    + exists s, s', p, N, hdr, img. split; [exact Ee|exact Hx].
    + exfalso. destruct (demo_fails _ _ Hf) as [Hmi|Hsz].
      * unfold exec_content in Ec. rewrite Hmi in Ec. destruct demo_elf_header as (Hlen & _). rewrite <- Ec in Hlen. done.
      * pose proof (one_process_free s p F own Hm Hu ltac:(destruct Honly as [Esz _]; change (p_sz (pt (os_k s2) p) <= 4096); rewrite Esz; done) (proj2 Honly)). lia.
Defined.
