(* ===== verification/Mkfs.v ===== *)
(** The program that makes the file system image ([mkfs.c]), run on a
    little-endian host.

    The image is a file of sectors: reading a sector past its end fails, writing
    one extends it.  A host file is what [open] says about it and the pieces its
    [read]s return, of at most [BSIZE] bytes each.  [exit(1)] and a failed
    [assert] end the run with a message. *)

From S2P Require Import Prelude CString Layout.

Definition NINODES : Z := 200.
Definition nbitmap : Z := FSSIZE / (BSIZE * 8) + 1.
Definition ninodeblocks : Z := NINODES / IPB + 1.
Definition nlog : Z := LOGSIZE.
Definition nmeta : Z := 2 + nlog + ninodeblocks + nbitmap.
Definition nblocks : Z := FSSIZE - nmeta.

(** The bytes of [y] are those of [x], lowest first. *)
Definition xshort (x : Z) : Z := le_dec (le_enc 2 x).
Definition xint (x : Z) : Z := le_dec (le_enc 4 x).

Definition sb : superblock :=
  mk_superblock (xint FSSIZE) (xint nblocks) (xint NINODES) (xint nlog) (xint 2) (xint (2 + nlog)) (xint (2 + nlog + ninodeblocks)).

Record mkst := mk_mkst { m_img : Z -> list Z; m_count : Z; m_freeinode : Z; m_freeblock : Z }.
#[export] Instance eta_mkst : Settable mkst := fun s => mk_mkst (m_img s) (m_count s) (m_freeinode s) (m_freeblock s).

Definition wsect (sec : Z) (buf : list Z) : M mkst () :=
  modify (fun s => s <| m_img := upd (m_img s) sec buf |> <| m_count := Z.max (m_count s) (sec + 1) |>).

Definition rsect (sec : Z) : M mkst (list Z) :=
  n ← gets m_count;
  if negb (sec <? n) then panic "read" else gets (fun s => m_img s sec).

Definition winode (inum : Z) (ip : dinode) : M mkst () :=
  let bn := IBLOCK inum sb in
  buf ← rsect bn;
  wsect bn (set_dinode buf inum ip).

Definition rinode (inum : Z) : M mkst dinode :=
  let bn := IBLOCK inum sb in
  buf ← rsect bn;
  mret (get_dinode buf inum).

Definition ialloc (type : Z) : M mkst Z :=
  inum ← gets m_freeinode;
  modify (fun s => s <| m_freeinode := u32 (inum + 1) |>);;
  winode inum (mk_dinode (xshort type) 0 0 (xshort 1) (xint 0) (replicate 13 0));;
  mret inum.

(** [buf] after the loop of [balloc]. *)
Definition balloc_bits (used : Z) : list Z :=
  foldl (fun buf i => <[Z.to_nat (i / 8) := Z.lor (buf !!! Z.to_nat (i / 8)) (Z.shiftl 1 (i mod 8))]> buf)
    (replicate (Z.to_nat BSIZE) 0) (seqZ 0 used).

Definition balloc (used : Z) : M mkst () :=
  if negb (used <? BSIZE * 8) then panic "assert(used < BSIZE*8)" else
  wsect (sb_bmapstart sb) (balloc_bits used).

(** [freeblock++] *)
Definition next_block : M mkst Z :=
  b ← gets m_freeblock;
  modify (fun s => s <| m_freeblock := u32 (b + 1) |>);;
  mret b.

(** The sector of block [fbn] of an inode, allocated when it has none, and the
    inode. *)
Definition iappend_block (din : dinode) (fbn : Z) : M mkst (Z * dinode) :=
  if fbn <? NDIRECT then
    din ← (if xint (di_addrs din !!! Z.to_nat fbn) =? 0
           then b ← next_block; mret (din <| di_addrs := <[Z.to_nat fbn := xint b]> (di_addrs din) |>)
           else mret din);
    mret (xint (di_addrs din !!! Z.to_nat fbn), din)
  else
    din ← (if xint (di_addrs din !!! Z.to_nat NDIRECT) =? 0
           then b ← next_block; mret (din <| di_addrs := <[Z.to_nat NDIRECT := xint b]> (di_addrs din) |>)
           else mret din);
    let ind := xint (di_addrs din !!! Z.to_nat NDIRECT) in
    indirect ← rsect ind;
    indirect ← (if word_at indirect (fbn - NDIRECT) =? 0
                then b ← next_block;
                     let indirect := set_word indirect (fbn - NDIRECT) (xint b) in
                     wsect ind indirect;;
                     mret indirect
                else mret indirect);
    mret (xint (word_at indirect (fbn - NDIRECT)), din).

(** The loop of [iappend] over the bytes [p] left; each turn consumes one or
    more of them. *)
Fixpoint iappend_loop (fuel : nat) (p : list Z) (off : Z) (din : dinode) : M mkst (Z * dinode) :=
  let n := Z.of_nat (length p) in
  if negb (n >? 0) then mret (off, din) else
  match fuel with
  | O => panic "iappend: fuel"
  | Datatypes.S fuel =>
      let fbn := off / BSIZE in
      if negb (fbn <? MAXFILE) then panic "assert(fbn < MAXFILE)" else
      r ← iappend_block din fbn;
      let '(x, din) := r in
      let n1 := Z.min n ((fbn + 1) * BSIZE - off) in
      buf ← rsect x;
      wsect x (splice buf (Z.to_nat (off - fbn * BSIZE)) (take (Z.to_nat n1) p));;
      iappend_loop fuel (drop (Z.to_nat n1) p) (u32 (off + n1)) din
  end.

Definition iappend (inum : Z) (p : list Z) : M mkst () :=
  din ← rinode inum;
  r ← iappend_loop (length p) p (xint (di_size din)) din;
  let '(off, din) := r in
  winode inum (din <| di_size := xint off |>).

(** [strcpy] or [strncpy] of a name into a zeroed [struct dirent]. *)
Definition mk_de (inum : Z) (name : list Z) : list Z :=
  dirent_encode (mk_dirent (xshort inum) (cpad (Z.to_nat DIRSIZ) (cstr (view_of name) (Z.to_nat DIRSIZ)))).

Record hostfile := mk_hostfile { hf_name : list Z; hf_data : option (list (list Z)) }.

(** [if(argv[i][0] == '_') ++argv[i];] *)
Definition skip_underscore (name : list Z) : list Z :=
  match name with
  | c :: rest => if c =? 95 then rest else name
  | [] => name
  end.

(** One turn of the loop over the files. *)
Definition add_file (rootino : Z) (f : hostfile) : M mkst () :=
  if existsb (fun c => c =? 47) (hf_name f) then panic "assert(index(argv[i], '/') == 0)" else
  match hf_data f with
  | None => panic "open"
  | Some pieces =>
      inum ← ialloc T_FILE;
      iappend rootino (mk_de inum (skip_underscore (hf_name f)));;
      forM pieces (iappend inum)
  end.

(** [fix size of root inode dir] *)
Definition fix_root (rootino : Z) : M mkst () :=
  din ← rinode rootino;
  let off := xint (di_size din) in
  let off := u32 ((off / BSIZE + 1) * BSIZE) in
  winode rootino (din <| di_size := xint off |>).

(** [image] is [None] without an image name, else whether it can be opened. *)
Definition main (image : option bool) (files : list hostfile) : M mkst () :=
  match image with
  | None => panic "Usage: mkfs fs.img files..."
  | Some false => panic "open"
  | Some true =>
      modify (fun s => s <| m_freeblock := nmeta |>);;
      forM (seqZ 0 FSSIZE) (fun i => wsect i zero_block);;
      wsect 1 (splice zero_block 0 (superblock_encode sb));;
      rootino ← ialloc T_DIR;
      if negb (rootino =? ROOTINO) then panic "assert(rootino == ROOTINO)" else
      iappend rootino (mk_de rootino [46]);;
      iappend rootino (mk_de rootino [46; 46]);;
      forM files (add_file rootino);;
      fix_root rootino;;
      used ← gets m_freeblock;
      balloc used
  end.

(** The program's variables when it starts; the image has been truncated. *)
Definition start : mkst := mk_mkst (fun _ => zero_block) 0 1 0.
