(* ===== verification/MkfsThms.v ===== *)
(** The image [mkfs] makes is a sound file system that holds the files.

    While [mkfs] runs its image has no bitmap yet; the file system it stands for
    is the image with the bitmap of [freeblock] blocks in place.  On it,
    [iappend] does what [writei] does at the end of a file. *)

From S2P Require Import Prelude CString Layout Mkfs Sleeplock BlockLayer Fs FsBlock FsFile FsRW FsDir FsTree TxnLayer FsRest.

Notation msb := Mkfs.sb.

Lemma xint_id x : uint_ok x -> xint x = x.
Proof. intros H. unfold xint. rewrite le_dec_enc. by apply Z.mod_small. Qed.

Lemma msb_eq : msb = mk_superblock 1000 941 200 30 2 32 58.
Proof. vm_compute. reflexivity. Qed.

(** ** The bitmap *)

Lemma balloc_bits_S n : 0 <= n -> balloc_bits (n + 1) = mark_used (balloc_bits n) n.
Proof.
  intros Hn. unfold balloc_bits. rewrite seqZ_app by lia. rewrite foldl_app. rewrite Z.add_0_l. done.
Qed.

Lemma balloc_bits_ind (P : Z -> list Z -> Prop) :
  P 0 zero_block -> (forall n b, 0 <= n < BPB -> P n b -> P (n + 1) (mark_used b n)) ->
  forall n, 0 <= n <= BPB -> P n (balloc_bits n).
Proof.
  intros H0 HS n Hn. assert (forall k : nat, Z.of_nat k <= BPB -> P (Z.of_nat k) (balloc_bits (Z.of_nat k))) as H.
  { induction k as [|k IH]; intros Hk; [done|]. rewrite Nat2Z.inj_succ. unfold Z.succ. rewrite balloc_bits_S by lia. apply HS; [lia|]. apply IH. lia. }
  specialize (H (Z.to_nat n)). rewrite Z2Nat.id in H by lia. apply H. lia.
Qed.

Lemma balloc_bits_length n : 0 <= n <= BPB -> length (balloc_bits n) = 512%nat.
Proof.
  apply (balloc_bits_ind (fun _ b => length b = 512%nat)); [done|]. intros m b _ H. unfold mark_used. by rewrite length_insert.
Qed.

Lemma balloc_bits_set n k : 0 <= n <= BPB -> 0 <= k < BPB -> bit_set (balloc_bits n) k = (k <? n).
Proof.
  intros Hn Hk. revert n Hn.
  assert (forall n, 0 <= n <= BPB -> length (balloc_bits n) = 512%nat /\ bit_set (balloc_bits n) k = (k <? n)) as H; [|intros; by apply H].
  apply (balloc_bits_ind (fun n b => length b = 512%nat /\ bit_set b k = (k <? n))).
  - split; [done|]. rewrite (proj2 (Z.ltb_ge k 0)) by lia. rewrite bit_set_testbit. unfold bit_byte.
    rewrite (list_lookup_total_correct _ _ 0); [apply Z.testbit_0_l|]. apply lookup_replicate_2.
    change BPB with 4096 in *. assert (k / 8 < 512) by (apply Z.div_lt_upper_bound; lia). pose proof (Z.div_pos k 8). lia.
  - intros n b Hn [Hl Hb]. split; [unfold mark_used; by rewrite length_insert|]. rewrite bit_set_used, Hb by done.
    destruct (Z.eqb_spec k n), (Z.ltb_spec k n), (Z.ltb_spec k (n + 1)); simpl; lia || done.
Qed.

Lemma balloc_bits_ok n : 0 <= n <= BPB -> block_ok (balloc_bits n).
Proof. apply (balloc_bits_ind (fun _ b => block_ok b)); [apply zero_block_ok|]. intros. by apply mark_used_ok. Qed.

(** ** The file system an image stands for *)

Record mrep (s : mkst) (t : txn) : Prop := {
  mr_count : m_count s = FSSIZE;
  mr_view : forall k, 0 <= k < FSSIZE -> t_view t k = if k =? 58 then balloc_bits (m_freeblock s) else m_img s k;
  mr_zero : forall k, m_freeblock s <= k < FSSIZE -> m_img s k = zero_block;
  mr_fb : 59 <= m_freeblock s <= FSSIZE;
  mr_lo : t_lo t = 32;
  mr_hi : t_hi t = FSSIZE;
  mr_ok : forall k, 0 <= k < FSSIZE -> block_ok (t_view t k);
  mr_sb : superblock_decode (t_view t 1) = msb
}.

Section rep.
Context (s : mkst) (t : txn) (R : mrep s t).

Lemma mr_used k : 0 <= k < FSSIZE -> used msb t k = (k <? m_freeblock s).
Proof.
  intros Hk. pose proof (mr_fb _ _ R). unfold FSSIZE in *. unfold used, BBLOCK. rewrite msb_eq. cbn [sb_bmapstart].
  rewrite Z.div_small by (consts; lia). change (u32 (0 + 58)) with 58. rewrite (mr_view _ _ R) by (unfold FSSIZE; lia).
  rewrite Z.eqb_refl, Z.mod_small by (consts; lia). apply balloc_bits_set; consts; lia.
Qed.

Lemma mr_geom : fs_geom msb t.
Proof.
  pose proof (mr_fb _ _ R). split; rewrite ?(mr_hi _ _ R), ?(mr_lo _ _ R); [vm_compute; intuition congruence..| |].
  - apply (mr_sb _ _ R).
  - intros b Hb. change (data_start msb) with 59 in Hb. rewrite mr_used by (unfold FSSIZE; lia). apply Z.ltb_lt. lia.
Qed.

Lemma mr_bound : 2 <= t_lo t /\ t_hi t < 2 ^ 31.
Proof. rewrite (mr_lo _ _ R), (mr_hi _ _ R). vm_compute. intuition congruence. Qed.

Lemma mr_blocks k : 0 <= k < t_hi t -> block_ok (t_view t k).
Proof. rewrite (mr_hi _ _ R). apply (mr_ok _ _ R). Qed.

Lemma mr_free : m_freeblock s < FSSIZE -> is_data msb (m_freeblock s) /\ used msb t (m_freeblock s) = false.
Proof.
  intros H. pose proof (mr_fb _ _ R). unfold FSSIZE in *. split.
  - unfold is_data. change (data_start msb) with 59. change (sb_size msb) with 1000. lia.
  - rewrite mr_used by (unfold FSSIZE; lia). apply Z.ltb_irrefl.
Qed.
End rep.

Definition taken (s : mkst) : mkst := s <| m_freeblock := m_freeblock s + 1 |>.

(** [freeblock++] is an allocation. *)
Lemma mr_alloc s t : mrep s t -> m_freeblock s < FSSIZE -> mrep (taken s) (alloc_txn msb (m_freeblock s) t).
Proof.
  intros R Hlt. pose proof (mr_fb _ _ R) as Hfb. set (a := m_freeblock s) in *. unfold FSSIZE in *.
  assert (Hbb : BBLOCK a msb = 58) by (unfold BBLOCK; rewrite msb_eq; cbn [sb_bmapstart]; rewrite Z.div_small by (consts; lia); done).
  assert (Hv : forall k, 0 <= k < 1000 -> t_view (alloc_txn msb a t) k =
    if k =? a then zero_block else if k =? 58 then balloc_bits (a + 1) else m_img s k).
  { intros k Hk. unfold alloc_txn. rewrite Hbb. simpl. unfold upd. destruct (Z.eqb_spec k a); [done|].
    destruct (Z.eqb_spec k 58) as [->|]; [|rewrite (mr_view _ _ R) by (unfold FSSIZE; lia); by rewrite (proj2 (Z.eqb_neq _ _)) by done].
    rewrite (mr_view _ _ R) by (unfold FSSIZE; lia). rewrite Z.eqb_refl, balloc_bits_S by lia. by rewrite Z.mod_small by (consts; lia). }
  split; unfold FSSIZE; change (m_img (taken s)) with (m_img s); change (m_freeblock (taken s)) with (a + 1); try apply R.
  - intros k Hk. rewrite Hv by done. destruct (Z.eqb_spec k a) as [->|]; [|done].
    rewrite (proj2 (Z.eqb_neq a 58)) by lia. symmetry. apply (mr_zero _ _ R). unfold FSSIZE, a. lia.
  - intros k Hk. apply (mr_zero _ _ R). unfold FSSIZE, a in *. lia.
  - lia.
  - intros k Hk. rewrite Hv by done. destruct (k =? a); [apply zero_block_ok|].
    destruct (Z.eqb_spec k 58) as [|Hne]; [apply balloc_bits_ok; consts; lia|].
    pose proof (mr_ok _ _ R k Hk) as Hok. rewrite (mr_view _ _ R) in Hok by done. by rewrite (proj2 (Z.eqb_neq k 58) Hne) in Hok.
  - rewrite Hv by lia. rewrite (proj2 (Z.eqb_neq 1 a)) by lia. change (1 =? 58) with false. cbv iota.
    pose proof (mr_sb _ _ R) as Hsb. by rewrite (mr_view _ _ R) in Hsb by (unfold FSSIZE; lia).
Qed.

Definition sect_put (s : mkst) (k : Z) (d : list Z) : mkst := s <| m_img := upd (m_img s) k d |> <| m_count := Z.max (m_count s) (k + 1) |>.

(** Writing a block in use. *)
Lemma mr_put s t k d : mrep s t -> 2 <= k < m_freeblock s -> k <> 58 -> block_ok d -> mrep (sect_put s k d) (put_log k d t).
Proof.
  intros R Hk Hne Hd. pose proof (mr_fb _ _ R) as Hfb. unfold FSSIZE in *.
  split; unfold FSSIZE; change (m_img (sect_put s k d)) with (upd (m_img s) k d); change (m_freeblock (sect_put s k d)) with (m_freeblock s);
    change (t_view (put_log k d t)) with (upd (t_view t) k d); try apply R.
  - change (m_count (sect_put s k d)) with (Z.max (m_count s) (k + 1)). rewrite (mr_count _ _ R). unfold FSSIZE. lia.
  - intros j Hj. unfold upd. destruct (Z.eqb_spec j k) as [->|]; [by rewrite (proj2 (Z.eqb_neq _ _) Hne)|]. by apply (mr_view _ _ R).
  - intros j Hj. rewrite upd_ne by lia. by apply (mr_zero _ _ R).
  - intros j Hj. unfold upd. destruct (j =? k); [done|]. by apply (mr_ok _ _ R).
  - rewrite upd_ne by lia. apply (mr_sb _ _ R).
Qed.

(** ** The operations *)

Lemma wp_next_block s (Q : Z -> mkst -> Prop) : 0 <= m_freeblock s < FSSIZE -> Q (m_freeblock s) (taken s) -> wp next_block s Q.
Proof.
  intros H HQ. unfold FSSIZE in H. unfold next_block. wp_steps. rewrite u32_small by lia. exact HQ.
Qed.

Lemma wp_rsect s k (Q : list Z -> mkst -> Prop) : k < m_count s -> Q (m_img s k) s -> wp (rsect k) s Q.
Proof. intros H HQ. unfold rsect. wp_step. wp_step. rewrite (proj2 (Z.ltb_lt _ _) H). cbn [negb]. by wp_step. Qed.

Lemma wp_wsect s k d (Q : () -> mkst -> Prop) : Q () (sect_put s k d) -> wp (wsect k d) s Q.
Proof. intros HQ. unfold wsect. by wp_step. Qed.

(** How many blocks [iappend_block] allocates. *)
Definition new_blocks (v : Z -> list Z) (addrs : list Z) (bn : Z) : Z :=
  (if block_of v addrs bn =? 0 then 1 else 0) + (if (NDIRECT <=? bn) && (ind_of addrs =? 0) then 1 else 0).

(** The part of [iappend_block] behind the indirect block. *)
Lemma wp_iappend_indirect s t din fbn (Q : Z * dinode -> mkst -> Prop) :
  mrep s t -> file_ok msb t (di_addrs din) -> NDIRECT <= fbn < MAXFILE -> ind_of (di_addrs din) <> 0 ->
  m_freeblock s + new_blocks (t_view t) (di_addrs din) fbn <= FSSIZE ->
  (forall s' t' x, bmap_post msb t (di_addrs din) fbn x t' (di_addrs din) -> mrep s' t' ->
     m_freeblock s' = m_freeblock s + new_blocks (t_view t) (di_addrs din) fbn -> m_freeinode s' = m_freeinode s -> Q (x, din) s') ->
  wp (indirect ← rsect (ind_of (di_addrs din));
      indirect ← (if word_at indirect (fbn - NDIRECT) =? 0
                  then b ← next_block;
                       let indirect := set_word indirect (fbn - NDIRECT) (xint b) in
                       wsect (ind_of (di_addrs din)) indirect;;
                       mret indirect
                  else mret indirect);
      mret (xint (word_at indirect (fbn - NDIRECT)), din)) s Q.
Proof.
  intros R Hf Hbn Hind Hfb HQ. set (addrs := di_addrs din) in *. set (ind := ind_of addrs) in *.
  pose proof (mr_geom _ _ R) as Hg. destruct (mr_bound _ _ R) as [Hlo Hhi]. pose proof (mr_blocks _ _ R) as Hok. pose proof (mr_fb _ _ R) as Hfb0.
  destruct (fo_ind _ _ _ Hf Hind) as [[Hd1 Hd2] Hu]. fold ind in Hd1, Hd2, Hu. change (data_start msb) with 59 in Hd1. change (sb_size msb) with FSSIZE in Hd2.
  rewrite (mr_used _ _ R) in Hu by lia. apply Z.ltb_lt in Hu.
  assert (Hv : m_img s ind = t_view t ind) by (rewrite (mr_view _ _ R) by lia; by rewrite (proj2 (Z.eqb_neq ind 58)) by lia).
  wp_step. apply wp_rsect; [rewrite (mr_count _ _ R); lia|]. rewrite Hv.
  assert (Hbo : block_of (t_view t) addrs fbn = word_at (t_view t ind) (fbn - NDIRECT)).
  { unfold block_of. rewrite (proj2 (Z.ltb_ge fbn NDIRECT)), (proj2 (Z.eqb_neq (ind_of addrs) 0) Hind) by lia. done. }
  assert (Hnb : new_blocks (t_view t) addrs fbn = if block_of (t_view t) addrs fbn =? 0 then 1 else 0).
  { unfold new_blocks. rewrite (proj2 (Z.eqb_neq (ind_of addrs) 0) Hind), andb_false_r. lia. }
  rewrite Hnb, Hbo in *. assert (0 <= fbn - NDIRECT < NINDIRECT) by (unfold MAXFILE in Hbn; lia).
  destruct (Z.eqb_spec (word_at (t_view t ind) (fbn - NDIRECT)) 0) as [E0|Hnz].
  - destruct (mr_free _ _ R) as [Ha Hua]; [lia|]. set (a := m_freeblock s) in *.
    assert (Hua32 : uint_ok a) by (unfold uint_ok, FSSIZE in *; lia).
    assert (Hok' : block_ok (t_view t ind)) by (apply Hok; rewrite (mr_hi _ _ R); lia).
    wp_step. apply wp_bind, wp_next_block; [fold a; lia|]. fold a. rewrite (xint_id a Hua32). cbv beta zeta.
    wp_step. apply wp_wsect. wp_step. wp_step.
    rewrite word_at_set, xint_id by (done || apply Hok' || lia). 
    apply (HQ _ (put_log ind (set_word (t_view t ind) (fbn - NDIRECT) a) (alloc_txn msb a t)) a).
    + apply (post_indirect msb t addrs Hg Hlo Hhi Hok Hf); try done. by rewrite Hbo.
    + apply mr_put; [by apply mr_alloc; [|lia]|change (m_freeblock (taken s)) with (a + 1); lia|lia|by apply set_word_ok].
    + done.
    + done.
  - wp_step. wp_step. wp_step.
    assert (Hu32 : uint_ok (word_at (t_view t ind) (fbn - NDIRECT))).
    { rewrite <- Hbo in *. destruct (fo_block _ _ _ Hf fbn) as [[? ?] _]; [unfold NDIRECT in *; lia|done|].
      change (data_start msb) with 59 in *. change (sb_size msb) with FSSIZE in *. unfold uint_ok, FSSIZE in *. lia. }
    rewrite (xint_id _ Hu32). apply (HQ s t); [|done|lia|done]. rewrite <- Hbo. apply post_hit; [done|done|by rewrite Hbo].
Qed.

Lemma file_words s t addrs : mrep s t -> file_ok msb t addrs -> Forall uint_ok addrs.
Proof. intros R Hf. destruct (mr_bound _ _ R). apply (file_addrs_ok msb t); try done. by apply (mr_geom s). Qed.

Lemma addr_word s t addrs (k : nat) : mrep s t -> file_ok msb t addrs -> (k < 13)%nat -> xint (addrs !!! k) = addrs !!! k.
Proof.
  intros R Hf Hk. apply xint_id. destruct (lookup_lt_is_Some_2 addrs k) as [x Hx]; [by rewrite (fo_len _ _ _ Hf)|].
  rewrite (list_lookup_total_correct _ _ _ Hx). apply (Forall_lookup_1 _ _ _ _ (file_words s t addrs R Hf) Hx).
Qed.

(** [iappend_block] maps a block the way [bmap] does. *)
Lemma wp_iappend_block s t din fbn (Q : Z * dinode -> mkst -> Prop) :
  mrep s t -> file_ok msb t (di_addrs din) -> 0 <= fbn < MAXFILE ->
  m_freeblock s + new_blocks (t_view t) (di_addrs din) fbn <= FSSIZE ->
  (forall s' t' addrs' x, bmap_post msb t (di_addrs din) fbn x t' addrs' -> mrep s' t' ->
     m_freeblock s' = m_freeblock s + new_blocks (t_view t) (di_addrs din) fbn -> m_freeinode s' = m_freeinode s ->
     (ind_of addrs' = 0 <-> ind_of (di_addrs din) = 0 /\ fbn < NDIRECT) ->
     Q (x, din <| di_addrs := addrs' |>) s') ->
  wp (iappend_block din fbn) s Q.
Proof.
  intros R Hf Hbn Hfb HQ. pose proof (mr_geom _ _ R) as Hg. destruct (mr_bound _ _ R) as [Hlo Hhi].
  pose proof (mr_blocks _ _ R) as Hok. pose proof (mr_fb _ _ R) as Hfb0. unfold iappend_block, new_blocks in *.
  assert (Hsame : din <| di_addrs := di_addrs din |> = din) by by destruct din.
  assert (Hu32 : forall a, a = m_freeblock s -> m_freeblock s < FSSIZE -> uint_ok a) by (unfold uint_ok, FSSIZE in *; lia).
  destruct (Z.ltb_spec fbn NDIRECT) as [Hlt|Hge].
  - rewrite (proj2 (Z.leb_gt NDIRECT fbn)) in * by lia. cbn [andb] in *. rewrite Z.add_0_r in *.
    assert (Hbo : block_of (t_view t) (di_addrs din) fbn = di_addrs din !!! Z.to_nat fbn)
      by (unfold block_of; by rewrite (proj2 (Z.ltb_lt fbn NDIRECT)) by lia).
    rewrite (addr_word s t) by (done || (unfold NDIRECT in *; lia)). rewrite Hbo in *. wp_step.
    destruct (Z.eqb_spec (di_addrs din !!! Z.to_nat fbn) 0) as [E0|Hnz].
    + destruct (mr_free _ _ R) as [Ha Hua]; [lia|]. set (a := m_freeblock s) in *.
      apply wp_bind, wp_next_block; [fold a; lia|]. fold a. cbv beta. rewrite (xint_id a) by (apply Hu32; [done|lia]). wp_step. wp_step.
      change (di_addrs (din <| di_addrs := <[Z.to_nat fbn := a]> (di_addrs din) |>)) with (<[Z.to_nat fbn := a]> (di_addrs din)).
      rewrite list_lookup_total_insert_eq by (rewrite (fo_len _ _ _ Hf); unfold NDIRECT in *; lia). rewrite (xint_id a) by (apply Hu32; [done|lia]).
      apply (HQ (taken s) (alloc_txn msb a t)); [|apply mr_alloc; [done|lia]|done|done|].
      * apply post_direct; try done; lia.
      * rewrite ind_of_insert by (unfold NDIRECT in *; lia). intuition lia.
    + wp_step. wp_step. rewrite (addr_word s t) by (done || (unfold NDIRECT in *; lia)). rewrite <- Hsame at 2.
      apply (HQ s t); [|done|lia|done|intuition lia]. rewrite <- Hbo. apply post_hit; [done|done|by rewrite Hbo].
  - rewrite (proj2 (Z.leb_le NDIRECT fbn)) in * by lia. cbn [andb] in *. change (Z.to_nat NDIRECT) with 12%nat.
    rewrite (addr_word s t) by (done || lia). change (di_addrs din !!! 12%nat) with (ind_of (di_addrs din)). wp_step.
    destruct (Z.eqb_spec (ind_of (di_addrs din)) 0) as [E0|Hnz].
    + assert (Hbo0 : block_of (t_view t) (di_addrs din) fbn = 0)
        by (unfold block_of; by rewrite (proj2 (Z.ltb_ge fbn NDIRECT)), E0 by lia).
      rewrite Hbo0 in *. change (0 =? 0) with true in *. cbv iota in *.
      destruct (mr_free _ _ R) as [Ha Hua]; [lia|]. set (a := m_freeblock s) in *.
      apply wp_bind, wp_next_block; [fold a; lia|]. fold a. cbv beta. rewrite (xint_id a) by (apply Hu32; [done|lia]). wp_step.
      set (din1 := din <| di_addrs := <[12%nat := a]> (di_addrs din) |>).
      destruct (grow_ind msb t (di_addrs din) Hg Hlo Hhi Hok Hf a Ha Hua E0) as [Hgr Hmap].
      assert (Hind : ind_of (di_addrs din1) = a) by (apply ind_of_set, (fo_len _ _ _ Hf)).
      assert (Hnb1 : new_blocks (t_view (alloc_txn msb a t)) (di_addrs din1) fbn = 1).
      { unfold new_blocks. rewrite Hind. change (di_addrs din1) with (<[12%nat := a]> (di_addrs din)). rewrite Hmap, Hbo0 by done.
        rewrite (proj2 (Z.eqb_neq a 0)), andb_false_r by lia. done. }
      rewrite (addr_word (taken s) (alloc_txn msb a t)); [|apply mr_alloc; [done|lia]|apply Hgr|lia].
      change (di_addrs din1 !!! 12%nat) with (ind_of (di_addrs din1)).
      apply (wp_iappend_indirect (taken s) (alloc_txn msb a t) din1); [apply mr_alloc; [done|lia]|apply Hgr|lia|rewrite Hind; lia| |].
      * rewrite Hnb1. change (m_freeblock (taken s)) with (a + 1). lia.
      * intros s' t' x Hp R' Hfb' Hfi'. rewrite Hnb1 in Hfb'. change (m_freeblock (taken s)) with (a + 1) in Hfb'.
        apply (HQ s' t'); [by apply (post_ind_first msb t (di_addrs din) Hg Hlo Hhi Hok Hf fbn a)|done|lia|done|rewrite (ind_of_set (di_addrs din) a (fo_len _ _ _ Hf)); lia].
    + wp_step. rewrite (addr_word s t) by (done || lia). change (di_addrs din !!! 12%nat) with (ind_of (di_addrs din)).
      apply (wp_iappend_indirect s t din); try done; try lia.
      * unfold new_blocks. rewrite (proj2 (Z.eqb_neq (ind_of (di_addrs din)) 0)), andb_false_r by done. lia.
      * intros s' t' x Hp R' Hfb' Hfi'. rewrite <- Hsame. apply (HQ s' t'); try done; [|intuition lia].
        unfold new_blocks in Hfb'. rewrite (proj2 (Z.eqb_neq (ind_of (di_addrs din)) 0)), andb_false_r in Hfb' by done. lia.
Qed.

(** ** The loop *)

(** The blocks of a file of [sz] bytes, the indirect block included. *)
Definition blk (sz : Z) : Z := (sz + (BSIZE - 1)) / BSIZE + (if NDIRECT * BSIZE <? sz then 1 else 0).

(** A file of [off] bytes has exactly the blocks it needs, zeroed after its end. *)
Record exact (v : Z -> list Z) (addrs : list Z) (off : Z) : Prop := {
  ex_block : forall bn, 0 <= bn < MAXFILE -> block_of v addrs bn = 0 <-> off <= bn * BSIZE;
  ex_ind : ind_of addrs = 0 <-> off <= NDIRECT * BSIZE;
  ex_tail : forall p, off <= p < MAXFILE * BSIZE -> block_of v addrs (p / BSIZE) <> 0 -> file_byte v addrs p = 0
}.

Lemma blk_mono a b : a <= b -> blk a <= blk b.
Proof.
  intros H. unfold blk. assert ((a + (BSIZE - 1)) / BSIZE <= (b + (BSIZE - 1)) / BSIZE) by (apply Z.div_le_mono; [done|lia]).
  destruct (Z.ltb_spec (NDIRECT * BSIZE) a), (Z.ltb_spec (NDIRECT * BSIZE) b); lia.
Qed.

(** A write within one block takes the blocks it lacks. *)
Lemma blk_chunk v addrs off n :
  exact v addrs off -> 0 <= off < MAXFILE * BSIZE -> 0 < n <= BSIZE - off mod BSIZE ->
  new_blocks v addrs (off / BSIZE) = blk (off + n) - blk off.
Proof.
  intros [Hb Hi _] Ho Hn. pose proof (div_bound _ Ho) as Hbn. destruct (off_split off ltac:(lia)) as [Eo Mo].
  specialize (Hb _ Hbn). set (q := off / BSIZE) in *. set (m := off mod BSIZE) in *. change BSIZE with 512 in *. change NDIRECT with 12 in *.
  assert (E1 : (off + n + (512 - 1)) / 512 = q + 1 + (if m + n <=? 512 then 0 else 1)).
  { destruct (Z.leb_spec (m + n) 512); [|lia]. symmetry. apply (Z.div_unique _ _ _ (m + n - 1)); lia. }
  assert (E2 : (off + (512 - 1)) / 512 = q + (if m =? 0 then 0 else 1)).
  { destruct (Z.eqb_spec m 0); symmetry; [apply (Z.div_unique _ _ _ 511); lia|apply (Z.div_unique _ _ _ (m - 1)); lia]. }
  unfold new_blocks, blk. change BSIZE with 512. change NDIRECT with 12. rewrite E1, E2. rewrite (proj2 (Z.leb_le (m + n) 512)) by lia.
  destruct (Z.eqb_spec (block_of v addrs q) 0), (Z.eqb_spec m 0), (Z.leb_spec 12 q), (Z.eqb_spec (ind_of addrs) 0),
    (Z.ltb_spec (12 * 512) (off + n)), (Z.ltb_spec (12 * 512) off); cbn [andb]; intuition lia.
Qed.

(** After a chunk the file has exactly the blocks it needs. *)
Lemma exact_chunk t addrs off c x t1 addrs1 t2 :
  let n := Z.of_nat (length c) in
  exact (t_view t) addrs off -> 0 <= off < MAXFILE * BSIZE -> 0 < n <= BSIZE - off mod BSIZE ->
  bmap_post msb t addrs (off / BSIZE) x t1 addrs1 -> (ind_of addrs1 = 0 <-> ind_of addrs = 0 /\ off / BSIZE < NDIRECT) ->
  (forall k, block_of (t_view t2) addrs1 k = block_of (t_view t1) addrs1 k) -> wrote msb t addrs off c t2 addrs1 ->
  exact (t_view t2) addrs1 (off + n).
Proof.
  intros n [Hb Hi Ht] Ho Hn [_ Hnz Hmap _ _ _ _] Hind Hv W. pose proof (div_bound _ Ho) as Hbn. destruct (off_split off ltac:(lia)) as [Eo Mo].
  split.
  - intros bn Hbn'. rewrite Hv, Hmap by done. specialize (Hb bn Hbn'). change BSIZE with 512 in *.
    destruct (Z.eqb_spec bn (off / 512)) as [->|Hne]; [lia|]. rewrite Hb. lia.
  - rewrite Hind, Hi. change BSIZE with 512 in *. change NDIRECT with 12 in *. lia.
  - intros p Hp Hbp. rewrite (wr_bytes _ _ _ _ _ _ _ W) by (done || lia). fold n.
    rewrite (proj2 (Z.ltb_ge p (off + n))), andb_false_r by lia.
    destruct (Z.eqb_spec (block_of (t_view t) addrs (p / BSIZE)) 0); [done|]. apply Ht; [lia|done].
Qed.

(** What [iappend] has done to the image when its loop ends. *)
Record appended (s : mkst) (t : txn) (addrs : list Z) (off : Z) (p : list Z) (s' : mkst) (t' : txn) (addrs' : list Z) : Prop := {
  ap_wrote : wrote msb t addrs off p t' addrs';
  ap_exact : exact (t_view t') addrs' (off + Z.of_nat (length p));
  ap_rep : mrep s' t';
  ap_blocks : m_freeblock s' = m_freeblock s + blk (off + Z.of_nat (length p)) - blk off;
  ap_inodes : m_freeinode s' = m_freeinode s
}.

(** One turn of the loop. *)
Lemma wp_iappend_turn {A : Type} s t din off c (K : dinode -> M mkst A) (Q : A -> mkst -> Prop) :
  let fbn := off / BSIZE in let n1 := Z.of_nat (length c) in
  mrep s t -> file_ok msb t (di_addrs din) -> exact (t_view t) (di_addrs din) off -> 0 <= off < MAXFILE * BSIZE ->
  Forall byte_ok c -> 0 < n1 <= BSIZE - off mod BSIZE -> m_freeblock s + blk (off + n1) - blk off <= FSSIZE ->
  (forall s' t' addrs', appended s t (di_addrs din) off c s' t' addrs' -> wp (K (din <| di_addrs := addrs' |>)) s' Q) ->
  wp (r ← iappend_block din fbn;
      let '(x, din) := r in
      buf ← rsect x;
      wsect x (splice buf (Z.to_nat (off - fbn * BSIZE)) c);;
      K din) s Q.
Proof.
  intros fbn n1 R Hf Hex Ho Hby Hn1 Hfb HQ. pose proof (div_bound _ Ho) as Hbn. destruct (off_split off ltac:(lia)) as [Eo Mo].
  pose proof (blk_chunk _ _ _ n1 Hex Ho Hn1) as Hnew. fold fbn in Hnew, Hbn, Eo.
  wp_step. apply (wp_iappend_block s t din fbn); [done|done|lia|lia|]. intros s1 t1 addrs1 x Hp R1 Hfb1 Hfi1 Hind.
  pose proof Hp as [[Hf1 Hg1 Hs1 _ _ _ _ _ _] Hnz Hmap _ _ _ _].
  assert (Ea : block_of (t_view t1) addrs1 fbn = x) by (rewrite Hmap by lia; by rewrite Z.eqb_refl).
  destruct (fo_block _ _ _ Hf1 fbn) as [Hda Hua]; [lia|by rewrite Ea|]. rewrite Ea in Hda, Hua.
  assert (Hx : 59 <= x < m_freeblock s1).
  { destruct Hda as [H1 H2]. change (data_start msb) with 59 in H1. change (sb_size msb) with FSSIZE in H2.
    rewrite (mr_used _ _ R1) in Hua by lia. apply Z.ltb_lt in Hua. lia. }
  pose proof (mr_fb _ _ R1) as Hfb0. pose proof (mr_geom _ _ R) as Hg. destruct (mr_bound _ _ R) as [Hlo Hhi]. destruct (mr_bound _ _ R1) as [Hlo1 Hhi1].
  assert (Hv : m_img s1 x = t_view t1 x) by (rewrite (mr_view _ _ R1) by lia; by rewrite (proj2 (Z.eqb_neq x 58)) by lia).
  wp_step. apply wp_rsect; [rewrite (mr_count _ _ R1); lia|]. rewrite Hv. wp_step. apply wp_wsect.
  replace (off - fbn * BSIZE) with (off mod BSIZE) by lia.
  assert (Hok1 : block_ok (t_view t1 x)) by (apply (mr_ok _ _ R1); lia).
  set (d := splice (t_view t1 x) (Z.to_nat (off mod BSIZE)) c).
  assert (Hd : block_ok d) by (apply splice_block; [done|done|change BSIZE with 512 in *; lia]).
  assert (Hxi : x <> ind_of addrs1) by (intros E; apply (fo_ind_ne _ _ _ Hf1 fbn); [lia|congruence|congruence]).
  assert (W : wrote msb t (di_addrs din) off c (put_log x d t1) addrs1)
    by (apply wrote_chunk; try done; intros k Hk; by apply (mr_blocks _ _ R1)).
  apply (HQ (sect_put s1 x d) (put_log x d t1) addrs1). split; [done| | | |].
  - apply (exact_chunk t (di_addrs din) off c x t1); try done. apply (file_put msb t1 Hg1 Hlo1 Hhi1); done.
  - apply mr_put; [done|lia|lia|done].
  - change (m_freeblock (sect_put s1 x d)) with (m_freeblock s1). fold n1. lia.
  - done.
Qed.

Lemma appended_trans s t addrs off c s1 t1 addrs1 p s2 t2 addrs2 :
  mrep s t -> 0 <= off -> off + Z.of_nat (length c) + Z.of_nat (length p) <= MAXFILE * BSIZE ->
  0 < Z.of_nat (length c) <= BSIZE - off mod BSIZE -> (0 < Z.of_nat (length p) -> Z.of_nat (length c) = BSIZE - off mod BSIZE) ->
  appended s t addrs off c s1 t1 addrs1 -> appended s1 t1 addrs1 (off + Z.of_nat (length c)) p s2 t2 addrs2 ->
  appended s t addrs off (c ++ p) s2 t2 addrs2.
Proof.
  intros R Hoff Hmax Hc Hfull [W1 X1 R1 B1 I1] [W2 X2 R2 B2 I2].
  split; rewrite ?length_app, ?Nat2Z.inj_add, ?Z.add_assoc; try done; [|lia|congruence].
  eapply wrote_trans; try done; [by apply (mr_geom s)|apply (mr_bound s t R)|].
  rewrite length_app, Nat2Z.inj_add, nblocks_split by (done || lia).
  assert (nblocks off (Z.of_nat (length c)) = 1%nat) as ->; [|done].
  replace (Z.of_nat (length c)) with (Z.of_nat (length c) + 0) by lia. by rewrite nblocks_split by lia.
Qed.

Lemma wp_iappend_loop fuel : forall s t p off din (Q : Z * dinode -> mkst -> Prop),
  let n := Z.of_nat (length p) in
  mrep s t -> file_ok msb t (di_addrs din) -> exact (t_view t) (di_addrs din) off -> 0 <= off -> Forall byte_ok p ->
  off + n <= MAXFILE * BSIZE -> (length p <= fuel)%nat -> m_freeblock s + blk (off + n) - blk off <= FSSIZE ->
  (forall s' t' addrs', appended s t (di_addrs din) off p s' t' addrs' -> Q (off + n, din <| di_addrs := addrs' |>) s') ->
  wp (iappend_loop fuel p off din) s Q.
Proof.
  induction fuel as [|fuel IH]; intros s t p off din Q n R Hf Hex Hoff Hby Hmax Hfuel Hfb HQ; cbn [iappend_loop]; fold n.
  all: assert (Hnil : n = 0 -> Q (off, din) s) by (intros E; assert (p = []) as -> by (apply nil_length_inv; lia);
    replace (off, din) with (off + 0, din <| di_addrs := di_addrs din |>) by (rewrite Z.add_0_r; by destruct din);
    rewrite E in HQ; apply (HQ s t); split; [apply wrote_nil; [done|by apply (mr_geom s)]|by rewrite Z.add_0_r|done|simpl; rewrite Z.add_0_r; lia|done]).
  all: destruct (Z.gtb_spec n 0) as [Hpos|Hle]; cbn [negb]; [|wp_step; apply Hnil; lia].
  { lia. }
  assert (Ho : 0 <= off < MAXFILE * BSIZE) by lia. pose proof (div_bound _ Ho) as Hbn. destruct (off_split off Hoff) as [Eo Mo].
  set (fbn := off / BSIZE) in *. rewrite (proj2 (Z.ltb_lt fbn MAXFILE)) by lia. cbn [negb].
  set (n1 := Z.min n ((fbn + 1) * BSIZE - off)). set (c := take (Z.to_nat n1) p). set (rest := drop (Z.to_nat n1) p).
  assert (Hn1 : 0 < n1 <= BSIZE - off mod BSIZE /\ n1 <= n) by (change BSIZE with 512 in *; lia).
  assert (Hc : Z.of_nat (length c) = n1) by (unfold c; rewrite length_take; lia).
  assert (Hrest : Z.of_nat (length rest) = n - n1) by (unfold rest; rewrite length_drop; lia).
  pose proof (blk_chunk _ _ _ n1 Hex Ho ltac:(lia)) as Hnew. fold fbn in Hnew. pose proof (blk_mono (off + n1) (off + n) ltac:(lia)) as Hmono.
  apply (wp_iappend_turn s t din off c (fun din => iappend_loop fuel rest (u32 (off + n1)) din)); rewrite ?Hc; try done; [by apply Forall_take|lia|lia|].
  intros s1 t1 addrs1 A1. pose proof A1 as [W1 X1 R1 B1 I1]. rewrite Hc in X1, B1.
  rewrite u32_small by (change MAXFILE with 140 in *; change BSIZE with 512 in *; lia).
  apply (IH s1 t1 rest (off + n1) (din <| di_addrs := addrs1 |>)); rewrite ?Hrest; try done; try lia.
  - apply (wr_ok _ _ _ _ _ _ _ W1).
  - by apply Forall_drop.
  - replace (off + n1 + (n - n1)) with (off + n) by lia. lia.
  - intros s2 t2 addrs2 A2. replace (off + n1 + (n - n1)) with (off + n) by lia. apply (HQ s2 t2 addrs2).
    rewrite <- (take_drop (Z.to_nat n1) p). fold c rest. apply (appended_trans s t _ off c s1 t1 addrs1); try done; try lia.
    by rewrite Hc.
Qed.

(** ** Inodes *)

Lemma miblock n : 0 <= n < 200 -> 32 <= IBLOCK n msb < 58.
Proof.
  intros Hn. unfold IBLOCK. rewrite msb_eq. cbn [sb_inodestart]. change IPB with 8.
  assert (0 <= n / 8 < 25) by (split; [apply Z.div_pos; lia|apply Z.div_lt_upper_bound; lia]). rewrite u32_small by lia. lia.
Qed.

Lemma wp_rinode s t n (Q : dinode -> mkst -> Prop) :
  mrep s t -> 0 <= n < 200 -> Q (disk_inode msb t n) s -> wp (rinode n) s Q.
Proof.
  intros R Hn HQ. pose proof (miblock n Hn). pose proof (mr_fb _ _ R). unfold rinode. wp_step.
  apply wp_rsect; [rewrite (mr_count _ _ R); unfold FSSIZE; lia|]. wp_step. unfold disk_inode in HQ.
  rewrite (mr_view _ _ R), (proj2 (Z.eqb_neq _ 58)) in HQ by (unfold FSSIZE; lia). exact HQ.
Qed.

Definition set_inode (t : txn) (n : Z) (d : dinode) : txn :=
  put_log (IBLOCK n msb) (set_dinode (t_view t (IBLOCK n msb)) n d) t.

Lemma wp_winode s t n d (Q : () -> mkst -> Prop) :
  mrep s t -> 0 <= n < 200 -> length (di_addrs d) = 13%nat ->
  (forall s', mrep s' (set_inode t n d) -> m_freeblock s' = m_freeblock s -> m_freeinode s' = m_freeinode s -> Q () s') ->
  wp (winode n d) s Q.
Proof.
  intros R Hn Hl HQ. pose proof (miblock n Hn). pose proof (mr_fb _ _ R). unfold winode. wp_step.
  apply wp_rsect; [rewrite (mr_count _ _ R); unfold FSSIZE; lia|]. apply wp_wsect.
  assert (Hv : m_img s (IBLOCK n msb) = t_view t (IBLOCK n msb)) by (rewrite (mr_view _ _ R), (proj2 (Z.eqb_neq _ 58)) by (unfold FSSIZE; lia); done).
  rewrite Hv. apply HQ; [|done|done]. apply mr_put; [done|lia|lia|]. apply set_dinode_ok; [apply (mr_ok _ _ R); unfold FSSIZE; lia|done].
Qed.

(** [iappend] writes at the end of the file. *)
Lemma wp_iappend s t n p (Q : () -> mkst -> Prop) :
  let i := as_inode n (disk_inode msb t n) in let sz := size_of msb t n in let len := Z.of_nat (length p) in
  mrep s t -> fs_core msb t -> alloc_inode msb t n -> exact (t_view t) (addrs_of msb t n) sz ->
  Forall byte_ok p -> 0 < len -> sz + len <= MAXFILE * BSIZE -> m_freeblock s + blk (sz + len) - blk sz <= FSSIZE ->
  (forall s' t' i', writei_post msb t i sz p t' i' -> mrep s' t' -> exact (t_view t') (i_addrs i') (sz + len) ->
     i_size i' = sz + len -> m_freeblock s' = m_freeblock s + blk (sz + len) - blk sz -> m_freeinode s' = m_freeinode s -> Q () s') ->
  wp (iappend n p) s Q.
Proof.
  intros i sz len R Hco Ha Hex Hby Hlen Hmax Hfb HQ. pose proof Ha as [Hn _]. change (sb_ninodes msb) with 200 in Hn.
  pose proof (fk_inode _ _ Hco n Ha) as Hio. fold i in Hio. pose proof (mr_geom _ _ R) as Hg. destruct (mr_bound _ _ R) as [Hlo Hhi].
  unfold iappend. wp_step. apply (wp_rinode s t); [done|lia|]. set (d := disk_inode msb t n) in *.
  assert (Hdk : dinode_ok d) by (apply get_dinode_ok, (mr_ok _ _ R); pose proof (miblock n ltac:(lia)); unfold FSSIZE; lia).
  assert (Hsz : 0 <= sz <= MAXFILE * BSIZE) by apply (io_size _ _ _ Hio).
  assert (Hx : xint (di_size d) = sz) by (apply xint_id, Hdk). rewrite Hx.
  wp_step. apply (wp_iappend_loop (length p) s t p sz d); try done; [apply Hio|lia|]. fold len.
  intros s1 t1 addrs1 [W X1 R1 B1 I1]. fold len in X1, B1. pose proof (wr_ok _ _ _ _ _ _ _ W) as Hf1.
  rewrite xint_id by (unfold uint_ok; change (MAXFILE * BSIZE) with 71680 in *; lia).
  set (d' := (d <| di_addrs := addrs1 |>) <| di_size := sz + len |>). set (i' := written i sz len addrs1).
  assert (Hns : new_size i sz len = sz + len).
  { unfold new_size. change (i_size i) with sz. rewrite !Z.gtb_ltb, (proj2 (Z.ltb_lt 0 len)), (proj2 (Z.ltb_lt sz (sz + len))) by lia. done. }
  assert (Hd' : dinode_of i' = d') by (unfold i', written; rewrite Hns; done).
  apply (wp_winode s1 t1 n d'); [done|lia|apply (fo_len _ _ _ Hf1)|]. intros s2 R2 B2 I2.
  destruct (mr_bound _ _ R1) as [Hlo1 Hhi1].
  apply (HQ s2 (set_inode t1 n d') i'); try done; try congruence.
  - unfold set_inode. rewrite <- Hd'. change n with (i_inum i').
    apply (post_grown msb t i sz p t1 addrs1); try done; [change (i_size i) with sz; lia|change (i_inum i) with n; change (sb_ninodes msb) with 200; lia|].
    intros k Hk. by apply (mr_blocks _ _ R1).
  - destruct (file_meta msb t1 (mr_geom _ _ R1) Hlo1 Hhi1 (IBLOCK n msb) (set_dinode (t_view t1 (IBLOCK n msb)) n d')) with (addrs := addrs1) as [_ Hbo];
      [rewrite (mr_lo _ _ R1); change (sb_bmapstart msb) with 58; apply miblock; lia|done|].
    change (i_addrs i') with addrs1. destruct X1 as [Xb Xi Xt]. split; [|done|].
    + intros bn Hbn. rewrite <- (Xb bn Hbn). unfold set_inode. by rewrite Hbo.
    + intros q Hq. unfold set_inode. rewrite Hbo. intros Hnz. rewrite <- (Xt q) by done. unfold file_byte. rewrite Hbo. f_equal.
      apply (view_meta msb t1 (mr_geom _ _ R1)); [rewrite (mr_lo _ _ R1); change (sb_bmapstart msb) with 58; apply miblock; lia|].
      apply (fo_block _ _ _ Hf1); [apply div_bound; lia|done].
Qed.
