(* ===== verification/MkfsBuild.v ===== *)
(** The image while [mkfs] fills it: the inodes handed out so far hold the
    bytes appended to them, and the sum of their blocks is [freeblock].  Then the finished image, and the theorem that the kernel
    finds in it the files that were put there. *)

From S2P Require Import Prelude CString Layout Mkfs Sleeplock BlockLayer Fs FsBlock FsFile FsRW FsDir FsTree TxnLayer FsRest MkfsThms.

Definition blks (cs : list (list Z)) : Z := foldr (fun c n => blk (Z.of_nat (length c)) + n) 0 cs.

(** Inode [k + 1] holds the bytes [cs !! k]. *)
Record built (s : mkst) (t : txn) (cs : list (list Z)) : Prop := {
  bu_rep : mrep s t;
  bu_core : fs_core msb t;
  bu_next : m_freeinode s = 1 + Z.of_nat (length cs);
  bu_len : (length cs < 200)%nat;
  bu_type : forall n, 0 < n < 200 -> type_of msb t n =
    if n <=? Z.of_nat (length cs) then (if n =? 1 then T_DIR else T_FILE) else 0;
  bu_nlink : forall n, 0 < n <= Z.of_nat (length cs) -> di_nlink (disk_inode msb t n) = 1;
  bu_content : forall k c, cs !! k = Some c -> content msb t (Z.of_nat k + 1) = c;
  bu_exact : forall n, 0 < n <= Z.of_nat (length cs) -> exact (t_view t) (addrs_of msb t n) (size_of msb t n);
  bu_blocks : m_freeblock s = 59 + blks cs
}.

Section built.
Context (s : mkst) (t : txn) (cs : list (list Z)) (B : built s t cs).

Lemma bu_alloc n : alloc_inode msb t n <-> 0 < n <= Z.of_nat (length cs).
Proof.
  pose proof (bu_len _ _ _ B). unfold alloc_inode. change (sb_ninodes msb) with 200. split.
  - intros [Hn Hty]. rewrite (bu_type _ _ _ B) in Hty by done. destruct (Z.leb_spec n (Z.of_nat (length cs))); [lia|done].
  - intros Hn. split; [lia|]. rewrite (bu_type _ _ _ B) by lia. rewrite (proj2 (Z.leb_le _ _)) by lia. by destruct (n =? 1).
Qed.

Lemma bu_size k c : cs !! k = Some c -> size_of msb t (Z.of_nat k + 1) = Z.of_nat (length c).
Proof.
  intros Hc. pose proof (lookup_lt_Some _ _ _ Hc). rewrite <- (bu_content _ _ _ B k c Hc). symmetry.
  apply content_length; [apply B|]. apply bu_alloc. lia.
Qed.
End built.

Lemma exact_kept t t' addrs off : 0 <= off -> agree_on t t' addrs -> exact (t_view t) addrs off -> exact (t_view t') addrs off.
Proof.
  intros H0 Ha [Hb Hi Ht]. split; [|done|].
  - intros bn Hbn. rewrite (agree_block t t' addrs Ha). by apply Hb.
  - intros p Hp. rewrite (agree_block t t' addrs Ha). intros Hnz. rewrite (agree_byte t t' addrs Ha) by (done || lia). by apply Ht.
Qed.

Lemma blks_insert cs k c c' : cs !! k = Some c ->
  blks (<[k := c']> cs) = blks cs - blk (Z.of_nat (length c)) + blk (Z.of_nat (length c')).
Proof.
  revert k. induction cs as [|x cs IH]; intros [|k] Hk; simpl in *; simplify_eq; [lia|]. rewrite (IH k Hk). lia.
Qed.

Lemma blks_snoc cs : blks (cs ++ [[]]) = blks cs.
Proof. induction cs as [|x cs IH]; simpl; [done|]. by rewrite IH. Qed.

(** Appending to an inode. *)
Lemma wp_append s t cs k c p (Q : () -> mkst -> Prop) :
  built s t cs -> cs !! k = Some c -> Forall byte_ok p -> p <> [] ->
  Z.of_nat (length (c ++ p)) <= MAXFILE * BSIZE -> 59 + blks (<[k := c ++ p]> cs) <= FSSIZE ->
  (forall s' t', built s' t' (<[k := c ++ p]> cs) -> Q () s') ->
  wp (iappend (Z.of_nat k + 1) p) s Q.
Proof.
  intros B Hc Hby Hne Hmax Hfb HQ. set (n := Z.of_nat k + 1). pose proof (lookup_lt_Some _ _ _ Hc) as Hlt. pose proof (bu_len _ _ _ B) as Hl200.
  assert (Ha : alloc_inode msb t n) by (apply (bu_alloc s t cs B); lia).
  pose proof (bu_size s t cs B k c Hc) as Hsz. fold n in Hsz. rewrite length_app, Nat2Z.inj_add in Hmax.
  assert (Hlen : 0 < Z.of_nat (length p)) by (destruct p; [done|simpl; lia]).
  rewrite (blks_insert cs k c (c ++ p) Hc), length_app, Nat2Z.inj_add in Hfb.
  apply (wp_iappend s t n p); rewrite ?Hsz; try done; try apply B; try lia.
  { rewrite <- Hsz. apply B. lia. }
  { rewrite (bu_blocks _ _ _ B). lia. }
  set (d := disk_inode msb t n). set (i := as_inode n d). intros s' t' i' W R' X' Si' Fb' Fi'.
  pose proof (bu_core _ _ _ B) as Hco. assert (Hdi : dinode_of i = disk_inode msb t (i_inum i)) by (change (i_inum i) with n; unfold i; fold d; by destruct d).
  change n with (i_inum i) in Ha.
  assert (Hkept : forall m, alloc_inode msb t m -> m <> n -> inode_kept msb t t' m)
    by (intros m Hm Hmn; apply (write_kept msb t t' i i' (Z.of_nat (length c)) p); done).
  pose proof (write_dinode msb t t' i i' _ p Hdi W) as Hd'. change (i_inum i) with n in Hd'.
  apply (HQ s' t'). split; rewrite ?length_insert; try done.
  - apply (write_core msb t t' i i' (Z.of_nat (length c)) p); done.
  - rewrite Fi'. apply B.
  - intros m Hm. destruct (write_meta msb t t' i i' _ p Hdi W m Hm) as [-> _]. by apply B.
  - intros m Hm. destruct (write_meta msb t t' i i' _ p Hdi W m) as [_ ->]; [change (sb_ninodes msb) with 200; lia|]. by apply B.
  - intros j x. destruct (decide (j = k)) as [->|Hjk].
    + rewrite list_lookup_insert_eq by done. intros [= <-]. fold n.
      pose proof (write_content msb t t' i i' (Z.of_nat (length c)) p Hco Ha eq_refl Hdi) as Hw.
      change (i_inum i) with n in Hw. rewrite Hw by (done || (change (i_size i) with (size_of msb t n); lia)).
      unfold n. rewrite (bu_content _ _ _ B k c Hc). unfold splice. rewrite Nat2Z.id, take_ge, drop_ge, app_nil_r by lia. done.
    + rewrite list_lookup_insert_ne by done. intros Hj. pose proof (lookup_lt_Some _ _ _ Hj).
      rewrite (kept_content msb t t'); [by apply (bu_content _ _ _ B)|apply Hkept; [|lia]|done|]; apply (bu_alloc s t cs B); lia.
  - intros m Hm. destruct (decide (m = n)) as [->|Hmn].
    + unfold addrs_of, size_of. rewrite Hd'. cbn [dinode_of di_addrs di_size]. rewrite Si'. exact X'.
    + assert (Hal : alloc_inode msb t m) by (apply (bu_alloc s t cs B); lia).
      destruct (Hkept m Hal Hmn) as [E Hag]. unfold addrs_of, size_of in *. rewrite E.
      apply (exact_kept t); [|done|by apply B]. apply (fk_inode _ _ Hco m Hal).
  - rewrite (blks_insert cs k c (c ++ p) Hc), length_app, Nat2Z.inj_add, Fb', (bu_blocks _ _ _ B). lia.
Qed.

(** ** A new inode *)

Section set_inode.
Context (s : mkst) (t : txn) (R : mrep s t) (n : Z) (Hn : 0 <= n < 200) (d : dinode) (Hd : dinode_ok d).
Let t' := set_inode t n d.

Lemma si_block : t_lo t <= IBLOCK n msb < sb_bmapstart msb.
Proof. rewrite (mr_lo _ _ R). change (sb_bmapstart msb) with 58. by apply miblock. Qed.

Lemma si_disk j : 0 <= j < 200 -> disk_inode msb t' j = if j =? n then d else disk_inode msb t j.
Proof.
  intros Hj. destruct (mr_bound _ _ R). assert (E : dinode_of (as_inode n d) = d) by by destruct d.
  pose proof (iupdate_disk msb t (as_inode n d) j (mr_geom _ _ R)) as H1. unfold iupdate_txn in H1. rewrite E in H1.
  apply H1; try done. by apply mr_blocks with s.
Qed.

Lemma si_used k : 0 <= k < FSSIZE -> used msb t' k = used msb t k.
Proof. intros Hk. destruct (mr_bound _ _ R). apply used_meta; try done; [by apply (mr_geom s)|by apply si_block]. Qed.

Lemma si_view k : is_data msb k -> t_view t' k = t_view t k.
Proof. intros Hk. apply (view_meta msb t (mr_geom _ _ R)); [by apply si_block|done]. Qed.

Lemma si_kept m : fs_core msb t -> alloc_inode msb t m -> m <> n -> inode_kept msb t t' m.
Proof.
  intros Hco Ha Hne. split.
  - rewrite si_disk by (destruct Ha as [Ha _]; change (sb_ninodes msb) with 200 in Ha; lia). by rewrite (proj2 (Z.eqb_neq _ _) Hne).
  - intros k Ho. apply si_view. apply (own_data msb t (addrs_of msb t m)); [|done]. apply (fk_inode _ _ Hco m Ha).
Qed.
End set_inode.

Lemma no_blocks v bn : 0 <= bn -> block_of v (replicate 13 0) bn = 0.
Proof.
  intros Hb. unfold block_of. change (ind_of (replicate 13 0)) with 0. destruct (Z.ltb_spec bn NDIRECT) as [H|]; [|done].
  change NDIRECT with 12 in H. apply list_lookup_total_correct, lookup_replicate_2. lia.
Qed.

Lemma empty_own t k : ~ own t (replicate 13 0) k.
Proof. intros [Hk [->|(bn & Hbn & E)]]; [done|]. by rewrite no_blocks in E by lia. Qed.

Lemma empty_inode sb t n type : inode_ok sb t (as_inode n (mk_dinode type 0 0 1 0 (replicate 13 0))).
Proof.
  split; [done| |vm_compute; intuition congruence|].
  - split; try done; cbn [i_addrs as_inode di_addrs].
    + intros bn Hb. by rewrite no_blocks by lia.
    + intros a b Ha Hb. by rewrite no_blocks by lia.
  - intros bn Hb Hs. cbn [i_size as_inode di_size] in Hs. change BSIZE with 512 in Hs. lia.
Qed.

Lemma empty_exact v : exact v (replicate 13 0) 0.
Proof.
  split.
  - intros bn Hb. rewrite no_blocks by lia. change BSIZE with 512. lia.
  - done.
  - intros p Hp. rewrite no_blocks by (apply Z.div_pos; [lia|done]). done.
Qed.

(** The inodes in use after one more has been set up. *)
Lemma new_core s t n type :
  let d := mk_dinode type 0 0 1 0 (replicate 13 0) in let t' := set_inode t n d in
  mrep s t -> fs_core msb t -> 0 < n < 200 -> type_of msb t n = 0 -> short_ok type -> fs_core msb t'.
Proof.
  intros d t' R Hco Hn Hfree Hty. destruct (mr_bound _ _ R) as [Hlo Hhi].
  assert (Hd : dinode_ok d) by (split_and!; try done; repeat constructor; unfold uint_ok; lia).
  assert (Hdn : disk_inode msb t' n = d) by (unfold t'; rewrite (si_disk s) by (done || lia); by rewrite Z.eqb_refl).
  assert (Hal : forall m, alloc_inode msb t' m -> m <> n -> alloc_inode msb t m).
  { intros m [Hm Hty'] Hne. split; [done|]. change (sb_ninodes msb) with 200 in Hm. unfold type_of, t' in Hty'.
    rewrite (si_disk s) in Hty' by (done || lia). by rewrite (proj2 (Z.eqb_neq _ _) Hne) in Hty'. }
  assert (Hk : forall m, alloc_inode msb t m -> m <> n -> inode_kept msb t t' m) by (intros; apply (si_kept s); (done || lia)).
  assert (Hu : forall k, 0 <= k < sb_size msb -> used msb t k = true -> used msb t' k = true)
    by (intros k Hk'; change (sb_size msb) with FSSIZE in Hk'; unfold t'; by rewrite (si_used s) by (done || lia)).
  split.
  - apply geom_meta; [by apply (mr_geom s)|done|done|]. apply (si_block s); [done|lia].
  - done.
  - intros m Hm. destruct (decide (m = n)) as [->|Hne]; [rewrite Hdn; apply empty_inode|].
    apply (kept_ok msb t t'); auto.
  - assert (Hne0 : forall k, ~ own t' (addrs_of msb t' n) k) by (intros k; unfold addrs_of; rewrite Hdn; apply empty_own).
    intros a b k Ha Hb Hab Hoa Hob. destruct (decide (a = n)) as [->|Han]; [by apply (Hne0 k)|].
    destruct (decide (b = n)) as [->|Hbn]; [by apply (Hne0 k)|].
    destruct (Hk a (Hal a Ha Han) Han) as [Ea Aa], (Hk b (Hal b Hb Hbn) Hbn) as [Eb Ab].
    unfold addrs_of in Hoa, Hob. rewrite Ea in Hoa. rewrite Eb in Hob.
    apply (agree_own t t' _ Aa) in Hoa. apply (agree_own t t' _ Ab) in Hob. apply (fk_disjoint _ _ Hco a b k); auto.
Qed.

Lemma wp_mk_ialloc s t cs type (Q : Z -> mkst -> Prop) :
  built s t cs -> (length cs < 199)%nat -> type = (if decide (cs = []) then T_DIR else T_FILE) ->
  (forall s' t', built s' t' (cs ++ [[]]) -> Q (Z.of_nat (length cs) + 1) s') ->
  wp (Mkfs.ialloc type) s Q.
Proof.
  intros B Hl Hty HQ. set (n := Z.of_nat (length cs) + 1). pose proof (bu_rep _ _ _ B) as R. pose proof (bu_core _ _ _ B) as Hco.
  assert (Hxt : xshort type = type /\ short_ok type /\ type <> 0) by (rewrite Hty; case_decide; vm_compute; intuition congruence).
  destruct Hxt as (Ext & Hst & Hnz). unfold Mkfs.ialloc. wp_step. wp_step. rewrite (bu_next _ _ _ B), (Z.add_comm 1). fold n. wp_step. wp_step.
  rewrite Ext. change (xshort 1) with 1. change (xint 0) with 0. rewrite u32_small by lia.
  set (d := mk_dinode type 0 0 1 0 (replicate 13 0)). set (s1 := s <| m_freeinode := n + 1 |>).
  assert (R1 : mrep s1 t) by (destruct R; by split).
  wp_step. apply (wp_winode s1 t); [done|lia|done|]. intros s2 R2 B2 I2. wp_step. set (t' := set_inode t n d) in *.
  assert (Hd : dinode_ok d) by (split_and!; try done; repeat constructor; unfold uint_ok; lia).
  assert (Hfree : type_of msb t n = 0) by (rewrite (bu_type _ _ _ B) by lia; by rewrite (proj2 (Z.leb_gt _ _)) by lia).
  assert (Hdisk : forall j, 0 <= j < 200 -> disk_inode msb t' j = if j =? n then d else disk_inode msb t j)
    by (intros j Hj; apply (si_disk s); (done || lia)).
  assert (Hk : forall m, 0 < m <= Z.of_nat (length cs) -> inode_kept msb t t' m).
  { intros m Hm. apply (si_kept s); try done; [lia|by apply (bu_alloc s t cs B)|lia]. }
  apply (HQ s2 t'). split; rewrite ?length_app; cbn [length]; rewrite ?Nat2Z.inj_add; try done; try lia.
  - apply (new_core s); (done || lia).
  - rewrite I2. change (m_freeinode s1) with (n + 1). lia.
  - intros m Hm. unfold type_of. rewrite Hdisk by lia. destruct (Z.eqb_spec m n) as [->|Hne].
    + rewrite (proj2 (Z.leb_le _ _)) by lia. change (di_type d) with type. rewrite Hty. destruct (Z.eqb_spec n 1), (decide (cs = [])) as [E|E]; try done.
      * destruct cs; [done|]. unfold n in *. simpl in *. lia.
      * subst cs. done.
    + pose proof (bu_type _ _ _ B m Hm) as E. unfold type_of in E. rewrite E.
      destruct (Z.leb_spec m (Z.of_nat (length cs))), (Z.leb_spec m (Z.of_nat (length cs) + Z.of_nat 1)); try done; lia.
  - intros m Hm. rewrite Hdisk by lia. destruct (Z.eqb_spec m n); [done|]. apply B. lia.
  - intros k c [Hc|[Hlen Hc]]%lookup_app_Some.
    + pose proof (lookup_lt_Some _ _ _ Hc). rewrite (kept_content msb t t'); [by apply B|apply Hk; lia|done|apply (bu_alloc s t cs B); lia].
    + destruct (k - length cs)%nat eqn:E; [|done]. injection Hc as <-. unfold content, addrs_of, size_of.
      replace (Z.of_nat k + 1) with n by lia. rewrite Hdisk by lia. by rewrite Z.eqb_refl.
  - intros m Hm. unfold addrs_of, size_of. rewrite Hdisk by lia. destruct (Z.eqb_spec m n) as [->|Hne]; [apply empty_exact|].
    apply (exact_kept t); [|apply Hk; lia|apply B; lia]. apply (fk_inode _ _ Hco m), (bu_alloc s t cs B). lia.
  - rewrite blks_snoc, B2. apply B.
Qed.

(** ** The empty image *)

Definition blank_txn : txn :=
  rest_txn (fun k => if k =? 58 then balloc_bits 59 else if k =? 1 then splice zero_block 0 (superblock_encode msb) else zero_block) 32 FSSIZE.

Lemma wp_zero s (Q : () -> mkst -> Prop) :
  m_count s = 0 -> (forall k, m_img s k = zero_block) ->
  (forall s', m_count s' = FSSIZE -> (forall k, m_img s' k = zero_block) -> m_freeinode s' = m_freeinode s -> m_freeblock s' = m_freeblock s -> Q () s') ->
  wp (forM (seqZ 0 FSSIZE) (fun i => wsect i zero_block)) s Q.
Proof.
  intros Hc Hz HQ. apply (wp_forM (fun pre s' => m_count s' = Z.of_nat (length pre) /\ (forall k, m_img s' k = zero_block) /\
    m_freeinode s' = m_freeinode s /\ m_freeblock s' = m_freeblock s)).
  - done.
  - intros pre x post s1 Hl (H1 & H2 & H3 & H4). apply wp_wsect.
    assert (x = Z.of_nat (length pre)) as ->.
    { assert (Hx : seqZ 0 FSSIZE !! length pre = Some x) by (rewrite Hl; by apply list_lookup_middle). apply lookup_seqZ in Hx as [-> _]. lia. }
    rewrite length_app. change (m_count (sect_put s1 (Z.of_nat (length pre)) zero_block)) with (Z.max (m_count s1) (Z.of_nat (length pre) + 1)).
    split; [simpl; lia|]. split; [|done]. intros k. change (m_img (sect_put s1 (Z.of_nat (length pre)) zero_block)) with (upd (m_img s1) (Z.of_nat (length pre)) zero_block).
    unfold upd. by destruct (k =? _).
  - intros s1 (H1 & H2 & H3 & H4). by apply HQ.
Qed.

Lemma superblock_block : block_ok (splice zero_block 0 (superblock_encode msb)).
Proof. apply (bool_decide_unpack _). vm_compute. exact I. Qed.

Lemma blank_view k : 0 <= k < FSSIZE -> block_ok (t_view blank_txn k).
Proof.
  intros Hk. unfold blank_txn, rest_txn. cbn [t_view]. destruct (k =? 58); [apply balloc_bits_ok; consts; lia|].
  destruct (k =? 1); [apply superblock_block|apply zero_block_ok].
Qed.

Lemma blank_inode n : 0 <= n < 200 -> type_of msb blank_txn n = 0.
Proof.
  intros Hn. pose proof (miblock n Hn). unfold type_of, disk_inode, blank_txn, rest_txn. cbn [t_view].
  rewrite (proj2 (Z.eqb_neq _ 58)), (proj2 (Z.eqb_neq _ 1)) by lia. unfold get_dinode, slice, zero_block.
  pose proof (dip_off_le n). rewrite drop_replicate, take_replicate, Nat.min_l by lia. reflexivity.
Qed.

(** The image with the super block only. *)
Lemma blank_built s : m_count s = FSSIZE -> (forall k, m_img s k = zero_block) -> m_freeinode s = 1 -> m_freeblock s = 59 ->
  built (sect_put s 1 (splice zero_block 0 (superblock_encode msb))) blank_txn [].
Proof.
  intros Hc Hz Hi Hb. set (d := splice zero_block 0 (superblock_encode msb)).
  assert (R : mrep (sect_put s 1 d) blank_txn).
  { split; change (m_img (sect_put s 1 d)) with (upd (m_img s) 1 d); change (m_freeblock (sect_put s 1 d)) with (m_freeblock s); rewrite ?Hb; try done.
    - change (m_count (sect_put s 1 d)) with (Z.max (m_count s) (1 + 1)). by rewrite Hc.
    - intros k Hk. unfold blank_txn, rest_txn. cbn [t_view]. destruct (k =? 58); [done|]. unfold upd. destruct (k =? 1); [done|]. by rewrite Hz.
    - intros k Hk. rewrite upd_ne by lia. apply Hz.
    - apply blank_view. }
  assert (Hno : forall n, ~ alloc_inode msb blank_txn n).
  { intros n [Hn Hty]. apply Hty, blank_inode. change (sb_ninodes msb) with 200 in Hn. lia. }
  split; try done; cbn [length]; try lia.
  - split; [by apply (mr_geom _ _ R)|by apply (mr_bound _ _ R)|by intros n Hn%Hno|by intros a b k Ha%Hno].
  - intros n Hn. rewrite blank_inode by lia. by rewrite (proj2 (Z.leb_gt _ _)) by lia.
Qed.

(** ** The files *)

Definition hf_bytes (f : hostfile) : list Z := concat (default [] (hf_data f)).

(** A host file whose name has no slash, which opens, and whose reads return
    some bytes until its end. *)
Record host_ok (f : hostfile) : Prop := {
  ho_name : Forall (fun c => byte_ok c /\ c <> 0 /\ c <> 47) (hf_name f);
  ho_data : exists ps, hf_data f = Some ps /\ Forall (fun p => p <> [] /\ Forall byte_ok p) ps;
  ho_size : Z.of_nat (length (hf_bytes f)) <= MAXFILE * BSIZE
}.

(** The entries of the root directory. *)
Definition file_de (j : nat) (f : hostfile) : list Z := mk_de (2 + Z.of_nat j) (skip_underscore (hf_name f)).
Definition root_bytes (fs : list hostfile) : list Z := mk_de 1 [46] ++ mk_de 1 [46; 46] ++ concat (imap file_de fs).

(** The bytes of the inodes from 1 on. *)
Definition image_of (fs : list hostfile) : list (list Z) := root_bytes fs :: (hf_bytes <$> fs).

(** The files fit on the disk. *)
Record fits (fs : list hostfile) : Prop := {
  ft_count : (length fs < 198)%nat;
  ft_blocks : nmeta + blks (image_of fs) <= FSSIZE
}.

Lemma mk_de_length inum name : length (mk_de inum name) = 16%nat.
Proof.
  unfold mk_de. rewrite dirent_encode_length; [done|]. cbn [de_name]. unfold cpad. rewrite length_app, length_replicate.
  change (Z.to_nat DIRSIZ) with 14%nat. pose proof (cstr_length (view_of name) 14). lia.
Qed.

Lemma mk_de_bytes inum name : Forall byte_ok name -> Forall byte_ok (mk_de inum name).
Proof.
  intros Hn. unfold mk_de, dirent_encode. apply Forall_app. split; [apply le_enc_bytes|]. cbn [de_name]. unfold cpad. apply Forall_app.
  split; [by apply cstr_bytes, view_of_bytes|]. apply Forall_replicate. unfold byte_ok. lia.
Qed.

Lemma skip_bytes f : host_ok f -> Forall byte_ok (skip_underscore (hf_name f)).
Proof.
  intros [Hn _ _]. assert (H : Forall byte_ok (hf_name f)) by (eapply Forall_impl; [exact Hn|]; by intros c [? _]).
  unfold skip_underscore. destruct (hf_name f) as [|c l]; [done|]. inversion H; subst. by destruct (c =? 95).
Qed.

Lemma blk_pos n : 0 <= n -> 0 <= blk n.
Proof. intros H. pose proof (blk_mono 0 n H). change (blk 0) with 0 in *. lia. Qed.

Lemma blks_app a b : blks (a ++ b) = blks a + blks b.
Proof. induction a as [|x a IH]; simpl; [done|]. rewrite IH. lia. Qed.

Lemma blks_pos l : 0 <= blks l.
Proof. induction l as [|x l IH]; simpl; [lia|]. pose proof (blk_pos (Z.of_nat (length x))). lia. Qed.

Lemma root_bytes_snoc fs f : root_bytes (fs ++ [f]) = root_bytes fs ++ file_de (length fs) f.
Proof.
  unfold root_bytes. rewrite imap_app. cbn [imap]. rewrite concat_app. cbn [concat]. rewrite app_nil_r, Nat.add_0_r.
  by rewrite <- !app_assoc.
Qed.

Lemma file_des_length fs m : length (concat (imap (fun j => file_de (m + j)) fs)) = (16 * length fs)%nat.
Proof.
  revert m. induction fs as [|f fs IH]; intros m; [done|]. cbn [imap concat length]. rewrite length_app.
  rewrite (imap_ext _ (fun j => file_de (S m + j))) by (intros; simpl; f_equal; lia). rewrite IH. unfold file_de. rewrite mk_de_length. lia.
Qed.

Lemma root_bytes_length fs : length (root_bytes fs) = (16 * (2 + length fs))%nat.
Proof.
  unfold root_bytes. rewrite !length_app, !mk_de_length. pose proof (file_des_length fs 0) as H.
  rewrite (imap_ext _ file_de) in H by done. lia.
Qed.

(** Fewer files take fewer blocks. *)
Lemma image_prefix pre post : blks (image_of pre) <= blks (image_of (pre ++ post)).
Proof.
  unfold image_of. cbn [blks foldr]. fold (blks (hf_bytes <$> pre)) (blks (hf_bytes <$> (pre ++ post))).
  rewrite fmap_app, blks_app. pose proof (blks_pos (hf_bytes <$> post)).
  pose proof (blk_mono (Z.of_nat (length (root_bytes pre))) (Z.of_nat (length (root_bytes (pre ++ post))))) as H1.
  rewrite !root_bytes_length, length_app in H1. rewrite !root_bytes_length, length_app. lia.
Qed.

Lemma insert_last (r c c' : list Z) ds : <[S (length ds) := c']> (r :: ds ++ [c]) = r :: ds ++ [c'].
Proof. simpl. f_equal. rewrite insert_app_r_alt by lia. by rewrite Nat.sub_diag. Qed.

Lemma blks_last r ds c : blks (r :: ds ++ [c]) = blk (Z.of_nat (length r)) + blks ds + blk (Z.of_nat (length c)).
Proof. cbn [blks foldr]. fold (blks (ds ++ [c])). rewrite blks_app. simpl. lia. Qed.

(** The data of a file, read by read. *)
Lemma wp_pieces ps : forall s t r ds c (Q : () -> mkst -> Prop),
  built s t (r :: ds ++ [c]) -> Forall (fun p => p <> [] /\ Forall byte_ok p) ps ->
  Z.of_nat (length (c ++ concat ps)) <= MAXFILE * BSIZE -> 59 + blks (r :: ds ++ [c ++ concat ps]) <= FSSIZE ->
  (forall s' t', built s' t' (r :: ds ++ [c ++ concat ps]) -> Q () s') ->
  wp (forM ps (iappend (Z.of_nat (length ds) + 2))) s Q.
Proof.
  induction ps as [|p ps IH]; intros s t r ds c Q B Hps Hmax Hfb HQ; cbn [forM].
  { wp_step. simpl in HQ. rewrite app_nil_r in HQ. by apply (HQ s t). }
  apply Forall_cons in Hps as [[Hne Hby] Hps]. cbn [concat] in *. rewrite (assoc_L (++)) in *.
  wp_step. replace (Z.of_nat (length ds) + 2) with (Z.of_nat (S (length ds)) + 1) by lia.
  assert (Hlen : Z.of_nat (length (c ++ p)) <= Z.of_nat (length ((c ++ p) ++ concat ps))) by (rewrite !length_app; lia).
  apply (wp_append s t (r :: ds ++ [c]) (S (length ds)) c p); [done| |done|done|lia| |].
  - change ((ds ++ [c]) !! length ds = Some c). by apply list_lookup_middle.
  - rewrite insert_last. rewrite blks_last in Hfb |- *. pose proof (blk_mono _ _ Hlen). lia.
  - intros s1 t1 B1. rewrite insert_last in B1. replace (Z.of_nat (S (length ds)) + 1) with (Z.of_nat (length ds) + 2) by lia.
    by apply (IH s1 t1 r ds (c ++ p)).
Qed.

(** One more file. *)
Lemma wp_add_file s t pre f (Q : () -> mkst -> Prop) :
  built s t (image_of pre) -> host_ok f -> fits (pre ++ [f]) ->
  (forall s' t', built s' t' (image_of (pre ++ [f])) -> Q () s') ->
  wp (add_file 1 f) s Q.
Proof.
  intros B Hf [Hcnt Hblk] HQ. pose proof Hf as [Hn (ps & Hps & Hpo) Hsz]. unfold add_file.
  assert (existsb (fun c => c =? 47) (hf_name f) = false) as ->.
  { apply not_true_is_false. intros (c & Hc & E%Z.eqb_eq)%existsb_exists. apply list_elem_of_In in Hc.
    by destruct (proj1 (Forall_forall _ _) Hn c Hc) as (_ & _ & H47). }
  rewrite Hps. set (ds := hf_bytes <$> pre). assert (Hds : length ds = length pre) by (unfold ds; by rewrite length_fmap).
  rewrite length_app in Hcnt. simpl in Hcnt. assert (Ed : hf_bytes f = concat ps) by (unfold hf_bytes; by rewrite Hps).
  assert (Eimg : image_of (pre ++ [f]) = (root_bytes pre ++ file_de (length pre) f) :: ds ++ [concat ps])
    by (unfold image_of; rewrite root_bytes_snoc, fmap_app, <- Ed; done).
  rewrite Eimg in *. unfold image_of in B. fold ds in B. change nmeta with 59 in Hblk.
  wp_step. apply (wp_mk_ialloc s t _ T_FILE _ B); [simpl; lia|done|]. intros s1 t1 B1.
  cbn [length]. rewrite Hds. replace (Z.of_nat (S (length pre)) + 1) with (2 + Z.of_nat (length pre)) by lia. fold (file_de (length pre) f).
  wp_step. rewrite blks_last in Hblk. pose proof (blk_pos (Z.of_nat (length (concat ps)))).
  apply (wp_append s1 t1 _ 0 (root_bytes pre) (file_de (length pre) f) _ B1); [done|by apply mk_de_bytes, skip_bytes| | | |].
  - intros E. apply (f_equal length) in E. unfold file_de in E. by rewrite mk_de_length in E.
  - rewrite length_app, root_bytes_length. unfold file_de. rewrite mk_de_length. change (MAXFILE * BSIZE) with 71680. lia.
  - cbn [app insert list_insert]. rewrite blks_last. change (blk (Z.of_nat (length []))) with 0. unfold FSSIZE in *. lia.
  - cbn [app insert list_insert]. intros s2 t2 B2. replace (2 + Z.of_nat (length pre)) with (Z.of_nat (length ds) + 2) by lia.
    eapply (wp_pieces ps s2 t2); [exact B2|done|by rewrite app_nil_l, <- Ed|rewrite app_nil_l, blks_last; lia|]. rewrite app_nil_l. apply HQ.
Qed.

(** * The finished image: the root directory padded to whole blocks, the bitmap,
    and the theorem on [mkfs]. *)

(** ** Directories as bytes *)

Definition no_entry : dirent := mk_dirent 0 (replicate 14 0).

Lemma entries_content sb t n : fs_core sb t -> alloc_inode sb t n ->
  entries_of sb t n = (fun j => dirent_decode (take 16 (drop (Z.to_nat (16 * j)) (content sb t n)))) <$> seqZ 0 (size_of sb t n / DIRENT_SZ).
Proof.
  intros Hco Ha. destruct (fk_inode _ _ Hco n Ha) as [_ _ Hs _]. change (i_size (as_inode n (disk_inode sb t n))) with (size_of sb t n) in Hs.
  unfold entries_of, dir_entries. change (i_size (as_inode n (disk_inode sb t n))) with (size_of sb t n).
  apply list_fmap_ext. intros k j Hj. apply lookup_seqZ in Hj as [-> Hj]. unfold dir_entry. f_equal.
  change (i_addrs (as_inode n (disk_inode sb t n))) with (addrs_of sb t n). change DIRENT_SZ with 16 in *.
  pose proof (Z.mul_div_le (size_of sb t n) 16). apply (content_slice sb t n); lia.
Qed.

Lemma decode_entries es : Forall dirent_ok es ->
  (fun j => dirent_decode (take 16 (drop (Z.to_nat (16 * j)) (concat (dirent_encode <$> es))))) <$> seqZ 0 (Z.of_nat (length es)) = es.
Proof.
  intros Hes. apply list_eq. intros k. rewrite list_lookup_fmap.
  destruct (decide (k < length es)%nat) as [Hk|Hk].
  - rewrite lookup_seqZ_lt by lia. simpl. destruct (lookup_lt_is_Some_2 es k Hk) as [de Hde]. rewrite Hde. f_equal.
    rewrite <- (take_drop_middle es k de Hde) at 1. rewrite fmap_app, concat_app. cbn [fmap list_fmap concat].
    assert (Hl : length (concat (dirent_encode <$> take k es)) = Z.to_nat (16 * (0 + Z.of_nat k))).
    { rewrite <- (length_take_le es k) at 2 by lia. assert (Ht : Forall dirent_ok (take k es)) by by apply Forall_take.
      revert Ht. generalize (take k es). intros l. induction l as [|x l IH]; [done|]. intros (Hx & Hl)%Forall_cons. cbn [fmap list_fmap concat].
      rewrite length_app, IH, dirent_encode_length by (done || apply Hx). simpl. lia. }
    rewrite drop_app_length' by done. pose proof (Forall_lookup_1 _ _ _ _ Hes Hde) as Hok.
    rewrite take_app_length' by (symmetry; apply dirent_encode_length, Hok). by apply dirent_decode_encode.
  - rewrite lookup_seqZ_ge by lia. rewrite lookup_ge_None_2 by lia. done.
Qed.

(** The entries [mkfs] puts in the root directory. *)
Definition file_entry (j : nat) (f : hostfile) : dirent := mk_dirent (2 + Z.of_nat j) (dirent_name (skip_underscore (hf_name f))).
Definition root_dirents (fs : list hostfile) : list dirent :=
  mk_dirent 1 (dirent_name [46]) :: mk_dirent 1 (dirent_name [46; 46]) :: imap file_entry fs.

Lemma root_dirents_ok fs : Forall host_ok fs -> (length fs < 198)%nat -> Forall dirent_ok (root_dirents fs).
Proof.
  intros Hfs Hl. unfold root_dirents.
  do 2 (apply Forall_cons; split; [apply dirent_name_ok; [repeat constructor; unfold byte_ok; lia|lia]|]).
  apply Forall_lookup. intros j de Hj. rewrite list_lookup_imap in Hj. apply fmap_Some in Hj as (f & Hf & ->).
  pose proof (lookup_lt_Some _ _ _ Hf). apply dirent_name_ok; [|lia]. by apply skip_bytes, (Forall_lookup_1 _ _ _ _ Hfs Hf).
Qed.

Lemma root_bytes_encode fs : (length fs < 198)%nat -> root_bytes fs = concat (dirent_encode <$> root_dirents fs).
Proof.
  intros Hl. unfold root_bytes, root_dirents. cbn [fmap list_fmap concat]. do 3 f_equal. rewrite fmap_imap. apply imap_ext.
  intros j f Hj. pose proof (lookup_lt_Some _ _ _ Hj). unfold file_de, mk_de, file_entry, compose. f_equal. f_equal.
  unfold xshort. rewrite le_dec_enc. apply Z.mod_small. lia.
Qed.

Lemma no_entries k : concat (dirent_encode <$> replicate k no_entry) = replicate (16 * k) 0.
Proof.
  induction k as [|k IH]; [done|]. cbn [replicate fmap list_fmap concat]. replace (16 * S k)%nat with (16 + 16 * k)%nat by lia.
  rewrite replicate_add. f_equal. exact IH.
Qed.

(** ** The size of the root directory *)

Section fix_root.
Context (s : mkst) (t : txn) (fs : list hostfile).
Context (B : built s t (image_of fs)) (Hfs : Forall host_ok fs) (Hl : (length fs < 198)%nat) (Hpad : ((length fs + 2) mod 32 <> 0)%nat).

Let sz := size_of msb t 1.
Let sz' := (sz / BSIZE + 1) * BSIZE.
Let d := disk_inode msb t 1.
Let d' := d <| di_size := sz' |>.
Let t' := set_inode t 1 d'.

Lemma root_alloc : alloc_inode msb t 1.
Proof. apply (bu_alloc s t _ B). simpl. lia. Qed.

Lemma root_size : sz = 16 * (2 + Z.of_nat (length fs)) /\ sz < sz' <= sz + 512 /\ sz' <= MAXFILE * BSIZE /\ sz' mod 512 = 0 /\ sz mod 512 <> 0.
Proof.
  assert (E : sz = 16 * (2 + Z.of_nat (length fs))).
  { unfold sz. change 1 with (Z.of_nat 0 + 1). rewrite (bu_size s t _ B 0 (root_bytes fs)) by done. rewrite root_bytes_length. lia. }
  assert (Hm : sz mod 512 <> 0).
  { rewrite E. change 512 with (16 * 32). rewrite Zmult_mod_distr_l. intros H. apply Hpad.
    apply Nat2Z.inj. rewrite Nat2Z.inj_mod. change (Z.of_nat 32) with 32. replace (Z.of_nat (length fs + 2)) with (2 + Z.of_nat (length fs)) by lia. lia. }
  pose proof (Z.div_mod sz 512 ltac:(lia)). pose proof (Z.mod_pos_bound sz 512 ltac:(lia)). unfold sz'. change BSIZE with 512. change (MAXFILE * 512) with 71680.
  split; [done|]. split; [lia|]. split; [lia|]. split; [|done]. by rewrite Z.mod_mul.
Qed.

Lemma root_dinode_ok : dinode_ok d'.
Proof.
  assert (Hd : dinode_ok d) by (apply get_dinode_ok, (mr_ok _ _ (bu_rep _ _ _ B)); pose proof (miblock 1 ltac:(lia)); unfold FSSIZE; lia).
  destruct Hd as (? & ? & ? & ? & _ & ? & ?). pose proof root_size as (_ & _ & Hmx & _). change (MAXFILE * BSIZE) with 71680 in Hmx.
  assert (0 <= sz') by (pose proof root_size; lia). unfold d'. split_and!; try done. unfold uint_ok. simpl. lia.
Qed.

Lemma fixed_disk n : 0 <= n < 200 -> disk_inode msb t' n = if n =? 1 then d' else disk_inode msb t n.
Proof. intros Hn. apply (si_disk s); [apply B|lia|apply root_dinode_ok|done]. Qed.

Lemma fixed_agree n : alloc_inode msb t n -> agree_on t t' (addrs_of msb t n).
Proof.
  intros Ha k Ho. apply (si_view s t (bu_rep _ _ _ B)); [lia|]. apply (own_data msb t (addrs_of msb t n)); [|done].
  apply (fk_inode _ _ (bu_core _ _ _ B) n Ha).
Qed.

Lemma fixed_addrs n : 0 <= n < 200 -> addrs_of msb t' n = addrs_of msb t n.
Proof. intros Hn. unfold addrs_of. rewrite fixed_disk by done. by destruct (Z.eqb_spec n 1) as [->|]. Qed.

Lemma fixed_alloc n : alloc_inode msb t' n <-> alloc_inode msb t n.
Proof.
  unfold alloc_inode, type_of. change (sb_ninodes msb) with 200. split; intros [Hn Hty]; (split; [done|]).
  all: rewrite fixed_disk in * by lia; destruct (Z.eqb_spec n 1) as [->|]; done.
Qed.

Lemma fixed_kept n : alloc_inode msb t n -> n <> 1 -> inode_kept msb t t' n.
Proof.
  intros Ha Hne. split; [|by apply fixed_agree]. destruct Ha as [Hn _]. change (sb_ninodes msb) with 200 in Hn.
  rewrite fixed_disk by lia. by rewrite (proj2 (Z.eqb_neq n 1) Hne).
Qed.

Lemma fixed_used k : 0 <= k < sb_size msb -> used msb t k = true -> used msb t' k = true.
Proof. intros Hk. change (sb_size msb) with FSSIZE in Hk. unfold t'. by rewrite (si_used s t (bu_rep _ _ _ B)) by (done || lia). Qed.

(** The padding lies in a block the directory has. *)
Lemma fixed_holes : no_holes (t_view t') (addrs_of msb t 1) sz'.
Proof.
  intros bn Hb Hlt. rewrite (agree_block t t' _ (fixed_agree 1 root_alloc)). pose proof root_size as (_ & Hs1 & Hs2 & _ & Hm).
  pose proof (Z.div_mod sz 512 ltac:(lia)). pose proof (Z.mod_pos_bound sz 512 ltac:(lia)).
  assert (Hbn : 0 <= bn < MAXFILE) by (change BSIZE with 512 in *; change (MAXFILE * 512) with 71680 in *; change MAXFILE with 140; lia).
  intros E. apply (ex_block _ _ _ (bu_exact _ _ _ B 1 ltac:(simpl; lia)) bn Hbn) in E. fold sz in E.
  unfold sz' in Hlt. change BSIZE with 512 in *. lia.
Qed.

Lemma fixed_core : fs_core msb t'.
Proof.
  pose proof (bu_core _ _ _ B) as Hco. pose proof (bu_rep _ _ _ B) as R. destruct (mr_bound _ _ R) as [Hlo Hhi].
  assert (Hr : forall n, alloc_inode msb t n -> 0 <= n < 200) by (intros n [Hn _]; change (sb_ninodes msb) with 200 in Hn; lia).
  split.
  - apply geom_meta; [by apply (mr_geom s)|done|done|]. apply (si_block s); [done|lia].
  - done.
  - intros n Ha%fixed_alloc. destruct (decide (n = 1)) as [->|Hne].
    2: { apply (kept_ok msb t t'); [by apply fixed_kept|apply fixed_used|done|done]. }
    rewrite fixed_disk by lia. rewrite Z.eqb_refl. destruct (fk_inode _ _ Hco 1 root_alloc) as [_ Hf _ _].
    pose proof root_size as (E & Hs1 & Hs2 & _). split; [done| |change (i_size (as_inode 1 d')) with sz'; lia|apply fixed_holes].
    apply (agree_file msb t); [apply fixed_agree, root_alloc| |done].
    intros k Ho. apply fixed_used. destruct (own_data _ _ _ _ Hf Ho). change (data_start msb) with 59 in *. lia.
  - intros a b k Ha%fixed_alloc Hb%fixed_alloc Hab. rewrite !fixed_addrs by auto.
    rewrite (agree_own t t' _ (fixed_agree a Ha)), (agree_own t t' _ (fixed_agree b Hb)). by apply (fk_disjoint _ _ Hco).
Qed.

Lemma fixed_file j f : fs !! j = Some f ->
  type_of msb t' (2 + Z.of_nat j) = T_FILE /\ content msb t' (2 + Z.of_nat j) = hf_bytes f.
Proof.
  intros Hj. pose proof (lookup_lt_Some _ _ _ Hj). pose proof (bu_core _ _ _ B) as Hco.
  assert (Hlen : Z.of_nat (length (image_of fs)) = 1 + Z.of_nat (length fs)) by (unfold image_of; simpl; rewrite length_fmap; lia).
  assert (Ha : alloc_inode msb t (2 + Z.of_nat j)) by (apply (bu_alloc s t _ B); lia).
  pose proof (fixed_kept (2 + Z.of_nat j) Ha ltac:(lia)) as Hk. split.
  - unfold type_of. rewrite (ik_dinode _ _ _ _ Hk). pose proof (bu_type _ _ _ B (2 + Z.of_nat j) ltac:(lia)) as E. unfold type_of in E.
    rewrite E, (proj2 (Z.leb_le _ _)), (proj2 (Z.eqb_neq _ 1)) by lia. done.
  - rewrite (kept_content msb t t') by done. replace (2 + Z.of_nat j) with (Z.of_nat (S j) + 1) by lia.
    apply (bu_content _ _ _ B). unfold image_of. simpl. by rewrite list_lookup_fmap, Hj.
Qed.

(** Entries of the padding. *)
Definition pad : nat := Z.to_nat ((sz' - sz) / 16).

Lemma fixed_content : content msb t' 1 = concat (dirent_encode <$> (root_dirents fs ++ replicate pad no_entry)).
Proof.
  pose proof root_size as (E & Hs1 & Hs2 & Hm' & Hm).
  rewrite fmap_app, concat_app, no_entries, <- root_bytes_encode by done.
  rewrite <- (bu_content _ _ _ B 0 (root_bytes fs)) by done. change (Z.of_nat 0 + 1) with 1.
  unfold content at 1. unfold size_of. rewrite fixed_addrs, fixed_disk by lia. rewrite Z.eqb_refl. change (di_size d') with sz'.
  replace sz' with (sz + (sz' - sz)) by lia. rewrite file_bytes_app by lia. f_equal.
  - apply (agree_bytes t t' _ (fixed_agree 1 root_alloc) sz); [|lia|lia|lia]. apply (fk_inode _ _ (bu_core _ _ _ B) 1 root_alloc).
  - assert (Hp : (16 * pad)%nat = Z.to_nat (sz' - sz)).
    { unfold pad. assert (16 * ((sz' - sz) / 16) = sz' - sz); [|lia]. symmetry. apply Z_div_exact_full_2; [lia|].
      rewrite E. pose proof (Z.div_mod sz' 512 ltac:(lia)). replace (sz' - 16 * (2 + Z.of_nat (length fs))) with ((32 * (sz' / 512) - (2 + Z.of_nat (length fs))) * 16) by lia.
      by apply Z.mod_mul. }
    rewrite Hp. apply list_eq. intros k. destruct (decide (k < Z.to_nat (sz' - sz))%nat) as [Hk|Hk].
    2: { rewrite !lookup_ge_None_2; [done|rewrite length_replicate; lia|rewrite file_bytes_length; lia]. }
    rewrite lookup_replicate_2 by done. unfold file_bytes. rewrite list_lookup_fmap, lookup_seqZ_lt by lia. cbn [fmap option_fmap option_map].
    f_equal. rewrite Z.add_0_l, Z.add_0_l.
    assert (Hnz : block_of (t_view t) (addrs_of msb t 1) ((sz + Z.of_nat k) / BSIZE) <> 0).
    { rewrite <- (agree_block t t' _ (fixed_agree 1 root_alloc)). apply fixed_holes; [apply Z.div_pos; [lia|done]|].
      destruct (off_split (sz + Z.of_nat k)); lia. }
    rewrite (agree_byte t t' _ (fixed_agree 1 root_alloc)) by (done || lia).
    apply (ex_tail _ _ _ (bu_exact _ _ _ B 1 ltac:(simpl; lia))); [fold sz; lia|done].
Qed.

Lemma fixed_entries : entries_of msb t' 1 = root_dirents fs ++ replicate pad no_entry.
Proof.
  pose proof root_size as (E & Hs1 & Hs2 & Hm' & Hm). rewrite entries_content; [|apply fixed_core|apply fixed_alloc, root_alloc].
  rewrite fixed_content. etransitivity; [|apply (decode_entries (root_dirents fs ++ replicate pad no_entry))].
  - f_equal. f_equal. unfold size_of. rewrite fixed_disk by lia. rewrite Z.eqb_refl. change (di_size d') with sz'.
    rewrite length_app, length_replicate. unfold root_dirents. cbn [length]. rewrite length_imap. unfold pad. change DIRENT_SZ with 16.
    pose proof (Z.div_mod sz' 512 ltac:(lia)). assert (sz' = 32 * (sz' / 512) * 16) as Es by lia. rewrite Es at 1. rewrite Z.div_mul by lia.
    assert ((sz' - sz) / 16 = 32 * (sz' / 512) - (2 + Z.of_nat (length fs))) as ->; [|lia].
    rewrite <- (Z.div_mul (32 * (sz' / 512) - (2 + Z.of_nat (length fs))) 16) by lia. f_equal. lia.
  - apply Forall_app. split; [by apply root_dirents_ok|]. apply Forall_replicate. split_and!; try done. apply Forall_replicate. unfold byte_ok. lia.
Qed.

Lemma fixed_live n : alloc_inode msb t n -> live msb t' n.
Proof.
  intros Ha. pose proof Ha as [Hn Hty]. split; [done|]. change (sb_ninodes msb) with 200 in Hn. rewrite fixed_disk by lia.
  pose proof (bu_nlink _ _ _ B n (proj1 (bu_alloc s t _ B n) Ha)) as Hnl. destruct (Z.eqb_spec n 1) as [->|].
  - change (di_type d') with (type_of msb t 1). change (di_nlink d') with (di_nlink (disk_inode msb t 1)). rewrite Hnl. done.
  - rewrite Hnl. done.
Qed.

Lemma fixed_type : type_of msb t' 1 = T_DIR.
Proof.
  unfold type_of. rewrite fixed_disk by lia. rewrite Z.eqb_refl. pose proof (bu_type _ _ _ B 1 ltac:(lia)) as E.
  rewrite (proj2 (Z.leb_le _ _)) in E by (unfold image_of; simpl; lia). exact E.
Qed.

Lemma fixed_tree : tree_ok msb t'.
Proof.
  assert (Hlen : Z.of_nat (length (image_of fs)) = 1 + Z.of_nat (length fs)) by (unfold image_of; simpl; rewrite length_fmap; lia).
  pose proof fixed_type as Ht1.
  assert (Hone : forall n, live msb t' n -> is_dir msb t' n -> n = 1).
  { intros n Hln%live_alloc Hdn. apply fixed_alloc in Hln. destruct (decide (n = 1)) as [->|Hne]; [done|]. exfalso.
    pose proof Hln as [Hn _]. change (sb_ninodes msb) with 200 in Hn. unfold is_dir in Hdn. rewrite fixed_disk, (proj2 (Z.eqb_neq n 1) Hne) in Hdn by lia.
    pose proof (bu_type _ _ _ B n Hn) as E. unfold type_of in E. rewrite E, (proj2 (Z.eqb_neq n 1) Hne) in Hdn. by destruct (n <=? _). }
  split.
  - intros n Hln Hdn. rewrite (Hone n Hln Hdn). split; [apply (fk_inode _ _ fixed_core), fixed_alloc, root_alloc|exact Ht1|].
    rewrite fixed_disk by lia. rewrite Z.eqb_refl. change (i_size (as_inode 1 d')) with sz'. pose proof root_size as (_ & _ & _ & Hm' & _).
    pose proof (Z.div_mod sz' 512 ltac:(lia)). replace sz' with (32 * (sz' / 512) * 16) by lia. by apply Z.mod_mul.
  - intros n de Hln Hdn. rewrite (Hone n Hln Hdn), fixed_entries, elem_of_app. intros [Hde|Hde] Hnz.
    2: { apply elem_of_replicate in Hde as [-> _]. done. }
    apply fixed_live, (bu_alloc s t _ B). unfold root_dirents in Hde. rewrite !elem_of_cons in Hde. destruct Hde as [->|[->|Hde]]; [cbn [de_inum]; lia..|].
    apply list_elem_of_lookup in Hde as (j & Hj). rewrite list_lookup_imap in Hj. apply fmap_Some in Hj as (f & Hf & ->).
    pose proof (lookup_lt_Some _ _ _ Hf). cbn [file_entry de_inum]. lia.
Qed.
End fix_root.

(** ** The program *)

(** The disk the kernel boots from. *)
Definition disk_of (s : mkst) : txn := rest_txn (m_img s) 32 FSSIZE.

(** The names in the root directory differ. *)
Definition names_differ (fs : list hostfile) : Prop := NoDup ((fun de => cname (de_name de)) <$> root_dirents fs).

Lemma lookup_entry fs j f rest :
  Forall host_ok fs -> (length fs < 198)%nat -> names_differ fs -> fs !! j = Some f ->
  dir_lookup (skip_underscore (hf_name f)) (root_dirents fs ++ rest) = Some (2 + Z.of_nat j).
Proof.
  intros Hfs Hl Hnd Hj. pose proof (root_dirents_ok fs Hfs Hl) as Hok. set (e := skip_underscore (hf_name f)).
  assert (He : Forall byte_ok e) by (apply skip_bytes, (Forall_lookup_1 _ _ _ _ Hfs Hj)).
  assert (Hde : root_dirents fs !! S (S j) = Some (file_entry j f)) by (unfold root_dirents; simpl; by rewrite list_lookup_imap, Hj).
  assert (Hlk : (root_dirents fs ++ rest) !! S (S j) = Some (file_entry j f)) by (by apply lookup_app_l_Some).
  assert (Hfind : dir_find e (root_dirents fs ++ rest) = Some (S (S j))).
  { apply find_idx_Some. split.
    - exists (file_entry j f). split; [done|]. unfold names. apply andb_true_iff. split; [apply negb_true_iff, Z.eqb_neq; simpl; lia|].
      apply Z.eqb_eq, namecmp_eq; [done|apply (Forall_lookup_1 _ _ _ _ Hok Hde)|]. symmetry. apply cname_dirent.
    - intros k de Hk Hd. rewrite lookup_app_l in Hd by (apply lookup_lt_Some in Hde; lia). unfold names. apply andb_false_iff. right.
      apply Z.eqb_neq. intros E. apply namecmp_eq in E; [|done|apply (Forall_lookup_1 _ _ _ _ Hok Hd)].
      assert (k = S (S j)); [|lia]. eapply NoDup_lookup; [exact Hnd| |]; rewrite list_lookup_fmap.
      + rewrite Hd. simpl. by rewrite <- E.
      + rewrite Hde. simpl. f_equal. apply cname_dirent. }
  unfold dir_lookup. rewrite Hfind. simpl. simpl in Hlk. by rewrite Hlk.
Qed.

Lemma wp_fix_root s t fs (Q : () -> mkst -> Prop) :
  built s t (image_of fs) -> (length fs < 198)%nat -> ((length fs + 2) mod 32 <> 0)%nat ->
  (forall s', mrep s' (set_inode t 1 ((disk_inode msb t 1) <| di_size := (size_of msb t 1 / BSIZE + 1) * BSIZE |>)) -> Q () s') ->
  wp (fix_root 1) s Q.
Proof.
  intros B Hl Hpad HQ. pose proof (bu_rep _ _ _ B) as R. pose proof (root_size s t fs B Hl Hpad) as (E & Hs1 & Hs2 & _).
  unfold fix_root. wp_step. apply (wp_rinode s t); [done|lia|]. change (di_size (disk_inode msb t 1)) with (size_of msb t 1).
  change (MAXFILE * BSIZE) with 71680 in Hs2. rewrite (xint_id (size_of msb t 1)) by (unfold uint_ok; lia).
  rewrite u32_small by lia. rewrite xint_id by (unfold uint_ok; lia).
  apply (wp_winode s t); [done|lia| |by intros s' R' _ _; apply HQ].
  destruct (fk_inode _ _ (bu_core _ _ _ B) 1 (root_alloc s t fs B Hl Hpad)) as [_ Hf _ _]. apply (fo_len _ _ _ Hf).
Qed.

(** The last step writes the bitmap. *)
Lemma wp_balloc_image s t (Q : () -> mkst -> Prop) :
  mrep s t -> (forall s', m_count s' = FSSIZE -> (forall k, 0 <= k < FSSIZE -> m_img s' k = t_view t k) -> Q () s') ->
  wp (Mkfs.balloc (m_freeblock s)) s Q.
Proof.
  intros R HQ. pose proof (mr_fb _ _ R). unfold Mkfs.balloc. unfold FSSIZE in *. rewrite (proj2 (Z.ltb_lt _ _)) by (consts; lia). cbn [negb].
  change (sb_bmapstart msb) with 58. apply wp_wsect. apply HQ.
  - change (m_count (sect_put s 58 (balloc_bits (m_freeblock s)))) with (Z.max (m_count s) (58 + 1)). rewrite (mr_count _ _ R). done.
  - intros k Hk. change (m_img (sect_put s 58 (balloc_bits (m_freeblock s)))) with (upd (m_img s) 58 (balloc_bits (m_freeblock s))).
    rewrite (mr_view _ _ R) by done. unfold upd. by destruct (k =? 58).
Qed.

Lemma wp_main_built fs (Q : () -> mkst -> Prop) :
  Forall host_ok fs -> fits fs ->
  (forall s t, built s t (image_of fs) -> wp (fix_root 1;; used ← gets m_freeblock; Mkfs.balloc used) s Q) ->
  wp (main (Some true) fs) start Q.
Proof.
  intros Hfs Hfit HQ. unfold main. wp_step. wp_step. wp_step. apply wp_zero; [done|done|]. intros s1 C1 Z1 I1 B1.
  wp_step. apply wp_wsect. pose proof (blank_built s1 C1 Z1 I1 B1) as Bu0. wp_step.
  apply (wp_mk_ialloc _ _ [] T_DIR _ Bu0); [simpl; lia|done|]. intros s2 t2 Bu2. cbn [app] in Bu2. change (Z.of_nat (length []) + 1) with 1.
  change (negb (1 =? Layout.ROOTINO)) with false. cbv iota. assert (Hne : forall a b, mk_de a b <> []) by (intros a b E; apply (f_equal length) in E; by rewrite mk_de_length in E).
  assert (Hdot : forall a, Forall byte_ok (mk_de a [46]) /\ Forall byte_ok (mk_de a [46; 46]))
    by (intros a; split; apply mk_de_bytes; repeat constructor; unfold byte_ok; lia).
  wp_step. apply (wp_append _ _ _ 0 [] (mk_de 1 [46]) _ Bu2); [done|apply Hdot|apply Hne|done|vm_compute; congruence|]. intros s3 t3 Bu3.
  cbn [insert list_insert app] in Bu3. wp_step.
  apply (wp_append _ _ _ 0 (mk_de 1 [46]) (mk_de 1 [46; 46]) _ Bu3); [done|apply Hdot|apply Hne|done|vm_compute; congruence|]. intros s4 t4 Bu4.
  cbn [insert list_insert] in Bu4. wp_step.
  apply (wp_forM (fun pre s => exists t, built s t (image_of pre))).
  - exists t4. unfold image_of, root_bytes. cbn [imap concat fmap list_fmap]. by rewrite app_nil_r.
  - intros pre f post s5 E [t5 B5]. subst fs. apply Forall_app in Hfs as [_ [Hf _]%Forall_cons]. destruct Hfit as [F1 F2].
    apply (wp_add_file s5 t5 pre f); [done|done| |by intros s6 t6 B6; exists t6].
    rewrite length_app in F1. simpl in F1. split; [rewrite length_app; simpl; lia|].
    pose proof (image_prefix (pre ++ [f]) post) as Hp. rewrite <- app_assoc in Hp. cbn [app] in Hp. lia.
  - intros s5 [t5 B5]. by apply (HQ s5 t5).
Qed.

(** C10: [mkfs] makes a sound file system with the files given.  For host files
    that open, have names without slashes and fit on the disk, and unless the
    entries fill the last block of the root directory exactly, [mkfs] exits
    normally; the kernel then finds on the image a well-formed file system
    (bitmap, inodes, no shared blocks, a sound tree) in which inode [2 + j] is a
    file with the bytes of the [j]-th host file, the root directory lists it
    under its name without a leading underscore and, when the names differ, the
    path resolves to it. *)
Theorem mkfs_correct fs :
  Forall host_ok fs -> fits fs -> ((length fs + 2) mod 32 <> 0)%nat ->
  wp (main (Some true) fs) start (fun _ s => let t := disk_of s in
    m_count s = FSSIZE /\ fs_ok msb t /\
    (exists k, entries_of msb t ROOTINO = root_dirents fs ++ replicate k no_entry) /\
    (forall j f, fs !! j = Some f -> type_of msb t (2 + Z.of_nat j) = T_FILE /\ content msb t (2 + Z.of_nat j) = hf_bytes f /\
       (names_differ fs -> resolve msb t ROOTINO [skip_underscore (hf_name f)] = Some (2 + Z.of_nat j)))).
Proof.
  intros Hfs Hfit Hpad. pose proof Hfit as [Hl _]. apply wp_main_built; [done|done|]. intros s t B. wp_step.
  apply (wp_fix_root s t fs); [done|done|done|]. set (t1 := set_inode _ _ _). intros s1 R1. wp_step. wp_step.
  apply (wp_balloc_image s1 t1); [done|]. intros s2 C2 V2.
  assert (Hsame : same_fs t1 (disk_of s2)).
  { split; [by rewrite (mr_lo _ _ R1)|by rewrite (mr_hi _ _ R1)|]. intros b Hb Hh. rewrite (mr_lo _ _ R1) in Hb. rewrite (mr_hi _ _ R1) in Hh.
    unfold disk_of, rest_txn. cbn [t_view]. apply V2. destruct Hb as [->|]; lia. }
  assert (Ok1 : fs_ok msb t1) by (split; [by apply (fixed_core s t fs)|by apply (fixed_tree s t fs)]).
  assert (exists k, entries_of msb t1 1 = root_dirents fs ++ replicate k no_entry) as [k He]
    by (eexists; exact (fixed_entries s t fs B Hfs Hl Hpad)).
  assert (Ha1 : alloc_inode msb t1 1) by (apply (fixed_alloc s t fs B Hl Hpad), (root_alloc s t fs B Hl Hpad)).
  pose proof (kept_entries msb t1 (disk_of s2) 1 (transfer_kept msb t1 _ Hsame Ok1 1 Ha1) Ok1 Ha1) as He2. rewrite He in He2.
  split; [done|]. split; [by apply (transfer_ok msb t1)|]. split; [by exists k|]. intros j f Hj. pose proof (lookup_lt_Some _ _ _ Hj) as Hlt.
  assert (type_of msb t1 (2 + Z.of_nat j) = T_FILE /\ content msb t1 (2 + Z.of_nat j) = hf_bytes f) as [Ht Hc]
    by exact (fixed_file s t fs B Hl Hpad j f Hj).
  assert (Haj : alloc_inode msb t1 (2 + Z.of_nat j)) by (split; [change (sb_ninodes msb) with 200; lia|by rewrite Ht]).
  split; [unfold type_of; rewrite (transfer_inode msb t1 _ Hsame Ok1); [exact Ht|change (sb_ninodes msb) with 200; lia]|].
  split; [by rewrite (transfer_content msb t1 _ Hsame Ok1)|]. intros Hnd. cbn [resolve]. change ROOTINO with 1 in *.
  rewrite (transfer_inode msb t1 _ Hsame Ok1) by (change (sb_ninodes msb) with 200; lia).
  assert (di_type (disk_inode msb t1 1) = T_DIR) as -> by exact (fixed_type s t fs B Hl Hpad). rewrite Z.eqb_refl.
  rewrite He2, (lookup_entry fs j f) by done. done.
Qed.

Definition demo_files : list hostfile :=
  [mk_hostfile [95; 99; 97; 116] (Some [[1; 2]; [3]]); mk_hostfile [82; 69; 65; 68; 77; 69] (Some [replicate 512 7; replicate 100 8])].

Lemma mkfs_correct_witness :
  wp (main (Some true) demo_files) start (fun _ s =>
    content msb (disk_of s) 2 = [1; 2; 3] /\ content msb (disk_of s) 3 = replicate 512 7 ++ replicate 100 8 /\
    resolve msb (disk_of s) ROOTINO [[99; 97; 116]] = Some 2).
Proof.
  eapply wp_conseq.
  - apply (mkfs_correct demo_files).
    + repeat constructor; unfold byte_ok; try lia; try (intros [=]); try (vm_compute; congruence).
      * exists [[1; 2]; [3]]. split; [reflexivity|]. repeat constructor; try discriminate; unfold byte_ok; lia.
      * exists [replicate 512 7; replicate 100 8]. split; [reflexivity|].
        repeat apply Forall_cons_2; try apply Forall_nil_2; (split; [discriminate|apply Forall_replicate; unfold byte_ok; lia]).
    + split; [vm_compute; lia|vm_compute; congruence].
    + vm_compute. discriminate.
  - intros [] s (_ & _ & _ & Hf). destruct (Hf 0%nat _ eq_refl) as (_ & C0 & N0), (Hf 1%nat _ eq_refl) as (_ & C1 & _).
    split; [exact C0|]. split; [exact C1|].
    apply N0. unfold names_differ. apply (bool_decide_unpack _). vm_compute. exact I.
Defined.

(** When the entries fill the last block of the root directory, the size
    [mkfs] rounds up to covers a block the directory does not have: the kernel
    would find a directory with a hole. *)
Theorem mkfs_root_hole fs :
  Forall host_ok fs -> fits fs -> ((length fs + 2) mod 32 = 0)%nat ->
  wp (main (Some true) fs) start (fun _ s => ~ fs_core msb (disk_of s)).
Proof.
  intros Hfs Hfit Hpad. pose proof Hfit as [Hl _]. apply wp_main_built; [done|done|]. intros s t B. pose proof (bu_rep _ _ _ B) as R.
  set (sz := size_of msb t 1). set (d := disk_inode msb t 1).
  assert (E : sz = 16 * (2 + Z.of_nat (length fs))).
  { unfold sz. change 1 with (Z.of_nat 0 + 1). rewrite (bu_size s t _ B 0 (root_bytes fs)) by done. rewrite root_bytes_length. lia. }
  assert (Hq : exists q, sz = q * 512 /\ 0 < q < 12).
  { apply Nat.Div0.mod_divides in Hpad as [q Hq]. exists (Z.of_nat q). lia. }
  destruct Hq as (q & Eq & Hq). assert (Hd : dinode_ok d) by (apply get_dinode_ok, (mr_ok _ _ R); pose proof (miblock 1 ltac:(lia)); unfold FSSIZE; lia).
  unfold fix_root. wp_step. wp_step. apply (wp_rinode s t); [done|lia|]. fold d. change (di_size d) with sz.
  rewrite (xint_id sz) by (unfold uint_ok; lia). rewrite Eq, Z.div_mul by done. rewrite u32_small, xint_id by (unfold uint_ok; change BSIZE with 512; lia).
  set (d' := d <| di_size := (q + 1) * BSIZE |>).
  assert (Hd' : dinode_ok d').
  { destruct Hd as (? & ? & ? & ? & _ & ? & ?). split_and!; try done. unfold uint_ok. simpl. change BSIZE with 512. lia. }
  apply (wp_winode s t); [done|lia|apply Hd|]. intros s1 R1 _ _. wp_step. wp_step. apply (wp_balloc_image s1 (set_inode t 1 d')); [done|].
  intros s2 _ V2 Hco.
  assert (Ed : disk_inode msb (disk_of s2) 1 = d').
  { unfold disk_inode, disk_of, rest_txn. cbn [t_view]. pose proof (miblock 1 ltac:(lia)). rewrite V2 by (unfold FSSIZE; lia).
    pose proof (si_disk s t R 1 ltac:(lia) d' Hd' 1 ltac:(lia)) as Hs. exact Hs. }
  assert (Ha : alloc_inode msb (disk_of s2) 1).
  { split; [by vm_compute|]. unfold type_of. rewrite Ed. change (di_type d') with (type_of msb t 1). apply (proj2 (bu_alloc s t _ B 1) ltac:(simpl; lia)). }
  destruct (fk_inode _ _ Hco 1 Ha) as [_ _ _ Hh]. rewrite Ed in Hh. apply (Hh q); [lia|cbn; change BSIZE with 512; lia|].
  assert (Hx : block_of (t_view t) (addrs_of msb t 1) q = 0).
  { apply (ex_block _ _ _ (bu_exact _ _ _ B 1 ltac:(simpl; lia))); [change MAXFILE with 140; lia|]. fold sz. change BSIZE with 512. lia. }
  unfold block_of in *. rewrite (proj2 (Z.ltb_lt q NDIRECT)) in * by (change NDIRECT with 12; lia). exact Hx.
Qed.
