(* ===== verification/Ports.v ===== *)
(** Input and output ports ([x86.h]: [inb], [outb], [insl], [outsl]).

    The devices behind the ports are hardware: a driver is written against
    [PortOps], the two port operations on an abstract device state, and what it
    relies on is a class of laws of its own ([Console.v], [Ide.v]). *)

From S2P Require Import Prelude.

Class PortOps (D : Type) := {
  p_inb : Z -> D -> Z * D;
  p_outb : Z -> Z -> D -> D
}.

Section ports.
Context {D : Type} `{!PortOps D}.

Definition inb (port : Z) : M D Z := fun d => let '(v, d') := p_inb port d in Ok v d'.
Definition outb (port v : Z) : M D () := modify (p_outb port (u8 v)).

Lemma wp_inb port d (Q : Z -> D -> Prop) : Q (fst (p_inb port d)) (snd (p_inb port d)) -> wp (inb port) d Q.
Proof. unfold wp, inb. by destruct (p_inb port d). Qed.
End ports.

Lemma u8_range x : 0 <= u8 x < 256.
Proof. unfold u8. apply Z.mod_pos_bound. lia. Qed.

(** [(hi << 8) | lo] *)
Lemma lor_shift8 hi lo : 0 <= lo < 256 -> Z.lor (Z.shiftl hi 8) lo = hi * 256 + lo.
Proof.
  intros Hl. rewrite Z.shiftl_mul_pow2 by lia. change (2 ^ 8) with 256.
  rewrite <- Z.lxor_lor, <- Z.add_nocarry_lxor; try done.
  all: apply Z.bits_inj; intros i; rewrite Z.land_spec, Z.bits_0.
  all: destruct (Z_lt_le_dec i 8) as [Hi|Hi].
  all: try (destruct (Z_lt_le_dec i 0); [by rewrite Z.testbit_neg_r by lia|]).
  all: try (change 256 with (2 ^ 8); rewrite Z.mul_pow2_bits_low by lia; done).
  all: rewrite (Z.bits_above_log2 lo), andb_false_r; try done; try lia.
  all: destruct (decide (lo = 0)) as [->|]; [simpl; lia|].
  all: apply Z.lt_le_trans with 8; [|done]; apply Z.log2_lt_pow2; lia.
Qed.
