(* ===== verification/Console.v ===== *)
(** The console ([console.c]) and the serial port ([uart.c]): the screen with
    its cursor registers, the serial line, formatted kernel output and the line
    editing of input.

    [crt] is video memory as a map from cell to character and attribute; the
    cursor lives in the registers of the CRT controller behind [CRTPORT].
    [cons.lock] sections are atomic.  A spinning CPU ([panicked]) is
    [Blocked]. *)

From S2P Require Import Prelude CString Ulib Sleeplock BlockLayer Fs Ports.

Definition BACKSPACE : Z := 256.
Definition CRTPORT : Z := 980.
Definition COM1 : Z := 1016.
Definition INPUT_BUF : Z := 128.
Definition IRQ_COM1 : Z := 4.

(** Control-x *)
Definition C_P : Z := 16.
Definition C_U : Z := 21.
Definition C_H : Z := 8.
Definition C_D : Z := 4.

Record console (D : Type) := mk_console {
  cn_dev : D;
  cn_uart : bool;             (* is there a uart? *)
  cn_panicked : bool;
  cn_crt : Z -> Z;
  cn_buf : list Z;            (* input.buf *)
  cn_r : Z;                   (* input.r *)
  cn_w : Z;
  cn_e : Z;
  cn_wakes : nat;             (* calls of wakeup(&input.r) so far *)
  cn_shift : Z                (* the static shift of kbdgetc *)
}.
Arguments mk_console {D} _ _ _ _ _ _ _ _ _ _.
Arguments cn_dev {D} _.
Arguments cn_uart {D} _.
Arguments cn_panicked {D} _.
Arguments cn_crt {D} _ _.
Arguments cn_buf {D} _.
Arguments cn_r {D} _.
Arguments cn_w {D} _.
Arguments cn_e {D} _.
Arguments cn_wakes {D} _.
Arguments cn_shift {D} _.
#[export] Instance eta_console (D : Type) : Settable (console D) := fun s =>
  mk_console (cn_dev s) (cn_uart s) (cn_panicked s) (cn_crt s) (cn_buf s) (cn_r s) (cn_w s) (cn_e s) (cn_wakes s) (cn_shift s).

Section console.
Context {D : Type} `{!PortOps D}.

Definition on_dev {A : Type} (m : M D A) : M (console D) A := zoom cn_dev (fun d s => s <| cn_dev := d |>) m.

(** ** The serial port *)

(** [for(i = 0; i < 128 && !(inb(COM1+5) & 0x20); i++) microdelay(10);] *)
Fixpoint uart_wait (k : nat) : M D () :=
  match k with
  | O => mret ()
  | S k => st ← inb (COM1 + 5); if negb (Z.land st 32 =? 0) then mret () else uart_wait k
  end.

Definition uartputc (c : Z) : M (console D) () :=
  uart ← gets cn_uart;
  if negb uart then mret () else
  on_dev (uart_wait 128);;
  on_dev (outb (COM1 + 0) c).

Definition uartgetc : M (console D) Z :=
  uart ← gets cn_uart;
  if negb uart then mret (-1) else
  st ← on_dev (inb (COM1 + 5));
  if Z.land st 1 =? 0 then mret (-1) else
  on_dev (inb (COM1 + 0)).

(** The bytes of the banner. *)
Definition uart_banner : list Z := [120; 118; 54; 46; 46; 46; 10].

Definition uartinit (ioapicenable : Z -> Z -> M (console D) ()) : M (console D) () :=
  on_dev (outb (COM1 + 2) 0);;
  on_dev (outb (COM1 + 3) 128);;
  on_dev (outb (COM1 + 0) (115200 / 9600));;
  on_dev (outb (COM1 + 1) 0);;
  on_dev (outb (COM1 + 3) 3);;
  on_dev (outb (COM1 + 4) 0);;
  on_dev (outb (COM1 + 1) 1);;
  st ← on_dev (inb (COM1 + 5));
  if st =? 255 then mret () else
  modify (fun s => s <| cn_uart := true |>);;
  on_dev (inb (COM1 + 2));;
  on_dev (inb (COM1 + 0));;
  ioapicenable IRQ_COM1 0;;
  forM uart_banner uartputc.

(** ** The screen *)

Definition set_crt (pos v : Z) : M (console D) () := modify (fun s => s <| cn_crt := upd (cn_crt s) pos v |>).

(** [memmove(crt, crt+80, sizeof(crt[0])*23*80)] *)
Definition crt_move (crt : Z -> Z) : Z -> Z := fun i => if (0 <=? i) && (i <? 23 * 80) then crt (i + 80) else crt i.
(** [memset(crt+pos, 0, sizeof(crt[0])*(24*80 - pos))] *)
Definition crt_clear (pos : Z) (crt : Z -> Z) : Z -> Z := fun i => if (pos <=? i) && (i <? 24 * 80) then 0 else crt i.

Definition cgaputc (c : Z) : M (console D) () :=
  on_dev (outb CRTPORT 14);;
  hi ← on_dev (inb (CRTPORT + 1));
  on_dev (outb CRTPORT 15);;
  lo ← on_dev (inb (CRTPORT + 1));
  let pos := Z.lor (Z.shiftl hi 8) lo in
  pos ← (if c =? 10 then mret (pos + (80 - pos mod 80))
         else if c =? BACKSPACE then mret (if pos >? 0 then pos - 1 else pos)
         else set_crt pos (Z.lor (Z.land c 255) 1792);; mret (pos + 1));
  if (pos <? 0) || (pos >? 25 * 80) then panic "pos under/overflow" else
  pos ← (if pos / 80 >=? 24 then
           modify (fun s => s <| cn_crt := crt_move (cn_crt s) |>);;
           let pos := pos - 80 in
           modify (fun s => s <| cn_crt := crt_clear pos (cn_crt s) |>);;
           mret pos
         else mret pos);
  on_dev (outb CRTPORT 14);;
  on_dev (outb (CRTPORT + 1) (Z.shiftr pos 8));;
  on_dev (outb CRTPORT 15);;
  on_dev (outb (CRTPORT + 1) pos);;
  set_crt pos (Z.lor 32 1792).

Definition consputc (c : Z) : M (console D) () :=
  panicked ← gets cn_panicked;
  if panicked : bool then block else
  (if c =? BACKSPACE then uartputc 8;; uartputc 32;; uartputc 8 else uartputc c);;
  cgaputc c.

(** ** Formatted output *)

Definition cons_digits : list Z := [48; 49; 50; 51; 52; 53; 54; 55; 56; 57; 97; 98; 99; 100; 101; 102].

Definition cons_printint (xx base : Z) (sgn : bool) : option (list Z) := printint_with cons_digits xx base sgn.

(** What one directive prints, and [argp] after it. *)
Definition cons_directive (fuel : nat) (m : mem) (c argp : Z) : option (list Z * Z) :=
  if c =? 100 then out ← cons_printint (s32 (load32 m argp)) 10 true; Some (out, argp + 4)
  else if (c =? 120) || (c =? 112) then out ← cons_printint (s32 (load32 m argp)) 16 false; Some (out, argp + 4)
  else if c =? 115 then
    let s := load32 m argp in
    out ← (if s =? 0 then Some null_string else put_string fuel m s); Some (out, argp + 4)
  else if c =? 37 then Some ([37], argp)
  else Some ([37; c], argp).

(** The bytes [cprintf] puts, in order: the loop over [fmt]. *)
Fixpoint cprintf_text (fuel : nat) (m : mem) (fmt : list Z) (argp : Z) : option (list Z) :=
  match fmt with
  | [] => Some []
  | c :: fmt1 =>
      if negb (c =? 37) then cons c <$> cprintf_text fuel m fmt1 argp
      else
        match fmt1 with
        | [] => Some []
        | d :: fmt2 =>
            '(out, argp) ← cons_directive fuel m d argp;
            app out <$> cprintf_text fuel m fmt2 argp
        end
  end.

(** [fmt] is [None] for a null pointer. *)
Definition cprintf (fuel : nat) (m : mem) (fmt : option (list Z)) (argp : Z) : M (console D) () :=
  match fmt with
  | None => panic "null fmt"
  | Some fmt =>
      match cprintf_text fuel m fmt argp with
      | Some out => forM out consputc
      | None => panic "cprintf: fuel"
      end
  end.

(** ** Input *)

Definition buf_at (s : console D) (i : Z) : Z := nth (Z.to_nat (i mod INPUT_BUF)) (cn_buf s) 0.

(** The loop of Control-U; [e - w] is fuel enough. *)
Fixpoint kill_line (fuel : nat) : M (console D) () :=
  s ← gets (fun s => s);
  if (cn_e s =? cn_w s) || (buf_at s (u32 (cn_e s - 1)) =? 10) then mret () else
  match fuel with
  | O => panic "kill_line: fuel"
  | S fuel =>
      modify (fun s => s <| cn_e := u32 (cn_e s - 1) |>);;
      consputc BACKSPACE;;
      kill_line fuel
  end.

(** The body of the loop of [consoleintr] for one character; the result is
    whether to call [procdump]. *)
Definition consoleintr_char (c : Z) : M (console D) bool :=
  if c =? C_P then mret true
  else if c =? C_U then kill_line (Z.to_nat INPUT_BUF);; mret false
  else if (c =? C_H) || (c =? 127) then
    s ← gets (fun s => s);
    when (negb (cn_e s =? cn_w s)) (
      modify (fun s => s <| cn_e := u32 (cn_e s - 1) |>);;
      consputc BACKSPACE);;
    mret false
  else
    s ← gets (fun s => s);
    when (negb (c =? 0) && (u32 (cn_e s - cn_r s) <? INPUT_BUF)) (
      let c := if c =? 13 then 10 else c in
      modify (fun s => s <| cn_buf := <[Z.to_nat (cn_e s mod INPUT_BUF) := u8 c]> (cn_buf s) |>
                         <| cn_e := u32 (cn_e s + 1) |>);;
      consputc c;;
      s ← gets (fun s => s);
      when ((c =? 10) || (c =? C_D) || (cn_e s =? u32 (cn_r s + INPUT_BUF))) (
        modify (fun s => s <| cn_w := cn_e s |> <| cn_wakes := S (cn_wakes s) |>)));;
    mret false.

(** The loop [while((c = getc()) >= 0)]; it runs as long as the device has
    characters, [fuel] of them at most.  The result is [doprocdump]. *)
Fixpoint consoleintr (fuel : nat) (getc : M (console D) Z) (doprocdump : bool) : M (console D) bool :=
  match fuel with
  | O => block
  | S fuel =>
      c ← getc;
      if negb (c >=? 0) then mret doprocdump else
      d ← consoleintr_char c;
      consoleintr fuel getc (doprocdump || d)
  end.

Definition uartintr (fuel : nat) : M (console D) bool := consoleintr fuel uartgetc false.

(** How a run of [consoleread] ends: it returns, or it sleeps with [n] bytes
    still wanted. *)
Inductive creadout := CRet (r : Z) (bytes : list Z) | CSleep (n : nat) (bytes : list Z).

(** The loop of [consoleread] with [n] bytes left of [target]; [dst] is what
    has been stored. *)
Fixpoint consoleread_loop (killed : bool) (target n : nat) (dst : list Z) : M (console D) creadout :=
  match n with
  | O => mret (CRet (Z.of_nat target) dst)
  | S n' =>
      s ← gets (fun s => s);
      if cn_r s =? cn_w s then
        mret (if killed then CRet (-1) dst else CSleep n dst)
      else
        let c := buf_at s (cn_r s) in
        modify (fun s => s <| cn_r := u32 (cn_r s + 1) |>);;
        if c =? C_D then
          when (n <? target)%nat (modify (fun s => s <| cn_r := u32 (cn_r s - 1) |>));;
          mret (CRet (Z.of_nat (target - n)) dst)
        else if c =? 10 then mret (CRet (Z.of_nat (target - n')) (dst ++ [c]))
        else consoleread_loop killed target n' (dst ++ [c])
  end.
End console.

(** ** The console as a device of the file system *)

(** The console and [myproc()->killed] inside the state below the inodes. *)
Class HasConsole (S D : Type) := {
  con_get : S -> console D;
  con_put : console D -> S -> S;
  con_killed : S -> bool
}.

Section device.
Context {S D : Type} `{!PortOps D} `{!HasConsole S D} `{!BlockOps S}.

Definition on_cons {A : Type} (m : M (console D) A) : M (fsst S) A :=
  on_blk (zoom con_get con_put m).

Definition consoleread (ip : nat) (n : Z) : M (fsst S) (Z * list Z) :=
  iunlock ip;;
  killed ← gets (fun s => con_killed (fs_blk s));
  r ← on_cons (consoleread_loop killed (Z.to_nat n) (Z.to_nat n) []);
  match r with
  | CSleep _ _ => block
  | CRet r bytes => ilock ip;; mret (r, bytes)
  end.

Definition consolewrite (ip : nat) (buf : list Z) (n : Z) : M (fsst S) Z :=
  iunlock ip;;
  on_cons (forM (take (Z.to_nat n) buf) (fun c => consputc (Z.land c 255)));;
  ilock ip;;
  mret n.
End device.
