(* ===== verification/ConsoleOut.v ===== *)
(** Console output against an unbounded page: the screen is a window of 24 rows
    on it, and the serial line carries what is written.  The second part is input
    against a line-edited queue. *)

From S2P Require Import Prelude CString Ulib Ports Console.

(** ** What the ports do

    The cursor registers of the CRT controller and the two directions of the
    serial line, as far as the console depends on them. *)

Record pview := mk_pview {
  pv_sel : Z;                 (* the selected CRT register *)
  pv_reg : Z -> Z;            (* the CRT registers *)
  pv_sent : list Z;           (* bytes put on the serial line *)
  pv_pending : list Z         (* bytes received and not yet read *)
}.
#[export] Instance eta_pview : Settable pview := fun v =>
  mk_pview (pv_sel v) (pv_reg v) (pv_sent v) (pv_pending v).

(** [tx_wait d] is how many reads of the line status register still find the
    transmitter busy.  A byte written while it is busy is not promised to get
    on the line.  The driver polls 128 times and then writes all the same:
    [uart_drains] is what makes that enough. *)
Class ConsolePorts (D : Type) `{PortOps D} := {
  view : D -> pview;
  tx_wait : D -> nat;
  cga_select d v : view (p_outb CRTPORT v d) = (view d) <| pv_sel := v |>;
  cga_write d v : view (p_outb (CRTPORT + 1) v d) = (view d) <| pv_reg := upd (pv_reg (view d)) (pv_sel (view d)) v |>;
  cga_read d : fst (p_inb (CRTPORT + 1) d) = pv_reg (view d) (pv_sel (view d)) /\ view (snd (p_inb (CRTPORT + 1) d)) = view d;
  uart_drains d : (tx_wait d <= 128)%nat;
  uart_tx d v : tx_wait d = 0%nat -> view (p_outb (COM1 + 0) v d) = (view d) <| pv_sent := pv_sent (view d) ++ [v] |>;
  uart_lsr d : Z.land (fst (p_inb (COM1 + 5) d)) 1 = (if pv_pending (view d) then 0 else 1)
    /\ view (snd (p_inb (COM1 + 5) d)) = view d;
  uart_thre d : (Z.land (fst (p_inb (COM1 + 5) d)) 32 = 0 <-> tx_wait d <> 0%nat)
    /\ tx_wait (snd (p_inb (COM1 + 5) d)) = pred (tx_wait d);
  uart_rx d c l : pv_pending (view d) = c :: l ->
    fst (p_inb (COM1 + 0) d) = c /\ view (snd (p_inb (COM1 + 0) d)) = (view d) <| pv_pending := l |>
}.

(** ** The page *)

Record term := mk_term { t_page : Z -> Z; t_pos : Z; t_top : Z }.

Definition BLANK : Z := Z.lor 32 1792.

(** One character on the page: the cursor moves on, to the next row or back
    (not above the window), and the cell under it is blank; the window follows
    the cursor down. *)
Definition term_put (t : term) (c : Z) : term :=
  let pos :=
    if c =? 10 then (t_pos t / 80 + 1) * 80
    else if c =? BACKSPACE then Z.max (80 * t_top t) (t_pos t - 1)
    else t_pos t + 1 in
  let page := if (c =? 10) || (c =? BACKSPACE) then t_page t else upd (t_page t) (t_pos t) (Z.lor (Z.land c 255) 1792) in
  mk_term (upd page pos BLANK) pos (Z.max (t_top t) (pos / 80 - 23)).

(** The bytes on the serial line for one character. *)
Definition serial (c : Z) : list Z := if c =? BACKSPACE then [8; 32; 8] else [u8 c].

Section output.
Context {D : Type} `{ConsolePorts D}.
Implicit Types s : console D.

(** The cursor registers hold [pos]. *)
Definition cursor (v : pview) (pos : Z) : Prop := pv_reg v 14 = pos / 256 /\ pv_reg v 15 = pos mod 256.

Record term_rep (s : console D) (t : term) : Prop := {
  tr_top : 0 <= t_top t;
  tr_pos : 80 * t_top t <= t_pos t < 80 * (t_top t + 24);
  tr_cursor : cursor (view (cn_dev s)) (t_pos t - 80 * t_top t);
  tr_cells : forall i, 0 <= i < 1920 -> cn_crt s i = t_page t (80 * t_top t + i);
  tr_below : forall j, 80 * (t_top t + 24) <= j -> t_page t j = 0
}.

(** The parts of the console that output leaves alone. *)
Definition same_input (s s' : console D) : Prop :=
  cn_uart s' = cn_uart s /\ cn_panicked s' = cn_panicked s /\ cn_buf s' = cn_buf s /\ cn_r s' = cn_r s
  /\ cn_w s' = cn_w s /\ cn_e s' = cn_e s /\ cn_wakes s' = cn_wakes s /\ cn_shift s' = cn_shift s
  /\ pv_pending (view (cn_dev s')) = pv_pending (view (cn_dev s)).

#[global] Instance same_input_preorder : PreOrder same_input.
Proof. split; [intros s; repeat split|]. intros a b c (?&?&?&?&?&?&?&?&?) (?&?&?&?&?&?&?&?&?). repeat split; congruence. Qed.

(** The loop ends when the transmitter is ready. *)
Lemma wp_uart_wait k d (Q : () -> D -> Prop) :
  (tx_wait d <= k)%nat -> (forall d', view d' = view d -> tx_wait d' = 0%nat -> Q () d') -> wp (uart_wait k) d Q.
Proof.
  revert d. induction k as [|k IH]; intros d Hk HQ; simpl; [apply wp_ret, HQ; [done|lia]|].
  apply wp_bind, wp_inb. destruct (uart_lsr d) as [_ Hv]. destruct (uart_thre d) as [Hb Ht].
  destruct (Z.eqb_spec (Z.land (fst (p_inb (COM1 + 5) d)) 32) 0) as [E|E]; simpl.
  - apply IH; [lia|]. intros d' Hd'. apply HQ. congruence.
  - apply wp_ret, HQ; [done|]. rewrite Ht. destruct (decide (tx_wait d = 0%nat)) as [->|Hne]; [done|]. by apply Hb in Hne.
Qed.

(** The serial bytes of an output, when there is a uart. *)
Definition sent_after (s s' : console D) (l : list Z) : Prop :=
  pv_sent (view (cn_dev s')) = pv_sent (view (cn_dev s)) ++ (if cn_uart s then l else []).

Lemma wp_uartputc c s (Q : () -> console D -> Prop) :
  (forall s', same_input s s' -> sent_after s s' [u8 c] -> cn_crt s' = cn_crt s ->
     pv_reg (view (cn_dev s')) = pv_reg (view (cn_dev s)) -> Q () s') ->
  wp (uartputc c) s Q.
Proof.
  intros HQ. unfold uartputc. wp_steps. unfold sent_after in HQ. destruct (cn_uart s) eqn:Hu; cbn [negb].
  - unfold on_dev. wp_steps. apply wp_uart_wait; [apply uart_drains|]. intros d Hd Hw. cbv beta. wp_steps. simpl.
    pose proof (uart_tx d (u8 c) Hw) as Htx.
    unfold same_input. apply HQ; simpl; rewrite ?Htx, ?Hd; simpl; repeat split. all: simpl; rewrite ?Htx, ?Hd; done.
  - apply wp_ret, HQ; try done. by rewrite app_nil_r.
Qed.

(** Reading and writing one register of the CRT controller. *)
Lemma wp_reg_read {A} r (k : Z -> M (console D) A) s (Q : A -> console D -> Prop) :
  0 <= r < 256 ->
  (forall d, view d = (view (cn_dev s)) <| pv_sel := r |> -> wp (k (pv_reg (view (cn_dev s)) r)) (s <| cn_dev := d |>) Q) ->
  wp (on_dev (outb CRTPORT r);; v ← on_dev (inb (CRTPORT + 1)); k v) s Q.
Proof.
  intros Hr HQ. unfold on_dev, outb. wp_steps. apply wp_inb. simpl. rewrite u8_small by done.
  destruct (cga_read (p_outb CRTPORT r (cn_dev s))) as [-> Hv]. rewrite cga_select in Hv |- *.
  by apply (HQ (snd (p_inb (CRTPORT + 1) (p_outb CRTPORT r (cn_dev s))))).
Qed.

Lemma wp_reg_write {A} r v (k : M (console D) A) s (Q : A -> console D -> Prop) :
  0 <= r < 256 ->
  (forall d, view d = (view (cn_dev s)) <| pv_sel := r |> <| pv_reg := upd (pv_reg (view (cn_dev s))) r (u8 v) |> ->
     wp k (s <| cn_dev := d |>) Q) ->
  wp (on_dev (outb CRTPORT r);; on_dev (outb (CRTPORT + 1) v);; k) s Q.
Proof.
  intros Hr HQ. unfold on_dev, outb. wp_steps. simpl. rewrite (u8_small r) by done.
  apply (HQ (p_outb (CRTPORT + 1) (u8 v) (p_outb CRTPORT r (cn_dev s)))). by rewrite cga_write, cga_select.
Qed.

Lemma cursor_pos v pos : cursor v pos -> Z.lor (Z.shiftl (pv_reg v 14) 8) (pv_reg v 15) = pos.
Proof.
  intros [-> ->]. rewrite lor_shift8 by (apply Z.mod_pos_bound; lia). pose proof (Z.div_mod pos 256). lia.
Qed.

(** ** One character on the screen *)

(** The three ways the cursor moves, relative to the window. *)
Definition move (c pos : Z) : Z :=
  if c =? 10 then pos + (80 - pos mod 80) else if c =? BACKSPACE then (if pos >? 0 then pos - 1 else pos) else pos + 1.

Lemma move_bound c pos : 0 <= pos < 1920 -> 0 <= move c pos <= 1920.
Proof.
  intros Hp. unfold move. pose proof (Z.mod_pos_bound pos 80 ltac:(lia)).
  pose proof (Z.div_mod pos 80 ltac:(lia)). destruct (c =? 10); [|destruct (c =? BACKSPACE); [destruct (Z.gtb_spec pos 0)|]]; lia.
Qed.

Lemma term_put_pos t c : 80 * t_top t <= t_pos t -> t_pos (term_put t c) = 80 * t_top t + move c (t_pos t - 80 * t_top t).
Proof.
  intros Hp. unfold term_put, move. simpl. destruct (c =? 10).
  - set (q := t_pos t - 80 * t_top t). replace (t_pos t) with (q + t_top t * 80) by lia. rewrite Z.div_add by lia.
    pose proof (Z.div_mod q 80 ltac:(lia)). lia.
  - destruct (c =? BACKSPACE); [|lia]. destruct (Z.gtb_spec (t_pos t - 80 * t_top t) 0); lia.
Qed.
(** Video memory and the cursor after one character at [pos]. *)
Definition plain (c : Z) : bool := negb ((c =? 10) || (c =? BACKSPACE)).
Definition crt_after (c pos : Z) (crt : Z -> Z) : Z -> Z :=
  let crt := if plain c then upd crt pos (Z.lor (Z.land c 255) 1792) else crt in
  if move c pos / 80 >=? 24 then upd (crt_clear (move c pos - 80) (crt_move crt)) (move c pos - 80) BLANK
  else upd crt (move c pos) BLANK.
Definition pos_after (c pos : Z) : Z := if move c pos / 80 >=? 24 then move c pos - 80 else move c pos.

Lemma pos_after_bound c pos : 0 <= pos < 1920 -> 0 <= pos_after c pos < 1920.
Proof.
  intros Hp. pose proof (move_bound c pos Hp). unfold pos_after.
  pose proof (Z.div_mod (move c pos) 80 ltac:(lia)). pose proof (Z.mod_pos_bound (move c pos) 80 ltac:(lia)).
  destruct (Z.geb_spec (move c pos / 80) 24); lia.
Qed.

Lemma u8_cursor v pos : 0 <= pos < 1920 ->
  cursor (v <| pv_reg := upd (upd (pv_reg v) 14 (u8 (Z.shiftr pos 8))) 15 (u8 pos) |>) pos.
Proof.
  intros Hp. unfold cursor. simpl. rewrite upd_ne, !upd_eq by lia. split; [|done].
  rewrite Z.shiftr_div_pow2 by lia. change (2 ^ 8) with 256. apply u8_small.
  pose proof (Z.div_mod pos 256 ltac:(lia)). pose proof (Z.mod_pos_bound pos 256 ltac:(lia)). lia.
Qed.

(** [cgaputc] reads the cursor, computes [crt_after] and [pos_after] and writes
    the cursor back; it does not panic. *)
Lemma wp_cgaputc_run c s pos (Q : () -> console D -> Prop) :
  0 <= pos < 1920 -> cursor (view (cn_dev s)) pos ->
  (forall s', same_input s s' -> pv_sent (view (cn_dev s')) = pv_sent (view (cn_dev s)) ->
     cursor (view (cn_dev s')) (pos_after c pos) -> cn_crt s' = crt_after c pos (cn_crt s) -> Q () s') ->
  wp (cgaputc c) s Q.
Proof.
  intros Hp Hc HQ. unfold cgaputc. apply wp_reg_read; [lia|]. intros d1 Hd1.
  apply wp_reg_read; [lia|]. intros d2 Hd2. simpl in Hd2 |- *. rewrite Hd1 in Hd2 |- *. simpl.
  rewrite (cursor_pos _ pos Hc). apply wp_bind.
  set (crt1 := if plain c then upd (cn_crt s) pos (Z.lor (Z.land c 255) 1792) else cn_crt s).
  assert (Hmid : forall d3 (Q3 : Z -> console D -> Prop),
    Q3 (move c pos) (s <| cn_dev := d3 |> <| cn_crt := crt1 |>) ->
    wp (if c =? 10 then mret (pos + (80 - pos mod 80))
        else if c =? BACKSPACE then mret (if pos >? 0 then pos - 1 else pos)
        else set_crt pos (Z.lor (Z.land c 255) 1792);; mret (pos + 1)) (s <| cn_dev := d3 |>) Q3).
  { intros d3 Q3. unfold move, crt1, plain, set_crt. destruct (c =? 10); simpl; [by destruct s|].
    destruct (c =? BACKSPACE); simpl; [by destruct s|done]. }
  apply (Hmid d2). pose proof (move_bound c pos Hp). decide_cmp. replace (move c pos >? 25 * 80) with false by lia.
  simpl. apply wp_bind.
  assert (Hscroll : forall (Q3 : Z -> console D -> Prop),
    Q3 (pos_after c pos) (s <| cn_dev := d2 |> <| cn_crt :=
        if move c pos / 80 >=? 24 then crt_clear (move c pos - 80) (crt_move crt1) else crt1 |>) ->
    wp (if move c pos / 80 >=? 24 then
          modify (fun s => s <| cn_crt := crt_move (cn_crt s) |>);;
          modify (fun s => s <| cn_crt := crt_clear (move c pos - 80) (cn_crt s) |>);;
          mret (move c pos - 80)
        else mret (move c pos)) (s <| cn_dev := d2 |> <| cn_crt := crt1 |>) Q3).
  { intros Q3. unfold pos_after. by destruct (_ >=? _). }
  apply Hscroll. apply wp_reg_write; [lia|]. intros d3 Hd3. apply wp_reg_write; [lia|]. intros d4 Hd4.
  unfold set_crt. wp_steps. simpl in Hd3, Hd4. rewrite Hd3, Hd2 in Hd4. simpl in Hd4. apply HQ; simpl; rewrite ?Hd4.
  - unfold same_input. simpl. rewrite Hd4. done.
  - done.
  - apply (u8_cursor ((view (cn_dev s)) <| pv_sel := 15 |>)). by apply pos_after_bound.
  - unfold crt_after, pos_after. fold crt1. by destruct (_ >=? _).
Qed.
(** The window after the character, and where the cursor is in it. *)
Lemma term_put_window t c : 0 <= t_top t -> 80 * t_top t <= t_pos t < 80 * (t_top t + 24) ->
  let k := if move c (t_pos t - 80 * t_top t) / 80 >=? 24 then 1 else 0 in
  t_top (term_put t c) = t_top t + k
  /\ t_pos (term_put t c) - 80 * t_top (term_put t c) = pos_after c (t_pos t - 80 * t_top t).
Proof.
  intros Ht Hp k. set (q := t_pos t - 80 * t_top t) in *. assert (Hpos := term_put_pos t c ltac:(lia)). fold q in Hpos.
  assert (Htop : t_top (term_put t c) = Z.max (t_top t) (t_pos (term_put t c) / 80 - 23)) by done.
  rewrite Hpos in Htop. replace (80 * t_top t + move c q) with (move c q + t_top t * 80) in Htop by lia.
  rewrite Z.div_add in Htop by lia. pose proof (move_bound c q ltac:(lia)) as Hm. unfold pos_after, k.
  pose proof (Z.div_mod (move c q) 80 ltac:(lia)). pose proof (Z.mod_pos_bound (move c q) 80 ltac:(lia)).
  destruct (Z.geb_spec (move c q / 80) 24); lia.
Qed.

Lemma term_put_page t c j : 80 * t_top t <= t_pos t ->
  t_page (term_put t c) j =
    (if j =? 80 * t_top t + move c (t_pos t - 80 * t_top t) then BLANK
     else if plain c && (j =? t_pos t) then Z.lor (Z.land c 255) 1792 else t_page t j).
Proof.
  intros Hp. rewrite <- (term_put_pos t c Hp). unfold term_put at 1, plain. simpl. unfold upd at 1. simpl.
  case (j =? _); [done|]. destruct ((c =? 10) || (c =? BACKSPACE)); simpl; [done|]. unfold upd. by destruct (j =? t_pos t).
Qed.

Lemma crt_after_cell c pos crt i : 0 <= pos < 1920 -> 0 <= i < 1920 ->
  let k := if move c pos / 80 >=? 24 then 80 else 0 in
  crt_after c pos crt i =
    (if i + k =? move c pos then BLANK
     else if 1920 <=? i + k then 0
     else if plain c && (i + k =? pos) then Z.lor (Z.land c 255) 1792 else crt (i + k)).
Proof.
  intros Hp Hi k. unfold crt_after, k. pose proof (move_bound c pos Hp) as Hm.
  pose proof (Z.div_mod (move c pos) 80 ltac:(lia)). pose proof (Z.mod_pos_bound (move c pos) 80 ltac:(lia)).
  destruct (Z.geb_spec (move c pos / 80) 24).
  - assert (move c pos = 1920) as -> by lia. unfold upd, crt_clear, crt_move.
    destruct (decide (i = 1840)) as [->|]; [done|]. destruct (Z_lt_le_dec i 1840); decide_cmp; simpl; [|done].
    destruct (plain c); [|done]. unfold upd. by destruct (i + 80 =? pos).
  - rewrite Z.add_0_r. unfold upd. decide_cmp. destruct (i =? move c pos); [done|].
    destruct (plain c); simpl; [|done]. done.
Qed.

Lemma wp_cgaputc c s t (Q : () -> console D -> Prop) :
  term_rep s t ->
  (forall s', same_input s s' -> pv_sent (view (cn_dev s')) = pv_sent (view (cn_dev s)) -> term_rep s' (term_put t c) -> Q () s') ->
  wp (cgaputc c) s Q.
Proof.
  intros [Ht Hp Hc Hcells Hbelow] HQ. set (q := t_pos t - 80 * t_top t) in *. assert (Hq : 0 <= q < 1920) by (unfold q; lia).
  apply (wp_cgaputc_run c s q); [done..|]. intros s' Hsame Hsent Hcur Hcrt. apply HQ; [done..|].
  destruct (term_put_window t c Ht Hp) as [Htop Hpos]. fold q in Htop, Hpos.
  pose proof (pos_after_bound c q Hq) as Hb. set (kb := move c q / 80 >=? 24) in *.
  assert (Hk : 0 <= (if kb then 1 else 0) <= 1) by (destruct kb; lia).
  split; [lia|lia|by rewrite Hpos| |].
  - intros i Hi. rewrite Hcrt, (crt_after_cell c q _ i Hq Hi), term_put_page by lia. fold q. fold kb. rewrite Htop.
    replace (80 * (t_top t + (if kb then 1 else 0)) + i) with (80 * t_top t + (i + (if kb then 80 else 0))) by (destruct kb; lia).
    set (x := i + (if kb then 80 else 0)). assert (Hx : 0 <= x) by (unfold x; destruct kb; lia).
    replace (80 * t_top t + x =? 80 * t_top t + move c q) with (x =? move c q) by lia.
    replace (80 * t_top t + x =? t_pos t) with (x =? q) by (unfold q; lia).
    destruct (x =? move c q); [done|]. destruct (Z.leb_spec 1920 x).
    + replace (x =? q) with false by lia. rewrite andb_false_r. symmetry. apply Hbelow. lia.
    + by rewrite Hcells by lia.
  - intros j Hj. rewrite term_put_page by lia. fold q. pose proof (move_bound c q Hq).
    replace (j =? 80 * t_top t + move c q) with false; [|rewrite Htop in *; unfold pos_after in Hb; fold kb in Hb; destruct kb; lia].
    replace (j =? t_pos t) with false by (destruct kb; lia). rewrite andb_false_r. apply Hbelow. destruct kb; lia.
Qed.
End output.

Section write.
Context {D : Type} `{ConsolePorts D}.
Implicit Types s : console D.

Lemma wp_consputc c s t (Q : () -> console D -> Prop) :
  term_rep s t -> cn_panicked s = false ->
  (forall s', same_input s s' -> sent_after s s' (serial c) -> term_rep s' (term_put t c) -> Q () s') ->
  wp (consputc c) s Q.
Proof.
  intros Ht Hpan HQ. unfold consputc. wp_steps. rewrite Hpan.
  assert (Hserial : forall (Q' : () -> console D -> Prop),
    (forall s', same_input s s' -> sent_after s s' (serial c) -> term_rep s' t -> Q' () s') ->
    wp (if c =? BACKSPACE then uartputc 8;; uartputc 32;; uartputc 8 else uartputc c) s Q').
  { intros Q' HQ'.
    assert (Hone : forall s1 s2, term_rep s1 t -> cn_crt s2 = cn_crt s1 ->
      pv_reg (view (cn_dev s2)) = pv_reg (view (cn_dev s1)) -> term_rep s2 t).
    { intros s1 s2 [? ? Hcur ? ?] E1 E2. split; try done; [|by rewrite E1]. unfold cursor in *. by rewrite E2. }
    unfold serial in HQ'. destruct (c =? BACKSPACE).
    - apply wp_bind, wp_uartputc. intros s1 I1 S1 C1 R1. apply wp_bind, wp_uartputc. intros s2 I2 S2 C2 R2.
      apply wp_uartputc. intros s3 I3 S3 C3 R3. apply HQ'.
      + by transitivity s2; [transitivity s1|].
      + unfold sent_after in *. destruct I1 as [U1 _], I2 as [U2 _]. rewrite S3, S2, S1, U2, U1.
        rewrite <- !app_assoc. by destruct (cn_uart s).
      + eapply Hone; [|done..]. eapply Hone; [|done..]. by eapply Hone.
    - apply wp_uartputc. intros s1 I1 S1 C1 R1. apply HQ'; [done..|]. by eapply Hone. }
  apply wp_bind, Hserial. intros s1 I1 S1 T1. apply (wp_cgaputc c s1 t); [done|].
  intros s2 I2 S2 T2. apply HQ; [by transitivity s1| |done]. unfold sent_after in *. by rewrite S2.
Qed.

Lemma wp_put_all cs s t (Q : () -> console D -> Prop) :
  term_rep s t -> cn_panicked s = false ->
  (forall s', same_input s s' -> sent_after s s' (concat (serial <$> cs)) -> term_rep s' (foldl term_put t cs) -> Q () s') ->
  wp (forM cs consputc) s Q.
Proof.
  revert s t. induction cs as [|c cs IH]; intros s t Ht Hpan HQ; simpl.
  { apply wp_ret, HQ; [done| |done]. unfold sent_after. simpl. destruct (cn_uart s); by rewrite app_nil_r. }
  apply wp_bind, (wp_consputc c s t); [done..|]. intros s1 I1 S1 T1.
  apply (IH s1 (term_put t c)); [done|by destruct I1 as (_ & -> & _)|]. intros s2 I2 S2 T2.
  apply HQ; [by transitivity s1| |done]. unfold sent_after in *. rewrite S2, S1. simpl.
  destruct I1 as (-> & _). destruct (cn_uart s); by rewrite <- app_assoc.
Qed.
End write.

(** * Console input against a line-edited queue: [ready] holds the committed
    bytes, [edit] the line being typed. *)

(** ** The terminal driver *)

Record tty := mk_tty { y_ready : list Z; y_edit : list Z }.

Definition CAP : nat := 128.

(** One key: the new state and what is echoed. *)
Definition tty_key (y : tty) (c : Z) : tty * list Z :=
  if c =? C_P then (y, [])
  else if c =? C_U then (mk_tty (y_ready y) [], replicate (length (y_edit y)) BACKSPACE)
  else if (c =? C_H) || (c =? 127) then
    match y_edit y with
    | [] => (y, [])
    | _ => (mk_tty (y_ready y) (take (length (y_edit y) - 1) (y_edit y)), [BACKSPACE])
    end
  else if negb (c =? 0) && (length (y_ready y ++ y_edit y) <? CAP)%nat then
    let c := if c =? 13 then 10 else c in
    let edit := y_edit y ++ [c] in
    if (c =? 10) || (c =? C_D) || (length (y_ready y ++ edit) =? CAP)%nat
    then (mk_tty (y_ready y ++ edit) [], [c])
    else (mk_tty (y_ready y) edit, [c])
  else (y, []).

Fixpoint tty_keys (y : tty) (cs : list Z) : tty * list Z :=
  match cs with
  | [] => (y, [])
  | c :: cs => let '(y, e) := tty_key y c in let '(y, e') := tty_keys y cs in (y, e ++ e')
  end.

(** What a read of [n] bytes takes from the committed bytes: up to and
    including a newline, or up to an end-of-file mark, which it takes only when
    nothing precedes it.  [None] when it must wait for more. *)
Fixpoint tty_line (first : bool) (n : nat) (l : list Z) : option (list Z * list Z) :=
  match n with
  | O => Some ([], l)
  | S n =>
      match l with
      | [] => None
      | c :: l' =>
          if c =? C_D then Some ([], if first then l' else l)
          else if c =? 10 then Some ([c], l')
          else '(x, rest) ← tty_line false n l'; Some (c :: x, rest)
      end
  end.

Section input.
Context {D : Type} `{ConsolePorts D}.
Implicit Types s : console D.

Record input_rep (s : console D) (y : tty) : Prop := {
  ir_len : length (cn_buf s) = CAP;
  ir_size : (length (y_ready y ++ y_edit y) <= CAP)%nat;
  ir_r : 0 <= cn_r s < 2 ^ 32;
  ir_w : cn_w s = u32 (cn_r s + Z.of_nat (length (y_ready y)));
  ir_e : cn_e s = u32 (cn_r s + Z.of_nat (length (y_ready y ++ y_edit y)));
  ir_data : forall i c, (y_ready y ++ y_edit y) !! i = Some c ->
    cn_buf s !! Z.to_nat ((cn_r s + Z.of_nat i) mod INPUT_BUF) = Some c
}.

Lemma input_index a : u32 a mod INPUT_BUF = a mod INPUT_BUF.
Proof. unfold u32, INPUT_BUF. apply Z.mod_mod_divide. by exists (2 ^ 25). Qed.

Lemma input_rep_same s s' y : same_input s s' -> input_rep s y -> input_rep s' y.
Proof. intros (_ & _ & Hb & Hr & Hw & He & _) []. split; rewrite ?Hb, ?Hr, ?Hw, ?He; done. Qed.

Lemma edit_empty s y : input_rep s y -> (cn_e s =? cn_w s) = bool_decide (y_edit y = []).
Proof.
  intros [_ Hs Hr Hw He _]. rewrite Hw, He. rewrite length_app in *. unfold CAP in Hs.
  destruct (bool_decide_reflect (y_edit y = [])) as [->|Hne].
  - simpl. rewrite Nat.add_0_r. lia.
  - apply Z.eqb_neq. intros E. apply u32_inj_near in E; [|lia..]. destruct (y_edit y); [done|]. simpl in *. lia.
Qed.

Lemma ready_empty s y : input_rep s y -> (cn_r s =? cn_w s) = bool_decide (y_ready y = []).
Proof.
  intros [_ Hs Hr Hw _ _]. rewrite Hw. rewrite length_app in Hs. unfold CAP in Hs.
  destruct (bool_decide_reflect (y_ready y = [])) as [->|Hne].
  - simpl. rewrite Z.add_0_r, u32_small; lia.
  - apply Z.eqb_neq. intros E. rewrite <- (u32_small (cn_r s)) in E at 1 by lia.
    rewrite <- (Z.add_0_r (cn_r s)) in E at 1. apply u32_inj_near in E; [|lia..]. destruct (y_ready y); [done|]. simpl in *. lia.
Qed.

Lemma input_fill s y : input_rep s y -> u32 (cn_e s - cn_r s) = Z.of_nat (length (y_ready y ++ y_edit y)).
Proof.
  intros [_ Hs Hr _ He _]. unfold CAP in Hs. rewrite He, u32_sub_l, Z.add_simpl_l. apply u32_small. lia.
Qed.

Lemma last_typed s y l c : input_rep s y -> y_edit y = l ++ [c] -> buf_at s (u32 (cn_e s - 1)) = c.
Proof.
  intros [_ _ _ _ He Hd] Hl. unfold buf_at. apply nth_lookup_Some.
  rewrite <- (Hd (length (y_ready y ++ l)) c).
  - rewrite input_index, He, Zminus_mod, input_index, <- Zminus_mod. do 3 f_equal.
    rewrite Hl, !length_app. simpl. lia.
  - rewrite Hl, app_assoc. by apply list_lookup_middle.
Qed.

(** Drop the last typed byte. *)
Lemma untype_rep s y l c : input_rep s y -> y_edit y = l ++ [c] ->
  input_rep (s <| cn_e := u32 (cn_e s - 1) |>) (mk_tty (y_ready y) l).
Proof.
  intros [Hlen Hs Hr Hw He Hd] Hl. rewrite Hl in *. split; simpl; try done.
  - rewrite !length_app in *. lia.
  - rewrite He, u32_sub_l. f_equal. rewrite !length_app. simpl. lia.
  - intros i x Hi. apply Hd. rewrite app_assoc. by apply lookup_app_l_Some.
Qed.
(** Type one byte. *)
Lemma type_rep s y c : input_rep s y -> (length (y_ready y ++ y_edit y) < CAP)%nat -> 
  input_rep (s <| cn_buf := <[Z.to_nat (cn_e s mod INPUT_BUF) := c]> (cn_buf s) |> <| cn_e := u32 (cn_e s + 1) |>)
    (mk_tty (y_ready y) (y_edit y ++ [c])).
Proof.
  intros [Hlen Hs Hr Hw He Hd] Hlt. split; cbn [y_ready y_edit]; simpl; try done.
  - by rewrite length_insert.
  - rewrite !length_app in *. simpl. lia.
  - rewrite He, u32_add_l. f_equal. rewrite !length_app. simpl. lia.
  - intros i x Hi. rewrite He, input_index. unfold INPUT_BUF, CAP in *. rewrite app_assoc in Hi.
    apply lookup_app_Some in Hi as [Hi|[Hge Hi]].
    + apply lookup_lt_Some in Hi as Hil. rewrite list_lookup_insert_ne; [by apply Hd|].
      intros E. apply Z2Nat.inj in E; [|apply Z.mod_pos_bound; lia..].
      pose proof (Z.div_mod (cn_r s + Z.of_nat (length (y_ready y ++ y_edit y))) 128 ltac:(lia)).
      pose proof (Z.div_mod (cn_r s + Z.of_nat i) 128 ltac:(lia)). lia.
    + apply list_lookup_singleton_Some in Hi as [Hi <-].
      replace i with (length (y_ready y ++ y_edit y)) by lia. apply list_lookup_insert_eq. rewrite Hlen.
      pose proof (Z.mod_pos_bound (cn_r s + Z.of_nat (length (y_ready y ++ y_edit y))) 128 ltac:(lia)). lia.
Qed.

(** The line typed so far becomes ready. *)
Lemma commit_rep s y k : input_rep s y ->
  input_rep (s <| cn_w := cn_e s |> <| cn_wakes := k |>) (mk_tty (y_ready y ++ y_edit y) []).
Proof.
  intros [Hlen Hs Hr Hw He Hd]. split; cbn [y_ready y_edit]; rewrite ?app_nil_r; simpl; done.
Qed.

(** ** Keys *)

(** The console stands for the terminal [y] and the page [t]. *)
Record con_rep (s : console D) (y : tty) (t : term) : Prop := {
  cr_input : input_rep s y;
  cr_edit : 10 ∉ y_edit y;
  cr_term : term_rep s t;
  cr_run : cn_panicked s = false
}.

(** [s'] comes from [s] by echoing [l]. *)
Record echoed (s s' : console D) (l : list Z) : Prop := {
  ec_uart : cn_uart s' = cn_uart s;
  ec_sent : sent_after s s' (concat (serial <$> l));
  ec_pending : pv_pending (view (cn_dev s')) = pv_pending (view (cn_dev s))
}.

Lemma echoed_nil s : echoed s s [].
Proof. split; [done| |done]. unfold sent_after. simpl. destruct (cn_uart s); by rewrite app_nil_r. Qed.

Lemma echoed_trans s1 s2 s3 l1 l2 : echoed s1 s2 l1 -> echoed s2 s3 l2 -> echoed s1 s3 (l1 ++ l2).
Proof.
  intros [U1 S1 P1] [U2 S2 P2]. split; [congruence| |congruence]. unfold sent_after in *.
  rewrite S2, S1, U1, fmap_app, concat_app. destruct (cn_uart s1); by rewrite <- ?app_assoc.
Qed.

(** Echo one character after a change of the input fields. *)
Lemma wp_echo c s s1 t (Q : () -> console D -> Prop) :
  term_rep s t -> cn_panicked s = false ->
  cn_dev s1 = cn_dev s -> cn_uart s1 = cn_uart s -> cn_crt s1 = cn_crt s -> cn_panicked s1 = cn_panicked s ->
  (forall s2, same_input s1 s2 -> echoed s s2 [c] -> term_rep s2 (term_put t c) -> Q () s2) ->
  wp (consputc c) s1 Q.
Proof.
  intros Ht Hp Ed Eu Ec Ep HQ. apply (wp_consputc c s1 t); [|congruence|].
  { destruct Ht. split; rewrite ?Ed, ?Ec; done. }
  intros s2 I2 S2 T2. apply HQ; [done| |done]. destruct I2 as (? & ? & ? & ? & ? & ? & ? & ? & ?).
  unfold sent_after in S2. rewrite Ed, Eu in S2. split; [congruence| |congruence]. unfold sent_after. simpl. by rewrite app_nil_r.
Qed.

Lemma wp_kill_line fuel s y t (Q : () -> console D -> Prop) :
  con_rep s y t -> (length (y_edit y) <= fuel)%nat ->
  (forall s', con_rep s' (mk_tty (y_ready y) []) (foldl term_put t (replicate (length (y_edit y)) BACKSPACE)) ->
     echoed s s' (replicate (length (y_edit y)) BACKSPACE) -> cn_wakes s' = cn_wakes s -> Q () s') ->
  wp (kill_line fuel) s Q.
Proof.
  revert s y t Q. induction fuel as [|fuel IH]; intros s y t Q Hrep Hf HQ; destruct Hrep as [Hi He Ht Hp]; simpl.
  all: wp_steps; rewrite (edit_empty s y Hi).
  all: destruct y as [ready edit]; cbn [y_ready y_edit] in *; destruct edit as [|c l _] using rev_ind.
  1,3: rewrite bool_decide_eq_true_2 by done; simpl in *; apply wp_ret, HQ; [done|apply echoed_nil|done].
  { rewrite length_app in Hf. simpl in Hf. lia. }
  rewrite bool_decide_eq_false_2 by (by destruct l). rewrite (last_typed s _ l c Hi eq_refl).
  replace (c =? 10) with false by (symmetry; apply Z.eqb_neq; set_solver). simpl. wp_steps.
  eapply (wp_echo BACKSPACE s _ t); [done..|]. intros s2 I2 E2 T2. rewrite length_app, Nat.add_comm in *. simpl in *.
  destruct I2 as (? & Hp2 & ? & ? & ? & ? & Hwk & ? & ?).
  eapply (IH s2 (mk_tty ready l) (term_put t BACKSPACE)); [|simpl; lia|].
  - split; [|set_solver|done|by rewrite Hp2]. eapply (input_rep_same (s <| cn_e := u32 (cn_e s - 1) |>)); [done|].
    by apply (untype_rep s (mk_tty ready (l ++ [c])) l c).
  - intros s3 R3 E3 W3. apply HQ; [done| |by rewrite W3, Hwk]. by apply (echoed_trans s s2 s3 [BACKSPACE]).
Qed.
(** The outcome of one key on the console. *)
Definition keyed (y : tty) (t : term) (c : Z) (s s' : console D) : Prop :=
  con_rep s' (fst (tty_key y c)) (foldl term_put t (snd (tty_key y c))) /\ echoed s s' (snd (tty_key y c))
  /\ ((cn_wakes s < cn_wakes s')%nat \/ y_ready (fst (tty_key y c)) = y_ready y).

Lemma wp_key_erase s y t c :
  con_rep s y t -> (c =? C_P) = false -> (c =? C_U) = false -> (c =? C_H) || (c =? 127) = true ->
  wp (consoleintr_char c) s (fun b s' => b = false /\ keyed y t c s s').
Proof.
  intros [Hi He Ht Hp] H1 H2 H3. unfold consoleintr_char, keyed, tty_key. rewrite H1, H2, H3. wp_steps.
  rewrite (edit_empty s y Hi). destruct y as [ready edit]. cbn [y_ready y_edit] in *.
  destruct edit as [|c' l _] using rev_ind.
  { rewrite bool_decide_eq_true_2 by done. simpl. apply wp_ret. split; [done|]. split; [done|]. split; [apply echoed_nil|by right]. }
  rewrite bool_decide_eq_false_2 by (by destruct l). cbn [negb when]. wp_steps.
  eapply (wp_echo BACKSPACE s _ t); [done..|]. intros s2 I2 E2 T2. wp_steps. split; [done|].
  assert (Hm : (match l ++ [c'] with [] => (mk_tty ready (l ++ [c']), [])
               | _ => (mk_tty ready (take (length (l ++ [c']) - 1) (l ++ [c'])), [BACKSPACE]) end) = (mk_tty ready l, [BACKSPACE])).
  { rewrite length_app. simpl. rewrite Nat.add_sub, take_app_length. by destruct l. }
  rewrite Hm. simpl. split; [|split; [done|by right]]. destruct I2 as (? & Hp2 & ? & ? & ? & ? & Hwk & ? & ?).
  split; [|set_solver|done|by rewrite Hp2]. eapply (input_rep_same (s <| cn_e := u32 (cn_e s - 1) |>)); [done|].
  by apply (untype_rep s (mk_tty ready (l ++ [c'])) l c').
Qed.

(** Whether the line is committed after [c] has been typed. *)
Lemma input_full s y : input_rep s y ->
  (cn_e s =? u32 (cn_r s + INPUT_BUF)) = (length (y_ready y ++ y_edit y) =? CAP)%nat.
Proof.
  intros [_ Hs Hr _ He _]. unfold CAP, INPUT_BUF in *. rewrite He.
  destruct (Nat.eqb_spec (length (y_ready y ++ y_edit y)) 128) as [->|Hne]; [apply Z.eqb_refl|].
  apply Z.eqb_neq. intros E. apply u32_inj_near in E; lia.
Qed.

Lemma wp_key_plain s y t c :
  con_rep s y t -> 0 <= c < 256 -> (c =? C_P) = false -> (c =? C_U) = false -> (c =? C_H) || (c =? 127) = false ->
  wp (consoleintr_char c) s (fun b s' => b = false /\ keyed y t c s s').
Proof.
  intros [Hi He Ht Hp] Hc H1 H2 H3. unfold consoleintr_char, keyed, tty_key. rewrite H1, H2, H3. wp_steps.
  rewrite (input_fill s y Hi). unfold INPUT_BUF at 1, CAP.
  replace (Z.of_nat (length (y_ready y ++ y_edit y)) <? 128) with (length (y_ready y ++ y_edit y) <? 128)%nat
    by (destruct (Nat.ltb_spec (length (y_ready y ++ y_edit y)) 128); lia).
  destruct (negb (c =? 0) && (length (y_ready y ++ y_edit y) <? 128)%nat) eqn:Eroom; cbn [when].
  2: { apply wp_ret. wp_steps. split; [done|]. split; [done|]. split; [apply echoed_nil|by right]. }
  apply andb_true_iff in Eroom as [_ Hroom%Nat.ltb_lt]. set (c' := if c =? 13 then 10 else c).
  assert (Hc' : 0 <= c' < 256) by (unfold c'; destruct (c =? 13); lia). rewrite (u8_small c') by done. wp_steps.
  pose proof (type_rep s y c' Hi Hroom) as Htyped. set (y1 := mk_tty (y_ready y) (y_edit y ++ [c'])) in *.
  eapply (wp_echo c' s _ t); [done..|]. intros s2 I2 E2 T2. pose proof (input_rep_same _ _ _ I2 Htyped) as Hi2.
  destruct I2 as (? & Hp2 & ? & ? & ? & ? & Hwk & ? & ?). simpl in Hwk, Hp2. rewrite Hp in Hp2. wp_steps.
  rewrite (input_full s2 y1 Hi2). unfold CAP. change (y_ready y1 ++ y_edit y1) with (y_ready y ++ (y_edit y ++ [c'])).
  destruct ((c' =? 10) || (c' =? C_D) || (length (y_ready y ++ (y_edit y ++ [c'])) =? 128)%nat) eqn:Ec; cbn [when].
  - wp_steps. cbn [fst snd foldl]. split; [done|]. split; [|split; [by destruct E2|left; simpl; lia]].
    split; [by apply (commit_rep s2 y1)|set_solver|by destruct T2|exact Hp2].
  - wp_steps. cbn [fst snd foldl]. split; [done|]. split; [|split; [done|by right]].
    split; [done| |done|exact Hp2]. apply orb_false_iff in Ec as [[Hn10 _]%orb_false_iff _].
    apply Z.eqb_neq in Hn10. set_solver.
Qed.

Lemma wp_consoleintr_char s y t c :
  con_rep s y t -> 0 <= c < 256 ->
  wp (consoleintr_char c) s (fun b s' => b = (c =? C_P) /\ keyed y t c s s').
Proof.
  intros Hrep Hc. destruct (c =? C_P) eqn:H1.
  { unfold consoleintr_char, keyed, tty_key. rewrite H1. apply wp_ret. simpl. split; [done|].
    split; [done|]. split; [apply echoed_nil|by right]. }
  destruct (c =? C_U) eqn:H2.
  { unfold consoleintr_char, keyed, tty_key. rewrite H1, H2. wp_steps. apply (wp_kill_line _ s y t); [done| |].
    - destruct Hrep as [[_ Hs _ _ _ _] _ _ _]. rewrite length_app in Hs. unfold CAP, INPUT_BUF in *. lia.
    - intros s' R' E' W'. apply wp_ret. simpl. split; [done|]. split; [done|]. split; [done|by right]. }
  destruct ((c =? C_H) || (c =? 127)) eqn:H3.
  - by apply wp_key_erase.
  - by apply wp_key_plain.
Qed.
(** ** The serial interrupt *)

Lemma con_rep_dev s y t d : con_rep s y t -> pv_reg (view d) = pv_reg (view (cn_dev s)) -> con_rep (s <| cn_dev := d |>) y t.
Proof.
  intros [[] He [] Hp] Hd. split; [by split|done| |done]. split; try done. unfold cursor in *. simpl. by rewrite Hd.
Qed.

Lemma wp_uartgetc s y t (Q : Z -> console D -> Prop) :
  con_rep s y t -> cn_uart s = true ->
  (forall s', con_rep s' y t -> cn_uart s' = true -> pv_sent (view (cn_dev s')) = pv_sent (view (cn_dev s)) ->
     match pv_pending (view (cn_dev s)) with
     | [] => pv_pending (view (cn_dev s')) = [] -> Q (-1) s'
     | c :: l => pv_pending (view (cn_dev s')) = l -> Q c s'
     end) ->
  wp uartgetc s Q.
Proof.
  intros Hrep Hu HQ. unfold uartgetc, on_dev. wp_steps. rewrite Hu. cbn [negb]. wp_steps. apply wp_inb.
  destruct (uart_lsr (cn_dev s)) as [-> Hv]. set (d := snd (p_inb (COM1 + 5) (cn_dev s))) in *.
  destruct (pv_pending (view (cn_dev s))) as [|c l] eqn:Epend; cbn [Z.eqb].
  - apply wp_ret. apply (HQ (s <| cn_dev := d |>)); simpl; rewrite ?Hv; try done. apply con_rep_dev; [done|by rewrite Hv].
  - wp_steps. apply wp_inb. destruct (uart_rx d c l) as [Hc Hr]; [by rewrite Hv|].
    change (cn_dev s <| cn_dev := d |>) with d. rewrite Hc.
    pose proof (HQ (s <| cn_dev := snd (p_inb (COM1 + 0) d) |>)) as HQ'. simpl in HQ'. rewrite Hr, Hv in HQ'. apply HQ'; try done.
    apply con_rep_dev; [done|by rewrite Hr, Hv].
Qed.

Lemma wp_uart_loop fuel s y t cs b (Q : bool -> console D -> Prop) :
  con_rep s y t -> cn_uart s = true -> pv_pending (view (cn_dev s)) = cs -> Forall (fun c => 0 <= c < 256) cs ->
  (length cs < fuel)%nat ->
  (forall s', con_rep s' (fst (tty_keys y cs)) (foldl term_put t (snd (tty_keys y cs))) -> cn_uart s' = true ->
     pv_pending (view (cn_dev s')) = [] ->
     pv_sent (view (cn_dev s')) = pv_sent (view (cn_dev s)) ++ concat (serial <$> snd (tty_keys y cs)) ->
     Q (b || existsb (Z.eqb C_P) cs) s') ->
  wp (consoleintr fuel uartgetc b) s Q.
Proof.
  revert s y t cs b Q. induction fuel as [|fuel IH]; intros s y t cs b Q Hrep Hu Hpend Hcs Hf HQ; [lia|]. simpl.
  apply wp_bind, (wp_uartgetc s y t); [done..|]. intros s1 R1 U1 S1. rewrite Hpend.
  destruct cs as [|c cs]; intros P1; cbv beta.
  - apply wp_ret. rewrite <- (orb_false_r b). apply HQ; [done..|]. simpl. by rewrite app_nil_r.
  - apply Forall_cons in Hcs as [Hc Hcs]. replace (c >=? 0) with true by lia. cbn [negb].
    apply wp_bind. eapply wp_conseq; [by apply (wp_consoleintr_char s1 y t)|]. intros d s2 [-> (R2 & E2 & _)].
    destruct E2 as [U2 S2 P2]. unfold sent_after in S2. rewrite U1, S1 in S2. simpl in Hf.
    eapply (IH s2 (fst (tty_key y c))); [exact R2|by rewrite U2|by rewrite P2|done|lia|].
    intros s3 R3 U3 P3 S3. rewrite <- orb_assoc, (Z.eqb_sym c). apply HQ; simpl in *; try done.
    all: destruct (tty_key y c) as [y1 e1]; simpl in *; destruct (tty_keys y1 cs) as [y2 e2]; simpl in *.
    + by rewrite foldl_app.
    + rewrite S3, S2, fmap_app, concat_app. by rewrite app_assoc.
Qed.

(** ** Reading *)

Lemma read_byte s y c l : input_rep s y -> y_ready y = c :: l ->
  buf_at s (cn_r s) = c /\ input_rep (s <| cn_r := u32 (cn_r s + 1) |>) (mk_tty l (y_edit y)).
Proof.
  intros [Hlen Hs Hr Hw He Hd] Hl. rewrite Hl in *. simpl in *. split.
  - unfold buf_at. apply nth_lookup_Some. rewrite <- (Hd 0%nat c eq_refl). do 3 f_equal. lia.
  - split; simpl; [done|lia|apply u32_range| | |].
    + rewrite Hw, u32_add_l. f_equal. lia.
    + rewrite He, u32_add_l. f_equal. lia.
    + intros i x Hi. rewrite <- (Hd (S i) x Hi). do 2 f_equal.
      rewrite Zplus_mod, input_index, <- Zplus_mod. f_equal. lia.
Qed.

(** Put the last byte back. *)
Lemma unread s : 0 <= cn_r s < 2 ^ 32 -> u32 (u32 (cn_r s + 1) - 1) = cn_r s.
Proof. intros. rewrite u32_sub_l. replace (cn_r s + 1 - 1) with (cn_r s) by lia. by apply u32_small. Qed.

Lemma wp_consoleread_loop (killed : bool) target n dst s y t (Q : creadout -> console D -> Prop) :
  con_rep s y t -> (n <= target)%nat ->
  (forall s', cn_dev s' = cn_dev s -> cn_uart s' = cn_uart s ->
     match tty_line (bool_decide (n = target)) n (y_ready y) with
     | Some (x, rest) => con_rep s' (mk_tty rest (y_edit y)) t -> Q (CRet (Z.of_nat (target - n + length x)) (dst ++ x)) s'
     | None => con_rep s' (mk_tty [] (y_edit y)) t ->
         Q (if killed then CRet (-1) (dst ++ y_ready y) else CSleep (n - length (y_ready y)) (dst ++ y_ready y)) s'
     end) ->
  wp (consoleread_loop killed target n dst) s Q.
Proof.
  revert dst s y Q. induction n as [|n IH]; intros dst s y Q Hrep Hn HQ; cbn [consoleread_loop tty_line] in *.
  { apply wp_ret. specialize (HQ s eq_refl eq_refl). simpl in HQ. rewrite app_nil_r, Nat.add_0_r, Nat.sub_0_r in HQ.
    apply HQ. by destruct y. }
  wp_steps. destruct Hrep as [Hi He Ht Hp]. rewrite (ready_empty s y Hi). destruct y as [ready edit]. cbn [y_ready y_edit] in *.
  destruct ready as [|c l].
  { rewrite bool_decide_eq_true_2 by done. apply wp_ret. specialize (HQ s eq_refl eq_refl). simpl in HQ.
    rewrite app_nil_r in HQ. by apply HQ. }
  rewrite bool_decide_eq_false_2 by done. destruct (read_byte s _ c l Hi eq_refl) as [Hc Hi1]. rewrite Hc. wp_steps.
  assert (R1 : con_rep (s <| cn_r := u32 (cn_r s + 1) |>) (mk_tty l edit) t) by (split; [done|done|by destruct Ht|done]).
  destruct (c =? C_D) eqn:Ecd.
  - wp_steps. destruct (Nat.ltb_spec (S n) target) as [Hlt|Hge]; cbn [when]; wp_steps.
    + rewrite bool_decide_eq_false_2 in HQ by lia.
      match goal with |- Q _ ?x => pose proof (HQ x eq_refl eq_refl) as HQ' end.
      simpl in HQ'. rewrite app_nil_r, Nat.add_0_r in HQ'. apply HQ'. rewrite unread by (by destruct Hi).
      split; [by destruct Hi|done|by destruct Ht|done].
    + rewrite bool_decide_eq_true_2 in HQ by lia.
      match goal with |- Q _ ?x => pose proof (HQ x eq_refl eq_refl) as HQ' end.
      simpl in HQ'. rewrite app_nil_r, Nat.add_0_r in HQ'. by apply HQ'.
  - destruct (c =? 10) eqn:E10.
    + apply wp_ret. cbv beta. match goal with |- Q _ ?x => pose proof (HQ x eq_refl eq_refl) as HQ' end. simpl in HQ'.
      replace (target - n)%nat with (target - S n + 1)%nat by lia. by apply HQ'.
    + apply (IH _ _ (mk_tty l edit)); [done|lia|]. intros s' Hdev Hua. rewrite bool_decide_eq_false_2 by lia.
      cbn [y_ready y_edit] in *. specialize (HQ s' Hdev Hua).
      destruct (tty_line false n l) as [[x rest]|]; cbn [mbind option_bind] in HQ; intros R'; specialize (HQ R').
      * rewrite <- app_assoc. cbn [length] in HQ. by replace (target - n + length x)%nat with (target - S n + S (length x))%nat by lia.
      * rewrite <- app_assoc. cbn [length] in HQ. done.
Qed.
End input.
