(* ===== verification/ConsoleDev.v ===== *)
(** The console device: [consolewrite] and [consoleread] on a locked inode, the
    theorems on output and input, and a concrete set of ports on which they
    run. *)

From S2P Require Import Prelude CString Layout Ulib Sleeplock BlockLayer Fs FsDir Ports Console ConsoleOut.

Class ConsoleLens (S D : Type) `{HasConsole S D} := {
  con_get_put c s : con_get (con_put c s) = c;
  con_put_get s : con_put (con_get s) s = s;
  con_put_put c c' s : con_put c (con_put c' s) = con_put c s
}.

(** An inode its caller has locked. *)
Definition locked_inode {S : Type} (s : fsst S) (ip : nat) : Prop :=
  exists i, fs_icache s !! ip = Some i /\ i_lock i = mk_sleeplock true (fs_pid s) /\ 1 <= i_ref i /\ i_valid i = true.

Section device.
Context {S D : Type} `{ConsolePorts D} `{!HasConsole S D} `{!ConsoleLens S D} `{!BlockOps S}.

Lemma inode_relock (i : inode) pid : i_lock i = mk_sleeplock true pid ->
  i <| i_lock := mk_sleeplock false 0 |> <| i_lock := mk_sleeplock true pid |> = i.
Proof. destruct i. simpl. by intros ->. Qed.

(** A device routine that runs between [iunlock] and [ilock] of its inode. *)
Lemma wp_unlocked {A B} (m : M (fsst S) A) (k : A -> M (fsst S) B) ip b sb ic pid cwd (Q : B -> fsst S -> Prop) :
  locked_inode (mk_fsst b sb ic pid cwd) ip ->
  (forall ic', wp m (mk_fsst b sb ic' pid cwd) (fun a s' => exists b', s' = mk_fsst b' sb ic' pid cwd /\
     wp (k a) (mk_fsst b' sb ic pid cwd) Q)) ->
  wp (iunlock ip;; a ← m; ilock ip;; k a) (mk_fsst b sb ic pid cwd) Q.
Proof.
  intros (i & Hi & Hl & Hr & Hv) Hm. cbn [fs_icache fs_pid] in *. apply wp_bind.
  eapply wp_iunlock; [done|by rewrite Hl|done|]. apply wp_bind. eapply wp_conseq; [apply Hm|].
  intros a s' (b' & -> & Hk). apply wp_bind.
  eapply wp_ilock_valid; [apply list_lookup_insert_eq; by eapply lookup_lt_Some|done|done|done|].
  by rewrite list_insert_insert_eq, inode_relock, list_insert_id.
Qed.

Lemma wp_on_cons {A} (m : M (console D) A) b sb ic pid cwd (Q : A -> fsst S -> Prop) :
  wp m (con_get b) (fun a c => Q a (mk_fsst (con_put c b) sb ic pid cwd)) ->
  wp (on_cons m) (mk_fsst b sb ic pid cwd) Q.
Proof. intros Hm. unfold on_cons, on_blk. apply wp_zoom. cbn [fs_blk]. apply wp_zoom. exact Hm. Qed.

(** How [consoleread] ends: with a line of the ready bytes, with -1 when the
    process is killed while it waits, or asleep. *)
Theorem consoleread_correct b sb ic pid cwd ip n y t :
  locked_inode (mk_fsst b sb ic pid cwd) ip -> con_rep (con_get b) y t ->
  let o := consoleread ip n (mk_fsst b sb ic pid cwd) in
  match tty_line true (Z.to_nat n) (y_ready y) with
  | Some (x, rest) => exists b', o = Ok (Z.of_nat (length x), x) (mk_fsst b' sb ic pid cwd)
      /\ con_rep (con_get b') (mk_tty rest (y_edit y)) t
  | None => exists b', con_rep (con_get b') (mk_tty [] (y_edit y)) t /\
      if con_killed b then o = Ok (-1, y_ready y) (mk_fsst b' sb ic pid cwd)
      else exists ic', o = Blocked (mk_fsst b' sb ic' pid cwd)
  end.
Proof.
  intros (i & Hi & Hl & Hr & Hv) Hrep o. cbn [fs_icache fs_pid] in *. unfold o. clear o.
  pattern (consoleread ip n (mk_fsst b sb ic pid cwd)). match goal with |- ?f _ => set (P := f) end. unfold consoleread.
  apply run_after.
  eapply wp_iunlock; [done|by rewrite Hl|done|]. set (ic1 := <[ip := _]> ic).
  apply run_after, wp_gets. cbn [fs_blk].
  apply run_after, wp_on_cons.
  apply (wp_consoleread_loop (con_killed b) _ _ [] (con_get b) y t); [done|lia|]. intros c Hd Hu.
  rewrite bool_decide_eq_true_2 by done. unfold P. clear P.
  assert (Hrelock : forall b' (r : Z) (l : list Z), (ilock ip;; mret (r, l)) (mk_fsst b' sb ic1 pid cwd) = Ok (r, l) (mk_fsst b' sb ic pid cwd)).
  { intros b' r l. enough (Hwp : wp (ilock ip;; mret (r, l)) (mk_fsst b' sb ic1 pid cwd) (fun a s' => a = (r, l) /\ s' = mk_fsst b' sb ic pid cwd)).
    { apply wp_elim in Hwp as (a & s' & -> & -> & ->). done. }
    apply wp_bind. eapply wp_ilock_valid; [apply list_lookup_insert_eq; by eapply lookup_lt_Some|done|done|done|].
    unfold ic1. by rewrite list_insert_insert_eq, inode_relock, list_insert_id. }
  destruct (tty_line true (Z.to_nat n) (y_ready y)) as [[x rest]|]; intros Hc; rewrite ?Nat.sub_diag; simpl.
  - exists (con_put c b). rewrite con_get_put, Hrelock. done.
  - exists (con_put c b). rewrite con_get_put. split; [done|]. destruct (con_killed b); [by rewrite Hrelock|by exists ic1].
Qed.

(** C29: Console output refines a page of unbounded length.  [consolewrite] of
    any bytes never panics: the cursor stays inside the first 24 rows, the
    screen shows the 24 rows of the page that end at the lowest row the cursor
    has reached, the serial line carries the same bytes, and input, the inode
    and its lock are as before.  The serial port loses what is written while
    its transmitter is busy; the law [uart_drains] of [ConsolePorts] says that
    it is ready again within the 128 polls of [uartputc], and without it bytes
    are lost ([uartputc_loses]). *)
Theorem console_output_refines b sb ic pid cwd ip buf n y t :
  locked_inode (mk_fsst b sb ic pid cwd) ip -> con_rep (con_get b) y t -> cn_uart (con_get b) = true ->
  Forall (fun c => 0 <= c < 256) buf ->
  wp (consolewrite ip buf n) (mk_fsst b sb ic pid cwd) (fun r s' =>
    r = n /\ exists c, s' = mk_fsst (con_put c b) sb ic pid cwd
    /\ con_rep c y (foldl term_put t (take (Z.to_nat n) buf))
    /\ pv_sent (view (cn_dev c)) = pv_sent (view (cn_dev (con_get b))) ++ take (Z.to_nat n) buf).
Proof.
  intros Hip Hrep Hu Hb. unfold consolewrite.
  set (cs := take (Z.to_nat n) buf). assert (Hcs : Forall (fun c => 0 <= c < 256) cs) by by apply Forall_take.
  assert (Hmask : forall l s, Forall (fun c => 0 <= c < 256) l -> forM l (fun c => consputc (Z.land c 255)) s = forM l consputc s :> outcome (console D) ()).
  { clear. induction l as [|c l IH]; intros s Hl; [done|]. apply Forall_cons in Hl as [Hc Hl]. simpl. unfold mbind, M_bind.
    change 255 with (Z.ones 8). rewrite Z.land_ones, Z.mod_small by lia. destruct (consputc c s); [|done..]. by apply IH. }
  eapply (wp_unlocked (on_cons _) (fun _ => mret n)); [done|]. intros ic'. apply wp_on_cons.
  unfold wp. rewrite Hmask by done. destruct Hrep as [Hi He Ht Hp]. apply (wp_put_all cs (con_get b) t); [done..|].
  intros c Hsame Hsent Hterm. eexists. split; [done|]. apply wp_ret. split; [done|]. exists c. split; [done|]. split.
  - split; [by eapply input_rep_same|done|done|by destruct Hsame as (_ & -> & _)].
  - unfold sent_after in Hsent. rewrite Hu in Hsent. rewrite Hsent. f_equal. clear -Hcs. induction Hcs as [|c l Hc _ IH]; [done|].
    change (serial c ++ concat (serial <$> l) = c :: l). rewrite IH. unfold serial, BACKSPACE. decide_cmp. by rewrite u8_small.
Qed.
End device.

Section line.
Context {D : Type} `{ConsolePorts D}.

(** C30: Console input refines a line-edited queue.  The serial interrupt takes
    every pending byte: editing keys rub out typed bytes and their echo, a line
    is committed by newline, end-of-file or a full buffer, and what does not
    fit is dropped, whatever the wrap-around of the 32-bit indices.  A reader
    then gets exactly the next line of the committed bytes, or sleeps with all
    of them taken. *)
Theorem console_input_refines fuel s y t :
  con_rep s y t -> cn_uart s = true -> Forall (fun c => 0 <= c < 256) (pv_pending (view (cn_dev s))) ->
  (length (pv_pending (view (cn_dev s))) < fuel)%nat ->
  let keys := pv_pending (view (cn_dev s)) in
  let '(y', echo) := tty_keys y keys in
  wp (uartintr fuel) s (fun dump s' =>
    dump = existsb (Z.eqb C_P) keys /\ con_rep s' y' (foldl term_put t echo)
    /\ pv_pending (view (cn_dev s')) = [] /\ pv_sent (view (cn_dev s')) = pv_sent (view (cn_dev s)) ++ concat (serial <$> echo)
    /\ forall (killed : bool) n, wp (consoleread_loop killed n n []) s' (fun o s'' =>
         match tty_line true n (y_ready y') with
         | Some (x, rest) => o = CRet (Z.of_nat (length x)) x /\ con_rep s'' (mk_tty rest (y_edit y')) (foldl term_put t echo)
         | None => o = (if killed then CRet (-1) (y_ready y') else CSleep (n - length (y_ready y')) (y_ready y'))
             /\ con_rep s'' (mk_tty [] (y_edit y')) (foldl term_put t echo)
         end)).
Proof.
  intros Hrep Hu Hb Hf keys. destruct (tty_keys y keys) as [y' echo] eqn:Ek.
  apply (wp_uart_loop fuel s y t keys); [done..|]. rewrite Ek. cbn [fst snd]. intros s' R' U' P' S'.
  repeat (split; [done|]). intros killed n. apply (wp_consoleread_loop killed n n [] s' y' _ _ R' ltac:(lia)).
  intros s'' _ _. rewrite bool_decide_eq_true_2, Nat.sub_diag by done.
  destruct (tty_line true n (y_ready y')) as [[x rest]|]; done.
Qed.
End line.

(** A typed line without editing keys is read back whole. *)
Theorem typed_line cs n :
  Forall (fun c => 32 <= c < 127) cs -> (length cs < 127)%nat -> (length cs < n)%nat ->
  tty_keys (mk_tty [] []) (cs ++ [13]) = (mk_tty (cs ++ [10]) [], cs ++ [10])
  /\ tty_line true n (cs ++ [10]) = Some (cs ++ [10], []).
Proof.
  intros Hcs Hl Hn. split.
  - assert (Hgen : forall l, (length l + length cs < 127)%nat ->
      tty_keys (mk_tty [] l) (cs ++ [13]) = (mk_tty (l ++ cs ++ [10]) [], cs ++ [10])); [|by apply (Hgen [])].
    clear Hl Hn. induction Hcs as [|c cs Hc _ IH]; intros l Hlen; simpl in *.
    + unfold tty_key. simpl. unfold CAP. by rewrite (proj2 (Nat.ltb_lt (length l) 128)) by lia.
    + assert (Hk : tty_key (mk_tty [] l) c = (mk_tty [] (l ++ [c]), [c])).
      { unfold tty_key, C_P, C_U, C_H, C_D, CAP. simpl. rewrite length_app. simpl. decide_cmp. simpl.
        rewrite (proj2 (Nat.ltb_lt (length l) 128)), (proj2 (Nat.eqb_neq (length l + 1) 128)) by lia. simpl. decide_cmp. done. }
      rewrite Hk, IH by (rewrite length_app; simpl; lia). rewrite <- app_assoc. done.
  - clear Hl. revert n Hn. generalize true. induction Hcs as [|c cs Hc _ IH]; intros b [|n] Hn; simpl in *; try lia; [done|].
    unfold C_D. decide_cmp. by rewrite IH by lia.
Qed.

(** ** Concrete ports *)

(** A serial port whose transmitter, with [n] polls of room for a byte, loses
    what is written while it is busy. *)
Record udev := mk_udev { ud_view : pview; ud_wait : nat }.

Definition udev_inb (port : Z) (d : udev) : Z * udev :=
  let v := ud_view d in
  if port =? CRTPORT + 1 then (pv_reg v (pv_sel v), d)
  else if port =? COM1 + 5 then
    (Z.lor (if ud_wait d then 32 else 0) (if pv_pending v then 0 else 1), mk_udev v (pred (ud_wait d)))
  else if port =? COM1 then
    match pv_pending v with c :: l => (c, mk_udev (v <| pv_pending := l |>) (ud_wait d)) | [] => (0, d) end
  else (0, d).

Definition udev_outb (n : nat) (port x : Z) (d : udev) : udev :=
  let v := ud_view d in
  if port =? CRTPORT then mk_udev (v <| pv_sel := x |>) (ud_wait d)
  else if port =? CRTPORT + 1 then mk_udev (v <| pv_reg := upd (pv_reg v) (pv_sel v) x |>) (ud_wait d)
  else if port =? COM1 then
    match ud_wait d with O => mk_udev (v <| pv_sent := pv_sent v ++ [x] |>) n | _ => d end
  else d.

(** Any state of such a port, with the wait cut down to the 100 polls its line
    needs for a byte. *)
Definition cap_wait (d : udev) : udev := mk_udev (ud_view d) (Nat.min 100 (ud_wait d)).

#[export] Instance udev_ports : PortOps udev := {|
  p_inb port d := udev_inb port (cap_wait d);
  p_outb port x d := udev_outb 100 port x (cap_wait d)
|}.

#[export, refine] Instance udev_laws : ConsolePorts udev := {| view := ud_view; tx_wait d := Nat.min 100 (ud_wait d) |}.
Proof.
  all: try done.
  - intros d. lia.
  - intros d v Hw. unfold p_outb, udev_ports, udev_outb. cbn [ud_wait cap_wait]. by rewrite Hw.
  - intros d. simpl. destruct d as [v [|w]]; simpl; by destruct (pv_pending v).
  - intros d. split; [|change (Nat.min 100 (pred (Nat.min 100 (ud_wait d))) = pred (Nat.min 100 (ud_wait d))); lia].
    destruct d as [v [|w]]; simpl; by destruct (pv_pending v).
  - intros [v w] c l Hp. simpl in Hp. unfold p_inb, udev_ports, udev_inb, cap_wait. simpl. by rewrite Hp.
Defined.

(** A machine with a console and no disk. *)
#[export] Instance console_self : HasConsole (console udev) udev := {|
  con_get := id; con_put c _ := c; con_killed _ := false
|}.
#[export] Instance console_self_lens : ConsoleLens (console udev) udev.
Proof. by split. Qed.
#[export] Instance no_disk : BlockOps (console udev) := {|
  bl_bread _ _ := panic "no disk"; bl_data _ := panic "no disk"; bl_set _ _ := panic "no disk";
  bl_log_write _ := panic "no disk"; bl_brelse _ := panic "no disk"
|}.

(** A console at rest whose input indices are about to wrap. *)
Definition demo_console (pending : list Z) : console udev :=
  mk_console (mk_udev (mk_pview 0 (fun _ => 0) [] pending) 0) true false (fun _ => 0) (replicate 128 0) 4294967294 4294967294 4294967294 0 0.
Definition demo_term : term := mk_term (fun _ => 0) 0 0.

Lemma demo_con_rep pending : con_rep (demo_console pending) (mk_tty [] []) demo_term.
Proof.
  split; [split; simpl; try done; unfold CAP; lia|set_solver|split; simpl; try done; lia|done].
Qed.

Definition demo_inode : inode := mk_inode 1 5 1 (mk_sleeplock true 7) true T_DEV 1 1 1 0 (replicate 13 0).
Definition demo_fs : fsst (console udev) :=
  mk_fsst (demo_console []) (mk_superblock 0 0 0 0 0 0 0) [demo_inode] 7 0%nat.

Lemma console_output_refines_witness :
  wp (consolewrite 0 [104; 105; 10] 3) demo_fs (fun r s' => r = 3 /\
    exists c, s' = mk_fsst c (fs_sb demo_fs) [demo_inode] 7 0%nat
    /\ con_rep c (mk_tty [] []) (foldl term_put demo_term [104; 105; 10])
    /\ pv_sent (view (cn_dev c)) = [104; 105; 10]).
Proof.
  eapply wp_conseq.
  - apply (console_output_refines (demo_console []) (fs_sb demo_fs) [demo_inode] 7 0%nat 0%nat [104; 105; 10] 3 (mk_tty [] []) demo_term).
    + by exists demo_inode.
    + apply demo_con_rep.
    + reflexivity.
    + repeat constructor; lia.
  - intros r s' (-> & c & -> & R & S). split; [done|]. exists c. split; [done|]. split; [done|]. exact S.
Defined.

(** On a line that needs longer than 128 polls for a byte, bytes are lost:
    [microdelay] is empty, so that the loop of [uartputc] gives up after the
    time of 128 port reads, whatever the speed of the line. *)
Lemma uartputc_loses :
  let slow := {| p_inb := udev_inb; p_outb := udev_outb 200 |} in
  match @forM _ _ [104; 105; 10] (@uartputc udev slow) (demo_console []) with
  | Ok _ c => pv_sent (ud_view (cn_dev c)) = [104; 10]
  | _ => False
  end.
Proof. vm_compute. reflexivity. Qed.

(** "ab", a backspace, "c" and a carriage return. *)
Lemma console_input_refines_witness :
  wp (uartintr 10) (demo_console [97; 98; 8; 99; 13]) (fun dump s' => dump = false /\
    con_rep s' (mk_tty [97; 99; 10] []) (foldl term_put demo_term [97; 98; BACKSPACE; 99; 10])
    /\ wp (consoleread_loop false 100 100 []) s' (fun o _ => o = CRet 3 [97; 99; 10])).
Proof.
  pose proof (console_input_refines 10 (demo_console [97; 98; 8; 99; 13]) (mk_tty [] []) demo_term (demo_con_rep _) eq_refl) as Hw.
  change (pv_pending (view (cn_dev (demo_console [97; 98; 8; 99; 13])))) with [97; 98; 8; 99; 13] in Hw. cbv zeta in Hw.
  assert (E : tty_keys (mk_tty [] []) [97; 98; 8; 99; 13] = (mk_tty [97; 99; 10] [], [97; 98; BACKSPACE; 99; 10])) by reflexivity.
  rewrite E in Hw. eapply wp_conseq.
  - apply Hw; [repeat constructor; lia|simpl; lia].
  - intros dump s' (-> & R & _ & _ & Hread). split; [done|]. split; [done|].
    eapply wp_conseq; [apply (Hread false 100%nat)|]. intros o s'' [-> _]. done.
Defined.
