(* ===== verification/Kbd.v ===== *)
(** The keyboard ([kbd.c], [kbd.h]): scan codes to characters. *)

From S2P Require Import Prelude Ports Console.

Definition KBSTATP : Z := 100.
Definition KBS_DIB : Z := 1.
Definition KBDATAP : Z := 96.

Definition SHIFT : Z := 1.
Definition CTL : Z := 2.
Definition ALT : Z := 4.
Definition CAPSLOCK : Z := 8.
Definition NUMLOCK : Z := 16.
Definition SCROLLLOCK : Z := 32.
Definition E0ESC : Z := 64.

(** A C array initialiser of 256 bytes: the leading elements, then the
    designated ones. *)
Definition table (first : list Z) (designated : list (Z * Z)) : list Z :=
  foldl (fun t '(i, v) => <[Z.to_nat i := u8 v]> t) (take 256 (first ++ replicate 256 0)) designated.

Definition shiftcode : list Z := Eval vm_compute in
  table [] [(29, CTL); (42, SHIFT); (54, SHIFT); (56, ALT); (157, CTL); (184, ALT)].

Definition togglecode : list Z := Eval vm_compute in
  table [] [(58, CAPSLOCK); (69, NUMLOCK); (70, SCROLLLOCK)].

(** Cursor and editing keys: KEY_UP, KEY_DN, KEY_PGUP, KEY_PGDN, KEY_LF,
    KEY_RT, KEY_HOME, KEY_END, KEY_INS, KEY_DEL. *)
Definition special : list (Z * Z) :=
  [(200, 226); (208, 227); (201, 230); (209, 231); (203, 228); (205, 229); (151, 224); (207, 225); (210, 232); (211, 233)].

Definition normalmap : list Z := Eval vm_compute in table
  [0;  27; 49; 50; 51; 52; 53; 54;
   55; 56; 57; 48; 45; 61; 8;  9;
   113; 119; 101; 114; 116; 121; 117; 105;
   111; 112; 91; 93; 10; 0; 97; 115;
   100; 102; 103; 104; 106; 107; 108; 59;
   39; 96; 0; 92; 122; 120; 99; 118;
   98; 110; 109; 44; 46; 47; 0; 42;
   0; 32; 0; 0; 0; 0; 0; 0;
   0; 0; 0; 0; 0; 0; 0; 55;
   56; 57; 45; 52; 53; 54; 43; 49;
   50; 51; 48; 46; 0; 0; 0; 0]
  ([(156, 10); (181, 47)] ++ special).

Definition shiftmap : list Z := Eval vm_compute in table
  [0; 27; 33; 64; 35; 36; 37; 94;
   38; 42; 40; 41; 95; 43; 8; 9;
   81; 87; 69; 82; 84; 89; 85; 73;
   79; 80; 123; 125; 10; 0; 65; 83;
   68; 70; 71; 72; 74; 75; 76; 58;
   34; 126; 0; 124; 90; 88; 67; 86;
   66; 78; 77; 60; 62; 63; 0; 42;
   0; 32; 0; 0; 0; 0; 0; 0;
   0; 0; 0; 0; 0; 0; 0; 55;
   56; 57; 45; 52; 53; 54; 43; 49;
   50; 51; 48; 46; 0; 0; 0; 0]
  ([(156, 10); (181, 47)] ++ special).

(** [C(x)] is [x - '@']; C('/') is negative and stored as a [uchar]. *)
Definition ctl (x : Z) : Z := u8 (x - 64).
Definition ctlmap : list Z := Eval vm_compute in table
  [0; 0; 0; 0; 0; 0; 0; 0;
   0; 0; 0; 0; 0; 0; 0; 0;
   ctl 81; ctl 87; ctl 69; ctl 82; ctl 84; ctl 89; ctl 85; ctl 73;
   ctl 79; ctl 80; 0; 0; 13; 0; ctl 65; ctl 83;
   ctl 68; ctl 70; ctl 71; ctl 72; ctl 74; ctl 75; ctl 76; 0;
   0; 0; 0; ctl 92; ctl 90; ctl 88; ctl 67; ctl 86;
   ctl 66; ctl 78; ctl 77; 0; 0; ctl 47; 0; 0]
  ([(156, 13); (181, 47 - 64)] ++ special).

Definition charcode : list (list Z) := [normalmap; shiftmap; ctlmap; ctlmap].

(** [kbdgetc] after it has read [data]: the new [shift] and the result. *)
Definition kbd_decode (shift data : Z) : Z * Z :=
  if data =? 224 then (Z.lor shift E0ESC, 0)
  else if negb (Z.land data 128 =? 0) then
    let data := if negb (Z.land shift E0ESC =? 0) then data else Z.land data 127 in
    (Z.land shift (Z.lnot (Z.lor (shiftcode !!! Z.to_nat data) E0ESC)), 0)
  else
    let '(shift, data) :=
      if negb (Z.land shift E0ESC =? 0) then (Z.land shift (Z.lnot E0ESC), Z.lor data 128) else (shift, data) in
    let shift := Z.lor shift (shiftcode !!! Z.to_nat data) in
    let shift := Z.lxor shift (togglecode !!! Z.to_nat data) in
    let c := (charcode !!! Z.to_nat (Z.land shift (Z.lor CTL SHIFT))) !!! Z.to_nat data in
    let c :=
      if negb (Z.land shift CAPSLOCK =? 0) then
        if (97 <=? c) && (c <=? 122) then c + (65 - 97)
        else if (65 <=? c) && (c <=? 90) then c + (97 - 65)
        else c
      else c in
    (shift, c).

Section kbd.
Context {D : Type} `{!PortOps D}.

Definition kbdgetc : M (console D) Z :=
  st ← on_dev (inb KBSTATP);
  if Z.land st KBS_DIB =? 0 then mret (-1) else
  data ← on_dev (inb KBDATAP);
  shift ← gets cn_shift;
  let '(shift, c) := kbd_decode shift data in
  modify (fun s => s <| cn_shift := shift |>);;
  mret c.

Definition kbdintr (fuel : nat) : M (console D) bool := consoleintr fuel kbdgetc false.
End kbd.

(** ** What the keys mean *)

Record mods := mk_mods { m_shift : bool; m_ctl : bool; m_alt : bool; m_caps : bool; m_num : bool; m_scroll : bool; m_e0 : bool }.

Definition flag (b : bool) (v : Z) : Z := if b then v else 0.
Definition mods_bits (m : mods) : Z :=
  flag (m_shift m) 1 + flag (m_ctl m) 2 + flag (m_alt m) 4 + flag (m_caps m) 8 + flag (m_num m) 16 + flag (m_scroll m) 32 + flag (m_e0 m) 64.

(** A key is a 7-bit code, plain or after an E0 prefix. *)
Inductive key := Std (code : Z) | Ext (code : Z).
Definition is_shift (k : key) : bool := match k with Std c => (c =? 42) || (c =? 54) | Ext _ => false end.
Definition is_ctl (k : key) : bool := match k with Std c | Ext c => c =? 29 end.
Definition is_alt (k : key) : bool := match k with Std c | Ext c => c =? 56 end.
Definition is_lock (c' : Z) (k : key) : bool := match k with Std c => c =? c' | Ext _ => false end.
Definition key_index (k : key) : nat := match k with Std c => Z.to_nat c | Ext c => Z.to_nat (128 + c) end.

Definition press (m : mods) (k : key) : mods :=
  mk_mods (m_shift m || is_shift k) (m_ctl m || is_ctl k) (m_alt m || is_alt k)
    (xorb (m_caps m) (is_lock 58 k)) (xorb (m_num m) (is_lock 69 k)) (xorb (m_scroll m) (is_lock 70 k)) false.
Definition key_up (m : mods) (k : key) : mods :=
  mk_mods (m_shift m && negb (is_shift k)) (m_ctl m && negb (is_ctl k)) (m_alt m && negb (is_alt k)) (m_caps m) (m_num m) (m_scroll m) false.

(** Letters are upper case when exactly one of shift and caps lock is on. *)
Definition key_char (m : mods) (k : key) : Z :=
  let c := normalmap !!! key_index k in
  if m_ctl m then ctlmap !!! key_index k
  else if (97 <=? c) && (c <=? 122) then (if xorb (m_shift m) (m_caps m) then c - 32 else c)
  else if m_shift m then shiftmap !!! key_index k else c.

(** One scan code: E0, a release (bit 7) or a press. *)
Definition kbd_spec (m : mods) (data : Z) : mods * Z :=
  if data =? 224 then (mk_mods (m_shift m) (m_ctl m) (m_alt m) (m_caps m) (m_num m) (m_scroll m) true, 0)
  else
    let k := (if m_e0 m then Ext else Std) (data mod 128) in
    if 128 <=? data then (key_up m k, 0)
    else (press m k, key_char (press m k) k).

Fixpoint kbd_run (shift : Z) (codes : list Z) : Z * list Z :=
  match codes with
  | [] => (shift, [])
  | d :: codes =>
      let '(shift, c) := kbd_decode shift d in
      let '(shift, cs) := kbd_run shift codes in
      (shift, c :: cs)
  end.
Fixpoint kbd_spec_run (m : mods) (codes : list Z) : mods * list Z :=
  match codes with
  | [] => (m, [])
  | d :: codes =>
      let '(m, c) := kbd_spec m d in
      let '(m, cs) := kbd_spec_run m codes in
      (m, c :: cs)
  end.

Definition pair_eqb (a b : Z * Z) : bool := (fst a =? fst b) && (snd a =? snd b).
Definition decode_agrees (m : mods) (data : Z) : bool :=
  let '(m', c) := kbd_spec m data in pair_eqb (kbd_decode (mods_bits m) data) (mods_bits m', c) && (0 <=? c) && (c <? 256).

Lemma decode_table m : forallb (decode_agrees m) (seqZ 0 256) = true.
Proof. destruct m as [[] [] [] [] [] [] []]; vm_compute; reflexivity. Qed.

Lemma kbd_decode_spec m data : 0 <= data < 256 ->
  kbd_decode (mods_bits m) data = (mods_bits (fst (kbd_spec m data)), snd (kbd_spec m data)) /\ 0 <= snd (kbd_spec m data) < 256.
Proof.
  intros Hd. pose proof (decode_table m) as Ht. rewrite forallb_forall in Ht.
  specialize (Ht data ltac:(apply list_elem_of_In, elem_of_seqZ; lia)). unfold decode_agrees in Ht.
  destruct (kbd_spec m data) as [m' c]. simpl. apply andb_true_iff in Ht as [[Hp H0]%andb_true_iff H1].
  unfold pair_eqb in Hp. apply andb_true_iff in Hp as [E1%Z.eqb_eq E2%Z.eqb_eq]. simpl in *.
  split; [|lia]. destruct (kbd_decode (mods_bits m) data). simpl in *. by subst.
Qed.

(** C31: Whatever scan codes arrive, the keyboard decoder tracks the modifier
    keys and locks: [shift] is always the set of the seven flags, letters are
    upper case when exactly one of shift and caps lock is on, E0-prefixed keys
    are told apart from plain ones, and every result is a byte, so no table is
    read out of range. *)
Theorem kbd_decode_equiv m codes :
  Forall (fun d => 0 <= d < 256) codes ->
  kbd_run (mods_bits m) codes = (mods_bits (fst (kbd_spec_run m codes)), snd (kbd_spec_run m codes))
  /\ Forall (fun c => 0 <= c < 256) (snd (kbd_spec_run m codes)).
Proof.
  intros Hc. revert m. induction Hc as [|d codes Hd _ IH]; intros m; [by split|]. simpl.
  destruct (kbd_decode_spec m d Hd) as [-> Hb]. destruct (kbd_spec m d) as [m1 c]. cbn [fst snd] in *.
  destruct (IH m1) as [-> Hf]. destruct (kbd_spec_run m1 codes) as [m2 cs]. simpl in *. split; [done|]. by constructor.
Qed.

(** Caps lock, 'a', shift, 'a', release of shift, control-'c'. *)
Lemma kbd_decode_equiv_witness :
  snd (kbd_run 0 [58; 30; 42; 30; 170; 29; 46]) = [0; 65; 0; 97; 0; 0; 3].
Proof.
  assert (E := proj1 (kbd_decode_equiv (mk_mods false false false false false false false) [58; 30; 42; 30; 170; 29; 46] ltac:(repeat constructor; lia))).
  change (mods_bits (mk_mods false false false false false false false)) with 0 in E. rewrite E. reflexivity.
Defined.
