(* ===== verification/Ide.v ===== *)
(** The IDE disk driver ([ide.c]): the queue of buffers and the task file of
    the controller.

    A [struct buf *] is the index of a buffer; [idequeue] and [qnext] are the
    linked list as the code keeps it.  [idelock] sections are atomic: [iderw]
    is its run up to the point where it waits, [iderw_done] the test it repeats
    when it is woken, and [ideintr] the interrupt handler.  The second part
    compares the driver with a first-in first-out queue of requests, on a drive
    that may report errors. *)

From S2P Require Import Prelude Ports.

(** [insl(port, addr, cnt)] and [outsl(port, addr, cnt)], as bytes. *)
Class PortStrOps (D : Type) := {
  p_insl : Z -> nat -> D -> list Z * D;
  p_outsl : Z -> list Z -> D -> D
}.

Definition IDE_BSY : Z := 128.
Definition IDE_DRDY : Z := 64.
Definition IDE_DF : Z := 32.
Definition IDE_ERR : Z := 1.
Definition IDE_CMD_READ : Z := 32.
Definition IDE_CMD_WRITE : Z := 48.
Definition IDE_CMD_RDMUL : Z := 196.
Definition IDE_CMD_WRMUL : Z := 197.
Definition SECTOR_SIZE : Z := 512.
Definition BSIZE : Z := 512.
Definition FSSIZE : Z := 1000.
Definition IRQ_IDE : Z := 14.
Definition B_VALID : Z := 2.
Definition B_DIRTY : Z := 4.

Record ibuf := mk_ibuf {
  ib_flags : Z; ib_dev : Z; ib_blockno : Z; ib_locked : bool; ib_qnext : option nat; ib_data : list Z
}.
#[export] Instance eta_ibuf : Settable ibuf := fun b =>
  mk_ibuf (ib_flags b) (ib_dev b) (ib_blockno b) (ib_locked b) (ib_qnext b) (ib_data b).
#[export] Instance ibuf_inhabited : Inhabited ibuf := populate (mk_ibuf 0 0 0 false None []).

Record ide (D : Type) := mk_ide {
  id_dev : D;
  id_bufs : list ibuf;
  idequeue : option nat;
  havedisk1 : bool;
  id_woken : list nat          (* wakeup(b) of the handlers so far *)
}.
Arguments mk_ide {D} _ _ _ _ _.
Arguments id_dev {D} _.
Arguments id_bufs {D} _.
Arguments idequeue {D} _.
Arguments havedisk1 {D} _.
Arguments id_woken {D} _.
#[export] Instance eta_ide (D : Type) : Settable (ide D) := fun s =>
  mk_ide (id_dev s) (id_bufs s) (idequeue s) (havedisk1 s) (id_woken s).

Section ide.
Context {D : Type} `{!PortOps D} `{!PortStrOps D}.

Definition on_port {A : Type} (m : M D A) : M (ide D) A := zoom id_dev (fun d s => s <| id_dev := d |>) m.
Definition insl (port : Z) (cnt : nat) : M D (list Z) := fun d => let '(l, d') := p_insl port cnt d in Ok l d'.
Definition outsl (port : Z) (l : list Z) : M D () := modify (p_outsl port l).

Definition getb {A : Type} (b : nat) (f : ibuf -> A) : M (ide D) A := gets (fun s => f (id_bufs s !!! b)).
Definition setb (b : nat) (f : ibuf -> ibuf) : M (ide D) () :=
  modify (fun s => s <| id_bufs := <[b := f (id_bufs s !!! b)]> (id_bufs s) |>).

(** [while(((r = inb(0x1f7)) & (IDE_BSY|IDE_DRDY)) != IDE_DRDY)], polling at
    most [fuel] times. *)
Fixpoint idewait (fuel : nat) (checkerr : bool) : M D Z :=
  match fuel with
  | O => block
  | S fuel =>
      r ← inb 503;
      if Z.land r (Z.lor IDE_BSY IDE_DRDY) =? IDE_DRDY then
        mret (if checkerr && negb (Z.land r (Z.lor IDE_DF IDE_ERR) =? 0) then -1 else 0)
      else idewait fuel checkerr
  end.

(** [for(i=0; i<1000; i++) if(inb(0x1f7) != 0)] *)
Fixpoint probe_disk1 (k : nat) : M D bool :=
  match k with
  | O => mret false
  | S k => r ← inb 503; if negb (r =? 0) then mret true else probe_disk1 k
  end.

Definition ideinit (fuel : nat) (ioapicenable : Z -> Z -> M (ide D) ()) (ncpu : Z) : M (ide D) () :=
  ioapicenable IRQ_IDE (ncpu - 1);;
  on_port (idewait fuel false);;
  on_port (outb 502 (Z.lor 224 (Z.shiftl 1 4)));;
  found ← on_port (probe_disk1 1000);
  when found (modify (fun s => s <| havedisk1 := true |>));;
  on_port (outb 502 (Z.lor 224 (Z.shiftl 0 4))).

Definition idestart (fuel : nat) (b : option nat) : M (ide D) () :=
  match b with
  | None => panic "idestart"
  | Some b =>
      buf ← getb b (fun x => x);
      if FSSIZE <=? ib_blockno buf then panic "incorrect blockno" else
      let sector_per_block := BSIZE / SECTOR_SIZE in
      let sector := ib_blockno buf * sector_per_block in
      let read_cmd := if sector_per_block =? 1 then IDE_CMD_READ else IDE_CMD_RDMUL in
      let write_cmd := if sector_per_block =? 1 then IDE_CMD_WRITE else IDE_CMD_WRMUL in
      if sector_per_block >? 7 then panic "idestart" else
      on_port (idewait fuel false);;
      on_port (outb 1014 0);;
      on_port (outb 498 sector_per_block);;
      on_port (outb 499 (Z.land sector 255));;
      on_port (outb 500 (Z.land (Z.shiftr sector 8) 255));;
      on_port (outb 501 (Z.land (Z.shiftr sector 16) 255));;
      on_port (outb 502 (Z.lor (Z.lor 224 (Z.shiftl (Z.land (ib_dev buf) 1) 4)) (Z.land (Z.shiftr sector 24) 15)));;
      if negb (Z.land (ib_flags buf) B_DIRTY =? 0) then
        on_port (outb 503 write_cmd);;
        on_port (outsl 496 (ib_data buf))
      else on_port (outb 503 read_cmd)
  end.

Definition ideintr (fuel : nat) : M (ide D) () :=
  q ← gets idequeue;
  match q with
  | None => mret ()
  | Some b =>
      next ← getb b ib_qnext;
      modify (fun s => s <| idequeue := next |>);;
      fl ← getb b ib_flags;
      (if Z.land fl B_DIRTY =? 0 then
         r ← on_port (idewait fuel true);
         when (r >=? 0) (data ← on_port (insl 496 (Z.to_nat (BSIZE / 4))); setb b (fun x => x <| ib_data := data |>))
       else mret ());;
      setb b (fun x => x <| ib_flags := Z.lor (ib_flags x) B_VALID |>);;
      setb b (fun x => x <| ib_flags := Z.land (ib_flags x) (Z.lnot B_DIRTY) |>);;
      modify (fun s => s <| id_woken := id_woken s ++ [b] |>);;
      q ← gets idequeue;
      match q with
      | None => mret ()
      | Some _ => idestart fuel q
      end
  end.




End ide.

(** * The disk driver against a first-in first-out queue of requests. *)

(** ** The controller *)

Inductive command :=
| CIdle
| CRead (dev sec : Z)
| CAwait (dev sec : Z)                 (* a write that waits for its data *)
| CWrite (dev sec : Z) (data : list Z)
| CReady (data : list Z)               (* a sector that can be read from the data port *)
| CFailed.                             (* the last command ended with an error *)

Record iview := mk_iview { v_disk : Z -> Z -> list Z; v_reg : Z -> Z; v_cmd : command }.
#[export] Instance eta_iview : Settable iview := fun v => mk_iview (v_disk v) (v_reg v) (v_cmd v).

(** The drive and the sector that the task file selects. *)
Definition reg_dev (r : Z -> Z) : Z := r 502 / 16 mod 2.
Definition reg_sec (r : Z -> Z) : Z := r 499 + 256 * r 500 + 65536 * r 501 + 16777216 * (r 502 mod 16).

Definition disk_write (disk : Z -> Z -> list Z) (dev sec : Z) (data : list Z) : Z -> Z -> list Z :=
  fun d k => if (d =? dev) && (k =? sec) then data else disk d k.

(** The drive has no command to execute. *)
Definition quiet (c : command) : Prop := c = CIdle \/ c = CFailed.
Definition failed (v : iview) : bool := match v_cmd v with CFailed => true | _ => false end.

(** The status register has valid error bits once the drive is not busy: they
    are set when the last command failed, until the next one is issued.  The
    data port delivers a sector after a read that succeeded only, and a write
    that failed leaves the sector with any contents. *)
Class IdePorts (D : Type) `{PortOps D} `{PortStrOps D} := {
  iv : D -> iview;
  polls : D -> nat;                    (* how long the drive stays busy *)
  PATIENCE : nat;
  polls_bound d : (polls d < PATIENCE)%nat;
  ide_status d : iv (snd (p_inb 503 d)) = iv d
    /\ match polls d with
       | O => Z.land (fst (p_inb 503 d)) (Z.lor IDE_BSY IDE_DRDY) = IDE_DRDY
              /\ (Z.land (fst (p_inb 503 d)) (Z.lor IDE_DF IDE_ERR) =? 0) = negb (failed (iv d))
       | S k => Z.land (fst (p_inb 503 d)) (Z.lor IDE_BSY IDE_DRDY) <> IDE_DRDY
              /\ polls (snd (p_inb 503 d)) = k
       end;
  ide_control d v : iv (p_outb 1014 v d) = iv d;
  ide_register d p v : 498 <= p <= 502 -> iv (p_outb p v d) = (iv d) <| v_reg := upd (v_reg (iv d)) p v |>;
  ide_read d : quiet (v_cmd (iv d)) -> v_reg (iv d) 498 = 1 ->
    iv (p_outb 503 IDE_CMD_READ d) = (iv d) <| v_cmd := CRead (reg_dev (v_reg (iv d))) (reg_sec (v_reg (iv d))) |>;
  ide_write d : quiet (v_cmd (iv d)) -> v_reg (iv d) 498 = 1 ->
    iv (p_outb 503 IDE_CMD_WRITE d) = (iv d) <| v_cmd := CAwait (reg_dev (v_reg (iv d))) (reg_sec (v_reg (iv d))) |>;
  ide_data d dev sec l : v_cmd (iv d) = CAwait dev sec -> length l = 512%nat ->
    iv (p_outsl 496 l d) = (iv d) <| v_cmd := CWrite dev sec l |>;
  ide_fetch d data : v_cmd (iv d) = CReady data ->
    fst (p_insl 496 128 d) = data /\ iv (snd (p_insl 496 128 d)) = (iv d) <| v_cmd := CIdle |>;
  (* the controller finishes its command and raises the interrupt *)
  finishes : D -> D -> Prop;
  finish_read d d' dev sec : finishes d d' -> v_cmd (iv d) = CRead dev sec ->
    iv d' = (iv d) <| v_cmd := if failed (iv d') then CFailed else CReady (v_disk (iv d) dev sec) |>;
  finish_write d d' dev sec data : finishes d d' -> v_cmd (iv d) = CWrite dev sec data ->
    if failed (iv d')
    then exists x, iv d' = (iv d) <| v_cmd := CFailed |> <| v_disk := disk_write (v_disk (iv d)) dev sec x |>
    else iv d' = (iv d) <| v_cmd := CIdle |> <| v_disk := disk_write (v_disk (iv d)) dev sec data |>;
  finish_active d d' : finishes d d' ->
    match v_cmd (iv d) with CRead _ _ | CWrite _ _ _ => True | _ => False end
}.

(** ** Requests *)

Definition dirty (x : ibuf) : bool := negb (Z.land (ib_flags x) B_DIRTY =? 0).


Definition request (x : ibuf) : command :=
  if dirty x then CWrite (ib_dev x) (ib_blockno x) (ib_data x) else CRead (ib_dev x) (ib_blockno x).

Definition done_flags (fl : Z) : Z := Z.land (Z.lor fl B_VALID) (Z.lnot B_DIRTY).





(** ** The queue *)

(** [chain bufs h q]: following [qnext] from [h] gives the buffers [q]. *)
Fixpoint chain (bufs : list ibuf) (h : option nat) (q : list nat) : Prop :=
  match q with
  | [] => h = None
  | b :: q => h = Some b /\ exists x, bufs !! b = Some x /\ chain bufs (ib_qnext x) q
  end.


(** Changing anything but [qnext] of a buffer keeps the chain. *)
Lemma chain_update bufs h q b x x' :
  bufs !! b = Some x -> ib_qnext x' = ib_qnext x -> chain bufs h q -> chain (<[b := x']> bufs) h q.
Proof.
  intros Hb Hn. revert h. induction q as [|c q IH]; intros h Hc; [done|]. destruct Hc as (-> & y & Hy & Hc). split; [done|].
  destruct (decide (c = b)) as [->|Hne].
  - exists x'. rewrite list_lookup_insert_eq by (by eapply lookup_lt_Some). split; [done|]. rewrite Hn.
    simplify_eq. by apply IH.
  - exists y. rewrite list_lookup_insert_ne by done. split; [done|]. by apply IH.
Qed.



Section driver.
Context {D : Type} `{IdePorts D}.


(** ** Starting a request *)




(** ** The driver and the queue it stands for *)



Lemma request_link x n : request (x <| ib_qnext := n |>) = request x.
Proof. done. Qed.




(** ** The interrupt *)




(** ** Any interleaving of requests and interrupts *)












End driver.

(** ** A controller *)

#[export] Instance iview_ports : PortOps iview := {|
  p_inb port v := (if port =? 503 then (if failed v then 65 else 64) else 0, v);
  p_outb port x v :=
    if (498 <=? port) && (port <=? 502) then v <| v_reg := upd (v_reg v) port x |>
    else if port =? 503 then
      if x =? IDE_CMD_READ then v <| v_cmd := CRead (reg_dev (v_reg v)) (reg_sec (v_reg v)) |>
      else if x =? IDE_CMD_WRITE then v <| v_cmd := CAwait (reg_dev (v_reg v)) (reg_sec (v_reg v)) |>
      else v
    else v
|}.
#[export] Instance iview_str : PortStrOps iview := {|
  p_insl _ _ v := match v_cmd v with CReady data => (data, v <| v_cmd := CIdle |>) | _ => ([], v) end;
  p_outsl _ l v := match v_cmd v with CAwait dev sec => v <| v_cmd := CWrite dev sec l |> | _ => v end
|}.
(** Sectors from 900 on are bad. *)
Definition iview_finish (v v' : iview) : Prop :=
  match v_cmd v with
  | CRead dev sec => v' = v <| v_cmd := if 900 <=? sec then CFailed else CReady (v_disk v dev sec) |>
  | CWrite dev sec data =>
      v' = if 900 <=? sec then v <| v_cmd := CFailed |> <| v_disk := disk_write (v_disk v) dev sec [] |>
           else v <| v_cmd := CIdle |> <| v_disk := disk_write (v_disk v) dev sec data |>
  | _ => False
  end.
#[export, refine] Instance iview_laws : IdePorts iview := {| iv := id; polls _ := O; PATIENCE := 1; finishes := iview_finish |}.
Proof.
  all: unfold id, iview_finish; simpl.
  - intros _. lia.
  - intros d. split; [done|]. by destruct (failed d).
  - done.
  - intros d p v Hp. by decide_cmp.
  - done.
  - done.
  - intros d dev sec l Hc _. by rewrite Hc.
  - intros d data Hc. by rewrite Hc.
  - intros d d' dev sec Hf Hc. rewrite Hc in Hf. subst d'. by destruct (900 <=? sec).
  - intros d d' dev sec data Hf Hc. rewrite Hc in Hf. subst d'. destruct (900 <=? sec); [by exists []|done].
  - intros d d' Hf. by destruct (v_cmd d).
Defined.




(** ** A failing drive *)

(** When the status port reports an error the handler leaves the data of the
    buffer as it was and still marks it valid. *)
Section fault.
Context {D : Type} `{!PortOps D} `{!PortStrOps D}.

Theorem ideintr_ignores_errors s b x d fuel :
  idequeue s = Some b -> id_bufs s !! b = Some x -> ib_qnext x = None -> dirty x = false ->
  idewait (D := D) fuel true (id_dev s) = Ok (-1) d ->
  wp (ideintr fuel) s (fun _ s' => id_bufs s' !! b = Some (x <| ib_flags := done_flags (ib_flags x) |>)).
Proof.
  intros Hq Hx Hn Hd Hw. unfold ideintr, getb, setb, dirty in *. apply negb_false_iff in Hd. wp_steps. rewrite Hq. wp_steps. simpl.
  rewrite (list_lookup_total_correct _ _ _ Hx), Hd, Hn. unfold on_port. wp_steps. simpl. unfold wp at 1. rewrite Hw. simpl.
  wp_steps. simpl. assert (Hlt : (b < length (id_bufs s))%nat) by (by eapply lookup_lt_Some). unfold when. apply wp_ret. wp_steps. simpl.
  rewrite (list_lookup_total_correct _ _ _ Hx), list_insert_insert_eq, list_lookup_total_insert_eq by done.
  apply wp_ret. simpl. by rewrite list_lookup_insert_eq.
Qed.
End fault.
