(* ===== verification/Mp.v ===== *)
(** Finding the processors ([mp.c], [mp.h]): the search for the multiprocessor
    tables the BIOS leaves in memory, and the walk over their entries.

    The tables are read from the byte memory of [CString.v] at the offsets the
    structs of mp.h give their fields.  [cpus[0..ncpu)] is the list [m_cpus] of
    [Spinlock.v]. *)

From S2P Require Import Prelude CString Spinlock Kalloc Ports.

Definition NCPU : nat := 8.
Definition MP_SIZE : Z := 16.
Definition MPCONF_SIZE : Z := 44.
Definition MPPROC_SIZE : Z := 20.
Definition MPIOAPIC_SIZE : Z := 8.
Definition MPPROC : Z := 0.
Definition MPBUS : Z := 1.
Definition MPIOAPIC : Z := 2.
Definition MPIOINTR : Z := 3.
Definition MPLINTR : Z := 4.

(** ["_MP_"] and ["PCMP"] *)
Definition mp_signature : list Z := [95; 77; 80; 95].
Definition conf_signature : list Z := [80; 67; 77; 80].

Definition load16 (m : mem) (a : Z) : Z := load m a + 256 * load m (a + 1).

Definition mp_physaddr (m : mem) (mp : Z) : Z := load32 m (mp + 4).
Definition mp_imcrp (m : mem) (mp : Z) : Z := load m (mp + 12).
Definition conf_length (m : mem) (conf : Z) : Z := load16 m (conf + 4).
Definition conf_version (m : mem) (conf : Z) : Z := load m (conf + 6).
Definition conf_lapicaddr (m : mem) (conf : Z) : Z := load32 m (conf + 36).

Fixpoint sum_loop (m : mem) (addr : Z) (len : nat) (acc : Z) : Z :=
  match len with
  | O => acc
  | S len => sum_loop m (addr + 1) len (acc + load m addr)
  end.
Definition sum (m : mem) (addr len : Z) : Z := u8 (sum_loop m addr (Z.to_nat len) 0).

(** The pointer to the structure, or 0. *)
Fixpoint mpsearch1_loop (fuel : nat) (m : mem) (p e : Z) : Z :=
  match fuel with
  | O => 0
  | S fuel =>
      if p <? e then
        if (memcmp (view_at m p) (view_of mp_signature) 4 =? 0) && (sum m p MP_SIZE =? 0) then p
        else mpsearch1_loop fuel m (u32 (p + MP_SIZE)) e
      else 0
  end.
Definition mpsearch1 (m : mem) (a len : Z) : Z :=
  let addr := P2V a in
  let e := u32 (addr + len) in
  mpsearch1_loop (Z.to_nat (len / MP_SIZE) + 1) m addr e.

Definition mpsearch (m : mem) : Z :=
  let bda := P2V 1024 in
  let p := Z.shiftl (Z.lor (Z.shiftl (load m (bda + 15)) 8) (load m (bda + 14))) 4 in
  let mp :=
    if negb (p =? 0) then mpsearch1 m p 1024
    else
      let p := Z.lor (Z.shiftl (load m (bda + 20)) 8) (load m (bda + 19)) * 1024 in
      mpsearch1 m (u32 (p - 1024)) 1024 in
  if negb (mp =? 0) then mp else mpsearch1 m 983040 65536.

(** [*pmp] and the table. *)
Definition mpconfig (m : mem) : option (Z * Z) :=
  let mp := mpsearch m in
  if (mp =? 0) || (mp_physaddr m mp =? 0) then None else
  let conf := P2V (mp_physaddr m mp) in
  if negb (memcmp (view_at m conf) (view_of conf_signature) 4 =? 0) then None else
  if negb (conf_version m conf =? 1) && negb (conf_version m conf =? 4) then None else
  if negb (sum m conf (conf_length m conf) =? 0) then None else
  Some (mp, conf).

(** The globals [mpinit] sets. *)
Record mpst (D : Type) := mk_mpst { mp_mem : mem; mp_mach : mach; mp_ioapicid : Z; mp_lapic : Z; mp_dev : D }.
Arguments mk_mpst {D} _ _ _ _ _.
Arguments mp_mem {D} _.
Arguments mp_mach {D} _.
Arguments mp_ioapicid {D} _.
Arguments mp_lapic {D} _.
Arguments mp_dev {D} _.
#[export] Instance eta_mpst (D : Type) : Settable (mpst D) := fun s =>
  mk_mpst (mp_mem s) (mp_mach s) (mp_ioapicid s) (mp_lapic s) (mp_dev s).

Section mp.
Context {D : Type} `{!PortOps D}.

Definition on_mp_dev {A : Type} (m : M D A) : M (mpst D) A := zoom mp_dev (fun d s => s <| mp_dev := d |>) m.
Definition add_cpu (apicid : Z) : M (mpst D) () :=
  modify (fun s => s <| mp_mach := (mp_mach s) <| m_cpus := m_cpus (mp_mach s) ++ [mk_cpu apicid 0 false] |> |>).

(** The loop over the entries from [p] to [e]; the result is [ismp].  The
    [break] of the default case leaves the [switch], not the loop, and [p]
    stays where it is. *)
Fixpoint mp_entries (fuel : nat) (p e : Z) (ismp : bool) : M (mpst D) bool :=
  match fuel with
  | O => block
  | S fuel =>
      if negb (p <? e) then mret ismp else
      m ← gets mp_mem;
      let ty := load m p in
      if ty =? MPPROC then
        ncpu ← gets (fun s => length (m_cpus (mp_mach s)));
        when (bool_decide (ncpu < NCPU)%nat) (add_cpu (load m (p + 1)));;
        mp_entries fuel (u32 (p + MPPROC_SIZE)) e ismp
      else if ty =? MPIOAPIC then
        modify (fun s => s <| mp_ioapicid := load m (p + 1) |>);;
        mp_entries fuel (u32 (p + MPIOAPIC_SIZE)) e ismp
      else if (ty =? MPBUS) || (ty =? MPIOINTR) || (ty =? MPLINTR) then
        mp_entries fuel (u32 (p + 8)) e ismp
      else mp_entries fuel p e false
  end.

(** [conf->length] is below 65536 and an entry has at least 8 bytes: [fuel] of
    8192 is enough for a table without unknown entries. *)
Definition mpinit (fuel : nat) : M (mpst D) () :=
  m ← gets mp_mem;
  match mpconfig m with
  | None => panic "Expect to run on an SMP"
  | Some (mp, conf) =>
      modify (fun s => s <| mp_lapic := conf_lapicaddr m conf |>);;
      ismp ← mp_entries fuel (u32 (conf + MPCONF_SIZE)) (u32 (conf + conf_length m conf)) true;
      if negb ismp then panic "Didn't find a suitable machine" else
      when (negb (mp_imcrp m mp =? 0))
        (on_mp_dev (outb 34 112);; v ← on_mp_dev (inb 35); on_mp_dev (outb 35 (Z.lor v 1)))
  end.
End mp.

(** ** The search *)

(** The structure is at [p], with its signature and checksum. *)
Definition is_mp (m : mem) (p : Z) : bool :=
  (memcmp (view_at m p) (view_of mp_signature) 4 =? 0) && (sum m p MP_SIZE =? 0).

(** The addresses the kernel looks at, in order: every 16 bytes of the first
    kilobyte of the extended BIOS data area, or of the last kilobyte of base
    memory when the BIOS names no such area, and of the last 64 kilobytes of
    the ROM. *)
Definition every16 (a n : Z) : list Z := (fun i : nat => P2V a + 16 * Z.of_nat i) <$> seq 0 (Z.to_nat n).
Definition ebda (m : mem) : Z := 16 * load16 m (P2V 1024 + 14).
Definition base_end (m : mem) : Z := 1024 * load16 m (P2V 1024 + 19).
Definition mp_places (m : mem) : list Z :=
  every16 (if ebda m =? 0 then u32 (base_end m - 1024) else ebda m) 64 ++ every16 983040 4096.

(** The bytes of [l] are at [a]. *)
Definition bytes_at (m : mem) (a : Z) (l : list Z) : Prop := forall i b, l !! i = Some b -> load m (a + Z.of_nat i) = b.

(** ** The entries *)

Inductive mpentry := EProc (apicid : Z) (rest : list Z) | EIoapic (apicno : Z) (rest : list Z) | EOther (ty : Z) (rest : list Z).
Definition entry_bytes (e : mpentry) : list Z :=
  match e with EProc a r => MPPROC :: a :: r | EIoapic a r => MPIOAPIC :: a :: r | EOther ty r => ty :: r end.
Definition entry_ok (e : mpentry) : Prop :=
  match e with
  | EProc _ r => length r = 18%nat
  | EIoapic _ r => length r = 6%nat
  | EOther ty r => (ty = MPBUS \/ ty = MPIOINTR \/ ty = MPLINTR) /\ length r = 7%nat
  end.
Definition table_bytes (es : list mpentry) : list Z := concat (entry_bytes <$> es).
Definition apicids (es : list mpentry) : list Z := omap (fun e => match e with EProc a _ => Some a | _ => None end) es.
Definition ioapics (es : list mpentry) : list Z := omap (fun e => match e with EIoapic a _ => Some a | _ => None end) es.

(** The first [NCPU] processors, and the last I/O APIC. *)
Definition with_cpus (cs : list cpu) (es : list mpentry) : list cpu :=
  cs ++ take (NCPU - length cs) ((fun a => mk_cpu a 0 false) <$> apicids es).
Definition with_table {D} (s : mpst D) (es : list mpentry) : mpst D :=
  s <| mp_mach := (mp_mach s) <| m_cpus := with_cpus (m_cpus (mp_mach s)) es |> |>
    <| mp_ioapicid := default (mp_ioapicid s) (last (ioapics es)) |>.

(** The tables are there: the floating pointer [mp] is the first the search
    meets, and it points to the header [conf]. *)
Record mp_tables (m : mem) (mp conf : Z) : Prop := {
  mt_mp : List.find (is_mp m) (mp_places m) = Some mp;
  mt_conf : conf = P2V (mp_physaddr m mp);
  mt_addr : mp_physaddr m mp <> 0;
  mt_sig : bytes_at m conf conf_signature;
  mt_version : conf_version m conf = 1 \/ conf_version m conf = 4;
  mt_sum : sum m conf (conf_length m conf) = 0;
  mt_end : conf + conf_length m conf < 2 ^ 32
}.

(** ** Proofs *)

Lemma P2V_range a : 0 <= P2V a < 2 ^ 32.
Proof. apply u32_range. Qed.

Lemma mpsearch1_loop_spec m fuel p n e :
  e = p + 16 * Z.of_nat n -> 0 <= p -> e < 2 ^ 32 -> (n < fuel)%nat ->
  mpsearch1_loop fuel m p e = default 0 (List.find (is_mp m) ((fun i : nat => p + 16 * Z.of_nat i) <$> seq 0 n)).
Proof.
  revert fuel p. induction n as [|n IH]; intros [|fuel] p He Hp Hlt Hf; try lia; cbn [mpsearch1_loop].
  - by rewrite (proj2 (Z.ltb_ge p e)) by lia.
  - rewrite (proj2 (Z.ltb_lt p e)) by lia. cbn [seq fmap list_fmap List.find]. rewrite Z.mul_0_r, Z.add_0_r. fold (is_mp m p).
    destruct (is_mp m p) eqn:E; [done|]. unfold MP_SIZE. rewrite u32_small by lia. rewrite (IH fuel (p + 16)) by lia. do 2 f_equal.
    rewrite <- (fmap_S_seq 0 n), <- list_fmap_compose. apply list_fmap_ext. intros i x _. unfold compose. lia.
Qed.

Lemma mpsearch1_spec m a n : 0 <= n -> P2V a + 16 * n < 2 ^ 32 ->
  mpsearch1 m a (16 * n) = default 0 (List.find (is_mp m) (every16 a n)).
Proof.
  intros Hn Hb. pose proof (P2V_range a). unfold mpsearch1, MP_SIZE. rewrite u32_small by lia. apply mpsearch1_loop_spec; try lia.
  rewrite (Z.mul_comm 16), Z.div_mul by lia. lia.
Qed.

Lemma find_default_app {A} (f : A -> bool) (l l' : list A) :
  List.find f (l ++ l') = match List.find f l with Some x => Some x | None => List.find f l' end.
Proof. induction l as [|x l IH]; [done|]. cbn. by destruct (f x). Qed.

Lemma bda_word m k : mem_bytes m -> Z.lor (Z.shiftl (load m (P2V 1024 + (k + 1))) 8) (load m (P2V 1024 + k)) = load16 m (P2V 1024 + k).
Proof. intros Hm. rewrite lor_shift8 by apply Hm. unfold load16. rewrite (Z.add_assoc _ k 1). lia. Qed.

Lemma load16_range m a : mem_bytes m -> 0 <= load16 m a < 65536.
Proof. intros Hm. pose proof (Hm (u32 a)). pose proof (Hm (u32 (a + 1))). unfold load16, load. lia. Qed.

Lemma places_low m : mem_bytes m -> P2V (if ebda m =? 0 then u32 (base_end m - 1024) else ebda m) + 1024 < 2 ^ 32
  /\ 0 < P2V (if ebda m =? 0 then u32 (base_end m - 1024) else ebda m).
Proof.
  intros Hm. pose proof (load16_range m (P2V 1024 + 14) Hm). pose proof (load16_range m (P2V 1024 + 19) Hm).
  unfold ebda, base_end. set (w := load16 m (P2V 1024 + 14)) in *. set (x := load16 m (P2V 1024 + 19)) in *. clearbody w x.
  unfold P2V, KERNBASE. destruct (Z.eqb_spec (16 * w) 0).
  - rewrite u32_add_l, u32_small by lia. lia.
  - rewrite u32_small by lia. lia.
Qed.

Lemma mpsearch_spec m : mem_bytes m -> mpsearch m = default 0 (List.find (is_mp m) (mp_places m)).
Proof.
  intros Hm. pose proof (places_low m Hm) as [Hlow Hpos]. pose proof (load16_range m (P2V 1024 + 14) Hm) as Hr.
  assert (E : mpsearch m = (let mp := mpsearch1 m (if ebda m =? 0 then u32 (base_end m - 1024) else ebda m) (16 * 64) in
      if negb (mp =? 0) then mp else mpsearch1 m 983040 (16 * 4096))).
  { unfold mpsearch. change 15 with (14 + 1). change 20 with (19 + 1). rewrite !bda_word by done.
    rewrite Z.shiftl_mul_pow2 by lia. change (2 ^ 4) with 16. unfold ebda, base_end. rewrite (Z.mul_comm 16), (Z.mul_comm 1024).
    by destruct (load16 m (P2V 1024 + 14) * 16 =? 0). }
  rewrite E. unfold mp_places. clear E. set (lo := if ebda m =? 0 then _ else _) in *. clearbody lo. cbv zeta.
  rewrite !mpsearch1_spec by (done || exact Hlow). rewrite find_default_app.
  destruct (List.find (is_mp m) (every16 _ 64)) as [p|] eqn:Ep; cbn [default]; [|done].
  apply List.find_some in Ep as [Hp _]. unfold every16 in Hp. apply list_elem_of_In, list_elem_of_fmap in Hp as (i & -> & _).
  unfold id. destruct (Z.eqb_spec (P2V lo + 16 * Z.of_nat i) 0); [lia|done].
Qed.

Lemma memcmp_bytes m a l n : length l = n -> bytes_at m a l -> memcmp (view_at m a) (view_of l) n = 0.
Proof.
  intros Hn Hl. apply memcmp_zero. intros i Hi. unfold view_at, view_of.
  destruct (lookup_lt_is_Some_2 l (Z.to_nat i)) as [b Hb]; [lia|]. rewrite (nth_lookup_Some _ _ _ _ Hb), <- (Hl _ _ Hb). f_equal. lia.
Qed.

Lemma mpconfig_found m mp conf : mem_bytes m -> mp_tables m mp conf -> mpconfig m = Some (mp, conf).
Proof.
  intros Hm [H1 -> H3 H4 H5 H6 _]. unfold mpconfig. rewrite (mpsearch_spec m Hm), H1. cbn [default]; unfold id. rewrite (proj2 (Z.eqb_neq _ _) H3).
  assert (Hz : mp <> 0).
  { apply List.find_some in H1 as [Hp _]. pose proof (places_low m Hm) as [_ Hpos]. unfold mp_places, every16 in Hp.
    apply list_elem_of_In, elem_of_app in Hp as [Hp|Hp]; apply list_elem_of_fmap in Hp as (i & -> & _); [lia|].
    change (P2V 983040) with 2148466688. lia. }
  rewrite (proj2 (Z.eqb_neq _ _) Hz). cbn [orb]. rewrite (memcmp_bytes m _ conf_signature 4 eq_refl H4). cbn [Z.eqb negb].
  rewrite H6. destruct H5 as [-> | ->]; done.
Qed.

Lemma bytes_at_app m a l l' : bytes_at m a (l ++ l') <-> bytes_at m a l /\ bytes_at m (a + Z.of_nat (length l)) l'.
Proof.
  split.
  - intros H. split; intros i b Hb; [apply H; by apply lookup_app_l_Some|].
    rewrite <- Z.add_assoc, <- Nat2Z.inj_add. apply H. rewrite lookup_app_r by lia. by rewrite Nat.add_comm, Nat.add_sub.
  - intros [H1 H2] i b Hb. apply lookup_app_Some in Hb as [Hb|[Hi Hb]]; [by apply H1|]. rewrite <- (H2 _ _ Hb). f_equal. lia.
Qed.

Lemma bytes_at_cons m a x l : bytes_at m a (x :: l) <-> load m a = x /\ bytes_at m (a + 1) l.
Proof.
  rewrite (bytes_at_app m a [x] l). cbn [length]. change (Z.of_nat 1) with 1. split; intros [H1 H2]; split; try done.
  - specialize (H1 0%nat x eq_refl). by rewrite Z.add_0_r in H1.
  - intros [|i] b Hb; [|done]. injection Hb as <-. by rewrite Z.add_0_r.
Qed.

Definition entry_len (e : mpentry) : Z := Z.of_nat (length (entry_bytes e)).
Lemma entry_len_bounds e : entry_ok e -> 8 <= entry_len e <= 20.
Proof. unfold entry_len. destruct e; cbn; [lia|lia|intros [_ H]; lia]. Qed.

Lemma table_len_cons e es : Z.of_nat (length (table_bytes (e :: es))) = entry_len e + Z.of_nat (length (table_bytes es)).
Proof. unfold table_bytes, entry_len. cbn [fmap list_fmap concat]. rewrite length_app. lia. Qed.

#[local] Arguments with_cpus : simpl never.

Section entries.
Context {D : Type} `{!PortOps D}.
Implicit Types s : mpst D.

Lemma with_table_nil s : with_table s [] = s.
Proof. destruct s as [m [l c f] i a d]. unfold with_table, with_cpus. cbn. by rewrite take_nil, app_nil_r. Qed.

Lemma with_cpus_one cs a r : with_cpus cs [EProc a r] = if bool_decide (length cs < NCPU)%nat then cs ++ [mk_cpu a 0 false] else cs.
Proof.
  unfold with_cpus, apicids. cbn [omap list_omap fmap list_fmap]. case_bool_decide as Hc.
  - destruct (NCPU - length cs)%nat eqn:E; [lia|]. cbn [take]. by rewrite take_nil.
  - replace (NCPU - length cs)%nat with 0%nat by lia. apply app_nil_r.
Qed.

Lemma with_cpus_none cs x : apicids [x] = [] -> with_cpus cs [x] = cs.
Proof. intros E. unfold with_cpus. rewrite E. cbn [fmap list_fmap]. by rewrite take_nil, app_nil_r. Qed.

Lemma with_cpus_cons cs e es :
  with_cpus (with_cpus cs [e]) es = with_cpus cs (e :: es).
Proof.
  unfold with_cpus, apicids. destruct e as [a r|a r|ty r]; cbn [omap list_omap fmap list_fmap].
  2,3: by rewrite take_nil, app_nil_r.
  rewrite <- (assoc_L (++)). f_equal. destruct (NCPU - length cs)%nat as [|k] eqn:Ek; cbn [take app].
  - rewrite app_nil_r, Ek. done.
  - rewrite take_nil, length_app. cbn [length app]. by replace (NCPU - (length cs + 1))%nat with k by lia.
Qed.

Lemma with_table_cons s e es : with_table (with_table s [e]) es = with_table s (e :: es).
Proof.
  assert (Hd : forall i, default (default i (last (ioapics [e]))) (last (ioapics es)) = default i (last (ioapics (e :: es)))).
  { intros i. unfold ioapics. destruct e as [x r|x r|ty r]; cbn [omap list_omap]; try done. rewrite !last_cons. cbn [last].
    set (o := last (omap _ es)). by destruct o. }
  destruct s as [m [l c f] i a d].
  transitivity (mk_mpst m (mk_mach l (with_cpus (with_cpus c [e]) es) f) (default (default i (last (ioapics [e]))) (last (ioapics es))) a d); [done|].
  by rewrite with_cpus_cons, Hd.
Qed.

(** One entry. *)
Lemma mp_entries_step fuel p e ismp s x :
  entry_ok x -> bytes_at (mp_mem s) p (entry_bytes x) -> 0 <= p -> p + entry_len x <= e -> e < 2 ^ 32 ->
  mp_entries (S fuel) p e ismp s = mp_entries fuel (p + entry_len x) e ismp (with_table s [x]).
Proof.
  intros Hx Hb Hp Hle He. pose proof (entry_len_bounds x Hx). cbn [mp_entries]. rewrite (proj2 (Z.ltb_lt p e)) by lia. cbn [negb].
  destruct s as [m [l c f] i a d]. cbn in Hb. unfold mbind, M_bind, gets. cbn [mp_mem].
  destruct x as [x r|x r|ty r]; cbn in Hx; apply bytes_at_cons in Hb as [E0 Hb]; rewrite E0.
  - apply bytes_at_cons in Hb as [E1 _]. unfold entry_len in *. cbn [entry_bytes length] in *. rewrite Hx in *. cbn [MPPROC Z.eqb].
    unfold MPPROC_SIZE. rewrite u32_small by lia. unfold with_table. rewrite with_cpus_one, E1. cbn [m_cpus mp_mach].
    by destruct (bool_decide (length c < NCPU)%nat).
  - apply bytes_at_cons in Hb as [E1 _]. unfold entry_len in *. cbn [entry_bytes length] in *. rewrite Hx in *. cbn [MPIOAPIC Z.eqb MPPROC].
    unfold MPIOAPIC_SIZE. rewrite u32_small by lia. unfold with_table. rewrite with_cpus_none, E1 by done. done.
  - destruct Hx as [Hty Hx]. unfold entry_len in *. cbn [entry_bytes length] in *. rewrite Hx in *. unfold with_table.
    rewrite with_cpus_none by done. rewrite (u32_small (p + 8)) by lia. destruct Hty as [-> |[-> | ->]]; done.
Qed.

Lemma mp_entries_spec es : forall fuel p e ismp s,
  Forall entry_ok es -> bytes_at (mp_mem s) p (table_bytes es) -> 0 <= p -> p + Z.of_nat (length (table_bytes es)) <= e -> e < 2 ^ 32 ->
  mp_entries (length es + fuel) p e ismp s = mp_entries fuel (p + Z.of_nat (length (table_bytes es))) e ismp (with_table s es).
Proof.
  induction es as [|x es IH]; intros fuel p e ismp s Hok Hb Hp Hle He.
  - cbn. by rewrite Z.add_0_r, with_table_nil.
  - apply Forall_cons in Hok as [Hx Hok]. rewrite table_len_cons in *. unfold table_bytes in Hb. cbn [fmap list_fmap concat] in Hb.
    apply bytes_at_app in Hb as [Hb1 Hb2]. fold (entry_len x) in Hb2. pose proof (entry_len_bounds x Hx). cbn [length Nat.add].
    rewrite (mp_entries_step _ _ _ _ _ x) by (done || lia). rewrite IH by (done || lia). rewrite with_table_cons. f_equal. lia.
Qed.

(** At an entry of another type the loop makes no progress. *)
Lemma mp_entries_stuck fuel p e ismp s : p < e -> ~ 0 <= load (mp_mem s) p <= 4 -> mp_entries fuel p e ismp s = Blocked s.
Proof.
  intros Hp Hty. revert ismp. induction fuel as [|fuel IH]; intros ismp; [done|]. cbn [mp_entries].
  rewrite (proj2 (Z.ltb_lt p e)) by lia. cbn [negb]. unfold mbind, M_bind, gets. unfold MPPROC, MPIOAPIC, MPBUS, MPIOINTR, MPLINTR.
  decide_cmp. cbn [orb]. apply IH.
Qed.
End entries.

(** ** Theorems *)

Section init.
Context {D : Type} `{!PortOps D}.

(** Turning off the interrupt mode of old machines, when the tables ask for it. *)
Definition imcr_off (imcrp : Z) (d : D) : D :=
  if imcrp =? 0 then d else
  let d1 := p_outb 34 112 d in
  let '(v, d2) := p_inb 35 d1 in p_outb 35 (u8 (Z.lor v 1)) d2.

(** C39: [mpinit] finds the machine the tables describe: on tables whose entries
    have the known types it returns, and then [cpus] holds the APIC ids of the
    first [NCPU] processors in the order of the table, [ioapicid] the last I/O
    APIC and [lapic] the address of the header; memory is unchanged. *)
Theorem mpinit_correct (s : mpst D) mp conf es fuel :
  mem_bytes (mp_mem s) -> mp_tables (mp_mem s) mp conf -> Forall entry_ok es ->
  conf_length (mp_mem s) conf = MPCONF_SIZE + Z.of_nat (length (table_bytes es)) -> bytes_at (mp_mem s) (conf + MPCONF_SIZE) (table_bytes es) ->
  8192 <= Z.of_nat fuel ->
  mpinit fuel s = Ok () ((with_table s es) <| mp_lapic := conf_lapicaddr (mp_mem s) conf |> <| mp_dev := imcr_off (mp_imcrp (mp_mem s) mp) (mp_dev s) |>).
Proof.
  intros Hm Ht Hok Hlen Hb Hf. pose proof (load16_range (mp_mem s) (conf + 4) Hm) as Hr. fold (conf_length (mp_mem s) conf) in Hr.
  assert (Hn : (8 * length es <= length (table_bytes es))%nat).
  { clear -Hok. induction Hok as [|x es Hx _ IH]; [done|]. pose proof (table_len_cons x es). pose proof (entry_len_bounds x Hx). cbn [length]. lia. }
  pose proof (mt_end _ _ _ Ht) as He. pose proof (mt_conf _ _ _ Ht) as Ec. pose proof (P2V_range (mp_physaddr (mp_mem s) mp)) as Hc. rewrite <- Ec in Hc.
  unfold mpinit, mbind, M_bind, gets. rewrite (mpconfig_found _ _ _ Hm Ht). cbn [modify]. unfold modify. unfold MPCONF_SIZE in *.
  rewrite (u32_small (conf + 44)), (u32_small (conf + conf_length _ _)) by lia.
  replace fuel with (length es + S (fuel - length es - 1))%nat by lia.
  rewrite mp_entries_spec by (done || lia). cbn [mp_entries]. rewrite (proj2 (Z.ltb_ge _ _)) by lia. cbn [negb]. unfold mret, M_ret.
  unfold imcr_off, when. destruct s as [m k i a d]. cbn [mp_mem mp_dev]. destruct (mp_imcrp m mp =? 0); [done|]. cbn [negb].
  unfold on_mp_dev, zoom, outb, inb, modify. change (u8 112) with 112. cbn [mp_dev set_field]. by destruct (p_inb 35 (p_outb 34 112 d)) eqn:E; cbn; rewrite E.
Qed.

(** An entry of another type: the [break] of the default case leaves only the
    [switch], so the loop looks at the same entry forever, and the [panic]
    after it is not reached. *)
Theorem mpinit_unknown_entry (s : mpst D) mp conf es fuel :
  mem_bytes (mp_mem s) -> mp_tables (mp_mem s) mp conf -> Forall entry_ok es ->
  MPCONF_SIZE + Z.of_nat (length (table_bytes es)) < conf_length (mp_mem s) conf -> bytes_at (mp_mem s) (conf + MPCONF_SIZE) (table_bytes es) ->
  ~ 0 <= load (mp_mem s) (conf + MPCONF_SIZE + Z.of_nat (length (table_bytes es))) <= 4 ->
  exists s', mpinit fuel s = Blocked s'.
Proof.
  intros Hm Ht Hok Hlen Hb Hty. pose proof (load16_range (mp_mem s) (conf + 4) Hm) as Hr. fold (conf_length (mp_mem s) conf) in Hr.
  pose proof (mt_end _ _ _ Ht) as He. pose proof (mt_conf _ _ _ Ht) as Ec. pose proof (P2V_range (mp_physaddr (mp_mem s) mp)) as Hc. rewrite <- Ec in Hc.
  unfold mpinit, mbind, M_bind, gets. rewrite (mpconfig_found _ _ _ Hm Ht). unfold modify, MPCONF_SIZE in *.
  rewrite (u32_small (conf + 44)), (u32_small (conf + conf_length _ _)) by lia. set (s1 := s <| mp_lapic := _ |>).
  assert (Hs : exists s', mp_entries fuel (conf + 44) (conf + conf_length (mp_mem s) conf) true s1 = Blocked s'); [|destruct Hs as [s' ->]; by exists s'].
  destruct (decide (fuel <= length es)%nat) as [Hf|Hf].
  - rewrite <- (take_drop fuel es) in Hb, Hok, Hlen. unfold table_bytes in Hb, Hlen. rewrite fmap_app, concat_app in Hb, Hlen.
    apply Forall_app in Hok as [Hok _]. apply bytes_at_app in Hb as [Hb _]. rewrite length_app in Hlen.
    pose proof (mp_entries_spec (take fuel es) 0 (conf + 44) (conf + conf_length (mp_mem s) conf) true s1 Hok Hb ltac:(lia) ltac:(unfold table_bytes; lia) He) as E.
    rewrite length_take, Nat.min_l, Nat.add_0_r in E by done. rewrite E. by eexists.
  - replace fuel with (length es + (fuel - length es))%nat by lia. rewrite mp_entries_spec by (done || lia).
    rewrite mp_entries_stuck; [by eexists|lia|]. destruct s as [m k i a d]. exact Hty.
Qed.
End init.

(** ** A machine *)

(** Two processors with APIC ids 0 and 4, a bus, an I/O APIC and an interrupt
    source; the pointer is at the start of the extended BIOS data area. *)
Definition demo_entries : list mpentry :=
  [EProc 0 (replicate 18 1); EProc 4 (replicate 18 1); EOther MPBUS [0; 80; 67; 73; 32; 32; 32]; EIoapic 8 [17; 1; 0; 0; 192; 254];
   EOther MPIOINTR [0; 0; 0; 0; 0; 8; 0]].
Definition with_sum (pre post : list Z) : list Z := pre ++ [u8 (- foldr Z.add 0 (pre ++ post))] ++ post.
Definition demo_conf : list Z :=
  with_sum (conf_signature ++ [108; 0; 4]) (replicate 28 32 ++ [0; 0; 224; 254; 0; 0; 0; 0] ++ table_bytes demo_entries).
Definition demo_mp : list Z := with_sum (mp_signature ++ [0; 253; 9; 0; 1; 4]) [0; 128; 0; 0; 0].
Definition demo_bios : mem := fun a =>
  let at_ base l := l !! Z.to_nat (a - P2V base) in
  if in_range a (P2V 1038) 2 then if a =? P2V 1038 then 192 else 159
  else if in_range a (P2V 654336) 16 then default 0 (at_ 654336 demo_mp)
  else if in_range a (P2V 654592) 256 then default 0 (at_ 654592 demo_conf)
  else 0.
Definition port_log : Type := list (Z * Z).
#[local] Instance port_log_ops : PortOps port_log := {| p_inb := fun _ d => (0, d); p_outb := fun p v d => (p, v) :: d |}.
Definition demo_mpst : mpst port_log := mk_mpst demo_bios (mk_mach (fun _ => initlock) [] (fun _ => false)) 0 0 [].

Lemma bytes_at_check m a l : (fun i : nat => load m (a + Z.of_nat i)) <$> seq 0 (length l) = l -> bytes_at m a l.
Proof. intros E i b Hb. rewrite <- E in Hb. apply list_lookup_fmap_Some in Hb as (j & -> & Hj). apply lookup_seq in Hj as [-> _]. done. Qed.

Lemma demo_bios_bytes : mem_bytes demo_bios.
Proof.
  intros a. unfold demo_bios. destruct (in_range a (P2V 1038) 2); [destruct (a =? _); lia|].
  assert (Hl : forall l i, forallb (fun b => (0 <=? b) && (b <? 256)) l = true -> 0 <= default 0 (l !! i) < 256).
  { intros l i Hf. destruct (l !! i) as [b|] eqn:E; cbn; [|lia]. rewrite forallb_forall in Hf. apply list_elem_of_lookup_2, list_elem_of_In, Hf in E. unfold id. lia. }
  destruct (in_range a (P2V 654336) 16); [by apply Hl|]. destruct (in_range a (P2V 654592) 256); [by apply Hl|lia].
Qed.

Lemma demo_tables : mp_tables demo_bios (P2V 654336) (P2V 654592).
Proof.
  split; [by vm_compute|by vm_compute|by vm_compute|by apply bytes_at_check|right; by vm_compute|by vm_compute|by vm_compute].
Qed.

Lemma mpinit_correct_witness :
  exists s', mpinit (Z.to_nat 8192) demo_mpst = Ok () s' /\ c_apicid <$> m_cpus (mp_mach s') = [0; 4] /\ mp_ioapicid s' = 8 /\ mp_lapic s' = 4276092928
    /\ mp_dev s' = [(35, 1); (34, 112)].
Proof.
  assert (H1 : Forall entry_ok demo_entries) by (repeat constructor).
  assert (H2 : conf_length demo_bios (P2V 654592) = MPCONF_SIZE + Z.of_nat (length (table_bytes demo_entries))) by by vm_compute.
  assert (H3 : bytes_at demo_bios (P2V 654592 + MPCONF_SIZE) (table_bytes demo_entries)) by by apply bytes_at_check.
  pose proof (mpinit_correct demo_mpst _ _ demo_entries (Z.to_nat 8192) demo_bios_bytes demo_tables H1 H2 H3 ltac:(lia)) as E.
  eexists. split; [exact E|]. split; [by vm_compute|]. split; [by vm_compute|]. split; by vm_compute.
Defined.
