(* ===== verification/Trap.v ===== *)
(** Traps and the clock ([trap.c] but for [tvinit] and [idtinit], which are in
    [Seg.v]; [traps.h]; [sys_sleep] and [sys_uptime] of [sysproc.c]).

    [trap] is the kernel thread of one process, or of the scheduler, on one
    CPU.  What it calls is logged as events; while a call runs, and while the
    thread is switched out, the rest of the machine changes what the thread
    can see: [during e] is that change, for the call [e], a parameter. *)

From S2P Require Import Prelude CString Spinlock Proc Seg Syscall.

Definition T_IRQ0 : Z := 32.
Definition IRQ_TIMER : Z := 0.
Definition IRQ_KBD : Z := 1.
Definition IRQ_COM1 : Z := 4.
Definition IRQ_IDE : Z := 14.
Definition IRQ_ERROR : Z := 19.
Definition IRQ_SPURIOUS : Z := 31.

(** The fields of the trap frame [trap] reads. *)
Record trapframe := mk_tf { tf_trapno : Z; tf_err : Z; tf_eip : Z; tf_cs : Z }.

Inductive tevent :=
| ESyscall | EWakeup | EAcquire | ERelease | EEoi | EIde | EKbd | EUart | EPrint | EYield | ESleep | EExit.
#[export] Instance tevent_eq_dec : EqDecision tevent.
Proof. solve_decision. Defined.

(** What the thread sees: the CPU it runs on, [ticks], and its process, if it
    has one. *)
Record tproc := mk_tproc { t_killed : bool; t_state : procstate; t_tf : option trapframe }.
#[export] Instance eta_tproc : Settable tproc := fun p => mk_tproc (t_killed p) (t_state p) (t_tf p).
Record tview := mk_tview { v_cpuid : Z; v_ticks : Z; v_proc : option tproc }.
#[export] Instance eta_tview : Settable tview := fun v => mk_tview (v_cpuid v) (v_ticks v) (v_proc v).
Record tst := mk_tst { t_view : tview; t_log : list tevent }.
#[export] Instance eta_tst : Settable tst := fun s => mk_tst (t_view s) (t_log s).

Section trap.
Variable during : tevent -> tview -> tview.

Definition call (e : tevent) : M tst () :=
  modify (fun s => mk_tst (during e (t_view s)) (t_log s ++ [e])).
Definition myproc : M tst (option tproc) := gets (fun s => v_proc (t_view s)).
Definition cpuid : M tst Z := gets (fun s => v_cpuid (t_view s)).

(** [exit] does not return. *)
Definition exit {A} : M tst A := call EExit;; block.

(** [myproc()] where the code dereferences it. *)
Definition the_proc : M tst tproc :=
  p ← myproc;
  match p with Some p => mret p | None => panic "null pointer" end.

Definition set_proc (f : tproc -> tproc) : M tst () :=
  modify (fun s => s <| t_view := (t_view s) <| v_proc := f <$> v_proc (t_view s) |> |>).

Definition cs_user (tf : trapframe) : bool := Z.land (tf_cs tf) 3 =? DPL_USER.

(** [if(myproc() && myproc()->killed && (tf->cs&3) == DPL_USER) exit();] *)
Definition exit_if_killed (tf : trapframe) : M tst () :=
  p ← myproc;
  match p with
  | Some p => if t_killed p && cs_user tf then exit else mret ()
  | None => mret ()
  end.

(** The clock interrupt on CPU 0. *)
Definition clock : M tst () :=
  c ← cpuid;
  when (c =? 0) (
    call EAcquire;;
    modify (fun s => s <| t_view := (t_view s) <| v_ticks := u32 (v_ticks (t_view s) + 1) |> |>);;
    call EWakeup;;
    call ERelease).

(** The [switch]. *)
Definition trap_switch (tf : trapframe) : M tst () :=
  let no := tf_trapno tf in
  if no =? T_IRQ0 + IRQ_TIMER then clock;; call EEoi
  else if no =? T_IRQ0 + IRQ_IDE then call EIde;; call EEoi
  else if no =? T_IRQ0 + IRQ_IDE + 1 then mret ()
  else if no =? T_IRQ0 + IRQ_KBD then call EKbd;; call EEoi
  else if no =? T_IRQ0 + IRQ_COM1 then call EUart;; call EEoi
  else if (no =? T_IRQ0 + 7) || (no =? T_IRQ0 + IRQ_SPURIOUS) then call EPrint;; call EEoi
  else
    p ← myproc;
    if bool_decide (p = None) || (Z.land (tf_cs tf) 3 =? 0) then call EPrint;; panic "trap"
    else
      call EPrint;;
      set_proc (fun p => p <| t_killed := true |>).

Definition trap (tf : trapframe) : M tst () :=
  if tf_trapno tf =? T_SYSCALL then
    p ← the_proc;
    (if t_killed p then exit else mret ());;
    the_proc;;
    set_proc (fun p => p <| t_tf := Some tf |>);;
    call ESyscall;;
    p ← the_proc;
    if t_killed p then exit else mret ()
  else
    trap_switch tf;;
    exit_if_killed tf;;
    p ← myproc;
    (match p with
     | Some p =>
         when (bool_decide (t_state p = RUNNING) && (tf_trapno tf =? T_IRQ0 + IRQ_TIMER)) (call EYield)
     | None => mret ()
     end);;
    exit_if_killed tf.

(** [sys_sleep] with the argument [n]; [ticks - ticks0 < n] compares [uint]s.
    [fuel] bounds the number of times it goes to sleep. *)
Fixpoint sleep_loop (fuel : nat) (ticks0 n : Z) : M tst Z :=
  match fuel with
  | O => block
  | Datatypes.S fuel =>
      ticks ← gets (fun s => v_ticks (t_view s));
      if u32 (ticks - ticks0) <? u32 n then
        p ← the_proc;
        if t_killed p then call ERelease;; mret (-1)
        else call ESleep;; sleep_loop fuel ticks0 n
      else call ERelease;; mret 0
  end.
Definition sys_sleep (fuel : nat) (n : fetched Z) : M tst Z :=
  match n with
  | Got n =>
      call EAcquire;;
      ticks0 ← gets (fun s => v_ticks (t_view s));
      sleep_loop fuel ticks0 n
  | _ => mret (-1)
  end.

Definition sys_uptime : M tst Z :=
  call EAcquire;;
  xticks ← gets (fun s => v_ticks (t_view s));
  call ERelease;;
  mret (s32 xticks).

(** ** What a trap does *)

(** The calls of the handled interrupts; [None] for any other trap. *)
Definition handler (no cpu : Z) : option (list tevent) :=
  if no =? 32 then Some ((if cpu =? 0 then [EAcquire; EWakeup; ERelease] else []) ++ [EEoi])
  else if no =? 46 then Some [EIde; EEoi]
  else if no =? 47 then Some []
  else if no =? 33 then Some [EKbd; EEoi]
  else if no =? 36 then Some [EUart; EEoi]
  else if (no =? 39) || (no =? 63) then Some [EPrint; EEoi]
  else None.

(** The thread keeps its process, and while the process runs nobody else
    changes its state, but in a call that gives up the CPU. *)
Hypothesis during_proc : forall e v, v_proc (during e v) = None <-> v_proc v = None.
Hypothesis during_runs : forall e v p, e <> EYield -> e <> ESleep -> e <> ESyscall -> v_proc v = Some p -> t_state p = RUNNING ->
  exists p', v_proc (during e v) = Some p' /\ t_state p' = RUNNING.

(** [s'] is [s] after the calls [l], with the same thread. *)
Record after (l : list tevent) (s s' : tst) : Prop := {
  af_log : t_log s' = t_log s ++ l;
  af_proc : v_proc (t_view s') = None <-> v_proc (t_view s) = None;
  af_runs : forall p, v_proc (t_view s) = Some p -> t_state p = RUNNING -> (forall e, e ∈ l -> e <> EYield /\ e <> ESleep /\ e <> ESyscall) ->
    exists p', v_proc (t_view s') = Some p' /\ t_state p' = RUNNING
}.

Lemma after_refl s s' : t_log s' = t_log s -> (v_proc (t_view s') = None <-> v_proc (t_view s) = None) ->
  (forall p, v_proc (t_view s) = Some p -> t_state p = RUNNING -> exists p', v_proc (t_view s') = Some p' /\ t_state p' = RUNNING) -> after [] s s'.
Proof. intros E H1 H2. split; [by rewrite app_nil_r|done|]. intros p Hp Hr _. by eapply H2. Qed.

Lemma after_trans l1 l2 s s1 s2 : after l1 s s1 -> after l2 s1 s2 -> after (l1 ++ l2) s s2.
Proof.
  intros [E1 P1 R1] [E2 P2 R2]. split; [by rewrite E2, E1, (assoc_L (++))|by rewrite P2|]. intros p Hp Hr Hl.
  destruct (R1 p Hp Hr) as (p1 & Hp1 & Hr1); [intros e He; apply Hl; set_solver|]. apply (R2 p1 Hp1 Hr1). intros e He. apply Hl. set_solver.
Qed.

Lemma wp_call e s (Q : () -> tst -> Prop) : (forall s', after [e] s s' -> Q () s') -> wp (call e) s Q.
Proof.
  intros HQ. unfold call. wp_step. apply HQ. split; [done|cbn; apply during_proc|]. intros p Hp Hr Hl.
  destruct (Hl e ltac:(set_solver)) as (? & ? & ?). by eapply during_runs.
Qed.


(** ** All the ways a routine can end *)

Definition ends {A} (m : M tst A) s (Q : A -> tst -> Prop) (X : tst -> Prop) (P : Prop) : Prop :=
  match m s with Ok a s' => Q a s' | Blocked s' => X s' | Panic _ => P end.

Lemma ends_bind {A B} (m : M tst A) (k : A -> M tst B) s Q X P : ends m s (fun a s' => ends (k a) s' Q X P) X P -> ends (m ≫= k) s Q X P.
Proof. unfold ends, mbind, M_bind. by destruct (m s). Qed.

Lemma ends_wp {A} (m : M tst A) s (Q : A -> tst -> Prop) X P : wp m s Q -> ends m s Q X P.
Proof. unfold ends, wp. by destruct (m s). Qed.

Lemma ends_call e s (Q : () -> tst -> Prop) X P : (forall s', after [e] s s' -> Q () s') -> ends (call e) s Q X P.
Proof. intros HQ. by apply ends_wp, wp_call. Qed.

Lemma ends_exit {A} s (Q : A -> tst -> Prop) (X : tst -> Prop) P : (forall s', after [EExit] s s' -> X s') -> ends exit s Q X P.
Proof. intros HX. unfold exit. apply ends_bind, ends_call. intros s' H. by apply HX. Qed.

Definition not_killed (s : tst) : Prop := forall p, v_proc (t_view s) = Some p -> t_killed p = false.
Definition is_killed (s : tst) : Prop := exists p, v_proc (t_view s) = Some p /\ t_killed p = true.

Lemma ends_exit_if_killed tf s (Q : () -> tst -> Prop) (X : tst -> Prop) P :
  ((cs_user tf = true -> not_killed s) -> Q () s) ->
  (forall s', cs_user tf = true -> is_killed s -> after [EExit] s s' -> X s') -> ends (exit_if_killed tf) s Q X P.
Proof.
  intros HQ HX. unfold exit_if_killed. apply ends_bind, ends_wp. unfold myproc. wp_step. unfold not_killed, is_killed in *.
  destruct (v_proc (t_view s)) as [p|] eqn:Ep; [|apply ends_wp; wp_step; by apply HQ].
  destruct (t_killed p) eqn:Ek; cbn [andb].
  - destruct (cs_user tf) eqn:Eu; [apply ends_exit; intros s' Hs'; apply HX; eauto|]. apply ends_wp. wp_step. by apply HQ.
  - apply ends_wp. wp_step. apply HQ. by intros _ p' [= <-].
Qed.

Lemma wp_clock s (Q : () -> tst -> Prop) :
  (forall s', after (if v_cpuid (t_view s) =? 0 then [EAcquire; EWakeup; ERelease] else []) s s' -> Q () s') -> wp (clock) s Q.
Proof.
  intros HQ. unfold clock, cpuid. wp_step. wp_step. unfold when. destruct (v_cpuid (t_view s) =? 0).
  - wp_step. apply wp_call. intros s1 H1. wp_step. wp_step. wp_step.
    match goal with |- wp _ ?s2 _ => assert (H2 : after [] s1 s2) by (by apply after_refl; eauto) end.
    apply wp_call. intros s3 H3. apply wp_call. intros s4 H4. apply HQ.
    exact (after_trans _ _ _ _ _ H1 (after_trans _ _ _ _ _ H2 (after_trans _ _ _ _ _ H3 H4))).
  - wp_step. apply HQ. apply after_refl; eauto.
Qed.

Lemma wp_driver e s (Q : () -> tst -> Prop) : (forall s', after [e; EEoi] s s' -> Q () s') -> wp (call e;; call EEoi) s Q.
Proof. intros HQ. wp_step. apply wp_call. intros s1 H1. apply wp_call. intros s2 H2. apply HQ. by eapply (after_trans [_]). Qed.

(** A trap that is no interrupt, from kernel code or with no process. *)
Definition kernel_fault (tf : trapframe) (s : tst) : Prop :=
  handler (tf_trapno tf) (v_cpuid (t_view s)) = None /\ (v_proc (t_view s) = None \/ Z.land (tf_cs tf) 3 = 0).

Lemma ends_switch tf s (Q : () -> tst -> Prop) X :
  (forall s' l, handler (tf_trapno tf) (v_cpuid (t_view s)) = Some l -> after l s s' -> Q () s') ->
  (forall s', handler (tf_trapno tf) (v_cpuid (t_view s)) = None -> after [EPrint] s s' -> is_killed s' -> ~ kernel_fault tf s -> Q () s') ->
  ends (trap_switch tf) s Q X (kernel_fault tf s).
Proof.
  intros Hh Hn. unfold trap_switch, kernel_fault in *. unfold T_IRQ0, IRQ_TIMER, IRQ_IDE, IRQ_KBD, IRQ_COM1, IRQ_SPURIOUS.
  unfold handler in *. change (32 + 0) with 32. change (32 + 14) with 46. change (46 + 1) with 47. change (32 + 1) with 33. change (32 + 4) with 36.
  change (32 + 7) with 39. change (32 + 31) with 63.
  destruct (tf_trapno tf =? 32). { apply ends_wp. wp_step. apply wp_clock. intros s1 H1. apply wp_call. intros s2 H2. eapply Hh; [done|by eapply after_trans]. }
  destruct (tf_trapno tf =? 46). { apply ends_wp, wp_driver. intros s1 H1. by eapply Hh. }
  destruct (tf_trapno tf =? 47). { apply ends_wp. wp_step. eapply Hh; [done|]. apply after_refl; eauto. }
  destruct (tf_trapno tf =? 33). { apply ends_wp, wp_driver. intros s1 H1. by eapply Hh. }
  destruct (tf_trapno tf =? 36). { apply ends_wp, wp_driver. intros s1 H1. by eapply Hh. }
  destruct ((tf_trapno tf =? 39) || (tf_trapno tf =? 63)).
  { apply ends_wp, wp_driver. intros s1 H1. by eapply Hh. }
  apply ends_bind, ends_wp. unfold myproc. wp_step. case_bool_decide as Hp; cbn [orb].
  { apply ends_bind, ends_call. intros s1 _. by split; [|left]. }
  destruct (Z.eqb_spec (Z.land (tf_cs tf) 3) 0) as [Hk|Hk]. { apply ends_bind, ends_call. intros s1 _. by split; [|right]. }
  apply ends_bind, ends_call. intros s1 H1. apply ends_wp. unfold set_proc. wp_step.
  destruct (v_proc (t_view s1)) as [p|] eqn:Ep; [|by apply (af_proc _ _ _ H1) in Ep]. apply Hn; [done| |by eexists|by intros [_ [? | ?]]].
  apply (after_trans [_] [] _ s1); [done|]. apply after_refl; [done|cbn; rewrite Ep; done|]. intros q Eq Hq. cbn. rewrite Ep in Eq. injection Eq as ->. by eexists.
Qed.

(** What a trap that returns has done, and what one that ends the process. *)
Definition calls_of (tf : trapframe) (s : tst) (l : list tevent) : Prop :=
  if tf_trapno tf =? T_SYSCALL then l = [ESyscall]
  else match handler (tf_trapno tf) (v_cpuid (t_view s)) with
       | None => l = [EPrint]
       | Some h => l = h \/ tf_trapno tf = 32 /\ l = h ++ [EYield]
       end.
Definition running (s : tst) : Prop := exists p, v_proc (t_view s) = Some p /\ t_state p = RUNNING.
#[local] Instance running_dec s : Decision (running s).
Proof.
  unfold running. destruct (v_proc (t_view s)) as [p|]; [|right; by intros (p & ? & _)].
  destruct (decide (t_state p = RUNNING)); [left; by exists p|right; intros (q & [= <-] & ?); done].
Defined.

(** Giving up the CPU, and the second look at [killed]. *)
Definition trap_end (tf : trapframe) : M tst () :=
  p ← myproc;
  (match p with
   | Some p => when (bool_decide (t_state p = RUNNING) && (tf_trapno tf =? T_IRQ0 + IRQ_TIMER)) (call EYield)
   | None => mret ()
   end);;
  exit_if_killed tf.

Lemma ends_trap_end tf s (Q : () -> tst -> Prop) (X : tst -> Prop) P :
  (forall l s', after l s s' -> l = (if decide (tf_trapno tf = 32 /\ running s) then [EYield] else []) ->
     ((cs_user tf = true -> not_killed s') -> Q () s') /\ (forall s2, cs_user tf = true -> is_killed s' -> after [EExit] s' s2 -> X s2)) ->
  ends (trap_end tf) s Q X P.
Proof.
  intros HQ. unfold trap_end. apply ends_bind, ends_wp. unfold myproc. wp_step. apply ends_bind. unfold T_IRQ0, IRQ_TIMER, when. change (32 + 0) with 32.
  assert (H0 : after [] s s) by (apply after_refl; eauto).
  assert (Hno : ~ (tf_trapno tf = 32 /\ running s) -> ends (exit_if_killed tf) s Q X P).
  { intros Hn. destruct (HQ [] s H0) as [H1 H2]; [by rewrite decide_False|]. by apply ends_exit_if_killed. }
  destruct (v_proc (t_view s)) as [p|] eqn:Ep; [|apply ends_wp; wp_step; apply Hno; intros (_ & q & Hq & _); congruence].
  case_bool_decide as Hr; cbn [andb]; [|apply ends_wp; wp_step; apply Hno; intros (_ & q & Hq & ?); congruence].
  destruct (Z.eqb_spec (tf_trapno tf) 32) as [Et|]; [|apply ends_wp; wp_step; apply Hno; by intros []].
  apply ends_call. intros s2 H2. destruct (HQ [EYield] s2 H2) as [H3 H4]; [by rewrite decide_True by (split; [done|by exists p])|].
  by apply ends_exit_if_killed.
Qed.

Lemma ends_weaken {A} (m : M tst A) s (Q Q' : A -> tst -> Prop) (X X' : tst -> Prop) (P P' : Prop) :
  ends m s Q X P -> (forall a s', Q a s' -> Q' a s') -> (forall s', X s' -> X' s') -> (P -> P') -> ends m s Q' X' P'.
Proof. unfold ends. destruct (m s); naive_solver. Qed.

Lemma ends_the_proc s (Q : tproc -> tst -> Prop) X P : is_Some (v_proc (t_view s)) -> (forall p, v_proc (t_view s) = Some p -> Q p s) -> ends the_proc s Q X P.
Proof. intros [p Hp] HQ. apply ends_wp. unfold the_proc, myproc. wp_step. wp_step. rewrite Hp. wp_step. by apply HQ. Qed.

Lemma after_some l s s' : after l s s' -> is_Some (v_proc (t_view s)) -> is_Some (v_proc (t_view s')).
Proof. intros [_ H _] Hs. apply not_eq_None_Some. intros E. apply H in E. by apply not_eq_None_Some in Hs. Qed.

Lemma trap_syscall tf s : tf_trapno tf = T_SYSCALL -> is_Some (v_proc (t_view s)) ->
  ends (trap tf) s
    (fun _ s' => exists l, after l s s' /\ l = [ESyscall] /\ not_killed s')
    (fun s' => exists l s1, after l s s1 /\ is_killed s1 /\ after [EExit] s1 s' /\ (tf_trapno tf = T_SYSCALL \/ cs_user tf = true) /\ (l = [] \/ calls_of tf s l))
    False.
Proof.
  intros E Hs. unfold trap, calls_of. rewrite E. cbn [Z.eqb T_SYSCALL]. change (64 =? 64) with true. cbv iota.
  assert (H0 : after [] s s) by (apply after_refl; eauto).
  apply ends_bind, ends_the_proc; [done|]. intros p Hp. apply ends_bind. destruct (t_killed p) eqn:Ek.
  { apply ends_exit. intros s' Hx. exists [], s. split; [done|]. split; [by exists p|]. auto. }
  apply ends_wp. wp_step. apply ends_bind, ends_the_proc; [done|]. intros p0 Hp0. apply ends_bind, ends_wp. unfold set_proc. wp_step.
  match goal with |- ends _ ?s2 _ _ _ => assert (H1 : after [] s s2) end.
  { apply after_refl; [done|cbn; by rewrite Hp|]. intros q Hq Hr. cbn. rewrite Hq. by eexists. }
  apply ends_bind, ends_call. intros s2 H2. pose proof (after_trans _ _ _ _ _ H1 H2) as H3. cbn [app] in H3.
  apply ends_bind, ends_the_proc; [by eapply after_some|]. intros p2 Hp2. destruct (t_killed p2) eqn:Ek2.
  - apply ends_exit. intros s' Hx. exists [ESyscall], s2. split; [done|]. split; [by exists p2|]. split; [done|]. split; [by left|by right].
  - apply ends_wp. wp_step. exists [ESyscall]. split; [done|]. split; [done|]. intros q Hq. congruence.
Qed.

Lemma trap_other tf s : tf_trapno tf <> T_SYSCALL ->
  ends (trap tf) s
    (fun _ s' => exists l, after l s s' /\ calls_of tf s l /\ (tf_trapno tf = T_SYSCALL \/ cs_user tf = true -> not_killed s') /\
       (tf_trapno tf = 32 -> running s -> EYield ∈ l) /\
       (tf_trapno tf <> T_SYSCALL -> ~ kernel_fault tf s /\ (handler (tf_trapno tf) (v_cpuid (t_view s)) = None -> cs_user tf = false)))
    (fun s' => exists l s1, after l s s1 /\ is_killed s1 /\ after [EExit] s1 s' /\ (tf_trapno tf = T_SYSCALL \/ cs_user tf = true) /\
       (l = [] \/ calls_of tf s l))
    (tf_trapno tf <> T_SYSCALL /\ kernel_fault tf s).
Proof.
  intros E. unfold trap. rewrite (proj2 (Z.eqb_neq _ _) E). unfold calls_of. rewrite (proj2 (Z.eqb_neq _ _) E).
  apply ends_bind. eapply ends_weaken; [apply (ends_switch tf s (fun _ s1 => exists l, after l s s1 /\
      match handler (tf_trapno tf) (v_cpuid (t_view s)) with Some h => l = h | None => l = [EPrint] /\ is_killed s1 /\ ~ kernel_fault tf s end) (fun _ => False))|..].
  { intros s1 l Hl Ha. exists l. by rewrite Hl. }
  { intros s1 Hl Ha Hk Hf. exists [EPrint]. by rewrite Hl. }
  2: done. 2: done.
  intros [] s1 (l & Ha & Hl). apply ends_bind, ends_exit_if_killed.
  2: { intros s' Hu Hk Hx. exists l, s1. split; [done|]. split; [done|]. split; [done|]. split; [by right|]. right.
       destruct (handler _ _); [by left|by destruct Hl]. }
  intros Hk1. assert (Hnf : ~ kernel_fault tf s).
  { destruct (handler _ _) eqn:Eh; [|apply Hl]. unfold kernel_fault. rewrite Eh. by intros [? _]. }
  assert (Hu1 : handler (tf_trapno tf) (v_cpuid (t_view s)) = None -> cs_user tf = false).
  { intros Eh. rewrite Eh in Hl. destruct Hl as (_ & (p & Hp & Hkp) & _). destruct (cs_user tf); [|done]. rewrite (Hk1 eq_refl p Hp) in Hkp. done. }
  apply (ends_trap_end tf s1). intros l2 s2 H2 El2. pose proof (after_trans _ _ _ _ _ Ha H2) as H3.
  assert (Hc2 : match handler (tf_trapno tf) (v_cpuid (t_view s)) with None => l ++ l2 = [EPrint] | Some h => l ++ l2 = h \/ tf_trapno tf = 32 /\ l ++ l2 = h ++ [EYield] end).
  { destruct (decide _) as [[Et _]|_]; [|rewrite El2, app_nil_r; destruct (handler _ _); [by left|by destruct Hl]]. rewrite Et in *. cbn [handler Z.eqb Pos.eqb] in *. subst l l2. by right. }
  split.
  - intros Hk2. exists (l ++ l2). split; [done|]. split; [done|]. split; [intros [?|?]; [done|by apply Hk2]|]. split; [|done].
    intros Et (p & Hp & Hr). rewrite decide_True in El2; [subst l2; set_solver|]. split; [done|]. rewrite Et in Hl. cbn [handler Z.eqb Pos.eqb] in Hl.
    destruct (af_runs _ _ _ Ha p Hp Hr) as (p1 & Hp1 & Hr1); [|by exists p1]. intros e He. subst l. destruct (v_cpuid (t_view s) =? 0); set_solver.
  - intros s3 Hu Hk Hx. exists (l ++ l2), s2. split; [done|]. split; [done|]. split; [done|]. split; [by right|]. by right.
Qed.

(** C37: [trap] ends in one of three ways.  It returns: a process in user mode is
    not killed at that moment, the calls made are those of the interrupt, one
    acknowledgement after its driver, and a clock interrupt of a running
    process then gives up the CPU once.  Or the process is killed and has
    called [exit], on the way in or out of a system call or before it goes
    back to user mode; always so after a fault in user mode.  Or the kernel
    panics: exactly on an unknown trap with no process or from kernel code. *)
Theorem trap_correct tf s :
  (tf_trapno tf = T_SYSCALL -> is_Some (v_proc (t_view s))) ->
  ends (trap tf) s
    (fun _ s' => exists l, after l s s' /\ calls_of tf s l /\ (tf_trapno tf = T_SYSCALL \/ cs_user tf = true -> not_killed s') /\
       (tf_trapno tf = 32 -> running s -> EYield ∈ l) /\
       (tf_trapno tf <> T_SYSCALL -> ~ kernel_fault tf s /\ (handler (tf_trapno tf) (v_cpuid (t_view s)) = None -> cs_user tf = false)))
    (fun s' => exists l s1, after l s s1 /\ is_killed s1 /\ after [EExit] s1 s' /\ (tf_trapno tf = T_SYSCALL \/ cs_user tf = true) /\
       (l = [] \/ calls_of tf s l))
    (tf_trapno tf <> T_SYSCALL /\ kernel_fault tf s).
Proof.
  intros Hs. destruct (Z.eq_dec (tf_trapno tf) T_SYSCALL) as [E|E].
  - eapply ends_weaken; [apply (trap_syscall tf s E), Hs, E|..]; [|naive_solver|done].
    intros [] s' (l & Ha & -> & Hk). exists [ESyscall]. unfold calls_of. rewrite E. split_and!; done.
  - apply (trap_other tf s E).
Qed.

(** ** Sleeping *)

(** A process asleep on [&ticks] is woken by a clock interrupt, and runs again
    at most [K] ticks later. *)
Variable K : Z.
Hypothesis sleep_ticks : forall v, exists k, 1 <= k <= K /\ v_ticks (during ESleep v) = u32 (v_ticks v + k).

Lemma ends_sleep_loop fuel ticks0 n (Q : Z -> tst -> Prop) X P :
  u32 n + K <= 2 ^ 32 ->
  (forall s1 s' k', u32 n <= k' -> u32 (v_ticks (t_view s1)) = u32 (ticks0 + k') -> after [ERelease] s1 s' -> Q 0 s') ->
  (forall s1 s', is_killed s1 -> after [ERelease] s1 s' -> Q (-1) s') ->
  forall k s, is_Some (v_proc (t_view s)) -> 0 <= k < 2 ^ 32 -> u32 (v_ticks (t_view s)) = u32 (ticks0 + k) -> Z.max 0 (u32 n - k) < Z.of_nat fuel ->
  ends (sleep_loop fuel ticks0 n) s Q X P.
Proof.
  intros HK H0 H1. pose proof (u32_range n) as Hn. induction fuel as [|fuel IH]; intros k s Hs Hk Et Hf; [lia|]. cbn [sleep_loop].
  apply ends_bind, ends_wp. wp_step. rewrite <- u32_sub_l, Et, u32_sub_l. replace (ticks0 + k - ticks0) with k by lia. rewrite (u32_small k) by done.
  destruct (Z.ltb_spec k (u32 n)).
  - apply ends_bind, ends_the_proc; [done|]. intros p Hp. destruct (t_killed p) eqn:Ek.
    + apply ends_bind, ends_call. intros s' Hr. apply ends_wp. wp_step. apply (H1 s s'); [by exists p|done].
    + apply ends_bind, ends_wp. unfold call. wp_step. destruct (sleep_ticks (t_view s)) as (d & Hd & Ed). apply (IH (k + d)).
      * cbn. destruct (v_proc (during ESleep (t_view s))) eqn:E; [done|]. apply during_proc in E. rewrite E in Hs. by destruct Hs.
      * lia.
      * cbn. rewrite Ed, u32_idem, <- u32_add_l, Et, u32_add_l. f_equal. lia.
      * lia.
  - apply ends_bind, ends_call. intros s' Hr. apply ends_wp. wp_step. by apply (H0 s s' k).
Qed.

(** [sys_sleep] returns: 0 when [n], read as an unsigned number, clock ticks
    have gone by since it took the lock, or -1 when the process is killed.  It
    holds the lock from then to just before it returns. *)
Theorem sys_sleep_correct n s fuel :
  is_Some (v_proc (t_view s)) -> u32 n + K <= 2 ^ 32 -> u32 n < Z.of_nat fuel ->
  ends (sys_sleep fuel (Got n)) s
    (fun r s' => exists s0 s1, after [EAcquire] s s0 /\ after [ERelease] s1 s' /\
       (r = 0 /\ (exists k, u32 n <= k /\ u32 (v_ticks (t_view s1)) = u32 (v_ticks (t_view s0) + k)) \/ r = -1 /\ is_killed s1))
    (fun _ => False) False.
Proof.
  intros Hs HK Hf. pose proof (u32_range n). unfold sys_sleep. apply ends_bind, ends_call. intros s0 H0. apply ends_bind, ends_wp. wp_step.
  apply (ends_sleep_loop fuel (v_ticks (t_view s0)) n) with (k := 0); [done|..].
  - intros s1 s' k Hk Et Hr. exists s0, s1. split; [done|]. split; [done|]. left. eauto.
  - intros s1 s' Hk Hr. exists s0, s1. auto.
  - by eapply after_some.
  - lia.
  - by rewrite Z.add_0_r.
  - lia.
Qed.
End trap.

(** ** A clock interrupt *)

(** Nothing else happens but the clock. *)
Definition demo_during (e : tevent) (v : tview) : tview :=
  match e with ESleep => v <| v_ticks := u32 (v_ticks v + 1) |> | _ => v end.
Definition demo_thread : tst := mk_tst (mk_tview 0 41 (Some (mk_tproc false RUNNING None))) [].

Lemma demo_during_proc e v : v_proc (demo_during e v) = None <-> v_proc v = None.
Proof. by destruct e. Qed.
Lemma demo_during_runs e v p : e <> EYield -> e <> ESleep -> e <> ESyscall -> v_proc v = Some p -> t_state p = RUNNING ->
  exists p', v_proc (demo_during e v) = Some p' /\ t_state p' = RUNNING.
Proof. intros _ _ _ Hp Hr. exists p. by destruct e. Qed.

Lemma trap_correct_witness :
  exists s', trap demo_during (mk_tf 32 0 0 27) demo_thread = Ok () s' /\ not_killed s' /\ v_ticks (t_view s') = 42 /\ EYield ∈ t_log s'.
Proof.
  pose proof (trap_correct demo_during demo_during_proc demo_during_runs (mk_tf 32 0 0 27) demo_thread ltac:(done)) as H.
  eexists. split; [reflexivity|]. destruct H as (l & Ha & _ & Hk & Hy & _). split; [apply Hk; right; reflexivity|]. split; [reflexivity|].
  assert (Hr : running demo_thread) by (by eexists). exact (eq_ind_r (fun x => EYield ∈ x) (Hy eq_refl Hr) (af_log _ _ _ Ha)).
Defined.

Lemma sys_sleep_correct_witness :
  exists s', sys_sleep demo_during 6 (Got 5) demo_thread = Ok 0 s' /\ v_ticks (t_view s') = 46.
Proof.
  pose proof (sys_sleep_correct demo_during demo_during_proc demo_during_runs 1) as H.
  assert (Hd : forall v, exists k, 1 <= k <= 1 /\ v_ticks (demo_during ESleep v) = u32 (v_ticks v + k)) by (intros v; exists 1; split; [lia|done]).
  specialize (H Hd 5 demo_thread 6%nat ltac:(by eexists) ltac:(cbv; done) ltac:(by vm_compute)).
  unfold ends in H. destruct (sys_sleep demo_during 6 (Got 5) demo_thread) as [r s'| |] eqn:E; [|done|done].
  exists s'. assert (Es : sys_sleep demo_during 6 (Got 5) demo_thread = Ok 0 (mk_tst (mk_tview 0 46 (Some (mk_tproc false RUNNING None))) [EAcquire; ESleep; ESleep; ESleep; ESleep; ESleep; ERelease])) by reflexivity.
  rewrite E in Es. by injection Es as -> ->.
Defined.
