(* ===== verification/Apic.v ===== *)
(** Interrupt controllers and the clock chip ([lapic.c], [ioapic.c],
    [picirq.c]).

    The local APIC, the I/O APIC and the ports are hardware: each has an
    abstract state with the operations the code uses, and a class of laws with
    what the manuals say of them.  The local APIC's registers are named by
    their index in [lapic[]].  [irq_setup] joins the controllers with the
    drivers that enable interrupts ([uartinit], [ideinit]). *)

From S2P Require Import Prelude CString Kalloc Ports Console Ide Seg Trap.

(** ** The local APIC *)

Definition ID : Z := 32 / 4.
Definition VER : Z := 48 / 4.
Definition TPR : Z := 128 / 4.
Definition EOI : Z := 176 / 4.
Definition SVR : Z := 240 / 4.
Definition ICRLO : Z := 768 / 4.
Definition INIT : Z := 1280.
Definition STARTUP : Z := 1536.
Definition DELIVS : Z := 4096.
Definition ASSERT : Z := 16384.
Definition LEVEL : Z := 32768.
Definition ICRHI : Z := 784 / 4.
Definition TIMER : Z := 800 / 4.
Definition PCINT : Z := 832 / 4.
Definition LINT0 : Z := 848 / 4.
Definition LINT1 : Z := 864 / 4.
Definition ERROR : Z := 880 / 4.
Definition TICR : Z := 896 / 4.
Definition TDCR : Z := 992 / 4.

Class LapicOps (L : Type) := { la_read : Z -> L -> Z * L; la_write : Z -> Z -> L -> L }.

Section lapic.
Context {L : Type} `{!LapicOps L}.

Definition lapic_get (r : Z) : M L Z := fun l => let '(v, l') := la_read r l in Ok v l'.

Definition lapicw (index value : Z) : M L () :=
  modify (la_write index (u32 value));;
  lapic_get ID;;
  mret ().



Definition lapicid (lapic : Z) : M L Z :=
  if lapic =? 0 then mret 0 else
  v ← lapic_get ID;
  mret (Z.shiftr v 24).

Definition lapiceoi (lapic : Z) : M L () := when (negb (lapic =? 0)) (lapicw EOI 0).

Definition microdelay {S : Type} (us : Z) : M S () := mret ().
End lapic.

(** ** The I/O APIC *)

Definition REG_TABLE : Z := 16.

(** Writing the register number, and reading or writing the data register. *)
Class IoapicOps (I : Type) := { io_setreg : Z -> I -> I; io_getdata : I -> Z * I; io_setdata : Z -> I -> I }.

Section ioapic.
Context {I : Type} `{!IoapicOps I}.



End ioapic.

(** ** The old interrupt controllers *)


(** ** Starting another processor, and the clock chip *)

Definition CMOS_PORT : Z := 112.
Definition CMOS_RETURN : Z := 113.
Definition CMOS_STATA : Z := 10.
Definition CMOS_STATB : Z := 11.
Definition CMOS_UIP : Z := Z.shiftl 1 7.
Definition SECS : Z := 0.
Definition MINS : Z := 2.
Definition HOURS : Z := 4.
Definition DAY : Z := 7.
Definition MONTH : Z := 8.
Definition YEAR : Z := 9.

Record apst (L D : Type) := mk_apst { ap_lapic : L; ap_dev : D; ap_mem : mem }.
Arguments mk_apst {L D} _ _ _.
Arguments ap_lapic {L D} _.
Arguments ap_dev {L D} _.
Arguments ap_mem {L D} _.
#[export] Instance eta_apst (L D : Type) : Settable (apst L D) := fun s => mk_apst (ap_lapic s) (ap_dev s) (ap_mem s).

Section startap.
Context {L D : Type} `{!LapicOps L} `{!PortOps D}.

Definition on_lapic {A} (m : M L A) : M (apst L D) A := zoom ap_lapic (fun l s => s <| ap_lapic := l |>) m.
Definition on_port {A} (m : M D A) : M (apst L D) A := zoom ap_dev (fun d s => s <| ap_dev := d |>) m.
Definition wr_ushort (a v : Z) : M (apst L D) () :=
  modify (fun s => s <| ap_mem := store (store (ap_mem s) a v) (a + 1) (Z.shiftr v 8) |>).

(** [apicid] is a [uchar], [addr] a [uint]; [addr >> 4] is stored in a
    [ushort]. *)
Definition lapicstartap (apicid addr : Z) : M (apst L D) () :=
  on_port (outb CMOS_PORT 15);;
  on_port (outb (CMOS_PORT + 1) 10);;
  let wrv := P2V (Z.lor (Z.shiftl 64 4) 103) in
  wr_ushort wrv 0;;
  wr_ushort (wrv + 2) (u16 (Z.shiftr addr 4));;
  on_lapic (lapicw ICRHI (Z.shiftl apicid 24));;
  on_lapic (lapicw ICRLO (Z.lor (Z.lor INIT LEVEL) ASSERT));;
  microdelay 200;;
  on_lapic (lapicw ICRLO (Z.lor INIT LEVEL));;
  microdelay 100;;
  forM (seqZ 0 2) (fun i =>
    on_lapic (lapicw ICRHI (Z.shiftl apicid 24));;
    on_lapic (lapicw ICRLO (Z.lor STARTUP (Z.shiftr addr 12)));;
    microdelay 200).
End startap.

Record rtcdate := mk_rtc { r_second : Z; r_minute : Z; r_hour : Z; r_day : Z; r_month : Z; r_year : Z }.
#[export] Instance rtcdate_eq_dec : EqDecision rtcdate.
Proof. solve_decision. Defined.

Section cmos.
Context {D : Type} `{!PortOps D}.

Definition cmos_read (reg : Z) : M D Z :=
  outb CMOS_PORT reg;;
  microdelay 200;;
  inb CMOS_RETURN.

Definition fill_rtcdate : M D rtcdate :=
  second ← cmos_read SECS;
  minute ← cmos_read MINS;
  hour ← cmos_read HOURS;
  day ← cmos_read DAY;
  month ← cmos_read MONTH;
  year ← cmos_read YEAR;
  mret (mk_rtc second minute hour day month year).

(** The [for(;;)], at most [fuel] times round. *)
Fixpoint cmos_loop (fuel : nat) : M D rtcdate :=
  match fuel with
  | O => block
  | S fuel =>
      t1 ← fill_rtcdate;
      a ← cmos_read CMOS_STATA;
      if negb (Z.land a CMOS_UIP =? 0) then cmos_loop fuel else
      t2 ← fill_rtcdate;
      if bool_decide (t1 = t2) then mret t1 else cmos_loop fuel
  end.

Definition CONV (x : Z) : Z := Z.shiftr x 4 * 10 + Z.land x 15.
Definition conv_date (t : rtcdate) : rtcdate :=
  mk_rtc (CONV (r_second t)) (CONV (r_minute t)) (CONV (r_hour t)) (CONV (r_day t)) (CONV (r_month t)) (CONV (r_year t)).

Definition cmostime (fuel : nat) : M D rtcdate :=
  sb ← cmos_read CMOS_STATB;
  let bcd := Z.land sb (Z.shiftl 1 2) =? 0 in
  t1 ← cmos_loop fuel;
  let t1 := if bcd then conv_date t1 else t1 in
  mret (mk_rtc (r_second t1) (r_minute t1) (r_hour t1) (r_day t1) (r_month t1) (r_year t1 + 2000)).
End cmos.

(** ** What the manuals say of the local APIC *)

(** The registers that hold what is written to them.  A write of [ICRLO] sends
    a command to the destination in [ICRHI]; the unit is then busy for a while,
    which [DELIVS] shows. *)
Definition lapic_plain : list Z := [TPR; SVR; ICRHI; TIMER; PCINT; LINT0; LINT1; ERROR; TICR; TDCR].

Class LapicLayer (L : Type) `{!LapicOps L} := {
  la_reg : L -> Z -> Z;
  la_ipis : L -> list (Z * Z);
  la_busy : L -> nat;
  la_polls : nat;
  la_read_val : forall r l, fst (la_read r l) = la_reg l r;
  la_read_reg : forall r l r', r' <> ICRLO -> la_reg (snd (la_read r l)) r' = la_reg l r';
  la_read_ipis : forall r l, la_ipis (snd (la_read r l)) = la_ipis l;
  la_read_busy : forall r l, (la_busy (snd (la_read r l)) <= la_busy l - (if (r =? ICRLO)%Z then 1 else 0))%nat;
  la_idle : forall l, la_busy l = 0%nat -> Z.land (la_reg l ICRLO) DELIVS = 0;
  la_write_reg : forall r v l r', r' ∈ lapic_plain -> la_reg (la_write r v l) r' = if r' =? r then v else la_reg l r';
  la_write_ver : forall r v l, la_reg (la_write r v l) VER = la_reg l VER;
  la_write_ipis : forall r v l, la_ipis (la_write r v l) = la_ipis l ++ (if r =? ICRLO then [(la_reg l ICRHI, v)] else []);
  la_write_busy : forall r v l, (la_busy (la_write r v l) <= la_polls)%nat
}.

(** A sequence of writes: what a register holds after it, and the commands it
    sends. *)
Definition last_write (ws : list (Z * Z)) (r old : Z) : Z := foldl (fun a w => if r =? w.1 then w.2 else a) old ws.
Fixpoint ipis_of (ws : list (Z * Z)) (hi : Z) : list (Z * Z) :=
  match ws with
  | [] => []
  | (i, v) :: ws => if i =? ICRLO then (hi, v) :: ipis_of ws hi else ipis_of ws (if ICRHI =? i then v else hi)
  end.

Section lapic_rules.
Context {L : Type} `{!LapicOps L} `{!LapicLayer L}.

Record wrote (ws : list (Z * Z)) (l l' : L) : Prop := {
  wr_reg : forall r, r ∈ lapic_plain -> la_reg l' r = last_write ws r (la_reg l r);
  wr_ver : la_reg l' VER = la_reg l VER;
  wr_ipis : la_ipis l' = la_ipis l ++ ipis_of ws (la_reg l ICRHI)
}.

Lemma wrote_none l : wrote [] l l.
Proof. split; [done|done|]. by rewrite app_nil_r. Qed.

Lemma ipis_of_app ws ws' hi : ipis_of (ws ++ ws') hi = ipis_of ws hi ++ ipis_of ws' (last_write ws ICRHI hi).
Proof.
  revert hi. induction ws as [|[i v] ws IH]; intros hi; [done|]. cbn [app ipis_of last_write foldl fst snd]. unfold last_write in *. cbn [foldl fst snd].
  destruct (Z.eqb_spec i ICRLO) as [->|]; [|by rewrite IH]. rewrite IH. change (ICRHI =? ICRLO) with false. done.
Qed.

Lemma plain_icrhi : ICRHI ∈ lapic_plain.
Proof. unfold lapic_plain. set_solver. Qed.
Lemma plain_not_icrlo r : r ∈ lapic_plain -> r <> ICRLO.
Proof. unfold lapic_plain. rewrite !elem_of_cons, elem_of_nil. intros H ->. naive_solver. Qed.

Lemma plain_not_ver r : r ∈ lapic_plain -> r <> VER.
Proof. unfold lapic_plain. rewrite !elem_of_cons, elem_of_nil. intros H ->. naive_solver. Qed.

Lemma wrote_write ws l0 l r v : wrote ws l0 l -> wrote (ws ++ [(r, v)]) l0 (la_write r v l).
Proof.
  intros [H1 H2 H3]. split.
  - intros r' Hr. rewrite la_write_reg by done. unfold last_write. rewrite foldl_app. cbn. destruct (r' =? r); [done|]. by apply H1.
  - by rewrite la_write_ver.
  - rewrite la_write_ipis, H3, ipis_of_app, <- (assoc_L (++)). f_equal. f_equal. cbn [ipis_of].
    destruct (r =? ICRLO); [|done]. by rewrite (H1 _ plain_icrhi).
Qed.

Lemma wrote_read ws l0 l r : wrote ws l0 l -> wrote ws l0 (snd (la_read r l)).
Proof.
  intros [H1 H2 H3]. split.
  - intros r' Hr. rewrite la_read_reg by (by apply plain_not_icrlo). by apply H1.
  - by rewrite la_read_reg.
  - by rewrite la_read_ipis.
Qed.

Lemma wp_lapic_get r l (Q : Z -> L -> Prop) : Q (la_reg l r) (snd (la_read r l)) -> wp (lapic_get r) l Q.
Proof. rewrite <- la_read_val. unfold wp, lapic_get. by destruct (la_read r l). Qed.

Lemma wp_lapicw ws l0 r v l (Q : () -> L -> Prop) :
  wrote ws l0 l -> (forall l', wrote (ws ++ [(r, u32 v)]) l0 l' -> (la_busy l' <= la_polls)%nat -> Q () l') -> wp (lapicw r v) l Q.
Proof.
  intros Hw HQ. unfold lapicw. wp_step. wp_step. wp_step. apply wp_lapic_get. wp_step. apply HQ; [by apply wrote_read, wrote_write|].
  pose proof (la_read_busy ID (la_write r (u32 v) l)). pose proof (la_write_busy r (u32 v) l). lia.
Qed.

End lapic_rules.


(** The writes of [lapicstartap]. *)
Definition start_writes (apicid addr : Z) : list (Z * Z) :=
  let hi := u32 (Z.shiftl apicid 24) in let go := u32 (Z.lor STARTUP (Z.shiftr addr 12)) in
  [(ICRHI, hi); (ICRLO, 50432); (ICRLO, 34048); (ICRHI, hi); (ICRLO, go); (ICRHI, hi); (ICRLO, go)].

Section lapic_init.
Context {L : Type} `{!LapicOps L} `{!LapicLayer L}.



(** Where a processor begins to run on a startup command, and at a warm reset
    through the vector at 40:67. *)
Definition sipi_addr (cmd : Z) : Z := 4096 * Z.land cmd 255.
Definition warm_addr (m : mem) : Z :=
  let wrv := P2V 1127 in 16 * (load m (wrv + 2) + 256 * load m (wrv + 3)) + (load m wrv + 256 * load m (wrv + 1)).

Context {D : Type} `{!PortOps D}.

Lemma wp_lapicstartap apicid addr (s : apst L D) (Q : () -> apst L D -> Prop) :
  (forall l' m', wrote (start_writes apicid addr) (ap_lapic s) l' -> 
     m' = store (store (store (store (ap_mem s) (P2V 1127) 0) (P2V 1127 + 1) 0) (P2V 1127 + 2) (u16 (Z.shiftr addr 4))) (P2V 1127 + 2 + 1) (Z.shiftr (u16 (Z.shiftr addr 4)) 8) ->
     Q () (mk_apst l' (p_outb 113 10 (p_outb 112 15 (ap_dev s))) m')) -> wp (lapicstartap apicid addr) s Q.
Proof.
  intros HQ. destruct s as [l d m]. unfold lapicstartap, on_port, on_lapic, wr_ushort, outb, microdelay. change (P2V (Z.lor (Z.shiftl 64 4) 103)) with (P2V 1127).
  do 2 (wp_step; wp_step; wp_step). do 2 (wp_step; wp_step). pose proof (wrote_none l) as Hw. cbn [ap_lapic ap_dev ap_mem set_field] in *.
  do 2 (wp_step; wp_step; eapply wp_lapicw; [exact Hw|]; clear Hw; intros ? Hw _; cbn [app] in Hw). wp_step. wp_step.
  wp_step; wp_step; eapply wp_lapicw; [exact Hw|]; clear Hw; intros ? Hw _; cbn [app] in Hw. wp_step. wp_step.
  change (seqZ 0 2) with [0; 1]. cbn [forM].
  do 2 (wp_step; wp_step; wp_step; eapply wp_lapicw; [exact Hw|]; clear Hw; intros ? Hw _; cbn [app] in Hw;
    wp_step; wp_step; eapply wp_lapicw; [exact Hw|]; clear Hw; intros ? Hw _; cbn [app] in Hw; wp_step). wp_step.
  apply HQ; [exact Hw|done].
Qed.

Lemma startup_vector x : 0 <= x < 256 -> u32 (Z.lor STARTUP x) = 1536 + x /\ Z.land (1536 + x) 255 = x.
Proof.
  intros Hx. assert (E : Z.lor STARTUP x = 1536 + x).
  { change STARTUP with (Z.shiftl 6 8). rewrite lor_shift8 by done. lia. }
  rewrite E, u32_small by lia. split; [done|]. change 255 with (Z.ones 8). rewrite Z.land_ones by lia. change (2 ^ 8) with 256.
  replace (1536 + x) with (x + 6 * 256) by lia. rewrite Z.mod_add by lia. by apply Z.mod_small.
Qed.

(** Starting a processor: it is sent an INIT, the end of the INIT, and two
    startup commands, in that order and to its APIC id; both the startup
    command and the warm reset vector lead to [addr]. *)
Theorem lapicstartap_correct apicid addr (s : apst L D) :
  0 <= apicid < 256 -> 0 <= addr < 2 ^ 20 -> addr mod 4096 = 0 ->
  wp (lapicstartap apicid addr) s (fun _ s' =>
    let hi := apicid * 2 ^ 24 in let go := 1536 + addr / 4096 in
    la_ipis (ap_lapic s') = la_ipis (ap_lapic s) ++ [(hi, 50432); (hi, 34048); (hi, go); (hi, go)] /\
    sipi_addr go = addr /\ warm_addr (ap_mem s') = addr /\ ap_dev s' = p_outb 113 10 (p_outb 112 15 (ap_dev s)) /\
    forall a, 0 <= a < 2 ^ 32 -> a < P2V 1127 \/ P2V 1127 + 4 <= a -> load (ap_mem s') a = load (ap_mem s) a).
Proof.
  intros Hi Ha Hm. apply wp_lapicstartap. intros l' m' [_ _ Hw] Em. cbv zeta. cbn [ap_lapic ap_mem ap_dev].
  pose proof (Z.div_mod addr 4096 ltac:(lia)) as Hd. set (q := addr / 4096) in *. clearbody q.
  assert (Es : Z.shiftr addr 12 = q) by (rewrite Z.shiftr_div_pow2 by lia; change (2 ^ 12) with 4096; symmetry; apply (Z.div_unique _ _ _ 0); lia).
  assert (E4 : Z.shiftr addr 4 = 256 * q) by (rewrite Z.shiftr_div_pow2 by lia; change (2 ^ 4) with 16; symmetry; apply (Z.div_unique _ _ _ 0); lia).
  destruct (startup_vector q) as [Ev El]; [lia|]. split; [|split; [|split; [|split; [done|]]]].
  - rewrite Hw. unfold start_writes. rewrite Es, Ev, Z.shiftl_mul_pow2, u32_small by lia. done.
  - unfold sipi_addr. rewrite El. lia.
  - assert (E16 : u16 (256 * q) = 256 * q) by (unfold u16; apply Z.mod_small; lia).
    assert (E8 : Z.shiftr (256 * q) 8 = q) by (rewrite Z.shiftr_div_pow2 by lia; change (2 ^ 8) with 256; rewrite Z.mul_comm; by apply Z.div_mul).
    rewrite Em, E4, E16, E8. unfold warm_addr. change (P2V 1127) with 2147484775. cbn [Z.add Pos.add Pos.succ Pos.add_carry].
    rewrite !load_small, !store_at by lia. unfold u8. change (0 mod 2 ^ 8) with 0. change (2 ^ 8) with 256.
    decide_cmp. rewrite (Z.mul_comm 256 q), Z.mod_mul, (Z.mod_small q) by lia. lia.
  - intros a H0 H1. rewrite Em. change (P2V 1127) with 2147484775 in *. rewrite !store_ne; [done|..]; rewrite !u32_small by lia; lia.
Qed.
End lapic_init.

(** ** What the manuals say of the I/O APIC and the old controllers *)

(** The registers behind the pair; those of the redirection table, from
    [REG_TABLE] on, hold what is written to them. *)
Class IoapicLayer (I : Type) `{!IoapicOps I} := {
  io_reg : I -> Z -> Z;
  io_sel : I -> Z;
  io_setreg_sel : forall r i, io_sel (io_setreg r i) = r;
  io_setreg_reg : forall r i r', io_reg (io_setreg r i) r' = io_reg i r';
  io_getdata_val : forall i, fst (io_getdata i) = io_reg i (io_sel i);
  io_getdata_reg : forall i r', io_reg (snd (io_getdata i)) r' = io_reg i r';
  io_setdata_reg : forall v i r', REG_TABLE <= io_sel i -> io_reg (io_setdata v i) r' = if r' =? io_sel i then v else io_reg i r'
}.

(** The interrupt masks behind the two data ports. *)
Class PicLayer (D : Type) `{!PortOps D} := {
  pic_masks : D -> Z * Z;
  pic_out : forall port v d, pic_masks (p_outb port v d) =
    if port =? 33 then (v, snd (pic_masks d)) else if port =? 161 then (fst (pic_masks d), v) else pic_masks d;
  pic_in : forall port d, pic_masks (snd (p_inb port d)) = pic_masks d
}.

Section ioapic_rules.
Context {I : Type} `{!IoapicOps I} `{!IoapicLayer I}.







End ioapic_rules.

(** ** The interrupts of the machine *)


(** The drivers' own variables are kept apart from the hardware. *)
Record irqst (L I D : Type) := mk_irqst {
  q_lapic : L; q_ioapic : I; q_dev : D; q_cons : console (); q_ide : ide ()
}.
Arguments mk_irqst {L I D} _ _ _ _ _.
Arguments q_lapic {L I D} _.
Arguments q_ioapic {L I D} _.
Arguments q_dev {L I D} _.
Arguments q_cons {L I D} _.
Arguments q_ide {L I D} _.
#[export] Instance eta_irqst (L I D : Type) : Settable (irqst L I D) := fun s =>
  mk_irqst (q_lapic s) (q_ioapic s) (q_dev s) (q_cons s) (q_ide s).


(** What the driver of the disk relies on when it starts: the drive is ready
    within [DRIVE_POLLS] reads of its status. *)
Class DriveLayer (D : Type) `{!PortOps D} := {
  drive_polls : D -> nat;
  DRIVE_POLLS : nat;
  drive_bound : forall d, (drive_polls d < DRIVE_POLLS)%nat;
  drive_status : forall d, match drive_polls d with
    | O => Z.land (fst (p_inb 503 d)) (Z.lor IDE_BSY IDE_DRDY) = IDE_DRDY
    | S k => drive_polls (snd (p_inb 503 d)) = k
    end
}.

Section interrupts.
Context {L I D : Type} `{!LapicOps L} `{!LapicLayer L} `{!IoapicOps I} `{!IoapicLayer I} `{!PortOps D} `{!PicLayer D} `{!DriveLayer D}.
Implicit Types s : irqst L I D.



(** *** The drivers leave the controllers alone but for [ioapicenable] *)





Section uart.
Variables (i : I) (pm : Z * Z) (u : bool).




End uart.











End interrupts.

(** ** A machine *)

(** Registers as finite maps: the local APIC is never busy, the I/O APIC has
    24 pins. *)
Record demo_lapic := mk_dl { dl_regs : gmap Z Z; dl_sent : list (Z * Z) }.
#[local] Instance demo_lapic_ops : LapicOps demo_lapic := {|
  la_read := fun r l => (if r =? ICRLO then 0 else default 0 (dl_regs l !! r), l);
  la_write := fun r v l => mk_dl (if r =? VER then dl_regs l else <[r := v]> (dl_regs l))
    (dl_sent l ++ if r =? ICRLO then [(default 0 (dl_regs l !! ICRHI), v)] else [])
|}.
#[local] Program Instance demo_lapic_layer : LapicLayer demo_lapic := {|
  la_reg := fun l r => if r =? ICRLO then 0 else default 0 (dl_regs l !! r);
  la_ipis := dl_sent; la_busy := fun _ => 0%nat; la_polls := 0%nat
|}.
Solve Obligations with done.
Next Obligation.
  intros r v l r' Hr. cbn. rewrite (proj2 (Z.eqb_neq r' ICRLO)) by by apply plain_not_icrlo.
  destruct (Z.eqb_spec r VER) as [->|]; cbn.
  - destruct (Z.eqb_spec r' VER) as [->|]; [|done]. by apply plain_not_ver in Hr.
  - destruct (Z.eqb_spec r' r) as [->|]; [by rewrite lookup_insert_eq|by rewrite lookup_insert_ne].
Qed.
Next Obligation.
  intros r v l. cbn. change (VER =? ICRLO) with false. cbn. destruct (Z.eqb_spec r VER); [done|]. by rewrite lookup_insert_ne.
Qed.

Record demo_ioapic := mk_di { di_sel : Z; di_regs : gmap Z Z }.
#[local] Instance demo_ioapic_ops : IoapicOps demo_ioapic := {|
  io_setreg := fun r i => mk_di r (di_regs i);
  io_getdata := fun i => (default 0 (di_regs i !! di_sel i), i);
  io_setdata := fun v i => mk_di (di_sel i) (<[di_sel i := v]> (di_regs i))
|}.
#[local] Program Instance demo_ioapic_layer : IoapicLayer demo_ioapic := {| io_reg := fun i r => default 0 (di_regs i !! r); io_sel := di_sel |}.
Solve Obligations with done.
Next Obligation. intros v i r' _. cbn. destruct (Z.eqb_spec r' (di_sel i)) as [->|]; [by rewrite lookup_insert_eq|by rewrite lookup_insert_ne]. Qed.

#[local] Abbreviation demo_ports := (gmap Z Z).
#[local] Instance demo_ports_ops : PortOps demo_ports := {| p_inb := fun p d => (if p =? 503 then 64 else default 0 (d !! p), d); p_outb := fun p v d => <[p := v]> d |}.
#[local] Program Instance demo_pic : PicLayer demo_ports := {| pic_masks := fun d => (default 0 (d !! 33), default 0 (d !! 161)) |}.
Next Obligation.
  intros port v d. cbn [p_outb demo_ports_ops fst snd]. destruct (Z.eqb_spec port 33) as [->|]; [by rewrite lookup_insert_eq, lookup_insert_ne|].
  destruct (Z.eqb_spec port 161) as [->|]; [by rewrite lookup_insert_eq, lookup_insert_ne|by rewrite !lookup_insert_ne].
Qed.
Next Obligation. done. Qed.
#[local] Program Instance demo_drive : DriveLayer demo_ports := {| drive_polls := fun _ => 0%nat; DRIVE_POLLS := 1%nat |}.
Next Obligation. intros d. cbn. lia. Qed.
Next Obligation. intros d. reflexivity. Qed.



Lemma lapicstartap_correct_witness :
  exists s', lapicstartap 4 28672 (mk_apst (mk_dl ∅ []) (∅ : demo_ports) (fun _ => 0)) = Ok () s' /\
    la_ipis (ap_lapic s') = [(67108864, 50432); (67108864, 34048); (67108864, 1543); (67108864, 1543)] /\ warm_addr (ap_mem s') = 28672.
Proof.
  assert (H := lapicstartap_correct 4 28672 (mk_apst (mk_dl ∅ []) (∅ : demo_ports) (fun _ => 0)) ltac:(lia) ltac:(lia) ltac:(done)).
  apply wp_elim in H as ([] & s' & E & Hi & _ & Hw & _). exists s'. split; [exact E|]. split; [exact Hi|exact Hw].
Defined.

(** ** The time of day *)

(** The clock chip (MC146818).  Port operations are numbered; [rtc_now n] counts
    the updates up to the [n]th, and [rtc_true k] is the date after [k] of them.
    The registers hold it in binary or as two decimal digits, as bit 2 of status
    register B says.  While an update is under way ([rtc_busy]) what is read from
    them is undefined.  [CMOS_UIP] ([rtc_uip]) is set some time before an update
    and stays set until it is over: where it reads as clear, no update starts for
    244 microseconds, which is taken to cover the 12 port operations that
    follow; and between two update cycles, each of at most [RTC_CYCLE]
    operations, it is clear for longer than 60 operations. *)
Definition bcd (x : Z) : Z := 16 * (x / 10) + x mod 10.
Definition rtc_map (f : Z -> Z) (t : rtcdate) : rtcdate :=
  mk_rtc (f (r_second t)) (f (r_minute t)) (f (r_hour t)) (f (r_day t)) (f (r_month t)) (f (r_year t)).
Definition rtc_fields (t : rtcdate) : list (Z * Z) :=
  [(SECS, r_second t); (MINS, r_minute t); (HOURS, r_hour t); (DAY, r_day t); (MONTH, r_month t); (YEAR, r_year t)].
Definition rtc_binary (sb : Z) : bool := negb (Z.land sb (Z.shiftl 1 2) =? 0).
Definition rtc_regs (sb : Z) (t : rtcdate) : rtcdate := if rtc_binary sb then t else rtc_map bcd t.

Lemma rtc_fields_in t :
  (SECS, r_second t) ∈ rtc_fields t /\ (MINS, r_minute t) ∈ rtc_fields t /\ (HOURS, r_hour t) ∈ rtc_fields t /\
  (DAY, r_day t) ∈ rtc_fields t /\ (MONTH, r_month t) ∈ rtc_fields t /\ (YEAR, r_year t) ∈ rtc_fields t.
Proof. unfold rtc_fields. repeat split; repeat (apply list_elem_of_here || apply list_elem_of_further). Qed.

Class RtcLayer (D : Type) `{!PortOps D} := {
  rtc_ops : D -> Z;
  rtc_sel : D -> Z;
  rtc_now : Z -> Z;
  rtc_true : Z -> rtcdate;
  rtc_statb : Z;
  rtc_busy : Z -> bool;
  rtc_uip : Z -> bool;
  RTC_CYCLE : Z;
  rtc_out : forall r d, rtc_ops (p_outb CMOS_PORT r d) = rtc_ops d + 1 /\ rtc_sel (p_outb CMOS_PORT r d) = r;
  rtc_in_ops : forall d, rtc_ops (snd (p_inb CMOS_RETURN d)) = rtc_ops d + 1;
  rtc_in_date : forall d v, rtc_busy (rtc_ops d) = false ->
    (rtc_sel d, v) ∈ rtc_fields (rtc_regs rtc_statb (rtc_true (rtc_now (rtc_ops d)))) -> fst (p_inb CMOS_RETURN d) = v;
  rtc_in_statb : forall d, rtc_sel d = CMOS_STATB -> fst (p_inb CMOS_RETURN d) = rtc_statb;
  rtc_in_uip : forall d, rtc_sel d = CMOS_STATA -> (Z.land (fst (p_inb CMOS_RETURN d)) CMOS_UIP =? 0) = negb (rtc_uip (rtc_ops d));
  rtc_stable : forall n m, rtc_uip n = false -> n <= m <= n + 12 -> rtc_busy m = false /\ rtc_now m = rtc_now n;
  rtc_rest : forall n, exists k, 0 <= k <= RTC_CYCLE /\ forall m, n + k <= m <= n + k + 60 -> rtc_uip m = false;
  rtc_mono : forall n m, n <= m -> rtc_now n <= rtc_now m;
  rtc_range : forall k, Forall (fun rv => 0 <= snd rv < 100) (rtc_fields (rtc_true k))
}.

Section rtc.
Context {D : Type} `{!PortOps D} `{!RtcLayer D}.
Implicit Types d : D.

Lemma wp_cmos_read r d (Q : Z -> D -> Prop) :
  0 <= r < 256 ->
  (forall d1 d2, rtc_ops d1 = rtc_ops d + 1 -> rtc_sel d1 = r -> rtc_ops d2 = rtc_ops d + 2 -> Q (fst (p_inb CMOS_RETURN d1)) d2) -> wp (cmos_read r) d Q.
Proof.
  intros Hr HQ. unfold cmos_read, microdelay, outb. wp_step. wp_step. wp_step. wp_step. apply wp_inb. rewrite u8_small by done.
  destruct (rtc_out r d) as [E1 E2]. apply HQ; [done|done|]. rewrite rtc_in_ops, E1. lia.
Qed.

(** The registers as they are at operation [n], if no update is under way. *)
Definition regs_at (n : Z) : rtcdate := rtc_regs rtc_statb (rtc_true (rtc_now n)).

Lemma wp_cmos_field r (f : rtcdate -> Z) d (Q : Z -> D -> Prop) :
  0 <= r < 256 -> (forall t, (r, f t) ∈ rtc_fields t) ->
  (forall v d2, rtc_ops d2 = rtc_ops d + 2 -> (rtc_busy (rtc_ops d + 1) = false -> v = f (regs_at (rtc_ops d + 1))) -> Q v d2) ->
  wp (cmos_read r) d Q.
Proof.
  intros Hr Hf HQ. apply wp_cmos_read; [done|]. intros d1 d2 E1 S1 E2. apply HQ; [done|]. rewrite <- E1. intros Hb.
  apply rtc_in_date; [done|]. rewrite S1. apply Hf.
Qed.

(** Operations [n] to [n + k] are quiet: no update changes or hides the date. *)
Definition quiet_from (n k : Z) : Prop := forall m, n <= m <= n + k -> rtc_busy m = false /\ rtc_now m = rtc_now n.

(** Read while it is quiet, the fields are those of one date. *)
Lemma wp_fill d (Q : rtcdate -> D -> Prop) :
  (forall d' t, rtc_ops d' = rtc_ops d + 12 -> (quiet_from (rtc_ops d) 11 -> t = regs_at (rtc_ops d)) -> Q t d') ->
  wp fill_rtcdate d Q.
Proof.
  intros HQ. unfold fill_rtcdate.
  wp_step. apply (wp_cmos_field SECS r_second); [done|intros; apply rtc_fields_in|]. intros v1 d1 O1 H1.
  wp_step. apply (wp_cmos_field MINS r_minute); [done|intros; apply rtc_fields_in|]. intros v2 d2 O2 H2.
  wp_step. apply (wp_cmos_field HOURS r_hour); [done|intros; apply rtc_fields_in|]. intros v3 d3 O3 H3.
  wp_step. apply (wp_cmos_field DAY r_day); [done|intros; apply rtc_fields_in|]. intros v4 d4 O4 H4.
  wp_step. apply (wp_cmos_field MONTH r_month); [done|intros; apply rtc_fields_in|]. intros v5 d5 O5 H5.
  wp_step. apply (wp_cmos_field YEAR r_year); [done|intros; apply rtc_fields_in|]. intros v6 d6 O6 H6.
  wp_step. apply HQ; [lia|]. intros Hq.
  assert (Hr : forall m (f : rtcdate -> Z) v, (rtc_busy m = false -> v = f (regs_at m)) -> rtc_ops d <= m <= rtc_ops d + 11 ->
    v = f (regs_at (rtc_ops d))).
  { intros m f v Hv Hm. destruct (Hq m Hm) as [Hb Hn]. rewrite (Hv Hb). unfold regs_at. by rewrite Hn. }
  apply Hr in H1, H2, H3, H4, H5, H6; [|lia..]. rewrite H1, H2, H3, H4, H5, H6. by destruct (regs_at (rtc_ops d)).
Qed.

(** Where [CMOS_UIP] stays clear it is quiet. *)
Lemma quiet_clear n k : (forall m, n <= m <= n + k -> rtc_uip m = false) -> quiet_from n k.
Proof.
  intros Hc m Hm. split; [exact (proj1 (rtc_stable m m (Hc m Hm) ltac:(lia)))|].
  assert (Hi : forall j : nat, Z.of_nat j <= k -> rtc_now (n + Z.of_nat j) = rtc_now n).
  { induction j as [|j IH]; intros Hj; [f_equal; lia|]. rewrite <- IH by lia.
    assert (Hu : rtc_uip (n + Z.of_nat j) = false) by (apply Hc; lia). apply (rtc_stable _ _ Hu). lia. }
  replace m with (n + Z.of_nat (Z.to_nat (m - n))) by lia. apply Hi. lia.
Qed.

Lemma quiet_sub n k n' k' : quiet_from n k -> n <= n' -> n' + k' <= n + k -> quiet_from n' k'.
Proof.
  intros H Hn Hk m Hm. destruct (H m ltac:(lia)) as [Hb E]. destruct (H n' ltac:(lia)) as [_ E']. split; [done|congruence].
Qed.

(** One time round the loop: a date, or not all of the round was clear. *)
Lemma wp_cmos_round fuel d (Q : rtcdate -> D -> Prop) :
  (forall t d', rtc_ops d' = rtc_ops d + 26 -> (exists n, rtc_ops d <= n <= rtc_ops d + 26 /\ t = regs_at n) -> Q t d') ->
  (forall d', rtc_ops d + 14 <= rtc_ops d' <= rtc_ops d + 26 ->
     ~ (forall m, rtc_ops d <= m <= rtc_ops d + 26 -> rtc_uip m = false) -> wp (cmos_loop fuel) d' Q) ->
  wp (cmos_loop (S fuel)) d Q.
Proof.
  intros HQ Hl. set (n := rtc_ops d) in *. cbn [cmos_loop]. wp_step. apply wp_fill. intros d1 t1 O1 H1. fold n in O1, H1.
  wp_step. apply wp_cmos_read; [done|]. intros a d2 A S2 O2. rewrite (rtc_in_uip a S2), negb_involutive.
  replace (rtc_ops a) with (n + 13) by lia. destruct (rtc_uip (n + 13)) eqn:Hu.
  { apply Hl; [lia|]. intros Hc. rewrite Hc in Hu by lia. done. }
  wp_step. apply wp_fill. intros d3 t2 O3 H2. replace (rtc_ops d2) with (n + 14) in * by lia.
  assert (Hq2 : quiet_from (n + 13) 12) by (intros m Hm; by apply rtc_stable).
  specialize (H2 (quiet_sub _ _ (n + 14) 11 Hq2 ltac:(lia) ltac:(lia))). case_bool_decide as E.
  - wp_step. apply HQ; [lia|]. exists (n + 14). split; [lia|congruence].
  - apply Hl; [lia|]. intros Hc. apply E. rewrite H2. pose proof (quiet_clear n 26 Hc) as Hq.
    rewrite (H1 (quiet_sub _ _ n 11 Hq ltac:(lia) ltac:(lia))). unfold regs_at. by rewrite (proj2 (Hq (n + 14) ltac:(lia))).
Qed.

(** A round that starts inside a stretch where [CMOS_UIP] is clear is the last. *)
Lemma wp_cmos_loop fuel n0 d (Q : rtcdate -> D -> Prop) :
  (forall m, n0 <= m <= n0 + 60 -> rtc_uip m = false) -> rtc_ops d <= n0 + 26 ->
  n0 <= rtc_ops d + 14 * (Z.of_nat fuel - 1) -> (0 < fuel)%nat ->
  (forall t d' n, rtc_ops d <= n <= rtc_ops d' -> t = regs_at n -> Q t d') -> wp (cmos_loop fuel) d Q.
Proof.
  intros Hc. revert d Q. induction fuel as [|fuel IH]; intros d Q Hd Hf H0 HQ; [lia|]. apply wp_cmos_round.
  - intros t d' O (n & Hn & ->). apply (HQ _ _ n); [lia|done].
  - intros d' O Hb. destruct (Z.le_gt_cases n0 (rtc_ops d)) as [Hge|Hlt].
    + destruct Hb. intros m Hm. apply Hc. lia.
    + apply IH; [lia|lia|lia|]. intros t d2 n Hn. apply HQ. lia.
Qed.

Lemma CONV_bcd x : 0 <= x < 100 -> CONV (bcd x) = x.
Proof.
  intros Hx. unfold CONV, bcd. pose proof (Z.div_mod x 10 ltac:(lia)). pose proof (Z.mod_pos_bound x 10 ltac:(lia)).
  rewrite Z.shiftr_div_pow2 by lia. change 15 with (Z.ones 4). rewrite Z.land_ones by lia. change (2 ^ 4) with 16.
  rewrite (Z.mul_comm 16), Z.div_add_l, (Z.div_small (x mod 10)) by lia. rewrite (Z.add_comm (x / 10 * 16)), Z.mod_add, (Z.mod_small (x mod 10)) by lia. lia.
Qed.

(** C40: [cmostime] returns, and the date it returns is one the clock showed during
    the call, in binary and with the century: never a mixture of two, nor
    anything read while the registers are undefined, although the clock may be
    updated while it is read.  The chip's laws ([RtcLayer]) are that the
    registers are undefined during an update, that [CMOS_UIP] is set before
    and during it, early enough for the 12 port operations that read the date,
    and that it is clear for more than 60 operations between two cycles, which
    last at most [RTC_CYCLE]. *)
Theorem cmostime_correct d fuel :
  RTC_CYCLE <= 14 * (Z.of_nat fuel - 1) ->
  wp (cmostime fuel) d (fun t d' => exists k, rtc_now (rtc_ops d) <= k <= rtc_now (rtc_ops d') /\
    t = mk_rtc (r_second (rtc_true k)) (r_minute (rtc_true k)) (r_hour (rtc_true k)) (r_day (rtc_true k)) (r_month (rtc_true k)) (r_year (rtc_true k) + 2000)).
Proof.
  intros Hf. unfold cmostime. wp_step. apply wp_cmos_read; [done|]. intros a d1 A S1 O1. rewrite (rtc_in_statb a S1). wp_step.
  destruct (rtc_rest (rtc_ops d1)) as (k & Hk & Hc).
  apply (wp_cmos_loop _ (rtc_ops d1 + k)); [done|lia|lia|lia|]. intros t d' n Hn ->. wp_step.
  exists (rtc_now n). split; [split; apply rtc_mono; lia|]. unfold regs_at, rtc_regs, rtc_binary.
  destruct (Z.land rtc_statb (Z.shiftl 1 2) =? 0); [|done]. cbn [negb]. pose proof (rtc_range (rtc_now n)) as Hr. destruct (rtc_true (rtc_now n)) as [s m h dd mo y].
  unfold rtc_fields in Hr. rewrite !Forall_cons in Hr. cbn in Hr. unfold conv_date, rtc_map. cbn. rewrite !CONV_bcd by lia. done.
Qed.
End rtc.

(** A clock that counts seconds of one minute, in decimal digits, one in a
    thousand operations: its registers read 255 during the 50 operations of an
    update, which [CMOS_UIP] announces 20 operations ahead. *)
Definition demo_date (k : Z) : rtcdate := mk_rtc (k mod 60) 59 23 31 12 26.
Record demo_rtc := mk_demo_rtc { dr_ops : Z; dr_sel : Z }.
Definition demo_busy (n : Z) : bool := n mod 1000 <? 50.
Definition demo_uip (n : Z) : bool := (n mod 1000 <? 50) || (980 <=? n mod 1000).
Definition demo_reg (d : demo_rtc) : Z :=
  if dr_sel d =? CMOS_STATA then (if demo_uip (dr_ops d) then CMOS_UIP else 0)
  else if dr_sel d =? CMOS_STATB then 2
  else if demo_busy (dr_ops d) then 255
  else default 0 (snd <$> List.find (fun rv => fst rv =? dr_sel d) (rtc_fields (rtc_regs 2 (demo_date (dr_ops d / 1000))))).
#[local] Instance demo_rtc_ops : PortOps demo_rtc := {|
  p_inb := fun _ d => (demo_reg d, mk_demo_rtc (dr_ops d + 1) (dr_sel d));
  p_outb := fun _ v d => mk_demo_rtc (dr_ops d + 1) v
|}.
#[local] Program Instance demo_rtc_layer : RtcLayer demo_rtc := {|
  rtc_ops := dr_ops; rtc_sel := dr_sel; rtc_now := fun n => n / 1000; rtc_true := demo_date; rtc_statb := 2;
  rtc_busy := demo_busy; rtc_uip := demo_uip; RTC_CYCLE := 130
|}.
Solve Obligations with done.
Next Obligation.
  intros d v Hb Hv. unfold rtc_fields in Hv. rewrite !elem_of_cons, elem_of_nil in Hv. cbn [fst p_inb demo_rtc_ops]. unfold demo_reg. rewrite Hb.
  destruct Hv as [[= E ->]|[[= E ->]|[[= E ->]|[[= E ->]|[[= E ->]|[[= E ->]|[]]]]]]]; rewrite E; reflexivity.
Qed.
Next Obligation. intros d E. cbn [fst p_inb demo_rtc_ops]. unfold demo_reg. rewrite E. reflexivity. Qed.
Next Obligation. intros d E. cbn [fst p_inb demo_rtc_ops]. unfold demo_reg. rewrite E. cbn. by destruct (demo_uip _). Qed.
Next Obligation.
  intros n m Hu Hm. unfold demo_uip, demo_busy in *. apply orb_false_iff in Hu as [H1%Z.ltb_ge H2%Z.leb_gt].
  rewrite Z.ltb_ge. Z.div_mod_to_equations. lia.
Qed.
Next Obligation.
  intros n. unfold demo_uip. destruct (decide (50 <= n mod 1000 <= 919)) as [H|H].
  - exists 0. split; [lia|]. intros m Hm. apply orb_false_iff. rewrite Z.ltb_ge, Z.leb_gt. Z.div_mod_to_equations. lia.
  - exists (if n mod 1000 <? 50 then 50 - n mod 1000 else 1050 - n mod 1000). pose proof (Z.mod_pos_bound n 1000 ltac:(lia)).
    destruct (Z.ltb_spec (n mod 1000) 50); (split; [lia|]); intros m Hm; apply orb_false_iff; rewrite Z.ltb_ge, Z.leb_gt; Z.div_mod_to_equations; lia.
Qed.
Next Obligation. intros n m H. by apply Z.div_le_mono. Qed.
Next Obligation.
  intros k. pose proof (Z.mod_pos_bound k 60 ltac:(lia)). unfold rtc_fields, demo_date. cbn. repeat (constructor; [cbn; lia|]). constructor.
Qed.

(** A call that starts just before the update of the minute. *)
Lemma cmostime_correct_witness :
  exists d', cmostime 12 (mk_demo_rtc 59975 0) = Ok (mk_rtc 0 59 23 31 12 2026) d'.
Proof.
  assert (H := cmostime_correct (mk_demo_rtc 59975 0) 12 ltac:(apply Z.leb_le; vm_compute; reflexivity)). apply wp_elim in H as (t & d' & E & k & Hk & Et). exists d'.
  rewrite E. assert (Hr : match cmostime 12 (mk_demo_rtc 59975 0) with Ok t _ => t = mk_rtc 0 59 23 31 12 2026 | _ => False end) by (vm_compute; reflexivity).
  rewrite E in Hr. by rewrite Hr.
Defined.
